(* ===== verification/_CoqProject ===== *)
-Q . S2P
Prelude.v
Order.v
RustStr.v
Float64.v
FloatRound.v
FloatText.v
Json.v
ContractValue.v
ContractScenario.v
ContractAdapter.v
ContractProfile.v
ContractResult.v
ContractDocument.v
Sanitization.v
Stats.v
Ledger.v
Policy.v
Transport.v
Sanitize.v
Capture.v
Routing.v
Connection.v
Operation.v
ProbePolicy.v
ConfigProbe.v
TableProtocol.v
NamespaceProbe.v
TableProbe.v
CommitProbe.v
ProbeTrace.v
NamespaceProofs.v
TableProofs.v
CommitProofs.v
ProbeVerdicts.v
Protocol.v
Store.v
Workflow.v
WorkflowPhases.v
SampleWorld.v
WorkflowRound.v
Aggregate.v
AggregateProofs.v
Sweep.v
Samples.v
Witnesses.v
EngineParameters.v
EnginePlan.v
EnginePlanProofs.v
EngineSql.v
EngineRuntime.v
EngineEvents.v
EngineCatalog.v
EngineWorkflow.v
EngineProcess.v
EngineTrino.v
EngineDecode.v
EngineDuckDb.v
EngineChildProofs.v
EngineTrinoProcess.v
EngineAdapters.v
EngineTranscript.v
EngineTranscriptProofs.v
ToolFiles.v
Publication.v
Bundle.v
EngineReview.v
EngineReviewProofs.v
ProfileMaterialization.v
ProfileMaterializationProofs.v
CommunityPublication.v
LegacyCommit.v
Matrix.v
ContentionBundle.v
EngineBundle.v
Phase1Bundle.v
EngineSamples.v
ToolSamples.v
EngineWitnesses.v
BundleSamples.v
CommandLines.v
