(* ===== verification/Prelude.v ===== *)
(** * catalog-bench: a verification development (root file)

    catalog-bench measures and certifies Iceberg REST catalogs. This library
    models the Rust crates that decide what is published about a catalog, and
    proves that the published evidence means what it says.

    ** The program and the files that model it

    - [crates/common/src/contract/*]: the versioned documents (scenario,
      profile, result, bundle manifest) and their validation.
      [ContractValue] (value.rs, mod.rs: identifiers, digests, artifacts, the
      [Validate] trait as a type class), [ContractScenario], [ContractAdapter],
      [ContractProfile], [ContractResult], [ContractDocument] (manifest.rs,
      schema.rs: [parse_contract]).
    - [crates/common/src/sanitization.rs]: the audit of serialized evidence,
      [Sanitization].
    - [crates/commit]: the same-table commit contention benchmark. [Stats]
      (stats.rs, binary64 through [Float64], [FloatRound], [FloatText]),
      [Ledger] (model.rs), [Policy] (policy.rs), [Protocol] (protocol.rs),
      [Store] (store.rs), [Workflow] (workflow.rs), [Aggregate] (aggregate.rs
      and its transcript types), [Sweep] (sweep.rs, transcript.rs).
    - [crates/conformance]: the catalog session and the conformance probes.
      The session: [Transport] (bounded reads of transport.rs, routes of
      iceberg.rs, session requests of runtime.rs), [Sanitize] (sanitize.rs),
      [Capture] (evidence.rs, target.rs; transport.rs: authentication and
      captured exchanges), [Routing] (routing.rs and prefix
      resolution of config.rs), [Connection] (runtime.rs: connect_catalog).
      The probes: [Operation] (operation.rs, idempotency.rs: facts and the
      operation recorder), [ProbePolicy] (the scenario policies), [ConfigProbe]
      (config.rs), [TableProtocol] (table_protocol.rs), [NamespaceProbe]
      (namespace/), [TableProbe] (table/), [CommitProbe] (commit/). Their
      theorems: [ProbeTrace] (the program logic of recorded requests),
      [NamespaceProofs] (captures and the namespace probe), [TableProofs],
      [CommitProofs], [ProbeVerdicts]; witnesses against scripted catalogs in
      [Witnesses].

    - [crates/engine]: the matrix of stock query engines against catalogs.
      [EngineParameters] and [EnginePlan] (policy.rs: the scenario's parameters
      and the plan bound from the contracts; theorems in [EnginePlanProofs]),
      [EngineRuntime] (runtime.rs: pinned runtime files), [EngineEvents]
      (protocol.rs, execution.rs: the event protocol and its decoder), [EngineCatalog] (catalog.rs, negotiation.rs: the
      harness's own view of the catalog), [EngineWorkflow] (workflow.rs,
      reconcile.rs), [EngineProcess] (process.rs: child
      processes, their environment and output),
      [EngineSql], [EngineTrino], [EngineDuckDb] (sql.rs, flink.rs,
      trino.rs, trino_child.rs, duckdb.rs: rendered programs and the in-process
      runs; [EngineChildProofs]), [EngineTrinoProcess] (trino_process.rs),
      [EngineDecode] (strict_json.rs, iceberg_metadata.rs, trino_cli.rs), [EngineAdapters] (adapters.rs: the four stock
      runners and the connectors), [EngineTranscript]
      (transcript.rs, transcript/; [EngineTranscriptProofs]). [EngineSamples] is a
      laboratory in which a whole Spark run is evaluated, [EngineWitnesses] the
      witnesses and a printer of events.

    - [crates/contract-tool]: what is published. [ToolFiles] (what the crate uses
      of files, paths, UTF-8 with replacement, anyhow chains and the displays of
      the engine's errors), [Publication] (publication.rs: hashed reads, artifact references,
      canonical timestamps), [Bundle] (bundle.rs: loading a
      bundle with all its digests and links),
      [CommunityPublication] (community_publication.rs: the secret scan, the index
      and the known-gaps report), [Matrix] (matrix.rs, engine_matrix.rs),
      [EngineReview] (engine_evidence.rs, engine_review.rs:
      the admission of a transcript set and of its review; [EngineReviewProofs]),
      [ProfileMaterialization] (profile_materialization.rs) and
      [ProfileMaterializationProofs] (profile_runtime_policy.rs and the five
      *_profile.rs). The bundles the tool recomputes: [EngineBundle]
      (engine_bundle.rs: results of reviewed engine runs), [LegacyCommit]
      (legacy_commit.rs: the import of the historical tables),
      [ContentionBundle] (contention_bundle.rs: the reviewed contention sweep),
      [Phase1Bundle] (phase1_bundle.rs: the behavioral transcripts). Their
      samples and witnesses are in [ToolSamples] and [BundleSamples].

    - The programs around these crates and the evidence they leave:
      [CommandLines] (evidence_file.rs over a file system with inodes, hard links,
      faults and short writes; main.rs of crates/conformance, commit, engine and
      contract-tool with their exit codes; the generated schemas of schema.rs), with
      its own samples and witnesses at its end.

    The library files are [Prelude] (results, notations, tactics, machine
    bounds), [Order] (comparison functions, stable sort, BTreeMap order),
    [RustStr] (the string operations the code uses), [Json] (rendering and resolving JSON pointers). Concrete
    instances and end-to-end runs are in [SampleWorld] and [Samples], the
    witnesses of the theorems in [Witnesses] or next to the theorem.

    ** How the code is represented

    A Rust function is a Rocq function with the same name; [Result] is
    [result], the [?] operator is [let?] and [check?], an early [return Err] is
    [guard]. Integers are [Z] with the checked, saturating or wrapping
    operation the code uses at its width; [f64] is [spec_float] at binary64.
    Strings are byte strings (UTF-8), so byte lengths are lengths and character
    counts count non-continuation bytes. [BTreeMap] and [BTreeSet] are [gmap]
    and [gset], iterated in the order of their key comparison. A network, an
    object store or a clock is a world [W] that an operation takes and returns.

    Code outside the repository is a class parameter: the HTTP client
    ([HttpClient], [ClientBuilder]), the url crate ([UrlParser], [UrlOps],
    [UrlEdit], [FormCodec]), the object store ([ObjectStoreClient],
    [ObjectPaths]), serde ([ContractDecoders], [ParametersDecoder],
    [LoadTableDecoder], [Serialize], [JsonParser], [FromValue],
    [ToVecPretty], [RawJsonReader], [EventParser]), SHA-256 ([Sha256]), uuid ([UuidSource]) and the monotonic
    clock ([Clock]). Laws a theorem needs of them are its hypotheses or a class
    of their own ([ClockLaws], [Sha256Laws], [UrlLaws], [EventPrinter],
    [FlagIsNoString]); [SampleWorld], [Samples], [Witnesses] and
    [EngineSamples] instantiate all of them. For the engines the outside is also
    the file system ([FileSystem], [Staging], [PrivateFiles]), child processes
    ([Commands], [CliRuns], [ServerProcess], [DuckDbCli]) and the environment
    ([SecretSource], [ProcessEnv], [HostPlatform]): a child process is what it
    writes in chunks, when its reader and its exit are observed, and its status.
    For the contract tool the outside is a tree of files ([FileTree],
    [FileCreation]), the bundles a publication recomputes ([SourceBackedBundles],
    whose instance is [recomputed_bundles] of [Phase1Bundle]), the rows of a table ([TsvReader]) and the display of floats
    in messages ([FloatDisplay]); an error is its chain of contexts ([Chain]).

    A probe is a function of a state, the operation recorder and the world, in
    the small state-and-error monad of [Operation]; the requests it sends are
    the trace that [ProbeTrace] relates to the recorded transcript.

    The concurrent phase of a round is an explicit interleaving: a list of
    moves ([Step i] runs writer [i] to its next await point, [Panic i] kills
    its task) and the order in which the tasks are joined. The result is [None]
    when the interleaving stops before every writer ended;
    [concurrent_phase_ends] shows that every fair interleaving is long enough.
    The loops with fuel are the probe loop of a Trino server ([await_server]:
    [start_fuel] is a turn per probe interval and two more, and
    [server_start_returns] shows that it is enough) and the walks of a directory
    ([collect_output_entries], [discover_json], [collect_json_files]: the depth is
    the fuel, and [engine_bundle_check_returns], [phase1_check_returns] and
    [validation_returns] show that the height of the tree is enough), and
    [write_all], which needs one turn per byte at most ([calm_write_all]). Other loops are structural recursions.

    ** What the theorems show

    - Rounds ([WorkflowRound], by [WorkflowPhases]): every answer the catalog
      gave is counted exactly once under every interleaving; a failed writer
      fails its phase; a round always cleans up; a passing round is backed by
      the catalog's answers, the final table and the object store.
    - Ledger: recording and merging refine appending and concatenating lists of
      events (an abstract specification, [represents]); what [finish] publishes
      is a function of the events.
    - Sweep and aggregation ([Sweep], [AggregateProofs]): the published
      rounds are the slots of the plan, the verdict is "every round passed",
      the ranking is sorted, the transcript contains no secret.
    - Statistics: nearest-rank quantiles despite binary64 rounding, order
      independence, exact errors.
    - Policy, protocol, store, transport: balanced schedules, isolated
      fixtures, classification of responses, containment of metadata paths,
      exact object counts, bounded and redacted reads.
    - Sanitisation and capture ([Sanitize], [NamespaceProofs]): published JSON has
      no secret-like member and no credential, its redaction pointers resolve;
      authentication fails closed; a session exists only after negotiation.
    - Probes ([NamespaceProofs], [TableProofs], [CommitProofs]): whatever the
      catalog answers, a probe sends a bounded number of requests, lists exactly
      those in its transcript, mutates only its own fixture and only after a
      clean preflight, and then always ends with its cleanup. A passing verdict
      means the behaviour was witnessed in the answers to the run's own requests,
      each sent in the state the one before left ([exchange]): complete pagination,
      a commit applied once, rejected stale requirements, the whole commit run from
      its preflight to its cleanup ([ProbeVerdicts]). The config probe judges the
      redacted body: its map check accepts exactly the private answers whose maps
      hold strings outside secret-like names, so it is blind to the others.
    - Engines: a plan binds catalog, engine, connector and pinned files
      ([EnginePlanProofs]); whatever a child process writes, in whatever chunks,
      the captured events follow the closed protocol and a printed run is read
      back ([EngineEvents]); in-process runs always return a lawful run and
      only look until they found the fixture absent ([EngineChildProofs]); the
      workflow touches no fixture the engine did not create and cleans up every
      one it did ([EngineWorkflow]); a passing transcript has witnessed the
      whole scenario, a published one is sanitized, and validation accepts exactly
      the transcripts derived from an execution ([EngineTranscriptProofs]). The
      development also shows two divergences: a preflight query that fails is a
      fixture collision for DuckDB and a failure for Trino, and a Flink child never
      inherits the harness's Flink home.
    - Publication: a loaded bundle is closed under its references and every byte
      it names has the stated digest ([Bundle]); a publication that checks
      is the rendered one and holds no secret at any depth
      ([CommunityPublication]); timestamps are accepted exactly in canonical
      form and ordered as instants ([Publication]); a valid review is bound
      to the complete evidence it reviewed, and checking one never panics
      ([EngineReviewProofs]); a matrix ranks exactly the passing results
      ([Matrix]); a materialized profile narrows its source and replaces
      only observed images, what is written checks, and every shipped policy can
      be met ([ProfileMaterializationProofs]).
    - Recomputed bundles: an engine bundle that checks is what its reviewed
      transcripts give and nothing else below its directory, an admitted
      transcript always has a result with the verdicts of its checks, writing
      changes no existing file ([EngineBundle], whose walk of the directory has the
      depth as fuel, enough for every tree of that height); the historical results pass exactly the
      catalogs the pinned tables call eligible ([LegacyCommit], which accepts
      the tables of the repository); the results of the contention sweep pass exactly
      the catalogs whose scheduled rounds all passed in the pinned transcript, its
      counters are exact, and every failed catalog has one review whose error counts
      are those of the transcript ([ContentionBundle]); a behavioral bundle holds the
      twenty-five results of its matrix and nothing else, each bound to the transcript,
      the scenario and the profiles that the files under the root hold, and checking one returns for
      every tree no deeper than the fuel ([Phase1Bundle]).
    - Programs ([CommandLines]): evidence is published whole or not at all, at a new
      name, whatever call fails, and once published it outlives a crash
      ([evidence_publication_is_atomic]; a synchronised directory makes its own names
      durable and no others), and it is published
      when no call fails ([new_evidence_is_published]); the exit status of a program is
      the verdict of the evidence it published; the validator accepts exactly the
      sets of files that hold contracts; schemas that were written pass the check.
    - Contracts: validation is sound and complete for scenarios; profiles pin
      artifacts and match adapters to catalogs; results cite existing evidence.

    ** Not modelled

    Tokio's scheduler beyond the interleavings above; reqwest, url, serde and
    object_store themselves; [Debug] formatting; the derivation of JSON schemas
    (schemars) and the parsing of arguments (clap); the names the tempfile crate
    chooses, which are a parameter; the older stand-alone benchmarks with their
    shared helpers and driver (measurement loops around third-party clients); the Python renderer of the Spark program and the Java
    runner of the Flink program, which are other languages. *)

From stdpp Require Export base gmap strings list sets sorting numbers pretty.
From Stdlib Require Export ZArith Lia.

(** ** Results: Rust's [Result<A, E>] and the [?] operator *)

Inductive result (A E : Type) : Type :=
| Ok (a : A)
| Err (e : E).
Arguments Ok {A E} a.
Arguments Err {A E} e.

Declare Scope rust_scope.
Delimit Scope rust_scope with rust.

(** [let? x := e in k] is Rust's [let x = e?; k]. *)
Notation "'let?' x ':=' c 'in' k" :=
  (match c with Ok x => k | Err e => Err e end)
  (at level 10, x pattern, c at level 100, k at level 200) : rust_scope.
(** [check? e in k] is Rust's [e?; k] for a unit result. *)
Notation "'check?' c 'in' k" :=
  (match c with Ok _ => k | Err e => Err e end)
  (at level 10, c at level 100, k at level 200) : rust_scope.
(** [guard c or e in k] is Rust's [if c { return Err(e) } k]. *)
Notation "'guard' c 'or' e 'in' k" :=
  (if c then Err e else k)
  (at level 10, c at level 100, e at level 100, k at level 200) : rust_scope.
Open Scope rust_scope.

Definition is_ok {A E} (r : result A E) : bool :=
  match r with Ok _ => true | Err _ => false end.

Definition map_err {A E F} (f : E -> F) (r : result A E) : result A F :=
  match r with Ok a => Ok a | Err e => Err (f e) end.

Definition result_map {A B E} (f : A -> B) (r : result A E) : result B E :=
  match r with Ok a => Ok (f a) | Err e => Err e end.

Definition ok_or {A E} (o : option A) (e : E) : result A E :=
  match o with Some a => Ok a | None => Err e end.

(** [iter.map(f).collect::<Result<Vec<_>, _>>()]: stops at the first error. *)
Fixpoint collect_results {A B E} (f : A -> result B E) (l : list A)
  : result (list B) E :=
  match l with
  | [] => Ok []
  | a :: l' =>
      let? b := f a in
      let? bs := collect_results f l' in
      Ok (b :: bs)
  end.

(** [iter.try_fold(init, f)]. *)
Fixpoint try_fold {A B E} (f : B -> A -> result B E) (acc : B) (l : list A)
  : result B E :=
  match l with
  | [] => Ok acc
  | a :: l' => let? acc' := f acc a in try_fold f acc' l'
  end.

Definition is_some_and {A} (p : A -> bool) (o : option A) : bool :=
  match o with Some a => p a | None => false end.

Lemma is_some_and_true {A} (p : A -> bool) (o : option A) :
  is_some_and p o = true <-> exists a, o = Some a /\ p a = true.
Proof. destruct o; naive_solver. Qed.

Lemma map_err_Ok_iff {A E F} (f : E -> F) (r : result A E) a : map_err f r = Ok a <-> r = Ok a.
Proof. destruct r; simpl; split; congruence. Qed.

Lemma ok_or_Ok {A E} (o : option A) (e : E) a : ok_or o e = Ok a <-> o = Some a.
Proof. destruct o; simpl; split; congruence. Qed.

(** Steps through the [?]s and guards of a computation that succeeded. *)
Ltac inspect_success H :=
  repeat match type of H with
  | (match ?x with Ok _ => _ | Err _ => _ end) = Ok _ => destruct x eqn:?; [|discriminate H]
  | (if ?b then _ else _) = Ok _ => destruct b eqn:?; [discriminate H|]
  | (let '_ := ?x in _) = Ok _ => destruct x eqn:?
  end.

Lemma collect_results_Ok {A B E} (f : A -> result B E) l bs :
  collect_results f l = Ok bs <-> Forall2 (fun a b => f a = Ok b) l bs.
Proof.
  revert bs; induction l as [|a l IH]; intros bs; simpl.
  - split; [intros [= <-]; constructor | by inversion 1].
  - split.
    + destruct (f a) eqn:?; [|done].
      destruct (collect_results f l) eqn:?; [|done].
      intros [= <-]. constructor; [done|]. by apply IH.
    + inversion 1 as [|?? ?? Hb Hbs]; subst.
      rewrite Hb. apply IH in Hbs. by rewrite Hbs.
Qed.

(** Element-wise [==] of derived [PartialEq] implementations. *)
Fixpoint list_eqb {A} (eqb : A -> A -> bool) (l k : list A) : bool :=
  match l, k with
  | [], [] => true
  | x :: l', y :: k' => eqb x y && list_eqb eqb l' k'
  | _, _ => false
  end.

Definition map_eqb {K V} `{Countable K} (eqb : V -> V -> bool) (m n : gmap K V) : bool :=
  (size m =? size n)%nat
  && forallb (fun kv => match n !! kv.1 with Some w => eqb kv.2 w | None => false end)
       (map_to_list m).

(** ** Machine integers

    Unsigned machine integers are [Z] values together with the range their
    Rust type gives them; [usize] is 64 bits wide, the width of every target
    the harness is built for. *)

Definition u8_max : Z := 255.
Definition u16_max : Z := 65535.
Definition u32_max : Z := 4294967295.
Definition u64_max : Z := 18446744073709551615.
Definition usize_max : Z := u64_max.

Definition in_range (max n : Z) : Prop := (0 <= n <= max)%Z.
Abbreviation in_u8 := (in_range u8_max).
Abbreviation in_u16 := (in_range u16_max).
Abbreviation in_u32 := (in_range u32_max).
Abbreviation in_u64 := (in_range u64_max).

Definition checked_add (max a b : Z) : option Z :=
  if (a + b <=? max)%Z then Some (a + b)%Z else None.
Definition checked_sub (a b : Z) : option Z :=
  if (b <=? a)%Z then Some (a - b)%Z else None.
Definition saturating_sub (a b : Z) : Z := Z.max 0 (a - b).
(** [T::try_from(n)] on a non-negative [n]. *)
Definition try_from (max n : Z) : option Z :=
  if (n <=? max)%Z then Some n else None.

Lemma checked_add_Some max a b c :
  checked_add max a b = Some c <-> (c = a + b /\ a + b <= max)%Z.
Proof. unfold checked_add. destruct (Z.leb_spec (a + b) max); naive_solver lia. Qed.

Lemma checked_add_None max a b :
  checked_add max a b = None <-> (max < a + b)%Z.
Proof. unfold checked_add. destruct (Z.leb_spec (a + b) max); naive_solver lia. Qed.

Lemma checked_sub_Some a b c :
  checked_sub a b = Some c <-> (c = a - b /\ b <= a)%Z.
Proof. unfold checked_sub. destruct (Z.leb_spec b a); naive_solver lia. Qed.

(** The length of a Rust vector, as a [usize]. *)
Definition len {A} (l : list A) : Z := Z.of_nat (length l).

Lemma len_nonneg {A} (l : list A) : (0 <= len l)%Z.
Proof. unfold len; lia. Qed.

Lemma len_app {A} (l k : list A) : len (l ++ k) = (len l + len k)%Z.
Proof. unfold len. rewrite length_app. lia. Qed.

Lemma len_nil {A} : len (@nil A) = 0%Z.
Proof. done. Qed.

Lemma len_cons {A} (a : A) l : len (a :: l) = (1 + len l)%Z.
Proof. unfold len; simpl; lia. Qed.

Lemma len_zero {A} (l : list A) : len l = 0%Z <-> l = [].
Proof. unfold len; destruct l; simpl; split; intros; try done; lia. Qed.

(** ** Lists *)

(** [iter.enumerate().map(f).collect()], the first index being [index]. *)
Definition index_map {A B} (f : Z -> A -> B) : Z -> list A -> list B :=
  fix go (index : Z) (l : list A) :=
    match l with
    | [] => []
    | a :: l' => f index a :: go (index + 1)%Z l'
    end.

Lemma index_map_imap {A B} (f : Z -> A -> B) k l :
  index_map f (Z.of_nat k) l = imap (fun i a => f (Z.of_nat (k + i)%nat) a) l.
Proof.
  revert k. induction l as [|a l IH]; intros k; [done|]. rewrite imap_cons, Nat.add_0_r. cbn. f_equal.
  replace (Z.of_nat k + 1)%Z with (Z.of_nat (S k)) by lia. rewrite IH. apply imap_ext.
  intros i x _. by replace (S k + i)%nat with (k + S i)%nat by lia.
Qed.

(** In a list whose keys are distinct, the key determines the position. *)
Lemma NoDup_key_lookup {A B} (key : A -> B) (l : list A) i j x y :
  NoDup (key <$> l) -> l !! i = Some x -> l !! j = Some y -> key x = key y -> i = j.
Proof.
  intros Hnd Hi Hj Hk. eapply (NoDup_lookup (key <$> l) i j (key x)); [done|..];
    rewrite list_lookup_fmap; [by rewrite Hi | rewrite Hj, Hk; done].
Qed.

Lemma forall_lookup_elem {A} (P : A -> Prop) (l : list A) :
  (forall i x, l !! i = Some x -> P x) <-> forall x, x ∈ l -> P x.
Proof. setoid_rewrite list_elem_of_lookup. naive_solver. Qed.

Lemma length_filter_all {A} (P : A -> Prop) `{forall x, Decision (P x)} (l : list A) :
  (forall x, x ∈ l -> P x) -> length (filter P l) = length l.
Proof.
  induction l as [|x l IH]; intros HP; [done|].
  rewrite filter_cons_True by (apply HP; left). simpl. rewrite IH; [done|]. intros. apply HP. by right.
Qed.

Lemma length_filter_none {A} (P : A -> Prop) `{forall x, Decision (P x)} (l : list A) :
  (forall x, x ∈ l -> ~ P x) -> length (filter P l) = 0%nat.
Proof.
  induction l as [|x l IH]; intros HP; [done|].
  rewrite filter_cons_False by (apply HP; left). apply IH. intros. apply HP. by right.
Qed.

Lemma length_filter_disjoint {A} (P Q : A -> Prop) `{forall x, Decision (P x)}
    `{forall x, Decision (Q x)} (l : list A) :
  (forall x, P x -> Q x -> False) ->
  (length (filter P l) + length (filter Q l) <= length l)%nat.
Proof.
  intros HPQ. induction l as [|x l IH]; [done|]. rewrite !filter_cons.
  destruct (decide (P x)), (decide (Q x)); simpl; [by destruct (HPQ x)|lia..].
Qed.

(** ** Automation

    [brust] turns the boolean guards the translated code is written with into
    propositions; [break_match] case-splits the match a hypothesis or the goal
    is stuck on. *)

Create HintDb rust discriminated.
Create Rewrite HintDb rust.

Lemma bool_decide_iff_true (P : Prop) `{Decision P} : bool_decide P = true <-> P.
Proof. apply bool_decide_eq_true. Qed.
Lemma bool_decide_iff_false (P : Prop) `{Decision P} : bool_decide P = false <-> ~ P.
Proof. apply bool_decide_eq_false. Qed.

#[export] Hint Rewrite andb_true_iff andb_false_iff orb_true_iff orb_false_iff
  negb_true_iff negb_false_iff Z.eqb_eq Z.eqb_neq Z.ltb_lt Z.ltb_ge Z.leb_le
  Z.leb_gt Nat.eqb_eq Nat.eqb_neq Nat.ltb_lt Nat.ltb_ge Nat.leb_le Nat.leb_gt
  @bool_decide_iff_true @bool_decide_iff_false String.eqb_eq String.eqb_neq
  @is_some_and_true
  : rust.

Tactic Notation "brust" := autorewrite with rust.
Tactic Notation "brust" "in" hyp(H) := autorewrite with rust in H.
Tactic Notation "brust" "in" "*" := autorewrite with rust in *.

Ltac break_match_in H :=
  match type of H with
  | context [match ?x with _ => _ end] =>
      lazymatch x with
      | context [match _ with _ => _ end] => fail
      | _ => let E := fresh "E" in destruct x eqn:E
      end
  end.

Ltac break_match :=
  match goal with
  | |- context [match ?x with _ => _ end] =>
      lazymatch x with
      | context [match _ with _ => _ end] => fail
      | _ => let E := fresh "E" in destruct x eqn:E
      end
  end.

(** [inv_ok H] peels every [let?] and [guard] of [H : body = Ok _]. *)
Ltac inv_ok H := repeat (break_match_in H; try discriminate H).

(** Proves a decidable closed proposition by evaluating its decision. *)
Ltac by_decide :=
  match goal with |- ?P => refine (bool_decide_eq_true_1 P _); vm_compute; reflexivity end.

(** Evaluates the closed boolean an [if] hypothesis is stuck on. *)
Ltac eval_if H :=
  match type of H with
  | if ?b then _ else _ =>
      let v := eval vm_compute in b in
      replace b with v in H by (vm_compute; reflexivity); cbv iota in H
  end.
