(* ===== verification/Order.v ===== *)
(** * Ordering, stable sorting and B-tree iteration order

    What the harness uses of [std::cmp::Ordering], [slice::sort_by] (a stable
    sort), and the key order in which [BTreeMap] and [BTreeSet] are iterated.
    A B-tree map is a [gmap] and a B-tree set is a [gset]; only where the code
    iterates over one does the key order matter, and there [btree_entries] and
    [btree_elements] give it. *)

From S2P Require Import Prelude.
(** ** Comparison functions *)

(** [Ordering::then_with]. *)
Definition then_with (c : comparison) (d : comparison) : comparison :=
  match c with Eq => d | _ => c end.

(** A comparison function that is a total order: what [sort_by] requires of
    its argument. [cmp_eq] says that elements it calls equal are equal, which
    makes the sorted list unique. *)
Class TotalCmp {A : Type} (cmp : A -> A -> comparison) : Prop := {
  cmp_opp : forall x y, cmp y x = CompOpp (cmp x y);
  cmp_trans : forall x y z, cmp x y <> Gt -> cmp y z <> Gt -> cmp x z <> Gt;
}.
Class StrictCmp {A : Type} (cmp : A -> A -> comparison) : Prop := {
  strict_total :: TotalCmp cmp;
  cmp_eq : forall x y, cmp x y = Eq -> x = y;
}.

Arguments cmp_opp {A} cmp {_} x y.
Arguments cmp_trans {A} cmp {_} x y z.
Arguments cmp_eq {A} cmp {_} x y.

Section TotalCmpLemmas.
Context {A : Type} (cmp : A -> A -> comparison) `{!TotalCmp cmp}.

Lemma cmp_refl x : cmp x x = Eq.
Proof. pose proof (cmp_opp cmp x x) as H. by destruct (cmp x x). Qed.

Lemma cmp_total x y : cmp x y <> Gt \/ cmp y x <> Gt.
Proof. rewrite (cmp_opp cmp x y). destruct (cmp x y); simpl; auto. Qed.

Lemma cmp_lt_trans x y z : cmp x y = Lt -> cmp y z <> Gt -> cmp x z = Lt.
Proof.
  intros Hxy Hyz. destruct (cmp x z) eqn:Hxz; [exfalso|done|exfalso].
  - assert (cmp z x <> Gt) as Hzx by (rewrite (cmp_opp cmp x z), Hxz; done).
    apply (cmp_trans cmp y z x Hyz Hzx). by rewrite (cmp_opp cmp x y), Hxy.
  - apply (cmp_trans cmp x y z); [by rewrite Hxy | done | done].
Qed.
End TotalCmpLemmas.

(** Comparison through a key, and lexicographic comparison. *)
Definition cmp_on {A B} (f : A -> B) (cmp : B -> B -> comparison) (x y : A) :=
  cmp (f x) (f y).
Definition cmp_flip {A} (cmp : A -> A -> comparison) (x y : A) := cmp y x.
Definition cmp_lex {A} (c d : A -> A -> comparison) (x y : A) : comparison :=
  then_with (c x y) (d x y).

#[global] Typeclasses Opaque cmp_on cmp_flip cmp_lex.

#[export] Instance cmp_on_total {A B} (f : A -> B) cmp :
  TotalCmp cmp -> TotalCmp (cmp_on f cmp).
Proof.
  intros H. split; unfold cmp_on; intros; [by apply cmp_opp|].
  by eapply cmp_trans.
Qed.

#[export] Instance cmp_flip_total {A} (cmp : A -> A -> comparison) :
  TotalCmp cmp -> TotalCmp (cmp_flip cmp).
Proof.
  intros H. split; unfold cmp_flip; intros; [by apply cmp_opp|].
  by eapply cmp_trans.
Qed.

#[export] Instance cmp_lex_total {A} (c d : A -> A -> comparison) :
  TotalCmp c -> TotalCmp d -> TotalCmp (cmp_lex c d).
Proof.
  intros Hc Hd. split; unfold cmp_lex; intros x y.
  - rewrite (cmp_opp c x y), (cmp_opp d x y).
    by destruct (c x y), (d x y).
  - intros z Hxy Hyz.
    destruct (c x y) eqn:Exy; simpl in *; [| |done].
    + destruct (c y z) eqn:Eyz; simpl in *; [| |done].
      * destruct (c x z) eqn:Exz; simpl; [by eapply (cmp_trans d x y z)|done|].
        exfalso. apply (cmp_trans c x y z); congruence.
      * assert (c x z = Lt) as ->; [|done].
        pose proof (cmp_lt_trans c y z x Eyz) as H.
        destruct (c x z) eqn:Exz; [exfalso|done|exfalso].
        -- assert (c y x = Lt) as Hyx
             by (apply H; rewrite (cmp_opp c x z), Exz; done).
           by rewrite (cmp_opp c x y), Exy in Hyx.
        -- apply (cmp_trans c x y z); congruence.
    + assert (c x z = Lt) as ->; [|done].
      apply (cmp_lt_trans c x y z Exy). by destruct (c y z).
Qed.

#[export] Instance Zcompare_strict : StrictCmp Z.compare.
Proof.
  split; [split|].
  - intros. apply Z.compare_antisym.
  - intros x y z. rewrite !Z.compare_le_iff. lia.
  - intros x y. apply Z.compare_eq.
Qed.

Lemma string_compare_lt_cons a s t :
  String.compare (String a s) (String a t) = String.compare s t.
Proof. simpl. unfold Ascii.compare. by rewrite N.compare_refl. Qed.

Lemma ascii_compare_eq a b : Ascii.compare a b = Eq -> a = b.
Proof.
  unfold Ascii.compare. intros H%N.compare_eq.
  rewrite <-(Ascii.ascii_N_embedding a), <-(Ascii.ascii_N_embedding b). congruence.
Qed.

#[export] Instance string_compare_strict : StrictCmp String.compare.
Proof.
  split; [split|].
  - intros x y. apply String.compare_antisym.
  - intros x; induction x as [|a x IH]; intros [|b y] [|c z]; simpl; try done.
    unfold Ascii.compare.
    destruct (N.compare_spec (Ascii.N_of_ascii a) (Ascii.N_of_ascii b)) as [Hab|Hab|Hab];
    destruct (N.compare_spec (Ascii.N_of_ascii b) (Ascii.N_of_ascii c)) as [Hbc|Hbc|Hbc];
    destruct (N.compare_spec (Ascii.N_of_ascii a) (Ascii.N_of_ascii c)) as [Hac|Hac|Hac];
    intros; try done; try lia; eauto.
  - intros x y. apply String.compare_eq_iff.
Qed.

(** ** Stable sorting: [slice::sort_by] *)

Section SortBy.
Context {A : Type} (cmp : A -> A -> comparison).

(** Insert before the first element that is not smaller: elements that
    compare equal keep their relative order. *)
Fixpoint sorted_insert (x : A) (l : list A) : list A :=
  match l with
  | [] => [x]
  | y :: l' => match cmp x y with
               | Gt => y :: sorted_insert x l'
               | _ => x :: l
               end
  end.
Definition sort_by (l : list A) : list A := foldr sorted_insert [] l.

Definition cmp_le (x y : A) : Prop := cmp x y <> Gt.

Lemma sorted_insert_perm x l : sorted_insert x l ≡ₚ x :: l.
Proof.
  induction l as [|y l IH]; simpl; [done|].
  destruct (cmp x y); [done..|]. rewrite IH. apply perm_swap.
Qed.

Lemma sort_by_perm l : sort_by l ≡ₚ l.
Proof.
  induction l as [|x l IH]; simpl; [done|].
  by rewrite sorted_insert_perm, IH.
Qed.

Lemma length_sort_by l : length (sort_by l) = length l.
Proof. by rewrite sort_by_perm. Qed.

Lemma elem_of_sort_by x l : x ∈ sort_by l <-> x ∈ l.
Proof. by rewrite sort_by_perm. Qed.

Context `{!TotalCmp cmp}.

Lemma sorted_insert_sorted x l :
  StronglySorted cmp_le l -> StronglySorted cmp_le (sorted_insert x l).
Proof.
  induction 1 as [|y l Hl IH Hy]; simpl; [repeat constructor|].
  destruct (cmp x y) eqn:Exy.
  - constructor; [by constructor|].
    constructor; [by unfold cmp_le; rewrite Exy|].
    eapply Forall_impl; [done|]. intros z Hz.
    eapply (cmp_trans cmp x y); [by rewrite Exy | done].
  - constructor; [by constructor|].
    constructor; [by unfold cmp_le; rewrite Exy|].
    eapply Forall_impl; [done|]. intros z Hz.
    eapply (cmp_trans cmp x y); [by rewrite Exy | done].
  - constructor; [done|].
    rewrite sorted_insert_perm. constructor; [|done].
    unfold cmp_le. rewrite (cmp_opp cmp x y), Exy. done.
Qed.

Lemma sort_by_sorted l : StronglySorted cmp_le (sort_by l).
Proof.
  induction l as [|x l IH]; simpl; [constructor|].
  by apply sorted_insert_sorted.
Qed.
End SortBy.

Lemma strongly_sorted_unique {A} (cmp : A -> A -> comparison) `{!StrictCmp cmp} l k :
  StronglySorted (cmp_le cmp) l -> StronglySorted (cmp_le cmp) k -> l ≡ₚ k -> l = k.
Proof.
  intros Hl Hk Hp.
  assert (AntiSymm (=) (cmp_le cmp)).
  { intros x y Hxy Hyx. apply (cmp_eq cmp x y). unfold cmp_le in *.
    rewrite (cmp_opp cmp x y) in Hyx. by destruct (cmp x y). }
  by eapply (StronglySorted_unique (cmp_le cmp)).
Qed.

(** Two positions of a sorted list are ordered as their indices are. *)
Lemma strongly_sorted_lookup_lt {A} (R : A -> A -> Prop) (l : list A) :
  StronglySorted R l -> forall i j x y, (i < j)%nat ->
  l !! i = Some x -> l !! j = Some y -> R x y.
Proof.
  induction 1 as [|a l Hl IH Ha]; intros i j x y Hij Hx Hy; [done|].
  destruct i as [|i], j as [|j]; simpl in *; simplify_eq; try lia.
  - rewrite Forall_lookup in Ha. eauto.
  - eapply IH; [|done..]. lia.
Qed.

Lemma strongly_sorted_lookup {A} (R : A -> A -> Prop) `{!Reflexive R} (l : list A) :
  StronglySorted R l -> forall i j x y, (i <= j)%nat ->
  l !! i = Some x -> l !! j = Some y -> R x y.
Proof.
  intros Hs i j x y Hij Hx Hy. destruct (decide (i = j)) as [->|Hne].
  - by simplify_eq.
  - eapply (strongly_sorted_lookup_lt R l Hs i j); [lia|done..].
Qed.

#[export] Instance cmp_le_reflexive {A} (cmp : A -> A -> comparison) `{!TotalCmp cmp} :
  Reflexive (cmp_le cmp).
Proof. intros x. unfold cmp_le. by rewrite cmp_refl. Qed.

(** ** B-tree iteration *)

Section BTree.
Context {K : Type} `{Countable K} (cmp : K -> K -> comparison).

Definition btree_entries {V} (m : gmap K V) : list (K * V) :=
  sort_by (cmp_on fst cmp) (map_to_list m).
Definition btree_elements (s : gset K) : list K := sort_by cmp (elements s).

Lemma elem_of_btree_entries {V} (m : gmap K V) k v :
  (k, v) ∈ btree_entries m <-> m !! k = Some v.
Proof. unfold btree_entries. rewrite elem_of_sort_by. apply elem_of_map_to_list. Qed.

Lemma btree_entries_perm {V} (m : gmap K V) : btree_entries m ≡ₚ map_to_list m.
Proof. apply sort_by_perm. Qed.

Lemma elem_of_btree_elements (s : gset K) k : k ∈ btree_elements s <-> k ∈ s.
Proof. unfold btree_elements. rewrite elem_of_sort_by. apply elem_of_elements. Qed.

Lemma NoDup_btree_elements (s : gset K) : NoDup (btree_elements s).
Proof. unfold btree_elements. rewrite sort_by_perm. apply NoDup_elements. Qed.

Lemma btree_elements_nil (s : gset K) : btree_elements s = [] <-> s = ∅.
Proof.
  split; [|intros ->; unfold btree_elements; rewrite elements_empty; reflexivity].
  intros Hs. apply leibniz_equiv, elem_of_equiv_empty. intros x.
  rewrite <-elem_of_btree_elements, Hs. apply not_elem_of_nil.
Qed.
End BTree.
