(* ===== verification/RustStr.v ===== *)
(** * Rust strings

    A Rust [String] is modelled as the [string] of its UTF-8 bytes. This file
    defines what the harness uses of [str]: byte classes, emptiness after
    [trim], searching, replacing, character-wise truncation, and the decimal
    [Display] of integers. *)

From S2P Require Import Prelude Order.
From Stdlib Require Import Ascii.
Open Scope string_scope.

(** ** Bytes and byte classes *)

Definition code (a : ascii) : Z := Z.of_N (N_of_ascii a).
Definition between (lo hi : Z) (a : ascii) : bool :=
  ((lo <=? code a) && (code a <=? hi))%Z.

Definition is_ascii_digit : ascii -> bool := between 48 57.
Definition is_ascii_lowercase : ascii -> bool := between 97 122.
Definition is_ascii_uppercase : ascii -> bool := between 65 90.
Definition is_ascii_alphabetic (a : ascii) : bool :=
  is_ascii_lowercase a || is_ascii_uppercase a.
Definition is_ascii_alphanumeric (a : ascii) : bool :=
  is_ascii_alphabetic a || is_ascii_digit a.
Definition is_ascii_hexdigit (a : ascii) : bool :=
  is_ascii_digit a || between 97 102 a || between 65 70 a.
Definition is_byte (n : Z) (a : ascii) : bool := (code a =? n)%Z.

Definition bytes (s : string) : list ascii := String.list_ascii_of_string s.
Definition str_len (s : string) : Z := Z.of_nat (String.length s).
Definition all_bytes (p : ascii -> bool) (s : string) : bool := forallb p (bytes s).

(** ** Unicode white space

    [char::is_whitespace] on the UTF-8 encoding: the one-, two- and three-byte
    encodings of the [White_Space] code points. *)

Definition ws1 (a : ascii) : bool := between 9 13 a || is_byte 32 a.
Definition ws2 (a b : ascii) : bool :=
  is_byte 194 a && (is_byte 133 b || is_byte 160 b).
Definition ws3 (a b c : ascii) : bool :=
  (is_byte 225 a && is_byte 154 b && is_byte 128 c)
  || (is_byte 226 a && is_byte 128 b
      && (between 128 138 c || is_byte 168 c || is_byte 169 c || is_byte 175 c))
  || (is_byte 226 a && is_byte 129 b && is_byte 159 c)
  || (is_byte 227 a && is_byte 128 b && is_byte 128 c).

(** [s.trim().is_empty()]: every character of [s] is white space. *)
Fixpoint blank (s : string) : bool :=
  match s with
  | EmptyString => true
  | String a s1 =>
      if ws1 a then blank s1 else
      match s1 with
      | EmptyString => false
      | String b s2 =>
          if ws2 a b then blank s2 else
          match s2 with
          | EmptyString => false
          | String c s3 => if ws3 a b c then blank s3 else false
          end
      end
  end.

(** [s.trim()]: a suffix of white space starts at a character boundary, since
    no white-space encoding starts with a continuation byte. *)
Fixpoint trim_end (s : string) : string :=
  match s with
  | EmptyString => EmptyString
  | String a s1 => if blank s then EmptyString else String a (trim_end s1)
  end.
Fixpoint trim_start (s : string) : string :=
  match s with
  | EmptyString => EmptyString
  | String a s1 =>
      if ws1 a then trim_start s1 else
      match s1 with
      | EmptyString => s
      | String b s2 =>
          if ws2 a b then trim_start s2 else
          match s2 with
          | EmptyString => s
          | String c s3 => if ws3 a b c then trim_start s3 else s
          end
      end
  end.
Definition trim (s : string) : string := trim_end (trim_start s).

(** [s.chars().any(char::is_whitespace)]; an encoding can only occur at a
    character boundary, so every byte offset may be tried. *)
Fixpoint has_whitespace (s : string) : bool :=
  match s with
  | EmptyString => false
  | String a s1 =>
      ws1 a
      || (match s1 with
          | EmptyString => false
          | String b s2 =>
              ws2 a b
              || (match s2 with EmptyString => false | String c _ => ws3 a b c end)
          end)
      || has_whitespace s1
  end.

(** ** Searching and rewriting *)

Definition is_empty (s : string) : bool :=
  match s with EmptyString => true | _ => false end.
Definition starts_with (p s : string) : bool := String.prefix p s.

Fixpoint ends_with (suffix s : string) : bool :=
  String.eqb s suffix
  || match s with EmptyString => false | String _ s' => ends_with suffix s' end.

(** [s.contains(needle)]. *)
Fixpoint contains (needle s : string) : bool :=
  String.prefix needle s
  || match s with EmptyString => false | String _ s' => contains needle s' end.
Definition contains_byte (n : Z) (s : string) : bool := existsb (is_byte n) (bytes s).

Fixpoint map_bytes (f : ascii -> ascii) (s : string) : string :=
  match s with EmptyString => EmptyString | String a s' => String (f a) (map_bytes f s') end.

Definition lower_byte (a : ascii) : ascii :=
  if is_ascii_uppercase a then ascii_of_N (N_of_ascii a + 32) else a.
Definition to_ascii_lowercase : string -> string := map_bytes lower_byte.
Definition replace_byte (from : Z) (to : ascii) : string -> string :=
  map_bytes (fun a => if is_byte from a then to else a).

(** [s.replace(pat, to)] for a non-empty [pat]: left to right, without
    overlaps. [skip] counts the bytes of the current match still to drop. *)
Fixpoint replace_go (pat to : string) (skip : nat) (s : string) : string :=
  match s with
  | EmptyString => EmptyString
  | String a s' =>
      match skip with
      | S k => replace_go pat to k s'
      | O => if String.prefix pat s
             then to +:+ replace_go pat to (String.length pat - 1) s'
             else String a (replace_go pat to 0 s')
      end
  end.
Definition replace (pat to s : string) : string := replace_go pat to 0 s.

(** UTF-8 continuation bytes, and [chars().take(n)]. *)
Definition is_continuation : ascii -> bool := between 128 191.
Fixpoint char_count (s : string) : nat :=
  match s with
  | EmptyString => 0
  | String a s' => (if is_continuation a then 0 else 1) + char_count s'
  end.
Fixpoint take_chars (n : nat) (s : string) : string :=
  match s with
  | EmptyString => EmptyString
  | String a s' =>
      if is_continuation a then String a (take_chars n s') else
      match n with O => EmptyString | S k => String a (take_chars k s') end
  end.

(** [s.trim_start_matches(c)]. *)
Fixpoint trim_start_matches (n : Z) (s : string) : string :=
  match s with
  | String a s' => if is_byte n a then trim_start_matches n s' else s
  | EmptyString => EmptyString
  end.

(** [trim_end_matches(char)] for an ASCII character. *)
Fixpoint trim_end_matches (n : Z) (s : string) : string :=
  match s with
  | EmptyString => EmptyString
  | String a s =>
      match trim_end_matches n s with
      | EmptyString => if is_byte n a then EmptyString else String a EmptyString
      | rest => String a rest
      end
  end.

(** ** Display of integers *)

Definition display (n : Z) : string := pretty n.
(** The [{n:02}] format. *)
Definition display02 (n : Z) : string :=
  if (n <? 10)%Z then "0" +:+ display n else display n.
(** The [{n:03}] format. *)
Definition display03 (n : Z) : string :=
  if (n <? 10)%Z then "00" +:+ display n else if (n <? 100)%Z then "0" +:+ display n else display n.

(** ** The [{:?}] format *)

Definition debug_list (l : list Z) : string := "[" +:+ String.concat ", " (display <$> l) +:+ "]".

Definition hex_digit (n : Z) : ascii := nth (Z.to_nat n) (bytes "0123456789abcdef") zero.

(** A character inside a string literal: quotes, backslashes and control
    characters are escaped; the bytes of a non-ASCII character are kept, as for
    every printable one. *)
Definition debug_byte (a : ascii) : string :=
  if is_byte 34 a then String "\" (String a "") else
  if is_byte 92 a then "\\" else
  if is_byte 10 a then "\n" else if is_byte 13 a then "\r" else if is_byte 9 a then "\t" else
  if is_byte 0 a then "\0" else
  if (code a <? 32)%Z || is_byte 127 a then
    "\u{" +:+ (if (code a <? 16)%Z then "" else String (hex_digit (code a / 16)) "")
    +:+ String (hex_digit (code a mod 16)) "}"
  else String a "".

(** A double quote. *)
Definition quote : string := String (ascii_of_N 34) "".

Definition debug_str (s : string) : string :=
  quote +:+ String.concat "" (debug_byte <$> bytes s) +:+ quote.
Definition debug_strs (l : list string) : string := "[" +:+ String.concat ", " (debug_str <$> l) +:+ "]".

(** ** Lemmas *)

Lemma bytes_app s t : bytes (s +:+ t) = (bytes s ++ bytes t)%list.
Proof.
  unfold bytes; induction s as [|a s IH]; simpl; [done|]. f_equal. apply IH.
Qed.

Lemma bytes_inj s t : bytes s = bytes t -> s = t.
Proof.
  intros H. rewrite <-(String.string_of_list_ascii_of_string s),
    <-(String.string_of_list_ascii_of_string t). by unfold bytes in H; rewrite H.
Qed.

Lemma string_app_inj_l s t u : s +:+ t = s +:+ u -> t = u.
Proof. induction s as [|a s IH]; simpl; [done|]. intros [= ?]; auto. Qed.

Lemma string_app_assoc s t u : (s +:+ t) +:+ u = s +:+ (t +:+ u).
Proof. induction s as [|a s IH]; [done|]. exact (f_equal (String a) IH). Qed.

Lemma is_empty_spec s : is_empty s = true <-> s = "".
Proof. destruct s; naive_solver. Qed.

Lemma blank_empty : blank "" = true.
Proof. done. Qed.

Lemma length_append s t : String.length (s +:+ t) = (String.length s + String.length t)%nat.
Proof. induction s as [|c s IH]; [done|]. simpl. by rewrite IH. Qed.

Lemma prefix_spec p s : String.prefix p s = true <-> exists t, s = p +:+ t.
Proof.
  revert s; induction p as [|a p IH]; intros s; simpl.
  - split; [intros _; by exists s | by destruct s].
  - destruct s as [|b s]; [split; [done | by intros [? [=]]]|]. simpl.
    destruct (ascii_dec a b) as [->|Hne].
    + rewrite IH. split; intros [t Ht]; exists t; [by subst | by injection Ht].
    + split; [done|]. intros [t [= -> _]]. done.
Qed.

Lemma contains_spec needle s :
  contains needle s = true <-> exists pre post, s = pre +:+ needle +:+ post.
Proof.
  induction s as [|a s IH]; cbn [contains].
  - rewrite orb_false_r, prefix_spec. split.
    + intros [t Ht]. by exists "", t.
    + intros ([|? pre] & post & H); [|done]. by exists post.
  - rewrite orb_true_iff, prefix_spec, IH. split.
    + intros [[t Ht]|(pre & post & Ht)]; [by exists "", t|].
      exists (String a pre), post. by rewrite Ht.
    + intros ([|b pre] & post & H); [left; by exists post|right].
      injection H as -> H. by exists pre, post.
Qed.

Lemma ends_with_spec suffix s :
  ends_with suffix s = true <-> exists pre, s = pre +:+ suffix.
Proof.
  induction s as [|a s IH]; cbn [ends_with].
  - rewrite orb_false_r, String.eqb_eq. split.
    + intros <-. by exists "".
    + intros ([|? pre] & H); [done|done].
  - rewrite orb_true_iff, String.eqb_eq, IH. split.
    + intros [<-|[pre ->]]; [by exists ""|by exists (String a pre)].
    + intros ([|b pre] & H); [left; done|right].
      injection H as -> H. by exists pre.
Qed.

Lemma contains_byte_spec n s :
  contains_byte n s = true <-> exists a, In a (bytes s) /\ is_byte n a = true.
Proof. unfold contains_byte. by rewrite existsb_exists. Qed.

(** Decimal renderings are made of digits, so a separator byte delimits them. *)

Lemma pretty_N_char_digit n : is_ascii_digit (pretty_N_char n) = true.
Proof.
  destruct n as [|p]; [reflexivity|].
  do 4 (destruct p as [p|p|]; try reflexivity).
Qed.

Lemma pretty_N_go_digits x s :
  all_bytes is_ascii_digit s = true ->
  all_bytes is_ascii_digit (pretty_N_go x s) = true.
Proof.
  revert s. induction (N.lt_wf_0 x) as [x _ IH]; intros s Hs.
  destruct (decide (x = 0)%N) as [->|Hx]; [by rewrite pretty_N_go_0|].
  rewrite pretty_N_go_step by lia. apply IH.
  - apply N.div_lt; lia.
  - unfold all_bytes; simpl. by rewrite pretty_N_char_digit.
Qed.

Lemma display_digits n : (0 <= n)%Z -> all_bytes is_ascii_digit (display n) = true.
Proof.
  intros Hn. unfold display. destruct n as [|p|p]; [done| |lia].
  change (pretty (Z.pos p)) with (pretty (N.pos p)).
  unfold pretty, pretty_N. case_decide; [done|]. by apply pretty_N_go_digits.
Qed.

Lemma display_inj n m : display n = display m -> n = m.
Proof. apply (inj pretty). Qed.

Lemma display_nonempty n : display n <> "".
Proof.
  intros H. assert (n = 0%Z \/ n <> 0%Z) as [->|Hn] by lia; [done|].
  destruct n as [|p|p]; [done| |done].
  change (pretty (N.pos p) = "") in H. unfold pretty, pretty_N in H.
  case_decide; [done|].
  rewrite pretty_N_go_step in H by lia. revert H.
  generalize (N.pos p `div` 10)%N as x, (pretty_N_char (N.pos p `mod` 10)) as c.
  intros x c. cut (forall s, s <> "" -> pretty_N_go x s <> ""); [intros Hc; by apply Hc|].
  induction (N.lt_wf_0 x) as [y _ IH]; intros s Hs.
  destruct (decide (y = 0)%N) as [->|Hy]; [by rewrite pretty_N_go_0|].
  rewrite pretty_N_go_step by lia. apply IH; [apply N.div_lt; lia|done].
Qed.

(** The number a string of decimal digits denotes, after the digits [acc]. *)
Fixpoint decimal_value (acc : N) (s : string) : N :=
  match s with
  | EmptyString => acc
  | String a s' => decimal_value (10 * acc + (N_of_ascii a - 48)) s'
  end.

Lemma decimal_value_char n : (n < 10)%N -> (N_of_ascii (pretty_N_char n) - 48 = n)%N.
Proof.
  intros Hn.
  assert (Hall : forallb (fun d => N_of_ascii (pretty_N_char d) - 48 =? d)%N (N.of_nat <$> seq 0 10) = true)
    by reflexivity.
  rewrite forallb_forall in Hall. apply N.eqb_eq, Hall, in_map_iff.
  exists (N.to_nat n). split; [lia|]. apply in_seq. lia.
Qed.

Lemma decimal_value_pretty x s : decimal_value 0 (pretty_N_go x s) = decimal_value x s.
Proof.
  revert s. induction (N.lt_wf_0 x) as [x _ IH]; intros s.
  destruct (decide (x = 0)%N) as [->|Hx]; [by rewrite pretty_N_go_0|].
  rewrite pretty_N_go_step by lia. rewrite IH by (apply N.div_lt; lia). simpl.
  rewrite decimal_value_char by (apply N.mod_lt; lia). f_equal.
  pose proof (N.div_mod x 10 ltac:(lia)). lia.
Qed.

Lemma decimal_value_display n : (0 <= n)%Z -> decimal_value 0 (display n) = Z.to_N n.
Proof.
  intros Hn. destruct n as [|p|p]; [done| |lia]. unfold display.
  change (pretty (Z.pos p)) with (pretty (N.pos p)). unfold pretty, pretty_N.
  rewrite decide_False by done. by rewrite decimal_value_pretty.
Qed.

Lemma display02_value n : (0 <= n)%Z -> decimal_value 0 (display02 n) = Z.to_N n.
Proof.
  intros Hn. unfold display02. destruct (n <? 10)%Z; by apply decimal_value_display.
Qed.

Lemma display02_inj n m : (0 <= n)%Z -> (0 <= m)%Z -> display02 n = display02 m -> n = m.
Proof.
  intros Hn Hm Heq. apply (f_equal (decimal_value 0)) in Heq. rewrite !display02_value in Heq by done. lia.
Qed.

Lemma digits_not_byte s n :
  all_bytes is_ascii_digit s = true -> (n < 48 \/ 57 < n)%Z -> contains_byte n s = false.
Proof.
  unfold all_bytes, contains_byte. intros Hs Hn.
  apply not_true_is_false. rewrite existsb_exists. intros (a & Ha & Hb).
  rewrite forallb_forall in Hs. specialize (Hs a Ha).
  unfold is_ascii_digit, between, is_byte in *. brust in *. lia.
Qed.

Lemma separator_inj_list (sep : ascii) (l1 l2 d1 d2 : list ascii) :
  ~ In sep d1 -> ~ In sep d2 ->
  (l1 ++ sep :: d1)%list = (l2 ++ sep :: d2)%list -> l1 = l2 /\ d1 = d2.
Proof.
  revert l2; induction l1 as [|a l1 IH]; intros [|b l2] H1 H2 H; simpl in *;
    simplify_eq.
  - done.
  - exfalso. apply H1, in_or_app. right; by left.
  - exfalso. apply H2, in_or_app. right; by left.
  - destruct (IH l2) as [-> ->]; done.
Qed.

(** Splitting at the last separator is unambiguous. *)
Lemma separator_inj (sep : ascii) s1 s2 d1 d2 :
  contains_byte (code sep) d1 = false -> contains_byte (code sep) d2 = false ->
  s1 +:+ String sep d1 = s2 +:+ String sep d2 -> s1 = s2 /\ d1 = d2.
Proof.
  intros H1 H2 H.
  assert (Hno : forall d, contains_byte (code sep) d = false -> ~ In sep (bytes d)).
  { intros d Hd Hin. rewrite <-not_true_iff_false, contains_byte_spec in Hd.
    apply Hd. exists sep. split; [done|]. unfold is_byte. by brust. }
  destruct (separator_inj_list sep (bytes s1) (bytes s2) (bytes d1) (bytes d2))
    as [Hs Hd]; [by apply Hno.. | |].
  - apply (f_equal bytes) in H. by rewrite !bytes_app in H.
  - split; by apply bytes_inj.
Qed.

Lemma take_chars_bound n s : (char_count (take_chars n s) <= n)%nat.
Proof.
  revert n; induction s as [|a s IH]; intros n; simpl; [lia|].
  destruct (is_continuation a) eqn:Ha; simpl.
  - rewrite Ha; simpl. apply IH.
  - destruct n as [|n]; simpl; [lia|]. rewrite Ha. specialize (IH n). lia.
Qed.

Lemma char_count_app s t : char_count (s +:+ t) = (char_count s + char_count t)%nat.
Proof.
  induction s as [|a s IH]; simpl; [done|]. destruct (is_continuation a); lia.
Qed.

Lemma take_chars_all n s : (char_count s <= n)%nat -> take_chars n s = s.
Proof.
  revert n; induction s as [|a s IH]; intros n; simpl; [done|].
  destruct (is_continuation a); simpl; intros Hn.
  - by rewrite IH.
  - destruct n as [|n]; [lia|]. rewrite IH by lia. done.
Qed.

Lemma all_bytes_app p s t : all_bytes p (s +:+ t) = all_bytes p s && all_bytes p t.
Proof. unfold all_bytes. by rewrite bytes_app, forallb_app. Qed.

Lemma all_bytes_impl (p q : ascii -> bool) s :
  (forall a, p a = true -> q a = true) -> all_bytes p s = true -> all_bytes q s = true.
Proof. unfold all_bytes. rewrite !forallb_forall. eauto. Qed.

Lemma append_cancel_r (s t u : string) : s +:+ u = t +:+ u -> s = t.
Proof.
  intros Heq. apply bytes_inj. apply (f_equal bytes) in Heq. rewrite !bytes_app in Heq.
  by apply (inj (.++ bytes u)) in Heq.
Qed.

Lemma append_cancel_l (s t u : string) : u +:+ s = u +:+ t -> s = t.
Proof.
  intros Heq. apply bytes_inj. apply (f_equal bytes) in Heq. rewrite !bytes_app in Heq.
  by apply (inj (bytes u ++.)) in Heq.
Qed.

Lemma append_assoc (s t u : string) : s +:+ (t +:+ u) = (s +:+ t) +:+ u.
Proof. apply bytes_inj. by rewrite !bytes_app, app_assoc. Qed.

(** ** Sorted vectors of strings *)

(** [Vec::dedup]: drops an element equal to its predecessor. *)
Fixpoint dedup (l : list string) : list string :=
  match l with
  | x :: ((y :: _) as rest) => if x =? y then dedup rest else x :: dedup rest
  | _ => l
  end.

Definition sort_dedup (l : list string) : list string := dedup (sort_by String.compare l).

Lemma elem_of_dedup x l : x ∈ dedup l <-> x ∈ l.
Proof.
  induction l as [|y l IH]; [done|]. destruct l as [|z l]; [done|]. cbn [dedup] in *.
  destruct (String.eqb_spec y z) as [->|Hne].
  - rewrite IH, !elem_of_cons. naive_solver.
  - rewrite !(elem_of_cons _ _ y), IH. done.
Qed.

Lemma elem_of_sort_dedup x l : x ∈ sort_dedup l <-> x ∈ l.
Proof. unfold sort_dedup. by rewrite elem_of_dedup, elem_of_sort_by. Qed.
