(* ===== verification/Float64.v ===== *)
(** * IEEE 754 binary64

    Rust's [f64] is the Standard Library's [spec_float] at precision 53 and
    maximal exponent 1024, with its correctly rounded (nearest, ties to even)
    operations. NaN payloads are not distinguished: the harness never computes
    on a NaN, and JSON cannot carry one. *)

From S2P Require Import Prelude Order.
From Stdlib Require Export SpecFloat.
Open Scope Z_scope.

Abbreviation f64 := spec_float.

Definition prec : Z := 53.
Definition emax : Z := 1024.

(** ** Operations *)

Definition f64_add : f64 -> f64 -> f64 := SFadd prec emax.
Definition f64_sub : f64 -> f64 -> f64 := SFsub prec emax.
Definition f64_mul : f64 -> f64 -> f64 := SFmul prec emax.
Definition f64_div : f64 -> f64 -> f64 := SFdiv prec emax.
Definition f64_sqrt : f64 -> f64 := SFsqrt prec emax.
Definition f64_lt : f64 -> f64 -> bool := SFltb.
Definition f64_le : f64 -> f64 -> bool := SFleb.
Definition f64_gt (x y : f64) : bool := SFltb y x.
Definition f64_eq : f64 -> f64 -> bool := SFeqb.

(** [n as f64] for an integer. *)
Definition f64_of_Z (n : Z) : f64 := binary_normalize prec emax n 0 false.
(** The literal [n/d] written in decimal, correctly rounded. *)
Definition f64_lit (n d : Z) : f64 := f64_div (f64_of_Z n) (f64_of_Z d).
Definition f64_zero : f64 := S754_zero false.

Definition is_finite (x : f64) : bool :=
  match x with S754_zero _ | S754_finite _ _ _ => true | _ => false end.
Definition is_nan (x : f64) : bool := match x with S754_nan => true | _ => false end.

(** [f64::max]. *)
Definition f64_max (x y : f64) : f64 :=
  if is_nan x then y else if is_nan y then x else if f64_lt x y then y else x.

(** [f64::ceil]. *)
Definition f64_ceil (x : f64) : f64 :=
  match x with
  | S754_finite s m e =>
      if e >=? 0 then x else
      let q := - ((- (if s then Zneg m else Zpos m)) / 2 ^ (- e)) in
      if q =? 0 then S754_zero s else f64_of_Z q
  | _ => x
  end.

(** [x as usize]: truncating and saturating, NaN to zero. *)
Definition f64_to_usize (x : f64) : Z :=
  match x with
  | S754_infinity false => usize_max
  | S754_finite false m e =>
      Z.min usize_max (if e >=? 0 then Zpos m * 2 ^ e else Zpos m / 2 ^ (- e))
  | _ => 0
  end.

(** ** The total order of [f64::total_cmp] *)

Definition total_key (x : f64) : Z * Z * Z :=
  match x with
  | S754_infinity true => (-3, 0, 0)
  | S754_finite true m e => (-2, - e, Zneg m)
  | S754_zero true => (-1, 0, 0)
  | S754_zero false => (0, 0, 0)
  | S754_finite false m e => (1, e, Zpos m)
  | S754_infinity false => (2, 0, 0)
  | S754_nan => (3, 0, 0)
  end.

Definition total_cmp : f64 -> f64 -> comparison :=
  cmp_on total_key
    (cmp_lex (cmp_on (fun k => k.1.1) Z.compare)
       (cmp_lex (cmp_on (fun k => k.1.2) Z.compare) (cmp_on snd Z.compare))).

#[export] Instance f64_eq_dec : EqDecision f64.
Proof. solve_decision. Defined.

Lemma total_key_inj x y : total_key x = total_key y -> x = y.
Proof.
  destruct x as [[]|[]| |[] m e], y as [[]|[]| |[] m' e']; simpl; intros [=]; try done.
  all: f_equal; lia.
Qed.

#[export] Instance total_cmp_strict : StrictCmp total_cmp.
Proof.
  split; [unfold total_cmp; apply _|].
  unfold total_cmp, cmp_on, cmp_lex, then_with. intros x y H. apply total_key_inj.
  destruct (total_key x) as [[a b] c], (total_key y) as [[a' b'] c']; simpl in *.
  destruct (Z.compare_spec a a'), (Z.compare_spec b b'), (Z.compare_spec c c'); congruence.
Qed.

(** ** Finite, non-negative numbers *)

(** What [sorted_nonnegative] admits: finite and not below zero; [-0.0] is. *)
Definition finite_nonneg (x : f64) : bool := is_finite x && negb (f64_lt x f64_zero).

Lemma finite_nonneg_cases x :
  finite_nonneg x = true <->
  (exists s, x = S754_zero s) \/ (exists m e, x = S754_finite false m e).
Proof.
  unfold finite_nonneg. destruct x as [s|s| |[] m e]; simpl; split; try done.
  - intros _. left; by exists s.
  - intros [[s' [=]]|(?&?&[=])].
  - intros [[s' [=]]|(?&?&[=])].
  - intros [[s' [=]]|(?&?&[=])].
  - intros _. right; by exists m, e.
Qed.

Lemma finite_nonneg_finite x : finite_nonneg x = true -> is_finite x = true.
Proof. unfold finite_nonneg. by brust; intros []. Qed.

(** On these numbers [total_cmp] refines the IEEE comparison. *)
Lemma total_cmp_le x y :
  finite_nonneg x = true -> finite_nonneg y = true ->
  cmp_le total_cmp x y -> f64_le x y = true.
Proof.
  rewrite !finite_nonneg_cases. unfold cmp_le, total_cmp, cmp_on, cmp_lex, then_with.
  intros [[s ->]|(m & e & ->)] [[s' ->]|(m' & e' & ->)]; simpl.
  - by destruct s, s'.
  - by destruct s.
  - by destruct s'.
  - unfold f64_le, SFleb; simpl. fold (Pos.compare m m').
    destruct (Z.compare_spec e e'); [|done|done].
    destruct (Pos.compare_spec m m'); done.
Qed.

Lemma f64_le_refl x : is_nan x = false -> f64_le x x = true.
Proof.
  unfold f64_le, SFleb. destruct x as [|[]| |[]]; simpl; try done;
    rewrite Z.compare_refl; fold (Pos.compare m m); by rewrite Pos.compare_refl.
Qed.

Lemma f64_lt_le_false x y : f64_le x y = true -> f64_lt y x = false.
Proof.
  unfold f64_le, f64_lt, SFleb, SFltb.
  destruct x as [|[]| |[] m e], y as [|[]| |[] m' e']; simpl; try done.
  all: try (rewrite (Z.compare_antisym e e'), (Pos.compare_antisym m m');
    destruct (e ?= e'), (m ?= m')%positive; done).
  all: fold (Pos.compare m m'); fold (Pos.compare m' m);
    rewrite (Z.compare_antisym e e'), (Pos.compare_antisym m m');
    by destruct (e ?= e'), (m ?= m')%positive.
Qed.

(** The IEEE comparison of finite, non-negative numbers is the comparison of a
    key in which the two zeros agree, so it is a total preorder. *)
Definition magnitude (x : f64) : Z * Z * Z :=
  match x with S754_finite _ m e => (1, e, Zpos m) | _ => (0, 0, 0) end.
Definition magnitude_cmp : f64 -> f64 -> comparison :=
  cmp_on magnitude
    (cmp_lex (cmp_on (fun k => k.1.1) Z.compare)
       (cmp_lex (cmp_on (fun k => k.1.2) Z.compare) (cmp_on snd Z.compare))).

#[export] Instance magnitude_cmp_total : TotalCmp magnitude_cmp.
Proof. unfold magnitude_cmp. apply _. Qed.

Lemma SFcompare_magnitude x y :
  finite_nonneg x = true -> finite_nonneg y = true ->
  SFcompare x y = Some (magnitude_cmp x y).
Proof.
  rewrite !finite_nonneg_cases. unfold magnitude_cmp, cmp_on, cmp_lex, then_with.
  intros [[s ->]|(m & e & ->)] [[s' ->]|(m' & e' & ->)]; simpl; try done.
  fold (Pos.compare m m'). by destruct (e ?= e').
Qed.

Lemma f64_le_magnitude x y :
  finite_nonneg x = true -> finite_nonneg y = true ->
  f64_le x y = true <-> cmp_le magnitude_cmp x y.
Proof.
  intros Hx Hy. unfold f64_le, SFleb, cmp_le. rewrite SFcompare_magnitude by done.
  by destruct (magnitude_cmp x y).
Qed.

Lemma f64_lt_magnitude x y :
  finite_nonneg x = true -> finite_nonneg y = true ->
  f64_lt y x = false <-> cmp_le magnitude_cmp x y.
Proof.
  intros Hx Hy. unfold f64_lt, SFltb, cmp_le. rewrite SFcompare_magnitude by done.
  rewrite (cmp_opp magnitude_cmp x y). by destruct (magnitude_cmp x y).
Qed.

Lemma f64_le_trans x y z :
  finite_nonneg x = true -> finite_nonneg y = true -> finite_nonneg z = true ->
  f64_le x y = true -> f64_le y z = true -> f64_le x z = true.
Proof.
  intros Hx Hy Hz. rewrite !f64_le_magnitude by done. apply (cmp_trans magnitude_cmp).
Qed.

Lemma f64_not_lt_le x y :
  finite_nonneg x = true -> finite_nonneg y = true ->
  f64_lt y x = false <-> f64_le x y = true.
Proof. intros Hx Hy. by rewrite f64_lt_magnitude, f64_le_magnitude. Qed.
