(* ===== verification/FloatRound.v ===== *)
(** * Rounding of binary64 products

    The Standard Library defines the operations of [spec_float] but proves
    nothing about them. This file characterises its round-to-nearest-even of an
    exactly known mantissa ([round_exact]) and derives what the quantile
    estimator of the harness relies on: a [usize] below [2^53] converts to
    [f64] exactly, and [(p * n as f64).ceil() as usize] is the integer ceiling
    of the decimal [p] times [n]. *)

From S2P Require Import Prelude Float64.
Open Scope Z_scope.

(** ** Binary digits *)

Lemma digits2_pos_log2 p : Zpos (digits2_pos p) = Z.log2 (Zpos p) + 1.
Proof.
  induction p as [p IH|p IH|]; [..|done]; cbn [digits2_pos]; rewrite Pos2Z.inj_succ, IH.
  - rewrite Pos2Z.inj_xI, Z.log2_succ_double by lia. lia.
  - rewrite Pos2Z.inj_xO, Z.log2_double by lia. lia.
Qed.

Lemma digits2_bounds p d :
  Zpos (digits2_pos p) = d -> 2 ^ (d - 1) <= Zpos p < 2 ^ d.
Proof.
  rewrite digits2_pos_log2. intros <-. replace (Z.log2 _ + 1 - 1) with (Z.log2 (Zpos p)) by lia.
  destruct (Z.log2_spec (Zpos p)); [lia|]. rewrite <-Z.add_1_r in *. lia.
Qed.

Lemma digits2_unique p d :
  0 < d -> 2 ^ (d - 1) <= Zpos p < 2 ^ d -> Zpos (digits2_pos p) = d.
Proof.
  intros Hd H. rewrite digits2_pos_log2, (Z.log2_unique (Zpos p) (d - 1)); [lia..|].
  by replace (Z.succ (d - 1)) with d by lia.
Qed.

(** ** Shifting out bits *)

Lemma iter_pos_nat {A} (f : A -> A) p x : iter_pos f p x = Nat.iter (Pos.to_nat p) f x.
Proof.
  revert x. induction p as [p IH|p IH|]; intros x; [..|done]; cbn [iter_pos]; rewrite !IH.
  - rewrite Pos2Nat.inj_xI, <-Nat.iter_add.
    replace (S (2 * Pos.to_nat p)) with ((Pos.to_nat p + Pos.to_nat p) + 1)%nat by lia.
    by rewrite (Nat.iter_add (Pos.to_nat p + Pos.to_nat p) 1).
  - rewrite Pos2Nat.inj_xO, <-Nat.iter_add. f_equal. lia.
Qed.

(** What the bits shifted out of [P] by [k] places say about [P mod 2^k]. *)
Record shifted (P : Z) (k : nat) (mrs : shr_record) : Prop := {
  shifted_m : shr_m mrs = P / 2 ^ Z.of_nat k;
  shifted_r : shr_r mrs = (2 ^ Z.of_nat k <=? 2 * (P mod 2 ^ Z.of_nat k));
  shifted_s : shr_s mrs = negb (P mod 2 ^ Z.of_nat k =? 0)
                          && negb (2 * (P mod 2 ^ Z.of_nat k) =? 2 ^ Z.of_nat k);
}.

Lemma shr_1_nonneg mrs :
  0 <= shr_m mrs ->
  shr_1 mrs = {| shr_m := shr_m mrs / 2; shr_r := Z.odd (shr_m mrs);
                 shr_s := shr_r mrs || shr_s mrs |}.
Proof.
  destruct mrs as [[|[p|p|]|p] r s]; simpl; intros H; try done; try lia.
  - f_equal. by rewrite Pos2Z.inj_xI, Z.mul_comm, Z.div_add_l, Z.add_0_r by lia.
  - f_equal. by rewrite Pos2Z.inj_xO, Z.mul_comm, Z.div_mul by lia.
Qed.

Lemma shifted_step P k mrs :
  0 <= P -> shifted P k mrs -> shifted P (S k) (shr_1 mrs).
Proof.
  intros HP [Hm Hr Hs]. rewrite shr_1_nonneg by (rewrite Hm; apply Z.div_pos; lia).
  set (b := 2 ^ Z.of_nat k) in *. assert (Hb : 0 < b) by (unfold b; lia).
  assert (Hb' : 2 ^ Z.of_nat (S k) = b * 2).
  { unfold b. rewrite Nat2Z.inj_succ, Z.pow_succ_r by lia. lia. }
  assert (Hrem : P mod (b * 2) = P mod b + b * ((P / b) mod 2))
    by (apply Z.rem_mul_r; lia).
  pose proof (Z.mod_pos_bound P b Hb). rewrite Hm.
  pose proof (Zmod_odd (P / b)) as Hodd.
  assert (Hcase : b = 1 \/ exists h, b = 2 * h).
  { unfold b. destruct k as [|k]; [by left|right]. exists (2 ^ Z.of_nat k).
    rewrite Nat2Z.inj_succ, Z.pow_succ_r by lia. done. }
  split; cbn [shr_m shr_r shr_s]; rewrite Hb'.
  - by rewrite Z.div_div by lia.
  - rewrite Hrem. apply eq_true_iff_eq. rewrite Z.leb_le.
    destruct (Z.odd (P / b)); split; intros; try done; nia.
  - rewrite Hrem, Hr, Hs. apply eq_true_iff_eq. brust.
    destruct (Z.odd (P / b)); split; intros; nia.
Qed.

Lemma shifted_iter P k :
  0 <= P -> shifted P k (Nat.iter k shr_1 {| shr_m := P; shr_r := false; shr_s := false |}).
Proof.
  intros HP. induction k as [|k IH]; [|by apply shifted_step].
  split; simpl; change (2 ^ 0) with 1; rewrite ?Z.div_1_r, ?Z.mod_1_r; done.
Qed.

(** Rounding a shifted mantissa to nearest errs by at most half a unit. *)
Lemma round_nearest_even_error P k mrs :
  0 <= P -> shifted P k mrs ->
  let r := round_nearest_even (shr_m mrs) (loc_of_shr_record mrs) in
  P / 2 ^ Z.of_nat k <= r <= P / 2 ^ Z.of_nat k + 1 /\
  2 * Z.abs (2 ^ Z.of_nat k * r - P) <= 2 ^ Z.of_nat k.
Proof.
  intros HP [Hm Hr Hs]. destruct mrs as [m r s]; cbn [shr_m shr_r shr_s] in *. subst m.
  set (b := 2 ^ Z.of_nat k) in *. assert (Hb : 0 < b) by (unfold b; lia).
  pose proof (Z.div_mod P b ltac:(lia)) as Hdiv. pose proof (Z.mod_pos_bound P b Hb).
  set (q := P / b) in *. set (t := P mod b) in *.
  destruct r, s; symmetry in Hr, Hs; brust in Hr; brust in Hs; simpl.
  - split; [lia|nia].
  - destruct (Z.even q); split; try lia; nia.
  - split; [lia|nia].
  - split; [lia|nia].
Qed.

(** ** Round to nearest of an exact mantissa *)

Lemma shr_fexp_normal P e :
  0 < P -> 53 <= Zdigits2 P -> -1074 <= e + (Zdigits2 P - 53) ->
  exists mrs, shr_fexp prec emax P e loc_Exact = (mrs, e + (Zdigits2 P - 53)) /\
              shifted P (Z.to_nat (Zdigits2 P - 53)) mrs.
Proof.
  intros HP Hd He. unfold shr_fexp, fexp, emin, prec, emax. simpl shr_record_of_loc.
  replace (Z.max _ _ - e) with (Zdigits2 P - 53) by lia.
  pose proof (shifted_iter P (Z.to_nat (Zdigits2 P - 53)) ltac:(lia)) as Hi.
  destruct (Zdigits2 P - 53) as [|k|] eqn:Hk; [..|lia]; simpl shr.
  - eexists. split; [by rewrite Z.add_0_r|done].
  - eexists. split; [done|]. rewrite iter_pos_nat. exact Hi.
Qed.

(** Rounding [P * 2^e], when [P] has at least 53 digits and the result is in
    the normal range, gives [q * 2^e''] with [q] of 53 digits: [q * 2^c] is [P]
    divided by [2^k] to the nearest integer, [c] being 1 when that integer
    carried into a 54th digit. *)
Lemma round_exact s P e :
  0 < P -> let k := Zdigits2 P - 53 in
  0 <= k -> -1074 <= e + k < 971 ->
  exists q c, binary_round_aux prec emax s P e loc_Exact = S754_finite s q (e + k + c) /\
    (c = 0 \/ c = 1) /\ 2 ^ 52 <= Zpos q < 2 ^ 53 /\
    2 * Z.abs (2 ^ k * (Zpos q * 2 ^ c) - P) <= 2 ^ k.
Proof.
  intros HP k Hk He. unfold binary_round_aux.
  destruct (shr_fexp_normal P e) as (mrs & -> & Hsh); [lia..|]. fold k.
  pose proof (round_nearest_even_error P _ mrs ltac:(lia) Hsh) as [Hr Herr].
  set (r := round_nearest_even _ _) in *. unfold k in Hr, Herr. rewrite Z2Nat.id in Hr, Herr by lia.
  fold k in Hr, Herr.
  assert (HPb : 2 ^ (53 + k - 1) <= P < 2 ^ (53 + k)).
  { unfold k. destruct P as [|P|]; [lia| |lia]. apply digits2_bounds. simpl; lia. }
  assert (Hlo : 2 ^ 52 <= P / 2 ^ k).
  { apply Z.div_le_lower_bound; [lia|]. rewrite <-Z.pow_add_r by lia.
    replace (k + 52) with (53 + k - 1) by lia. lia. }
  assert (Hhi : P / 2 ^ k < 2 ^ 53).
  { apply Z.div_lt_upper_bound; [lia|]. rewrite <-Z.pow_add_r by lia.
    replace (k + 53) with (53 + k) by lia. lia. }
  clearbody r. destruct r as [|r|r]; [lia| |lia].
  destruct (decide (Zpos r = 2 ^ 53)) as [Htop|Htop].
  - injection Htop as ->. exists (2 ^ 52)%positive, 1.
    unfold shr_fexp. change (Zdigits2 _) with 54. unfold fexp, emin, prec, emax.
    replace (Z.max _ _ - _) with 1 by lia. simpl shr. cbn [shr_m].
    destruct (Z.leb_spec (e + k + 1) (1024 - 53)); [|lia].
    split; [done|]. split; [by right|]. split; [lia|]. exact Herr.
  - exists r, 0. assert (Hd : Zpos (digits2_pos r) = 53) by (apply digits2_unique; lia).
    unfold shr_fexp. simpl Zdigits2. rewrite Hd. unfold fexp, emin, prec, emax.
    replace (Z.max _ _ - _) with 0 by lia. simpl shr. cbn [shr_m shr_record_of_loc].
    destruct (Z.leb_spec (e + k) (1024 - 53)); [|lia]. rewrite Z.add_0_r.
    split; [done|]. split; [by left|]. split; [lia|]. by rewrite Z.mul_1_r.
Qed.

(** ** Integers convert exactly *)

Lemma iter_xO p d : Zpos (Pos.iter xO p d) = Zpos p * 2 ^ Zpos d.
Proof.
  induction d as [|d IH] using Pos.peano_ind; [simpl; lia|].
  rewrite Pos.iter_succ, Pos2Z.inj_xO, IH, Pos2Z.inj_succ, Z.pow_succ_r by lia. lia.
Qed.

Lemma f64_of_Z_exact n :
  1 <= n < 2 ^ 53 ->
  exists N j, f64_of_Z n = S754_finite false N (- j) /\ Zpos N = n * 2 ^ j /\
    2 ^ 52 <= Zpos N < 2 ^ 53 /\ 0 <= j <= 52.
Proof.
  intros Hn. destruct n as [|p|]; [lia| |lia]. unfold f64_of_Z, binary_normalize, binary_round.
  set (d := Zpos (digits2_pos p)). pose proof (digits2_bounds p d eq_refl) as Hb.
  assert (Hd : 1 <= d <= 53).
  { unfold d in *. rewrite digits2_pos_log2 in *. pose proof (Z.log2_nonneg (Zpos p)).
    assert (Z.log2 (Zpos p) < 53) by (apply Z.log2_lt_pow2; lia). lia. }
  assert (Hal : exists N, shl_align p 0 (fexp prec emax (d + 0)) = (N, - (53 - d)) /\
    Zpos N = Zpos p * 2 ^ (53 - d)).
  { unfold shl_align, fexp, emin, prec, emax.
    replace (Z.max _ _) with (- (53 - d)) by lia. rewrite Z.sub_0_r.
    destruct (53 - d) as [|k|] eqn:Hk; [| |lia]; simpl.
    - exists p. split; [done|lia].
    - exists (Pos.iter xO p k). split; [done|apply iter_xO]. }
  destruct Hal as (N & -> & HN).
  assert (HNb : 2 ^ 52 <= Zpos N < 2 ^ 53).
  { assert (H1 : 2 ^ 52 = 2 ^ (d - 1) * 2 ^ (53 - d)) by (rewrite <-Z.pow_add_r by lia; f_equal; lia).
    assert (H2 : 2 ^ 53 = 2 ^ d * 2 ^ (53 - d)) by (rewrite <-Z.pow_add_r by lia; f_equal; lia).
    rewrite HN, H1, H2. assert (0 < 2 ^ (53 - d)) by lia.
    split; [apply Z.mul_le_mono_nonneg_r|apply Z.mul_lt_mono_pos_r]; lia. }
  assert (HdN : Zdigits2 (Zpos N) = 53) by (apply digits2_unique; lia).
  destruct (round_exact false (Zpos N) (- (53 - d))) as (q & c & -> & Hc & Hq & Herr);
    [lia|rewrite HdN; lia..|].
  rewrite HdN in *. change (53 - 53) with 0 in *. change (2 ^ 0) with 1 in Herr.
  destruct Hc as [->| ->]; [|exfalso; lia].
  exists N, (53 - d). split; [|lia]. f_equal; [lia|lia].
Qed.

(** ** The rank of a quantile *)

Definition ceil_percent (a n : Z) : Z := (a * n + 99) / 100.

Lemma ceil_percent_bounds a n :
  100 * (ceil_percent a n - 1) + 1 <= a * n <= 100 * ceil_percent a n.
Proof.
  unfold ceil_percent. pose proof (Z.div_mod (a * n + 99) 100 ltac:(lia)).
  pose proof (Z.mod_pos_bound (a * n + 99) 100 ltac:(lia)). lia.
Qed.

Lemma ceil_percent_range a n : 1 <= a <= 100 -> 1 <= n -> 1 <= ceil_percent a n <= n.
Proof. intros. pose proof (ceil_percent_bounds a n). nia. Qed.

Lemma ceil_percent_mono a b n : 0 <= n -> a <= b -> ceil_percent a n <= ceil_percent b n.
Proof. intros. unfold ceil_percent. apply Z.div_le_mono; nia. Qed.

Section Rank.
Variables (a : Z) (M : positive) (n : Z).
Hypothesis Ha : 1 <= a <= 100.
(** [M * 2^-53] is the largest binary64 number not above [a / 100]. *)
Hypothesis HM : 2 ^ 52 <= Zpos M < 2 ^ 53.
Hypothesis HMa : 100 * Zpos M <= a * 2 ^ 53 < 100 * Zpos M + 100.
Hypothesis Hn : 1 <= n <= 2 ^ 44.

Let ceiling : Z := ceil_percent a n.

(** The rounded product stays in the unit interval that ends at the ceiling. *)
Lemma product_bounds E B j N r :
  E = 2 ^ 53 * 2 ^ j -> 2 ^ 8 <= 2 ^ j -> N = n * 2 ^ j -> N < 2 ^ 53 ->
  0 < B <= 2 ^ 53 -> (exists x, E = B * x) -> 2 * Z.abs (B * r - Zpos M * N) <= B ->
  E * (ceiling - 1) < B * r <= E * ceiling.
Proof.
  intros HE Hj HN HN' HB [x Hx] Herr. pose proof (ceil_percent_bounds a n) as Hc. fold ceiling in Hc.
  assert (H1 : 100 * (Zpos M * N) <= a * n * E) by (subst E N; nia).
  assert (H2 : a * n * E - 100 * N < 100 * (Zpos M * N)).
  { subst E N. assert (0 < n * 2 ^ j) by nia. nia. }
  assert (H3 : a * n * E <= 100 * ceiling * E) by (apply Z.mul_le_mono_nonneg_r; lia).
  assert (H4 : (100 * (ceiling - 1) + 1) * E <= a * n * E)
    by (apply Z.mul_le_mono_nonneg_r; lia).
  split; [lia|]. rewrite Hx in *.
  assert (2 * (B * r) <= 2 * (B * (x * ceiling)) + B) by lia.
  assert (r <= x * ceiling).
  { destruct (Z.le_gt_cases r (x * ceiling)) as [|Hgt]; [done|exfalso].
    assert (B * (x * ceiling + 1) <= B * r) by (apply Z.mul_le_mono_nonneg_l; lia). lia. }
  rewrite <-Z.mul_assoc. apply Z.mul_le_mono_nonneg_l; lia.
Qed.

Lemma scaled_ceiling :
  f64_to_usize (f64_ceil (f64_mul (S754_finite false M (-53)) (f64_of_Z n))) = ceiling.
Proof.
  destruct (f64_of_Z_exact n) as (N & j & -> & HN & HNb & Hj); [lia|].
  pose proof (ceil_percent_range a n Ha ltac:(lia)) as Hcr. fold ceiling in Hcr.
  assert (Hj8 : 8 <= j).
  { destruct (Z.leb_spec 8 j); [done|exfalso].
    assert (2 ^ j <= 2 ^ 7) by (apply Z.pow_le_mono_r; lia). nia. }
  assert (Hj' : 2 ^ 8 <= 2 ^ j) by (apply Z.pow_le_mono_r; lia).
  unfold f64_mul, SFmul. simpl xorb.
  set (P := Zpos (M * N)). assert (HP : P = Zpos M * Zpos N) by done.
  assert (Hk : 52 <= Zdigits2 P - 53 <= 53).
  { assert (2 ^ 52 * 2 ^ 52 <= P) by (rewrite HP; apply Z.mul_le_mono_nonneg; lia).
    assert (P < 2 ^ 53 * 2 ^ 53) by (rewrite HP; apply Z.mul_lt_mono_nonneg; lia).
    unfold P. simpl Zdigits2. rewrite digits2_pos_log2. fold P. clearbody P.
    assert (104 <= Z.log2 P) by (apply Z.log2_le_pow2; lia).
    assert (Z.log2 P < 106) by (apply Z.log2_lt_pow2; lia). lia. }
  destruct (round_exact false P (-53 + - j)) as (q & c & -> & Hc & Hq & Herr); [lia..|].
  set (k := Zdigits2 P - 53) in *.
  assert (HB : 0 < 2 ^ k <= 2 ^ 53) by (split; [lia|apply Z.pow_le_mono_r; lia]).
  destruct (product_bounds (2 ^ 53 * 2 ^ j) (2 ^ k) j (Zpos N) (Zpos q * 2 ^ c))
    as [Hlo Hhi]; [done|done|done|lia|done| |by rewrite <-HP|].
  { exists (2 ^ (53 + j - k)). rewrite <-!Z.pow_add_r by lia. f_equal. lia. }
  unfold f64_ceil. destruct (Z.geb_spec (-53 + - j + k + c) 0); [lia|].
  set (D := 2 ^ (- (-53 + - j + k + c))).
  assert (HE : 2 ^ 53 * 2 ^ j = 2 ^ k * 2 ^ c * D).
  { unfold D. rewrite <-!Z.pow_add_r by lia. f_equal. lia. }
  assert (HD : 0 < D) by (unfold D; apply Z.pow_pos_nonneg; lia).
  assert (0 < 2 ^ k * 2 ^ c) by (apply Z.mul_pos_pos; apply Z.pow_pos_nonneg; lia).
  assert (Hq' : (- Zpos q) / D = - ceiling).
  { assert (Hlo' : 2 ^ k * 2 ^ c * (D * (ceiling - 1)) < 2 ^ k * 2 ^ c * Zpos q) by lia.
    assert (Hhi' : 2 ^ k * 2 ^ c * Zpos q <= 2 ^ k * 2 ^ c * (D * ceiling)) by lia.
    apply Z.mul_lt_mono_pos_l in Hlo'; [|done]. apply Z.mul_le_mono_pos_l in Hhi'; [|done].
    symmetry. apply (Z.div_unique_pos _ _ _ (D * ceiling - Zpos q)); lia. }
  rewrite Hq', Z.opp_involutive. destruct (Z.eqb_spec ceiling 0); [lia|].
  destruct (f64_of_Z_exact ceiling) as (N' & j' & -> & HN' & HNb' & Hj''); [lia|].
  unfold f64_to_usize. rewrite Z.opp_involutive.
  assert (Hv : (if - j' >=? 0 then Zpos N' * 2 ^ - j' else Zpos N' / 2 ^ j') = ceiling).
  { destruct (Z.geb_spec (- j') 0).
    - replace j' with 0 in * by lia. simpl. lia.
    - rewrite HN'. apply Z.div_mul. apply Z.pow_nonzero; lia. }
  rewrite Hv. unfold usize_max, u64_max. lia.
Qed.
End Rank.

(** ** Magnitude bounds

    [mag_lt B x]: [x] is a finite, non-negative number below [2^B]. The
    operations the statistics perform on durations stay far below overflow. *)

Definition mag_lt (B : Z) (x : f64) : Prop :=
  match x with
  | S754_zero _ => True
  | S754_finite false m e => Zpos m < 2 ^ (B - e)
  | _ => False
  end.

Lemma mag_lt_finite_nonneg B x : mag_lt B x -> finite_nonneg x = true.
Proof. by destruct x as [| | |[]]. Qed.

Lemma shr_m_iter k mrs :
  0 <= shr_m mrs -> shr_m (Nat.iter k shr_1 mrs) = shr_m mrs / 2 ^ Z.of_nat k.
Proof.
  intros Hm. induction k as [|k IH]; [by rewrite Z.div_1_r|].
  cbn [Nat.iter nat_rect]. change (nat_rect _ mrs _ k) with (Nat.iter k shr_1 mrs).
  rewrite shr_1_nonneg by (rewrite IH; apply Z.div_pos; lia). cbn [shr_m].
  rewrite IH, Z.div_div by lia. rewrite Nat2Z.inj_succ, Z.pow_succ_r by lia. f_equal. lia.
Qed.

Lemma shr_fexp_div m e l :
  0 <= m ->
  exists mrs k, shr_fexp prec emax m e l = (mrs, e + k) /\ 0 <= k /\
    k = Z.max 0 (Z.max (Zdigits2 m - 53) (-1074 - e)) /\ shr_m mrs = m / 2 ^ k.
Proof.
  intros Hm. unfold shr_fexp, fexp, emin, prec, emax.
  replace (Z.max _ _ - e) with (Z.max (Zdigits2 m - 53) (-1074 - e)) by lia.
  assert (Hl : shr_m (shr_record_of_loc m l) = m) by (by destruct l as [|[]]).
  destruct (Z.max (Zdigits2 m - 53) (-1074 - e)) as [|k|k] eqn:Hk; simpl shr.
  - exists (shr_record_of_loc m l), 0. rewrite Z.add_0_r, Z.div_1_r. split_and!; done || lia.
  - exists (iter_pos shr_1 k (shr_record_of_loc m l)), (Zpos k). split_and!; [done|lia|lia|].
    rewrite iter_pos_nat, shr_m_iter, Hl, positive_nat_Z by lia. done.
  - exists (shr_record_of_loc m l), 0. rewrite Z.add_0_r, Z.div_1_r. split_and!; done || lia.
Qed.

Lemma Zdigits2_lt m b : 0 <= m < 2 ^ b -> Zdigits2 m <= b \/ (m = 0 /\ Zdigits2 m = 0).
Proof.
  intros Hm. destruct m as [|p|]; [by right| |lia]. left. simpl. rewrite digits2_pos_log2.
  destruct (Z.le_gt_cases 0 b); [|rewrite Z.pow_neg_r in Hm; lia].
  assert (Z.log2 (Zpos p) < b) by (apply Z.log2_lt_pow2; lia). lia.
Qed.

Lemma div_pow_lt m a k : 0 <= m < 2 ^ a -> 0 <= k <= a -> 0 <= m / 2 ^ k < 2 ^ (a - k).
Proof.
  intros Hm Hk. split; [apply Z.div_pos; lia|]. apply Z.div_lt_upper_bound; [lia|].
  rewrite <-Z.pow_add_r by lia. replace (k + (a - k)) with a by lia. lia.
Qed.

Lemma round_mag m e l B :
  0 <= m < 2 ^ (B - e) -> e <= B -> -1000 <= B <= 900 ->
  mag_lt (B + 1) (binary_round_aux prec emax false m e l).
Proof.
  intros Hm He HB. unfold binary_round_aux.
  destruct (shr_fexp_div m e l) as (mrs & k & -> & Hk & Hkd & Hmrs); [lia|].
  assert (Hek : e + k <= B) by (destruct (Zdigits2_lt m (B - e)); lia).
  pose proof (div_pow_lt m (B - e) k Hm ltac:(lia)) as Hdiv. rewrite <-Hmrs in Hdiv.
  set (r := round_nearest_even _ _).
  assert (Hr : 0 <= r < 2 ^ (B + 1 - (e + k))).
  { assert (shr_m mrs <= r <= shr_m mrs + 1).
    { unfold r, round_nearest_even. destruct (loc_of_shr_record mrs) as [|[]]; [lia| |lia..].
      destruct (Z.even _); lia. }
    replace (B + 1 - (e + k)) with (Z.succ (B - e - k)) by lia. rewrite Z.pow_succ_r by lia. lia. }
  clearbody r. destruct (shr_fexp_div r (e + k) loc_Exact) as (mrs' & k' & -> & Hk' & Hkd' & Hmrs'); [lia|].
  assert (Hek' : e + k + k' <= B + 1) by (destruct (Zdigits2_lt r (B + 1 - (e + k))); lia).
  pose proof (div_pow_lt r (B + 1 - (e + k)) k' Hr ltac:(lia)) as Hdiv'. rewrite <-Hmrs' in Hdiv'.
  destruct (shr_m mrs') as [|q|q]; [done| |lia].
  unfold emax, prec. destruct (Z.leb_spec (e + k + k') (1024 - 53)); [|lia].
  simpl. replace (B + 1 - (e + k + k')) with (B + 1 - (e + k) - k') by lia. lia.
Qed.

Lemma shl_align_value m e e' :
  e' <= e -> Zpos (shl_align m e e').1 = Zpos m * 2 ^ (e - e') /\ (shl_align m e e').2 = e'.
Proof.
  intros He. unfold shl_align. destruct (e' - e) as [|d|d] eqn:Hd; simpl.
  - replace (e - e') with 0 by lia. lia.
  - lia.
  - rewrite iter_xO. replace (e - e') with (Zpos d) by lia. done.
Qed.

Lemma mag_lt_exp B m e : Zpos m < 2 ^ (B - e) -> e <= B.
Proof. intros H. destruct (Z.le_gt_cases e B); [done|]. rewrite Z.pow_neg_r in H; lia. Qed.

Lemma normalize_mag m e B :
  0 <= m < 2 ^ (B - e) -> e <= B -> -1000 <= B <= 900 ->
  mag_lt (B + 1) (binary_normalize prec emax m e false).
Proof.
  intros Hm He HB. unfold binary_normalize, binary_round. destruct m as [|p|]; [done| |lia].
  set (e' := fexp _ _ _). destruct (Z.le_gt_cases e' e) as [Hle|Hgt].
  - pose proof (shl_align_value p e e' Hle) as [Hv He']. destruct (shl_align p e e') as [mz ez].
    simpl in Hv, He'. subst ez. apply round_mag; [|lia..]. split; [lia|]. rewrite Hv.
    replace (B - e') with (B - e + (e - e')) by lia. rewrite Z.pow_add_r by lia.
    apply Z.mul_lt_mono_pos_r; lia.
  - unfold shl_align. destruct (e' - e) eqn:?; [lia| |lia]. by apply round_mag.
Qed.

Lemma f64_of_Z_mag n b : 0 <= n < 2 ^ b -> 0 <= b <= 900 -> mag_lt (b + 1) (f64_of_Z n).
Proof. intros Hn Hb. apply normalize_mag; rewrite ?Z.sub_0_r; lia. Qed.

Lemma mag_lt_mono B B' x : B <= B' -> mag_lt B x -> mag_lt B' x.
Proof.
  intros HB. destruct x as [| | |[] m e]; simpl; try done. intros H. pose proof (mag_lt_exp _ _ _ H).
  eapply Z.lt_le_trans; [exact H|]. apply Z.pow_le_mono_r; lia.
Qed.

Lemma f64_add_mag B x y :
  -999 <= B <= 890 -> mag_lt B x -> mag_lt B y -> mag_lt (B + 2) (f64_add x y).
Proof.
  intros HB Hx Hy.
  destruct x as [s| | |[] m e]; try done; destruct y as [s'| | |[] m' e']; try done;
    [by destruct s, s'|by apply (mag_lt_mono B (B + 2)); [lia|]..|].
  simpl in Hx, Hy.
  unfold f64_add, SFadd. set (ez := Z.min e e'). simpl cond_Zopp.
  destruct (shl_align_value m e ez) as [-> _]; [lia|].
  destruct (shl_align_value m' e' ez) as [-> _]; [lia|].
  pose proof (mag_lt_exp _ _ _ Hx). pose proof (mag_lt_exp _ _ _ Hy).
  replace (B + 2) with ((B + 1) + 1) by lia. apply normalize_mag; [|lia..].
  replace (B + 1 - ez) with (Z.succ (B - ez)) by lia. rewrite Z.pow_succ_r by lia.
  assert (Hs : forall p f, Zpos p < 2 ^ (B - f) -> ez <= f <= B -> 0 <= Zpos p * 2 ^ (f - ez) < 2 ^ (B - ez)).
  { intros p f Hp Hf. split; [lia|]. replace (B - ez) with (B - f + (f - ez)) by lia.
    rewrite (Z.pow_add_r 2 (B - f)) by lia. apply Z.mul_lt_mono_pos_r; lia. }
  pose proof (Hs m e Hx). pose proof (Hs m' e' Hy). lia.
Qed.

Lemma f64_mul_mag A B x y :
  -500 <= A -> -500 <= B -> A + B <= 900 -> mag_lt A x -> mag_lt B y ->
  mag_lt (A + B + 1) (f64_mul x y).
Proof.
  intros HA HB HAB Hx Hy. destruct x as [[]| | |[] m e], y as [[]| | |[] m' e']; simpl in Hx, Hy; try done.
  unfold f64_mul, SFmul. simpl xorb. pose proof (mag_lt_exp _ _ _ Hx). pose proof (mag_lt_exp _ _ _ Hy).
  apply round_mag; [|lia..]. split; [lia|]. rewrite Pos2Z.inj_mul.
  replace (A + B - (e + e')) with (A - e + (B - e')) by lia. rewrite Z.pow_add_r by lia.
  apply Z.mul_lt_mono_nonneg; lia.
Qed.

(** Division by a number that is at least [2^L]. *)
Lemma f64_div_mag B L x m' e' :
  -400 <= B <= 400 -> -400 <= L <= 400 -> mag_lt B x -> 2 ^ (L - e') <= Zpos m' -> e' <= L ->
  mag_lt (B - L + 1) (f64_div x (S754_finite false m' e')).
Proof.
  intros HB HL Hx Hm' He'. destruct x as [[]| | |[] m e]; simpl in Hx; try done.
  pose proof (mag_lt_exp _ _ _ Hx) as Hexp.
  unfold f64_div, SFdiv, SFdiv_core_binary. set (ez := Z.min _ _). simpl xorb.
  assert (Hez : ez <= B - L /\ ez <= e - e').
  { unfold ez, fexp, emin, prec, emax.
    assert (Zdigits2 (Zpos m) <= B - e) by (destruct (Zdigits2_lt (Zpos m) (B - e)) as [|[]]; lia).
    assert (L - e' + 1 <= Zdigits2 (Zpos m')).
    { simpl. rewrite digits2_pos_log2. apply Z.log2_le_pow2 in Hm'; lia. }
    lia. }
  set (mz := match e - e' - ez with Zpos _ => _ | Z0 => _ | Zneg _ => _ end).
  assert (Hmz : mz = Zpos m * 2 ^ (e - e' - ez)).
  { unfold mz. destruct (e - e' - ez) as [|s|s] eqn:Hs; [lia|by rewrite Z.shiftl_mul_pow2 by lia|lia]. }
  pose proof (Z.div_eucl_eq mz (Zpos m') ltac:(lia)) as Heq.
  pose proof (Z.mod_pos_bound mz (Zpos m') ltac:(lia)) as Hmod. unfold Z.modulo in Hmod.
  destruct (Z.div_eucl mz (Zpos m')) as [q r].
  assert (Hpow : mz < 2 ^ (L - e') * 2 ^ (B - L - ez)).
  { rewrite Hmz, <-Z.pow_add_r by lia. replace (L - e' + (B - L - ez)) with (B - e + (e - e' - ez)) by lia.
    rewrite (Z.pow_add_r 2 (B - e)) by lia. apply Z.mul_lt_mono_pos_r; lia. }
  assert (0 < mz) by (rewrite Hmz; lia). clearbody mz.
  assert (Hq : 0 <= q) by nia.
  apply round_mag; [|lia..]. split; [done|].
  apply (Z.mul_lt_mono_pos_l (2 ^ (L - e'))); [lia|].
  assert (2 ^ (L - e') * q <= Zpos m' * q) by (apply Z.mul_le_mono_nonneg_r; lia). lia.
Qed.

(** [mag_ge L x]: [x] is a finite number that is at least [2^L]. *)
Definition mag_ge (L : Z) (x : f64) : Prop :=
  match x with
  | S754_finite false m e => 2 ^ (L - e) <= Zpos m
  | _ => False
  end.

Lemma shift_ge m e k L :
  0 < m -> -1000 <= L -> 2 ^ (L - e) <= m -> 0 <= k ->
  k = Z.max 0 (Z.max (Zdigits2 m - 53) (-1074 - e)) ->
  0 < m / 2 ^ k /\ 2 ^ (L - (e + k)) <= m / 2 ^ k.
Proof.
  intros Hm HL Hge Hk Hkd. destruct (Z.le_gt_cases (e + k) L) as [Hle|Hgt].
  - assert (H : 2 ^ (L - (e + k)) <= m / 2 ^ k).
    { apply Z.div_le_lower_bound; [lia|]. rewrite <-Z.pow_add_r by lia.
      by replace (k + (L - (e + k))) with (L - e) by lia. }
    split; [|done]. assert (0 < 2 ^ (L - (e + k))) by lia. lia.
  - rewrite (Z.pow_neg_r 2 (L - (e + k))) by lia.
    enough (0 < m / 2 ^ k) by lia. apply Z.div_str_pos. split; [lia|].
    destruct m as [|p|]; [lia| |lia]. simpl in Hkd.
    pose proof (digits2_bounds p _ eq_refl) as [Hb _].
    etransitivity; [|exact Hb]. apply Z.pow_le_mono_r; lia.
Qed.

Lemma round_ge m e l L B :
  0 < m -> -1000 <= L -> 2 ^ (L - e) <= m ->
  mag_lt B (binary_round_aux prec emax false m e l) ->
  mag_ge L (binary_round_aux prec emax false m e l).
Proof.
  intros Hm HL Hge. unfold binary_round_aux.
  destruct (shr_fexp_div m e l) as (mrs & k & -> & Hk & Hkd & Hmrs); [lia|].
  destruct (shift_ge m e k L Hm HL Hge Hk Hkd) as [Hpos Hge']. rewrite <-Hmrs in Hpos, Hge'.
  set (r := round_nearest_even _ _).
  assert (Hr : shr_m mrs <= r).
  { unfold r, round_nearest_even. destruct (loc_of_shr_record mrs) as [|[]]; [lia| |lia..].
    destruct (Z.even _); lia. }
  clearbody r.
  destruct (shr_fexp_div r (e + k) loc_Exact) as (mrs' & k' & -> & Hk' & Hkd' & Hmrs'); [lia|].
  destruct (shift_ge r (e + k) k' L ltac:(lia) HL ltac:(lia) Hk' Hkd') as [Hpos' Hge''].
  rewrite <-Hmrs' in Hpos', Hge''. destruct (shr_m mrs') as [|q|q]; [lia| |lia].
  by destruct (_ <=? _).
Qed.

Lemma normalize_ge m e L B :
  0 < m -> -1000 <= L -> 2 ^ (L - e) <= m ->
  mag_lt B (binary_normalize prec emax m e false) ->
  mag_ge L (binary_normalize prec emax m e false).
Proof.
  intros Hm HL Hge. unfold binary_normalize, binary_round. destruct m as [|p|]; [lia| |lia].
  set (e' := fexp _ _ _). destruct (Z.le_gt_cases e' e) as [Hle|Hgt].
  - pose proof (shl_align_value p e e' Hle) as [Hv He']. destruct (shl_align p e e') as [mz ez].
    simpl in Hv, He'. subst ez. apply round_ge; [lia..|]. rewrite Hv.
    destruct (Z.le_gt_cases e L) as [HeL|HeL]; cycle 1.
    + assert (0 < 2 ^ (e - e')) by lia.
      destruct (Z.le_gt_cases e' L); [|rewrite Z.pow_neg_r by lia; lia].
      transitivity (2 ^ (e - e')); [apply Z.pow_le_mono_r; lia|nia].
    + replace (L - e') with (L - e + (e - e')) by lia. rewrite Z.pow_add_r by lia.
      apply Z.mul_le_mono_nonneg_r; lia.
  - unfold shl_align. destruct (e' - e) eqn:?; [lia| |lia]. by apply round_ge.
Qed.

Lemma f64_of_Z_ge n b : 1 <= n < 2 ^ b -> 0 <= b <= 900 -> mag_ge 0 (f64_of_Z n).
Proof.
  intros Hn Hb. eapply normalize_ge; [lia|lia|simpl; lia|]. apply (f64_of_Z_mag n b); lia.
Qed.

Lemma f64_add_ge L B x y :
  -1000 <= L -> -999 <= B <= 890 -> mag_lt B x -> mag_lt B y -> mag_ge L x ->
  mag_ge L (f64_add x y).
Proof.
  intros HL HB Hx Hy Hge. pose proof (f64_add_mag B x y HB Hx Hy) as Hmag. revert Hmag.
  destruct x as [| | |[] m e]; try done. destruct y as [| | |[] m' e']; try done.
  unfold f64_add, SFadd. set (ez := Z.min e e'). simpl cond_Zopp.
  destruct (shl_align_value m e ez) as [-> _]; [lia|].
  destruct (shl_align_value m' e' ez) as [-> _]; [lia|].
  simpl in Hge. assert (0 < 2 ^ (e - ez) /\ 0 < 2 ^ (e' - ez)) by lia.
  apply normalize_ge; [nia|lia|].
  destruct (Z.le_gt_cases e L) as [HeL|HeL]; cycle 1.
  - destruct (Z.le_gt_cases ez L); [|rewrite Z.pow_neg_r by lia; nia].
    transitivity (2 ^ (e - ez)); [apply Z.pow_le_mono_r; lia|nia].
  - replace (L - ez) with (L - e + (e - ez)) by lia. rewrite Z.pow_add_r by lia. nia.
Qed.

(** A quotient of a number at least [2^A] by one below [2^B] is at least
    [2^(A - B)]. *)
Lemma f64_div_ge A B C x m' e' :
  -400 <= A <= 400 -> -400 <= B <= 400 -> mag_ge A x -> Zpos m' < 2 ^ (B - e') ->
  mag_lt C (f64_div x (S754_finite false m' e')) ->
  mag_ge (A - B) (f64_div x (S754_finite false m' e')).
Proof.
  intros HA HB Hx Hy. destruct x as [| | |[] m e]; try done. simpl in Hx.
  pose proof (mag_lt_exp _ _ _ Hy) as Hexp.
  unfold f64_div, SFdiv, SFdiv_core_binary. set (ez := Z.min _ _). simpl xorb.
  pose proof (digits2_bounds m _ eq_refl) as Hd. pose proof (digits2_bounds m' _ eq_refl) as Hd'.
  assert (Hez : ez <= Zdigits2 (Zpos m) + e - (Zdigits2 (Zpos m') + e') - 53 /\ ez <= e - e').
  { unfold ez, fexp, emin, prec, emax. simpl Zdigits2.
    assert (A - e < Zpos (digits2_pos m)).
    { destruct (Z.le_gt_cases 0 (A - e)); [|lia]. rewrite digits2_pos_log2.
      apply Z.log2_le_pow2 in Hx; lia. }
    assert (Zpos (digits2_pos m') <= B - e').
    { destruct (Zdigits2_lt (Zpos m') (B - e')) as [|[]]; simpl in *; lia. }
    lia. }
  simpl Zdigits2 in Hez.
  set (mz := match e - e' - ez with Zpos _ => _ | Z0 => _ | Zneg _ => _ end).
  assert (Hmz : mz = Zpos m * 2 ^ (e - e' - ez)).
  { unfold mz. destruct (e - e' - ez) as [|s|s] eqn:Hs; [lia|by rewrite Z.shiftl_mul_pow2 by lia|lia]. }
  pose proof (Z.div_eucl_eq mz (Zpos m') ltac:(lia)) as Heq.
  pose proof (Z.mod_pos_bound mz (Zpos m') ltac:(lia)) as Hmod. unfold Z.modulo in Hmod.
  destruct (Z.div_eucl mz (Zpos m')) as [q r]. clearbody ez mz. subst mz.
  assert (Hs : 0 < 2 ^ (e - e' - ez)) by lia.
  assert (Hq : forall b, Zpos m' * b <= Zpos m * 2 ^ (e - e' - ez) -> b <= q).
  { intros b Hb. destruct (Z.le_gt_cases b q); [done|].
    assert (Zpos m' * (q + 1) <= Zpos m' * b) by (apply Z.mul_le_mono_nonneg_l; lia). lia. }
  apply round_ge; [|lia|].
  - enough (1 <= q) by lia. apply Hq. rewrite Z.mul_1_r.
    transitivity (2 ^ (Zpos (digits2_pos m) - 1) * 2 ^ (e - e' - ez));
      [|apply Z.mul_le_mono_nonneg_r; lia].
    rewrite <-Z.pow_add_r by lia. etransitivity; [apply Z.lt_le_incl, Hd'|].
    apply Z.pow_le_mono_r; lia.
  - destruct (Z.le_gt_cases ez (A - B)) as [Hle|]; cycle 1.
    { rewrite Z.pow_neg_r by lia. apply Hq. nia. }
    apply Hq. transitivity (2 ^ (B - e') * 2 ^ (A - B - ez)); [apply Z.mul_le_mono_nonneg_r; lia|].
    rewrite <-Z.pow_add_r by lia. replace (B - e' + (A - B - ez)) with (A - e' - ez) by lia.
    destruct (Z.le_gt_cases e A).
    + replace (A - e' - ez) with (A - e + (e - e' - ez)) by lia. rewrite Z.pow_add_r by lia.
      apply Z.mul_le_mono_nonneg_r; lia.
    + transitivity (2 ^ (e - e' - ez)); [apply Z.pow_le_mono_r; lia|nia].
Qed.
