(* ===== verification/FloatText.v ===== *)
(** * Reading a binary64 from decimal text: [str::parse::<f64>]

    The grammar of the Rust Standard Library (optional sign, [inf],
    [infinity], [nan] in any case, digits with an optional fraction and an
    optional exponent) and correct rounding of the decimal value. *)

From S2P Require Import Prelude RustStr Float64.
From Stdlib Require Import Ascii.
Open Scope string_scope.

Fixpoint take_digits (s : string) : list Z * string :=
  match s with
  | String a s' =>
      if is_ascii_digit a
      then let '(ds, rest) := take_digits s' in ((code a - 48)%Z :: ds, rest)
      else ([], s)
  | EmptyString => ([], EmptyString)
  end.
Definition digits_value (ds : list Z) : Z := foldl (fun acc d => acc * 10 + d)%Z 0%Z ds.

(** A sign, if any: whether it is a minus, and the rest. *)
Definition take_sign (s : string) : bool * string :=
  match s with
  | String "-"%char s' => (true, s')
  | String "+"%char s' => (false, s')
  | _ => (false, s)
  end.

Definition parse_exponent (s : string) : option Z :=
  match s with
  | EmptyString => Some 0%Z
  | String a s' =>
      if is_byte 101 a || is_byte 69 a then
        let '(negative, s'') := take_sign s' in
        match take_digits s'' with
        | ([], _) => None
        | (ds, EmptyString) =>
            Some (if negative then - digits_value ds else digits_value ds)%Z
        | _ => None
        end
      else None
  end.

(** [m * 10^k], correctly rounded. *)
Definition f64_of_decimal (negative : bool) (m k : Z) : f64 :=
  match m with
  | Zpos p =>
      if (0 <=? k)%Z
      then binary_normalize prec emax (if negative then - (m * 10 ^ k) else m * 10 ^ k)%Z 0 negative
      else f64_div (S754_finite negative p 0) (S754_finite false (Z.to_pos (10 ^ (- k))) 0)
  | _ => S754_zero negative
  end.

Definition parse_f64 (s : string) : option f64 :=
  let '(negative, body) := take_sign s in
  let lower := to_ascii_lowercase body in
  if (lower =? "inf") || (lower =? "infinity") then Some (S754_infinity negative)
  else if lower =? "nan" then Some S754_nan
  else
    let '(ip, r1) := take_digits body in
    let '(fp, r2) :=
      match r1 with
      | String "."%char t => take_digits t
      | _ => ([], r1)
      end in
    match ip, fp with
    | [], [] => None
    | _, _ =>
        match parse_exponent r2 with
        | Some e => Some (f64_of_decimal negative (digits_value (ip ++ fp)%list) (e - len fp)%Z)
        | None => None
        end
    end.

Example parse_f64_99_9 : parse_f64 "99.9" = Some (f64_lit 999 10).
Proof. vm_compute. reflexivity. Qed.
Example parse_f64_95 : parse_f64 "95" = Some (f64_of_Z 95).
Proof. vm_compute. reflexivity. Qed.

Open Scope Z_scope.
(** ** Fixed-precision display of binary64 values

    [format!("{:.N}")] of the standard library: the exact value of the float,
    rounded to [N] decimals, ties to even. *)

(** The integer nearest to [numerator / denominator], ties to even. *)
Definition round_half_even (numerator denominator : Z) : Z :=
  let quotient := numerator / denominator in
  match Z.compare (2 * (numerator mod denominator)) denominator with
  | Lt => quotient
  | Gt => quotient + 1
  | Eq => if Z.even quotient then quotient else quotient + 1
  end.

(** The decimals of [n / 10 ^ precision]. *)
Definition pad_zeros (width : nat) (digits : string) : string :=
  String.concat "" (replicate (width - String.length digits) "0") +:+ digits.

Definition decimal_places (precision : nat) (n : Z) : string :=
  let unit := 10 ^ Z.of_nat precision in
  display (n / unit) +:+ match precision with
                         | O => ""
                         | _ => "." +:+ pad_zeros precision (display (n mod unit))
                         end.

Definition signed (negative : bool) (text : string) : string := if negative then "-" +:+ text else text.

Definition format_fixed (precision : nat) (x : f64) : string :=
  match x with
  | S754_nan => "NaN"
  | S754_infinity s => signed s "inf"
  | S754_zero s => signed s (decimal_places precision 0)
  | S754_finite s m e =>
      let scaled := Zpos m * 10 ^ Z.of_nat precision in
      signed s (decimal_places precision
        (if 0 <=? e then scaled * 2 ^ e else round_half_even scaled (2 ^ (- e))))
  end.

Example fixed_texts :
  (fun x => format_fixed 1 x) <$> [f64_lit 25 100; f64_lit 35 100; f64_lit 75 100; f64_of_Z 1234; f64_lit 9996 10; f64_zero; f64_lit (-1) 20; f64_lit 1999 100]
  = ["0.2"; "0.3"; "0.8"; "1234.0"; "999.6"; "0.0"; "-0.1"; "20.0"].
Proof. vm_compute. reflexivity. Qed.
Example fixed_thousandths :
  (fun x => format_fixed 3 x) <$> [f64_lit 1 3; f64_lit 2 3; f64_lit 5 10000; f64_lit 12 1]
  = ["0.333"; "0.667"; "0.001"; "12.000"].
Proof. vm_compute. reflexivity. Qed.

(** The rounding is within half a unit of the exact value. *)
Lemma round_half_even_error numerator denominator :
  0 < denominator -> 2 * Z.abs (round_half_even numerator denominator * denominator - numerator) <= denominator.
Proof.
  intros Hd. pose proof (Z.div_mod numerator denominator ltac:(lia)) as Hdiv.
  pose proof (Z.mod_pos_bound numerator denominator Hd) as Hmod. unfold round_half_even.
  destruct (Z.compare_spec (2 * (numerator mod denominator)) denominator) as [He|Hl|Hg]; [destruct (Z.even _)|..]; nia.
Qed.
