(* ===== verification/Json.v ===== *)
(** * JSON values

    [serde_json::Value] without the [preserve_order] feature: an object is a
    B-tree map, represented by its entries in key order. Parsing text into a
    value and the derived conversions between typed documents and values are
    the [serde] crates' work and are parameters where they are needed. *)

From S2P Require Import Prelude Order RustStr Float64.
From Stdlib Require Import Ascii.
Open Scope string_scope.

Inductive Number :=
| PosInt (n : Z)      (** a [u64] *)
| NegInt (n : Z)      (** a negative [i64] *)
| Float (x : f64).

#[warning="-register-all"]
Inductive Value :=
| Null
| Bool (b : bool)
| Num (n : Number)
| Str (s : string)
| Array (values : list Value)
| Object (entries : list (string * Value)).

(** [Extensions]: the deliberate extension points of a document. *)
Abbreviation Extensions := (gmap string Value).

Definition as_str (v : Value) : option string :=
  match v with Str s => Some s | _ => None end.
Definition as_bool (v : Value) : option bool :=
  match v with Bool b => Some b | _ => None end.

(** [Map::insert]: entries stay in key order, a present key is replaced. *)
Fixpoint object_insert (key : string) (value : Value) (entries : list (string * Value))
  : list (string * Value) :=
  match entries with
  | [] => [(key, value)]
  | (k, v) :: rest =>
      match String.compare key k with
      | Lt => (key, value) :: entries
      | Eq => (key, value) :: rest
      | Gt => (k, v) :: object_insert key value rest
      end
  end.

(** [json!({ .. })]. *)
Definition json_object (entries : list (string * Value)) : Value :=
  Object (foldl (fun o kv => object_insert kv.1 kv.2 o) [] entries).

(** Induction over nested values. *)
Section ValueInd.
Context (P : Value -> Prop)
  (HNull : P Null) (HBool : forall b, P (Bool b)) (HNum : forall n, P (Num n))
  (HStr : forall s, P (Str s))
  (HArray : forall l, Forall P l -> P (Array l))
  (HObject : forall l, Forall P (l.*2) -> P (Object l)).

Fixpoint Value_nested_ind (v : Value) : P v :=
  match v with
  | Null => HNull
  | Bool b => HBool b
  | Num n => HNum n
  | Str s => HStr s
  | Array l => HArray l
      ((fix go l := match l return Forall P l with
                    | [] => Forall_nil_2 P
                    | x :: l' => Forall_cons_2 P x l' (Value_nested_ind x) (go l')
                    end) l)
  | Object l => HObject l
      ((fix go l := match l return Forall P (l.*2) with
                    | [] => Forall_nil_2 P
                    | (k, x) :: l' => Forall_cons_2 P x (l'.*2) (Value_nested_ind x) (go l')
                    end) l)
  end.
End ValueInd.

#[export] Instance Number_eq_dec : EqDecision Number.
Proof. solve_decision. Defined.

#[export] Instance Value_eq_dec : EqDecision Value.
Proof.
  refine (fix go (v w : Value) : Decision (v = w) :=
    match v, w with
    | Null, Null => left eq_refl
    | Bool b, Bool c => cast_if (decide (b = c))
    | Num n, Num m => cast_if (decide (n = m))
    | Str s, Str t => cast_if (decide (s = t))
    | Array l, Array k => cast_if (@list_eq_dec _ go l k)
    | Object l, Object k =>
        cast_if (@list_eq_dec _ (@prod_eq_dec _ String.string_dec _ go) l k)
    | _, _ => right _
    end); clear go; abstract congruence.
Defined.

(** [PartialEq] of values: numbers of the same variant, floats compared as
    [f64]. *)
Definition number_eqb (a b : Number) : bool :=
  match a, b with
  | PosInt n, PosInt m | NegInt n, NegInt m => (n =? m)%Z
  | Float x, Float y => f64_eq x y
  | _, _ => false
  end.

Fixpoint value_eqb (v w : Value) : bool :=
  match v, w with
  | Null, Null => true
  | Bool b, Bool c => Bool.eqb b c
  | Num n, Num m => number_eqb n m
  | Str s, Str t => s =? t
  | Array l, Array k => list_eqb value_eqb l k
  | Object l, Object k => list_eqb (fun a b => (a.1 =? b.1) && value_eqb a.2 b.2) l k
  | _, _ => false
  end.

(** The string leaves of a value, in traversal order; object keys are schema
    vocabulary and are not leaves. *)
Fixpoint string_leaves (v : Value) : list string :=
  match v with
  | Str s => [s]
  | Array l => flat_map string_leaves l
  | Object l => flat_map (fun kv => string_leaves kv.2) l
  | _ => []
  end.

(** ** JSON pointers

    [Value::get] and [Value::pointer] of serde_json (RFC 6901), the escaping the
    harness uses when it records where a value was redacted, and the round
    trip between the two: an escaped key resolves to its member. *)

(** ** Members and indices *)

(** [Map::get]. *)
Fixpoint member (key : string) (entries : list (string * Value)) : option Value :=
  match entries with
  | [] => None
  | (k, v) :: rest => if key =? k then Some v else member key rest
  end.

(** [value.get(key)] for a string key. *)
Definition value_get (key : string) (v : Value) : option Value :=
  match v with Object entries => member key entries | _ => None end.

Definition as_array (v : Value) : option (list Value) :=
  match v with Array values => Some values | _ => None end.
Definition as_object (v : Value) : option (list (string * Value)) :=
  match v with Object entries => Some entries | _ => None end.

(** [s.split(c)] for an ASCII character [c]. *)
Fixpoint split_byte (n : Z) (s : string) : list string :=
  match s with
  | EmptyString => [""]
  | String a s' =>
      if is_byte n a then "" :: split_byte n s'
      else match split_byte n s' with
           | x :: l => String a x :: l
           | [] => [String a ""]
           end
  end.

(** The index an array token denotes: decimal digits without a sign or leading
    zeros, within [usize]. *)
Definition parse_index (s : string) : option Z :=
  if starts_with "+" s || (starts_with "0" s && negb (str_len s =? 1)%Z) then None
  else if is_empty s || negb (all_bytes is_ascii_digit s) then None
  else try_from usize_max (Z.of_N (decimal_value 0 s)).

Definition descend (target : Value) (token : string) : option Value :=
  match target with
  | Object entries => member token entries
  | Array values => parse_index token ≫= (fun i => values !! Z.to_nat i)
  | _ => None
  end.

(** The value at a path of decoded tokens. *)
Fixpoint resolve (tokens : list string) (v : Value) : option Value :=
  match tokens with
  | [] => Some v
  | token :: rest => descend v token ≫= resolve rest
  end.

Definition unescape_token (token : string) : string := replace "~0" "~" (replace "~1" "/" token).

Definition json_pointer (pointer : string) (v : Value) : option Value :=
  if is_empty pointer then Some v
  else if negb (starts_with "/" pointer) then None
  else resolve (unescape_token <$> tail (split_byte 47 pointer)) v.

Definition escape_pointer_segment (segment : string) : string :=
  replace "/" "~1" (replace "~" "~0" segment).

(** The pointer of a path. *)
Definition render_path (tokens : list string) : string :=
  String.concat "" ((fun token => "/" +:+ escape_pointer_segment token) <$> tokens).

(** ** Escaping round trip *)

Definition escape_byte (a : ascii) : string :=
  if is_byte 126 a then "~0" else if is_byte 47 a then "~1" else String a "".

Fixpoint escaped (s : string) : string :=
  match s with EmptyString => "" | String a s' => escape_byte a +:+ escaped s' end.

Lemma is_byte_code a b : is_byte (code b) a = true <-> a = b.
Proof.
  unfold is_byte, code. brust. split; [|by intros ->]. intros H.
  rewrite <-(ascii_N_embedding a), <-(ascii_N_embedding b). f_equal. lia.
Qed.

Lemma append_nil_r s : s +:+ "" = s.
Proof. apply bytes_inj. by rewrite bytes_app, app_nil_r. Qed.

Lemma concat_string_cons x l : String.concat "" (x :: l) = x +:+ String.concat "" l.
Proof. destruct l as [|y l]; [|done]. simpl. by rewrite append_nil_r. Qed.

Lemma concat_string_app l k :
  String.concat "" (l ++ k)%list = String.concat "" l +:+ String.concat "" k.
Proof.
  induction l as [|x l IH]; [done|].
  change ((x :: l) ++ k)%list with (x :: (l ++ k))%list. by rewrite !concat_string_cons, IH, append_assoc.
Qed.

(** Replacing a single byte rewrites the string byte by byte. *)
Lemma replace_single c to s :
  replace (String c "") to s
  = String.concat "" ((fun a => if is_byte (code c) a then to else String a "") <$> bytes s).
Proof.
  unfold replace. induction s as [|a s IH]; [done|]. cbn [replace_go bytes String.list_ascii_of_string].
  change (String.list_ascii_of_string s) with (bytes s). rewrite fmap_cons.
  rewrite concat_string_cons. change (String.prefix (String c "") (String a s)) with
    (if ascii_dec c a then String.prefix "" s else false).
  destruct (is_byte (code c) a) eqn:Hb.
  - apply is_byte_code in Hb as ->. destruct (ascii_dec c c) as [_|?]; [|done].
    replace (String.prefix "" s) with true by (by destruct s). simpl. by rewrite IH.
  - destruct (ascii_dec c a) as [->|_]; [|by rewrite IH].
    assert (is_byte (code a) a = true) by (by apply is_byte_code). congruence.
Qed.

Lemma escape_pointer_segment_bytes s : escape_pointer_segment s = escaped s.
Proof.
  unfold escape_pointer_segment. rewrite !replace_single.
  induction s as [|a s IH]; [done|]. cbn [bytes String.list_ascii_of_string escaped].
  change (String.list_ascii_of_string s) with (bytes s).
  rewrite fmap_cons, concat_string_cons, bytes_app, fmap_app.
  rewrite concat_string_app, IH. f_equal. unfold escape_byte.
  change (is_byte (code "~") a) with (is_byte 126 a).
  destruct (is_byte 126 a) eqn:Ht; [reflexivity|]. cbn.
  change (is_byte (code "/") a) with (is_byte 47 a). by destruct (is_byte 47 a).
Qed.

(** What [unescape_token]'s first replacement leaves of an escaped string. *)
Fixpoint half_escaped (s : string) : string :=
  match s with
  | EmptyString => ""
  | String a s' => (if is_byte 126 a then "~0" else String a "") +:+ half_escaped s'
  end.

Lemma replace_go_head pat to a s :
  String.prefix pat (String a s) = false ->
  replace_go pat to 0 (String a s) = String a (replace_go pat to 0 s).
Proof. intros H. cbn [replace_go]. by rewrite H. Qed.

Lemma prefix_other c pat a s : a <> c -> String.prefix (String c pat) (String a s) = false.
Proof. intros H. cbn [String.prefix]. by destruct (ascii_dec c a) as [->|]. Qed.

Lemma unescape_first s : replace "~1" "/" (escaped s) = half_escaped s.
Proof.
  unfold replace. induction s as [|a s IH]; [done|]. cbn [escaped half_escaped]. unfold escape_byte.
  destruct (is_byte 126 a) eqn:Ht; [|destruct (is_byte 47 a) eqn:Hs].
  - change ("~0" +:+ ?x) with (String "~" (String "0" x)).
    rewrite replace_go_head by reflexivity. rewrite replace_go_head by (by apply prefix_other).
    by rewrite IH.
  - apply (is_byte_code a "/") in Hs as ->. change ("~1" +:+ ?x) with (String "~" (String "1" x)).
    cbn -[escaped half_escaped]. destruct (escaped s); simpl in *; by f_equal.
  - change (String a "" +:+ ?x) with (String a x). rewrite replace_go_head; [by rewrite IH|].
    apply prefix_other. intros ->. done.
Qed.

Lemma unescape_second s : replace "~0" "~" (half_escaped s) = s.
Proof.
  unfold replace. induction s as [|a s IH]; [done|]. cbn [half_escaped].
  destruct (is_byte 126 a) eqn:Ht.
  - apply (is_byte_code a "~") in Ht as ->. change ("~0" +:+ ?x) with (String "~" (String "0" x)).
    cbn -[half_escaped]. destruct (half_escaped s); simpl in *; by f_equal.
  - change (String a "" +:+ ?x) with (String a x). rewrite replace_go_head; [by rewrite IH|].
    apply prefix_other. intros ->. done.
Qed.

Lemma unescape_escape s : unescape_token (escape_pointer_segment s) = s.
Proof. unfold unescape_token. by rewrite escape_pointer_segment_bytes, unescape_first, unescape_second. Qed.

Lemma escaped_no_slash s : contains_byte 47 (escaped s) = false.
Proof.
  induction s as [|a s IH]; [done|]. cbn [escaped]. unfold contains_byte in *.
  rewrite bytes_app, existsb_app, IH, orb_false_r. unfold escape_byte.
  destruct (is_byte 126 a); [done|]. destruct (is_byte 47 a) eqn:Hs; [done|]. simpl. by rewrite Hs.
Qed.

(** ** Pointers of paths *)

Lemma split_byte_nonempty n s : split_byte n s <> [].
Proof. destruct s as [|a s]; cbn; [done|]. destruct (is_byte n a); [done|]. by destruct (split_byte n s). Qed.

Lemma split_byte_free n s t :
  contains_byte n s = false ->
  split_byte n (s +:+ t) = match split_byte n t with x :: l => (s +:+ x) :: l | [] => [] end.
Proof.
  unfold contains_byte. induction s as [|a s IH].
  - intros _. change ("" +:+ t) with t. destruct (split_byte n t); [done|]. reflexivity.
  - intros H. cbn in H. apply orb_false_iff in H as [Ha Hs].
    change (String a s +:+ t) with (String a (s +:+ t)). cbn [split_byte]. rewrite Ha, (IH Hs).
    pose proof (split_byte_nonempty n t) as Hne. destruct (split_byte n t); [done|]. reflexivity.
Qed.

Lemma split_render_path tokens :
  split_byte 47 (render_path tokens) = "" :: (escape_pointer_segment <$> tokens).
Proof.
  unfold render_path. induction tokens as [|t l IH]; [done|].
  rewrite !fmap_cons, concat_string_cons.
  change (("/" +:+ escape_pointer_segment t) +:+ ?x) with (String "/" (escape_pointer_segment t +:+ x)).
  cbn [split_byte]. change (is_byte 47 "/") with true. cbn iota.
  rewrite split_byte_free by (rewrite escape_pointer_segment_bytes; apply escaped_no_slash).
  rewrite IH. f_equal. f_equal. by rewrite append_nil_r.
Qed.

(** Looking a rendered path up walks the path. *)
Lemma json_pointer_render tokens v : json_pointer (render_path tokens) v = resolve tokens v.
Proof.
  unfold json_pointer. rewrite split_render_path. cbn [tail].
  assert (Hun : (unescape_token <$> (escape_pointer_segment <$> tokens)) = tokens).
  { induction tokens as [|t l IH]; [done|]. rewrite !fmap_cons, IH. by rewrite unescape_escape. }
  rewrite Hun. destruct tokens as [|t l]; [done|]. unfold render_path. rewrite fmap_cons, concat_string_cons.
  replace (starts_with "/" _) with true; [reflexivity|].
  symmetry. apply prefix_spec. by eexists.
Qed.

(** ** Array indices *)

Lemma pretty_N_go_head x s :
  (0 < x)%N -> exists a t, pretty_N_go x s = String a t /\ is_byte 48 a = false.
Proof.
  revert s. induction (N.lt_wf_0 x) as [x _ IH]; intros s Hx.
  rewrite pretty_N_go_step by lia. destruct (decide (x `div` 10 = 0)%N) as [Hz|Hd].
  - rewrite Hz, pretty_N_go_0. eexists _, _. split; [done|].
    assert (Hall : forallb (fun d => negb (is_byte 48 (pretty_N_char d))) (N.of_nat <$> seq 1 9) = true)
      by reflexivity.
    rewrite forallb_forall in Hall. apply negb_true_iff, Hall, in_map_iff.
    exists (N.to_nat (x mod 10)). pose proof (N.div_mod x 10 ltac:(lia)) as Hdm. rewrite Hz in Hdm.
    assert (x mod 10 < 10)%N by (by apply N.mod_lt). split; [by rewrite N2Nat.id|]. apply in_seq. lia.
  - apply IH; [apply N.div_lt; lia|by apply N.neq_0_lt_0].
Qed.

Lemma parse_index_display i : (0 <= i <= usize_max)%Z -> parse_index (display i) = Some i.
Proof.
  intros Hi. pose proof (display_digits i ltac:(lia)) as Hd.
  unfold parse_index. rewrite Hd, decimal_value_display by lia.
  assert (Hplus : starts_with "+" (display i) = false).
  { apply not_true_is_false. intros [t Ht]%prefix_spec. rewrite Ht in Hd. discriminate Hd. }
  assert (Hzero : starts_with "0" (display i) && negb (str_len (display i) =? 1)%Z = false).
  { destruct (Z.eq_dec i 0) as [->|Hne]; [reflexivity|]. apply andb_false_iff. left.
    apply not_true_is_false. intros [t Ht]%prefix_spec.
    destruct i as [|p|p]; [done| |lia]. unfold display in Ht. change (pretty (Z.pos p)) with (pretty (N.pos p)) in Ht.
    unfold pretty, pretty_N in Ht. rewrite decide_False in Ht by done.
    destruct (pretty_N_go_head (N.pos p) "") as (a & t' & Hgo & Ha); [lia|]. rewrite Hgo in Ht.
    injection Ht as -> _. discriminate Ha. }
  rewrite Hplus, Hzero. cbn [orb negb].
  pose proof (display_nonempty i) as Hne. destruct (is_empty (display i)) eqn:He;
    [by apply is_empty_spec in He|]. cbn [orb]. unfold try_from. rewrite Z2N.id by lia.
  destruct (Z.leb_spec i usize_max); [done|lia].
Qed.

Lemma display_escaped i : (0 <= i)%Z -> escape_pointer_segment (display i) = display i.
Proof.
  intros Hi. pose proof (display_digits i Hi) as Hd. rewrite escape_pointer_segment_bytes.
  revert Hd. unfold all_bytes. generalize (display i). induction s as [|a s IH]; [done|].
  cbn. intros [Ha Hs]%andb_true_iff. rewrite (IH Hs). unfold escape_byte.
  unfold is_ascii_digit, between, is_byte in *. brust in Ha.
  destruct (Z.eqb_spec (code a) 126); [lia|]. destruct (Z.eqb_spec (code a) 47); [lia|]. done.
Qed.
