(* ===== verification/ContractValue.v ===== *)
(** * Contract values and validation (crates/common/src/contract/{mod,value}.rs)

    Semantic validation of a contract document appends every violation it
    finds to a vector of issues. Nothing ever removes or reads an issue while
    collecting, so [collect_issues v path] is the list of issues the call
    appends, in order. *)

From S2P Require Import Prelude Order RustStr Float64 Json.
Open Scope string_scope.

(** ** Validation issues *)

Record ValidationIssue := { issue_path : string; issue_message : string }.
Definition ValidationErrors := list ValidationIssue.

#[export] Instance ValidationIssue_eq_dec : EqDecision ValidationIssue.
Proof. solve_decision. Defined.

Class Validate (T : Type) := collect_issues : T -> string -> list ValidationIssue.

Definition validate {T} `{Validate T} (v : T) : result unit ValidationErrors :=
  match collect_issues v "$" with
  | [] => Ok tt
  | issues => Err issues
  end.

(** [Display] of the collected issues. *)
Definition display_issues (self : ValidationErrors) : string :=
  String.concat "; " ((fun issue => issue_path issue +:+ ": " +:+ issue_message issue) <$> self).

Definition require_non_empty (value path : string) : list ValidationIssue :=
  if blank value then [{| issue_path := path; issue_message := "must not be empty" |}] else [].

Definition require_finite_non_negative (value : f64) (path : string) : list ValidationIssue :=
  if negb (is_finite value) || f64_lt value f64_zero
  then [{| issue_path := path; issue_message := "must be a finite, non-negative number" |}]
  else [].

Definition child_path (parent child : string) : string := parent +:+ "." +:+ child.
Definition indexed_path (parent : string) (index : nat) : string :=
  parent +:+ "[" +:+ display (Z.of_nat index) +:+ "]".

(** [if c { issues.push(ValidationIssue::new(path, message)) }] *)
Definition issue_if (c : bool) (path message : string) : list ValidationIssue :=
  if c then [{| issue_path := path; issue_message := message |}] else [].

(** [for (index, x) in l.iter().enumerate() { f(index, x) }] *)
Definition each {A} (f : nat -> A -> list ValidationIssue) (l : list A) : list ValidationIssue :=
  concat (imap f l).

Definition opt_issues {A} (f : A -> list ValidationIssue) (o : option A) : list ValidationIssue :=
  match o with Some a => f a | None => [] end.

(** [require_unique]: the [seen] set is the one the loop fills. *)
Fixpoint unique_issues (seen : gset string) (values : list string) (path : string)
  : list ValidationIssue :=
  match values with
  | [] => []
  | v :: vs =>
      if decide (v ∈ seen)
      then {| issue_path := path;
              issue_message := "contains duplicate identifier `" +:+ v +:+ "`" |}
           :: unique_issues seen vs path
      else unique_issues ({[v]} ∪ seen) vs path
  end.
Definition require_unique (values : list string) (path : string) : list ValidationIssue :=
  unique_issues ∅ values path.

Definition secret_needles : list string :=
  ["password"; "secret"; "token"; "private_key"; "access_key"].
Definition secret_like (key : string) : bool :=
  existsb (fun needle => contains needle (to_ascii_lowercase key)) secret_needles.
Definition reject_secret_like_keys (keys : list string) (path : string) : list ValidationIssue :=
  flat_map (fun key =>
    issue_if (secret_like key) path
      ("secret-like setting key `" +:+ key +:+ "` is forbidden")) keys.

(** ** Identifiers

    The [string_id!] newtypes are transparent strings that must not be blank. *)

Abbreviation ScenarioId := string (only parsing).
Abbreviation ProfileId := string (only parsing).
Abbreviation ResultId := string (only parsing).
Abbreviation BundleId := string (only parsing).
Abbreviation ComponentId := string (only parsing).
Abbreviation CapabilityId := string (only parsing).
Abbreviation StepId := string (only parsing).
Abbreviation AssertionId := string (only parsing).
Abbreviation EvidenceId := string (only parsing).

Definition id_issues (id path : string) : list ValidationIssue := require_non_empty id path.

(** ** Digests, artifacts, sources, builds *)

Inductive ContractVersion := V1.

Inductive DigestAlgorithm := Sha256.

Record Digest := { digest_algorithm : DigestAlgorithm; digest_value : string }.

Definition expected_length (a : DigestAlgorithm) : Z := match a with Sha256 => 64 end.
Definition algorithm_debug (a : DigestAlgorithm) : string := match a with Sha256 => "Sha256" end.

#[export] Instance Digest_validate : Validate Digest := fun self path =>
  issue_if (negb (str_len (digest_value self) =? expected_length (digest_algorithm self))%Z
            || negb (all_bytes is_ascii_hexdigit (digest_value self)))
    (child_path path "value")
    ("must contain exactly " +:+ display (expected_length (digest_algorithm self))
     +:+ " hexadecimal characters for " +:+ algorithm_debug (digest_algorithm self)).

Record ArtifactReference := {
  artifact_location : string;
  artifact_media_type : string;
  artifact_digest : Digest;
  artifact_bytes : option Z;
  artifact_description : option string;
  artifact_extensions : Extensions;
}.

#[export] Instance ArtifactReference_validate : Validate ArtifactReference := fun self path =>
  (require_non_empty (artifact_location self) (child_path path "location")
   ++ require_non_empty (artifact_media_type self) (child_path path "media_type")
   ++ collect_issues (artifact_digest self) (child_path path "digest"))%list.

Record SourceRevision := {
  source_repository : string;
  source_revision : string;
  source_tag : option string;
  source_extensions : Extensions;
}.

#[export] Instance SourceRevision_validate : Validate SourceRevision := fun self path =>
  (require_non_empty (source_repository self) (child_path path "repository")
   ++ require_non_empty (source_revision self) (child_path path "revision"))%list.

Record BuildConfiguration := {
  build_toolchain : string;
  build_target : string;
  build_profile : string;
  build_options : list string;
  build_compiler_flags : list string;
  build_locked : bool;
  build_environment : gmap string string;
  build_extensions : Extensions;
}.

#[export] Instance BuildConfiguration_validate : Validate BuildConfiguration := fun self path =>
  (require_non_empty (build_toolchain self) (child_path path "toolchain")
   ++ require_non_empty (build_target self) (child_path path "target")
   ++ require_non_empty (build_profile self) (child_path path "profile"))%list.

Definition validate_artifacts (artifacts : list ArtifactReference) (path : string)
  : list ValidationIssue :=
  each (fun index artifact => collect_issues artifact (indexed_path path index)) artifacts.

Inductive ImageDigestScope := Index | PlatformManifest | LocalImage.

Inductive RuntimeArtifact :=
| ContainerImage (reference : string) (digest_scope : ImageDigestScope) (digest : Digest)
    (platform_digest : option Digest) (embedded_artifacts : list ArtifactReference)
| SourceBuild (executable : option ArtifactReference)
| Package (ecosystem package version : string) (digest : option Digest).

#[export] Instance ImageDigestScope_eq_dec : EqDecision ImageDigestScope.
Proof. solve_decision. Defined.

#[export] Instance RuntimeArtifact_validate : Validate RuntimeArtifact := fun self path =>
  match self with
  | ContainerImage reference digest_scope digest platform_digest embedded_artifacts =>
      (require_non_empty reference (child_path path "reference")
       ++ collect_issues digest (child_path path "digest")
       ++ opt_issues (fun digest =>
            collect_issues digest (child_path path "platform_digest")
            ++ issue_if (bool_decide (digest_scope <> Index))
                 (child_path path "platform_digest")
                 "is only meaningful when digest_scope is `index`") platform_digest
       ++ validate_artifacts embedded_artifacts (child_path path "embedded_artifacts"))%list
  | SourceBuild executable =>
      opt_issues (fun artifact => collect_issues artifact (child_path path "executable"))
        executable
  | Package ecosystem package version digest =>
      (require_non_empty ecosystem (child_path path "ecosystem")
       ++ require_non_empty package (child_path path "package")
       ++ require_non_empty version (child_path path "version")
       ++ opt_issues (fun digest => collect_issues digest (child_path path "digest")) digest)%list
  end.

(** ** Components *)

Inductive ComponentKind :=
| Catalog | Client | Connector | Engine | ObjectStore | StateStore
| BenchmarkHarness | ContainerRuntime | Validator | Converter | Other.

#[export] Instance ComponentKind_eq_dec : EqDecision ComponentKind.
Proof. solve_decision. Defined.

Record Component := {
  comp_id : ComponentId;
  comp_kind : ComponentKind;
  comp_name : string;
  comp_version : string;
  comp_source : option SourceRevision;
  comp_build : option BuildConfiguration;
  comp_artifact : RuntimeArtifact;
  comp_extensions : Extensions;
}.

Definition is_none {A} (o : option A) : bool := match o with None => true | Some _ => false end.

Definition is_source_build (a : RuntimeArtifact) : bool :=
  match a with SourceBuild _ => true | _ => false end.

#[export] Instance Component_validate : Validate Component := fun self path =>
  (id_issues (comp_id self) (child_path path "id")
   ++ require_non_empty (comp_name self) (child_path path "name")
   ++ require_non_empty (comp_version self) (child_path path "version")
   ++ opt_issues (fun source => collect_issues source (child_path path "source"))
        (comp_source self)
   ++ opt_issues (fun build =>
        collect_issues build (child_path path "build")
        ++ issue_if (is_none (comp_source self)) (child_path path "build")
             "requires an immutable source revision") (comp_build self)
   ++ (if is_source_build (comp_artifact self)
       then issue_if (is_none (comp_source self)) (child_path path "source")
              "is required for a source-build artifact"
            ++ issue_if (is_none (comp_build self)) (child_path path "build")
                 "is required for a source-build artifact"
       else [])
   ++ collect_issues (comp_artifact self) (child_path path "artifact"))%list.

(** ** Lemmas on collecting issues *)

Lemma validate_ok {T} `{Validate T} (v : T) :
  validate v = Ok tt <-> collect_issues v "$" = [].
Proof. unfold validate. by destruct (collect_issues v "$"). Qed.

Lemma issue_if_nil c path message : issue_if c path message = [] <-> c = false.
Proof. by destruct c. Qed.

Lemma require_non_empty_nil value path : require_non_empty value path = [] <-> blank value = false.
Proof. unfold require_non_empty. by destruct (blank value). Qed.

Lemma require_finite_non_negative_nil x path :
  require_finite_non_negative x path = [] <-> finite_nonneg x = true.
Proof.
  unfold require_finite_non_negative, finite_nonneg.
  by destruct (is_finite x), (f64_lt x f64_zero).
Qed.

Lemma opt_issues_nil {A} (f : A -> list ValidationIssue) o :
  opt_issues f o = [] <-> forall a, o = Some a -> f a = [].
Proof. destruct o; naive_solver. Qed.

Lemma concat_nil_iff {A} (ls : list (list A)) : concat ls = [] <-> Forall (fun l => l = []) ls.
Proof.
  induction ls as [|l ls IH]; simpl; [done|].
  rewrite app_nil, Forall_cons, IH. done.
Qed.

Lemma each_nil {A} (f : nat -> A -> list ValidationIssue) l :
  each f l = [] <-> forall i x, l !! i = Some x -> f i x = [].
Proof.
  unfold each. rewrite concat_nil_iff, Forall_lookup. setoid_rewrite list_lookup_imap_Some.
  naive_solver.
Qed.

Lemma flat_map_nil {A B} (f : A -> list B) l :
  flat_map f l = [] <-> forall x, x ∈ l -> f x = [].
Proof.
  induction l as [|x l IH]; simpl; [set_solver|].
  rewrite app_nil, IH. set_solver.
Qed.

Lemma unique_issues_nil seen values path :
  unique_issues seen values path = [] <->
  NoDup values /\ forall v, v ∈ values -> v ∉ seen.
Proof.
  revert seen; induction values as [|v vs IH]; intros seen; simpl.
  - split; [intros _; split; [constructor | set_solver] | done].
  - rewrite NoDup_cons. destruct (decide (v ∈ seen)) as [Hv|Hv].
    + split; [done|]. intros [_ H]. exfalso. apply (H v); set_solver.
    + rewrite IH. split.
      * intros [Hnd H]. split; [split; [|done]|].
        -- intros Hin. apply (H v Hin). set_solver.
        -- intros w [->|Hw]%elem_of_cons; [done|]. specialize (H w Hw). set_solver.
      * intros [[Hv' Hnd] H]. split; [done|]. intros w Hw.
        specialize (H w). set_solver.
Qed.

Lemma require_unique_nil values path : require_unique values path = [] <-> NoDup values.
Proof. unfold require_unique. rewrite unique_issues_nil. set_solver. Qed.

Lemma reject_secret_like_keys_nil keys path :
  reject_secret_like_keys keys path = [] <-> forall k, k ∈ keys -> secret_like k = false.
Proof.
  unfold reject_secret_like_keys. rewrite flat_map_nil.
  by setoid_rewrite issue_if_nil.
Qed.

Create Rewrite HintDb issues.
#[export] Hint Rewrite @app_nil issue_if_nil require_non_empty_nil
  require_finite_non_negative_nil @opt_issues_nil @each_nil @flat_map_nil
  require_unique_nil reject_secret_like_keys_nil : issues.

(** [issues H]: turn "no issue was found" into what each check establishes. *)
Tactic Notation "issues" "in" hyp(H) :=
  autorewrite with issues in H; brust in H; destruct_and? H.
Tactic Notation "issues" := autorewrite with issues; brust.

Lemma digest_valid d path :
  collect_issues d path = [] <->
  str_len (digest_value d) = 64%Z /\ all_bytes is_ascii_hexdigit (digest_value d) = true.
Proof.
  unfold collect_issues, Digest_validate. destruct d as [[] v]; cbn. by issues.
Qed.

Lemma validate_artifacts_nil artifacts path :
  validate_artifacts artifacts path = [] <->
  forall i a, artifacts !! i = Some a -> collect_issues a (indexed_path path i) = [].
Proof. unfold validate_artifacts. by rewrite each_nil. Qed.
