(* ===== verification/ContractScenario.v ===== *)
(** * Scenario documents (crates/common/src/contract/scenario.rs)

    A scenario is a list of steps with declared dependencies and a list of
    assertions about them. The validator accepts exactly the well-formed
    scenarios ([scenario_wf]), and a well-formed scenario can be executed in
    document order: its dependency relation has no cycle. *)

From S2P Require Import Prelude Order RustStr Float64 Json ContractValue.
Open Scope string_scope.

Inductive ScenarioDocumentKind := ScenarioKind.

Inductive ScenarioFamily :=
| IcebergRest | ClientInteroperability | Concurrency | SecurityAndTenancy
| Operations | MigrationAndFederation | SemanticInteroperability.

Inductive RequirementLevel := Required | Optional.

#[export] Instance ScenarioFamily_eq_dec : EqDecision ScenarioFamily.
Proof. solve_decision. Defined.
#[export] Instance RequirementLevel_eq_dec : EqDecision RequirementLevel.
Proof. solve_decision. Defined.

Record CapabilityRequirement := {
  req_capability : CapabilityId;
  req_level : RequirementLevel;
  req_description : string;
  req_specification : option string;
}.

Module ActorRole.
Inductive t := Harness | Catalog | Client | Engine | ObjectStore | StateStore | ExternalSink.
End ActorRole.

Record ScenarioStep := {
  step_id : StepId;
  step_actor : ActorRole.t;
  step_operation : string;
  step_description : string;
  step_depends_on : list StepId;
  step_parameters : gmap string Value;
  step_timeout_ms : option Z;
}.

Inductive AssertionCheck :=
| HttpStatus (allowed : list Z)
| JsonPointerEquals (pointer : string) (expected : Value)
| ArtifactExists (role : string)
| ObjectCountDelta (minimum : Z)
| NoRequestErrors
| ExactReplay
| DataRead (expectation : string)
| Custom (name : string) (configuration : Value).

Record AssertionSpec := {
  spec_id : AssertionId;
  spec_step : StepId;
  spec_required : bool;
  spec_description : string;
  spec_check : AssertionCheck;
}.

Inductive ClassificationPolicy := StrictV1.

Record Scenario := {
  scen_contract_version : ContractVersion;
  scen_kind : ScenarioDocumentKind;
  scen_id : ScenarioId;
  scen_version : Z;
  scen_title : string;
  scen_description : string;
  scen_family : ScenarioFamily;
  scen_classification : ClassificationPolicy;
  scen_tags : list string;
  scen_capabilities : list CapabilityRequirement;
  scen_parameters : gmap string Value;
  scen_steps : list ScenarioStep;
  scen_assertions : list AssertionSpec;
  scen_extensions : Extensions;
}.

(** ** Derived [PartialEq] *)

#[export] Instance ActorRole_eq_dec : EqDecision ActorRole.t.
Proof. solve_decision. Defined.
#[export] Instance CapabilityRequirement_eq_dec : EqDecision CapabilityRequirement.
Proof. solve_decision. Defined.
#[export] Instance ContractVersion_eq_dec : EqDecision ContractVersion.
Proof. solve_decision. Defined.
#[export] Instance ScenarioDocumentKind_eq_dec : EqDecision ScenarioDocumentKind.
Proof. solve_decision. Defined.
#[export] Instance ClassificationPolicy_eq_dec : EqDecision ClassificationPolicy.
Proof. solve_decision. Defined.

Definition check_eqb (a b : AssertionCheck) : bool :=
  match a, b with
  | HttpStatus l, HttpStatus k => bool_decide (l = k)
  | JsonPointerEquals p v, JsonPointerEquals q w => (p =? q) && value_eqb v w
  | ArtifactExists r, ArtifactExists s => r =? s
  | ObjectCountDelta m, ObjectCountDelta n => (m =? n)%Z
  | NoRequestErrors, NoRequestErrors | ExactReplay, ExactReplay => true
  | DataRead e, DataRead f => e =? f
  | Custom m v, Custom n w => (m =? n) && value_eqb v w
  | _, _ => false
  end.

Definition step_eqb (a b : ScenarioStep) : bool :=
  (step_id a =? step_id b) && bool_decide (step_actor a = step_actor b)
  && (step_operation a =? step_operation b) && (step_description a =? step_description b)
  && bool_decide (step_depends_on a = step_depends_on b)
  && map_eqb value_eqb (step_parameters a) (step_parameters b)
  && bool_decide (step_timeout_ms a = step_timeout_ms b).

Definition spec_eqb (a b : AssertionSpec) : bool :=
  (spec_id a =? spec_id b) && (spec_step a =? spec_step b)
  && Bool.eqb (spec_required a) (spec_required b)
  && (spec_description a =? spec_description b) && check_eqb (spec_check a) (spec_check b).

Definition scenario_eqb (a b : Scenario) : bool :=
  bool_decide (scen_contract_version a = scen_contract_version b)
  && bool_decide (scen_kind a = scen_kind b)
  && (scen_id a =? scen_id b) && (scen_version a =? scen_version b)%Z
  && (scen_title a =? scen_title b) && (scen_description a =? scen_description b)
  && bool_decide (scen_family a = scen_family b)
  && bool_decide (scen_classification a = scen_classification b)
  && bool_decide (scen_tags a = scen_tags b)
  && bool_decide (scen_capabilities a = scen_capabilities b)
  && map_eqb value_eqb (scen_parameters a) (scen_parameters b)
  && list_eqb step_eqb (scen_steps a) (scen_steps b)
  && list_eqb spec_eqb (scen_assertions a) (scen_assertions b)
  && map_eqb value_eqb (scen_extensions a) (scen_extensions b).

(** ** Validation *)

Definition validate_check (check : AssertionCheck) (path : string) : list ValidationIssue :=
  match check with
  | HttpStatus [] =>
      [{| issue_path := child_path path "allowed";
          issue_message := "must contain at least one status code" |}]
  | HttpStatus allowed =>
      flat_map (fun status =>
        issue_if (negb ((100 <=? status) && (status <=? 599))%Z) (child_path path "allowed")
          ("contains invalid HTTP status " +:+ display status)) allowed
  | JsonPointerEquals pointer _ =>
      issue_if (negb (is_empty pointer) && negb (starts_with "/" pointer))
        (child_path path "pointer") "must be empty or start with `/`"
  | ArtifactExists role => require_non_empty role (child_path path "role")
  | DataRead expectation => require_non_empty expectation (child_path path "expectation")
  | Custom name _ =>
      (require_non_empty name (child_path path "name")
       ++ issue_if (negb (contains "/" name)) (child_path path "name")
            "must be namespaced (for example `org.example/check`)")%list
  | ObjectCountDelta _ | NoRequestErrors | ExactReplay => []
  end.

(** The [BTreeMap<&StepId, usize>] of step positions: a later step with the
    same identifier replaces an earlier one. *)
Definition step_positions (steps : list ScenarioStep) : gmap StepId nat :=
  foldl (fun m kv => <[kv.1 := kv.2]> m) ∅ (imap (fun index step => (step_id step, index)) steps).

Definition dependency_issues (positions : gmap StepId nat) (index : nat) (step_path : string)
    (dependency : StepId) : list ValidationIssue :=
  match positions !! dependency with
  | Some dependency_index =>
      issue_if (negb (dependency_index <? index)%nat) (child_path step_path "depends_on")
        ("dependency `" +:+ dependency +:+ "` must precede this step")
  | None =>
      [{| issue_path := child_path step_path "depends_on";
          issue_message := "references unknown step `" +:+ dependency +:+ "`" |}]
  end.

Definition step_issues (positions : gmap StepId nat) (path : string) (index : nat)
    (step : ScenarioStep) : list ValidationIssue :=
  let step_path := indexed_path (child_path path "steps") index in
  (id_issues (step_id step) (child_path step_path "id")
   ++ require_non_empty (step_operation step) (child_path step_path "operation")
   ++ require_non_empty (step_description step) (child_path step_path "description")
   ++ require_unique (step_depends_on step) (child_path step_path "depends_on")
   ++ flat_map (dependency_issues positions index step_path) (step_depends_on step))%list.

Definition assertion_issues (step_ids : gset StepId) (path : string) (index : nat)
    (assertion : AssertionSpec) : list ValidationIssue :=
  let assertion_path := indexed_path (child_path path "assertions") index in
  (id_issues (spec_id assertion) (child_path assertion_path "id")
   ++ issue_if (negb (bool_decide (spec_step assertion ∈ step_ids)))
        (child_path assertion_path "step")
        ("references unknown step `" +:+ spec_step assertion +:+ "`")
   ++ require_non_empty (spec_description assertion) (child_path assertion_path "description")
   ++ validate_check (spec_check assertion) (child_path assertion_path "check"))%list.

Definition capability_issues (path : string) (index : nat) (requirement : CapabilityRequirement)
  : list ValidationIssue :=
  let capability_path := indexed_path (child_path path "capabilities") index in
  (id_issues (req_capability requirement) (child_path capability_path "capability")
   ++ require_non_empty (req_description requirement)
        (child_path capability_path "description"))%list.

Definition is_nil {A} (l : list A) : bool := match l with [] => true | _ => false end.

#[export] Instance Scenario_validate : Validate Scenario := fun self path =>
  (id_issues (scen_id self) (child_path path "id")
   ++ issue_if (scen_version self =? 0)%Z (child_path path "version") "must be greater than zero"
   ++ require_non_empty (scen_title self) (child_path path "title")
   ++ require_non_empty (scen_description self) (child_path path "description")
   ++ issue_if (is_nil (scen_steps self)) (child_path path "steps")
        "must contain at least one step"
   ++ issue_if (is_nil (scen_assertions self)) (child_path path "assertions")
        "must contain at least one assertion"
   ++ require_unique (step_id <$> scen_steps self) (child_path path "steps")
   ++ require_unique (spec_id <$> scen_assertions self) (child_path path "assertions")
   ++ require_unique (req_capability <$> scen_capabilities self) (child_path path "capabilities")
   ++ each (step_issues (step_positions (scen_steps self)) path) (scen_steps self)
   ++ each (assertion_issues (list_to_set (step_id <$> scen_steps self)) path)
        (scen_assertions self)
   ++ each (capability_issues path) (scen_capabilities self))%list.

(** ** Well-formed scenarios *)

Definition check_wf (check : AssertionCheck) : Prop :=
  match check with
  | HttpStatus allowed => allowed <> [] /\ forall s, s ∈ allowed -> (100 <= s <= 599)%Z
  | JsonPointerEquals pointer _ => pointer = "" \/ starts_with "/" pointer = true
  | ArtifactExists role => blank role = false
  | DataRead expectation => blank expectation = false
  | Custom name _ => blank name = false /\ contains "/" name = true
  | _ => True
  end.

(** Every dependency of the step at [i] names a step before [i]. *)
Definition dependencies_precede (steps : list ScenarioStep) : Prop :=
  forall i step d, steps !! i = Some step -> d ∈ step_depends_on step ->
  exists j target, steps !! j = Some target /\ step_id target = d /\ (j < i)%nat.

Record scenario_wf (s : Scenario) : Prop := {
  wf_id : blank (scen_id s) = false;
  wf_version : scen_version s <> 0%Z;
  wf_title : blank (scen_title s) = false;
  wf_description : blank (scen_description s) = false;
  wf_steps : scen_steps s <> [];
  wf_assertions : scen_assertions s <> [];
  wf_step_ids : NoDup (step_id <$> scen_steps s);
  wf_assertion_ids : NoDup (spec_id <$> scen_assertions s);
  wf_capability_ids : NoDup (req_capability <$> scen_capabilities s);
  wf_step : forall step, step ∈ scen_steps s ->
    blank (step_id step) = false /\ blank (step_operation step) = false /\
    blank (step_description step) = false /\ NoDup (step_depends_on step);
  wf_dependencies : dependencies_precede (scen_steps s);
  wf_assertion : forall a, a ∈ scen_assertions s ->
    blank (spec_id a) = false /\ spec_step a ∈ step_id <$> scen_steps s /\
    blank (spec_description a) = false /\ check_wf (spec_check a);
  wf_capability : forall r, r ∈ scen_capabilities s ->
    blank (req_capability r) = false /\ blank (req_description r) = false;
}.

(** [a] depends directly on [b]. *)
Definition depends (s : Scenario) (a b : StepId) : Prop :=
  exists step, step ∈ scen_steps s /\ step_id step = a /\ b ∈ step_depends_on step.

(** ** Lemmas *)

Lemma is_nil_false {A} (l : list A) : is_nil l = false <-> l <> [].
Proof. by destruct l. Qed.

Lemma validate_check_nil check path : validate_check check path = [] <-> check_wf check.
Proof.
  destruct check as [allowed|pointer ?|role|?| | |expectation|name ?]; simpl; try by issues.
  - destruct allowed as [|st allowed]; [naive_solver|].
    rewrite flat_map_nil. setoid_rewrite issue_if_nil. split.
    + intros H. split; [done|]. intros s' Hs. specialize (H s' Hs). brust in H. lia.
    + intros [_ H] s' Hs. specialize (H s' Hs). brust. lia.
  - issues. rewrite <-is_empty_spec.
    destruct (is_empty pointer), (starts_with "/" pointer); naive_solver.
Qed.

Lemma foldl_insert_None (l : list (string * nat)) m k :
  k ∉ l.*1 -> foldl (fun m kv => <[kv.1 := kv.2]> m) m l !! k = (m : gmap string nat) !! k.
Proof.
  revert m; induction l as [|[k' v] l IH]; intros m Hk; simpl; [done|].
  rewrite IH by set_solver. apply lookup_insert_ne. set_solver.
Qed.

Lemma foldl_insert_lookup (l : list (string * nat)) (m : gmap string nat) k v :
  NoDup l.*1 -> m !! k = None ->
  foldl (fun m kv => <[kv.1 := kv.2]> m) m l !! k = Some v <-> (k, v) ∈ l.
Proof.
  revert m; induction l as [|[k' v'] l IH]; intros m; simpl.
  - intros _ ->. set_solver.
  - rewrite NoDup_cons. intros [Hk' Hnd] Hm.
    destruct (decide (k = k')) as [->|Hne].
    + rewrite foldl_insert_None by done. rewrite lookup_insert_eq, elem_of_cons.
      split; [intros [= ->]; by left|]. intros [[= ->]|Hin]; [done|].
      exfalso. apply Hk'. apply list_elem_of_fmap. by exists (k', v).
    + rewrite IH by (done || by rewrite lookup_insert_ne). rewrite elem_of_cons.
      naive_solver.
Qed.

Lemma step_positions_lookup steps d j :
  NoDup (step_id <$> steps) ->
  step_positions steps !! d = Some j <->
  exists step, steps !! j = Some step /\ step_id step = d.
Proof.
  intros Hnd. unfold step_positions.
  rewrite foldl_insert_lookup; [|rewrite fmap_imap|apply lookup_empty].
  - rewrite list_elem_of_lookup. setoid_rewrite list_lookup_imap_Some. naive_solver.
  - replace (imap _ steps) with (step_id <$> steps); [done|].
    clear. generalize (fun (n : nat) => n) as f. intros _.
    apply list_eq; intros i. rewrite list_lookup_imap, list_lookup_fmap.
    by destruct (steps !! i).
Qed.

Lemma dependency_issues_nil steps i path d :
  NoDup (step_id <$> steps) ->
  dependency_issues (step_positions steps) i path d = [] <->
  exists j target, steps !! j = Some target /\ step_id target = d /\ (j < i)%nat.
Proof.
  intros Hnd. unfold dependency_issues.
  destruct (step_positions steps !! d) as [k|] eqn:Hd.
  - apply step_positions_lookup in Hd as (step & Hk & Hid); [|done]. issues. split.
    + intros Hlt. by exists k, step.
    + intros (j & target & Hj & Hid' & Hlt). replace k with j; [done|].
      apply (NoDup_key_lookup step_id steps j k target step); congruence.
  - split; [done|]. intros (j & target & Hj & Hid & _). exfalso.
    enough (step_positions steps !! d = Some j) by congruence.
    apply step_positions_lookup; [done|]. by exists target.
Qed.

Lemma steps_nil s path :
  NoDup (step_id <$> scen_steps s) ->
  each (step_issues (step_positions (scen_steps s)) path) (scen_steps s) = [] <->
  (forall step, step ∈ scen_steps s ->
    blank (step_id step) = false /\ blank (step_operation step) = false /\
    blank (step_description step) = false /\ NoDup (step_depends_on step)) /\
  dependencies_precede (scen_steps s).
Proof.
  intros Hnd. rewrite each_nil. unfold step_issues, id_issues, dependencies_precede.
  issues. split.
  - intros H. split.
    + apply forall_lookup_elem. intros i step Hi. specialize (H i step Hi). issues in H. done.
    + intros i step d Hi Hd. specialize (H i step Hi). issues in H.
      eapply dependency_issues_nil; [done|]. eauto.
  - intros [Hs Hd] i step Hi. issues.
    destruct (Hs step) as (? & ? & ? & ?); [by eapply list_elem_of_lookup_2|].
    repeat split; try done. intros d Hin. apply dependency_issues_nil; eauto.
Qed.

Lemma assertions_nil s path :
  each (assertion_issues (list_to_set (step_id <$> scen_steps s)) path) (scen_assertions s) = []
  <-> forall a, a ∈ scen_assertions s ->
    blank (spec_id a) = false /\ spec_step a ∈ step_id <$> scen_steps s /\
    blank (spec_description a) = false /\ check_wf (spec_check a).
Proof.
  rewrite each_nil, <-forall_lookup_elem. unfold assertion_issues, id_issues.
  setoid_rewrite app_nil. setoid_rewrite app_nil. setoid_rewrite app_nil.
  setoid_rewrite require_non_empty_nil. setoid_rewrite issue_if_nil.
  setoid_rewrite negb_false_iff. setoid_rewrite bool_decide_eq_true.
  setoid_rewrite elem_of_list_to_set. by setoid_rewrite validate_check_nil.
Qed.

Lemma capabilities_nil s path :
  each (capability_issues path) (scen_capabilities s) = [] <->
  forall r, r ∈ scen_capabilities s ->
    blank (req_capability r) = false /\ blank (req_description r) = false.
Proof.
  rewrite each_nil, <-forall_lookup_elem. unfold capability_issues, id_issues.
  setoid_rewrite app_nil. by setoid_rewrite require_non_empty_nil.
Qed.

Lemma validate_scenario_wf s : validate s = Ok tt <-> scenario_wf s.
Proof.
  rewrite validate_ok. unfold collect_issues, Scenario_validate, id_issues.
  rewrite !app_nil, !issue_if_nil, !require_non_empty_nil, !require_unique_nil,
    !is_nil_false, assertions_nil, capabilities_nil, Z.eqb_neq.
  split.
  - intros (? & ? & ? & ? & ? & ? & Hnd & ? & ? & Hs & ? & ?).
    apply steps_nil in Hs as [? ?]; [|done]. by constructor.
  - intros []. repeat (split; [assumption|]).
    split; [by apply steps_nil|]. by split.
Qed.

(** A dependency path strictly decreases the position of the step. *)
Lemma depends_path_decreases s a b :
  scenario_wf s -> tc (depends s) a b ->
  forall j target, scen_steps s !! j = Some target -> step_id target = a ->
  exists i dep, scen_steps s !! i = Some dep /\ step_id dep = b /\ (i < j)%nat.
Proof.
  intros Hwf Htc. induction Htc as [a b Hab|a b c Hab _ IH]; intros j target Hj Hid.
  - destruct Hab as (step & Hin & Hsid & Hdep).
    apply list_elem_of_lookup in Hin as [k Hk].
    assert (k = j) as ->.
    { apply (NoDup_key_lookup step_id (scen_steps s) k j step target); [apply Hwf|congruence..]. }
    exact (wf_dependencies s Hwf j step b Hk Hdep).
  - destruct Hab as (step & Hin & Hsid & Hdep).
    apply list_elem_of_lookup in Hin as [k Hk].
    assert (k = j) as ->.
    { apply (NoDup_key_lookup step_id (scen_steps s) k j step target); [apply Hwf|congruence..]. }
    destruct (wf_dependencies s Hwf j step b Hk Hdep) as (i & dep & Hi & Hb & Hlt).
    destruct (IH i dep Hi Hb) as (i' & dep' & ? & ? & ?).
    exists i', dep'. repeat split; [done|done|lia].
Qed.

(** ** Properties *)

(** C15: validation accepts a scenario document exactly when it is
    well formed: non-blank identity and texts, a positive version, at least one
    step and one assertion, unique identifiers, every dependency naming an
    earlier step, every assertion naming an existing step and carrying a
    well-formed check. *)
Theorem scenario_validation_sound_and_complete (s : Scenario) :
  validate s = Ok tt <-> scenario_wf s.
Proof. apply validate_scenario_wf. Qed.

(** The step dependencies of a scenario that passes
    validation contain no cycle, so its steps can be executed in order. *)
Theorem valid_scenario_acyclic (s : Scenario) (a : StepId) :
  validate s = Ok tt -> ~ tc (depends s) a a.
Proof.
  rewrite validate_scenario_wf. intros Hwf Htc.
  assert (exists j target, scen_steps s !! j = Some target /\ step_id target = a)
    as (j & target & Hj & Hid).
  { inversion Htc as [?? (step & Hin & Hs & _)|??? (step & Hin & Hs & _)]; subst;
      apply list_elem_of_lookup in Hin as [j Hj]; by exists j, step. }
  revert target Hj Hid. induction (lt_wf j) as [j _ IH]. intros target Hj Hid.
  destruct (depends_path_decreases s a a Hwf Htc j target Hj Hid) as (i & dep & Hi & Hb & Hlt).
  exact (IH i Hlt dep Hi Hb).
Qed.
