(* ===== verification/ContractAdapter.v ===== *)
(** * Catalog adapters (crates/common/src/contract/adapter.rs)

    Routing, authentication, shim disclosure and capability coverage of one
    catalog. Splitting a URL into its parts is the [url] crate's work: it is
    the parameter [url_parse] of the validators that use it. *)

From S2P Require Import Prelude Order RustStr Float64 Json ContractValue.
Open Scope string_scope.

(** ** The [url] crate: what the harness observes of a parsed URL *)

Record Url := {
  url_scheme : string;
  url_host_str : option string;
  url_username : string;
  url_password : option string;
  url_path : string;
  url_query : option string;
  url_fragment : option string;
}.

(** [Url::parse]; an error carries its [Display] text. *)
Class UrlParser := url_parse : string -> result Url string.

(** ** Data *)

Record CatalogCapability := {
  cap_id : CapabilityId;
  cap_description : string;
  cap_specification : option string;
}.

#[export] Instance CatalogCapability_validate : Validate CatalogCapability := fun self path =>
  (id_issues (cap_id self) (child_path path "id")
   ++ require_non_empty (cap_description self) (child_path path "description")
   ++ opt_issues (fun specification =>
        require_non_empty specification (child_path path "specification"))
        (cap_specification self))%list.

Inductive CatalogProtocol := IcebergRestV1.

Record CatalogConfigRequest := { cfg_path : string; cfg_query : gmap string string }.

Inductive CatalogRoutePrefix :=
| Unprefixed
| Static (value : string)
| Negotiated (config_json_pointer : string).

Record CatalogEndpoint := {
  ep_base_url : string;
  ep_config : CatalogConfigRequest;
  ep_route_prefix : CatalogRoutePrefix;
  ep_create_table_location : option string;
}.

Inductive CatalogAuthentication :=
| Anonymous
| OAuth2ClientCredentials (token_path scope client_id_env client_secret_env : string).

Inductive AdapterRequestHandling :=
| ProtocolNative
| BehaviorChangingShim (component : ComponentId) (description : string).

Definition shim_component (h : AdapterRequestHandling) : option ComponentId :=
  match h with ProtocolNative => None | BehaviorChangingShim component _ => Some component end.

Module CapabilityLimitationSource.
Inductive t := Catalog | Adapter.
End CapabilityLimitationSource.

Record UnsupportedAdapterCapability := {
  lim_capability : CapabilityId;
  lim_attributed_to : CapabilityLimitationSource.t;
  lim_explanation : string;
  lim_upstream_reference : option string;
}.

Inductive AdapterCapabilityCoverage :=
| ExerciseAll
| Explicit (exercise : list CapabilityId) (unsupported : list UnsupportedAdapterCapability).

(** [AdapterCapabilityCoverage::exercises]. *)
Definition exercises (self : AdapterCapabilityCoverage) (capability : CapabilityId) : bool :=
  match self with
  | ExerciseAll => true
  | Explicit exercise _ => bool_decide (capability ∈ exercise)
  end.

(** [AdapterCapabilityCoverage::limitation]. *)
Definition limitation (self : AdapterCapabilityCoverage) (capability : CapabilityId)
  : option UnsupportedAdapterCapability :=
  match self with
  | ExerciseAll => None
  | Explicit _ unsupported =>
      find (fun l => bool_decide (lim_capability l = capability)) unsupported
  end.

Record CatalogAdapter := {
  ad_catalog : ComponentId;
  ad_protocol : CatalogProtocol;
  ad_endpoint : CatalogEndpoint;
  ad_authentication : CatalogAuthentication;
  ad_request_handling : AdapterRequestHandling;
  ad_capabilities : AdapterCapabilityCoverage;
  ad_extensions : Extensions;
}.

(** ** Validation *)

Definition limitation_issues (exercised : gset CapabilityId) (path : string) (index : nat)
    (limitation : UnsupportedAdapterCapability) : list ValidationIssue :=
  let limitation_path := indexed_path (child_path path "unsupported") index in
  (id_issues (lim_capability limitation) (child_path limitation_path "capability")
   ++ require_non_empty (lim_explanation limitation) (child_path limitation_path "explanation")
   ++ opt_issues (fun reference =>
        require_non_empty reference (child_path limitation_path "upstream_reference"))
        (lim_upstream_reference limitation)
   ++ issue_if (bool_decide (lim_capability limitation ∈ exercised))
        (child_path limitation_path "capability")
        ("capability `" +:+ lim_capability limitation
         +:+ "` cannot be both exercised and unsupported"))%list.

Definition validate_capability_coverage (coverage : AdapterCapabilityCoverage) (path : string)
  : list ValidationIssue :=
  match coverage with
  | ExerciseAll => []
  | Explicit exercise unsupported =>
      (require_unique exercise (child_path path "exercise")
       ++ require_unique (lim_capability <$> unsupported) (child_path path "unsupported")
       ++ each (limitation_issues (list_to_set exercise) path) unsupported)%list
  end.

Definition is_path_delimiter (a : Ascii.ascii) : bool :=
  is_byte 47 a || is_byte 63 a || is_byte 35 a.

Definition validate_route_prefix (prefix : CatalogRoutePrefix) (path : string)
  : list ValidationIssue :=
  match prefix with
  | Unprefixed => []
  | Static value =>
      (require_non_empty value (child_path path "value")
       ++ issue_if (has_whitespace value || existsb is_path_delimiter (bytes value))
            (child_path path "value") "must be one unescaped path segment")%list
  | Negotiated config_json_pointer =>
      (require_non_empty config_json_pointer (child_path path "config_json_pointer")
       ++ issue_if (negb ((config_json_pointer =? "/defaults/prefix")
                          || (config_json_pointer =? "/overrides/prefix")))
            (child_path path "config_json_pointer")
            "must resolve the standard `prefix` property from config defaults or overrides")%list
  end.

Definition validate_relative_path (value path : string) : list ValidationIssue :=
  (require_non_empty value path
   ++ issue_if (negb (starts_with "/" value)
                || (contains_byte 63 value || contains_byte 35 value)
                || has_whitespace value)
        path "must be an absolute, query-free path relative to the adapter base URL")%list.

Definition validate_environment_variable (value path : string) : list ValidationIssue :=
  let valid_start :=
    match value with
    | EmptyString => false
    | String a _ => is_byte 95 a || is_ascii_alphabetic a
    end in
  let rest := match value with EmptyString => "" | String _ s => s end in
  (require_non_empty value path
   ++ issue_if (negb valid_start
                || negb (all_bytes (fun a => is_byte 95 a || is_ascii_alphanumeric a) rest))
        path "must be a portable environment-variable name")%list.

(** No user name, password, query or fragment. *)
Definition credential_free (url : Url) : bool :=
  is_empty (url_username url) && is_none (url_password url)
  && is_none (url_query url) && is_none (url_fragment url).

Section WithUrlParser.
Context `{UrlParser}.

Definition validate_http_base_url (value path : string) : list ValidationIssue :=
  match url_parse value with
  | Ok url =>
      issue_if (negb (((url_scheme url =? "http") || (url_scheme url =? "https"))
                      && negb (is_none (url_host_str url))
                      && credential_free url
                      && negb (ends_with "/" value)))
        path "must be an absolute HTTP(S) base URL without credentials, query, fragment, or trailing slash"
  | Err error =>
      [{| issue_path := path; issue_message := "must be a valid absolute URL: " +:+ error |}]
  end.

Definition validate_warehouse_uri (value path : string) : list ValidationIssue :=
  match url_parse value with
  | Ok url =>
      issue_if (negb (negb (is_none (url_host_str url)) && credential_free url))
        path "must be an absolute warehouse URI without credentials, query, or fragment"
  | Err error =>
      [{| issue_path := path;
          issue_message := "must be a valid absolute warehouse URI: " +:+ error |}]
  end.

Definition authentication_issues (authentication : CatalogAuthentication) (path : string)
  : list ValidationIssue :=
  match authentication with
  | Anonymous => []
  | OAuth2ClientCredentials token_path scope client_id_env client_secret_env =>
      (validate_relative_path token_path (child_path path "authentication.token_path")
       ++ require_non_empty scope (child_path path "authentication.scope")
       ++ validate_environment_variable client_id_env
            (child_path path "authentication.client_id_env")
       ++ validate_environment_variable client_secret_env
            (child_path path "authentication.client_secret_env")
       ++ issue_if (client_id_env =? client_secret_env)
            (child_path path "authentication.client_secret_env")
            "must differ from the client-id environment variable")%list
  end.

#[export] Instance CatalogAdapter_validate : Validate CatalogAdapter := fun self path =>
  let endpoint := ad_endpoint self in
  let config := ep_config endpoint in
  (id_issues (ad_catalog self) (child_path path "catalog")
   ++ validate_http_base_url (ep_base_url endpoint) (child_path path "endpoint.base_url")
   ++ validate_relative_path (cfg_path config) (child_path path "endpoint.config.path")
   ++ issue_if (negb (cfg_path config =? "/v1/config"))
        (child_path path "endpoint.config.path")
        "Iceberg REST v1 config must use `/v1/config` relative to the base URL"
   ++ flat_map (fun kv =>
        require_non_empty kv.1 (child_path path "endpoint.config.query")
        ++ require_non_empty kv.2 (child_path path "endpoint.config.query"))
        (btree_entries String.compare (cfg_query config))
   ++ reject_secret_like_keys (btree_entries String.compare (cfg_query config)).*1
        (child_path path "endpoint.config.query")
   ++ validate_route_prefix (ep_route_prefix endpoint)
        (child_path path "endpoint.route_prefix")
   ++ opt_issues (fun location =>
        validate_warehouse_uri location (child_path path "endpoint.create_table_location"))
        (ep_create_table_location endpoint)
   ++ authentication_issues (ad_authentication self) path
   ++ match ad_request_handling self with
      | ProtocolNative => []
      | BehaviorChangingShim component description =>
          id_issues component (child_path path "request_handling.component")
          ++ require_non_empty description (child_path path "request_handling.description")
      end
   ++ validate_capability_coverage (ad_capabilities self)
        (child_path path "capabilities"))%list.
End WithUrlParser.

(** ** Lemmas *)

Lemma limitation_is_Some coverage c :
  is_Some (limitation coverage c) <->
  match coverage with
  | ExerciseAll => False
  | Explicit _ unsupported => c ∈ lim_capability <$> unsupported
  end.
Proof.
  destruct coverage as [|exercise unsupported]; simpl.
  - split; [by intros [? [=]]|done].
  - rewrite list_elem_of_fmap. split.
    + intros [l [Hin Hl]%find_some]. brust in Hl. exists l. split; [done|].
      by apply list_elem_of_In.
    + intros (l & -> & Hin%list_elem_of_In).
      destruct (find _ unsupported) as [|] eqn:Hf; [done|].
      eapply find_none in Hf; [|done]. simpl in Hf. by brust in Hf.
Qed.

Lemma coverage_disjoint exercise unsupported path c :
  validate_capability_coverage (Explicit exercise unsupported) path = [] ->
  c ∈ exercise -> c ∉ lim_capability <$> unsupported.
Proof.
  simpl. rewrite !app_nil, each_nil. intros (_ & _ & H) Hc Hin.
  apply list_elem_of_fmap in Hin as (l & -> & [i Hi]%list_elem_of_lookup).
  specialize (H i l Hi). unfold limitation_issues in H. issues in H.
  match goal with Hn : lim_capability l ∉ _ |- _ => apply Hn end.
  by rewrite elem_of_list_to_set.
Qed.
