(* ===== verification/ContractProfile.v ===== *)
(** * Profile documents (crates/common/src/contract/profile.rs)

    A profile pins the components, services and catalog adapters of one
    execution environment. The theorems say what a profile that passes
    validation guarantees to the runners that read it. *)

From S2P Require Import Prelude Order RustStr Float64 Json ContractValue ContractAdapter.
Open Scope string_scope.

Inductive ProfileDocumentKind := ProfileKind.

Inductive ProfilePurpose :=
| HistoricalReproduction | CurrentCandidate | Conformance | Performance | FaultInjection.

#[export] Instance ProfilePurpose_eq_dec : EqDecision ProfilePurpose.
Proof. solve_decision. Defined.

Inductive ProfileReadiness :=
| Runnable
| Draft (unresolved_artifacts : list ComponentId) (explanation : string).

Inductive ExecutionMode := DockerCompose | Kubernetes | HostProcesses | Mixed.

#[export] Instance ExecutionMode_eq_dec : EqDecision ExecutionMode.
Proof. solve_decision. Defined.

Record ExecutionPlatform := {
  plat_operating_system : string;
  plat_architecture : string;
  plat_mode : ExecutionMode;
  plat_container_runtime : option ComponentId;
  plat_network : string;
  plat_shared_object_store : ComponentId;
  plat_warehouse_uri : string;
  plat_extensions : Extensions;
}.

Record ServiceBinding := {
  svc_component : ComponentId;
  svc_role : string;
  svc_endpoint : option string;
  svc_private_state : option ComponentId;
  svc_settings : gmap string Value;
  svc_extensions : Extensions;
}.

Record Profile := {
  prof_contract_version : ContractVersion;
  prof_kind : ProfileDocumentKind;
  prof_id : ProfileId;
  prof_title : string;
  prof_description : string;
  prof_resolved_at : string;
  prof_purpose : ProfilePurpose;
  prof_readiness : ProfileReadiness;
  prof_platform : ExecutionPlatform;
  prof_components : list Component;
  prof_services : list ServiceBinding;
  prof_catalog_capabilities : list CatalogCapability;
  prof_catalog_adapters : list CatalogAdapter;
  prof_extensions : Extensions;
}.

(** ** Validation *)

(** [iter.collect::<BTreeSet<_>>()] over identifiers. *)
Definition id_set (ids : list string) : gset string := list_to_set ids.

(** [for x in a.difference(&b)]: the elements of the difference, in order. *)
Definition set_minus (a b : gset string) : list string := btree_elements String.compare (a ∖ b).

Definition validate_component_reference (component : ComponentId) (available : gset ComponentId)
    (path : string) : list ValidationIssue :=
  (id_issues component path
   ++ issue_if (negb (bool_decide (component ∈ available))) path
        ("references unknown component `" +:+ component +:+ "`"))%list.

(** A component whose artifact has no immutable identity yet. *)
Definition unresolved_artifact (component : Component) : bool :=
  match comp_artifact component with
  | SourceBuild executable => is_none executable
  | Package _ _ _ digest => is_none digest
  | ContainerImage _ _ _ _ _ => false
  end.

Definition unresolved_ids (components : list Component) : gset ComponentId :=
  id_set (comp_id <$> List.filter unresolved_artifact components).

Definition validate_readiness (readiness : ProfileReadiness) (components : list Component)
    (component_ids : gset ComponentId) (path : string) : list ValidationIssue :=
  let unresolved := unresolved_ids components in
  match readiness with
  | Runnable =>
      issue_if (negb (bool_decide (unresolved = ∅))) path
        ("runnable profile has unresolved artifacts: "
         +:+ String.concat ", " (btree_elements String.compare unresolved))
  | Draft unresolved_artifacts explanation =>
      let declared := id_set unresolved_artifacts in
      (require_non_empty explanation (child_path path "explanation")
       ++ require_unique unresolved_artifacts (child_path path "unresolved_artifacts")
       ++ flat_map (fun component =>
            validate_component_reference component component_ids
              (child_path path "unresolved_artifacts")) unresolved_artifacts
       ++ flat_map (fun missing =>
            [{| issue_path := child_path path "unresolved_artifacts";
                issue_message := "must declare unresolved component `" +:+ missing +:+ "`" |}])
            (set_minus unresolved declared)
       ++ flat_map (fun resolved =>
            [{| issue_path := child_path path "unresolved_artifacts";
                issue_message :=
                  "component `" +:+ resolved +:+ "` already has an immutable artifact" |}])
            (set_minus declared unresolved)
       ++ issue_if (bool_decide (unresolved = ∅)) path
            "draft profile must have at least one unresolved artifact")%list
  end.

Definition service_issues (component_ids : gset ComponentId) (path : string) (index : nat)
    (service : ServiceBinding) : list ValidationIssue :=
  let service_path := indexed_path (child_path path "services") index in
  (validate_component_reference (svc_component service) component_ids
     (child_path service_path "component")
   ++ require_non_empty (svc_role service) (child_path service_path "role")
   ++ opt_issues (fun endpoint =>
        require_non_empty endpoint (child_path service_path "endpoint")) (svc_endpoint service)
   ++ opt_issues (fun state =>
        validate_component_reference state component_ids
          (child_path service_path "private_state")) (svc_private_state service)
   ++ reject_secret_like_keys (btree_entries String.compare (svc_settings service)).*1
        (child_path service_path "settings"))%list.

Definition validate_adapter_service (profile : Profile) (adapter : CatalogAdapter) (path : string)
  : list ValidationIssue :=
  match List.filter (fun s => bool_decide (svc_component s = ad_catalog adapter))
          (prof_services profile) with
  | [service] =>
      (issue_if (negb (svc_role service =? "iceberg-rest-catalog")) (child_path path "catalog")
         "catalog adapter service role must be `iceberg-rest-catalog`"
       ++ issue_if (negb (bool_decide
                      (svc_endpoint service = Some (ep_base_url (ad_endpoint adapter)))))
            (child_path path "endpoint.base_url")
            "must exactly match the catalog service endpoint")%list
  | matching =>
      [{| issue_path := child_path path "catalog";
          issue_message := "catalog adapter requires exactly one service binding, found "
                           +:+ display (len matching) |}]
  end.

Definition validate_adapter_shim (profile : Profile) (adapter : CatalogAdapter) (path : string)
  : list ValidationIssue :=
  match shim_component (ad_request_handling adapter) with
  | None => []
  | Some shim =>
      match find (fun c => bool_decide (comp_id c = shim)) (prof_components profile) with
      | Some component =>
          issue_if (negb (bool_decide (comp_kind component = Connector)))
            (child_path path "request_handling.component")
            ("behavior-changing shim `" +:+ shim +:+ "` must be a connector component")
      | None =>
          [{| issue_path := child_path path "request_handling.component";
              issue_message := "references unknown shim component `" +:+ shim +:+ "`" |}]
      end
  end.

Definition validate_adapter_capabilities (adapter : CatalogAdapter) (defined : gset CapabilityId)
    (path : string) : list ValidationIssue :=
  match ad_capabilities adapter with
  | ExerciseAll => []
  | Explicit exercise unsupported =>
      let declared := id_set (exercise ++ (lim_capability <$> unsupported))%list in
      let capabilities_path := child_path path "capabilities" in
      (flat_map (fun missing =>
         [{| issue_path := capabilities_path;
             issue_message := "does not classify capability `" +:+ missing +:+ "`" |}])
         (set_minus defined declared)
       ++ flat_map (fun unknown =>
            [{| issue_path := capabilities_path;
                issue_message := "classifies undefined capability `" +:+ unknown +:+ "`" |}])
            (set_minus declared defined))%list
  end.

Section WithUrlParser.
Context `{UrlParser}.

Definition adapter_issues (profile : Profile) (component_ids : gset ComponentId)
    (defined : gset CapabilityId) (adapters_path : string) (index : nat)
    (adapter : CatalogAdapter) : list ValidationIssue :=
  let adapter_path := indexed_path adapters_path index in
  (collect_issues adapter adapter_path
   ++ validate_component_reference (ad_catalog adapter) component_ids
        (child_path adapter_path "catalog")
   ++ validate_adapter_service profile adapter adapter_path
   ++ validate_adapter_shim profile adapter adapter_path
   ++ validate_adapter_capabilities adapter defined adapter_path)%list.

Definition catalog_component_ids (profile : Profile) : gset ComponentId :=
  id_set (comp_id <$> List.filter (fun c => bool_decide (comp_kind c = Catalog))
                        (prof_components profile)).

(** Whether the adapter section must be checked at all. *)
Definition adapters_checked (profile : Profile) : bool :=
  let catalog_components := catalog_component_ids profile in
  let contract_is_present :=
    match prof_catalog_capabilities profile, prof_catalog_adapters profile with
    | [], [] => false
    | _, _ => true
    end in
  negb ((bool_decide (catalog_components = ∅)
         || bool_decide (prof_purpose profile = HistoricalReproduction))
        && negb contract_is_present).

Definition validate_catalog_adapters (profile : Profile) (component_ids : gset ComponentId)
    (path : string) : list ValidationIssue :=
  if negb (adapters_checked profile) then [] else
  let capabilities_path := child_path path "catalog_capabilities" in
  let adapters_path := child_path path "catalog_adapters" in
  let catalog_components := catalog_component_ids profile in
  let adapter_catalogs := id_set (ad_catalog <$> prof_catalog_adapters profile) in
  let defined_capabilities := id_set (cap_id <$> prof_catalog_capabilities profile) in
  (issue_if (match prof_catalog_capabilities profile with [] => true | _ => false end)
     capabilities_path "must define at least one capability when catalog adapters are required"
   ++ require_unique (cap_id <$> prof_catalog_capabilities profile) capabilities_path
   ++ each (fun index capability =>
        collect_issues capability (indexed_path capabilities_path index))
        (prof_catalog_capabilities profile)
   ++ require_unique (ad_catalog <$> prof_catalog_adapters profile) adapters_path
   ++ flat_map (fun missing =>
        [{| issue_path := adapters_path;
            issue_message := "catalog component `" +:+ missing +:+ "` has no adapter" |}])
        (set_minus catalog_components adapter_catalogs)
   ++ flat_map (fun extra =>
        [{| issue_path := adapters_path;
            issue_message :=
              "adapter references non-catalog component `" +:+ extra +:+ "`" |}])
        (set_minus adapter_catalogs catalog_components)
   ++ each (adapter_issues profile component_ids defined_capabilities adapters_path)
        (prof_catalog_adapters profile))%list.

#[export] Instance Profile_validate : Validate Profile := fun self path =>
  let component_ids := id_set (comp_id <$> prof_components self) in
  let platform_path := child_path path "platform" in
  let platform := prof_platform self in
  (id_issues (prof_id self) (child_path path "id")
   ++ require_non_empty (prof_title self) (child_path path "title")
   ++ require_non_empty (prof_description self) (child_path path "description")
   ++ require_non_empty (prof_resolved_at self) (child_path path "resolved_at")
   ++ issue_if (match prof_components self with [] => true | _ => false end)
        (child_path path "components") "must contain at least one component"
   ++ require_unique (comp_id <$> prof_components self) (child_path path "components")
   ++ each (fun index component =>
        collect_issues component (indexed_path (child_path path "components") index))
        (prof_components self)
   ++ validate_readiness (prof_readiness self) (prof_components self) component_ids
        (child_path path "readiness")
   ++ require_non_empty (plat_operating_system platform)
        (child_path platform_path "operating_system")
   ++ require_non_empty (plat_architecture platform) (child_path platform_path "architecture")
   ++ require_non_empty (plat_network platform) (child_path platform_path "network")
   ++ require_non_empty (plat_warehouse_uri platform)
        (child_path platform_path "warehouse_uri")
   ++ validate_component_reference (plat_shared_object_store platform) component_ids
        (child_path platform_path "shared_object_store")
   ++ opt_issues (fun runtime =>
        validate_component_reference runtime component_ids
          (child_path platform_path "container_runtime")) (plat_container_runtime platform)
   ++ each (service_issues component_ids path) (prof_services self)
   ++ validate_catalog_adapters self component_ids path)%list.
End WithUrlParser.

(** ** Lemmas *)

Lemma set_minus_nil a b : set_minus a b = [] <-> a ⊆ b.
Proof. unfold set_minus. rewrite btree_elements_nil. split; [apply empty_difference_subseteq_L | apply subseteq_empty_difference_L]. Qed.

Lemma flat_map_singleton_nil {A B} (f : A -> B) l : flat_map (fun x => [f x]) l = [] <-> l = [].
Proof. by destruct l. Qed.

Lemma elem_of_id_set x l : x ∈ id_set l <-> x ∈ l.
Proof. apply elem_of_list_to_set. Qed.

Lemma elem_of_filter_bool {A} (p : A -> bool) l x : x ∈ List.filter p l <-> x ∈ l /\ p x = true.
Proof. by rewrite !list_elem_of_In, filter_In. Qed.

Section ValidProfile.
Context `{UrlParser}.

(** The parts of a valid profile the theorems below use. *)
Lemma profile_valid_parts p :
  validate p = Ok tt ->
  NoDup (comp_id <$> prof_components p) /\
  validate_readiness (prof_readiness p) (prof_components p)
    (id_set (comp_id <$> prof_components p)) "$.readiness" = [] /\
  (forall i c, prof_components p !! i = Some c ->
     collect_issues c (indexed_path "$.components" i) = []) /\
  (forall i s, prof_services p !! i = Some s ->
     service_issues (id_set (comp_id <$> prof_components p)) "$" i s = []) /\
  validate_catalog_adapters p (id_set (comp_id <$> prof_components p)) "$" = [].
Proof.
  rewrite validate_ok. unfold collect_issues at 1, Profile_validate.
  rewrite !app_nil, !each_nil, !require_unique_nil. intuition.
Qed.

Lemma adapters_valid_parts p ids path :
  validate_catalog_adapters p ids path = [] -> adapters_checked p = true ->
  NoDup (ad_catalog <$> prof_catalog_adapters p) /\
  catalog_component_ids p = id_set (ad_catalog <$> prof_catalog_adapters p) /\
  (forall i a, prof_catalog_adapters p !! i = Some a ->
     adapter_issues p ids (id_set (cap_id <$> prof_catalog_capabilities p))
       (child_path path "catalog_adapters") i a = []).
Proof.
  unfold validate_catalog_adapters. intros Hv Hc. rewrite Hc in Hv. simpl in Hv.
  rewrite !app_nil, !each_nil, !require_unique_nil, !flat_map_singleton_nil,
    !set_minus_nil in Hv.
  destruct Hv as (_ & _ & _ & Hnd & H1 & H2 & Ha). split; [done|]. split; [|done].
  apply set_eq. set_solver.
Qed.
End ValidProfile.

(** An adapter section that is present is always checked. *)
Lemma adapters_present_checked p a :
  a ∈ prof_catalog_adapters p -> adapters_checked p = true.
Proof.
  intros Ha. unfold adapters_checked.
  destruct (prof_catalog_capabilities p), (prof_catalog_adapters p); [set_solver|..];
    by rewrite andb_false_r.
Qed.

(** ** Properties *)

(** What a component's artifact must carry to be immutable. *)
Definition immutable_artifact (a : RuntimeArtifact) : Prop :=
  match a with
  | ContainerImage _ _ digest _ _ => str_len (digest_value digest) = 64%Z
  | SourceBuild executable =>
      exists e, executable = Some e /\ str_len (digest_value (artifact_digest e)) = 64%Z
  | Package _ _ _ digest => exists d, digest = Some d /\ str_len (digest_value d) = 64%Z
  end.

Section ProfileProperties.
Context `{UrlParser}.

Lemma component_resolved_immutable c path :
  collect_issues c path = [] -> unresolved_artifact c = false ->
  immutable_artifact (comp_artifact c).
Proof.
  unfold collect_issues at 1, Component_validate, unresolved_artifact. rewrite !app_nil.
  intros (_ & _ & _ & _ & _ & _ & Ha) Hu.
  destruct (comp_artifact c) as [r sc d pd em|[e|]|ec pk v [d|]]; simpl in *; try done;
    unfold collect_issues, RuntimeArtifact_validate in Ha; simpl in Ha.
  - rewrite !app_nil in Ha. destruct Ha as (_ & Hd & _). by apply digest_valid in Hd as [].
  - unfold collect_issues, ArtifactReference_validate in Ha. rewrite !app_nil in Ha.
    destruct Ha as (_ & _ & Hd). apply digest_valid in Hd as []. eauto.
  - rewrite !app_nil in Ha. destruct Ha as (_ & _ & _ & Hd).
    apply digest_valid in Hd as []. eauto.
Qed.

(** In a valid profile that declares itself runnable,
    every component's artifact carries a 64-digit SHA-256 identity; nothing a
    runner executes is unpinned. *)
Theorem runnable_profile_is_pinned (p : Profile) (c : Component) :
  validate p = Ok tt -> prof_readiness p = Runnable -> c ∈ prof_components p ->
  immutable_artifact (comp_artifact c).
Proof.
  intros Hv Hr Hc. apply profile_valid_parts in Hv as (_ & Hready & Hcomp & _).
  rewrite Hr in Hready. simpl in Hready. issues in Hready.
  pose proof Hc as [i Hi]%list_elem_of_lookup.
  eapply component_resolved_immutable; [by eapply Hcomp|].
  destruct (unresolved_artifact c) eqn:Hu; [exfalso|done].
  apply (not_elem_of_empty (C:=gset string) (comp_id c)). rewrite <-Hready.
  unfold unresolved_ids. rewrite elem_of_id_set. apply list_elem_of_fmap.
  exists c. split; [done|]. by apply elem_of_filter_bool.
Qed.

(** A valid draft profile lists exactly the components whose
    artifacts are still unresolved, without repetition, and there is one. *)
Theorem draft_profile_declares_unresolved (p : Profile) (declared : list ComponentId)
    (explanation : string) :
  validate p = Ok tt -> prof_readiness p = Draft declared explanation ->
  NoDup declared /\ declared <> [] /\
  forall id, id ∈ declared <->
    exists c, c ∈ prof_components p /\ comp_id c = id /\ unresolved_artifact c = true.
Proof.
  intros Hv Hr. apply profile_valid_parts in Hv as (_ & Hready & _). rewrite Hr in Hready.
  cbn [validate_readiness] in Hready.
  rewrite !app_nil, !flat_map_singleton_nil, !set_minus_nil, require_unique_nil,
    issue_if_nil, bool_decide_eq_false in Hready.
  destruct Hready as (_ & Hnd & _ & H1 & H2 & Hne).
  assert (Heq : forall id, id ∈ declared <-> id ∈ unresolved_ids (prof_components p)).
  { intros id. rewrite <-elem_of_id_set. set_solver. }
  split; [done|]. split.
  - intros ->. apply Hne. apply set_eq. intros x. rewrite <-Heq. set_solver.
  - intros id. rewrite Heq. unfold unresolved_ids.
    rewrite elem_of_id_set, list_elem_of_fmap. setoid_rewrite elem_of_filter_bool.
    naive_solver.
Qed.

(** A valid profile's adapters partition its capability
    vocabulary: for every adapter, each defined capability is either exercised
    or carries a declared limitation, and never both. *)
Theorem adapter_capabilities_partition (p : Profile) (a : CatalogAdapter) (c : CatalogCapability) :
  validate p = Ok tt -> a ∈ prof_catalog_adapters p -> c ∈ prof_catalog_capabilities p ->
  (exercises (ad_capabilities a) (cap_id c) = true <->
   limitation (ad_capabilities a) (cap_id c) = None).
Proof.
  intros Hv Ha Hc. pose proof (adapters_present_checked p a Ha) as Hck.
  apply profile_valid_parts in Hv as (_ & _ & _ & _ & Had).
  apply adapters_valid_parts in Had as (_ & _ & Hissues); [|done].
  apply list_elem_of_lookup in Ha as [i Hi]. specialize (Hissues i a Hi).
  unfold adapter_issues, collect_issues, CatalogAdapter_validate in Hissues.
  rewrite !app_nil in Hissues.
  destruct Hissues as [Hself (_ & _ & _ & Hcap)].
  assert (Hcov : validate_capability_coverage (ad_capabilities a)
    (child_path (indexed_path (child_path "$" "catalog_adapters") i) "capabilities") = [])
    by intuition.
  rewrite eq_None_not_Some, limitation_is_Some.
  unfold validate_adapter_capabilities in Hcap.
  destruct (ad_capabilities a) as [|exercise unsupported]; simpl; [naive_solver|].
  rewrite bool_decide_eq_true. rewrite !app_nil, !flat_map_singleton_nil, !set_minus_nil in Hcap.
  destruct Hcap as [Hcap _]. split.
  - intros Hin. by eapply coverage_disjoint.
  - intros Hnot. assert (cap_id c ∈ (exercise ++ (lim_capability <$> unsupported))%list) as Hd.
    { apply elem_of_id_set, Hcap, elem_of_id_set, list_elem_of_fmap. by exists c. }
    set_solver.
Qed.

Lemma filter_singleton {A} (q : A -> bool) l x :
  List.filter q l = [x] -> x ∈ l /\ q x = true /\ forall y, y ∈ l -> q y = true -> y = x.
Proof.
  intros Hf. assert (x ∈ List.filter q l) as [? ?]%elem_of_filter_bool by (rewrite Hf; set_solver).
  repeat split; [done..|]. intros y Hy Hq.
  assert (y ∈ List.filter q l) as Hy' by (by apply elem_of_filter_bool).
  rewrite Hf in Hy'. set_solver.
Qed.

(** In a valid profile with an adapter section, the
    adapters are in bijection with the catalog components, and each adapter's
    catalog has exactly one service binding, in the Iceberg REST role, whose
    endpoint is the adapter's base URL. *)
Theorem adapters_match_catalogs (p : Profile) :
  validate p = Ok tt -> adapters_checked p = true ->
  NoDup (ad_catalog <$> prof_catalog_adapters p) /\
  (forall id, id ∈ ad_catalog <$> prof_catalog_adapters p <->
     exists c, c ∈ prof_components p /\ comp_id c = id /\ comp_kind c = Catalog) /\
  (forall a, a ∈ prof_catalog_adapters p ->
     exists s, s ∈ prof_services p /\ svc_component s = ad_catalog a /\
       svc_role s = "iceberg-rest-catalog" /\
       svc_endpoint s = Some (ep_base_url (ad_endpoint a)) /\
       forall s', s' ∈ prof_services p -> svc_component s' = ad_catalog a -> s' = s).
Proof.
  intros Hv Hck. apply profile_valid_parts in Hv as (_ & _ & _ & _ & Had).
  apply adapters_valid_parts in Had as (Hnd & Heq & Hissues); [|done].
  split; [done|]. split.
  - intros id. rewrite <-elem_of_id_set, <-Heq. unfold catalog_component_ids.
    rewrite elem_of_id_set, list_elem_of_fmap. setoid_rewrite elem_of_filter_bool.
    setoid_rewrite bool_decide_eq_true. naive_solver.
  - intros a [i Hi]%list_elem_of_lookup. specialize (Hissues i a Hi).
    unfold adapter_issues in Hissues. rewrite !app_nil in Hissues.
    destruct Hissues as (_ & _ & Hs & _). unfold validate_adapter_service in Hs.
    destruct (List.filter _ (prof_services p)) as [|s [|s' l]] eqn:Hf; [done| |done].
    apply filter_singleton in Hf as (Hin & Hq & Huniq). issues in Hs. brust in Hq.
    exists s. repeat split; try done. intros s'' Hs'' He. apply Huniq; [done|]. by brust.
Qed.

(** No service setting of a valid profile has a key that
    looks like a credential, and every service refers to a component of the
    profile. *)
Theorem valid_profile_services (p : Profile) (s : ServiceBinding) (key : string) :
  validate p = Ok tt -> s ∈ prof_services p ->
  (exists c, c ∈ prof_components p /\ comp_id c = svc_component s) /\
  (is_Some (svc_settings s !! key) -> secret_like key = false).
Proof.
  intros Hv [i Hi]%list_elem_of_lookup.
  apply profile_valid_parts in Hv as (_ & _ & _ & Hserv & _).
  specialize (Hserv i s Hi). unfold service_issues, validate_component_reference in Hserv.
  rewrite !app_nil, issue_if_nil, negb_false_iff, bool_decide_eq_true, elem_of_id_set,
    reject_secret_like_keys_nil in Hserv.
  destruct Hserv as ([_ Hc] & _ & _ & _ & Hk). split.
  - apply list_elem_of_fmap in Hc as (c & -> & Hin). by exists c.
  - intros [v Hv]. apply Hk. apply list_elem_of_fmap. exists (key, v). split; [done|].
    by apply elem_of_btree_entries.
Qed.
End ProfileProperties.
