(* ===== verification/ContractResult.v ===== *)
(** * Result records (crates/common/src/contract/result.rs)

    One auditable scenario execution: its outcome, assertion evaluations,
    evidence and measurements. A record is published only if its validator
    collects no issue; the theorems state what that guarantees to a reader of
    the public matrix. *)

From S2P Require Import Prelude Order RustStr Float64 FloatText Json ContractValue.
From Stdlib Require Import Ascii.
Open Scope string_scope.

Inductive ResultDocumentKind := ResultKind.

Record ScenarioReference := {
  sref_id : ScenarioId; sref_version : Z; sref_digest : Digest }.
Record ProfileReference := { pref_id : ProfileId; pref_digest : Digest }.
Record ExecutedComponent := {
  exec_profile_component : ComponentId; exec_name : string; exec_version : string }.

Inductive RunIdentity :=
| Single (id started_at finished_at : string) (repetition : Z) (random_seed : option Z)
| Aggregate (id period : string) (included_repetitions excluded_repetitions : list Z)
    (aggregation : string).

Inductive Captured (T : Type) :=
| Exact (value : T)
| Approximate (value : T) (explanation : string)
| Unknown (explanation : string).
Arguments Exact {T}.
Arguments Approximate {T}.
Arguments Unknown {T}.

Record EnvironmentManifest := {
  env_operating_system : string;
  env_architecture : string;
  env_cpu_model : Captured string;
  env_logical_cpus : Captured Z;
  env_memory_bytes : Captured Z;
  env_cpu_limit : option f64;
  env_memory_limit_bytes : option Z;
  env_network : string;
  env_container_runtime : Captured string;
  env_runtime_flags : gmap string string;
  env_extensions : Extensions;
}.

Module FailureCategory.
Inductive t := Assertion | Transport | Catalog | Client | Harness | Environment.
End FailureCategory.

Record Failure := {
  fail_category : FailureCategory.t;
  fail_summary : string;
  fail_detail : string;
  fail_retryable : bool;
  fail_evidence : list EvidenceId;
}.
Record UnsupportedCapability := {
  unsup_capability : CapabilityId;
  unsup_explanation : string;
  unsup_upstream_reference : option string;
}.
Record NotTestedReason := {
  nt_explanation : string;
  nt_blocking_dependency : option string;
}.

Inductive ResultOutcome :=
| ResultPass (summary : option string)
| ResultFail (failure : Failure)
| Unsupported (limitation : UnsupportedCapability)
| NotTested (reason : NotTestedReason).

Inductive AssertionOutcome :=
| AssertionPass
| AssertionFail (explanation : string)
| NotEvaluated (reason : string).

Record AssertionEvaluation := {
  eval_assertion : AssertionId;
  eval_required : bool;
  eval_outcome : AssertionOutcome;
  eval_evidence : list EvidenceId;
}.

Module EvidenceKind.
Inductive t :=
| HttpTranscript | Log | ObjectAudit | QueryOutput | CatalogState | Lineage
| PolicyReceipt | GraphProof | Other.
End EvidenceKind.

Record Evidence := {
  ev_id : EvidenceId;
  ev_kind : EvidenceKind.t;
  ev_artifact : ArtifactReference;
  ev_sanitized : bool;
  ev_redactions : list string;
  ev_extensions : Extensions;
}.

Record Distribution := {
  dist_samples : Z;
  dist_minimum : f64;
  dist_maximum : f64;
  dist_mean : option f64;
  dist_standard_deviation : option f64;
  dist_quantiles : gmap string f64;
}.

Inductive MetricValue :=
| Scalar (value : f64)
| Counter (value : Z)
| Ratio (numerator denominator : Z)
| DistributionValue (distribution : Distribution).

Record Metric := { metric_name : string; metric_unit : string; metric_value : MetricValue }.

Record MeasuredPhase := {
  mp_name : string;
  mp_elapsed_ms : f64;
  mp_operations : option Z;
  mp_latency_ms : option Distribution;
  mp_metrics : list Metric;
}.

Record ResultRecord := {
  rec_contract_version : ContractVersion;
  rec_kind : ResultDocumentKind;
  rec_id : ResultId;
  rec_scenario : ScenarioReference;
  rec_profile : ProfileReference;
  rec_catalog : ExecutedComponent;
  rec_client : option ExecutedComponent;
  rec_adapters : list ComponentId;
  rec_run : RunIdentity;
  rec_outcome : ResultOutcome;
  rec_environment : EnvironmentManifest;
  rec_assertions : list AssertionEvaluation;
  rec_measurements : list MeasuredPhase;
  rec_evidence : list Evidence;
  rec_artifacts : list ArtifactReference;
  rec_extensions : Extensions;
}.

(** ** Validation *)

Definition validate_scenario_reference (reference : ScenarioReference) (path : string)
  : list ValidationIssue :=
  (id_issues (sref_id reference) (child_path path "id")
   ++ issue_if (sref_version reference =? 0)%Z (child_path path "version")
        "must be greater than zero"
   ++ collect_issues (sref_digest reference) (child_path path "digest"))%list.

Definition validate_profile_reference (reference : ProfileReference) (path : string)
  : list ValidationIssue :=
  (id_issues (pref_id reference) (child_path path "id")
   ++ collect_issues (pref_digest reference) (child_path path "digest"))%list.

Definition validate_executed_component (component : ExecutedComponent) (path : string)
  : list ValidationIssue :=
  (id_issues (exec_profile_component component) (child_path path "profile_component")
   ++ require_non_empty (exec_name component) (child_path path "name")
   ++ require_non_empty (exec_version component) (child_path path "version"))%list.

Definition validate_run (run : RunIdentity) (path : string) : list ValidationIssue :=
  match run with
  | Single id started_at finished_at repetition _ =>
      (require_non_empty id (child_path path "id")
       ++ require_non_empty started_at (child_path path "started_at")
       ++ require_non_empty finished_at (child_path path "finished_at")
       ++ issue_if (repetition =? 0)%Z (child_path path "repetition")
            "must be greater than zero")%list
  | Aggregate id period included excluded aggregation =>
      (require_non_empty id (child_path path "id")
       ++ require_non_empty period (child_path path "period")
       ++ require_non_empty aggregation (child_path path "aggregation")
       ++ issue_if (match included with [] => true | _ => false end)
            (child_path path "included_repetitions") "must contain at least one repetition"
       ++ require_unique (display <$> included) (child_path path "included_repetitions")
       ++ require_unique (display <$> excluded) (child_path path "excluded_repetitions")
       ++ flat_map (fun repetition =>
            issue_if (repetition =? 0)%Z path "repetition numbers must be greater than zero")
            (included ++ excluded)
       ++ flat_map (fun repetition =>
            issue_if (bool_decide (repetition ∈ excluded)) path
              ("repetition " +:+ display repetition +:+ " cannot be both included and excluded"))
            included)%list
  end.

Definition validate_captured_text (captured : Captured string) (path : string)
  : list ValidationIssue :=
  match captured with
  | Exact value => require_non_empty value (child_path path "value")
  | Approximate value explanation =>
      (require_non_empty value (child_path path "value")
       ++ require_non_empty explanation (child_path path "explanation"))%list
  | Unknown explanation => require_non_empty explanation (child_path path "explanation")
  end.

(** [validate_captured_positive_u32] and [.._u64] have the same body. *)
Definition validate_captured_positive (captured : Captured Z) (path : string)
  : list ValidationIssue :=
  match captured with
  | Exact value => issue_if (value =? 0)%Z (child_path path "value") "must be greater than zero"
  | Approximate value explanation =>
      if (value =? 0)%Z
      then [{| issue_path := child_path path "value";
               issue_message := "must be greater than zero" |}]
      else require_non_empty explanation (child_path path "explanation")
  | Unknown explanation => require_non_empty explanation (child_path path "explanation")
  end.

Definition validate_environment (environment : EnvironmentManifest) (path : string)
  : list ValidationIssue :=
  (require_non_empty (env_operating_system environment) (child_path path "operating_system")
   ++ require_non_empty (env_architecture environment) (child_path path "architecture")
   ++ validate_captured_text (env_cpu_model environment) (child_path path "cpu_model")
   ++ validate_captured_positive (env_logical_cpus environment) (child_path path "logical_cpus")
   ++ validate_captured_positive (env_memory_bytes environment) (child_path path "memory_bytes")
   ++ require_non_empty (env_network environment) (child_path path "network")
   ++ validate_captured_text (env_container_runtime environment)
        (child_path path "container_runtime")
   ++ opt_issues (fun cpu_limit =>
        require_finite_non_negative cpu_limit (child_path path "cpu_limit")
        ++ issue_if (f64_eq cpu_limit f64_zero) (child_path path "cpu_limit")
             "must be greater than zero when present") (env_cpu_limit environment))%list.

#[export] Instance EnvironmentManifest_validate : Validate EnvironmentManifest :=
  validate_environment.

Definition validate_evidence_references (references : list EvidenceId)
    (available : gset EvidenceId) (path : string) : list ValidationIssue :=
  (require_unique references path
   ++ flat_map (fun reference =>
        issue_if (negb (bool_decide (reference ∈ available))) path
          ("references unknown evidence `" +:+ reference +:+ "`")) references)%list.

Definition assertion_passed (o : AssertionOutcome) : bool :=
  match o with AssertionPass => true | _ => false end.

Definition validate_result_outcome (outcome : ResultOutcome)
    (assertions : list AssertionEvaluation) (evidence_ids : gset EvidenceId) (path : string)
  : list ValidationIssue :=
  match outcome with
  | ResultPass summary =>
      (opt_issues (fun summary => require_non_empty summary (child_path path "summary")) summary
       ++ issue_if (match assertions with [] => true | _ => false end) (child_path path "status")
            "pass requires at least one assertion evaluation"
       ++ flat_map (fun evaluation =>
            issue_if (negb (assertion_passed (eval_outcome evaluation)))
              (child_path path "status")
              ("pass requires required assertion `" +:+ eval_assertion evaluation
               +:+ "` to pass"))
            (List.filter eval_required assertions))%list
  | ResultFail failure =>
      (require_non_empty (fail_summary failure) (child_path path "failure.summary")
       ++ require_non_empty (fail_detail failure) (child_path path "failure.detail")
       ++ validate_evidence_references (fail_evidence failure) evidence_ids
            (child_path path "failure.evidence"))%list
  | Unsupported limitation =>
      (id_issues (unsup_capability limitation) (child_path path "limitation.capability")
       ++ require_non_empty (unsup_explanation limitation)
            (child_path path "limitation.explanation"))%list
  | NotTested reason =>
      require_non_empty (nt_explanation reason) (child_path path "reason.explanation")
  end.

(** ** Distributions *)

Definition f64_hundred : f64 := f64_of_Z 100.

Definition parse_percentile (name : string) : option f64 :=
  match name with
  | String "p"%char digits =>
      match parse_f64 digits with
      | Some value =>
          if is_finite value && (f64_le f64_zero value && f64_le value f64_hundred)
          then Some value else None
      | None => None
      end
  | _ => None
  end.

(** The body of the loop over quantiles, and the triples it pushes. *)
Definition quantile_issues (distribution : Distribution) (path : string)
    (entry : string * f64) : list ValidationIssue :=
  let '(name, value) := entry in
  match parse_percentile name with
  | None =>
      [{| issue_path := child_path path "quantiles";
          issue_message := "invalid quantile `" +:+ name +:+ "`; expected p0 through p100" |}]
  | Some _ =>
      (require_finite_non_negative value (path +:+ ".quantiles." +:+ name)
       ++ issue_if (f64_lt value (dist_minimum distribution)
                    || f64_gt value (dist_maximum distribution))
            (path +:+ ".quantiles." +:+ name) "must be between minimum and maximum")%list
  end.
Definition parsed_quantile (entry : string * f64) : option (f64 * f64 * string) :=
  let '(name, value) := entry in
  percentile ← parse_percentile name; Some (percentile, value, name).

(** [for pair in parsed_quantiles.windows(2)]. *)
Fixpoint window_issues (path : string) (l : list (f64 * f64 * string)) : list ValidationIssue :=
  match l with
  | (_, v0, n0) :: (((_, v1, n1) :: _) as rest) =>
      (issue_if (f64_gt v0 v1) (child_path path "quantiles") (n0 +:+ " must not exceed " +:+ n1)
       ++ window_issues path rest)%list
  | _ => []
  end.

Definition sorted_quantiles (distribution : Distribution) : list (f64 * f64 * string) :=
  sort_by (cmp_on (fun q => q.1.1) total_cmp)
    (omap parsed_quantile (btree_entries String.compare (dist_quantiles distribution))).

Definition validate_distribution (distribution : Distribution) (path : string)
  : list ValidationIssue :=
  let minimum := dist_minimum distribution in
  let maximum := dist_maximum distribution in
  (issue_if (dist_samples distribution =? 0)%Z (child_path path "samples")
     "must be greater than zero"
   ++ require_finite_non_negative minimum (child_path path "minimum")
   ++ require_finite_non_negative maximum (child_path path "maximum")
   ++ issue_if (f64_gt minimum maximum) path "minimum must not exceed maximum"
   ++ opt_issues (fun mean =>
        require_finite_non_negative mean (child_path path "mean")
        ++ issue_if (f64_lt mean minimum || f64_gt mean maximum) (child_path path "mean")
             "must be between minimum and maximum") (dist_mean distribution)
   ++ opt_issues (fun deviation =>
        require_finite_non_negative deviation (child_path path "standard_deviation"))
        (dist_standard_deviation distribution)
   ++ flat_map (quantile_issues distribution path)
        (btree_entries String.compare (dist_quantiles distribution))
   ++ window_issues path (sorted_quantiles distribution))%list.

Definition metric_issues (path : string) (index : nat) (metric : Metric)
  : list ValidationIssue :=
  let metric_path := indexed_path (child_path path "metrics") index in
  (require_non_empty (metric_name metric) (child_path metric_path "name")
   ++ require_non_empty (metric_unit metric) (child_path metric_path "unit")
   ++ match metric_value metric with
      | Scalar value => require_finite_non_negative value (child_path metric_path "value.value")
      | Counter _ => []
      | Ratio _ denominator =>
          issue_if (denominator =? 0)%Z (child_path metric_path "value.denominator")
            "must be greater than zero"
      | DistributionValue distribution =>
          validate_distribution distribution (child_path metric_path "value.distribution")
      end)%list.

Definition validate_phase (phase : MeasuredPhase) (path : string) : list ValidationIssue :=
  (require_non_empty (mp_name phase) (child_path path "name")
   ++ require_finite_non_negative (mp_elapsed_ms phase) (child_path path "elapsed_ms")
   ++ opt_issues (fun distribution =>
        validate_distribution distribution (child_path path "latency_ms")) (mp_latency_ms phase)
   ++ require_unique (metric_name <$> mp_metrics phase) (child_path path "metrics")
   ++ each (metric_issues path) (mp_metrics phase))%list.

Definition evidence_issues (path : string) (index : nat) (evidence : Evidence)
  : list ValidationIssue :=
  let evidence_path := indexed_path (child_path path "evidence") index in
  (id_issues (ev_id evidence) (child_path evidence_path "id")
   ++ collect_issues (ev_artifact evidence) (child_path evidence_path "artifact")
   ++ issue_if (negb (ev_sanitized evidence)) (child_path evidence_path "sanitized")
        "must be true for a publishable result")%list.

Definition evaluation_issues (evidence_ids : gset EvidenceId) (path : string) (index : nat)
    (evaluation : AssertionEvaluation) : list ValidationIssue :=
  let assertion_path := indexed_path (child_path path "assertions") index in
  (id_issues (eval_assertion evaluation) (child_path assertion_path "assertion")
   ++ validate_evidence_references (eval_evidence evaluation) evidence_ids
        (child_path assertion_path "evidence")
   ++ match eval_outcome evaluation with
      | AssertionPass => []
      | AssertionFail explanation =>
          require_non_empty explanation (child_path assertion_path "outcome.explanation")
      | NotEvaluated reason =>
          require_non_empty reason (child_path assertion_path "outcome.reason")
      end)%list.

#[export] Instance ResultRecord_validate : Validate ResultRecord := fun self path =>
  let evidence_ids : gset EvidenceId := list_to_set (ev_id <$> rec_evidence self) in
  (id_issues (rec_id self) (child_path path "id")
   ++ validate_scenario_reference (rec_scenario self) (child_path path "scenario")
   ++ validate_profile_reference (rec_profile self) (child_path path "profile")
   ++ validate_executed_component (rec_catalog self) (child_path path "catalog")
   ++ opt_issues (fun client =>
        validate_executed_component client (child_path path "client")) (rec_client self)
   ++ validate_run (rec_run self) (child_path path "run")
   ++ collect_issues (rec_environment self) (child_path path "environment")
   ++ require_unique (eval_assertion <$> rec_assertions self) (child_path path "assertions")
   ++ require_unique (ev_id <$> rec_evidence self) (child_path path "evidence")
   ++ each (evidence_issues path) (rec_evidence self)
   ++ each (evaluation_issues evidence_ids path) (rec_assertions self)
   ++ validate_result_outcome (rec_outcome self) (rec_assertions self) evidence_ids
        (child_path path "outcome")
   ++ each (fun index phase =>
        validate_phase phase (indexed_path (child_path path "measurements") index))
        (rec_measurements self)
   ++ validate_artifacts (rec_artifacts self) (child_path path "artifacts"))%list.

(** ** Lemmas *)

Lemma validate_evidence_references_nil references available path :
  validate_evidence_references references available path = [] <->
  NoDup references /\ forall e, e ∈ references -> e ∈ available.
Proof.
  unfold validate_evidence_references. rewrite app_nil, require_unique_nil, flat_map_nil.
  setoid_rewrite issue_if_nil. setoid_rewrite negb_false_iff. by setoid_rewrite bool_decide_eq_true.
Qed.

(** The parts of a valid record the theorems below use. *)
Lemma result_valid_parts r :
  validate r = Ok tt ->
  let ids : gset EvidenceId := list_to_set (ev_id <$> rec_evidence r) in
  NoDup (ev_id <$> rec_evidence r) /\
  validate_run (rec_run r) "$.run" = [] /\
  (forall i e, rec_evidence r !! i = Some e -> evidence_issues "$" i e = []) /\
  (forall i a, rec_assertions r !! i = Some a -> evaluation_issues ids "$" i a = []) /\
  validate_result_outcome (rec_outcome r) (rec_assertions r) ids "$.outcome" = [] /\
  (forall i ph, rec_measurements r !! i = Some ph ->
     validate_phase ph (indexed_path "$.measurements" i) = []).
Proof.
  rewrite validate_ok. unfold collect_issues at 1, ResultRecord_validate.
  rewrite !app_nil, !each_nil, !require_unique_nil. intuition.
Qed.

Lemma elem_of_filter_required l (e : AssertionEvaluation) :
  e ∈ List.filter eval_required l <-> e ∈ l /\ eval_required e = true.
Proof. by rewrite !list_elem_of_In, filter_In. Qed.

Lemma window_issues_sorted path l :
  Forall (fun q => finite_nonneg q.1.2 = true) l ->
  window_issues path l = [] ->
  StronglySorted (fun q q' => f64_le q.1.2 q'.1.2 = true) l.
Proof.
  intros Hf Hw.
  cut (Sorted (fun q q' => finite_nonneg q.1.2 = true /\ finite_nonneg q'.1.2 = true /\
                           f64_le q.1.2 q'.1.2 = true) l).
  { intros Hs. apply Sorted_StronglySorted in Hs.
    - induction Hs as [|q l Hl IH Hq]; [constructor|].
      inversion Hf; subst. constructor.
      + apply IH; [done|]. destruct q as [[] ?], l as [|[[] ?] ?]; simpl in *; [done|].
        by apply app_nil in Hw as [].
      + eapply Forall_impl; [exact Hq|]. by intros ? (_ & _ & ?).
    - intros a b c (? & ? & ?) (? & ? & ?). repeat split; [done..|].
      eapply (f64_le_trans a.1.2 b.1.2 c.1.2); done. }
  induction l as [|[[p0 v0] n0] l IH]; [constructor|]. inversion Hf; subst.
  destruct l as [|[[p1 v1] n1] l]; [repeat constructor|].
  simpl in Hw. apply app_nil in Hw as [Hgt Hw].
  constructor; [by apply IH|]. constructor. simpl in *.
  apply issue_if_nil in Hgt. match goal with H : Forall _ (_ :: _) |- _ => inversion H; subst end.
  repeat split; [done..|]. by apply f64_not_lt_le.
Qed.

Lemma parsed_quantile_Some entry q :
  parsed_quantile entry = Some q <->
  exists pc, parse_percentile entry.1 = Some pc /\ q = (pc, entry.2, entry.1).
Proof.
  destruct entry as [name value]; simpl. destruct (parse_percentile name) as [pc|]; simpl.
  - split; [intros [= <-]; by exists pc | by intros (pc' & [= <-] & ->)].
  - split; [done | by intros (? & [=] & _)].
Qed.

(** ** Properties *)

(** A published record that claims a pass evaluated at least
    one assertion, and every required assertion in it passed. *)
Theorem valid_pass_has_no_required_failure (r : ResultRecord) (summary : option string) :
  validate r = Ok tt -> rec_outcome r = ResultPass summary ->
  rec_assertions r <> [] /\
  forall e, e ∈ rec_assertions r -> eval_required e = true -> eval_outcome e = AssertionPass.
Proof.
  intros Hv Ho. apply result_valid_parts in Hv as (_ & _ & _ & _ & Hout & _).
  rewrite Ho in Hout. simpl in Hout. rewrite !app_nil, issue_if_nil, flat_map_nil in Hout.
  destruct Hout as (_ & Hne & Hreq). split; [by destruct (rec_assertions r)|].
  intros e He Hr. specialize (Hreq e). rewrite issue_if_nil, negb_false_iff in Hreq.
  destruct (eval_outcome e); [done|..]; exfalso; simpl in Hreq;
    discriminate Hreq; by apply elem_of_filter_required.
Qed.

(** In a published record every evidence identifier an
    assertion evaluation or a failure cites names exactly one evidence item of
    the record, and that item is sanitized and content-addressed. *)
Theorem cited_evidence_resolves (r : ResultRecord) (id : EvidenceId) :
  validate r = Ok tt ->
  (exists e, e ∈ rec_assertions r /\ id ∈ eval_evidence e) \/
  (exists f, rec_outcome r = ResultFail f /\ id ∈ fail_evidence f) ->
  exists! ev, ev ∈ rec_evidence r /\ ev_id ev = id /\ ev_sanitized ev = true /\
    str_len (digest_value (artifact_digest (ev_artifact ev))) = 64%Z.
Proof.
  intros Hv Hcite. apply result_valid_parts in Hv as (Hnd & _ & Hev & Heval & Hout & _).
  assert (Hin : id ∈ ev_id <$> rec_evidence r).
  { apply (elem_of_list_to_set (C:=gset EvidenceId)).
    destruct Hcite as [(e & [i Hi]%list_elem_of_lookup & Hid)|(f & Hf & Hid)].
    - specialize (Heval i e Hi). unfold evaluation_issues in Heval.
      rewrite !app_nil, validate_evidence_references_nil in Heval. naive_solver.
    - rewrite Hf in Hout. simpl in Hout.
      rewrite !app_nil, validate_evidence_references_nil in Hout. naive_solver. }
  apply list_elem_of_fmap in Hin as (ev & -> & [i Hi]%list_elem_of_lookup).
  pose proof (Hev i ev Hi) as Hissues. unfold evidence_issues in Hissues.
  rewrite !app_nil, issue_if_nil, negb_false_iff in Hissues.
  destruct Hissues as (_ & Hart & Hsan). exists ev. split.
  - repeat split; [by eapply list_elem_of_lookup_2 | done |].
    unfold collect_issues, ArtifactReference_validate in Hart. rewrite !app_nil in Hart.
    destruct Hart as (_ & _ & Hd). by apply digest_valid in Hd as [].
  - intros ev' ([j Hj]%list_elem_of_lookup & Hid & _).
    pose proof (NoDup_key_lookup ev_id _ i j ev ev' Hnd Hi Hj (eq_sym Hid)). congruence.
Qed.

(** The repetitions a published aggregate includes and
    excludes are positive, disjoint and without repetition, and at least one is
    included. *)
Theorem aggregate_repetitions_partition (r : ResultRecord) id period included excluded aggregation :
  validate r = Ok tt -> rec_run r = Aggregate id period included excluded aggregation ->
  included <> [] /\ NoDup (included ++ excluded)%list /\
  forall n, n ∈ (included ++ excluded)%list -> n <> 0%Z.
Proof.
  intros Hv Hr. apply result_valid_parts in Hv as (_ & Hrun & _). rewrite Hr in Hrun.
  simpl in Hrun. rewrite !app_nil, !issue_if_nil, !require_unique_nil, !flat_map_nil in Hrun.
  destruct Hrun as (_ & _ & _ & Hne & Hi & He & Hz & Hd).
  assert (Hinj : Inj (=) (=) display) by (intros ??; apply display_inj).
  split; [by destruct included|]. split.
  - apply NoDup_app. repeat split; [by eapply NoDup_fmap_1|..|by eapply NoDup_fmap_1].
    intros n Hn Hn'. specialize (Hd n Hn). rewrite issue_if_nil in Hd. by brust in Hd.
  - intros n Hn. specialize (Hz n Hn). rewrite issue_if_nil in Hz. by brust in Hz.
Qed.

(** In a distribution that passes validation every
    quantile lies between the minimum and the maximum, and quantile values
    never decrease as the percentile grows. *)
Theorem valid_distribution_quantiles_monotone (d : Distribution) (path : string)
    (n1 n2 : string) (v1 v2 p1 p2 : f64) :
  validate_distribution d path = [] ->
  dist_quantiles d !! n1 = Some v1 -> parse_percentile n1 = Some p1 ->
  dist_quantiles d !! n2 = Some v2 -> parse_percentile n2 = Some p2 ->
  f64_le (dist_minimum d) v1 = true /\ f64_le v1 (dist_maximum d) = true /\
  (total_cmp p1 p2 = Lt -> f64_le v1 v2 = true).
Proof.
  unfold validate_distribution.
  rewrite !app_nil, !require_finite_non_negative_nil, flat_map_nil.
  intros (_ & Hmin & Hmax & _ & _ & _ & Hq & Hw) Hv1 Hp1 Hv2 Hp2.
  assert (Hval : forall n v p, dist_quantiles d !! n = Some v -> parse_percentile n = Some p ->
    finite_nonneg v = true /\ f64_lt v (dist_minimum d) = false /\
    f64_gt v (dist_maximum d) = false).
  { intros n v p Hn Hp. specialize (Hq (n, v)). simpl in Hq. rewrite Hp in Hq.
    rewrite app_nil, require_finite_non_negative_nil, issue_if_nil, orb_false_iff in Hq.
    apply Hq. by apply elem_of_btree_entries. }
  destruct (Hval n1 v1 p1 Hv1 Hp1) as (Hf1 & Hlo & Hhi).
  split; [by apply f64_not_lt_le|]. split; [by apply f64_not_lt_le|]. intros Hlt.
  apply window_issues_sorted in Hw; cycle 1.
  { unfold sorted_quantiles. rewrite sort_by_perm. apply Forall_forall.
    intros q ([n v] & Hin & (pc & Hpc & ->)%parsed_quantile_Some)%list_elem_of_omap.
    apply elem_of_btree_entries in Hin. by apply (Hval n v pc). }
  assert (Hmem : forall n v p, dist_quantiles d !! n = Some v -> parse_percentile n = Some p ->
    (p, v, n) ∈ sorted_quantiles d).
  { intros n v p Hn Hp. unfold sorted_quantiles. apply elem_of_sort_by, list_elem_of_omap.
    exists (n, v). split; [by apply elem_of_btree_entries|].
    apply parsed_quantile_Some. by exists p. }
  pose proof (Hmem n1 v1 p1 Hv1 Hp1) as [i Hi]%list_elem_of_lookup.
  pose proof (Hmem n2 v2 p2 Hv2 Hp2) as [j Hj]%list_elem_of_lookup.
  assert ((i < j)%nat) as Hij.
  { destruct (decide (i < j)%nat) as [|Hge]; [done|exfalso].
    assert (Hle : cmp_le (cmp_on (fun q => q.1.1) total_cmp) (p2, v2, n2) (p1, v1, n1)).
    { eapply (strongly_sorted_lookup _ (sorted_quantiles d)); [apply sort_by_sorted; apply _|..];
        [|done..]; lia. }
    unfold cmp_le, cmp_on in Hle. simpl in Hle. by rewrite (cmp_opp total_cmp p1 p2), Hlt in Hle. }
  exact (strongly_sorted_lookup_lt _ _ Hw i j _ _ Hij Hi Hj).
Qed.
