(* ===== verification/ContractDocument.v ===== *)
(** * Bundle manifests and document parsing
      (crates/common/src/contract/{manifest,schema}.rs)

    [parse_contract] is the only door through which contract text enters the
    harness: it reads JSON, dispatches on the document's [kind], decodes and
    validates. The JSON reader and the derived decoders are the [serde] crates'
    work and are the parameters of [ContractDecoders]. *)

From S2P Require Import Prelude Order RustStr Float64 Json ContractValue ContractScenario ContractAdapter.
From S2P Require Import ContractProfile ContractResult.
Open Scope string_scope.

(** ** Manifests *)

Inductive ManifestDocumentKind := ManifestKind.

Inductive Provenance :=
| LiveRun (runner : ComponentId) (sanitized_invocation started_at completed_at : string)
| HistoricalImport (source_date imported_at explanation : string)
| Fixture (explanation : string).

Record RedactionStatement := {
  red_reviewed : bool; red_policy : string; red_removed_fields : list string }.

Record ResultBundleManifest := {
  man_contract_version : ContractVersion;
  man_kind : ManifestDocumentKind;
  man_id : BundleId;
  man_title : string;
  man_created_at : string;
  man_provenance : Provenance;
  man_profile : ArtifactReference;
  man_scenarios : list ArtifactReference;
  man_results : list ArtifactReference;
  man_source_evidence : list ArtifactReference;
  man_redaction : RedactionStatement;
  man_extensions : Extensions;
}.

Definition validate_provenance (provenance : Provenance) (path : string) : list ValidationIssue :=
  match provenance with
  | LiveRun runner sanitized_invocation started_at completed_at =>
      (id_issues runner (child_path path "runner")
       ++ require_non_empty sanitized_invocation (child_path path "sanitized_invocation")
       ++ require_non_empty started_at (child_path path "started_at")
       ++ require_non_empty completed_at (child_path path "completed_at"))%list
  | HistoricalImport source_date imported_at explanation =>
      (require_non_empty source_date (child_path path "source_date")
       ++ require_non_empty imported_at (child_path path "imported_at")
       ++ require_non_empty explanation (child_path path "explanation"))%list
  | Fixture explanation => require_non_empty explanation (child_path path "explanation")
  end.

#[export] Instance ResultBundleManifest_validate : Validate ResultBundleManifest :=
  fun self path =>
  (id_issues (man_id self) (child_path path "id")
   ++ require_non_empty (man_title self) (child_path path "title")
   ++ require_non_empty (man_created_at self) (child_path path "created_at")
   ++ validate_provenance (man_provenance self) (child_path path "provenance")
   ++ collect_issues (man_profile self) (child_path path "profile")
   ++ issue_if (is_nil (man_scenarios self)) (child_path path "scenarios")
        "must contain at least one scenario"
   ++ issue_if (is_nil (man_results self)) (child_path path "results")
        "must contain at least one result"
   ++ validate_artifacts (man_scenarios self) (child_path path "scenarios")
   ++ validate_artifacts (man_results self) (child_path path "results")
   ++ validate_artifacts (man_source_evidence self) (child_path path "source_evidence")
   ++ issue_if (negb (red_reviewed (man_redaction self)))
        (child_path path "redaction.reviewed") "must be true before publication"
   ++ require_non_empty (red_policy (man_redaction self))
        (child_path path "redaction.policy"))%list.

(** ** Documents *)

Inductive DocumentKind := ScenarioDoc | ResultDoc | ProfileDoc | ManifestDoc.

Definition document_kind_name (k : DocumentKind) : string :=
  match k with
  | ScenarioDoc => "scenario" | ResultDoc => "result"
  | ProfileDoc => "profile" | ManifestDoc => "manifest"
  end.

Inductive ContractDocument :=
| ScenarioDocument (scenario : Scenario)
| ResultDocument (record : ResultRecord)
| ProfileDocument (profile : Profile)
| ManifestDocument (manifest : ResultBundleManifest).

Definition document_kind (d : ContractDocument) : DocumentKind :=
  match d with
  | ScenarioDocument _ => ScenarioDoc | ResultDocument _ => ResultDoc
  | ProfileDocument _ => ProfileDoc | ManifestDocument _ => ManifestDoc
  end.

Inductive ParseContractError :=
| JsonError (message : string)
| MissingKind
| UnknownKind (kind : string)
| Semantic (errors : ValidationErrors).

Definition display_parse_error (self : ParseContractError) : string :=
  match self with
  | JsonError error => "invalid contract JSON: " +:+ error
  | MissingKind => "contract document is missing string `kind`"
  | UnknownKind kind => "unknown contract document kind `" +:+ kind +:+ "`"
  | Semantic errors => "contract validation failed: " +:+ display_issues errors
  end.

(** The [serde] entry points: reading bytes, and the derived decoders. *)
Class ContractDecoders := {
  from_slice : string -> result Value string;
  from_value_scenario : Value -> result Scenario string;
  from_value_result : Value -> result ResultRecord string;
  from_value_profile : Value -> result Profile string;
  from_value_manifest : Value -> result ResultBundleManifest string;
}.

(** [value.get(key)]. *)
Definition get_key (key : string) (v : Value) : option Value :=
  match v with
  | Object entries => snd <$> find (fun kv => kv.1 =? key) entries
  | _ => None
  end.

Section Parsing.
Context `{UrlParser, ContractDecoders}.

Definition parse_typed {T} `{Validate T} (decode : Value -> result T string) (value : Value)
  : result T ParseContractError :=
  let? document := map_err JsonError (decode value) in
  check? map_err Semantic (validate document) in
  Ok document.

Definition parse_contract (bytes : string) : result ContractDocument ParseContractError :=
  let? value := map_err JsonError (from_slice bytes) in
  let? kind := ok_or (get_key "kind" value ≫= as_str) MissingKind in
  if kind =? "scenario" then
    result_map ScenarioDocument (parse_typed from_value_scenario value)
  else if kind =? "result" then
    result_map ResultDocument (parse_typed from_value_result value)
  else if kind =? "profile" then
    result_map ProfileDocument (parse_typed from_value_profile value)
  else if kind =? "manifest" then
    result_map ManifestDocument (parse_typed from_value_manifest value)
  else Err (UnknownKind kind).

Definition document_valid (d : ContractDocument) : Prop :=
  match d with
  | ScenarioDocument s => validate s = Ok tt
  | ResultDocument r => validate r = Ok tt
  | ProfileDocument p => validate p = Ok tt
  | ManifestDocument m => validate m = Ok tt
  end.

Lemma parse_typed_Ok {T} `{Validate T} decode value (t : T) :
  parse_typed decode value = Ok t <-> decode value = Ok t /\ validate t = Ok tt.
Proof.
  unfold parse_typed. destruct (decode value) as [t'|]; simpl; [|naive_solver].
  destruct (validate t') as [[]|] eqn:Hv; simpl; split; try done.
  - intros [= ->]. done.
  - intros [[= ->] _]. done.
  - intros [[= ->] ?]. congruence.
Qed.

Lemma result_map_Ok {A B E} (f : A -> B) (r : result A E) b :
  result_map f r = Ok b <-> exists a, r = Ok a /\ b = f a.
Proof. destruct r; naive_solver. Qed.

(** A document that enters the harness has been validated,
    and the [kind] field of its text is the name of the document it became;
    text with a missing or unknown [kind] never becomes a document. *)
Theorem parsed_contract_is_valid (bytes : string) (d : ContractDocument) :
  parse_contract bytes = Ok d ->
  document_valid d /\
  exists value, from_slice bytes = Ok value /\
    get_key "kind" value = Some (Str (document_kind_name (document_kind d))).
Proof.
  unfold parse_contract. destruct (from_slice bytes) as [value|]; simpl; [|done].
  destruct (get_key "kind" value) as [[]|] eqn:Hk; simpl; try done.
  repeat (match goal with
    | |- context [if ?x =? ?y then _ else _] => destruct (String.eqb_spec x y) as [->|_]
    end; [rewrite result_map_Ok; intros (t & [_ Hv]%parse_typed_Ok & ->); eauto|]).
  done.
Qed.
End Parsing.

(** A manifest that passes validation lists at least one scenario
    and one result, was reviewed for redaction, and content-addresses its
    profile and every scenario, result and source artifact it lists. *)
Theorem valid_manifest_is_pinned (m : ResultBundleManifest) (a : ArtifactReference) :
  validate m = Ok tt ->
  man_scenarios m <> [] /\ man_results m <> [] /\ red_reviewed (man_redaction m) = true /\
  (a ∈ man_profile m :: man_scenarios m ++ man_results m ++ man_source_evidence m ->
   blank (artifact_location a) = false /\ str_len (digest_value (artifact_digest a)) = 64%Z).
Proof.
  rewrite validate_ok. unfold collect_issues at 1, ResultBundleManifest_validate.
  rewrite !app_nil, !issue_if_nil, !is_nil_false, negb_false_iff, !validate_artifacts_nil.
  intros (_ & _ & _ & _ & Hp & Hs & Hr & Hsc & Hre & Hsr & Hred & _).
  split; [done|]. split; [done|]. split; [done|]. intros Ha.
  assert (exists path, collect_issues a path = []) as [path Hart].
  { rewrite elem_of_cons, !elem_of_app in Ha.
    destruct Ha as [->|[[i Hi]%list_elem_of_lookup|[[i Hi]%list_elem_of_lookup
      |[i Hi]%list_elem_of_lookup]]]; eauto. }
  unfold collect_issues, ArtifactReference_validate in Hart.
  rewrite !app_nil, !require_non_empty_nil in Hart.
  destruct Hart as (? & _ & Hd). split; [done|]. by apply digest_valid in Hd as [].
Qed.
