(* ===== verification/Sanitization.v ===== *)
(** * Serialized-value audit (crates/common/src/sanitization.rs)

    Before evidence is written, every string value of its JSON form is searched
    for configured secrets and for forbidden runtime identities. *)

From S2P Require Import Prelude RustStr Float64 Json.
Open Scope string_scope.

Inductive SerializedValueAuditFailure := Serialization | SensitiveValue | ForbiddenValue.

#[export] Instance SerializedValueAuditFailure_eq_dec : EqDecision SerializedValueAuditFailure.
Proof. solve_decision. Defined.

(** [serde_json::to_value] of a document type: derived code. *)
Class Serialize (T : Type) := to_value : T -> option Value.

Definition contains_any (value : string) (needles : list string) : bool :=
  existsb (fun needle => contains needle value)
    (List.filter (fun needle => negb (is_empty needle)) needles).

Fixpoint inspect_value (sensitive_values forbidden_values : list string) (value : Value)
  : result unit SerializedValueAuditFailure :=
  match value with
  | Array values =>
      (fix go (l : list Value) :=
         match l with
         | [] => Ok tt
         | v :: l' => check? inspect_value sensitive_values forbidden_values v in go l'
         end) values
  | Object entries =>
      (fix go (l : list (string * Value)) :=
         match l with
         | [] => Ok tt
         | (_, v) :: l' => check? inspect_value sensitive_values forbidden_values v in go l'
         end) entries
  | Str s =>
      guard contains_any s sensitive_values or SensitiveValue in
      guard contains_any s forbidden_values or ForbiddenValue in
      Ok tt
  | Null | Bool _ | Num _ => Ok tt
  end.

Definition audit_serialized_values {T} `{Serialize T} (evidence : T)
    (sensitive_values forbidden_values : list string)
  : result unit SerializedValueAuditFailure :=
  let? value := ok_or (to_value evidence) Serialization in
  inspect_value sensitive_values forbidden_values value.

(** ** Lemmas *)

(** The verdict on one string leaf. *)
Definition inspect_leaf (sensitive forbidden : list string) (s : string)
  : result unit SerializedValueAuditFailure :=
  guard contains_any s sensitive or SensitiveValue in
  guard contains_any s forbidden or ForbiddenValue in
  Ok tt.

(** The first failing verdict of a list of leaves. *)
Fixpoint inspect_leaves (sensitive forbidden : list string) (leaves : list string)
  : result unit SerializedValueAuditFailure :=
  match leaves with
  | [] => Ok tt
  | s :: l => check? inspect_leaf sensitive forbidden s in inspect_leaves sensitive forbidden l
  end.

Lemma inspect_leaves_app sens forb l k :
  inspect_leaves sens forb (l ++ k)%list =
  (check? inspect_leaves sens forb l in inspect_leaves sens forb k).
Proof.
  induction l as [|s l IH]; simpl; [done|].
  destruct (inspect_leaf sens forb s); [apply IH|done].
Qed.

(** The recursive audit is the audit of the leaves in traversal order. *)
Lemma inspect_value_leaves sens forb v :
  inspect_value sens forb v = inspect_leaves sens forb (string_leaves v).
Proof.
  induction v as [| | |s|l IH|l IH] using Value_nested_ind; simpl; try done.
  - unfold inspect_leaf. by repeat case_match.
  - induction IH as [|v l Hv _ IH]; simpl; [done|].
    rewrite inspect_leaves_app, <-Hv, <-IH. done.
  - induction l as [|[k v] l IHl]; simpl; [done|].
    inversion IH as [|?? Hv Hl]; subst.
    rewrite inspect_leaves_app, <-Hv, <-IHl; done.
Qed.

Lemma contains_any_spec s needles :
  contains_any s needles = true <->
  exists needle, needle ∈ needles /\ needle <> "" /\ contains needle s = true.
Proof.
  unfold contains_any. rewrite existsb_exists. setoid_rewrite filter_In.
  setoid_rewrite list_elem_of_In. setoid_rewrite negb_true_iff.
  setoid_rewrite <-not_true_iff_false. setoid_rewrite is_empty_spec. naive_solver.
Qed.

Lemma inspect_leaf_Ok sens forb s :
  inspect_leaf sens forb s = Ok tt <->
  contains_any s sens = false /\ contains_any s forb = false.
Proof.
  unfold inspect_leaf. destruct (contains_any s sens), (contains_any s forb); naive_solver.
Qed.

Lemma inspect_leaves_Ok sens forb l :
  inspect_leaves sens forb l = Ok tt <->
  forall s, s ∈ l -> contains_any s sens = false /\ contains_any s forb = false.
Proof.
  induction l as [|s l IH]; simpl; [set_solver|].
  destruct (inspect_leaf sens forb s) as [[]|] eqn:Hs.
  - rewrite IH. apply inspect_leaf_Ok in Hs. set_solver.
  - split; [done|]. intros Hall. exfalso.
    assert (inspect_leaf sens forb s = Ok tt) by (apply inspect_leaf_Ok; set_solver).
    congruence.
Qed.

(** The audit accepts a tree exactly when it is clean. *)
Lemma inspect_value_clean (sensitive forbidden : list string) (v : Value) :
  inspect_value sensitive forbidden v = Ok tt <->
  forall s needle, s ∈ string_leaves v -> needle ∈ (sensitive ++ forbidden)%list ->
    needle <> "" -> ~ exists pre post, s = pre +:+ needle +:+ post.
Proof.
  rewrite inspect_value_leaves, inspect_leaves_Ok.
  setoid_rewrite <-contains_spec. setoid_rewrite <-not_true_iff_false.
  setoid_rewrite contains_any_spec. setoid_rewrite elem_of_app. split.
  - intros Hall s needle Hs [Hn|Hn] Hne Hc; destruct (Hall s Hs) as [H1 H2];
      [apply H1 | apply H2]; eauto.
  - intros Hall s Hs. split; intros (needle & Hn & Hne & Hc); by eapply (Hall s needle); eauto.
Qed.

(** ** Properties *)

(** The audit of an evidence tree succeeds exactly when no
    string value in it, at any depth, contains a non-empty secret or a
    non-empty forbidden identity. *)
Theorem audit_accepts_exactly_clean_values (sensitive forbidden : list string) (v : Value) :
  inspect_value sensitive forbidden v = Ok tt <->
  forall s needle, s ∈ string_leaves v -> needle ∈ (sensitive ++ forbidden)%list ->
    needle <> "" -> ~ exists pre post, s = pre +:+ needle +:+ post.
Proof. apply inspect_value_clean. Qed.

(** A failing audit names the right reason: the failure is
    [SensitiveValue] exactly when the first offending leaf contains a secret,
    and it is never [Serialization] once the value was serialized. *)
Theorem audit_failure_reason (sensitive forbidden : list string) (v : Value)
    (f : SerializedValueAuditFailure) :
  inspect_value sensitive forbidden v = Err f ->
  exists before s after,
    string_leaves v = (before ++ s :: after)%list /\
    (forall t, t ∈ before -> contains_any t sensitive = false /\ contains_any t forbidden = false) /\
    (f = SensitiveValue /\ contains_any s sensitive = true \/
     f = ForbiddenValue /\ contains_any s sensitive = false /\ contains_any s forbidden = true).
Proof.
  rewrite inspect_value_leaves. generalize (string_leaves v) as l. clear v.
  induction l as [|s l IH]; simpl; [done|].
  destruct (inspect_leaf sensitive forbidden s) as [[]|] eqn:Hs.
  - intros (before & s' & after & -> & Hb & Hf)%IH.
    exists (s :: before), s', after. split; [done|]. split; [|done].
    apply inspect_leaf_Ok in Hs. set_solver.
  - intros [= ->]. exists [], s, l. split; [done|]. split; [set_solver|].
    unfold inspect_leaf in Hs. repeat case_match; naive_solver.
Qed.
