(* ===== verification/Stats.v ===== *)
(** * Statistics of the contention benchmark (crates/commit/src/stats.rs)

    Nearest-rank quantiles, population moments, the median of repeated rounds
    and throughput, computed in binary64 exactly as the harness computes them. *)

From S2P Require Import Prelude Order Float64 FloatRound ContractResult.
Open Scope Z_scope.

(** ** Durations *)

Definition NANOS_PER_SEC : Z := 1000000000.

(** [std::time::Duration]: whole seconds and nanoseconds below one second. *)
Record Duration := { secs : Z; nanos : Z }.

Definition duration_valid (d : Duration) : Prop :=
  in_u64 (secs d) /\ 0 <= nanos d < NANOS_PER_SEC.

#[export] Instance Duration_eq_dec : EqDecision Duration.
Proof. solve_decision. Defined.

Definition is_zero (d : Duration) : bool := (secs d =? 0) && (nanos d =? 0).

Definition as_secs_f64 (d : Duration) : f64 :=
  f64_add (f64_of_Z (secs d)) (f64_div (f64_of_Z (nanos d)) (f64_of_Z NANOS_PER_SEC)).

(** ** Errors and results *)

Inductive StatisticsError :=
| EmptySamples
| NonFiniteSample (index : nat)
| NegativeSample (index : nat)
| ZeroElapsed.

Definition display_statistics_error (self : StatisticsError) : string :=
  match self with
  | EmptySamples => "statistics require at least one sample"
  | NonFiniteSample index => "sample " +:+ pretty (Z.of_nat index) +:+ " is not finite"
  | NegativeSample index => "sample " +:+ pretty (Z.of_nat index) +:+ " is negative"
  | ZeroElapsed => "throughput requires nonzero elapsed time"
  end%string.

Record MedianRange := {
  mr_samples : Z;
  mr_minimum : f64;
  mr_median : f64;
  mr_maximum : f64;
}.

Definition QUANTILES : list (string * f64) :=
  [("p50", f64_lit 50 100); ("p95", f64_lit 95 100); ("p99", f64_lit 99 100)]%string.

(** ** Operations *)

(** The loop of [sorted_nonnegative]: pushes every admitted sample, stops at
    the first that is not. *)
Fixpoint admit_samples (index : nat) (samples : list f64) : result (list f64) StatisticsError :=
  match samples with
  | [] => Ok []
  | sample :: rest =>
      guard negb (is_finite sample) or NonFiniteSample index in
      guard f64_lt sample f64_zero or NegativeSample index in
      let? pushed := admit_samples (S index) rest in
      Ok (sample :: pushed)
  end.

Definition sorted_nonnegative (samples : list f64) : result (list f64) StatisticsError :=
  match samples with
  | [] => Err EmptySamples
  | _ => let? pushed := admit_samples 0 samples in Ok (sort_by total_cmp pushed)
  end.

(** [slice[i]]. Rust panics when [i] is out of range; [nearest_rank_in_range]
    and [middle_in_range] below show that no index used here is. *)
Definition at_index (l : list f64) (i : Z) : f64 := default S754_nan (l !! Z.to_nat i).

Definition rank_index (probability : f64) (n : Z) : Z :=
  let rank := f64_to_usize (f64_ceil (f64_mul probability (f64_of_Z n))) in
  Z.min (saturating_sub rank 1) (n - 1).

Definition nearest_rank (sorted : list f64) (probability : f64) : f64 :=
  at_index sorted (rank_index probability (len sorted)).

Record Moments := { mo_count : Z; mo_mean : f64; mo_squared_deviation : f64 }.

Definition moments_step (m : Moments) (sample : f64) : Moments :=
  let count := mo_count m + 1 in
  let delta := f64_sub sample (mo_mean m) in
  let mean := f64_add (mo_mean m) (f64_div delta (f64_of_Z count)) in
  {| mo_count := count;
     mo_mean := mean;
     mo_squared_deviation :=
       f64_add (mo_squared_deviation m) (f64_mul delta (f64_sub sample mean)) |}.

Definition population_moments (samples : list f64) : f64 * f64 :=
  let m := foldl moments_step
             {| mo_count := 0; mo_mean := f64_zero; mo_squared_deviation := f64_zero |} samples in
  let variance := f64_max (f64_div (mo_squared_deviation m) (f64_of_Z (mo_count m))) f64_zero in
  (mo_mean m, f64_sqrt variance).

Definition nonnegative_distribution (samples : list f64) : result Distribution StatisticsError :=
  let? sorted := sorted_nonnegative samples in
  let '(mean, standard_deviation) := population_moments sorted in
  let quantiles : gmap string f64 :=
    list_to_map ((fun q => (q.1, nearest_rank sorted q.2)) <$> QUANTILES) in
  Ok {| dist_samples := len sorted;
        dist_minimum := at_index sorted 0;
        dist_maximum := at_index sorted (len sorted - 1);
        dist_mean := Some mean;
        dist_standard_deviation := Some standard_deviation;
        dist_quantiles := quantiles |}.

Definition milliseconds (d : Duration) : f64 := f64_mul (as_secs_f64 d) (f64_of_Z 1000).

Definition latency_distribution (samples : list Duration) : result Distribution StatisticsError :=
  nonnegative_distribution (milliseconds <$> samples).

Definition median_with_range (samples : list f64) : result MedianRange StatisticsError :=
  let? sorted := sorted_nonnegative samples in
  let middle := len sorted / 2 in
  let median :=
    if len sorted mod 2 =? 0
    then f64_div (f64_add (at_index sorted (middle - 1)) (at_index sorted middle)) (f64_of_Z 2)
    else at_index sorted middle in
  Ok {| mr_samples := len sorted;
        mr_minimum := at_index sorted 0;
        mr_median := median;
        mr_maximum := at_index sorted (len sorted - 1) |}.

Definition per_second (count : Z) (elapsed : Duration) : result f64 StatisticsError :=
  guard is_zero elapsed or ZeroElapsed in
  Ok (f64_div (f64_of_Z count) (as_secs_f64 elapsed)).

(** ** Lemmas *)

Lemma admit_samples_Ok index samples pushed :
  admit_samples index samples = Ok pushed <->
  pushed = samples /\ Forall (fun x => finite_nonneg x = true) samples.
Proof.
  revert index pushed. induction samples as [|x l IH]; intros index pushed; simpl.
  - split; [intros [= <-]; done | by intros [-> _]].
  - rewrite Forall_cons. unfold finite_nonneg at 1.
    destruct (is_finite x), (f64_lt x f64_zero); simpl; try naive_solver.
    specialize (IH (S index)). destruct (admit_samples (S index) l) as [l'|e].
    + destruct (proj1 (IH l') eq_refl) as [-> ?]. naive_solver.
    + split; [done|]. intros (_ & _ & Hl). discriminate (proj2 (IH l) (conj eq_refl Hl)).
Qed.

(** Sample [x] at position [i] is refused with error [e]. *)
Definition refused (i : nat) (x : f64) (e : StatisticsError) : Prop :=
  is_finite x = false /\ e = NonFiniteSample i
  \/ is_finite x = true /\ f64_lt x f64_zero = true /\ e = NegativeSample i.

(** The loop stopped with error [e]: every sample before the offending one was
    admitted. *)
Definition rejected_at (index : nat) (samples : list f64) (e : StatisticsError) : Prop :=
  exists i x, samples !! i = Some x /\ Forall (fun y => finite_nonneg y = true) (take i samples) /\
    refused (index + i) x e.

Lemma rejected_at_cons index x l e :
  rejected_at index (x :: l) e <->
  refused index x e \/ finite_nonneg x = true /\ rejected_at (S index) l e.
Proof.
  unfold rejected_at. split.
  - intros ([|i] & y & Hi & HF & Hr); simpl in *.
    + rewrite Nat.add_0_r in Hr. left. congruence.
    + rewrite Forall_cons in HF. rewrite Nat.add_succ_r in Hr. naive_solver.
  - intros [Hr|(Hx & i & y & Hi & HF & Hr)].
    + exists 0%nat, x. rewrite Nat.add_0_r. done.
    + exists (S i), y. simpl. rewrite Forall_cons, Nat.add_succ_r. done.
Qed.

Lemma admit_samples_Err index samples e :
  admit_samples index samples = Err e <-> rejected_at index samples e.
Proof.
  revert index. induction samples as [|x l IH]; intros index; simpl.
  { split; [done|]. by intros (i & y & Hi & _). }
  rewrite rejected_at_cons, <-IH. unfold refused, finite_nonneg.
  destruct (is_finite x), (f64_lt x f64_zero), (admit_samples (S index) l); simpl; naive_solver.
Qed.

Lemma sorted_nonnegative_Ok samples sorted :
  sorted_nonnegative samples = Ok sorted <->
  samples <> [] /\ Forall (fun x => finite_nonneg x = true) samples /\
  sorted = sort_by total_cmp samples.
Proof.
  unfold sorted_nonnegative. destruct samples as [|x l]; [naive_solver|].
  destruct (admit_samples 0 (x :: l)) as [pushed|e] eqn:E.
  - apply admit_samples_Ok in E as [-> HF]. naive_solver.
  - split; [done|]. intros (_ & HF & _).
    assert (admit_samples 0 (x :: l) = Ok (x :: l)) by (by apply admit_samples_Ok). congruence.
Qed.

Lemma len_samples_pos (samples : list f64) : samples <> [] -> 0 < len samples.
Proof. unfold len. destruct samples; [done|simpl; lia]. Qed.

(** What the summaries read off an admitted sample list. *)
Section Sorted.
Context (samples : list f64).
Context (Hadm : Forall (fun x => finite_nonneg x = true) samples).

Let sorted := sort_by total_cmp samples.

Lemma sorted_nonneg x : x ∈ sorted -> finite_nonneg x = true.
Proof. unfold sorted. rewrite elem_of_sort_by. revert x. by apply Forall_forall. Qed.

Lemma len_sorted : len sorted = len samples.
Proof. unfold len, sorted. by rewrite length_sort_by. Qed.

Lemma at_index_lookup i : 0 <= i < len samples -> sorted !! Z.to_nat i = Some (at_index sorted i).
Proof.
  intros Hi. unfold at_index. destruct (sorted !! Z.to_nat i) eqn:E; [done|].
  apply lookup_ge_None in E. pose proof len_sorted. unfold len in *. lia.
Qed.

Lemma at_index_elem i : 0 <= i < len samples -> at_index sorted i ∈ samples.
Proof.
  intros Hi%at_index_lookup. apply list_elem_of_lookup_2 in Hi. by apply elem_of_sort_by in Hi.
Qed.

Lemma sorted_le i j x y :
  (i <= j)%nat -> sorted !! i = Some x -> sorted !! j = Some y -> f64_le x y = true.
Proof.
  intros Hij Hx Hy. apply total_cmp_le.
  - by eapply sorted_nonneg, list_elem_of_lookup_2.
  - by eapply sorted_nonneg, list_elem_of_lookup_2.
  - eapply strongly_sorted_lookup; [..|done|done|done]; [apply _|]. by apply sort_by_sorted, _.
Qed.

Lemma at_index_le i j :
  0 <= i <= j -> j < len samples -> f64_le (at_index sorted i) (at_index sorted j) = true.
Proof.
  intros Hi Hj. apply (sorted_le (Z.to_nat i) (Z.to_nat j)); [lia|..]; apply at_index_lookup; lia.
Qed.

Lemma minimum_below x : samples <> [] -> x ∈ samples -> f64_le (at_index sorted 0) x = true.
Proof.
  intros Hne%len_samples_pos [i Hi]%(elem_of_sort_by total_cmp)%list_elem_of_lookup.
  eapply (sorted_le 0 i); [lia| |done]. change 0%nat with (Z.to_nat 0).
  apply at_index_lookup. lia.
Qed.

Lemma maximum_above x : samples <> [] -> x ∈ samples -> f64_le x (at_index sorted (len samples - 1)) = true.
Proof.
  intros Hne%len_samples_pos [i Hi]%(elem_of_sort_by total_cmp)%list_elem_of_lookup.
  pose proof (lookup_lt_Some _ _ _ Hi) as Hlt. rewrite length_sort_by in Hlt.
  unfold len in Hne.
  eapply (sorted_le i); [|done|apply at_index_lookup; unfold len; lia]. unfold len; lia.
Qed.

(** The samples at or below the one of rank [i + 1], and those below it. *)
Lemma rank_counts i : 0 <= i < len samples ->
  let v := at_index sorted i in
  i + 1 <= len (filter (fun x => f64_le x v = true) samples) /\
  len (filter (fun x => f64_lt x v = true) samples) <= i.
Proof.
  intros Hi v. pose proof (at_index_lookup i Hi) as Hv. fold v in Hv.
  pose proof len_sorted as Hlen. unfold len in *.
  assert (Hperm : samples ≡ₚ sorted) by (symmetry; apply sort_by_perm).
  clearbody v. split.
  - rewrite Hperm, <-(take_drop (S (Z.to_nat i)) sorted), filter_app, length_app.
    rewrite (length_filter_all _ (take _ _)); [rewrite length_take; lia|].
    intros x [j Hj]%list_elem_of_lookup. apply lookup_take_Some in Hj as [Hj ?].
    eapply sorted_le; [|done..]. lia.
  - rewrite Hperm, <-(take_drop (Z.to_nat i) sorted), filter_app, length_app.
    rewrite (length_filter_none _ (drop _ _)).
    + pose proof (length_filter (fun x => f64_lt x v = true) (take (Z.to_nat i) sorted)).
      rewrite length_take in *. simpl. lia.
    + intros x [j Hj]%list_elem_of_lookup. rewrite lookup_drop in Hj.
      rewrite (f64_lt_le_false v x); [done|]. eapply sorted_le; [|done..]. lia.
Qed.
End Sorted.

(** The decimal percentiles behind the literals of [QUANTILES]. *)
Definition percentiles : list (string * Z) := [("p50", 50); ("p95", 95); ("p99", 99)]%string.

Lemma rank_index_range p n : 0 < n -> 0 <= rank_index p n < n.
Proof. intros Hn. unfold rank_index, saturating_sub. lia. Qed.

Lemma rank_index_exact name a n :
  (name, a) ∈ percentiles -> 1 <= n <= 2 ^ 44 ->
  rank_index (f64_lit a 100) n = ceil_percent a n - 1 /\ 0 < a <= 100.
Proof.
  intros Ha Hn. unfold rank_index.
  assert (exists M, f64_lit a 100 = S754_finite false M (-53) /\ 1 <= a <= 100 /\
    2 ^ 52 <= Zpos M < 2 ^ 53 /\ 100 * Zpos M <= a * 2 ^ 53 < 100 * Zpos M + 100)
    as (M & HM & Ha' & Hb & Hb').
  { unfold percentiles in Ha. rewrite !elem_of_cons, elem_of_nil in Ha.
    destruct Ha as [[= _ ->]|[[= _ ->]|[[= _ ->]|[]]]];
      (eexists; split; [vm_compute; reflexivity|lia]). }
  rewrite HM, (scaled_ceiling a M n) by done.
  pose proof (ceil_percent_range a n). unfold saturating_sub. lia.
Qed.

(** The quantile map of a distribution over admitted samples. *)
Lemma distribution_quantile samples d name a :
  nonnegative_distribution samples = Ok d -> (name, a) ∈ percentiles ->
  samples <> [] /\ Forall (fun x => finite_nonneg x = true) samples /\
  dist_samples d = len samples /\
  dist_minimum d = at_index (sort_by total_cmp samples) 0 /\
  dist_maximum d = at_index (sort_by total_cmp samples) (len samples - 1) /\
  dist_quantiles d !! name =
    Some (at_index (sort_by total_cmp samples) (rank_index (f64_lit a 100) (len samples))).
Proof.
  unfold nonnegative_distribution. intros Hd Ha.
  destruct (sorted_nonnegative samples) as [sorted|] eqn:Hs; [|done].
  apply sorted_nonnegative_Ok in Hs as (Hne & HF & ->).
  destruct (population_moments _) as [mean deviation].
  injection Hd as <-. cbn [dist_samples dist_minimum dist_maximum dist_quantiles].
  rewrite len_sorted. repeat split; [done..|].
  unfold percentiles in Ha. rewrite !elem_of_cons, elem_of_nil in Ha.
  unfold nearest_rank. rewrite len_sorted.
  destruct Ha as [[= -> ->]|[[= -> ->]|[[= -> ->]|[]]]]; reflexivity.
Qed.

Lemma distribution_quantile_map samples d :
  nonnegative_distribution samples = Ok d ->
  let q a := at_index (sort_by total_cmp samples) (rank_index (f64_lit a 100) (len samples)) in
  dist_quantiles d = <["p50":=q 50]> (<["p95":=q 95]> {["p99":=q 99]})%string.
Proof.
  unfold nonnegative_distribution. intros Hd.
  destruct (sorted_nonnegative samples) as [sorted|] eqn:Hs; [|done].
  apply sorted_nonnegative_Ok in Hs as (Hne & HF & ->).
  destruct (population_moments _) as [mean deviation]. injection Hd as <-.
  cbn [dist_quantiles]. unfold nearest_rank. rewrite len_sorted. reflexivity.
Qed.

(** Durations convert to finite seconds: non-zero ones to at least [2^-30]. *)
Lemma nanos_per_sec_f64 :
  f64_of_Z NANOS_PER_SEC = S754_finite false 8388608000000000 (-23).
Proof. vm_compute. reflexivity. Qed.

Lemma as_secs_f64_mag d : duration_valid d -> mag_lt 67 (as_secs_f64 d).
Proof.
  intros [Hs Hn]. unfold as_secs_f64. rewrite nanos_per_sec_f64.
  unfold in_range, u64_max, NANOS_PER_SEC in *. apply (f64_add_mag 65); [lia|..].
  - apply (f64_of_Z_mag _ 64); lia.
  - apply (mag_lt_mono (31 - 29 + 1)); [lia|].
    apply f64_div_mag; [lia..| |lia|lia]. apply (f64_of_Z_mag _ 30); lia.
Qed.

Lemma as_secs_f64_ge d : duration_valid d -> is_zero d = false -> mag_ge (-30) (as_secs_f64 d).
Proof.
  intros [Hs Hn] Hz. unfold is_zero in Hz. unfold as_secs_f64.
  rewrite nanos_per_sec_f64. unfold in_range, u64_max, NANOS_PER_SEC in *.
  set (fraction := f64_div _ _).
  assert (Hfr : mag_lt 65 fraction).
  { apply (mag_lt_mono (31 - 29 + 1)); [lia|].
    apply f64_div_mag; [lia..| |lia|lia]. apply (f64_of_Z_mag _ 30); lia. }
  destruct (Z.eqb_spec (secs d) 0) as [->|Hne].
  - destruct (Z.eqb_spec (nanos d) 0); [done|].
    assert (Hge : mag_ge (0 - 30) fraction).
    { eapply (f64_div_ge 0 30); [lia..| |lia|exact Hfr]. apply (f64_of_Z_ge _ 30); lia. }
    by destruct fraction as [| | |[]].
  - assert (Hge : mag_ge 0 (f64_of_Z (secs d))) by (apply (f64_of_Z_ge _ 64); lia).
    apply (f64_add_ge _ 65); [lia|lia| |done|].
    + apply (f64_of_Z_mag _ 64); lia.
    + destruct (f64_of_Z (secs d)) as [| | |[] m e]; try done. simpl in *.
      etransitivity; [|exact Hge]. destruct (Z.le_gt_cases 0 (-30 - e)).
      * apply Z.pow_le_mono_r; lia.
      * rewrite Z.pow_neg_r by lia. lia.
Qed.

Lemma milliseconds_finite d : duration_valid d -> finite_nonneg (milliseconds d) = true.
Proof.
  intros Hd. apply (mag_lt_finite_nonneg (67 + 11 + 1)). apply f64_mul_mag; [lia..| |].
  - by apply as_secs_f64_mag.
  - apply (f64_of_Z_mag 1000 10); lia.
Qed.

Lemma per_second_finite n d r :
  duration_valid d -> in_u64 n -> per_second n d = Ok r -> finite_nonneg r = true.
Proof.
  unfold per_second. intros Hd Hn. destruct (is_zero d) eqn:Hz; [done|]. intros [= <-].
  pose proof (as_secs_f64_mag d Hd) as Hmag. pose proof (as_secs_f64_ge d Hd Hz) as Hge.
  destruct (as_secs_f64 d) as [| | |[] m e]; try done. simpl in Hmag, Hge.
  apply (mag_lt_finite_nonneg (65 - (-30) + 1)).
  destruct (Z.le_gt_cases e (-30)) as [Hle|Hgt].
  - apply f64_div_mag; [lia..| |done|done]. apply (f64_of_Z_mag _ 64); [|lia].
    unfold in_range, u64_max in Hn. lia.
  - pose proof (mag_lt_exp _ _ _ Hmag).
    apply (mag_lt_mono (65 - e + 1)); [lia|]. apply f64_div_mag; [lia..| | |lia].
    + apply (f64_of_Z_mag _ 64); [|lia]. unfold in_range, u64_max in Hn. lia.
    + rewrite Z.sub_diag. lia.
Qed.

(** ** Properties *)

(** For up to [2^44] samples the quantile [p50], [p95] or
    [p99] of a summary is the nearest-rank quantile of the decimal percentage,
    although the code computes the rank in binary64 from an inexact literal: it
    is one of the samples, at least that percentage of the samples are at or
    below it, and fewer are strictly below it. *)
Theorem quantile_is_nearest_rank (samples : list f64) (d : Distribution) (name : string) (a : Z) :
  nonnegative_distribution samples = Ok d -> (name, a) ∈ percentiles -> len samples <= 2 ^ 44 ->
  exists v, dist_quantiles d !! name = Some v /\ v ∈ samples /\
    a * len samples <= 100 * len (filter (fun x => f64_le x v = true) samples) /\
    100 * len (filter (fun x => f64_lt x v = true) samples) < a * len samples.
Proof.
  intros Hd Ha Hn.
  destruct (distribution_quantile samples d name a Hd Ha) as (Hne & HF & _ & _ & _ & Hq).
  pose proof (len_samples_pos samples Hne) as Hpos.
  pose proof (rank_index_range (f64_lit a 100) (len samples) Hpos) as Hi.
  destruct (rank_index_exact name a (len samples) Ha) as [He ?]; [lia|].
  pose proof (rank_counts samples HF (rank_index (f64_lit a 100) (len samples)) Hi) as Hc.
  pose proof (ceil_percent_bounds a (len samples)) as Hb. simpl in Hc.
  eexists. split; [exact Hq|]. split; [by apply at_index_elem|]. lia.
Qed.

(** The summary counts every sample, its minimum and maximum
    are samples that bound all others, and
    [minimum <= p50 <= p95 <= p99 <= maximum]. *)
Theorem distribution_is_ordered (samples : list f64) (d : Distribution) :
  nonnegative_distribution samples = Ok d -> len samples <= 2 ^ 44 ->
  dist_samples d = len samples /\
  dist_minimum d ∈ samples /\ dist_maximum d ∈ samples /\
  (forall x, x ∈ samples -> f64_le (dist_minimum d) x = true /\ f64_le x (dist_maximum d) = true) /\
  exists p50 p95 p99,
    dist_quantiles d = <["p50":=p50]> (<["p95":=p95]> {["p99":=p99]})%string /\
    f64_le (dist_minimum d) p50 = true /\ f64_le p50 p95 = true /\
    f64_le p95 p99 = true /\ f64_le p99 (dist_maximum d) = true.
Proof.
  intros Hd Hn.
  assert (Hin : Forall (fun e => e ∈ percentiles) percentiles) by by apply Forall_forall.
  unfold percentiles at 2 in Hin. rewrite !Forall_cons in Hin. destruct Hin as (I50 & I95 & I99 & _).
  destruct (distribution_quantile samples d "p50" 50 Hd I50) as (Hne & HF & Hlen & Hmin & Hmax & _).
  pose proof (len_samples_pos samples Hne) as Hpos.
  split; [done|]. rewrite Hmin, Hmax.
  split; [apply at_index_elem; lia|]. split; [apply at_index_elem; lia|].
  split; [intros x Hx; split; [by apply minimum_below|by apply maximum_above]|].
  destruct (rank_index_exact _ _ (len samples) I50 ltac:(lia)) as [H50 _].
  destruct (rank_index_exact _ _ (len samples) I95 ltac:(lia)) as [H95 _].
  destruct (rank_index_exact _ _ (len samples) I99 ltac:(lia)) as [H99 _].
  pose proof (ceil_percent_range 50 (len samples)). pose proof (ceil_percent_range 99 (len samples)).
  pose proof (ceil_percent_mono 50 95 (len samples)). pose proof (ceil_percent_mono 95 99 (len samples)).
  eexists _, _, _. split; [apply (distribution_quantile_map samples d Hd)|].
  rewrite H50, H95, H99. repeat split; apply (at_index_le samples HF); lia.
Qed.

(** A summary does not depend on the order in which
    the samples were collected; two runs whose samples are permutations of each
    other produce the same distribution and the same median, bit for bit. *)
Theorem summaries_order_independent (samples samples' : list f64) :
  samples ≡ₚ samples' -> Forall (fun x => finite_nonneg x = true) samples ->
  nonnegative_distribution samples = nonnegative_distribution samples' /\
  median_with_range samples = median_with_range samples'.
Proof.
  intros Hp HF. cut (sorted_nonnegative samples = sorted_nonnegative samples').
  { unfold nonnegative_distribution, median_with_range. by intros ->. }
  destruct samples as [|x l]; [by apply Permutation_nil_l in Hp as ->|].
  assert (samples' <> []) by (intros ->; by apply Permutation_nil_r in Hp).
  transitivity (@Ok _ StatisticsError (sort_by total_cmp (x :: l)));
    [by apply sorted_nonnegative_Ok|symmetry; apply sorted_nonnegative_Ok].
  split; [done|]. split; [by rewrite <-Hp|].
  apply (strongly_sorted_unique total_cmp); [apply sort_by_sorted, _..|].
  by rewrite !sort_by_perm.
Qed.

(** A summary is refused exactly when there is no sample or
    some sample is not finite or is negative, and the error names the first such
    sample and its defect. *)
Theorem statistics_errors_are_exact (samples : list f64) :
  (sorted_nonnegative samples = Err EmptySamples <-> samples = []) /\
  (forall i, sorted_nonnegative samples = Err (NonFiniteSample i) <->
     exists x, samples !! i = Some x /\ is_finite x = false /\
       Forall (fun y => finite_nonneg y = true) (take i samples)) /\
  (forall i, sorted_nonnegative samples = Err (NegativeSample i) <->
     exists x, samples !! i = Some x /\ is_finite x = true /\ f64_lt x f64_zero = true /\
       Forall (fun y => finite_nonneg y = true) (take i samples)) /\
  sorted_nonnegative samples <> Err ZeroElapsed.
Proof.
  assert (Herr : forall e, sorted_nonnegative samples = Err e <->
    samples = [] /\ e = EmptySamples \/ rejected_at 0 samples e).
  { intros e. rewrite <-admit_samples_Err. unfold sorted_nonnegative. destruct samples as [|x l].
    - split; [intros [= <-]; by left|]. intros [[_ ->]|[=]]; done.
    - destruct (admit_samples 0 (x :: l)); split; naive_solver. }
  unfold rejected_at, refused in Herr. setoid_rewrite Herr. split; [|split; [|split]].
  - split; [|by left]. intros [[? _]|(i & x & _ & _ & [[_ [=]]|(_ & _ & [=])])]; done.
  - intros i. split; [|naive_solver].
    intros [[_ [=]]|(j & x & ? & ? & [[? [= ->]]|(_ & _ & [=])])]. by exists x.
  - intros i. split; [|naive_solver].
    intros [[_ [=]]|(j & x & ? & ? & [[_ [=]]|(? & ? & [= ->])])]. by exists x.
  - intros [[_ [=]]|(j & x & ? & ? & [[_ [=]]|(_ & _ & [=])])].
Qed.

(** With an odd number of rounds the reported median is one of
    the observations, and at most half of the observations lie strictly on
    either side of it. *)
Theorem odd_median_is_middle_observation (samples : list f64) (m : MedianRange) :
  median_with_range samples = Ok m -> len samples mod 2 = 1 ->
  mr_median m ∈ samples /\ mr_samples m = len samples /\
  2 * len (filter (fun x => f64_lt x (mr_median m) = true) samples) < len samples /\
  2 * len (filter (fun x => f64_lt (mr_median m) x = true) samples) < len samples.
Proof.
  unfold median_with_range. intros Hm Hodd.
  destruct (sorted_nonnegative samples) as [sorted|] eqn:Hs; [|done].
  apply sorted_nonnegative_Ok in Hs as (Hne & HF & ->).
  rewrite len_sorted, Hodd in Hm. injection Hm as <-. cbn [mr_median mr_samples].
  pose proof (len_samples_pos samples Hne). pose proof (Z.div_mod (len samples) 2 ltac:(lia)).
  destruct (rank_counts samples HF (len samples / 2)) as [Hle Hlt]; [lia|].
  set (v := at_index _ _) in *. split; [apply at_index_elem; lia|]. split; [done|]. split; [lia|].
  assert (Hdis : forall x, f64_le x v = true -> f64_lt v x = true -> False).
  { intros x Hx%f64_lt_le_false ?. congruence. }
  pose proof (length_filter_disjoint _ _ samples Hdis). unfold len in *. lia.
Qed.
