(* ===== verification/Ledger.v ===== *)
(** * Request accounting (crates/commit/src/model.rs)

    Every request of a contention round carries a unique identity; its outcome
    is recorded in a [RequestLedger], per-worker ledgers are merged after the
    concurrent phase, and [finish] turns a ledger into published evidence. The
    abstract specification of a ledger is the list of the events recorded
    ([represents]); [record], [try_merge] and [finish] are shown to implement
    it. SHA-256 comes from a third-party crate and is the class [Sha256]. *)

From S2P Require Import Prelude Order RustStr Float64 ContractResult Stats.
From Stdlib Require Import Ascii.
Open Scope Z_scope.

(** ** SHA-256 *)

(** [Sha256::digest] on bytes. *)
Class Sha256 := sha256 : list ascii -> list ascii.
(** Its documented output size. *)
Class Sha256Laws `{Sha256} : Prop := sha256_length : forall value, length (sha256 value) = 32%nat.

(** ** Identities and digests *)

Inductive ModelError :=
| EmptyRequestIdentity
| DuplicateRequestIdentity
| CountOverflow
| UnaccountedRequests
| Statistics (error : StatisticsError).

Definition display_model_error (self : ModelError) : string :=
  match self with
  | EmptyRequestIdentity => "request identity must not be empty"
  | DuplicateRequestIdentity => "request identity was reused within one phase"
  | CountOverflow => "request accounting overflowed u64"
  | UnaccountedRequests => "one or more requests were unaccounted"
  | Statistics error => display_statistics_error error
  end%string.

Record RequestIdentity := { identity_value : string }.

Definition RequestIdentity_new (value : string) : result RequestIdentity ModelError :=
  guard is_empty value or EmptyRequestIdentity in
  Ok {| identity_value := value |}.

Definition expose_for_request (self : RequestIdentity) : string := identity_value self.

(** [RequestDigest(String)]: the lowercase hexadecimal form. *)
Definition RequestDigest : Type := string.

Definition HEX : list ascii := bytes "0123456789abcdef".
Definition hex_char (n : Z) : ascii := nth (Z.to_nat n) HEX zero.
Definition hex_byte (byte : ascii) : list ascii :=
  [hex_char (Z.shiftr (code byte) 4); hex_char (Z.land (code byte) 15)].

Definition digest_from_bytes `{Sha256} (value : list ascii) : RequestDigest :=
  String.string_of_list_ascii (flat_map hex_byte (sha256 value)).

Definition identity_digest `{Sha256} (self : RequestIdentity) : RequestDigest :=
  digest_from_bytes (bytes (identity_value self)).

Definition is_lower_hex (a : ascii) : bool := is_ascii_digit a || between 97 102 a.

Definition digest_deserialize (value : string) : result RequestDigest string :=
  if (str_len value =? 64) && all_bytes is_lower_hex value then Ok value
  else Err "request digest must contain 64 lowercase hexadecimal characters"%string.

(** ** Accepted requests *)

Definition AcceptedRequests : Type := gset RequestDigest.

Definition accepted_insert `{Sha256} (identity : RequestIdentity) (self : AcceptedRequests)
  : AcceptedRequests := {[ identity_digest identity ]} ∪ self.

Definition accepted_try_extend (self other : AcceptedRequests) : result AcceptedRequests ModelError :=
  guard negb (bool_decide (self ## other)) or DuplicateRequestIdentity in
  Ok (self ∪ other).

Definition contains_value `{Sha256} (self : AcceptedRequests) (value : string) : bool :=
  bool_decide (digest_from_bytes (bytes value) ∈ self).

(** ** Outcomes *)

Inductive RequestErrorKind :=
| Transport
| Timeout
| ResponseTooLarge
| UnexpectedHttp
| MalformedResponse
| Harness.

Record SanitizedRequestError := {
  error_kind : RequestErrorKind;
  error_http_status : option Z;
}.

Inductive RequestOutcome :=
| Accepted
| Conflict
| Error (error : SanitizedRequestError).

#[export] Instance RequestErrorKind_eq_dec : EqDecision RequestErrorKind.
Proof. solve_decision. Defined.
#[export] Instance SanitizedRequestError_eq_dec : EqDecision SanitizedRequestError.
Proof. solve_decision. Defined.
#[export] Instance RequestOutcome_eq_dec : EqDecision RequestOutcome.
Proof. solve_decision. Defined.

(** The derived [Ord]: variants in declaration order, then the status with
    [None] first. *)
Definition kind_rank (k : RequestErrorKind) : Z :=
  match k with
  | Transport => 0 | Timeout => 1 | ResponseTooLarge => 2
  | UnexpectedHttp => 3 | MalformedResponse => 4 | Harness => 5
  end.
Definition kind_of_rank (n : Z) : RequestErrorKind :=
  match n with
  | 0 => Transport | 1 => Timeout | 2 => ResponseTooLarge
  | 3 => UnexpectedHttp | 4 => MalformedResponse | _ => Harness
  end.
Definition error_cmp : SanitizedRequestError -> SanitizedRequestError -> comparison :=
  cmp_lex (cmp_on (fun e => kind_rank (error_kind e)) Z.compare)
    (cmp_lex (cmp_on (fun e => if error_http_status e then 1 else 0) Z.compare)
       (cmp_on (fun e => default 0 (error_http_status e)) Z.compare)).

#[export] Instance error_cmp_total : TotalCmp error_cmp.
Proof. unfold error_cmp. apply _. Qed.

#[export] Instance SanitizedRequestError_countable : Countable SanitizedRequestError.
Proof.
  refine (inj_countable' (fun e => (kind_rank (error_kind e), error_http_status e))
            (fun p => {| error_kind := kind_of_rank p.1; error_http_status := p.2 |}) _).
  by intros [[] ?].
Defined.

(** ** Counts and evidence *)

Record RequestCounts := { attempts : Z; accepted : Z; conflicts : Z; errors : Z }.

Definition fully_accounted (self : RequestCounts) : bool :=
  match checked_add u64_max (accepted self) (conflicts self) with
  | None => false
  | Some count =>
      match checked_add u64_max count (errors self) with
      | None => false
      | Some total => total =? attempts self
      end
  end.

Record OutcomeLatencies := {
  lat_all : option Distribution;
  lat_accepted : option Distribution;
  lat_conflicts : option Distribution;
  lat_errors : option Distribution;
}.

Record ErrorCount := { ec_error : SanitizedRequestError; ec_count : Z }.

Record PhaseEvidence := {
  elapsed_ms : f64;
  counts : RequestCounts;
  latency_ms : OutcomeLatencies;
  attempted_throughput_per_second : f64;
  accepted_throughput_per_second : f64;
  conflict_rate : f64;
  error_rate : f64;
  error_counts : list ErrorCount;
}.

Definition made_progress (self : PhaseEvidence) : bool := 0 <? accepted (counts self).

(** ** The ledger *)

Record RequestLedger := {
  seen_requests : gset RequestDigest;
  ledger_all : list Duration;
  ledger_accepted : list Duration;
  ledger_conflicts : list Duration;
  ledger_errors : list Duration;
  ledger_error_counts : gmap SanitizedRequestError Z;
  accepted_requests : AcceptedRequests;
}.

(** [RequestLedger::default()]. *)
Definition ledger_default : RequestLedger := {|
  seen_requests := ∅; ledger_all := []; ledger_accepted := []; ledger_conflicts := [];
  ledger_errors := []; ledger_error_counts := ∅; accepted_requests := ∅;
|}.

(** [record(&mut self, ..)]: the ledger afterwards and the result. An overflow
    of an error count leaves the ledger half updated, as in the source. *)
Definition record `{Sha256} (self : RequestLedger) (identity : RequestIdentity)
    (latency : Duration) (outcome : RequestOutcome)
  : RequestLedger * result unit ModelError :=
  if bool_decide (identity_digest identity ∈ seen_requests self)
  then (self, Err DuplicateRequestIdentity)
  else
    let seen := {[ identity_digest identity ]} ∪ seen_requests self in
    let all := (ledger_all self ++ [latency])%list in
    match outcome with
    | Accepted =>
        ({| seen_requests := seen; ledger_all := all;
            ledger_accepted := ledger_accepted self ++ [latency];
            ledger_conflicts := ledger_conflicts self;
            ledger_errors := ledger_errors self;
            ledger_error_counts := ledger_error_counts self;
            accepted_requests := accepted_insert identity (accepted_requests self) |}, Ok tt)
    | Conflict =>
        ({| seen_requests := seen; ledger_all := all;
            ledger_accepted := ledger_accepted self;
            ledger_conflicts := ledger_conflicts self ++ [latency];
            ledger_errors := ledger_errors self;
            ledger_error_counts := ledger_error_counts self;
            accepted_requests := accepted_requests self |}, Ok tt)
    | Error error =>
        let count := default 0 (ledger_error_counts self !! error) in
        let with_count n :=
          {| seen_requests := seen; ledger_all := all;
             ledger_accepted := ledger_accepted self;
             ledger_conflicts := ledger_conflicts self;
             ledger_errors := ledger_errors self ++ [latency];
             ledger_error_counts := <[error := n]> (ledger_error_counts self);
             accepted_requests := accepted_requests self |} in
        match checked_add u64_max count 1 with
        | None => (with_count count, Err CountOverflow)
        | Some n => (with_count n, Ok tt)
        end
    end.

(** ** Finishing a phase *)

Definition count (samples : list Duration) : result Z ModelError :=
  ok_or (try_from u64_max (len samples)) CountOverflow.

Definition optional_distribution (samples : list Duration)
  : result (option Distribution) StatisticsError :=
  match samples with
  | [] => Ok None
  | _ => result_map Some (latency_distribution samples)
  end.

Definition ratio (numerator denominator : Z) : f64 :=
  if denominator =? 0 then f64_zero else f64_div (f64_of_Z numerator) (f64_of_Z denominator).

Definition finish (self : RequestLedger) (elapsed : Duration)
  : result (PhaseEvidence * AcceptedRequests) ModelError :=
  let? all := count (ledger_all self) in
  let? accepted := count (ledger_accepted self) in
  let? conflicts := count (ledger_conflicts self) in
  let? errors := count (ledger_errors self) in
  let counts := {| attempts := all; accepted := accepted;
                   conflicts := conflicts; errors := errors |} in
  guard negb (fully_accounted counts) or UnaccountedRequests in
  let? d_all := map_err Statistics (optional_distribution (ledger_all self)) in
  let? d_accepted := map_err Statistics (optional_distribution (ledger_accepted self)) in
  let? d_conflicts := map_err Statistics (optional_distribution (ledger_conflicts self)) in
  let? d_errors := map_err Statistics (optional_distribution (ledger_errors self)) in
  let? attempted_rate := map_err Statistics (per_second all elapsed) in
  let? accepted_rate := map_err Statistics (per_second accepted elapsed) in
  Ok ({| elapsed_ms := f64_mul (as_secs_f64 elapsed) (f64_of_Z 1000);
         counts := counts;
         latency_ms := {| lat_all := d_all; lat_accepted := d_accepted;
                          lat_conflicts := d_conflicts; lat_errors := d_errors |};
         attempted_throughput_per_second := attempted_rate;
         accepted_throughput_per_second := accepted_rate;
         conflict_rate := ratio conflicts all;
         error_rate := ratio errors all;
         error_counts := (fun e => {| ec_error := e.1; ec_count := e.2 |})
                           <$> btree_entries error_cmp (ledger_error_counts self) |},
      accepted_requests self).

(** ** Merging ledgers *)

(** The first loop of [try_merge]: it only checks. *)
Definition merge_checks (self other : RequestLedger) : result unit ModelError :=
  try_fold (fun _ (entry : SanitizedRequestError * Z) =>
      match checked_add u64_max (default 0 (ledger_error_counts self !! entry.1)) entry.2 with
      | None => Err CountOverflow
      | Some _ => Ok tt
      end) tt (btree_entries error_cmp (ledger_error_counts other)).

(** [*entry(error).or_default() += count]. *)
Definition add_error_count (m : gmap SanitizedRequestError Z) (entry : SanitizedRequestError * Z)
  : gmap SanitizedRequestError Z :=
  <[entry.1 := default 0 (m !! entry.1) + entry.2]> m.

(** [try_merge(&mut self, other)]: an error leaves the ledger unchanged. *)
Definition try_merge (self other : RequestLedger) : RequestLedger * result unit ModelError :=
  if negb (bool_decide (seen_requests self ## seen_requests other))
  then (self, Err DuplicateRequestIdentity)
  else
    match merge_checks self other with
    | Err e => (self, Err e)
    | Ok _ =>
        match accepted_try_extend (accepted_requests self) (accepted_requests other) with
        | Err e => (self, Err e)
        | Ok accepted =>
            ({| seen_requests := seen_requests self ∪ seen_requests other;
                ledger_all := ledger_all self ++ ledger_all other;
                ledger_accepted := ledger_accepted self ++ ledger_accepted other;
                ledger_conflicts := ledger_conflicts self ++ ledger_conflicts other;
                ledger_errors := ledger_errors self ++ ledger_errors other;
                ledger_error_counts :=
                  foldl add_error_count (ledger_error_counts self)
                    (btree_entries error_cmp (ledger_error_counts other));
                accepted_requests := accepted |}, Ok tt)
        end
    end.

(** ** Final state and metadata growth *)

Record FinalStateAttribution := {
  property_present : bool;
  request_sha256 : option RequestDigest;
  belongs_to_accepted_request : bool;
  metadata_location_within_table_root : bool;
}.

Definition attribution_evaluate `{Sha256} (final_property : option string)
    (accepted : AcceptedRequests) (metadata_location_within_table_root : bool)
  : FinalStateAttribution := {|
  property_present := if final_property then true else false;
  request_sha256 := (fun value => digest_from_bytes (bytes value)) <$> final_property;
  belongs_to_accepted_request := is_some_and (contains_value accepted) final_property;
  metadata_location_within_table_root := metadata_location_within_table_root;
|}.

Definition attribution_passed (self : FinalStateAttribution) : bool :=
  property_present self
  && belongs_to_accepted_request self
  && metadata_location_within_table_root self.

Record MetadataGrowthEvidence := {
  baseline_metadata_objects : Z;
  final_metadata_objects : Z;
  observed_growth : option Z;
  minimum_required_growth : Z;
  sufficient : bool;
}.

Definition growth_evaluate (baseline final : Z) (phase_counts : list RequestCounts)
  : result MetadataGrowthEvidence ModelError :=
  let? minimum := try_fold (fun total counts =>
      ok_or (checked_add u64_max total (accepted counts)) CountOverflow) 0 phase_counts in
  let growth := checked_sub final baseline in
  Ok {| baseline_metadata_objects := baseline;
        final_metadata_objects := final;
        observed_growth := growth;
        minimum_required_growth := minimum;
        sufficient := is_some_and (fun growth => minimum <=? growth) growth |}.

(** ** Specification: a ledger is the list of its events *)

Record RequestEvent := {
  event_identity : RequestIdentity;
  event_latency : Duration;
  event_outcome : RequestOutcome;
}.

Definition is_error (o : RequestOutcome) : bool :=
  match o with Error _ => true | _ => false end.

Section Spec.
Context `{Sha256}.

Definition event_digests (t : list RequestEvent) : list RequestDigest :=
  (fun ev => identity_digest (event_identity ev)) <$> t.
Definition with_outcome (p : RequestOutcome -> Prop) `{forall o, Decision (p o)}
    (t : list RequestEvent) : list RequestEvent := filter (fun ev => p (event_outcome ev)) t.
Definition accepted_events := with_outcome (fun o => o = Accepted).
Definition conflict_events := with_outcome (fun o => o = Conflict).
Definition error_events := with_outcome (fun o => is_error o = true).
Definition error_tally (t : list RequestEvent) (e : SanitizedRequestError) : Z :=
  len (with_outcome (fun o => o = Error e) t).
Definition tally_option (n : Z) : option Z := if n =? 0 then None else Some n.

Record represents (l : RequestLedger) (t : list RequestEvent) : Prop := {
  rep_distinct : NoDup (event_digests t);
  rep_seen : seen_requests l = list_to_set (event_digests t);
  rep_all : ledger_all l = event_latency <$> t;
  rep_accepted : ledger_accepted l = event_latency <$> accepted_events t;
  rep_conflicts : ledger_conflicts l = event_latency <$> conflict_events t;
  rep_errors : ledger_errors l = event_latency <$> error_events t;
  rep_tally : forall e, ledger_error_counts l !! e = tally_option (error_tally t e);
  rep_accepted_requests : accepted_requests l = list_to_set (event_digests (accepted_events t));
}.

Lemma represents_default : represents ledger_default [].
Proof. split; try done; constructor. Qed.

Lemma with_outcome_app p `{forall o, Decision (p o)} t t' :
  with_outcome p (t ++ t') = (with_outcome p t ++ with_outcome p t')%list.
Proof. apply filter_app. Qed.

Lemma error_tally_app t t' e : error_tally (t ++ t') e = error_tally t e + error_tally t' e.
Proof. unfold error_tally. by rewrite with_outcome_app, len_app. Qed.

Lemma with_outcome_len p `{forall o, Decision (p o)} t : 0 <= len (with_outcome p t) <= len t.
Proof. unfold len, with_outcome. pose proof (length_filter (fun ev => p (event_outcome ev)) t). lia. Qed.

Lemma error_tally_range t e : 0 <= error_tally t e <= len t.
Proof. apply with_outcome_len. Qed.

Lemma default_tally n : 0 <= n -> default 0 (tally_option n) = n.
Proof. unfold tally_option. by destruct (Z.eqb_spec n 0) as [->|]. Qed.

Lemma with_outcome_single p `{forall o, Decision (p o)} ev :
  with_outcome p [ev] = if decide (p (event_outcome ev)) then [ev] else [].
Proof. unfold with_outcome. by rewrite filter_cons. Qed.

(** Every event has exactly one of the three outcomes. *)
Lemma outcomes_partition t :
  len t = len (accepted_events t) + len (conflict_events t) + len (error_events t).
Proof.
  unfold accepted_events, conflict_events, error_events, with_outcome, len.
  induction t as [|[i d o] t IH]; [done|]. rewrite !filter_cons. simpl.
  destruct o; repeat (case_decide; try done); simpl; lia.
Qed.

Lemma event_digests_app t t' : event_digests (t ++ t') = (event_digests t ++ event_digests t')%list.
Proof. apply fmap_app. Qed.

Lemma digests_snoc t ev :
  list_to_set (C := gset RequestDigest) (event_digests (t ++ [ev])) =
    {[identity_digest (event_identity ev)]} ∪ list_to_set (event_digests t).
Proof.
  rewrite event_digests_app, list_to_set_app_L. simpl.
  by rewrite union_empty_r_L, union_comm_L.
Qed.

Lemma accepted_digests_subset t d :
  d ∈ event_digests (accepted_events t) -> d ∈ event_digests t.
Proof.
  unfold event_digests. rewrite !list_elem_of_fmap.
  intros (ev & -> & [_ Hev]%list_elem_of_filter). by exists ev.
Qed.

(** *** The error counts of a merge *)

Lemma foldl_error_counts es m e :
  NoDup es.*1 ->
  foldl add_error_count m es !! e =
    match list_to_map (M := gmap SanitizedRequestError Z) es !! e with
    | Some n => Some (default 0 (m !! e) + n)
    | None => m !! e
    end.
Proof.
  revert m. induction es as [|[k n] es IH]; intros m Hnd; simpl; [by rewrite lookup_empty|].
  apply NoDup_cons in Hnd as [Hk Hnd]. rewrite IH by done. unfold add_error_count. simpl.
  destruct (decide (k = e)) as [->|Hne].
  - rewrite !lookup_insert_eq.
    rewrite (not_elem_of_list_to_map_1 (M := gmap SanitizedRequestError)) by done. done.
  - by rewrite !lookup_insert_ne by done.
Qed.

Lemma merged_error_counts m m' e :
  foldl add_error_count m (btree_entries error_cmp m') !! e =
    match m' !! e with
    | Some n => Some (default 0 (m !! e) + n)
    | None => m !! e
    end.
Proof.
  pose proof (btree_entries_perm error_cmp m') as Hp.
  assert (Hnd : NoDup (btree_entries error_cmp m').*1).
  { rewrite Hp. apply NoDup_fst_map_to_list. }
  rewrite foldl_error_counts by done.
  rewrite (list_to_map_proper (M := gmap SanitizedRequestError) _ _ Hnd Hp).
  by rewrite list_to_map_to_list.
Qed.

Lemma merge_checks_Ok self other :
  (forall e n, ledger_error_counts other !! e = Some n ->
     default 0 (ledger_error_counts self !! e) + n <= u64_max) ->
  merge_checks self other = Ok tt.
Proof.
  intros Hsum. unfold merge_checks.
  assert (HF : Forall (fun entry => ledger_error_counts other !! entry.1 = Some entry.2)
    (btree_entries error_cmp (ledger_error_counts other))).
  { apply Forall_forall. intros [k n] Hin. by apply elem_of_btree_entries in Hin. }
  induction HF as [|[k n] es Hk _ IH]; [done|]. simpl.
  destruct (checked_add _ _ _) eqn:Hc; [done|]. apply checked_add_None in Hc.
  specialize (Hsum k n Hk). simpl in Hc. lia.
Qed.

(** *** Recording one event *)

Lemma record_duplicate l t identity latency outcome :
  represents l t -> identity_digest identity ∈ event_digests t ->
  record l identity latency outcome = (l, Err DuplicateRequestIdentity).
Proof.
  intros Hl Hin. unfold record. rewrite (rep_seen _ _ Hl).
  rewrite bool_decide_eq_true_2; [done|]. by apply elem_of_list_to_set.
Qed.

Lemma record_fresh l t ev :
  represents l t -> identity_digest (event_identity ev) ∉ event_digests t -> len t < u64_max ->
  exists l', record l (event_identity ev) (event_latency ev) (event_outcome ev) = (l', Ok tt) /\
    represents l' (t ++ [ev]).
Proof.
  intros [Hd Hs Ha Hac Hco Her Ht Hreq] Hnew Hlen.
  destruct ev as [identity latency outcome]. simpl in *.
  unfold record. rewrite bool_decide_eq_false_2 by (rewrite Hs; by rewrite elem_of_list_to_set).
  assert (Hd' : NoDup (event_digests (t ++ [{| event_identity := identity;
      event_latency := latency; event_outcome := outcome |}]))).
  { rewrite event_digests_app. apply NoDup_app. split; [done|]. split; [|apply NoDup_singleton].
    intros x Hx ->%list_elem_of_singleton. done. }
  pose proof (error_tally_range t) as Hrange.
  destruct outcome as [| |error]; simpl.
  3: destruct (checked_add _ _ _) as [n|] eqn:Hc;
    [apply checked_add_Some in Hc as [-> _]|
     apply checked_add_None in Hc; rewrite Ht, default_tally in Hc by apply Hrange;
     specialize (Hrange error); lia].
  all: eexists; split; [reflexivity|]; split; cbn [seen_requests ledger_all ledger_accepted
    ledger_conflicts ledger_errors ledger_error_counts accepted_requests]; [exact Hd'|..].
  all: try by rewrite Hs, digests_snoc.
  all: try by rewrite Ha, fmap_app.
  all: unfold accepted_events, conflict_events, error_events in *.
  all: try (rewrite with_outcome_app, with_outcome_single; simpl;
    rewrite ?app_nil_r, ?fmap_app, ?Hac, ?Hco, ?Her; reflexivity).
  all: try (unfold accepted_insert; rewrite Hreq, with_outcome_app, with_outcome_single; simpl;
    by rewrite ?app_nil_r, ?digests_snoc).
  1, 2: intros e; rewrite error_tally_app, Ht; f_equal; unfold error_tally at 3;
    rewrite with_outcome_single; unfold len; simpl; lia.
  rewrite Ht, default_tally by apply Hrange. intros e. rewrite error_tally_app.
  unfold error_tally at 3. rewrite with_outcome_single. simpl.
  destruct (decide (error = e)) as [->|Hne].
  - rewrite lookup_insert_eq, decide_True by done. rewrite len_cons, len_nil.
    specialize (Hrange e). unfold tally_option. destruct (Z.eqb_spec (error_tally t e + (1 + 0)) 0); [lia|].
    f_equal; lia.
  - rewrite lookup_insert_ne, Ht, decide_False by congruence. by rewrite len_nil, Z.add_0_r.
Qed.

(** *** Merging *)

Lemma NoDup_digests_app t t' :
  NoDup (event_digests (t ++ t')) <->
  NoDup (event_digests t) /\ NoDup (event_digests t') /\
  list_to_set (C := gset RequestDigest) (event_digests t) ## list_to_set (event_digests t').
Proof.
  rewrite event_digests_app, NoDup_app, elem_of_disjoint. setoid_rewrite elem_of_list_to_set.
  naive_solver.
Qed.

Lemma accepted_disjoint t t' :
  list_to_set (C := gset RequestDigest) (event_digests t) ## list_to_set (event_digests t') ->
  list_to_set (C := gset RequestDigest) (event_digests (accepted_events t)) ##
    list_to_set (event_digests (accepted_events t')).
Proof.
  rewrite !elem_of_disjoint. setoid_rewrite elem_of_list_to_set.
  intros Hd x Hx Hx'. apply (Hd x); by apply accepted_digests_subset.
Qed.

Lemma merge_distinct l l' t t' :
  represents l t -> represents l' t' -> NoDup (event_digests (t ++ t')) ->
  len t + len t' <= u64_max ->
  exists m, try_merge l l' = (m, Ok tt) /\ represents m (t ++ t').
Proof.
  intros Hl Hl' Hnd Hlen. pose proof Hnd as (_ & _ & Hdis)%NoDup_digests_app.
  unfold try_merge. rewrite (rep_seen _ _ Hl), (rep_seen _ _ Hl').
  rewrite bool_decide_eq_true_2 by done. simpl.
  rewrite merge_checks_Ok; cycle 1.
  { intros e n Hn. rewrite (rep_tally _ _ Hl') in Hn. rewrite (rep_tally _ _ Hl).
    pose proof (error_tally_range t e). pose proof (error_tally_range t' e).
    rewrite default_tally by lia. unfold tally_option in Hn.
    destruct (Z.eqb_spec (error_tally t' e) 0); [done|]. injection Hn as <-. lia. }
  unfold accepted_try_extend.
  rewrite (rep_accepted_requests _ _ Hl), (rep_accepted_requests _ _ Hl').
  rewrite bool_decide_eq_true_2 by (by apply accepted_disjoint). simpl.
  eexists. split; [reflexivity|]. split; cbn [seen_requests ledger_all ledger_accepted
    ledger_conflicts ledger_errors ledger_error_counts accepted_requests]; [exact Hnd|..].
  all: unfold accepted_events, conflict_events, error_events in *.
  all: rewrite ?with_outcome_app, ?event_digests_app, ?fmap_app, ?list_to_set_app_L.
  all: try (destruct Hl, Hl'; unfold accepted_events, conflict_events, error_events in *;
    congruence).
  intros e. rewrite merged_error_counts, error_tally_app, (rep_tally _ _ Hl), (rep_tally _ _ Hl').
  pose proof (error_tally_range t e). pose proof (error_tally_range t' e).
  rewrite default_tally by lia. unfold tally_option.
  destruct (Z.eqb_spec (error_tally t' e) 0) as [->|]; [by rewrite Z.add_0_r|].
  destruct (Z.eqb_spec (error_tally t e + error_tally t' e) 0); [lia|done].
Qed.

Lemma merge_overlapping l l' t t' :
  represents l t -> represents l' t' -> ~ NoDup (event_digests (t ++ t')) ->
  try_merge l l' = (l, Err DuplicateRequestIdentity).
Proof.
  intros Hl Hl' Hnd. unfold try_merge. rewrite (rep_seen _ _ Hl), (rep_seen _ _ Hl').
  rewrite bool_decide_eq_false_2; [done|]. intros Hdis. apply Hnd. apply NoDup_digests_app.
  split; [apply Hl|]. split; [apply Hl'|done].
Qed.

(** *** Finishing *)

Lemma latency_distribution_total ds :
  Forall duration_valid ds -> ds <> [] -> exists d, latency_distribution ds = Ok d.
Proof.
  intros HF Hne. unfold latency_distribution, nonnegative_distribution.
  assert (Hs : sorted_nonnegative (milliseconds <$> ds) = Ok (sort_by total_cmp (milliseconds <$> ds))).
  { apply sorted_nonnegative_Ok. split; [by destruct ds|]. split; [|done].
    apply Forall_fmap. eapply Forall_impl; [exact HF|]. by apply milliseconds_finite. }
  rewrite Hs. destruct (population_moments _) as [mean deviation]. eauto.
Qed.

Lemma optional_distribution_total ds :
  Forall duration_valid ds -> exists o, optional_distribution ds = Ok o.
Proof.
  intros HF. unfold optional_distribution. destruct ds as [|d ds]; [eauto|].
  destruct (latency_distribution_total (d :: ds) HF) as [o ->]; [done|]. simpl; eauto.
Qed.

Lemma count_Ok ds : len ds <= u64_max -> count ds = Ok (len ds).
Proof.
  intros Hlen. unfold count, try_from. destruct (Z.leb_spec (len ds) u64_max); [done|lia].
Qed.

Lemma Forall_with_outcome (P : Duration -> Prop) p `{forall o, Decision (p o)} t :
  Forall P (event_latency <$> t) -> Forall P (event_latency <$> with_outcome p t).
Proof.
  rewrite !Forall_forall. setoid_rewrite list_elem_of_fmap.
  intros HF x (ev & -> & [_ Hev]%list_elem_of_filter). apply HF. by exists ev.
Qed.

Lemma len_fmap {A B} (f : A -> B) (l : list A) : len (f <$> l) = len l.
Proof. unfold len. by rewrite length_fmap. Qed.

Definition event_counts (t : list RequestEvent) : RequestCounts := {|
  attempts := len t;
  accepted := len (accepted_events t);
  conflicts := len (conflict_events t);
  errors := len (error_events t);
|}.

Lemma event_counts_accounted t : len t <= u64_max -> fully_accounted (event_counts t) = true.
Proof.
  intros Hlen. unfold fully_accounted, event_counts. cbn [attempts accepted conflicts errors].
  pose proof (outcomes_partition t) as Hp.
  pose proof (len_nonneg (accepted_events t)). pose proof (len_nonneg (conflict_events t)).
  pose proof (len_nonneg (error_events t)). unfold checked_add.
  destruct (Z.leb_spec (len (accepted_events t) + len (conflict_events t)) u64_max); [|lia].
  destruct (Z.leb_spec (len (accepted_events t) + len (conflict_events t) + len (error_events t))
    u64_max); [|lia]. by apply Z.eqb_eq.
Qed.

(** The shape of [finish] on a ledger that represents [t]. *)
Lemma finish_counts l t elapsed :
  represents l t -> len t <= u64_max -> Forall duration_valid (event_latency <$> t) ->
  (is_zero elapsed = true -> finish l elapsed = Err (Statistics ZeroElapsed)) /\
  (is_zero elapsed = false -> exists ph, finish l elapsed = Ok (ph, accepted_requests l) /\
     counts ph = event_counts t /\
     per_second (len t) elapsed = Ok (attempted_throughput_per_second ph) /\
     per_second (len (accepted_events t)) elapsed = Ok (accepted_throughput_per_second ph) /\
     error_counts ph = (fun e => {| ec_error := e.1; ec_count := e.2 |})
                         <$> btree_entries error_cmp (ledger_error_counts l)).
Proof.
  intros Hl Hlen HF. unfold finish. destruct Hl as [_ _ -> -> -> -> _ _].
  pose proof (with_outcome_len (fun o => o = Accepted) t).
  pose proof (with_outcome_len (fun o => o = Conflict) t).
  pose proof (with_outcome_len (fun o => is_error o = true) t).
  fold (accepted_events t) (conflict_events t) (error_events t) in *.
  rewrite !count_Ok by (rewrite len_fmap; lia). rewrite !len_fmap.
  pose proof (event_counts_accounted t Hlen) as Hacc. unfold event_counts in Hacc. rewrite Hacc.
  simpl negb. cbv iota.
  destruct (optional_distribution_total _ HF) as [o1 ->].
  destruct (optional_distribution_total _ (Forall_with_outcome _ (fun o => o = Accepted) t HF)) as [o2 Ho2].
  destruct (optional_distribution_total _ (Forall_with_outcome _ (fun o => o = Conflict) t HF)) as [o3 Ho3].
  destruct (optional_distribution_total _ (Forall_with_outcome _ (fun o => is_error o = true) t HF)) as [o4 Ho4].
  unfold accepted_events, conflict_events, error_events. rewrite Ho2, Ho3, Ho4.
  unfold per_second. cbn [map_err].
  destruct (is_zero elapsed); split; intros; try done. cbn [map_err]. eexists. repeat split.
Qed.

End Spec.

(** ** Hexadecimal digests *)

Definition unhex (a b : ascii) : option ascii :=
  List.find (fun c => bool_decide (hex_byte c = [a; b]))
    (ascii_of_nat <$> seq 0 256).

Lemma hex_byte_inj a b : hex_byte a = hex_byte b -> a = b.
Proof.
  assert (Hun : forall c, match hex_byte c with [x; y] => unhex x y = Some c | _ => False end).
  { intros c. destruct c as [[] [] [] [] [] [] [] []]; vm_compute; reflexivity. }
  intros Hab. pose proof (Hun a) as Ha. pose proof (Hun b) as Hb. rewrite Hab in Ha. revert Ha Hb.
  destruct (hex_byte b) as [|x [|y [|]]]; try done. congruence.
Qed.

Lemma hex_byte_lower c : forallb is_lower_hex (hex_byte c) = true.
Proof. destruct c as [[] [] [] [] [] [] [] []]; vm_compute; reflexivity. Qed.

Lemma flat_map_hex_inj l k : flat_map hex_byte l = flat_map hex_byte k -> l = k.
Proof.
  revert k. induction l as [|a l IH]; intros [|b k]; cbn [flat_map]; try done.
  intros [Ha%hex_byte_inj Hl%IH]%app_inj_1; [congruence|done].
Qed.

Lemma digest_from_bytes_inj `{Sha256} v w :
  digest_from_bytes v = digest_from_bytes w -> sha256 v = sha256 w.
Proof.
  unfold digest_from_bytes. intros Heq. apply flat_map_hex_inj.
  apply (f_equal String.list_ascii_of_string) in Heq.
  by rewrite !String.list_ascii_of_string_of_list_ascii in Heq.
Qed.

Lemma forallb_flat_map {A B} (p : B -> bool) (f : A -> list B) l :
  (forall a, forallb p (f a) = true) -> forallb p (flat_map f l) = true.
Proof. intros Hf. induction l as [|a l IH]; simpl; [done|]. by rewrite forallb_app, Hf, IH. Qed.

Lemma length_string_of_bytes l : String.length (String.string_of_list_ascii l) = length l.
Proof. induction l as [|a l IH]; simpl; [done|]. by rewrite IH. Qed.

Lemma length_flat_map_hex l : length (flat_map hex_byte l) = (2 * length l)%nat.
Proof. induction l as [|a l IH]; simpl; [done|]. rewrite IH. lia. Qed.

(** A test hash for the witnesses: the first 32 bytes, padded. *)
Definition padded_hash : Sha256 := fun value => take 32 (value ++ replicate 32 "0"%char).

#[export] Instance padded_hash_laws : @Sha256Laws padded_hash.
Proof. intros value. unfold sha256, padded_hash. rewrite length_take, length_app, length_replicate. lia. Qed.

Definition sample_event (name : string) (outcome : RequestOutcome) : RequestEvent := {|
  event_identity := {| identity_value := name |};
  event_latency := {| secs := 0; nanos := 5000000 |};
  event_outcome := outcome;
|}.
Definition sample_events : list RequestEvent :=
  [sample_event "a" Accepted; sample_event "b" Conflict].
Definition sample_ledger `{Sha256} (t : list RequestEvent) : RequestLedger :=
  foldl (fun l ev => (record l (event_identity ev) (event_latency ev) (event_outcome ev)).1)
    ledger_default t.

Lemma sample_ledger_represents `{Sha256} t :
  NoDup (event_digests t) -> len t < u64_max -> represents (sample_ledger t) t.
Proof.
  unfold sample_ledger. induction t as [|ev t IH] using rev_ind; [intros; apply represents_default|].
  rewrite event_digests_app, NoDup_app, len_app, len_cons, len_nil, foldl_app.
  intros (Hnd & Hdis & _) Hlen. destruct (record_fresh (foldl
    (fun l ev => (record l (event_identity ev) (event_latency ev) (event_outcome ev)).1)
    ledger_default t) t ev) as (l' & Hr & Hl'); [apply IH; [done|lia]| |lia|].
  - intros Hin. apply (Hdis _ Hin). by apply list_elem_of_singleton.
  - simpl. by rewrite Hr.
Qed.

Lemma sum_accepted_nonneg (l : list RequestCounts) :
  (forall c, c ∈ l -> 0 <= accepted c) -> 0 <= foldr Z.add 0 (accepted <$> l).
Proof.
  induction l as [|c l IH]; intros Hpos; [done|].
  assert (0 <= accepted c) by (apply Hpos; left).
  assert (0 <= foldr Z.add 0 (accepted <$> l)) by (apply IH; intros d Hd; apply Hpos; by right).
  rewrite fmap_cons. simpl foldr. lia.
Qed.

Lemma try_fold_growth (l : list RequestCounts) (n : Z) :
  (forall c, c ∈ l -> 0 <= accepted c) ->
  try_fold (E := ModelError) (fun total counts =>
    ok_or (checked_add u64_max total (accepted counts)) CountOverflow) n l =
  let total := n + foldr Z.add 0 (accepted <$> l) in
  if (total <=? u64_max) || bool_decide (l = []) then Ok total else Err CountOverflow.
Proof.
  revert n. induction l as [|c l IH]; intros n Hpos; simpl.
  - rewrite orb_true_r. by rewrite Z.add_0_r.
  - rewrite orb_false_r.
    assert (Hsum : 0 <= foldr Z.add 0 (accepted <$> l)).
    { apply sum_accepted_nonneg. intros d Hd. apply Hpos. by right. }
    destruct (checked_add _ _ _) as [m|] eqn:Hc.
    + apply checked_add_Some in Hc as [-> Hle]. simpl. rewrite IH by (intros; apply Hpos; by right).
      simpl. rewrite Z.add_assoc. destruct l as [|d l]; [|by rewrite orb_false_r].
      simpl. rewrite !Z.add_0_r, orb_true_r. destruct (Z.leb_spec (n + accepted c) u64_max); [done|lia].
    + apply checked_add_None in Hc. simpl.
      match goal with |- context [?x <=? u64_max] => destruct (Z.leb_spec x u64_max) as [Hle|] end;
        [|done]. exfalso. change (list_fmap _ _ accepted l) with (accepted <$> l) in Hle. lia.
Qed.

Lemma sample_events_represented :
  represents (H := padded_hash) (sample_ledger (H := padded_hash) sample_events) sample_events.
Proof. apply sample_ledger_represents; [by_decide|reflexivity]. Qed.
Definition other_events : list RequestEvent :=
  [sample_event "x" Accepted; sample_event "y" (Error {| error_kind := Timeout; error_http_status := None |})].
Lemma other_events_represented :
  represents (H := padded_hash) (sample_ledger (H := padded_hash) other_events) other_events.
Proof. apply sample_ledger_represents; [by_decide|reflexivity]. Qed.

(** ** Properties *)

(** Every digest the harness computes is accepted when a
    transcript is read back, and digests of two values agree only when SHA-256
    itself collides on them. *)
Theorem digest_roundtrip `{Sha256Laws} (v w : list ascii) :
  digest_deserialize (digest_from_bytes v) = Ok (digest_from_bytes v) /\
  (digest_from_bytes v = digest_from_bytes w <-> sha256 v = sha256 w).
Proof.
  split.
  - unfold digest_deserialize. unfold digest_from_bytes at 1 2, str_len, all_bytes, bytes.
    rewrite String.list_ascii_of_string_of_list_ascii.
    rewrite <-(String.string_of_list_ascii_of_string (String.string_of_list_ascii _)) at 1.
    rewrite String.list_ascii_of_string_of_list_ascii.
    rewrite (forallb_flat_map is_lower_hex) by apply hex_byte_lower.
    replace (String.length _) with 64%nat; [done|].
    by rewrite length_string_of_bytes, length_flat_map_hex, sha256_length.
  - split; [apply digest_from_bytes_inj|]. unfold digest_from_bytes. by intros ->.
Qed.

(** Recording refines appending to the list of events. A
    request whose digest was already recorded is refused and changes nothing;
    any other is recorded, exactly once, in the list of all latencies, in the
    list and the count of its outcome and, when accepted, in the set of accepted
    requests. *)
Theorem record_refines_append `{Sha256} (l : RequestLedger) (t : list RequestEvent)
    (ev : RequestEvent) :
  represents l t -> len t < u64_max ->
  if bool_decide (identity_digest (event_identity ev) ∈ event_digests t)
  then record l (event_identity ev) (event_latency ev) (event_outcome ev)
         = (l, Err DuplicateRequestIdentity)
  else exists l', record l (event_identity ev) (event_latency ev) (event_outcome ev) = (l', Ok tt)
         /\ represents l' (t ++ [ev]).
Proof.
  intros Hl Hlen. case_bool_decide as Hin; [by apply record_duplicate with t|by apply record_fresh].
Qed.

Lemma record_refines_append_witness :
  exists l', record (H := padded_hash) (sample_ledger (H := padded_hash) sample_events)
    {| identity_value := "c" |} {| secs := 1; nanos := 0 |} Accepted = (l', Ok tt) /\
    represents (H := padded_hash) l' (sample_events ++ [{| event_identity := {| identity_value := "c" |};
      event_latency := {| secs := 1; nanos := 0 |}; event_outcome := Accepted |}]).
Proof.
  exact (record_refines_append (H := padded_hash) (sample_ledger (H := padded_hash) sample_events)
    sample_events {| event_identity := {| identity_value := "c" |};
      event_latency := {| secs := 1; nanos := 0 |}; event_outcome := Accepted |}
    sample_events_represented eq_refl).
Defined.

(** C11: merging the ledger of a worker refines concatenating the
    event lists: it succeeds exactly when no request of one was recorded in the
    other, it then counts every event of both, no error count overflows, and a
    refused merge leaves the ledger unchanged. *)
Theorem merge_refines_concatenation `{Sha256} (l l' : RequestLedger) (t t' : list RequestEvent) :
  represents l t -> represents l' t' -> len t + len t' <= u64_max ->
  if bool_decide (NoDup (event_digests (t ++ t')))
  then exists m, try_merge l l' = (m, Ok tt) /\ represents m (t ++ t')
  else try_merge l l' = (l, Err DuplicateRequestIdentity).
Proof.
  intros Hl Hl' Hlen. case_bool_decide; [by apply merge_distinct|by apply merge_overlapping with t t'].
Qed.

Lemma merge_refines_concatenation_witness :
  exists m, try_merge (sample_ledger (H := padded_hash) sample_events)
      (sample_ledger (H := padded_hash) other_events) = (m, Ok tt) /\
    represents (H := padded_hash) m (sample_events ++ other_events).
Proof.
  exact (merge_refines_concatenation (H := padded_hash) (sample_ledger (H := padded_hash) sample_events)
    (sample_ledger (H := padded_hash) other_events) sample_events other_events
    sample_events_represented other_events_represented ltac:(vm_compute; discriminate)).
Defined.

(** Finishing a ledger that holds up to [u64::MAX] requests
    fails only for a zero elapsed time. The published counts are those of the
    events and account for every attempt, the published error counts are the
    tallies of the errors, and both throughputs are finite and not negative. *)
Theorem finish_publishes_events `{Sha256} (l : RequestLedger) (t : list RequestEvent)
    (elapsed : Duration) :
  represents l t -> len t <= u64_max ->
  Forall duration_valid (event_latency <$> t) -> duration_valid elapsed ->
  if is_zero elapsed then finish l elapsed = Err (Statistics ZeroElapsed)
  else exists ph, finish l elapsed = Ok (ph, accepted_requests l) /\
    counts ph = event_counts t /\ fully_accounted (counts ph) = true /\
    (forall e n, {| ec_error := e; ec_count := n |} ∈ error_counts ph <->
       n = error_tally t e /\ n <> 0) /\
    finite_nonneg (attempted_throughput_per_second ph) = true /\
    finite_nonneg (accepted_throughput_per_second ph) = true.
Proof.
  intros Hl Hlen HF He. destruct (finish_counts l t elapsed Hl Hlen HF) as [Hz Hnz].
  destruct (is_zero elapsed); [by apply Hz|].
  destruct (Hnz eq_refl) as (ph & Hfin & Hcounts & Hatt & Hacc & Herr). exists ph.
  split; [done|]. split; [done|]. rewrite Hcounts, Herr.
  split; [by apply event_counts_accounted|]. split.
  - intros e n. rewrite list_elem_of_fmap. split.
    + intros ([e' n'] & [= -> ->] & Hin%elem_of_btree_entries).
      rewrite (rep_tally _ _ Hl) in Hin. unfold tally_option in Hin.
      destruct (Z.eqb_spec (error_tally t e') 0); [done|]. by injection Hin as <-.
    + intros [-> Hne]. exists (e, error_tally t e). split; [done|].
      apply elem_of_btree_entries. rewrite (rep_tally _ _ Hl). unfold tally_option.
      by destruct (Z.eqb_spec (error_tally t e) 0).
  - pose proof (with_outcome_len (fun o => o = Accepted) t). pose proof (len_nonneg t).
    split; eapply per_second_finite; [exact He| |exact Hatt|exact He| |exact Hacc];
      unfold in_range, accepted_events; lia.
Qed.

Lemma finish_publishes_events_witness :
  exists ph, finish (sample_ledger (H := padded_hash) sample_events) {| secs := 2; nanos := 0 |}
      = Ok (ph, accepted_requests (sample_ledger (H := padded_hash) sample_events)) /\
    counts ph = {| attempts := 2; accepted := 1; conflicts := 1; errors := 0 |}.
Proof.
  destruct (finish_publishes_events (H := padded_hash) (sample_ledger (H := padded_hash) sample_events)
    sample_events {| secs := 2; nanos := 0 |} sample_events_represented
    ltac:(vm_compute; discriminate)
    ltac:(repeat constructor; vm_compute; congruence)
    ltac:(repeat constructor; vm_compute; congruence)) as (ph & Hf & Hc & _).
  exists ph. split; [exact Hf|exact Hc].
Defined.

(** A round's final state is attributed exactly when the
    property is present in the final table metadata, the metadata lies within
    the table root, and the property value has the digest of a request that was
    accepted; when SHA-256 does not collide on the values involved, the value
    is the identity of an accepted request. *)
Theorem attribution_names_accepted_request `{Sha256} (l : RequestLedger) (t : list RequestEvent)
    (property : option string) (within_root : bool) :
  represents l t ->
  (forall ev value, ev ∈ t -> property = Some value ->
     sha256 (bytes (identity_value (event_identity ev))) = sha256 (bytes value) ->
     identity_value (event_identity ev) = value) ->
  attribution_passed (attribution_evaluate property (accepted_requests l) within_root) = true <->
  within_root = true /\
  exists ev, ev ∈ t /\ event_outcome ev = Accepted /\
    property = Some (identity_value (event_identity ev)).
Proof.
  intros Hl Hinj. unfold attribution_passed, attribution_evaluate.
  cbn [property_present belongs_to_accepted_request metadata_location_within_table_root].
  rewrite !andb_true_iff, is_some_and_true.
  assert (Hcontains : forall value, property = Some value ->
    contains_value (accepted_requests l) value = true <->
    exists ev, ev ∈ t /\ event_outcome ev = Accepted /\ identity_value (event_identity ev) = value).
  { intros value Hv. unfold contains_value. rewrite bool_decide_eq_true, (rep_accepted_requests _ _ Hl).
    rewrite elem_of_list_to_set. unfold event_digests. rewrite list_elem_of_fmap.
    unfold accepted_events, with_outcome. setoid_rewrite list_elem_of_filter. split.
    - intros (ev & Heq & Hacc & Hin). exists ev. split; [done|]. split; [done|].
      apply (Hinj ev); [done..|]. symmetry. by apply digest_from_bytes_inj.
    - intros (ev & Hin & Hacc & <-). by exists ev. }
  destruct property as [value|]; split.
  - intros [[_ (v & [= <-] & Hv)] Hr]. apply Hcontains in Hv as (ev & ? & ? & <-); eauto.
  - intros [Hr (ev & Hin & Hacc & [= ->])]. repeat split; [|done].
    eexists; split; [done|]. apply Hcontains; eauto.
  - intros [[? _] _]; done.
  - intros [_ (ev & _ & _ & [=])].
Qed.

Lemma attribution_names_accepted_request_witness :
  attribution_passed (attribution_evaluate (H := padded_hash) (Some "a"%string)
    (accepted_requests (sample_ledger (H := padded_hash) sample_events)) true) = true.
Proof.
  apply (attribution_names_accepted_request (H := padded_hash)
    (sample_ledger (H := padded_hash) sample_events) sample_events (Some "a"%string) true
    sample_events_represented).
  - intros ev value Hev [= <-]. unfold sample_events in Hev.
    rewrite !elem_of_cons, elem_of_nil in Hev. destruct Hev as [->|[->|[]]]; [done|].
    vm_compute. intros [=].
  - split; [done|]. exists (sample_event "a" Accepted). split; [left|done].
Defined.

(** The metadata-growth evidence is computed without overflow unless
    the accepted commits exceed [u64], and it is sufficient exactly when the
    number of metadata objects grew by at least the number of accepted commits
    of all phases. *)
Theorem growth_sufficient_iff (baseline final : Z) (phases : list RequestCounts) :
  (forall c, c ∈ phases -> in_u64 (accepted c)) ->
  let required := foldr Z.add 0 (accepted <$> phases) in
  if required <=? u64_max
  then exists g, growth_evaluate baseline final phases = Ok g /\
    minimum_required_growth g = required /\
    (sufficient g = true <-> baseline <= final /\ required <= final - baseline)
  else growth_evaluate baseline final phases = Err CountOverflow.
Proof.
  intros Hpos required. unfold growth_evaluate.
  rewrite try_fold_growth by (intros c Hc; by apply Hpos). cbv zeta. fold required.
  rewrite Z.add_0_l.
  assert (Hnil : phases = [] -> required = 0) by (unfold required; by intros ->).
  destruct (Z.leb_spec required u64_max) as [Hle|Hgt]; simpl.
  - eexists. split; [reflexivity|]. split; [done|]. cbn [sufficient].
    rewrite is_some_and_true. setoid_rewrite checked_sub_Some. setoid_rewrite Z.leb_le. split.
    + intros (a & [-> ?] & ?). lia.
    + intros [? ?]. by exists (final - baseline).
  - rewrite bool_decide_eq_false_2; [done|]. intros ->%Hnil. unfold u64_max in *. lia.
Qed.

Lemma growth_sufficient_iff_witness :
  let phases := [{| attempts := 3; accepted := 2; conflicts := 1; errors := 0 |}] in
  exists g, growth_evaluate 1 3 phases = Ok g /\ minimum_required_growth g = 2 /\
    (sufficient g = true <-> 1 <= 3 /\ 2 <= 3 - 1).
Proof.
  apply (growth_sufficient_iff 1 3 [{| attempts := 3; accepted := 2; conflicts := 1; errors := 0 |}]).
  intros c ->%list_elem_of_singleton. vm_compute. split; congruence.
Defined.
