(* ===== verification/Policy.v ===== *)
(** * The contention plan (crates/commit/src/policy.rs)

    [from_contracts] turns a validated profile and scenario into the parameters
    and the rotated schedule of a contention run, and [fixture] names the
    isolated namespace of one catalog round. Decoding the scenario's parameter
    object into [ContentionParameters] is derived by [serde] and is the class
    [ParametersDecoder]; the scenario file compiled into the binary is the
    class [CanonicalScenario]. *)

From S2P Require Import Prelude Order RustStr Json ContractValue ContractScenario ContractAdapter ContractProfile.
From S2P Require Import ContractDocument.
From Stdlib Require Import Ascii.
Open Scope string_scope.

(** ** Constants *)

Definition CONTENTION_SCENARIO_ID : string := "iceberg-rest.commit.same-table-contention".
Definition CONTENTION_SCENARIO_VERSION : Z := 2.
Definition CONTENTION_TRANSCRIPT_FORMAT : string := "catalog-bench/contention-transcript/v1".
Definition RUNNER_COMPONENT_ID : string := "catalog-bench-commit".
Definition CONTENTION_METADATA_DELETE_AFTER_COMMIT : bool := false.
Definition CONTENTION_METADATA_PREVIOUS_VERSIONS_MAX : Z := 100000.

(** ** Data *)

(** [PolicyError(String)]. *)
Definition PolicyError : Type := string.

Inductive CatalogOrder := RotateLeft.
Inductive AggregatePolicy := MedianWithMinMax.
Inductive CommitRequirement := AssertTableUuid.
Inductive IdempotencyPolicy := Omitted.

Record RoundPolicy := {
  conditioning_rounds : Z;
  measured_rounds : Z;
  catalog_order : CatalogOrder;
  aggregate_policy : AggregatePolicy;
  require_every_round_to_pass : bool;
}.

Record WorkloadPolicy := {
  warmup_commits : Z;
  sequential_commits : Z;
  concurrent_writers : Z;
  concurrent_duration_ms : Z;
  commit_property : string;
  requirement : CommitRequirement;
  idempotency_key : IdempotencyPolicy;
}.

Record MetadataRetentionPolicy := { delete_after_commit : bool; previous_versions_max : Z }.

Record ObjectStorePolicy := {
  os_component : ComponentId;
  os_endpoint : string;
  os_bucket : string;
  os_region : string;
  os_allow_http : bool;
  os_path_style_access : bool;
  os_access_key_env : string;
  os_secret_key_env : string;
}.

Record LimitPolicy := {
  request_timeout_ms : Z;
  maximum_response_bytes : Z;
  maximum_fixture_id_bytes : Z;
}.

Record ContentionParameters := {
  fixture_prefix : string;
  transcript_format : string;
  round_policy : RoundPolicy;
  metadata_retention : MetadataRetentionPolicy;
  workload : WorkloadPolicy;
  object_store : ObjectStorePolicy;
  limits : LimitPolicy;
}.

Record CatalogRun := { run_catalog : ComponentId; run_name : string; run_version : string }.

Inductive RoundKind := Conditioning | Measured.

Record RoundPlan := {
  rp_repetition : Z;
  rp_kind : RoundKind;
  rp_catalogs : list CatalogRun;
}.

Record ContentionPlan := { parameters : ContentionParameters; rounds : list RoundPlan }.

Record ContentionFixture := { fx_id : string; fx_namespace : string; fx_table : string }.

#[export] Instance CatalogRun_eq_dec : EqDecision CatalogRun.
Proof. solve_decision. Defined.
#[export] Instance RoundKind_eq_dec : EqDecision RoundKind.
Proof. solve_decision. Defined.
#[export] Instance RoundPlan_eq_dec : EqDecision RoundPlan.
Proof. solve_decision. Defined.
#[export] Instance ContentionFixture_eq_dec : EqDecision ContentionFixture.
Proof. solve_decision. Defined.

Class ParametersDecoder :=
  from_value_parameters : gmap string Value -> result ContentionParameters string.
Class CanonicalScenario := CANONICAL_SCENARIO : string.

(** ** Validation *)

Definition validate_scenario_shape (scenario : Scenario) : result unit PolicyError :=
  guard negb (scen_id scenario =? CONTENTION_SCENARIO_ID)
    or "contention runner requires scenario `" +:+ CONTENTION_SCENARIO_ID +:+ "`, found `"
       +:+ scen_id scenario +:+ "`" in
  guard negb (scen_version scenario =? CONTENTION_SCENARIO_VERSION)%Z
    or "contention runner supports scenario version " +:+ display CONTENTION_SCENARIO_VERSION
       +:+ ", found " +:+ display (scen_version scenario) in
  guard negb (bool_decide (scen_family scenario = Concurrency))
    or "contention scenario family must be `concurrency`" in
  guard existsb (fun requirement => negb (bool_decide (req_level requirement = Required)))
      (scen_capabilities scenario)
    or "every contention capability must be required" in
  guard existsb (fun assertion => negb (spec_required assertion)) (scen_assertions scenario)
    or "every contention assertion must be required" in
  Ok tt.

Definition snake_byte (byte : ascii) : bool :=
  is_ascii_lowercase byte || is_ascii_digit byte || is_byte 95 byte.

Definition valid_environment_variable (value : string) : bool :=
  match value with
  | EmptyString => false
  | String byte bytes =>
      (is_ascii_uppercase byte || is_byte 95 byte)
      && all_bytes (fun byte => is_ascii_uppercase byte || is_ascii_digit byte || is_byte 95 byte)
           bytes
  end.

Definition validate_fixture_id (id : string) (maximum_bytes : Z) : result unit PolicyError :=
  guard is_empty id || (maximum_bytes <? str_len id)%Z
    or "fixture id must contain 1 to " +:+ display maximum_bytes +:+ " bytes" in
  guard negb (all_bytes snake_byte id)
    or "fixture id must contain only lowercase ASCII letters, digits, and underscores" in
  Ok tt.

Section Contracts.
Context `{UrlParser, ContractDecoders, ParametersDecoder, CanonicalScenario}.

Definition validate_canonical_scenario (scenario : Scenario) : result unit PolicyError :=
  match parse_contract CANONICAL_SCENARIO with
  | Err error => Err ("compiled contention scenario is invalid: " +:+ display_parse_error error)
  | Ok (ScenarioDocument canonical) =>
      guard negb (scenario_eqb scenario canonical)
        or "contention scenario drifted from the implemented canonical v2 policy" in
      Ok tt
  | Ok _ => Err "compiled contention scenario is not a scenario document"
  end.

Definition decode_parameters (scenario : Scenario) : result ContentionParameters PolicyError :=
  map_err (fun error => "invalid contention scenario parameters: " +:+ error)
    (from_value_parameters (scen_parameters scenario)).

Definition validate_object_store (object_store : ObjectStorePolicy) : result unit PolicyError :=
  let? endpoint := map_err (fun error => "invalid object-store endpoint: " +:+ error)
                     (url_parse (os_endpoint object_store)) in
  guard is_none (url_host_str endpoint)
        || negb (is_empty (url_username endpoint))
        || negb (is_none (url_password endpoint))
        || negb (is_none (url_query endpoint))
        || negb (is_none (url_fragment endpoint))
        || negb ((url_scheme endpoint =? "http") || (url_scheme endpoint =? "https"))
    or "object-store endpoint must be a credential-free absolute HTTP(S) URL" in
  guard negb (Bool.eqb (url_scheme endpoint =? "http") (os_allow_http object_store))
    or "object-store allow_http must match the endpoint scheme" in
  guard blank (os_bucket object_store) || blank (os_region object_store)
    or "object-store bucket and region must not be empty" in
  guard negb (os_path_style_access object_store)
    or "the shared MinIO workload requires path-style access" in
  guard negb (valid_environment_variable (os_access_key_env object_store))
    or "invalid object-store credential environment variable `"
       +:+ os_access_key_env object_store +:+ "`" in
  guard negb (valid_environment_variable (os_secret_key_env object_store))
    or "invalid object-store credential environment variable `"
       +:+ os_secret_key_env object_store +:+ "`" in
  guard (os_access_key_env object_store =? os_secret_key_env object_store)
    or "object-store access-key and secret-key environment variables must differ" in
  Ok tt.

Definition validate_parameters (parameters : ContentionParameters) : result unit PolicyError :=
  guard negb (transcript_format parameters =? CONTENTION_TRANSCRIPT_FORMAT)
    or "unsupported transcript format `" +:+ transcript_format parameters +:+ "`" in
  guard is_empty (fixture_prefix parameters)
        || negb (all_bytes snake_byte (fixture_prefix parameters))
    or "fixture prefix must contain lowercase ASCII letters, digits, or underscores" in
  let rounds := round_policy parameters in
  guard (conditioning_rounds rounds =? 0)%Z || (measured_rounds rounds =? 0)%Z
    or "round policy requires conditioning and measured rounds" in
  check? ok_or (checked_add u32_max (conditioning_rounds rounds) (measured_rounds rounds))
    "round count overflows u32" in
  guard negb (require_every_round_to_pass rounds)
    or "strict contention ranking requires every round to pass" in
  let retention := metadata_retention parameters in
  guard negb (Bool.eqb (delete_after_commit retention) CONTENTION_METADATA_DELETE_AFTER_COMMIT)
        || negb (previous_versions_max retention =? CONTENTION_METADATA_PREVIOUS_VERSIONS_MAX)%Z
    or "contention metadata retention must set delete-after-commit=false and previous-versions-max="
       +:+ display CONTENTION_METADATA_PREVIOUS_VERSIONS_MAX in
  let workload := workload parameters in
  guard (warmup_commits workload =? 0)%Z || (sequential_commits workload =? 0)%Z
        || (concurrent_writers workload =? 0)%Z || (concurrent_duration_ms workload =? 0)%Z
    or "warmup, sequential, writer, and concurrent duration values must be positive" in
  guard blank (commit_property workload) or "commit property must not be empty" in
  check? validate_object_store (object_store parameters) in
  let limits := limits parameters in
  guard (request_timeout_ms limits =? 0)%Z || (maximum_response_bytes limits =? 0)%Z
        || (maximum_fixture_id_bytes limits =? 0)%Z
    or "contention limits must be positive" in
  check? ok_or (try_from usize_max (maximum_response_bytes limits))
    "maximum response size does not fit this runner" in
  Ok tt.
End Contracts.

(** ** The profile *)

(** [settings.get(key).and_then(f) != Some(expected)]. *)
Definition setting_is {A} `{EqDecision A} (settings : gmap string Value) (key : string)
    (f : Value -> option A) (expected : A) : bool :=
  bool_decide (settings !! key ≫= f = Some expected).

Definition requirement_check (vocabulary : gset CapabilityId) (adapter : CatalogAdapter)
    (requirement : CapabilityRequirement) : result unit PolicyError :=
  guard negb (bool_decide (req_capability requirement ∈ vocabulary))
    or "profile vocabulary omits required capability `" +:+ req_capability requirement +:+ "`" in
  guard negb (exercises (ad_capabilities adapter) (req_capability requirement))
    or "catalog `" +:+ ad_catalog adapter +:+ "` does not exercise required capability `"
       +:+ req_capability requirement +:+ "`" in
  Ok tt.

Definition protocol_native (h : AdapterRequestHandling) : bool :=
  match h with ProtocolNative => true | _ => false end.

(** One iteration of the adapter loop of [validate_profile]. *)
Definition catalog_run (vocabulary : gset CapabilityId) (components : gmap ComponentId Component)
    (requirements : list CapabilityRequirement) (adapter : CatalogAdapter)
  : result CatalogRun PolicyError :=
  guard match ad_protocol adapter with IcebergRestV1 => false end
    or "catalog `" +:+ ad_catalog adapter +:+ "` does not use Iceberg REST v1" in
  guard negb (protocol_native (ad_request_handling adapter))
    or "catalog `" +:+ ad_catalog adapter +:+ "` uses a behavior-changing shim" in
  check? try_fold (fun _ => requirement_check vocabulary adapter) tt requirements in
  let? component := ok_or (components !! ad_catalog adapter)
    ("profile omits component for catalog `" +:+ ad_catalog adapter +:+ "`") in
  guard negb (bool_decide (comp_kind component = Catalog))
    or "component `" +:+ ad_catalog adapter +:+ "` is not classified as a catalog" in
  Ok {| run_catalog := ad_catalog adapter;
        run_name := comp_name component;
        run_version := comp_version component |}.

(** [components.iter().map(|c| (&c.id, c)).collect::<BTreeMap>()]: a later
    component replaces an earlier one with its identifier. *)
Definition component_map (components : list Component) : gmap ComponentId Component :=
  foldl (fun m component => <[comp_id component := component]> m) ∅ components.

Definition validate_profile (profile : Profile) (scenario : Scenario)
    (parameters : ContentionParameters) : result (list CatalogRun) PolicyError :=
  let platform := prof_platform profile in
  let store_policy := object_store parameters in
  guard negb (bool_decide (plat_mode platform = DockerCompose))
    or "contention profile must execute through Docker Compose" in
  guard negb (plat_shared_object_store platform =? os_component store_policy)
    or "scenario object store does not match the profile shared object store" in
  guard negb (plat_warehouse_uri platform =? "s3://" +:+ os_bucket store_policy)
    or "scenario object-store bucket does not match the profile warehouse URI" in
  let? runner := ok_or (find (fun c => comp_id c =? RUNNER_COMPONENT_ID) (prof_components profile))
    "profile omits the contention runner component" in
  guard negb (bool_decide (comp_kind runner = BenchmarkHarness))
    or "contention runner component is not a benchmark harness" in
  let? store := ok_or (find (fun c => comp_id c =? os_component store_policy)
                         (prof_components profile))
    "profile omits the shared object-store component" in
  guard negb (bool_decide (comp_kind store = ObjectStore))
    or "profile shared object-store component has the wrong kind" in
  let? service := ok_or (find (fun s => svc_component s =? os_component store_policy)
                           (prof_services profile))
    "profile omits the shared object-store service" in
  guard negb (bool_decide (svc_endpoint service = Some (os_endpoint store_policy)))
        || negb (setting_is (svc_settings service) "bucket" as_str (os_bucket store_policy))
        || negb (setting_is (svc_settings service) "region" as_str (os_region store_policy))
        || negb (setting_is (svc_settings service) "path_style_access" as_bool
                   (os_path_style_access store_policy))
    or "profile object-store service does not match the contention policy" in
  let vocabulary : gset CapabilityId :=
    list_to_set (cap_id <$> prof_catalog_capabilities profile) in
  let components := component_map (prof_components profile) in
  guard is_nil (prof_catalog_adapters profile) or "profile has no catalog adapters" in
  let? catalogs := collect_results (catalog_run vocabulary components (scen_capabilities scenario))
                     (prof_catalog_adapters profile) in
  guard negb (measured_rounds (round_policy parameters) =? len catalogs)%Z
    or "balanced rotate-left ranking requires one measured round per catalog ("
       +:+ display (len catalogs) +:+ " catalogs, "
       +:+ display (measured_rounds (round_policy parameters)) +:+ " measured rounds)" in
  Ok catalogs.

(** ** The schedule *)

Definition rotate_left {A} (offset : nat) (l : list A) : list A :=
  (drop offset l ++ take offset l)%list.

Definition plan_round (catalogs : list CatalogRun) (policy : RoundPolicy) (index : Z) : RoundPlan :=
  let offset := Z.to_nat (index mod len catalogs) in
  {| rp_repetition := index + 1;
     rp_kind := if (index <? conditioning_rounds policy)%Z then Conditioning else Measured;
     rp_catalogs := rotate_left offset catalogs |}.

Definition schedule_rounds (catalogs : list CatalogRun) (policy : RoundPolicy)
  : result (list RoundPlan) PolicyError :=
  guard is_nil catalogs or "cannot schedule an empty catalog set" in
  let? total := ok_or (checked_add u32_max (conditioning_rounds policy) (measured_rounds policy))
    "round count overflows u32" in
  Ok (plan_round catalogs policy <$> seqZ 0 total).

(** ** The plan *)

Definition from_contracts `{UrlParser, ContractDecoders, ParametersDecoder, CanonicalScenario}
    (profile : Profile) (scenario : Scenario) : result ContentionPlan PolicyError :=
  check? validate_scenario_shape scenario in
  let? parameters := decode_parameters scenario in
  check? validate_parameters parameters in
  check? validate_canonical_scenario scenario in
  let? catalogs := validate_profile profile scenario parameters in
  let? rounds := schedule_rounds catalogs (round_policy parameters) in
  Ok {| parameters := parameters; rounds := rounds |}.

(** [catalog.as_str().replace('-', "_")]. *)
Definition catalog_stem (catalog : ComponentId) : string := replace_byte 45 "_"%char catalog.

Definition scheduled (self : ContentionPlan) (catalog : ComponentId) (repetition : Z) : bool :=
  existsb (fun round => (rp_repetition round =? repetition)%Z
                        && existsb (fun entry => run_catalog entry =? catalog) (rp_catalogs round))
    (rounds self).

Definition fixture (self : ContentionPlan) (catalog : ComponentId) (fixture_id : string)
    (repetition : Z) : result ContentionFixture PolicyError :=
  check? validate_fixture_id fixture_id (maximum_fixture_id_bytes (limits (parameters self))) in
  guard (repetition =? 0)%Z || negb (scheduled self catalog repetition)
    or "catalog `" +:+ catalog +:+ "` is not scheduled in repetition " +:+ display repetition in
  guard negb (all_bytes snake_byte (catalog_stem catalog))
    or "catalog identifier `" +:+ catalog +:+ "` is unsafe for an isolated fixture" in
  Ok {| fx_id := fixture_id;
        fx_namespace := fixture_prefix (parameters self) +:+ "_" +:+ catalog_stem catalog +:+ "_"
                        +:+ fixture_id +:+ "_r" +:+ display02 repetition;
        fx_table := "same_table_contention" |}.

(** ** Lemmas *)

Lemma rotate_left_perm {A} offset (l : list A) : rotate_left offset l ≡ₚ l.
Proof. unfold rotate_left. rewrite Permutation_app_comm. by rewrite take_drop. Qed.

Lemma rotate_left_lookup {A} (o : Z) (l : list A) (p : nat) :
  (0 <= o < len l)%Z -> (p < length l)%nat ->
  rotate_left (Z.to_nat o) l !! p = l !! Z.to_nat ((o + Z.of_nat p) mod len l).
Proof.
  intros Ho Hp. unfold rotate_left, len in *.
  destruct (decide (p < length l - Z.to_nat o)%nat) as [Hlt|Hge].
  - rewrite lookup_app_l, lookup_drop by (rewrite length_drop; lia).
    rewrite Z.mod_small by lia. f_equal. lia.
  - rewrite lookup_app_r by (rewrite length_drop; lia).
    rewrite length_drop, lookup_take_lt by lia. f_equal.
    replace (o + Z.of_nat p)%Z with (o + Z.of_nat p - Z.of_nat (length l) + 1 * Z.of_nat (length l))%Z by lia.
    rewrite Z.mod_add by lia. rewrite Z.mod_small by lia. lia.
Qed.

(** Exactly one of [n] consecutive rounds brings catalog [j] to position [p]. *)
Lemma rotation_unique (n c p j : Z) :
  (0 < n)%Z -> (0 <= j < n)%Z ->
  exists! i : Z, (c <= i < c + n)%Z /\ ((i mod n + p) mod n = j)%Z.
Proof.
  intros Hn Hj. exists (c + (j - p - c) mod n)%Z. split.
  - pose proof (Z.mod_pos_bound (j - p - c) n Hn). split; [lia|].
    rewrite Z.add_mod_idemp_l, <-Z.add_assoc, (Z.add_comm _ p), Z.add_assoc by lia.
    rewrite Z.add_mod_idemp_r by lia. replace (c + p + (j - p - c))%Z with j by lia.
    by apply Z.mod_small.
  - intros i [Hi Heq]. rewrite Z.add_mod_idemp_l in Heq by lia.
    rewrite <-Heq. assert (Hmod : ((((i + p) mod n) - p - c) mod n = i - c)%Z).
    { rewrite <-Z.sub_add_distr, Zminus_mod_idemp_l.
      replace (i + p - (p + c))%Z with (i - c)%Z by lia. apply Z.mod_small. lia. }
    rewrite Hmod. lia.
Qed.

Lemma schedule_rounds_Ok catalogs policy rounds :
  schedule_rounds catalogs policy = Ok rounds <->
  catalogs <> [] /\ (conditioning_rounds policy + measured_rounds policy <= u32_max)%Z /\
  rounds = plan_round catalogs policy <$>
             seqZ 0 (conditioning_rounds policy + measured_rounds policy).
Proof.
  unfold schedule_rounds. destruct catalogs as [|c l]; simpl; [naive_solver|].
  destruct (checked_add _ _ _) as [total|] eqn:Hc; simpl.
  - apply checked_add_Some in Hc as [-> ?]. naive_solver.
  - apply checked_add_None in Hc. naive_solver lia.
Qed.

Lemma catalog_run_Ok vocabulary components requirements adapter run :
  catalog_run vocabulary components requirements adapter = Ok run ->
  run_catalog run = ad_catalog adapter /\ ad_request_handling adapter = ProtocolNative /\
  (forall r, r ∈ requirements -> req_capability r ∈ vocabulary /\
     exercises (ad_capabilities adapter) (req_capability r) = true) /\
  exists component, components !! ad_catalog adapter = Some component /\
    comp_kind component = Catalog /\ run_name run = comp_name component /\
    run_version run = comp_version component.
Proof.
  unfold catalog_run. destruct (ad_protocol adapter); simpl.
  destruct (ad_request_handling adapter) eqn:Hh; simpl; try done.
  destruct (try_fold _ _ _) as [[]|] eqn:Hreq; [|done].
  destruct (components !! ad_catalog adapter) as [component|] eqn:Hc; simpl; [|done].
  case_bool_decide as Hk; simpl; [|done]. intros [= <-]. simpl.
  split; [done|]. split; [done|]. split; [|by exists component].
  clear -Hreq. induction requirements as [|r rs IH]; [by intros r ?%elem_of_nil|].
  simpl in Hreq. destruct (requirement_check vocabulary adapter r) as [[]|] eqn:Hr; [|done].
  intros r' [->|Hr']%elem_of_cons; [|by apply IH].
  unfold requirement_check in Hr. case_bool_decide; simpl in Hr; [|done].
  by destruct (exercises _ _).
Qed.

(** [validate_profile] yields the adapters of the profile, in order. *)
Lemma validate_profile_Ok profile scenario params catalogs :
  validate_profile profile scenario params = Ok catalogs ->
  measured_rounds (round_policy params) = len catalogs /\
  Forall2 (fun adapter run =>
    catalog_run (list_to_set (cap_id <$> prof_catalog_capabilities profile))
      (component_map (prof_components profile)) (scen_capabilities scenario) adapter = Ok run)
    (prof_catalog_adapters profile) catalogs.
Proof.
  unfold validate_profile. intros Hv.
  repeat match type of Hv with (if ?b then _ else _) = _ => destruct b; [done|] end.
  destruct (find _ _) as [runner|]; simpl in Hv; [|done].
  destruct (negb _); [done|].
  destruct (find (fun c => comp_id c =? os_component (object_store params)) _); simpl in Hv; [|done].
  destruct (negb _); [done|].
  destruct (find (fun s => svc_component s =? os_component (object_store params)) _); simpl in Hv; [|done].
  destruct (_ || _); [done|]. destruct (is_nil _); [done|].
  destruct (collect_results _ _) as [runs|] eqn:Hc; [|done].
  destruct (Z.eqb_spec (measured_rounds (round_policy params)) (len runs)); simpl in Hv; [|done].
  injection Hv as <-. split; [done|]. by apply collect_results_Ok.
Qed.

Lemma from_contracts_Ok `{UrlParser, ContractDecoders, ParametersDecoder, CanonicalScenario}
    profile scenario plan :
  from_contracts profile scenario = Ok plan ->
  validate_scenario_shape scenario = Ok tt /\
  validate_parameters (parameters plan) = Ok tt /\
  exists catalogs, validate_profile profile scenario (parameters plan) = Ok catalogs /\
    schedule_rounds catalogs (round_policy (parameters plan)) = Ok (rounds plan).
Proof.
  unfold from_contracts. intros Hp.
  destruct (validate_scenario_shape scenario) as [[]|]; [|done].
  destruct (decode_parameters scenario) as [params|]; [|done].
  destruct (validate_parameters params) as [[]|] eqn:Hv; [|done].
  destruct (validate_canonical_scenario scenario) as [[]|]; [|done].
  destruct (validate_profile profile scenario params) as [catalogs|] eqn:Hc; [|done].
  destruct (schedule_rounds _ _) as [rs|] eqn:Hr; [|done].
  injection Hp as <-. simpl. split; [done|]. split; [done|]. by exists catalogs.
Qed.

Lemma plan_catalogs_len catalogs policy index :
  length (rp_catalogs (plan_round catalogs policy index)) = length catalogs.
Proof. simpl. by rewrite rotate_left_perm. Qed.

(** The names a fixture is built from hold only lowercase letters, digits and
    underscores, so the last ["_r"] starts the repetition. *)
Lemma display02_digits n : (0 <= n)%Z -> all_bytes is_ascii_digit (display02 n) = true.
Proof.
  intros Hn. unfold display02. destruct (n <? 10)%Z; [|by apply display_digits].
  pose proof (display_digits n Hn) as Hd. unfold all_bytes in *. rewrite bytes_app, forallb_app, Hd. done.
Qed.

Definition namespace (prefix : string) (catalog : ComponentId) (id : string) (repetition : Z) : string :=
  prefix +:+ "_" +:+ catalog_stem catalog +:+ "_" +:+ id +:+ "_r" +:+ display02 repetition.

Lemma fixture_Ok plan c id r f :
  fixture plan c id r = Ok f ->
  all_bytes snake_byte id = true /\ all_bytes snake_byte (catalog_stem c) = true /\
  f = {| fx_id := id; fx_namespace := namespace (fixture_prefix (parameters plan)) c id r;
         fx_table := "same_table_contention" |}.
Proof.
  unfold fixture, validate_fixture_id.
  destruct (is_empty id || _); [done|]. destruct (all_bytes snake_byte id); [|done]. simpl.
  destruct (_ || _); [done|]. destruct (all_bytes snake_byte (catalog_stem c)); [|done].
  intros [= <-]. done.
Qed.

Lemma namespace_snake prefix c id r :
  all_bytes snake_byte prefix = true -> all_bytes snake_byte (catalog_stem c) = true ->
  all_bytes snake_byte id = true -> (0 <= r)%Z -> all_bytes snake_byte (namespace prefix c id r) = true.
Proof.
  intros Hp Hc Hi Hr. unfold namespace. rewrite !all_bytes_app, Hp, Hc, Hi. simpl.
  apply (all_bytes_impl is_ascii_digit); [|by apply display02_digits].
  intros a Ha. unfold snake_byte. rewrite Ha. by rewrite orb_true_r.
Qed.

Lemma namespace_inj prefix c c' id r r' :
  (0 <= r)%Z -> (0 <= r')%Z -> namespace prefix c id r = namespace prefix c' id r' ->
  catalog_stem c = catalog_stem c' /\ r = r'.
Proof.
  unfold namespace. intros Hr Hr' Heq. apply append_cancel_l, append_cancel_l in Heq.
  change ("_r" +:+ display02 r) with ("_" +:+ String "r" (display02 r)) in Heq.
  change ("_r" +:+ display02 r') with ("_" +:+ String "r" (display02 r')) in Heq.
  rewrite !append_assoc in Heq. apply separator_inj in Heq as [Hs Hd].
  - split; [|by apply display02_inj]. by do 3 apply append_cancel_r in Hs.
  - apply digits_not_byte; [by apply display02_digits|]. right. reflexivity.
  - apply digits_not_byte; [by apply display02_digits|]. right. reflexivity.
Qed.

(** Replacing hyphens by underscores loses nothing on names without
    underscores. *)
Lemma catalog_stem_inj c c' :
  contains_byte 95 c = false -> contains_byte 95 c' = false ->
  catalog_stem c = catalog_stem c' -> c = c'.
Proof.
  unfold catalog_stem, replace_byte, contains_byte. revert c'.
  induction c as [|a c IH]; intros [|b c'] Hc Hc' Heq; try done. simpl in *.
  apply orb_false_iff in Hc as [Ha Hc], Hc' as [Hb Hc']. injection Heq as Hab Heq.
  f_equal; [|by apply IH]. destruct (is_byte 45 a) eqn:Ea, (is_byte 45 b) eqn:Eb.
  - unfold is_byte, code in *. brust in Ea. brust in Eb.
    rewrite <-(ascii_N_embedding a), <-(ascii_N_embedding b). f_equal. lia.
  - subst b. done.
  - subst a. done.
  - done.
Qed.

(** ** Properties *)

(** The schedule has exactly one round per conditioning and per
    measured repetition, numbered from 1, the conditioning rounds first, and
    every round visits every catalog exactly once. *)
Theorem schedule_visits_every_catalog (catalogs : list CatalogRun) (policy : RoundPolicy)
    (rounds : list RoundPlan) (i : nat) (round : RoundPlan) :
  schedule_rounds catalogs policy = Ok rounds ->
  (0 <= conditioning_rounds policy)%Z -> (0 <= measured_rounds policy)%Z ->
  rounds !! i = Some round ->
  len rounds = (conditioning_rounds policy + measured_rounds policy)%Z /\
  rp_repetition round = (Z.of_nat i + 1)%Z /\
  (rp_kind round = Conditioning <-> (Z.of_nat i < conditioning_rounds policy)%Z) /\
  rp_catalogs round ≡ₚ catalogs.
Proof.
  intros (Hne & Hmax & ->)%schedule_rounds_Ok Hc Hm Hi.
  apply list_lookup_fmap_Some in Hi as (z & -> & [-> Hz]%lookup_seqZ).
  rewrite Z.add_0_l. unfold len. rewrite length_fmap, length_seqZ. split; [lia|].
  split; [done|]. split; [|apply rotate_left_perm]. cbn [rp_kind plan_round].
  destruct (Z.ltb_spec (Z.of_nat i) (conditioning_rounds policy)); split; intros; done || lia.
Qed.

(** When there is one measured round per catalog, which is
    the only policy a profile is accepted with, the measured rounds are
    balanced: every catalog runs at every position of the order in exactly one
    measured round. *)
Theorem measured_rounds_balanced (catalogs : list CatalogRun) (policy : RoundPolicy)
    (rounds : list RoundPlan) (p : nat) (c : CatalogRun) :
  schedule_rounds catalogs policy = Ok rounds ->
  (0 <= conditioning_rounds policy)%Z -> measured_rounds policy = len catalogs ->
  NoDup catalogs -> c ∈ catalogs -> (p < length catalogs)%nat ->
  exists! round, round ∈ rounds /\ rp_kind round = Measured /\ rp_catalogs round !! p = Some c.
Proof.
  intros (Hne & Hmax & ->)%schedule_rounds_Ok Hc0 Hm Hnd [j Hj]%list_elem_of_lookup Hp.
  pose proof (lookup_lt_Some _ _ _ Hj) as Hjlt. set (n := len catalogs) in *.
  assert (Hn : (0 < n)%Z) by (unfold n, len; lia).
  assert (Hat : forall i, (0 <= i)%Z -> rp_catalogs (plan_round catalogs policy i) !! p = Some c <->
    ((i mod n + Z.of_nat p) mod n = Z.of_nat j)%Z).
  { intros i Hi. cbn [rp_catalogs plan_round]. pose proof (Z.mod_pos_bound i n Hn).
    rewrite rotate_left_lookup by (fold n; done). fold n.
    pose proof (Z.mod_pos_bound (i mod n + Z.of_nat p) n Hn). split.
    - intros Hi'. pose proof (NoDup_lookup _ _ _ _ Hnd Hi' Hj). lia.
    - intros ->. by rewrite Nat2Z.id. }
  destruct (rotation_unique n (conditioning_rounds policy) (Z.of_nat p) (Z.of_nat j) Hn)
    as (i & [Hi Heq] & Huniq); [unfold n, len; lia|].
  exists (plan_round catalogs policy i). split.
  - split; [|split].
    + apply list_elem_of_fmap. exists i. split; [done|]. apply elem_of_seqZ. lia.
    + cbn [rp_kind plan_round]. destruct (Z.ltb_spec i (conditioning_rounds policy)); [lia|done].
    + apply Hat; [lia|done].
  - intros r ((i' & -> & Hi'%elem_of_seqZ)%list_elem_of_fmap & Hk & Hr). f_equal.
    apply Hat in Hr; [|lia]. cbn [rp_kind plan_round] in Hk.
    destruct (Z.ltb_spec i' (conditioning_rounds policy)); [done|]. apply Huniq. split; [lia|done].
Qed.

(** A plan is only built from a contract that is the strict contention
    scenario and a profile all of whose catalog adapters speak Iceberg REST
    natively and exercise every capability of the scenario; every round then
    runs exactly the adapters of the profile, and there is one measured round
    per adapter. *)
Theorem plan_runs_capable_adapters
    `{UrlParser, ContractDecoders, ParametersDecoder, CanonicalScenario}
    (profile : Profile) (scenario : Scenario) (plan : ContentionPlan) :
  from_contracts profile scenario = Ok plan ->
  scen_id scenario = CONTENTION_SCENARIO_ID /\ scen_version scenario = CONTENTION_SCENARIO_VERSION /\
  (forall r, r ∈ scen_capabilities scenario -> req_level r = Required) /\
  (forall a, a ∈ scen_assertions scenario -> spec_required a = true) /\
  prof_catalog_adapters profile <> [] /\
  measured_rounds (round_policy (parameters plan)) = len (prof_catalog_adapters profile) /\
  (forall adapter, adapter ∈ prof_catalog_adapters profile ->
     ad_request_handling adapter = ProtocolNative /\
     forall r, r ∈ scen_capabilities scenario ->
       exercises (ad_capabilities adapter) (req_capability r) = true) /\
  forall round, round ∈ rounds plan ->
    run_catalog <$> rp_catalogs round ≡ₚ ad_catalog <$> prof_catalog_adapters profile.
Proof.
  intros (Hshape & _ & catalogs & [Hlen HF]%validate_profile_Ok &
    (Hne & _ & Hrounds)%schedule_rounds_Ok)%from_contracts_Ok.
  unfold validate_scenario_shape in Hshape.
  destruct (String.eqb_spec (scen_id scenario) CONTENTION_SCENARIO_ID) as [Hid|]; [|done].
  destruct (Z.eqb_spec (scen_version scenario) CONTENTION_SCENARIO_VERSION) as [Hver|]; [|done].
  case_bool_decide; [|done]. simpl in Hshape.
  destruct (existsb _ (scen_capabilities scenario)) eqn:Hcap; [done|].
  destruct (existsb _ (scen_assertions scenario)) eqn:Hass; [done|].
  split; [done|]. split; [done|].
  split; [|split; [|split; [|split; [|split]]]].
  - intros r Hr%list_elem_of_In. apply not_true_iff_false in Hcap.
    destruct (decide (req_level r = Required)) as [|Hn]; [done|]. exfalso. apply Hcap.
    apply existsb_exists. exists r. split; [done|]. by case_bool_decide.
  - intros a Ha%list_elem_of_In. apply not_true_iff_false in Hass.
    destruct (spec_required a) eqn:Hs; [done|]. exfalso. apply Hass.
    apply existsb_exists. exists a. by rewrite Hs.
  - intros Hnil. rewrite Hnil in HF. by inversion HF; subst.
  - rewrite Hlen. unfold len. by rewrite (Forall2_length _ _ _ HF).
  - intros adapter [i Hi]%list_elem_of_lookup.
    destruct (Forall2_lookup_l _ _ _ _ _ HF Hi) as (run & _ & Hrun).
    apply catalog_run_Ok in Hrun as (_ & Hnative & Hcaps & _). split; [done|].
    intros r Hr. by apply Hcaps.
  - intros round Hr. rewrite Hrounds in Hr. apply list_elem_of_fmap in Hr as (i & -> & _).
    simpl. rewrite rotate_left_perm.
    enough (run_catalog <$> catalogs = ad_catalog <$> prof_catalog_adapters profile) as -> by done.
    clear -HF. induction HF as [|a r l k Hr _ IH]; [done|]. simpl. f_equal; [|exact IH].
    by apply catalog_run_Ok in Hr as [-> _].
Qed.

(** Within one run every fixture namespace is a plain
    snake-case name, and two fixtures share a namespace only when they belong
    to the same repetition and to catalogs whose identifiers agree up to the
    replacement of hyphens; for catalogs named without underscores that is the
    same catalog. *)
Theorem fixtures_isolated (plan : ContentionPlan) (c c' : ComponentId) (id : string) (r r' : Z)
    (f f' : ContentionFixture) :
  fixture plan c id r = Ok f -> fixture plan c' id r' = Ok f' ->
  all_bytes snake_byte (fixture_prefix (parameters plan)) = true -> (0 <= r)%Z -> (0 <= r')%Z ->
  all_bytes snake_byte (fx_namespace f) = true /\
  (fx_namespace f = fx_namespace f' -> r = r' /\ catalog_stem c = catalog_stem c' /\
     (contains_byte 95 c = false -> contains_byte 95 c' = false -> c = c')).
Proof.
  intros Hf Hf' Hprefix Hr Hr'.
  apply fixture_Ok in Hf as (Hid & Hstem & ->). apply fixture_Ok in Hf' as (_ & Hstem' & ->).
  cbn [fx_namespace]. split; [by apply namespace_snake|].
  intros (Hs & ->)%namespace_inj; [|done..]. split; [done|]. split; [done|].
  intros Hc Hc'. by apply catalog_stem_inj.
Qed.
