(* ===== verification/Transport.v ===== *)
(** * The catalog session (crates/conformance/src/{runtime,transport,iceberg}.rs)

    [CatalogSession] sends one JSON request over the profile's routes, reads the
    response under a byte limit and turns every failure into a redacted, bounded
    description. The HTTP client (reqwest) and the URL crate's path operations
    are third-party code: the classes [HttpClient] and [UrlOps]. *)

From S2P Require Import Prelude RustStr Json ContractAdapter.
From Stdlib Require Import Ascii.
Open Scope string_scope.

(** ** The HTTP client *)

Inductive Method := GET | POST | DELETE | HEAD.

Record HttpRequest := {
  hr_method : Method;
  hr_url : Url;
  hr_accept : string;
  hr_bearer_token : option string;
  hr_idempotency_key : option string;
  hr_body : option Value;
  hr_form : option string;
}.

(** A response: its status, its headers by lower-case name ([None] for a value
    that is not visible ASCII), the declared length and the chunks [chunk()]
    will yield, the last of which may be a read error. *)
Record HttpResponse := {
  resp_status : Z;
  resp_headers : list (string * option string);
  resp_content_length : option Z;
  resp_chunks : list (result (list ascii) string);
}.

Record SendError := { send_is_timeout : bool; send_text : string }.

(** [RequestBuilder::send], on the world [W] behind the network. *)
Class HttpClient (W : Type) := http_send : HttpRequest -> W -> result HttpResponse SendError * W.

(** ** Redaction *)

Definition REDACTED : string := "<redacted>".
Definition MAXIMUM_FAILURE_DETAIL_CHARACTERS : nat := 512.

Definition redact_text (text : string) (sensitive_values : list string) : string :=
  foldl (fun redacted value => replace value REDACTED redacted) text
    (List.filter (fun value => 4 <=? str_len value)%Z sensitive_values).

Definition bounded_detail (detail : string) : string :=
  let bounded := take_chars MAXIMUM_FAILURE_DETAIL_CHARACTERS detail in
  if (MAXIMUM_FAILURE_DETAIL_CHARACTERS <? char_count detail)%nat then bounded +:+ "…" else bounded.

(** ** Bounded bodies *)

Inductive CollectedBody :=
| Complete (bytes : list ascii) (observed : Z)
| TooLarge (observed : Z).

(** The loop of [read_bounded_body]. *)
Fixpoint read_chunks (chunks : list (result (list ascii) string)) (limit : Z) (retain : bool)
    (bytes : list ascii) (observed : Z) : result CollectedBody string :=
  match chunks with
  | [] => Ok (Complete bytes observed)
  | Err error :: _ => Err error
  | Ok chunk :: rest =>
      let observed := Z.min usize_max (observed + len chunk) in
      if (limit <? observed)%Z then Ok (TooLarge observed)
      else read_chunks rest limit retain (if retain then (bytes ++ chunk)%list else bytes) observed
  end.

Definition read_bounded_body (response : HttpResponse) (limit : Z) (retain : bool)
  : result CollectedBody string :=
  match resp_content_length response with
  | Some length =>
      if (limit <? length)%Z then Ok (TooLarge (default usize_max (try_from usize_max length)))
      else read_chunks (resp_chunks response) limit retain [] 0
  | None => read_chunks (resp_chunks response) limit retain [] 0
  end.

Definition read_limited_body (response : HttpResponse) (limit : Z) := read_bounded_body response limit true.
Definition drain_limited_body (response : HttpResponse) (limit : Z) := read_bounded_body response limit false.

(** ** Responses and failures *)

Inductive ResponseCapture := CaptureJson | Discard.

Record CatalogResponse := {
  cr_status : Z;
  cr_body_bytes : Z;
  cr_body : option (list ascii);
}.

Module CatalogRequestFailureKind.
Inductive t := Timeout | Transport | ResponseRead | ResponseTooLarge | BodyNotRetained | MalformedJson.
End CatalogRequestFailureKind.

Record CatalogRequestFailure := {
  rf_kind : CatalogRequestFailureKind.t;
  rf_http_status : option Z;
  rf_detail : string;
}.

(** [CatalogResponse::json], for the decoder [decode] of the expected type. *)
Definition response_json {T} (decode : list ascii -> result T string) (self : CatalogResponse)
  : result T CatalogRequestFailure :=
  match cr_body self with
  | None =>
      Err {| rf_kind := CatalogRequestFailureKind.BodyNotRetained;
             rf_http_status := Some (cr_status self);
             rf_detail := "response body was deliberately discarded" |}
  | Some body =>
      map_err (fun error =>
        {| rf_kind := CatalogRequestFailureKind.MalformedJson;
           rf_http_status := Some (cr_status self);
           rf_detail := bounded_detail ("response was not valid expected JSON: " +:+ error) |})
        (decode body)
  end.

Definition collect_response (response : HttpResponse) (capture : ResponseCapture)
    (maximum_response_bytes : Z) (sensitive_values : list string)
  : result CatalogResponse CatalogRequestFailure :=
  let status := resp_status response in
  let? body := map_err (fun error =>
      {| rf_kind := CatalogRequestFailureKind.ResponseRead;
         rf_http_status := Some status;
         rf_detail := bounded_detail (redact_text ("failed to read bounded response: " +:+ error)
                                        sensitive_values) |})
      (match capture with
       | CaptureJson => read_limited_body response maximum_response_bytes
       | Discard => drain_limited_body response maximum_response_bytes
       end) in
  match body with
  | Complete bytes observed =>
      Ok {| cr_status := status;
            cr_body_bytes := observed;
            cr_body := match capture with CaptureJson => Some bytes | Discard => None end |}
  | TooLarge observed =>
      Err {| rf_kind := CatalogRequestFailureKind.ResponseTooLarge;
             rf_http_status := Some status;
             rf_detail := "response exceeded the " +:+ display maximum_response_bytes
                          +:+ "-byte limit after " +:+ display observed +:+ " bytes" |}
  end.

(** ** Routes *)

(** What the routes use of the [url] crate: appending path segments (an error
    for a URL that cannot be a base), appending a query pair, rendering. *)
Class UrlOps := {
  url_push_segments : Url -> list string -> option Url;
  url_pop_if_empty : Url -> option Url;
  url_append_pair : Url -> string -> string -> Url;
  url_to_string : Url -> string;
  url_cannot_be_a_base : Url -> bool;
}.

(** [NamespaceIdentifier(Vec<String>)]. *)
Record NamespaceIdentifier := { namespace_parts : list string }.

Definition namespace_from_parts (parts : list string) : result NamespaceIdentifier string :=
  guard match parts with [] => true | _ => false end || existsb is_empty parts
    or "namespace identifiers must contain nonempty parts" in
  Ok {| namespace_parts := parts |}.

Definition namespace_single (part : string) : result NamespaceIdentifier string :=
  namespace_from_parts [part].

Record NamespaceCodec := { codec_separator : string }.

Definition codec_join (self : NamespaceCodec) (namespace : NamespaceIdentifier) : string :=
  String.concat (codec_separator self) (namespace_parts namespace).

Record CatalogRoutes := {
  routes_base_url : string;
  routes_prefix : option string;
  routes_codec : NamespaceCodec;
}.

Section Routes.
Context `{UrlParser, UrlOps}.

Definition resource_url (self : CatalogRoutes) (tail : list string) : result Url string :=
  let? url := map_err (fun _ => "invalid adapter base URL `" +:+ routes_base_url self +:+ "`")
                (url_parse (routes_base_url self)) in
  ok_or (url_push_segments url
           ("v1" :: match routes_prefix self with Some prefix => [prefix] | None => [] end ++ tail)%list)
    "adapter base URL cannot carry path segments".

Definition namespace_collection (self : CatalogRoutes) : result Url string :=
  resource_url self ["namespaces"].
Definition namespace_route (self : CatalogRoutes) (namespace : NamespaceIdentifier)
  : result Url string :=
  resource_url self ["namespaces"; codec_join (routes_codec self) namespace].
Definition table_collection (self : CatalogRoutes) (namespace : NamespaceIdentifier)
  : result Url string :=
  resource_url self ["namespaces"; codec_join (routes_codec self) namespace; "tables"].
Definition table_route (self : CatalogRoutes) (namespace : NamespaceIdentifier) (name : string)
  : result Url string :=
  resource_url self ["namespaces"; codec_join (routes_codec self) namespace; "tables"; name].
End Routes.

(** ** Sessions *)

Record CatalogSession := {
  session_bearer_token : option string;
  session_sensitive_values : list string;
  session_routes : CatalogRoutes;
  session_maximum_response_bytes : Z;
}.

(** The request [request_json] builds. *)
Definition session_request (self : CatalogSession) (method : Method) (url : Url) (body : option Value)
  : HttpRequest := {|
  hr_method := method;
  hr_url := url;
  hr_accept := "application/json";
  hr_bearer_token := session_bearer_token self;
  hr_idempotency_key := None;
  hr_body := body;
  hr_form := None;
|}.

Definition request_json {W} `{HttpClient W} (self : CatalogSession) (method : Method) (url : Url)
    (body : option Value) (capture : ResponseCapture) (w : W)
  : result CatalogResponse CatalogRequestFailure * W :=
  let '(sent, w) := http_send (session_request self method url body) w in
  let collected :=
    match sent with
    | Err error =>
        Err {| rf_kind := if send_is_timeout error then CatalogRequestFailureKind.Timeout
                          else CatalogRequestFailureKind.Transport;
               rf_http_status := None;
               rf_detail := bounded_detail (redact_text (send_text error)
                                              (session_sensitive_values self)) |}
    | Ok response =>
        collect_response response capture (session_maximum_response_bytes self)
          (session_sensitive_values self)
    end in
  (collected, w).

(** ** Lemmas *)

Lemma bounded_detail_length s : (char_count (bounded_detail s) <= 513)%nat.
Proof.
  unfold bounded_detail. pose proof (take_chars_bound MAXIMUM_FAILURE_DETAIL_CHARACTERS s) as Hb.
  unfold MAXIMUM_FAILURE_DETAIL_CHARACTERS in *. case_match; [|lia].
  assert (Happ : forall a b, char_count (a +:+ b) = (char_count a + char_count b)%nat).
  { induction a as [|c a IH]; intros b; simpl; [done|]. rewrite IH. lia. }
  rewrite Happ. change (char_count "…") with 1%nat. lia.
Qed.

(** *** What [replace] leaves behind *)

(** Secrets a redaction marker cannot overlap with. *)
Definition redactable (u : string) : Prop :=
  u <> "" /\ contains_byte 60 u = false /\ contains_byte 62 u = false
  /\ contains u "redacted" = false.

Lemma prefix_cons a u b s :
  String.prefix (String a u) (String b s) = true <-> a = b /\ String.prefix u s = true.
Proof. simpl. destruct (ascii_dec a b); naive_solver. Qed.

Lemma prefix_before u t c X :
  contains_byte (code c) u = false -> String.prefix u (t +:+ String c X) = true ->
  String.prefix u t = true.
Proof.
  revert t. induction u as [|a u IH]; intros t Hu Hp; [by destruct t|].
  unfold contains_byte in *. simpl in Hu. apply orb_false_iff in Hu as [Ha Hu].
  destruct t as [|b t].
  - apply prefix_cons in Hp as [-> _]. unfold is_byte in Ha. by rewrite Z.eqb_refl in Ha.
  - apply prefix_cons in Hp as [-> Hp]. apply prefix_cons. split; [done|]. by apply IH.
Qed.

Lemma contains_before u t c X :
  u <> "" -> contains_byte (code c) u = false -> contains u (t +:+ String c X) = true ->
  contains u t = true \/ contains u X = true.
Proof.
  intros Hne Hu. induction t as [|b t IH]; cbn [contains String.app]; intros Hc.
  - apply orb_true_iff in Hc as [Hp|Hc]; [|by right].
    apply (prefix_before u "" c X Hu) in Hp. by destruct u.
  - apply orb_true_iff in Hc as [Hp|Hc].
    + left. apply orb_true_iff. left. by apply (prefix_before u (String b t) c X Hu).
    + destruct (IH Hc) as [Ht|?]; [left; apply orb_true_iff; by right|by right].
Qed.

Lemma marker_contains u X :
  redactable u -> contains u (REDACTED +:+ X) = true -> contains u X = true.
Proof.
  intros (Hne & Hlt & Hgt & Hin) Hc.
  change (REDACTED +:+ X) with ("<redacted" +:+ String ">" X) in Hc.
  apply contains_before in Hc as [Hc|Hc]; [exfalso|done..].
  change (String.prefix u ("" +:+ String "<" "redacted") || contains u "redacted" = true) in Hc.
  rewrite Hin, orb_false_r in Hc. apply prefix_before in Hc; [by destruct u|done].
Qed.

(** A prefix of a redacted text without the marker's first byte was there
    before. *)
Lemma replace_prefix pat u s :
  contains_byte 60 u = false -> String.prefix u (replace_go pat REDACTED 0 s) = true ->
  String.prefix u s = true.
Proof.
  revert s. induction u as [|a u IH]; intros s Hu Hp; [by destruct s|].
  destruct s as [|b s]; [done|]. cbn [replace_go] in Hp.
  destruct (String.prefix pat (String b s)).
  - change (REDACTED +:+ ?X) with ("" +:+ String "<" ("redacted>" +:+ X)) in Hp.
    by apply prefix_before in Hp.
  - apply prefix_cons in Hp as [-> Hp]. apply prefix_cons. split; [done|].
    unfold contains_byte in Hu. simpl in Hu. apply orb_false_iff in Hu as [_ Hu]. by apply IH.
Qed.

Lemma replace_keeps_absent pat u k s :
  redactable u -> contains u (replace_go pat REDACTED k s) = true -> contains u s = true.
Proof.
  intros Hu. revert k. induction s as [|b s IH]; intros k Hc; [done|].
  cbn [contains]. apply orb_true_iff. destruct k as [|k]; cbn [replace_go] in Hc.
  - destruct (String.prefix pat (String b s)).
    + right. apply marker_contains in Hc; [|done]. by eapply IH.
    + cbn [contains] in Hc. apply orb_true_iff in Hc as [Hp|Hc]; [left|right; by eapply IH].
      destruct u as [|a u]; [done|]. apply prefix_cons in Hp as [-> Hp]. apply prefix_cons.
      split; [done|]. destruct Hu as (_ & Hlt & _). unfold contains_byte in Hlt. simpl in Hlt.
      apply orb_false_iff in Hlt as [_ Hlt]. by eapply replace_prefix.
  - right. by eapply IH.
Qed.

Lemma replace_removes u k s :
  redactable u -> contains u (replace_go u REDACTED k s) = false.
Proof.
  intros Hu. apply not_true_iff_false. revert k. induction s as [|b s IH]; intros k Hc.
  { destruct Hu as [Hne _]. cbn in Hc. by destruct u, k. }
  destruct k as [|k]; cbn [replace_go] in Hc; [|by eapply IH].
  destruct (String.prefix u (String b s)) eqn:Hnp.
  - apply marker_contains in Hc; [|done]. by eapply IH.
  - cbn [contains] in Hc. apply orb_true_iff in Hc as [Hp|Hc]; [|by eapply IH].
    apply not_true_iff_false in Hnp. apply Hnp.
    destruct u as [|a u]; [by destruct Hu|]. apply prefix_cons in Hp as [-> Hp]. apply prefix_cons.
    split; [done|]. destruct Hu as (_ & Hlt & _). unfold contains_byte in Hlt. simpl in Hlt.
    apply orb_false_iff in Hlt as [_ Hlt]. by eapply replace_prefix.
Qed.

Lemma redact_absent text values u :
  redactable u -> contains u text = false -> contains u (redact_text text values) = false.
Proof.
  intros Hu. unfold redact_text. generalize (List.filter (fun v => 4 <=? str_len v)%Z values) as vs.
  intros vs. revert text. induction vs as [|v vs IH]; intros text Ht; [done|]. simpl. apply IH.
  apply not_true_iff_false. intros Hc. apply replace_keeps_absent in Hc; [congruence|done].
Qed.

(** *** Bodies *)

Definition ok_chunks (data : list (list ascii)) : list (result (list ascii) string) := Ok <$> data.

Lemma concat_len {A} (c : list A) data : len (concat (c :: data)) = (len c + len (concat data))%Z.
Proof. simpl. by rewrite len_app. Qed.

Lemma read_chunks_data data limit retain bytes observed :
  (limit < usize_max)%Z -> (0 <= observed <= limit)%Z ->
  let total := (observed + len (concat data))%Z in
  if (total <=? limit)%Z
  then read_chunks (ok_chunks data) limit retain bytes observed =
         Ok (Complete (if retain then bytes ++ concat data else bytes) total)
  else exists o, read_chunks (ok_chunks data) limit retain bytes observed = Ok (TooLarge o)
         /\ (limit < o)%Z.
Proof.
  intros Hmax. revert bytes observed. induction data as [|c data IH]; intros bytes observed Hobs.
  - simpl. rewrite Z.add_0_r. destruct (Z.leb_spec observed limit); [|lia].
    rewrite app_nil_r. by destruct retain.
  - cbv zeta. rewrite concat_len. pose proof (len_nonneg c). pose proof (len_nonneg (concat data)).
    change (ok_chunks (c :: data)) with (Ok c :: ok_chunks data : list (result (list ascii) string)).
    cbn [read_chunks]. destruct (Z.ltb_spec limit (Z.min usize_max (observed + len c))) as [Hgt|Hle].
    + destruct (Z.leb_spec (observed + (len c + len (concat data))) limit); [lia|]. eauto.
    + replace (Z.min usize_max (observed + len c)) with (observed + len c)%Z by lia.
      specialize (IH (if retain then (bytes ++ c)%list else bytes) (observed + len c)%Z ltac:(lia)).
      simpl in IH. rewrite <-Z.add_assoc in IH. simpl concat.
      destruct (_ <=? limit)%Z; [|exact IH]. rewrite IH. destruct retain; [|done].
      by rewrite <-app_assoc.
Qed.

Lemma read_chunks_Complete chunks limit retain bytes observed b o :
  read_chunks chunks limit retain bytes observed = Ok (Complete b o) ->
  exists data, chunks = ok_chunks data.
Proof.
  revert bytes observed. induction chunks as [|[c|e] chunks IH]; intros bytes observed Hr; simpl in Hr.
  - by exists [].
  - destruct (limit <? _)%Z; [done|]. destruct (IH _ _ Hr) as [data ->]. by exists (c :: data).
  - done.
Qed.

Lemma read_bounded_body_Complete response limit retain b o :
  (0 <= limit < usize_max)%Z -> read_bounded_body response limit retain = Ok (Complete b o) ->
  exists data, resp_chunks response = ok_chunks data /\ o = len (concat data) /\ (o <= limit)%Z /\
    b = if retain then concat data else [].
Proof.
  intros Hlim Hr.
  assert (Hc : read_chunks (resp_chunks response) limit retain [] 0 = Ok (Complete b o)).
  { unfold read_bounded_body in Hr. destruct (resp_content_length response); [|done].
    by destruct (limit <? _)%Z. }
  pose proof Hc as [data Hdata]%read_chunks_Complete. rewrite Hdata in Hc.
  pose proof (read_chunks_data data limit retain [] 0 ltac:(lia) ltac:(lia)) as Hspec.
  rewrite app_nil_l in Hspec. cbv zeta in Hspec. rewrite Z.add_0_l in Hspec.
  exists data. split; [done|]. revert Hspec. destruct (Z.leb_spec (len (concat data)) limit); intros Hspec.
  - rewrite Hc in Hspec. injection Hspec as -> ->. by destruct retain.
  - destruct Hspec as (x & Hx & _). congruence.
Qed.

Lemma take_chars_prefix n s : exists rest, s = take_chars n s +:+ rest.
Proof.
  revert n. induction s as [|a s IH]; intros n; [by exists ""|]. cbn [take_chars].
  destruct (is_continuation a).
  - destruct (IH n) as [rest Hr]. exists rest. exact (f_equal (String a) Hr).
  - destruct n as [|n]; [by exists (String a s)|]. destruct (IH n) as [rest Hr]. exists rest.
    exact (f_equal (String a) Hr).
Qed.

(** A secret that the ellipsis of a truncated text cannot complete. *)
Definition ellipsis_free (u : string) : Prop :=
  contains_byte 226 u = false /\ contains u "…" = false.

Lemma bounded_detail_absent u s :
  u <> "" -> ellipsis_free u -> contains u s = false -> contains u (bounded_detail s) = false.
Proof.
  intros Hne [Hb He] Hs. apply not_true_iff_false. intros Hc. apply not_true_iff_false in Hs. apply Hs.
  destruct (take_chars_prefix MAXIMUM_FAILURE_DETAIL_CHARACTERS s) as [rest Hrest].
  assert (Ht : contains u (take_chars MAXIMUM_FAILURE_DETAIL_CHARACTERS s) = true).
  { unfold bounded_detail in Hc. cbv zeta in Hc.
    destruct (MAXIMUM_FAILURE_DETAIL_CHARACTERS <? char_count s)%nat; [|done].
    apply contains_before in Hc as [Hc|Hc]; [done| |done|done].
    exfalso. apply not_true_iff_false in He. apply He. cbn [contains]. apply orb_true_iff. by right. }
  apply contains_spec in Ht as (pre & post & Ht). apply contains_spec.
  exists pre, (post +:+ rest). rewrite Hrest, Ht. by rewrite <-!append_assoc.
Qed.

Lemma redact_removes text values u :
  redactable u -> u ∈ values -> (4 <= str_len u)%Z -> contains u (redact_text text values) = false.
Proof.
  intros Hu Hin Hlen. unfold redact_text.
  assert (Hin' : u ∈ List.filter (fun v => 4 <=? str_len v)%Z values).
  { apply list_elem_of_In, filter_In. split; [by apply list_elem_of_In|]. by apply Z.leb_le. }
  revert Hin'. generalize (List.filter (fun v => 4 <=? str_len v)%Z values) as vs.
  intros vs. revert text. induction vs as [|v vs IH]; intros text Hin'; [by apply elem_of_nil in Hin'|].
  apply elem_of_cons in Hin' as [<-|Hin']; simpl; [|by apply IH].
  assert (Hgone : contains u (replace u REDACTED text) = false) by by apply replace_removes.
  clear IH. revert Hgone. generalize (replace u REDACTED text) as t.
  induction vs as [|v vs IH]; intros t Ht; [done|]. simpl. apply IH.
  apply not_true_iff_false. intros Hc. apply replace_keeps_absent in Hc; [congruence|done].
Qed.

(** ** Properties *)

(** Whatever a server sends, a response body that is
    accepted is complete, was read within the limit, and is retained only when
    the caller asked for it; an error-free body is accepted exactly when neither
    its declared nor its actual length exceeds the limit. *)
Theorem bodies_are_bounded (response : HttpResponse) (limit : Z) (retain : bool) :
  (0 <= limit < usize_max)%Z ->
  (forall bytes observed, read_bounded_body response limit retain = Ok (Complete bytes observed) ->
     (observed <= limit)%Z /\ exists data, resp_chunks response = ok_chunks data /\
       observed = len (concat data) /\ bytes = if retain then concat data else []) /\
  (forall data, resp_chunks response = ok_chunks data ->
     (exists bytes observed, read_bounded_body response limit retain = Ok (Complete bytes observed)) <->
     (forall declared, resp_content_length response = Some declared -> (declared <= limit)%Z) /\
     (len (concat data) <= limit)%Z).
Proof.
  intros Hlim. split.
  - intros bytes observed (data & ? & ? & ? & ?)%read_bounded_body_Complete; [|done].
    split; [done|]. by exists data.
  - intros data Hdata. unfold read_bounded_body.
    pose proof (read_chunks_data data limit retain [] 0 ltac:(lia) ltac:(lia)) as Hspec.
    rewrite app_nil_l in Hspec. cbv zeta in Hspec. rewrite Z.add_0_l in Hspec. rewrite Hdata.
    assert (Hbody : (exists bytes observed, read_chunks (ok_chunks data) limit retain [] 0 =
      Ok (Complete bytes observed)) <-> (len (concat data) <= limit)%Z).
    { revert Hspec. destruct (Z.leb_spec (len (concat data)) limit); intros Hspec.
      - split; [done|]. intros _. by eexists _, _.
      - destruct Hspec as (o & -> & _). split; [by intros (? & ? & ?)|lia]. }
    destruct (resp_content_length response) as [declared|].
    + destruct (Z.ltb_spec limit declared).
      * split; [by intros (? & ? & ?)|]. intros [Hd _]. specialize (Hd declared eq_refl). lia.
      * rewrite Hbody. split; [intros; split; [by intros ? [= <-]|done]|by intros [_ ?]].
    + rewrite Hbody. split; [by split|by intros [_ ?]].
Qed.

(** The description of a request that failed to be sent
    or to be read is at most 513 characters long and contains no secret of the
    session of at least four bytes (that the redaction marker and the ellipsis
    cannot overlap with); every failure says whether a status was received. *)
Theorem request_failures_are_redacted {W} `{HttpClient W} (session : CatalogSession) (method : Method)
    (url : Url) (body : option Value) (capture : ResponseCapture) (w w' : W)
    (failure : CatalogRequestFailure) (secret : string) :
  request_json session method url body capture w = (Err failure, w') ->
  rf_kind failure <> CatalogRequestFailureKind.ResponseTooLarge ->
  secret ∈ session_sensitive_values session -> (4 <= str_len secret)%Z ->
  redactable secret -> ellipsis_free secret ->
  contains secret (rf_detail failure) = false /\ (char_count (rf_detail failure) <= 513)%nat /\
  (rf_http_status failure = None <-> rf_kind failure <> CatalogRequestFailureKind.ResponseRead).
Proof.
  intros Hreq Hkind Hin Hlen Hred Hell. unfold request_json in Hreq.
  assert (Hne : secret <> "") by apply Hred.
  destruct (http_send _ w) as [[response|error] w1].
  - unfold collect_response in Hreq. destruct capture;
      [destruct (read_limited_body response _) as [[]|]|destruct (drain_limited_body response _) as [[]|]];
      simpl in Hreq; try done; injection Hreq as <- <-; simpl in *; try done.
    all: split; [apply bounded_detail_absent; [done|done|by apply redact_removes]|].
    all: split; [apply bounded_detail_length|]; split; [done|by intros []].
  - injection Hreq as <- <-. simpl.
    split; [apply bounded_detail_absent; [done|done|by apply redact_removes]|].
    split; [apply bounded_detail_length|]. split; [|done]. intros _. by destruct (send_is_timeout error).
Qed.
