(* ===== verification/Sanitize.v ===== *)
(** * Sanitising captured JSON (crates/conformance/src/sanitize.rs)

    Before a request or a response enters a transcript, members with secret-like
    keys, strings that contain a credential, bearer tokens and URLs with
    credentials are replaced, and the JSON pointer of every replacement is
    recorded. The operations of the url crate that rewrite a URL are the class
    [UrlEdit]. *)

From S2P Require Import Prelude Order RustStr Float64 Json ContractAdapter Sanitization Transport.
From Stdlib Require Import Ascii.
Open Scope string_scope.

Class UrlEdit := {
  url_set_username : Url -> string -> Url;
  url_set_password : Url -> option string -> Url;
  url_set_fragment : Url -> option string -> Url;
  url_query_pairs : Url -> list (string * string);
  (** [query_pairs_mut().clear().extend_pairs(pairs)]. *)
  url_replace_pairs : Url -> list (string * string) -> Url;
}.

Record SanitizedJson := { sj_value : Value; sj_redactions : list string }.

Definition contains_sensitive_value (text : string) (sensitive_values : list string) : bool :=
  existsb (fun sensitive => (4 <=? str_len sensitive)%Z && contains sensitive text) sensitive_values.

Fixpoint filter_bytes (p : ascii -> bool) (s : string) : string :=
  match s with
  | EmptyString => EmptyString
  | String a s' => if p a then String a (filter_bytes p s') else filter_bytes p s'
  end.

Definition SENSITIVE_KEY_NEEDLES : list string :=
  ["password"; "secret"; "token"; "privatekey"; "accesskey"; "credential"; "cookie";
   "authorization"; "apikey"; "clientid"; "bearer"; "sessionid"; "signature"].

Definition is_sensitive_key (key : string) : bool :=
  let normalized := to_ascii_lowercase (filter_bytes is_ascii_alphanumeric key) in
  existsb (fun needle => contains needle normalized) SENSITIVE_KEY_NEEDLES.

(** [text.strip_prefix("Bearer ").is_some_and(|token| !token.is_empty())]. *)
Definition is_bearer_text (text : string) : bool :=
  starts_with "Bearer " text && (7 <? str_len text)%Z.

Section Sanitize.
Context `{UrlParser, UrlOps, UrlEdit}.

Definition redact_pair (pair : string * string) : (string * string) * bool :=
  if is_sensitive_key pair.1 then ((pair.1, REDACTED), true) else (pair, false).

Definition sanitize_url (text : string) : option string :=
  match url_parse text with
  | Err _ => None
  | Ok url =>
      match url_host_str url with
      | None => None
      | Some _ =>
          let credentials :=
            negb (is_empty (url_username url))
            || match url_password url with Some _ => true | None => false end in
          let url := if credentials
                     then url_set_password (url_set_username url "redacted") None else url in
          let fragment := match url_fragment url with Some _ => true | None => false end in
          let url := if fragment then url_set_fragment url None else url in
          let query := redact_pair <$> url_query_pairs url in
          let changed := credentials || fragment || existsb snd query in
          let url := if changed && match url_query url with Some _ => true | None => false end
                     then url_replace_pairs url query.*1 else url in
          if changed then Some (url_to_string url) else None
      end
  end.

(** The replacement of a string, when it must be replaced. *)
Definition redact_string (sensitive_values : list string) (text : string) : option string :=
  if contains_sensitive_value text sensitive_values || is_bearer_text text
  then Some REDACTED else sanitize_url text.

Fixpoint sanitize_value (sensitive_values : list string) (pointer : string) (value : Value)
  : Value * list string :=
  match value with
  | Object object =>
      let members := map (fun entry : string * Value =>
        let child_pointer := pointer +:+ "/" +:+ escape_pointer_segment entry.1 in
        if is_sensitive_key entry.1 then ((entry.1, Str REDACTED), [child_pointer])
        else let child := sanitize_value sensitive_values child_pointer entry.2 in
             ((entry.1, child.1), child.2)) object in
      (Object members.*1, concat members.*2)
  | Array values =>
      let children := index_map (fun index child =>
        sanitize_value sensitive_values (pointer +:+ "/" +:+ display index) child) 0%Z values in
      (Array children.*1, concat children.*2)
  | Str text =>
      match redact_string sensitive_values text with
      | Some redacted => (Str redacted, [pointer])
      | None => (Str text, [])
      end
  | Null | Bool _ | Num _ => (value, [])
  end.

Definition sanitize_json (value : Value) (sensitive_values : list string) : SanitizedJson :=
  let sanitized := sanitize_value sensitive_values "" value in
  {| sj_value := sanitized.1; sj_redactions := sort_dedup sanitized.2 |}.
End Sanitize.

(** ** Lemmas *)

(** What serde_json guarantees of a parsed value: the keys of an object are
    distinct and an array's length is a [usize]. *)
Fixpoint wf_value (v : Value) : bool :=
  match v with
  | Object entries => bool_decide (NoDup entries.*1) && forallb (fun entry => wf_value entry.2) entries
  | Array values => (len values <=? usize_max)%Z && forallb wf_value values
  | _ => true
  end.

Lemma member_Some key v entries :
  NoDup entries.*1 -> (key, v) ∈ entries -> member key entries = Some v.
Proof.
  induction entries as [|[k w] rest IH]; [by inversion 2|]. cbn.
  intros [Hk Hnd]%NoDup_cons [[= -> ->]|Hin]%elem_of_cons; [by rewrite String.eqb_refl|].
  destruct (String.eqb_spec key k) as [->|]; [|by apply IH].
  exfalso. apply Hk, list_elem_of_fmap. by exists (k, v).
Qed.

Lemma render_path_cons token rest :
  render_path (token :: rest) = "/" +:+ escape_pointer_segment token +:+ render_path rest.
Proof. unfold render_path. by rewrite fmap_cons, concat_string_cons, string_app_assoc. Qed.

Lemma elem_of_concat {A} (x : A) (ls : list (list A)) : x ∈ concat ls <-> exists l, l ∈ ls /\ x ∈ l.
Proof. rewrite list_elem_of_In, in_concat. by setoid_rewrite list_elem_of_In. Qed.

Section Properties.
Context `{UrlParser, UrlOps, UrlEdit}.

Lemma sanitize_array sensitive p values :
  sanitize_value sensitive p (Array values) =
  let children := imap (fun i child =>
    sanitize_value sensitive (p +:+ "/" +:+ display (Z.of_nat i)) child) values in
  (Array children.*1, concat children.*2).
Proof.
  cbn [sanitize_value]. by rewrite (index_map_imap _ 0).
Qed.

(** What becomes of one member of an object at [p]. *)
Definition sanitize_member (sensitive : list string) (p : string) (entry : string * Value)
  : (string * Value) * list string :=
  let child_pointer := p +:+ "/" +:+ escape_pointer_segment entry.1 in
  if is_sensitive_key entry.1 then ((entry.1, Str REDACTED), [child_pointer])
  else let child := sanitize_value sensitive child_pointer entry.2 in ((entry.1, child.1), child.2).

Lemma sanitize_object sensitive p entries :
  sanitize_value sensitive p (Object entries) =
  let members := map (sanitize_member sensitive p) entries in (Object members.*1, concat members.*2).
Proof. reflexivity. Qed.

Lemma sanitize_member_key sensitive p entry : (sanitize_member sensitive p entry).1.1 = entry.1.
Proof. unfold sanitize_member. by destruct (is_sensitive_key entry.1). Qed.

Lemma sanitize_members_keys sensitive p entries :
  (map (sanitize_member sensitive p) entries).*1.*1 = entries.*1.
Proof. induction entries as [|e l IH]; [done|]. cbn. by rewrite sanitize_member_key, IH. Qed.

(** A replacement text: the marker or a rewritten URL. *)
Definition replacement (s : string) : Prop := s = REDACTED \/ exists text, sanitize_url text = Some s.

Lemma redact_string_Some sensitive text s : redact_string sensitive text = Some s -> replacement s.
Proof.
  unfold redact_string. destruct (_ || _); [intros [= <-]; by left|]. intros Hs. right. by exists text.
Qed.

(** Every recorded pointer is the path of a replacement. *)
Lemma sanitize_recorded sensitive v p q :
  wf_value v = true -> q ∈ (sanitize_value sensitive p v).2 ->
  exists tokens s, q = p +:+ render_path tokens /\
    resolve tokens (sanitize_value sensitive p v).1 = Some (Str s) /\ replacement s.
Proof.
  revert p. induction v as [| | |text|values IH|entries IH] using Value_nested_ind; intros p Hwf Hq;
    try (cbn in Hq; set_solver).
  - cbn in *. destruct (redact_string sensitive text) as [s|] eqn:Hr; [|set_solver].
    apply list_elem_of_singleton in Hq as ->. exists [], s. split; [by rewrite append_nil_r|].
    split; [done|]. by eapply redact_string_Some.
  - rewrite sanitize_array in *. cbn in Hwf. apply andb_true_iff in Hwf as [Hlen Hwf].
    cbn [snd fst] in *. apply elem_of_concat in Hq as (reds & Hreds & Hq).
    apply list_elem_of_fmap in Hreds as ([child' reds'] & -> & Hc).
    apply list_elem_of_lookup in Hc as [i Hc]; rewrite list_lookup_imap in Hc;
    destruct (values !! i) as [child|] eqn:Hi; [injection Hc as Heq|done]. cbn in Hq.
    rewrite Forall_forall in IH. rewrite forallb_forall in Hwf.
    pose proof (list_elem_of_lookup_2 _ _ _ Hi) as Hin.
    destruct (IH child Hin (p +:+ "/" +:+ display (Z.of_nat i))) as (tokens & s & -> & Hres & Hrep).
    { apply Hwf. by apply list_elem_of_In. }
    { by rewrite Heq. }
    apply lookup_lt_Some in Hi as Hlt. unfold len in Hlen. apply Z.leb_le in Hlen.
    exists (display (Z.of_nat i) :: tokens), s. split; [|split; [|done]].
    + rewrite render_path_cons, display_escaped by lia. by rewrite !append_assoc.
    + cbn [resolve descend]. rewrite parse_index_display by lia. cbn.
      rewrite Nat2Z.id, list_lookup_fmap, list_lookup_imap, Hi. cbn. exact Hres.
  - rewrite sanitize_object in *. cbn in Hwf. cbn [fst snd] in *.
    apply andb_true_iff in Hwf as [Hnd Hwf]. apply bool_decide_eq_true in Hnd.
    apply elem_of_concat in Hq as (reds & Hreds & Hq).
    apply list_elem_of_fmap in Hreds as (m & -> & Hm).
    apply list_elem_of_In, in_map_iff in Hm as ([key child] & <- & Hin).
    rewrite Forall_forall in IH. rewrite forallb_forall in Hwf.
    assert (Hget : member key (map (sanitize_member sensitive p) entries).*1
                   = Some (sanitize_member sensitive p (key, child)).1.2).
    { apply member_Some; [by rewrite sanitize_members_keys|].
      apply list_elem_of_fmap. exists (sanitize_member sensitive p (key, child)). split.
      - rewrite <-(sanitize_member_key sensitive p (key, child)) at 1. by destruct (sanitize_member _ _ _) as [[]].
      - apply list_elem_of_In, in_map_iff. by exists (key, child). }
    assert (Hm : sanitize_member sensitive p (key, child) =
      let child_pointer := p +:+ "/" +:+ escape_pointer_segment key in
      if is_sensitive_key key then ((key, Str REDACTED), [child_pointer])
      else let c := sanitize_value sensitive child_pointer child in ((key, c.1), c.2)) by reflexivity.
    rewrite Hm in Hq, Hget. cbn zeta in *. destruct (is_sensitive_key key); cbn [fst snd] in Hq, Hget.
    + apply list_elem_of_singleton in Hq as ->.
      exists [key], REDACTED. split; [by rewrite render_path_cons, append_nil_r|].
      split; [|by left]. cbn [resolve descend]. by rewrite Hget.
    + destruct (IH child) with (p := p +:+ "/" +:+ escape_pointer_segment key) as (tokens & s & -> & Hres & Hrep).
      { apply list_elem_of_fmap. exists (key, child). split; [done|]. by apply list_elem_of_In. }
      { by apply (Hwf (key, child)). }
      { done. }
      exists (key :: tokens), s. split; [by rewrite render_path_cons, !append_assoc|].
      split; [|done]. cbn [resolve descend]. rewrite Hget. exact Hres.
Qed.

(** No recorded pointer, no change. *)
Lemma sanitize_unrecorded sensitive v p :
  (sanitize_value sensitive p v).2 = [] -> (sanitize_value sensitive p v).1 = v.
Proof.
  revert p. induction v as [| | |text|values IH|entries IH] using Value_nested_ind; intros p; try done.
  - cbn. by destruct (redact_string sensitive text).
  - rewrite sanitize_array. cbn [fst snd]. intros Hnil. f_equal.
    apply list_eq. intros i. rewrite list_lookup_fmap, list_lookup_imap.
    destruct (values !! i) as [child|] eqn:Hi; [|done]. cbn. f_equal.
    pose proof (list_elem_of_lookup_2 _ _ _ Hi) as Hin. rewrite Forall_forall in IH. apply (IH child Hin).
    apply concat_nil_Forall in Hnil. rewrite List.Forall_forall in Hnil. apply Hnil, list_elem_of_In.
    apply list_elem_of_fmap. eexists. split; [reflexivity|].
    apply list_elem_of_lookup. exists i. by rewrite list_lookup_imap, Hi.
  - rewrite sanitize_object. cbn [fst snd]. intros Hnil. f_equal. rewrite Forall_forall in IH.
    apply concat_nil_Forall in Hnil. rewrite List.Forall_forall in Hnil.
    induction entries as [|[key child] l IHl]; [done|]. cbn in Hnil |- *. f_equal.
    + assert (Hm : (sanitize_member sensitive p (key, child)).2 = []) by (apply Hnil; by left).
      revert Hm. unfold sanitize_member. cbn [fst snd]. destruct (is_sensitive_key key); [done|].
      cbn. intros Hm. f_equal. apply IH; [left|done].
    + apply IHl; [intros x Hx; apply IH; by right|intros x Hx; apply Hnil; by right].
Qed.

(** A string that is not a replacement contains no credential. *)
Definition clean_text (sensitive : list string) (s : string) : Prop :=
  replacement s \/ contains_sensitive_value s sensitive = false /\ is_bearer_text s = false.

(** Every member with a secret-like key holds the marker. *)
Fixpoint keys_redacted (v : Value) : bool :=
  match v with
  | Object entries =>
      forallb (fun entry => if is_sensitive_key entry.1 then bool_decide (entry.2 = Str REDACTED)
                            else keys_redacted entry.2) entries
  | Array values => forallb keys_redacted values
  | _ => true
  end.

Lemma sanitize_clean sensitive v p :
  (forall s, s ∈ string_leaves (sanitize_value sensitive p v).1 -> clean_text sensitive s) /\
  keys_redacted (sanitize_value sensitive p v).1 = true.
Proof.
  revert p. induction v as [| | |text|values IH|entries IH] using Value_nested_ind; intros p;
    try (split; [intros s Hs; by inversion Hs|done]).
  - cbn. unfold redact_string. destruct (_ || _) eqn:Hc; [|destruct (sanitize_url text) as [u|] eqn:Hu];
      (split; [intros s ->%list_elem_of_singleton|done]).
    + left. by left.
    + left. right. by exists text.
    + right. by apply orb_false_iff in Hc.
  - rewrite sanitize_array. cbn [fst snd string_leaves keys_redacted].
    rewrite Forall_forall in IH.
    assert (Hall : forall x, x ∈ (imap (fun i child =>
      sanitize_value sensitive (p +:+ "/" +:+ display (Z.of_nat i)) child) values).*1 ->
      (forall s, s ∈ string_leaves x -> clean_text sensitive s) /\ keys_redacted x = true).
    { intros x (y & -> & Hy)%list_elem_of_fmap. apply list_elem_of_lookup in Hy as [i Hy].
      rewrite list_lookup_imap in Hy. destruct (values !! i) as [child|] eqn:Hi; [|done].
      injection Hy as <-. apply IH. by eapply list_elem_of_lookup_2. }
    split.
    + intros s (x & Hx & Hs)%list_elem_of_In%in_flat_map. apply (Hall x); by apply list_elem_of_In.
    + apply forallb_forall. intros x Hx. apply Hall. by apply list_elem_of_In.
  - rewrite sanitize_object. cbn [fst snd string_leaves keys_redacted]. rewrite Forall_forall in IH.
    assert (Hall : forall e, e ∈ entries -> let m := (sanitize_member sensitive p e).1 in
      (forall s, s ∈ string_leaves m.2 -> clean_text sensitive s) /\
      (if is_sensitive_key m.1 then bool_decide (m.2 = Str REDACTED) else keys_redacted m.2) = true).
    { intros [key child] He. unfold sanitize_member. cbn [fst snd].
      destruct (is_sensitive_key key) eqn:Hk; cbn [fst snd]; rewrite Hk.
      - split; [|by apply bool_decide_eq_true]. intros s ->%list_elem_of_singleton. left. by left.
      - apply IH. apply list_elem_of_fmap. by exists (key, child). }
    split.
    + intros s (x & Hx & Hs)%list_elem_of_In%in_flat_map. apply list_elem_of_In in Hs.
      apply list_elem_of_In, list_elem_of_fmap in Hx as (m & -> & Hm).
      apply list_elem_of_In, in_map_iff in Hm as (e & <- & He). apply (Hall e); [by apply list_elem_of_In|done].
    + apply forallb_forall. intros x Hx.
      apply list_elem_of_In, list_elem_of_fmap in Hx as (m & -> & Hm).
      apply list_elem_of_In, in_map_iff in Hm as (e & <- & He). apply (Hall e); by apply list_elem_of_In.
Qed.

Lemma sort_dedup_nil l : sort_dedup l = [] -> l = [].
Proof.
  intros Hn. destruct l as [|x l]; [done|]. exfalso.
  assert (x ∈ sort_dedup (x :: l)) as Hx by (apply elem_of_sort_dedup; left). rewrite Hn in Hx. set_solver.
Qed.

(** ** Properties *)

(** Sanitised JSON keeps no credential: every member with a
    secret-like key, at any depth, holds the marker, and every other string is
    free of the session's credentials (of four bytes or more) and is no bearer
    token, unless it is the rewriting of a URL that carried credentials; and
    when nothing was recorded the value is unchanged, so a published body
    digest is the digest of the published body. *)
Theorem sanitized_json_is_clean (value : Value) (sensitive : list string) :
  let r := sanitize_json value sensitive in
  keys_redacted (sj_value r) = true /\
  (forall s, s ∈ string_leaves (sj_value r) -> clean_text sensitive s) /\
  (sj_redactions r = [] -> sj_value r = value).
Proof.
  cbn. destruct (sanitize_clean sensitive value "") as [Hs Hk]. split; [done|]. split; [done|].
  intros Hn. by apply sanitize_unrecorded, sort_dedup_nil.
Qed.

(** C12: the recorded redactions are accurate: read back as JSON
    pointers, whatever characters the keys contain, each of them addresses a
    replaced string in the sanitised value. *)
Theorem redaction_pointers_resolve (value : Value) (sensitive : list string) (pointer : string) :
  wf_value value = true -> pointer ∈ sj_redactions (sanitize_json value sensitive) ->
  exists s, json_pointer pointer (sj_value (sanitize_json value sensitive)) = Some (Str s) /\ replacement s.
Proof.
  intros Hwf Hp. unfold sanitize_json in *. cbn [sj_value sj_redactions] in *. rewrite elem_of_sort_dedup in Hp.
  destruct (sanitize_recorded sensitive value "" pointer Hwf Hp) as (tokens & s & -> & Hr & Hs).
  exists s. split; [|done]. rewrite <-Hr. apply (json_pointer_render tokens).
Qed.
End Properties.
