(* ===== verification/Capture.v ===== *)
(** * Evidence of the conformance probes (crates/conformance/src/{evidence,operation}.rs)

    The types every transcript of a probe is made of, the three-valued [Fact]
    of operation.rs, and how required assertions decide a probe. *)

From S2P Require Import Prelude Order RustStr Json ContractValue ContractScenario ContractAdapter ContractResult.
From S2P Require Import Ledger Transport Sanitize.
From Stdlib Require Import Ascii.
Open Scope string_scope.

(** ** Transcript types (evidence.rs) *)

Record ContractDigests := { profile_sha256 : string; scenario_sha256 : string }.

Module ProbeFailureStage.
Inductive t := Authentication | Request | Response.
End ProbeFailureStage.

Record ProbeFailure := {
  pf_stage : ProbeFailureStage.t;
  pf_explanation : string;
}.

Module ProbeClassification.
Inductive t :=
| Pass
| Fail (summary : string)
| Unsupported (capability : CapabilityId) (attributed_to : CapabilityLimitationSource.t)
    (explanation : string).
End ProbeClassification.

Record TranscriptScenario := { ts_id : ScenarioId; ts_version : Z }.

Record TranscriptAdapter := {
  ta_catalog : ComponentId;
  ta_name : string;
  ta_version : string;
  ta_protocol : CatalogProtocol;
  ta_request_handling : AdapterRequestHandling;
}.

Module AuthenticationOutcome.
Inductive t := Ready | Failed | NotAttempted.
End AuthenticationOutcome.

Record AuthenticationTranscript := {
  au_mode : string;
  au_outcome : AuthenticationOutcome.t;
  au_token_url : option string;
  au_scope : option string;
  au_http_status : option Z;
}.

Record HttpRequestTranscript := {
  rq_method : string;
  rq_url : string;
  rq_headers : gmap string string;
}.

Module SanitizedResponseBody.
Inductive t := Json (value : Value) | Omitted (reason : string).
End SanitizedResponseBody.

Record HttpResponseTranscript := {
  rs_status : Z;
  rs_headers : gmap string string;
  rs_body_bytes_observed : Z;
  rs_raw_body_sha256 : option string;
  rs_body : SanitizedResponseBody.t;
}.

(** [HttpResponseTranscript::json]. *)
Definition response_transcript_json (self : HttpResponseTranscript) : option Value :=
  match rs_body self with
  | SanitizedResponseBody.Json value => Some value
  | SanitizedResponseBody.Omitted _ => None
  end.

Record ProbeAssertion := {
  pa_assertion : AssertionId;
  pa_required : bool;
  pa_outcome : AssertionOutcome;
}.

Record SanitizationTranscript := {
  sa_policy : string;
  sa_redactions : list string;
  sa_raw_secrets_persisted : bool;
  sa_raw_response_body_persisted : bool;
}.

Definition transcript_adapter (adapter : CatalogAdapter) (component : Component) : TranscriptAdapter := {|
  ta_catalog := ad_catalog adapter;
  ta_name := comp_name component;
  ta_version := comp_version component;
  ta_protocol := ad_protocol adapter;
  ta_request_handling := ad_request_handling adapter;
|}.

Definition not_evaluated_assertions (scenario : Scenario) (reason : string) : list ProbeAssertion :=
  (fun assertion => {| pa_assertion := spec_id assertion; pa_required := spec_required assertion;
                       pa_outcome := NotEvaluated reason |}) <$> scen_assertions scenario.

Definition passed_required_assertions (assertions : list ProbeAssertion) : bool :=
  forallb (fun evaluation => negb (pa_required evaluation) || assertion_passed (pa_outcome evaluation))
    assertions.

Definition transcript_scenario (scenario : Scenario) : TranscriptScenario := {|
  ts_id := scen_id scenario; ts_version := scen_version scenario |}.

(** ** Facts (operation.rs) *)

Module Fact.
Inductive t := Pass | Fail (explanation : string) | NotEvaluated (explanation : string).

Definition from_result (result : result unit string) : t :=
  match result with Ok _ => Pass | Err explanation => Fail explanation end.

Definition from_bool (value : bool) (explanation : string) : t :=
  if value then Pass else Fail explanation.

Definition passed (self : t) : bool := match self with Pass => true | _ => false end.

Definition explanation (self : t) (fallback : string) : string :=
  match self with
  | Pass => fallback
  | Fail explanation | NotEvaluated explanation => explanation
  end.

Definition outcome (self : t) : AssertionOutcome :=
  match self with
  | Pass => AssertionPass
  | Fail explanation => AssertionFail explanation
  | NotEvaluated reason => ContractResult.NotEvaluated reason
  end.
End Fact.

(** [all_results]: the first error, if any. *)
Fixpoint all_results (results : list (result unit string)) : result unit string :=
  match results with
  | [] => Ok tt
  | Ok _ :: rest => all_results rest
  | Err e :: _ => Err e
  end.

(** ** Lemmas *)

Lemma outcome_passed_fact f : assertion_passed (Fact.outcome f) = Fact.passed f.
Proof. by destruct f. Qed.

Lemma fact_from_result r : Fact.passed (Fact.from_result r) = is_ok r.
Proof. by destruct r. Qed.

Lemma all_results_ok l : is_ok (all_results l) = forallb is_ok l.
Proof. induction l as [|[[]|e] l IH]; [done|apply IH|done]. Qed.

Lemma passed_required_spec assertions :
  passed_required_assertions assertions = true <->
  forall a, a ∈ assertions -> pa_required a = true -> pa_outcome a = AssertionPass.
Proof.
  unfold passed_required_assertions. rewrite forallb_forall. setoid_rewrite <-list_elem_of_In.
  split; intros H a Ha; specialize (H a Ha).
  - intros Hr. rewrite Hr in H. cbn in H. by destruct (pa_outcome a).
  - destruct (pa_required a); [|done]. by rewrite H.
Qed.

(** A required assertion that was not evaluated keeps a probe from passing. *)
Lemma not_evaluated_never_passes scenario reason :
  (exists a, a ∈ scen_assertions scenario /\ spec_required a = true) ->
  passed_required_assertions (not_evaluated_assertions scenario reason) = false.
Proof.
  intros (a & Ha & Hr). apply not_true_is_false. rewrite passed_required_spec. intros H.
  discriminate (H {| pa_assertion := spec_id a; pa_required := spec_required a;
                     pa_outcome := NotEvaluated reason |}).
  - apply list_elem_of_fmap. by exists a.
  - done.
Qed.

(** ** Captured exchanges (crates/conformance/src/{transport,idempotency,lib}.rs)

    Client-credential authentication and JSON requests whose response becomes
    evidence: bounded, its headers allow-listed, its body sanitised, every
    failure a value. Form encoding (url), JSON parsing (serde_json), the HTTP
    client's builder (reqwest) and UUIDs are third-party code: the classes
    below. *)

(** [form_urlencoded::Serializer] and [form_urlencoded::parse]. *)
Class FormCodec := {
  form_serialize : list (string * string) -> string;
  form_parse : string -> list (string * string);
}.

(** [serde_json::from_slice::<Value>]. *)
Class JsonParser := json_from_slice : list ascii -> option Value.

(** [Client::builder().timeout(..).build()], by its timeout: whether a client
    can be built. Its requests are [HttpClient]'s. *)
Class ClientBuilder := client_builds : Z -> bool.

(** [Uuid::now_v7().to_string()]. *)
Class UuidSource (W : Type) := uuid_now_v7 : W -> string * W.

Definition MAXIMUM_RESPONSE_BYTES : Z := 1048576.

(** Neither formatted nor serialised: a key reaches requests only. *)
Record IdempotencyKey := { key_value : string }.

Definition generate_key {W} `{UuidSource W} (w : W) : IdempotencyKey * W :=
  let '(uuid, w) := uuid_now_v7 w in ({| key_value := uuid |}, w).

Definition sha256_hex `{Sha256} (value : list ascii) : string :=
  String.string_of_list_ascii (flat_map hex_byte (sha256 value)).

(** [serde_json::to_vec_pretty]: derived code. *)
Class ToVecPretty (T : Type) := to_vec_pretty : T -> result string string.

Definition encode_evidence {T} `{ToVecPretty T} (value : T) : result string string :=
  let? text := to_vec_pretty value in
  Ok (text +:+ String "010" "").

Record AuthenticationAttempt := {
  at_transcript : AuthenticationTranscript;
  at_bearer_token : option string;
  at_sensitive_values : list string;
  at_failure : option ProbeFailure;
}.

Record CapturedResponse := {
  cap_response : option HttpResponseTranscript;
  cap_private_json : option Value;
  cap_redactions : list string;
  cap_failure : option ProbeFailure;
}.

Record IdempotentRequest := { ir_response_label : string; ir_key : IdempotencyKey }.

Record RequestCapture := {
  rcap_sensitive_values : list string;
  rcap_response_label : string;
  rcap_idempotency_key : option IdempotencyKey;
}.

Definition http_client `{ClientBuilder} (timeout_ms : Z) : result unit string :=
  if client_builds timeout_ms then Ok tt else Err "build conformance HTTP client".

Definition authentication_mode (authentication : CatalogAuthentication) : string :=
  match authentication with
  | Anonymous => "anonymous"
  | OAuth2ClientCredentials _ _ _ _ => "oauth2-client-credentials"
  end.

Definition authentication_failure (transcript : AuthenticationTranscript) (explanation : string)
  : AuthenticationAttempt := {|
  at_transcript := transcript;
  at_bearer_token := None;
  at_sensitive_values := [];
  at_failure := Some {| pf_stage := ProbeFailureStage.Authentication; pf_explanation := explanation |};
|}.

(** The key under which [headers().get(name)] finds a value. *)
Definition header_get (response : HttpResponse) (name : string) : option (option string) :=
  snd <$> find (fun header => header.1 =? name) (resp_headers response).

Definition ALLOWED_RESPONSE_HEADERS : list string :=
  ["content-type"; "iceberg-version"; "x-request-id"; "traceparent"].

Definition allowlisted_response_headers (response : HttpResponse) (sensitive_values : list string)
  : gmap string string :=
  list_to_map (omap (fun name =>
    match header_get response name with
    | Some (Some value) => Some (name, redact_text value sensitive_values)
    | _ => None
    end) ALLOWED_RESPONSE_HEADERS).

(** The environment variable, when it is set and not empty. *)
Definition nonempty_env (getenv : string -> option string) (name : string) : option string :=
  match getenv name with
  | Some value => if is_empty value then None else Some value
  | None => None
  end.

Section Capture.
Context `{UrlParser, UrlOps, UrlEdit, FormCodec, JsonParser, Sha256} {W : Type} `{HttpClient W}.

Definition endpoint_url (base_url path : string) (query : gmap string string) : result Url string :=
  let? url := map_err (fun _ => "invalid adapter endpoint `" +:+ base_url +:+ path +:+ "`")
                (url_parse (base_url +:+ path)) in
  Ok (foldl (fun url pair => url_append_pair url pair.1 pair.2) url (btree_entries String.compare query)).

(** The credentials form of an OAuth2 client. *)
Definition token_form (client_id client_secret scope : string) : string :=
  form_serialize [("grant_type", "client_credentials"); ("client_id", client_id);
                  ("client_secret", client_secret); ("scope", scope)].

Definition token_request (token_url : Url) (body : string) : HttpRequest := {|
  hr_method := POST; hr_url := token_url; hr_accept := "application/json";
  hr_bearer_token := None; hr_idempotency_key := None; hr_body := None; hr_form := Some body |}.

(** What becomes of the token endpoint's answer: the token or an explanation. *)
Definition read_token (response : HttpResponse) : result string string :=
  let status := resp_status response in
  let? body := map_err (fun error => "OAuth2 response read failed: " +:+ error)
                 (read_limited_body response MAXIMUM_RESPONSE_BYTES) in
  let? bytes := match body with
                | Complete bytes _ => Ok bytes
                | TooLarge _ => Err "OAuth2 response exceeds the evidence body limit"
                end in
  guard negb ((200 <=? status) && (status <? 300))%Z
    or "OAuth2 endpoint returned HTTP " +:+ display status in
  let? body := ok_or (json_from_slice bytes) "OAuth2 endpoint did not return JSON" in
  let? token := ok_or (value_get "access_token" body ≫= as_str)
                  "OAuth2 response omitted string `access_token`" in
  guard is_empty token or "OAuth2 response returned an empty access token" in
  Ok token.

Definition acquire_authentication (adapter : CatalogAdapter) (getenv : string -> option string) (w : W)
  : AuthenticationAttempt * W :=
  match ad_authentication adapter with
  | Anonymous =>
      ({| at_transcript := {| au_mode := "anonymous"; au_outcome := AuthenticationOutcome.Ready;
                              au_token_url := None; au_scope := None; au_http_status := None |};
          at_bearer_token := None; at_sensitive_values := []; at_failure := None |}, w)
  | OAuth2ClientCredentials token_path scope client_id_env client_secret_env =>
      let transcript (outcome : AuthenticationOutcome.t) (http_status : option Z) (token_url : option Url) := {|
        au_mode := "oauth2-client-credentials"; au_outcome := outcome;
        au_token_url := url_to_string <$> token_url; au_scope := Some scope;
        au_http_status := http_status |} in
      match endpoint_url (ep_base_url (ad_endpoint adapter)) token_path ∅ with
      | Err error =>
          (authentication_failure (transcript AuthenticationOutcome.Failed None None)
             ("invalid token endpoint: " +:+ error), w)
      | Ok token_url =>
          let failed (http_status : option Z) (explanation : string) :=
            authentication_failure (transcript AuthenticationOutcome.Failed http_status (Some token_url))
              explanation in
          match nonempty_env getenv client_id_env with
          | None => (failed None ("environment variable `" +:+ client_id_env +:+ "` is not set or is empty"), w)
          | Some client_id =>
          match nonempty_env getenv client_secret_env with
          | None => (failed None ("environment variable `" +:+ client_secret_env +:+ "` is not set or is empty"), w)
          | Some client_secret =>
              let '(sent, w) := http_send (token_request token_url (token_form client_id client_secret scope)) w in
              (match sent with
               | Err error =>
                   failed None ("OAuth2 request failed: "
                                +:+ redact_text (send_text error) [client_id; client_secret])
               | Ok response =>
                   match read_token response with
                   | Err explanation => failed (Some (resp_status response)) explanation
                   | Ok token =>
                       {| at_transcript := transcript AuthenticationOutcome.Ready
                            (Some (resp_status response)) (Some token_url);
                          at_bearer_token := Some token;
                          at_sensitive_values := [client_id; client_secret; token];
                          at_failure := None |}
                   end
               end, w)
          end end
      end
  end.

Definition capture_complete_body (status : Z) (headers : gmap string string) (bytes : list ascii)
    (sensitive_values : list string) : CapturedResponse :=
  let transcript raw_body_sha256 body := {|
    rs_status := status; rs_headers := headers; rs_body_bytes_observed := len bytes;
    rs_raw_body_sha256 := raw_body_sha256; rs_body := body |} in
  match bytes with
  | [] => {| cap_response := Some (transcript None (SanitizedResponseBody.Omitted "response body is empty"));
             cap_private_json := None; cap_redactions := []; cap_failure := None |}
  | _ =>
      let digest := sha256_hex bytes in
      match json_from_slice bytes with
      | Some value =>
          let sanitized := sanitize_json value sensitive_values in
          {| cap_response := Some (transcript
               (match sj_redactions sanitized with [] => Some digest | _ => None end)
               (SanitizedResponseBody.Json (sj_value sanitized)));
             cap_private_json := Some value;
             cap_redactions := (fun pointer => "response.body" +:+ pointer) <$> sj_redactions sanitized;
             cap_failure := None |}
      | None =>
          {| cap_response := Some (transcript None
               (SanitizedResponseBody.Omitted "response body is not valid JSON"));
             cap_private_json := None; cap_redactions := []; cap_failure := None |}
      end
  end.

(** A response of which nothing was captured. *)
Definition capture_failed (stage : ProbeFailureStage.t) (explanation : string) : CapturedResponse := {|
  cap_response := None; cap_private_json := None; cap_redactions := [];
  cap_failure := Some {| pf_stage := stage; pf_explanation := explanation |} |}.

Definition capture_response (response : HttpResponse) (capture : RequestCapture) : CapturedResponse :=
  let status := resp_status response in
  let headers := allowlisted_response_headers response (rcap_sensitive_values capture) in
  match read_limited_body response MAXIMUM_RESPONSE_BYTES with
  | Err error =>
      capture_failed ProbeFailureStage.Response (redact_text error (rcap_sensitive_values capture))
  | Ok (TooLarge observed) =>
      {| cap_response := Some {|
           rs_status := status; rs_headers := headers; rs_body_bytes_observed := observed;
           rs_raw_body_sha256 := None;
           rs_body := SanitizedResponseBody.Omitted
             ("response exceeds maximum capture size of " +:+ display MAXIMUM_RESPONSE_BYTES +:+ " bytes") |};
         cap_private_json := None; cap_redactions := [];
         cap_failure := Some {|
           pf_stage := ProbeFailureStage.Response;
           pf_explanation := rcap_response_label capture +:+ " response exceeded the evidence body limit" |} |}
  | Ok (Complete bytes _) => capture_complete_body status headers bytes (rcap_sensitive_values capture)
  end.

Definition execute_json_request_with_context (method : Method) (url : Url) (bearer_token : option string)
    (body : option Value) (capture : RequestCapture) (w : W) : CapturedResponse * W :=
  let '(sent, w) := http_send {|
    hr_method := method; hr_url := url; hr_accept := "application/json";
    hr_bearer_token := bearer_token;
    hr_idempotency_key := key_value <$> rcap_idempotency_key capture;
    hr_body := body; hr_form := None |} w in
  (match sent with
   | Err error =>
       capture_failed ProbeFailureStage.Request (redact_text (send_text error) (rcap_sensitive_values capture))
   | Ok response => capture_response response capture
   end, w).

Definition execute_json_request (method : Method) (url : Url) (bearer_token : option string)
    (body : option Value) (sensitive_values : list string) (response_label : string) (w : W)
  : CapturedResponse * W :=
  execute_json_request_with_context method url bearer_token body
    {| rcap_sensitive_values := sensitive_values; rcap_response_label := response_label;
       rcap_idempotency_key := None |} w.

Definition execute_json_request_with_idempotency (method : Method) (url : Url)
    (bearer_token : option string) (body : option Value) (sensitive_values : list string)
    (request : IdempotentRequest) (w : W) : CapturedResponse * W :=
  execute_json_request_with_context method url bearer_token body
    {| rcap_sensitive_values := sensitive_values; rcap_response_label := ir_response_label request;
       rcap_idempotency_key := Some (ir_key request) |} w.
End Capture.
