(* ===== verification/Routing.v ===== *)
(** * Targets, routes and routing negotiation

    crates/conformance/src/{target,iceberg,routing}.rs and [resolve_prefix] of
    config.rs: which adapter a probe talks to, the codec and the routes of its
    catalog, and the config exchange that resolves them. *)

From S2P Require Import Prelude Order RustStr Json ContractValue ContractScenario ContractAdapter ContractProfile.
From S2P Require Import ContractResult Ledger Transport Sanitize Capture.
From Stdlib Require Import Ascii.
Open Scope string_scope.

(** ** Targets (target.rs) *)

Record ProbeTarget := { target_adapter : CatalogAdapter; target_component : Component }.

Definition resolve_adapter (profile : Profile) (catalog : ComponentId) : result ProbeTarget string :=
  let? adapter := ok_or (find (fun a => ad_catalog a =? catalog) (prof_catalog_adapters profile))
    ("profile has no adapter for catalog `" +:+ catalog +:+ "`") in
  let? component := ok_or (find (fun c => comp_id c =? catalog) (prof_components profile))
    ("profile has no component for catalog `" +:+ catalog +:+ "`") in
  Ok {| target_adapter := adapter; target_component := component |}.

(** One iteration of the loop of [resolve]. *)
Definition requirement_classified (defined : gset CapabilityId) (capabilities : AdapterCapabilityCoverage)
    (requirement : CapabilityRequirement) : result unit string :=
  let capability := req_capability requirement in
  guard negb (bool_decide (capability ∈ defined))
    or "scenario capability `" +:+ capability +:+ "` is absent from profile vocabulary" in
  guard negb (exercises capabilities capability) && is_none (limitation capabilities capability)
    or "adapter does not classify scenario capability `" +:+ capability +:+ "`" in
  Ok tt.

Definition resolve_target (profile : Profile) (scenario : Scenario) (catalog : ComponentId)
  : result ProbeTarget string :=
  let? target := resolve_adapter profile catalog in
  let defined : gset CapabilityId := list_to_set (cap_id <$> prof_catalog_capabilities profile) in
  check? collect_results
    (requirement_classified defined (ad_capabilities (target_adapter target))) (scen_capabilities scenario) in
  Ok target.

(** [find_map]. *)
Fixpoint find_map {A B} (f : A -> option B) (l : list A) : option B :=
  match l with
  | [] => None
  | a :: l => match f a with Some b => Some b | None => find_map f l end
  end.

Definition first_required_limitation (self : ProbeTarget) (scenario : Scenario)
  : option UnsupportedAdapterCapability :=
  find_map (fun requirement => limitation (ad_capabilities (target_adapter self)) (req_capability requirement))
    (List.filter (fun requirement => bool_decide (req_level requirement = Required)) (scen_capabilities scenario)).

(** ** Namespaces and separators (iceberg.rs) *)

Definition DEFAULT_NAMESPACE_SEPARATOR : string := "%1F".

#[export] Instance NamespaceIdentifier_eq_dec : EqDecision NamespaceIdentifier.
Proof. solve_decision. Defined.
#[export] Instance NamespaceIdentifier_countable : Countable NamespaceIdentifier.
Proof.
  apply (inj_countable' namespace_parts (fun parts => {| namespace_parts := parts |})). by intros [].
Defined.

(** Derived [Ord]: the parts in lexicographic order. *)
Fixpoint strings_compare (l k : list string) : comparison :=
  match l, k with
  | [], [] => Eq
  | [], _ => Lt
  | _, [] => Gt
  | s :: l, t :: k => then_with (String.compare s t) (strings_compare l k)
  end.
Definition namespace_compare (a b : NamespaceIdentifier) : comparison :=
  strings_compare (namespace_parts a) (namespace_parts b).

(** Derived [Debug]. *)
Definition debug_namespace (self : NamespaceIdentifier) : string :=
  "NamespaceIdentifier(" +:+ debug_strs (namespace_parts self) +:+ ")".
Definition debug_namespaces (namespaces : gset NamespaceIdentifier) : string :=
  "{" +:+ String.concat ", " (debug_namespace <$> btree_elements namespace_compare namespaces) +:+ "}".

(** [NamespaceIdentifier::child]. *)
Definition namespace_child (self : NamespaceIdentifier) (part : string) : result NamespaceIdentifier string :=
  namespace_from_parts (namespace_parts self ++ [part]).

Module NamespaceSeparatorResolution.
Inductive t :=
| Default (encoded : string)
| Configured (json_pointer encoded : string)
| Failed (explanation : string)
| NotEvaluated (reason : string).
End NamespaceSeparatorResolution.

Module PrefixResolution.
Inductive t :=
| Unprefixed
| Static (value : string)
| Negotiated (json_pointer value : string)
| Failed (explanation : string)
| NotEvaluated (reason : string).
End PrefixResolution.

Definition decode_separator `{FormCodec} (encoded : string) : result string string :=
  let? decoded := ok_or (snd <$> head (form_parse ("separator=" +:+ encoded))) "decode namespace separator" in
  guard negb (char_count decoded =? 1)%nat
    or "namespace separator `" +:+ encoded +:+ "` must decode to exactly one character" in
  guard existsb is_path_delimiter (bytes decoded)
    or "namespace separator `" +:+ encoded +:+ "` cannot be a URL structural character" in
  Ok decoded.

(** [NamespaceCodec::resolve]. *)
Definition resolve_codec `{FormCodec} (config : option Value)
  : NamespaceSeparatorResolution.t * option NamespaceCodec :=
  let configured := find_map (fun pointer => (fun value => (pointer, value)) <$> (config ≫= json_pointer pointer))
    ["/overrides/namespace-separator"; "/defaults/namespace-separator"] in
  let decoded (resolution : NamespaceSeparatorResolution.t) (encoded : string) :=
    match decode_separator encoded with
    | Ok separator => (resolution, Some {| codec_separator := separator |})
    | Err error => (NamespaceSeparatorResolution.Failed error, None)
    end in
  match configured with
  | Some (pointer, Str encoded) => decoded (NamespaceSeparatorResolution.Configured pointer encoded) encoded
  | Some (pointer, _) =>
      (NamespaceSeparatorResolution.Failed
         ("config namespace separator at `" +:+ pointer +:+ "` must be a string"), None)
  | None =>
      match config with
      | Some _ => decoded (NamespaceSeparatorResolution.Default DEFAULT_NAMESPACE_SEPARATOR)
                    DEFAULT_NAMESPACE_SEPARATOR
      | None => (NamespaceSeparatorResolution.NotEvaluated "config response has no captured JSON body", None)
      end
  end.

(** ** Prefixes (config.rs) *)

Definition valid_path_segment (value : string) : bool :=
  negb (is_empty value) && negb (has_whitespace value || existsb is_path_delimiter (bytes value)).

Definition resolve_prefix (adapter : CatalogAdapter) (body : option Value) : PrefixResolution.t :=
  match ep_route_prefix (ad_endpoint adapter) with
  | Unprefixed => PrefixResolution.Unprefixed
  | Static value => PrefixResolution.Static value
  | Negotiated config_json_pointer =>
      match (body ≫= json_pointer config_json_pointer) ≫= as_str with
      | Some value =>
          if valid_path_segment value then PrefixResolution.Negotiated config_json_pointer value
          else PrefixResolution.Failed
            ("config value at `" +:+ config_json_pointer +:+ "` is not one nonempty path segment")
      | None => PrefixResolution.Failed
          ("config response has no string prefix at `" +:+ config_json_pointer +:+ "`")
      end
  end.

(** ** Routes (iceberg.rs) *)

(** [CatalogRoutes::new]. *)
Definition CatalogRoutes_new (adapter : CatalogAdapter) (prefix : PrefixResolution.t) (codec : NamespaceCodec)
    (probe : string) : result CatalogRoutes string :=
  let? prefix :=
    match prefix with
    | PrefixResolution.Unprefixed => Ok None
    | PrefixResolution.Static value | PrefixResolution.Negotiated _ value => Ok (Some value)
    | PrefixResolution.Failed reason | PrefixResolution.NotEvaluated reason =>
        Err ("cannot build " +:+ probe +:+ " routes: " +:+ reason)
    end in
  Ok {| routes_base_url := ep_base_url (ad_endpoint adapter); routes_prefix := prefix; routes_codec := codec |}.

Section Routes.
Context `{UrlParser, UrlOps}.

Definition namespace_properties (self : CatalogRoutes) (namespace : NamespaceIdentifier) : result Url string :=
  resource_url self ["namespaces"; codec_join (routes_codec self) namespace; "properties"].

Definition namespaces_under (self : CatalogRoutes) (parent : NamespaceIdentifier) : result Url string :=
  let? url := namespace_collection self in
  Ok (url_append_pair url "parent" (codec_join (routes_codec self) parent)).

Definition namespace_page (self : CatalogRoutes) (token : string) (size : Z) : result Url string :=
  let? url := namespace_collection self in
  Ok (url_append_pair (url_append_pair url "pageToken" token) "pageSize" (display size)).

Definition table_page (self : CatalogRoutes) (namespace : NamespaceIdentifier) (token : string) (size : Z)
  : result Url string :=
  let? url := table_collection self namespace in
  Ok (url_append_pair (url_append_pair url "pageToken" token) "pageSize" (display size)).

Definition table_register (self : CatalogRoutes) (namespace : NamespaceIdentifier) : result Url string :=
  resource_url self ["namespaces"; codec_join (routes_codec self) namespace; "register"].

Definition table_rename (self : CatalogRoutes) : result Url string := resource_url self ["tables"; "rename"].
End Routes.

Definition validate_probe_fixture_id (id : string) : result unit string :=
  guard is_empty id || (24 <? str_len id)%Z or "fixture id must contain 1 to 24 characters" in
  guard negb (all_bytes (fun byte => is_ascii_lowercase byte || is_ascii_digit byte || is_byte 95 byte) id)
    or "fixture id must contain only lowercase ASCII letters, digits, and underscores" in
  Ok tt.

Definition fixture_stem (prefix : string) (catalog : ComponentId) (id : string) : result string string :=
  check? validate_probe_fixture_id id in
  Ok (prefix +:+ "_" +:+ replace_byte 45 "_" catalog +:+ "_" +:+ id).

(** ** Negotiation (routing.rs) *)

Record RoutingConfigTranscript := {
  rct_request : HttpRequestTranscript;
  rct_response : option HttpResponseTranscript;
  rct_prefix : PrefixResolution.t;
  rct_namespace_separator : NamespaceSeparatorResolution.t;
  rct_failure : option ProbeFailure;
}.

Record RoutingNegotiation := {
  neg_authentication : AuthenticationAttempt;
  neg_config : RoutingConfigTranscript;
  neg_codec : option NamespaceCodec;
  neg_config_routing : Fact.t;
  neg_redactions : list string;
}.

Definition is_json_media_type (content_type : string) : bool :=
  is_some_and (fun media_type => to_ascii_lowercase (trim media_type) =? "application/json")
    (head (split_byte 59 content_type)).

Definition validate_config_routing (authentication_failure : option ProbeFailure)
    (response : option HttpResponseTranscript) (private_json : option Value)
    (prefix : PrefixResolution.t) (codec : option NamespaceCodec) : result unit string :=
  match authentication_failure with
  | Some failure => Err (pf_explanation failure)
  | None =>
      let? response := ok_or response "no config response was received" in
      guard negb (rs_status response =? 200)%Z
        or "config returned HTTP " +:+ display (rs_status response) +:+ " instead of 200" in
      guard negb (is_some_and is_json_media_type (rs_headers response !! "content-type"))
        or "config response did not declare application/json" in
      guard is_none private_json or "config response did not contain valid captured JSON" in
      check? match prefix with
             | PrefixResolution.Failed explanation | PrefixResolution.NotEvaluated explanation => Err explanation
             | _ => Ok tt
             end in
      guard is_none codec or "namespace separator did not resolve" in
      Ok tt
  end.

Section Negotiation.
Context `{UrlParser, UrlOps, UrlEdit, FormCodec, JsonParser, Sha256} {W : Type} `{HttpClient W}.

Definition config_url (adapter : CatalogAdapter) : result Url string :=
  let endpoint := ad_endpoint adapter in
  endpoint_url (ep_base_url endpoint) (cfg_path (ep_config endpoint)) (cfg_query (ep_config endpoint)).

Definition config_request (adapter : CatalogAdapter) (authenticated : bool)
  : result HttpRequestTranscript string :=
  let? url := config_url adapter in
  let headers := {[ "accept" := "application/json" ]} in
  Ok {| rq_method := "GET"; rq_url := url_to_string url;
        rq_headers := if authenticated then <[ "authorization" := REDACTED ]> headers else headers |}.

Definition not_evaluated_config (adapter : CatalogAdapter) (reason : string)
  : result RoutingConfigTranscript string :=
  let? request := config_request adapter false in
  Ok {| rct_request := request; rct_response := None;
        rct_prefix := PrefixResolution.NotEvaluated reason;
        rct_namespace_separator := NamespaceSeparatorResolution.NotEvaluated reason;
        rct_failure := None |}.

(** [Option::or]. *)
Definition or_else {A} (a b : option A) : option A := match a with Some _ => a | None => b end.

Definition is_some {A} (o : option A) : bool := match o with Some _ => true | None => false end.

Definition nothing_captured : CapturedResponse := {|
  cap_response := None; cap_private_json := None; cap_redactions := []; cap_failure := None |}.

(** What is concluded from the config exchange. *)
Definition conclude_routing (adapter : CatalogAdapter) (authentication : AuthenticationAttempt)
    (request : HttpRequestTranscript) (captured : CapturedResponse) : RoutingNegotiation :=
  let prefix := resolve_prefix adapter (cap_private_json captured) in
  let '(namespace_separator, codec) := resolve_codec (cap_private_json captured) in
  {| neg_authentication := authentication;
     neg_config := {|
       rct_request := request;
       rct_response := cap_response captured;
       rct_prefix := prefix;
       rct_namespace_separator := namespace_separator;
       rct_failure := or_else (at_failure authentication) (cap_failure captured) |};
     neg_codec := codec;
     neg_config_routing := Fact.from_result
       (validate_config_routing (at_failure authentication) (cap_response captured)
          (cap_private_json captured) prefix codec);
     neg_redactions :=
       ((fun path => "config." +:+ path) <$> cap_redactions captured)
       ++ if is_some (at_bearer_token authentication)
          then ["config.request.headers.authorization"; "authentication.oauth2-request-credentials";
                "authentication.oauth2-response-token"]
          else [] |}.

Definition negotiate_routing (adapter : CatalogAdapter) (getenv : string -> option string) (w : W)
  : result RoutingNegotiation string * W :=
  let '(authentication, w) := acquire_authentication adapter getenv w in
  match config_request adapter (is_some (at_bearer_token authentication)) with
  | Err e => (Err e, w)
  | Ok request =>
      match at_failure authentication with
      | None =>
          match config_url adapter with
          | Err e => (Err e, w)
          | Ok url =>
              let '(captured, w) := execute_json_request GET url (at_bearer_token authentication) None
                (at_sensitive_values authentication) "config" w in
              (Ok (conclude_routing adapter authentication request captured), w)
          end
      | Some _ => (Ok (conclude_routing adapter authentication request nothing_captured), w)
      end
  end.
End Negotiation.
