(* ===== verification/Connection.v ===== *)
(** * Connecting to a catalog (crates/conformance/src/runtime.rs)

    Authentication, config negotiation and route construction in front of a
    [CatalogSession]. Failures of the catalog are outcomes with evidence; errors
    are reserved for calls and contracts that make no sense. *)

From S2P Require Import Prelude Order RustStr Json ContractValue ContractScenario ContractAdapter ContractProfile.
From S2P Require Import ContractResult Ledger Transport Sanitize Capture Routing.
Open Scope string_scope.

Definition CATALOG_RESPONSE_LIMIT_BYTES : Z := MAXIMUM_RESPONSE_BYTES.

Record CatalogNegotiationEvidence := {
  ne_adapter : TranscriptAdapter;
  ne_authentication : AuthenticationTranscript;
  ne_config : RoutingConfigTranscript;
  ne_redactions : list string;
}.

Inductive CatalogNegotiationFailureStage := Authentication | Config | Routing.
Record CatalogNegotiationFailure := {
  nf_stage : CatalogNegotiationFailureStage;
  nf_detail : string;
}.

Inductive CatalogConnectionOutcome :=
| Connected (session : CatalogSession)
| ConnectionFailed (failure : CatalogNegotiationFailure).

Record CatalogConnectionAttempt := {
  ca_evidence : CatalogNegotiationEvidence;
  ca_outcome : CatalogConnectionOutcome;
}.

Definition validate_connection_limits (request_timeout_ms maximum_response_bytes : Z) : result unit string :=
  guard (request_timeout_ms =? 0)%Z or "catalog request timeout must be positive" in
  guard negb (maximum_response_bytes =? CATALOG_RESPONSE_LIMIT_BYTES)%Z
    or "shared catalog runtime supports a " +:+ display CATALOG_RESPONSE_LIMIT_BYTES
       +:+ "-byte response limit, found " +:+ display maximum_response_bytes in
  Ok tt.

(** The stage of a failed authentication. *)
Definition authentication_stage (stage : ProbeFailureStage.t) : CatalogNegotiationFailureStage :=
  match stage with
  | ProbeFailureStage.Authentication => Authentication
  | ProbeFailureStage.Request | ProbeFailureStage.Response => Config
  end.

Module Runtime.
Section Runtime.
Context `{UrlParser, UrlOps, UrlEdit, FormCodec, JsonParser, Sha256, ClientBuilder} {W : Type}
  `{HttpClient W}.

(** The outcome of [connect_target], from the negotiation. *)
Definition connection_outcome (adapter : CatalogAdapter) (routing : RoutingNegotiation)
    (maximum_response_bytes : Z) : CatalogConnectionOutcome :=
  let failed stage detail := ConnectionFailed {| nf_stage := stage; nf_detail := detail |} in
  match at_failure (neg_authentication routing) with
  | Some failure =>
      failed (authentication_stage (pf_stage failure)) (bounded_detail (pf_explanation failure))
  | None =>
      if negb (Fact.passed (neg_config_routing routing)) then
        failed Config (bounded_detail
          (Fact.explanation (neg_config_routing routing) "catalog config routing did not pass"))
      else
        match neg_codec routing with
        | None => failed Routing "namespace codec was unavailable after successful config validation"
        | Some codec =>
            match CatalogRoutes_new adapter (rct_prefix (neg_config routing)) codec "catalog" with
            | Err error => failed Routing (bounded_detail error)
            | Ok routes =>
                Connected {| session_bearer_token := at_bearer_token (neg_authentication routing);
                             session_sensitive_values := at_sensitive_values (neg_authentication routing);
                             session_routes := routes;
                             session_maximum_response_bytes := maximum_response_bytes |}
            end
        end
  end.

Definition connect_target (target : ProbeTarget) (request_timeout_ms maximum_response_bytes : Z)
    (getenv : string -> option string) (w : W) : result CatalogConnectionAttempt string * W :=
  match http_client request_timeout_ms with
  | Err e => (Err e, w)
  | Ok _ =>
      let '(negotiated, w) := negotiate_routing (target_adapter target) getenv w in
      (let? routing := negotiated in
       let evidence := {|
         ne_adapter := transcript_adapter (target_adapter target) (target_component target);
         ne_authentication := at_transcript (neg_authentication routing);
         ne_config := neg_config routing;
         ne_redactions := sort_dedup (neg_redactions routing) |} in
       Ok {| ca_evidence := evidence;
             ca_outcome := connection_outcome (target_adapter target) routing maximum_response_bytes |}, w)
  end.

(** The checks of [connect_catalog] before any network access. *)
Definition admitted_target (profile : Profile) (scenario : Scenario) (catalog : ComponentId)
    (request_timeout_ms maximum_response_bytes : Z) : result ProbeTarget string :=
  check? validate_connection_limits request_timeout_ms maximum_response_bytes in
  let? target := resolve_target profile scenario catalog in
  match first_required_limitation target scenario with
  | Some limitation =>
      Err ("catalog `" +:+ catalog +:+ "` declares required capability `"
           +:+ lim_capability limitation +:+ "` unsupported")
  | None => Ok target
  end.

Definition connect_catalog (profile : Profile) (scenario : Scenario) (catalog : ComponentId)
    (request_timeout_ms maximum_response_bytes : Z) (getenv : string -> option string) (w : W)
  : result CatalogConnectionAttempt string * W :=
  match admitted_target profile scenario catalog request_timeout_ms maximum_response_bytes with
  | Err e => (Err e, w)
  | Ok target => connect_target target request_timeout_ms maximum_response_bytes getenv w
  end.

Definition connect_catalog_adapter (profile : Profile) (catalog : ComponentId)
    (request_timeout_ms maximum_response_bytes : Z) (getenv : string -> option string) (w : W)
  : result CatalogConnectionAttempt string * W :=
  match (check? validate_connection_limits request_timeout_ms maximum_response_bytes in
         resolve_adapter profile catalog) with
  | Err e => (Err e, w)
  | Ok target => connect_target target request_timeout_ms maximum_response_bytes getenv w
  end.
End Runtime.
End Runtime.
