(* ===== verification/Operation.v ===== *)
(** * Recorded operations (crates/conformance/src/operation.rs)

    A probe runs operations through an [OperationRecorder], which keeps the
    sanitised transcript of each. A probe's steps are computations of the monad
    [Probe]: they may fail with an error (anyhow), read and extend the recorder,
    and act on the world behind the network. Decoding a JSON value into a
    response type is derived code, the class [FromValue]. *)

From S2P Require Import Prelude Order RustStr Json ContractValue ContractScenario ContractAdapter ContractResult.
From S2P Require Import Ledger Transport Sanitize Capture.
Open Scope string_scope.

(** [serde_json::from_value]. *)
Class FromValue (T : Type) := from_value : Value -> result T string.

(** The JSON array of a slice of strings. *)
Definition str_array (l : list string) : Value := Array (Str <$> l).

Record OperationHttpRequestTranscript := {
  op_method : string;
  op_url : string;
  op_headers : gmap string string;
  op_body : option Value;
}.

Inductive OperationExecution :=
| Attempted (request : OperationHttpRequestTranscript) (response : option HttpResponseTranscript)
    (failure : option ProbeFailure)
| NotAttempted (reason : string).

Record OperationTranscript := {
  ot_id : string;
  ot_capability : option CapabilityId;
  ot_execution : OperationExecution;
}.

Record Observation := {
  obs_status : option Z;
  obs_private_json : option Value;
  obs_failure : option ProbeFailure;
}.

Record OperationRecorder := {
  rec_bearer_token : option string;
  rec_sensitive_values : list string;
  rec_operations : list OperationTranscript;
  rec_redactions : list string;
}.

(** [OperationRecorder::new]. *)
Definition new_recorder (bearer_token : option string) (sensitive_values : list string)
  : OperationRecorder := {|
  rec_bearer_token := bearer_token; rec_sensitive_values := sensitive_values;
  rec_operations := []; rec_redactions := [] |}.

Definition method_str (method : Method) : string :=
  match method with GET => "GET" | POST => "POST" | DELETE => "DELETE" | HEAD => "HEAD" end.

(** ** The probe monad *)

Definition Probe (W A : Type) : Type := OperationRecorder * W -> result A string * (OperationRecorder * W).

#[export] Instance Probe_ret W : MRet (Probe W) := fun A a s => (Ok a, s).
#[export] Instance Probe_bind W : MBind (Probe W) := fun A B k m s =>
  match m s with
  | (Ok a, s) => k a s
  | (Err e, s) => (Err e, s)
  end.

(** [e?] for a computation without effects. *)
Definition lift {W A} (r : result A string) : Probe W A := fun s => (r, s).

(** [for x in l { .. }], collecting the values of the bodies. *)
Fixpoint for_each {W A B} (l : list A) (body : A -> Probe W B) : Probe W (list B) :=
  match l with
  | [] => mret []
  | a :: l => b ← body a; bs ← for_each l body; mret (b :: bs)
  end.

(** [OperationRecorder::skip]. *)
Definition skip {W} (id : string) (capability : option string) (reason : string) : Probe W unit :=
  fun '(r, w) =>
    (Ok tt, ({| rec_bearer_token := rec_bearer_token r; rec_sensitive_values := rec_sensitive_values r;
                rec_operations := rec_operations r ++ [{| ot_id := id; ot_capability := capability;
                                                          ot_execution := NotAttempted reason |}];
                rec_redactions := rec_redactions r |}, w)).

(** [for (id, capability) in [..] { recorder.skip(id, Some(capability), reason) }]. *)
Definition skip_each {W} (operations : list (string * string)) (reason : string) : Probe W unit :=
  _ ← for_each operations (fun '(id, capability) => skip id (Some capability) reason); mret tt.

Section Attempt.
Context `{UrlParser, UrlOps, UrlEdit, FormCodec, JsonParser, Sha256} {W : Type} `{HttpClient W}.

(** The sanitised request and the redactions its transcript records. *)
Definition request_transcript (r : OperationRecorder) (id : string) (method : Method) (url : Url)
    (body : option Value) (idempotency_key : option IdempotencyKey) (request_sensitive_values : list string)
  : OperationHttpRequestTranscript * list string :=
  let at_request (path : string) : string := "operations." +:+ id +:+ ".request." +:+ path in
  let headers : gmap string string := {[ "accept" := "application/json" ]} in
  let headers := if is_none body then headers else <[ "content-type" := "application/json" ]> headers in
  let headers := if is_none (rec_bearer_token r) then headers else <[ "authorization" := REDACTED ]> headers in
  let headers := if is_none idempotency_key then headers else <[ "idempotency-key" := REDACTED ]> headers in
  let sanitized_url := sanitize_json (Str (url_to_string url)) request_sensitive_values in
  let sanitized_body := (fun body => sanitize_json body request_sensitive_values) <$> body in
  ({| op_method := method_str method;
      op_url := match sj_value sanitized_url with Str text => text | _ => "" end;
      op_headers := headers;
      op_body := sj_value <$> sanitized_body |},
   ((if is_none (rec_bearer_token r) then [] else [at_request "headers.authorization"])
    ++ (if is_none idempotency_key then [] else [at_request "headers.idempotency-key"])
    ++ (match sj_redactions sanitized_url with [] => [] | _ => [at_request "url"] end)
    ++ match sanitized_body with
       | Some sanitized => (fun path => at_request ("body" +:+ path)) <$> sj_redactions sanitized
       | None => []
       end)%list).

Definition attempt_with_idempotency (id : string) (capability : option string) (method : Method) (url : Url)
    (body : option Value) (idempotency_key : option IdempotencyKey) : Probe W Observation :=
  fun '(r, w) =>
    let request_sensitive_values :=
      (rec_sensitive_values r ++ match idempotency_key with Some key => [key_value key] | None => [] end)%list in
    let '(request, request_redactions) :=
      request_transcript r id method url body idempotency_key request_sensitive_values in
    let '(captured, w) :=
      match idempotency_key with
      | Some key =>
          execute_json_request_with_idempotency method url (rec_bearer_token r) body
            request_sensitive_values {| ir_response_label := id; ir_key := key |} w
      | None =>
          execute_json_request method url (rec_bearer_token r) body request_sensitive_values id w
      end in
    (Ok {| obs_status := rs_status <$> cap_response captured;
           obs_private_json := cap_private_json captured;
           obs_failure := cap_failure captured |},
     ({| rec_bearer_token := rec_bearer_token r;
         rec_sensitive_values := rec_sensitive_values r;
         rec_operations := rec_operations r ++ [{|
           ot_id := id; ot_capability := capability;
           ot_execution := Attempted request (cap_response captured) (cap_failure captured) |}];
         rec_redactions := rec_redactions r ++ request_redactions
           ++ ((fun path => "operations." +:+ id +:+ "." +:+ path) <$> cap_redactions captured) |}, w)).

Definition attempt (id : string) (capability : option string) (method : Method) (url : Url)
    (body : option Value) : Probe W Observation :=
  attempt_with_idempotency id capability method url body None.

Definition attempt_idempotent (id : string) (capability : option string) (method : Method) (url : Url)
    (body : option Value) (idempotency_key : IdempotencyKey) : Probe W Observation :=
  attempt_with_idempotency id capability method url body (Some idempotency_key).
End Attempt.

(** ** Judging observations *)

Record IcebergError := { err_message : string; err_type : string; err_code : Z }.
Record IcebergErrorResponse := { err_error : IcebergError }.

Definition validate_status (observation : Observation) (allowed : list Z) : result unit string :=
  match obs_status observation with
  | Some status =>
      if existsb (Z.eqb status) allowed then Ok tt
      else Err ("HTTP " +:+ display status +:+ " is not in " +:+ debug_list allowed)
  | None => Err (from_option pf_explanation "no response was received" (obs_failure observation))
  end.

Definition parse_json_response {T} `{FromValue T} (observation : Observation) (status : Z) : result T string :=
  check? validate_status observation [status] in
  let? value := ok_or (obs_private_json observation) "response did not contain valid JSON" in
  map_err (fun error => "invalid response shape: " +:+ error) (from_value value).

Section ErrorResponses.
Context `{FromValue IcebergErrorResponse}.

Definition validate_spec_error_response (observation : Observation) (status : Z) : result string string :=
  let? response := parse_json_response observation status in
  let error := err_error response in
  guard negb (err_code error =? status)%Z
    or "error code " +:+ display (err_code error) +:+ " does not match HTTP " +:+ display status in
  guard blank (err_type error) or "error type is empty" in
  guard blank (err_message error) or "error message is empty" in
  Ok (err_type error).

Definition validate_error_response (observation : Observation) (status : Z) (error_type : string)
  : result unit string :=
  let? actual_type := validate_spec_error_response observation status in
  guard negb (actual_type =? error_type)
    or "error type `" +:+ actual_type +:+ "` does not match `" +:+ error_type +:+ "`" in
  Ok tt.
End ErrorResponses.
