(* ===== verification/ProbePolicy.v ===== *)
(** * Policies of the conformance probes

    Each probe implements one version of one scenario: before it runs, the
    scenario must declare exactly the parameters, capabilities, steps and
    assertions the probe was written for. crates/conformance/src/config.rs and
    {namespace,table,commit}/policy.rs spell the same checks out four times with
    different tables; here the checks are [validate_invocation], the tables of
    a probe are a [ProbePolicy]. *)

From S2P Require Import Prelude RustStr Float64 Json ContractValue ContractScenario ContractAdapter ContractProfile.
From S2P Require Import ContractResult Transport Capture Routing.
Open Scope string_scope.

Definition ICEBERG_REST_OPENAPI_SOURCE : string :=
  "https://github.com/apache/iceberg/blob/apache-iceberg-1.11.0/open-api/rest-catalog-open-api.yaml".
Definition ICEBERG_REST_OPENAPI_SHA256 : string :=
  "80d2ec83a70eeff6e7194853f8791c17cceb14610fae6a0e6afdd2921806ee4a".

(** [serde_json::to_value] of a check, by its derived serialisation: internally
    tagged by [kind], names in kebab case. *)
Definition check_to_value (check : AssertionCheck) : Value :=
  let tagged kind fields := json_object (("kind", Str kind) :: fields) in
  match check with
  | HttpStatus allowed => tagged "http-status" [("allowed", Array ((fun n => Num (PosInt n)) <$> allowed))]
  | JsonPointerEquals pointer expected =>
      tagged "json-pointer-equals" [("pointer", Str pointer); ("expected", expected)]
  | ArtifactExists role => tagged "artifact-exists" [("role", Str role)]
  | ObjectCountDelta minimum => tagged "object-count-delta" [("minimum", Num (PosInt minimum))]
  | NoRequestErrors => tagged "no-request-errors" []
  | ExactReplay => tagged "exact-replay" []
  | DataRead expectation => tagged "data-read" [("expectation", Str expectation)]
  | Custom name configuration => tagged "custom" [("name", Str name); ("configuration", configuration)]
  end.

(** [json!({"kind": "custom", "name": .., "configuration": ..})]. *)
Definition custom_check (name : string) (configuration : list (string * Value)) : Value :=
  json_object [("kind", Str "custom"); ("name", Str ("querygraph/catalog-bench/" +:+ name));
               ("configuration", json_object configuration)].

Record ExpectedStep := {
  es_id : string;
  es_actor : ActorRole.t;
  es_operation : string;
  es_dependencies : list string;
  es_timeout_ms : option Z;
}.

Definition harness_step id operation dependencies timeout_ms : ExpectedStep := {|
  es_id := id; es_actor := ActorRole.Harness; es_operation := operation;
  es_dependencies := dependencies; es_timeout_ms := timeout_ms |}.
Definition client_step id operation dependencies : ExpectedStep := {|
  es_id := id; es_actor := ActorRole.Client; es_operation := operation;
  es_dependencies := dependencies; es_timeout_ms := Some 30000%Z |}.

Record ExpectedAssertion := {
  ea_id : string;
  ea_step : string;
  ea_required : bool;
  ea_check : Value;
}.

Record ProbePolicy := {
  pp_probe : string;
  pp_scenario : string;
  pp_version : Z;
  pp_parameters : list (string * Value);
  pp_capabilities : list (string * RequirementLevel);
  pp_steps : list ExpectedStep;
  pp_assertions : list ExpectedAssertion;
}.

Section Policy.
Context (policy : ProbePolicy).
Let probe := pp_probe policy.
Let version := display (pp_version policy).

Definition validate_parameters (scenario : Scenario) : result unit string :=
  guard negb (map_eqb value_eqb (scen_parameters scenario) (list_to_map (pp_parameters policy)))
    or probe +:+ " probe scenario parameters drifted from the implemented v" +:+ version +:+ " policy" in
  Ok tt.

(** [for (actual, expected) in actual.iter().zip(expected)]: the first drift. *)
Definition check_each {A B} (matches : A -> B -> bool) (name : B -> string) (what : string)
    (actual : list A) (expected : list B) : result unit string :=
  guard negb (length actual =? length expected)%nat
    or probe +:+ " probe scenario must declare exactly " +:+ display (len expected) +:+ " "
       +:+ (if what =? "capability" then "capabilities" else what +:+ "s") in
  match find (fun pair => negb (matches pair.1 pair.2)) (zip actual expected) with
  | Some (_, e) => Err (probe +:+ " probe scenario " +:+ what +:+ " policy drifted at `" +:+ name e +:+ "`")
  | None => Ok tt
  end.

Definition capability_matches (requirement : CapabilityRequirement) (expected : string * RequirementLevel)
  : bool :=
  (req_capability requirement =? expected.1)
  && bool_decide (req_level requirement = expected.2)
  && bool_decide (req_specification requirement = Some ICEBERG_REST_OPENAPI_SOURCE).

Definition validate_capabilities (scenario : Scenario) : result unit string :=
  check_each capability_matches fst "capability" (scen_capabilities scenario) (pp_capabilities policy).

Definition step_matches (step : ScenarioStep) (expected : ExpectedStep) : bool :=
  (step_id step =? es_id expected)
  && bool_decide (step_actor step = es_actor expected)
  && (step_operation step =? es_operation expected)
  && bool_decide (step_depends_on step = es_dependencies expected)
  && bool_decide (step_timeout_ms step = es_timeout_ms expected)
  && bool_decide (step_parameters step = ∅).

Definition validate_steps (scenario : Scenario) : result unit string :=
  check_each step_matches es_id "step" (scen_steps scenario) (pp_steps policy).

Definition assertion_matches (assertion : AssertionSpec) (expected : ExpectedAssertion) : bool :=
  (spec_id assertion =? ea_id expected)
  && (spec_step assertion =? ea_step expected)
  && Bool.eqb (spec_required assertion) (ea_required expected)
  && value_eqb (check_to_value (spec_check assertion)) (ea_check expected).

Definition validate_assertions (scenario : Scenario) : result unit string :=
  check_each assertion_matches ea_id "assertion" (scen_assertions scenario) (pp_assertions policy).

Definition validate_scenario_policy (scenario : Scenario) : result unit string :=
  check? validate_parameters scenario in
  check? validate_capabilities scenario in
  check? validate_steps scenario in
  check? validate_assertions scenario in
  guard negb (bool_decide (scen_extensions scenario = ∅))
    or probe +:+ " probe scenario v" +:+ version +:+ " does not accept extensions" in
  Ok tt.

Definition validate_invocation (profile : Profile) (scenario : Scenario) (catalog : ComponentId)
  : result unit string :=
  guard negb (scen_id scenario =? pp_scenario policy)
    or probe +:+ " probe requires scenario `" +:+ pp_scenario policy +:+ "`, found `"
       +:+ scen_id scenario +:+ "`" in
  guard negb (scen_version scenario =? pp_version policy)%Z
    or probe +:+ " probe supports scenario version " +:+ version +:+ ", found "
       +:+ display (scen_version scenario) in
  check? validate_scenario_policy scenario in
  check? resolve_target profile scenario catalog in
  Ok tt.

(** What an accepted scenario declares. *)
Record policy_holds (scenario : Scenario) : Prop := {
  ph_id : scen_id scenario = pp_scenario policy;
  ph_version : scen_version scenario = pp_version policy;
  ph_capabilities : Forall2 (fun r e => capability_matches r e = true)
    (scen_capabilities scenario) (pp_capabilities policy);
  ph_steps : Forall2 (fun s e => step_matches s e = true) (scen_steps scenario) (pp_steps policy);
  ph_assertions : Forall2 (fun a e => assertion_matches a e = true)
    (scen_assertions scenario) (pp_assertions policy);
}.

Lemma check_each_Forall2 {A B} (matches : A -> B -> bool) name what (l : list A) (k : list B) :
  check_each matches name what l k = Ok tt <-> Forall2 (fun a b => matches a b = true) l k.
Proof.
  unfold check_each. destruct (Nat.eqb_spec (length l) (length k)) as [Hlen|Hlen]; cbn.
  - revert k Hlen. induction l as [|a l IH]; intros [|b k] Hlen; try done.
    cbn in *. destruct (matches a b) eqn:Hm; cbn.
    + rewrite IH by lia. split; [by constructor|by inversion 1].
    + split; [done|]. inversion 1. congruence.
  - split; [done|]. intros H. by apply Forall2_length in H.
Qed.

Lemma validate_invocation_holds profile scenario catalog :
  validate_invocation profile scenario catalog = Ok tt -> policy_holds scenario.
Proof.
  unfold validate_invocation, validate_scenario_policy. intros H. inv_ok H.
  repeat match goal with x : unit |- _ => destruct x end. brust in *.
  split; [done|done|by eapply check_each_Forall2..].
Qed.
End Policy.
