(* ===== verification/ConfigProbe.v ===== *)
(** * The config-negotiation probe (crates/conformance/src/config.rs)

    Authenticates, reads the catalog's config, and judges its media type, its
    shape, the route prefix and the advertised endpoints. *)

From S2P Require Import Prelude Order RustStr Json ContractValue ContractScenario ContractAdapter ContractProfile.
From S2P Require Import ContractResult Ledger Transport Sanitize Capture Routing ProbePolicy.
Open Scope string_scope.

Definition CONFIG_TRANSCRIPT_FORMAT : string := "catalog-bench/config-transcript/v1".
Definition CONFIG_SCENARIO_ID : string := "iceberg-rest.config.negotiation".
Definition CONFIG_SCENARIO_VERSION : Z := 1.
Definition RESPONSE_MEDIA_TYPE : string := "application/json".

Definition STANDARD_ENDPOINTS : list string := [
  "GET /v1/config";
  "POST /v1/oauth/tokens";
  "GET /v1/{prefix}/namespaces";
  "POST /v1/{prefix}/namespaces";
  "GET /v1/{prefix}/namespaces/{namespace}";
  "HEAD /v1/{prefix}/namespaces/{namespace}";
  "DELETE /v1/{prefix}/namespaces/{namespace}";
  "POST /v1/{prefix}/namespaces/{namespace}/properties";
  "GET /v1/{prefix}/namespaces/{namespace}/tables";
  "POST /v1/{prefix}/namespaces/{namespace}/tables";
  "POST /v1/{prefix}/namespaces/{namespace}/tables/{table}/plan";
  "GET /v1/{prefix}/namespaces/{namespace}/tables/{table}/plan/{plan-id}";
  "DELETE /v1/{prefix}/namespaces/{namespace}/tables/{table}/plan/{plan-id}";
  "POST /v1/{prefix}/namespaces/{namespace}/tables/{table}/tasks";
  "POST /v1/{prefix}/namespaces/{namespace}/register";
  "GET /v1/{prefix}/namespaces/{namespace}/tables/{table}";
  "POST /v1/{prefix}/namespaces/{namespace}/tables/{table}";
  "DELETE /v1/{prefix}/namespaces/{namespace}/tables/{table}";
  "HEAD /v1/{prefix}/namespaces/{namespace}/tables/{table}";
  "GET /v1/{prefix}/namespaces/{namespace}/tables/{table}/credentials";
  "POST /v1/{prefix}/namespaces/{namespace}/tables/{table}/sign";
  "POST /v1/{prefix}/tables/rename";
  "POST /v1/{prefix}/namespaces/{namespace}/tables/{table}/metrics";
  "POST /v1/{prefix}/transactions/commit";
  "GET /v1/{prefix}/namespaces/{namespace}/views";
  "POST /v1/{prefix}/namespaces/{namespace}/views";
  "GET /v1/{prefix}/namespaces/{namespace}/views/{view}";
  "POST /v1/{prefix}/namespaces/{namespace}/views/{view}";
  "DELETE /v1/{prefix}/namespaces/{namespace}/views/{view}";
  "HEAD /v1/{prefix}/namespaces/{namespace}/views/{view}";
  "POST /v1/{prefix}/views/rename";
  "POST /v1/{prefix}/namespaces/{namespace}/register-view"
].

Module EndpointAdvertisement.
Inductive t :=
| Explicit (endpoints : list string)
| Omitted
| Invalid (explanation : string)
| NotEvaluated (reason : string).
End EndpointAdvertisement.

Record ConfigTranscript := {
  cft_format : string;
  cft_profile : ProfileId;
  cft_scenario : TranscriptScenario;
  cft_contract_digests : ContractDigests;
  cft_adapter : TranscriptAdapter;
  cft_classification : ProbeClassification.t;
  cft_authentication : AuthenticationTranscript;
  cft_request : HttpRequestTranscript;
  cft_response : option HttpResponseTranscript;
  cft_prefix : PrefixResolution.t;
  cft_endpoints : EndpointAdvertisement.t;
  cft_assertions : list ProbeAssertion;
  cft_failure : option ProbeFailure;
  cft_sanitization : SanitizationTranscript;
}.

(** [ConfigTranscript::passed] and its namesakes of the other transcripts. *)
Definition classification_passed (classification : ProbeClassification.t) : bool :=
  match classification with ProbeClassification.Pass => true | _ => false end.

Record ProbeFacts := {
  pft_authentication_ready : bool;
  pft_response_status : option Z;
  pft_response_content_type : option string;
  pft_config_map_shape : option (result unit string);
  pft_prefix : PrefixResolution.t;
  pft_endpoints : EndpointAdvertisement.t;
  pft_transcript_sanitized : bool;
}.

(** ** The policy *)

Definition config_parameters : list (string * Value) :=
  [("maximum_response_bytes", Num (PosInt MAXIMUM_RESPONSE_BYTES));
   ("response_media_type", Str RESPONSE_MEDIA_TYPE);
   ("transcript_format", Str CONFIG_TRANSCRIPT_FORMAT);
   ("iceberg_openapi_source", Str ICEBERG_REST_OPENAPI_SOURCE);
   ("iceberg_openapi_sha256", Str ICEBERG_REST_OPENAPI_SHA256)].

Definition config_capabilities : list (string * RequirementLevel) :=
  [("iceberg-rest.config.read", Required);
   ("iceberg-rest.config.endpoint-advertisement", Required);
   ("iceberg-rest.config.warehouse-routing", Required)].

Definition config_steps : list ExpectedStep :=
  [harness_step "negotiate-authentication" "authentication.negotiate" [] None;
   client_step "request-config" "config.get" ["negotiate-authentication"];
   harness_step "resolve-prefix" "config.resolve-prefix" ["request-config"] None;
   harness_step "validate-endpoints" "config.validate-endpoints" ["request-config"] None;
   harness_step "sanitize-transcript" "evidence.sanitize-http-transcript"
     ["resolve-prefix"; "validate-endpoints"] None].

Definition config_assertions : list ExpectedAssertion :=
  let required id step check := {| ea_id := id; ea_step := step; ea_required := true; ea_check := check |} in
  [required "authentication-ready" "negotiate-authentication"
     (custom_check "authentication-ready-v1" [("persist_token", Bool false)]);
   required "config-http-success" "request-config"
     (json_object [("kind", Str "http-status"); ("allowed", Array [Num (PosInt 200)])]);
   required "config-media-type" "request-config"
     (custom_check "config-media-type-v1" [("allowed", Array [Str RESPONSE_MEDIA_TYPE])]);
   required "config-map-shape" "request-config"
     (custom_check "config-map-shape-v1" [("map_fields", Array [Str "defaults"; Str "overrides"])]);
   required "route-prefix-resolved" "resolve-prefix"
     (custom_check "route-prefix-resolution-v1"
        [("allowed_modes", Array [Str "unprefixed"; Str "static"; Str "negotiated"])]);
   required "endpoint-advertisement-valid" "validate-endpoints"
     (custom_check "endpoint-advertisement-v1"
        [("absence_semantics", Str "client-defined-legacy-defaults"); ("path_prefix", Str "/v1/")]);
   required "transcript-sanitized" "sanitize-transcript"
     (custom_check "sanitized-http-transcript-v1"
        [("request_header_policy", Str "allowlist-and-redact-authorization");
         ("response_header_policy", Str "allowlist");
         ("response_json_policy", Str "recursive-secret-key-redaction")])].

Definition config_policy : ProbePolicy := {|
  pp_probe := "config";
  pp_scenario := CONFIG_SCENARIO_ID;
  pp_version := CONFIG_SCENARIO_VERSION;
  pp_parameters := config_parameters;
  pp_capabilities := config_capabilities;
  pp_steps := config_steps;
  pp_assertions := config_assertions;
|}.

(** ** Inspecting the config body *)

Fixpoint parse_endpoints (endpoints : list Value) (parsed : list string) : EndpointAdvertisement.t :=
  match endpoints with
  | [] => EndpointAdvertisement.Explicit parsed
  | endpoint :: rest =>
      match as_str endpoint with
      | None => EndpointAdvertisement.Invalid "every config endpoint must be a string"
      | Some endpoint =>
          if negb (bool_decide (endpoint ∈ STANDARD_ENDPOINTS))
          then EndpointAdvertisement.Invalid
                 ("`" +:+ endpoint +:+ "` is not an Apache Iceberg 1.11.0 REST endpoint")
          else parse_endpoints rest (parsed ++ [endpoint])
      end
  end.

Definition inspect_endpoints (body : option Value) : EndpointAdvertisement.t :=
  match body with
  | None => EndpointAdvertisement.NotEvaluated "config response has no captured JSON body"
  | Some body =>
      match value_get "endpoints" body with
      | None => EndpointAdvertisement.Omitted
      | Some endpoints =>
          match as_array endpoints with
          | None => EndpointAdvertisement.Invalid "config `endpoints` must be an array when present"
          | Some endpoints => parse_endpoints endpoints []
          end
      end
  end.

(** One iteration of the loop over the two maps. *)
Definition validate_config_map (object : list (string * Value)) (field : string) : result unit string :=
  let? value := ok_or (member field object) ("config response is missing required `" +:+ field +:+ "` map") in
  let? properties := ok_or (as_object value) ("config `" +:+ field +:+ "` must be a JSON object when present") in
  match find (fun entry : string * Value => is_none (as_str entry.2)) properties with
  | Some (name, _) => Err ("config `" +:+ field +:+ "." +:+ name +:+ "` must be a string map value")
  | None => Ok tt
  end.

Definition validate_config_map_shape (body : Value) : result unit string :=
  let? object := ok_or (as_object body) "config response must be a JSON object" in
  check? validate_config_map object "defaults" in
  validate_config_map object "overrides".

(** ** Assertions *)

Definition boolean_outcome (value : bool) (failure : string) : AssertionOutcome :=
  if value then AssertionPass else AssertionFail failure.

Definition media_type_outcome (facts : ProbeFacts) : AssertionOutcome :=
  match pft_response_content_type facts, pft_response_status facts with
  | Some content_type, _ =>
      if is_json_media_type content_type then AssertionPass
      else AssertionFail ("response Content-Type `" +:+ content_type +:+ "` is not `"
                          +:+ RESPONSE_MEDIA_TYPE +:+ "`")
  | None, Some _ => AssertionFail "config response omitted Content-Type"
  | None, None => NotEvaluated "no config response was received"
  end.

Definition evaluate_custom (name : string) (facts : ProbeFacts) : AssertionOutcome :=
  if name =? "querygraph/catalog-bench/authentication-ready-v1" then
    boolean_outcome (pft_authentication_ready facts) "authentication negotiation did not complete"
  else if name =? "querygraph/catalog-bench/config-media-type-v1" then media_type_outcome facts
  else if name =? "querygraph/catalog-bench/config-map-shape-v1" then
    match pft_config_map_shape facts with
    | Some (Ok _) => AssertionPass
    | Some (Err explanation) => AssertionFail explanation
    | None => NotEvaluated "no JSON config body was captured"
    end
  else if name =? "querygraph/catalog-bench/route-prefix-resolution-v1" then
    match pft_prefix facts with
    | PrefixResolution.Failed explanation => AssertionFail explanation
    | PrefixResolution.NotEvaluated reason => NotEvaluated reason
    | _ => AssertionPass
    end
  else if name =? "querygraph/catalog-bench/endpoint-advertisement-v1" then
    match pft_endpoints facts with
    | EndpointAdvertisement.Explicit _ | EndpointAdvertisement.Omitted => AssertionPass
    | EndpointAdvertisement.Invalid explanation => AssertionFail explanation
    | EndpointAdvertisement.NotEvaluated reason => NotEvaluated reason
    end
  else if name =? "querygraph/catalog-bench/sanitized-http-transcript-v1" then
    boolean_outcome (pft_transcript_sanitized facts)
      "sanitized evidence still contains a sensitive runtime value"
  else AssertionFail "assertion check is not implemented by the config probe".

Definition evaluate_assertion (check : AssertionCheck) (facts : ProbeFacts) : AssertionOutcome :=
  match check with
  | HttpStatus allowed =>
      match pft_response_status facts with
      | Some status =>
          if existsb (Z.eqb status) allowed then AssertionPass
          else AssertionFail ("HTTP " +:+ display status +:+ " is not in " +:+ debug_list allowed)
      | None => NotEvaluated "no config response was received"
      end
  | Custom name _ => evaluate_custom name facts
  | _ => AssertionFail "assertion check is not implemented by the config probe"
  end.

Definition config_evaluate_assertions (scenario : Scenario) (facts : ProbeFacts) : list ProbeAssertion :=
  (fun assertion => {| pa_assertion := spec_id assertion; pa_required := spec_required assertion;
                       pa_outcome := evaluate_assertion (spec_check assertion) facts |})
    <$> scen_assertions scenario.

(** ** The probe *)

(** What a probe that is declared unsupported says about a limitation. *)
Definition unsupported_reason (limitation : UnsupportedAdapterCapability) : string :=
  "required capability `" +:+ lim_capability limitation +:+ "` is declared unsupported before execution".

Definition unsupported_classification (limitation : UnsupportedAdapterCapability) : ProbeClassification.t :=
  ProbeClassification.Unsupported (lim_capability limitation) (lim_attributed_to limitation)
    (lim_explanation limitation).

Definition not_attempted_authentication (adapter : CatalogAdapter) : AuthenticationTranscript := {|
  au_mode := authentication_mode (ad_authentication adapter);
  au_outcome := AuthenticationOutcome.NotAttempted;
  au_token_url := None; au_scope := None; au_http_status := None |}.

Definition automated_sanitization (redactions : list string) (raw_secrets_persisted : bool)
  : SanitizationTranscript := {|
  sa_policy := "automated-v1"; sa_redactions := redactions;
  sa_raw_secrets_persisted := raw_secrets_persisted; sa_raw_response_body_persisted := false |}.

(** The classification a probe derives from its assertions. *)
Definition classify_probe (assertions : list ProbeAssertion) (summary : string) : ProbeClassification.t :=
  if passed_required_assertions assertions then ProbeClassification.Pass
  else ProbeClassification.Fail summary.

Definition ConfigEvidence : Type :=
  AuthenticationTranscript * HttpRequestTranscript * option HttpResponseTranscript
  * PrefixResolution.t * EndpointAdvertisement.t.

Section Probe.
Context `{UrlParser, UrlOps, UrlEdit, FormCodec, JsonParser, Sha256, ClientBuilder} {W : Type}
  `{HttpClient W, ToVecPretty ConfigEvidence}.

(** The transcript concluded from the exchange. *)
Definition conclude_config_probe (profile : Profile) (scenario : Scenario) (contract_digests : ContractDigests)
    (target : ProbeTarget) (request : HttpRequestTranscript) (authentication : AuthenticationAttempt)
    (captured : CapturedResponse) : result ConfigTranscript string :=
  let response := cap_response captured in
  let body := response ≫= response_transcript_json in
  let failure := or_else (at_failure authentication) (cap_failure captured) in
  let prefix := resolve_prefix (target_adapter target) body in
  let endpoints := inspect_endpoints body in
  let config_map_shape := validate_config_map_shape <$> body in
  let redactions := sort_dedup (cap_redactions captured
    ++ if is_some (at_bearer_token authentication)
       then ["request.headers.authorization"; "authentication.oauth2-request-credentials";
             "authentication.oauth2-response-token"]
       else []) in
  let? serialized_evidence :=
    encode_evidence (at_transcript authentication, request, response, prefix, endpoints) in
  let facts := {|
    pft_authentication_ready := is_none (at_failure authentication);
    pft_response_status := rs_status <$> response;
    pft_response_content_type := response ≫= (fun response => rs_headers response !! "content-type");
    pft_config_map_shape := config_map_shape;
    pft_prefix := prefix;
    pft_endpoints := endpoints;
    pft_transcript_sanitized :=
      negb (contains_sensitive_value serialized_evidence (at_sensitive_values authentication)) |} in
  let assertions := config_evaluate_assertions scenario facts in
  Ok {| cft_format := CONFIG_TRANSCRIPT_FORMAT;
        cft_profile := prof_id profile;
        cft_scenario := transcript_scenario scenario;
        cft_contract_digests := contract_digests;
        cft_adapter := transcript_adapter (target_adapter target) (target_component target);
        cft_classification := classify_probe assertions
          "one or more required config-negotiation assertions did not pass";
        cft_authentication := at_transcript authentication;
        cft_request := request;
        cft_response := response;
        cft_prefix := prefix;
        cft_endpoints := endpoints;
        cft_assertions := assertions;
        cft_failure := failure;
        cft_sanitization := automated_sanitization redactions false |}.

(** The transcript of an adapter that declares a required capability
    unsupported. *)
Definition unsupported_config_probe (profile : Profile) (scenario : Scenario)
    (contract_digests : ContractDigests) (target : ProbeTarget) (request : HttpRequestTranscript)
    (limitation : UnsupportedAdapterCapability) : ConfigTranscript :=
  let reason := unsupported_reason limitation in {|
    cft_format := CONFIG_TRANSCRIPT_FORMAT;
    cft_profile := prof_id profile;
    cft_scenario := transcript_scenario scenario;
    cft_contract_digests := contract_digests;
    cft_adapter := transcript_adapter (target_adapter target) (target_component target);
    cft_classification := unsupported_classification limitation;
    cft_authentication := not_attempted_authentication (target_adapter target);
    cft_request := request;
    cft_response := None;
    cft_prefix := PrefixResolution.NotEvaluated reason;
    cft_endpoints := EndpointAdvertisement.NotEvaluated reason;
    cft_assertions := not_evaluated_assertions scenario reason;
    cft_failure := None;
    cft_sanitization := automated_sanitization [] false |}.

Definition run_config_probe (profile : Profile) (scenario : Scenario) (catalog : ComponentId)
    (contract_digests : ContractDigests) (getenv : string -> option string) (w : W)
  : result ConfigTranscript string * W :=
  let prepared :=
    check? validate_invocation config_policy profile scenario catalog in
    let? target := resolve_target profile scenario catalog in
    let? url := config_url (target_adapter target) in
    Ok (target, url) in
  match prepared with
  | Err e => (Err e, w)
  | Ok (target, url) =>
      let adapter := target_adapter target in
      let request := {| rq_method := "GET"; rq_url := url_to_string url;
                        rq_headers := {[ "accept" := "application/json" ]} |} in
      match first_required_limitation target scenario with
      | Some limitation =>
          (Ok (unsupported_config_probe profile scenario contract_digests target request limitation), w)
      | None =>
          match http_client 30000 with
          | Err e => (Err e, w)
          | Ok _ =>
              let '(authentication, w) := acquire_authentication adapter getenv w in
              let request :=
                if is_some (at_bearer_token authentication)
                then {| rq_method := rq_method request; rq_url := rq_url request;
                        rq_headers := <[ "authorization" := REDACTED ]> (rq_headers request) |}
                else request in
              let '(captured, w) :=
                match at_bearer_token authentication, at_failure authentication with
                | Some token, _ =>
                    execute_json_request GET url (Some token) None (at_sensitive_values authentication) "config" w
                | None, None =>
                    execute_json_request GET url None None (at_sensitive_values authentication) "config" w
                | None, Some _ => (nothing_captured, w)
                end in
              (conclude_config_probe profile scenario contract_digests target request authentication captured, w)
          end
      end
  end.
End Probe.
