(* ===== verification/TableProtocol.v ===== *)
(** * Tables on the wire (crates/conformance/src/table_protocol.rs)

    Request locations and bodies of table creation, and the snapshot a committed
    table response must describe. *)

From S2P Require Import Prelude Order RustStr Json ContractAdapter ContractResult Transport Capture Routing Operation.
Open Scope string_scope.

(** [TableCreateLocations(Option<Url>)]. *)
Record TableCreateLocations := { create_root : option Url }.

Section Locations.
Context `{UrlParser, UrlOps}.

(** [TableCreateLocations::new]. *)
Definition TableCreateLocations_new (root : option string) : result TableCreateLocations string :=
  match root with
  | None => Ok {| create_root := None |}
  | Some location =>
      let? url := map_err (fun _ => "parse adapter create-table location root") (url_parse location) in
      guard url_cannot_be_a_base url
        or "adapter create-table location root cannot contain child table locations" in
      Ok {| create_root := Some url |}
  end.

(** [TableCreateLocations::for_table]. *)
Definition for_table (self : TableCreateLocations) (namespace : NamespaceIdentifier) (name : string)
  : result (option string) string :=
  match create_root self with
  | None => Ok None
  | Some root =>
      let? popped := ok_or (url_pop_if_empty root)
        "adapter create-table location root cannot contain path segments" in
      let? location := ok_or (url_push_segments popped (namespace_parts namespace ++ [name]))
        "adapter create-table location root cannot contain path segments" in
      Ok (Some (url_to_string location))
  end.
End Locations.

Definition properties_value (properties : gmap string string) : Value :=
  Object ((fun entry : string * string => (entry.1, Str entry.2)) <$> btree_entries String.compare properties).

Definition committed_table_request (name : string) (location : option string) (schema : Value)
    (properties : gmap string string) : Value :=
  json_object ([("name", Str name); ("schema", schema); ("stage-create", Bool false);
                ("properties", properties_value properties)]
               ++ match location with Some location => [("location", Str location)] | None => [] end)%list.

(** ** Response types *)

Record TableField := {
  fd_id : Z;
  fd_name : string;
  fd_required : bool;
  fd_type : Value;
}.

Record TableSchema := {
  sc_type : string;
  sc_schema_id : option Z;
  sc_fields : list TableField;
}.

Record TableMetadata := {
  md_format_version : Z;
  md_table_uuid : string;
  md_location : string;
  md_last_column_id : option Z;
  md_properties : gmap string string;
  md_schemas : list TableSchema;
  md_current_schema_id : option Z;
}.

Record LoadTableResult := {
  ltr_metadata_location : option string;
  ltr_metadata : TableMetadata;
}.

Record NamespaceResponse := { nsr_namespace : list string }.

Record TableSnapshot := {
  sn_metadata_location : string;
  sn_location : string;
  sn_uuid : string;
  sn_schema : TableSchema;
  sn_last_column_id : option Z;
  sn_properties : gmap string string;
}.

(** Derived [PartialEq] of schemas. *)
Definition field_eqb (a b : TableField) : bool :=
  (fd_id a =? fd_id b)%Z && (fd_name a =? fd_name b) && Bool.eqb (fd_required a) (fd_required b)
  && value_eqb (fd_type a) (fd_type b).
Definition schema_eqb (a b : TableSchema) : bool :=
  (sc_type a =? sc_type b) && bool_decide (sc_schema_id a = sc_schema_id b)
  && list_eqb field_eqb (sc_fields a) (sc_fields b).

(** ** Validation *)

Definition current_schema (metadata : TableMetadata) : result TableSchema string :=
  match md_current_schema_id metadata with
  | Some current =>
      ok_or (find (fun schema => bool_decide (sc_schema_id schema = Some current)) (md_schemas metadata))
        ("current-schema-id " +:+ display current +:+ " has no matching schema")
  | None =>
      match md_schemas metadata with
      | [schema] => Ok schema
      | _ => Err "table metadata omitted an unambiguous current schema"
      end
  end.

Section Responses.
Context `{FromValue NamespaceResponse, FromValue LoadTableResult}.

Definition validate_namespace_response (observation : Observation) (expected : NamespaceIdentifier)
  : result unit string :=
  let? response := parse_json_response observation 200 in
  let? actual := namespace_from_parts (nsr_namespace response) in
  if bool_decide (actual = expected) then Ok tt
  else Err ("response namespace " +:+ debug_strs (namespace_parts actual) +:+ " does not match "
            +:+ debug_strs (namespace_parts expected)).

Definition parse_table_snapshot (observation : Observation) (status : Z) : result TableSnapshot string :=
  let? response := parse_json_response observation status in
  let metadata := ltr_metadata response in
  let? metadata_location := ok_or
    (match ltr_metadata_location response with
     | Some location => if blank location then None else Some location
     | None => None
     end) "committed table response omitted a nonempty metadata-location" in
  guard negb ((1 <=? md_format_version metadata) && (md_format_version metadata <=? 3))%Z
    or "table format version " +:+ display (md_format_version metadata) +:+ " is outside 1..=3" in
  guard blank (md_table_uuid metadata) or "table metadata returned an empty table-uuid" in
  guard blank (md_location metadata) or "table metadata returned an empty location" in
  let? schema := current_schema metadata in
  Ok {| sn_metadata_location := metadata_location;
        sn_location := md_location metadata;
        sn_uuid := md_table_uuid metadata;
        sn_schema := schema;
        sn_last_column_id := md_last_column_id metadata;
        sn_properties := md_properties metadata |}.
End Responses.

Definition validate_same_table_snapshot (expected actual : TableSnapshot) : result unit string :=
  guard negb (sn_uuid actual =? sn_uuid expected)
    or "table UUID `" +:+ sn_uuid actual +:+ "` does not match `" +:+ sn_uuid expected +:+ "`" in
  guard negb (sn_metadata_location actual =? sn_metadata_location expected)
    or "metadata location `" +:+ sn_metadata_location actual +:+ "` does not match `"
       +:+ sn_metadata_location expected +:+ "`" in
  guard negb (sn_location actual =? sn_location expected)
    or "table location `" +:+ sn_location actual +:+ "` does not match `" +:+ sn_location expected +:+ "`" in
  guard negb (schema_eqb (sn_schema actual) (sn_schema expected))
    or "current table schema changed unexpectedly" in
  Ok tt.

(** A property of a snapshot, as the checks compare it. *)
Definition property_is (snapshot : TableSnapshot) (key expected : string) : bool :=
  bool_decide (sn_properties snapshot !! key = Some expected).
