(* ===== verification/NamespaceProbe.v ===== *)
(** * The namespace-behavior probe (crates/conformance/src/namespace)

    Creates three namespaces of a fixture, exercises listing, loading, property
    updates, hierarchy, pagination and error responses, and removes what it
    created. Nothing is mutated unless the fixture was shown to be absent. *)

From S2P Require Import Prelude Order RustStr Json ContractValue ContractScenario ContractAdapter ContractProfile.
From S2P Require Import ContractResult Ledger Transport Sanitize Capture Routing Operation ProbePolicy ConfigProbe.
Open Scope string_scope.

Definition NAMESPACE_TRANSCRIPT_FORMAT : string := "catalog-bench/namespace-transcript/v1".
Definition NAMESPACE_SCENARIO_ID : string := "iceberg-rest.namespace.behavior".
Definition NAMESPACE_SCENARIO_VERSION : Z := 1.
Definition REQUEST_TIMEOUT_MS : Z := 30000.
Definition PAGE_SIZE : Z := 1.
Definition MAXIMUM_PAGES : nat := 64.

Definition CREATE_CAPABILITY : string := "iceberg-rest.namespace.create".
Definition LIST_CAPABILITY : string := "iceberg-rest.namespace.list".
Definition LOAD_CAPABILITY : string := "iceberg-rest.namespace.load".
Definition UPDATE_CAPABILITY : string := "iceberg-rest.namespace.update-properties".
Definition DROP_CAPABILITY : string := "iceberg-rest.namespace.drop".
Definition HIERARCHY_CAPABILITY : string := "iceberg-rest.namespace.hierarchy".
Definition PAGINATION_CAPABILITY : string := "iceberg-rest.namespace.pagination".
Definition DUPLICATE_CAPABILITY : string := "iceberg-rest.namespace.error.duplicate".
Definition MISSING_PARENT_CAPABILITY : string := "iceberg-rest.namespace.error.missing-parent".

Definition OWNER_PROPERTY : string := "owner".
Definition REMOVE_PROPERTY : string := "c1-04.remove".
Definition STATE_PROPERTY : string := "c1-04.state".

(** ** Fixtures (namespace/routes.rs) *)

Definition FIXTURE_PREFIX : string := "cb_c104".

Record NamespaceFixture := {
  nf_id : string;
  nf_primary : NamespaceIdentifier;
  nf_sibling : NamespaceIdentifier;
  nf_child : NamespaceIdentifier;
  nf_missing_parent : NamespaceIdentifier;
}.

(** [NamespaceFixture::new]. *)
Definition NamespaceFixture_new (catalog : ComponentId) (id : string) : result NamespaceFixture string :=
  let? stem := fixture_stem FIXTURE_PREFIX catalog id in
  let? primary := namespace_single (stem +:+ "_a") in
  let? sibling := namespace_single (stem +:+ "_b") in
  let? child := namespace_child primary "child" in
  let? missing_parent := namespace_single (stem +:+ "_missing") in
  Ok {| nf_id := id; nf_primary := primary; nf_sibling := sibling; nf_child := child;
        nf_missing_parent := missing_parent |}.

(** ** Response types *)

Record NamespaceResponse := { nr_namespace : list string; nr_properties : option (gmap string string) }.
Record ListNamespacesResponse := { ln_namespaces : list (list string); ln_next_page_token : option string }.
Record UpdateNamespacePropertiesResponse := { un_updated : list string; un_removed : list string }.

(** ** Evidence *)

Module PaginationTranscript.
Inductive t :=
| Paginated (pages unique_namespaces : Z)
| UnpaginatedFallback (unique_namespaces : Z)
| Failed (explanation : string)
| NotEvaluated (reason : string).
End PaginationTranscript.

Record NamespaceTranscript := {
  nt_format : string;
  nt_profile : ProfileId;
  nt_scenario : TranscriptScenario;
  nt_contract_digests : ContractDigests;
  nt_adapter : TranscriptAdapter;
  nt_fixture : NamespaceFixture;
  nt_classification : ProbeClassification.t;
  nt_authentication : AuthenticationTranscript;
  nt_config : RoutingConfigTranscript;
  nt_operations : list OperationTranscript;
  nt_pagination : PaginationTranscript.t;
  nt_assertions : list ProbeAssertion;
  nt_sanitization : SanitizationTranscript;
}.

(** ** Facts *)

Record NamespaceFacts := {
  fact_authentication : Fact.t;
  fact_config_routing : Fact.t;
  fact_fixture_isolated : Fact.t;
  fact_create : Fact.t;
  fact_list : Fact.t;
  fact_load : Fact.t;
  fact_properties : Fact.t;
  fact_duplicate : Fact.t;
  fact_hierarchy : Fact.t;
  fact_pagination : Fact.t;
  fact_missing_parent : Fact.t;
  fact_cleanup : Fact.t;
  fact_transcript_sanitized : Fact.t;
}.

(** [NamespaceFacts::new]. *)
Definition NamespaceFacts_new (authentication_ready : bool) (config_routing : Fact.t) : NamespaceFacts :=
  let pending := Fact.NotEvaluated "namespace workflow did not reach this check" in {|
  fact_authentication := Fact.from_bool authentication_ready "authentication negotiation did not complete";
  fact_config_routing := config_routing;
  fact_fixture_isolated := pending; fact_create := pending; fact_list := pending; fact_load := pending;
  fact_properties := pending; fact_duplicate := pending; fact_hierarchy := pending;
  fact_pagination := pending; fact_missing_parent := pending; fact_cleanup := pending;
  fact_transcript_sanitized := pending |}.

(** [skip_mutating_behavior], with the isolation and missing-parent facts of the
    caller. *)
Definition skip_mutating_behavior (self : NamespaceFacts) (isolated missing_parent : Fact.t) (reason : string)
  : NamespaceFacts :=
  let skipped := Fact.NotEvaluated reason in {|
  fact_authentication := fact_authentication self;
  fact_config_routing := fact_config_routing self;
  fact_fixture_isolated := isolated;
  fact_create := skipped; fact_list := skipped; fact_load := skipped; fact_properties := skipped;
  fact_duplicate := skipped; fact_hierarchy := skipped; fact_pagination := skipped;
  fact_missing_parent := missing_parent;
  fact_cleanup := skipped;
  fact_transcript_sanitized := fact_transcript_sanitized self |}.

Definition skip_namespace_behavior (self : NamespaceFacts) (reason : string) : NamespaceFacts :=
  skip_mutating_behavior self (Fact.NotEvaluated reason) (Fact.NotEvaluated reason) reason.

Definition namespace_sanitized (self : NamespaceFacts) (fact : Fact.t) : NamespaceFacts := {|
  fact_authentication := fact_authentication self;
  fact_config_routing := fact_config_routing self;
  fact_fixture_isolated := fact_fixture_isolated self;
  fact_create := fact_create self; fact_list := fact_list self; fact_load := fact_load self;
  fact_properties := fact_properties self; fact_duplicate := fact_duplicate self;
  fact_hierarchy := fact_hierarchy self; fact_pagination := fact_pagination self;
  fact_missing_parent := fact_missing_parent self; fact_cleanup := fact_cleanup self;
  fact_transcript_sanitized := fact |}.

(** The fact a custom assertion names. *)
Definition namespace_fact_table : list (string * (NamespaceFacts -> Fact.t)) :=
  [("authentication-ready-v1", fact_authentication);
   ("namespace-config-routing-v1", fact_config_routing);
   ("namespace-fixture-isolation-v1", fact_fixture_isolated);
   ("namespace-create-v1", fact_create);
   ("namespace-list-v1", fact_list);
   ("namespace-load-v1", fact_load);
   ("namespace-properties-v1", fact_properties);
   ("namespace-duplicate-error-v1", fact_duplicate);
   ("namespace-hierarchy-v1", fact_hierarchy);
   ("namespace-pagination-v1", fact_pagination);
   ("namespace-missing-parent-error-v1", fact_missing_parent);
   ("namespace-cleanup-v1", fact_cleanup);
   ("sanitized-http-transcript-v1", fact_transcript_sanitized)].

(** [for_assertion] *)
Definition namespace_fact (self : NamespaceFacts) (check : AssertionCheck) : Fact.t :=
  match check with
  | Custom name _ =>
      match find (fun row : string * (NamespaceFacts -> Fact.t) =>
                    name =? "querygraph/catalog-bench/" +:+ row.1) namespace_fact_table with
      | Some (_, fact) => fact self
      | None => Fact.Fail ("namespace policy received unknown assertion `" +:+ name +:+ "`")
      end
  | _ => Fact.Fail "namespace policy received a non-custom assertion"
  end.

(** ** Judging responses *)

Definition validate_complete_namespace_set (namespaces : gset NamespaceIdentifier)
    (expected : list NamespaceIdentifier) : result unit string :=
  match find (fun e => negb (bool_decide (e ∈ namespaces))) expected with
  | Some e => Err ("listing omitted expected namespace " +:+ debug_strs (namespace_parts e))
  | None => Ok tt
  end.

Definition parse_namespaces (namespaces : list (list string)) : result (gset NamespaceIdentifier) string :=
  let? parsed := collect_results namespace_from_parts namespaces in
  let set : gset NamespaceIdentifier := list_to_set parsed in
  guard negb (size set =? length namespaces)%nat or "listing contains duplicate namespace identifiers" in
  Ok set.

Section Responses.
Context `{FromValue NamespaceResponse, FromValue ListNamespacesResponse,
  FromValue UpdateNamespacePropertiesResponse}.

Definition validate_namespace (observation : Observation) (status : Z) (expected : NamespaceIdentifier)
  : result NamespaceResponse string :=
  let? response := parse_json_response observation status in
  let? actual := namespace_from_parts (nr_namespace response) in
  guard negb (bool_decide (actual = expected))
    or "response namespace " +:+ debug_strs (namespace_parts actual) +:+ " does not match "
       +:+ debug_strs (namespace_parts expected) in
  Ok response.

Definition parse_list_response (observation : Observation) (status : Z) : result ListNamespacesResponse string :=
  parse_json_response observation status.

Definition validate_top_level_listing (observation : Observation) (expected : list NamespaceIdentifier)
  : result unit string :=
  let? response := parse_list_response observation 200 in
  let? namespaces := parse_namespaces (ln_namespaces response) in
  validate_complete_namespace_set namespaces expected.

Definition validate_hierarchy_listing (observation : Observation) (child : NamespaceIdentifier)
  : result unit string :=
  let? response := parse_list_response observation 200 in
  let? namespaces := parse_namespaces (ln_namespaces response) in
  if bool_decide (namespaces = {[ child ]}) then Ok tt
  else Err ("parent listing returned " +:+ debug_namespaces namespaces +:+ ", expected only "
            +:+ debug_strs (namespace_parts child)).

Definition validate_property_update (update reload : Observation) (fixture : NamespaceFixture)
  : result unit string :=
  let? update := parse_json_response update 200 in
  guard negb (bool_decide (STATE_PROPERTY ∈ un_updated update))
    or "update response did not report `" +:+ STATE_PROPERTY +:+ "`" in
  guard negb (bool_decide (REMOVE_PROPERTY ∈ un_removed update))
    or "update response did not report `" +:+ REMOVE_PROPERTY +:+ "`" in
  let? loaded := validate_namespace reload 200 (nf_primary fixture) in
  let? properties := ok_or (nr_properties loaded) "loaded namespace returned null or omitted properties" in
  guard negb (bool_decide (properties !! OWNER_PROPERTY = Some "catalog-bench"))
    or "unmentioned `" +:+ OWNER_PROPERTY +:+ "` property was not preserved" in
  guard negb (bool_decide (properties !! STATE_PROPERTY = Some "after"))
    or "updated `" +:+ STATE_PROPERTY +:+ "` property was not persisted" in
  guard bool_decide (is_Some (properties !! REMOVE_PROPERTY))
    or "removed `" +:+ REMOVE_PROPERTY +:+ "` property is still present" in
  Ok tt.
End Responses.

(** ** The workflow *)

Definition NamespaceEvidence : Type :=
  AuthenticationTranscript * RoutingConfigTranscript * list OperationTranscript * PaginationTranscript.t.

Section Workflow.
Context `{UrlParser, UrlOps, UrlEdit, FormCodec, JsonParser, Sha256, ClientBuilder} {W : Type}
  `{HttpClient W, FromValue NamespaceResponse, FromValue ListNamespacesResponse}.
Context `{FromValue UpdateNamespacePropertiesResponse, FromValue IcebergErrorResponse,
  ToVecPretty NamespaceEvidence}.

Definition create_namespace_body (namespace : NamespaceIdentifier) (properties : list (string * Value)) : Value :=
  json_object [("namespace", str_array (namespace_parts namespace)); ("properties", json_object properties)].

Definition create_namespace (routes : CatalogRoutes) (id capability : string) (namespace : NamespaceIdentifier)
    (properties : list (string * Value)) : Probe W Observation :=
  url ← lift (namespace_collection routes);
  attempt id (Some capability) POST url (Some (create_namespace_body namespace properties)).

Definition primary_properties : list (string * Value) :=
  [(OWNER_PROPERTY, Str "catalog-bench"); (REMOVE_PROPERTY, Str "before")].

(** A request on the URL of a namespace. *)
Definition on_namespace (routes : CatalogRoutes) (capability : string) (method : Method)
    (operation : string * NamespaceIdentifier) : Probe W Observation :=
  url ← lift (namespace_route routes operation.2);
  attempt operation.1 (Some capability) method url None.

Definition preflight_fixture (routes : CatalogRoutes) (fixture : NamespaceFixture)
  : Probe W (list (result unit string)) :=
  for_each [("preflight-primary", nf_primary fixture); ("preflight-sibling", nf_sibling fixture);
            ("preflight-child", nf_child fixture)] (fun operation =>
    observation ← on_namespace routes LOAD_CAPABILITY GET operation;
    mret (validate_error_response observation 404 "NoSuchNamespaceException")).

Definition probe_missing_parent (routes : CatalogRoutes) (missing_parent : NamespaceIdentifier)
  : Probe W (result unit string) :=
  url ← lift (namespaces_under routes missing_parent);
  observation ← attempt "list-missing-parent" (Some MISSING_PARENT_CAPABILITY) GET url None;
  mret (validate_error_response observation 404 "NoSuchNamespaceException").

Definition cleanup_fixture (routes : CatalogRoutes) (fixture : NamespaceFixture) : Probe W (result unit string) :=
  dropped ← for_each [("drop-child", nf_child fixture); ("drop-sibling", nf_sibling fixture);
                      ("drop-primary", nf_primary fixture)] (fun operation =>
    observation ← on_namespace routes DROP_CAPABILITY DELETE operation;
    mret (validate_status observation [204; 404]%Z));
  verified ← for_each [("verify-child-absent", nf_child fixture); ("verify-sibling-absent", nf_sibling fixture);
                       ("verify-primary-absent", nf_primary fixture)] (fun operation =>
    observation ← on_namespace routes DROP_CAPABILITY GET operation;
    mret (validate_status observation [404]%Z));
  mret (all_results (dropped ++ verified)).

(** The inner loop of [traverse_pages]. *)
Fixpoint insert_namespaces (namespaces : gset NamespaceIdentifier) (page : list NamespaceIdentifier)
  : result (gset NamespaceIdentifier) string :=
  match page with
  | [] => Ok namespaces
  | namespace :: rest =>
      guard bool_decide (namespace ∈ namespaces)
        or "pagination returned duplicate namespace " +:+ debug_namespace namespace in
      insert_namespaces ({[ namespace ]} ∪ namespaces) rest
  end.

Definition pagination_failure (error : string) : PaginationTranscript.t * result unit string :=
  (PaginationTranscript.Failed error, Err error).

(** How one page ends the traversal or continues it with a token. *)
Definition judge_page (fixture : NamespaceFixture) (page_index : Z) (tokens : gset string)
    (namespaces : gset NamespaceIdentifier) (observation : Observation)
  : (PaginationTranscript.t * result unit string) + (string * gset NamespaceIdentifier) :=
  let expected := [nf_primary fixture; nf_sibling fixture] in
  let page_namespaces :=
    let? page := parse_list_response observation 200 in
    let? set := parse_namespaces (ln_namespaces page) in
    Ok (set, ln_next_page_token page) in
  match page_namespaces with
  | Err error => inl (pagination_failure error)
  | Ok (page_namespaces, next_page_token) =>
      let count := Z.of_nat (size page_namespaces) in
      if (PAGE_SIZE <? count)%Z then
        inl (if (page_index =? 1)%Z && is_none next_page_token
             then (PaginationTranscript.UnpaginatedFallback count,
                   validate_complete_namespace_set page_namespaces expected)
             else pagination_failure ("page " +:+ display page_index +:+ " returned " +:+ display count
                                      +:+ " namespaces above pageSize " +:+ display PAGE_SIZE))
      else
        match insert_namespaces namespaces (btree_elements namespace_compare page_namespaces) with
        | Err error => inl (pagination_failure error)
        | Ok namespaces =>
            match next_page_token with
            | Some next =>
                if is_empty next then inl (pagination_failure "pagination returned an empty next-page-token")
                else if bool_decide (next ∈ tokens)
                then inl (pagination_failure "pagination repeated a next-page-token")
                else inr (next, namespaces)
            | None =>
                inl (PaginationTranscript.Paginated page_index (Z.of_nat (size namespaces)),
                     validate_complete_namespace_set namespaces expected)
            end
        end
  end.

(** The loop of [traverse_pages], with [pages] pages left. *)
Fixpoint traverse_pages_from (routes : CatalogRoutes) (fixture : NamespaceFixture) (pages : nat) (page_index : Z)
    (token : string) (tokens : gset string) (namespaces : gset NamespaceIdentifier)
  : Probe W (PaginationTranscript.t * result unit string) :=
  match pages with
  | O => mret (pagination_failure ("pagination exceeded the " +:+ display (Z.of_nat MAXIMUM_PAGES)
                                   +:+ "-page safety bound"))
  | S pages =>
      url ← lift (namespace_page routes token PAGE_SIZE);
      observation ← attempt ("list-page-" +:+ display03 page_index) (Some PAGINATION_CAPABILITY) GET url None;
      match judge_page fixture page_index tokens namespaces observation with
      | inl outcome => mret outcome
      | inr (next, namespaces) =>
          traverse_pages_from routes fixture pages (page_index + 1) next ({[ next ]} ∪ tokens) namespaces
      end
  end.

Definition traverse_pages (routes : CatalogRoutes) (fixture : NamespaceFixture)
  : Probe W (PaginationTranscript.t * result unit string) :=
  traverse_pages_from routes fixture MAXIMUM_PAGES 1 "" ∅ ∅.

Definition skip_remaining_mutations (reason : string) : Probe W unit :=
  skip_each
    [("create-primary", CREATE_CAPABILITY); ("create-sibling", CREATE_CAPABILITY);
     ("create-child", CREATE_CAPABILITY); ("list-top-level", LIST_CAPABILITY);
     ("load-primary", LOAD_CAPABILITY); ("update-primary-properties", UPDATE_CAPABILITY);
     ("reload-primary-properties", UPDATE_CAPABILITY); ("create-primary-duplicate", DUPLICATE_CAPABILITY);
     ("list-primary-children", HIERARCHY_CAPABILITY); ("list-page-001", PAGINATION_CAPABILITY);
     ("drop-child", DROP_CAPABILITY); ("drop-sibling", DROP_CAPABILITY); ("drop-primary", DROP_CAPABILITY);
     ("verify-child-absent", DROP_CAPABILITY); ("verify-sibling-absent", DROP_CAPABILITY);
     ("verify-primary-absent", DROP_CAPABILITY)] reason.

(** Creating the child, when the primary was created. *)
Definition create_child (routes : CatalogRoutes) (fixture : NamespaceFixture) (primary_created : bool)
  : Probe W (result unit string) :=
  if primary_created then
    observation ← create_namespace routes "create-child" CREATE_CAPABILITY (nf_child fixture) [];
    mret (result_map (fun _ => tt) (validate_namespace observation 200 (nf_child fixture)))
  else
    _ ← skip "create-child" (Some CREATE_CAPABILITY) "primary namespace creation did not pass";
    mret (Err "child create was not attempted").

Definition list_top_level (routes : CatalogRoutes) (fixture : NamespaceFixture) (created : bool)
  : Probe W Fact.t :=
  if created then
    url ← lift (namespace_collection routes);
    listing ← attempt "list-top-level" (Some LIST_CAPABILITY) GET url None;
    mret (Fact.from_result (validate_top_level_listing listing [nf_primary fixture; nf_sibling fixture]))
  else
    let reason := "both top-level namespace creates must pass before listing" in
    _ ← skip "list-top-level" (Some LIST_CAPABILITY) reason;
    mret (Fact.NotEvaluated reason).

(** Loading, updating and duplicating the primary namespace: the facts [load],
    [properties] and [duplicate]. *)
Definition exercise_primary (routes : CatalogRoutes) (fixture : NamespaceFixture) (primary_created : bool)
  : Probe W (Fact.t * Fact.t * Fact.t) :=
  if primary_created then
    load ← on_namespace routes LOAD_CAPABILITY GET ("load-primary", nf_primary fixture);
    let load := Fact.from_result (result_map (fun _ => tt) (validate_namespace load 200 (nf_primary fixture))) in
    url ← lift (namespace_properties routes (nf_primary fixture));
    update ← attempt "update-primary-properties" (Some UPDATE_CAPABILITY) POST url
      (Some (json_object [("removals", str_array [REMOVE_PROPERTY]);
                          ("updates", json_object [(STATE_PROPERTY, Str "after")])]));
    reload ← on_namespace routes UPDATE_CAPABILITY GET ("reload-primary-properties", nf_primary fixture);
    let properties := Fact.from_result (validate_property_update update reload fixture) in
    duplicate ← create_namespace routes "create-primary-duplicate" DUPLICATE_CAPABILITY (nf_primary fixture)
      primary_properties;
    mret (load, properties, Fact.from_result (validate_error_response duplicate 409 "AlreadyExistsException"))
  else
    let reason := "primary namespace creation did not pass" in
    _ ← skip_each [("load-primary", LOAD_CAPABILITY); ("update-primary-properties", UPDATE_CAPABILITY);
                   ("reload-primary-properties", UPDATE_CAPABILITY);
                   ("create-primary-duplicate", DUPLICATE_CAPABILITY)] reason;
    mret (Fact.NotEvaluated reason, Fact.NotEvaluated reason, Fact.NotEvaluated reason).

Definition list_children (routes : CatalogRoutes) (fixture : NamespaceFixture) (child_created : bool)
  : Probe W Fact.t :=
  if child_created then
    url ← lift (namespaces_under routes (nf_primary fixture));
    hierarchy ← attempt "list-primary-children" (Some HIERARCHY_CAPABILITY) GET url None;
    mret (Fact.from_result (validate_hierarchy_listing hierarchy (nf_child fixture)))
  else
    let reason := "multipart child creation did not pass" in
    _ ← skip "list-primary-children" (Some HIERARCHY_CAPABILITY) reason;
    mret (Fact.NotEvaluated reason).

Definition paginate (routes : CatalogRoutes) (fixture : NamespaceFixture) (created : bool)
  : Probe W (PaginationTranscript.t * Fact.t) :=
  if created then
    '(pagination, result) ← traverse_pages routes fixture;
    mret (pagination, Fact.from_result result)
  else
    let reason := "both top-level namespace creates must pass before pagination" in
    _ ← skip "list-page-001" (Some PAGINATION_CAPABILITY) reason;
    mret (PaginationTranscript.NotEvaluated reason, Fact.NotEvaluated reason).

(** What follows a passed preflight. *)
Definition exercise_namespaces (routes : CatalogRoutes) (fixture : NamespaceFixture) (facts : NamespaceFacts)
    (isolated : Fact.t) : Probe W (PaginationTranscript.t * NamespaceFacts) :=
  primary_create ← create_namespace routes "create-primary" CREATE_CAPABILITY (nf_primary fixture)
    primary_properties;
  sibling_create ← create_namespace routes "create-sibling" CREATE_CAPABILITY (nf_sibling fixture) [];
  let unit_result (r : result NamespaceResponse string) := result_map (fun _ => tt) r in
  let primary_created := unit_result (validate_namespace primary_create 200 (nf_primary fixture)) in
  let sibling_created := unit_result (validate_namespace sibling_create 200 (nf_sibling fixture)) in
  child_created ← create_child routes fixture (is_ok primary_created);
  let create := Fact.from_result (all_results [primary_created; sibling_created; child_created]) in
  let both_created := is_ok primary_created && is_ok sibling_created in
  listed ← list_top_level routes fixture both_created;
  '(load, properties, duplicate) ← exercise_primary routes fixture (is_ok primary_created);
  hierarchy ← list_children routes fixture (is_ok child_created);
  '(pagination, pages) ← paginate routes fixture both_created;
  missing_parent ← probe_missing_parent routes (nf_missing_parent fixture);
  cleanup ← cleanup_fixture routes fixture;
  mret (pagination, {|
    fact_authentication := fact_authentication facts;
    fact_config_routing := fact_config_routing facts;
    fact_fixture_isolated := isolated;
    fact_create := create; fact_list := listed; fact_load := load; fact_properties := properties;
    fact_duplicate := duplicate; fact_hierarchy := hierarchy; fact_pagination := pages;
    fact_missing_parent := Fact.from_result missing_parent;
    fact_cleanup := Fact.from_result cleanup;
    fact_transcript_sanitized := fact_transcript_sanitized facts |}).

Definition execute_namespace_workflow (routes : CatalogRoutes) (fixture : NamespaceFixture)
    (facts : NamespaceFacts) : Probe W (PaginationTranscript.t * NamespaceFacts) :=
  preflight ← preflight_fixture routes fixture;
  let isolated := Fact.from_result (all_results preflight) in
  if negb (Fact.passed isolated) then
    let reason := Fact.explanation isolated "fixture preflight did not pass" in
    _ ← skip_remaining_mutations reason;
    missing_parent ← probe_missing_parent routes (nf_missing_parent fixture);
    mret (PaginationTranscript.NotEvaluated reason,
          skip_mutating_behavior facts isolated (Fact.from_result missing_parent) reason)
  else exercise_namespaces routes fixture facts isolated.

(** The workflow, when routing allows it. *)
Definition namespace_behavior (adapter : CatalogAdapter) (routing : RoutingNegotiation)
    (fixture : NamespaceFixture) (facts : NamespaceFacts) : Probe W (PaginationTranscript.t * NamespaceFacts) :=
  let routes :=
    let? codec := ok_or (neg_codec routing) "namespace routing unavailable after config negotiation" in
    CatalogRoutes_new adapter (rct_prefix (neg_config routing)) codec "namespace" in
  match routes, fact_config_routing facts with
  | Ok routes, Fact.Pass => execute_namespace_workflow routes fixture facts
  | Err reason, _ => mret (PaginationTranscript.NotEvaluated reason, skip_namespace_behavior facts reason)
  | Ok _, fact =>
      let reason := Fact.explanation fact "config routing did not pass" in
      mret (PaginationTranscript.NotEvaluated reason, skip_namespace_behavior facts reason)
  end.

Definition namespace_evaluate_assertions (scenario : Scenario) (facts : NamespaceFacts) : list ProbeAssertion :=
  (fun assertion => {| pa_assertion := spec_id assertion; pa_required := spec_required assertion;
                       pa_outcome := Fact.outcome (namespace_fact facts (spec_check assertion)) |})
    <$> scen_assertions scenario.
End Workflow.

(** ** The policy (namespace/policy.rs) *)

Definition namespace_parameters : list (string * Value) :=
  [("fixture_prefix", Str "cb_c104");
   ("iceberg_openapi_sha256", Str ICEBERG_REST_OPENAPI_SHA256);
   ("iceberg_openapi_source", Str ICEBERG_REST_OPENAPI_SOURCE);
   ("maximum_pages", Num (PosInt 64));
   ("maximum_response_bytes", Num (PosInt MAXIMUM_RESPONSE_BYTES));
   ("namespace_separator_default", Str DEFAULT_NAMESPACE_SEPARATOR);
   ("page_size", Num (PosInt 1));
   ("request_timeout_ms", Num (PosInt 30000));
   ("transcript_format", Str NAMESPACE_TRANSCRIPT_FORMAT)].

Definition namespace_capabilities : list (string * RequirementLevel) :=
  (fun capability => (capability, if capability =? "iceberg-rest.namespace.update-properties"
                                  then Optional else Required))
  <$> ["iceberg-rest.namespace.create";
       "iceberg-rest.namespace.list";
       "iceberg-rest.namespace.load";
       "iceberg-rest.namespace.update-properties";
       "iceberg-rest.namespace.drop";
       "iceberg-rest.namespace.hierarchy";
       "iceberg-rest.namespace.pagination";
       "iceberg-rest.namespace.error.duplicate";
       "iceberg-rest.namespace.error.missing-parent";
       "iceberg-rest.error.spec-shape"].

Definition namespace_steps : list ExpectedStep :=
  [harness_step "negotiate-authentication" "authentication.negotiate" [] None;
   client_step "negotiate-config" "config.get-routing" ["negotiate-authentication"];
   harness_step "preflight-fixture" "namespace.verify-fixture-absence" ["negotiate-config"] None;
   client_step "create-namespaces" "namespace.create" ["preflight-fixture"];
   client_step "inspect-namespace" "namespace.list-and-load" ["create-namespaces"];
   client_step "update-namespace" "namespace.update-properties" ["inspect-namespace"];
   client_step "reject-duplicate" "namespace.create-duplicate" ["create-namespaces"];
   client_step "inspect-hierarchy" "namespace.list-under-parent" ["create-namespaces"];
   client_step "traverse-pagination" "namespace.list-pages" ["create-namespaces"];
   client_step "reject-missing-parent" "namespace.list-under-missing-parent" ["negotiate-config"];
   harness_step "cleanup-namespaces" "namespace.drop-and-verify"
     ["inspect-namespace"; "update-namespace"; "reject-duplicate"; "inspect-hierarchy";
      "traverse-pagination"; "reject-missing-parent"] (Some 30000%Z);
   harness_step "sanitize-transcript" "evidence.sanitize-http-transcript" ["cleanup-namespaces"] None].

Definition namespace_assertions : list ExpectedAssertion :=
  let expect id step name configuration := {|
    ea_id := id; ea_step := step; ea_required := negb (id =? "namespace-properties-updated");
    ea_check := custom_check name configuration |} in
  [expect "authentication-ready" "negotiate-authentication"
     "authentication-ready-v1" [("persist_token", Bool false)];
   expect "config-routing-ready" "negotiate-config"
     "namespace-config-routing-v1" [("default_namespace_separator", Str "%1F")];
   expect "fixture-isolated" "preflight-fixture"
     "namespace-fixture-isolation-v1" [("expected_http_status", Num (PosInt 404))];
   expect "namespace-create-round-trip" "create-namespaces"
     "namespace-create-v1" [("expected_http_status", Num (PosInt 200))];
   expect "namespace-list-visible" "inspect-namespace"
     "namespace-list-v1" [("duplicate_policy", Str "reject")];
   expect "namespace-load-round-trip" "inspect-namespace"
     "namespace-load-v1" [("expected_http_status", Num (PosInt 200))];
   expect "namespace-properties-updated" "update-namespace"
     "namespace-properties-v1" [("preserve_unmentioned", Bool true)];
   expect "duplicate-error-spec-shaped" "reject-duplicate"
     "namespace-duplicate-error-v1" [("code", Num (PosInt 409)); ("type", Str "AlreadyExistsException")];
   expect "namespace-hierarchy-preserved" "inspect-hierarchy"
     "namespace-hierarchy-v1" [("scope", Str "immediate-children")];
   expect "namespace-pagination-complete" "traverse-pagination"
     "namespace-pagination-v1" [("accept_unpaginated_fallback", Bool true);
                                ("maximum_pages", Num (PosInt 64)); ("page_size", Num (PosInt 1))];
   expect "missing-parent-error-spec-shaped" "reject-missing-parent"
     "namespace-missing-parent-error-v1" [("code", Num (PosInt 404)); ("type", Str "NoSuchNamespaceException")];
   expect "namespace-drop-clean" "cleanup-namespaces"
     "namespace-cleanup-v1" [("final_http_status", Num (PosInt 404))];
   expect "transcript-sanitized" "sanitize-transcript"
     "sanitized-http-transcript-v1"
       [("request_header_policy", Str "allowlist-and-redact-authorization");
        ("response_header_policy", Str "allowlist");
        ("response_json_policy", Str "recursive-secret-key-redaction")]].

Definition namespace_policy : ProbePolicy := {|
  pp_probe := "namespace";
  pp_scenario := NAMESPACE_SCENARIO_ID;
  pp_version := NAMESPACE_SCENARIO_VERSION;
  pp_parameters := namespace_parameters;
  pp_capabilities := namespace_capabilities;
  pp_steps := namespace_steps;
  pp_assertions := namespace_assertions;
|}.

(** ** The probe *)

Section Probe.
Context `{UrlParser, UrlOps, UrlEdit, FormCodec, JsonParser, Sha256, ClientBuilder} {W : Type}
  `{HttpClient W, FromValue NamespaceResponse, FromValue ListNamespacesResponse}.
Context `{FromValue UpdateNamespacePropertiesResponse, FromValue IcebergErrorResponse,
  ToVecPretty NamespaceEvidence}.

Definition unsupported_namespace_probe (profile : Profile) (scenario : Scenario)
    (contract_digests : ContractDigests) (target : ProbeTarget) (fixture : NamespaceFixture)
    (limitation : UnsupportedAdapterCapability) : result NamespaceTranscript string :=
  let reason := unsupported_reason limitation in
  let? config := not_evaluated_config (target_adapter target) reason in
  Ok {| nt_format := NAMESPACE_TRANSCRIPT_FORMAT;
        nt_profile := prof_id profile;
        nt_scenario := transcript_scenario scenario;
        nt_contract_digests := contract_digests;
        nt_adapter := transcript_adapter (target_adapter target) (target_component target);
        nt_fixture := fixture;
        nt_classification := unsupported_classification limitation;
        nt_authentication := not_attempted_authentication (target_adapter target);
        nt_config := config;
        nt_operations := [];
        nt_pagination := PaginationTranscript.NotEvaluated reason;
        nt_assertions := not_evaluated_assertions scenario reason;
        nt_sanitization := automated_sanitization [] false |}.

(** The transcript concluded from a finished recorder. *)
Definition conclude_namespace_probe (profile : Profile) (scenario : Scenario)
    (contract_digests : ContractDigests) (target : ProbeTarget) (fixture : NamespaceFixture)
    (routing : RoutingNegotiation) (pagination : PaginationTranscript.t) (facts : NamespaceFacts)
    (recorder : OperationRecorder) : result NamespaceTranscript string :=
  let authentication := neg_authentication routing in
  let config := neg_config routing in
  let operations := rec_operations recorder in
  let redactions := sort_dedup (neg_redactions routing ++ rec_redactions recorder) in
  let? serialized := encode_evidence (at_transcript authentication, config, operations, pagination) in
  let transcript_sanitized :=
    negb (contains_sensitive_value serialized (at_sensitive_values authentication)) in
  let facts := namespace_sanitized facts (Fact.from_bool transcript_sanitized
    "sanitized evidence still contains a sensitive runtime value") in
  let assertions := namespace_evaluate_assertions scenario facts in
  Ok {| nt_format := NAMESPACE_TRANSCRIPT_FORMAT;
        nt_profile := prof_id profile;
        nt_scenario := transcript_scenario scenario;
        nt_contract_digests := contract_digests;
        nt_adapter := transcript_adapter (target_adapter target) (target_component target);
        nt_fixture := fixture;
        nt_classification := classify_probe assertions
          "one or more required namespace-behavior assertions did not pass";
        nt_authentication := at_transcript authentication;
        nt_config := config;
        nt_operations := operations;
        nt_pagination := pagination;
        nt_assertions := assertions;
        nt_sanitization := automated_sanitization redactions (negb transcript_sanitized) |}.

(** The checks before any network access. *)
Definition prepare_namespace_probe (profile : Profile) (scenario : Scenario) (catalog : ComponentId)
    (fixture_id : string) : result (ProbeTarget * NamespaceFixture) string :=
  check? validate_invocation namespace_policy profile scenario catalog in
  let? target := resolve_target profile scenario catalog in
  let? fixture := NamespaceFixture_new catalog fixture_id in
  Ok (target, fixture).

Definition run_namespace_probe (profile : Profile) (scenario : Scenario) (catalog : ComponentId)
    (fixture_id : string) (contract_digests : ContractDigests) (getenv : string -> option string) (w : W)
  : result NamespaceTranscript string * W :=
  match prepare_namespace_probe profile scenario catalog fixture_id with
  | Err e => (Err e, w)
  | Ok (target, fixture) =>
      match first_required_limitation target scenario with
      | Some limitation =>
          (unsupported_namespace_probe profile scenario contract_digests target fixture limitation, w)
      | None =>
          match http_client REQUEST_TIMEOUT_MS with
          | Err e => (Err e, w)
          | Ok _ =>
              let '(negotiated, w) := negotiate_routing (target_adapter target) getenv w in
              match negotiated with
              | Err e => (Err e, w)
              | Ok routing =>
                  let authentication := neg_authentication routing in
                  let facts := NamespaceFacts_new (is_none (at_failure authentication))
                                 (neg_config_routing routing) in
                  let recorder := new_recorder (at_bearer_token authentication)
                                    (at_sensitive_values authentication) in
                  let '(outcome, (recorder, w)) :=
                    namespace_behavior (target_adapter target) routing fixture facts (recorder, w) in
                  (let? behavior := outcome in
                   conclude_namespace_probe profile scenario contract_digests target fixture routing
                     behavior.1 behavior.2 recorder, w)
              end
          end
      end
  end.
End Probe.
