(* ===== verification/TableProbe.v ===== *)
(** * The table-behavior probe (crates/conformance/src/table)

    In a namespace of its own the probe creates two tables and exercises
    listing, loading, pagination, property updates, renaming, dropping,
    registering and error responses, then drops every candidate without purge.
    Nothing is mutated unless the namespace was shown to be absent. *)

From S2P Require Import Prelude Order RustStr Json ContractValue ContractScenario ContractAdapter ContractProfile.
From S2P Require Import ContractResult Ledger Transport Sanitize Capture Routing Operation ProbePolicy ConfigProbe.
From S2P Require Import TableProtocol.
Open Scope string_scope.

Definition TABLE_TRANSCRIPT_FORMAT : string := "catalog-bench/table-transcript/v1".
Definition TABLE_SCENARIO_ID : string := "iceberg-rest.table.behavior".
Definition TABLE_SCENARIO_VERSION : Z := 1.
Definition REQUEST_TIMEOUT_MS : Z := 30000.

Definition CREATE_CAPABILITY : string := "iceberg-rest.table.create".
Definition LIST_CAPABILITY : string := "iceberg-rest.table.list".
Definition LOAD_CAPABILITY : string := "iceberg-rest.table.load".
Definition REGISTER_CAPABILITY : string := "iceberg-rest.table.register".
Definition RENAME_CAPABILITY : string := "iceberg-rest.table.rename".
Definition UPDATE_CAPABILITY : string := "iceberg-rest.table.update".
Definition DROP_CAPABILITY : string := "iceberg-rest.table.drop".

Definition NAMESPACE_CREATE_CAPABILITY : string := "iceberg-rest.namespace.create".
Definition NAMESPACE_LOAD_CAPABILITY : string := "iceberg-rest.namespace.load".
Definition NAMESPACE_DROP_CAPABILITY : string := "iceberg-rest.namespace.drop".
Definition ERROR_SHAPE_CAPABILITY : string := "iceberg-rest.error.spec-shape".
Definition PAGE_SIZE : Z := 1.
Definition MAXIMUM_PAGES : nat := 64.

Definition OWNER_PROPERTY : string := "catalog-bench.owner".
Definition REMOVE_PROPERTY : string := "c1-05.remove".
Definition STATE_PROPERTY : string := "c1-05.state".

(** ** Fixtures (table/fixture.rs) *)

Definition FIXTURE_PREFIX : string := "cb_c105".

Record TableIdentifier := { ti_namespace : NamespaceIdentifier; ti_name : string }.

#[export] Instance TableIdentifier_eq_dec : EqDecision TableIdentifier.
Proof. solve_decision. Defined.
#[export] Instance TableIdentifier_countable : Countable TableIdentifier.
Proof.
  apply (inj_countable' (fun t => (ti_namespace t, ti_name t))
           (fun p => {| ti_namespace := p.1; ti_name := p.2 |})). by intros [].
Defined.

(** [TableIdentifier::new]. *)
Definition TableIdentifier_new (namespace : NamespaceIdentifier) (name : string) : result TableIdentifier string :=
  guard is_empty name || contains_byte 47 name or "table names must be nonempty path-segment values" in
  Ok {| ti_namespace := namespace; ti_name := name |}.

Record TableFixture := {
  tf_id : string;
  tf_namespace : NamespaceIdentifier;
  tf_missing_namespace : NamespaceIdentifier;
  tf_primary : TableIdentifier;
  tf_sibling : TableIdentifier;
  tf_renamed : TableIdentifier;
  tf_registered : TableIdentifier;
  tf_missing : TableIdentifier;
}.

(** [TableFixture::new]. *)
Definition TableFixture_new (catalog : ComponentId) (id : string) : result TableFixture string :=
  let? stem := fixture_stem FIXTURE_PREFIX catalog id in
  let? namespace := namespace_single stem in
  let? missing_namespace := namespace_single (stem +:+ "_missing") in
  let? primary := TableIdentifier_new namespace "primary" in
  let? sibling := TableIdentifier_new namespace "sibling" in
  let? renamed := TableIdentifier_new namespace "renamed" in
  let? registered := TableIdentifier_new namespace "registered" in
  let? missing := TableIdentifier_new namespace "missing" in
  Ok {| tf_id := id; tf_namespace := namespace; tf_missing_namespace := missing_namespace;
        tf_primary := primary; tf_sibling := sibling; tf_renamed := renamed; tf_registered := registered;
        tf_missing := missing |}.

(** [TableFixture::candidates]. *)
Definition candidates (self : TableFixture) : list TableIdentifier :=
  [tf_primary self; tf_renamed self; tf_sibling self; tf_registered self].

(** Derived [Ord] and [Debug] of identifiers. *)
Definition identifier_compare (a b : TableIdentifier) : comparison :=
  then_with (namespace_compare (ti_namespace a) (ti_namespace b)) (String.compare (ti_name a) (ti_name b)).
Definition debug_identifier (self : TableIdentifier) : string :=
  "TableIdentifier { namespace: " +:+ debug_namespace (ti_namespace self) +:+ ", name: "
  +:+ debug_str (ti_name self) +:+ " }".
Definition debug_identifiers (identifiers : gset TableIdentifier) : string :=
  "{" +:+ String.concat ", " (debug_identifier <$> btree_elements identifier_compare identifiers) +:+ "}".

(** Derived serialisation. *)
Definition identifier_value (self : TableIdentifier) : Value :=
  json_object [("namespace", str_array (namespace_parts (ti_namespace self))); ("name", Str (ti_name self))].

(** ** Response types *)

Record WireTableIdentifier := { wt_namespace : list string; wt_name : string }.
Record ListTablesResponse := { ltb_next_page_token : option string; ltb_identifiers : list WireTableIdentifier }.

(** ** Evidence *)

Module TablePaginationTranscript.
Inductive t :=
| Paginated (pages unique_tables : Z)
| UnpaginatedFallback (unique_tables : Z)
| Failed (explanation : string)
| NotEvaluated (reason : string).
End TablePaginationTranscript.

Record TableTranscript := {
  tt_format : string;
  tt_profile : ProfileId;
  tt_scenario : TranscriptScenario;
  tt_contract_digests : ContractDigests;
  tt_adapter : TranscriptAdapter;
  tt_fixture : TableFixture;
  tt_classification : ProbeClassification.t;
  tt_authentication : AuthenticationTranscript;
  tt_config : RoutingConfigTranscript;
  tt_operations : list OperationTranscript;
  tt_pagination : TablePaginationTranscript.t;
  tt_assertions : list ProbeAssertion;
  tt_sanitization : SanitizationTranscript;
}.

Record OptionalTableOperations := {
  rename_limitation : option string;
  register_limitation : option string;
}.

Record CreateTableAttempt := {
  cta_observation : Observation;
  cta_requested_location : option string;
}.

(** ** Facts *)

Record TableFacts := {
  tbf_authentication : Fact.t;
  tbf_config_routing : Fact.t;
  tbf_fixture_isolated : Fact.t;
  tbf_fixture_namespace : Fact.t;
  tbf_create : Fact.t;
  tbf_list : Fact.t;
  tbf_load : Fact.t;
  tbf_pagination : Fact.t;
  tbf_update : Fact.t;
  tbf_duplicate : Fact.t;
  tbf_missing_table : Fact.t;
  tbf_missing_namespace : Fact.t;
  tbf_rename : Fact.t;
  tbf_drop_table : Fact.t;
  tbf_register : Fact.t;
  tbf_cleanup : Fact.t;
  tbf_transcript_sanitized : Fact.t;
}.

(** [TableFacts::new]. *)
Definition TableFacts_new (authentication_ready : bool) (config_routing : Fact.t) : TableFacts :=
  let pending := Fact.NotEvaluated "table workflow did not reach this check" in {|
  tbf_authentication := Fact.from_bool authentication_ready "authentication negotiation did not complete";
  tbf_config_routing := config_routing;
  tbf_fixture_isolated := pending; tbf_fixture_namespace := pending; tbf_create := pending;
  tbf_list := pending; tbf_load := pending; tbf_pagination := pending; tbf_update := pending;
  tbf_duplicate := pending; tbf_missing_table := pending; tbf_missing_namespace := pending;
  tbf_rename := pending; tbf_drop_table := pending; tbf_register := pending; tbf_cleanup := pending;
  tbf_transcript_sanitized := pending |}.

(** [skip_table_behavior], with the other facts of the workflow given. *)
Definition skip_table_behavior (self : TableFacts) (isolated namespace missing_table missing_namespace
    cleanup : Fact.t) (reason : string) : TableFacts :=
  let skipped := Fact.NotEvaluated reason in {|
  tbf_authentication := tbf_authentication self;
  tbf_config_routing := tbf_config_routing self;
  tbf_fixture_isolated := isolated;
  tbf_fixture_namespace := namespace;
  tbf_create := skipped; tbf_list := skipped; tbf_load := skipped; tbf_pagination := skipped;
  tbf_update := skipped; tbf_duplicate := skipped;
  tbf_missing_table := missing_table;
  tbf_missing_namespace := missing_namespace;
  tbf_rename := skipped; tbf_drop_table := skipped; tbf_register := skipped;
  tbf_cleanup := cleanup;
  tbf_transcript_sanitized := tbf_transcript_sanitized self |}.

Definition skip_mutating_behavior (self : TableFacts) (isolated missing_namespace : Fact.t) (reason : string)
  : TableFacts :=
  let skipped := Fact.NotEvaluated reason in
  skip_table_behavior self isolated skipped skipped missing_namespace skipped reason.

Definition skip_table_scenario (self : TableFacts) (reason : string) : TableFacts :=
  skip_mutating_behavior self (Fact.NotEvaluated reason) (Fact.NotEvaluated reason) reason.

Definition table_sanitized (self : TableFacts) (fact : Fact.t) : TableFacts := {|
  tbf_authentication := tbf_authentication self;
  tbf_config_routing := tbf_config_routing self;
  tbf_fixture_isolated := tbf_fixture_isolated self;
  tbf_fixture_namespace := tbf_fixture_namespace self;
  tbf_create := tbf_create self; tbf_list := tbf_list self; tbf_load := tbf_load self;
  tbf_pagination := tbf_pagination self; tbf_update := tbf_update self; tbf_duplicate := tbf_duplicate self;
  tbf_missing_table := tbf_missing_table self; tbf_missing_namespace := tbf_missing_namespace self;
  tbf_rename := tbf_rename self; tbf_drop_table := tbf_drop_table self; tbf_register := tbf_register self;
  tbf_cleanup := tbf_cleanup self;
  tbf_transcript_sanitized := fact |}.

Definition table_fact_table : list (string * (TableFacts -> Fact.t)) :=
  [("authentication-ready-v1", tbf_authentication);
   ("table-config-routing-v1", tbf_config_routing);
   ("table-fixture-isolation-v1", tbf_fixture_isolated);
   ("table-namespace-create-v1", tbf_fixture_namespace);
   ("table-create-v1", tbf_create);
   ("table-list-v1", tbf_list);
   ("table-load-v1", tbf_load);
   ("table-pagination-v1", tbf_pagination);
   ("table-update-v1", tbf_update);
   ("table-duplicate-error-v1", tbf_duplicate);
   ("table-missing-error-v1", tbf_missing_table);
   ("table-missing-namespace-error-v1", tbf_missing_namespace);
   ("table-rename-v1", tbf_rename);
   ("table-drop-v1", tbf_drop_table);
   ("table-register-v1", tbf_register);
   ("table-cleanup-v1", tbf_cleanup);
   ("sanitized-http-transcript-v1", tbf_transcript_sanitized)].

(** [for_assertion] *)
Definition table_fact (self : TableFacts) (check : AssertionCheck) : Fact.t :=
  match check with
  | Custom name _ =>
      match find (fun row : string * (TableFacts -> Fact.t) =>
                    name =? "querygraph/catalog-bench/" +:+ row.1) table_fact_table with
      | Some (_, fact) => fact self
      | None => Fact.Fail ("table policy received unknown assertion `" +:+ name +:+ "`")
      end
  | _ => Fact.Fail "table policy received a non-custom assertion"
  end.

(** ** Judging responses *)

(** [table_schema] of the requests. *)
Definition requested_schema : Value :=
  json_object
    [("type", Str "struct"); ("schema-id", Num (PosInt 0));
     ("fields", Array [json_object [("id", Num (PosInt 1)); ("name", Str "value");
                                    ("required", Bool false); ("type", Str "long")]])].

Definition validate_requested_schema (schema : TableSchema) : result unit string :=
  guard negb (sc_type schema =? "struct")
    or "current schema type `" +:+ sc_type schema +:+ "` is not `struct`" in
  match sc_fields schema with
  | [field] =>
      guard negb (fd_id field =? 1)%Z || negb (fd_name field =? "value") || fd_required field
            || negb (value_eqb (fd_type field) (Str "long"))
        or "current schema does not preserve optional long field `value` (id 1)" in
      Ok tt
  | _ => Err "current schema does not contain exactly one requested field"
  end.

Definition parse_identifiers (identifiers : list WireTableIdentifier) : result (gset TableIdentifier) string :=
  let? parsed := collect_results (fun identifier =>
      let? namespace := namespace_from_parts (wt_namespace identifier) in
      TableIdentifier_new namespace (wt_name identifier)) identifiers in
  let set : gset TableIdentifier := list_to_set parsed in
  guard negb (size set =? length identifiers)%nat or "listing contains duplicate table identifiers" in
  Ok set.

Definition validate_complete_table_set (identifiers : gset TableIdentifier) (expected : list TableIdentifier)
  : result unit string :=
  let expected : gset TableIdentifier := list_to_set expected in
  if bool_decide (identifiers = expected) then Ok tt
  else Err ("listing returned " +:+ debug_identifiers identifiers +:+ ", expected exactly "
            +:+ debug_identifiers expected).

Section Responses.
Context `{FromValue LoadTableResult, FromValue ListTablesResponse}.

Definition parse_list_response (observation : Observation) : result ListTablesResponse string :=
  parse_json_response observation 200.

Definition validate_table_listing (observation : Observation) (expected : list TableIdentifier)
  : result unit string :=
  let? response := parse_list_response observation in
  let? identifiers := parse_identifiers (ltb_identifiers response) in
  validate_complete_table_set identifiers expected.

Definition validate_initial_snapshot (observation : Observation) (requested_location : option string)
  : result TableSnapshot string :=
  let? snapshot := parse_table_snapshot observation 200 in
  check? validate_requested_schema (sn_schema snapshot) in
  check? match requested_location with
         | Some requested_location =>
             guard negb (sn_location snapshot =? requested_location)
               or "created table location `" +:+ sn_location snapshot
                  +:+ "` does not preserve requested table location `" +:+ requested_location +:+ "`" in
             Ok tt
         | None => Ok tt
         end in
  match find (fun expected => negb (property_is snapshot expected.1 expected.2))
          [(OWNER_PROPERTY, "catalog-bench"); (REMOVE_PROPERTY, "before"); (STATE_PROPERTY, "before")] with
  | Some (key, _) => Err ("created metadata did not preserve requested property `" +:+ key +:+ "`")
  | None => Ok snapshot
  end.

(** The checks on the answer to the update. *)
Definition validate_committed_update (before committed : TableSnapshot) : result unit string :=
  guard negb (sn_uuid committed =? sn_uuid before) or "table update changed the table UUID" in
  guard negb (schema_eqb (sn_schema committed) (sn_schema before))
    or "property-only update changed the current schema" in
  guard sn_metadata_location committed =? sn_metadata_location before
    or "table update did not advance the metadata location" in
  guard negb (property_is committed OWNER_PROPERTY "catalog-bench")
    or "update did not preserve unmentioned property `" +:+ OWNER_PROPERTY +:+ "`" in
  guard negb (property_is committed STATE_PROPERTY "after")
    or "update did not set property `" +:+ STATE_PROPERTY +:+ "` to `after`" in
  guard bool_decide (is_Some (sn_properties committed !! REMOVE_PROPERTY))
    or "update did not remove property `" +:+ REMOVE_PROPERTY +:+ "`" in
  Ok tt.

Definition validate_update (before : TableSnapshot) (update reload : Observation) : result TableSnapshot string :=
  let? committed := parse_table_snapshot update 200 in
  check? validate_committed_update before committed in
  let? loaded := parse_table_snapshot reload 200 in
  check? validate_same_table_snapshot committed loaded in
  guard negb (bool_decide (sn_properties loaded = sn_properties committed))
    or "reload property map differs from commit response" in
  Ok loaded.
End Responses.

(** ** The workflow (table/workflow.rs) *)

Definition TableEvidence : Type :=
  AuthenticationTranscript * RoutingConfigTranscript * list OperationTranscript * TablePaginationTranscript.t.

Section Workflow.
Context `{UrlParser, UrlOps, UrlEdit, FormCodec, JsonParser, Sha256, ClientBuilder} {W : Type}
  `{HttpClient W, FromValue NamespaceResponse, FromValue LoadTableResult}.
Context `{FromValue ListTablesResponse, FromValue IcebergErrorResponse, ToVecPretty TableEvidence}.

(** A request on the URL of a table. *)
Definition on_table (routes : CatalogRoutes) (id capability : string) (method : Method)
    (identifier : TableIdentifier) (body : option Value) : Probe W Observation :=
  url ← lift (table_route routes (ti_namespace identifier) (ti_name identifier));
  attempt id (Some capability) method url body.

Definition table_drop_url (routes : CatalogRoutes) (identifier : TableIdentifier) : result Url string :=
  let? url := table_route routes (ti_namespace identifier) (ti_name identifier) in
  Ok (url_append_pair url "purgeRequested" "false").

Definition created_properties : gmap string string :=
  {[ OWNER_PROPERTY := "catalog-bench"; REMOVE_PROPERTY := "before"; STATE_PROPERTY := "before" ]}.

Definition create_table (routes : CatalogRoutes) (create_locations : TableCreateLocations)
    (identifier : TableIdentifier) (operation_id : string) : Probe W CreateTableAttempt :=
  requested_location ← lift (for_table create_locations (ti_namespace identifier) (ti_name identifier));
  url ← lift (table_collection routes (ti_namespace identifier));
  observation ← attempt operation_id (Some CREATE_CAPABILITY) POST url
    (Some (committed_table_request (ti_name identifier) requested_location requested_schema created_properties));
  mret {| cta_observation := observation; cta_requested_location := requested_location |}.

Definition load_created_table (routes : CatalogRoutes) (identifier : TableIdentifier) (operation_id : string)
    (created : option TableSnapshot) : Probe W (result TableSnapshot string) :=
  match created with
  | None =>
      let reason := ti_name identifier +:+ " table creation did not pass" in
      _ ← skip operation_id (Some LOAD_CAPABILITY) reason;
      mret (Err reason)
  | Some created =>
      observation ← on_table routes operation_id LOAD_CAPABILITY GET identifier None;
      mret (let? loaded := parse_table_snapshot observation 200 in
            check? validate_same_table_snapshot created loaded in
            Ok loaded)
  end.

Definition probe_missing_table (routes : CatalogRoutes) (identifier : TableIdentifier)
  : Probe W (result unit string) :=
  observation ← on_table routes "load-missing-table" ERROR_SHAPE_CAPABILITY GET identifier None;
  mret (validate_error_response observation 404 "NoSuchTableException").

Definition probe_missing_namespace (routes : CatalogRoutes) (namespace : NamespaceIdentifier)
  : Probe W (result unit string) :=
  url ← lift (table_collection routes namespace);
  observation ← attempt "list-tables-missing-namespace" (Some ERROR_SHAPE_CAPABILITY) GET url None;
  mret (validate_error_response observation 404 "NoSuchNamespaceException").

Definition attempt_rename (routes : CatalogRoutes) (fixture : TableFixture) (before : TableSnapshot)
  : Probe W (result unit string) :=
  url ← lift (table_rename routes);
  rename ← attempt "rename-primary" (Some RENAME_CAPABILITY) POST url
    (Some (json_object [("source", identifier_value (tf_primary fixture));
                        ("destination", identifier_value (tf_renamed fixture))]));
  source ← on_table routes "load-primary-after-rename" RENAME_CAPABILITY GET
    {| ti_namespace := tf_namespace fixture; ti_name := ti_name (tf_primary fixture) |} None;
  destination ← on_table routes "load-renamed-after-rename" RENAME_CAPABILITY GET
    {| ti_namespace := tf_namespace fixture; ti_name := ti_name (tf_renamed fixture) |} None;
  mret (check? validate_status rename [204]%Z in
        check? validate_error_response source 404 "NoSuchTableException" in
        let? renamed := parse_table_snapshot destination 200 in
        validate_same_table_snapshot before renamed).

Definition drop_sibling (routes : CatalogRoutes) (sibling : TableIdentifier) : Probe W (result unit string) :=
  url ← lift (table_drop_url routes sibling);
  drop ← attempt "drop-sibling-without-purge" (Some DROP_CAPABILITY) DELETE url None;
  load ← on_table routes "load-sibling-after-drop" DROP_CAPABILITY GET sibling None;
  mret (check? validate_status drop [204]%Z in
        validate_error_response load 404 "NoSuchTableException").

Definition attempt_register (routes : CatalogRoutes) (registered : TableIdentifier) (source : TableSnapshot)
  : Probe W (result unit string) :=
  url ← lift (table_register routes (ti_namespace registered));
  register ← attempt "register-sibling-metadata" (Some REGISTER_CAPABILITY) POST url
    (Some (json_object [("name", Str (ti_name registered));
                        ("metadata-location", Str (sn_metadata_location source));
                        ("overwrite", Bool false)]));
  load ← on_table routes "load-registered-after-register" REGISTER_CAPABILITY GET registered None;
  mret (let? snapshot := parse_table_snapshot register 200 in
        check? validate_same_table_snapshot source snapshot in
        let? snapshot := parse_table_snapshot load 200 in
        validate_same_table_snapshot source snapshot).

Definition cleanup_fixture (routes : CatalogRoutes) (fixture : TableFixture) : Probe W (result unit string) :=
  dropped ← for_each (candidates fixture) (fun identifier =>
    url ← lift (table_drop_url routes identifier);
    observation ← attempt ("cleanup-drop-" +:+ ti_name identifier) (Some DROP_CAPABILITY) DELETE url None;
    mret (validate_status observation [204; 404]%Z));
  verified ← for_each (candidates fixture) (fun identifier =>
    observation ← on_table routes ("cleanup-verify-" +:+ ti_name identifier +:+ "-absent") DROP_CAPABILITY
      GET identifier None;
    mret (validate_error_response observation 404 "NoSuchTableException"));
  url ← lift (namespace_route routes (tf_namespace fixture));
  drop_namespace ← attempt "cleanup-drop-namespace" (Some NAMESPACE_DROP_CAPABILITY) DELETE url None;
  load_namespace ← attempt "cleanup-verify-namespace-absent" (Some NAMESPACE_LOAD_CAPABILITY) GET url None;
  mret (all_results (dropped ++ verified
    ++ [validate_status drop_namespace [204; 404]%Z;
        validate_error_response load_namespace 404 "NoSuchNamespaceException"])).

Fixpoint insert_identifiers (identifiers : gset TableIdentifier) (page : list TableIdentifier)
  : result (gset TableIdentifier) string :=
  match page with
  | [] => Ok identifiers
  | identifier :: rest =>
      guard bool_decide (identifier ∈ identifiers)
        or "pagination returned duplicate table " +:+ debug_identifier identifier in
      insert_identifiers ({[ identifier ]} ∪ identifiers) rest
  end.

Definition pagination_failure (explanation : string) : TablePaginationTranscript.t * result unit string :=
  (TablePaginationTranscript.Failed explanation, Err explanation).

Definition judge_page (fixture : TableFixture) (page_index : Z) (tokens : gset string)
    (identifiers : gset TableIdentifier) (observation : Observation)
  : (TablePaginationTranscript.t * result unit string) + (string * gset TableIdentifier) :=
  let expected := [tf_primary fixture; tf_sibling fixture] in
  let page_identifiers :=
    let? page := parse_list_response observation in
    let? set := parse_identifiers (ltb_identifiers page) in
    Ok (set, ltb_next_page_token page) in
  match page_identifiers with
  | Err error => inl (pagination_failure error)
  | Ok (page_identifiers, next_page_token) =>
      let count := Z.of_nat (size page_identifiers) in
      if (PAGE_SIZE <? count)%Z then
        inl (if (page_index =? 1)%Z && is_none next_page_token
             then (TablePaginationTranscript.UnpaginatedFallback count,
                   validate_complete_table_set page_identifiers expected)
             else pagination_failure ("page " +:+ display page_index +:+ " returned " +:+ display count
                                      +:+ " tables above pageSize " +:+ display PAGE_SIZE))
      else
        match insert_identifiers identifiers (btree_elements identifier_compare page_identifiers) with
        | Err error => inl (pagination_failure error)
        | Ok identifiers =>
            match next_page_token with
            | Some next =>
                if is_empty next then inl (pagination_failure "pagination returned an empty next-page-token")
                else if bool_decide (next ∈ tokens)
                then inl (pagination_failure "pagination repeated a next-page-token")
                else inr (next, identifiers)
            | None =>
                inl (TablePaginationTranscript.Paginated page_index (Z.of_nat (size identifiers)),
                     validate_complete_table_set identifiers expected)
            end
        end
  end.

(** The loop of [traverse_pages], with [pages] pages left. *)
Fixpoint traverse_pages_from (routes : CatalogRoutes) (fixture : TableFixture) (pages : nat) (page_index : Z)
    (token : string) (tokens : gset string) (identifiers : gset TableIdentifier)
  : Probe W (TablePaginationTranscript.t * result unit string) :=
  match pages with
  | O => mret (pagination_failure ("pagination exceeded the " +:+ display (Z.of_nat MAXIMUM_PAGES)
                                   +:+ "-page safety bound"))
  | S pages =>
      url ← lift (table_page routes (tf_namespace fixture) token PAGE_SIZE);
      observation ← attempt ("list-page-" +:+ display03 page_index) (Some LIST_CAPABILITY) GET url None;
      match judge_page fixture page_index tokens identifiers observation with
      | inl outcome => mret outcome
      | inr (next, identifiers) =>
          traverse_pages_from routes fixture pages (page_index + 1) next ({[ next ]} ∪ tokens) identifiers
      end
  end.

Definition traverse_pages (routes : CatalogRoutes) (fixture : TableFixture)
  : Probe W (TablePaginationTranscript.t * result unit string) :=
  traverse_pages_from routes fixture MAXIMUM_PAGES 1 "" ∅ ∅.

Definition skip_table_operations (reason : string) : Probe W unit :=
  skip_each
    [("create-primary", CREATE_CAPABILITY); ("create-sibling", CREATE_CAPABILITY);
     ("list-tables", LIST_CAPABILITY); ("load-primary", LOAD_CAPABILITY); ("load-sibling", LOAD_CAPABILITY);
     ("list-page-001", LIST_CAPABILITY); ("update-primary-properties", UPDATE_CAPABILITY);
     ("reload-primary-after-update", UPDATE_CAPABILITY); ("create-primary-duplicate", CREATE_CAPABILITY);
     ("rename-primary", RENAME_CAPABILITY); ("load-primary-after-rename", RENAME_CAPABILITY);
     ("load-renamed-after-rename", RENAME_CAPABILITY); ("drop-sibling-without-purge", DROP_CAPABILITY);
     ("load-sibling-after-drop", DROP_CAPABILITY); ("register-sibling-metadata", REGISTER_CAPABILITY);
     ("load-registered-after-register", REGISTER_CAPABILITY)] reason.

Definition skip_mutating_workflow (reason : string) : Probe W unit :=
  let names := ["primary"; "renamed"; "sibling"; "registered"] in
  _ ← skip "create-namespace" (Some NAMESPACE_CREATE_CAPABILITY) reason;
  _ ← skip_table_operations reason;
  _ ← skip_each ((fun name => ("cleanup-drop-" +:+ name, DROP_CAPABILITY)) <$> names) reason;
  _ ← skip_each ((fun name => ("cleanup-verify-" +:+ name +:+ "-absent", DROP_CAPABILITY)) <$> names) reason;
  _ ← skip "cleanup-drop-namespace" (Some NAMESPACE_DROP_CAPABILITY) reason;
  skip "cleanup-verify-namespace-absent" (Some NAMESPACE_LOAD_CAPABILITY) reason.

(** The two snapshots agree with the requests and differ in their UUIDs. *)
Definition judge_creates (primary sibling : result TableSnapshot string) : result unit string :=
  match primary, sibling with
  | Ok primary, Ok sibling =>
      if sn_uuid primary =? sn_uuid sibling then Err "created tables returned the same table UUID" else Ok tt
  | Err e, _ | Ok _, Err e => Err e
  end.

Definition list_tables (routes : CatalogRoutes) (fixture : TableFixture) (both_created : bool)
  : Probe W Fact.t :=
  if both_created then
    url ← lift (table_collection routes (tf_namespace fixture));
    listing ← attempt "list-tables" (Some LIST_CAPABILITY) GET url None;
    mret (Fact.from_result (validate_table_listing listing [tf_primary fixture; tf_sibling fixture]))
  else
    let reason := "both table creates must pass before ordinary listing" in
    _ ← skip "list-tables" (Some LIST_CAPABILITY) reason;
    mret (Fact.NotEvaluated reason).

Definition paginate (routes : CatalogRoutes) (fixture : TableFixture) (both_created : bool)
  : Probe W (TablePaginationTranscript.t * Fact.t) :=
  if both_created then
    '(pagination, result) ← traverse_pages routes fixture;
    mret (pagination, Fact.from_result result)
  else
    let reason := "both table creates must pass before pagination" in
    _ ← skip "list-page-001" (Some LIST_CAPABILITY) reason;
    mret (TablePaginationTranscript.NotEvaluated reason, Fact.NotEvaluated reason).

(** Updating the loaded primary table: the fact and the new snapshot. *)
Definition update_primary (routes : CatalogRoutes) (fixture : TableFixture) (loaded : option TableSnapshot)
  : Probe W (Fact.t * option TableSnapshot) :=
  let primary := {| ti_namespace := tf_namespace fixture; ti_name := ti_name (tf_primary fixture) |} in
  match loaded with
  | Some before =>
      update ← on_table routes "update-primary-properties" UPDATE_CAPABILITY POST primary
        (Some (json_object
          [("requirements", Array []);
           ("updates", Array [json_object [("action", Str "set-properties");
                                           ("updates", json_object [(STATE_PROPERTY, Str "after")])];
                              json_object [("action", Str "remove-properties");
                                           ("removals", str_array [REMOVE_PROPERTY])]])]));
      reload ← on_table routes "reload-primary-after-update" UPDATE_CAPABILITY GET primary None;
      mret match validate_update before update reload with
           | Ok snapshot => (Fact.Pass, Some snapshot)
           | Err error => (Fact.Fail error, None)
           end
  | None =>
      let reason := "both table loads must pass before update" in
      _ ← skip "update-primary-properties" (Some UPDATE_CAPABILITY) reason;
      _ ← skip "reload-primary-after-update" (Some UPDATE_CAPABILITY) reason;
      mret (Fact.NotEvaluated reason, None)
  end.

Definition create_duplicate (routes : CatalogRoutes) (create_locations : TableCreateLocations)
    (fixture : TableFixture) (both_created : bool) : Probe W Fact.t :=
  if both_created then
    duplicate ← create_table routes create_locations (tf_primary fixture) "create-primary-duplicate";
    mret (Fact.from_result (validate_error_response (cta_observation duplicate) 409 "AlreadyExistsException"))
  else
    let reason := "primary table creation did not pass" in
    _ ← skip "create-primary-duplicate" (Some CREATE_CAPABILITY) reason;
    mret (Fact.NotEvaluated reason).

(** An optional step: skipped for a declared limitation or a missing
    prerequisite. *)
Definition skip_optional (operations : list (string * string)) (reason : string) : Probe W Fact.t :=
  _ ← skip_each operations reason;
  mret (Fact.NotEvaluated reason).

Definition rename_primary (routes : CatalogRoutes) (fixture : TableFixture)
    (optional_operations : OptionalTableOperations) (updated : option TableSnapshot) : Probe W Fact.t :=
  let operations := [("rename-primary", RENAME_CAPABILITY); ("load-primary-after-rename", RENAME_CAPABILITY);
                     ("load-renamed-after-rename", RENAME_CAPABILITY)] in
  match rename_limitation optional_operations, updated with
  | Some reason, _ => skip_optional operations reason
  | None, Some before => result ← attempt_rename routes fixture before; mret (Fact.from_result result)
  | None, None => skip_optional operations "primary table update did not pass"
  end.

(** Dropping the loaded sibling: the fact and the snapshot to register. *)
Definition drop_loaded_sibling (routes : CatalogRoutes) (fixture : TableFixture) (loaded : option TableSnapshot)
  : Probe W (Fact.t * option TableSnapshot) :=
  match loaded with
  | Some snapshot =>
      result ← drop_sibling routes (tf_sibling fixture);
      mret (Fact.from_result result, if is_ok result then Some snapshot else None)
  | None =>
      let reason := "both table loads must pass before drop" in
      _ ← skip "drop-sibling-without-purge" (Some DROP_CAPABILITY) reason;
      _ ← skip "load-sibling-after-drop" (Some DROP_CAPABILITY) reason;
      mret (Fact.NotEvaluated reason, None)
  end.

Definition register_sibling (routes : CatalogRoutes) (fixture : TableFixture)
    (optional_operations : OptionalTableOperations) (dropped : option TableSnapshot) : Probe W Fact.t :=
  let operations := [("register-sibling-metadata", REGISTER_CAPABILITY);
                     ("load-registered-after-register", REGISTER_CAPABILITY)] in
  match register_limitation optional_operations, dropped with
  | Some reason, _ => skip_optional operations reason
  | None, Some source =>
      result ← attempt_register routes (tf_registered fixture) source; mret (Fact.from_result result)
  | None, None => skip_optional operations "sibling drop did not pass"
  end.

Definition ok {A E} (r : result A E) : option A := match r with Ok a => Some a | Err _ => None end.

(** What follows the creation of the namespace. *)
Definition exercise_tables (routes : CatalogRoutes) (fixture : TableFixture)
    (create_locations : TableCreateLocations) (optional_operations : OptionalTableOperations)
    (facts : TableFacts) (isolated namespace : Fact.t) : Probe W (TablePaginationTranscript.t * TableFacts) :=
  primary_create ← create_table routes create_locations (tf_primary fixture) "create-primary";
  sibling_create ← create_table routes create_locations (tf_sibling fixture) "create-sibling";
  let primary_snapshot :=
    validate_initial_snapshot (cta_observation primary_create) (cta_requested_location primary_create) in
  let sibling_snapshot :=
    validate_initial_snapshot (cta_observation sibling_create) (cta_requested_location sibling_create) in
  let both_created := is_ok primary_snapshot && is_ok sibling_snapshot in
  let create := Fact.from_result (judge_creates primary_snapshot sibling_snapshot) in
  listed ← list_tables routes fixture both_created;
  primary_load ← load_created_table routes (tf_primary fixture) "load-primary" (ok primary_snapshot);
  sibling_load ← load_created_table routes (tf_sibling fixture) "load-sibling" (ok sibling_snapshot);
  let both_loaded := is_ok primary_load && is_ok sibling_load in
  let load := if both_created
              then Fact.from_result (all_results [result_map (fun _ => tt) primary_load;
                                                  result_map (fun _ => tt) sibling_load])
              else Fact.NotEvaluated "both table creates must pass before load round-trip" in
  '(pagination, pages) ← paginate routes fixture both_created;
  '(update, updated) ← update_primary routes fixture (if both_loaded then ok primary_load else None);
  duplicate ← create_duplicate routes create_locations fixture both_created;
  missing_table ← probe_missing_table routes (tf_missing fixture);
  missing_namespace ← probe_missing_namespace routes (tf_missing_namespace fixture);
  rename ← rename_primary routes fixture optional_operations updated;
  '(drop_table, dropped) ← drop_loaded_sibling routes fixture (if both_loaded then ok sibling_load else None);
  register ← register_sibling routes fixture optional_operations dropped;
  cleanup ← cleanup_fixture routes fixture;
  mret (pagination, {|
    tbf_authentication := tbf_authentication facts;
    tbf_config_routing := tbf_config_routing facts;
    tbf_fixture_isolated := isolated;
    tbf_fixture_namespace := namespace;
    tbf_create := create; tbf_list := listed; tbf_load := load; tbf_pagination := pages;
    tbf_update := update; tbf_duplicate := duplicate;
    tbf_missing_table := Fact.from_result missing_table;
    tbf_missing_namespace := Fact.from_result missing_namespace;
    tbf_rename := rename; tbf_drop_table := drop_table; tbf_register := register;
    tbf_cleanup := Fact.from_result cleanup;
    tbf_transcript_sanitized := tbf_transcript_sanitized facts |}).

(** What follows a passed preflight. *)
Definition exercise_fixture (routes : CatalogRoutes) (fixture : TableFixture)
    (create_locations : TableCreateLocations) (optional_operations : OptionalTableOperations)
    (facts : TableFacts) (isolated : Fact.t) : Probe W (TablePaginationTranscript.t * TableFacts) :=
  url ← lift (namespace_collection routes);
  namespace_create ← attempt "create-namespace" (Some NAMESPACE_CREATE_CAPABILITY) POST url
    (Some (json_object [("namespace", str_array (namespace_parts (tf_namespace fixture)));
                        ("properties", json_object [("catalog-bench.owner", Str "catalog-bench")])]));
  let namespace_created := validate_namespace_response namespace_create (tf_namespace fixture) in
  let namespace := Fact.from_result namespace_created in
  if negb (is_ok namespace_created) then
    let reason := "fixture namespace creation did not pass" in
    _ ← skip_table_operations reason;
    missing_table ← probe_missing_table routes (tf_missing fixture);
    missing_namespace ← probe_missing_namespace routes (tf_missing_namespace fixture);
    cleanup ← cleanup_fixture routes fixture;
    mret (TablePaginationTranscript.NotEvaluated reason,
          skip_table_behavior facts isolated namespace (Fact.from_result missing_table)
            (Fact.from_result missing_namespace) (Fact.from_result cleanup) reason)
  else exercise_tables routes fixture create_locations optional_operations facts isolated namespace.

Definition execute_table_workflow (routes : CatalogRoutes) (fixture : TableFixture)
    (create_locations : TableCreateLocations) (optional_operations : OptionalTableOperations)
    (facts : TableFacts) : Probe W (TablePaginationTranscript.t * TableFacts) :=
  url ← lift (namespace_route routes (tf_namespace fixture));
  preflight ← attempt "preflight-namespace" (Some NAMESPACE_LOAD_CAPABILITY) GET url None;
  let isolated := Fact.from_result (validate_error_response preflight 404 "NoSuchNamespaceException") in
  if negb (Fact.passed isolated) then
    let reason := Fact.explanation isolated "fixture preflight did not pass" in
    _ ← skip_mutating_workflow reason;
    missing_namespace ← probe_missing_namespace routes (tf_missing_namespace fixture);
    mret (TablePaginationTranscript.NotEvaluated reason,
          skip_mutating_behavior facts isolated (Fact.from_result missing_namespace) reason)
  else exercise_fixture routes fixture create_locations optional_operations facts isolated.
End Workflow.

(** ** The policy (table/policy.rs) *)

Definition table_parameters : list (string * Value) :=
  [("fixture_prefix", Str FIXTURE_PREFIX);
   ("iceberg_openapi_sha256", Str ICEBERG_REST_OPENAPI_SHA256);
   ("iceberg_openapi_source", Str ICEBERG_REST_OPENAPI_SOURCE);
   ("initial_properties", json_object [("c1-05.remove", Str "before"); ("c1-05.state", Str "before");
                                       ("catalog-bench.owner", Str "catalog-bench")]);
   ("maximum_pages", Num (PosInt 64));
   ("maximum_response_bytes", Num (PosInt MAXIMUM_RESPONSE_BYTES));
   ("namespace_separator_default", Str DEFAULT_NAMESPACE_SEPARATOR);
   ("page_size", Num (PosInt 1));
   ("purge_requested", Bool false);
   ("register_overwrite", Bool false);
   ("remove_properties", Array [Str "c1-05.remove"]);
   ("request_timeout_ms", Num (PosInt 30000));
   ("set_properties", json_object [("c1-05.state", Str "after")]);
   ("table_schema", requested_schema);
   ("transcript_format", Str TABLE_TRANSCRIPT_FORMAT)].

Definition table_capabilities : list (string * RequirementLevel) :=
  (fun capability => (capability, if (capability =? "iceberg-rest.table.register")
                                     || (capability =? "iceberg-rest.table.rename")
                                  then Optional else Required))
  <$> ["iceberg-rest.namespace.create";
       "iceberg-rest.namespace.load";
       "iceberg-rest.namespace.drop";
       "iceberg-rest.table.create";
       "iceberg-rest.table.list";
       "iceberg-rest.table.load";
       "iceberg-rest.table.register";
       "iceberg-rest.table.rename";
       "iceberg-rest.table.update";
       "iceberg-rest.table.drop";
       "iceberg-rest.error.spec-shape"].

Definition table_steps : list ExpectedStep :=
  [harness_step "negotiate-authentication" "authentication.negotiate" [] None;
   client_step "negotiate-config" "config.get-routing" ["negotiate-authentication"];
   harness_step "preflight-fixture" "table.verify-fixture-absence" ["negotiate-config"] None;
   client_step "create-namespace" "namespace.create-table-fixture" ["preflight-fixture"];
   client_step "create-tables" "table.create" ["create-namespace"];
   client_step "inspect-tables" "table.list-and-load" ["create-tables"];
   client_step "traverse-pagination" "table.list-pages" ["create-tables"];
   client_step "update-table" "table.update-properties" ["inspect-tables"];
   client_step "reject-duplicate" "table.create-duplicate" ["create-tables"];
   client_step "reject-missing-table" "table.load-missing" ["create-namespace"];
   client_step "reject-missing-namespace" "table.list-missing-namespace" ["negotiate-config"];
   client_step "rename-table" "table.rename-same-namespace" ["update-table"];
   client_step "drop-table" "table.drop-without-purge" ["inspect-tables"];
   client_step "register-table" "table.register-metadata" ["drop-table"];
   harness_step "cleanup-fixture" "table.reconcile-drop-and-verify"
     ["traverse-pagination"; "reject-duplicate"; "reject-missing-table"; "reject-missing-namespace";
      "rename-table"; "register-table"] (Some 30000%Z);
   harness_step "sanitize-transcript" "evidence.sanitize-http-transcript" ["cleanup-fixture"] None].

Definition table_assertions : list ExpectedAssertion :=
  let expect id step name configuration := {|
    ea_id := id; ea_step := step;
    ea_required := negb ((id =? "table-rename-round-trip") || (id =? "table-register-round-trip"));
    ea_check := custom_check name configuration |} in
  let error code type := [("code", Num (PosInt code)); ("type", Str type)] in
  [expect "authentication-ready" "negotiate-authentication"
     "authentication-ready-v1" [("persist_token", Bool false)];
   expect "config-routing-ready" "negotiate-config"
     "table-config-routing-v1" [("default_namespace_separator", Str "%1F")];
   expect "fixture-isolated" "preflight-fixture"
     "table-fixture-isolation-v1" (error 404%Z "NoSuchNamespaceException");
   expect "fixture-namespace-created" "create-namespace"
     "table-namespace-create-v1" [("expected_http_status", Num (PosInt 200))];
   expect "table-create-round-trip" "create-tables"
     "table-create-v1" [("expected_http_status", Num (PosInt 200)); ("stage_create", Bool false)];
   expect "table-list-visible" "inspect-tables" "table-list-v1" [("duplicate_policy", Str "reject")];
   expect "table-load-round-trip" "inspect-tables"
     "table-load-v1" [("expected_http_status", Num (PosInt 200))];
   expect "table-pagination-complete" "traverse-pagination"
     "table-pagination-v1" [("accept_unpaginated_fallback", Bool true);
                            ("maximum_pages", Num (PosInt 64)); ("page_size", Num (PosInt 1))];
   expect "table-update-round-trip" "update-table"
     "table-update-v1" [("preserve_unmentioned", Bool true); ("require_new_metadata_location", Bool true)];
   expect "duplicate-table-error-spec-shaped" "reject-duplicate"
     "table-duplicate-error-v1" (error 409%Z "AlreadyExistsException");
   expect "missing-table-error-spec-shaped" "reject-missing-table"
     "table-missing-error-v1" (error 404%Z "NoSuchTableException");
   expect "missing-namespace-error-spec-shaped" "reject-missing-namespace"
     "table-missing-namespace-error-v1" (error 404%Z "NoSuchNamespaceException");
   expect "table-rename-round-trip" "rename-table"
     "table-rename-v1" [("expected_http_status", Num (PosInt 204)); ("scope", Str "same-namespace")];
   expect "table-drop-clean" "drop-table"
     "table-drop-v1" [("final_http_status", Num (PosInt 404)); ("purge_requested", Bool false)];
   expect "table-register-round-trip" "register-table"
     "table-register-v1" [("expected_http_status", Num (PosInt 200)); ("overwrite", Bool false)];
   expect "table-fixture-clean" "cleanup-fixture"
     "table-cleanup-v1" [("final_http_status", Num (PosInt 404)); ("purge_requested", Bool false)];
   expect "transcript-sanitized" "sanitize-transcript"
     "sanitized-http-transcript-v1"
       [("request_header_policy", Str "allowlist-and-redact-authorization");
        ("response_header_policy", Str "allowlist");
        ("response_json_policy", Str "recursive-secret-key-redaction")]].

Definition table_policy : ProbePolicy := {|
  pp_probe := "table";
  pp_scenario := TABLE_SCENARIO_ID;
  pp_version := TABLE_SCENARIO_VERSION;
  pp_parameters := table_parameters;
  pp_capabilities := table_capabilities;
  pp_steps := table_steps;
  pp_assertions := table_assertions;
|}.

Definition table_evaluate_assertions (scenario : Scenario) (facts : TableFacts) : list ProbeAssertion :=
  (fun assertion => {| pa_assertion := spec_id assertion; pa_required := spec_required assertion;
                       pa_outcome := Fact.outcome (table_fact facts (spec_check assertion)) |})
    <$> scen_assertions scenario.

(** ** The probe (table/mod.rs) *)

Section Probe.
Context `{UrlParser, UrlOps, UrlEdit, FormCodec, JsonParser, Sha256, ClientBuilder} {W : Type}
  `{HttpClient W, FromValue NamespaceResponse, FromValue LoadTableResult}.
Context `{FromValue ListTablesResponse, FromValue IcebergErrorResponse, ToVecPretty TableEvidence}.

Definition unsupported_table_probe (profile : Profile) (scenario : Scenario)
    (contract_digests : ContractDigests) (target : ProbeTarget) (fixture : TableFixture)
    (limitation : UnsupportedAdapterCapability) : result TableTranscript string :=
  let reason := unsupported_reason limitation in
  let? config := not_evaluated_config (target_adapter target) reason in
  Ok {| tt_format := TABLE_TRANSCRIPT_FORMAT;
        tt_profile := prof_id profile;
        tt_scenario := transcript_scenario scenario;
        tt_contract_digests := contract_digests;
        tt_adapter := transcript_adapter (target_adapter target) (target_component target);
        tt_fixture := fixture;
        tt_classification := unsupported_classification limitation;
        tt_authentication := not_attempted_authentication (target_adapter target);
        tt_config := config;
        tt_operations := [];
        tt_pagination := TablePaginationTranscript.NotEvaluated reason;
        tt_assertions := not_evaluated_assertions scenario reason;
        tt_sanitization := automated_sanitization [] false |}.

(** The limitation the profile declares for an optional capability. *)
Definition declared_limitation (target : ProbeTarget) (capability : CapabilityId) : option string :=
  (fun limitation => "profile declares `" +:+ capability +:+ "` unsupported: " +:+ lim_explanation limitation)
    <$> limitation (ad_capabilities (target_adapter target)) capability.

Definition table_optional_operations (target : ProbeTarget) : OptionalTableOperations := {|
  rename_limitation := declared_limitation target RENAME_CAPABILITY;
  register_limitation := declared_limitation target REGISTER_CAPABILITY |}.

(** The workflow, when routing allows it. *)
Definition table_behavior (adapter : CatalogAdapter) (routing : RoutingNegotiation) (fixture : TableFixture)
    (create_locations : TableCreateLocations) (optional_operations : OptionalTableOperations)
    (facts : TableFacts) : Probe W (TablePaginationTranscript.t * TableFacts) :=
  let routes :=
    let? codec := ok_or (neg_codec routing) "table routing unavailable after config negotiation" in
    CatalogRoutes_new adapter (rct_prefix (neg_config routing)) codec "table" in
  match routes, tbf_config_routing facts with
  | Ok routes, Fact.Pass =>
      execute_table_workflow routes fixture create_locations optional_operations facts
  | Err reason, _ => mret (TablePaginationTranscript.NotEvaluated reason, skip_table_scenario facts reason)
  | Ok _, fact =>
      let reason := Fact.explanation fact "config routing did not pass" in
      mret (TablePaginationTranscript.NotEvaluated reason, skip_table_scenario facts reason)
  end.

(** The transcript concluded from a finished recorder. *)
Definition conclude_table_probe (profile : Profile) (scenario : Scenario) (contract_digests : ContractDigests)
    (target : ProbeTarget) (fixture : TableFixture) (routing : RoutingNegotiation)
    (pagination : TablePaginationTranscript.t) (facts : TableFacts) (recorder : OperationRecorder)
  : result TableTranscript string :=
  let authentication := neg_authentication routing in
  let config := neg_config routing in
  let operations := rec_operations recorder in
  let redactions := sort_dedup (neg_redactions routing ++ rec_redactions recorder) in
  let? serialized := encode_evidence (at_transcript authentication, config, operations, pagination) in
  let transcript_sanitized :=
    negb (contains_sensitive_value serialized (at_sensitive_values authentication)) in
  let facts := table_sanitized facts (Fact.from_bool transcript_sanitized
    "sanitized evidence still contains a sensitive runtime value") in
  let assertions := table_evaluate_assertions scenario facts in
  Ok {| tt_format := TABLE_TRANSCRIPT_FORMAT;
        tt_profile := prof_id profile;
        tt_scenario := transcript_scenario scenario;
        tt_contract_digests := contract_digests;
        tt_adapter := transcript_adapter (target_adapter target) (target_component target);
        tt_fixture := fixture;
        tt_classification := classify_probe assertions
          "one or more required table-behavior assertions did not pass";
        tt_authentication := at_transcript authentication;
        tt_config := config;
        tt_operations := operations;
        tt_pagination := pagination;
        tt_assertions := assertions;
        tt_sanitization := automated_sanitization redactions (negb transcript_sanitized) |}.

(** The checks before any network access. *)
Definition prepare_table_probe (profile : Profile) (scenario : Scenario) (catalog : ComponentId)
    (fixture_id : string) : result (ProbeTarget * TableFixture) string :=
  check? validate_invocation table_policy profile scenario catalog in
  let? target := resolve_target profile scenario catalog in
  let? fixture := TableFixture_new catalog fixture_id in
  Ok (target, fixture).

Definition run_table_probe (profile : Profile) (scenario : Scenario) (catalog : ComponentId)
    (fixture_id : string) (contract_digests : ContractDigests) (getenv : string -> option string) (w : W)
  : result TableTranscript string * W :=
  match prepare_table_probe profile scenario catalog fixture_id with
  | Err e => (Err e, w)
  | Ok (target, fixture) =>
      match first_required_limitation target scenario with
      | Some limitation =>
          (unsupported_table_probe profile scenario contract_digests target fixture limitation, w)
      | None =>
          let clients :=
            let? create_locations :=
              TableCreateLocations_new (ep_create_table_location (ad_endpoint (target_adapter target))) in
            check? http_client REQUEST_TIMEOUT_MS in
            Ok create_locations in
          match clients with
          | Err e => (Err e, w)
          | Ok create_locations =>
              let '(negotiated, w) := negotiate_routing (target_adapter target) getenv w in
              match negotiated with
              | Err e => (Err e, w)
              | Ok routing =>
                  let authentication := neg_authentication routing in
                  let facts := TableFacts_new (is_none (at_failure authentication))
                                 (neg_config_routing routing) in
                  let recorder := new_recorder (at_bearer_token authentication)
                                    (at_sensitive_values authentication) in
                  let '(outcome, (recorder, w)) :=
                    table_behavior (target_adapter target) routing fixture create_locations
                      (table_optional_operations target) facts (recorder, w) in
                  (let? behavior := outcome in
                   conclude_table_probe profile scenario contract_digests target fixture routing
                     behavior.1 behavior.2 recorder, w)
              end
          end
      end
  end.
End Probe.
