(* ===== verification/CommitProbe.v ===== *)
(** * The commit-correctness probe (crates/conformance/src/commit)

    On one table the probe commits under requirements that hold, advances the
    schema, commits under a requirement that no longer holds, and, where the
    catalog advertises it, replays a commit under an idempotency key and then
    reuses the key for different content. Every step is judged by the metadata a
    reload returns. *)

From S2P Require Import Prelude Order RustStr Json ContractValue ContractScenario ContractAdapter ContractProfile.
From S2P Require Import ContractResult Ledger Transport Sanitize Capture Routing Operation ProbePolicy ConfigProbe.
From S2P Require Import TableProtocol.
Open Scope string_scope.

Definition COMMIT_TRANSCRIPT_FORMAT : string := "catalog-bench/commit-transcript/v1".
Definition COMMIT_SCENARIO_ID : string := "iceberg-rest.commit.correctness".
Definition COMMIT_SCENARIO_VERSION : Z := 1.
Definition REQUEST_TIMEOUT_MS : Z := 30000.

Definition CREATE_CAPABILITY : string := "iceberg-rest.table.create".
Definition LOAD_CAPABILITY : string := "iceberg-rest.table.load".
Definition UPDATE_CAPABILITY : string := "iceberg-rest.table.update".
Definition DROP_CAPABILITY : string := "iceberg-rest.table.drop".
Definition EXACT_RETRY_CAPABILITY : string := "iceberg-rest.table.commit.exact-retry".
Definition CONTENT_BINDING_CAPABILITY : string := "iceberg-rest.idempotency-key.content-binding".
Definition NAMESPACE_CREATE_CAPABILITY : string := "iceberg-rest.namespace.create".
Definition NAMESPACE_LOAD_CAPABILITY : string := "iceberg-rest.namespace.load".
Definition NAMESPACE_DROP_CAPABILITY : string := "iceberg-rest.namespace.drop".

Definition OWNER_PROPERTY : string := "catalog-bench.owner".
Definition STATE_PROPERTY : string := "c1-06.state".
Definition STALE_PROPERTY : string := "c1-06.stale".
Definition RETRY_PROPERTY : string := "c1-06.retry".

Definition IDEMPOTENCY_POINTERS : list string :=
  ["/idempotency-key-lifetime"; "/overrides/idempotency-key-lifetime"; "/defaults/idempotency-key-lifetime"].

(** ** Fixtures (commit/fixture.rs) *)

Definition FIXTURE_PREFIX : string := "cb_c106".

Record CommitFixture := { cx_id : string; cx_namespace : NamespaceIdentifier; cx_table : string }.

(** [CommitFixture::new]. *)
Definition CommitFixture_new (catalog : ComponentId) (id : string) : result CommitFixture string :=
  let? stem := fixture_stem FIXTURE_PREFIX catalog id in
  let? namespace := namespace_single stem in
  Ok {| cx_id := id; cx_namespace := namespace; cx_table := "commit_correctness" |}.

(** ** Idempotency advertisements (commit/mod.rs) *)

Module IdempotencyAdvertisement.
Inductive t :=
| Advertised (source lifetime : string)
| NotAdvertised
| Malformed (source explanation : string)
| NotEvaluated (reason : string).

Fixpoint inspect_pointers (config : Value) (pointers : list string) : t :=
  match pointers with
  | [] => NotAdvertised
  | pointer :: rest =>
      match json_pointer pointer config with
      | None => inspect_pointers config rest
      | Some (Str lifetime) =>
          if negb (blank lifetime) then Advertised pointer lifetime
          else Malformed pointer "idempotency-key-lifetime is empty"
      | Some _ => Malformed pointer "idempotency-key-lifetime must be a nonempty string"
      end
  end.

Definition inspect (config : option Value) (config_routing : Fact.t) : t :=
  if negb (Fact.passed config_routing)
  then NotEvaluated (Fact.explanation config_routing "config routing did not pass")
  else match config with
       | None => NotEvaluated "config response has no captured JSON body"
       | Some config => inspect_pointers config IDEMPOTENCY_POINTERS
       end.

Definition malformed_reason (source explanation : string) : string :=
  "malformed advertisement at `" +:+ source +:+ "`: " +:+ explanation.

Definition fact (self : t) : Fact.t :=
  match self with
  | Advertised _ _ => Fact.Pass
  | NotAdvertised => Fact.NotEvaluated "config does not advertise idempotency-key-lifetime"
  | Malformed source explanation => Fact.Fail (malformed_reason source explanation)
  | NotEvaluated reason => Fact.NotEvaluated reason
  end.

Definition advertised (self : t) : bool := match self with Advertised _ _ => true | _ => false end.

Definition unavailable_reason (self : t) : string :=
  match self with
  | NotAdvertised => "config does not advertise idempotency-key-lifetime"
  | Malformed source explanation => malformed_reason source explanation
  | NotEvaluated reason => reason
  | Advertised _ _ => "idempotency support is available"
  end.
End IdempotencyAdvertisement.

(** ** Evidence *)

Record CommitTranscript := {
  cmt_format : string;
  cmt_profile : ProfileId;
  cmt_scenario : TranscriptScenario;
  cmt_contract_digests : ContractDigests;
  cmt_adapter : TranscriptAdapter;
  cmt_fixture : CommitFixture;
  cmt_classification : ProbeClassification.t;
  cmt_authentication : AuthenticationTranscript;
  cmt_config : RoutingConfigTranscript;
  cmt_idempotency : IdempotencyAdvertisement.t;
  cmt_operations : list OperationTranscript;
  cmt_assertions : list ProbeAssertion;
  cmt_sanitization : SanitizationTranscript;
}.

Record OptionalCommitOperations := {
  exact_retry_limitation : option string;
  content_binding_limitation : option string;
}.

Record CommitIdempotency := {
  ci_advertisement : IdempotencyAdvertisement.t;
  ci_operations : OptionalCommitOperations;
  ci_key : option IdempotencyKey;
}.

(** ** Facts *)

Record CommitFacts := {
  cmf_authentication : Fact.t;
  cmf_config_routing : Fact.t;
  cmf_fixture_isolated : Fact.t;
  cmf_fixture_ready : Fact.t;
  cmf_current_requirements : Fact.t;
  cmf_schema_transition : Fact.t;
  cmf_stale_rejection : Fact.t;
  cmf_idempotency_advertisement : Fact.t;
  cmf_exact_replay : Fact.t;
  cmf_content_binding : Fact.t;
  cmf_required_final : Fact.t;
  cmf_cleanup : Fact.t;
  cmf_transcript_sanitized : Fact.t;
}.

(** [CommitFacts::new]. *)
Definition CommitFacts_new (authentication_ready : bool) (config_routing advertisement : Fact.t) : CommitFacts :=
  let pending := Fact.NotEvaluated "commit workflow did not reach this check" in {|
  cmf_authentication := Fact.from_bool authentication_ready "authentication negotiation did not complete";
  cmf_config_routing := config_routing;
  cmf_fixture_isolated := pending; cmf_fixture_ready := pending; cmf_current_requirements := pending;
  cmf_schema_transition := pending; cmf_stale_rejection := pending;
  cmf_idempotency_advertisement := advertisement;
  cmf_exact_replay := pending; cmf_content_binding := pending; cmf_required_final := pending;
  cmf_cleanup := pending; cmf_transcript_sanitized := pending |}.

(** The facts a workflow determines; the others are kept. *)
Definition workflow_facts (self : CommitFacts) (isolated fixture_ready current_requirements schema_transition
    stale_rejection exact_replay content_binding required_final cleanup : Fact.t) : CommitFacts := {|
  cmf_authentication := cmf_authentication self;
  cmf_config_routing := cmf_config_routing self;
  cmf_fixture_isolated := isolated;
  cmf_fixture_ready := fixture_ready;
  cmf_current_requirements := current_requirements;
  cmf_schema_transition := schema_transition;
  cmf_stale_rejection := stale_rejection;
  cmf_idempotency_advertisement := cmf_idempotency_advertisement self;
  cmf_exact_replay := exact_replay;
  cmf_content_binding := content_binding;
  cmf_required_final := required_final;
  cmf_cleanup := cleanup;
  cmf_transcript_sanitized := cmf_transcript_sanitized self |}.

Definition facts_skip_after_fixture (self : CommitFacts) (isolated fixture_ready cleanup : Fact.t)
    (reason : string) : CommitFacts :=
  let skipped := Fact.NotEvaluated reason in
  workflow_facts self isolated fixture_ready skipped skipped skipped skipped skipped skipped cleanup.

Definition facts_skip_after_preflight (self : CommitFacts) (isolated : Fact.t) (reason : string) : CommitFacts :=
  facts_skip_after_fixture self isolated (Fact.NotEvaluated reason) (Fact.NotEvaluated reason) reason.

Definition skip_commit_scenario (self : CommitFacts) (reason : string) : CommitFacts :=
  facts_skip_after_preflight self (Fact.NotEvaluated reason) reason.

Definition commit_sanitized (self : CommitFacts) (fact : Fact.t) : CommitFacts := {|
  cmf_authentication := cmf_authentication self;
  cmf_config_routing := cmf_config_routing self;
  cmf_fixture_isolated := cmf_fixture_isolated self;
  cmf_fixture_ready := cmf_fixture_ready self;
  cmf_current_requirements := cmf_current_requirements self;
  cmf_schema_transition := cmf_schema_transition self;
  cmf_stale_rejection := cmf_stale_rejection self;
  cmf_idempotency_advertisement := cmf_idempotency_advertisement self;
  cmf_exact_replay := cmf_exact_replay self;
  cmf_content_binding := cmf_content_binding self;
  cmf_required_final := cmf_required_final self;
  cmf_cleanup := cmf_cleanup self;
  cmf_transcript_sanitized := fact |}.

Definition commit_fact_table : list (string * (CommitFacts -> Fact.t)) :=
  [("authentication-ready-v1", cmf_authentication);
   ("commit-config-routing-v1", cmf_config_routing);
   ("commit-fixture-isolation-v1", cmf_fixture_isolated);
   ("commit-fixture-v1", cmf_fixture_ready);
   ("commit-requirements-v1", cmf_current_requirements);
   ("commit-schema-transition-v1", cmf_schema_transition);
   ("commit-stale-rejection-v1", cmf_stale_rejection);
   ("idempotency-advertisement-v1", cmf_idempotency_advertisement);
   ("idempotency-content-binding-v1", cmf_content_binding);
   ("commit-final-state-v1", cmf_required_final);
   ("commit-cleanup-v1", cmf_cleanup);
   ("sanitized-commit-transcript-v1", cmf_transcript_sanitized)].

(** [for_assertion] *)
Definition commit_fact (self : CommitFacts) (check : AssertionCheck) : Fact.t :=
  match check with
  | ExactReplay => cmf_exact_replay self
  | Custom name _ =>
      match find (fun row : string * (CommitFacts -> Fact.t) =>
                    name =? "querygraph/catalog-bench/" +:+ row.1) commit_fact_table with
      | Some (_, fact) => fact self
      | None => Fact.Fail ("commit policy received unknown assertion `" +:+ name +:+ "`")
      end
  | _ => Fact.Fail "commit policy received an unsupported assertion kind"
  end.

(** ** Request bodies (commit/workflow.rs) *)

Definition optional_field (id : Z) (name type : string) : Value :=
  json_object [("id", Num (PosInt id)); ("name", Str name); ("required", Bool false); ("type", Str type)].

Definition initial_schema : Value :=
  json_object [("type", Str "struct"); ("schema-id", Num (PosInt 0));
               ("fields", Array [optional_field 1 "value" "long"])].

Definition transitioned_schema : Value :=
  json_object [("type", Str "struct"); ("schema-id", Num (PosInt 1));
               ("fields", Array [optional_field 1 "value" "long"; optional_field 2 "note" "string"])].

Definition assert_uuid (uuid : string) : Value :=
  json_object [("type", Str "assert-table-uuid"); ("uuid", Str uuid)].
Definition assert_schema_id (schema_id : Z) : Value :=
  json_object [("type", Str "assert-current-schema-id"); ("current-schema-id", Num (PosInt schema_id))].

Definition property_commit_body (uuid : string) (schema_id : Z) (property value : string) : Value :=
  json_object
    [("requirements", Array [assert_uuid uuid; assert_schema_id schema_id]);
     ("updates", Array [json_object [("action", Str "set-properties");
                                     ("updates", json_object [(property, Str value)])]])].

Definition schema_commit_body (uuid : string) : Value :=
  json_object
    [("requirements", Array [assert_uuid uuid; assert_schema_id 0;
        json_object [("type", Str "assert-last-assigned-field-id"); ("last-assigned-field-id", Num (PosInt 1))]]);
     ("updates", Array [json_object [("action", Str "add-schema"); ("schema", transitioned_schema);
                                     ("last-column-id", Num (PosInt 2))];
                        json_object [("action", Str "set-current-schema"); ("schema-id", Num (PosInt 1))]])].

(** ** Judging snapshots *)

(** The [{:?}] format of an [Option<i32>]. *)
Definition debug_option (o : option Z) : string :=
  match o with Some n => "Some(" +:+ display n +:+ ")" | None => "None" end.

(** Derived [PartialEq] of snapshots. *)
Definition snapshot_eqb (a b : TableSnapshot) : bool :=
  (sn_metadata_location a =? sn_metadata_location b)
  && (sn_location a =? sn_location b)
  && (sn_uuid a =? sn_uuid b)
  && schema_eqb (sn_schema a) (sn_schema b)
  && bool_decide (sn_last_column_id a = sn_last_column_id b)
  && bool_decide (sn_properties a = sn_properties b).

Definition validate_exact_snapshot (expected actual : TableSnapshot) : result unit string :=
  if snapshot_eqb actual expected then Ok tt
  else Err "table snapshot differs from the exact expected metadata state".

Definition field_matches (actual : TableField) (expected : Z * string * bool * Value) : bool :=
  let '(id, name, required, field_type) := expected in
  (fd_id actual =? id)%Z && (fd_name actual =? name) && Bool.eqb (fd_required actual) required
  && value_eqb (fd_type actual) field_type.

Definition validate_schema (schema : TableSchema) (schema_id : Z)
    (expected_fields : list (Z * string * bool * Value)) : result unit string :=
  guard negb (sc_type schema =? "struct") || negb (bool_decide (sc_schema_id schema = Some schema_id))
    or "current schema is not struct schema " +:+ display schema_id in
  guard negb (length (sc_fields schema) =? length expected_fields)%nat
    or "schema " +:+ display schema_id +:+ " has " +:+ display (len (sc_fields schema))
       +:+ " fields instead of " +:+ display (len expected_fields) in
  match find (fun pair => negb (field_matches pair.1 pair.2)) (zip (sc_fields schema) expected_fields) with
  | Some (_, (_, name, _, _)) =>
      Err ("schema " +:+ display schema_id +:+ " does not preserve field `" +:+ name +:+ "`")
  | None => Ok tt
  end.

Definition validate_schema_zero (snapshot : TableSnapshot) : result unit string :=
  validate_schema (sn_schema snapshot) 0 [(1%Z, "value", false, Str "long")].

Definition validate_schema_one (snapshot : TableSnapshot) : result unit string :=
  guard negb (bool_decide (sn_last_column_id snapshot = Some 2%Z))
    or "transitioned last-column-id " +:+ debug_option (sn_last_column_id snapshot) +:+ " does not match 2" in
  validate_schema (sn_schema snapshot) 1
    [(1%Z, "value", false, Str "long"); (2%Z, "note", false, Str "string")].

Definition validate_initial_snapshot (snapshot : TableSnapshot) (requested_location : option string)
  : result TableSnapshot string :=
  check? validate_schema_zero snapshot in
  guard negb (bool_decide (sn_last_column_id snapshot = Some 1%Z))
    or "initial last-column-id " +:+ debug_option (sn_last_column_id snapshot) +:+ " does not match 1" in
  check? match requested_location with
         | Some requested_location =>
             guard negb (sn_location snapshot =? requested_location)
               or "created table location `" +:+ sn_location snapshot +:+ "` does not preserve `"
                  +:+ requested_location +:+ "`" in
             Ok tt
         | None => Ok tt
         end in
  match find (fun expected => negb (property_is snapshot expected.1 expected.2))
          [(OWNER_PROPERTY, "catalog-bench"); (STATE_PROPERTY, "initial")] with
  | Some (key, _) => Err ("initial metadata does not preserve property `" +:+ key +:+ "`")
  | None => Ok snapshot
  end.

(** The properties the scenario owns. *)
Definition scenario_properties (properties : gmap string string) : gmap string string :=
  filter (fun entry => starts_with "catalog-bench." entry.1 || starts_with "c1-06." entry.1 = true) properties.

Definition validate_identity_and_pointer_transition (before after : TableSnapshot) : result unit string :=
  guard negb (sn_uuid after =? sn_uuid before) or "commit changed the table UUID" in
  guard negb (sn_location after =? sn_location before) or "commit changed the table location" in
  guard sn_metadata_location after =? sn_metadata_location before
    or "commit did not advance the metadata location" in
  Ok tt.

(** The schema and the last column of a snapshot are those of another. *)
Definition same_schema (after before : TableSnapshot) : bool :=
  schema_eqb (sn_schema after) (sn_schema before)
  && bool_decide (sn_last_column_id after = sn_last_column_id before).

(** The scenario's properties after setting one of them. *)
Definition properties_set (before after : TableSnapshot) (property value : string) : bool :=
  bool_decide (scenario_properties (sn_properties after)
               = <[ property := value ]> (scenario_properties (sn_properties before))).

Section Responses.
Context `{FromValue LoadTableResult}.

(** A reload must return exactly the snapshot. *)
Definition reloaded (expected : TableSnapshot) (reload : Observation) : result TableSnapshot string :=
  let? loaded := parse_table_snapshot reload 200 in
  check? validate_exact_snapshot expected loaded in
  Ok loaded.

Definition validate_property_transition (before : TableSnapshot) (commit reload : Observation)
    (property value : string) : result TableSnapshot string :=
  let? committed := parse_table_snapshot commit 200 in
  check? validate_identity_and_pointer_transition before committed in
  guard negb (same_schema committed before) or "property commit changed schema metadata" in
  guard negb (properties_set before committed property value)
    or "property commit did not produce the exact `" +:+ property +:+ "` transition" in
  reloaded committed reload.

(** The judgement of [commit_schema_transition]. *)
Definition validate_schema_transition (before : TableSnapshot) (commit reload : Observation)
  : result TableSnapshot string :=
  let? committed := parse_table_snapshot commit 200 in
  check? validate_identity_and_pointer_transition before committed in
  check? validate_schema_one committed in
  guard negb (bool_decide (scenario_properties (sn_properties committed)
                           = scenario_properties (sn_properties before)))
    or "schema transition changed scenario-owned table properties" in
  reloaded committed reload.

(** The judgement of [verify_required_final_state]. *)
Definition validate_final_state (expected : TableSnapshot) (load : Observation) : result unit string :=
  let? loaded := reloaded expected load in
  check? validate_schema_one loaded in
  guard negb (property_is loaded STATE_PROPERTY "requirement-accepted")
    or "required final state does not retain `" +:+ STATE_PROPERTY +:+ "`" in
  guard bool_decide (is_Some (sn_properties loaded !! STALE_PROPERTY))
    or "required final state contains rejected property `" +:+ STALE_PROPERTY +:+ "`" in
  Ok tt.

(** The judgement of [attempt_exact_replay]. *)
Definition validate_exact_replay (before : TableSnapshot) (first first_reload replay replay_reload : Observation)
  : result TableSnapshot string :=
  let? committed := parse_table_snapshot first 200 in
  check? validate_identity_and_pointer_transition before committed in
  guard negb (same_schema committed before && properties_set before committed RETRY_PROPERTY "accepted-once")
    or "first idempotent commit did not apply exactly one property update" in
  check? reloaded committed first_reload in
  check? reloaded committed replay in
  reloaded committed replay_reload.
End Responses.

(** ** The workflow (commit/workflow.rs) *)

Definition CommitEvidence : Type :=
  AuthenticationTranscript * RoutingConfigTranscript * IdempotencyAdvertisement.t * list OperationTranscript.

Definition unit_result {A E} (r : result A E) : result unit E := result_map (fun _ => tt) r.

Definition skip_required_commits {W} (reason : string) : Probe W unit :=
  skip_each
    [("commit-current-requirements", UPDATE_CAPABILITY); ("reload-after-current-requirements", LOAD_CAPABILITY);
     ("commit-schema-transition", UPDATE_CAPABILITY); ("reload-after-schema-transition", LOAD_CAPABILITY);
     ("commit-stale-requirement", UPDATE_CAPABILITY); ("reload-after-stale-requirement", LOAD_CAPABILITY);
     ("load-required-final-state", LOAD_CAPABILITY)] reason.

Definition skip_optional_commits {W} (reason : string) : Probe W unit :=
  skip_each
    [("commit-idempotent-first", EXACT_RETRY_CAPABILITY);
     ("reload-after-idempotent-first", EXACT_RETRY_CAPABILITY);
     ("commit-idempotent-replay", EXACT_RETRY_CAPABILITY);
     ("reload-after-idempotent-replay", EXACT_RETRY_CAPABILITY);
     ("commit-idempotency-drift", CONTENT_BINDING_CAPABILITY);
     ("reload-after-idempotency-drift", CONTENT_BINDING_CAPABILITY)] reason.

Definition skip_after_current_commit {W} (reason : string) : Probe W unit :=
  _ ← skip_each
    [("commit-schema-transition", UPDATE_CAPABILITY); ("reload-after-schema-transition", LOAD_CAPABILITY);
     ("commit-stale-requirement", UPDATE_CAPABILITY); ("reload-after-stale-requirement", LOAD_CAPABILITY);
     ("load-required-final-state", LOAD_CAPABILITY)] reason;
  skip_optional_commits reason.

Definition skip_after_schema_commit {W} (reason : string) : Probe W unit :=
  _ ← skip_each
    [("commit-stale-requirement", UPDATE_CAPABILITY); ("reload-after-stale-requirement", LOAD_CAPABILITY);
     ("load-required-final-state", LOAD_CAPABILITY)] reason;
  skip_optional_commits reason.

Definition skip_cleanup {W} (reason : string) : Probe W unit :=
  skip_each
    [("cleanup-drop-table", DROP_CAPABILITY); ("cleanup-verify-table-absent", LOAD_CAPABILITY);
     ("cleanup-drop-namespace", NAMESPACE_DROP_CAPABILITY);
     ("cleanup-verify-namespace-absent", NAMESPACE_LOAD_CAPABILITY)] reason.

Definition skip_after_preflight {W} (reason : string) : Probe W unit :=
  _ ← skip_each [("create-namespace", NAMESPACE_CREATE_CAPABILITY); ("create-table", CREATE_CAPABILITY);
                 ("load-initial-table", LOAD_CAPABILITY)] reason;
  _ ← skip_required_commits reason;
  _ ← skip_optional_commits reason;
  skip_cleanup reason.

Definition skip_drift {W} (reason : string) : Probe W unit :=
  skip_each [("commit-idempotency-drift", CONTENT_BINDING_CAPABILITY);
             ("reload-after-idempotency-drift", CONTENT_BINDING_CAPABILITY)] reason.

Section Workflow.
Context `{UrlParser, UrlOps, UrlEdit, FormCodec, JsonParser, Sha256, ClientBuilder} {W : Type}
  `{HttpClient W, FromValue NamespaceResponse, FromValue LoadTableResult}.
Context `{FromValue IcebergErrorResponse, ToVecPretty CommitEvidence, UuidSource W}.

(** A request on the URL of the table of a fixture. *)
Definition on_table (routes : CatalogRoutes) (fixture : CommitFixture) (id capability : string)
    (method : Method) (body : option Value) : Probe W Observation :=
  url ← lift (table_route routes (cx_namespace fixture) (cx_table fixture));
  attempt id (Some capability) method url body.

Definition commit_under_key (routes : CatalogRoutes) (fixture : CommitFixture) (id capability : string)
    (body : Value) (key : IdempotencyKey) : Probe W Observation :=
  url ← lift (table_route routes (cx_namespace fixture) (cx_table fixture));
  attempt_idempotent id (Some capability) POST url (Some body) key.

Definition create_and_load_table (routes : CatalogRoutes) (fixture : CommitFixture)
    (create_locations : TableCreateLocations) : Probe W (result TableSnapshot string) :=
  requested_location ← lift (for_table create_locations (cx_namespace fixture) (cx_table fixture));
  url ← lift (table_collection routes (cx_namespace fixture));
  create ← attempt "create-table" (Some CREATE_CAPABILITY) POST url
    (Some (committed_table_request (cx_table fixture) requested_location initial_schema
      {[ OWNER_PROPERTY := "catalog-bench"; STATE_PROPERTY := "initial" ]}));
  load ← on_table routes fixture "load-initial-table" LOAD_CAPABILITY GET None;
  mret (let? snapshot := parse_table_snapshot create 200 in
        let? created := validate_initial_snapshot snapshot requested_location in
        reloaded created load).

Definition commit_current_requirements (routes : CatalogRoutes) (fixture : CommitFixture) (before : TableSnapshot)
  : Probe W (result TableSnapshot string) :=
  commit ← on_table routes fixture "commit-current-requirements" UPDATE_CAPABILITY POST
    (Some (property_commit_body (sn_uuid before) 0 STATE_PROPERTY "requirement-accepted"));
  reload ← on_table routes fixture "reload-after-current-requirements" LOAD_CAPABILITY GET None;
  mret (validate_property_transition before commit reload STATE_PROPERTY "requirement-accepted").

Definition commit_schema_transition (routes : CatalogRoutes) (fixture : CommitFixture) (before : TableSnapshot)
  : Probe W (result TableSnapshot string) :=
  commit ← on_table routes fixture "commit-schema-transition" UPDATE_CAPABILITY POST
    (Some (schema_commit_body (sn_uuid before)));
  reload ← on_table routes fixture "reload-after-schema-transition" LOAD_CAPABILITY GET None;
  mret (validate_schema_transition before commit reload).

Definition reject_stale_requirement (routes : CatalogRoutes) (fixture : CommitFixture) (before : TableSnapshot)
  : Probe W (result unit string) :=
  commit ← on_table routes fixture "commit-stale-requirement" UPDATE_CAPABILITY POST
    (Some (property_commit_body (sn_uuid before) 0 STALE_PROPERTY "must-not-apply"));
  reload ← on_table routes fixture "reload-after-stale-requirement" LOAD_CAPABILITY GET None;
  mret (all_results [validate_error_response commit 409 "CommitFailedException";
                     unit_result (reloaded before reload)]).

Definition verify_required_final_state (routes : CatalogRoutes) (fixture : CommitFixture)
    (expected : TableSnapshot) : Probe W (result unit string) :=
  load ← on_table routes fixture "load-required-final-state" LOAD_CAPABILITY GET None;
  mret (validate_final_state expected load).

Definition attempt_exact_replay (routes : CatalogRoutes) (fixture : CommitFixture) (before : TableSnapshot)
    (key : IdempotencyKey) : Probe W (result TableSnapshot string) :=
  let body := property_commit_body (sn_uuid before) 1 RETRY_PROPERTY "accepted-once" in
  first ← commit_under_key routes fixture "commit-idempotent-first" EXACT_RETRY_CAPABILITY body key;
  first_reload ← on_table routes fixture "reload-after-idempotent-first" EXACT_RETRY_CAPABILITY GET None;
  replay ← commit_under_key routes fixture "commit-idempotent-replay" EXACT_RETRY_CAPABILITY body key;
  replay_reload ← on_table routes fixture "reload-after-idempotent-replay" EXACT_RETRY_CAPABILITY GET None;
  mret (validate_exact_replay before first first_reload replay replay_reload).

Definition reject_idempotency_drift (routes : CatalogRoutes) (fixture : CommitFixture) (before : TableSnapshot)
    (key : IdempotencyKey) : Probe W (result unit string) :=
  drift ← commit_under_key routes fixture "commit-idempotency-drift" CONTENT_BINDING_CAPABILITY
    (property_commit_body (sn_uuid before) 1 RETRY_PROPERTY "drifted-must-not-apply") key;
  reload ← on_table routes fixture "reload-after-idempotency-drift" CONTENT_BINDING_CAPABILITY GET None;
  mret (all_results [unit_result (validate_spec_error_response drift 409);
                     unit_result (reloaded before reload)]).

Definition table_drop_url (routes : CatalogRoutes) (fixture : CommitFixture) : result Url string :=
  let? url := table_route routes (cx_namespace fixture) (cx_table fixture) in
  Ok (url_append_pair url "purgeRequested" "false").

Definition cleanup_fixture (routes : CatalogRoutes) (fixture : CommitFixture) : Probe W (result unit string) :=
  url ← lift (table_drop_url routes fixture);
  drop_table ← attempt "cleanup-drop-table" (Some DROP_CAPABILITY) DELETE url None;
  load_table ← on_table routes fixture "cleanup-verify-table-absent" LOAD_CAPABILITY GET None;
  namespace_url ← lift (namespace_route routes (cx_namespace fixture));
  drop_namespace ← attempt "cleanup-drop-namespace" (Some NAMESPACE_DROP_CAPABILITY) DELETE namespace_url None;
  load_namespace ← attempt "cleanup-verify-namespace-absent" (Some NAMESPACE_LOAD_CAPABILITY) GET
    namespace_url None;
  mret (all_results [validate_status drop_table [204; 404]%Z;
                     validate_error_response load_table 404 "NoSuchTableException";
                     validate_status drop_namespace [204; 404]%Z;
                     validate_error_response load_namespace 404 "NoSuchNamespaceException"]).

(** The optional branch: the facts [exact_replay] and [content_binding]. *)
Definition execute_optional_idempotency (routes : CatalogRoutes) (fixture : CommitFixture)
    (before : TableSnapshot) (idempotency : CommitIdempotency) (required_final : Fact.t)
  : Probe W (Fact.t * Fact.t) :=
  let unavailable (reason : string) (exact_replay content_binding : Fact.t) : Probe W (Fact.t * Fact.t) :=
    _ ← skip_optional_commits reason; mret (exact_replay, content_binding) in
  if negb (Fact.passed required_final) then
    let reason := Fact.explanation required_final "required final state did not pass" in
    unavailable reason (Fact.NotEvaluated reason) (Fact.NotEvaluated reason)
  else if negb (IdempotencyAdvertisement.advertised (ci_advertisement idempotency)) then
    let reason := IdempotencyAdvertisement.unavailable_reason (ci_advertisement idempotency) in
    unavailable reason (Fact.NotEvaluated reason) (Fact.NotEvaluated reason)
  else
    match exact_retry_limitation (ci_operations idempotency), ci_key idempotency with
    | Some reason, _ =>
        unavailable reason (Fact.NotEvaluated reason)
          (Fact.NotEvaluated ("content binding depends on exact retry: " +:+ reason))
    | None, None =>
        let reason := "idempotency key was not generated for an advertised exact-retry check" in
        unavailable reason (Fact.Fail reason) (Fact.NotEvaluated reason)
    | None, Some key =>
        exact_snapshot ← attempt_exact_replay routes fixture before key;
        let exact_replay := Fact.from_result (unit_result exact_snapshot) in
        match content_binding_limitation (ci_operations idempotency), exact_snapshot with
        | Some reason, _ => _ ← skip_drift reason; mret (exact_replay, Fact.NotEvaluated reason)
        | None, Ok exact_snapshot =>
            binding ← reject_idempotency_drift routes fixture exact_snapshot key;
            mret (exact_replay, Fact.from_result binding)
        | None, Err _ =>
            let reason := Fact.explanation exact_replay "exact idempotency replay did not pass" in
            _ ← skip_drift reason; mret (exact_replay, Fact.NotEvaluated reason)
        end
    end.

(** The namespace of the fixture, then its table. *)
Definition create_fixture (routes : CatalogRoutes) (fixture : CommitFixture)
    (create_locations : TableCreateLocations) : Probe W (result TableSnapshot string) :=
  url ← lift (namespace_collection routes);
  namespace_create ← attempt "create-namespace" (Some NAMESPACE_CREATE_CAPABILITY) POST url
    (Some (json_object [("namespace", str_array (namespace_parts (cx_namespace fixture)));
                        ("properties", json_object [(OWNER_PROPERTY, Str "catalog-bench")])]));
  match validate_namespace_response namespace_create (cx_namespace fixture) with
  | Ok _ => create_and_load_table routes fixture create_locations
  | Err error =>
      let reason := "fixture namespace creation did not pass" in
      _ ← skip_each [("create-table", CREATE_CAPABILITY); ("load-initial-table", LOAD_CAPABILITY)] reason;
      mret (Err error)
  end.

(** The commits on a table that is ready, and the cleanup. *)
Definition exercise_commits (routes : CatalogRoutes) (fixture : CommitFixture) (idempotency : CommitIdempotency)
    (facts : CommitFacts) (isolated : Fact.t) (initial_snapshot : TableSnapshot) : Probe W CommitFacts :=
  current ← commit_current_requirements routes fixture initial_snapshot;
  let current_fact := Fact.from_result (unit_result current) in
  match current with
  | Err _ =>
      let reason := Fact.explanation current_fact "current requirement commit did not pass" in
      let skipped := Fact.NotEvaluated reason in
      _ ← skip_after_current_commit reason;
      cleanup ← cleanup_fixture routes fixture;
      mret (workflow_facts facts isolated Fact.Pass current_fact skipped skipped skipped skipped skipped
              (Fact.from_result cleanup))
  | Ok current_snapshot =>
      schema ← commit_schema_transition routes fixture current_snapshot;
      let schema_fact := Fact.from_result (unit_result schema) in
      match schema with
      | Err _ =>
          let reason := Fact.explanation schema_fact "schema transition did not pass" in
          let skipped := Fact.NotEvaluated reason in
          _ ← skip_after_schema_commit reason;
          cleanup ← cleanup_fixture routes fixture;
          mret (workflow_facts facts isolated Fact.Pass current_fact schema_fact skipped skipped skipped skipped
                  (Fact.from_result cleanup))
      | Ok schema_snapshot =>
          stale ← reject_stale_requirement routes fixture schema_snapshot;
          final ← verify_required_final_state routes fixture schema_snapshot;
          let final_fact := Fact.from_result final in
          '(exact_replay, content_binding) ←
            execute_optional_idempotency routes fixture schema_snapshot idempotency final_fact;
          cleanup ← cleanup_fixture routes fixture;
          mret (workflow_facts facts isolated Fact.Pass current_fact schema_fact (Fact.from_result stale)
                  exact_replay content_binding final_fact (Fact.from_result cleanup))
      end
  end.

Definition execute_commit_workflow (routes : CatalogRoutes) (fixture : CommitFixture)
    (create_locations : TableCreateLocations) (idempotency : CommitIdempotency) (facts : CommitFacts)
  : Probe W CommitFacts :=
  url ← lift (namespace_route routes (cx_namespace fixture));
  preflight ← attempt "preflight-namespace" (Some NAMESPACE_LOAD_CAPABILITY) GET url None;
  let isolated := Fact.from_result (validate_error_response preflight 404 "NoSuchNamespaceException") in
  if negb (Fact.passed isolated) then
    let reason := Fact.explanation isolated "fixture preflight did not pass" in
    _ ← skip_after_preflight reason;
    mret (facts_skip_after_preflight facts isolated reason)
  else
    initial ← create_fixture routes fixture create_locations;
    match initial with
    | Ok initial_snapshot => exercise_commits routes fixture idempotency facts isolated initial_snapshot
    | Err error =>
        let fixture_ready := Fact.Fail error in
        let reason := Fact.explanation fixture_ready "commit fixture creation did not pass" in
        _ ← skip_required_commits reason;
        _ ← skip_optional_commits reason;
        cleanup ← cleanup_fixture routes fixture;
        mret (facts_skip_after_fixture facts isolated fixture_ready (Fact.from_result cleanup) reason)
    end.
End Workflow.

(** ** The policy (commit/policy.rs) *)

Definition commit_parameters : list (string * Value) :=
  let properties (key value : string) : Value := json_object [(key, Str value)] in
  [("accepted_set_properties", properties "c1-06.state" "requirement-accepted");
   ("commit_conflict", json_object [("code", Num (PosInt 409)); ("type", Str "CommitFailedException")]);
   ("drifted_set_properties", properties "c1-06.retry" "drifted-must-not-apply");
   ("exact_retry_set_properties", properties "c1-06.retry" "accepted-once");
   ("fixture_prefix", Str FIXTURE_PREFIX);
   ("iceberg_openapi_sha256", Str ICEBERG_REST_OPENAPI_SHA256);
   ("iceberg_openapi_source", Str ICEBERG_REST_OPENAPI_SOURCE);
   ("idempotency_advertisement_pointers", str_array IDEMPOTENCY_POINTERS);
   ("idempotency_header", Str "Idempotency-Key");
   ("idempotency_key_format", Str "uuid-v7");
   ("initial_properties", json_object [("c1-06.state", Str "initial"); ("catalog-bench.owner", Str "catalog-bench")]);
   ("initial_schema", initial_schema);
   ("maximum_response_bytes", Num (PosInt MAXIMUM_RESPONSE_BYTES));
   ("namespace_separator_default", Str DEFAULT_NAMESPACE_SEPARATOR);
   ("purge_requested", Bool false);
   ("request_timeout_ms", Num (PosInt 30000));
   ("schema_transition", json_object [("last-column-id", Num (PosInt 2)); ("schema", transitioned_schema)]);
   ("stale_set_properties", properties "c1-06.stale" "must-not-apply");
   ("transcript_format", Str COMMIT_TRANSCRIPT_FORMAT)].

Definition commit_capabilities : list (string * RequirementLevel) :=
  [("iceberg-rest.namespace.create", Required);
   ("iceberg-rest.namespace.load", Required);
   ("iceberg-rest.namespace.drop", Required);
   ("iceberg-rest.table.create", Required);
   ("iceberg-rest.table.load", Required);
   ("iceberg-rest.table.update", Required);
   ("iceberg-rest.table.drop", Required);
   ("iceberg-rest.error.spec-shape", Required);
   ("iceberg-rest.table.commit.set-properties", Required);
   ("iceberg-rest.table.commit.requirements", Required);
   ("iceberg-rest.table.commit.stale-pointer-rejection", Required);
   ("iceberg-rest.table.commit.exact-retry", Optional);
   ("iceberg-rest.idempotency-key.content-binding", Optional)].

Definition commit_steps : list ExpectedStep :=
  [harness_step "negotiate-authentication" "authentication.negotiate" [] None;
   client_step "negotiate-config" "config.get-routing-and-idempotency" ["negotiate-authentication"];
   harness_step "preflight-fixture" "commit.verify-fixture-absence" ["negotiate-config"] None;
   client_step "create-fixture" "commit.create-and-load-table" ["preflight-fixture"];
   client_step "accept-current-requirements" "table.commit.set-properties" ["create-fixture"];
   client_step "advance-schema" "table.commit.advance-schema" ["accept-current-requirements"];
   client_step "reject-stale-requirement" "table.commit.reject-stale-schema" ["advance-schema"];
   harness_step "inspect-idempotency-advertisement" "config.inspect-idempotency-key-lifetime"
     ["negotiate-config"] None;
   client_step "retry-exact-request" "table.commit.retry-exact"
     ["reject-stale-requirement"; "inspect-idempotency-advertisement"];
   client_step "reject-idempotency-drift" "table.commit.reject-idempotency-content-drift"
     ["retry-exact-request"];
   client_step "verify-required-state" "table.load-required-final-state" ["reject-stale-requirement"];
   harness_step "cleanup-fixture" "commit.reconcile-drop-and-verify"
     ["reject-idempotency-drift"; "verify-required-state"] (Some 30000%Z);
   harness_step "sanitize-transcript" "evidence.sanitize-commit-transcript" ["cleanup-fixture"] None].

Definition commit_assertions : list ExpectedAssertion :=
  let expect id step required check := {|
    ea_id := id; ea_step := step; ea_required := required; ea_check := check |} in
  [expect "authentication-ready" "negotiate-authentication" true
     (custom_check "authentication-ready-v1" [("persist_token", Bool false)]);
   expect "config-routing-ready" "negotiate-config" true
     (custom_check "commit-config-routing-v1" [("default_namespace_separator", Str "%1F")]);
   expect "fixture-isolated" "preflight-fixture" true
     (custom_check "commit-fixture-isolation-v1"
        [("code", Num (PosInt 404)); ("type", Str "NoSuchNamespaceException")]);
   expect "commit-fixture-ready" "create-fixture" true
     (custom_check "commit-fixture-v1"
        [("create_http_status", Num (PosInt 200)); ("load_http_status", Num (PosInt 200))]);
   expect "current-requirements-admitted" "accept-current-requirements" true
     (custom_check "commit-requirements-v1"
        [("expected_http_status", Num (PosInt 200)); ("require_new_metadata_location", Bool true)]);
   expect "schema-transition-admitted" "advance-schema" true
     (custom_check "commit-schema-transition-v1"
        [("current_schema_id", Num (PosInt 1)); ("last_column_id", Num (PosInt 2))]);
   expect "stale-requirement-rejected-atomically" "reject-stale-requirement" true
     (custom_check "commit-stale-rejection-v1"
        [("code", Num (PosInt 409)); ("type", Str "CommitFailedException")]);
   expect "idempotency-support-advertised" "inspect-idempotency-advertisement" false
     (custom_check "idempotency-advertisement-v1" [("accepted_pointers", str_array IDEMPOTENCY_POINTERS)]);
   expect "exact-request-replayed-once" "retry-exact-request" false
     (json_object [("kind", Str "exact-replay")]);
   expect "idempotency-content-drift-rejected" "reject-idempotency-drift" false
     (custom_check "idempotency-content-binding-v1"
        [("expected_http_status", Num (PosInt 409)); ("require_unchanged_metadata_location", Bool true)]);
   expect "required-final-state-exact" "verify-required-state" true
     (custom_check "commit-final-state-v1"
        [("current_schema_id", Num (PosInt 1)); ("forbidden_property", Str "c1-06.stale")]);
   expect "commit-fixture-clean" "cleanup-fixture" true
     (custom_check "commit-cleanup-v1"
        [("final_http_status", Num (PosInt 404)); ("purge_requested", Bool false)]);
   expect "transcript-sanitized" "sanitize-transcript" true
     (custom_check "sanitized-commit-transcript-v1"
        [("idempotency_header_policy", Str "redact");
         ("request_header_policy", Str "allowlist-and-redact-authorization");
         ("response_header_policy", Str "allowlist");
         ("response_json_policy", Str "recursive-secret-key-redaction")])].

Definition commit_policy : ProbePolicy := {|
  pp_probe := "commit";
  pp_scenario := COMMIT_SCENARIO_ID;
  pp_version := COMMIT_SCENARIO_VERSION;
  pp_parameters := commit_parameters;
  pp_capabilities := commit_capabilities;
  pp_steps := commit_steps;
  pp_assertions := commit_assertions;
|}.

Definition commit_evaluate_assertions (scenario : Scenario) (facts : CommitFacts) : list ProbeAssertion :=
  (fun assertion => {| pa_assertion := spec_id assertion; pa_required := spec_required assertion;
                       pa_outcome := Fact.outcome (commit_fact facts (spec_check assertion)) |})
    <$> scen_assertions scenario.

(** ** The probe (commit/mod.rs) *)

Definition optional_limitation (adapter : CatalogAdapter) (capability : CapabilityId) : option string :=
  (fun limitation => "profile declares `" +:+ capability +:+ "` unsupported: " +:+ lim_explanation limitation)
    <$> limitation (ad_capabilities adapter) capability.

Definition commit_optional_operations (adapter : CatalogAdapter) : OptionalCommitOperations := {|
  exact_retry_limitation := optional_limitation adapter EXACT_RETRY_CAPABILITY;
  content_binding_limitation := optional_limitation adapter CONTENT_BINDING_CAPABILITY |}.

(** The advertisement the negotiation captured. *)
Definition inspect_routing (routing : RoutingNegotiation) : IdempotencyAdvertisement.t :=
  IdempotencyAdvertisement.inspect (rct_response (neg_config routing) ≫= response_transcript_json)
    (neg_config_routing routing).

Section Probe.
Context `{UrlParser, UrlOps, UrlEdit, FormCodec, JsonParser, Sha256, ClientBuilder} {W : Type}
  `{HttpClient W, FromValue NamespaceResponse, FromValue LoadTableResult}.
Context `{FromValue IcebergErrorResponse, ToVecPretty CommitEvidence, UuidSource W}.

Definition unsupported_commit_probe (profile : Profile) (scenario : Scenario)
    (contract_digests : ContractDigests) (target : ProbeTarget) (fixture : CommitFixture)
    (limitation : UnsupportedAdapterCapability) : result CommitTranscript string :=
  let reason := unsupported_reason limitation in
  let? config := not_evaluated_config (target_adapter target) reason in
  Ok {| cmt_format := COMMIT_TRANSCRIPT_FORMAT;
        cmt_profile := prof_id profile;
        cmt_scenario := transcript_scenario scenario;
        cmt_contract_digests := contract_digests;
        cmt_adapter := transcript_adapter (target_adapter target) (target_component target);
        cmt_fixture := fixture;
        cmt_classification := unsupported_classification limitation;
        cmt_authentication := not_attempted_authentication (target_adapter target);
        cmt_config := config;
        cmt_idempotency := IdempotencyAdvertisement.NotEvaluated reason;
        cmt_operations := [];
        cmt_assertions := not_evaluated_assertions scenario reason;
        cmt_sanitization := automated_sanitization [] false |}.

(** [(advertised && no limitation).then(IdempotencyKey::generate)]. *)
Definition generate_idempotency_key (idempotency : IdempotencyAdvertisement.t)
    (operations : OptionalCommitOperations) (w : W) : option IdempotencyKey * W :=
  if IdempotencyAdvertisement.advertised idempotency && is_none (exact_retry_limitation operations)
  then let '(key, w) := generate_key w in (Some key, w)
  else (None, w).

(** The workflow, when routing allows it. *)
Definition commit_behavior (adapter : CatalogAdapter) (routing : RoutingNegotiation) (fixture : CommitFixture)
    (create_locations : TableCreateLocations) (idempotency : CommitIdempotency) (facts : CommitFacts)
  : Probe W CommitFacts :=
  let routes :=
    let? codec := ok_or (neg_codec routing) "commit routing unavailable after config negotiation" in
    CatalogRoutes_new adapter (rct_prefix (neg_config routing)) codec "commit" in
  match routes, cmf_config_routing facts with
  | Ok routes, Fact.Pass => execute_commit_workflow routes fixture create_locations idempotency facts
  | Err error, _ => mret (skip_commit_scenario facts error)
  | Ok _, fact => mret (skip_commit_scenario facts (Fact.explanation fact "config routing failed"))
  end.

(** The transcript concluded from a finished recorder. *)
Definition conclude_commit_probe (profile : Profile) (scenario : Scenario) (contract_digests : ContractDigests)
    (target : ProbeTarget) (fixture : CommitFixture) (routing : RoutingNegotiation)
    (idempotency : CommitIdempotency) (facts : CommitFacts) (recorder : OperationRecorder)
  : result CommitTranscript string :=
  let authentication := neg_authentication routing in
  let config := neg_config routing in
  let operations := rec_operations recorder in
  let redactions := sort_dedup (neg_redactions routing ++ rec_redactions recorder) in
  let? serialized :=
    encode_evidence (at_transcript authentication, config, ci_advertisement idempotency, operations) in
  let sensitive_values := (at_sensitive_values authentication
    ++ match ci_key idempotency with Some key => [key_value key] | None => [] end)%list in
  let transcript_sanitized := negb (contains_sensitive_value serialized sensitive_values) in
  let facts := commit_sanitized facts (Fact.from_bool transcript_sanitized
    "sanitized evidence still contains a credential, token, or idempotency key") in
  let assertions := commit_evaluate_assertions scenario facts in
  Ok {| cmt_format := COMMIT_TRANSCRIPT_FORMAT;
        cmt_profile := prof_id profile;
        cmt_scenario := transcript_scenario scenario;
        cmt_contract_digests := contract_digests;
        cmt_adapter := transcript_adapter (target_adapter target) (target_component target);
        cmt_fixture := fixture;
        cmt_classification := classify_probe assertions
          "one or more required commit-correctness assertions did not pass";
        cmt_authentication := at_transcript authentication;
        cmt_config := config;
        cmt_idempotency := ci_advertisement idempotency;
        cmt_operations := operations;
        cmt_assertions := assertions;
        cmt_sanitization := automated_sanitization redactions (negb transcript_sanitized) |}.

(** The checks before any network access. *)
Definition prepare_commit_probe (profile : Profile) (scenario : Scenario) (catalog : ComponentId)
    (fixture_id : string) : result (ProbeTarget * CommitFixture) string :=
  check? validate_invocation commit_policy profile scenario catalog in
  let? target := resolve_target profile scenario catalog in
  let? fixture := CommitFixture_new catalog fixture_id in
  Ok (target, fixture).

Definition run_commit_probe (profile : Profile) (scenario : Scenario) (catalog : ComponentId)
    (fixture_id : string) (contract_digests : ContractDigests) (getenv : string -> option string) (w : W)
  : result CommitTranscript string * W :=
  match prepare_commit_probe profile scenario catalog fixture_id with
  | Err e => (Err e, w)
  | Ok (target, fixture) =>
      match first_required_limitation target scenario with
      | Some limitation =>
          (unsupported_commit_probe profile scenario contract_digests target fixture limitation, w)
      | None =>
          let clients :=
            let? create_locations :=
              TableCreateLocations_new (ep_create_table_location (ad_endpoint (target_adapter target))) in
            check? http_client REQUEST_TIMEOUT_MS in
            Ok create_locations in
          match clients with
          | Err e => (Err e, w)
          | Ok create_locations =>
              let '(negotiated, w) := negotiate_routing (target_adapter target) getenv w in
              match negotiated with
              | Err e => (Err e, w)
              | Ok routing =>
                  let authentication := neg_authentication routing in
                  let operations := commit_optional_operations (target_adapter target) in
                  let advertisement := inspect_routing routing in
                  let '(key, w) := generate_idempotency_key advertisement operations w in
                  let idempotency := {| ci_advertisement := advertisement; ci_operations := operations;
                                        ci_key := key |} in
                  let facts := CommitFacts_new (is_none (at_failure authentication))
                                 (neg_config_routing routing) (IdempotencyAdvertisement.fact advertisement) in
                  let recorder := new_recorder (at_bearer_token authentication)
                                    (at_sensitive_values authentication) in
                  let '(outcome, (recorder, w)) :=
                    commit_behavior (target_adapter target) routing fixture create_locations idempotency facts
                      (recorder, w) in
                  (let? facts := outcome in
                   conclude_commit_probe profile scenario contract_digests target fixture routing idempotency
                     facts recorder, w)
              end
          end
      end
  end.
End Probe.
