(* ===== verification/ProbeTrace.v ===== *)
(** * What a probe sends and what it records

    A small program logic for the monad [Probe]. [traced P n m] says that [m]
    sends at most [n] requests, all satisfying [P] (of method, URL and body), and that the transcript it
    leaves lists exactly the requests sent, in their order; [total m] says that
    [m] does not stop with an error. Both are closed under the constructs the
    workflows are written with. *)

From S2P Require Import Prelude Order RustStr Json ContractValue ContractScenario ContractAdapter ContractResult.
From S2P Require Import Ledger Transport Sanitize Capture Routing Operation TableProtocol.
Open Scope string_scope.

Definition attempted (op : OperationTranscript) : bool :=
  match ot_execution op with Attempted _ _ _ => true | NotAttempted _ => false end.

Section Trace.
Context `{UrlParser, UrlOps, UrlEdit, FormCodec, JsonParser, Sha256} {W : Type} `{HttpClient W}.

(** The world after a sequence of requests. *)
Definition after (requests : list HttpRequest) (w : W) : W :=
  foldl (fun w request => (http_send request w).2) w requests.

Lemma after_app l k w : after (l ++ k) w = after k (after l w).
Proof. apply foldl_app. Qed.

(** [op] is the transcript of [request], sent on behalf of [r]. *)
Definition transcribes (r : OperationRecorder) (request : HttpRequest) (op : OperationTranscript) : Prop :=
  exists key transcript response failure,
    ot_execution op = Attempted transcript response failure /\
    hr_bearer_token request = rec_bearer_token r /\
    hr_idempotency_key request = key_value <$> key /\
    transcript = (request_transcript r (ot_id op) (hr_method request) (hr_url request) (hr_body request) key
      (rec_sensitive_values r ++ match key with Some key => [key_value key] | None => [] end)).1.

(** Two recorders of the same client. *)
Definition same_client (r r' : OperationRecorder) : Prop :=
  rec_bearer_token r' = rec_bearer_token r /\ rec_sensitive_values r' = rec_sensitive_values r.

Record run_traced (P : Method -> Url -> option Value -> Prop) (n : nat) (r : OperationRecorder) (w : W)
    (r' : OperationRecorder) (w' : W) (requests : list HttpRequest) (new : list OperationTranscript) : Prop := {
  rt_world : w' = after requests w;
  rt_client : same_client r r';
  rt_operations : rec_operations r' = (rec_operations r ++ new)%list;
  rt_transcribed : Forall2 (transcribes r) requests (List.filter attempted new);
  rt_allowed : Forall (fun request => P (hr_method request) (hr_url request) (hr_body request)) requests;
  rt_count : (length requests <= n)%nat;
}.

Definition traced (P : Method -> Url -> option Value -> Prop) (n : nat) {A} (m : Probe W A) : Prop :=
  forall r w, exists requests new, run_traced P n r w (m (r, w)).2.1 (m (r, w)).2.2 requests new.

Definition total {A} (m : Probe W A) : Prop := forall s, exists a, (m s).1 = Ok a.

Lemma transcribes_same r r' request op : same_client r r' -> transcribes r' request op -> transcribes r request op.
Proof.
  intros [Ht Hs] (key & t & resp & fail & Hop & Hb & Hk & Heq). exists key, t, resp, fail.
  unfold request_transcript in *. rewrite Ht, Hs in *. done.
Qed.

Lemma run_traced_app P n k r w r1 w1 r2 w2 reqs1 new1 reqs2 new2 :
  run_traced P n r w r1 w1 reqs1 new1 -> run_traced P k r1 w1 r2 w2 reqs2 new2 ->
  run_traced P (n + k) r w r2 w2 (reqs1 ++ reqs2) (new1 ++ new2).
Proof.
  intros [Hw1 Hc1 Ho1 Ht1 Hp1 Hn1] [Hw2 Hc2 Ho2 Ht2 Hp2 Hn2]. split.
  - by rewrite after_app, <-Hw1.
  - destruct Hc1, Hc2. split; congruence.
  - by rewrite Ho2, Ho1, app_assoc.
  - rewrite List.filter_app. apply Forall2_app; [done|].
    eapply Forall2_impl; [exact Ht2|]. intros. by eapply transcribes_same.
  - by apply Forall_app_2.
  - rewrite length_app. lia.
Qed.

Lemma run_traced_refl P r w : run_traced P 0 r w r w [] [].
Proof. split; [done|done|by rewrite app_nil_r|constructor|constructor|done]. Qed.

Lemma traced_weaken P Q n k {A} (m : Probe W A) :
  (forall method url body, P method url body -> Q method url body) -> (n <= k)%nat -> traced P n m -> traced Q k m.
Proof.
  intros HPQ Hnk Hm r w. destruct (Hm r w) as (reqs & new & []). exists reqs, new. split; try done; [|lia].
  eapply Forall_impl; [done|]. cbn. eauto.
Qed.

Lemma traced_ret P {A} (a : A) : traced P 0 (mret (M := Probe W) a).
Proof. intros r w. exists [], []. apply run_traced_refl. Qed.

Lemma traced_lift P {A} (x : result A string) : traced P 0 (lift x : Probe W A).
Proof. intros r w. exists [], []. apply run_traced_refl. Qed.

(** The continuation only matters on values [m] can return. *)
Lemma traced_bind_when P n k {A B} (Q : A -> Prop) (m : Probe W A) (f : A -> Probe W B) :
  traced P n m -> (forall s a, (m s).1 = Ok a -> Q a) -> (forall a, Q a -> traced P k (f a)) ->
  traced P (n + k) (x ← m; f x).
Proof.
  intros Hm HQ Hf r w. destruct (Hm r w) as (reqs1 & new1 & Hr1). specialize (HQ (r, w)).
  unfold mbind, Probe_bind. destruct (m (r, w)) as [[a|e] [r1 w1]]; cbn in *.
  - destruct (Hf a (HQ a eq_refl) r1 w1) as (reqs2 & new2 & Hr2). exists (reqs1 ++ reqs2)%list, (new1 ++ new2)%list.
    by eapply run_traced_app.
  - exists reqs1, new1. destruct Hr1. split; try done. lia.
Qed.

Lemma traced_bind P n k {A B} (m : Probe W A) (f : A -> Probe W B) :
  traced P n m -> (forall a, traced P k (f a)) -> traced P (n + k) (x ← m; f x).
Proof. intros Hm Hf. by apply (traced_bind_when P n k (fun _ => True)). Qed.

(** What follows a preflight depends on what the preflight returned in this run. *)
Lemma traced_after P n k {A B} (m : Probe W A) (f : A -> Probe W B) r w :
  traced P n m -> (forall a, (m (r, w)).1 = Ok a -> traced P k (f a)) ->
  exists requests new, run_traced P (n + k) r w (mbind f m (r, w)).2.1 (mbind f m (r, w)).2.2 requests new.
Proof.
  intros Hm Hf. destruct (Hm r w) as (reqs1 & new1 & Hr1).
  unfold mbind, Probe_bind. destruct (m (r, w)) as [[a|e] [r1 w1]]; cbn in *.
  - destruct (Hf a eq_refl r1 w1) as (reqs2 & new2 & Hr2). exists (reqs1 ++ reqs2)%list, (new1 ++ new2)%list.
    by eapply run_traced_app.
  - exists reqs1, new1. destruct Hr1. split; try done. lia.
Qed.

(** Binding a computation without effects: the continuation runs on its value. *)
Lemma traced_lift_bind P k {A B} (x : result A string) (f : A -> Probe W B) :
  (forall a, x = Ok a -> traced P k (f a)) -> traced P k (a ← lift x; f a).
Proof.
  intros Hf r w. unfold mbind, Probe_bind, lift. destruct x as [a|e]; [by apply Hf|].
  exists [], []. destruct (run_traced_refl P r w). split; try done. cbn. lia.
Qed.

Lemma traced_skip P id capability reason : traced P 0 (skip (W := W) id capability reason).
Proof.
  intros r w. eexists [], [_]. split; [done|done|reflexivity|constructor|constructor|done].
Qed.

Lemma traced_for_each P n {A B} (l : list A) (body : A -> Probe W B) :
  (forall a, a ∈ l -> traced P n (body a)) -> traced P (length l * n) (for_each l body).
Proof.
  induction l as [|a l IH]; intros Hb; cbn [for_each length]; [apply traced_ret|].
  change (S (length l) * n)%nat with (n + length l * n)%nat. apply traced_bind; [apply Hb; left|].
  intros b. rewrite <-(Nat.add_0_r (length l * n)). apply traced_bind; [|intros; apply traced_ret].
  apply IH. intros x Hx. apply Hb. by right.
Qed.

Lemma traced_for_each_le P n k {A B} (l : list A) (body : A -> Probe W B) :
  (forall a, a ∈ l -> traced P n (body a)) -> (length l * n <= k)%nat -> traced P k (for_each l body).
Proof. intros Hb Hk. eapply traced_weaken; [by intros ??? HP; exact HP|exact Hk|]. by apply traced_for_each. Qed.

(** A computation followed by one that sends nothing. *)
Lemma traced_then_ret P n {A B} (m : Probe W A) (f : A -> B) :
  traced P n m -> traced P n (x ← m; mret (f x)).
Proof. intros Hm. rewrite <-(Nat.add_0_r n). apply traced_bind; [done|]. intros. apply traced_ret. Qed.

Lemma traced_skip_each P operations reason : traced P 0 (skip_each (W := W) operations reason).
Proof.
  unfold skip_each. apply (traced_bind P 0 0); [|intros; apply traced_ret].
  rewrite <-(Nat.mul_0_r (length operations)). apply traced_for_each. intros [id capability] _. apply traced_skip.
Qed.

Lemma traced_attempt_with P id capability method url body key :
  P method url body -> traced P 1 (attempt_with_idempotency id capability method url body key : Probe W _).
Proof.
  intros HP r w. unfold attempt_with_idempotency.
  destruct (request_transcript r id method url body key _) as [transcript reds] eqn:Ht.
  set (request := {|
    hr_method := method; hr_url := url; hr_accept := "application/json";
    hr_bearer_token := rec_bearer_token r; hr_idempotency_key := key_value <$> key;
    hr_body := body; hr_form := None |}).
  exists [request]. destruct key as [key|]; cbn.
  all: unfold execute_json_request_with_idempotency, execute_json_request, execute_json_request_with_context; cbn.
  all: cbn in request; fold request.
  all: destruct (http_send request w) as [sent w1] eqn:Hsend; cbn; eexists [_]; split; cbn; try done.
  all: try (by rewrite Hsend).
  all: try (constructor; [|constructor]; [exact HP]).
  all: constructor; [|constructor].
  - exists (Some key). do 3 eexists. repeat split; try reflexivity. exact (eq_sym (f_equal fst Ht)).
  - exists None. do 3 eexists. repeat split; try reflexivity. exact (eq_sym (f_equal fst Ht)).
Qed.

Lemma traced_attempt P id capability method url body :
  P method url body -> traced P 1 (attempt id capability method url body : Probe W _).
Proof. apply traced_attempt_with. Qed.

Definition only_get (method : Method) (url : Url) (body : option Value) : Prop := method = GET.

(** A computation that only reads, where reading is allowed. *)
Lemma traced_get P n {A} (m : Probe W A) :
  (forall url body, P GET url body) -> traced only_get n m -> traced P n m.
Proof. intros HP Hm. eapply traced_weaken; [|done|exact Hm]. by intros method url body ->. Qed.

(** ** The preflight of a fixture namespace *)

Definition preflight_namespace (routes : CatalogRoutes) (namespace : NamespaceIdentifier) (capability : string)
  : Probe W Observation :=
  url ← lift (namespace_route routes namespace); attempt "preflight-namespace" (Some capability) GET url None.

(** The preflight got a spec-shaped 404 for the namespace. *)
Definition found_absent `{FromValue IcebergErrorResponse} (preflight : result Observation string) : bool :=
  match preflight with
  | Ok observation => is_ok (validate_error_response observation 404 "NoSuchNamespaceException")
  | Err _ => false
  end.

Lemma traced_preflight_namespace routes namespace capability :
  traced only_get 1 (preflight_namespace routes namespace capability).
Proof. apply traced_lift_bind. intros url _. by apply traced_attempt. Qed.

(** Regrouping a step without effects. *)
Lemma lift_assoc {A B C} (x : result A string) (m : A -> Probe W B) (k : B -> Probe W C) s :
  (a ← lift x; b ← m a; k b) s = (b ← (a ← lift x; m a); k b) s.
Proof. by destruct x. Qed.

(** ** Results of a run *)

Lemma bind_ok {A B} (m : Probe W A) (f : A -> Probe W B) s b :
  ((x ← m; f x) s).1 = Ok b -> exists a, (m s).1 = Ok a /\ (f a (m s).2).1 = Ok b.
Proof. unfold mbind, Probe_bind. destruct (m s) as [[a|e] s']; [|done]. by exists a. Qed.

(** One step of a run: [m], started in the state [s], returns [a] and leaves the
    state [s']. *)
Definition exchange {A} (m : Probe W A) (s : OperationRecorder * W) (a : A) (s' : OperationRecorder * W) : Prop :=
  m s = (Ok a, s').

Lemma exchange_bind {A B} (m : Probe W A) (f : A -> Probe W B) s b s' :
  exchange (x ← m; f x) s b s' -> exists a s1, exchange m s a s1 /\ exchange (f a) s1 b s'.
Proof.
  unfold exchange, mbind, Probe_bind. destruct (m s) as [[a|e] s1]; [|done]. intros Hf. by exists a, s1.
Qed.

Lemma exchange_lift {A B} (x : result A string) (f : A -> Probe W B) s b s' :
  exchange (a ← lift x; f a) s b s' -> exists a, x = Ok a /\ exchange (f a) s b s'.
Proof. intros (a & s1 & [= -> <-] & Hf)%exchange_bind. by exists a. Qed.

Lemma exchange_ret {A} (a : A) (s : OperationRecorder * W) b s' :
  exchange (mret a) s b s' -> a = b /\ s = s'.
Proof. by intros [= -> ->]. Qed.

(** ** Computations that return *)

Lemma total_ret {A} (a : A) : total (mret (M := Probe W) a).
Proof. intros s. by eexists. Qed.

Lemma total_bind {A B} (m : Probe W A) (f : A -> Probe W B) :
  total m -> (forall a, total (f a)) -> total (x ← m; f x).
Proof.
  intros Hm Hf s. destruct (Hm s) as [a Ha]. unfold mbind, Probe_bind.
  destruct (m s) as [[a'|e] s1]; [|done]. apply Hf.
Qed.

Lemma total_lift {A} (x : result A string) : is_ok x = true -> total (lift x : Probe W A).
Proof. destruct x as [a|]; [|done]. intros _ s. by exists a. Qed.

Lemma total_skip id capability reason : total (skip (W := W) id capability reason).
Proof. intros [r w]. by eexists. Qed.

Lemma total_for_each {A B} (l : list A) (body : A -> Probe W B) :
  (forall a, total (body a)) -> total (for_each l body).
Proof.
  intros Hb. induction l as [|a l IH]; [apply total_ret|]. cbn. apply total_bind; [done|].
  intros b. apply total_bind; [done|]. intros. apply total_ret.
Qed.

Lemma total_skip_each operations reason : total (skip_each (W := W) operations reason).
Proof. apply total_bind; [apply total_for_each; intros []; apply total_skip|]. intros. apply total_ret. Qed.

Lemma total_attempt_with id capability method url body key :
  total (attempt_with_idempotency id capability method url body key : Probe W _).
Proof.
  intros [r w]. unfold attempt_with_idempotency. destruct (request_transcript _ _ _ _ _ _ _) as [t reds].
  destruct key; [destruct (execute_json_request_with_idempotency _ _ _ _ _ _ _)|
                 destruct (execute_json_request _ _ _ _ _ _ _)]; by eexists.
Qed.

(** ** Exact requests *)

Definition request_line (request : HttpRequest) : Method * Url := (hr_method request, hr_url request).

(** [m] returns after exactly these requests. *)
Definition exactly (lines : list (Method * Url)) {A} (m : Probe W A) : Prop :=
  forall r w, exists a r' requests,
    m (r, w) = (Ok a, (r', after requests w)) /\ request_line <$> requests = lines.

(** [m], run in this state, returns, and these are its last requests. *)
Definition ends_at (lines : list (Method * Url)) {A} (m : Probe W A) (r : OperationRecorder) (w : W) : Prop :=
  exists a r' front last, m (r, w) = (Ok a, (r', after (front ++ last) w)) /\ request_line <$> last = lines.

Definition ends_with (lines : list (Method * Url)) {A} (m : Probe W A) : Prop :=
  forall r w, ends_at lines m r w.

Lemma exactly_ret {A} (a : A) : exactly [] (mret (M := Probe W) a).
Proof. intros r w. by exists a, r, []. Qed.

Lemma exactly_bind {A B} l k (m : Probe W A) (f : A -> Probe W B) :
  exactly l m -> (forall a, exactly k (f a)) -> exactly (l ++ k) (x ← m; f x).
Proof.
  intros Hm Hf r w. destruct (Hm r w) as (a & r1 & reqs1 & Hr1 & Hl1).
  destruct (Hf a r1 (after reqs1 w)) as (b & r2 & reqs2 & Hr2 & Hl2).
  exists b, r2, (reqs1 ++ reqs2)%list. unfold mbind, Probe_bind. rewrite Hr1, Hr2, after_app, fmap_app, Hl1, Hl2. done.
Qed.

Lemma exactly_lift {A B} (x : result A string) a l (f : A -> Probe W B) :
  x = Ok a -> exactly l (f a) -> exactly l (y ← lift x; f y).
Proof. intros -> Hf. exact Hf. Qed.

Lemma exactly_attempt id capability method url body :
  exactly [(method, url)] (attempt id capability method url body : Probe W _).
Proof.
  intros r w. unfold attempt, attempt_with_idempotency, execute_json_request, execute_json_request_with_context.
  destruct (request_transcript r id method url body None _) as [t reds]. cbn.
  set (request := {| hr_method := method; hr_url := url |}).
  destruct (http_send request w) as [sent w1] eqn:Hsend. do 2 eexists. exists [request]. cbn. by rewrite Hsend.
Qed.

Lemma exactly_eq {A} l k (m : Probe W A) : exactly l m -> l = k -> exactly k m.
Proof. by intros ? <-. Qed.

Lemma exactly_then_ret {A B} l (m : Probe W A) (f : A -> B) : exactly l m -> exactly l (x ← m; mret (f x)).
Proof. intros Hm. rewrite <-(app_nil_r l). apply exactly_bind; [done|]. intros. apply exactly_ret. Qed.

Lemma exactly_for_each {A B} (l : list A) (lines : list (Method * Url)) (body : A -> Probe W B) :
  Forall2 (fun a line => exactly [line] (body a)) l lines -> exactly lines (for_each l body).
Proof.
  induction 1 as [|a line l lines Ha _ IH]; cbn; [apply exactly_ret|].
  apply (exactly_bind [line]); [done|]. intros b. by apply exactly_then_ret.
Qed.

Lemma ends_at_bind {A B} P n l (m : Probe W A) (f : A -> Probe W B) r w a :
  traced P n m -> (m (r, w)).1 = Ok a -> ends_with l (f a) -> ends_at l (x ← m; f x) r w.
Proof.
  intros Ht Ha Hf. destruct (Ht r w) as (reqs & new & [Hw _ _ _ _ _]). unfold ends_at, mbind, Probe_bind.
  destruct (m (r, w)) as [m' [r1 w1]]. cbn in *. subst m'.
  destruct (Hf r1 w1) as (b & r2 & front & last & Hrun & Hl).
  exists b, r2, (reqs ++ front)%list, last. rewrite Hrun, <-app_assoc, (after_app reqs), <-Hw. done.
Qed.

Lemma ends_with_bind {A B} P n l (m : Probe W A) (f : A -> Probe W B) :
  total m -> traced P n m -> (forall a, ends_with l (f a)) -> ends_with l (x ← m; f x).
Proof. intros Hm Ht Hf r w. destruct (Hm (r, w)) as [a Ha]. by eapply ends_at_bind. Qed.

(** A step without effects that succeeds in this run. *)
Lemma ends_with_lift {A B} l (x : result A string) (f : A -> Probe W B) :
  is_ok x = true -> (forall a, x = Ok a -> ends_with l (f a)) -> ends_with l (y ← lift x; f y).
Proof. destruct x as [a|]; [|done]. intros _ Hf. exact (Hf a eq_refl). Qed.

Lemma ends_with_exactly {A B} l (m : Probe W A) (f : A -> B) :
  exactly l m -> ends_with l (x ← m; mret (f x)).
Proof.
  intros Hm r w. destruct (Hm r w) as (a & r1 & reqs & Hrun & Hl).
  exists (f a), r1, [], reqs. unfold mbind, Probe_bind. by rewrite Hrun.
Qed.
End Trace.

(** ** Routes that resolve *)

(** What the [url] crate documents of base URLs: path segments can be edited
    unless the URL cannot be a base, which editing them does not change. *)
Class UrlLaws `{UrlOps} : Prop := {
  push_base : forall url segments, is_Some (url_push_segments url segments) <-> url_cannot_be_a_base url = false;
  pop_base : forall url, is_Some (url_pop_if_empty url) <-> url_cannot_be_a_base url = false;
  popped_base : forall url popped, url_pop_if_empty url = Some popped -> url_cannot_be_a_base popped = false;
}.

(** The URLs of a list of resources. *)
Lemma resolve_all {A} (route : A -> result Url string) (l : list A) :
  (forall a, is_ok (route a) = true) -> exists urls, Forall2 (fun a url => route a = Ok url) l urls.
Proof.
  intros Hok. induction l as [|a l [urls IH]]; [by exists []|]. specialize (Hok a).
  destruct (route a) as [url|] eqn:Hurl; [|done]. exists (url :: urls). by constructor.
Qed.

Section Usable.
Context `{UrlParser, UrlOps}.

(** Every resource of the catalog has a URL. *)
Definition routes_usable (routes : CatalogRoutes) : Prop := forall tail, is_ok (resource_url routes tail) = true.

(** One resolved URL shows that the base URL carries path segments. *)
Lemma resolved_usable `{!UrlLaws} routes tail url : resource_url routes tail = Ok url -> routes_usable routes.
Proof.
  unfold routes_usable, resource_url. intros Hurl tail'. destruct (url_parse _) as [base|]; [|done]. cbn in *.
  destruct (url_push_segments base _) eqn:Hpush in Hurl; [|done].
  assert (Hbase : url_cannot_be_a_base base = false) by (eapply push_base; by rewrite Hpush).
  edestruct (proj2 (push_base base ("v1" :: match routes_prefix routes with Some p => [p] | None => [] end ++ tail')%list) Hbase)
    as [pushed ->]. done.
Qed.

(** A namespace that was looked up has a URL. *)
Lemma preflight_usable `{!UrlLaws, UrlEdit, FormCodec, JsonParser, Sha256} {W} `{HttpClient W}
    routes namespace capability (r : OperationRecorder) (w : W) observation :
  (preflight_namespace routes namespace capability (r, w)).1 = Ok observation -> routes_usable routes.
Proof.
  unfold preflight_namespace, mbind, Probe_bind, lift.
  destruct (namespace_route routes namespace) eqn:Hurl; [|done]. intros _. by eapply resolved_usable.
Qed.

(** An admitted location root yields a location for every table. *)
Lemma locations_usable `{!UrlLaws} root locations namespace name :
  TableCreateLocations_new root = Ok locations -> is_ok (for_table locations namespace name) = true.
Proof.
  unfold TableCreateLocations_new, for_table. intros Hnew. destruct root as [root|]; [|by simplify_eq].
  destruct (url_parse root) as [url|]; [|done]. cbn in Hnew.
  destruct (url_cannot_be_a_base url) eqn:Hbase; [done|]. simplify_eq. cbn.
  destruct (proj2 (pop_base url) Hbase) as [popped Hpop]. rewrite Hpop. cbn.
  by edestruct (proj2 (push_base popped (namespace_parts namespace ++ [name]))) as [? ->];
    [by eapply popped_base|].
Qed.

Context (routes : CatalogRoutes) (Husable : routes_usable routes).

Lemma usable_collection : is_ok (namespace_collection routes) = true.
Proof. apply Husable. Qed.
Lemma usable_namespace namespace : is_ok (namespace_route routes namespace) = true.
Proof. apply Husable. Qed.
Lemma usable_tables namespace : is_ok (table_collection routes namespace) = true.
Proof. apply Husable. Qed.
Lemma usable_table namespace name : is_ok (table_route routes namespace name) = true.
Proof. apply Husable. Qed.
Lemma usable_properties namespace : is_ok (namespace_properties routes namespace) = true.
Proof. apply Husable. Qed.
Lemma usable_register namespace : is_ok (table_register routes namespace) = true.
Proof. apply Husable. Qed.
Lemma usable_rename : is_ok (table_rename routes) = true.
Proof. apply Husable. Qed.
Lemma usable_under parent : is_ok (namespaces_under routes parent) = true.
Proof. unfold namespaces_under. pose proof usable_collection. by destruct (namespace_collection routes). Qed.
Lemma usable_namespace_page token size : is_ok (namespace_page routes token size) = true.
Proof. unfold namespace_page. pose proof usable_collection. by destruct (namespace_collection routes). Qed.
Lemma usable_table_page namespace token size : is_ok (table_page routes namespace token size) = true.
Proof. unfold table_page. pose proof (usable_tables namespace). by destruct (table_collection routes namespace). Qed.
End Usable.

(** ** Automation *)

Ltac trace_step :=
  lazymatch goal with
  | |- traced _ _ (mbind _ (lift _)) => apply traced_lift_bind; intros ? ?
  | |- traced _ _ (mbind _ _) => eapply traced_bind; [|intros ?]
  | |- traced _ _ (mret _) => apply traced_ret
  | |- traced _ _ (attempt _ _ _ _ _) => apply traced_attempt
  | |- traced _ _ (attempt_idempotent _ _ _ _ _ _) => apply traced_attempt_with
  | |- traced _ _ (skip _ _ _) => apply traced_skip
  | |- traced _ _ (skip_each _ _) => apply traced_skip_each
  | |- traced _ _ (match ?x with (_, _) => _ end) => destruct x
  end.

(** Proves [traced P n m] for a sequence of operations: the count is computed
    and compared with [n]; what is allowed is left to the hints of [probe]. *)
Create HintDb probe discriminated.
#[export] Hint Resolve usable_collection usable_namespace usable_tables usable_table usable_properties
  usable_register usable_rename usable_under usable_namespace_page usable_table_page : probe.
Ltac trace := eapply traced_weaken; [intros ? ? ? HQ; exact HQ| |repeat trace_step; eauto with probe]; [cbn; lia|..].

Ltac total_step :=
  lazymatch goal with
  | |- total (mbind _ _) => apply total_bind; [|intros ?]
  | |- total (mret _) => apply total_ret
  | |- total (attempt _ _ _ _ _) => apply total_attempt_with
  | |- total (attempt_idempotent _ _ _ _ _ _) => apply total_attempt_with
  | |- total (skip _ _ _) => apply total_skip
  | |- total (skip_each _ _) => apply total_skip_each
  | |- total (for_each _ _) => apply total_for_each; intros ?
  | |- total (match ?x with _ => _ end) => destruct x
  | |- total (lift _) => apply total_lift; eauto with probe
  end.
Ltac totality := repeat total_step; eauto with probe.

(** Takes the steps before the last requests: each returns and is traced. *)
Ltac before_last := eapply ends_with_bind; [solve [eauto with probe]|solve [eauto with probe]|intros ?].

(** Proves [exactly lines m] for a sequence of operations whose URLs are known. *)
Ltac exactly_step :=
  lazymatch goal with
  | |- exactly _ (mbind _ (lift _)) => eapply exactly_lift; [eassumption|]
  | |- exactly _ (mbind _ _) => eapply exactly_bind; [|intros ?]
  | |- exactly _ (mret _) => apply exactly_ret
  | |- exactly _ (attempt _ _ _ _ _) => apply exactly_attempt
  end.
Ltac exactly_lines := eapply exactly_eq; [repeat exactly_step|reflexivity].
