(* ===== verification/NamespaceProofs.v ===== *)
(** * Properties of captured evidence and of connections

    What an exchange leaves in a transcript, that authentication fails closed,
    and what is known of a catalog once a session exists. *)

From S2P Require Import Prelude Order RustStr Json ContractValue ContractScenario ContractAdapter ContractProfile.
From S2P Require Import ContractResult Ledger Transport Sanitize Capture Routing Connection Operation ProbePolicy.
From S2P Require Import ConfigProbe NamespaceProbe ProbeTrace.
From Stdlib Require Import Ascii.
Open Scope string_scope.

Section Evidence.
Context `{UrlParser, UrlOps, UrlEdit, FormCodec, JsonParser, Sha256} {W : Type} `{HttpClient W}.

(** What evidence may show of a response, given what stays private. *)
Record sanitized_response (sensitive : list string) (private : option Value) (t : HttpResponseTranscript) : Prop := {
  sr_headers : forall name value, rs_headers t !! name = Some value ->
    name ∈ ALLOWED_RESPONSE_HEADERS /\ exists raw, value = redact_text raw sensitive;
  sr_body : forall body, rs_body t = SanitizedResponseBody.Json body ->
    (exists json, private = Some json /\ body = sj_value (sanitize_json json sensitive)) /\
    keys_redacted body = true /\ forall text, text ∈ string_leaves body -> clean_text sensitive text;
  sr_digest : forall digest, rs_raw_body_sha256 t = Some digest ->
    exists bytes json, digest = sha256_hex bytes /\ json_from_slice bytes = Some json /\
      rs_body t = SanitizedResponseBody.Json json;
  sr_private : is_some private = true -> exists body, rs_body t = SanitizedResponseBody.Json body;
}.

Lemma captured_headers response sensitive name value :
  allowlisted_response_headers response sensitive !! name = Some value ->
  name ∈ ALLOWED_RESPONSE_HEADERS /\ exists raw, value = redact_text raw sensitive.
Proof.
  unfold allowlisted_response_headers. intros Hin%elem_of_list_to_map_2.
  apply list_elem_of_omap in Hin as (name' & Hname & Hvalue).
  destruct (header_get response name') as [[raw|]|]; [|done..]. simplify_eq. split; [done|]. by exists raw.
Qed.

(** A transcript without a JSON body. *)
Lemma omitted_sanitized sensitive response status observed reason :
  sanitized_response sensitive None {|
    rs_status := status; rs_headers := allowlisted_response_headers response sensitive;
    rs_body_bytes_observed := observed; rs_raw_body_sha256 := None;
    rs_body := SanitizedResponseBody.Omitted reason |}.
Proof. split; [apply captured_headers|done..]. Qed.

Lemma complete_body_sanitized status response bytes sensitive :
  let captured := capture_complete_body status (allowlisted_response_headers response sensitive) bytes sensitive in
  from_option (sanitized_response sensitive (cap_private_json captured)) True (cap_response captured).
Proof.
  unfold capture_complete_body. destruct bytes as [|byte bytes]; [|set (body := byte :: bytes)].
  - apply omitted_sanitized.
  - destruct (json_from_slice body) as [json|] eqn:Hjson; [|apply omitted_sanitized].
    destruct (sanitize_clean sensitive json "") as [Hleaves Hkeys].
    split; cbn; [apply captured_headers| | |by eexists].
    + intros value [= <-]. split; [by exists json|done].
    + intros digest. destruct (sort_dedup _) eqn:Hnone; [|done]. intros [= <-].
      exists body, json. do 2 (split; [done|]). f_equal. by apply sanitize_unrecorded, sort_dedup_nil.
Qed.

Lemma response_sanitized response capture t :
  cap_response (capture_response response capture) = Some t ->
  sanitized_response (rcap_sensitive_values capture) (cap_private_json (capture_response response capture)) t.
Proof.
  unfold capture_response. destruct (read_limited_body _ _) as [[bytes observed|observed]|error]; [| |done].
  - intros Ht. pose proof (complete_body_sanitized (resp_status response) response bytes (rcap_sensitive_values capture)) as Hs.
    cbn zeta in Hs. by rewrite Ht in Hs.
  - intros [= <-]. apply omitted_sanitized.
Qed.

(** Whatever a catalog answers, an exchange sends exactly one
    request and leaves only sanitised evidence: headers are on the allow list and
    redacted, a JSON body is the sanitised private body and holds no sensitive
    key or text, a digest of the raw body is kept only when sanitising changed
    nothing, and a body beyond the limit or that is not JSON is omitted. *)
Theorem captured_evidence_is_sanitized method url token body capture (w : W) :
  let '(captured, w') := execute_json_request_with_context method url token body capture w in
  (exists request, hr_method request = method /\ hr_url request = url /\ hr_bearer_token request = token /\
     hr_body request = body /\ w' = after [request] w) /\
  match cap_response captured with
  | Some t => sanitized_response (rcap_sensitive_values capture) (cap_private_json captured) t
  | None => cap_private_json captured = None /\ exists failure, cap_failure captured = Some failure
  end.
Proof.
  unfold execute_json_request_with_context.
  set (request := {| hr_method := method; hr_url := url; hr_accept := "application/json" |}).
  destruct (http_send request w) as [sent w'] eqn:Hsend. cbn zeta. split.
  { exists request. do 4 (split; [done|]). cbn. by rewrite Hsend. }
  destruct sent as [response|error]; [|split; [done|by eexists]].
  destruct (cap_response (capture_response response capture)) as [t|] eqn:Ht; [by apply response_sanitized|].
  unfold capture_response in *. destruct (read_limited_body _ _) as [[bytes observed|observed]|error]; [|done|].
  - unfold capture_complete_body in Ht. destruct bytes; [done|]. by destruct (json_from_slice _).
  - split; [done|by eexists].
Qed.

(** Authentication fails closed and sends at most one request:
    either it failed, no bearer token exists and the transcript says so; or the
    adapter is anonymous and nothing was sent; or the token is a nonempty string
    of a 2xx JSON answer of the token endpoint, both environment variables were
    set, and the credentials and the token are all listed as sensitive. *)
Theorem authentication_fails_closed adapter getenv (w : W) :
  let '(attempt, w') := acquire_authentication adapter getenv w in
  match at_failure attempt with
  | Some failure =>
      pf_stage failure = ProbeFailureStage.Authentication /\ at_bearer_token attempt = None /\
      au_outcome (at_transcript attempt) = AuthenticationOutcome.Failed
  | None =>
      au_outcome (at_transcript attempt) = AuthenticationOutcome.Ready /\
      match ad_authentication adapter with
      | Anonymous => at_bearer_token attempt = None /\ w' = w
      | OAuth2ClientCredentials token_path scope id_env secret_env =>
          exists url id secret response token,
            endpoint_url (ep_base_url (ad_endpoint adapter)) token_path ∅ = Ok url /\
            nonempty_env getenv id_env = Some id /\ nonempty_env getenv secret_env = Some secret /\
            http_send (token_request url (token_form id secret scope)) w = (Ok response, w') /\
            read_token response = Ok token /\ (200 <= resp_status response < 300)%Z /\ token <> "" /\
            at_bearer_token attempt = Some token /\ at_sensitive_values attempt = [id; secret; token]
      end
  end.
Proof.
  unfold acquire_authentication. destruct (ad_authentication adapter) as [|token_path scope id_env secret_env]; [done|].
  destruct (endpoint_url _ _ _) as [url|error] eqn:Hurl; [|done].
  destruct (nonempty_env getenv id_env) as [id|] eqn:Hid; [|done].
  destruct (nonempty_env getenv secret_env) as [secret|] eqn:Hsecret; [|done].
  destruct (http_send _ w) as [sent w'] eqn:Hsend. destruct sent as [response|error]; [|done].
  destruct (read_token response) as [token|explanation] eqn:Htoken; [|done]. split; [done|].
  exists url, id, secret, response, token. do 5 (split; [done|]).
  unfold read_token in Htoken. inv_ok Htoken. injection Htoken as ->. split; [|split; [|done]].
  - match goal with Hb : negb _ = false |- _ => apply negb_false_iff, andb_true_iff in Hb end. lia.
  - intros ->. discriminate.
Qed.
End Evidence.

(** ** Connections *)

Section Connections.
Context `{UrlParser, UrlOps, UrlEdit, FormCodec, JsonParser, Sha256, ClientBuilder} {W : Type} `{HttpClient W}.

(** A config exchange that admits a session. *)
Record negotiated (adapter : CatalogAdapter) (auth : AuthenticationAttempt) (w : W) (routes : CatalogRoutes)
    (w' : W) : Prop := {
  ng_exchange : exists url response bytes observed json,
    config_url adapter = Ok url /\
    http_send {| hr_method := GET; hr_url := url; hr_accept := "application/json";
                 hr_bearer_token := at_bearer_token auth; hr_idempotency_key := None;
                 hr_body := None; hr_form := None |} w = (Ok response, w') /\
    resp_status response = 200%Z /\
    read_limited_body response MAXIMUM_RESPONSE_BYTES = Ok (Complete bytes observed) /\
    json_from_slice bytes = Some json /\
    (exists resolution, resolve_codec (Some json) = (resolution, Some (routes_codec routes))) /\
    match resolve_prefix adapter (Some json) with
    | PrefixResolution.Unprefixed => routes_prefix routes = None
    | PrefixResolution.Static value => routes_prefix routes = Some value
    | PrefixResolution.Negotiated _ value => routes_prefix routes = Some value /\ valid_path_segment value = true
    | _ => False
    end;
  ng_base : routes_base_url routes = ep_base_url (ad_endpoint adapter);
}.

(** A passing config check comes from a complete JSON body of a 200 answer. *)
Lemma captured_config response capture prefix codec :
  validate_config_routing None (cap_response (capture_response response capture))
    (cap_private_json (capture_response response capture)) prefix codec = Ok tt ->
  resp_status response = 200%Z /\ exists bytes observed json,
    read_limited_body response MAXIMUM_RESPONSE_BYTES = Ok (Complete bytes observed) /\
    json_from_slice bytes = Some json /\ cap_private_json (capture_response response capture) = Some json.
Proof.
  unfold capture_response. destruct (read_limited_body _ _) as [[bytes observed|observed]|error]; cbn.
  - unfold capture_complete_body. destruct bytes as [|byte bytes]; cbn.
    { by destruct (_ =? _)%Z, (is_some_and _ _). }
    destruct (json_from_slice _) as [json|] eqn:Hjson; cbn.
    2: by destruct (_ =? _)%Z, (is_some_and _ _).
    destruct (Z.eqb_spec (resp_status response) 200) as [Hs|]; [|done]. intros _. split; [done|]. by do 3 eexists.
  - by destruct (_ =? _)%Z, (is_some_and _ _).
  - done.
Qed.

Lemma resolved_negotiated adapter pointer body value :
  resolve_prefix adapter body = PrefixResolution.Negotiated pointer value -> valid_path_segment value = true.
Proof.
  unfold resolve_prefix. destruct (ep_route_prefix _); [done|done|].
  destruct (_ ≫= as_str) as [found|]; [|done]. by destruct (valid_path_segment found) eqn:Hv; intros [= _ <-].
Qed.

(** What a connected outcome says of the negotiation it was drawn from. *)
Lemma connected_outcome adapter auth request captured limit session :
  Runtime.connection_outcome adapter (conclude_routing adapter auth request captured) limit = Connected session ->
  at_failure auth = None /\
  validate_config_routing None (cap_response captured) (cap_private_json captured)
    (resolve_prefix adapter (cap_private_json captured)) (resolve_codec (cap_private_json captured)).2 = Ok tt /\
  exists codec routes, (resolve_codec (cap_private_json captured)).2 = Some codec /\
    CatalogRoutes_new adapter (resolve_prefix adapter (cap_private_json captured)) codec "catalog" = Ok routes /\
    session = {| session_bearer_token := at_bearer_token auth;
                 session_sensitive_values := at_sensitive_values auth;
                 session_routes := routes; session_maximum_response_bytes := limit |}.
Proof.
  unfold Runtime.connection_outcome, conclude_routing. destruct (resolve_codec _) as [separator codec].
  cbn -[validate_config_routing]. destruct (at_failure auth); [done|]. rewrite fact_from_result.
  destruct (validate_config_routing _ _ _ _ _) as [[]|]; [|done]. cbn -[validate_config_routing].
  destruct codec as [codec|]; [|done]. destruct (CatalogRoutes_new _ _ _ _) as [routes|] eqn:Hroutes; [|done].
  intros [= <-]. do 2 (split; [done|]). by exists codec, routes.
Qed.

Lemma routes_negotiated adapter body codec probe routes :
  CatalogRoutes_new adapter (resolve_prefix adapter body) codec probe = Ok routes ->
  routes_base_url routes = ep_base_url (ad_endpoint adapter) /\ routes_codec routes = codec /\
  match resolve_prefix adapter body with
  | PrefixResolution.Unprefixed => routes_prefix routes = None
  | PrefixResolution.Static value => routes_prefix routes = Some value
  | PrefixResolution.Negotiated _ value => routes_prefix routes = Some value /\ valid_path_segment value = true
  | _ => False
  end.
Proof.
  unfold CatalogRoutes_new. destruct (resolve_prefix adapter body) eqn:Hprefix; try done.
  all: intros [= <-]; do 2 (split; [done|]); try done.
  split; [done|]. by eapply resolved_negotiated.
Qed.

(** A session exists only for a catalog that was admitted and
    negotiated: the profile and scenario resolve to a target without a declared
    limitation on a required capability; authentication did not fail; the config
    endpoint answered 200 with a complete JSON body within the limit; and the
    session's routes carry the adapter's base URL, its prefix (negotiated prefixes
    are single path segments) and the separator resolved from that body; with the
    token and limits the caller asked for. *)
Theorem connected_session_is_negotiated profile scenario catalog timeout limit getenv (w w' : W) attempt session :
  Runtime.connect_catalog profile scenario catalog timeout limit getenv w = (Ok attempt, w') ->
  ca_outcome attempt = Connected session ->
  exists target auth w1,
    resolve_target profile scenario catalog = Ok target /\ first_required_limitation target scenario = None /\
    (timeout <> 0)%Z /\ limit = MAXIMUM_RESPONSE_BYTES /\
    acquire_authentication (target_adapter target) getenv w = (auth, w1) /\ at_failure auth = None /\
    negotiated (target_adapter target) auth w1 (session_routes session) w' /\
    session_bearer_token session = at_bearer_token auth /\
    session_sensitive_values session = at_sensitive_values auth /\
    session_maximum_response_bytes session = limit.
Proof.
  unfold Runtime.connect_catalog, Runtime.admitted_target, validate_connection_limits.
  destruct (Z.eqb_spec timeout 0) as [|Htimeout]; [done|].
  destruct (Z.eqb_spec limit CATALOG_RESPONSE_LIMIT_BYTES) as [Hlimit|]; [|done]. cbn [negb].
  destruct (resolve_target _ _ _) as [target|] eqn:Htarget; [|done].
  destruct (first_required_limitation _ _) eqn:Hlimitation; [done|].
  unfold Runtime.connect_target, negotiate_routing. destruct (http_client timeout); [|done].
  destruct (acquire_authentication _ _ _) as [auth w1] eqn:Hauth.
  destruct (config_request _ _) as [request|]; [|by intros [= <-]].
  destruct (at_failure auth) eqn:Hfailure.
  { intros [= <- <-] (Hnone & _)%connected_outcome. by rewrite Hfailure in Hnone. }
  destruct (config_url _) as [url|] eqn:Hurl; [|by intros [= <-]].
  unfold execute_json_request, execute_json_request_with_context. cbn [rcap_idempotency_key rcap_sensitive_values].
  destruct (http_send _ w1) as [sent w2] eqn:Hsend. intros [= <- <-]. cbn [ca_outcome].
  intros (_ & Hvalid & codec & routes & Hcodec & Hroutes & ->)%connected_outcome.
  exists target, auth, w1. do 6 (split; [done|]). split; [|done]. cbn [session_routes].
  destruct sent as [response|error]; [|done].
  apply captured_config in Hvalid as (Hstatus & bytes & observed & json & Hread & Hjson & Hprivate).
  rewrite Hprivate in *. apply routes_negotiated in Hroutes as (Hbase & Hrc & Hprefix).
  split; [|done]. exists url, response, bytes, observed, json. do 5 (split; [done|]). split; [|done].
  destruct (resolve_codec _) as [resolution resolved]. exists resolution. cbn in Hcodec. by rewrite Hcodec, Hrc.
Qed.
End Connections.

(** ** Properties of the namespace probe

    What the probe may send, that its transcript is complete, that it removes
    what it created, and what a passing transcript means. *)

Section Workflow.
Context `{UrlParser, UrlOps, UrlEdit, FormCodec, JsonParser, Sha256, ClientBuilder} {W : Type}
  `{HttpClient W, FromValue NamespaceResponse, FromValue ListNamespacesResponse}.
Context `{FromValue UpdateNamespacePropertiesResponse, FromValue IcebergErrorResponse}.

(** The requests the probe may send once its fixture is known to be absent. *)
Definition namespace_allowed (routes : CatalogRoutes) (fixture : NamespaceFixture) (method : Method) (url : Url)
    (body : option Value) : Prop :=
  let own := [nf_child fixture; nf_sibling fixture; nf_primary fixture] in
  match method with
  | GET => True
  | POST => (namespace_collection routes = Ok url /\ exists namespace properties,
               namespace ∈ own /\ body = Some (create_namespace_body namespace properties))
            \/ namespace_properties routes (nf_primary fixture) = Ok url
  | DELETE => exists namespace, namespace ∈ own /\ namespace_route routes namespace = Ok url
  | HEAD => False
  end.

(** What the preflight of a run established. *)
Definition fixture_absent (preflight : result (list (result unit string)) string) : bool :=
  match preflight with Ok results => is_ok (all_results results) | Err _ => false end.

Section Fixture.
Context (routes : CatalogRoutes) (fixture : NamespaceFixture).

Lemma allowed_get url body : namespace_allowed routes fixture GET url body.
Proof. done. Qed.
Hint Resolve allowed_get : probe.

Lemma traced_on_namespace capability operation :
  traced (W := W) only_get 1 (on_namespace routes capability GET operation).
Proof. unfold on_namespace. trace. done. Qed.

Lemma traced_create id capability namespace properties :
  namespace ∈ [nf_child fixture; nf_sibling fixture; nf_primary fixture] ->
  traced (W := W) (namespace_allowed routes fixture) 1 (create_namespace routes id capability namespace properties).
Proof.
  intros Hown. unfold create_namespace. trace. left. split; [done|]. by exists namespace, properties.
Qed.

Lemma traced_preflight : traced (W := W) only_get 3 (preflight_fixture routes fixture).
Proof.
  apply (traced_for_each_le _ 1); [|done]. intros operation _. apply traced_then_ret, traced_on_namespace.
Qed.

Lemma traced_missing_parent parent : traced (W := W) only_get 1 (probe_missing_parent routes parent).
Proof. unfold probe_missing_parent. trace. done. Qed.

Lemma traced_cleanup : traced (W := W) (namespace_allowed routes fixture) 6 (cleanup_fixture routes fixture).
Proof.
  unfold cleanup_fixture. apply (traced_bind _ 3 3).
  - apply (traced_for_each_le _ 1); [|done]. intros operation Hop. apply traced_then_ret.
    unfold on_namespace. apply traced_lift_bind. intros url Hurl. apply traced_attempt.
    exists operation.2. split; [|done]. set_solver.
  - intros dropped. apply traced_then_ret, (traced_for_each_le _ 1); [|done]. intros operation _.
    apply traced_then_ret, traced_get; [done|]; apply traced_on_namespace.
Qed.

Lemma traced_pages pages index token tokens namespaces :
  traced (W := W) only_get pages (traverse_pages_from routes fixture pages index token tokens namespaces).
Proof.
  revert index token tokens namespaces. induction pages as [|pages IH]; intros; cbn; [apply traced_ret|].
  apply traced_lift_bind. intros url _. change (S pages) with (1 + pages)%nat.
  apply traced_bind; [by apply traced_attempt|]. intros observation.
  destruct (judge_page _ _ _ _ _) as [|[]]; [|apply IH]. eapply traced_weaken; [by intros ??? HQ; exact HQ| |apply traced_ret]. lia.
Qed.

(** Sixty-four pages at most: the traversal ends whatever the catalog answers. *)
Lemma traced_traverse : traced (W := W) only_get 64 (traverse_pages routes fixture).
Proof. apply traced_pages. Qed.

Lemma traced_child created : traced (W := W) (namespace_allowed routes fixture) 1 (create_child routes fixture created).
Proof.
  destruct created; cbn; [|trace]. apply traced_then_ret, traced_create. set_solver.
Qed.

Lemma traced_top_level created : traced (W := W) only_get 1 (list_top_level routes fixture created).
Proof. destruct created; cbn; trace; done. Qed.

Lemma traced_primary created :
  traced (W := W) (namespace_allowed routes fixture) 4 (exercise_primary routes fixture created).
Proof.
  destruct created; cbn; [|trace].
  apply (traced_bind _ 1 3); [apply traced_get; [done|]; apply traced_on_namespace|]. intros load.
  apply traced_lift_bind. intros url Hurl. apply (traced_bind _ 1 2); [apply traced_attempt; by right|]. intros update.
  apply (traced_bind _ 1 1); [apply traced_get; [done|]; apply traced_on_namespace|]. intros reload.
  apply traced_then_ret, traced_create. set_solver.
Qed.

Lemma traced_children created : traced (W := W) only_get 1 (list_children routes fixture created).
Proof. destruct created; cbn; trace; done. Qed.

Lemma traced_paginate created : traced (W := W) only_get 64 (paginate routes fixture created).
Proof.
  destruct created; cbn [paginate]; [|trace].
  apply (traced_bind _ 64 0); [apply traced_traverse|]. intros []. apply traced_ret.
Qed.

Lemma traced_exercise facts isolated :
  traced (W := W) (namespace_allowed routes fixture) 80 (exercise_namespaces routes fixture facts isolated).
Proof.
  unfold exercise_namespaces.
  apply (traced_bind _ 1 79); [apply traced_create; set_solver|]. intros primary.
  apply (traced_bind _ 1 78); [apply traced_create; set_solver|]. intros sibling.
  apply (traced_bind _ 1 77); [apply traced_child|]. intros child.
  apply (traced_bind _ 1 76); [apply traced_get; [done|]; apply traced_top_level|]. intros listed.
  apply (traced_bind _ 4 72); [apply traced_primary|]. intros [[load properties] duplicate].
  apply (traced_bind _ 1 71); [apply traced_get; [done|]; apply traced_children|]. intros hierarchy.
  apply (traced_bind _ 64 7); [apply traced_get; [done|]; apply traced_paginate|]. intros [pagination pages].
  apply (traced_bind _ 1 6); [apply traced_get; [done|]; apply traced_missing_parent|]. intros missing.
  apply (traced_bind _ 6 0); [apply traced_cleanup|]. intros. apply traced_ret.
Qed.

Lemma traced_skipped facts isolated reason : traced (W := W) only_get 80
  (_ ← skip_remaining_mutations reason;
   missing_parent ← probe_missing_parent routes (nf_missing_parent fixture);
   mret (PaginationTranscript.NotEvaluated reason,
         skip_mutating_behavior facts isolated (Fact.from_result missing_parent) reason)).
Proof.
  apply (traced_bind _ 0 80); [apply traced_skip_each|]. intros _. apply (traced_bind _ 1 79).
  - apply traced_missing_parent.
  - intros. eapply traced_weaken; [intros ??? HQ; exact HQ| |apply traced_ret]. lia.
Qed.

(** A namespace probe mutates nothing but its own
    fixture: it sends at most 83 requests, its transcript lists exactly these in
    their order, each sanitised; unless the preflight found all three namespaces
    of the fixture absent (a spec-shaped 404) every request is a GET; and then
    every POST goes to the namespace collection or to the properties of the
    primary namespace and every DELETE to a namespace of the fixture. *)
Theorem namespace_probe_mutates_only_its_fixture facts (r : OperationRecorder) (w : W) :
  let run := execute_namespace_workflow routes fixture facts (r, w) in
  exists requests new,
    run_traced (if fixture_absent (preflight_fixture routes fixture (r, w)).1
                then namespace_allowed routes fixture else only_get)
      83 r w run.2.1 run.2.2 requests new.
Proof.
  apply (traced_after _ 3 80).
  - destruct (fixture_absent _); [apply traced_get; [done|]|]; apply traced_preflight.
  - intros results ->. cbn [fixture_absent]. rewrite fact_from_result.
    destruct (is_ok (all_results results)); [apply traced_exercise|apply traced_skipped].
Qed.

(** ** Cleanup *)

Hint Resolve traced_create traced_child traced_top_level traced_primary traced_children traced_paginate
  traced_missing_parent : probe.

Section Usable.
Context (Husable : routes_usable routes).
Hint Resolve Husable : probe.
Hint Extern 1 (_ ∈ _) => set_solver : probe.

Lemma total_on_namespace capability method operation :
  total (W := W) (on_namespace routes capability method operation).
Proof. unfold on_namespace. totality. Qed.
Hint Resolve total_on_namespace : probe.

Lemma total_create id capability namespace properties :
  total (W := W) (create_namespace routes id capability namespace properties).
Proof. unfold create_namespace. totality. Qed.
Hint Resolve total_create : probe.

Lemma total_missing_parent parent : total (W := W) (probe_missing_parent routes parent).
Proof. unfold probe_missing_parent. totality. Qed.

Lemma total_child created : total (W := W) (create_child routes fixture created).
Proof. unfold create_child. totality. Qed.

Lemma total_top_level created : total (W := W) (list_top_level routes fixture created).
Proof. unfold list_top_level. totality. Qed.

Lemma total_primary created : total (W := W) (exercise_primary routes fixture created).
Proof. unfold exercise_primary. totality. Qed.

Lemma total_children created : total (W := W) (list_children routes fixture created).
Proof. unfold list_children. totality. Qed.

Lemma total_pages pages index token tokens namespaces :
  total (W := W) (traverse_pages_from routes fixture pages index token tokens namespaces).
Proof.
  revert index token tokens namespaces. induction pages as [|pages IH]; intros; cbn [traverse_pages_from]; totality.
Qed.

Lemma total_paginate created : total (W := W) (paginate routes fixture created).
Proof. unfold paginate, traverse_pages. pose proof total_pages. totality. Qed.

(** The last six requests: each namespace dropped, children first, then looked up. *)
Definition cleanup_lines (child sibling primary : Url) : list (Method * Url) :=
  [(DELETE, child); (DELETE, sibling); (DELETE, primary); (GET, child); (GET, sibling); (GET, primary)].

Lemma exactly_cleanup child sibling primary :
  namespace_route routes (nf_child fixture) = Ok child ->
  namespace_route routes (nf_sibling fixture) = Ok sibling ->
  namespace_route routes (nf_primary fixture) = Ok primary ->
  exactly (W := W) (cleanup_lines child sibling primary) (cleanup_fixture routes fixture).
Proof. intros Hc Hs Hp. unfold cleanup_fixture, on_namespace. cbn [for_each fst snd]. exactly_lines. Qed.

Hint Resolve total_missing_parent total_child total_top_level total_primary total_children total_paginate : probe.

Lemma exercise_ends_with_cleanup facts isolated child sibling primary :
  namespace_route routes (nf_child fixture) = Ok child ->
  namespace_route routes (nf_sibling fixture) = Ok sibling ->
  namespace_route routes (nf_primary fixture) = Ok primary ->
  ends_with (W := W) (cleanup_lines child sibling primary) (exercise_namespaces routes fixture facts isolated).
Proof.
  intros Hc Hs Hp. unfold exercise_namespaces. do 4 before_last.
  eapply ends_with_bind; [solve [eauto with probe]|solve [eauto with probe]|intros [[load properties] duplicate]].
  before_last. eapply ends_with_bind; [solve [eauto with probe]|solve [eauto with probe]|intros [pagination pages]].
  before_last. eapply ends_with_exactly. by apply exactly_cleanup.
Qed.
End Usable.

(** Once the preflight has shown the fixture absent, the
    workflow always reaches its cleanup and returns, whatever the catalog
    answers: the last six requests of the run drop the child, the sibling and the
    primary namespace and then look each of them up. *)
Theorem namespace_probe_always_cleans_up `{!UrlLaws} facts (r : OperationRecorder) (w : W) :
  fixture_absent (preflight_fixture routes fixture (r, w)).1 = true ->
  exists child sibling primary,
    namespace_route routes (nf_child fixture) = Ok child /\
    namespace_route routes (nf_sibling fixture) = Ok sibling /\
    namespace_route routes (nf_primary fixture) = Ok primary /\
    ends_at (cleanup_lines child sibling primary) (execute_namespace_workflow routes fixture facts) r w.
Proof.
  intros Habsent. destruct (preflight_fixture routes fixture (r, w)).1 as [results|] eqn:Hpre; [|done].
  assert (Husable : routes_usable routes).
  { destruct (namespace_route routes (nf_primary fixture)) as [url|e] eqn:Hurl; [by eapply resolved_usable|].
    revert Hpre. unfold preflight_fixture, on_namespace, mbind, Probe_bind, lift. cbn. by rewrite Hurl. }
  pose proof (usable_namespace routes Husable) as Hroute.
  destruct (namespace_route routes (nf_child fixture)) as [child|] eqn:Hc; [|by specialize (Hroute (nf_child fixture)); rewrite Hc in Hroute].
  destruct (namespace_route routes (nf_sibling fixture)) as [sibling|] eqn:Hs; [|by specialize (Hroute (nf_sibling fixture)); rewrite Hs in Hroute].
  destruct (namespace_route routes (nf_primary fixture)) as [primary|] eqn:Hp; [|by specialize (Hroute (nf_primary fixture)); rewrite Hp in Hroute].
  exists child, sibling, primary. do 3 (split; [done|]).
  eapply (ends_at_bind only_get); [apply traced_preflight|exact Hpre|]. cbn.
  cbn in Habsent. rewrite fact_from_result, Habsent. by apply exercise_ends_with_cleanup.
Qed.

(** ** Pagination *)

Implicit Types s : OperationRecorder * W.

(** The request for the page [index] with this token, sent in the state [s], was
    answered with this set of namespaces and this [next-page-token]. *)
Definition page_received (index : Z) (token : string) s (page : gset NamespaceIdentifier) (next : option string) s'
  : Prop :=
  exists url observation response,
    namespace_page routes token PAGE_SIZE = Ok url /\
    exchange (attempt ("list-page-" +:+ display03 index) (Some PAGINATION_CAPABILITY) GET url None) s observation s' /\
    parse_list_response observation 200 = Ok response /\ parse_namespaces (ln_namespaces response) = Ok page /\
    ln_next_page_token response = next.

(** Pages received one after the other, each with the token of the one before; the
    last one has none. [tokens] are the tokens received on the way. *)
Inductive pages_received
  : Z -> string -> OperationRecorder * W -> list (gset NamespaceIdentifier) -> list string -> OperationRecorder * W -> Prop :=
| last_page index token s page s' :
    page_received index token s page None s' -> pages_received index token s [page] [] s'
| next_page index token s page next s1 pages tokens s' :
    page_received index token s page (Some next) s1 -> pages_received (index + 1) next s1 pages tokens s' ->
    pages_received index token s (page :: pages) (next :: tokens) s'.

Lemma insert_namespaces_ok page namespaces all :
  insert_namespaces namespaces page = Ok all ->
  all = namespaces ∪ list_to_set page /\ namespaces ## list_to_set page.
Proof.
  revert namespaces. induction page as [|namespace page IH]; cbn; intros namespaces.
  - intros [= <-]. set_solver.
  - case_bool_decide as Hin; [done|]. intros [-> Hd]%IH. split; [set_solver|].
    intros x Hx Hp. apply elem_of_union in Hp as [->%elem_of_singleton|Hp]; [done|]. set_solver.
Qed.

Lemma btree_elements_set (page : gset NamespaceIdentifier) :
  list_to_set (btree_elements namespace_compare page) = page.
Proof. apply set_eq. intros x. by rewrite elem_of_list_to_set, elem_of_btree_elements. Qed.

Lemma complete_set_ok namespaces expected u namespace :
  validate_complete_namespace_set namespaces expected = Ok u -> namespace ∈ expected -> namespace ∈ namespaces.
Proof.
  unfold validate_complete_namespace_set. destruct (find _ _) eqn:Hfind; [done|]. intros _ Hin.
  apply list_elem_of_In in Hin. pose proof (find_none _ _ Hfind _ Hin) as Hn. cbn in Hn.
  by apply negb_false_iff, bool_decide_eq_true in Hn.
Qed.

(** The pages after [seen] of a complete traversal. *)
Record pages_complete (seen : gset NamespaceIdentifier) (pages : list (gset NamespaceIdentifier)) (count : Z)
  : Prop := {
  pg_bounded : Forall (fun page => Z.of_nat (size page) <= PAGE_SIZE)%Z pages;
  pg_disjoint : forall i page, pages !! i = Some page -> page ## seen ∪ ⋃ (take i pages);
  pg_count : count = Z.of_nat (size (seen ∪ ⋃ pages));
  pg_primary : nf_primary fixture ∈ seen ∪ ⋃ pages;
  pg_sibling : nf_sibling fixture ∈ seen ∪ ⋃ pages;
}.

Lemma pages_cons seen page pages count :
  (Z.of_nat (size page) <= PAGE_SIZE)%Z -> page ## seen ->
  pages_complete (seen ∪ page) pages count -> pages_complete seen (page :: pages) count.
Proof.
  intros Hb Hd [Hbounded Hdisjoint Hcount Hp Hs]. split; rewrite ?union_list_cons, ?(assoc_L (∪)); try done.
  - by constructor.
  - intros [|i] p Hi; [cbn in *; simplify_eq; set_solver|].
    change (take (S i) (page :: pages)) with (page :: take i pages).
    rewrite union_list_cons, (assoc_L (∪)). by apply Hdisjoint.
Qed.

(** New tokens: none is empty, none repeats another or one of [used]. *)
Definition tokens_fresh (used : gset string) (tokens : list string) : Prop :=
  NoDup tokens /\ Forall (fun token => token <> "" /\ token ∉ used) tokens.

Lemma tokens_fresh_cons used token tokens :
  token <> "" -> token ∉ used -> tokens_fresh ({[ token ]} ∪ used) tokens -> tokens_fresh used (token :: tokens).
Proof.
  intros Hne Hnew [Hnodup Hfresh]. rewrite Forall_forall in Hfresh. split.
  - constructor; [|done]. intros Hin. destruct (Hfresh _ Hin). set_solver.
  - constructor; [done|]. apply Forall_forall. intros other Hin. destruct (Hfresh _ Hin). set_solver.
Qed.

(** How a traversal that was judged complete went on from the page [index]: page by
    page to one without a next token, or with the single answer to the first
    request, when that exceeds a page and has no next token. *)
Definition traversal_ended (pages : nat) (index : Z) (token : string) (used : gset string)
    (seen : gset NamespaceIdentifier) s (outcome : PaginationTranscript.t) s' : Prop :=
  match outcome with
  | PaginationTranscript.Paginated n count =>
      exists observed tokens, pages_received index token s observed tokens s' /\ tokens_fresh used tokens /\
        pages_complete seen observed count /\ n = (index + len observed - 1)%Z /\ (0 < length observed <= pages)%nat
  | PaginationTranscript.UnpaginatedFallback count =>
      exists page, page_received 1 "" s page None s' /\ count = Z.of_nat (size page) /\ (PAGE_SIZE < count)%Z /\
        nf_primary fixture ∈ page /\ nf_sibling fixture ∈ page
  | _ => False
  end.

Lemma traversal_complete pages index token used seen s outcome s' :
  (1 <= index)%Z -> (index = 1%Z -> token = "") ->
  exchange (traverse_pages_from routes fixture pages index token used seen) s (outcome, Ok tt) s' ->
  (index = 1%Z \/ match outcome with PaginationTranscript.UnpaginatedFallback _ => False | _ => True end) /\
  traversal_ended pages index token used seen s outcome s'.
Proof.
  revert index token used seen s. induction pages as [|pages IH]; intros index token used seen s Hindex Hfirst; [done|].
  cbn [traverse_pages_from]. intros (url & Hurl & Hrun)%exchange_lift.
  apply exchange_bind in Hrun as (observation & s1 & Hobservation & Hrun).
  unfold judge_page in Hrun. destruct (parse_list_response observation 200) as [response|] eqn:Hresponse; [|done].
  destruct (parse_namespaces (ln_namespaces response)) as [page|] eqn:Hpage; [|done].
  assert (Hreceived : page_received index token s page (ln_next_page_token response) s1)
    by (by exists url, observation, response).
  destruct (Z.ltb_spec PAGE_SIZE (Z.of_nat (size page))) as [Hlarge|Hsize].
  { destruct (Z.eqb_spec index 1) as [->|], (ln_next_page_token response); try done.
    apply exchange_ret in Hrun as [[= <- Hvalid] <-]. rewrite (Hfirst eq_refl) in Hreceived.
    split; [by left|]. exists page. do 3 (split; [done|]). by split; eapply complete_set_ok; try exact Hvalid; set_solver. }
  destruct (insert_namespaces _ _) as [all|] eqn:Hinsert; [|done].
  apply insert_namespaces_ok in Hinsert as [-> Hdisjoint]. rewrite btree_elements_set in *.
  destruct (ln_next_page_token response) as [next|].
  - destruct (is_empty next) eqn:Hempty; [done|]. case_bool_decide as Hused; [done|].
    apply IH in Hrun as [Hkind Hrun]; [|lia|lia].
    destruct outcome; try done; cbn [traversal_ended] in *; [|by destruct Hkind; [lia|]].
    destruct Hrun as (observed & tokens & Hpages & Htokens & Hcomplete & -> & Hlength). split; [by right|].
    exists (page :: observed), (next :: tokens). split; [by eapply next_page|].
    split; [apply tokens_fresh_cons; [by intros ->|done|done]|].
    split; [by apply pages_cons|]. rewrite len_cons. split; [lia|cbn; lia].
  - apply exchange_ret in Hrun as [[= <- Hvalid] <-]. split; [by right|]. exists [page], [].
    split; [by constructor|]. split; [by split; constructor|].
    split; [|split; [unfold len; cbn; lia|cbn; lia]]. apply pages_cons; [done|done|].
    split; try done; change (⋃ []) with (∅ : gset NamespaceIdentifier); rewrite ?(right_id_L ∅ (∪)); try done.
    + eapply complete_set_ok; [exact Hvalid|]. set_solver.
    + eapply complete_set_ok; [exact Hvalid|]. set_solver.
Qed.

(** C9: a traversal that passes was complete: either at most 64 pages of at most
    one namespace each, requested one after the other, the first with no token, each
    further one with the token of the page before, no token empty or repeated, the
    last page without a next token; each page disjoint from those before it, together
    exactly the counted namespaces and among them both the probe created; or the
    first request, sent with no token, was answered with more than a page of
    namespaces and no next token, and with both of them. *)
Theorem passing_traversal_is_complete s outcome s' :
  traverse_pages routes fixture s = (Ok (outcome, Ok tt), s') -> traversal_ended 64 1 "" ∅ ∅ s outcome s'.
Proof. by intros [_ Hended]%traversal_complete. Qed.
End Fixture.
End Workflow.
