(* ===== verification/TableProofs.v ===== *)
(** * Properties of the table probe

    The probe mutates its own fixture only, its transcript lists what it sent,
    and once it has created anything it ends by removing every candidate. *)

From S2P Require Import Prelude Order RustStr Json ContractValue ContractScenario ContractAdapter ContractProfile.
From S2P Require Import ContractResult Ledger Transport Sanitize Capture Routing Operation ProbePolicy ConfigProbe.
From S2P Require Import TableProtocol TableProbe ProbeTrace.
Open Scope string_scope.

Section Workflow.
Context `{UrlParser, UrlOps, UrlEdit, FormCodec, JsonParser, Sha256, ClientBuilder} {W : Type}
  `{HttpClient W, FromValue NamespaceResponse, FromValue LoadTableResult}.
Context `{FromValue ListTablesResponse, FromValue IcebergErrorResponse}.

(** The requests the probe may send once its namespace is known to be absent:
    its namespace and tables are created, the primary table is updated and
    renamed, and what is dropped is a candidate or the namespace itself. *)
Definition table_allowed (routes : CatalogRoutes) (fixture : TableFixture) (method : Method) (url : Url)
    (body : option Value) : Prop :=
  match method with
  | GET => True
  | POST =>
      (namespace_collection routes = Ok url /\ exists properties,
         body = Some (json_object [("namespace", str_array (namespace_parts (tf_namespace fixture)));
                                   ("properties", json_object properties)]))
      \/ (exists identifier location,
            identifier ∈ [tf_primary fixture; tf_sibling fixture]
            /\ table_collection routes (ti_namespace identifier) = Ok url
            /\ body = Some (committed_table_request (ti_name identifier) location requested_schema created_properties))
      \/ table_route routes (tf_namespace fixture) (ti_name (tf_primary fixture)) = Ok url
      \/ (table_rename routes = Ok url
          /\ body = Some (json_object [("source", identifier_value (tf_primary fixture));
                                       ("destination", identifier_value (tf_renamed fixture))]))
      \/ table_register routes (ti_namespace (tf_registered fixture)) = Ok url
  | DELETE => namespace_route routes (tf_namespace fixture) = Ok url
              \/ exists identifier, identifier ∈ candidates fixture /\ table_drop_url routes identifier = Ok url
  | HEAD => False
  end.

Section Fixture.
Context (routes : CatalogRoutes) (fixture : TableFixture).
Local Notation allowed := (table_allowed routes fixture).

Lemma table_allowed_get url body : allowed GET url body.
Proof. done. Qed.
Hint Resolve table_allowed_get : probe.
Hint Extern 1 (only_get _ _ _) => reflexivity : probe.

(** ** What each step sends *)

Lemma reads_table id capability identifier :
  traced (W := W) only_get 1 (on_table routes id capability GET identifier None).
Proof. unfold on_table. trace. Qed.

Lemma reads_missing_table identifier : traced (W := W) only_get 1 (probe_missing_table routes identifier).
Proof. apply traced_then_ret, reads_table. Qed.

Lemma reads_missing_namespace namespace :
  traced (W := W) only_get 1 (probe_missing_namespace routes namespace).
Proof. unfold probe_missing_namespace. trace. Qed.

Lemma reads_listing created : traced (W := W) only_get 1 (list_tables routes fixture created).
Proof. destruct created; cbn; trace. Qed.

Lemma reads_created identifier id created :
  traced (W := W) only_get 1 (load_created_table routes identifier id created).
Proof. destruct created; cbn; [apply traced_then_ret, reads_table|trace]. Qed.

Lemma reads_pages pages index token tokens identifiers :
  traced (W := W) only_get pages (traverse_pages_from routes fixture pages index token tokens identifiers).
Proof.
  revert index token tokens identifiers. induction pages as [|pages IH]; intros; cbn; [apply traced_ret|].
  apply traced_lift_bind. intros url _. change (S pages) with (1 + pages)%nat.
  apply traced_bind; [by apply traced_attempt|]. intros observation.
  destruct (judge_page _ _ _ _ _) as [|[]]; [|apply IH].
  eapply traced_weaken; [by intros ??? HQ; exact HQ| |apply traced_ret]. lia.
Qed.

Lemma reads_paginated created : traced (W := W) only_get 64 (paginate routes fixture created).
Proof.
  destruct created; cbn [paginate]; [|trace].
  apply (traced_bind _ 64 0); [apply reads_pages|]. intros []. apply traced_ret.
Qed.

Lemma creates_table locations identifier id :
  identifier ∈ [tf_primary fixture; tf_sibling fixture] ->
  traced (W := W) allowed 1 (create_table routes locations identifier id).
Proof. intros Hin. unfold create_table. trace. right. left. by eexists _, _. Qed.

Lemma creates_duplicate locations created :
  traced (W := W) allowed 1 (create_duplicate routes locations fixture created).
Proof. destruct created; cbn [create_duplicate]; [|trace]. apply traced_then_ret, creates_table. set_solver. Qed.

Lemma updates_primary loaded : traced (W := W) allowed 2 (update_primary routes fixture loaded).
Proof.
  destruct loaded as [before|]; cbn [update_primary]; [|trace].
  apply (traced_bind _ 1 1).
  - apply traced_lift_bind. intros url Hurl. apply traced_attempt. by do 2 right; left.
  - intros update. apply traced_then_ret, traced_get; [done|]. apply reads_table.
Qed.

Lemma renames_primary optional updated :
  traced (W := W) allowed 3 (rename_primary routes fixture optional updated).
Proof.
  unfold rename_primary, skip_optional, attempt_rename, on_table. destruct (rename_limitation _), updated; try trace.
  by do 3 right; left.
Qed.

Lemma drops_sibling loaded : traced (W := W) allowed 2 (drop_loaded_sibling routes fixture loaded).
Proof.
  unfold drop_loaded_sibling, drop_sibling, on_table. destruct loaded; trace.
  right. exists (tf_sibling fixture). split; [unfold candidates; set_solver|done].
Qed.

Lemma registers_sibling optional dropped :
  traced (W := W) allowed 2 (register_sibling routes fixture optional dropped).
Proof.
  unfold register_sibling, skip_optional, attempt_register, on_table.
  destruct (register_limitation _), dropped; try trace. by do 4 right.
Qed.

Lemma cleans_tables : traced (W := W) allowed 10 (cleanup_fixture routes fixture).
Proof.
  unfold cleanup_fixture. apply (traced_bind _ 4 6).
  - apply (traced_for_each_le _ 1); [|done]. intros identifier Hin. apply traced_lift_bind. intros url Hurl.
    apply traced_then_ret, traced_attempt. right. by exists identifier.
  - intros dropped. apply (traced_bind _ 4 2).
    + apply (traced_for_each_le _ 1); [|done]. intros identifier _.
      apply traced_then_ret, traced_get; [done|]. apply reads_table.
    + intros verified. trace. by left.
Qed.

Hint Resolve creates_table creates_duplicate updates_primary renames_primary drops_sibling registers_sibling
  cleans_tables : probe.
Hint Resolve reads_table reads_missing_table reads_missing_namespace reads_listing reads_created
  reads_paginated : probe.
Hint Extern 1 (_ ∈ _) => set_solver : probe.
Hint Extern 2 (traced allowed _ _) =>
  apply traced_get; [done|]; first [apply reads_table | apply reads_missing_table | apply reads_missing_namespace
    | apply reads_listing | apply reads_created | apply reads_paginated] : probe.

Lemma exercises_tables locations optional facts isolated namespace :
  traced (W := W) allowed 91 (exercise_tables routes fixture locations optional facts isolated namespace).
Proof.
  unfold exercise_tables. trace.
Qed.

Lemma exercises_fixture locations optional facts isolated :
  traced (W := W) allowed 92 (exercise_fixture routes fixture locations optional facts isolated).
Proof.
  unfold exercise_fixture. apply traced_lift_bind. intros url Hurl.
  apply (traced_bind _ 1 91); [apply traced_attempt; left; by eauto|]. intros created. cbn zeta.
  destruct (negb _); [|apply exercises_tables]. unfold skip_table_operations. trace.
Qed.

Lemma skips_table_workflow facts isolated reason : traced (W := W) only_get 92
  (_ ← skip_mutating_workflow reason;
   missing_namespace ← probe_missing_namespace routes (tf_missing_namespace fixture);
   mret (TablePaginationTranscript.NotEvaluated reason,
         skip_mutating_behavior facts isolated (Fact.from_result missing_namespace) reason)).
Proof.
  unfold skip_mutating_workflow, skip_table_operations. pose proof reads_missing_namespace. trace.
Qed.

(** A table probe mutates nothing but its own fixture: it
    sends at most 93 requests and its transcript lists exactly these in their
    order; unless the preflight found the fixture's namespace absent every
    request is a GET; and then the only namespace it creates is the fixture's, the
    only tables it creates, updates, renames or registers are the fixture's, and
    what it deletes is a candidate table (without purge) or that namespace. *)
Theorem table_probe_mutates_only_its_fixture locations optional facts (r : OperationRecorder) (w : W) :
  let run := execute_table_workflow routes fixture locations optional facts (r, w) in
  let preflight := preflight_namespace routes (tf_namespace fixture) NAMESPACE_LOAD_CAPABILITY (r, w) in
  exists requests new,
    run_traced (if found_absent preflight.1 then table_allowed routes fixture else only_get)
      93 r w run.2.1 run.2.2 requests new.
Proof.
  cbn zeta. unfold execute_table_workflow. rewrite lift_assoc. apply (traced_after _ 1 92).
  - destruct (found_absent _); [apply traced_get; [done|]|]; apply traced_preflight_namespace.
  - intros preflight Hpre. unfold preflight_namespace. rewrite Hpre. cbn. rewrite fact_from_result.
    destruct (is_ok _); [apply exercises_fixture|apply skips_table_workflow].
Qed.

(** ** Cleanup *)

Section Usable.
Context (Husable : routes_usable routes) (locations : TableCreateLocations)
  (Hlocations : forall namespace name, is_ok (for_table locations namespace name) = true).
Hint Resolve Husable Hlocations : probe.

Lemma returns_table_drop identifier : is_ok (table_drop_url routes identifier) = true.
Proof.
  unfold table_drop_url. pose proof (usable_table _ Husable (ti_namespace identifier) (ti_name identifier)).
  by destruct (table_route _ _ _).
Qed.
Hint Resolve returns_table_drop : probe.

Lemma returns_on_table id capability method identifier body :
  total (W := W) (on_table routes id capability method identifier body).
Proof. unfold on_table. totality. Qed.

Lemma returns_create identifier id : total (W := W) (create_table routes locations identifier id).
Proof. unfold create_table. totality. Qed.
Hint Resolve returns_on_table returns_create : probe.

Lemma returns_missing_table identifier : total (W := W) (probe_missing_table routes identifier).
Proof. unfold probe_missing_table. totality. Qed.

Lemma returns_missing_namespace namespace : total (W := W) (probe_missing_namespace routes namespace).
Proof. unfold probe_missing_namespace. totality. Qed.

Lemma returns_listing created : total (W := W) (list_tables routes fixture created).
Proof. unfold list_tables. totality. Qed.

Lemma returns_created identifier id created :
  total (W := W) (load_created_table routes identifier id created).
Proof. unfold load_created_table. totality. Qed.

Lemma returns_pages pages index token tokens identifiers :
  total (W := W) (traverse_pages_from routes fixture pages index token tokens identifiers).
Proof.
  revert index token tokens identifiers. induction pages as [|pages IH]; intros; cbn [traverse_pages_from]; totality.
Qed.

Lemma returns_paginated created : total (W := W) (paginate routes fixture created).
Proof. unfold paginate, traverse_pages. pose proof returns_pages. totality. Qed.

Lemma returns_update loaded : total (W := W) (update_primary routes fixture loaded).
Proof. unfold update_primary. totality. Qed.

Lemma returns_duplicate created : total (W := W) (create_duplicate routes locations fixture created).
Proof. unfold create_duplicate. totality. Qed.

Lemma returns_rename optional updated : total (W := W) (rename_primary routes fixture optional updated).
Proof. unfold rename_primary, skip_optional, attempt_rename. totality. Qed.

Lemma returns_drop loaded : total (W := W) (drop_loaded_sibling routes fixture loaded).
Proof. unfold drop_loaded_sibling, drop_sibling. totality. Qed.

Lemma returns_register optional dropped : total (W := W) (register_sibling routes fixture optional dropped).
Proof. unfold register_sibling, skip_optional, attempt_register. totality. Qed.

Hint Resolve returns_missing_table returns_missing_namespace returns_listing returns_created returns_paginated
  returns_update returns_duplicate returns_rename returns_drop returns_register : probe.

(** The last requests: each candidate dropped without purge, each looked up, then
    the namespace dropped and looked up. *)
Definition table_cleanup_lines (drops tables : list Url) (namespace : Url) : list (Method * Url) :=
  (pair DELETE <$> drops) ++ (pair GET <$> tables) ++ [(DELETE, namespace); (GET, namespace)].

Section Routed.
Context (drops tables : list Url) (namespace : Url).
Context (Hdrops : Forall2 (fun identifier url => table_drop_url routes identifier = Ok url)
                    (candidates fixture) drops).
Context (Htables : Forall2 (fun identifier url =>
           table_route routes (ti_namespace identifier) (ti_name identifier) = Ok url) (candidates fixture) tables).
Context (Hnamespace : namespace_route routes (tf_namespace fixture) = Ok namespace).
Local Notation lines := (table_cleanup_lines drops tables namespace).

Lemma cleanup_sends_lines : exactly (W := W) lines (cleanup_fixture routes fixture).
Proof.
  unfold cleanup_fixture, table_cleanup_lines. apply exactly_bind; [|intros dropped; apply exactly_bind; [|intros verified]].
  - apply exactly_for_each. apply Forall2_fmap_r. eapply Forall2_impl; [exact Hdrops|]. cbn. intros identifier url Hurl.
    eapply exactly_lift; [exact Hurl|]. apply exactly_then_ret, exactly_attempt.
  - apply exactly_for_each. apply Forall2_fmap_r. eapply Forall2_impl; [exact Htables|]. cbn. intros identifier url Hurl.
    apply exactly_then_ret. unfold on_table. eapply exactly_lift; [exact Hurl|]. apply exactly_attempt.
  - exactly_lines.
Qed.

Lemma tables_end_with_cleanup optional facts isolated created :
  ends_with (W := W) lines (exercise_tables routes fixture locations optional facts isolated created).
Proof.
  unfold exercise_tables. do 5 before_last.
  eapply ends_with_bind; [solve [eauto with probe]|solve [eauto with probe]|intros [pagination pages]].
  eapply ends_with_bind; [solve [eauto with probe]|solve [eauto with probe]|intros [update updated]].
  do 4 before_last.
  eapply ends_with_bind; [solve [eauto with probe]|solve [eauto with probe]|intros [drop dropped]].
  before_last. eapply ends_with_exactly, cleanup_sends_lines.
Qed.

Lemma fixture_ends_with_cleanup optional facts isolated :
  ends_with (W := W) lines (exercise_fixture routes fixture locations optional facts isolated).
Proof.
  unfold exercise_fixture. apply ends_with_lift; [by apply usable_collection|]. intros url Hurl.
  eapply ends_with_bind; [apply total_attempt_with|apply (traced_attempt (fun _ _ _ => True)); done|]. intros created.
  cbn zeta. destruct (negb _); [|apply tables_end_with_cleanup].
  eapply ends_with_bind; [apply total_skip_each|apply (traced_skip_each only_get)|]. intros _.
  do 2 before_last. eapply ends_with_exactly, cleanup_sends_lines.
Qed.
End Routed.
End Usable.

(** Once the preflight has shown the namespace absent, the table
    workflow always reaches its cleanup and returns, whatever the catalog answers
    and however many earlier checks failed: its last requests drop each of the
    four candidate tables, look each up, drop the namespace and look it up. *)
Theorem table_probe_always_cleans_up `{!UrlLaws} root locations optional facts (r : OperationRecorder) (w : W) :
  TableCreateLocations_new root = Ok locations ->
  found_absent (preflight_namespace routes (tf_namespace fixture) NAMESPACE_LOAD_CAPABILITY (r, w)).1 = true ->
  exists drops tables namespace,
    Forall2 (fun identifier url => table_drop_url routes identifier = Ok url) (candidates fixture) drops /\
    Forall2 (fun identifier url => table_route routes (ti_namespace identifier) (ti_name identifier) = Ok url)
      (candidates fixture) tables /\
    namespace_route routes (tf_namespace fixture) = Ok namespace /\
    ends_at (table_cleanup_lines drops tables namespace)
      (execute_table_workflow routes fixture locations optional facts) r w.
Proof.
  intros Hnew Habsent.
  destruct (preflight_namespace _ _ _ (r, w)).1 as [preflight|] eqn:Hpre; [|done].
  pose proof (preflight_usable _ _ _ _ _ _ Hpre) as Husable.
  destruct (resolve_all (table_drop_url routes) (candidates fixture)) as [drops Hdrops].
  { by apply returns_table_drop. }
  destruct (resolve_all (fun identifier => table_route routes (ti_namespace identifier) (ti_name identifier))
              (candidates fixture)) as [tables Htables]. { intros. by apply usable_table. }
  pose proof (usable_namespace _ Husable (tf_namespace fixture)) as Hn.
  destruct (namespace_route routes (tf_namespace fixture)) as [namespace|] eqn:Hnamespace; [|done].
  exists drops, tables, namespace. do 3 (split; [done|]).
  unfold ends_at, execute_table_workflow. rewrite lift_assoc.
  eapply (ends_at_bind only_get); [apply traced_preflight_namespace|exact Hpre|]. cbn in *.
  rewrite fact_from_result, Habsent. apply fixture_ends_with_cleanup; try done. intros. by eapply locations_usable.
Qed.
End Fixture.
End Workflow.
