(* ===== verification/CommitProofs.v ===== *)
(** * Properties of the commit probe

    The probe mutates its own fixture only, it ends by removing it, and a run
    whose required facts pass has witnessed the commit protocol: one accepted
    commit, one schema transition, one rejected stale commit. *)

From S2P Require Import Prelude Order RustStr Json ContractValue ContractScenario ContractAdapter ContractProfile.
From S2P Require Import ContractResult Ledger Transport Sanitize Capture Routing Operation ProbePolicy ConfigProbe.
From S2P Require Import TableProtocol CommitProbe ProbeTrace.
Open Scope string_scope.

Section Workflow.
Context `{UrlParser, UrlOps, UrlEdit, FormCodec, JsonParser, Sha256, ClientBuilder} {W : Type}
  `{HttpClient W, FromValue NamespaceResponse, FromValue LoadTableResult}.
Context `{FromValue IcebergErrorResponse}.

(** The requests the probe may send once its namespace is known to be absent. *)
Definition commit_allowed (routes : CatalogRoutes) (fixture : CommitFixture) (method : Method) (url : Url)
    (body : option Value) : Prop :=
  match method with
  | GET => True
  | POST =>
      (namespace_collection routes = Ok url
       /\ body = Some (json_object [("namespace", str_array (namespace_parts (cx_namespace fixture)));
                                    ("properties", json_object [(OWNER_PROPERTY, Str "catalog-bench")])]))
      \/ (table_collection routes (cx_namespace fixture) = Ok url /\ exists location properties,
            body = Some (committed_table_request (cx_table fixture) location initial_schema properties))
      \/ table_route routes (cx_namespace fixture) (cx_table fixture) = Ok url
  | DELETE => table_drop_url routes fixture = Ok url \/ namespace_route routes (cx_namespace fixture) = Ok url
  | HEAD => False
  end.

Section Fixture.
Context (routes : CatalogRoutes) (fixture : CommitFixture).
Local Notation allowed := (commit_allowed routes fixture).

Lemma commit_allowed_get url body : allowed GET url body.
Proof. done. Qed.
Lemma commit_allowed_table url body :
  table_route routes (cx_namespace fixture) (cx_table fixture) = Ok url -> allowed POST url body.
Proof. by do 2 right. Qed.
Hint Resolve commit_allowed_get commit_allowed_table : probe.

(** ** What each step sends *)

Lemma sends_current before : traced (W := W) allowed 2 (commit_current_requirements routes fixture before).
Proof. unfold commit_current_requirements, on_table. trace. Qed.

Lemma sends_schema before : traced (W := W) allowed 2 (commit_schema_transition routes fixture before).
Proof. unfold commit_schema_transition, on_table. trace. Qed.

Lemma sends_stale before : traced (W := W) allowed 2 (reject_stale_requirement routes fixture before).
Proof. unfold reject_stale_requirement, on_table. trace. Qed.

Lemma sends_final expected : traced (W := W) allowed 1 (verify_required_final_state routes fixture expected).
Proof. unfold verify_required_final_state, on_table. trace. Qed.

Lemma sends_replay before key : traced (W := W) allowed 4 (attempt_exact_replay routes fixture before key).
Proof. unfold attempt_exact_replay, commit_under_key, on_table. trace. Qed.

Lemma sends_drift before key : traced (W := W) allowed 2 (reject_idempotency_drift routes fixture before key).
Proof. unfold reject_idempotency_drift, commit_under_key, on_table. trace. Qed.

Lemma sends_cleanup : traced (W := W) allowed 4 (cleanup_fixture routes fixture).
Proof. unfold cleanup_fixture, on_table. trace; [by left|by right]. Qed.
Hint Resolve sends_current sends_schema sends_stale sends_final sends_replay sends_drift sends_cleanup : probe.

Lemma sends_optional before idempotency final :
  traced (W := W) allowed 6 (execute_optional_idempotency routes fixture before idempotency final).
Proof.
  unfold execute_optional_idempotency, skip_optional_commits, skip_drift.
  destruct (negb (Fact.passed _)); [trace|]. destruct (negb _); [trace|].
  destruct (exact_retry_limitation _), (ci_key idempotency) as [key|]; try trace.
  apply (traced_bind _ 4 2); [apply sends_replay|]. intros snapshot.
  destruct (content_binding_limitation _), snapshot; trace.
Qed.
Hint Resolve sends_optional : probe.

Lemma sends_fixture locations : traced (W := W) allowed 3 (create_fixture routes fixture locations).
Proof.
  unfold create_fixture. apply traced_lift_bind. intros url Hurl.
  apply (traced_bind _ 1 2); [by apply traced_attempt; left|]. intros created.
  destruct (validate_namespace_response _ _); [|trace].
  unfold create_and_load_table, on_table. trace. right. left. split; [done|]. by do 2 eexists.
Qed.
Hint Resolve sends_fixture : probe.

Lemma sends_commits idempotency facts isolated initial :
  traced (W := W) allowed 17 (exercise_commits routes fixture idempotency facts isolated initial).
Proof.
  unfold exercise_commits, skip_after_current_commit, skip_after_schema_commit, skip_optional_commits.
  apply (traced_bind _ 2 15); [auto with probe|]. intros [current|]; [|trace].
  apply (traced_bind _ 2 13); [auto with probe|]. intros [schema|]; trace.
Qed.

(** A commit probe mutates nothing but its own fixture: it
    sends at most 21 requests and its transcript lists exactly these in their
    order; unless the preflight found the fixture's namespace absent its only
    request is a GET; and then it creates only that namespace and its one table,
    commits only to that table and deletes only these two. *)
Theorem commit_probe_mutates_only_its_fixture locations idempotency facts (r : OperationRecorder) (w : W) :
  let run := execute_commit_workflow routes fixture locations idempotency facts (r, w) in
  let preflight := preflight_namespace routes (cx_namespace fixture) NAMESPACE_LOAD_CAPABILITY (r, w) in
  exists requests new,
    if found_absent preflight.1
    then run_traced (commit_allowed routes fixture) 21 r w run.2.1 run.2.2 requests new
    else run_traced only_get 1 r w run.2.1 run.2.2 requests new.
Proof.
  cbn zeta. unfold execute_commit_workflow. rewrite lift_assoc. destruct (found_absent _) eqn:Habsent.
  - apply (traced_after _ 1 20); [apply traced_get; [done|]; apply traced_preflight_namespace|].
    intros preflight Hpre. unfold preflight_namespace in Habsent. rewrite Hpre in Habsent. cbn in *.
    rewrite fact_from_result, Habsent. cbn. apply (traced_bind _ 3 17); [apply sends_fixture|].
    intros [initial|error]; [apply sends_commits|]. unfold skip_required_commits, skip_optional_commits. trace.
  - apply (traced_after _ 1 0); [apply traced_preflight_namespace|].
    intros preflight Hpre. unfold preflight_namespace in Habsent. rewrite Hpre in Habsent. cbn in *.
    rewrite fact_from_result, Habsent. cbn.
    unfold skip_after_preflight, skip_required_commits, skip_optional_commits, skip_cleanup. trace.
Qed.

(** ** Cleanup *)

Section Usable.
Context (Husable : routes_usable routes) (locations : TableCreateLocations)
  (Hlocations : forall namespace name, is_ok (for_table locations namespace name) = true).
Hint Resolve Husable Hlocations : probe.

Ltac returns := unfold on_table, commit_under_key, skip_optional_commits, skip_drift; totality.

Lemma ends_current before : total (W := W) (commit_current_requirements routes fixture before).
Proof. unfold commit_current_requirements. returns. Qed.
Lemma ends_schema before : total (W := W) (commit_schema_transition routes fixture before).
Proof. unfold commit_schema_transition. returns. Qed.
Lemma ends_stale before : total (W := W) (reject_stale_requirement routes fixture before).
Proof. unfold reject_stale_requirement. returns. Qed.
Lemma ends_final expected : total (W := W) (verify_required_final_state routes fixture expected).
Proof. unfold verify_required_final_state. returns. Qed.
Lemma ends_replay before key : total (W := W) (attempt_exact_replay routes fixture before key).
Proof. unfold attempt_exact_replay. returns. Qed.
Lemma ends_drift before key : total (W := W) (reject_idempotency_drift routes fixture before key).
Proof. unfold reject_idempotency_drift. returns. Qed.
Hint Resolve ends_replay ends_drift : probe.
Lemma ends_optional before idempotency final :
  total (W := W) (execute_optional_idempotency routes fixture before idempotency final).
Proof. unfold execute_optional_idempotency. cbn zeta. returns. Qed.
Lemma ends_fixture : total (W := W) (create_fixture routes fixture locations).
Proof. unfold create_fixture, create_and_load_table. returns. Qed.
Hint Resolve ends_current ends_schema ends_stale ends_final ends_optional ends_fixture sends_fixture
  sends_commits : probe.

Definition commit_cleanup_lines (drop table namespace : Url) : list (Method * Url) :=
  [(DELETE, drop); (GET, table); (DELETE, namespace); (GET, namespace)].

Section Routed.
Context (drop table namespace : Url) (Hdrop : table_drop_url routes fixture = Ok drop)
  (Htable : table_route routes (cx_namespace fixture) (cx_table fixture) = Ok table)
  (Hnamespace : namespace_route routes (cx_namespace fixture) = Ok namespace).
Local Notation lines := (commit_cleanup_lines drop table namespace).

Lemma commit_cleanup_sends : exactly (W := W) lines (cleanup_fixture routes fixture).
Proof. unfold cleanup_fixture, on_table. exactly_lines. Qed.

Lemma cleanup_last {A} (f : result unit string -> A) :
  ends_with (W := W) lines (cleanup ← cleanup_fixture routes fixture; mret (f cleanup)).
Proof. apply ends_with_exactly, commit_cleanup_sends. Qed.

Lemma commits_end_with_cleanup idempotency facts isolated initial :
  ends_with (W := W) lines (exercise_commits routes fixture idempotency facts isolated initial).
Proof.
  unfold exercise_commits.
  eapply ends_with_bind; [auto with probe|auto with probe|intros [current|]].
  - eapply ends_with_bind; [auto with probe|auto with probe|intros [schema|]].
    + do 2 before_last. eapply ends_with_bind; [auto with probe|auto with probe|intros []]. apply cleanup_last.
    + unfold skip_after_schema_commit, skip_optional_commits.
      apply (ends_with_bind only_get 0); [totality|trace|intros _; apply cleanup_last].
  - unfold skip_after_current_commit, skip_optional_commits.
    apply (ends_with_bind only_get 0); [totality|trace|intros _; apply cleanup_last].
Qed.
End Routed.
End Usable.

(** C8: once the preflight has shown the namespace absent, the
    commit workflow always reaches its cleanup and returns, whatever the catalog
    answers and wherever the sequence of commits stopped: its last four requests
    drop the table and the namespace and look both up. *)
Theorem commit_probe_always_cleans_up `{!UrlLaws} root locations idempotency facts (r : OperationRecorder) (w : W) :
  TableCreateLocations_new root = Ok locations ->
  found_absent (preflight_namespace routes (cx_namespace fixture) NAMESPACE_LOAD_CAPABILITY (r, w)).1 = true ->
  exists drop table namespace,
    table_drop_url routes fixture = Ok drop /\
    table_route routes (cx_namespace fixture) (cx_table fixture) = Ok table /\
    namespace_route routes (cx_namespace fixture) = Ok namespace /\
    ends_at (commit_cleanup_lines drop table namespace)
      (execute_commit_workflow routes fixture locations idempotency facts) r w.
Proof.
  intros Hnew Habsent. destruct (preflight_namespace _ _ _ (r, w)).1 as [preflight|] eqn:Hpre; [|done].
  pose proof (preflight_usable _ _ _ _ _ _ Hpre) as Husable.
  assert (Hlocations : forall namespace name, is_ok (for_table locations namespace name) = true)
    by (intros; by eapply locations_usable).
  pose proof (usable_table _ Husable (cx_namespace fixture) (cx_table fixture)) as Ht.
  destruct (table_route _ _ _) as [table|] eqn:Htable; [clear Ht|done].
  pose proof (usable_namespace _ Husable (cx_namespace fixture)) as Hn.
  destruct (namespace_route _ _) as [namespace|] eqn:Hnamespace; [clear Hn|done].
  assert (table_drop_url routes fixture = Ok (url_append_pair table "purgeRequested" "false")) as Hdrop
    by (unfold table_drop_url; by rewrite Htable).
  do 3 eexists. split; [exact Hdrop|]. do 2 (split; [done|]).
  unfold ends_at, execute_commit_workflow. rewrite lift_assoc.
  eapply (ends_at_bind only_get); [apply traced_preflight_namespace|exact Hpre|]. cbn in *.
  rewrite fact_from_result, Habsent. cbn.
  eapply ends_with_bind; [by apply ends_fixture|apply sends_fixture|]. intros [initial|error].
  - by apply commits_end_with_cleanup.
  - apply (ends_with_bind only_get 0); [unfold skip_required_commits; totality|unfold skip_required_commits; trace|].
    intros _. apply (ends_with_bind only_get 0); [unfold skip_optional_commits; totality
                                                 |unfold skip_optional_commits; trace|].
    intros _. by apply cleanup_last.
Qed.

(** ** What a passing run has witnessed *)

Implicit Types s t : OperationRecorder * W.

(** A struct schema with this id and these optional fields: id, name and type. *)
Definition schema_is (schema : TableSchema) (id : Z) (fields : list (Z * string * string)) : Prop :=
  sc_type schema = "struct" /\ sc_schema_id schema = Some id /\
  Forall2 (fun field expected => fd_id field = expected.1.1 /\ fd_name field = expected.1.2 /\
             fd_required field = false /\ fd_type field = Str expected.2) (sc_fields schema) fields.

(** A commit kept the identity of the table and advanced its metadata pointer. *)
Record advanced (before after : TableSnapshot) : Prop := {
  adv_uuid : sn_uuid after = sn_uuid before;
  adv_location : sn_location after = sn_location before;
  adv_pointer : sn_metadata_location after <> sn_metadata_location before;
}.

(** The table the fixture starts from. *)
Record initial_table (requested : option string) (initial : TableSnapshot) : Prop := {
  it_schema : schema_is (sn_schema initial) 0 [(1%Z, "value", "long")];
  it_last_column : sn_last_column_id initial = Some 1%Z;
  it_location : forall location, requested = Some location -> sn_location initial = location;
  it_owner : sn_properties initial !! OWNER_PROPERTY = Some "catalog-bench";
  it_state : sn_properties initial !! STATE_PROPERTY = Some "initial";
}.

(** The commit answered [committed], [before] with one scenario property set, and
    the load after it found that again. *)
Record property_committed (before committed after : TableSnapshot) (property value : string) : Prop := {
  pc_advanced : advanced before after;
  pc_schema : same_schema committed before = true;
  pc_reloaded : snapshot_eqb after committed = true;
  pc_properties : scenario_properties (sn_properties after)
                  = <[property := value]> (scenario_properties (sn_properties before));
}.

(** The commit answered [committed], [before] with schema one. *)
Record schema_committed (before committed after : TableSnapshot) : Prop := {
  sc_advanced : advanced before after;
  sc_schema_one : schema_is (sn_schema after) 1 [(1%Z, "value", "long"); (2%Z, "note", "string")];
  sc_last_column : sn_last_column_id after = Some 2%Z;
  sc_reloaded : snapshot_eqb after committed = true;
  sc_properties : scenario_properties (sn_properties after) = scenario_properties (sn_properties before);
}.

Lemma snapshot_eqb_parts a b :
  snapshot_eqb a b = true ->
  sn_metadata_location a = sn_metadata_location b /\ sn_location a = sn_location b /\ sn_uuid a = sn_uuid b
  /\ sn_last_column_id a = sn_last_column_id b /\ sn_properties a = sn_properties b.
Proof.
  unfold snapshot_eqb. rewrite !andb_true_iff, !String.eqb_eq, !bool_decide_eq_true. tauto.
Qed.

Lemma value_eqb_str v text : value_eqb v (Str text) = true -> v = Str text.
Proof. destruct v; try done. by intros ->%String.eqb_eq. Qed.

Lemma validate_schema_is schema id fields u :
  validate_schema schema id ((fun field => (field.1.1, field.1.2, false, Str field.2)) <$> fields) = Ok u ->
  schema_is schema id fields.
Proof.
  unfold validate_schema. intros Hv. inv_ok Hv. apply orb_false_iff in E as [Htype Hid].
  apply negb_false_iff, String.eqb_eq in Htype. apply negb_false_iff, bool_decide_eq_true in Hid.
  split; [done|]. split; [done|]. clear Hv Hid Htype.
  apply negb_false_iff, Nat.eqb_eq in E0. rewrite length_fmap in E0. revert fields E0 E1.
  induction (sc_fields schema) as [|field rest IH]; intros [|expected fields] Hlen; try done.
  cbn [fmap list_fmap zip zip_with find fst snd]. destruct (field_matches _ _) eqn:Hmatch; [|done]. cbn [negb].
  intros Hrest. constructor; [|apply IH; [by injection Hlen|done]].
  unfold field_matches in Hmatch. rewrite !andb_true_iff in Hmatch.
  destruct Hmatch as [[[Hid Hname] Hrequired] Htype]. apply Z.eqb_eq in Hid. apply String.eqb_eq in Hname.
  apply eqb_prop in Hrequired. by apply value_eqb_str in Htype.
Qed.

Lemma schema_is_eqb a b id fields : schema_eqb a b = true -> schema_is b id fields -> schema_is a id fields.
Proof.
  unfold schema_eqb, schema_is. rewrite !andb_true_iff, String.eqb_eq, bool_decide_eq_true.
  intros [[-> ->] Hfields] (? & ? & Hb). do 2 (split; [done|]). revert Hfields fields Hb.
  generalize (sc_fields b). induction (sc_fields a) as [|field rest IH]; intros [|other k]; try done.
  change (list_eqb field_eqb (field :: rest) (other :: k)) with (field_eqb field other && list_eqb field_eqb rest k).
  rewrite andb_true_iff. unfold field_eqb at 1. rewrite !andb_true_iff, Z.eqb_eq, String.eqb_eq.
  intros [[[[Hid Hname] Hrequired] Htype] Hrest] fields Hb.
  inversion Hb as [|? expected ? fields' (? & ? & Hr & Ht) Hk]; subst. constructor; [|by eapply IH].
  apply eqb_prop in Hrequired. rewrite Ht in Htype. apply value_eqb_str in Htype.
  repeat split; congruence.
Qed.

Lemma schema_is_reloaded after committed id fields :
  snapshot_eqb after committed = true -> schema_is (sn_schema committed) id fields -> schema_is (sn_schema after) id fields.
Proof. unfold snapshot_eqb. rewrite !andb_true_iff. intros Heq. apply schema_is_eqb. tauto. Qed.

Lemma schema_one_ok snapshot u :
  validate_schema_one snapshot = Ok u ->
  schema_is (sn_schema snapshot) 1 [(1%Z, "value", "long"); (2%Z, "note", "string")] /\
  sn_last_column_id snapshot = Some 2%Z.
Proof.
  unfold validate_schema_one. intros Hv. destruct (negb _) eqn:Hlast; [done|].
  apply negb_false_iff, bool_decide_eq_true in Hlast. split; [|done]. by eapply validate_schema_is.
Qed.

Lemma advanced_ok before after u :
  validate_identity_and_pointer_transition before after = Ok u -> advanced before after.
Proof.
  unfold validate_identity_and_pointer_transition. intros Hv. inv_ok Hv.
  split; [by apply String.eqb_eq, negb_false_iff|by apply String.eqb_eq, negb_false_iff|by apply String.eqb_neq].
Qed.

(** A reload answers the committed snapshot again. *)
Lemma reloaded_ok expected reload snapshot :
  reloaded expected reload = Ok snapshot ->
  parse_table_snapshot reload 200 = Ok snapshot /\ snapshot_eqb snapshot expected = true.
Proof. unfold reloaded, validate_exact_snapshot. intros Hr. inv_ok Hr. by simplify_eq. Qed.

Lemma advanced_reload before committed after :
  advanced before committed -> snapshot_eqb after committed = true -> advanced before after.
Proof. intros [] (? & ? & ? & _)%snapshot_eqb_parts. split; congruence. Qed.

Lemma property_transition_ok before commit reload property value after :
  validate_property_transition before commit reload property value = Ok after ->
  exists committed, parse_table_snapshot commit 200 = Ok committed /\ parse_table_snapshot reload 200 = Ok after /\
    property_committed before committed after property value.
Proof.
  unfold validate_property_transition, properties_set. intros Hv. inv_ok Hv. apply reloaded_ok in Hv as [Hparse Heq].
  brust in *. pose proof (advanced_reload _ _ _ (advanced_ok _ _ _ E0) Heq) as Hadv.
  destruct (snapshot_eqb_parts _ _ Heq) as (_ & _ & _ & _ & Hp). exists a. do 2 (split; [done|]).
  split; [done|done|done|]. by rewrite Hp.
Qed.

Lemma schema_transition_ok before commit reload after :
  validate_schema_transition before commit reload = Ok after ->
  exists committed, parse_table_snapshot commit 200 = Ok committed /\ parse_table_snapshot reload 200 = Ok after /\
    schema_committed before committed after.
Proof.
  unfold validate_schema_transition. intros Hv. inv_ok Hv. apply reloaded_ok in Hv as [Hparse Heq].
  brust in *. pose proof (advanced_reload _ _ _ (advanced_ok _ _ _ E0) Heq) as Hadv.
  destruct (schema_one_ok _ _ E1) as [Hschema Hlast].
  destruct (snapshot_eqb_parts _ _ Heq) as (_ & _ & _ & Hl & Hp). exists a. do 2 (split; [done|]).
  split; [done|by eapply schema_is_reloaded|by rewrite Hl|done|by rewrite Hp].
Qed.

Lemma initial_snapshot_ok snapshot location created :
  validate_initial_snapshot snapshot location = Ok created ->
  created = snapshot /\ schema_is (sn_schema created) 0 [(1%Z, "value", "long")] /\
  sn_last_column_id created = Some 1%Z /\
  (forall requested, location = Some requested -> sn_location created = requested) /\
  sn_properties created !! OWNER_PROPERTY = Some "catalog-bench" /\
  sn_properties created !! STATE_PROPERTY = Some "initial".
Proof.
  unfold validate_initial_snapshot, property_is. intros Hv.
  destruct (validate_schema_zero snapshot) as [[]|] eqn:Hschema; [|done]. case_bool_decide; [|done]. cbn in Hv.
  assert (Hfind : forall found, (if find (fun expected : string * string => negb (bool_decide
                       (sn_properties snapshot !! expected.1 = Some expected.2)))
                     [(OWNER_PROPERTY, "catalog-bench"); (STATE_PROPERTY, "initial")] is Some (key, _)
                   then Err ("initial metadata does not preserve property `" +:+ key +:+ "`")
                   else Ok snapshot) = Ok found ->
            found = snapshot /\ sn_properties snapshot !! OWNER_PROPERTY = Some "catalog-bench"
            /\ sn_properties snapshot !! STATE_PROPERTY = Some "initial").
  { intros found. cbn. by repeat case_bool_decide; cbn; intros; simplify_eq. }
  assert (created = snapshot /\ (forall requested, location = Some requested -> sn_location snapshot = requested)
          /\ sn_properties snapshot !! OWNER_PROPERTY = Some "catalog-bench"
          /\ sn_properties snapshot !! STATE_PROPERTY = Some "initial") as (-> & ? & ? & ?).
  { destruct location as [location|]; [|by apply Hfind in Hv as (-> & ? & ?)].
    destruct (sn_location snapshot =? location) eqn:Hlocation; [|done]. apply String.eqb_eq in Hlocation.
    apply Hfind in Hv as (-> & ? & ?). split; [done|]. split; [|done]. by intros ? [= <-]. }
  split; [done|]. split; [by eapply validate_schema_is|done].
Qed.

Lemma final_state_ok expected load u :
  validate_final_state expected load = Ok u ->
  exists loaded, parse_table_snapshot load 200 = Ok loaded /\ snapshot_eqb loaded expected = true /\
    schema_is (sn_schema loaded) 1 [(1%Z, "value", "long"); (2%Z, "note", "string")] /\
    sn_properties loaded !! STATE_PROPERTY = Some "requirement-accepted" /\
    sn_properties loaded !! STALE_PROPERTY = None.
Proof.
  unfold validate_final_state, property_is. intros Hv. inv_ok Hv. brust in *.
  apply reloaded_ok in E as [Hparse Heq]. destruct (schema_one_ok _ _ E0) as [Hschema _].
  exists a. repeat split; try done; try apply Hschema. by apply eq_None_not_Some.
Qed.

Lemma fact_pass_ok r : Fact.from_result r = Fact.Pass -> r = Ok tt.
Proof. by destruct r as [[]|]. Qed.

Lemma unit_result_ok {A} (r : result A string) u : unit_result r = Ok u -> exists a, r = Ok a.
Proof. destruct r as [a|]; [by exists a|done]. Qed.

Lemma all_results_two a b u : all_results [a; b] = Ok u -> a = Ok tt /\ b = Ok tt.
Proof. by destruct a as [[]|], b as [[]|]. Qed.

(** The fixture's table was created and then loaded: [initial] is what the catalog
    answered to the load, and it is what it answered to the creation. *)
Definition table_created (locations : TableCreateLocations) s (initial : TableSnapshot) s' : Prop :=
  exists url namespace s1 requested table_url create s2 load created,
    namespace_collection routes = Ok url /\
    exchange (attempt "create-namespace" (Some NAMESPACE_CREATE_CAPABILITY) POST url
      (Some (json_object [("namespace", str_array (namespace_parts (cx_namespace fixture)));
                          ("properties", json_object [(OWNER_PROPERTY, Str "catalog-bench")])]))) s namespace s1 /\
    validate_namespace_response namespace (cx_namespace fixture) = Ok tt /\
    for_table locations (cx_namespace fixture) (cx_table fixture) = Ok requested /\
    table_collection routes (cx_namespace fixture) = Ok table_url /\
    exchange (attempt "create-table" (Some CREATE_CAPABILITY) POST table_url
      (Some (committed_table_request (cx_table fixture) requested initial_schema
        {[ OWNER_PROPERTY := "catalog-bench"; STATE_PROPERTY := "initial" ]}))) s1 create s2 /\
    parse_table_snapshot create 200 = Ok created /\
    exchange (on_table routes fixture "load-initial-table" LOAD_CAPABILITY GET None) s2 load s' /\
    parse_table_snapshot load 200 = Ok initial /\ snapshot_eqb initial created = true /\
    initial_table requested initial.

Lemma fixture_initial locations s initial s' :
  exchange (create_fixture routes fixture locations) s (Ok initial) s' -> table_created locations s initial s'.
Proof.
  unfold create_fixture. intros (url & Hurl & Hrun)%exchange_lift.
  apply exchange_bind in Hrun as (namespace & s1 & Hnamespace & Hrun).
  destruct (validate_namespace_response _ _) as [[]|] eqn:Hvalid.
  2: { apply exchange_bind in Hrun as (? & ? & _ & Hrun). by apply exchange_ret in Hrun as [? _]. }
  unfold create_and_load_table in Hrun. apply exchange_lift in Hrun as (requested & Hrequested & Hrun).
  apply exchange_lift in Hrun as (table_url & Htable & Hrun).
  apply exchange_bind in Hrun as (create & s2 & Hcreate & Hrun).
  apply exchange_bind in Hrun as (load & s3 & Hload & Hrun). apply exchange_ret in Hrun as [Hrun ->].
  destruct (parse_table_snapshot create 200) as [snapshot|] eqn:Hparse; [|done]. cbn in Hrun.
  destruct (validate_initial_snapshot snapshot requested) as [created|] eqn:Hinitial; [|done]. cbn in Hrun.
  apply initial_snapshot_ok in Hinitial as (-> & Hschema & Hlast & Hlocation & Howner & Hstate).
  apply reloaded_ok in Hrun as [Hloaded Heq].
  destruct (snapshot_eqb_parts _ _ Heq) as (_ & Hl & _ & Hc & Hp).
  exists url, namespace, s1, requested, table_url, create, s2, load, snapshot. repeat (split; [done|]).
  split; [by eapply schema_is_reloaded|by rewrite Hc|by rewrite Hl|by rewrite Hp|by rewrite Hp].
Qed.

(** A commit and the load after it, with the snapshots the catalog answered. *)
Definition commit_answered (id reload_id : string) (body : Value) s (committed after : TableSnapshot) s' : Prop :=
  exists commit s1 reload,
    exchange (on_table routes fixture id UPDATE_CAPABILITY POST (Some body)) s commit s1 /\
    parse_table_snapshot commit 200 = Ok committed /\
    exchange (on_table routes fixture reload_id LOAD_CAPABILITY GET None) s1 reload s' /\
    parse_table_snapshot reload 200 = Ok after.

(** The commit of a property under the current requirements. *)
Definition requirements_accepted s (before after : TableSnapshot) s' : Prop :=
  exists committed,
    commit_answered "commit-current-requirements" "reload-after-current-requirements"
      (property_commit_body (sn_uuid before) 0 STATE_PROPERTY "requirement-accepted") s committed after s' /\
    property_committed before committed after STATE_PROPERTY "requirement-accepted".

Lemma current_step before s after s' :
  exchange (commit_current_requirements routes fixture before) s (Ok after) s' ->
  requirements_accepted s before after s'.
Proof.
  intros (commit & s1 & Hcommit & Hrun)%exchange_bind. apply exchange_bind in Hrun as (reload & s2 & Hreload & Hrun).
  apply exchange_ret in Hrun as [Hrun ->]. apply property_transition_ok in Hrun as (committed & ? & ? & ?).
  exists committed. split; [by exists commit, s1, reload|done].
Qed.

(** The commit of schema one. *)
Definition schema_advanced s (before after : TableSnapshot) s' : Prop :=
  exists committed,
    commit_answered "commit-schema-transition" "reload-after-schema-transition" (schema_commit_body (sn_uuid before))
      s committed after s' /\
    schema_committed before committed after.

Lemma schema_step before s after s' :
  exchange (commit_schema_transition routes fixture before) s (Ok after) s' -> schema_advanced s before after s'.
Proof.
  intros (commit & s1 & Hcommit & Hrun)%exchange_bind. apply exchange_bind in Hrun as (reload & s2 & Hreload & Hrun).
  apply exchange_ret in Hrun as [Hrun ->]. apply schema_transition_ok in Hrun as (committed & ? & ? & ?).
  exists committed. split; [by exists commit, s1, reload|done].
Qed.

(** The stale commit was refused and left the table as it was. *)
Definition stale_refused s (before : TableSnapshot) s' : Prop :=
  exists commit s1 reload loaded,
    exchange (on_table routes fixture "commit-stale-requirement" UPDATE_CAPABILITY POST
      (Some (property_commit_body (sn_uuid before) 0 STALE_PROPERTY "must-not-apply"))) s commit s1 /\
    validate_error_response commit 409 "CommitFailedException" = Ok tt /\
    exchange (on_table routes fixture "reload-after-stale-requirement" LOAD_CAPABILITY GET None) s1 reload s' /\
    parse_table_snapshot reload 200 = Ok loaded /\ snapshot_eqb loaded before = true.

Lemma stale_step before s s' :
  exchange (reject_stale_requirement routes fixture before) s (Ok tt) s' -> stale_refused s before s'.
Proof.
  intros (commit & s1 & Hcommit & Hrun)%exchange_bind.
  apply exchange_bind in Hrun as (reload & s2 & Hreload & Hrun). apply exchange_ret in Hrun as [Hrun ->].
  apply all_results_two in Hrun as [Hrefused (loaded & Hloaded)%unit_result_ok].
  apply reloaded_ok in Hloaded as [? ?]. by exists commit, s1, reload, loaded.
Qed.

(** The final load shows the accepted commit and the new schema, and nothing of
    the refused one. *)
Definition final_observed s (expected : TableSnapshot) s' : Prop :=
  exists load loaded,
    exchange (on_table routes fixture "load-required-final-state" LOAD_CAPABILITY GET None) s load s' /\
    parse_table_snapshot load 200 = Ok loaded /\ snapshot_eqb loaded expected = true /\
    schema_is (sn_schema loaded) 1 [(1%Z, "value", "long"); (2%Z, "note", "string")] /\
    sn_properties loaded !! STATE_PROPERTY = Some "requirement-accepted" /\
    sn_properties loaded !! STALE_PROPERTY = None.

Lemma final_step expected s s' :
  exchange (verify_required_final_state routes fixture expected) s (Ok tt) s' -> final_observed s expected s'.
Proof.
  intros (load & s1 & Hload & Hrun)%exchange_bind. apply exchange_ret in Hrun as [Hrun ->].
  apply final_state_ok in Hrun as (loaded & Hrun). by exists load, loaded.
Qed.

(** The table and the namespace were dropped, and the look-ups after that found
    neither. *)
Definition fixture_removed s s' : Prop :=
  exists drop_url drop s1 table s2 url dropped s3 namespace,
    table_drop_url routes fixture = Ok drop_url /\
    exchange (attempt "cleanup-drop-table" (Some DROP_CAPABILITY) DELETE drop_url None) s drop s1 /\
    validate_status drop [204; 404]%Z = Ok tt /\
    exchange (on_table routes fixture "cleanup-verify-table-absent" LOAD_CAPABILITY GET None) s1 table s2 /\
    validate_error_response table 404 "NoSuchTableException" = Ok tt /\
    namespace_route routes (cx_namespace fixture) = Ok url /\
    exchange (attempt "cleanup-drop-namespace" (Some NAMESPACE_DROP_CAPABILITY) DELETE url None) s2 dropped s3 /\
    validate_status dropped [204; 404]%Z = Ok tt /\
    exchange (attempt "cleanup-verify-namespace-absent" (Some NAMESPACE_LOAD_CAPABILITY) GET url None)
      s3 namespace s' /\
    validate_error_response namespace 404 "NoSuchNamespaceException" = Ok tt.

Lemma cleanup_step s s' : exchange (cleanup_fixture routes fixture) s (Ok tt) s' -> fixture_removed s s'.
Proof.
  intros (drop_url & Hdrop_url & Hrun)%exchange_lift. apply exchange_bind in Hrun as (drop & s1 & Hdrop & Hrun).
  apply exchange_bind in Hrun as (table & s2 & Htable & Hrun). apply exchange_lift in Hrun as (url & Hurl & Hrun).
  apply exchange_bind in Hrun as (dropped & s3 & Hdropped & Hrun).
  apply exchange_bind in Hrun as (namespace & s4 & Hnamespace & Hrun). apply exchange_ret in Hrun as [Hrun ->].
  exists drop_url, drop, s1, table, s2, url, dropped, s3, namespace.
  destruct (validate_status drop _) as [[]|] eqn:?; [|done].
  destruct (validate_error_response table _ _) as [[]|] eqn:?; [|done].
  destruct (validate_status dropped _) as [[]|] eqn:?; [|done].
  by destruct (validate_error_response namespace _ _) as [[]|] eqn:?.
Qed.

(** The commits on the fixture's table, one after the other, and the cleanup. *)
Definition commits_answered (idempotency : CommitIdempotency) s (initial : TableSnapshot) s' : Prop :=
  exists current schema t1 t2 t3 t4 optional t5,
    requirements_accepted s initial current t1 /\ schema_advanced t1 current schema t2 /\
    stale_refused t2 schema t3 /\ final_observed t3 schema t4 /\
    exchange (execute_optional_idempotency routes fixture schema idempotency Fact.Pass) t4 optional t5 /\
    fixture_removed t5 s'.

Lemma commits_witnessed idempotency facts isolated initial s facts' s' :
  exchange (exercise_commits routes fixture idempotency facts isolated initial) s facts' s' ->
  cmf_stale_rejection facts' = Fact.Pass -> cmf_required_final facts' = Fact.Pass ->
  cmf_cleanup facts' = Fact.Pass -> commits_answered idempotency s initial s'.
Proof.
  unfold exercise_commits. intros Hrun Hstale Hfinal Hcleanup.
  apply exchange_bind in Hrun as ([current|e1] & t1 & Hcurrent & Hrun).
  2: { do 2 apply exchange_bind in Hrun as (? & ? & _ & Hrun). by apply exchange_ret in Hrun as [<- _]. }
  apply exchange_bind in Hrun as ([schema|e2] & t2 & Hschema & Hrun).
  2: { do 2 apply exchange_bind in Hrun as (? & ? & _ & Hrun). by apply exchange_ret in Hrun as [<- _]. }
  apply exchange_bind in Hrun as (stale & t3 & Hs & Hrun). apply exchange_bind in Hrun as (final & t4 & Hf & Hrun).
  apply exchange_bind in Hrun as ([replay binding] & t5 & Hoptional & Hrun).
  apply exchange_bind in Hrun as (cleanup & t6 & Hc & Hrun). apply exchange_ret in Hrun as [<- ->].
  cbn in Hstale, Hfinal, Hcleanup. apply fact_pass_ok in Hstale as ->, Hfinal as ->, Hcleanup as ->.
  exists current, schema, t1, t2, t3, t4, (replay, binding), t5.
  split; [by apply current_step|]. split; [by apply schema_step|]. split; [by apply stale_step|].
  split; [by apply final_step|]. split; [exact Hoptional|by apply cleanup_step].
Qed.

(** What the catalog did in a run whose facts pass: the whole run from its first
    state to its last, request by request. *)
Definition protocol_witnessed (locations : TableCreateLocations) (idempotency : CommitIdempotency) s s' : Prop :=
  exists url preflight s1 initial s2,
    namespace_route routes (cx_namespace fixture) = Ok url /\
    exchange (attempt "preflight-namespace" (Some NAMESPACE_LOAD_CAPABILITY) GET url None) s preflight s1 /\
    validate_error_response preflight 404 "NoSuchNamespaceException" = Ok tt /\
    table_created locations s1 initial s2 /\ commits_answered idempotency s2 initial s'.

Lemma commit_run_witnessed locations idempotency facts s facts' s' :
  exchange (execute_commit_workflow routes fixture locations idempotency facts) s facts' s' ->
  cmf_stale_rejection facts' = Fact.Pass -> cmf_required_final facts' = Fact.Pass ->
  cmf_cleanup facts' = Fact.Pass -> protocol_witnessed locations idempotency s s'.
Proof.
  unfold execute_commit_workflow. intros Hrun Hstale Hfinal Hcleanup.
  apply exchange_lift in Hrun as (url & Hurl & Hrun).
  apply exchange_bind in Hrun as (preflight & s1 & Hpreflight & Hrun). rewrite fact_from_result in Hrun.
  destruct (validate_error_response preflight _ _) as [[]|] eqn:Habsent; cbn [is_ok negb] in Hrun.
  2: { apply exchange_bind in Hrun as (? & ? & _ & Hrun). by apply exchange_ret in Hrun as [<- _]. }
  apply exchange_bind in Hrun as ([initial|e] & s2 & Hinitial & Hrun).
  - exists url, preflight, s1, initial, s2. do 3 (split; [done|]).
    split; [by apply fixture_initial|by eapply commits_witnessed].
  - do 3 apply exchange_bind in Hrun as (? & ? & _ & Hrun). by apply exchange_ret in Hrun as [<- _].
Qed.

(** Two requests under one key with one body, of which the second changed nothing. *)
Definition replay_applied_once s (before after : TableSnapshot) (key : IdempotencyKey) s' : Prop :=
  let body := property_commit_body (sn_uuid before) 1 RETRY_PROPERTY "accepted-once" in
  exists first s1 reload s2 replay s3 replay_reload committed loaded replayed,
    exchange (commit_under_key routes fixture "commit-idempotent-first" EXACT_RETRY_CAPABILITY body key)
      s first s1 /\ parse_table_snapshot first 200 = Ok committed /\
    exchange (on_table routes fixture "reload-after-idempotent-first" EXACT_RETRY_CAPABILITY GET None) s1 reload s2 /\
    reloaded committed reload = Ok loaded /\
    exchange (commit_under_key routes fixture "commit-idempotent-replay" EXACT_RETRY_CAPABILITY body key)
      s2 replay s3 /\ reloaded committed replay = Ok replayed /\
    exchange (on_table routes fixture "reload-after-idempotent-replay" EXACT_RETRY_CAPABILITY GET None)
      s3 replay_reload s' /\ reloaded committed replay_reload = Ok after /\
    property_committed before committed after RETRY_PROPERTY "accepted-once".

Lemma replay_step before key s after s' :
  exchange (attempt_exact_replay routes fixture before key) s (Ok after) s' -> replay_applied_once s before after key s'.
Proof.
  unfold attempt_exact_replay. intros (first & s1 & Hfirst & Hrun)%exchange_bind.
  apply exchange_bind in Hrun as (reload & s2 & Hreload & Hrun).
  apply exchange_bind in Hrun as (replay & s3 & Hreplay & Hrun).
  apply exchange_bind in Hrun as (replay_reload & s4 & Hreplay_reload & Hrun). apply exchange_ret in Hrun as [Hrun ->].
  unfold validate_exact_replay, properties_set in Hrun. inv_ok Hrun. brust in *.
  destruct E1 as [Hschema Hproperties].
  apply reloaded_ok in Hrun as Hlast. destruct Hlast as [_ Heq].
  destruct (snapshot_eqb_parts _ _ Heq) as (_ & _ & _ & _ & Hp).
  eexists first, s1, reload, s2, replay, s3, replay_reload, a, _, _. do 8 (split; [done|]).
  split; [by eapply advanced_reload, Heq; eapply advanced_ok|done|done|by rewrite Hp].
Qed.

(** The key reused for another body was refused and left the table as it was. *)
Definition drift_refused s (before : TableSnapshot) (key : IdempotencyKey) s' : Prop :=
  exists drift s1 reload type loaded,
    exchange (commit_under_key routes fixture "commit-idempotency-drift" CONTENT_BINDING_CAPABILITY
      (property_commit_body (sn_uuid before) 1 RETRY_PROPERTY "drifted-must-not-apply") key) s drift s1 /\
    validate_spec_error_response drift 409 = Ok type /\
    exchange (on_table routes fixture "reload-after-idempotency-drift" CONTENT_BINDING_CAPABILITY GET None)
      s1 reload s' /\ reloaded before reload = Ok loaded.

Lemma drift_step before key s s' :
  exchange (reject_idempotency_drift routes fixture before key) s (Ok tt) s' -> drift_refused s before key s'.
Proof.
  intros (drift & s1 & Hdrift & Hrun)%exchange_bind.
  apply exchange_bind in Hrun as (reload & s2 & Hreload & Hrun). apply exchange_ret in Hrun as [Hrun ->].
  apply all_results_two in Hrun as [(type & Htype)%unit_result_ok (loaded & Hloaded)%unit_result_ok].
  by exists drift, s1, reload, type, loaded.
Qed.

(** C10: the exact-replay fact passes only when the catalog
    advertised idempotency keys, the required final state was verified, a key was
    generated, and a commit sent twice under that key with the same body was
    applied exactly once; the content-binding fact passes only when, after that,
    the key was refused for a different body with a spec-shaped 409 and the table
    was unchanged. *)
Theorem passing_idempotency_facts_mean_one_application before idempotency final s replay binding s' :
  execute_optional_idempotency routes fixture before idempotency final s = (Ok (replay, binding), s') ->
  (replay = Fact.Pass ->
     final = Fact.Pass /\ IdempotencyAdvertisement.advertised (ci_advertisement idempotency) = true /\
     exact_retry_limitation (ci_operations idempotency) = None /\
     exists key after t, ci_key idempotency = Some key /\ replay_applied_once s before after key t /\
       (binding = Fact.Pass -> content_binding_limitation (ci_operations idempotency) = None
                               /\ drift_refused t after key s')) /\
  (binding = Fact.Pass -> replay = Fact.Pass).
Proof.
  assert (Hskip : forall reason (a b c d : Fact.t) s s',
            exchange (_ ← skip_optional_commits (W := W) reason; mret (a, b)) s (c, d) s' -> c = a /\ d = b).
  { intros *. intros (? & ? & _ & Hrun)%exchange_bind. by apply exchange_ret in Hrun as [[= -> ->] _]. }
  intros Hrun. change (exchange (execute_optional_idempotency routes fixture before idempotency final)
                         s (replay, binding) s') in Hrun. revert Hrun.
  unfold execute_optional_idempotency. destruct final; cbn [Fact.passed negb].
  2-3: intros [-> ->]%Hskip; done.
  destruct (IdempotencyAdvertisement.advertised _) eqn:Hadvertised; cbn [negb].
  2: intros [-> ->]%Hskip; done.
  destruct (exact_retry_limitation _), (ci_key idempotency) as [key|] eqn:Hkey.
  1-2, 4: intros [-> ->]%Hskip; done.
  intros ([after|error] & t & Hreplay & Hrun)%exchange_bind.
  - apply replay_step in Hreplay. destruct (content_binding_limitation _).
    + apply exchange_bind in Hrun as (? & ? & _ & Hrun). apply exchange_ret in Hrun as [[= <- <-] _]. split; [|done].
      intros _. do 3 (split; [done|]). by exists key, after, t.
    + apply exchange_bind in Hrun as ([[]|] & ? & Hdrift & Hrun); apply exchange_ret in Hrun as [[= <- <-] ->];
        [apply drift_step in Hdrift|]; (split; [|done]).
      all: intros _; do 3 (split; [done|]); exists key, after, t; do 2 (split; [done|]); done.
  - destruct (content_binding_limitation _).
    all: apply exchange_bind in Hrun as (? & ? & _ & Hrun); by apply exchange_ret in Hrun as [[= <- <-] _].
Qed.
End Fixture.
End Workflow.
