(* ===== verification/ProbeVerdicts.v ===== *)
(** * What a passing probe means

    From the classification of a transcript back through the scenario policy and
    the facts to what the catalog was seen to do. *)

From S2P Require Import Prelude Order RustStr Json ContractValue ContractScenario ContractAdapter ContractProfile.
From S2P Require Import ContractResult Ledger Transport Sanitize Capture Routing Connection Operation ProbePolicy.
From S2P Require Import ConfigProbe TableProtocol CommitProbe ProbeTrace CommitProofs.
Open Scope string_scope.

(** ** From a required assertion to its fact *)

(** Members of equal objects are equal. *)
Lemma member_eqb key v w a :
  value_eqb v w = true -> value_get key v = Some a -> exists b, value_get key w = Some b /\ value_eqb a b = true.
Proof.
  destruct v as [| | | | |l], w as [| | | | |k]; try done. cbn.
  revert k. induction l as [|[x c] l IH]; intros [|[y d] k]; try done. cbn.
  rewrite !andb_true_iff. intros [[->%String.eqb_eq Hcd] Hl]. destruct (key =? y).
  - intros [= <-]. by exists d.
  - by apply IH.
Qed.

Lemma member_str_eqb key v w s t :
  value_eqb v w = true -> value_get key v = Some (Str s) -> value_get key w = Some (Str t) -> s = t.
Proof. intros Heq Hs Ht. destruct (member_eqb _ _ _ _ Heq Hs) as (b & Hb & Hsb). simplify_eq. by apply String.eqb_eq. Qed.

Lemma custom_check_inv check name configuration :
  value_eqb (check_to_value check) (custom_check name configuration) = true ->
  exists configuration', check = Custom ("querygraph/catalog-bench/" +:+ name) configuration'.
Proof.
  intros Heq.
  assert (Hkind : value_get "kind" (custom_check name configuration) = Some (Str "custom")) by reflexivity.
  assert (Hname : value_get "name" (custom_check name configuration)
                  = Some (Str ("querygraph/catalog-bench/" +:+ name))) by reflexivity.
  destruct check as [| | | | | | |other configuration']; try by pose proof (member_str_eqb "kind" _ _ _ _ Heq eq_refl Hkind).
  pose proof (member_str_eqb "name" _ _ _ _ Heq eq_refl Hname) as ->. by eexists.
Qed.

(** The assertions of a scenario, judged by a function of their checks. *)
Definition judged (judge : AssertionCheck -> AssertionOutcome) (scenario : Scenario) : list ProbeAssertion :=
  (fun assertion => {| pa_assertion := spec_id assertion; pa_required := spec_required assertion;
                       pa_outcome := judge (spec_check assertion) |}) <$> scen_assertions scenario.

(** Under a policy, a passing classification decides every required assertion
    of the policy. *)
Lemma required_check policy scenario judge expected :
  policy_holds policy scenario -> expected ∈ pp_assertions policy -> ea_required expected = true ->
  passed_required_assertions (judged judge scenario) = true ->
  exists check, value_eqb (check_to_value check) (ea_check expected) = true /\ judge check = AssertionPass.
Proof.
  intros Hpolicy Hin Hrequired Hpassed. apply ph_assertions in Hpolicy.
  apply list_elem_of_lookup in Hin as [i Hi]. destruct (Forall2_lookup_r _ _ _ _ _ Hpolicy Hi) as (a & Ha & Hm).
  unfold assertion_matches in Hm. rewrite !andb_true_iff in Hm. destruct Hm as [[[_ _] Hreq] Hcheck].
  exists (spec_check a). split; [done|].
  apply eqb_prop in Hreq.
  assert (Hassertion : (fun assertion => {| pa_assertion := spec_id assertion; pa_required := spec_required assertion;
            pa_outcome := judge (spec_check assertion) |}) a ∈ judged judge scenario)
    by (apply list_elem_of_fmap; exists a; split; [done|by eapply list_elem_of_lookup_2]).
  pose proof (proj1 (passed_required_spec _) Hpassed _ Hassertion) as Hp. cbn in Hp.
  rewrite Hreq in Hp. by apply Hp.
Qed.

Lemma required_custom policy scenario judge expected name configuration :
  policy_holds policy scenario -> expected ∈ pp_assertions policy -> ea_required expected = true ->
  ea_check expected = custom_check name configuration ->
  passed_required_assertions (judged judge scenario) = true ->
  exists configuration', judge (Custom ("querygraph/catalog-bench/" +:+ name) configuration') = AssertionPass.
Proof.
  intros Hpolicy Hin Hrequired Hcheck Hpassed.
  destruct (required_check _ _ _ _ Hpolicy Hin Hrequired Hpassed) as (check & Heq & Hjudge).
  rewrite Hcheck in Heq. destruct (custom_check_inv _ _ _ Heq) as [configuration' ->]. by exists configuration'.
Qed.

(** ** The config probe *)

Lemma http_status_inv check :
  value_eqb (check_to_value check)
    (json_object [("kind", Str "http-status"); ("allowed", Array [Num (PosInt 200)])]) = true ->
  check = HttpStatus [200]%Z.
Proof.
  set (expected := json_object _). intros Heq.
  assert (Hkind : value_get "kind" expected = Some (Str "http-status")) by reflexivity.
  destruct check as [allowed| | | | | | |]; try by pose proof (member_str_eqb "kind" _ _ _ _ Heq eq_refl Hkind).
  destruct (member_eqb "allowed" _ _ _ Heq eq_refl) as (b & Hb & Hallowed).
  assert (b = Array [Num (PosInt 200)]) as -> by (vm_compute in Hb; by injection Hb as <-).
  destruct allowed as [|n [|m allowed]]; cbn in Hallowed; [done| |by destruct (n =? 200)%Z].
  rewrite andb_true_r in Hallowed. by apply Z.eqb_eq in Hallowed as ->.
Qed.

(** Facts of which every required assertion passes. *)
Record config_facts_pass (facts : ProbeFacts) : Prop := {
  cfp_authentication : pft_authentication_ready facts = true;
  cfp_status : pft_response_status facts = Some 200%Z;
  cfp_media : exists media_type, pft_response_content_type facts = Some media_type
                                 /\ is_json_media_type media_type = true;
  cfp_shape : pft_config_map_shape facts = Some (Ok tt);
  cfp_prefix : match pft_prefix facts with
               | PrefixResolution.Failed _ | PrefixResolution.NotEvaluated _ => False
               | _ => True
               end;
  cfp_endpoints : pft_endpoints facts = EndpointAdvertisement.Omitted
                  \/ exists endpoints, pft_endpoints facts = EndpointAdvertisement.Explicit endpoints;
  cfp_sanitized : pft_transcript_sanitized facts = true;
}.

Lemma boolean_outcome_pass value failure : boolean_outcome value failure = AssertionPass -> value = true.
Proof. by destruct value. Qed.

Lemma config_required scenario facts :
  policy_holds config_policy scenario ->
  passed_required_assertions (config_evaluate_assertions scenario facts) = true -> config_facts_pass facts.
Proof.
  intros Hpolicy Hpassed. set (judge check := evaluate_assertion check facts).
  change (config_evaluate_assertions scenario facts) with (judged judge scenario) in Hpassed.
  assert (Hrow : forall i name configuration expected,
            config_assertions !! i = Some expected -> ea_required expected = true ->
            ea_check expected = custom_check name configuration ->
            evaluate_custom ("querygraph/catalog-bench/" +:+ name) facts = AssertionPass).
  { intros i name configuration expected Hi Hr Hc.
    by destruct (required_custom config_policy scenario judge expected name configuration Hpolicy
      (list_elem_of_lookup_2 _ _ _ Hi) Hr Hc Hpassed). }
  split.
  - by eapply boolean_outcome_pass, (Hrow 0%nat _ _ _ eq_refl eq_refl eq_refl).
  - destruct (required_check config_policy scenario judge _ Hpolicy
      (list_elem_of_lookup_2 config_assertions 1 _ eq_refl) eq_refl Hpassed) as (check & Heq & Hjudge).
    apply http_status_inv in Heq as ->. cbn in Hjudge. destruct (pft_response_status facts) as [status|]; [|done].
    rewrite orb_false_r in Hjudge. destruct (status =? 200)%Z eqn:Hs; [|done]. by apply Z.eqb_eq in Hs as ->.
  - assert (Hmedia : media_type_outcome facts = AssertionPass) by exact (Hrow 2%nat _ _ _ eq_refl eq_refl eq_refl).
    unfold media_type_outcome in Hmedia. destruct (pft_response_content_type facts) as [media_type|].
    + exists media_type. by destruct (is_json_media_type media_type).
    + by destruct (pft_response_status facts).
  - pose proof (Hrow 3%nat _ _ _ eq_refl eq_refl eq_refl) as Hshape. revert Hshape. lazy -[pft_config_map_shape].
    by destruct (pft_config_map_shape facts) as [[[]|]|].
  - pose proof (Hrow 4%nat _ _ _ eq_refl eq_refl eq_refl) as Hprefix. revert Hprefix. lazy -[pft_prefix].
    by destruct (pft_prefix facts).
  - pose proof (Hrow 5%nat _ _ _ eq_refl eq_refl eq_refl) as Hends. revert Hends. lazy -[pft_endpoints].
    destruct (pft_endpoints facts); try done; [by right; eexists|by left].
  - by eapply boolean_outcome_pass, (Hrow 6%nat _ _ _ eq_refl eq_refl eq_refl).
Qed.

(** What the published evidence of a passing config probe shows. *)
Definition config_shown (adapter : CatalogAdapter) (transcript : ConfigTranscript) : Prop :=
  exists response body media_type,
    cft_response transcript = Some response /\ rs_status response = 200%Z /\
    rs_headers response !! "content-type" = Some media_type /\ is_json_media_type media_type = true /\
    rs_body response = SanitizedResponseBody.Json body /\
    validate_config_map_shape body = Ok tt /\
    cft_prefix transcript = resolve_prefix adapter (Some body) /\
    match cft_prefix transcript with
    | PrefixResolution.Failed _ | PrefixResolution.NotEvaluated _ => False
    | _ => True
    end /\
    (cft_endpoints transcript = EndpointAdvertisement.Omitted
     \/ exists endpoints, cft_endpoints transcript = EndpointAdvertisement.Explicit endpoints).

Section ConfigVerdict.
Context `{UrlParser, UrlOps, UrlEdit, FormCodec, JsonParser, Sha256, ClientBuilder} {W : Type}
  `{HttpClient W, ToVecPretty ConfigEvidence}.

Lemma config_concluded profile scenario digests target request authentication captured transcript :
  policy_holds config_policy scenario ->
  conclude_config_probe profile scenario digests target request authentication captured = Ok transcript ->
  cft_classification transcript = ProbeClassification.Pass ->
  at_failure authentication = None /\ config_shown (target_adapter target) transcript.
Proof.
  intros Hpolicy. unfold conclude_config_probe. destruct (encode_evidence _) as [serialized|]; [|done].
  intros [= <-]. cbn [cft_classification]. unfold classify_probe, config_shown.
  cbn [cft_response cft_prefix cft_endpoints].
  destruct (passed_required_assertions _) eqn:Hpassed; [|done]. intros _.
  apply config_required in Hpassed as [Hauth Hstatus (media_type & Hmedia & Hjson) Hshape Hprefix Hends _]; [|done].
  cbn in Hauth, Hstatus, Hmedia, Hshape, Hprefix, Hends. destruct (at_failure authentication); [done|]. split; [done|].
  destruct (cap_response captured) as [response|]; [|done]. cbn in *.
  destruct (response_transcript_json response) as [body|] eqn:Hbody; [|done]. cbn in *.
  exists response, body, media_type. simplify_eq. do 4 (split; [done|]). split; [|done].
  unfold response_transcript_json in Hbody. by destruct (rs_body response); simplify_eq.
Qed.

(** *** The map check judges the redacted body *)

Definition is_string (value : Value) : Prop := exists text, value = Str text.

(** A map of strings, except that under a secret-like name it may hold anything. *)
Definition strings_outside_secrets (properties : list (string * Value)) : Prop :=
  forall name value, (name, value) ∈ properties -> is_sensitive_key name = true \/ is_string value.

(** The private bodies whose maps the probe accepts. *)
Definition config_maps_accepted (private : Value) : Prop :=
  exists members, private = Object members /\
    forall field, field ∈ ["defaults"; "overrides"] ->
      exists properties, member field members = Some (Object properties) /\ strings_outside_secrets properties.

Lemma sanitized_is_string sensitive p value :
  is_some (as_str (sanitize_value sensitive p value).1) = true <-> is_string value.
Proof.
  destruct value; cbn; try (split; [done|by intros [? [=]]]).
  split; [by eexists|by destruct (redact_string _ _)].
Qed.

Lemma sanitized_map_strings sensitive p properties :
  find (fun entry : string * Value => is_none (as_str entry.2)) (map (sanitize_member sensitive p) properties).*1 = None
  <-> strings_outside_secrets properties.
Proof.
  unfold strings_outside_secrets. induction properties as [|[name value] rest IH].
  { split; [intros _ ? ? Hin; by apply elem_of_nil in Hin|done]. }
  cbn [map fmap list_fmap find].
  assert (Hhead : is_none (as_str (sanitize_member sensitive p (name, value)).1.2) = false
                  <-> is_sensitive_key name = true \/ is_string value).
  { unfold sanitize_member. cbn [fst snd]. destruct (is_sensitive_key name); cbn [fst snd]; [by split; [left|]|].
    rewrite <-(sanitized_is_string sensitive (p +:+ "/" +:+ escape_pointer_segment name)).
    destruct (as_str _); cbn; split; try done; [by right|by intros []]. }
  destruct (is_none _).
  - split; [done|]. intros Hall. enough (true = false) by done. apply Hhead, Hall. by left.
  - rewrite IH. split; [|intros Hall other v Hin; apply Hall; by right].
    intros Hall other v [[= -> ->]|Hin]%elem_of_cons; [by apply Hhead|by apply Hall].
Qed.

Lemma sanitized_member sensitive p members field :
  is_sensitive_key field = false ->
  member field (map (sanitize_member sensitive p) members).*1
  = (fun value => (sanitize_value sensitive (p +:+ "/" +:+ escape_pointer_segment field) value).1) <$> member field members.
Proof.
  intros Hfield. induction members as [|[name value] rest IH]; [done|].
  cbn [map fmap list_fmap member]. destruct (sanitize_member sensitive p (name, value)) as [[name' value'] reds] eqn:Hm.
  pose proof (sanitize_member_key sensitive p (name, value)) as Hname. rewrite Hm in Hname. cbn in Hname. subst name'.
  cbn [fst]. destruct (String.eqb_spec field name) as [<-|]; [|exact IH].
  unfold sanitize_member in Hm. cbn [fst snd] in Hm. rewrite Hfield in Hm. by injection Hm as <- <-.
Qed.

Lemma sanitized_config_map sensitive p members field :
  is_sensitive_key field = false ->
  validate_config_map (map (sanitize_member sensitive p) members).*1 field = Ok tt <->
  exists properties, member field members = Some (Object properties) /\ strings_outside_secrets properties.
Proof.
  intros Hfield. unfold validate_config_map. rewrite sanitized_member by done.
  destruct (member field members) as [value|]; cbn [fmap option_fmap option_map ok_or]; [|by split; [|intros (? & ? & _)]].
  destruct value as [| | |text| |properties].
  4: { cbn. destruct (redact_string _ _); cbn; by split; [|intros (? & ? & _)]. }
  1-4: by split; [|intros (? & ? & _)].
  rewrite sanitize_object. cbn [fst as_object ok_or].
  pose proof (sanitized_map_strings sensitive (p +:+ "/" +:+ escape_pointer_segment field) properties) as Hstrings.
  destruct (find _ _) as [[name value]|].
  - split; [done|]. intros (other & [= <-] & Hall). by apply Hstrings in Hall.
  - split; [|done]. intros _. exists properties. split; [done|]. by apply Hstrings.
Qed.

Lemma sanitized_config_maps private sensitive :
  validate_config_map_shape (sj_value (sanitize_json private sensitive)) = Ok tt <-> config_maps_accepted private.
Proof.
  unfold validate_config_map_shape, sanitize_json, config_maps_accepted. cbn [sj_value].
  destruct private as [| | |text| |members].
  4: { cbn. destruct (redact_string _ _); cbn; by split; [|intros (? & ? & _)]. }
  1-4: by split; [|intros (? & ? & _)].
  rewrite sanitize_object. cbn [fst as_object ok_or].
  pose proof (sanitized_config_map sensitive "" members "defaults" eq_refl) as Hdefaults.
  pose proof (sanitized_config_map sensitive "" members "overrides" eq_refl) as Hoverrides.
  destruct (validate_config_map _ "defaults") as [[]|]; split.
  - intros Hv. exists members. split; [done|]. intros field [->|[->|Hin]%elem_of_cons]%elem_of_cons.
    + by apply Hdefaults.
    + by apply Hoverrides.
    + by apply elem_of_nil in Hin.
  - intros (other & [= <-] & Hall). apply Hoverrides, Hall. right. by left.
  - done.
  - intros (other & [= <-] & Hall). apply Hdefaults, Hall. by left.
Qed.

(** The config request, sent in the world [w], was answered with these bytes. *)
Definition config_answered (url : Url) (authentication : AuthenticationAttempt) (w : W) (bytes : list Ascii.ascii) (w' : W)
  : Prop :=
  exists response observed,
    http_send {| hr_method := GET; hr_url := url; hr_accept := "application/json";
                 hr_bearer_token := at_bearer_token authentication; hr_idempotency_key := None;
                 hr_body := None; hr_form := None |} w = (Ok response, w') /\
    read_limited_body response MAXIMUM_RESPONSE_BYTES = Ok (Complete bytes observed).

(** The JSON of a captured response is that of the private body, sanitised. *)
Lemma captured_json url authentication w captured w' body :
  execute_json_request GET url (at_bearer_token authentication) None (at_sensitive_values authentication) "config" w
    = (captured, w') ->
  cap_response captured ≫= response_transcript_json = Some body ->
  exists bytes private, config_answered url authentication w bytes w' /\ json_from_slice bytes = Some private /\
    body = sj_value (sanitize_json private (at_sensitive_values authentication)).
Proof.
  unfold execute_json_request, execute_json_request_with_context, config_answered. cbn [rcap_idempotency_key fmap option_fmap].
  destruct (http_send _ w) as [[response|error] w1] eqn:Hsend; intros [= <- <-]; [|done].
  unfold capture_response. destruct (read_limited_body _ _) as [[bytes observed|observed]|] eqn:Hread; [|done..].
  unfold capture_complete_body. destruct bytes as [|byte bytes]; [done|].
  destruct (json_from_slice (byte :: bytes)) as [private|] eqn:Hjson; [|done]. intros [= <-].
  exists (byte :: bytes), private. split; [|done]. by exists response, observed.
Qed.

(** The published evaluation of the map check. *)
Lemma config_shape_evaluated scenario facts :
  policy_holds config_policy scenario ->
  exists evaluation, config_evaluate_assertions scenario facts !! 3%nat = Some evaluation /\
    pa_assertion evaluation = "config-map-shape" /\
    (pa_outcome evaluation = AssertionPass <-> pft_config_map_shape facts = Some (Ok tt)).
Proof.
  intros Hpolicy. apply ph_assertions in Hpolicy.
  destruct (Forall2_lookup_r _ _ _ _ _ Hpolicy (eq_refl : config_assertions !! 3%nat = Some _)) as (a & Ha & Hm).
  unfold assertion_matches in Hm. rewrite !andb_true_iff in Hm. destruct Hm as [[[Hid _] _] Hcheck].
  apply String.eqb_eq in Hid. destruct (custom_check_inv _ _ _ Hcheck) as [configuration Hcustom].
  eexists. split; [unfold config_evaluate_assertions; by rewrite list_lookup_fmap, Ha|]. split; [exact Hid|].
  cbn [pa_outcome]. rewrite Hcustom. lazy -[pft_config_map_shape].
  destruct (pft_config_map_shape facts) as [[[]|]|]; split; done.
Qed.

(** C13: the config probe judges the redacted body, so its map check is blind to
    what stands under a secret-like name: whenever a JSON body was captured, it is
    the catalog's own answer to the probe's request after sanitising, the prefix
    and the endpoints are read from it, and the published evaluation of
    config-map-shape passes if and only if the private answer is an object whose
    [defaults] and [overrides] are objects that hold strings under every name that
    is not secret-like, whatever they hold under the others. *)
Theorem config_map_check_is_blind_to_secret_members profile scenario catalog digests getenv (w w' : W) transcript body :
  run_config_probe profile scenario catalog digests getenv w = (Ok transcript, w') ->
  cft_response transcript ≫= response_transcript_json = Some body ->
  exists target url authentication w1 bytes private evaluation,
    resolve_target profile scenario catalog = Ok target /\ config_url (target_adapter target) = Ok url /\
    acquire_authentication (target_adapter target) getenv w = (authentication, w1) /\
    config_answered url authentication w1 bytes w' /\ json_from_slice bytes = Some private /\
    body = sj_value (sanitize_json private (at_sensitive_values authentication)) /\
    cft_prefix transcript = resolve_prefix (target_adapter target) (Some body) /\
    cft_endpoints transcript = inspect_endpoints (Some body) /\
    cft_assertions transcript !! 3%nat = Some evaluation /\ pa_assertion evaluation = "config-map-shape" /\
    (pa_outcome evaluation = AssertionPass <-> config_maps_accepted private).
Proof.
  unfold run_config_probe.
  destruct (validate_invocation config_policy profile scenario catalog) as [[]|] eqn:Hinvocation; [|done].
  destruct (resolve_target _ _ _) as [target|]; [|done]. destruct (config_url _) as [url|] eqn:Hurl; [|done].
  apply validate_invocation_holds in Hinvocation as Hpolicy.
  destruct (first_required_limitation _ _) as [limitation|]; [by intros [= <- _]|].
  destruct (http_client _); [|done]. destruct (acquire_authentication _ _ _) as [authentication w1] eqn:Hauth.
  destruct (match at_bearer_token authentication with Some _ => _ | None => _ end) as [captured w2] eqn:Hcaptured.
  intros [= Hconclude <-] Hbody. unfold conclude_config_probe in Hconclude.
  destruct (encode_evidence _) as [serialized|]; [|done]. injection Hconclude as <-. cbn in Hbody.
  assert (exists bytes private, config_answered url authentication w1 bytes w2 /\ json_from_slice bytes = Some private /\
            body = sj_value (sanitize_json private (at_sensitive_values authentication)))
    as (bytes & private & Hanswered & Hjson & Hsanitized).
  { destruct (at_bearer_token authentication) as [token|] eqn:Htoken; [|destruct (at_failure authentication)].
    1, 3: rewrite <-Htoken in Hcaptured; by eapply captured_json.
    by injection Hcaptured as <- <-. }
  rewrite Hbody. cbn [fmap option_fmap option_map].
  match goal with |- context [config_evaluate_assertions scenario ?facts] =>
    destruct (config_shape_evaluated scenario facts Hpolicy) as (evaluation & Hevaluation & Hname & Houtcome) end.
  exists target, url, authentication, w1, bytes, private, evaluation. do 8 (split; [done|]).
  split; [exact Hevaluation|]. split; [done|]. rewrite Houtcome. cbn [pft_config_map_shape].
  rewrite Hsanitized. pose proof (sanitized_config_maps private (at_sensitive_values authentication)) as Hmaps.
  split; [intros [= Hpass]; by apply Hmaps|intros Haccepted; by apply Hmaps in Haccepted as ->].
Qed.

(** A config probe that reports Pass has published the evidence
    of it: a response with status 200 and a JSON media type whose (sanitised) body
    holds the required maps of strings, a resolved prefix computed from that body,
    and an endpoint advertisement that is omitted or well formed; and
    authentication had not failed. *)
Theorem passing_config_probe_shows_its_evidence profile scenario catalog digests getenv (w w' : W) transcript :
  run_config_probe profile scenario catalog digests getenv w = (Ok transcript, w') ->
  cft_classification transcript = ProbeClassification.Pass ->
  exists target, resolve_target profile scenario catalog = Ok target /\
    at_failure (acquire_authentication (target_adapter target) getenv w).1 = None /\
    config_shown (target_adapter target) transcript.
Proof.
  unfold run_config_probe.
  destruct (validate_invocation config_policy profile scenario catalog) as [[]|] eqn:Hinvocation; [|done].
  destruct (resolve_target _ _ _) as [target|]; [|done]. destruct (config_url _) as [url|]; [|done].
  apply validate_invocation_holds in Hinvocation as Hpolicy.
  destruct (first_required_limitation _ _) as [limitation|]; [by intros [= <- _]|].
  destruct (http_client _); [|done]. destruct (acquire_authentication _ _ _) as [authentication w1] eqn:Hauth.
  destruct (match at_bearer_token authentication with Some _ => _ | None => _ end) as [captured w2].
  intros [= Hconclude <-] Hpass. exists target. split; [done|]. rewrite Hauth.
  by eapply config_concluded.
Qed.
End ConfigVerdict.

(** ** The commit probe *)

Lemma commit_required scenario facts :
  policy_holds commit_policy scenario ->
  passed_required_assertions (commit_evaluate_assertions scenario facts) = true ->
  cmf_config_routing facts = Fact.Pass /\ cmf_stale_rejection facts = Fact.Pass /\
  cmf_required_final facts = Fact.Pass /\ cmf_cleanup facts = Fact.Pass /\
  cmf_transcript_sanitized facts = Fact.Pass.
Proof.
  intros Hpolicy Hpassed.
  assert (Hrow : forall i name configuration expected,
            commit_assertions !! i = Some expected -> ea_required expected = true ->
            ea_check expected = custom_check name configuration ->
            exists configuration', commit_fact facts (Custom ("querygraph/catalog-bench/" +:+ name) configuration')
                                   = Fact.Pass).
  { intros i name configuration expected Hi Hr Hc.
    destruct (required_custom commit_policy scenario (fun check => Fact.outcome (commit_fact facts check)) expected
      name configuration Hpolicy (list_elem_of_lookup_2 _ _ _ Hi) Hr Hc Hpassed) as [configuration' Hpass].
    exists configuration'. by destruct (commit_fact _ _). }
  destruct (Hrow 1%nat _ _ _ eq_refl eq_refl eq_refl) as [? H1].
  destruct (Hrow 6%nat _ _ _ eq_refl eq_refl eq_refl) as [? H6].
  destruct (Hrow 10%nat _ _ _ eq_refl eq_refl eq_refl) as [? H10].
  destruct (Hrow 11%nat _ _ _ eq_refl eq_refl eq_refl) as [? H11].
  destruct (Hrow 12%nat _ _ _ eq_refl eq_refl eq_refl) as [? H12].
  done.
Qed.

Section Probe.
Context `{UrlParser, UrlOps, UrlEdit, FormCodec, JsonParser, Sha256, ClientBuilder} {W : Type}
  `{HttpClient W, FromValue NamespaceResponse, FromValue LoadTableResult}.
Context `{FromValue IcebergErrorResponse, ToVecPretty CommitEvidence, UuidSource W}.

(** The facts behind a passing transcript. *)
Lemma concluded_pass profile scenario digests target fixture routing idempotency facts recorder transcript :
  policy_holds commit_policy scenario ->
  conclude_commit_probe profile scenario digests target fixture routing idempotency facts recorder = Ok transcript ->
  cmt_classification transcript = ProbeClassification.Pass ->
  cmf_stale_rejection facts = Fact.Pass /\ cmf_required_final facts = Fact.Pass /\
  cmf_cleanup facts = Fact.Pass /\ sa_raw_secrets_persisted (cmt_sanitization transcript) = false /\
  rec_operations recorder = cmt_operations transcript.
Proof.
  intros Hpolicy. unfold conclude_commit_probe. destruct (encode_evidence _) as [serialized|]; [|done].
  intros [= <-]. cbn [cmt_classification cmt_sanitization cmt_operations]. unfold classify_probe.
  destruct (passed_required_assertions _) eqn:Hpassed; [|done]. intros _.
  apply commit_required in Hpassed as (_ & Hs & Hf & Hc & Ht); [|done]. do 3 (split; [done|]).
  cbn in *. by destruct (contains_sensitive_value _ _).
Qed.

(** The run of a commit probe from the world [w] of its invocation to [w']: routing
    was negotiated, the routes follow from it, and between the state that left and
    the end of the run the catalog kept the protocol, request by request; the
    transcript publishes exactly the operations recorded on the way. *)
Definition commit_run_kept (adapter : CatalogAdapter) (fixture : CommitFixture) (getenv : string -> option string)
    (w : W) (operations : list OperationTranscript) (w' : W) : Prop :=
  exists locations routing w1 key w0 codec routes recorder,
    TableCreateLocations_new (ep_create_table_location (ad_endpoint adapter)) = Ok locations /\
    negotiate_routing adapter getenv w = (Ok routing, w1) /\ neg_config_routing routing = Fact.Pass /\
    generate_idempotency_key (inspect_routing routing) (commit_optional_operations adapter) w1 = (key, w0) /\
    neg_codec routing = Some codec /\
    CatalogRoutes_new adapter (rct_prefix (neg_config routing)) codec "commit" = Ok routes /\
    protocol_witnessed routes fixture locations
      {| ci_advertisement := inspect_routing routing; ci_operations := commit_optional_operations adapter;
         ci_key := key |}
      (new_recorder (at_bearer_token (neg_authentication routing)) (at_sensitive_values (neg_authentication routing)), w0)
      (recorder, w') /\
    rec_operations recorder = operations.

Lemma behavior_witnessed adapter routing fixture locations idempotency facts s facts' s' :
  exchange (W := W) (commit_behavior adapter routing fixture locations idempotency facts) s facts' s' ->
  cmf_stale_rejection facts' = Fact.Pass -> cmf_required_final facts' = Fact.Pass ->
  cmf_cleanup facts' = Fact.Pass ->
  exists codec routes, neg_codec routing = Some codec /\
    CatalogRoutes_new adapter (rct_prefix (neg_config routing)) codec "commit" = Ok routes /\
    cmf_config_routing facts = Fact.Pass /\ protocol_witnessed routes fixture locations idempotency s s'.
Proof.
  unfold commit_behavior.
  destruct (neg_codec routing) as [codec|]; cbn [ok_or]; [|by intros [<- _]%exchange_ret].
  destruct (CatalogRoutes_new _ _ _ _) as [routes|] eqn:Hroutes; [|by intros [<- _]%exchange_ret].
  destruct (cmf_config_routing facts); [|by intros [<- _]%exchange_ret..].
  intros Hrun Hs Hf Hc. exists codec, routes. do 3 (split; [done|]). by eapply commit_run_witnessed.
Qed.

(** C7: a commit probe that reports Pass has witnessed the commit protocol on the
    catalog. In the answers to the run's own requests, one after the other: the
    namespace was absent; a table was created, and its load answered schema zero and
    the requested location and properties; a commit was answered with the same
    identity and schema, a new metadata pointer and exactly one of the scenario's
    properties set, and the load after it with that snapshot again; a second commit
    moved the pointer again and installed schema one; a commit under the outdated
    schema id was answered with 409 CommitFailedException and changed nothing; the
    final load answered exactly that state; and after the drops the look-ups found
    neither the table nor the namespace. The published operations are those of this
    run, and the serialised evidence was found free of the credentials, the token and
    the idempotency key. *)
Theorem passing_commit_probe_witnessed_the_protocol profile scenario catalog fixture_id digests getenv
    (w w' : W) transcript :
  run_commit_probe profile scenario catalog fixture_id digests getenv w = (Ok transcript, w') ->
  cmt_classification transcript = ProbeClassification.Pass ->
  (exists target fixture, resolve_target profile scenario catalog = Ok target /\
     CommitFixture_new catalog fixture_id = Ok fixture /\
     commit_run_kept (target_adapter target) fixture getenv w (cmt_operations transcript) w') /\
  sa_raw_secrets_persisted (cmt_sanitization transcript) = false.
Proof.
  unfold run_commit_probe, prepare_commit_probe.
  destruct (validate_invocation commit_policy profile scenario catalog) as [[]|] eqn:Hinvocation; [|done].
  destruct (resolve_target _ _ _) as [target|]; [|done].
  destruct (CommitFixture_new catalog fixture_id) as [fixture|]; [|done].
  apply validate_invocation_holds in Hinvocation as Hpolicy.
  destruct (first_required_limitation _ _) as [limitation|].
  { unfold unsupported_commit_probe. destruct (not_evaluated_config _ _); [|done]. by intros [= <- _]. }
  destruct (TableCreateLocations_new _) as [locations|] eqn:Hlocations; [|done]. destruct (http_client _); [|done].
  destruct (negotiate_routing _ _ _) as [[routing|] w1] eqn:Hrouting; [|done].
  destruct (generate_idempotency_key _ _ _) as [key w0] eqn:Hkey.
  destruct (commit_behavior _ _ _ _ _ _ _) as [[facts|] [recorder w3]] eqn:Hbehavior; [|done].
  intros [= Hconclude <-] Hpass.
  destruct (concluded_pass _ _ _ _ _ _ _ _ _ _ Hpolicy Hconclude Hpass) as (Hs & Hf & Hc & Hsecrets & Hoperations).
  split; [|done]. exists target, fixture. do 2 (split; [done|]).
  destruct (behavior_witnessed _ _ _ _ _ _ _ _ _ Hbehavior Hs Hf Hc) as (codec & routes & ? & ? & ? & ?).
  by exists locations, routing, w1, key, w0, codec, routes, recorder.
Qed.
End Probe.
