(* ===== verification/Protocol.v ===== *)
(** * Catalog operations of a contention round (crates/commit/src/protocol.rs)

    [CatalogPort] is the interface a round drives; [RestCatalogFixture] is its
    implementation over a [CatalogSession], with every route bound before
    anything is measured. The derived decoder of a load-table response is the
    class [LoadTableDecoder]. *)

From S2P Require Import Prelude RustStr Json ContractAdapter Ledger Policy Transport.
From Stdlib Require Import Ascii.
Open Scope string_scope.

(** ** Data *)

Record TableSnapshot := {
  ts_format_version : Z;
  ts_table_uuid : string;
  ts_location : string;
  ts_metadata_location : string;
  ts_properties : gmap string string;
}.

Inductive ResourcePresence := Present | Absent.
#[export] Instance ResourcePresence_eq_dec : EqDecision ResourcePresence.
Proof. solve_decision. Defined.

Record PresenceObservation := { po_http_status : Z; po_presence : ResourcePresence }.
Record MutationReceipt := { mr_http_status : Z }.

Module CatalogFailureKind.
Inductive t :=
  Timeout | Transport | ResponseRead | ResponseTooLarge | UnexpectedHttp | MalformedResponse | Harness.
End CatalogFailureKind.

Record CatalogFailure := {
  cf_kind : CatalogFailureKind.t;
  cf_http_status : option Z;
  cf_detail : string;
}.

Definition unexpected_http (status : Z) (operation : string) (allowed : list Z) : CatalogFailure := {|
  cf_kind := CatalogFailureKind.UnexpectedHttp;
  cf_http_status := Some status;
  cf_detail := operation +:+ " returned HTTP " +:+ display status +:+ "; expected "
               +:+ debug_list allowed;
|}.

Definition malformed (status : Z) (operation detail : string) : CatalogFailure := {|
  cf_kind := CatalogFailureKind.MalformedResponse;
  cf_http_status := Some status;
  cf_detail := operation +:+ " response is invalid: " +:+ detail;
|}.

Definition request_error (self : CatalogFailure) : SanitizedRequestError := {|
  error_kind :=
    match cf_kind self with
    | CatalogFailureKind.Timeout => Timeout
    | CatalogFailureKind.Transport | CatalogFailureKind.ResponseRead => Transport
    | CatalogFailureKind.ResponseTooLarge => ResponseTooLarge
    | CatalogFailureKind.UnexpectedHttp => UnexpectedHttp
    | CatalogFailureKind.MalformedResponse => MalformedResponse
    | CatalogFailureKind.Harness => Harness
    end;
  error_http_status := cf_http_status self;
|}.

(** [From<CatalogRequestFailure> for CatalogFailure]. *)
Definition catalog_failure (failure : CatalogRequestFailure) : CatalogFailure := {|
  cf_kind :=
    match rf_kind failure with
    | CatalogRequestFailureKind.Timeout => CatalogFailureKind.Timeout
    | CatalogRequestFailureKind.Transport => CatalogFailureKind.Transport
    | CatalogRequestFailureKind.ResponseRead => CatalogFailureKind.ResponseRead
    | CatalogRequestFailureKind.ResponseTooLarge => CatalogFailureKind.ResponseTooLarge
    | CatalogRequestFailureKind.MalformedJson => CatalogFailureKind.MalformedResponse
    | CatalogRequestFailureKind.BodyNotRetained => CatalogFailureKind.Harness
    end;
  cf_http_status := rf_http_status failure;
  cf_detail := rf_detail failure;
|}.

(** ** The port *)

(** The effects of one fixture on the world [W] of catalog and object store. *)
Class CatalogPort (P W : Type) := {
  requested_location : P -> option string;
  namespace_presence : P -> W -> result PresenceObservation CatalogFailure * W;
  table_presence : P -> W -> result PresenceObservation CatalogFailure * W;
  create_namespace : P -> W -> result MutationReceipt CatalogFailure * W;
  create_table : P -> W -> result TableSnapshot CatalogFailure * W;
  load_table : P -> W -> result TableSnapshot CatalogFailure * W;
  commit : P -> string -> string -> RequestIdentity -> W -> RequestOutcome * W;
  drop_table_without_purge : P -> W -> result MutationReceipt CatalogFailure * W;
  drop_namespace : P -> W -> result MutationReceipt CatalogFailure * W;
}.

(** ** Request bodies *)

Definition create_table_request (name : string) (location : option string) : Value :=
  let delete_after_commit := if CONTENTION_METADATA_DELETE_AFTER_COMMIT then "true" else "false" in
  let previous_versions_max := display CONTENTION_METADATA_PREVIOUS_VERSIONS_MAX in
  let body :=
    [("name", Str name);
     ("schema", json_object
        [("type", Str "struct"); ("schema-id", Num (PosInt 0));
         ("fields", Array [json_object [("id", Num (PosInt 1)); ("name", Str "value");
                                        ("required", Bool false); ("type", Str "long")]])]);
     ("stage-create", Bool false);
     ("properties", json_object
        [("format-version", Str "2"); ("catalog-bench.owner", Str "catalog-bench");
         ("write.metadata.delete-after-commit.enabled", Str delete_after_commit);
         ("write.metadata.previous-versions-max", Str previous_versions_max)])] in
  json_object (body ++ match location with
                       | Some location => [("location", Str location)]
                       | None => []
                       end)%list.

Definition commit_request (table_uuid property request_identity : string) : Value :=
  json_object
    [("requirements", Array [json_object [("type", Str "assert-table-uuid"); ("uuid", Str table_uuid)]]);
     ("updates", Array [json_object [("action", Str "set-properties");
                                     ("updates", json_object [(property, Str request_identity)])]])].

(** ** Responses *)

Record TableMetadata := {
  tm_format_version : Z;
  tm_table_uuid : string;
  tm_location : string;
  tm_properties : gmap string string;
}.
Record LoadTableResult := { lt_metadata_location : option string; lt_metadata : TableMetadata }.

(** [serde_json::from_slice::<LoadTableResult>]. *)
Class LoadTableDecoder := decode_load_table : list ascii -> result LoadTableResult string.

Definition parse_snapshot (response : LoadTableResult) (status : Z) (operation : string)
  : result TableSnapshot CatalogFailure :=
  let metadata := lt_metadata response in
  let? metadata_location := ok_or
      (match lt_metadata_location response with
       | Some value => if blank value then None else Some value
       | None => None
       end) (malformed status operation "missing metadata-location") in
  guard blank (tm_table_uuid metadata) || blank (tm_location metadata)
    or malformed status operation "table UUID and location must be nonempty" in
  guard negb (tm_format_version metadata =? 2)%Z
    or malformed status operation ("format-version is " +:+ display (tm_format_version metadata)
                                   +:+ ", expected 2") in
  Ok {| ts_format_version := tm_format_version metadata;
        ts_table_uuid := tm_table_uuid metadata;
        ts_location := tm_location metadata;
        ts_metadata_location := metadata_location;
        ts_properties := tm_properties metadata |}.

Definition validate_created_snapshot (snapshot : TableSnapshot) (status : Z)
    (requested_location : option string) : result unit CatalogFailure :=
  guard is_some_and (fun location => negb (ts_location snapshot =? location)) requested_location
    or malformed status "create table"
         "returned location differs from the requested shared-store location" in
  Ok tt.

(** ** The REST fixture *)

Record RestCatalog := {
  rc_session : CatalogSession;
  rc_create_table_location_root : option Url;
}.

Record RestCatalogFixture := {
  rf_session : CatalogSession;
  rf_namespace : string;
  rf_table : string;
  rf_namespace_url : Url;
  rf_namespace_collection_url : Url;
  rf_table_collection_url : Url;
  rf_table_url : Url;
  rf_drop_table_url : Url;
  rf_requested_location : option string;
}.

Section Rest.
Context `{UrlParser, UrlOps, LoadTableDecoder} {W : Type} `{HttpClient W}.

Definition RestCatalog_new (session : CatalogSession) (root : option string)
  : result RestCatalog string :=
  match root with
  | None => Ok {| rc_session := session; rc_create_table_location_root := None |}
  | Some location =>
      let? url := map_err (fun _ => "parse adapter create-table location root") (url_parse location) in
      guard url_cannot_be_a_base url
        or "adapter create-table location root cannot contain child table locations" in
      Ok {| rc_session := session; rc_create_table_location_root := Some url |}
  end.

Definition table_location (root : Url) (fixture : ContentionFixture) : result string string :=
  let? popped := ok_or (url_pop_if_empty root)
    "create-table location root cannot contain path segments" in
  let? location := ok_or (url_push_segments popped [fx_namespace fixture; fx_table fixture])
    "create-table location root cannot contain path segments" in
  Ok (url_to_string location).

Definition bind (self : RestCatalog) (fixture : ContentionFixture)
  : result RestCatalogFixture string :=
  let session := rc_session self in
  let routes := session_routes session in
  let? namespace := namespace_single (fx_namespace fixture) in
  let? namespace_url := namespace_route routes namespace in
  let? table_collection_url := table_collection routes namespace in
  let? table_url := table_route routes namespace (fx_table fixture) in
  let drop_table_url := url_append_pair table_url "purgeRequested" "false" in
  let? requested_location :=
    match rc_create_table_location_root self with
    | None => Ok None
    | Some root => result_map Some (table_location root fixture)
    end in
  let? namespace_collection_url := namespace_collection routes in
  Ok {| rf_session := session;
        rf_namespace := fx_namespace fixture;
        rf_table := fx_table fixture;
        rf_namespace_url := namespace_url;
        rf_namespace_collection_url := namespace_collection_url;
        rf_table_collection_url := table_collection_url;
        rf_table_url := table_url;
        rf_drop_table_url := drop_table_url;
        rf_requested_location := requested_location |}.

Definition presence (self : RestCatalogFixture) (url : Url) (operation : string) (w : W)
  : result PresenceObservation CatalogFailure * W :=
  let '(sent, w) := request_json (rf_session self) GET url None Discard w in
  (let? response := map_err catalog_failure sent in
   let status := cr_status response in
   if (status =? 200)%Z then Ok {| po_http_status := status; po_presence := Present |}
   else if (status =? 404)%Z then Ok {| po_http_status := status; po_presence := Absent |}
   else Err (unexpected_http status operation [200; 404]), w).

Definition status_allowed (status : Z) (allowed : list Z) : bool :=
  existsb (Z.eqb status) allowed.

Definition mutation (self : RestCatalogFixture) (method : Method) (url : Url) (body : option Value)
    (operation : string) (allowed : list Z) (w : W) : result MutationReceipt CatalogFailure * W :=
  let '(sent, w) := request_json (rf_session self) method url body Discard w in
  (let? response := map_err catalog_failure sent in
   guard negb (status_allowed (cr_status response) allowed)
     or unexpected_http (cr_status response) operation allowed in
   Ok {| mr_http_status := cr_status response |}, w).

Definition rest_create_namespace (self : RestCatalogFixture) (w : W) :=
  let body := json_object [("namespace", Array [Str (rf_namespace self)]);
                           ("properties", json_object [])] in
  mutation self POST (rf_namespace_collection_url self) (Some body) "create namespace" [200] w.

Definition rest_create_table (self : RestCatalogFixture) (w : W)
  : result TableSnapshot CatalogFailure * W :=
  let body := create_table_request (rf_table self) (rf_requested_location self) in
  let '(sent, w) := request_json (rf_session self) POST (rf_table_collection_url self) (Some body)
                      CaptureJson w in
  (let? response := map_err catalog_failure sent in
   guard negb (status_allowed (cr_status response) [200; 201])
     or unexpected_http (cr_status response) "create table" [200; 201] in
   let? value := map_err catalog_failure (response_json decode_load_table response) in
   let? snapshot := parse_snapshot value (cr_status response) "create table" in
   check? validate_created_snapshot snapshot (cr_status response) (rf_requested_location self) in
   Ok snapshot, w).

Definition rest_load_table (self : RestCatalogFixture) (w : W)
  : result TableSnapshot CatalogFailure * W :=
  let '(sent, w) := request_json (rf_session self) GET (rf_table_url self) None CaptureJson w in
  (let? response := map_err catalog_failure sent in
   guard negb (cr_status response =? 200)%Z
     or unexpected_http (cr_status response) "load table" [200] in
   let? value := map_err catalog_failure (response_json decode_load_table response) in
   parse_snapshot value (cr_status response) "load table", w).

Definition rest_commit (self : RestCatalogFixture) (table_uuid property : string)
    (request_identity : RequestIdentity) (w : W) : RequestOutcome * W :=
  let body := commit_request table_uuid property (expose_for_request request_identity) in
  let '(sent, w) := request_json (rf_session self) POST (rf_table_url self) (Some body) Discard w in
  (match sent with
   | Ok response =>
       if (cr_status response =? 200)%Z then Accepted
       else if (cr_status response =? 409)%Z then Conflict
       else Error {| error_kind := UnexpectedHttp; error_http_status := Some (cr_status response) |}
   | Err failure => Error (request_error (catalog_failure failure))
   end, w).

#[export] Instance RestCatalogPort : CatalogPort RestCatalogFixture W := {|
  requested_location := rf_requested_location;
  namespace_presence self := presence self (rf_namespace_url self) "load namespace";
  table_presence self := presence self (rf_table_url self) "load table";
  create_namespace := rest_create_namespace;
  create_table := rest_create_table;
  load_table := rest_load_table;
  commit := rest_commit;
  drop_table_without_purge self :=
    mutation self DELETE (rf_drop_table_url self) None "drop table without purge" [204; 404];
  drop_namespace self :=
    mutation self DELETE (rf_namespace_url self) None "drop namespace" [204; 404];
|}.
End Rest.

(** ** Properties *)

Section Properties.
Context `{UrlParser, UrlOps, LoadTableDecoder} {W : Type} `{HttpClient W}.

(** The one request a commit sends. *)
Definition commit_http_request (f : RestCatalogFixture) (table_uuid property identity : string)
  : HttpRequest :=
  session_request (rf_session f) POST (rf_table_url f) (Some (commit_request table_uuid property identity)).

Definition received (f : RestCatalogFixture) (sent : result HttpResponse SendError) (status : Z) : Prop :=
  exists response observed, sent = Ok response /\ resp_status response = status /\
    drain_limited_body response (session_maximum_response_bytes (rf_session f))
      = Ok (Complete [] observed).

Lemma drain_retains_nothing response limit bytes observed :
  drain_limited_body response limit = Ok (Complete bytes observed) -> bytes = [].
Proof.
  assert (Hgo : forall chunks o, read_chunks chunks limit false [] o = Ok (Complete bytes observed) ->
    bytes = []).
  { induction chunks as [|[c|e] chunks IH]; intros o Hr; simpl in Hr; [congruence| |done].
    destruct (limit <? _)%Z; [done|]. by eapply IH. }
  unfold drain_limited_body, read_bounded_body. destruct (resp_content_length response).
  - destruct (limit <? _)%Z; [done|]. apply Hgo.
  - apply Hgo.
Qed.

Lemma request_discard_Ok session method url body w response w' :
  request_json session method url body Discard w = (Ok response, w') ->
  exists r observed, http_send (session_request session method url body) w = (Ok r, w') /\
    cr_status response = resp_status r /\
    drain_limited_body r (session_maximum_response_bytes session) = Ok (Complete [] observed).
Proof.
  unfold request_json. destruct (http_send _ w) as [[r|e] w1] eqn:Hs; [|done].
  unfold collect_response.
  destruct (drain_limited_body r _) as [[bytes observed|]|] eqn:Hd; simpl; try done.
  intros [= <- <-]. exists r, observed.
  pose proof (drain_retains_nothing _ _ _ _ Hd) as ->. done.
Qed.

(** A commit sends exactly one request, the assert-UUID
    set-properties commit of its identity, and is counted as accepted exactly
    when a complete response with status 200 came back, as a conflict exactly
    when one with status 409 did, and as an error in every other case. *)
Theorem commit_outcome_is_the_response (f : RestCatalogFixture) (table_uuid property : string)
    (identity : RequestIdentity) (w w' : W) (outcome : RequestOutcome) :
  commit (P := RestCatalogFixture) f table_uuid property identity w = (outcome, w') ->
  exists sent, http_send (commit_http_request f table_uuid property
                            (expose_for_request identity)) w = (sent, w') /\
    (outcome = Accepted <-> received f sent 200) /\
    (outcome = Conflict <-> received f sent 409).
Proof.
  cbn [commit RestCatalogPort]. unfold rest_commit.
  destruct (request_json _ _ _ _ _ w) as [sent w1] eqn:Hreq. intros [= <- <-].
  destruct sent as [response|failure].
  - apply request_discard_Ok in Hreq as (r & observed & Hs & Hstatus & Hd). exists (Ok r).
    split; [exact Hs|]. rewrite Hstatus. unfold received.
    destruct (Z.eqb_spec (resp_status r) 200); [|destruct (Z.eqb_spec (resp_status r) 409)];
      split; split; try done; intros; try (by exists r, observed).
    all: destruct_and?; match goal with Hx : exists _ _, _ |- _ => destruct Hx as (? & ? & [= <-] & ? & ?) end.
    all: congruence.
  - unfold request_json in Hreq.
    fold (commit_http_request f table_uuid property (expose_for_request identity)) in Hreq.
    destruct (http_send _ w) as [sent w2]. injection Hreq as Hreq <-. exists sent.
    split; [done|]. split; (split; [done|]); intros (r & observed & -> & _ & Hd).
    all: unfold collect_response in Hreq; by rewrite Hd in Hreq.
Qed.

Lemma parse_snapshot_Ok value status operation s :
  parse_snapshot value status operation = Ok s ->
  ts_format_version s = 2%Z /\ blank (ts_table_uuid s) = false /\
  blank (ts_location s) = false /\ blank (ts_metadata_location s) = false.
Proof.
  unfold parse_snapshot. destruct (lt_metadata_location value) as [location|]; [|done].
  destruct (blank location) eqn:Hb; [done|]. simpl.
  destruct (blank (tm_table_uuid (lt_metadata value))) eqn:Hu; [done|].
  destruct (blank (tm_location (lt_metadata value))) eqn:Hl; [done|]. simpl.
  destruct (Z.eqb_spec (tm_format_version (lt_metadata value)) 2); [|done].
  by intros [= <-].
Qed.

(** A table a round continues with is a format-version-2
    table with a UUID, a location and a metadata location, at the location
    the adapter requested when it requests one; and a presence check answers
    "absent" only for a complete HTTP 404 and "present" only for a complete
    HTTP 200. *)
Theorem observations_are_validated (f : RestCatalogFixture) (w w1 : W) :
  (forall s, create_table (P := RestCatalogFixture) f w = (Ok s, w1) ->
     ts_format_version s = 2%Z /\ blank (ts_table_uuid s) = false /\
     blank (ts_location s) = false /\ blank (ts_metadata_location s) = false /\
     (forall location, rf_requested_location f = Some location -> ts_location s = location)) /\
  (forall observation, namespace_presence (P := RestCatalogFixture) f w = (Ok observation, w1) ->
     exists sent, (http_send (session_request (rf_session f) GET (rf_namespace_url f) None) w).1 = sent /\
       received f sent (match po_presence observation with Present => 200 | Absent => 404 end)).
Proof.
  split.
  - intros s. cbn [create_table RestCatalogPort]. unfold rest_create_table.
    destruct (request_json _ _ _ _ _ w) as [[response|failure] w2]; [|done]. cbn [map_err].
    destruct (status_allowed _ _); [|done]. cbn [negb].
    destruct (response_json _ response) as [value|]; [|done]. cbn [map_err].
    destruct (parse_snapshot value _ _) as [s'|] eqn:Hp; [|done].
    unfold validate_created_snapshot.
    destruct (is_some_and _ (rf_requested_location f)) eqn:Hr; [done|]. intros [= <- _].
    apply parse_snapshot_Ok in Hp as (? & ? & ? & ?). repeat split; try done.
    intros location Hl. rewrite Hl in Hr. simpl in Hr. by brust in Hr.
  - intros observation. cbn [namespace_presence RestCatalogPort]. unfold presence.
    destruct (request_json _ _ _ _ _ w) as [[response|failure] w2] eqn:Hreq; [|done].
    apply request_discard_Ok in Hreq as (r & observed & Hs & Hstatus & Hd). cbn [map_err].
    rewrite Hs. intros Hobs. exists (Ok r). split; [done|]. exists r, observed.
    split; [done|]. split; [|done]. rewrite Hstatus in Hobs.
    destruct (Z.eqb_spec (resp_status r) 200); [by injection Hobs as <- _|].
    destruct (Z.eqb_spec (resp_status r) 404); [by injection Hobs as <- _|done].
Qed.
End Properties.
