(* ===== verification/Store.v ===== *)
(** * The object-store audit (crates/commit/src/store.rs)

    [TableRoot] is the run-owned prefix of a table in the shared bucket;
    [audit_table] counts the objects below it. The path type and the client of
    the object_store crate are the classes [ObjectPaths] and
    [ObjectStoreClient]; a path is represented by its [as_ref] text. *)

From S2P Require Import Prelude RustStr ContractAdapter Policy Transport Protocol.
From Stdlib Require Import Ascii.
Open Scope string_scope.

(** ** Third-party interfaces *)

Definition Path : Type := string.

Class ObjectPaths := {
  path_from_url_path : string -> result Path string;
  path_prefix_matches : Path -> Path -> bool;
}.

Record ObjectMeta := { om_location : Path; om_size : Z }.

(** [list] yields object descriptions until the end or an error; [head] and
    [get] answer for one path, [get] with the body or a read error. *)
Class ObjectStoreClient (W : Type) := {
  store_list : Path -> W -> list (result ObjectMeta string) * W;
  store_head : Path -> W -> result ObjectMeta string * W;
  store_get : Path -> W -> result (result (list ascii) string) string * W;
}.

(** ** Failures *)

Inductive ObjectStoreFailureKind := Configuration | Authentication | List | Read.

Record ObjectStoreFailure := { of_kind : ObjectStoreFailureKind; of_detail : string }.

Definition configuration (detail : string) : ObjectStoreFailure :=
  {| of_kind := Configuration; of_detail := detail |}.
Definition authentication (detail : string) : ObjectStoreFailure :=
  {| of_kind := Authentication; of_detail := detail |}.
Definition listing (detail : string) : ObjectStoreFailure :=
  {| of_kind := List; of_detail := detail |}.
Definition reading (detail : string) : ObjectStoreFailure :=
  {| of_kind := Read; of_detail := detail |}.

Definition redact_and_bound (detail : string) (sensitive_values : list string) : string :=
  let redacted := redact_text detail sensitive_values in
  let bounded := take_chars MAXIMUM_FAILURE_DETAIL_CHARACTERS redacted in
  if (MAXIMUM_FAILURE_DETAIL_CHARACTERS <? char_count redacted)%nat then bounded +:+ "…" else bounded.

(** ** The table root *)

Record TableRoot := { root_location : string; root_bucket : string; root_path : Path }.

Section Paths.
Context `{UrlParser, ObjectPaths}.

Definition parse_s3_location (location label : string)
  : result (string * Path) ObjectStoreFailure :=
  let? url := map_err (fun error => configuration ("invalid " +:+ label +:+ ": " +:+ error))
                (url_parse location) in
  guard negb (url_scheme url =? "s3")
        || match url_host_str url with None => true | Some _ => false end
        || negb (is_empty (url_username url))
        || match url_password url with None => false | Some _ => true end
        || match url_query url with None => false | Some _ => true end
        || match url_fragment url with None => false | Some _ => true end
    or configuration (label +:+ " must be a credential-free absolute s3 URI") in
  let? path := map_err (fun error => configuration ("invalid " +:+ label +:+ " path: " +:+ error))
                 (path_from_url_path (url_path url)) in
  Ok (default "" (url_host_str url), path).

Definition metadata_path (self : TableRoot) (location : string) : result Path ObjectStoreFailure :=
  let? parsed := parse_s3_location location "metadata location" in
  let '(bucket, path) := parsed in
  guard negb (bucket =? root_bucket self) || negb (path_prefix_matches path (root_path self))
        || (path =? root_path self)
    or configuration "metadata location is outside the returned table root" in
  guard negb (ends_with ".metadata.json" path)
    or configuration "metadata location does not end in `.metadata.json`" in
  Ok path.

Definition contains_metadata_location (self : TableRoot) (location : string) : bool :=
  is_ok (metadata_path self location).

Definition TableRoot_new (location metadata_location expected_bucket : string)
  : result TableRoot ObjectStoreFailure :=
  let? parsed := parse_s3_location location "table location" in
  let '(bucket, path) := parsed in
  guard negb (bucket =? expected_bucket)
    or configuration ("table location uses bucket `" +:+ bucket +:+ "` instead of `"
                      +:+ expected_bucket +:+ "`") in
  guard is_empty path or configuration "table location must identify a run-owned path" in
  let root := {| root_location := location; root_bucket := bucket; root_path := path |} in
  check? metadata_path root metadata_location in
  Ok root.

Definition TableRoot_from_snapshot (snapshot : TableSnapshot) (expected_bucket : string)
  : result TableRoot ObjectStoreFailure :=
  TableRoot_new (ts_location snapshot) (ts_metadata_location snapshot) expected_bucket.
End Paths.

(** ** Audits *)

Record ObjectAuditSnapshot := {
  audit_table_root : string;
  audit_metadata_objects : Z;
  audit_metadata_bytes : Z;
  audit_referenced_metadata_location : string;
  audit_referenced_metadata_exists : bool;
}.

Record TableObjectAuditSnapshot := {
  ta_table_root : string;
  ta_metadata_objects : Z;
  ta_metadata_bytes : Z;
  ta_parquet_objects : Z;
  ta_parquet_bytes : Z;
  ta_referenced_metadata_location : string;
  ta_referenced_metadata_exists : bool;
}.

(** [From<TableObjectAuditSnapshot> for ObjectAuditSnapshot]. *)
Definition metadata_audit (audit : TableObjectAuditSnapshot) : ObjectAuditSnapshot := {|
  audit_table_root := ta_table_root audit;
  audit_metadata_objects := ta_metadata_objects audit;
  audit_metadata_bytes := ta_metadata_bytes audit;
  audit_referenced_metadata_location := ta_referenced_metadata_location audit;
  audit_referenced_metadata_exists := ta_referenced_metadata_exists audit;
|}.

(** What a round needs of the object store. *)
Class MetadataStore (S W : Type) :=
  audit : S -> TableRoot -> string -> W -> result ObjectAuditSnapshot ObjectStoreFailure * W.

Record ObjectStoreAuditor := { auditor_bucket : string; auditor_sensitive_values : list string }.

Record AuditCounts := {
  n_metadata_objects : Z;
  n_metadata_bytes : Z;
  n_parquet_objects : Z;
  n_parquet_bytes : Z;
  found_referenced : bool;
}.

Definition no_counts : AuditCounts := {|
  n_metadata_objects := 0; n_metadata_bytes := 0; n_parquet_objects := 0; n_parquet_bytes := 0;
  found_referenced := false;
|}.

(** One turn of the loop of [audit_table]. *)
Definition count_object (referenced : Path) (sensitive : list string) (n : AuditCounts)
    (item : result ObjectMeta string) : result AuditCounts ObjectStoreFailure :=
  let? object := map_err (fun error =>
      listing (redact_and_bound ("failed to list table objects: " +:+ error) sensitive)) item in
  let? size := ok_or (try_from u64_max (om_size object))
    (listing "object byte count cannot be represented as u64") in
  if ends_with ".metadata.json" (om_location object) then
    let? objects := ok_or (checked_add u64_max (n_metadata_objects n) 1)
      (listing "metadata object count overflowed u64") in
    let? bytes := ok_or (checked_add u64_max (n_metadata_bytes n) size)
      (listing "metadata byte count overflowed u64") in
    Ok {| n_metadata_objects := objects; n_metadata_bytes := bytes;
          n_parquet_objects := n_parquet_objects n; n_parquet_bytes := n_parquet_bytes n;
          found_referenced := found_referenced n || (om_location object =? referenced) |}
  else if ends_with ".parquet" (om_location object) then
    let? objects := ok_or (checked_add u64_max (n_parquet_objects n) 1)
      (listing "Parquet object count overflowed u64") in
    let? bytes := ok_or (checked_add u64_max (n_parquet_bytes n) size)
      (listing "Parquet byte count overflowed u64") in
    Ok {| n_metadata_objects := n_metadata_objects n; n_metadata_bytes := n_metadata_bytes n;
          n_parquet_objects := objects; n_parquet_bytes := bytes;
          found_referenced := found_referenced n |}
  else Ok n.

(** What the store client is built from. *)
Class ObjectStoreConnectionPolicy (P : Type) := {
  connection_endpoint : P -> string;
  connection_bucket : P -> string;
  connection_region : P -> string;
  connection_allow_http : P -> bool;
  connection_path_style_access : P -> bool;
  connection_access_key_env : P -> string;
  connection_secret_key_env : P -> string;
}.

#[export] Instance ObjectStorePolicy_connection : ObjectStoreConnectionPolicy ObjectStorePolicy := {
  connection_endpoint := os_endpoint; connection_bucket := os_bucket; connection_region := os_region;
  connection_allow_http := os_allow_http; connection_path_style_access := os_path_style_access;
  connection_access_key_env := os_access_key_env; connection_secret_key_env := os_secret_key_env;
}.

Section Auditor.
Context `{UrlParser, ObjectPaths} {W : Type} `{ObjectStoreClient W}.

(** [ObjectStoreAuditor::from_connection]: reads the credentials by name and
    remembers their values to redact; the client itself is built by the
    object_store crate ([build]). *)
Definition from_connection {P} `{ObjectStoreConnectionPolicy P} (build : P -> string -> string -> result unit string)
    (policy : P) (getenv : string -> option string) : result ObjectStoreAuditor ObjectStoreFailure :=
  let read variable :=
    match getenv variable with
    | Some value =>
        if is_empty value
        then Err (authentication ("environment variable `" +:+ variable +:+ "` is not set or is empty"))
        else Ok value
    | None => Err (authentication ("environment variable `" +:+ variable +:+ "` is not set or is empty"))
    end in
  let? access_key := read (connection_access_key_env policy) in
  let? secret_key := read (connection_secret_key_env policy) in
  check? map_err (fun error => configuration (redact_and_bound
      ("failed to build shared object-store client: " +:+ error) [access_key; secret_key]))
    (build policy access_key secret_key) in
  Ok {| auditor_bucket := connection_bucket policy; auditor_sensitive_values := [access_key; secret_key] |}.

Definition from_policy : (ObjectStorePolicy -> string -> string -> result unit string) ->
    ObjectStorePolicy -> (string -> option string) -> result ObjectStoreAuditor ObjectStoreFailure :=
  from_connection.

Definition audit_table (self : ObjectStoreAuditor) (root : TableRoot) (metadata_location : string)
    (w : W) : result TableObjectAuditSnapshot ObjectStoreFailure * W :=
  if negb (root_bucket root =? auditor_bucket self) then
    (Err (configuration ("table root bucket `" +:+ root_bucket root
            +:+ "` does not match auditor bucket `" +:+ auditor_bucket self +:+ "`")), w)
  else
    match metadata_path root metadata_location with
    | Err e => (Err e, w)
    | Ok referenced =>
        let '(objects, w) := store_list (root_path root) w in
        (let? n := try_fold (count_object referenced (auditor_sensitive_values self))
                     no_counts objects in
         Ok {| ta_table_root := root_location root;
               ta_metadata_objects := n_metadata_objects n;
               ta_metadata_bytes := n_metadata_bytes n;
               ta_parquet_objects := n_parquet_objects n;
               ta_parquet_bytes := n_parquet_bytes n;
               ta_referenced_metadata_location := metadata_location;
               ta_referenced_metadata_exists := found_referenced n |}, w)
    end.

#[export] Instance AuditorStore : MetadataStore ObjectStoreAuditor W :=
  fun self root metadata_location w =>
    let '(r, w) := audit_table self root metadata_location w in (result_map metadata_audit r, w).

Definition read_metadata (self : ObjectStoreAuditor) (root : TableRoot) (metadata_location : string)
    (maximum_bytes : Z) (w : W) : result (list ascii) ObjectStoreFailure * W :=
  let fail message error :=
    reading (redact_and_bound (message +:+ error) (auditor_sensitive_values self)) in
  if (maximum_bytes =? 0)%Z || negb (root_bucket root =? auditor_bucket self) then
    (Err (configuration "invalid bounded metadata read"), w)
  else
    match metadata_path root metadata_location with
    | Err e => (Err e, w)
    | Ok path =>
        let '(head, w) := store_head path w in
        match head with
        | Err error => (Err (fail "failed to inspect metadata object: " error), w)
        | Ok metadata =>
            if (maximum_bytes <? om_size metadata)%Z
            then (Err (reading "metadata object exceeds its byte limit"), w)
            else
              let '(got, w) := store_get path w in
              match got with
              | Err error => (Err (fail "failed to open metadata object: " error), w)
              | Ok (Err error) => (Err (fail "failed to read metadata object: " error), w)
              | Ok (Ok bytes) =>
                  if (maximum_bytes <? len bytes)%Z
                  then (Err (reading "metadata object exceeds its byte limit"), w)
                  else (Ok bytes, w)
              end
        end
    end.
End Auditor.

(** ** Lemmas *)

Definition is_metadata (o : ObjectMeta) : bool := ends_with ".metadata.json" (om_location o).
Definition is_parquet (o : ObjectMeta) : bool :=
  negb (is_metadata o) && ends_with ".parquet" (om_location o).
Definition count_of (p : ObjectMeta -> bool) (objects : list ObjectMeta) : Z :=
  len (List.filter p objects).
Definition bytes_of (p : ObjectMeta -> bool) (objects : list ObjectMeta) : Z :=
  foldr Z.add 0%Z (om_size <$> List.filter p objects).

Definition counts_after (n : AuditCounts) (referenced : Path) (objects : list ObjectMeta)
  : AuditCounts := {|
  n_metadata_objects := n_metadata_objects n + count_of is_metadata objects;
  n_metadata_bytes := n_metadata_bytes n + bytes_of is_metadata objects;
  n_parquet_objects := n_parquet_objects n + count_of is_parquet objects;
  n_parquet_bytes := n_parquet_bytes n + bytes_of is_parquet objects;
  found_referenced := found_referenced n
    || existsb (fun o => is_metadata o && (om_location o =? referenced)) objects;
|}.

Lemma counts_single referenced n o :
  counts_after n referenced [o] =
  if is_metadata o then
    {| n_metadata_objects := n_metadata_objects n + 1; n_metadata_bytes := n_metadata_bytes n + om_size o;
       n_parquet_objects := n_parquet_objects n; n_parquet_bytes := n_parquet_bytes n;
       found_referenced := found_referenced n || (om_location o =? referenced) |}
  else if is_parquet o then
    {| n_metadata_objects := n_metadata_objects n; n_metadata_bytes := n_metadata_bytes n;
       n_parquet_objects := n_parquet_objects n + 1; n_parquet_bytes := n_parquet_bytes n + om_size o;
       found_referenced := found_referenced n |}
  else n.
Proof.
  unfold counts_after, count_of, bytes_of, is_parquet. destruct n; simpl.
  destruct (is_metadata o); simpl.
  - rewrite orb_false_r. unfold len; simpl. f_equal; lia.
  - destruct (ends_with ".parquet" _); simpl; rewrite orb_false_r; unfold len; simpl; f_equal; lia.
Qed.

(** A turn of the loop counts its object exactly, or stops. *)
Lemma count_object_Ok referenced sensitive n item n' :
  count_object referenced sensitive n item = Ok n' ->
  exists o, item = Ok o /\ n' = counts_after n referenced [o].
Proof.
  unfold count_object. intros Hc. destruct item as [o|e]; [|done]. cbn [map_err] in Hc.
  exists o. split; [done|]. rewrite counts_single. unfold is_parquet, is_metadata.
  destruct (try_from u64_max (om_size o)) as [size|] eqn:Hsize; [|done]. cbn [ok_or] in Hc.
  assert (size = om_size o) as -> by (unfold try_from in Hsize; destruct (_ <=? _)%Z; congruence).
  destruct (ends_with ".metadata.json" (om_location o)); simpl.
  - destruct (checked_add _ (n_metadata_objects n) 1) as [a|] eqn:Ha; [|done]. cbn [ok_or] in Hc.
    destruct (checked_add _ (n_metadata_bytes n) _) as [b|] eqn:Hb; [|done]. cbn [ok_or] in Hc.
    apply checked_add_Some in Ha as [-> _], Hb as [-> _]. congruence.
  - destruct (ends_with ".parquet" (om_location o)); [|congruence].
    destruct (checked_add _ (n_parquet_objects n) 1) as [a|] eqn:Ha; [|done]. cbn [ok_or] in Hc.
    destruct (checked_add _ (n_parquet_bytes n) _) as [b|] eqn:Hb; [|done]. cbn [ok_or] in Hc.
    apply checked_add_Some in Ha as [-> _], Hb as [-> _]. congruence.
Qed.

Lemma bytes_of_cons p o objects :
  bytes_of p (o :: objects) = ((if p o then om_size o else 0) + bytes_of p objects)%Z.
Proof. unfold bytes_of. simpl. by destruct (p o). Qed.

Lemma count_of_cons p o objects :
  count_of p (o :: objects) = ((if p o then 1 else 0) + count_of p objects)%Z.
Proof. unfold count_of. simpl. destruct (p o); [|done]. by rewrite len_cons. Qed.

Lemma counts_after_cons n referenced o objects :
  counts_after (counts_after n referenced [o]) referenced objects = counts_after n referenced (o :: objects).
Proof.
  rewrite counts_single. unfold counts_after. rewrite !count_of_cons, !bytes_of_cons. cbn [existsb].
  destruct (is_metadata o) eqn:Em.
  - assert (is_parquet o = false) as -> by (unfold is_parquet; by rewrite Em).
    cbn. f_equal; [lia..|]. by rewrite <-orb_assoc.
  - destruct (is_parquet o); cbn; f_equal; lia.
Qed.

Lemma counts_after_nil n referenced : counts_after n referenced [] = n.
Proof.
  destruct n. unfold counts_after, count_of, bytes_of, len. simpl. by rewrite !Z.add_0_r, orb_false_r.
Qed.

Lemma count_objects_Ok referenced sensitive items n n' :
  try_fold (count_object referenced sensitive) n items = Ok n' ->
  exists objects, items = Ok <$> objects /\ n' = counts_after n referenced objects.
Proof.
  revert n. induction items as [|item items IH]; intros n Hf; simpl in Hf.
  - exists []. rewrite counts_after_nil. split; [done|congruence].
  - destruct (count_object referenced sensitive n item) as [n1|] eqn:Hc; [|done].
    apply count_object_Ok in Hc as (o & -> & ->). destruct (IH _ Hf) as (objects & -> & ->).
    exists (o :: objects). split; [done|]. apply counts_after_cons.
Qed.

Lemma bytes_of_nonneg p objects :
  Forall (fun o => (0 <= om_size o)%Z) objects -> (0 <= bytes_of p objects)%Z.
Proof.
  intros HF. induction HF as [|o objects Ho _ IH]; [done|]. rewrite bytes_of_cons.
  destruct (p o); lia.
Qed.

(** The loop only stops early when a total does not fit in [u64]. *)
Lemma count_objects_total referenced sensitive objects n :
  Forall (fun o => (0 <= om_size o)%Z) objects ->
  (0 <= n_metadata_bytes n)%Z -> (0 <= n_parquet_bytes n)%Z ->
  (n_metadata_objects n + len objects <= u64_max)%Z ->
  (n_parquet_objects n + len objects <= u64_max)%Z ->
  (forall o, o ∈ objects -> om_size o <= u64_max)%Z ->
  (n_metadata_bytes n + bytes_of is_metadata objects <= u64_max)%Z ->
  (n_parquet_bytes n + bytes_of is_parquet objects <= u64_max)%Z ->
  exists n', try_fold (count_object referenced sensitive) n (Ok <$> objects) = Ok n'.
Proof.
  intros HF. revert n. induction HF as [|o objects Ho HF IH]; intros n Hm0 Hp0 Hmo Hpo Hsize Hmb Hpb;
    [by exists n|].
  rewrite fmap_cons. cbn [try_fold]. rewrite len_cons in Hmo, Hpo. pose proof (len_nonneg objects).
  pose proof (bytes_of_nonneg is_metadata objects HF). pose proof (bytes_of_nonneg is_parquet objects HF).
  assert (Hso : (om_size o <= u64_max)%Z) by (apply Hsize; left).
  assert (exists n1, count_object referenced sensitive n (Ok o) = Ok n1) as [n1 Hn1].
  { unfold count_object. cbn [map_err]. unfold try_from.
    destruct (Z.leb_spec (om_size o) u64_max); [|lia]. cbn [ok_or].
    rewrite bytes_of_cons in Hmb, Hpb. unfold checked_add.
    change (ends_with ".metadata.json" (om_location o)) with (is_metadata o).
    destruct (is_metadata o) eqn:Em.
    - destruct (Z.leb_spec (n_metadata_objects n + 1) u64_max); [|lia]. cbn [ok_or].
      destruct (Z.leb_spec (n_metadata_bytes n + om_size o) u64_max); [eauto|lia].
    - assert (is_parquet o = ends_with ".parquet" (om_location o)) as Hp
        by (unfold is_parquet; by rewrite Em).
      rewrite <-Hp. destruct (is_parquet o); [|eauto].
      destruct (Z.leb_spec (n_parquet_objects n + 1) u64_max); [|lia]. cbn [ok_or].
      destruct (Z.leb_spec (n_parquet_bytes n + om_size o) u64_max); [eauto|lia]. }
  rewrite Hn1. apply count_object_Ok in Hn1 as (o' & [= <-] & ->).
  rewrite bytes_of_cons in Hmb, Hpb. rewrite counts_single.
  apply IH; destruct (is_metadata o) eqn:Em, (is_parquet o) eqn:Ep;
    cbn [n_metadata_objects n_metadata_bytes n_parquet_objects n_parquet_bytes]; try lia.
  all: try (intros o' Ho'; apply Hsize; by right).
  all: unfold is_parquet in Ep; rewrite Em in Ep; done.
Qed.

(** ** Properties *)

Section Properties.
Context `{UrlParser, ObjectPaths} {W : Type} `{ObjectStoreClient W}.

(** A location strictly inside the table root that names a metadata file. *)
Definition inside_root (root : TableRoot) (location : string) (path : Path) : Prop :=
  parse_s3_location location "metadata location" = Ok (root_bucket root, path) /\
  path_prefix_matches path (root_path root) = true /\ path <> root_path root /\
  ends_with ".metadata.json" path = true.

Lemma metadata_path_Ok root location path :
  metadata_path root location = Ok path <-> inside_root root location path.
Proof.
  unfold metadata_path, inside_root.
  destruct (parse_s3_location location "metadata location") as [[bucket p]|e];
    [|split; [done|by intros (? & _)]].
  destruct (String.eqb_spec bucket (root_bucket root)) as [->|Hb];
    [|split; [done|intros ([= ? _] & _); done]].
  destruct (path_prefix_matches p (root_path root)) eqn:Hp;
    [|split; [done|intros ([= <-] & ? & _); congruence]].
  destruct (String.eqb_spec p (root_path root)) as [->|Hne]; simpl;
    [split; [done|by intros ([= <-] & _ & ? & _)]|].
  destruct (ends_with ".metadata.json" p) eqn:He; simpl; split; try done.
  - by intros [= <-].
  - by intros ([= <-] & _).
  - intros ([= <-] & _ & _ & ?). congruence.
Qed.

(** The root a round audits lies in the configured bucket under
    a non-empty path and contains the metadata file of the created table; and
    a metadata location counts as contained in the root exactly when it is a
    credential-free s3 URI of that bucket whose path lies strictly below the
    root and ends in [.metadata.json]. *)
Theorem table_root_contains (snapshot : TableSnapshot) (bucket : string) (root : TableRoot) :
  TableRoot_from_snapshot snapshot bucket = Ok root ->
  root_bucket root = bucket /\ root_path root <> "" /\ root_location root = ts_location snapshot /\
  contains_metadata_location root (ts_metadata_location snapshot) = true /\
  forall location, contains_metadata_location root location = true <->
    exists path, inside_root root location path.
Proof.
  unfold TableRoot_from_snapshot, TableRoot_new.
  destruct (parse_s3_location (ts_location snapshot) "table location") as [[b p]|e]; [|done].
  destruct (String.eqb_spec b bucket) as [->|]; [|done]. simpl.
  destruct (is_empty p) eqn:Hp; [done|].
  destruct (metadata_path _ (ts_metadata_location snapshot)) as [path|] eqn:Hm; [|done].
  intros [= <-]. simpl. split; [done|]. split; [by intros ->|]. split; [done|].
  unfold contains_metadata_location. rewrite Hm. split; [done|].
  intros location. split.
  - intros Hok. destruct (metadata_path _ location) as [path'|] eqn:Hl; [|done].
    exists path'. by apply metadata_path_Ok.
  - intros [path' Hin]. apply metadata_path_Ok in Hin. by rewrite Hin.
Qed.

(** A completed audit counted every object the store listed below
    the root, metadata and Parquet files separately and with their exact byte
    totals, and says the referenced metadata file exists exactly when it was
    listed; and an error-free listing whose totals fit in [u64] always yields
    an audit. *)
Theorem audit_counts_listed_objects (self : ObjectStoreAuditor) (root : TableRoot)
    (location : string) (w w' : W) :
  (forall a, audit_table self root location w = (Ok a, w') ->
     exists objects path, store_list (root_path root) w = (Ok <$> objects, w') /\
       inside_root root location path /\
       ta_metadata_objects a = count_of is_metadata objects /\
       ta_metadata_bytes a = bytes_of is_metadata objects /\
       ta_parquet_objects a = count_of is_parquet objects /\
       ta_parquet_bytes a = bytes_of is_parquet objects /\
       (ta_referenced_metadata_exists a = true <-> path ∈ om_location <$> objects)) /\
  (forall objects path, store_list (root_path root) w = (Ok <$> objects, w') ->
     root_bucket root = auditor_bucket self -> inside_root root location path ->
     Forall (fun o => 0 <= om_size o <= u64_max)%Z objects -> (len objects <= u64_max)%Z ->
     (bytes_of is_metadata objects <= u64_max)%Z -> (bytes_of is_parquet objects <= u64_max)%Z ->
     exists a, audit_table self root location w = (Ok a, w')).
Proof.
  split.
  - intros a. unfold audit_table. destruct (root_bucket root =? auditor_bucket self); [|done].
    cbn [negb]. destruct (metadata_path root location) as [path|] eqn:Hp; [|done].
    destruct (store_list (root_path root) w) as [items w1].
    destruct (try_fold _ no_counts items) as [n|] eqn:Hf; [|done]. intros [= <- <-].
    apply count_objects_Ok in Hf as (objects & -> & ->). apply metadata_path_Ok in Hp.
    exists objects, path. split; [done|]. split; [done|]. simpl.
    split_and!; [done..|]. rewrite existsb_exists, list_elem_of_fmap.
    destruct Hp as (_ & _ & _ & Hends). split.
    + intros (o & Ho & Hand). apply andb_true_iff in Hand as [_ <-%String.eqb_eq].
      exists o. split; [done|]. by apply list_elem_of_In.
    + intros (o & -> & Ho). exists o. split; [by apply list_elem_of_In|].
      unfold is_metadata. rewrite Hends. by apply String.eqb_eq.
  - intros objects path Hl Hb Hin HF Hlen Hmb Hpb. unfold audit_table.
    rewrite Hb, String.eqb_refl. cbn [negb]. apply metadata_path_Ok in Hin. rewrite Hin, Hl.
    assert (HF' : Forall (fun o => (0 <= om_size o)%Z) objects)
      by (eapply Forall_impl; [exact HF|]; simpl; lia).
    assert (Hsize : forall o, o ∈ objects -> (om_size o <= u64_max)%Z).
    { intros o Ho. rewrite Forall_forall in HF. by apply HF. }
    destruct (count_objects_total path (auditor_sensitive_values self) objects no_counts HF')
      as [n ->]; [simpl; lia..|exact Hsize|simpl; lia|simpl; lia|]. eauto.
Qed.
End Properties.
