(* ===== verification/Workflow.v ===== *)
(** * One contention round (crates/commit/src/workflow.rs)

    [run_contention_round] preflights, sets up, warms up, measures sequential and
    concurrent commits, attributes the final state, audits the object store and
    always cleans up. It is proved against the interfaces [CatalogPort] and
    [MetadataStore]; the clock is the class [Clock].

    The concurrent phase is modelled with its interleavings: every writer is a
    small state machine ([writer_step]), a [schedule] says which writer moves
    next, and [joins] is the order in which the finished tasks are joined. The
    start barrier and the watch channel hand every writer the same deadline
    before any of them moves, which is the initial state of the machines. *)

From S2P Require Import Prelude RustStr Float64 ContractAdapter ContractResult Stats Ledger Policy Protocol Store.
From Stdlib Require Import Ascii.
Open Scope string_scope.

(** ** Errors and configuration *)

Inductive WorkflowError :=
| InvalidConfiguration (detail : string)
| Model (error : ModelError)
| WriterStartChannelClosed
| WriterTask (detail : string)
| SequenceOverflow
| DeadlineOverflow.

Definition display_workflow_error (self : WorkflowError) : string :=
  match self with
  | InvalidConfiguration detail | WriterTask detail => detail
  | Model error => display_model_error error
  | WriterStartChannelClosed => "concurrent writer start channel closed"
  | SequenceOverflow => "writer request sequence overflowed u64"
  | DeadlineOverflow => "concurrent deadline overflowed"
  end.

Record RoundWorkload := {
  rw_warmup_commits : Z;
  rw_sequential_commits : Z;
  rw_concurrent_writers : Z;
  rw_concurrent_duration_ms : Z;
  rw_commit_property : string;
}.

Definition RoundWorkload_new (warmup_commits sequential_commits concurrent_writers
    concurrent_duration_ms : Z) (commit_property : string) : result RoundWorkload WorkflowError :=
  guard (warmup_commits =? 0)%Z || (sequential_commits =? 0)%Z || (concurrent_writers =? 0)%Z
        || (concurrent_duration_ms =? 0)%Z || blank commit_property
    or InvalidConfiguration
         "round workload values must all be positive and the property must be nonempty" in
  Ok {| rw_warmup_commits := warmup_commits;
        rw_sequential_commits := sequential_commits;
        rw_concurrent_writers := concurrent_writers;
        rw_concurrent_duration_ms := concurrent_duration_ms;
        rw_commit_property := commit_property |}.

(** [TryFrom<&WorkloadPolicy>]. *)
Definition workload_of_policy (policy : WorkloadPolicy) : result RoundWorkload WorkflowError :=
  RoundWorkload_new (warmup_commits policy) (sequential_commits policy) (concurrent_writers policy)
    (concurrent_duration_ms policy) (commit_property policy).

Record RoundExecutionConfig := {
  rc_catalog : string;
  rc_repetition : Z;
  rc_kind : RoundKind;
  rc_fixture : ContentionFixture;
  rc_workload : RoundWorkload;
  rc_object_store_bucket : string;
}.

Definition RoundExecutionConfig_new (catalog : string) (repetition : Z) (kind : RoundKind)
    (fixture : ContentionFixture) (workload : RoundWorkload) (object_store_bucket : string)
  : result RoundExecutionConfig WorkflowError :=
  guard blank catalog || (repetition =? 0)%Z || blank object_store_bucket
    or InvalidConfiguration "catalog, repetition, and object-store bucket must identify the round" in
  Ok {| rc_catalog := catalog; rc_repetition := repetition; rc_kind := kind; rc_fixture := fixture;
        rc_workload := workload; rc_object_store_bucket := object_store_bucket |}.

(** ** Evidence *)

Record RoundDescriptor := {
  rd_catalog : string;
  rd_repetition : Z;
  rd_kind : RoundKind;
  rd_fixture : ContentionFixture;
}.

Inductive RoundClassification := Pass | Fail | FixtureCollision.
#[export] Instance RoundClassification_eq_dec : EqDecision RoundClassification.
Proof. solve_decision. Defined.

Inductive StepFailure :=
| CatalogStep (failure : CatalogFailure)
| ObjectStoreStep (failure : ObjectStoreFailure)
| HarnessStep (detail : string).

Inductive OperationEvidence (T : Type) :=
| Succeeded (output : T)
| Failed (failure : StepFailure)
| NotAttempted (reason : string).
Arguments Succeeded {T} output.
Arguments Failed {T} failure.
Arguments NotAttempted {T} reason.

Definition SKIPPED : string := "a required predecessor did not complete".
Definition skipped {T} : OperationEvidence T := NotAttempted SKIPPED.

Definition output {T} (self : OperationEvidence T) : option T :=
  match self with Succeeded output => Some output | _ => None end.
Definition step_passed {T} (self : OperationEvidence T) : bool :=
  match self with Succeeded _ => true | _ => false end.

Definition catalog_evidence {T} (r : result T CatalogFailure) : OperationEvidence T :=
  match r with Ok output => Succeeded output | Err failure => Failed (CatalogStep failure) end.

Record SetupTableEvidence := {
  st_format_version : Z;
  st_table_uuid : string;
  st_location : string;
  st_metadata_location : string;
  st_requested_location : option string;
}.

Definition setup_evidence (snapshot : TableSnapshot) (requested_location : option string)
  : SetupTableEvidence := {|
  st_format_version := ts_format_version snapshot;
  st_table_uuid := ts_table_uuid snapshot;
  st_location := ts_location snapshot;
  st_metadata_location := ts_metadata_location snapshot;
  st_requested_location := requested_location;
|}.

Record FinalTableEvidence := {
  ft_format_version : Z;
  ft_table_uuid : string;
  ft_metadata_location : string;
  ft_table_uuid_matches_setup : bool;
  ft_table_location_matches_setup : bool;
  ft_attribution : FinalStateAttribution;
}.

Definition final_table_passed (self : FinalTableEvidence) : bool :=
  (ft_format_version self =? 2)%Z
  && ft_table_uuid_matches_setup self
  && ft_table_location_matches_setup self
  && attribution_passed (ft_attribution self).

Record CleanupEvidence := {
  ce_drop_table_without_purge : OperationEvidence MutationReceipt;
  ce_verify_table_absent : OperationEvidence PresenceObservation;
  ce_drop_namespace : OperationEvidence MutationReceipt;
  ce_verify_namespace_absent : OperationEvidence PresenceObservation;
}.

Definition cleanup_skipped : CleanupEvidence := {|
  ce_drop_table_without_purge := skipped; ce_verify_table_absent := skipped;
  ce_drop_namespace := skipped; ce_verify_namespace_absent := skipped;
|}.

Definition observed_absent (evidence : OperationEvidence PresenceObservation) : bool :=
  is_some_and (fun observation => bool_decide (po_presence observation = Absent)) (output evidence).

Definition cleanup_passed (self : CleanupEvidence) : bool :=
  step_passed (ce_drop_table_without_purge self)
  && observed_absent (ce_verify_table_absent self)
  && step_passed (ce_drop_namespace self)
  && observed_absent (ce_verify_namespace_absent self).

Record RoundChecks := {
  fixture_isolated : bool;
  setup_succeeded : bool;
  warmup_accounted : bool;
  sequential_accounted : bool;
  sequential_latency_complete : bool;
  all_requests_accounted : bool;
  zero_request_errors : bool;
  concurrent_progress : bool;
  final_state_accounted : bool;
  metadata_persisted : bool;
  fixture_clean : bool;
}.

Definition checks_pending : RoundChecks := {|
  fixture_isolated := false; setup_succeeded := false; warmup_accounted := false;
  sequential_accounted := false; sequential_latency_complete := false;
  all_requests_accounted := false; zero_request_errors := false; concurrent_progress := false;
  final_state_accounted := false; metadata_persisted := false; fixture_clean := false;
|}.

Definition all_passed (self : RoundChecks) : bool :=
  fixture_isolated self && setup_succeeded self && warmup_accounted self
  && sequential_accounted self && sequential_latency_complete self
  && all_requests_accounted self && zero_request_errors self && concurrent_progress self
  && final_state_accounted self && metadata_persisted self && fixture_clean self.

Record RoundExecution := {
  re_descriptor : RoundDescriptor;
  re_workload : RoundWorkload;
  re_classification : RoundClassification;
  re_preflight : OperationEvidence PresenceObservation;
  re_create_namespace : OperationEvidence MutationReceipt;
  re_create_table : OperationEvidence SetupTableEvidence;
  re_baseline_object_audit : OperationEvidence ObjectAuditSnapshot;
  re_warmup : OperationEvidence PhaseEvidence;
  re_sequential : OperationEvidence PhaseEvidence;
  re_concurrent : OperationEvidence PhaseEvidence;
  re_final_table : OperationEvidence FinalTableEvidence;
  re_final_object_audit : OperationEvidence ObjectAuditSnapshot;
  re_metadata_growth : OperationEvidence MetadataGrowthEvidence;
  re_cleanup : CleanupEvidence;
  re_checks : RoundChecks;
}.

(** ** Checks *)

Definition serial_accounted (phase : PhaseEvidence) (expected : Z) : bool :=
  (attempts (counts phase) =? expected)%Z && (accepted (counts phase) =? expected)%Z
  && (conflicts (counts phase) =? 0)%Z && (errors (counts phase) =? 0)%Z
  && fully_accounted (counts phase).

Definition latency_complete (phase : PhaseEvidence) (expected : Z) : bool :=
  match lat_all (latency_ms phase) with
  | None => false
  | Some distribution =>
      match dist_quantiles distribution !! "p50", dist_quantiles distribution !! "p95",
            dist_quantiles distribution !! "p99" with
      | Some p50, Some p95, Some p99 =>
          (dist_samples distribution =? expected)%Z
          && is_finite (dist_minimum distribution) && is_finite (dist_maximum distribution)
          && is_finite p50 && is_finite p95 && is_finite p99
          && f64_le (dist_minimum distribution) p50 && f64_le p50 p95 && f64_le p95 p99
          && f64_le p99 (dist_maximum distribution)
      | _, _, _ => false
      end
  end.

Definition evaluate_checks (execution : RoundExecution) : RoundChecks := {|
  fixture_isolated := observed_absent (re_preflight execution);
  setup_succeeded :=
    step_passed (re_create_namespace execution) && step_passed (re_create_table execution)
    && is_some_and (fun audit => (0 <? audit_metadata_objects audit)%Z
                                 && audit_referenced_metadata_exists audit)
         (output (re_baseline_object_audit execution));
  warmup_accounted :=
    is_some_and (fun phase => serial_accounted phase (rw_warmup_commits (re_workload execution)))
      (output (re_warmup execution));
  sequential_accounted :=
    is_some_and (fun phase => serial_accounted phase (rw_sequential_commits (re_workload execution)))
      (output (re_sequential execution));
  sequential_latency_complete :=
    is_some_and (fun phase => latency_complete phase (rw_sequential_commits (re_workload execution)))
      (output (re_sequential execution));
  all_requests_accounted :=
    is_some_and (fun phase =>
        fully_accounted (counts phase)
        && (default 0 (dist_samples <$> lat_all (latency_ms phase)) =? attempts (counts phase))%Z)
      (output (re_concurrent execution));
  zero_request_errors :=
    is_some_and (fun phase => (errors (counts phase) =? 0)%Z) (output (re_concurrent execution));
  concurrent_progress := is_some_and made_progress (output (re_concurrent execution));
  final_state_accounted := is_some_and final_table_passed (output (re_final_table execution));
  metadata_persisted :=
    is_some_and sufficient (output (re_metadata_growth execution))
    && is_some_and audit_referenced_metadata_exists (output (re_final_object_audit execution));
  fixture_clean := cleanup_passed (re_cleanup execution);
|}.

Definition finalize (self : RoundExecution) (fixture_collision : bool) : RoundExecution :=
  let checks := evaluate_checks self in
  {| re_descriptor := re_descriptor self;
     re_workload := re_workload self;
     re_classification := if fixture_collision then FixtureCollision
                          else if all_passed checks then Pass else Fail;
     re_preflight := re_preflight self;
     re_create_namespace := re_create_namespace self;
     re_create_table := re_create_table self;
     re_baseline_object_audit := re_baseline_object_audit self;
     re_warmup := re_warmup self;
     re_sequential := re_sequential self;
     re_concurrent := re_concurrent self;
     re_final_table := re_final_table self;
     re_final_object_audit := re_final_object_audit self;
     re_metadata_growth := re_metadata_growth self;
     re_cleanup := re_cleanup self;
     re_checks := checks |}.

Definition round_passed (self : RoundExecution) : bool :=
  bool_decide (re_classification self = Pass) && all_passed (re_checks self).

(** ** The clock *)

(** [Instant::now] in nanoseconds, and the largest instant the platform can
    represent. *)
Class Clock (W : Type) := { clock_now : W -> Z * W; instant_max : Z }.

(** The documented behaviour of [Instant]: it never goes backwards, and the
    distance of two instants is a [Duration]. No effect of the catalog or of the
    object store turns it back; [clock_reading w] is the last instant read. *)
Definition duration_of_nanos (n : Z) : Duration :=
  {| secs := n / NANOS_PER_SEC; nanos := n mod NANOS_PER_SEC |}.
Definition duration_from_millis (ms : Z) : Z := (ms * 1000000)%Z.

(** ** Concurrent writers *)

Inductive WriterState :=
| Ready (sequence : Z) (ledger : RequestLedger)
| InFlight (sequence : Z) (ledger : RequestLedger) (identity : RequestIdentity) (request_started : Z)
| Answered (sequence : Z) (ledger : RequestLedger) (identity : RequestIdentity) (request_started : Z)
    (outcome : RequestOutcome)
| Finished (result : result RequestLedger WorkflowError)
| Panicked (text : string).

(** One scheduling decision: a writer moves to its next suspension point, or its
    task panics inside the port. *)
Inductive Move := Step (writer : nat) | Panic (writer : nat) (text : string).

Record Interleaving := { schedule : list Move; joins : list nat }.

Definition terminal (s : WriterState) : bool :=
  match s with Finished _ | Panicked _ => true | _ => false end.

Section Round.
Context {P S W : Type} `{CatalogPort P W, MetadataStore S W, Clock W, Sha256, UrlParser, ObjectPaths}.

(** [started.elapsed()]. *)
Definition elapsed (started : Z) (w : W) : Duration * W :=
  let '(now, w) := clock_now w in (duration_of_nanos (saturating_sub now started), w).

Definition lift_model {A} (r : result A ModelError) : result A WorkflowError := map_err Model r.

Definition request_identity (config : RoundExecutionConfig) (phase : string) (writer : option Z)
    (sequence : Z) : result RequestIdentity WorkflowError :=
  let writer := match writer with Some writer => "/" +:+ display writer | None => "" end in
  lift_model (RequestIdentity_new
    (rc_catalog config +:+ "/" +:+ fx_id (rc_fixture config) +:+ "/" +:+ display (rc_repetition config)
     +:+ "/" +:+ phase +:+ writer +:+ "/" +:+ display sequence)).

(** The loop of [run_serial_phase]; [n] requests remain. *)
Fixpoint serial_requests (catalog : P) (config : RoundExecutionConfig) (phase table_uuid : string)
    (n : nat) (sequence : Z) (ledger : RequestLedger) (w : W)
  : result RequestLedger WorkflowError * W :=
  match n with
  | O => (Ok ledger, w)
  | Datatypes.S n =>
      match request_identity config phase None sequence with
      | Err e => (Err e, w)
      | Ok identity =>
          let '(request_started, w) := clock_now w in
          let '(outcome, w) :=
            commit catalog table_uuid (rw_commit_property (rc_workload config)) identity w in
          let '(latency, w) := elapsed request_started w in
          match record ledger identity latency outcome with
          | (_, Err e) => (Err (Model e), w)
          | (ledger, Ok _) =>
              serial_requests catalog config phase table_uuid n (sequence + 1) ledger w
          end
      end
  end.

Definition run_serial_phase (catalog : P) (config : RoundExecutionConfig) (phase : string)
    (attempts : Z) (table_uuid : string) (w : W)
  : result (PhaseEvidence * AcceptedRequests) WorkflowError * W :=
  let '(started, w) := clock_now w in
  let '(ledger, w) := serial_requests catalog config phase table_uuid (Z.to_nat attempts) 0
                        ledger_default w in
  match ledger with
  | Err e => (Err e, w)
  | Ok ledger => let '(total, w) := elapsed started w in (lift_model (finish ledger total), w)
  end.

(** One writer up to its next suspension point. *)
Definition writer_step (catalog : P) (table_uuid property identity_root : string) (deadline : Z)
    (writer : nat) (s : WriterState) (w : W) : WriterState * W :=
  match s with
  | Ready sequence ledger =>
      match RequestIdentity_new (identity_root +:+ "/" +:+ display (Z.of_nat writer) +:+ "/"
                                 +:+ display sequence) with
      | Err e => (Finished (Err (Model e)), w)
      | Ok identity =>
          let '(request_started, w) := clock_now w in
          if (deadline <=? request_started)%Z then (Finished (Ok ledger), w)
          else (InFlight sequence ledger identity request_started, w)
      end
  | InFlight sequence ledger identity request_started =>
      let '(outcome, w) := commit catalog table_uuid property identity w in
      (Answered sequence ledger identity request_started outcome, w)
  | Answered sequence ledger identity request_started outcome =>
      let '(latency, w) := elapsed request_started w in
      match record ledger identity latency outcome with
      | (_, Err e) => (Finished (Err (Model e)), w)
      | (ledger, Ok _) =>
          match checked_add u64_max sequence 1 with
          | None => (Finished (Err SequenceOverflow), w)
          | Some sequence => (Ready sequence ledger, w)
          end
      end
  | Finished _ | Panicked _ => (s, w)
  end.

(** One move; a move of a writer that is not there or has ended does nothing. *)
Definition move (step : nat -> WriterState -> W -> WriterState * W) (m : Move)
    (config : list WriterState * W) : list WriterState * W :=
  let '(writers, w) := config in
  match m with
  | Step i =>
      match writers !! i with
      | Some s => let '(s, w) := step i s w in (<[i := s]> writers, w)
      | None => (writers, w)
      end
  | Panic i text =>
      match writers !! i with
      | Some s => (if terminal s then writers else <[i := Panicked text]> writers, w)
      | None => (writers, w)
      end
  end.

Definition or_insert (first_error : option WorkflowError) (e : WorkflowError) : option WorkflowError :=
  match first_error with Some _ => first_error | None => Some e end.

(** One turn of the join loop. *)
Definition join_writer (merged : RequestLedger * option WorkflowError) (s : WriterState)
  : RequestLedger * option WorkflowError :=
  let '(ledger, first_error) := merged in
  match s with
  | Finished (Ok other) =>
      match try_merge ledger other with
      | (ledger, Ok _) => (ledger, first_error)
      | (ledger, Err e) => (ledger, or_insert first_error (Model e))
      end
  | Finished (Err e) => (ledger, or_insert first_error e)
  | Panicked text =>
      (ledger, or_insert first_error (WriterTask ("concurrent writer task failed: " +:+ text)))
  | _ => (ledger, first_error)
  end.

Definition identity_root (config : RoundExecutionConfig) : string :=
  rc_catalog config +:+ "/" +:+ fx_id (rc_fixture config) +:+ "/" +:+ display (rc_repetition config)
  +:+ "/concurrent".

(** [None] when the interleaving does not run every writer to its end and join
    each exactly once. *)
Definition run_concurrent_phase (catalog : P) (config : RoundExecutionConfig) (table_uuid : string)
    (choice : Interleaving) (w : W)
  : option (result (PhaseEvidence * AcceptedRequests) WorkflowError * W) :=
  match try_from usize_max (rw_concurrent_writers (rc_workload config)) with
  | None => Some (Err (InvalidConfiguration "writer count does not fit this runner"), w)
  | Some writer_count =>
      match checked_add usize_max writer_count 1 with
      | None => Some (Err (InvalidConfiguration "writer participant count overflowed usize"), w)
      | Some _ =>
          let '(started, w) := clock_now w in
          match checked_add instant_max started
                  (duration_from_millis (rw_concurrent_duration_ms (rc_workload config))) with
          | None => Some (Err DeadlineOverflow, w)
          | Some deadline =>
              let step := writer_step catalog table_uuid (rw_commit_property (rc_workload config))
                            (identity_root config) deadline in
              let '(writers, w) :=
                foldl (fun c m => move step m c)
                  (replicate (Z.to_nat writer_count) (Ready 0 ledger_default), w)
                  (schedule choice) in
              if forallb terminal writers
                 && bool_decide (joins choice ≡ₚ seq 0 (length writers)) then
                let '(merged, first_error) :=
                  foldl join_writer (ledger_default, None) (omap (fun i => writers !! i) (joins choice)) in
                match first_error with
                | Some e => Some (Err e, w)
                | None =>
                    let '(total, w) := elapsed started w in
                    Some (lift_model (finish merged total), w)
                end
              else None
          end
      end
  end.

(** ** Recording, cleaning up *)

Definition record_phase (accepted : AcceptedRequests)
    (r : result (PhaseEvidence * AcceptedRequests) WorkflowError)
  : OperationEvidence PhaseEvidence * AcceptedRequests * bool :=
  match r with
  | Ok (phase, phase_accepted) =>
      match accepted_try_extend accepted phase_accepted with
      | Ok accepted => (Succeeded phase, accepted, true)
      | Err error => (Failed (HarnessStep (display_model_error error)), accepted, false)
      end
  | Err error => (Failed (HarnessStep (display_workflow_error error)), accepted, false)
  end.

Definition cleanup (catalog : P) (w : W) : CleanupEvidence * W :=
  let '(drop_table, w) := drop_table_without_purge catalog w in
  let '(table_absent, w) := table_presence catalog w in
  let '(dropped_namespace, w) := drop_namespace catalog w in
  let '(namespace_absent, w) := namespace_presence catalog w in
  ({| ce_drop_table_without_purge := catalog_evidence drop_table;
      ce_verify_table_absent := catalog_evidence table_absent;
      ce_drop_namespace := catalog_evidence dropped_namespace;
      ce_verify_namespace_absent := catalog_evidence namespace_absent |}, w).

(** ** The round *)

(** [RoundExecution::pending] with the evidence assigned so far. *)
Definition execution (config : RoundExecutionConfig) (preflight : OperationEvidence PresenceObservation)
    (create_namespace : OperationEvidence MutationReceipt)
    (create_table : OperationEvidence SetupTableEvidence)
    (baseline : OperationEvidence ObjectAuditSnapshot)
    (warmup sequential concurrent : OperationEvidence PhaseEvidence)
    (final_table : OperationEvidence FinalTableEvidence)
    (final_audit : OperationEvidence ObjectAuditSnapshot)
    (growth : OperationEvidence MetadataGrowthEvidence) (cleanup : CleanupEvidence)
  : RoundExecution := {|
  re_descriptor := {| rd_catalog := rc_catalog config; rd_repetition := rc_repetition config;
                      rd_kind := rc_kind config; rd_fixture := rc_fixture config |};
  re_workload := rc_workload config;
  re_classification := Fail;
  re_preflight := preflight;
  re_create_namespace := create_namespace;
  re_create_table := create_table;
  re_baseline_object_audit := baseline;
  re_warmup := warmup;
  re_sequential := sequential;
  re_concurrent := concurrent;
  re_final_table := final_table;
  re_final_object_audit := final_audit;
  re_metadata_growth := growth;
  re_cleanup := cleanup;
  re_checks := checks_pending;
|}.

Definition audit_evidence (r : result ObjectAuditSnapshot ObjectStoreFailure)
  : OperationEvidence ObjectAuditSnapshot :=
  match r with Ok audit => Succeeded audit | Err failure => Failed (ObjectStoreStep failure) end.

(** [execution.cleanup = cleanup(&catalog).await; execution.finalize(false)]. *)
Definition conclude (catalog : P) (evidence : CleanupEvidence -> RoundExecution) (w : W)
  : RoundExecution * W :=
  let '(cleaned, w) := cleanup catalog w in (finalize (evidence cleaned) false, w).

Definition final_evidence (config : RoundExecutionConfig) (created final : TableSnapshot)
    (root : TableRoot) (accepted : AcceptedRequests) : FinalTableEvidence := {|
  ft_format_version := ts_format_version final;
  ft_table_uuid := ts_table_uuid final;
  ft_metadata_location := ts_metadata_location final;
  ft_table_uuid_matches_setup := ts_table_uuid final =? ts_table_uuid created;
  ft_table_location_matches_setup := ts_location final =? ts_location created;
  ft_attribution :=
    attribution_evaluate (ts_properties final !! rw_commit_property (rc_workload config)) accepted
      (contains_metadata_location root (ts_metadata_location final));
|}.

Definition growth_evidence (baseline : ObjectAuditSnapshot)
    (final : OperationEvidence ObjectAuditSnapshot) (phases : list (option RequestCounts))
  : OperationEvidence MetadataGrowthEvidence :=
  if forallb (fun counts => match counts with Some _ => true | None => false end) phases then
    match output final with
    | None => skipped
    | Some audit =>
        match growth_evaluate (audit_metadata_objects baseline) (audit_metadata_objects audit)
                (omap id phases) with
        | Ok growth => Succeeded growth
        | Err error => Failed (HarnessStep (display_model_error error))
        end
    end
  else skipped.

(** From the baseline audit on: the three phases, the final state and the
    final audit, each exit concluding with a cleanup. *)
Definition measure (catalog : P) (store : S) (config : RoundExecutionConfig) (choice : Interleaving)
    (evidence : OperationEvidence ObjectAuditSnapshot -> OperationEvidence PhaseEvidence ->
      OperationEvidence PhaseEvidence -> OperationEvidence PhaseEvidence ->
      OperationEvidence FinalTableEvidence -> OperationEvidence ObjectAuditSnapshot ->
      OperationEvidence MetadataGrowthEvidence -> CleanupEvidence -> RoundExecution)
    (created : TableSnapshot) (root : TableRoot) (baseline : ObjectAuditSnapshot) (w : W)
  : option (RoundExecution * W) :=
  let evidence := evidence (Succeeded baseline) in
  let uuid := ts_table_uuid created in
  let '(r, w) := run_serial_phase catalog config "warmup"
                   (rw_warmup_commits (rc_workload config)) uuid w in
  let '(warmup, accepted, go_on) := record_phase ∅ r in
  if negb go_on then
    Some (conclude catalog (evidence warmup skipped skipped skipped skipped skipped) w)
  else
  let '(r, w) := run_serial_phase catalog config "sequential"
                   (rw_sequential_commits (rc_workload config)) uuid w in
  let '(sequential, accepted, go_on) := record_phase accepted r in
  if negb go_on then
    Some (conclude catalog (evidence warmup sequential skipped skipped skipped skipped) w)
  else
  match run_concurrent_phase catalog config uuid choice w with
  | None => None
  | Some (r, w) =>
  let '(concurrent, accepted, go_on) := record_phase accepted r in
  if negb go_on then
    Some (conclude catalog (evidence warmup sequential concurrent skipped skipped skipped) w)
  else
  let '(loaded, w) := load_table catalog w in
  match loaded with
  | Err failure =>
      Some (conclude catalog (evidence warmup sequential concurrent (Failed (CatalogStep failure))
                                skipped skipped) w)
  | Ok final =>
      let final_table := Succeeded (final_evidence config created final root accepted) in
      let '(audited, w) := audit store root (ts_metadata_location final) w in
      let final_audit := audit_evidence audited in
      let growth := growth_evidence baseline final_audit
        [counts <$> output warmup; counts <$> output sequential; counts <$> output concurrent] in
      Some (conclude catalog (evidence warmup sequential concurrent final_table final_audit growth) w)
  end
  end.

Definition run_contention_round (catalog : P) (store : S) (config : RoundExecutionConfig)
    (choice : Interleaving) (w : W) : option (RoundExecution * W) :=
  let pending preflight :=
    execution config preflight skipped skipped skipped skipped skipped skipped skipped skipped skipped
      cleanup_skipped in
  let '(observed, w) := namespace_presence catalog w in
  match observed with
  | Err failure => Some (finalize (pending (Failed (CatalogStep failure))) false, w)
  | Ok observation =>
      if bool_decide (po_presence observation = Present)
      then Some (finalize (pending (Succeeded observation)) true, w)
      else
      let evidence := execution config (Succeeded observation) in
      let '(created, w) := create_namespace catalog w in
      match created with
      | Err failure =>
          Some (conclude catalog (evidence (Failed (CatalogStep failure)) skipped skipped skipped
                                    skipped skipped skipped skipped skipped) w)
      | Ok receipt =>
          let evidence := evidence (Succeeded receipt) in
          let '(table, w) := create_table catalog w in
          match table with
          | Err failure =>
              Some (conclude catalog (evidence (Failed (CatalogStep failure)) skipped skipped skipped
                                        skipped skipped skipped skipped) w)
          | Ok created =>
              let evidence := evidence (Succeeded (setup_evidence created (requested_location catalog))) in
              match TableRoot_from_snapshot created (rc_object_store_bucket config) with
              | Err failure =>
                  Some (conclude catalog (evidence (Failed (ObjectStoreStep failure)) skipped skipped
                                            skipped skipped skipped skipped) w)
              | Ok root =>
                  let '(audited, w) := audit store root (ts_metadata_location created) w in
                  match audited with
                  | Err failure =>
                      Some (conclude catalog (evidence (Failed (ObjectStoreStep failure)) skipped skipped
                                                skipped skipped skipped skipped) w)
                  | Ok baseline =>
                      if (0 <? audit_metadata_objects baseline)%Z
                         && audit_referenced_metadata_exists baseline
                      then measure catalog store config choice evidence created root baseline w
                      else Some (conclude catalog (evidence (Succeeded baseline) skipped skipped skipped
                                                     skipped skipped skipped) w)
                  end
              end
          end
      end
  end.
End Round.
