(* ===== verification/WorkflowPhases.v ===== *)
(** * The measured phases of a round (crates/commit/src/workflow.rs, proofs)

    A serial phase and, under every interleaving of its writers and every join
    order, the concurrent phase account for each request they issue exactly
    once: no request is lost, counted twice or refused as a duplicate. *)

From S2P Require Import Prelude RustStr Float64 ContractAdapter ContractResult Stats Ledger Policy Protocol Store.
From S2P Require Import Workflow.
From Stdlib Require Import Ascii.
Open Scope string_scope.

(** ** The clock and its documented behaviour *)

(** [Instant] never goes backwards, a commit takes no negative time, and the
    distance of two instants is a [Duration]. *)
Class ClockLaws (P W : Type) `{CatalogPort P W, Clock W} := {
  clock_time : W -> Z;
  clock_now_spec : forall w,
    (clock_time w <= (clock_now w).1 <= clock_time (clock_now w).2)%Z /\
    (0 <= (clock_now w).1 <= instant_max)%Z;
  clock_commit : forall (c : P) uuid property identity w,
    (clock_time w <= clock_time (commit c uuid property identity w).2)%Z;
  instant_range : (instant_max <= NANOS_PER_SEC * u64_max)%Z;
}.

Lemma duration_of_nanos_valid n :
  (0 <= n <= NANOS_PER_SEC * u64_max)%Z -> duration_valid (duration_of_nanos n).
Proof.
  intros Hn. unfold duration_valid, duration_of_nanos, in_range. simpl. unfold NANOS_PER_SEC in *.
  split; [|apply Z.mod_pos_bound; lia]. split; [apply Z.div_pos; lia|].
  apply Z.div_le_upper_bound; lia.
Qed.

Lemma duration_of_nanos_pos n : (0 < n)%Z -> is_zero (duration_of_nanos n) = false.
Proof.
  intros Hn. unfold is_zero, duration_of_nanos. simpl. unfold NANOS_PER_SEC.
  pose proof (Z.div_mod n 1000000000 ltac:(lia)).
  destruct (Z.eqb_spec (n / 1000000000) 0), (Z.eqb_spec (n mod 1000000000) 0); try done. lia.
Qed.

(** ** Identities *)

Definition numbered (prefix : string) (n : Z) : RequestIdentity :=
  {| identity_value := prefix +:+ "/" +:+ display n |}.

Lemma slash_split s s' n n' :
  (0 <= n)%Z -> (0 <= n')%Z -> s +:+ "/" +:+ display n = s' +:+ "/" +:+ display n' -> s = s' /\ n = n'.
Proof.
  intros Hn Hn' Heq.
  change ("/" +:+ display n) with (String "/" (display n)) in Heq.
  change ("/" +:+ display n') with (String "/" (display n')) in Heq.
  apply separator_inj in Heq as [-> Hd].
  - split; [done|]. by apply display_inj.
  - apply digits_not_byte; [by apply display_digits|left; reflexivity].
  - apply digits_not_byte; [by apply display_digits|left; reflexivity].
Qed.

Lemma numbered_inj prefix n n' :
  (0 <= n)%Z -> (0 <= n')%Z -> numbered prefix n = numbered prefix n' -> n = n'.
Proof. intros Hn Hn' [= Heq]. by apply slash_split in Heq as [_ ->]. Qed.

Lemma RequestIdentity_new_numbered p n : RequestIdentity_new (p +:+ "/" +:+ display n) = Ok (numbered p n).
Proof. by destruct p. Qed.

Definition writer_prefix (root : string) (writer : nat) : string :=
  root +:+ "/" +:+ display (Z.of_nat writer).
Definition writer_identity (root : string) (writer : nat) : Z -> RequestIdentity :=
  numbered (writer_prefix root writer).

Lemma writer_identity_inj root i j m n :
  (0 <= m)%Z -> (0 <= n)%Z -> writer_identity root i m = writer_identity root j n -> i = j /\ m = n.
Proof.
  intros Hm Hn [= Heq]. apply slash_split in Heq as [Hp ->]; [|done..]. split; [|done].
  unfold writer_prefix in Hp. apply slash_split in Hp as [_ Hp]; lia.
Qed.

(** The identities of the events of one sequence of requests. *)
Definition issued (identity : Z -> RequestIdentity) (t : list RequestEvent) : Prop :=
  event_identity <$> t = identity <$> seqZ 0 (len t).

Lemma len_snoc {A} (l : list A) a : len (l ++ [a]) = (len l + 1)%Z.
Proof. rewrite len_app. done. Qed.

Lemma issued_nil identity : issued identity [].
Proof. done. Qed.

Lemma issued_snoc identity t ev :
  issued identity t -> event_identity ev = identity (len t) -> issued identity (t ++ [ev]).
Proof.
  unfold issued. intros Ht Hev. rewrite fmap_app, Ht, len_snoc.
  rewrite seqZ_app; [|apply len_nonneg|lia]. rewrite fmap_app. f_equal. simpl. by rewrite Hev.
Qed.

Lemma issued_elem identity t ev :
  issued identity t -> ev ∈ t -> exists n, (0 <= n < len t)%Z /\ event_identity ev = identity n.
Proof.
  intros Ht Hev.
  assert (Hin : event_identity ev ∈ event_identity <$> t) by (apply list_elem_of_fmap; eauto).
  rewrite Ht in Hin. apply list_elem_of_fmap in Hin as (n & Hn & Hr%elem_of_seqZ). exists n. split; [lia|done].
Qed.

Definition latencies_valid (t : list RequestEvent) : Prop :=
  Forall duration_valid (event_latency <$> t).

Lemma latencies_valid_snoc t ev :
  latencies_valid t -> duration_valid (event_latency ev) -> latencies_valid (t ++ [ev]).
Proof.
  unfold latencies_valid. intros Ht Hev. rewrite fmap_app. apply Forall_app. split; [done|].
  by constructor.
Qed.

(** ** Distinct digests *)

Section Collisions.
Context `{Sha256}.

(** SHA-256 does not collide on the given identities. *)
Definition collision_free (ids : RequestIdentity -> Prop) : Prop :=
  forall a b, ids a -> ids b -> identity_digest a = identity_digest b -> a = b.

Lemma issued_NoDup identity (t : list RequestEvent) :
  issued identity t ->
  (forall m n, (0 <= m < len t)%Z -> (0 <= n < len t)%Z -> identity m = identity n -> m = n) ->
  collision_free (fun a => exists n, (0 <= n < len t)%Z /\ a = identity n) ->
  NoDup (event_digests t).
Proof.
  intros Ht Hinj Hcf.
  assert (Hd : event_digests t = (fun n => identity_digest (identity n)) <$> seqZ 0 (len t)).
  { transitivity (identity_digest <$> (event_identity <$> t)); [by rewrite <-list_fmap_compose|].
    rewrite Ht. by rewrite <-list_fmap_compose. }
  rewrite Hd. apply NoDup_fmap_2_strong; [|apply NoDup_seqZ].
  intros m n Hm%elem_of_seqZ Hn%elem_of_seqZ Heq. apply Hinj; [lia|lia|].
  apply Hcf; [exists m; split; [lia|done]|exists n; split; [lia|done]|done].
Qed.
End Collisions.

(** ** The clock laws at work *)

Section Clocks.
Context {P W : Type} `{HP : CatalogPort P W, HC : Clock W, HL : !ClockLaws P W}.

Lemma elapsed_spec started w :
  (0 <= started)%Z ->
  duration_valid (elapsed started w).1 /\ (clock_time w <= clock_time (elapsed started w).2)%Z /\
  ((started < clock_time w)%Z -> is_zero (elapsed started w).1 = false).
Proof.
  intros Hs. unfold elapsed. pose proof (clock_now_spec (P := P) w) as [[Hw Hw'] Hr].
  pose proof (instant_range (P := P) (W := W)). destruct (clock_now w) as [now w']. simpl in *.
  unfold saturating_sub. split; [apply duration_of_nanos_valid; lia|]. split; [lia|].
  intros Hlt. apply duration_of_nanos_pos. lia.
Qed.
End Clocks.

(** ** What an answer is *)

(** The identity a request carried and the answer the port gave. *)
Definition answer (ev : RequestEvent) : RequestIdentity * RequestOutcome :=
  (event_identity ev, event_outcome ev).

(** The counts of a list of answers. *)
Definition answer_counts (log : list (RequestIdentity * RequestOutcome)) : RequestCounts := {|
  attempts := len log;
  accepted := len (filter (fun a => a.2 = Accepted) log);
  conflicts := len (filter (fun a => a.2 = Conflict) log);
  errors := len (filter (fun a => is_error a.2 = true) log);
|}.

(** The digests of the accepted answers. *)
Definition accepted_answers `{Sha256} (log : list (RequestIdentity * RequestOutcome)) : AcceptedRequests :=
  list_to_set ((fun a => identity_digest a.1) <$> filter (fun a => a.2 = Accepted) log).

Lemma filter_fmap {A B} (f : A -> B) (p : B -> Prop) `{forall b, Decision (p b)} (l : list A) :
  filter p (f <$> l) = f <$> filter (fun a => p (f a)) l.
Proof.
  induction l as [|a l IH]; [done|]. rewrite fmap_cons, !filter_cons, IH. by case_decide.
Qed.

Lemma answer_counts_events `{Sha256} t : answer_counts (answer <$> t) = event_counts t.
Proof.
  unfold answer_counts, event_counts. rewrite !filter_fmap. unfold len. rewrite !length_fmap. done.
Qed.

Lemma accepted_answers_events `{Sha256} t :
  accepted_answers (answer <$> t) = list_to_set (event_digests (accepted_events t)).
Proof.
  unfold accepted_answers, event_digests, accepted_events, with_outcome.
  rewrite filter_fmap, <-list_fmap_compose. done.
Qed.

Lemma answer_counts_proper log log' : log ≡ₚ log' -> answer_counts log = answer_counts log'.
Proof. intros Hp. unfold answer_counts, len. by rewrite Hp. Qed.

Lemma accepted_answers_proper `{Sha256} log log' :
  log ≡ₚ log' -> accepted_answers log = accepted_answers log'.
Proof. intros Hp. unfold accepted_answers. apply list_to_set_perm_L. by rewrite Hp. Qed.

(** What a phase publishes about the answers it was given. *)
Definition publishes `{Sha256} (log : list (RequestIdentity * RequestOutcome)) (ph : PhaseEvidence)
    (acc : AcceptedRequests) : Prop :=
  counts ph = answer_counts log /\ fully_accounted (counts ph) = true /\ acc = accepted_answers log.

Lemma publishes_proper `{Sha256} log log' ph acc :
  log ≡ₚ log' -> publishes log ph acc <-> publishes log' ph acc.
Proof.
  intros Hp. unfold publishes. by rewrite (answer_counts_proper _ _ Hp), (accepted_answers_proper _ _ Hp).
Qed.

Lemma finish_publishes `{Sha256} l t total :
  represents l t -> (len t <= u64_max)%Z -> latencies_valid t -> is_zero total = false ->
  exists ph acc, finish l total = Ok (ph, acc) /\ publishes (answer <$> t) ph acc.
Proof.
  intros Hl Hlen Hv Hz. destruct (finish_counts l t total Hl Hlen Hv) as [_ Hfin].
  destruct (Hfin Hz) as (ph & -> & Hc & _). exists ph, (accepted_requests l). split; [done|].
  split; [by rewrite answer_counts_events|]. split; [rewrite Hc; by apply event_counts_accounted|].
  rewrite accepted_answers_events. apply Hl.
Qed.

(** ** Serial phases *)

(** The identities a sequence [identity] can issue in fewer than [bound] steps. *)
Definition identities_below (identity : Z -> RequestIdentity) (bound : Z) (a : RequestIdentity) : Prop :=
  exists n, (0 <= n < bound)%Z /\ a = identity n.

Lemma next_fresh `{Sha256} prefix bound t :
  issued (numbered prefix) t -> collision_free (identities_below (numbered prefix) bound) ->
  (len t < bound)%Z -> identity_digest (numbered prefix (len t)) ∉ event_digests t.
Proof.
  intros Ht Hcf Hlt (ev & Heq & Hev)%list_elem_of_fmap.
  destruct (issued_elem _ _ _ Ht Hev) as (n & Hn & Hid). rewrite Hid in Heq.
  pose proof (len_nonneg t). apply Hcf in Heq.
  - apply numbered_inj in Heq; lia.
  - exists (len t). split; [lia|done].
  - exists n. split; [lia|done].
Qed.

Section Serial.
Context {P W : Type} `{HP : CatalogPort P W, HC : Clock W, HL : !ClockLaws P W, HS : Sha256}.
Context (catalog : P) (config : RoundExecutionConfig) (phase uuid : string).

Definition serial_prefix : string :=
  rc_catalog config +:+ "/" +:+ fx_id (rc_fixture config) +:+ "/" +:+ display (rc_repetition config)
  +:+ "/" +:+ phase.

Lemma request_identity_serial n :
  request_identity config phase None n = Ok (numbered serial_prefix n).
Proof.
  unfold request_identity.
  replace (_ +:+ _)%string with (serial_prefix +:+ "/" +:+ display n)
    by (unfold serial_prefix; by rewrite <-!append_assoc).
  by rewrite RequestIdentity_new_numbered.
Qed.

(** The answers of [n] requests issued one after the other. *)
Fixpoint serial_answers (n : nat) (sequence : Z) (w : W) : list (RequestIdentity * RequestOutcome) * W :=
  match n with
  | O => ([], w)
  | S n =>
      let identity := numbered serial_prefix sequence in
      let '(_, w) := clock_now w in
      let '(outcome, w) :=
        commit catalog uuid (rw_commit_property (rc_workload config)) identity w in
      let '(_, w) := clock_now w in
      let '(log, w) := serial_answers n (sequence + 1) w in
      ((identity, outcome) :: log, w)
  end.

Lemma serial_answers_len n sequence w : len (serial_answers n sequence w).1 = Z.of_nat n.
Proof.
  revert sequence w. induction n as [|n IH]; intros q w; [done|]. simpl.
  destruct (clock_now w) as [? w1]. destruct (commit _ _ _ _ w1) as [o w2].
  destruct (clock_now w2) as [? w3]. specialize (IH (q + 1)%Z w3).
  destruct (serial_answers n (q + 1) w3) as [log w4]. simpl in *. rewrite len_cons. lia.
Qed.

Lemma serial_loop n l t w :
  collision_free (identities_below (numbered serial_prefix) (len t + Z.of_nat n)) ->
  (len t + Z.of_nat n <= u64_max)%Z ->
  represents l t -> issued (numbered serial_prefix) t -> latencies_valid t ->
  exists l' t', serial_requests catalog config phase uuid n (len t) l w
      = (Ok l', (serial_answers n (len t) w).2) /\
    represents l' t' /\ latencies_valid t' /\
    answer <$> t' = ((answer <$> t) ++ (serial_answers n (len t) w).1)%list.
Proof.
  revert l t w. induction n as [|n IH]; intros l t w Hcf Hlen Hl Ht Hv.
  { exists l, t. simpl. by rewrite app_nil_r. }
  simpl. rewrite request_identity_serial.
  pose proof (clock_now_spec (P := P) w) as [_ Hr].
  destruct (clock_now w) as [st w1] eqn:Hnow. simpl in Hr.
  destruct (commit _ _ _ _ w1) as [outcome w2] eqn:Hcommit.
  pose proof (elapsed_spec (P := P) st w2 ltac:(lia)) as (Hdv & _ & _).
  unfold elapsed in *. destruct (clock_now w2) as [now w3]. simpl in Hdv.
  pose (ev := {| event_identity := numbered serial_prefix (len t);
    event_latency := duration_of_nanos (saturating_sub now st); event_outcome := outcome |}).
  destruct (record_fresh l t ev Hl) as (l1 & Hrec & Hl1); [|lia|].
  { eapply next_fresh; [done|exact Hcf|lia]. }
  simpl in Hrec. rewrite Hrec.
  destruct (IH l1 (t ++ [ev])%list w3) as (l' & t' & Hser & Hl' & Hv' & Hans);
    rewrite ?len_snoc in *; [|lia|done|by apply issued_snoc|by apply latencies_valid_snoc|].
  { by replace (len t + 1 + Z.of_nat n)%Z with (len t + Z.of_nat (S n))%Z by lia. }
  destruct (serial_answers n (len t + 1) w3) as [log w4]. simpl in *.
  exists l', t'. split; [done|]. split; [done|]. split; [done|].
  rewrite Hans, fmap_app, <-app_assoc. done.
Qed.

Lemma serial_phase_publishes n w :
  collision_free (identities_below (numbered serial_prefix) n) -> in_u64 n ->
  let '(started, w1) := clock_now w in
  let '(log, w2) := serial_answers (Z.to_nat n) 0 w1 in
  let '(total, w3) := elapsed started w2 in
  len log = n /\
  if is_zero total
  then run_serial_phase catalog config phase n uuid w = (Err (Model (Statistics ZeroElapsed)), w3)
  else exists ph acc, run_serial_phase catalog config phase n uuid w = (Ok (ph, acc), w3) /\
         publishes log ph acc.
Proof.
  intros Hcf [Hn0 Hn]. unfold run_serial_phase. destruct (clock_now w) as [started w1].
  pose proof (serial_answers_len (Z.to_nat n) 0 w1) as Hlen.
  destruct (serial_loop (Z.to_nat n) ledger_default [] w1) as (l & t & Hser & Hl & Hv & Hans);
    rewrite ?len_nil, ?Z.add_0_l, ?Z2Nat.id in * by done;
    [done|done|apply represents_default|apply issued_nil|constructor|].
  rewrite Hser. destruct (serial_answers (Z.to_nat n) 0 w1) as [log w2]. simpl in *.
  assert (Hlt : (len t <= u64_max)%Z).
  { apply (f_equal len) in Hans. rewrite len_fmap in Hans. lia. }
  destruct (elapsed started w2) as [total w3]. split; [done|].
  destruct (is_zero total) eqn:Hz.
  - destruct (finish_counts l t total Hl Hlt Hv) as [Hfin _]. by rewrite Hfin.
  - destruct (finish_publishes l t total Hl Hlt Hv Hz) as (ph & acc & -> & Hpub).
    exists ph, acc. split; [done|]. by rewrite <-Hans.
Qed.
End Serial.

#[export] Instance Move_eq_dec : EqDecision Move.
Proof. solve_decision. Defined.

(** ** Logs of several writers *)

(** The part of a log that belongs to writer [i]. *)
Definition log_of {A} (i : nat) (log : list (nat * A)) : list A := (filter (fun a => a.1 = i) log).*2.

Lemma log_of_app {A} i (log log' : list (nat * A)) :
  log_of i (log ++ log') = (log_of i log ++ log_of i log')%list.
Proof. unfold log_of. by rewrite filter_app, fmap_app. Qed.

Lemma log_of_same {A} i (l : list A) : log_of i (pair i <$> l) = l.
Proof.
  unfold log_of. induction l as [|a l IH]; [done|]. rewrite fmap_cons, filter_cons_True by done.
  rewrite fmap_cons, IH. done.
Qed.

Lemma log_of_other {A} i j (l : list A) : i <> j -> log_of i (pair j <$> l) = [].
Proof.
  intros Hij. unfold log_of. induction l as [|a l IH]; [done|].
  by rewrite fmap_cons, filter_cons_False by (simpl; congruence).
Qed.

Lemma log_of_len {A} i (log : list (nat * A)) : (len (log_of i log) <= len log)%Z.
Proof. unfold len, log_of. rewrite length_fmap. pose proof (length_filter (fun a => a.1 = i) log). lia. Qed.

Lemma log_of_without {A} i j (log : list (nat * A)) :
  i <> j -> log_of i (filter (fun a => a.1 <> j) log) = log_of i log.
Proof.
  intros Hij. unfold log_of. f_equal. rewrite list_filter_filter_l; [done|]. intros a -> . done.
Qed.

Lemma log_of_partition {A} i (log : list (nat * A)) :
  log.*2 ≡ₚ (log_of i log ++ (filter (fun a => a.1 <> i) log).*2)%list.
Proof.
  unfold log_of. rewrite <-fmap_app. apply fmap_Permutation. symmetry. apply filter_app_complement.
Qed.

Lemma log_of_others {A} i js (log : list (nat * A)) :
  i ∉ js -> js ≫= (fun j => log_of j (filter (fun a => a.1 <> i) log)) = js ≫= (fun j => log_of j log).
Proof.
  intros Hi. induction js as [|j js IH]; [done|]. apply not_elem_of_cons in Hi as [Hij Hi].
  rewrite !bind_cons, IH by done. by rewrite log_of_without by done.
Qed.

(** Grouping a log by distinct writers keeps every entry once. *)
Lemma log_of_group {A} js (log : list (nat * A)) :
  NoDup js -> (js ≫= (fun j => log_of j log)) ⊆+ log.*2.
Proof.
  intros Hnd. revert log. induction Hnd as [|i js Hi Hnd IH]; intros log; [apply submseteq_nil_l|].
  rewrite bind_cons, (log_of_partition i log), <-(log_of_others i js log) by done.
  apply submseteq_skips_l. apply IH.
Qed.

Lemma log_of_group_all {A} js (log : list (nat * A)) :
  NoDup js -> Forall (fun a => a.1 ∈ js) log -> (js ≫= (fun j => log_of j log)) ≡ₚ log.*2.
Proof.
  intros Hnd. revert log. induction Hnd as [|i js Hi Hnd IH]; intros log Hin.
  { destruct Hin as [|a log Ha]; [done|]. by apply not_elem_of_nil in Ha. }
  rewrite bind_cons, (log_of_partition i log), <-(log_of_others i js log) by done.
  apply Permutation_app_head. apply IH. apply Forall_forall. intros a [Ha Hlog]%list_elem_of_filter.
  rewrite Forall_forall in Hin. apply Hin in Hlog. apply elem_of_cons in Hlog as [|]; done.
Qed.

(** ** Concurrent writers *)

Section Concurrent.
Context {P W : Type} `{HP : CatalogPort P W, HC : Clock W, HL : !ClockLaws P W, HS : Sha256}.
Context (catalog : P) (uuid property root : string) (deadline : Z).

Local Notation wstep := (writer_step catalog uuid property root deadline).

(** What a writer that has recorded the events [t] knows. *)
Record recorded (i : nat) (q : Z) (l : RequestLedger) (t : list RequestEvent) : Prop := {
  recorded_ledger : represents l t;
  recorded_issued : issued (writer_identity root i) t;
  recorded_sequence : q = len t;
  recorded_latencies : latencies_valid t;
}.

(** Writer [i] has been given the answers [log]. *)
Definition writer_inv (i : nat) (log : list (RequestIdentity * RequestOutcome)) (w : W)
    (s : WriterState) : Prop :=
  match s with
  | Ready q l => exists t, recorded i q l t /\ log = answer <$> t
  | InFlight q l identity started =>
      exists t, recorded i q l t /\ log = answer <$> t /\ identity = writer_identity root i q /\
        (0 <= started)%Z
  | Answered q l identity started outcome =>
      exists t, recorded i q l t /\ log = ((answer <$> t) ++ [(identity, outcome)])%list /\
        identity = writer_identity root i q /\ (0 <= started)%Z
  | Finished (Ok l) =>
      (exists t, recorded i (len t) l t /\ log = answer <$> t) /\ (deadline <= clock_time w)%Z
  | Finished (Err _) | Panicked _ => False
  end.

Lemma writer_inv_later i log w w' s :
  (clock_time w <= clock_time w')%Z -> writer_inv i log w s -> writer_inv i log w' s.
Proof.
  intros Hw. destruct s as [| | |[l|e]|]; simpl; try done. intros [Ht Hd]. split; [done|lia].
Qed.

(** The answer a step receives. *)
Definition answer_of (s' : WriterState) (s : WriterState) : list (RequestIdentity * RequestOutcome) :=
  match s, s' with
  | InFlight _ _ _ _, Answered _ _ identity _ outcome => [(identity, outcome)]
  | _, _ => []
  end.

Lemma writer_step_inv i log w s bound :
  writer_inv i log w s -> (len log <= bound)%Z -> (bound <= u64_max)%Z ->
  collision_free (identities_below (writer_identity root i) bound) ->
  writer_inv i (log ++ answer_of (wstep i s w).1 s) (wstep i s w).2 (wstep i s w).1 /\
  (clock_time w <= clock_time (wstep i s w).2)%Z.
Proof.
  intros Hinv Hlen Hbound Hcf.
  destruct s as [q l|q l identity st|q l identity st outcome|[l|e]|text]; simpl in Hinv; try done.
  - destruct Hinv as (t & Hrec & ->). unfold writer_step.
    replace (RequestIdentity_new _) with (Ok (E := ModelError) (writer_identity root i q))
      by (unfold writer_identity; rewrite <-RequestIdentity_new_numbered;
          unfold writer_prefix; by rewrite <-!append_assoc).
    pose proof (clock_now_spec (P := P) w) as [[Hw Hw'] Hr].
    destruct (clock_now w) as [now w1]. simpl in Hw, Hw', Hr.
    destruct (Z.leb_spec deadline now); simpl; rewrite app_nil_r.
    + split; [|lia]. split; [|lia]. exists t. split; [|done]. destruct Hrec as [? ? -> ?]. by split.
    + split; [|lia]. exists t. repeat split; try done; lia || apply Hrec.
  - destruct Hinv as (t & Hrec & -> & -> & Hst). simpl.
    pose proof (clock_commit catalog uuid property (writer_identity root i q) w) as Hc.
    destruct (commit _ _ _ _ w) as [outcome w1]. simpl in *. split; [|done].
    exists t. repeat split; try done; apply Hrec.
  - destruct Hinv as (t & [Hl Hi -> Hv] & -> & -> & Hst). simpl.
    rewrite len_snoc, len_fmap in Hlen.
    pose proof (elapsed_spec (P := P) st w Hst) as (Hdv & Htime & _).
    destruct (elapsed st w) as [latency w1]. simpl in Hdv, Htime.
    pose (ev := {| event_identity := writer_identity root i (len t);
      event_latency := latency; event_outcome := outcome |}).
    destruct (record_fresh l t ev Hl) as (l1 & Hrec & Hl1); [|lia|].
    { eapply next_fresh; [done|exact Hcf|lia]. }
    simpl in Hrec. rewrite Hrec. unfold checked_add.
    destruct (Z.leb_spec (len t + 1) u64_max); [|lia]. simpl. rewrite app_nil_r. split; [|done].
    exists (t ++ [ev])%list. rewrite fmap_app. split; [|done]. rewrite <-len_snoc with (a := ev).
    split; [done|by apply issued_snoc|done|by apply latencies_valid_snoc].
  - rewrite app_nil_r. simpl. split; [done|lia].
Qed.

(** *** All the writers together *)

(** The answers given while a schedule runs, with the writers they went to. *)
Fixpoint answers (moves : list Move) (c : list WriterState * W)
  : list (nat * (RequestIdentity * RequestOutcome)) :=
  match moves with
  | [] => []
  | m :: moves =>
      let given := match m with
        | Step i => match c.1 !! i with
                    | Some s => pair i <$> answer_of (wstep i s c.2).1 s
                    | None => []
                    end
        | Panic _ _ => []
        end in
      given ++ answers moves (move wstep m c)
  end.

Definition config_inv (log : list (nat * (RequestIdentity * RequestOutcome))) (c : list WriterState * W)
  : Prop :=
  (forall i s, c.1 !! i = Some s -> writer_inv i (log_of i log) c.2 s) /\
  Forall (fun a => (a.1 < length c.1)%nat) log.

(** The identities that [n] writers can issue in fewer than [bound] steps. *)
Definition writers_identities (n : nat) (bound : Z) (a : RequestIdentity) : Prop :=
  exists i, (i < n)%nat /\ identities_below (writer_identity root i) bound a.

Definition is_step (m : Move) : bool := match m with Step _ => true | Panic _ _ => false end.

Lemma writers_collision_free n bound i :
  collision_free (writers_identities n bound) -> (i < n)%nat ->
  collision_free (identities_below (writer_identity root i) bound).
Proof. intros Hcf Hi a b Ha Hb. apply Hcf; exists i; done. Qed.

Lemma answer_of_len s s' : (0 <= len (answer_of s' s) <= 1)%Z.
Proof. destruct s, s'; unfold len; simpl; lia. Qed.

Lemma move_inv i log writers w bound :
  config_inv log (writers, w) -> (len log <= bound <= u64_max)%Z ->
  collision_free (writers_identities (length writers) bound) ->
  config_inv (log ++ match writers !! i with
                     | Some s => pair i <$> answer_of (wstep i s w).1 s
                     | None => []
                     end) (move wstep (Step i) (writers, w)) /\
  length (move wstep (Step i) (writers, w)).1 = length writers.
Proof.
  intros [Hinv Hkeys] Hbound Hcf. simpl in *. destruct (writers !! i) as [s|] eqn:Hs.
  2: { rewrite app_nil_r. done. }
  pose proof (lookup_lt_Some _ _ _ Hs) as Hi.
  pose proof (log_of_len i log) as Hlen.
  destruct (writer_step_inv i (log_of i log) w s bound) as [Hi' Htime];
    [by apply Hinv|lia|lia|by eapply writers_collision_free|].
  destruct (wstep i s w) as [s' w'] eqn:Hstep. simpl in *.
  rewrite length_insert. split; [|done]. split; simpl.
  - intros j r Hj. rewrite log_of_app. destruct (decide (j = i)) as [->|Hne].
    + rewrite list_lookup_insert_eq in Hj by done. injection Hj as <-. by rewrite log_of_same.
    + rewrite list_lookup_insert_ne in Hj by done. rewrite log_of_other, app_nil_r by done.
      eapply writer_inv_later; [exact Htime|]. by apply Hinv.
  - rewrite length_insert. apply Forall_app. split; [done|].
    apply Forall_forall. intros a (b & -> & _)%list_elem_of_fmap. done.
Qed.

Lemma moves_inv moves log c bound :
  forallb is_step moves = true -> config_inv log c -> (len log + len moves <= bound <= u64_max)%Z ->
  collision_free (writers_identities (length c.1) bound) ->
  config_inv (log ++ answers moves c) (foldl (fun c m => move wstep m c) c moves) /\
  length (foldl (fun c m => move wstep m c) c moves).1 = length c.1.
Proof.
  revert log c. induction moves as [|m moves IH]; intros log c Hsteps Hinv Hbound Hcf.
  { simpl. by rewrite app_nil_r. }
  destruct m as [i|i text]; [|done]. cbn [forallb is_step andb] in Hsteps. cbn [answers foldl].
  destruct c as [writers w]. cbn [fst snd] in *. rewrite len_cons in Hbound.
  pose proof (len_nonneg moves).
  destruct (move_inv i log writers w bound Hinv) as [Hinv' Hlen]; [lia|done|].
  rewrite app_assoc.
  destruct (IH _ (move wstep (Step i) (writers, w)) Hsteps Hinv') as [Hend Hlen'].
  - rewrite len_app. destruct (writers !! i) as [s|]; rewrite ?len_fmap, ?len_nil; [|lia].
    pose proof (answer_of_len s (wstep i s w).1). lia.
  - by rewrite Hlen.
  - split; [exact Hend|]. by rewrite Hlen', Hlen.
Qed.

(** *** Joining *)

(** The ledger that has absorbed the writers [joined]. *)
Record joined_inv (log : list (nat * (RequestIdentity * RequestOutcome))) (bound : Z)
    (joined : list nat) (l : RequestLedger) (t : list RequestEvent) : Prop := {
  joined_ledger : represents l t;
  joined_latencies : latencies_valid t;
  joined_answers : answer <$> t = joined ≫= (fun j => log_of j log);
  joined_issued : forall ev, ev ∈ t -> exists j, j ∈ joined /\
    identities_below (writer_identity root j) bound (event_identity ev);
}.

Lemma join_step log writers w bound joined i s l t :
  config_inv log (writers, w) -> (len log <= bound <= u64_max)%Z ->
  collision_free (writers_identities (length writers) bound) ->
  NoDup (joined ++ [i])%list -> Forall (fun j => (j < length writers)%nat) joined ->
  writers !! i = Some s -> terminal s = true -> joined_inv log bound joined l t ->
  exists l' t', join_writer (l, None) s = (l', None) /\ joined_inv log bound (joined ++ [i])%list l' t'.
Proof.
  intros [Hinv _] Hbound Hcf Hnd Hjoined Hs Hterm [Hl Hv Hans Hissued].
  specialize (Hinv i s Hs). destruct s as [| | |[li|e]|]; try done; simpl in Hinv.
  destruct Hinv as [(ti & [Hli Hii _ Hvi] & Hlog) _].
  pose proof (lookup_lt_Some _ _ _ Hs) as Hi.
  assert (Hissued' : forall ev, ev ∈ ti ->
    identities_below (writer_identity root i) bound (event_identity ev)).
  { intros ev Hev. destruct (issued_elem _ _ _ Hii Hev) as (n & Hn & Hid). exists n. split; [|done].
    pose proof (log_of_len i log) as Hle. rewrite Hlog, len_fmap in Hle. lia. }
  assert (Hall : answer <$> (t ++ ti)%list = (joined ++ [i])%list ≫= (fun j => log_of j log)).
  { rewrite fmap_app, Hans, <-Hlog, bind_app. simpl. by rewrite app_nil_r. }
  destruct (merge_distinct l li t ti Hl Hli) as (m & Hmerge & Hm).
  - rewrite event_digests_app. apply NoDup_app. split; [apply Hl|]. split; [|apply Hli].
    intros d (ev & -> & Hev)%list_elem_of_fmap (ev' & Heq & Hev')%list_elem_of_fmap.
    destruct (Hissued _ Hev) as (j & Hj & Hid). pose proof (Hissued' _ Hev') as Hid'.
    rewrite Forall_forall in Hjoined. apply Hcf in Heq; [|by exists j; split; [apply Hjoined|]|by exists i].
    destruct Hid as (n & Hn & Hid), Hid' as (n' & Hn' & Hid'). rewrite Hid, Hid' in Heq.
    apply writer_identity_inj in Heq as [-> _]; [|lia|lia].
    apply NoDup_app in Hnd as (_ & Hnd & _). apply (Hnd i Hj). by left.
  - pose proof (log_of_group (joined ++ [i])%list log Hnd) as Hle%submseteq_length.
    rewrite <-Hall, !length_fmap, length_app in Hle. unfold len in *. lia.
  - exists m, (t ++ ti)%list. unfold join_writer. rewrite Hmerge. split; [done|]. split.
    + done.
    + unfold latencies_valid in *. rewrite fmap_app. by apply Forall_app.
    + done.
    + intros ev [Hev|Hev]%elem_of_app.
      * destruct (Hissued _ Hev) as (j & Hj & Hid). exists j. split; [|done]. apply elem_of_app. by left.
      * exists i. split; [|by apply Hissued']. apply elem_of_app. right. by left.
Qed.

Lemma joins_inv log writers w bound js joined l t :
  config_inv log (writers, w) -> (len log <= bound <= u64_max)%Z ->
  collision_free (writers_identities (length writers) bound) -> forallb terminal writers = true ->
  NoDup (joined ++ js)%list -> Forall (fun j => (j < length writers)%nat) (joined ++ js)%list ->
  joined_inv log bound joined l t ->
  exists l' t', foldl join_writer (l, None) (omap (fun i => writers !! i) js) = (l', None) /\
    joined_inv log bound (joined ++ js)%list l' t'.
Proof.
  intros Hinv Hbound Hcf Hterm. revert joined l t.
  induction js as [|i js IH]; intros joined l t Hnd Hlt Hj.
  { exists l, t. by rewrite app_nil_r. }
  assert (Hassoc : (joined ++ i :: js = (joined ++ [i]) ++ js)%list) by by rewrite <-app_assoc.
  rewrite Hassoc in Hnd, Hlt |- *.
  pose proof Hlt as [[Hjoined Hi]%Forall_app _]%Forall_app. apply Forall_inv in Hi.
  destruct (lookup_lt_is_Some_2 _ _ Hi) as [s Hs]. cbn [omap list_omap]. rewrite Hs. cbn [foldl].
  destruct (join_step log writers w bound joined i s l t) as (l1 & t1 & -> & Hj1); try done.
  - by apply NoDup_app in Hnd as (? & _ & _).
  - rewrite forallb_forall in Hterm. apply Hterm, list_elem_of_In, (list_elem_of_lookup_2 _ i), Hs.
  - by apply (IH (joined ++ [i])%list l1 t1).
Qed.

Lemma answers_len moves c : (len (answers moves c) <= len moves)%Z.
Proof.
  revert c. induction moves as [|m moves IH]; intros c; [done|]. cbn [answers].
  rewrite len_app, len_cons. specialize (IH (move wstep m c)).
  destruct m as [i|]; [|rewrite len_nil; lia]. destruct (c.1 !! i) as [s|]; [|rewrite len_nil; lia].
  rewrite len_fmap. pose proof (answer_of_len s (wstep i s c.2).1). lia.
Qed.

(** *** Ending *)

(** The moves a writer still makes once the deadline has passed. *)
Definition remaining (s : WriterState) : nat :=
  match s with
  | InFlight _ _ _ _ => 3
  | Answered _ _ _ _ _ => 2
  | Ready _ _ => 1
  | Finished _ | Panicked _ => 0
  end.

Lemma remaining_terminal s : remaining s = 0%nat -> terminal s = true.
Proof. by destruct s. Qed.

Lemma step_remaining i s w :
  (deadline <= clock_time w)%Z ->
  (remaining (wstep i s w).1 <= pred (remaining s))%nat /\ (deadline <= clock_time (wstep i s w).2)%Z.
Proof.
  intros Hd. pose proof (clock_now_spec (P := P) w) as [[Hw Hw'] _].
  destruct s as [q l|q l identity st|q l identity st outcome|r|text]; try (simpl; lia).
  - unfold writer_step. destruct (RequestIdentity_new _) as [identity|e]; [|simpl; lia].
    destruct (clock_now w) as [now w1]. simpl in *. destruct (Z.leb_spec deadline now); simpl; lia.
  - pose proof (clock_commit catalog uuid property identity w) as Hc. unfold writer_step.
    destruct (commit _ _ _ _ w) as [outcome w1]. simpl in *. lia.
  - unfold writer_step, elapsed. destruct (clock_now w) as [now w1]. simpl in *.
    destruct (record _ _ _ _) as [l1 [|e]]; [|simpl; lia].
    destruct (checked_add _ _ _); simpl; lia.
Qed.

Lemma move_remaining m c j s' :
  (deadline <= clock_time c.2)%Z -> (move wstep m c).1 !! j = Some s' ->
  exists s, c.1 !! j = Some s /\
    (remaining s' <= if bool_decide (m = Step j) then pred (remaining s) else remaining s)%nat.
Proof.
  intros Hd. destruct c as [writers w], m as [i|i text]; simpl in *.
  - destruct (writers !! i) as [s|] eqn:Hs; simpl.
    + destruct (step_remaining i s w Hd) as [Hr _]. destruct (wstep i s w) as [r w1]. simpl in *.
      intros [(<- & -> & _)|[Hne Hj]]%list_lookup_insert_Some.
      * exists s. by rewrite bool_decide_eq_true_2.
      * exists s'. rewrite bool_decide_eq_false_2 by congruence. split; [done|lia].
    + intros Hj. exists s'. rewrite bool_decide_eq_false_2; [split; [done|lia]|]. intros [= ->]. congruence.
  - destruct (writers !! i) as [s|] eqn:Hs; simpl; [destruct (terminal s)|]; simpl; intros Hj;
      try (exists s'; split; [done|lia]).
    apply list_lookup_insert_Some in Hj as [(<- & <- & _)|[Hne Hj]];
      [exists s|exists s']; split; [done|simpl; lia|done|lia].
Qed.

Lemma move_time m c : (deadline <= clock_time c.2)%Z -> (deadline <= clock_time (move wstep m c).2)%Z.
Proof.
  intros Hd. destruct c as [writers w], m as [i|i text]; simpl in *; destruct (writers !! i) as [s|]; try done.
  destruct (step_remaining i s w Hd) as [_ Ht]. by destruct (wstep i s w).
Qed.

Lemma moves_remaining moves c j s' :
  (deadline <= clock_time c.2)%Z -> (foldl (fun c m => move wstep m c) c moves).1 !! j = Some s' ->
  exists s, c.1 !! j = Some s /\
    (remaining s' <= remaining s - length (filter (fun m => m = Step j) moves))%nat.
Proof.
  revert c. induction moves as [|m moves IH]; intros c Hd; simpl.
  { intros Hj. exists s'. split; [done|lia]. }
  intros (s1 & Hs1 & Hle1)%IH; [|by apply move_time].
  destruct (move_remaining m c j s1 Hd Hs1) as (s & Hs & Hle). exists s. split; [done|].
  rewrite filter_cons. case_bool_decide; case_decide; try done; simpl; lia.
Qed.

Lemma moves_length moves c : length (foldl (fun c m => move wstep m c) c moves).1 = length c.1.
Proof.
  revert c. induction moves as [|m moves IH]; intros [writers w]; [done|]. simpl. rewrite IH.
  destruct m as [i|i text]; simpl; destruct (writers !! i) as [s|]; try done.
  - destruct (wstep i s w). simpl. apply length_insert.
  - simpl. destruct (terminal s); [done|apply length_insert].
Qed.
End Concurrent.

Section ConcurrentPhase.
Context {P W : Type} `{HP : CatalogPort P W, HC : Clock W, HL : !ClockLaws P W, HS : Sha256}.
Context (catalog : P) (config : RoundExecutionConfig) (uuid : string).

Local Notation property := (rw_commit_property (rc_workload config)).
Local Notation writer_count := (Z.to_nat (rw_concurrent_writers (rc_workload config))).

(** The instant the writers stop issuing requests. *)
Definition phase_deadline (w : W) : Z :=
  ((clock_now w).1 + duration_from_millis (rw_concurrent_duration_ms (rc_workload config)))%Z.

(** The writers before any of them has moved. *)
Definition start_line (w : W) : list WriterState * W :=
  (replicate writer_count (Ready 0 ledger_default), (clock_now w).2).

(** The answers the catalog gives during the phase. *)
Definition phase_answers (choice : Interleaving) (w : W) : list (RequestIdentity * RequestOutcome) :=
  (answers catalog uuid property (identity_root config) (phase_deadline w) (schedule choice)
     (start_line w)).*2.

Lemma start_inv w : config_inv (identity_root config) (phase_deadline w) [] (start_line w).
Proof.
  split; [|constructor]. intros i s [-> _]%lookup_replicate. simpl. exists []. split; [|done].
  split; [apply represents_default|apply issued_nil|done|constructor].
Qed.

(** *** After the writers have ended *)

(** Everything the interleaving leaves behind, from which the phase concludes. *)
Lemma concurrent_phase_ended choice w r w' :
  (0 < rw_concurrent_writers (rc_workload config) < usize_max)%Z ->
  (phase_deadline w <= instant_max)%Z ->
  run_concurrent_phase catalog config uuid choice w = Some (r, w') ->
  let c := foldl (fun c m => move (writer_step catalog uuid property (identity_root config)
                                     (phase_deadline w)) m c) (start_line w) (schedule choice) in
  forallb terminal c.1 = true /\ joins choice ≡ₚ seq 0 (length c.1) /\
  let '(merged, first_error) :=
    foldl join_writer (ledger_default, None) (omap (fun i => c.1 !! i) (joins choice)) in
  match first_error with
  | Some e => r = Err e /\ w' = c.2
  | None => r = lift_model (finish merged (elapsed (clock_now w).1 c.2).1) /\
            w' = (elapsed (clock_now w).1 c.2).2
  end.
Proof.
  intros [Hpos Hmax] Hdl. unfold run_concurrent_phase, try_from, checked_add, start_line, phase_deadline in *.
  destruct (Z.leb_spec (rw_concurrent_writers (rc_workload config)) usize_max); [|lia].
  destruct (Z.leb_spec (rw_concurrent_writers (rc_workload config) + 1) usize_max); [|lia].
  destruct (clock_now w) as [started w1]. simpl in Hdl |- *.
  destruct (Z.leb_spec (started + duration_from_millis (rw_concurrent_duration_ms (rc_workload config)))
              instant_max); [|lia].
  destruct (foldl _ _ _) as [writers w2]. simpl.
  destruct (forallb terminal writers); [|done]. case_bool_decide; [|done]. simpl.
  destruct (foldl join_writer _ _) as [merged [e|]]; [by intros [= <- <-]|].
  destruct (elapsed started w2) as [total w3]. by intros [= <- <-].
Qed.

Lemma concurrent_phase_publishes choice w r w' :
  (0 < rw_concurrent_writers (rc_workload config) < usize_max)%Z ->
  (0 < rw_concurrent_duration_ms (rc_workload config))%Z ->
  forallb is_step (schedule choice) = true -> (len (schedule choice) <= u64_max)%Z ->
  collision_free (writers_identities (identity_root config) writer_count (len (schedule choice))) ->
  (phase_deadline w <= instant_max)%Z ->
  run_concurrent_phase catalog config uuid choice w = Some (r, w') ->
  exists ph acc, r = Ok (ph, acc) /\ publishes (phase_answers choice w) ph acc.
Proof.
  intros Hwriters Hms Hsteps Hlen Hcf Hdl Hrun.
  destruct (concurrent_phase_ended choice w r w' Hwriters Hdl Hrun) as (Hterm & Hjoins & Hend).
  pose proof (moves_inv catalog uuid property (identity_root config) (phase_deadline w) (schedule choice)
    [] (start_line w) (len (schedule choice)) Hsteps (start_inv w)) as [Hinv Hn].
  { rewrite len_nil. lia. }
  { simpl. by rewrite length_replicate. }
  cbn [app] in Hinv. unfold phase_answers.
  set (log := answers _ _ _ _ _ _ _) in *.
  destruct (foldl (fun c m => move _ m c) _ _) as [writers w2]. cbn [fst snd] in *.
  pose proof (answers_len catalog uuid property (identity_root config) (phase_deadline w) (schedule choice)
    (start_line w)) as Hlog. fold log in Hlog.
  assert (Hlw : length writers = writer_count) by (rewrite Hn; simpl; apply length_replicate).
  destruct (joins_inv (identity_root config) (phase_deadline w) log writers w2 (len (schedule choice))
    (joins choice) [] ledger_default []) as (l & t & Hfold & [Hl Hv Hans _]); try done.
  { by rewrite Hlw. }
  { simpl. rewrite Hjoins. apply NoDup_seq. }
  { simpl. rewrite Hjoins. apply Forall_seq. lia. }
  { split; [apply represents_default|constructor|done|]. intros ev Hev. by apply not_elem_of_nil in Hev. }
  rewrite Hfold in Hend. destruct Hend as [-> _]. simpl in Hans.
  destruct Hinv as [Hinv Hkeys].
  assert (Hp : answer <$> t ≡ₚ log.*2).
  { rewrite Hans. apply log_of_group_all; [rewrite Hjoins; apply NoDup_seq|].
    eapply Forall_impl; [exact Hkeys|]. intros a Ha. rewrite Hjoins. apply elem_of_seq. simpl in Ha. lia. }
  assert (Htime : (phase_deadline w <= clock_time w2)%Z).
  { destruct (lookup_lt_is_Some_2 writers 0) as [s Hs]; [lia|]. specialize (Hinv 0%nat s Hs).
    rewrite forallb_forall in Hterm. specialize (Hterm s).
    destruct s as [| | |[|]|]; try (by apply Hinv); try done;
      exfalso; discriminate Hterm; by apply list_elem_of_In, (list_elem_of_lookup_2 _ 0%nat). }
  pose proof (clock_now_spec (P := P) w) as [_ [Hr0 _]].
  pose proof (elapsed_spec (P := P) (clock_now w).1 w2 Hr0) as (_ & _ & Hz).
  destruct (finish_publishes l t (elapsed (clock_now w).1 w2).1 Hl) as (ph & acc & -> & Hpub); [|done| |].
  - apply Permutation_length in Hp. rewrite !length_fmap in Hp. unfold len in *. lia.
  - apply Hz. unfold phase_deadline, duration_from_millis in *. lia.
  - exists ph, acc. split; [done|]. by rewrite <-(publishes_proper _ _ _ _ Hp).
Qed.

(** *** The phase ends *)

(** [choice] lets every writer move three times after the deadline. *)
Definition fair (choice : Interleaving) (w : W) : Prop :=
  exists before after, schedule choice = (before ++ after)%list /\
    (phase_deadline w <= clock_time
       (foldl (fun c m => move (writer_step catalog uuid property (identity_root config)
                                  (phase_deadline w)) m c) (start_line w) before).2)%Z /\
    forall i, (i < writer_count)%nat -> (3 <= length (filter (fun m => m = Step i) after))%nat.

Lemma concurrent_phase_completes choice w :
  joins choice ≡ₚ seq 0 writer_count -> fair choice w ->
  exists r w', run_concurrent_phase catalog config uuid choice w = Some (r, w').
Proof.
  intros Hjoins (before & after & Hsched & Htime & Hmoves).
  unfold run_concurrent_phase. destruct (try_from _ _) as [n|] eqn:Hn; [|eauto].
  unfold try_from in Hn. destruct (_ <=? usize_max)%Z; [injection Hn as <-|done].
  destruct (checked_add usize_max _ _); [|eauto]. unfold phase_deadline, start_line in *.
  destruct (clock_now w) as [started w1]. unfold checked_add. simpl in Htime.
  destruct (_ <=? instant_max)%Z; [|eauto]. rewrite Hsched, foldl_app.
  set (c := foldl _ (replicate _ _, w1) before) in *.
  assert (Hc : length c.1 = writer_count).
  { unfold c. rewrite moves_length. apply length_replicate. }
  pose proof (moves_length catalog uuid property (identity_root config)
    (started + duration_from_millis (rw_concurrent_duration_ms (rc_workload config))) after c) as Hlen.
  assert (Hterm : forallb terminal (foldl (fun c m => move (writer_step catalog uuid property
      (identity_root config) (started + duration_from_millis (rw_concurrent_duration_ms
        (rc_workload config)))) m c) c after).1 = true).
  { apply forallb_forall. intros s Hs%list_elem_of_In%list_elem_of_lookup_1. destruct Hs as [j Hj].
    pose proof (lookup_lt_Some _ _ _ Hj) as Hlt. rewrite Hlen, Hc in Hlt.
    destruct (moves_remaining _ _ _ _ _ _ _ _ _ Htime Hj) as (s0 & _ & Hle).
    apply remaining_terminal. specialize (Hmoves j Hlt). destruct s0; simpl in Hle; lia. }
  destruct (foldl _ c after) as [writers w2]. simpl in Hterm, Hlen.
  rewrite Hterm, Hlen, Hc, bool_decide_eq_true_2 by done. cbn [andb].
  destruct (foldl join_writer _ _) as [merged [e|]]; [eauto|]. destruct (elapsed started w2). eauto.
Qed.

(** *** A writer that fails *)

Lemma join_error_sticks l e ss : exists l', foldl join_writer (l, Some e) ss = (l', Some e).
Proof.
  revert l. induction ss as [|s ss IH]; intros l; [by exists l|]. cbn [foldl].
  destruct s as [| | |[other|e']|text]; try apply IH.
  cbn [join_writer]. destruct (try_merge l other) as [l' [|e']]; apply IH.
Qed.

(** The error a writer ended with. *)
Definition writer_error (s : WriterState) : option WorkflowError :=
  match s with
  | Finished (Err e) => Some e
  | Panicked text => Some (WriterTask ("concurrent writer task failed: " +:+ text))
  | _ => None
  end.

Lemma join_first_error l ss s e :
  s ∈ ss -> writer_error s = Some e -> exists l' e', foldl join_writer (l, None) ss = (l', Some e').
Proof.
  revert l. induction ss as [|s0 ss IH]; intros l Hin He; [by apply not_elem_of_nil in Hin|].
  cbn [foldl]. assert (Hstop : forall l1 e1, exists l' e', foldl join_writer (l1, Some e1) ss = (l', Some e')).
  { intros l1 e1. destruct (join_error_sticks l1 e1 ss) as [l' Hl']. eauto. }
  apply elem_of_cons in Hin as [<-|Hin].
  - destruct s as [| | |[other|e']|text]; try done; apply Hstop.
  - destruct s0 as [| | |[other|e']|text]; try (by apply Hstop); try (by apply IH).
    cbn [join_writer]. destruct (try_merge l other) as [l' [|e']]; [by apply IH|by apply Hstop].
Qed.
End ConcurrentPhase.
