(* ===== verification/SampleWorld.v ===== *)
(** * An in-memory catalog (test instances, no source)

    A catalog that keeps one table in memory and a clock that ticks by five
    milliseconds: concrete instances of the interfaces the round is proved
    against, used to show that the hypotheses of its theorems can hold. *)

From S2P Require Import Prelude RustStr ContractAdapter ContractResult Stats Ledger Policy Protocol Store Workflow.
From S2P Require Import WorkflowPhases.
From Stdlib Require Import Ascii.
Open Scope string_scope.

(** ** The world *)

Record World := {
  world_time : Z;
  world_namespace : bool;
  world_table : option (Z * gmap string string);
}.

Definition world_limit : Z := 1000000000000000000.
Definition world_now (w : World) : Z := Z.max 0 (Z.min (world_time w) world_limit).
Definition tick : Z := 5000000.

#[export] Instance memory_clock : Clock World := {
  clock_now w :=
    let now := Z.min (world_now w + tick) world_limit in
    (now, {| world_time := now; world_namespace := world_namespace w; world_table := world_table w |});
  instant_max := world_limit;
}.

Definition memory_snapshot (version : Z) (properties : gmap string string) : TableSnapshot := {|
  ts_format_version := 2;
  ts_table_uuid := "uuid";
  ts_location := "s3://b/t";
  ts_metadata_location := "s3://b/t/" +:+ display version +:+ ".metadata.json";
  ts_properties := properties;
|}.

Definition memory_presence (b : bool) : result PresenceObservation CatalogFailure :=
  Ok (if b then {| po_http_status := 204; po_presence := Present |}
      else {| po_http_status := 404; po_presence := Absent |}).

Definition with_table (w : World) (t : option (Z * gmap string string)) : World := {|
  world_time := world_time w; world_namespace := world_namespace w; world_table := t |}.
Definition with_namespace (w : World) (b : bool) : World := {|
  world_time := world_time w; world_namespace := b; world_table := world_table w |}.

#[export] Instance memory_catalog : CatalogPort unit World := {
  requested_location _ := None;
  namespace_presence _ w := (memory_presence (world_namespace w), w);
  table_presence _ w := (memory_presence (if world_table w then true else false), w);
  create_namespace _ w := (Ok {| mr_http_status := 200 |}, with_namespace w true);
  create_table _ w := (Ok (memory_snapshot 0 ∅), with_table w (Some (0%Z, ∅)));
  load_table _ w :=
    match world_table w with
    | Some (version, properties) => (Ok (memory_snapshot version properties), w)
    | None => (Err (unexpected_http 404 "load table" [200%Z]), w)
    end;
  commit _ _ property identity w :=
    match world_table w with
    | Some (version, properties) =>
        (Accepted, with_table w (Some (version + 1, <[property := identity_value identity]> properties)%Z))
    | None => (Error {| error_kind := UnexpectedHttp; error_http_status := Some 404%Z |}, w)
    end;
  drop_table_without_purge _ w := (Ok {| mr_http_status := 204 |}, with_table w None);
  drop_namespace _ w := (Ok {| mr_http_status := 204 |}, with_namespace w false);
}.

#[export] Instance memory_clock_laws : ClockLaws unit World.
Proof.
  refine {| clock_time := world_now |}.
  - intros w. unfold world_now. simpl. unfold world_now, world_limit, tick. lia.
  - intros c uuid property identity w. simpl. destruct (world_table w) as [[version properties]|]; unfold world_now; simpl; lia.
  - unfold NANOS_PER_SEC. by vm_compute.
Defined.

#[export] Instance memory_store : MetadataStore unit World := fun _ root location w =>
  (match world_table w with
   | Some (version, _) =>
       Ok {| audit_table_root := root_location root; audit_metadata_objects := (version + 1)%Z;
             audit_metadata_bytes := (100 * (version + 1))%Z; audit_referenced_metadata_location := location;
             audit_referenced_metadata_exists := true |}
   | None => Err (configuration "no table")
   end, w).

(** The text before the first [c], and the rest from [c] on. *)
Fixpoint split_before (c : ascii) (s : string) : string * string :=
  match s with
  | EmptyString => ("", "")
  | String a rest =>
      if Ascii.eqb a c then ("", s)
      else let '(before, after) := split_before c rest in (String a before, after)
  end.

(** Reads [<scheme>://<host><path>]. *)
#[export] Instance plain_urls : UrlParser := fun s =>
  let '(scheme, rest) := split_before ":" s in
  match rest with
  | String _ (String "/" (String "/" tail)) =>
      let '(host, path) := split_before "/" tail in
      Ok {| url_scheme := scheme; url_host_str := Some host; url_username := ""; url_password := None;
            url_path := path; url_query := None; url_fragment := None |}
  | _ => Err "relative URL without a base"
  end.

#[export] Instance slash_paths : ObjectPaths := {
  path_from_url_path s := match s with String "/" path => Ok path | _ => Ok s end;
  path_prefix_matches path prefix := (path =? prefix) || starts_with (prefix +:+ "/") path;
}.

(** A hash that keeps the last 32 bytes. *)
#[export] Instance tail_hash : Sha256 := fun value => take 32 (rev value ++ replicate 32 ".")%char%list.

#[export] Instance tail_hash_laws : Sha256Laws.
Proof. intros value. unfold sha256, tail_hash. rewrite length_take, length_app, length_replicate. lia. Qed.

(** ** Configurations and interleavings *)

Definition memory_config : RoundExecutionConfig := {|
  rc_catalog := "c"; rc_repetition := 1; rc_kind := Measured;
  rc_fixture := {| fx_id := "f"; fx_namespace := "n"; fx_table := "t" |};
  rc_workload := {| rw_warmup_commits := 2; rw_sequential_commits := 3; rw_concurrent_writers := 2;
                    rw_concurrent_duration_ms := 12; rw_commit_property := "p" |};
  rc_object_store_bucket := "b";
|}.

(** Both writers have a request in flight at once; writer 1 is joined first. *)
Definition memory_choice : Interleaving := {|
  schedule := [Step 0; Step 1; Step 1; Step 0; Step 0; Step 1; Step 0; Step 1; Step 1; Step 0];
  joins := [1; 0];
|}%nat.

Definition empty_world : World := {| world_time := 0; world_namespace := false; world_table := None |}.
Definition created_world : World :=
  {| world_time := 0; world_namespace := true; world_table := Some (0%Z, ∅) |}.

(** ** Finite sets of identities *)

Lemma collision_free_list `{Sha256} (ids : RequestIdentity -> Prop) (l : list RequestIdentity) :
  (forall a, ids a -> a ∈ l) -> NoDup (identity_digest <$> l) -> collision_free ids.
Proof.
  intros Hin Hnd a b Ha%Hin Hb%Hin Heq.
  apply list_elem_of_lookup in Ha as [i Ha]. apply list_elem_of_lookup in Hb as [j Hb].
  pose proof (NoDup_key_lookup identity_digest l i j a b Hnd Ha Hb Heq) as ->. congruence.
Qed.

Lemma identities_below_list identity bound a :
  identities_below identity bound a -> a ∈ identity <$> seqZ 0 bound.
Proof. intros (n & Hn & ->). apply list_elem_of_fmap. exists n. split; [done|]. apply elem_of_seqZ. lia. Qed.

Lemma writers_identities_list root n bound a :
  writers_identities root n bound a -> a ∈ seq 0 n ≫= (fun i => writer_identity root i <$> seqZ 0 bound).
Proof.
  intros (i & Hi & Ha%identities_below_list). apply list_elem_of_bind. exists i. split; [done|].
  apply elem_of_seq. lia.
Qed.

Example memory_round_passes :
  (fun r => re_classification r.1) <$> run_contention_round tt tt memory_config memory_choice empty_world = Some Pass.
Proof. vm_compute. reflexivity. Qed.
