(* ===== verification/WorkflowRound.v ===== *)
(** * What a round guarantees (crates/commit/src/workflow.rs, properties)

    The properties of the phases and of the whole round, against any catalog,
    object store and clock. *)

From S2P Require Import Prelude RustStr ContractAdapter ContractResult Stats Ledger Policy Protocol Store Workflow.
From S2P Require Import WorkflowPhases SampleWorld.
From Stdlib Require Import Ascii.
Open Scope string_scope.

(** ** The shape of a round *)

Section Shape.
Context {P S W : Type} `{CatalogPort P W, MetadataStore S W, Clock W, Sha256, UrlParser, ObjectPaths}.

(** The round has concluded: its evidence ends with the cleanup that ran last. *)
Definition concluded (catalog : P) (e : RoundExecution) (w' : W) : Prop :=
  (exists w1 dropped w2 absent w3 removed w4 gone,
     drop_table_without_purge catalog w1 = (dropped, w2) /\
     table_presence catalog w2 = (absent, w3) /\
     drop_namespace catalog w3 = (removed, w4) /\
     namespace_presence catalog w4 = (gone, w') /\
     re_cleanup e = {| ce_drop_table_without_purge := catalog_evidence dropped;
                       ce_verify_table_absent := catalog_evidence absent;
                       ce_drop_namespace := catalog_evidence removed;
                       ce_verify_namespace_absent := catalog_evidence gone |}) /\
  re_classification e = (if all_passed (re_checks e) then Pass else Fail) /\
  re_checks e = evaluate_checks e.

Lemma conclude_concluded catalog config pf cn ct ba wu se co ft fa gr w (Q : Prop) :
  match Some (conclude catalog (execution config pf cn ct ba wu se co ft fa gr) w) with
  | Some (e, w') => concluded catalog e w'
  | None => Q
  end.
Proof.
  unfold conclude, cleanup.
  destruct (drop_table_without_purge catalog w) as [dropped w2] eqn:Hd1.
  destruct (table_presence catalog w2) as [absent w3] eqn:Hd2.
  destruct (drop_namespace catalog w3) as [removed w4] eqn:Hd3.
  destruct (namespace_presence catalog w4) as [gone w5] eqn:Hd4.
  split; [by exists w, dropped, w2, absent, w3, removed, w4, gone|done].
Qed.

Local Ltac exits := cbn [negb andb]; apply conclude_concluded with (Q := True).

Lemma measure_concluded catalog store config choice pf cn ct created root baseline w :
  match measure catalog store config choice (execution config pf cn ct) created root baseline w with
  | Some (e, w') => concluded catalog e w'
  | None => exists uuid w2, run_concurrent_phase catalog config uuid choice w2 = None
  end.
Proof.
  unfold measure. destruct (run_serial_phase _ _ "warmup" _ _ _) as [r1 w1].
  destruct (record_phase ∅ r1) as [[warmup accepted1] go1]. destruct go1; [|exits].
  cbn [negb]. destruct (run_serial_phase _ _ "sequential" _ _ _) as [r2 w2].
  destruct (record_phase accepted1 r2) as [[sequential accepted2] go2]. destruct go2; [|exits].
  cbn [negb]. destruct (run_concurrent_phase _ _ _ _ _) as [[r3 w3]|] eqn:Hconc; [|by exists (ts_table_uuid created), w2].
  destruct (record_phase accepted2 r3) as [[concurrent accepted3] go3]. destruct go3; [|exits].
  cbn [negb]. destruct (load_table catalog w3) as [[final|failure] w4]; [|exits].
  destruct (audit _ _ _ _) as [audited w5]. exits.
Qed.

Lemma round_shape catalog store config choice w :
  match namespace_presence catalog w with
  | (Err failure, w1) =>
      exists e, run_contention_round catalog store config choice w = Some (e, w1) /\
        re_classification e = Fail /\ re_cleanup e = cleanup_skipped
  | (Ok observation, w1) =>
      if bool_decide (po_presence observation = Present)
      then exists e, run_contention_round catalog store config choice w = Some (e, w1) /\
             re_classification e = FixtureCollision /\ re_cleanup e = cleanup_skipped
      else match run_contention_round catalog store config choice w with
           | Some (e, w') => concluded catalog e w'
           | None => exists uuid w2, run_concurrent_phase catalog config uuid choice w2 = None
           end
  end.
Proof.
  unfold run_contention_round. destruct (namespace_presence catalog w) as [[observation|failure] w1].
  2: { eexists. split; [reflexivity|]. done. }
  case_bool_decide as Hp. { eexists. split; [reflexivity|]. done. }
  destruct (create_namespace catalog w1) as [[receipt|failure] w2]; [|exits].
  destruct (create_table catalog w2) as [[created|failure] w3]; [|exits].
  destruct (TableRoot_from_snapshot _ _) as [root|failure]; [|exits].
  destruct (audit _ _ _ _) as [[baseline|failure] w4]; [|exits].
  destruct (_ && _); [apply measure_concluded|exits].
Qed.
End Shape.

(** ** What passing means *)

Lemma answers_all_accepted log :
  accepted (answer_counts log) = attempts (answer_counts log) -> Forall (fun a => a.2 = Accepted) log.
Proof.
  unfold answer_counts, len. simpl. intros Heq%Nat2Z.inj. induction log as [|a log IH]; [constructor|].
  rewrite filter_cons in Heq. pose proof (length_filter (fun a => a.2 = Accepted) log).
  case_decide as Ha; simpl in Heq; [|lia]. constructor; [done|]. apply IH. lia.
Qed.

Lemma answers_without_errors log :
  errors (answer_counts log) = 0%Z -> Forall (fun a => is_error a.2 = false) log.
Proof.
  unfold answer_counts, len. simpl. intros Heq. induction log as [|a log IH]; [constructor|].
  rewrite filter_cons in Heq. case_decide as Ha; simpl in Heq; [lia|]. constructor; [|by apply IH].
  by destruct (is_error a.2).
Qed.

Lemma answers_with_progress log :
  (0 < accepted (answer_counts log))%Z -> exists a, a ∈ log /\ a.2 = Accepted.
Proof.
  unfold answer_counts, len. simpl. intros Hpos. destruct (filter _ log) as [|a l] eqn:Hf; [done|].
  exists a. assert (Ha : a ∈ filter (fun a => a.2 = Accepted) log) by (rewrite Hf; left).
  by apply list_elem_of_filter in Ha as [].
Qed.

Lemma accepted_answers_app `{Sha256} log log' :
  accepted_answers (log ++ log')%list = accepted_answers log ∪ accepted_answers log'.
Proof. unfold accepted_answers. by rewrite filter_app, fmap_app, list_to_set_app_L. Qed.

Lemma elem_of_accepted_answers `{Sha256} d log :
  d ∈ accepted_answers log -> exists a, a ∈ log /\ a.2 = Accepted /\ identity_digest a.1 = d.
Proof.
  unfold accepted_answers. rewrite elem_of_list_to_set, list_elem_of_fmap.
  intros (a & -> & [Ha Hin]%list_elem_of_filter). by exists a.
Qed.

Lemma answer_counts_app_accepted log log' :
  accepted (answer_counts (log ++ log')%list) = (accepted (answer_counts log) + accepted (answer_counts log'))%Z.
Proof. simpl. rewrite filter_app. apply len_app. Qed.

Lemma growth_sound baseline final phases g :
  growth_evaluate baseline final phases = Ok g -> sufficient g = true ->
  (forall c, c ∈ phases -> (0 <= accepted c)%Z) ->
  (baseline + foldr Z.add 0 (accepted <$> phases) <= final)%Z.
Proof.
  intros Hg Hs Hpos. unfold growth_evaluate in Hg. rewrite try_fold_growth in Hg by done. cbv zeta in Hg.
  destruct (_ || _)%bool; [|done]. injection Hg as <-. cbn [sufficient] in Hs. unfold checked_sub in Hs.
  destruct (Z.leb_spec baseline final); [|done]. simpl in Hs. apply Z.leb_le in Hs. lia.
Qed.

Lemma record_phase_go accepted r ev accepted' :
  record_phase accepted r = (ev, accepted', true) ->
  exists ph pa, r = Ok (ph, pa) /\ ev = Succeeded ph /\ accepted' = accepted ∪ pa.
Proof.
  unfold record_phase, accepted_try_extend. destruct r as [[ph pa]|e]; [|done].
  destruct (negb _); [done|]. intros [= <- <-]. eauto.
Qed.

Section Passing.
Context {P S W : Type} `{HP : CatalogPort P W, HST : MetadataStore S W, HC : Clock W, HL : !ClockLaws P W}.
Context `{HS : Sha256, HU : UrlParser, HO : ObjectPaths}.
Context (catalog : P) (store : S) (config : RoundExecutionConfig) (choice : Interleaving).

Lemma conclude_pass pf cn ct ba wu se co ft fa gr w e w' :
  Some (conclude catalog (execution config pf cn ct ba wu se co ft fa gr) w) = Some (e, w') ->
  re_classification e = Pass ->
  (exists ph, wu = Succeeded ph /\ serial_accounted ph (rw_warmup_commits (rc_workload config)) = true) /\
  (exists ph, se = Succeeded ph /\ serial_accounted ph (rw_sequential_commits (rc_workload config)) = true) /\
  (exists ph, co = Succeeded ph /\ errors (counts ph) = 0%Z /\ (0 < accepted (counts ph))%Z) /\
  (exists t, ft = Succeeded t /\ final_table_passed t = true) /\
  (exists g, gr = Succeeded g /\ sufficient g = true).
Proof.
  unfold conclude. destruct (cleanup catalog w) as [cleaned w1]. intros [= <- <-]. simpl.
  destruct (all_passed _) eqn:Hall; [|done]. intros _. unfold all_passed, evaluate_checks in Hall.
  simpl in Hall. rewrite !andb_true_iff in Hall.
  destruct Hall as ((((((((((_ & _) & Hw) & Hs) & _) & _) & He) & Hp) & Hf) & Hg & _) & _).
  destruct wu as [ph1| |]; [|done..]. destruct se as [ph2| |]; [|done..].
  destruct co as [ph3| |]; [|done..]. destruct ft as [t| |]; [|done..]. destruct gr as [g| |]; [|done..].
  apply Z.eqb_eq in He. apply Z.ltb_lt in Hp.
  split; [by exists ph1|]. split; [by exists ph2|]. split; [by exists ph3|].
  split; [by exists t|by exists g].
Qed.

(** Every answer of a serial phase that passes its check is an acceptance. *)
Lemma serial_phase_all_accepted phase uuid n w ph pa w1 :
  collision_free (identities_below (numbered (serial_prefix config phase)) n) -> in_u64 n ->
  run_serial_phase catalog config phase n uuid w = (Ok (ph, pa), w1) -> serial_accounted ph n = true ->
  let log := (serial_answers catalog config phase uuid (Z.to_nat n) 0 (clock_now w).2).1 in
  publishes log ph pa /\ len log = n /\ Forall (fun a => a.2 = Accepted) log.
Proof.
  intros Hcf Hn Hrun Hacc. pose proof (serial_phase_publishes catalog config phase uuid n w Hcf Hn) as Hpub.
  destruct (clock_now w) as [started w0]. simpl. destruct (serial_answers _ _ _ _ _ _ w0) as [log w2].
  destruct (elapsed started w2) as [total w3]. destruct Hpub as [Hlen Hpub]. simpl.
  destruct (is_zero total); [congruence|]. destruct Hpub as (ph' & acc' & Heq & Hpub).
  assert (ph' = ph /\ acc' = pa) as [-> ->] by (split; congruence). split; [done|]. split; [done|].
  apply answers_all_accepted. destruct Hpub as (<- & _). unfold serial_accounted in Hacc.
  rewrite !andb_true_iff, !Z.eqb_eq in Hacc. lia.
Qed.

Lemma concurrent_phase_overflow uuid w r w' :
  (0 < rw_concurrent_writers (rc_workload config) < usize_max)%Z -> (instant_max < phase_deadline config w)%Z ->
  run_concurrent_phase catalog config uuid choice w = Some (r, w') -> r = Err DeadlineOverflow.
Proof.
  intros [Hpos Hmax] Hdl. unfold run_concurrent_phase, try_from, checked_add, phase_deadline in *.
  destruct (Z.leb_spec (rw_concurrent_writers (rc_workload config)) usize_max); [|lia].
  destruct (Z.leb_spec (rw_concurrent_writers (rc_workload config) + 1) usize_max); [|lia].
  destruct (clock_now w) as [started w1]. simpl in Hdl.
  destruct (Z.leb_spec (started + duration_from_millis (rw_concurrent_duration_ms (rc_workload config)))
              instant_max); [lia|]. by intros [= <- <-].
Qed.

(** The workload is the positive, bounded one [RoundWorkload_new] admits, no
    writer task panics, and SHA-256 does not collide on the identities of a
    phase. *)
Record admissible : Prop := {
  adm_warmup : in_u64 (rw_warmup_commits (rc_workload config));
  adm_sequential : in_u64 (rw_sequential_commits (rc_workload config));
  adm_writers : (0 < rw_concurrent_writers (rc_workload config) < usize_max)%Z;
  adm_duration : (0 < rw_concurrent_duration_ms (rc_workload config))%Z;
  adm_steps : forallb is_step (schedule choice) = true;
  adm_moves : (len (schedule choice) <= u64_max)%Z;
  adm_warmup_ids : collision_free (identities_below (numbered (serial_prefix config "warmup"))
                     (rw_warmup_commits (rc_workload config)));
  adm_sequential_ids : collision_free (identities_below (numbered (serial_prefix config "sequential"))
                         (rw_sequential_commits (rc_workload config)));
  adm_concurrent_ids : collision_free (writers_identities (identity_root config)
      (Z.to_nat (rw_concurrent_writers (rc_workload config))) (len (schedule choice)));
}.

(** The answers of the three phases of a round whose measurement starts at [w]. *)
Definition warmup_log (uuid : string) (w : W) : list (RequestIdentity * RequestOutcome) :=
  (serial_answers catalog config "warmup" uuid (Z.to_nat (rw_warmup_commits (rc_workload config))) 0
     (clock_now w).2).1.
Definition after_warmup (uuid : string) (w : W) : W :=
  (run_serial_phase catalog config "warmup" (rw_warmup_commits (rc_workload config)) uuid w).2.
Definition sequential_log (uuid : string) (w : W) : list (RequestIdentity * RequestOutcome) :=
  let w := after_warmup uuid w in
  (serial_answers catalog config "sequential" uuid (Z.to_nat (rw_sequential_commits (rc_workload config))) 0
     (clock_now w).2).1.
Definition after_sequential (uuid : string) (w : W) : W :=
  (run_serial_phase catalog config "sequential" (rw_sequential_commits (rc_workload config)) uuid
     (after_warmup uuid w)).2.
Definition concurrent_log (uuid : string) (w : W) : list (RequestIdentity * RequestOutcome) :=
  phase_answers catalog config uuid choice (after_sequential uuid w).
Definition round_log (uuid : string) (w : W) : list (RequestIdentity * RequestOutcome) :=
  (warmup_log uuid w ++ sequential_log uuid w ++ concurrent_log uuid w)%list.

(** The final table carries the value of a request the catalog accepted. *)
Definition final_state_holds (created : TableSnapshot) (root : TableRoot)
    (log : list (RequestIdentity * RequestOutcome)) (final : TableSnapshot) : Prop :=
  ts_format_version final = 2%Z /\ ts_table_uuid final = ts_table_uuid created /\
  ts_location final = ts_location created /\
  contains_metadata_location root (ts_metadata_location final) = true /\
  exists value a, ts_properties final !! rw_commit_property (rc_workload config) = Some value /\
    a ∈ log /\ a.2 = Accepted /\ identity_digest a.1 = digest_from_bytes (bytes value).

Lemma final_evidence_holds created final root log :
  final_table_passed (final_evidence config created final root (accepted_answers log)) = true ->
  final_state_holds created root log final.
Proof.
  unfold final_table_passed, final_evidence, attribution_evaluate, attribution_passed. simpl.
  rewrite !andb_true_iff, Z.eqb_eq, !String.eqb_eq, is_some_and_true.
  intros [[[Hv Hu] Hl] [[_ (value & Hvalue & Hc)] Hr]]. repeat (split; [done|]).
  unfold contains_value in Hc. apply bool_decide_eq_true in Hc.
  apply elem_of_accepted_answers in Hc as (a & Ha & Hacc & Hd). by exists value, a.
Qed.

Lemma growth_evidence_sound baseline final ph1 ph2 ph3 l1 l2 l3 g :
  counts ph1 = answer_counts l1 -> counts ph2 = answer_counts l2 -> counts ph3 = answer_counts l3 ->
  growth_evidence baseline final [Some (counts ph1); Some (counts ph2); Some (counts ph3)] = Succeeded g ->
  sufficient g = true ->
  exists audited, final = Succeeded audited /\
    (audit_metadata_objects baseline + accepted (answer_counts (l1 ++ l2 ++ l3)%list)
       <= audit_metadata_objects audited)%Z.
Proof.
  intros H1 H2 H3. unfold growth_evidence. cbn [forallb andb]. destruct final as [audited| |]; [|done..].
  cbn [output]. destruct (growth_evaluate _ _ _) as [g'|e] eqn:Hg; [|done]. intros [= ->] Hs.
  exists audited. split; [done|]. apply growth_sound in Hg; [|done|].
  - rewrite !answer_counts_app_accepted. cbn in Hg. rewrite H1, H2, H3 in Hg. simpl in *. lia.
  - cbn. rewrite H1, H2, H3. intros c Hc. unfold answer_counts in Hc.
    repeat (apply elem_of_cons in Hc as [->|Hc]; [apply len_nonneg|]). by apply not_elem_of_nil in Hc.
Qed.

(** What a passing measurement that starts at [w] establishes: the serial phases
    issued exactly the planned requests and all were accepted, no concurrent
    request failed and at least one was accepted, the table ends in a state an
    accepted request wrote, and the metadata grew by at least one object per
    accepted commit. *)
Definition backed (created : TableSnapshot) (root : TableRoot) (baseline : ObjectAuditSnapshot) (w : W) : Prop :=
  let uuid := ts_table_uuid created in
  (len (warmup_log uuid w) = rw_warmup_commits (rc_workload config) /\
   len (sequential_log uuid w) = rw_sequential_commits (rc_workload config)) /\
  Forall (fun a => a.2 = Accepted) (warmup_log uuid w ++ sequential_log uuid w)%list /\
  Forall (fun a => is_error a.2 = false) (concurrent_log uuid w) /\
  (exists a, a ∈ concurrent_log uuid w /\ a.2 = Accepted) /\
  exists w3 final w4 audited w5,
    load_table catalog w3 = (Ok final, w4) /\ final_state_holds created root (round_log uuid w) final /\
    audit store root (ts_metadata_location final) w4 = (Ok audited, w5) /\
    (audit_metadata_objects baseline + accepted (answer_counts (round_log uuid w))
       <= audit_metadata_objects audited)%Z.

Lemma measured_pass pf cn ct created root baseline w e w' :
  admissible ->
  measure catalog store config choice (execution config pf cn ct) created root baseline w = Some (e, w') ->
  re_classification e = Pass ->
  backed created root baseline w.
Proof.
  intros Hadm Hrun Hpass. unfold backed. set (uuid := ts_table_uuid created) in *.
  unfold measure in Hrun. fold uuid in Hrun.
  pose proof (serial_phase_all_accepted "warmup" uuid (rw_warmup_commits (rc_workload config)) w) as Hwarm.
  unfold round_log, concurrent_log, sequential_log, warmup_log, after_sequential, after_warmup.
  destruct (run_serial_phase catalog config "warmup" _ uuid w) as [r1 w1].
  destruct (record_phase ∅ r1) as [[warmup accepted1] go1] eqn:Hr1. destruct go1; cbn [negb] in Hrun;
    [|by apply conclude_pass in Hrun as (_ & (? & [=] & _) & _)].
  apply record_phase_go in Hr1 as (ph1 & pa1 & -> & -> & ->). cbn [snd].
  pose proof (serial_phase_all_accepted "sequential" uuid (rw_sequential_commits (rc_workload config)) w1) as Hseq.
  destruct (run_serial_phase catalog config "sequential" _ uuid w1) as [r2 w2].
  destruct (record_phase _ r2) as [[sequential accepted2] go2] eqn:Hr2. destruct go2; cbn [negb] in Hrun;
    [|by apply conclude_pass in Hrun as (_ & _ & (? & [=] & _) & _)].
  apply record_phase_go in Hr2 as (ph2 & pa2 & -> & -> & ->). cbn [snd].
  destruct (run_concurrent_phase catalog config uuid choice w2) as [[r3 w3]|] eqn:Hconc; [|done].
  destruct (record_phase _ r3) as [[concurrent accepted3] go3] eqn:Hr3. destruct go3; cbn [negb] in Hrun;
    [|by apply conclude_pass in Hrun as (_ & _ & _ & (? & [=] & _) & _)].
  apply record_phase_go in Hr3 as (ph3 & pa3 & -> & -> & ->).
  destruct (load_table catalog w3) as [[final|failure] w4] eqn:Hload;
    [|by apply conclude_pass in Hrun as (_ & _ & _ & (? & [=] & _) & _)].
  destruct (audit store root _ w4) as [audited w5] eqn:Haudit.
  apply conclude_pass in Hrun as ((? & [= <-] & Hs1) & (? & [= <-] & Hs2) & (? & [= <-] & Herr & Hprog)
    & (? & [= <-] & Hfinal) & (g & Hg & Hsuff)); [|done].
  destruct (Hwarm ph1 pa1 w1) as ((Hc1 & _ & ->) & Hlen1 & Hall1); [apply Hadm|apply Hadm|done|done|].
  destruct (Hseq ph2 pa2 w2) as ((Hc2 & _ & ->) & Hlen2 & Hall2); [apply Hadm|apply Hadm|done|done|].
  assert (Hdl : (phase_deadline config w2 <= instant_max)%Z).
  { destruct (Z.le_gt_cases (phase_deadline config w2) instant_max) as [|Hgt]; [done|].
    by apply concurrent_phase_overflow in Hconc; [|apply Hadm|]. }
  destruct (concurrent_phase_publishes catalog config uuid choice w2 _ _ (adm_writers Hadm)
    (adm_duration Hadm) (adm_steps Hadm) (adm_moves Hadm) (adm_concurrent_ids Hadm) Hdl Hconc)
    as (ph & acc & [= <- <-] & (Hc3 & _ & ->)).
  rewrite Hc3 in Herr, Hprog.
  split; [done|]. split; [by apply Forall_app|]. split; [by apply answers_without_errors|].
  split; [by apply answers_with_progress|].
  rewrite union_empty_l_L, <-!accepted_answers_app, <-app_assoc in Hfinal.
  apply final_evidence_holds in Hfinal.
  destruct (growth_evidence_sound baseline (audit_evidence audited) ph1 ph2 ph3 _ _ _ g Hc1 Hc2 Hc3 Hg Hsuff)
    as (audited' & Haud & Hle). destruct audited as [audited|]; [|done]. injection Haud as ->.
  by exists w3, final, w4, audited', w5.
Qed.

Lemma passing_round_measured w e w' :
  admissible ->
  run_contention_round catalog store config choice w = Some (e, w') -> re_classification e = Pass ->
  exists w1 created w2 root baseline w3,
    create_table catalog w1 = (Ok created, w2) /\
    TableRoot_from_snapshot created (rc_object_store_bucket config) = Ok root /\
    audit store root (ts_metadata_location created) w2 = (Ok baseline, w3) /\
    backed created root baseline w3.
Proof.
  intros Hadm Hrun Hpass. unfold run_contention_round in Hrun.
  destruct (namespace_presence catalog w) as [[observation|failure] w0].
  2: { injection Hrun as <- <-. discriminate Hpass. }
  destruct (bool_decide _). { injection Hrun as <- <-. discriminate Hpass. }
  destruct (create_namespace catalog w0) as [[receipt|failure] w1];
    [|by apply conclude_pass in Hrun as ((? & [=] & _) & _)].
  destruct (create_table catalog w1) as [[created|failure] w2] eqn:Hcreate;
    [|by apply conclude_pass in Hrun as ((? & [=] & _) & _)].
  destruct (TableRoot_from_snapshot _ _) as [root|failure] eqn:Hroot;
    [|by apply conclude_pass in Hrun as ((? & [=] & _) & _)].
  destruct (audit _ _ _ _) as [[baseline|failure] w3] eqn:Haudit;
    [|by apply conclude_pass in Hrun as ((? & [=] & _) & _)].
  destruct (_ && _); [|by apply conclude_pass in Hrun as ((? & [=] & _) & _)].
  exists w1, created, w2, root, baseline, w3. repeat (split; [done|]).
  by apply measured_pass in Hrun.
Qed.
End Passing.

(** ** Properties *)

Section Properties.
Context {P S W : Type} `{HP : CatalogPort P W, HST : MetadataStore S W, HC : Clock W, HL : !ClockLaws P W}.
Context `{HS : Sha256, HU : UrlParser, HO : ObjectPaths}.

(** A serial phase issues exactly its attempts one after the
    other, under the identities numbered from zero, and publishes a count of
    every answer the catalog gave; it fails only when no time has elapsed. *)
Theorem serial_phase_counts_every_answer (catalog : P) (config : RoundExecutionConfig)
    (phase uuid : string) (n : Z) (w : W) :
  collision_free (identities_below (numbered (serial_prefix config phase)) n) -> in_u64 n ->
  let start := clock_now w in
  let answered := serial_answers catalog config phase uuid (Z.to_nat n) 0 start.2 in
  let total := elapsed start.1 answered.2 in
  len answered.1 = n /\
  if is_zero total.1
  then run_serial_phase catalog config phase n uuid w = (Err (Model (Statistics ZeroElapsed)), total.2)
  else exists ph acc, run_serial_phase catalog config phase n uuid w = (Ok (ph, acc), total.2) /\
         publishes answered.1 ph acc.
Proof.
  intros Hcf Hn. pose proof (serial_phase_publishes catalog config phase uuid n w Hcf Hn) as Hpub.
  destruct (clock_now w) as [started w1]. cbn [fst snd]. destruct (serial_answers _ _ _ _ _ _ w1) as [log w2].
  cbn [fst snd]. by destruct (elapsed started w2).
Qed.

(** C2: whatever the interleaving of the writers and the order
    in which they are joined, a concurrent phase whose writers all end without
    a panic counts every answer the catalog gave exactly once, none lost
    between the writers' ledgers, and the digests it hands on are those of the
    accepted requests; it fails only when its deadline does not exist. *)
Theorem concurrent_phase_counts_every_answer (catalog : P) (config : RoundExecutionConfig)
    (uuid : string) (choice : Interleaving) (w : W) r w' :
  (0 < rw_concurrent_writers (rc_workload config) < usize_max)%Z ->
  (0 < rw_concurrent_duration_ms (rc_workload config))%Z ->
  forallb is_step (schedule choice) = true -> (len (schedule choice) <= u64_max)%Z ->
  collision_free (writers_identities (identity_root config)
    (Z.to_nat (rw_concurrent_writers (rc_workload config))) (len (schedule choice))) ->
  run_concurrent_phase catalog config uuid choice w = Some (r, w') ->
  if (phase_deadline config w <=? instant_max)%Z
  then exists ph acc, r = Ok (ph, acc) /\ publishes (phase_answers catalog config uuid choice w) ph acc
  else r = Err DeadlineOverflow.
Proof.
  intros Hw Hd Hs Hl Hcf Hrun. destruct (Z.leb_spec (phase_deadline config w) instant_max).
  - by eapply concurrent_phase_publishes.
  - by eapply concurrent_phase_overflow.
Qed.

(** C14: once the deadline has passed every writer needs at most
    three more moves, so an interleaving that gives them those and joins each
    writer once lets the phase return, whatever the catalog answers and
    whichever writers fail. *)
Theorem concurrent_phase_ends (catalog : P) (config : RoundExecutionConfig) (uuid : string)
    (choice : Interleaving) (w : W) :
  joins choice ≡ₚ seq 0 (Z.to_nat (rw_concurrent_writers (rc_workload config))) ->
  fair catalog config uuid choice w ->
  exists r w', run_concurrent_phase catalog config uuid choice w = Some (r, w').
Proof. apply concurrent_phase_completes. Qed.

(** A writer that panicked or ended with an error makes the
    phase fail: its evidence is never published without that writer. *)
Theorem failed_writer_fails_the_phase (catalog : P) (config : RoundExecutionConfig) (uuid : string)
    (choice : Interleaving) (w : W) r w' s e :
  (0 < rw_concurrent_writers (rc_workload config) < usize_max)%Z ->
  (phase_deadline config w <= instant_max)%Z ->
  run_concurrent_phase catalog config uuid choice w = Some (r, w') ->
  s ∈ (foldl (fun c m => move (writer_step catalog uuid (rw_commit_property (rc_workload config))
                            (identity_root config) (phase_deadline config w)) m c)
        (start_line config w) (schedule choice)).1 ->
  writer_error s = Some e ->
  exists e', r = Err e'.
Proof.
  intros Hw Hd Hrun Hin He. destruct (concurrent_phase_ended catalog config uuid choice w r w' Hw Hd Hrun)
    as (_ & Hjoins & Hend).
  set (c := foldl _ _ _) in *.
  assert (Hs : s ∈ omap (fun i => c.1 !! i) (joins choice)).
  { apply list_elem_of_omap. apply list_elem_of_lookup in Hin as [i Hi]. exists i. split; [|done].
    rewrite Hjoins. apply elem_of_seq. apply lookup_lt_Some in Hi. lia. }
  destruct (join_first_error ledger_default _ s e Hs He) as (l & e' & Heq).
  rewrite Heq in Hend. destruct Hend as [-> _]. by exists e'.
Qed.

(** C3: a round whose preflight fails or finds the namespace touches
    nothing else and cleans nothing up; every other round ends with the four
    cleanup calls, whatever failed before, and passes exactly when all its
    checks do. The only way not to conclude is a concurrent phase that never
    ends. *)
Theorem round_always_cleans_up (catalog : P) (store : S) (config : RoundExecutionConfig)
    (choice : Interleaving) (w : W) :
  match namespace_presence catalog w with
  | (Err failure, w1) =>
      exists e, run_contention_round catalog store config choice w = Some (e, w1) /\
        re_classification e = Fail /\ re_cleanup e = cleanup_skipped
  | (Ok observation, w1) =>
      if bool_decide (po_presence observation = Present)
      then exists e, run_contention_round catalog store config choice w = Some (e, w1) /\
             re_classification e = FixtureCollision /\ re_cleanup e = cleanup_skipped
      else match run_contention_round catalog store config choice w with
           | Some (e, w') => concluded catalog e w'
           | None => exists uuid w2, run_concurrent_phase catalog config uuid choice w2 = None
           end
  end.
Proof. apply round_shape. Qed.

(** C1: a round is classified as passing only when the serial
    phases issued exactly the planned requests and the catalog accepted every
    one, no concurrent request failed and some were accepted, the final table
    is the created one and holds the value of an accepted request, and the
    object store gained at least one metadata object per accepted commit. *)
Theorem passing_round_is_backed (catalog : P) (store : S) (config : RoundExecutionConfig)
    (choice : Interleaving) (w : W) e w' :
  admissible config choice ->
  run_contention_round catalog store config choice w = Some (e, w') -> re_classification e = Pass ->
  exists w1 created w2 root baseline w3,
    create_table catalog w1 = (Ok created, w2) /\
    TableRoot_from_snapshot created (rc_object_store_bucket config) = Ok root /\
    audit store root (ts_metadata_location created) w2 = (Ok baseline, w3) /\
    backed catalog store config choice created root baseline w3.
Proof. apply passing_round_measured. Qed.
End Properties.

(** ** Witnesses *)

Lemma not_None_runs {A} (o : option A) : o = None -> (if o then true else false) = true -> False.
Proof. by intros ->. Qed.

Lemma memory_serial_ids phase n :
  bool_decide (NoDup (identity_digest <$> (numbered (serial_prefix memory_config phase) <$> seqZ 0 n))) = true ->
  collision_free (identities_below (numbered (serial_prefix memory_config phase)) n).
Proof.
  intros Hnd%bool_decide_eq_true_1. eapply collision_free_list; [|exact Hnd]. apply identities_below_list.
Qed.

Lemma memory_writer_ids root n bound :
  bool_decide (NoDup (identity_digest <$> (seq 0 n ≫= fun i => writer_identity root i <$> seqZ 0 bound))) = true ->
  collision_free (writers_identities root n bound).
Proof.
  intros Hnd%bool_decide_eq_true_1. eapply collision_free_list; [|exact Hnd]. apply writers_identities_list.
Qed.

Lemma memory_admissible : admissible memory_config memory_choice.
Proof.
  split; try by_decide; try (split; by_decide); try done.
  - apply memory_serial_ids. by vm_compute.
  - apply memory_serial_ids. by vm_compute.
  - apply memory_writer_ids. by vm_compute.
Qed.

Lemma serial_phase_counts_every_answer_witness :
  exists ph acc, (run_serial_phase tt memory_config "warmup" 2 "uuid" created_world).1 = Ok (ph, acc) /\
    counts ph = {| attempts := 2; accepted := 2; conflicts := 0; errors := 0 |}.
Proof.
  destruct (serial_phase_counts_every_answer tt memory_config "warmup" "uuid" 2 created_world
    (memory_serial_ids "warmup" 2 ltac:(by vm_compute)) ltac:(by_decide)) as [_ Hp].
  eval_if Hp.
  destruct Hp as (ph & acc & -> & Hc & _). exists ph, acc. split; [reflexivity|].
  rewrite Hc. vm_compute. reflexivity.
Defined.

Lemma concurrent_phase_counts_every_answer_witness :
  exists ph acc w', run_concurrent_phase tt memory_config "uuid" memory_choice created_world = Some (Ok (ph, acc), w') /\
    counts ph = {| attempts := 2; accepted := 2; conflicts := 0; errors := 0 |}.
Proof.
  destruct (run_concurrent_phase tt memory_config "uuid" memory_choice created_world) as [[r w']|] eqn:Hrun.
  - pose proof (concurrent_phase_counts_every_answer tt memory_config "uuid" memory_choice created_world r w'
      (adm_writers _ _ memory_admissible) (adm_duration _ _ memory_admissible) (adm_steps _ _ memory_admissible)
      (adm_moves _ _ memory_admissible) (adm_concurrent_ids _ _ memory_admissible) Hrun) as Hp.
    eval_if Hp.
    destruct Hp as (ph & acc & -> & Hc & _). exists ph, acc, w'. split; [done|].
    rewrite Hc. vm_compute. reflexivity.
  - exfalso. apply (not_None_runs _ Hrun). vm_compute. reflexivity.
Defined.

(** Six moves before the deadline, three for each writer after it. *)
Definition fair_choice : Interleaving := {|
  schedule := [Step 0; Step 1; Step 0; Step 1; Step 0; Step 1; Step 0; Step 0; Step 0; Step 1; Step 1; Step 1];
  joins := [1; 0];
|}%nat.

Lemma concurrent_phase_ends_witness :
  exists r w', run_concurrent_phase tt memory_config "uuid" fair_choice created_world = Some (r, w').
Proof.
  apply (concurrent_phase_ends tt memory_config "uuid" fair_choice created_world); [by_decide|].
  exists [Step 0; Step 1; Step 0; Step 1; Step 0; Step 1]%nat,
    [Step 0; Step 0; Step 0; Step 1; Step 1; Step 1]%nat.
  split; [reflexivity|]. split; [by_decide|].
  intros i Hi. destruct i as [|[|i]]; [by_decide|by_decide|]. exfalso. revert Hi. cbn. lia.
Defined.

(** Writer 1 panics inside the port while writer 0 keeps committing. *)
Definition panicking_choice : Interleaving := {|
  schedule := [Step 0; Step 1; Step 0; Panic 1 "boom"; Step 0; Step 0; Step 0; Step 0; Step 0];
  joins := [0; 1];
|}%nat.

Lemma failed_writer_fails_the_phase_witness :
  exists e w', run_concurrent_phase tt memory_config "uuid" panicking_choice created_world = Some (Err e, w').
Proof.
  destruct (run_concurrent_phase tt memory_config "uuid" panicking_choice created_world) as [[r w']|] eqn:Hrun.
  - assert (Hdl : (phase_deadline memory_config created_world <= instant_max (W := World))%Z) by by_decide.
    destruct (failed_writer_fails_the_phase tt memory_config "uuid" panicking_choice created_world r w'
      (Panicked "boom") (WriterTask "concurrent writer task failed: boom")
      (adm_writers _ _ memory_admissible) Hdl Hrun) as [e ->].
    + apply list_elem_of_lookup. exists 1%nat. vm_compute. reflexivity.
    + reflexivity.
    + by exists e, w'.
  - exfalso. apply (not_None_runs _ Hrun). vm_compute. reflexivity.
Defined.

Lemma passing_round_is_backed_witness :
  exists w1 created w2 root baseline w3,
    create_table tt w1 = (Ok created, w2) /\ TableRoot_from_snapshot created "b" = Ok root /\
    audit tt root (ts_metadata_location created) w2 = (Ok baseline, w3) /\
    backed tt tt memory_config memory_choice created root baseline w3.
Proof.
  destruct (run_contention_round tt tt memory_config memory_choice empty_world) as [[e w']|] eqn:Hrun.
  - apply (passing_round_is_backed tt tt memory_config memory_choice empty_world e w' memory_admissible Hrun).
    pose proof memory_round_passes as Hpass. rewrite Hrun in Hpass. by injection Hpass.
  - exfalso. pose proof memory_round_passes as Hpass. by rewrite Hrun in Hpass.
Defined.
