(* ===== verification/Aggregate.v ===== *)
(** * Aggregation and ranking (crates/commit/src/aggregate.rs, transcript.rs)

    The rounds of a sweep are checked against the schedule, tallied per catalog,
    summarised by medians over the measured rounds, and ranked. What the
    negotiation of a round records is a parameter here, [Connection] supplies it. *)

From S2P Require Import Prelude Order RustStr Float64 ContractValue ContractScenario ContractAdapter ContractResult.
From S2P Require Import Stats Ledger Policy Connection Protocol Store Workflow.
Open Scope string_scope.

(** ** Data *)

Inductive CatalogRoundOutcome :=
| Executed (execution : RoundExecution)
| NegotiationFailed (failure : CatalogNegotiationFailure).

Record CatalogRoundTranscript {Negotiation : Type} := {
  rt_repetition : Z;
  rt_kind : RoundKind;
  rt_position : Z;
  rt_catalog : CatalogRun;
  rt_negotiation : Negotiation;
  rt_outcome : CatalogRoundOutcome;
}.
Arguments CatalogRoundTranscript Negotiation : clear implicits.

Definition outcome_passed (outcome : CatalogRoundOutcome) : bool :=
  match outcome with
  | Executed execution => round_passed execution
  | NegotiationFailed _ => false
  end.

Definition rt_passed {N} (self : CatalogRoundTranscript N) : bool := outcome_passed (rt_outcome self).

Definition rt_execution {N} (self : CatalogRoundTranscript N) : option RoundExecution :=
  match rt_outcome self with
  | Executed execution => Some execution
  | NegotiationFailed _ => None
  end.

Record RoundTally := { scheduled_rounds : Z; executed_rounds : Z; passed_rounds : Z }.

Record ContentionMeasurements := {
  m_sequential_latency_p50_ms : MedianRange;
  m_sequential_latency_p95_ms : MedianRange;
  m_sequential_latency_p99_ms : MedianRange;
  m_sequential_accepted_throughput_per_second : MedianRange;
  m_concurrent_latency_p50_ms : MedianRange;
  m_concurrent_latency_p95_ms : MedianRange;
  m_concurrent_latency_p99_ms : MedianRange;
  m_concurrent_attempted_throughput_per_second : MedianRange;
  m_concurrent_accepted_throughput_per_second : MedianRange;
  m_concurrent_conflict_rate : MedianRange;
  m_concurrent_error_rate : MedianRange;
  m_concurrent_attempts : MedianRange;
  m_concurrent_accepted : MedianRange;
  m_concurrent_conflicts : MedianRange;
  m_metadata_object_growth : MedianRange;
}.

Module CatalogAggregateClassification.
Inductive t := Pass | Fail (reasons : list string).
End CatalogAggregateClassification.

Record CatalogAggregate := {
  agg_catalog : CatalogRun;
  agg_conditioning : RoundTally;
  agg_measured : RoundTally;
  agg_classification : CatalogAggregateClassification.t;
  agg_measurements : option ContentionMeasurements;
}.

Definition agg_passed (self : CatalogAggregate) : bool :=
  match agg_classification self with
  | CatalogAggregateClassification.Pass => if agg_measurements self then true else false
  | CatalogAggregateClassification.Fail _ => false
  end.

Inductive RankingBasis := ConcurrentAcceptedThroughputPerSecond.
Inductive RankingTieBreaker := SequentialLatencyP50Ascending | CatalogIdAscending.

Inductive RankingDisposition :=
| Ranked (rank : Z) (score : MedianRange)
| NotRanked (reasons : list string).

Record RankingEntry := { re_catalog : CatalogRun; re_disposition : RankingDisposition }.

Record ContentionRanking := {
  ranking_basis : RankingBasis;
  tie_breakers : list RankingTieBreaker;
  ranking_entries : list RankingEntry;
}.

Module SweepClassification.
Inductive t := Pass | Fail (failed_catalogs : list ComponentId).
End SweepClassification.

Inductive AggregationError :=
| EmptySchedule
| AggregateCountOverflow
| ScheduleLength (expected actual : Z)
| ScheduleMismatch (index : Z)
| MissingExecution
| FailedRoundInPassingAggregate
| MissingMeasurement
| InvalidAggregate
| AggregateStatistics (error : StatisticsError).

Definition display_aggregation_error (self : AggregationError) : string :=
  match self with
  | EmptySchedule => "cannot aggregate an empty schedule"
  | AggregateCountOverflow => "aggregate count overflowed"
  | ScheduleLength expected actual =>
      "round transcript count is " +:+ display actual +:+ ", expected " +:+ display expected
  | ScheduleMismatch index =>
      "round transcript " +:+ display index +:+ " does not match the schedule"
  | MissingExecution => "passing aggregate contains a negotiation failure"
  | FailedRoundInPassingAggregate => "passing aggregate contains a failed round"
  | MissingMeasurement => "passing round is missing required measurements"
  | InvalidAggregate => "aggregate classification is invalid"
  | AggregateStatistics error => display_statistics_error error
  end.

(** ** The metrics of one round *)

Record RoundMetrics := {
  rm_sequential_latency_p50_ms : f64;
  rm_sequential_latency_p95_ms : f64;
  rm_sequential_latency_p99_ms : f64;
  rm_sequential_accepted_throughput_per_second : f64;
  rm_concurrent_latency_p50_ms : f64;
  rm_concurrent_latency_p95_ms : f64;
  rm_concurrent_latency_p99_ms : f64;
  rm_concurrent_attempted_throughput_per_second : f64;
  rm_concurrent_accepted_throughput_per_second : f64;
  rm_concurrent_conflict_rate : f64;
  rm_concurrent_error_rate : f64;
  rm_concurrent_attempts : f64;
  rm_concurrent_accepted : f64;
  rm_concurrent_conflicts : f64;
  rm_metadata_object_growth : f64;
}.

Definition phase (evidence : OperationEvidence PhaseEvidence) : result PhaseEvidence AggregationError :=
  match evidence with
  | Succeeded output => Ok output
  | Failed _ | NotAttempted _ => Err MissingMeasurement
  end.

Definition growth (evidence : OperationEvidence MetadataGrowthEvidence)
  : result MetadataGrowthEvidence AggregationError :=
  match evidence with
  | Succeeded output => Ok output
  | Failed _ | NotAttempted _ => Err MissingMeasurement
  end.

Definition quantile (phase : PhaseEvidence) (name : string) : result f64 AggregationError :=
  ok_or (match lat_all (latency_ms phase) with
         | Some distribution => dist_quantiles distribution !! name
         | None => None
         end) MissingMeasurement.

Definition from_execution (execution : RoundExecution) : result RoundMetrics AggregationError :=
  guard negb (round_passed execution) or FailedRoundInPassingAggregate in
  let? sequential := phase (re_sequential execution) in
  let? concurrent := phase (re_concurrent execution) in
  let? growth := growth (re_metadata_growth execution) in
  let? s50 := quantile sequential "p50" in
  let? s95 := quantile sequential "p95" in
  let? s99 := quantile sequential "p99" in
  let? c50 := quantile concurrent "p50" in
  let? c95 := quantile concurrent "p95" in
  let? c99 := quantile concurrent "p99" in
  let? observed := ok_or (observed_growth growth) MissingMeasurement in
  Ok {| rm_sequential_latency_p50_ms := s50;
        rm_sequential_latency_p95_ms := s95;
        rm_sequential_latency_p99_ms := s99;
        rm_sequential_accepted_throughput_per_second := accepted_throughput_per_second sequential;
        rm_concurrent_latency_p50_ms := c50;
        rm_concurrent_latency_p95_ms := c95;
        rm_concurrent_latency_p99_ms := c99;
        rm_concurrent_attempted_throughput_per_second := attempted_throughput_per_second concurrent;
        rm_concurrent_accepted_throughput_per_second := accepted_throughput_per_second concurrent;
        rm_concurrent_conflict_rate := conflict_rate concurrent;
        rm_concurrent_error_rate := error_rate concurrent;
        rm_concurrent_attempts := f64_of_Z (attempts (counts concurrent));
        rm_concurrent_accepted := f64_of_Z (accepted (counts concurrent));
        rm_concurrent_conflicts := f64_of_Z (conflicts (counts concurrent));
        rm_metadata_object_growth := f64_of_Z observed |}.

Definition metric (rounds : list RoundMetrics) (select : RoundMetrics -> f64)
  : result MedianRange AggregationError :=
  map_err AggregateStatistics (median_with_range (select <$> rounds)).

Definition from_rounds (rounds : list RoundMetrics) : result ContentionMeasurements AggregationError :=
  let? s50 := metric rounds rm_sequential_latency_p50_ms in
  let? s95 := metric rounds rm_sequential_latency_p95_ms in
  let? s99 := metric rounds rm_sequential_latency_p99_ms in
  let? st := metric rounds rm_sequential_accepted_throughput_per_second in
  let? c50 := metric rounds rm_concurrent_latency_p50_ms in
  let? c95 := metric rounds rm_concurrent_latency_p95_ms in
  let? c99 := metric rounds rm_concurrent_latency_p99_ms in
  let? cat := metric rounds rm_concurrent_attempted_throughput_per_second in
  let? cac := metric rounds rm_concurrent_accepted_throughput_per_second in
  let? ccr := metric rounds rm_concurrent_conflict_rate in
  let? cer := metric rounds rm_concurrent_error_rate in
  let? na := metric rounds rm_concurrent_attempts in
  let? nacc := metric rounds rm_concurrent_accepted in
  let? nc := metric rounds rm_concurrent_conflicts in
  let? mg := metric rounds rm_metadata_object_growth in
  Ok {| m_sequential_latency_p50_ms := s50;
        m_sequential_latency_p95_ms := s95;
        m_sequential_latency_p99_ms := s99;
        m_sequential_accepted_throughput_per_second := st;
        m_concurrent_latency_p50_ms := c50;
        m_concurrent_latency_p95_ms := c95;
        m_concurrent_latency_p99_ms := c99;
        m_concurrent_attempted_throughput_per_second := cat;
        m_concurrent_accepted_throughput_per_second := cac;
        m_concurrent_conflict_rate := ccr;
        m_concurrent_error_rate := cer;
        m_concurrent_attempts := na;
        m_concurrent_accepted := nacc;
        m_concurrent_conflicts := nc;
        m_metadata_object_growth := mg |}.

(** ** Checking the schedule *)

Section Rounds.
Context {N : Type}.

(** [plan.rounds().iter().flat_map(..)]: the expected slots in order. *)
Definition expected_slots (plan : ContentionPlan) : list (RoundPlan * (Z * CatalogRun)) :=
  rounds plan ≫= (fun round => pair round <$> zip (seqZ 0 (len (rp_catalogs round))) (rp_catalogs round)).

Definition slot_mismatch (round : RoundPlan) (expected_position : Z) (catalog : CatalogRun)
    (observed : CatalogRoundTranscript N) : bool :=
  negb (rt_repetition observed =? rp_repetition round)%Z
  || negb (bool_decide (rt_kind observed = rp_kind round))
  || negb (rt_position observed =? expected_position)%Z
  || negb (bool_decide (rt_catalog observed = catalog))
  || is_some_and (fun execution =>
       negb (rd_catalog (re_descriptor execution) =? run_catalog catalog)
       || negb (rd_repetition (re_descriptor execution) =? rp_repetition round)%Z
       || negb (bool_decide (rd_kind (re_descriptor execution) = rp_kind round))) (rt_execution observed).

(** The loop over [expected.zip(actual).enumerate()]. *)
Fixpoint check_slots (index : Z)
    (slots : list ((RoundPlan * (Z * CatalogRun)) * CatalogRoundTranscript N))
  : result unit AggregationError :=
  match slots with
  | [] => Ok tt
  | ((round, (position, catalog)), observed) :: slots =>
      let? expected_position := ok_or (try_from u32_max (position + 1)) AggregateCountOverflow in
      guard slot_mismatch round expected_position catalog observed or ScheduleMismatch index in
      check_slots (index + 1) slots
  end.

Definition validate_schedule (plan : ContentionPlan) (actual : list (CatalogRoundTranscript N))
  : result unit AggregationError :=
  let? expected_count := try_fold (fun count round =>
      ok_or (checked_add usize_max count (len (rp_catalogs round))) AggregateCountOverflow)
    0%Z (rounds plan) in
  guard negb (len actual =? expected_count)%Z or ScheduleLength expected_count (len actual) in
  check_slots 0 (zip (expected_slots plan) actual).

(** ** One catalog *)

Definition tally_step (kind : RoundKind) (t : RoundTally) (round : CatalogRoundTranscript N)
  : result RoundTally AggregationError :=
  if bool_decide (rt_kind round = kind) then
    let? scheduled := ok_or (checked_add u32_max (scheduled_rounds t) 1) AggregateCountOverflow in
    let? executed :=
      if rt_execution round
      then ok_or (checked_add u32_max (executed_rounds t) 1) AggregateCountOverflow
      else Ok (executed_rounds t) in
    let? passed :=
      if rt_passed round
      then ok_or (checked_add u32_max (passed_rounds t) 1) AggregateCountOverflow
      else Ok (passed_rounds t) in
    Ok {| scheduled_rounds := scheduled; executed_rounds := executed; passed_rounds := passed |}
  else Ok t.

Definition tally (rounds : list (CatalogRoundTranscript N)) (kind : RoundKind)
  : result RoundTally AggregationError :=
  try_fold (tally_step kind) {| scheduled_rounds := 0; executed_rounds := 0; passed_rounds := 0 |} rounds.

Definition tally_complete (t : RoundTally) (expected : Z) : bool :=
  (scheduled_rounds t =? expected)%Z && (executed_rounds t =? expected)%Z
  && (passed_rounds t =? expected)%Z.

Definition tally_reason (name : string) (t : RoundTally) (expected : Z) : list string :=
  if tally_complete t expected then []
  else [name +:+ " rounds passed " +:+ display (passed_rounds t) +:+ "/" +:+ display expected +:+ " ("
        +:+ display (executed_rounds t) +:+ " executed)"].

Definition aggregate_catalog (plan : ContentionPlan) (rounds : list (CatalogRoundTranscript N))
    (catalog : CatalogRun) : result CatalogAggregate AggregationError :=
  let catalog_rounds :=
    List.filter (fun round => run_catalog (rt_catalog round) =? run_catalog catalog) rounds in
  let? conditioning := tally catalog_rounds Conditioning in
  let? measured := tally catalog_rounds Measured in
  let policy := round_policy (parameters plan) in
  let reasons :=
    (tally_reason "conditioning" conditioning (conditioning_rounds policy)
     ++ tally_reason "measured" measured (measured_rounds policy))%list in
  if is_nil reasons then
    let? metrics := collect_results (fun round =>
        let? execution := ok_or (rt_execution round) MissingExecution in from_execution execution)
      (List.filter (fun round => bool_decide (rt_kind round = Measured)) catalog_rounds) in
    let? measurements := from_rounds metrics in
    Ok {| agg_catalog := catalog; agg_conditioning := conditioning; agg_measured := measured;
          agg_classification := CatalogAggregateClassification.Pass;
          agg_measurements := Some measurements |}
  else
    Ok {| agg_catalog := catalog; agg_conditioning := conditioning; agg_measured := measured;
          agg_classification := CatalogAggregateClassification.Fail reasons;
          agg_measurements := None |}.
End Rounds.

(** ** Ranking *)

Definition Candidate : Type := CatalogAggregate * MedianRange * MedianRange.

(** The comparator of [sort_by]: throughput descending, latency ascending,
    identifier ascending. *)
Definition candidate_cmp : Candidate -> Candidate -> comparison :=
  cmp_lex (cmp_flip (cmp_on (fun c => mr_median c.1.2) total_cmp))
    (cmp_lex (cmp_on (fun c => mr_median c.2) total_cmp)
       (cmp_on (fun c => run_catalog (agg_catalog c.1.1)) String.compare)).

Definition candidates (aggregates : list CatalogAggregate) : list Candidate :=
  omap (fun aggregate =>
    (fun measurements =>
       (aggregate, m_concurrent_accepted_throughput_per_second measurements,
        m_sequential_latency_p50_ms measurements)) <$> agg_measurements aggregate) aggregates.

Definition ranked_entry (indexed : Z * Candidate) : result RankingEntry AggregationError :=
  let '(index, (aggregate, score, _)) := indexed in
  let? rank := ok_or (try_from u32_max (index + 1)) AggregateCountOverflow in
  Ok {| re_catalog := agg_catalog aggregate; re_disposition := Ranked rank score |}.

Definition unranked_entry (aggregate : CatalogAggregate) : result RankingEntry AggregationError :=
  match agg_classification aggregate with
  | CatalogAggregateClassification.Fail reasons =>
      Ok {| re_catalog := agg_catalog aggregate; re_disposition := NotRanked reasons |}
  | CatalogAggregateClassification.Pass => Err InvalidAggregate
  end.

Definition rank_catalogs (aggregates : list CatalogAggregate) : result ContentionRanking AggregationError :=
  let ranked := sort_by candidate_cmp (candidates aggregates) in
  let? first := collect_results ranked_entry (zip (seqZ 0 (len ranked)) ranked) in
  let? rest := collect_results unranked_entry
    (List.filter (fun aggregate => negb (agg_passed aggregate)) aggregates) in
  Ok {| ranking_basis := ConcurrentAcceptedThroughputPerSecond;
        tie_breakers := [SequentialLatencyP50Ascending; CatalogIdAscending];
        ranking_entries := first ++ rest |}.

(** ** The sweep *)

Definition classify_sweep (aggregates : list CatalogAggregate) : SweepClassification.t :=
  let failed_catalogs := (fun aggregate => run_catalog (agg_catalog aggregate))
    <$> List.filter (fun aggregate => negb (agg_passed aggregate)) aggregates in
  if is_nil failed_catalogs then SweepClassification.Pass else SweepClassification.Fail failed_catalogs.

Definition aggregate_contention {N} (plan : ContentionPlan) (transcripts : list (CatalogRoundTranscript N))
  : result (list CatalogAggregate * ContentionRanking * SweepClassification.t) AggregationError :=
  check? validate_schedule plan transcripts in
  let? first := ok_or (head (rounds plan)) EmptySchedule in
  let? aggregates := collect_results (aggregate_catalog plan transcripts) (rp_catalogs first) in
  let? ranking := rank_catalogs aggregates in
  Ok (aggregates, ranking, classify_sweep aggregates).

(** ** Lemmas *)

Lemma bfilter_In {A} (p : A -> bool) (l : list A) x : x ∈ List.filter p l <-> x ∈ l /\ p x = true.
Proof. by rewrite !list_elem_of_In, filter_In. Qed.

Lemma len_bfilter {A} (p : A -> bool) (l : list A) : (0 <= len (List.filter p l) <= len l)%Z.
Proof. unfold len. pose proof (List.filter_length_le p l). lia. Qed.

Lemma bfilter_full {A} (p : A -> bool) (l : list A) :
  len (List.filter p l) = len l <-> forall x, x ∈ l -> p x = true.
Proof.
  unfold len. induction l as [|a l IH].
  - simpl. split; [|done]. intros _ x Hx. by apply not_elem_of_nil in Hx.
  - pose proof (List.filter_length_le p l). simpl. destruct (p a) eqn:Ha; simpl.
    + rewrite !Nat2Z.inj_succ, Z.succ_inj_wd, IH. split.
      * intros Hl x [->|Hx]%elem_of_cons; auto.
      * intros Hl x Hx. apply Hl. by right.
    + split; [lia|]. intros Hl. specialize (Hl a). rewrite Ha in Hl. discriminate Hl. by left.
Qed.

Lemma is_nil_true {A} (l : list A) : is_nil l = true <-> l = [].
Proof. by destruct l. Qed.

Lemma round_passed_executes {N} (r : CatalogRoundTranscript N) :
  rt_passed r = true -> exists e, rt_execution r = Some e /\ round_passed e = true.
Proof. unfold rt_passed, rt_execution. destruct (rt_outcome r); simpl; [eauto|done]. Qed.

Section RoundLemmas.
Context {N : Type}.
Implicit Types (l : list (CatalogRoundTranscript N)) (r : CatalogRoundTranscript N).

Definition of_kind (kind : RoundKind) l := List.filter (fun r => bool_decide (rt_kind r = kind)) l.
Definition executed (r : CatalogRoundTranscript N) : bool := if rt_execution r then true else false.
Definition of_catalog (id : ComponentId) l := List.filter (fun r => run_catalog (rt_catalog r) =? id) l.

Lemma tally_from kind l t0 t :
  try_fold (tally_step kind) t0 l = Ok t ->
  scheduled_rounds t = (scheduled_rounds t0 + len (of_kind kind l))%Z /\
  executed_rounds t = (executed_rounds t0 + len (List.filter executed (of_kind kind l)))%Z /\
  passed_rounds t = (passed_rounds t0 + len (List.filter rt_passed (of_kind kind l)))%Z.
Proof.
  revert t0. induction l as [|r l IH]; intros t0; cbn [try_fold of_kind List.filter].
  { intros [= ->]. unfold len. simpl. lia. }
  unfold tally_step at 1. case_bool_decide as Hk; [|by intros Ht%IH].
  unfold checked_add. destruct (_ <=? _)%Z; [|done]. cbn [ok_or].
  cbn [List.filter]. fold (of_kind kind l).
  assert (He : executed r = if rt_execution r then true else false) by done. rewrite He. clear He.
  intros Ht. destruct (rt_execution r), (rt_passed r);
    repeat match type of Ht with context [(?a <=? ?b)%Z] => destruct (a <=? b)%Z; [|done] end;
    cbn [ok_or] in Ht; apply IH in Ht; cbn [scheduled_rounds executed_rounds passed_rounds] in Ht;
    rewrite ?len_cons; lia.
Qed.

(** A tally is complete exactly when the expected number of rounds was
    scheduled and all of them passed. *)
Lemma tally_complete_iff kind l t expected :
  tally l kind = Ok t ->
  (tally_complete t expected = true <->
   len (of_kind kind l) = expected /\ forall r, r ∈ of_kind kind l -> rt_passed r = true).
Proof.
  intros (Hs & He & Hp)%tally_from. cbn [scheduled_rounds executed_rounds passed_rounds] in *.
  unfold tally_complete. brust. rewrite Hs, He, Hp, !Z.add_0_l, <-(bfilter_full rt_passed).
  assert (Hex : (len (List.filter rt_passed (of_kind kind l)) <= len (List.filter executed (of_kind kind l)))%Z).
  { unfold len. apply inj_le. clear. induction (of_kind kind l) as [|r k IH]; [done|]. simpl.
    destruct (rt_passed r) eqn:Hp.
    - apply round_passed_executes in Hp as (e & He & _).
      assert (Hx : executed r = true) by (unfold executed; by rewrite He). rewrite Hx. simpl. lia.
    - destruct (executed r); simpl; lia. }
  pose proof (len_bfilter executed (of_kind kind l)). lia.
Qed.

Lemma tally_reason_nil name t expected : tally_reason name t expected = [] <-> tally_complete t expected = true.
Proof. unfold tally_reason. by destruct (tally_complete t expected). Qed.

(** What it takes for the rounds [l] of one catalog to pass. *)
Definition rounds_complete (policy : RoundPolicy) l : Prop :=
  len (of_kind Conditioning l) = conditioning_rounds policy /\
  len (of_kind Measured l) = measured_rounds policy /\
  forall r, r ∈ l -> rt_passed r = true.

Lemma kinds_cover l (P : CatalogRoundTranscript N -> Prop) :
  (forall r, r ∈ l -> P r) <->
  (forall r, r ∈ of_kind Conditioning l -> P r) /\ (forall r, r ∈ of_kind Measured l -> P r).
Proof.
  unfold of_kind. split.
  - intros HP. split; intros r [Hr _]%bfilter_In; auto.
  - intros [Hc Hm] r Hr. destruct (rt_kind r) eqn:Hk; [apply Hc|apply Hm]; apply bfilter_In; by rewrite Hk.
Qed.

(** The measurements of a passing catalog summarise its measured rounds. *)
Definition summarises (l : list (CatalogRoundTranscript N)) (m : ContentionMeasurements) : Prop :=
  exists metrics, Forall2 (fun r metrics => exists e, rt_execution r = Some e /\
                             from_execution e = Ok metrics) (of_kind Measured l) metrics /\
                  from_rounds metrics = Ok m.

Lemma aggregate_catalog_Ok plan l catalog a :
  aggregate_catalog plan l catalog = Ok a ->
  agg_catalog a = catalog /\
  (agg_passed a = true <->
     rounds_complete (round_policy (parameters plan)) (of_catalog (run_catalog catalog) l)) /\
  (if agg_passed a
   then exists m, agg_measurements a = Some m /\ summarises (of_catalog (run_catalog catalog) l) m
   else agg_measurements a = None /\
        exists reasons, agg_classification a = CatalogAggregateClassification.Fail reasons).
Proof.
  unfold aggregate_catalog. fold (of_catalog (run_catalog catalog) l).
  set (mine := of_catalog (run_catalog catalog) l). set (policy := round_policy (parameters plan)).
  destruct (tally mine Conditioning) as [tc|] eqn:Htc; [|done].
  destruct (tally mine Measured) as [tm|] eqn:Htm; [|done]. cbv zeta.
  set (reasons := (_ ++ _)%list).
  assert (Hnil : is_nil reasons = true <-> rounds_complete policy mine).
  { unfold reasons, rounds_complete. rewrite is_nil_true, app_nil, !tally_reason_nil.
    rewrite (tally_complete_iff _ _ _ _ Htc), (tally_complete_iff _ _ _ _ Htm).
    pose proof (kinds_cover mine (fun r => rt_passed r = true)). tauto. }
  destruct (is_nil reasons) eqn:Hr.
  - fold (of_kind Measured mine). destruct (collect_results _ _) as [metrics|] eqn:Hm; [|done].
    destruct (from_rounds metrics) as [m|] eqn:Hfr; [|done]. intros [= <-]. split; [done|].
    unfold agg_passed. cbn. split; [by rewrite <-Hnil|]. exists m. split; [done|].
    exists metrics. split; [|done]. apply collect_results_Ok in Hm. eapply Forall2_impl; [exact Hm|].
    cbn. intros r mt. destruct (rt_execution r); cbn; [eauto|done].
  - intros [= <-]. split; [done|]. unfold agg_passed. cbn. split; [by rewrite <-Hnil|]. eauto.
Qed.
End RoundLemmas.
