(* ===== verification/AggregateProofs.v ===== *)
(** * What the verdict of a sweep means (aggregate.rs, properties)

    The transcripts a verdict is computed from are exactly the scheduled ones,
    the verdict is a pass exactly when every scheduled round passed, and the
    ranking lists the passing catalogs by the published basis. *)

From S2P Require Import Prelude Order RustStr Float64 ContractValue ContractScenario ContractAdapter ContractResult.
From S2P Require Import Stats Ledger Policy Protocol Store Workflow Aggregate.
Open Scope string_scope.

(** ** The schedule *)

Section Schedule.
Context {N : Type}.
Implicit Types (ts : list (CatalogRoundTranscript N)) (r : CatalogRoundTranscript N).

Notation slot := (RoundPlan * (Z * CatalogRun))%type.

(** A transcript records the slot it was scheduled in. *)
Record slot_matches (s : slot) (r : CatalogRoundTranscript N) : Prop := {
  sm_repetition : rt_repetition r = rp_repetition s.1;
  sm_kind : rt_kind r = rp_kind s.1;
  sm_position : rt_position r = (s.2.1 + 1)%Z;
  sm_catalog : rt_catalog r = s.2.2;
  sm_descriptor : forall e, rt_execution r = Some e ->
    rd_catalog (re_descriptor e) = run_catalog s.2.2 /\
    rd_repetition (re_descriptor e) = rp_repetition s.1 /\ rd_kind (re_descriptor e) = rp_kind s.1;
}.

Lemma slot_mismatch_spec (s : slot) r :
  slot_mismatch s.1 (s.2.1 + 1)%Z s.2.2 r = false <-> slot_matches s r.
Proof.
  unfold slot_mismatch. rewrite !orb_false_iff, !negb_false_iff, !Z.eqb_eq, !bool_decide_eq_true. split.
  - intros [[[[Hr Hk] Hp] Hc] Hd]. split; [done..|]. intros e He. rewrite He in Hd. simpl in Hd.
    rewrite !orb_false_iff, !negb_false_iff, Z.eqb_eq, String.eqb_eq, bool_decide_eq_true in Hd. tauto.
  - intros [Hr Hk Hp Hc Hd]. split_and!; [done..|].
    destruct (rt_execution r) as [e|]; [|done]. simpl. destruct (Hd e eq_refl) as (-> & -> & ->).
    by rewrite String.eqb_refl, Z.eqb_refl, bool_decide_eq_true_2.
Qed.

Lemma check_slots_sound i slots :
  check_slots i slots = Ok tt -> Forall (fun p => slot_matches p.1 p.2) slots.
Proof.
  revert i. induction slots as [|[[round [position catalog]] r] slots IH]; intros i; [constructor|].
  cbn [check_slots]. unfold try_from. destruct (_ <=? _)%Z; [|done]. cbn [ok_or].
  destruct (slot_mismatch _ _ _ _) eqn:Hm; [done|]. intros Hc. constructor; [|by eapply IH].
  by apply (slot_mismatch_spec (round, (position, catalog))).
Qed.

Lemma check_slots_complete i slots :
  Forall (fun p => slot_matches p.1 p.2 /\ (p.1.2.1 + 1 <= u32_max)%Z) slots -> check_slots i slots = Ok tt.
Proof.
  intros HF. revert i. induction HF as [|[[round [position catalog]] r] slots [Hm Hp] _ IH]; intros i; [done|].
  cbn [check_slots]. unfold try_from. simpl in Hp. destruct (Z.leb_spec (position + 1) u32_max); [|lia].
  cbn [ok_or]. apply slot_mismatch_spec in Hm. simpl in Hm. by rewrite Hm.
Qed.

Lemma round_slots_len round :
  len (pair round <$> zip (seqZ 0 (len (rp_catalogs round))) (rp_catalogs round)) = len (rp_catalogs round).
Proof. unfold len. rewrite length_fmap, length_zip_with, length_seqZ. lia. Qed.

Lemma slots_count_from (rs : list RoundPlan) n :
  try_fold (fun count round =>
      ok_or (checked_add usize_max count (len (rp_catalogs round))) AggregateCountOverflow) n rs =
  if (n + len (rs ≫= fun round => pair round <$> zip (seqZ 0 (len (rp_catalogs round))) (rp_catalogs round))
        <=? usize_max)%Z || is_nil rs
  then Ok (n + len (rs ≫= fun round => pair round <$> zip (seqZ 0 (len (rp_catalogs round))) (rp_catalogs round)))%Z
  else Err AggregateCountOverflow.
Proof.
  revert n. induction rs as [|round rs IH]; intros n.
  { simpl. rewrite len_nil, Z.add_0_r. by destruct (n <=? usize_max)%Z. }
  cbn [try_fold]. rewrite bind_cons, len_app, round_slots_len. unfold checked_add.
  pose proof (len_nonneg (rs ≫= fun round => pair round <$> zip (seqZ 0 (len (rp_catalogs round))) (rp_catalogs round))).
  destruct (Z.leb_spec (n + len (rp_catalogs round)) usize_max); cbn [ok_or is_nil].
  - rewrite IH, Z.add_assoc, orb_false_r. destruct (_ <=? usize_max)%Z eqn:Hle; [done|].
    apply Z.leb_gt in Hle. destruct rs; [|done]. simpl in *. rewrite len_nil in Hle. lia.
  - destruct (Z.leb_spec (n + (len (rp_catalogs round) + len (rs ≫= fun round =>
      pair round <$> zip (seqZ 0 (len (rp_catalogs round))) (rp_catalogs round)))) usize_max); [lia|done].
Qed.

Lemma validate_schedule_slots plan ts :
  validate_schedule plan ts = Ok tt -> Forall2 slot_matches (expected_slots plan) ts.
Proof.
  unfold validate_schedule. rewrite slots_count_from. fold (expected_slots plan). rewrite Z.add_0_l.
  destruct (_ || _); [|done]. destruct (Z.eqb_spec (len ts) (len (expected_slots plan))) as [Hlen|]; [|done].
  cbn [negb]. intros Hc%check_slots_sound. unfold len in Hlen. apply Nat2Z.inj in Hlen.
  apply Forall2_same_length_lookup. split; [by symmetry|]. intros i s r Hs Hr.
  rewrite Forall_lookup in Hc. apply (Hc i (s, r)). apply lookup_zip_with_Some. by exists s, r.
Qed.

Lemma expected_slots_position plan s :
  s ∈ expected_slots plan -> (s.2.1 < len (expected_slots plan))%Z.
Proof.
  unfold expected_slots. induction (rounds plan) as [|round rs IH]; [by intros ?%not_elem_of_nil|].
  rewrite bind_cons, len_app, round_slots_len. rewrite elem_of_app.
  pose proof (len_nonneg (rs ≫= fun round => pair round <$> zip (seqZ 0 (len (rp_catalogs round))) (rp_catalogs round))).
  intros [([p c] & -> & Hin)%list_elem_of_fmap|Hin%IH]; simpl.
  - apply elem_of_zip_l in Hin as Hp. apply elem_of_seqZ in Hp. lia.
  - pose proof (len_nonneg (rp_catalogs round)). lia.
Qed.

Lemma validate_schedule_accepts plan ts :
  (len (expected_slots plan) <= u32_max)%Z ->
  Forall2 slot_matches (expected_slots plan) ts -> validate_schedule plan ts = Ok tt.
Proof.
  intros Hlen HF. unfold validate_schedule. rewrite slots_count_from. fold (expected_slots plan).
  rewrite Z.add_0_l. destruct (Z.leb_spec (len (expected_slots plan)) usize_max) as [_|Hgt];
    [|unfold usize_max, u64_max, u32_max in *; lia]. cbn [orb].
  assert (Heq : len ts = len (expected_slots plan)) by (unfold len; by rewrite (Forall2_length _ _ _ HF)).
  rewrite Heq, Z.eqb_refl. cbn [negb]. apply check_slots_complete.
  apply Forall_lookup. intros i [s r] Hi.
  apply lookup_zip_with_Some in Hi as (s' & r' & [= <- <-] & Hs & Hr). cbn [fst snd].
  destruct (Forall2_lookup_lr _ _ _ _ _ _ HF Hs Hr). split; [done|].
  apply list_elem_of_lookup_2, expected_slots_position in Hs. lia.
Qed.
End Schedule.

(** ** Counting the rounds of a catalog *)

Lemma bfilter_none {A} (p : A -> bool) (l : list A) : (forall x, x ∈ l -> p x = false) -> List.filter p l = [].
Proof.
  intros Hp. induction l as [|a l IH]; [done|]. simpl. rewrite Hp by left. apply IH. intros x Hx. apply Hp. by right.
Qed.

Lemma bfilter_ext {A} (p q : A -> bool) (l : list A) :
  (forall x, p x = q x) -> List.filter p l = List.filter q l.
Proof. intros Hpq. apply List.filter_ext. done. Qed.

Lemma len_bfilter_fmap {A B} (f : A -> B) (p : B -> bool) (l : list A) :
  len (List.filter p (f <$> l)) = len (List.filter (fun a => p (f a)) l).
Proof.
  unfold len. induction l as [|a l IH]; [done|]. rewrite fmap_cons. simpl. destruct (p (f a)); simpl; lia.
Qed.

Lemma bfilter_and {A} (p q : A -> bool) (l : list A) :
  List.filter p (List.filter q l) = List.filter (fun a => q a && p a) l.
Proof.
  induction l as [|a l IH]; [done|]. simpl. destruct (q a) eqn:Hq; simpl; [|done].
  destruct (p a); by rewrite IH.
Qed.

Lemma len_bfilter_perm {A} (p : A -> bool) (l k : list A) :
  l ≡ₚ k -> len (List.filter p l) = len (List.filter p k).
Proof.
  unfold len. induction 1 as [|x l k _ IH|x y l|l k m _ IH1 _ IH2]; simpl; [done| | |lia].
  - destruct (p x); simpl; lia.
  - destruct (p x), (p y); simpl; lia.
Qed.

Lemma bfilter_key_unique {A} (key : A -> string) (id : string) (l : list A) :
  NoDup (key <$> l) -> id ∈ key <$> l -> len (List.filter (fun a => key a =? id) l) = 1%Z.
Proof.
  induction l as [|a l IH]; intros Hnd Hin; [by apply not_elem_of_nil in Hin|].
  rewrite fmap_cons in Hnd, Hin. apply NoDup_cons in Hnd as [Ha Hnd]. simpl.
  destruct (String.eqb_spec (key a) id) as [<-|Hne].
  - rewrite bfilter_none; [done|]. intros x Hx. apply String.eqb_neq. intros Heq. apply Ha.
    rewrite <-Heq. by apply list_elem_of_fmap_2.
  - apply IH; [done|]. by apply elem_of_cons in Hin as [->|].
Qed.

Lemma zip_seqZ_snd {A} m (l : list A) : (zip (seqZ m (len l)) l).*2 = l.
Proof. apply snd_zip. unfold len. rewrite length_seqZ. lia. Qed.

Section Counts.
Context {N : Type} (catalogs : list CatalogRun) (policy : RoundPolicy).
Context (Hdistinct : NoDup (run_catalog <$> catalogs)).

Definition slot_of (kind : RoundKind) (id : ComponentId) (s : RoundPlan * (Z * CatalogRun)) : bool :=
  bool_decide (rp_kind s.1 = kind) && (run_catalog s.2.2 =? id).

(** A round that visits every catalog has one slot for each. *)
Lemma round_slot_count kind id (round : RoundPlan) :
  rp_catalogs round ≡ₚ catalogs -> id ∈ run_catalog <$> catalogs ->
  len (List.filter (slot_of kind id)
    (pair round <$> zip (seqZ 0 (len (rp_catalogs round))) (rp_catalogs round))) =
  if bool_decide (rp_kind round = kind) then 1%Z else 0%Z.
Proof using Hdistinct.
  intros Hp Hid. rewrite len_bfilter_fmap. unfold slot_of. simpl.
  case_bool_decide; simpl; [|by rewrite bfilter_none].
  rewrite <-(len_bfilter_fmap snd (fun c => run_catalog c =? id)), zip_seqZ_snd.
  rewrite (len_bfilter_perm _ _ _ Hp). by apply bfilter_key_unique.
Qed.

Lemma slots_kind_count kind id (rs : list RoundPlan) :
  Forall (fun round => rp_catalogs round ≡ₚ catalogs) rs -> id ∈ run_catalog <$> catalogs ->
  len (List.filter (slot_of kind id)
    (rs ≫= fun round => pair round <$> zip (seqZ 0 (len (rp_catalogs round))) (rp_catalogs round))) =
  len (List.filter (fun round => bool_decide (rp_kind round = kind)) rs).
Proof using Hdistinct.
  intros HF Hid. induction HF as [|round rs Hr _ IH]; [done|].
  rewrite bind_cons, List.filter_app, len_app, (round_slot_count kind id round Hr Hid), IH. simpl.
  case_bool_decide; [by rewrite len_cons|lia].
Qed.

Lemma transcripts_kind_count kind id slots (ts : list (CatalogRoundTranscript N)) :
  Forall2 slot_matches slots ts ->
  len (of_kind kind (of_catalog id ts)) = len (List.filter (slot_of kind id) slots).
Proof using.
  intros HF. unfold of_kind, of_catalog. rewrite bfilter_and.
  induction HF as [|s r slots ts [_ Hk _ Hc _] _ IH]; [done|]. simpl. unfold slot_of at 1.
  rewrite Hk, Hc, andb_comm. destruct (_ && _); [by rewrite !len_cons, IH|done].
Qed.

(** The plan holds the rounds its policy asks for. *)
Lemma planned_kind_count kind :
  (0 <= conditioning_rounds policy)%Z -> (0 <= measured_rounds policy)%Z ->
  len (List.filter (fun round => bool_decide (rp_kind round = kind))
    (plan_round catalogs policy <$> seqZ 0 (conditioning_rounds policy + measured_rounds policy))) =
  match kind with Conditioning => conditioning_rounds policy | Measured => measured_rounds policy end.
Proof using.
  intros Hc Hm. rewrite len_bfilter_fmap, seqZ_app, List.filter_app, len_app by done.
  assert (Hlen : forall m n, (0 <= n)%Z -> len (seqZ m n) = n).
  { intros m n Hn. unfold len. rewrite length_seqZ. lia. }
  assert (Hkind : forall i, rp_kind (plan_round catalogs policy i) =
    if (i <? conditioning_rounds policy)%Z then Conditioning else Measured) by done.
  assert (Hlow : forall i, i ∈ seqZ 0 (conditioning_rounds policy) -> rp_kind (plan_round catalogs policy i) = Conditioning).
  { intros i Hi%elem_of_seqZ. rewrite Hkind. destruct (Z.ltb_spec i (conditioning_rounds policy)); [done|lia]. }
  assert (Hhigh : forall i, i ∈ seqZ (0 + conditioning_rounds policy) (measured_rounds policy) ->
    rp_kind (plan_round catalogs policy i) = Measured).
  { intros i Hi%elem_of_seqZ. rewrite Hkind. destruct (Z.ltb_spec i (conditioning_rounds policy)); [lia|done]. }
  assert (Hall : forall m n k, (0 <= n)%Z ->
    (forall i, i ∈ seqZ m n -> rp_kind (plan_round catalogs policy i) = k) ->
    len (List.filter (fun i => bool_decide (rp_kind (plan_round catalogs policy i) = kind)) (seqZ m n)) =
    if bool_decide (k = kind) then n else 0%Z).
  { intros m n k Hn Hk. case_bool_decide as Hd.
    - etransitivity; [apply bfilter_full|by apply Hlen]. intros i Hi. apply bool_decide_eq_true.
      by rewrite (Hk i Hi).
    - by rewrite bfilter_none by (intros i Hi; apply bool_decide_eq_false; by rewrite (Hk i Hi)). }
  rewrite (Hall _ _ _ Hc Hlow), (Hall _ _ _ Hm Hhigh). destruct kind; simpl; lia.
Qed.
End Counts.

(** ** The verdict *)

Lemma classify_pass aggregates :
  classify_sweep aggregates = SweepClassification.Pass <-> forall a, a ∈ aggregates -> agg_passed a = true.
Proof.
  unfold classify_sweep. destruct (List.filter (fun a => negb (agg_passed a)) aggregates) as [|x l] eqn:Hf; simpl.
  - split; [|done]. intros _ a Ha. apply not_false_iff_true. intros Hp.
    assert (Hin : a ∈ List.filter (fun a => negb (agg_passed a)) aggregates) by (apply bfilter_In; by rewrite Hp).
    rewrite Hf in Hin. by apply not_elem_of_nil in Hin.
  - split; [done|]. intros Hall. assert (Hx : x ∈ List.filter (fun a => negb (agg_passed a)) aggregates).
    { rewrite Hf. left. }
    apply bfilter_In in Hx as [Hx Hn]. by rewrite (Hall x Hx) in Hn.
Qed.

Lemma aggregate_contention_Ok {N} plan (ts : list (CatalogRoundTranscript N)) aggregates ranking verdict :
  aggregate_contention plan ts = Ok (aggregates, ranking, verdict) ->
  Forall2 slot_matches (expected_slots plan) ts /\
  (exists first, head (rounds plan) = Some first /\
     Forall2 (fun c a => aggregate_catalog plan ts c = Ok a) (rp_catalogs first) aggregates) /\
  rank_catalogs aggregates = Ok ranking /\ verdict = classify_sweep aggregates.
Proof.
  unfold aggregate_contention. destruct (validate_schedule plan ts) as [[]|] eqn:Hv; [|done].
  destruct (head (rounds plan)) as [first|] eqn:Hh; simpl; [|done].
  destruct (collect_results _ _) as [aggs|] eqn:Hc; [|done].
  destruct (rank_catalogs aggs) as [r|] eqn:Hr; [|done]. intros [= <- <- <-].
  split; [by apply validate_schedule_slots|]. split; [|done]. exists first. split; [done|].
  by apply collect_results_Ok.
Qed.

Lemma expected_slots_catalog plan catalogs s :
  Forall (fun round => rp_catalogs round ≡ₚ catalogs) (rounds plan) -> s ∈ expected_slots plan -> s.2.2 ∈ catalogs.
Proof.
  intros HF (round & Hs & Hr)%list_elem_of_bind. rewrite Forall_forall in HF. rewrite <-(HF round Hr).
  apply list_elem_of_fmap in Hs as ([p c] & -> & Hin). simpl. by apply elem_of_zip_r in Hin.
Qed.

Lemma verdict_all_rounds {N} plan (ts : list (CatalogRoundTranscript N)) catalogs aggregates ranking verdict :
  schedule_rounds catalogs (round_policy (parameters plan)) = Ok (rounds plan) ->
  NoDup (run_catalog <$> catalogs) ->
  (0 <= conditioning_rounds (round_policy (parameters plan)))%Z ->
  (0 <= measured_rounds (round_policy (parameters plan)))%Z ->
  aggregate_contention plan ts = Ok (aggregates, ranking, verdict) ->
  (verdict = SweepClassification.Pass <-> forall r, r ∈ ts -> rt_passed r = true).
Proof.
  intros (_ & _ & Hrounds)%schedule_rounds_Ok Hnd Hc0 Hm0 Hagg.
  apply aggregate_contention_Ok in Hagg as (Hslots & (first & Hfirst & Haggs) & _ & ->).
  set (policy := round_policy (parameters plan)) in *.
  assert (Hperm : Forall (fun round => rp_catalogs round ≡ₚ catalogs) (rounds plan)).
  { rewrite Hrounds. apply Forall_fmap, Forall_forall. intros i _. apply rotate_left_perm. }
  assert (Hf : rp_catalogs first ≡ₚ catalogs).
  { rewrite Forall_forall in Hperm. apply Hperm. destruct (rounds plan); [done|]. injection Hfirst as <-. left. }
  rewrite classify_pass. split.
  - intros Hall r Hr. pose proof Hr as [i Hi]%list_elem_of_lookup.
    destruct (Forall2_lookup_r _ _ _ _ _ Hslots Hi) as (s & Hs & Hm).
    apply list_elem_of_lookup_2, (expected_slots_catalog _ catalogs) in Hs; [|done]. rewrite <-Hf in Hs.
    apply list_elem_of_lookup in Hs as [j Hj]. destruct (Forall2_lookup_l _ _ _ _ _ Haggs Hj) as (a & Ha & Hagg).
    apply aggregate_catalog_Ok in Hagg as (_ & Hpass & _).
    apply Hpass; [by apply Hall, (list_elem_of_lookup_2 _ j)|]. apply bfilter_In. split; [done|].
    apply String.eqb_eq. by rewrite (sm_catalog _ _ Hm).
  - intros Hall a [j Hj]%list_elem_of_lookup.
    destruct (Forall2_lookup_r _ _ _ _ _ Haggs Hj) as (c & Hc & Hagg).
    apply aggregate_catalog_Ok in Hagg as (_ & Hpass & _). apply Hpass.
    apply list_elem_of_lookup_2 in Hc. rewrite Hf in Hc.
    assert (Hid : run_catalog c ∈ run_catalog <$> catalogs) by by apply list_elem_of_fmap_2.
    assert (Hcount : forall kind, len (of_kind kind (of_catalog (run_catalog c) ts)) =
      match kind with Conditioning => conditioning_rounds policy | Measured => measured_rounds policy end).
    { intros kind. rewrite (transcripts_kind_count kind _ _ _ Hslots). unfold expected_slots.
      rewrite (slots_kind_count catalogs Hnd kind _ _ Hperm Hid), Hrounds. by apply planned_kind_count. }
    split; [apply (Hcount Conditioning)|]. split; [apply (Hcount Measured)|].
    intros r [Hr _]%bfilter_In. by apply Hall.
Qed.

(** ** The ranking *)

(** An aggregate as [aggregate_catalog] makes it. *)
Definition consistent (a : CatalogAggregate) : Prop :=
  if agg_passed a then exists m, agg_measurements a = Some m
  else agg_measurements a = None /\
       exists reasons, agg_classification a = CatalogAggregateClassification.Fail reasons.

#[export] Instance candidate_cmp_total : TotalCmp candidate_cmp.
Proof. unfold candidate_cmp. apply _. Qed.

(** [c] is ranked no worse than [d]: a higher throughput; on a tie a lower
    latency; on a further tie the smaller identifier. *)
Definition ranked_before (c d : Candidate) : Prop :=
  total_cmp (mr_median d.1.2) (mr_median c.1.2) = Lt \/
  mr_median c.1.2 = mr_median d.1.2 /\
    (total_cmp (mr_median c.2) (mr_median d.2) = Lt \/
     mr_median c.2 = mr_median d.2 /\
       String.compare (run_catalog (agg_catalog c.1.1)) (run_catalog (agg_catalog d.1.1)) <> Gt).

Lemma candidate_cmp_before c d : candidate_cmp c d <> Gt -> ranked_before c d.
Proof.
  unfold candidate_cmp, cmp_lex, cmp_flip, cmp_on, ranked_before, then_with.
  destruct (total_cmp (mr_median d.1.2) (mr_median c.1.2)) eqn:Ht; [|by left|done].
  apply (cmp_eq total_cmp) in Ht. destruct (total_cmp (mr_median c.2) (mr_median d.2)) eqn:Hl; [|by eauto|done].
  apply (cmp_eq total_cmp) in Hl. eauto.
Qed.

Lemma candidates_passed aggregates :
  Forall consistent aggregates -> (candidates aggregates).*1.*1 = List.filter agg_passed aggregates.
Proof.
  induction 1 as [|a aggs Ha _ IH]; [done|]. unfold candidates in *. simpl. unfold consistent in Ha.
  destruct (agg_passed a).
  - destruct Ha as [m ->]. simpl. f_equal. exact IH.
  - destruct Ha as [-> _]. done.
Qed.

Lemma candidates_measured aggregates c :
  c ∈ candidates aggregates -> exists m, agg_measurements c.1.1 = Some m /\
    c.1.2 = m_concurrent_accepted_throughput_per_second m /\ c.2 = m_sequential_latency_p50_ms m.
Proof.
  intros (a & _ & Hc)%list_elem_of_omap. destruct (agg_measurements a) as [m|] eqn:Hm; [|done].
  injection Hc as <-. by exists m.
Qed.

Definition entry_of_rank (i : nat) (c : Candidate) : RankingEntry :=
  {| re_catalog := agg_catalog c.1.1; re_disposition := Ranked (Z.of_nat i + 1) c.1.2 |}.

Definition unranked (a : CatalogAggregate) : RankingEntry := {|
  re_catalog := agg_catalog a;
  re_disposition := NotRanked match agg_classification a with
                              | CatalogAggregateClassification.Fail reasons => reasons
                              | CatalogAggregateClassification.Pass => []
                              end;
|}.

Lemma ranked_entries_Ok (l : list Candidate) es :
  collect_results ranked_entry (zip (seqZ 0 (len l)) l) = Ok es -> es = imap entry_of_rank l.
Proof.
  intros HF%collect_results_Ok. apply list_eq. intros i. rewrite list_lookup_imap.
  assert (Hlen : length es = length l).
  { apply Forall2_length in HF. rewrite <-HF, length_zip_with, length_seqZ. unfold len. lia. }
  destruct (l !! i) as [c|] eqn:Hc; simpl.
  - pose proof (lookup_lt_Some _ _ _ Hc) as Hi.
    assert (Hz : zip (seqZ 0 (len l)) l !! i = Some (Z.of_nat i, c)).
    { apply lookup_zip_with_Some. exists (Z.of_nat i), c. split; [done|]. split; [|done].
      apply lookup_seqZ. unfold len. lia. }
    destruct (Forall2_lookup_l _ _ _ _ _ HF Hz) as (e & -> & He). f_equal.
    destruct c as [[a score] lat]. unfold ranked_entry in He.
    destruct (try_from _ _) eqn:Hr; [|done]. unfold try_from in Hr. destruct (_ <=? _)%Z; [|done].
    injection Hr as <-. by injection He as <-.
  - apply lookup_ge_None in Hc. apply lookup_ge_None. lia.
Qed.

Lemma unranked_entries_Ok aggregates es :
  collect_results unranked_entry aggregates = Ok es -> es = unranked <$> aggregates.
Proof.
  intros HF%collect_results_Ok. induction HF as [|a e aggs es He _ IH]; [done|].
  rewrite fmap_cons, IH. f_equal. unfold unranked_entry, unranked in *.
  destruct (agg_classification a); [done|]. by injection He.
Qed.

Lemma ranking_shape aggregates ranking :
  rank_catalogs aggregates = Ok ranking -> Forall consistent aggregates ->
  exists order : list Candidate,
    order.*1.*1 ≡ₚ List.filter agg_passed aggregates /\
    (forall c, c ∈ order -> exists m, agg_measurements c.1.1 = Some m /\
       c.1.2 = m_concurrent_accepted_throughput_per_second m /\ c.2 = m_sequential_latency_p50_ms m) /\
    (forall i j c d, (i < j)%nat -> order !! i = Some c -> order !! j = Some d -> ranked_before c d) /\
    ranking_entries ranking =
      (imap entry_of_rank order ++
       (unranked <$> List.filter (fun a => negb (agg_passed a)) aggregates))%list.
Proof.
  unfold rank_catalogs. intros Hr Hcons. set (order := sort_by candidate_cmp (candidates aggregates)) in *.
  destruct (collect_results ranked_entry _) as [es|] eqn:He; [|done].
  destruct (collect_results unranked_entry _) as [us|] eqn:Hu; [|done]. injection Hr as <-. exists order.
  split. { unfold order. rewrite sort_by_perm. by rewrite candidates_passed. }
  split. { intros c Hc. apply (candidates_measured aggregates). by apply elem_of_sort_by in Hc. }
  split.
  - intros i j c d Hij Hc Hd. apply candidate_cmp_before.
    exact (strongly_sorted_lookup_lt _ order (sort_by_sorted candidate_cmp _) i j c d Hij Hc Hd).
  - simpl. by rewrite (ranked_entries_Ok _ _ He), (unranked_entries_Ok _ _ Hu).
Qed.

Lemma aggregates_consistent {N} plan (ts : list (CatalogRoundTranscript N)) catalogs aggregates :
  Forall2 (fun c a => aggregate_catalog plan ts c = Ok a) catalogs aggregates -> Forall consistent aggregates.
Proof.
  induction 1 as [|c a cs aggs Ha _ IH]; [constructor|]. constructor; [|done].
  apply aggregate_catalog_Ok in Ha as (_ & _ & Ha). unfold consistent. destruct (agg_passed a); [|done].
  destruct Ha as (m & Hm & _). by exists m.
Qed.

(** ** Properties *)

(** The transcripts of a sweep are accepted exactly when they
    are, one for one and in order, the slots of the plan: same repetition, kind,
    catalog and one-based position, and the execution inside describes that very
    slot. *)
Theorem schedule_accepts_exactly_its_slots {N} (plan : ContentionPlan) (ts : list (CatalogRoundTranscript N)) :
  (len (expected_slots plan) <= u32_max)%Z ->
  (validate_schedule plan ts = Ok tt <-> Forall2 slot_matches (expected_slots plan) ts).
Proof. intros Hlen. split; [apply validate_schedule_slots|by apply validate_schedule_accepts]. Qed.

(** A catalog passes exactly when it ran as many conditioning and
    measured rounds as the policy asks for and every one of them passed; its
    measurements then summarise its measured rounds, and a catalog that does not
    pass publishes none. *)
Theorem catalog_passes_iff_rounds_pass {N} (plan : ContentionPlan) (ts : list (CatalogRoundTranscript N))
    (catalog : CatalogRun) (a : CatalogAggregate) :
  aggregate_catalog plan ts catalog = Ok a ->
  agg_catalog a = catalog /\
  (agg_passed a = true <->
     rounds_complete (round_policy (parameters plan)) (of_catalog (run_catalog catalog) ts)) /\
  (if agg_passed a
   then exists m, agg_measurements a = Some m /\ summarises (of_catalog (run_catalog catalog) ts) m
   else agg_measurements a = None /\
        exists reasons, agg_classification a = CatalogAggregateClassification.Fail reasons).
Proof. apply aggregate_catalog_Ok. Qed.

(** C5: under a schedule of catalogs with distinct identifiers, a
    sweep is classified as a pass exactly when every scheduled round was
    executed and passed; no missing, failed or unnegotiated round is averaged
    away. *)
Theorem sweep_passes_iff_every_round_passed {N} (plan : ContentionPlan)
    (ts : list (CatalogRoundTranscript N)) (catalogs : list CatalogRun) aggregates ranking verdict :
  schedule_rounds catalogs (round_policy (parameters plan)) = Ok (rounds plan) ->
  NoDup (run_catalog <$> catalogs) ->
  (0 <= conditioning_rounds (round_policy (parameters plan)))%Z ->
  (0 <= measured_rounds (round_policy (parameters plan)))%Z ->
  aggregate_contention plan ts = Ok (aggregates, ranking, verdict) ->
  (verdict = SweepClassification.Pass <-> forall r, r ∈ ts -> rt_passed r = true).
Proof. apply verdict_all_rounds. Qed.

(** C6: the ranking of a sweep lists first every passing catalog,
    once, with contiguous ranks from 1, ordered by descending median accepted
    throughput, then ascending median sequential latency, then identifier; the
    catalogs that did not pass follow, unranked and with their reasons. *)
Theorem ranking_orders_passing_catalogs {N} (plan : ContentionPlan) (ts : list (CatalogRoundTranscript N))
    aggregates ranking verdict :
  aggregate_contention plan ts = Ok (aggregates, ranking, verdict) ->
  exists order : list Candidate,
    order.*1.*1 ≡ₚ List.filter agg_passed aggregates /\
    (forall c, c ∈ order -> exists m, agg_measurements c.1.1 = Some m /\
       c.1.2 = m_concurrent_accepted_throughput_per_second m /\ c.2 = m_sequential_latency_p50_ms m) /\
    (forall i j c d, (i < j)%nat -> order !! i = Some c -> order !! j = Some d -> ranked_before c d) /\
    ranking_entries ranking =
      (imap entry_of_rank order ++
       (unranked <$> List.filter (fun a => negb (agg_passed a)) aggregates))%list.
Proof.
  intros (_ & (first & _ & Haggs) & Hr & _)%aggregate_contention_Ok. apply ranking_shape; [done|].
  by eapply aggregates_consistent.
Qed.
