(* ===== verification/Sweep.v ===== *)
(** * The contention sweep (crates/commit/src/sweep.rs, transcript.rs)

    A sweep plans its rounds, verifies that the running binary is the one the
    profile pins, runs every scheduled round against its catalog, aggregates
    and audits the transcript before it is handed out. Authentication and
    routing of a catalog belong to the conformance crate and are reached through
    the interface [CatalogConnector]; the serialized form of the transcript is
    derived code, the class [Serialize]. *)

From S2P Require Import Prelude Order RustStr Float64 Json ContractValue ContractScenario ContractAdapter.
From S2P Require Import ContractProfile ContractResult ContractDocument Sanitization Stats Ledger Policy Transport.
From S2P Require Import Sanitize Capture Connection Protocol Store Workflow Aggregate AggregateProofs.
Open Scope string_scope.

(** ** Data *)

Record RunnerObservation := {
  ob_operating_system : string;
  ob_architecture : string;
  ob_source_revision : string;
}.

Inductive SweepProgress :=
| Starting (repetition : Z) (kind : RoundKind) (position : Z) (catalog : ComponentId)
| Completed (repetition : Z) (kind : RoundKind) (position : Z) (catalog : ComponentId) (passed : bool).

Record TranscriptProfile := { tp_id : ProfileId; tp_resolved_at : string }.

Record RunnerTranscript := {
  rn_component : ComponentId;
  rn_name : string;
  rn_version : string;
  rn_source_revision : string;
  rn_operating_system : string;
  rn_architecture : string;
  rn_profile_runtime_matches : bool;
  rn_profile_source_matches : bool;
}.

Definition runner_passed (self : RunnerTranscript) : bool :=
  rn_profile_runtime_matches self && rn_profile_source_matches self.

Record ContentionSanitization := {
  cs_policy : string;
  cs_redactions : list string;
  cs_raw_secrets_persisted : bool;
  cs_raw_response_body_persisted : bool;
  cs_raw_request_identities_persisted : bool;
  cs_write_mode : string;
}.

Record ContentionTranscript {N : Type} := {
  ct_format : string;
  ct_scenario : TranscriptScenario;
  ct_contract_digests : ContractDigests;
  ct_profile : TranscriptProfile;
  ct_runner : RunnerTranscript;
  ct_fixture_id : string;
  ct_parameters : ContentionParameters;
  ct_rounds : list (CatalogRoundTranscript N);
  ct_aggregates : list CatalogAggregate;
  ct_ranking : ContentionRanking;
  ct_classification : SweepClassification.t;
  ct_sanitization : ContentionSanitization;
}.
Arguments ContentionTranscript N : clear implicits.

Definition transcript_passed {N} (self : ContentionTranscript N) : bool :=
  runner_passed (ct_runner self)
  && match ct_classification self with
     | SweepClassification.Pass => true
     | SweepClassification.Fail _ => false
     end
  && negb (cs_raw_secrets_persisted (ct_sanitization self))
  && negb (cs_raw_response_body_persisted (ct_sanitization self))
  && negb (cs_raw_request_identities_persisted (ct_sanitization self)).

Inductive SanitizationViolation := SerializationFailed | SensitiveRuntimeValue | RawRequestIdentity.

Definition display_violation (self : SanitizationViolation) : string :=
  match self with
  | SerializationFailed => "contention transcript could not be serialized for audit"
  | SensitiveRuntimeValue => "contention transcript contains a sensitive runtime value"
  | RawRequestIdentity => "contention transcript contains a raw request identity"
  end.

(** [From<SerializedValueAuditFailure>]. *)
Definition violation_of (failure : SerializedValueAuditFailure) : SanitizationViolation :=
  match failure with
  | Serialization => SerializationFailed
  | SensitiveValue => SensitiveRuntimeValue
  | ForbiddenValue => RawRequestIdentity
  end.

Definition identity_prefix {N} (fixture_id : string) (round : CatalogRoundTranscript N) : string :=
  run_catalog (rt_catalog round) +:+ "/" +:+ fixture_id +:+ "/" +:+ display (rt_repetition round) +:+ "/".

(** [ContentionTranscript::audit_serialized_values]. *)
Definition audit_transcript {N} `{Serialize (ContentionTranscript N)} (self : ContentionTranscript N)
    (sensitive_values : list string) : result unit SanitizationViolation :=
  let identity_prefixes := identity_prefix (ct_fixture_id self) <$> ct_rounds self in
  map_err violation_of (audit_serialized_values self sensitive_values identity_prefixes).

Inductive SweepError :=
| SweepPolicy (error : PolicyError)
| InvalidRunnerObservation
| MissingRunner
| InvalidRunnerComponent
| MissingRunnerSource
| RunnerRuntimeMismatch (expected_operating_system expected_architecture observed_operating_system
    observed_architecture : string)
| RunnerSourceMismatch (expected observed : string)
| MissingAdapter (catalog : ComponentId)
| CatalogSetup (catalog : ComponentId) (detail : string)
| SweepObjectStore (error : ObjectStoreFailure)
| SweepWorkflow (error : WorkflowError)
| SweepAggregation (error : AggregationError)
| SweepSanitization (error : SanitizationViolation)
| SweepCountOverflow.

(** ** The runner *)

Definition is_git_revision (value : string) : bool :=
  (str_len value =? 40)%Z && all_bytes (fun byte => is_ascii_digit byte || between 97 102 byte) value.

Definition RunnerObservation_new (operating_system architecture source_revision : string)
  : result RunnerObservation SweepError :=
  guard blank operating_system || blank architecture || negb (is_git_revision source_revision)
    or InvalidRunnerObservation in
  Ok {| ob_operating_system := operating_system; ob_architecture := architecture;
        ob_source_revision := source_revision |}.

Definition verify_runner (profile : Profile) (observation : RunnerObservation)
  : result RunnerTranscript SweepError :=
  let platform := prof_platform profile in
  let? runner := ok_or (find (fun c => comp_id c =? RUNNER_COMPONENT_ID) (prof_components profile))
                   MissingRunner in
  guard negb (bool_decide (comp_kind runner = BenchmarkHarness)) or InvalidRunnerComponent in
  let? revision := ok_or (source_revision <$> comp_source runner) MissingRunnerSource in
  let runtime_matches :=
    (ob_operating_system observation =? plat_operating_system platform)
    && (ob_architecture observation =? plat_architecture platform) in
  let source_matches :=
    (ob_source_revision observation =? revision) && (ob_source_revision observation =? comp_version runner) in
  let transcript := {|
    rn_component := comp_id runner;
    rn_name := comp_name runner;
    rn_version := comp_version runner;
    rn_source_revision := ob_source_revision observation;
    rn_operating_system := ob_operating_system observation;
    rn_architecture := ob_architecture observation;
    rn_profile_runtime_matches := runtime_matches;
    rn_profile_source_matches := source_matches;
  |} in
  guard negb runtime_matches
    or RunnerRuntimeMismatch (plat_operating_system platform) (plat_architecture platform)
         (ob_operating_system observation) (ob_architecture observation) in
  guard negb source_matches or RunnerSourceMismatch revision (ob_source_revision observation) in
  Ok transcript.

(** ** Secrets *)

Definition credential_names (profile : Profile) (parameters : ContentionParameters) : list string :=
  ([os_access_key_env (object_store parameters); os_secret_key_env (object_store parameters)]
   ++ flat_map (fun adapter =>
        match ad_authentication adapter with
        | OAuth2ClientCredentials _ _ client_id_env client_secret_env => [client_id_env; client_secret_env]
        | Anonymous => []
        end) (prof_catalog_adapters profile))%list.

Definition sensitive_runtime_values (profile : Profile) (parameters : ContentionParameters)
    (getenv : string -> option string) : list string :=
  sort_dedup (List.filter (fun value => negb (is_empty value))
                (omap getenv (credential_names profile parameters))).

(** ** The sweep *)

(** What the conformance crate promises the sweep: authentication and routing of
    one catalog, with evidence whose redactions are listed. *)
Class CatalogConnector (N W : Type) := {
  negotiation_redactions : N -> list string;
  connect_catalog : Profile -> Scenario -> ComponentId -> Z -> Z -> (string -> option string) -> W ->
    result (N * CatalogConnectionOutcome) string * W;
}.

(** The connector of the conformance crate, runtime.rs. *)
#[export] Instance RuntimeConnector `{UrlParser, UrlOps, UrlEdit, FormCodec, JsonParser, Sha256, ClientBuilder}
    {W : Type} `{HttpClient W} : CatalogConnector CatalogNegotiationEvidence W | 10 := {
  negotiation_redactions := ne_redactions;
  connect_catalog profile scenario catalog request_timeout_ms maximum_response_bytes getenv w :=
    let '(attempt, w) := Runtime.connect_catalog profile scenario catalog request_timeout_ms
                           maximum_response_bytes getenv w in
    (result_map (fun attempt => (ca_evidence attempt, ca_outcome attempt)) attempt, w);
}.

Section Sweep.
Context {N W : Type} `{UrlParser, UrlOps, LoadTableDecoder, HttpClient W, ObjectPaths,
  ObjectStoreClient W, Clock W, Sha256}.
Context `{ContractDecoders, ParametersDecoder, CanonicalScenario, CatalogConnector N W,
  Serialize (ContentionTranscript N)}.

(** What the loop has accumulated. *)
Record SweepState := {
  sw_rounds : list (CatalogRoundTranscript N);
  sw_redactions : list string;
  sw_events : list SweepProgress;
  sw_world : W;
}.

Definition report (s : SweepState) (event : SweepProgress) : SweepState := {|
  sw_rounds := sw_rounds s; sw_redactions := sw_redactions s;
  sw_events := sw_events s ++ [event]; sw_world := sw_world s |}.

Definition with_world (s : SweepState) (w : W) : SweepState := {|
  sw_rounds := sw_rounds s; sw_redactions := sw_redactions s; sw_events := sw_events s; sw_world := w |}.

(** The [Ready] arm: binds the session to the fixture and runs the round. *)
Definition connected_round (profile : Profile) (parameters : ContentionParameters)
    (store : ObjectStoreAuditor) (workload : RoundWorkload) (round : RoundPlan) (catalog : CatalogRun)
    (fixture : ContentionFixture) (session : CatalogSession) (choice : Interleaving) (w : W)
  : option (result CatalogRoundOutcome SweepError * W) :=
  let prepared :=
    let? adapter := ok_or (find (fun a => ad_catalog a =? run_catalog catalog) (prof_catalog_adapters profile))
                      (MissingAdapter (run_catalog catalog)) in
    let? catalog_port := map_err (CatalogSetup (run_catalog catalog))
      (let? bound := RestCatalog_new session (ep_create_table_location (ad_endpoint adapter)) in
       bind bound fixture) in
    let? config := map_err SweepWorkflow
      (RoundExecutionConfig_new (run_catalog catalog) (rp_repetition round) (rp_kind round) fixture workload
         (os_bucket (object_store parameters))) in
    Ok (catalog_port, config) in
  match prepared with
  | Err e => Some (Err e, w)
  | Ok (catalog_port, config) =>
      match run_contention_round catalog_port store config choice w with
      | Some (execution, w) => Some (Ok (Executed execution), w)
      | None => None
      end
  end.

(** One iteration of the inner loop; [choices] interleaves the writers of each
    round. [None] when the interleaving of a round is not complete. *)
Definition run_slot (profile : Profile) (scenario : Scenario) (plan : ContentionPlan) (fixture_id : string)
    (maximum_response_bytes : Z) (store : ObjectStoreAuditor) (workload : RoundWorkload)
    (getenv : string -> option string) (choices : nat -> Interleaving)
    (slot : RoundPlan * (Z * CatalogRun)) (s : SweepState) : option (SweepState * result unit SweepError) :=
  let '(round, (index, catalog)) := slot in
  let parameters := parameters plan in
  match try_from u32_max (index + 1) with
  | None => Some (s, Err SweepCountOverflow)
  | Some position =>
      let s := report s (Starting (rp_repetition round) (rp_kind round) position (run_catalog catalog)) in
      match fixture plan (run_catalog catalog) fixture_id (rp_repetition round) with
      | Err e => Some (s, Err (SweepPolicy e))
      | Ok fixture =>
          let '(connection, w) := connect_catalog profile scenario (run_catalog catalog)
            (request_timeout_ms (limits parameters)) maximum_response_bytes getenv (sw_world s) in
          match connection with
          | Err e => Some (with_world s w, Err (CatalogSetup (run_catalog catalog) e))
          | Ok (evidence, outcome) =>
              let round_index := len (sw_rounds s) in
              let redactions := (sw_redactions s ++ ((fun path =>
                "rounds." +:+ display round_index +:+ ".negotiation." +:+ path)
                  <$> negotiation_redactions evidence))%list in
              let executed :=
                match outcome with
                | Connected session =>
                    connected_round profile parameters store workload round catalog fixture session
                      (choices (length (sw_rounds s))) w
                | ConnectionFailed failure => Some (Ok (NegotiationFailed failure), w)
                end in
              match executed with
              | None => None
              | Some (Err e, w) =>
                  Some ({| sw_rounds := sw_rounds s; sw_redactions := redactions;
                           sw_events := sw_events s; sw_world := w |}, Err e)
              | Some (Ok outcome, w) =>
                  let s := report {| sw_rounds := sw_rounds s; sw_redactions := redactions;
                                     sw_events := sw_events s; sw_world := w |}
                    (Completed (rp_repetition round) (rp_kind round) position (run_catalog catalog)
                       (outcome_passed outcome)) in
                  Some ({| sw_rounds := sw_rounds s ++ [{|
                             rt_repetition := rp_repetition round; rt_kind := rp_kind round;
                             rt_position := position; rt_catalog := catalog;
                             rt_negotiation := evidence; rt_outcome := outcome |}];
                           sw_redactions := sw_redactions s; sw_events := sw_events s;
                           sw_world := sw_world s |}, Ok tt)
              end
          end
      end
  end.

(** The two nested loops, over the slots of the plan. *)
Fixpoint run_slots (step : RoundPlan * (Z * CatalogRun) -> SweepState -> option (SweepState * result unit SweepError))
    (slots : list (RoundPlan * (Z * CatalogRun))) (s : SweepState) : option (SweepState * result unit SweepError) :=
  match slots with
  | [] => Some (s, Ok tt)
  | slot :: slots =>
      match step slot s with
      | Some (s, Ok _) => run_slots step slots s
      | other => other
      end
  end.

Definition CONTENTION_SANITIZATION_POLICY : string := "catalog-bench/value-safe-contention-v1".

(** The transcript built after the loop. *)
Definition conclude_sweep (profile : Profile) (scenario : Scenario) (contract_digests : ContractDigests)
    (fixture_id : string) (plan : ContentionPlan) (runner : RunnerTranscript) (sensitive_values : list string)
    (s : SweepState) : result (ContentionTranscript N) SweepError :=
  let redactions := sort_dedup (sw_redactions s) in
  let? aggregated := map_err SweepAggregation (aggregate_contention plan (sw_rounds s)) in
  let '(aggregates, ranking, classification) := aggregated in
  let transcript := {|
    ct_format := CONTENTION_TRANSCRIPT_FORMAT;
    ct_scenario := {| ts_id := scen_id scenario; ts_version := scen_version scenario |};
    ct_contract_digests := contract_digests;
    ct_profile := {| tp_id := prof_id profile; tp_resolved_at := prof_resolved_at profile |};
    ct_runner := runner;
    ct_fixture_id := fixture_id;
    ct_parameters := parameters plan;
    ct_rounds := sw_rounds s;
    ct_aggregates := aggregates;
    ct_ranking := ranking;
    ct_classification := classification;
    ct_sanitization := {|
      cs_policy := CONTENTION_SANITIZATION_POLICY;
      cs_redactions := redactions;
      cs_raw_secrets_persisted := false;
      cs_raw_response_body_persisted := false;
      cs_raw_request_identities_persisted := false;
      cs_write_mode := "create-new" |};
  |} in
  check? map_err SweepSanitization (audit_transcript transcript sensitive_values) in
  Ok transcript.

(** [run_contention_sweep] and the progress it reports; [build] is the client
    builder of the object_store crate. *)
Definition run_contention_sweep (build : ObjectStorePolicy -> string -> string -> result unit string)
    (profile : Profile) (scenario : Scenario) (contract_digests : ContractDigests) (fixture_id : string)
    (runner_observation : RunnerObservation) (getenv : string -> option string)
    (choices : nat -> Interleaving) (w : W)
  : option (result (ContentionTranscript N) SweepError * list SweepProgress * W) :=
  let prepared :=
    let? plan := map_err SweepPolicy (from_contracts profile scenario) in
    let? runner := verify_runner profile runner_observation in
    let parameters := parameters plan in
    let? maximum := ok_or (try_from usize_max (maximum_response_bytes (limits parameters))) SweepCountOverflow in
    let? store := map_err SweepObjectStore (from_policy build (object_store parameters) getenv) in
    let? workload := map_err SweepWorkflow (workload_of_policy (workload parameters)) in
    Ok (plan, runner, maximum, store, workload) in
  match prepared with
  | Err e => Some (Err e, [], w)
  | Ok (plan, runner, maximum, store, workload) =>
      let sensitive_values := sensitive_runtime_values profile (parameters plan) getenv in
      let start := {| sw_rounds := []; sw_redactions := []; sw_events := []; sw_world := w |} in
      match run_slots (run_slot profile scenario plan fixture_id maximum store workload getenv choices)
              (expected_slots plan) start with
      | None => None
      | Some (s, Err e) => Some (Err e, sw_events s, sw_world s)
      | Some (s, Ok _) =>
          Some (conclude_sweep profile scenario contract_digests fixture_id plan runner sensitive_values s,
                sw_events s, sw_world s)
      end
  end.
End Sweep.

(** ** What a published sweep guarantees (sweep.rs, transcript.rs, properties)

    Provenance of the runner, freedom of the transcript from secrets and request
    identities, the progress that was reported, and the meaning of its verdict. *)

(** ** Secrets *)

(** The values the audit looks for: the non-empty values of the credential
    variables the profile and the policy name. *)
Lemma elem_of_sensitive_values profile parameters getenv value :
  value ∈ sensitive_runtime_values profile parameters getenv <->
  value <> "" /\ exists name, name ∈ credential_names profile parameters /\ getenv name = Some value.
Proof.
  unfold sensitive_runtime_values. rewrite elem_of_sort_dedup, bfilter_In, list_elem_of_omap, negb_true_iff.
  rewrite <-(not_true_iff_false (is_empty value)), is_empty_spec. naive_solver.
Qed.

(** ** The runner *)

(** The binary that ran is the component the profile pins: same platform, same
    source revision, and a version that is that revision. *)
Record runner_pinned (profile : Profile) (observation : RunnerObservation) (t : RunnerTranscript) : Prop := {
  pin_component : exists c source, c ∈ prof_components profile /\ comp_id c = RUNNER_COMPONENT_ID /\
    comp_kind c = BenchmarkHarness /\ comp_source c = Some source /\
    source_revision source = ob_source_revision observation /\ comp_version c = ob_source_revision observation /\
    rn_component t = comp_id c /\ rn_name t = comp_name c /\ rn_version t = comp_version c;
  pin_platform : plat_operating_system (prof_platform profile) = ob_operating_system observation /\
    plat_architecture (prof_platform profile) = ob_architecture observation;
  pin_transcript : rn_source_revision t = ob_source_revision observation /\
    rn_operating_system t = ob_operating_system observation /\ rn_architecture t = ob_architecture observation;
  pin_passed : runner_passed t = true;
}.

Lemma verify_runner_pinned profile observation t :
  verify_runner profile observation = Ok t -> runner_pinned profile observation t.
Proof.
  unfold verify_runner. cbv zeta. destruct (find _ _) as [c|] eqn:Hf; [|done]. cbn [ok_or].
  apply find_some in Hf as [Hin%list_elem_of_In Hid%String.eqb_eq].
  case_bool_decide as Hk; [|done]. cbn [negb]. destruct (comp_source c) as [source|] eqn:Hs; [|done].
  cbn [fmap option_fmap option_map ok_or].
  destruct (String.eqb_spec (ob_operating_system observation) (plat_operating_system (prof_platform profile)))
    as [Hos|]; [|done].
  destruct (String.eqb_spec (ob_architecture observation) (plat_architecture (prof_platform profile)))
    as [Harch|]; [|done].
  destruct (String.eqb_spec (ob_source_revision observation) (source_revision source)) as [Hrev|]; [|done].
  destruct (String.eqb_spec (ob_source_revision observation) (comp_version c)) as [Hver|]; [|done].
  intros [= <-].
  split; cbn; [|by split|done|done]. by exists c, source.
Qed.

(** ** The plan behind a transcript *)

Lemma plan_of_contracts `{UrlParser, ContractDecoders, ParametersDecoder, CanonicalScenario}
    profile scenario plan :
  from_contracts profile scenario = Ok plan ->
  exists catalogs, schedule_rounds catalogs (round_policy (parameters plan)) = Ok (rounds plan) /\
    run_catalog <$> catalogs = ad_catalog <$> prof_catalog_adapters profile /\
    measured_rounds (round_policy (parameters plan)) = len catalogs.
Proof.
  intros (_ & _ & catalogs & [Hlen HF]%validate_profile_Ok & Hr)%from_contracts_Ok.
  exists catalogs. split; [done|]. split; [|done]. clear -HF.
  induction HF as [|a r l k Hr _ IH]; [done|]. rewrite !fmap_cons, IH. f_equal.
  by apply catalog_run_Ok in Hr as [-> _].
Qed.

Section Sweep.
Context {N W : Type} `{UrlParser, UrlOps, LoadTableDecoder, HttpClient W, ObjectPaths,
  ObjectStoreClient W, Clock W, Sha256}.
Context `{ContractDecoders, ParametersDecoder, CanonicalScenario, CatalogConnector N W,
  Serialize (ContentionTranscript N)}.

(** ** The loop *)

(** The transcript of a slot carries the slot's coordinates. *)
Definition slot_recorded (s : RoundPlan * (Z * CatalogRun)) (r : CatalogRoundTranscript N) : Prop :=
  rt_repetition r = rp_repetition s.1 /\ rt_kind r = rp_kind s.1 /\ rt_position r = (s.2.1 + 1)%Z /\
  rt_catalog r = s.2.2.

(** The two reports of a recorded round. *)
Definition round_events (r : CatalogRoundTranscript N) : list SweepProgress :=
  [Starting (rt_repetition r) (rt_kind r) (rt_position r) (run_catalog (rt_catalog r));
   Completed (rt_repetition r) (rt_kind r) (rt_position r) (run_catalog (rt_catalog r)) (rt_passed r)].

Lemma run_slot_Ok profile scenario plan fixture_id maximum store workload getenv choices slot s s' :
  run_slot profile scenario plan fixture_id maximum store workload getenv choices slot s = Some (s', Ok tt) ->
  exists r, slot_recorded slot r /\ sw_rounds s' = (sw_rounds s ++ [r])%list /\
    sw_events s' = (sw_events s ++ round_events r)%list.
Proof.
  destruct slot as [round [index catalog]]. unfold run_slot, try_from.
  destruct (_ <=? _)%Z; [|done]. destruct (fixture _ _ _ _) as [fx|e]; [|done].
  destruct (connect_catalog _ _ _ _ _ _ _) as [[[evidence outcome]|e] w]; [|done].
  match goal with |- match ?x with _ => _ end = _ -> _ => destruct x as [[[out|e] w1]|]; [|done..] end.
  intros [= <-]. exists {| rt_repetition := rp_repetition round; rt_kind := rp_kind round;
    rt_position := index + 1; rt_catalog := catalog; rt_negotiation := evidence; rt_outcome := out |}.
  split; [done|]. split; [done|].
  unfold round_events. simpl. by rewrite <-app_assoc.
Qed.

Lemma run_slots_Ok step slots (s s' : @SweepState N W) :
  (forall slot (s s' : @SweepState N W), step slot s = Some (s', Ok tt) -> exists r, slot_recorded slot r /\
     sw_rounds s' = (sw_rounds s ++ [r])%list /\ sw_events s' = (sw_events s ++ round_events r)%list) ->
  run_slots step slots s = Some (s', Ok tt) ->
  exists rs, Forall2 slot_recorded slots rs /\ sw_rounds s' = (sw_rounds s ++ rs)%list /\
    sw_events s' = (sw_events s ++ (rs ≫= round_events))%list.
Proof.
  intros Hstep. revert s. induction slots as [|slot slots IH]; intros s; cbn [run_slots].
  { intros [= <-]. exists []. rewrite !app_nil_r. by split. }
  destruct (step slot s) as [[s1 [[]|e]]|] eqn:Hs; [|done..].
  apply Hstep in Hs as (r & Hr & Hrounds & Hevents). intros (rs & Hrs & Hrs1 & Hev)%IH.
  exists (r :: rs). split; [by constructor|]. rewrite Hrs1, Hev, Hrounds, Hevents, bind_cons, <-!app_assoc. done.
Qed.

Context (build : ObjectStorePolicy -> string -> string -> result unit string).

(** Everything a published transcript was made from. *)
Lemma sweep_Ok profile scenario digests fixture_id observation getenv choices w t events w' :
  run_contention_sweep build profile scenario digests fixture_id observation getenv choices w
    = Some (Ok t, events, w') ->
  exists plan runner (s : @SweepState N W), from_contracts profile scenario = Ok plan /\
    verify_runner profile observation = Ok runner /\
    Forall2 slot_recorded (expected_slots plan) (sw_rounds s) /\
    events = sw_rounds s ≫= round_events /\
    conclude_sweep profile scenario digests fixture_id plan runner
      (sensitive_runtime_values profile (parameters plan) getenv) s = Ok t.
Proof.
  unfold run_contention_sweep. destruct (from_contracts profile scenario) as [plan|e]; [|done].
  cbn [map_err]. destruct (verify_runner profile observation) as [runner|e]; [|done].
  cbv zeta. destruct (ok_or (try_from _ _) _) as [maximum|e]; [|done].
  destruct (from_policy _ _ _) as [store|e]; [|done]. cbn [map_err].
  destruct (workload_of_policy _) as [wl|e]; [|done]. cbn [map_err].
  destruct (run_slots _ _ _) as [[s [[]|e]]|] eqn:Hrun; [|done..]. intros [= Hc <- _].
  exists plan, runner, s. split; [done|]. split; [done|].
  apply run_slots_Ok in Hrun as (rs & Hrs & Hrounds & Hev); [|intros; by eapply run_slot_Ok].
  simpl in Hrounds, Hev. subst rs. done.
Qed.

Lemma conclude_sweep_Ok profile scenario digests fixture_id plan runner sensitive (s : @SweepState N W) t :
  conclude_sweep profile scenario digests fixture_id plan runner sensitive s = Ok t ->
  ct_rounds t = sw_rounds s /\ ct_runner t = runner /\ ct_fixture_id t = fixture_id /\
  ct_parameters t = parameters plan /\
  cs_raw_secrets_persisted (ct_sanitization t) = false /\
  cs_raw_response_body_persisted (ct_sanitization t) = false /\
  cs_raw_request_identities_persisted (ct_sanitization t) = false /\
  aggregate_contention plan (sw_rounds s) = Ok (ct_aggregates t, ct_ranking t, ct_classification t) /\
  audit_transcript t sensitive = Ok tt.
Proof.
  unfold conclude_sweep. destruct (aggregate_contention _ _) as [[[aggs ranking] cls]|e]; [|done]. cbn [map_err].
  destruct (map_err _ _) as [[]|e] eqn:Ha; [|done]. intros [= <-]. cbn. split_and!; try done.
  by destruct (audit_transcript _ _) as [[]|].
Qed.

Lemma audit_transcript_clean (t : ContentionTranscript N) sensitive :
  audit_transcript t sensitive = Ok tt ->
  exists v, to_value t = Some v /\ forall leaf needle, leaf ∈ string_leaves v ->
    needle ∈ (sensitive ++ (identity_prefix (ct_fixture_id t) <$> ct_rounds t))%list -> needle <> "" ->
    ~ exists pre post, leaf = pre +:+ needle +:+ post.
Proof.
  unfold audit_transcript, audit_serialized_values. destruct (to_value t) as [v|]; [|done]. cbn [ok_or].
  destruct (inspect_value _ _ v) as [[]|] eqn:Hi; [|done]. intros _. exists v. split; [done|].
  by apply inspect_value_clean.
Qed.

(** ** Properties *)

(** No string anywhere in the serialized form of a published
    transcript contains the value of a credential the sweep read, nor the
    prefix every request identity of one of its rounds starts with. *)
Theorem published_transcript_is_sanitized (profile : Profile) (scenario : Scenario) digests fixture_id
    observation getenv choices (w w' : W) (t : ContentionTranscript N) events :
  run_contention_sweep build profile scenario digests fixture_id observation getenv choices w
    = Some (Ok t, events, w') ->
  exists v, to_value t = Some v /\ forall leaf, leaf ∈ string_leaves v ->
    (forall name secret, name ∈ credential_names profile (ct_parameters t) -> getenv name = Some secret ->
       secret <> "" -> ~ exists pre post, leaf = pre +:+ secret +:+ post) /\
    (forall r, r ∈ ct_rounds t ->
       ~ exists pre post, leaf = pre +:+ identity_prefix fixture_id r +:+ post).
Proof.
  intros (plan & runner & s & _ & _ & _ & _ & Hc)%sweep_Ok.
  apply conclude_sweep_Ok in Hc as (_ & _ & <- & -> & _ & _ & _ & _ & Ha).
  apply audit_transcript_clean in Ha as (v & Hv & Hclean). exists v. split; [done|].
  intros leaf Hleaf. split.
  - intros name secret Hname Henv Hne. apply (Hclean leaf); [done| |done]. apply elem_of_app. left.
    apply elem_of_sensitive_values. eauto.
  - intros r Hr. apply (Hclean leaf); [done| |].
    + apply elem_of_app. right. by apply list_elem_of_fmap_2.
    + unfold identity_prefix. by destruct (run_catalog (rt_catalog r)).
Qed.

(** C4: a published transcript records every slot of the plan its
    contracts determine, in order, was produced by the binary the profile
    pins, reports exactly the progress of its rounds, and counts as passed
    exactly when every one of those rounds was executed and passed. *)
Theorem published_transcript_verdict (profile : Profile) (scenario : Scenario) digests fixture_id
    observation getenv choices (w w' : W) (t : ContentionTranscript N) events :
  run_contention_sweep build profile scenario digests fixture_id observation getenv choices w
    = Some (Ok t, events, w') ->
  NoDup (ad_catalog <$> prof_catalog_adapters profile) ->
  (0 <= conditioning_rounds (round_policy (ct_parameters t)))%Z ->
  runner_pinned profile observation (ct_runner t) /\
  (exists plan, from_contracts profile scenario = Ok plan /\
     Forall2 slot_matches (expected_slots plan) (ct_rounds t)) /\
  events = ct_rounds t ≫= round_events /\
  (transcript_passed t = true <-> forall r, r ∈ ct_rounds t -> rt_passed r = true).
Proof.
  intros (plan & runner & s & Hplan & Hrunner & _ & -> & Hc)%sweep_Ok Hnd Hcond.
  apply conclude_sweep_Ok in Hc as (Hrounds & Hrun & _ & Hparams & Hf1 & Hf2 & Hf3 & Hagg & _).
  apply verify_runner_pinned in Hrunner. rewrite Hparams in Hcond. rewrite Hrounds, Hrun.
  split; [done|]. split.
  { exists plan. split; [done|]. by apply aggregate_contention_Ok in Hagg as [? _]. }
  split; [done|]. destruct (plan_of_contracts _ _ _ Hplan) as (catalogs & Hsched & Hids & Hm).
  rewrite <-Hids in Hnd.
  rewrite <-(verdict_all_rounds plan _ catalogs _ _ _ Hsched Hnd Hcond ltac:(rewrite Hm; apply len_nonneg) Hagg).
  unfold transcript_passed. rewrite Hrun, (pin_passed _ _ _ Hrunner), Hf1, Hf2, Hf3.
  destruct (ct_classification t); simpl; by split.
Qed.
End Sweep.

(** The runner check succeeds only for the benchmark-harness component
    named by the harness, pinned to a source revision that is also its version,
    on the profile's operating system and architecture. *)
Theorem runner_check_is_strict (profile : Profile) (observation : RunnerObservation) (t : RunnerTranscript) :
  verify_runner profile observation = Ok t -> runner_pinned profile observation t.
Proof. apply verify_runner_pinned. Qed.
