(* ===== verification/Samples.v ===== *)
(** * Sample documents (test data, no source)

    A small scenario, profile, result record and manifest that pass validation,
    decoders that produce them, and a network and an object store that answer
    from constants: the concrete inputs the properties are applied at. *)

From S2P Require Import Prelude Order RustStr Float64 Json ContractValue ContractScenario ContractAdapter.
From S2P Require Import ContractProfile ContractResult ContractDocument Sanitization Stats Ledger Policy Transport.
From S2P Require Import Capture Connection Protocol Store Workflow WorkflowPhases SampleWorld Aggregate Sweep.
From Stdlib Require Import Ascii.
Open Scope string_scope.

(** ** The scenario *)

Definition sample_step (id : string) (after : list string) : ScenarioStep := {|
  step_id := id; step_actor := ActorRole.Harness; step_operation := "op"; step_description := "does it";
  step_depends_on := after; step_parameters := ∅; step_timeout_ms := None;
|}.

Definition sample_scenario : Scenario := {|
  scen_contract_version := V1; scen_kind := ScenarioKind; scen_id := CONTENTION_SCENARIO_ID;
  scen_version := CONTENTION_SCENARIO_VERSION; scen_title := "Contention"; scen_description := "Commits";
  scen_family := Concurrency; scen_classification := StrictV1; scen_tags := [];
  scen_capabilities := [{| req_capability := "commit"; req_level := Required;
                           req_description := "commits"; req_specification := None |}];
  scen_parameters := ∅;
  scen_steps := [sample_step "setup" []; sample_step "commit" ["setup"]];
  scen_assertions := [{| spec_id := "clean"; spec_step := "commit"; spec_required := true;
                         spec_description := "no error"; spec_check := NoRequestErrors |}];
  scen_extensions := ∅;
|}.

(** ** The profile *)

Definition sample_digest : Digest := {|
  digest_algorithm := ContractValue.Sha256;
  digest_value := "0123456789abcdef0123456789abcdef0123456789abcdef0123456789abcdef";
|}.

Definition sample_revision : string := "0123456789abcdef0123456789abcdef01234567".

Definition sample_component (id : string) (kind : ComponentKind) (source : option SourceRevision)
    (version : string) : Component := {|
  comp_id := id; comp_kind := kind; comp_name := id; comp_version := version; comp_source := source;
  comp_build := None;
  comp_artifact := ContainerImage "image" PlatformManifest sample_digest None [];
  comp_extensions := ∅;
|}.

Definition sample_service (id role endpoint : string) (settings : gmap string Value) : ServiceBinding := {|
  svc_component := id; svc_role := role; svc_endpoint := Some endpoint; svc_private_state := None;
  svc_settings := settings; svc_extensions := ∅;
|}.

Definition sample_adapter (id base_url : string) (auth : CatalogAuthentication)
    (coverage : AdapterCapabilityCoverage) : CatalogAdapter := {|
  ad_catalog := id; ad_protocol := IcebergRestV1;
  ad_endpoint := {| ep_base_url := base_url; ep_config := {| cfg_path := "/v1/config"; cfg_query := ∅ |};
                    ep_route_prefix := Unprefixed; ep_create_table_location := None |};
  ad_authentication := auth; ad_request_handling := ProtocolNative; ad_capabilities := coverage;
  ad_extensions := ∅;
|}.

Definition sample_profile : Profile := {|
  prof_contract_version := V1; prof_kind := ProfileKind; prof_id := "profile"; prof_title := "Profile";
  prof_description := "Two catalogs"; prof_resolved_at := "2025-01-01"; prof_purpose := Performance;
  prof_readiness := Runnable;
  prof_platform := {|
    plat_operating_system := "Linux"; plat_architecture := "x86_64"; plat_mode := DockerCompose;
    plat_container_runtime := None; plat_network := "bridge"; plat_shared_object_store := "minio";
    plat_warehouse_uri := "s3://b"; plat_extensions := ∅ |};
  prof_components := [
    sample_component "alpha" Catalog None "1"; sample_component "beta" Catalog None "2";
    sample_component "minio" ObjectStore None "3";
    sample_component RUNNER_COMPONENT_ID BenchmarkHarness
      (Some {| source_repository := "repo"; source_revision := sample_revision; source_tag := None;
               source_extensions := ∅ |}) sample_revision];
  prof_services := [
    sample_service "alpha" "iceberg-rest-catalog" "http://alpha" ∅;
    sample_service "beta" "iceberg-rest-catalog" "http://beta" ∅;
    sample_service "minio" "object-store" "http://minio"
      (<["bucket" := Str "b"]> (<["region" := Str "r"]> {["path_style_access" := Bool true]}))];
  prof_catalog_capabilities := [{| cap_id := "commit"; cap_description := "commits"; cap_specification := None |}];
  prof_catalog_adapters := [
    sample_adapter "alpha" "http://alpha" Anonymous ExerciseAll;
    sample_adapter "beta" "http://beta" (OAuth2ClientCredentials "/v1/oauth/tokens" "all" "CID" "CSEC")
      (Explicit ["commit"] [])];
  prof_extensions := ∅;
|}.

(** ** The policy *)

Definition sample_parameters : ContentionParameters := {|
  fixture_prefix := "cb"; transcript_format := CONTENTION_TRANSCRIPT_FORMAT;
  round_policy := {| conditioning_rounds := 1; measured_rounds := 2; catalog_order := RotateLeft;
                     aggregate_policy := MedianWithMinMax; require_every_round_to_pass := true |};
  metadata_retention := {| delete_after_commit := false; previous_versions_max := 100000 |};
  workload := {| warmup_commits := 2; sequential_commits := 3; concurrent_writers := 2;
                 concurrent_duration_ms := 12; commit_property := "p"; requirement := AssertTableUuid;
                 idempotency_key := Omitted |};
  object_store := {| os_component := "minio"; os_endpoint := "http://minio"; os_bucket := "b"; os_region := "r";
                     os_allow_http := true; os_path_style_access := true; os_access_key_env := "AK";
                     os_secret_key_env := "SK" |};
  limits := {| request_timeout_ms := 1000; maximum_response_bytes := 1048576; maximum_fixture_id_bytes := 16 |};
|}.

(** ** A result record and a manifest *)

Definition sample_artifact : ArtifactReference := {|
  artifact_location := "evidence.json"; artifact_media_type := "application/json";
  artifact_digest := sample_digest; artifact_bytes := None; artifact_description := None; artifact_extensions := ∅;
|}.

Definition sample_record : ResultRecord := {|
  rec_contract_version := V1; rec_kind := ResultKind; rec_id := "result";
  rec_scenario := {| sref_id := "scenario"; sref_version := 1; sref_digest := sample_digest |};
  rec_profile := {| pref_id := "profile"; pref_digest := sample_digest |};
  rec_catalog := {| exec_profile_component := "alpha"; exec_name := "Alpha"; exec_version := "1" |};
  rec_client := None; rec_adapters := [];
  rec_run := ContractResult.Aggregate "run" "2025" [1; 2]%Z [3]%Z "median";
  rec_outcome := ResultPass (Some "ok");
  rec_environment := {|
    env_operating_system := "Linux"; env_architecture := "x86_64"; env_cpu_model := Exact "cpu";
    env_logical_cpus := Exact 8%Z; env_memory_bytes := Unknown "not recorded"; env_cpu_limit := None;
    env_memory_limit_bytes := None; env_network := "bridge"; env_container_runtime := Exact "docker";
    env_runtime_flags := ∅; env_extensions := ∅ |};
  rec_assertions := [{| eval_assertion := "clean"; eval_required := true; eval_outcome := AssertionPass;
                        eval_evidence := ["log"] |}];
  rec_measurements := [];
  rec_evidence := [{| ev_id := "log"; ev_kind := EvidenceKind.Log; ev_artifact := sample_artifact;
                      ev_sanitized := true; ev_redactions := []; ev_extensions := ∅ |}];
  rec_artifacts := []; rec_extensions := ∅;
|}.

Definition sample_manifest : ResultBundleManifest := {|
  man_contract_version := V1; man_kind := ManifestKind; man_id := "bundle"; man_title := "Bundle";
  man_created_at := "2025-01-01"; man_provenance := Fixture "test data"; man_profile := sample_artifact;
  man_scenarios := [sample_artifact]; man_results := [sample_artifact]; man_source_evidence := [];
  man_redaction := {| red_reviewed := true; red_policy := "v1"; red_removed_fields := [] |};
  man_extensions := ∅;
|}.

(** ** Decoders: the text of a document is the name of its kind *)

#[export] Instance sample_decoders : ContractDecoders := {
  from_slice text := Ok (json_object [("kind", Str text)]);
  from_value_scenario _ := Ok sample_scenario;
  from_value_result _ := Ok sample_record;
  from_value_profile _ := Ok sample_profile;
  from_value_manifest _ := Ok sample_manifest;
}.
#[export] Instance sample_parameters_decoder : ParametersDecoder := fun _ => Ok sample_parameters.
#[export] Instance sample_canonical : CanonicalScenario := "scenario".

Example sample_documents_valid :
  validate sample_scenario = Ok tt /\ validate sample_profile = Ok tt /\ validate sample_record = Ok tt /\
  validate sample_manifest = Ok tt.
Proof. split_and!; vm_compute; reflexivity. Qed.

Definition sample_plan : ContentionPlan := {|
  parameters := sample_parameters;
  rounds := plan_round [{| run_catalog := "alpha"; run_name := "alpha"; run_version := "1" |};
                        {| run_catalog := "beta"; run_name := "beta"; run_version := "2" |}]
              (round_policy sample_parameters) <$> seqZ 0 3;
|}.

Example sample_plan_made : from_contracts sample_profile sample_scenario = Ok sample_plan.
Proof. vm_compute. reflexivity. Qed.

(** ** A network and an object store behind the in-memory catalog *)

#[export] Instance sample_url_ops : UrlOps := {
  url_push_segments u segments := Some {|
    url_scheme := url_scheme u; url_host_str := url_host_str u; url_username := url_username u;
    url_password := url_password u;
    url_path := url_path u +:+ String.concat "" ((fun s => "/" +:+ s) <$> segments);
    url_query := url_query u; url_fragment := url_fragment u |};
  url_pop_if_empty u := Some u;
  url_append_pair u key value := {|
    url_scheme := url_scheme u; url_host_str := url_host_str u; url_username := url_username u;
    url_password := url_password u; url_path := url_path u; url_query := Some (key +:+ "=" +:+ value);
    url_fragment := url_fragment u |};
  url_to_string u := url_scheme u +:+ "://" +:+ default "" (url_host_str u) +:+ url_path u;
  url_cannot_be_a_base _ := false;
}.

Definition respond (status : Z) (body : string) : result HttpResponse SendError :=
  Ok {| resp_status := status; resp_headers := []; resp_content_length := None; resp_chunks := [Ok (bytes body)] |}.

(** A table is rendered as [<version>|<value of p>]. *)
Definition render_table (version : Z) (properties : gmap string string) : string :=
  display version +:+ "|" +:+ default "" (properties !! "p").

#[export] Instance sample_table_decoder : LoadTableDecoder := fun body =>
  let '(version, rest) := split_before "|" (String.string_of_list_ascii body) in
  Ok {| lt_metadata_location := Some ("s3://b/t/" +:+ version +:+ ".metadata.json");
        lt_metadata := {| tm_format_version := 2; tm_table_uuid := "uuid"; tm_location := "s3://b/t";
                          tm_properties := match rest with
                                           | String _ value => {["p" := value]}
                                           | EmptyString => ∅
                                           end |} |}.

(** The value the commit request sets. *)
Definition committed_value (body : option Value) : string :=
  match body with
  | Some (Object [_; ("updates", Array [Object [_; ("updates", Object [(_, Str value)])]])]) => value
  | _ => ""
  end.

#[export] Instance sample_network : HttpClient World := fun request w =>
  let path := url_path (hr_url request) in
  if ends_with "/namespaces" path then (respond 200 "{}", with_namespace w true)
  else if ends_with "/tables" path then (respond 200 (render_table 0 ∅), with_table w (Some (0%Z, ∅)))
  else if contains "/tables/" path then
    match hr_method request, world_table w with
    | DELETE, _ => (respond 204 "", with_table w None)
    | POST, Some (version, properties) =>
        (respond 200 "{}",
         with_table w (Some (version + 1, <["p" := committed_value (hr_body request)]> properties)%Z))
    | _, Some (version, properties) => (respond 200 (render_table version properties), w)
    | _, None => (respond 404 "", w)
    end
  else
    match hr_method request with
    | DELETE => (respond 204 "", with_namespace w false)
    | _ => (respond (if world_namespace w then 200 else 404) "{}", w)
    end.

#[export] Instance sample_objects : ObjectStoreClient World := {
  store_list prefix w :=
    (match world_table w with
     | Some (version, _) =>
         (fun i => Ok {| om_location := prefix +:+ "/" +:+ display i +:+ ".metadata.json"; om_size := 100 |})
           <$> seqZ 0 (version + 1)
     | None => []
     end, w);
  store_head _ w := (Err "unused", w);
  store_get _ w := (Err "unused", w);
}.

Definition sample_session : CatalogSession := {|
  session_bearer_token := Some "bearer-token"; session_sensitive_values := ["bearer-token"];
  session_routes := {| routes_base_url := "http://alpha"; routes_prefix := None;
                       routes_codec := {| codec_separator := "." |} |};
  session_maximum_response_bytes := 1048576;
|}.

#[export] Instance sample_connector : CatalogConnector (list string) World := {
  negotiation_redactions evidence := evidence;
  connect_catalog _ _ _ _ _ _ w := (Ok (["request.headers.authorization"], Connected sample_session), w);
}.

(** A serialized form with the runner and the catalogs of the rounds. *)
#[export] Instance sample_serializer : Serialize (ContentionTranscript (list string)) := fun t =>
  Some (json_object [("runner", Str (rn_source_revision (ct_runner t)));
                     ("rounds", Array ((fun r => Str (run_catalog (rt_catalog r))) <$> ct_rounds t))]).

Definition sample_environment (name : string) : option string :=
  if name =? "AK" then Some "access" else if name =? "SK" then Some "secret" else None.

Definition sample_observation : RunnerObservation := {|
  ob_operating_system := "Linux"; ob_architecture := "x86_64"; ob_source_revision := sample_revision |}.

Definition sample_sweep : option (result (ContentionTranscript (list string)) SweepError * list SweepProgress * World) :=
  run_contention_sweep (fun _ _ _ => Ok tt) sample_profile sample_scenario
    {| profile_sha256 := ""; scenario_sha256 := "" |} "run1" sample_observation sample_environment
    (fun _ => memory_choice) empty_world.

Definition published {N W} (r : option (result (ContentionTranscript N) SweepError * list SweepProgress * W))
  : option (ContentionTranscript N * list SweepProgress) :=
  match r with
  | Some (Ok t, events, _) => Some (t, events)
  | _ => None
  end.
Definition published_rounds {N} (r : option (ContentionTranscript N * list SweepProgress))
  : list (CatalogRoundTranscript N) :=
  match r with Some (t, _) => ct_rounds t | None => [] end.

Example sample_sweep_passes :
  (fun te => (transcript_passed te.1, ct_parameters te.1, length te.2)) <$> published sample_sweep
    = Some (true, sample_parameters, 12%nat).
Proof. vm_compute. reflexivity. Qed.

(** The rounds the sweep published. *)
Definition sample_rounds : list (CatalogRoundTranscript (list string)) :=
  published_rounds (published sample_sweep).
