(* ===== verification/Witnesses.v ===== *)
(** * The properties at concrete inputs

    Each lemma applies a property to a sample document, network or list of
    samples at which its hypotheses hold. *)

From S2P Require Import Prelude Order RustStr Float64 FloatText Json ContractValue ContractScenario ContractAdapter.
From S2P Require Import ContractProfile ContractResult ContractDocument Sanitization Stats Ledger Policy Transport.
From S2P Require Import Sanitize Capture Routing Connection Operation ProbePolicy ConfigProbe TableProtocol.
From S2P Require Import NamespaceProbe TableProbe CommitProbe ProbeTrace NamespaceProofs TableProofs CommitProofs.
From S2P Require Import ProbeVerdicts Protocol Store Workflow WorkflowPhases SampleWorld Aggregate AggregateProofs.
From S2P Require Import Sweep Samples.
From Stdlib Require Import Ascii.
Open Scope string_scope.

(** ** The sweep *)

Lemma sample_sweep_Ok :
  exists t events w', sample_sweep = Some (Ok t, events, w') /\ transcript_passed t = true /\
    ct_parameters t = sample_parameters /\ ct_rounds t = sample_rounds.
Proof.
  pose proof sample_sweep_passes as Hp. unfold sample_rounds.
  destruct sample_sweep as [[[[t|e] events] w']|]; [|done..]. cbn in Hp. injection Hp as Hp Hq _.
  by exists t, events, w'.
Qed.

Lemma published_transcript_is_sanitized_witness :
  exists (t : ContentionTranscript (list string)) v, transcript_passed t = true /\ to_value t = Some v /\
    forall leaf, leaf ∈ string_leaves v -> ~ exists pre post, leaf = pre +:+ "secret" +:+ post.
Proof.
  destruct sample_sweep_Ok as (t & events & w' & Hs & Hp & Hq & _).
  destruct (published_transcript_is_sanitized _ _ _ _ _ _ _ _ _ _ _ _ Hs) as (v & Hv & Hclean).
  exists t, v. split; [exact Hp|]. split; [exact Hv|]. intros leaf Hleaf.
  destruct (Hclean leaf Hleaf) as [Hsecret _]. apply (Hsecret "SK" "secret"); [|reflexivity|discriminate].
  rewrite Hq. right. left.
Defined.

Lemma published_transcript_verdict_witness :
  Forall (fun r => rt_passed r = true) sample_rounds.
Proof.
  apply Forall_forall.
  destruct sample_sweep_Ok as (t & events & w' & Hs & Hp & Hq & Hr).
  destruct (published_transcript_verdict _ _ _ _ _ _ _ _ _ _ _ _ Hs) as (_ & _ & _ & Hverdict).
  - by_decide.
  - rewrite Hq. by_decide.
  - rewrite <-Hr. apply Hverdict. exact Hp.
Defined.

(** ** Aggregation *)

Lemma sample_aggregated :
  exists aggregates ranking, aggregate_contention sample_plan sample_rounds
    = Ok (aggregates, ranking, SweepClassification.Pass).
Proof.
  assert (Hv : (match aggregate_contention sample_plan sample_rounds with
                | Ok (_, _, SweepClassification.Pass) => true | _ => false end) = true) by (vm_compute; reflexivity).
  destruct (aggregate_contention _ _) as [[[aggs ranking] []]|]; [|done..]. by exists aggs, ranking.
Qed.

Definition sample_catalogs : list CatalogRun :=
  [{| run_catalog := "alpha"; run_name := "alpha"; run_version := "1" |};
   {| run_catalog := "beta"; run_name := "beta"; run_version := "2" |}].

Lemma sweep_passes_iff_every_round_passed_witness :
  Forall (fun r => rt_passed r = true) sample_rounds.
Proof.
  apply Forall_forall.
  destruct sample_aggregated as (aggs & ranking & Hagg).
  apply (sweep_passes_iff_every_round_passed sample_plan sample_rounds sample_catalogs aggs ranking
           SweepClassification.Pass); [reflexivity|by_decide|by_decide|by_decide|exact Hagg|reflexivity].
Defined.

Lemma ranking_orders_passing_catalogs_witness :
  exists aggregates (order : list Candidate), order.*1.*1 ≡ₚ List.filter agg_passed aggregates.
Proof.
  destruct sample_aggregated as (aggs & ranking & Hagg).
  destruct (ranking_orders_passing_catalogs sample_plan sample_rounds aggs ranking _ Hagg) as (order & Ho & _).
  exists aggs, order. exact Ho.
Defined.

Lemma catalog_passes_iff_rounds_pass_witness :
  exists a, aggregate_catalog sample_plan sample_rounds {| run_catalog := "alpha"; run_name := "alpha"; run_version := "1" |}
      = Ok a /\ (agg_passed a = true <->
    rounds_complete (round_policy sample_parameters) (of_catalog "alpha" sample_rounds)).
Proof.
  destruct (aggregate_catalog sample_plan sample_rounds
    {| run_catalog := "alpha"; run_name := "alpha"; run_version := "1" |}) as [a|e] eqn:Ha.
  - exists a. split; [reflexivity|]. apply (catalog_passes_iff_rounds_pass _ _ _ _ Ha).
  - exfalso. assert (Hok : is_ok (aggregate_catalog sample_plan sample_rounds
      {| run_catalog := "alpha"; run_name := "alpha"; run_version := "1" |}) = true) by (vm_compute; reflexivity).
    rewrite Ha in Hok. discriminate Hok.
Defined.

Lemma schedule_accepts_exactly_its_slots_witness :
  Forall2 slot_matches (expected_slots sample_plan) sample_rounds.
Proof.
  apply (schedule_accepts_exactly_its_slots sample_plan sample_rounds); [by_decide|]. vm_compute. reflexivity.
Defined.

(** ** The plan *)

Lemma schedule_visits_every_catalog_witness :
  exists round, rounds sample_plan !! 1%nat = Some round /\ rp_kind round = Measured /\
    rp_catalogs round ≡ₚ sample_catalogs.
Proof.
  destruct (rounds sample_plan !! 1%nat) as [round|] eqn:Hr; [|discriminate Hr].
  destruct (schedule_visits_every_catalog sample_catalogs (round_policy sample_parameters) (rounds sample_plan)
    1 round eq_refl ltac:(by_decide) ltac:(by_decide) Hr) as (_ & _ & _ & Hp).
  exists round. split; [reflexivity|]. split; [|exact Hp]. by injection Hr as <-.
Defined.

Lemma measured_rounds_balanced_witness :
  exists! round, round ∈ rounds sample_plan /\ rp_kind round = Measured /\
    rp_catalogs round !! 0%nat = Some {| run_catalog := "beta"; run_name := "beta"; run_version := "2" |}.
Proof.
  apply (measured_rounds_balanced sample_catalogs (round_policy sample_parameters) (rounds sample_plan) 0 _);
    [reflexivity|by_decide|reflexivity|by_decide|by_decide|by_decide].
Defined.

Lemma plan_runs_capable_adapters_witness :
  Forall (fun round => run_catalog <$> rp_catalogs round ≡ₚ ["alpha"; "beta"]) (rounds sample_plan).
Proof.
  apply Forall_forall.
  exact (proj2 (proj2 (proj2 (proj2 (proj2 (proj2 (proj2
    (plan_runs_capable_adapters sample_profile sample_scenario sample_plan sample_plan_made)))))))).
Defined.

Lemma fixtures_isolated_witness :
  exists f f', fixture sample_plan "alpha" "run1" 1 = Ok f /\ fixture sample_plan "beta" "run1" 1 = Ok f' /\
    fx_namespace f <> fx_namespace f'.
Proof.
  destruct (fixture sample_plan "alpha" "run1" 1) as [f|e] eqn:Hf; [|discriminate Hf].
  destruct (fixture sample_plan "beta" "run1" 1) as [f'|e] eqn:Hf'; [|discriminate Hf'].
  exists f, f'. split; [reflexivity|]. split; [reflexivity|]. intros Heq.
  destruct (fixtures_isolated sample_plan "alpha" "beta" "run1" 1 1 f f' Hf Hf' eq_refl ltac:(by_decide)
    ltac:(by_decide)) as [_ Hinj].
  destruct (Hinj Heq) as (_ & _ & Hc). discriminate (Hc eq_refl eq_refl).
Defined.

(** ** Statistics *)

Definition sample_samples : list f64 := [f64_of_Z 5; f64_of_Z 1; f64_of_Z 3].

Lemma sample_distribution_Ok : exists d, nonnegative_distribution sample_samples = Ok d.
Proof.
  destruct (nonnegative_distribution sample_samples) as [d|e] eqn:Hd; [by exists d|].
  assert (Hok : is_ok (nonnegative_distribution sample_samples) = true) by (vm_compute; reflexivity).
  by rewrite Hd in Hok.
Qed.

Lemma quantile_is_nearest_rank_witness :
  exists d v, nonnegative_distribution sample_samples = Ok d /\ dist_quantiles d !! "p95" = Some v /\
    v ∈ sample_samples.
Proof.
  destruct sample_distribution_Ok as [d Hd].
  destruct (quantile_is_nearest_rank sample_samples d "p95" 95 Hd ltac:(by_decide) ltac:(by_decide))
    as (v & Hv & Hin & _).
  exists d, v. split; [exact Hd|]. split; [exact Hv|exact Hin].
Defined.

Lemma distribution_is_ordered_witness :
  exists d, nonnegative_distribution sample_samples = Ok d /\ dist_samples d = 3%Z.
Proof.
  destruct sample_distribution_Ok as [d Hd]. exists d. split; [exact Hd|].
  exact (proj1 (distribution_is_ordered sample_samples d Hd ltac:(by_decide))).
Defined.

Lemma summaries_order_independent_witness :
  median_with_range sample_samples = median_with_range [f64_of_Z 1; f64_of_Z 3; f64_of_Z 5].
Proof.
  apply (summaries_order_independent sample_samples); by_decide.
Defined.

Lemma odd_median_is_middle_observation_witness :
  exists m, median_with_range sample_samples = Ok m /\ mr_median m ∈ sample_samples.
Proof.
  destruct (median_with_range sample_samples) as [m|e] eqn:Hm.
  - exists m. split; [reflexivity|]. exact (proj1 (odd_median_is_middle_observation sample_samples m Hm eq_refl)).
  - exfalso. assert (Hok : is_ok (median_with_range sample_samples) = true) by (vm_compute; reflexivity).
    rewrite Hm in Hok. discriminate Hok.
Defined.

(** ** Contracts *)

Lemma valid_scenario_acyclic_witness : ~ tc (depends sample_scenario) "commit" "commit".
Proof. apply (valid_scenario_acyclic sample_scenario "commit"). vm_compute. reflexivity. Defined.

Lemma runnable_profile_is_pinned_witness :
  immutable_artifact (comp_artifact (sample_component "minio" ObjectStore None "3")).
Proof.
  apply (runnable_profile_is_pinned sample_profile); [vm_compute; reflexivity|reflexivity|].
  right. right. left.
Defined.

Lemma adapters_match_catalogs_witness : NoDup (ad_catalog <$> prof_catalog_adapters sample_profile).
Proof.
  apply (adapters_match_catalogs sample_profile); vm_compute; reflexivity.
Defined.

Lemma valid_pass_has_no_required_failure_witness : rec_assertions sample_record <> [].
Proof.
  apply (valid_pass_has_no_required_failure sample_record (Some "ok")); [vm_compute; reflexivity|reflexivity].
Defined.

Lemma cited_evidence_resolves_witness :
  exists! ev, ev ∈ rec_evidence sample_record /\ ev_id ev = "log" /\ ev_sanitized ev = true /\
    str_len (digest_value (artifact_digest (ev_artifact ev))) = 64%Z.
Proof.
  apply (cited_evidence_resolves sample_record "log"); [vm_compute; reflexivity|].
  left. eexists. split; [left|left].
Defined.

Lemma valid_distribution_quantiles_monotone_witness :
  f64_le (f64_of_Z 2) (f64_of_Z 3) = true.
Proof.
  apply (valid_distribution_quantiles_monotone
    {| dist_samples := 4; dist_minimum := f64_of_Z 1; dist_maximum := f64_of_Z 5; dist_mean := None;
       dist_standard_deviation := None;
       dist_quantiles := <["p50" := f64_of_Z 2]> {["p95" := f64_of_Z 3]} |} "$" "p50" "p95"
    (f64_of_Z 2) (f64_of_Z 3) (f64_of_Z 50) (f64_of_Z 95)); vm_compute; reflexivity.
Defined.

Lemma parsed_contract_is_valid_witness : validate sample_profile = Ok tt.
Proof.
  assert (Hp : parse_contract "profile" = Ok (ProfileDocument sample_profile)) by (vm_compute; reflexivity).
  exact (proj1 (parsed_contract_is_valid "profile" (ProfileDocument sample_profile) Hp)).
Defined.

(** ** Transport *)

Lemma bodies_are_bounded_witness :
  exists bytes observed, read_bounded_body {| resp_status := 200; resp_headers := []; resp_content_length := Some 2%Z;
      resp_chunks := [Ok ["a"%char]; Ok ["b"%char]] |} 4 true = Ok (Complete bytes observed).
Proof.
  apply (proj2 (bodies_are_bounded {| resp_status := 200; resp_headers := []; resp_content_length := Some 2%Z;
    resp_chunks := [Ok ["a"%char]; Ok ["b"%char]] |} 4 true ltac:(split; by_decide))
    [["a"%char]; ["b"%char]] eq_refl).
  split; [|by_decide]. intros declared Hd. injection Hd as <-. by_decide.
Defined.

(** A network whose errors carry the token. *)
Definition leaking_network : HttpClient unit := fun _ w =>
  (Err {| send_is_timeout := true; send_text := "token bearer-token rejected" |}, w).

Definition sample_url : Url := {|
  url_scheme := "http"; url_host_str := Some "h"; url_username := ""; url_password := None; url_path := "";
  url_query := None; url_fragment := None |}.

Lemma request_failures_are_redacted_witness :
  exists failure, (request_json (H := leaking_network) sample_session GET sample_url None Discard tt).1 = Err failure /\
    contains "bearer-token" (rf_detail failure) = false.
Proof.
  eexists. split; [reflexivity|].
  refine (proj1 (request_failures_are_redacted (H := leaking_network) sample_session GET sample_url None Discard tt tt
    _ "bearer-token" eq_refl _ _ _ _ _)).
  - vm_compute. discriminate.
  - left.
  - by_decide.
  - split; [discriminate|]. split; [reflexivity|]. split; reflexivity.
  - split; reflexivity.
Defined.

(** ** The REST protocol *)

Definition sample_fixture : ContentionFixture :=
  {| fx_id := "run1"; fx_namespace := "cb_alpha_run1_r01"; fx_table := "same_table_contention" |}.

Definition sample_rest : RestCatalogFixture := {|
  rf_session := sample_session; rf_namespace := "n"; rf_table := "t"; rf_namespace_url := sample_url;
  rf_namespace_collection_url := sample_url; rf_table_collection_url := sample_url; rf_table_url := sample_url;
  rf_drop_table_url := sample_url; rf_requested_location := None |}.

(** A network that always answers with one status and body. *)
Definition constant_network (status : Z) (body : string) : HttpClient unit := fun _ w => (respond status body, w).

Lemma commit_outcome_is_the_response_witness :
  received sample_rest (respond 409 "") 409.
Proof.
  destruct (commit_outcome_is_the_response (H2 := constant_network 409 "") sample_rest "uuid" "p"
    {| identity_value := "a" |} tt tt Conflict eq_refl) as (sent & Hsent & _ & Hconflict).
  injection Hsent as <-. apply Hconflict. reflexivity.
Defined.

Lemma observations_are_validated_witness :
  exists s, create_table (CatalogPort := RestCatalogPort (H2 := constant_network 200 "0|")) sample_rest tt = (Ok s, tt) /\
    blank (ts_metadata_location s) = false.
Proof.
  eexists. split; [reflexivity|].
  exact (proj1 (proj2 (proj2 (proj2 (proj1 (observations_are_validated (H2 := constant_network 200 "0|")
    sample_rest tt tt) _ eq_refl))))).
Defined.

(** ** The object store *)

Definition sample_root : TableRoot :=
  {| root_location := "s3://b/t"; root_bucket := "b"; root_path := "t" |}.

Lemma table_root_contains_witness :
  TableRoot_from_snapshot (memory_snapshot 0 ∅) "b" = Ok sample_root /\
  contains_metadata_location sample_root "s3://b/t/7.metadata.json" = true.
Proof.
  assert (Hroot : TableRoot_from_snapshot (memory_snapshot 0 ∅) "b" = Ok sample_root)
    by (vm_compute; reflexivity).
  split; [exact Hroot|].
  apply (table_root_contains (memory_snapshot 0 ∅) "b" sample_root Hroot).
  exists "t/7.metadata.json". repeat split; vm_compute; congruence.
Defined.

Definition sample_auditor : ObjectStoreAuditor :=
  {| auditor_bucket := "b"; auditor_sensitive_values := [] |}.

Lemma audit_counts_listed_objects_witness :
  exists a objects,
    (audit_table sample_auditor sample_root "s3://b/t/0.metadata.json" created_world).1 = Ok a /\
    ta_metadata_objects a = count_of is_metadata objects.
Proof.
  destruct (audit_table sample_auditor sample_root "s3://b/t/0.metadata.json" created_world)
    as [[a|e] w'] eqn:Haudit; [|vm_compute in Haudit; congruence].
  destruct (proj1 (audit_counts_listed_objects sample_auditor sample_root
    "s3://b/t/0.metadata.json" created_world w') a Haudit) as (objects & path & _ & _ & Hn & _).
  exists a, objects. split; [reflexivity|exact Hn].
Defined.

(** ** The properties of the probes at concrete inputs

    A scripted catalog: the world is the list of the answers still to come. The
    text of a body names the JSON document it stands for. *)

(** ** The scripted catalog *)

Definition Script : Type := list HttpResponse.

#[export] Instance scripted : HttpClient Script := fun _ script =>
  match script with
  | [] => (Err {| send_is_timeout := false; send_text := "connection refused" |}, [])
  | response :: script => (Ok response, script)
  end.

Definition answer (status : Z) (body : string) : HttpResponse := {|
  resp_status := status; resp_headers := [("content-type", Some "application/json")];
  resp_content_length := None; resp_chunks := [Ok (RustStr.bytes body)] |}.

Definition config_json : Value := json_object [("defaults", json_object []); ("overrides", json_object [])].
(** A malformed map: the value of [token] is a number. *)
Definition numeric_token_json : Value :=
  json_object [("defaults", json_object [("token", Num (PosInt 5))]); ("overrides", json_object [])].

#[export] Instance tagged_json : JsonParser := fun text =>
  let tag := String.string_of_list_ascii text in
  if tag =? "" then None else if tag =? "config" then Some config_json
  else if tag =? "numeric-token" then Some numeric_token_json else Some (Str tag).

#[export] Instance plain_url_edit : UrlEdit := {
  url_set_username u _ := u; url_set_password u _ := u; url_set_fragment u _ := u;
  url_query_pairs _ := []; url_replace_pairs u _ := u;
}.
#[export] Instance unit_separator : FormCodec := {
  form_serialize _ := ""; form_parse _ := [("separator", String "031" "")];
}.
#[export] Instance any_client : ClientBuilder := fun _ => true.
#[export] Instance one_uuid : UuidSource Script := fun script => ("0190-uuid", script).
#[export] Instance opaque_evidence {T} : ToVecPretty T := fun _ => Ok "evidence".

#[export] Instance sample_url_laws : UrlLaws.
Proof. split; cbn; [done|done|done]. Qed.

#[export] Instance tagged_errors : FromValue IcebergErrorResponse := fun v =>
  match v with
  | Str tag =>
      match find (fun row : string * (Z * string) => row.1 =? tag)
              [("no-namespace", (404%Z, "NoSuchNamespaceException")); ("no-table", (404%Z, "NoSuchTableException"));
               ("conflict", (409%Z, "CommitFailedException"))] with
      | Some (_, (code, type)) => Ok {| err_error := {| err_message := tag; err_type := type; err_code := code |} |}
      | None => Err "not an error"
      end
  | _ => Err "not an error"
  end.

Definition fixture_stem_commit : string := "cb_c106_alpha_f".

#[export] Instance tagged_namespace : FromValue TableProtocol.NamespaceResponse := fun v =>
  match v with
  | Str "namespace" => Ok {| nsr_namespace := [fixture_stem_commit] |}
  | _ => Err "not a namespace"
  end.

(** ** Tables of the commit probe *)

Definition long_field : TableField := {| fd_id := 1; fd_name := "value"; fd_required := false; fd_type := Str "long" |}.
Definition note_field : TableField := {| fd_id := 2; fd_name := "note"; fd_required := false; fd_type := Str "string" |}.

Definition table_at (version : string) (schema_id : Z) (fields : list TableField) (last : Z)
    (properties : gmap string string) : TableProtocol.LoadTableResult := {|
  ltr_metadata_location := Some ("s3://b/t/" +:+ version);
  ltr_metadata := {| md_format_version := 2; md_table_uuid := "uuid"; md_location := "s3://b/t";
                     md_last_column_id := Some last; md_properties := properties;
                     md_schemas := [{| sc_type := "struct"; sc_schema_id := Some schema_id; sc_fields := fields |}];
                     md_current_schema_id := Some schema_id |} |}.

Definition properties_initial : gmap string string :=
  {[ CommitProbe.OWNER_PROPERTY := "catalog-bench"; CommitProbe.STATE_PROPERTY := "initial" ]}.
Definition properties_accepted : gmap string string :=
  <[ CommitProbe.STATE_PROPERTY := "requirement-accepted" ]> properties_initial.

#[export] Instance tagged_tables : FromValue TableProtocol.LoadTableResult := fun v =>
  match v with
  | Str "t0" => Ok (table_at "0" 0 [long_field] 1 properties_initial)
  | Str "t1" => Ok (table_at "1" 0 [long_field] 1 properties_accepted)
  | Str "t2" => Ok (table_at "2" 1 [long_field; note_field] 2 properties_accepted)
  | Str "t3" => Ok (table_at "3" 1 [long_field; note_field] 2 (<[ RETRY_PROPERTY := "accepted-once" ]> properties_accepted))
  | _ => Err "not a table"
  end.

(** ** Scenarios and profiles that meet a policy *)

Definition check_of (check : Value) : AssertionCheck :=
  match value_get "name" check, value_get "configuration" check, value_get "kind" check with
  | Some (Str name), Some configuration, _ => Custom name configuration
  | _, _, Some (Str "http-status") => HttpStatus [200]%Z
  | _, _, _ => ExactReplay
  end.

Definition scenario_of (policy : ProbePolicy) : Scenario := {|
  scen_contract_version := V1; scen_kind := scen_kind sample_scenario;
  scen_id := pp_scenario policy; scen_version := pp_version policy;
  scen_title := "Scenario"; scen_description := "A scenario of a policy"; scen_family := scen_family sample_scenario;
  scen_classification := StrictV1; scen_tags := [];
  scen_capabilities := (fun row : string * RequirementLevel =>
    {| req_capability := row.1; req_level := row.2; req_description := "declared";
       req_specification := Some ICEBERG_REST_OPENAPI_SOURCE |}) <$> pp_capabilities policy;
  scen_parameters := list_to_map (pp_parameters policy);
  scen_steps := (fun step =>
    {| step_id := es_id step; step_actor := es_actor step; step_operation := es_operation step;
       step_description := "a step"; step_depends_on := es_dependencies step; step_parameters := ∅;
       step_timeout_ms := es_timeout_ms step |}) <$> pp_steps policy;
  scen_assertions := (fun assertion =>
    {| spec_id := ea_id assertion; spec_step := ea_step assertion; spec_required := ea_required assertion;
       spec_description := "an assertion"; spec_check := check_of (ea_check assertion) |}) <$> pp_assertions policy;
  scen_extensions := ∅;
|}.

Definition profile_of (policy : ProbePolicy) : Profile := {|
  prof_contract_version := prof_contract_version sample_profile; prof_kind := prof_kind sample_profile;
  prof_id := prof_id sample_profile; prof_title := prof_title sample_profile;
  prof_description := prof_description sample_profile; prof_resolved_at := prof_resolved_at sample_profile;
  prof_purpose := prof_purpose sample_profile; prof_readiness := prof_readiness sample_profile;
  prof_platform := prof_platform sample_profile; prof_components := prof_components sample_profile;
  prof_services := prof_services sample_profile;
  prof_catalog_capabilities := (fun row : string * RequirementLevel =>
    {| cap_id := row.1; cap_description := "declared"; cap_specification := None |}) <$> pp_capabilities policy;
  prof_catalog_adapters := prof_catalog_adapters sample_profile; prof_extensions := ∅;
|}.

Definition no_env (_ : string) : option string := None.
Definition sample_digests : ContractDigests := {| profile_sha256 := "p"; scenario_sha256 := "s" |}.

Example commit_policy_met :
  validate_invocation commit_policy (profile_of commit_policy) (scenario_of commit_policy) "alpha" = Ok tt.
Proof. vm_compute. reflexivity. Qed.

Example config_policy_met :
  validate_invocation config_policy (profile_of config_policy) (scenario_of config_policy) "alpha" = Ok tt.
Proof. vm_compute. reflexivity. Qed.

(** ** Sanitised documents *)

Lemma redaction_pointers_resolve_witness :
  let value := json_object [("rows", Array [Null; json_object [("token", Str "s3cr3t")]])] in
  wf_value value = true /\ "/rows/1/token" ∈ sj_redactions (sanitize_json value []) /\
  exists s, json_pointer "/rows/1/token" (sj_value (sanitize_json value [])) = Some (Str s) /\ replacement s.
Proof.
  cbn zeta.
  assert (Hin : "/rows/1/token" ∈ sj_redactions (sanitize_json
            (json_object [("rows", Array [Null; json_object [("token", Str "s3cr3t")]])]) [])) by by_decide.
  split; [by vm_compute|]. split; [exact Hin|]. apply redaction_pointers_resolve; [by vm_compute|exact Hin].
Defined.

(** ** The commit probe on a catalog that keeps the protocol *)

Definition commit_script : Script :=
  [answer 200 "config"; answer 404 "no-namespace"; answer 200 "namespace"; answer 200 "t0"; answer 200 "t0";
   answer 200 "t1"; answer 200 "t1"; answer 200 "t2"; answer 200 "t2"; answer 409 "conflict"; answer 200 "t2";
   answer 200 "t2"; answer 204 ""; answer 404 "no-table"; answer 204 ""; answer 404 "no-namespace"].

Definition commit_run : result CommitTranscript string * Script :=
  run_commit_probe (profile_of commit_policy) (scenario_of commit_policy) "alpha" "f" sample_digests no_env commit_script.

Definition passes (classification : result ProbeClassification.t string) : bool :=
  match classification with Ok ProbeClassification.Pass => true | _ => false end.

Example commit_run_passes : passes (result_map cmt_classification commit_run.1) = true.
Proof. vm_compute. reflexivity. Qed.

Lemma passing_commit_probe_witnessed_the_protocol_witness :
  exists target fixture transcript, commit_run.1 = Ok transcript /\
    commit_run_kept (target_adapter target) fixture no_env commit_script (cmt_operations transcript) commit_run.2.
Proof.
  destruct commit_run as [[transcript|e] script] eqn:Hrun.
  - destruct (passing_commit_probe_witnessed_the_protocol _ _ _ _ _ _ _ _ _ Hrun)
      as [(target & fixture & _ & _ & Hkept) _].
    + pose proof commit_run_passes as Hp. rewrite Hrun in Hp. cbn in Hp. by destruct (cmt_classification transcript).
    + exists target, fixture, transcript. split; [reflexivity|exact Hkept].
  - pose proof commit_run_passes as Hp. rewrite Hrun in Hp. discriminate Hp.
Defined.

(** A catalog that fails every commit is cleaned up all the same. *)
Definition alpha_routes : CatalogRoutes := {|
  routes_base_url := "http://alpha"; routes_prefix := None; routes_codec := {| codec_separator := "." |} |}.
Definition commit_fixture : CommitFixture := {|
  cx_id := "f"; cx_namespace := {| namespace_parts := [fixture_stem_commit] |}; cx_table := "commit_correctness" |}.
Definition empty_recorder : OperationRecorder := new_recorder None [].
Definition no_location : TableCreateLocations := {| create_root := None |}.
Definition commit_facts : CommitFacts := CommitFacts_new true Fact.Pass (Fact.NotEvaluated "not advertised").
Definition no_idempotency : CommitIdempotency := {|
  ci_advertisement := IdempotencyAdvertisement.NotAdvertised;
  ci_operations := {| exact_retry_limitation := None; content_binding_limitation := None |}; ci_key := None |}.

Lemma commit_probe_always_cleans_up_witness :
  exists drop table namespace, ends_at (W := Script) (commit_cleanup_lines drop table namespace)
    (execute_commit_workflow alpha_routes commit_fixture no_location no_idempotency commit_facts)
    empty_recorder [answer 404 "no-namespace"].
Proof.
  destruct (commit_probe_always_cleans_up (W := Script) alpha_routes commit_fixture None no_location no_idempotency
    commit_facts empty_recorder [answer 404 "no-namespace"]) as (drop & table & namespace & _ & _ & _ & Hends).
  - reflexivity.
  - by vm_compute.
  - exists drop, table, namespace. exact Hends.
Defined.

Definition replay_script : Script :=
  [answer 200 "t3"; answer 200 "t3"; answer 200 "t3"; answer 200 "t3"; answer 409 "conflict"; answer 200 "t3"].
Definition snapshot_of (result : TableProtocol.LoadTableResult) : TableProtocol.TableSnapshot :=
  let metadata := ltr_metadata result in {|
  sn_metadata_location := default "" (ltr_metadata_location result); sn_location := md_location metadata;
  sn_uuid := md_table_uuid metadata;
  sn_schema := default {| sc_type := ""; sc_schema_id := None; sc_fields := [] |} (head (md_schemas metadata));
  sn_last_column_id := md_last_column_id metadata; sn_properties := md_properties metadata |}.
Definition snapshot_two : TableProtocol.TableSnapshot :=
  snapshot_of (table_at "2" 1 [long_field; note_field] 2 properties_accepted).
Definition with_key : CommitIdempotency := {|
  ci_advertisement := IdempotencyAdvertisement.Advertised "/idempotency-key-lifetime" "PT1H";
  ci_operations := {| exact_retry_limitation := None; content_binding_limitation := None |};
  ci_key := Some {| key_value := "0190-uuid" |} |}.

Lemma passing_idempotency_facts_mean_one_application_witness :
  exists key after t s', replay_applied_once (W := Script) alpha_routes commit_fixture (empty_recorder, replay_script)
      snapshot_two after key t /\
    drift_refused (W := Script) alpha_routes commit_fixture t after key s'.
Proof.
  destruct (passing_idempotency_facts_mean_one_application (W := Script) alpha_routes commit_fixture snapshot_two
    with_key Fact.Pass (empty_recorder, replay_script) Fact.Pass Fact.Pass
    (execute_optional_idempotency alpha_routes commit_fixture snapshot_two with_key Fact.Pass
       (empty_recorder, replay_script)).2) as [Hreplay _].
  - vm_compute. reflexivity.
  - destruct Hreplay as (_ & _ & _ & key & after & t & _ & Honce & Hdrift); [reflexivity|].
    exists key, after, t. eexists. split; [exact Honce|]. apply Hdrift. reflexivity.
Defined.

(** ** The config probe and connections *)

Definition config_run : result ConfigTranscript string * Script :=
  run_config_probe (profile_of config_policy) (scenario_of config_policy) "alpha" sample_digests no_env
    [answer 200 "config"].

Example config_run_passes : passes (result_map cft_classification config_run.1) = true.
Proof. vm_compute. reflexivity. Qed.

(** The probe passes on a map it means to reject, which redaction hides from it. *)
Definition numeric_token_run : result ConfigTranscript string * Script :=
  run_config_probe (profile_of config_policy) (scenario_of config_policy) "alpha" sample_digests no_env
    [answer 200 "numeric-token"].

Example numeric_token_run_passes :
  passes (result_map cft_classification numeric_token_run.1) = true /\
  is_ok (validate_config_map_shape numeric_token_json) = false.
Proof. split; vm_compute; reflexivity. Qed.

Lemma config_map_check_is_blind_to_secret_members_witness :
  exists transcript body evaluation,
    numeric_token_run.1 = Ok transcript /\ cft_response transcript ≫= response_transcript_json = Some body /\
    body = sj_value (sanitize_json numeric_token_json []) /\
    cft_assertions transcript !! 3%nat = Some evaluation /\ pa_assertion evaluation = "config-map-shape" /\
    (pa_outcome evaluation = AssertionPass <-> config_maps_accepted numeric_token_json).
Proof.
  destruct numeric_token_run as [[transcript|e] script] eqn:Hrun; [|by vm_compute in Hrun].
  destruct (cft_response transcript ≫= response_transcript_json) as [body|] eqn:Hbody.
  2: { vm_compute in Hrun. injection Hrun as <- _. vm_compute in Hbody. discriminate Hbody. }
  destruct (config_map_check_is_blind_to_secret_members _ _ _ _ _ _ _ _ _ Hrun Hbody)
    as (target & url & authentication & w1 & bytes & private & evaluation & Htarget & _ & Hauth
        & (response & observed & Hsend & Hread) & Hjson & Hsanitized & _ & _ & Hevaluation & Hname & Houtcome).
  vm_compute in Htarget. injection Htarget as <-. vm_compute in Hauth. injection Hauth as <- <-.
  cbn in Hsend. injection Hsend as <- _. vm_compute in Hread. injection Hread as <- _.
  vm_compute in Hjson. injection Hjson as <-.
  exists transcript, body, evaluation. split; [reflexivity|]. split; [exact Hbody|]. split; [exact Hsanitized|].
  split; [exact Hevaluation|]. split; [exact Hname|exact Houtcome].
Defined.

(** And that evaluation does pass. *)
Example numeric_token_accepted : config_maps_accepted numeric_token_json.
Proof.
  exists [("defaults", json_object [("token", Num (PosInt 5))]); ("overrides", json_object [])].
  split; [reflexivity|]. intros field [->|[->|Hin]%elem_of_cons]%elem_of_cons.
  - exists [("token", Num (PosInt 5))]. split; [reflexivity|].
    intros name value [[= -> ->]|Hin]%elem_of_cons; [by left|by apply elem_of_nil in Hin].
  - exists []. split; [reflexivity|]. intros name value Hin. by apply elem_of_nil in Hin.
  - by apply elem_of_nil in Hin.
Qed.

Lemma passing_config_probe_shows_its_evidence_witness :
  exists target transcript, config_run.1 = Ok transcript /\ config_shown (target_adapter target) transcript.
Proof.
  destruct config_run as [[transcript|e] script] eqn:Hrun.
  - destruct (passing_config_probe_shows_its_evidence _ _ _ _ _ _ _ _ Hrun) as (target & _ & _ & Hshown).
    + pose proof config_run_passes as Hp. rewrite Hrun in Hp. cbn in Hp. by destruct (cft_classification transcript).
    + exists target, transcript. split; [reflexivity|exact Hshown].
  - pose proof config_run_passes as Hp. rewrite Hrun in Hp. discriminate Hp.
Defined.

Definition connection : result CatalogConnectionAttempt string * Script :=
  Runtime.connect_catalog (profile_of config_policy) (scenario_of config_policy) "alpha" 1000 MAXIMUM_RESPONSE_BYTES
    no_env [answer 200 "config"].

Lemma connected_session_is_negotiated_witness :
  exists attempt session target auth w,
    connection.1 = Ok attempt /\ ca_outcome attempt = Connected session /\
    negotiated (target_adapter target) auth w (session_routes session) connection.2.
Proof.
  destruct connection as [[attempt|e] script] eqn:Hrun; [|by vm_compute in Hrun].
  destruct (ca_outcome attempt) as [session|failure] eqn:Houtcome.
  - destruct (connected_session_is_negotiated _ _ _ _ _ _ _ _ _ _ Hrun Houtcome)
      as (target & auth & w1 & _ & _ & _ & _ & _ & _ & Hnegotiated & _).
    exists attempt, session, target, auth, w1. split; [reflexivity|]. split; [exact Houtcome|exact Hnegotiated].
  - vm_compute in Hrun. injection Hrun as <- _. discriminate Houtcome.
Defined.

(** ** The namespace and table probes *)

Definition namespace_fixture : NamespaceFixture := {|
  nf_id := "f"; nf_primary := {| namespace_parts := ["a"] |}; nf_sibling := {| namespace_parts := ["b"] |};
  nf_child := {| namespace_parts := ["a"; "child"] |}; nf_missing_parent := {| namespace_parts := ["m"] |} |}.

#[export] Instance tagged_namespaces : FromValue NamespaceProbe.NamespaceResponse := fun _ => Err "not a namespace".
#[export] Instance no_updates : FromValue UpdateNamespacePropertiesResponse := fun _ => Err "not an update".
#[export] Instance tagged_listings : FromValue ListNamespacesResponse := fun v =>
  match v with
  | Str "page-1" => Ok {| ln_namespaces := [["b"]]; ln_next_page_token := Some "next" |}
  | Str "page-2" => Ok {| ln_namespaces := [["a"]]; ln_next_page_token := None |}
  | _ => Err "not a listing"
  end.

Definition absent_fixture : Script := replicate 3 (answer 404 "no-namespace").

Lemma namespace_probe_always_cleans_up_witness :
  exists child sibling primary, ends_at (W := Script) (cleanup_lines child sibling primary)
    (execute_namespace_workflow alpha_routes namespace_fixture (NamespaceFacts_new true Fact.Pass))
    empty_recorder absent_fixture.
Proof.
  destruct (namespace_probe_always_cleans_up (W := Script) alpha_routes namespace_fixture
    (NamespaceFacts_new true Fact.Pass) empty_recorder absent_fixture) as (child & sibling & primary & _ & _ & _ & Hends).
  - by vm_compute.
  - exists child, sibling, primary. exact Hends.
Defined.

Lemma passing_traversal_is_complete_witness :
  exists observed tokens s', pages_received (W := Script) alpha_routes 1 ""
      (empty_recorder, [answer 200 "page-1"; answer 200 "page-2"]) observed tokens s' /\
    NamespaceProofs.pages_complete namespace_fixture ∅ observed 2 /\ length observed = 2%nat.
Proof.
  destruct (passing_traversal_is_complete (W := Script) alpha_routes namespace_fixture
    (empty_recorder, [answer 200 "page-1"; answer 200 "page-2"]) (PaginationTranscript.Paginated 2 2)
    (NamespaceProbe.traverse_pages alpha_routes namespace_fixture (empty_recorder, [answer 200 "page-1"; answer 200 "page-2"])).2)
    as (observed & tokens & Hpages & _ & Hcomplete & Hlength & _).
  - vm_compute. reflexivity.
  - exists observed, tokens. eexists. split; [exact Hpages|]. split; [exact Hcomplete|]. unfold len in Hlength. lia.
Defined.

Definition table_fixture : TableFixture :=
  let namespace := {| namespace_parts := ["n"] |} in
  let table (name : string) := {| ti_namespace := namespace; ti_name := name |} in {|
  tf_id := "f"; tf_namespace := namespace; tf_missing_namespace := {| namespace_parts := ["m"] |};
  tf_primary := table "primary"; tf_sibling := table "sibling"; tf_renamed := table "renamed";
  tf_registered := table "registered"; tf_missing := table "missing" |}.

#[export] Instance no_tables : FromValue ListTablesResponse := fun _ => Err "not a listing".

Lemma table_probe_always_cleans_up_witness :
  exists drops tables namespace, length drops = 4%nat /\
    ends_at (W := Script) (table_cleanup_lines drops tables namespace)
      (execute_table_workflow alpha_routes table_fixture no_location
         {| rename_limitation := None; register_limitation := None |} (TableFacts_new true Fact.Pass))
      empty_recorder [answer 404 "no-namespace"].
Proof.
  destruct (table_probe_always_cleans_up (W := Script) alpha_routes table_fixture None no_location
    {| rename_limitation := None; register_limitation := None |} (TableFacts_new true Fact.Pass)
    empty_recorder [answer 404 "no-namespace"]) as (drops & tables & namespace & Hdrops & _ & _ & Hends).
  - reflexivity.
  - by vm_compute.
  - exists drops, tables, namespace. split; [exact (eq_sym (Forall2_length _ _ _ Hdrops))|exact Hends].
Defined.
