(* ===== verification/EngineParameters.v ===== *)
(** * Engine scenario and plan data (crates/engine/src/policy.rs)

    The types of the engine interoperability policy: the scenario's parameters,
    the catalog-neutral execution plan of each stock engine and the plan that
    binds profile, scenario and fixture ([InteroperabilityPlan]). *)

From S2P Require Import Prelude RustStr ContractValue ContractScenario ContractAdapter.
Open Scope string_scope.

(** ** Constants *)

Definition ENGINE_SCENARIO_ID : string := "engine.iceberg.write-read-evolution".
Definition ENGINE_SCENARIO_VERSION : Z := 2.
Definition ENGINE_TRANSCRIPT_FORMAT : string := "catalog-bench/engine-interoperability-transcript/v2".
Definition ENGINE_RUNNER_COMPONENT_ID : string := "catalog-bench-engine".
Definition ENGINE_RUNNER_ROLE : string := "engine-runner".
Definition ENGINE_RUNNER_LOCATION : string := "/usr/local/bin/catalog-bench-engine".
Definition SPARK_PLAN_FORMAT : string := "catalog-bench/spark-engine-plan/v1".
Definition SPARK_CATALOG_NAME : string := "bench".
Definition SPARK_COMPONENT_NAME : string := "Apache Spark".
Definition SPARK_COMPONENT_VERSION : string := "4.1.3".
Definition SPARK_SCALA_VERSION : string := "2.13.17".
Definition SPARK_JAVA_VERSION : string := "21.0.11".
Definition ICEBERG_CONNECTOR_NAME : string := "Apache Iceberg Java engine runtimes".
Definition ICEBERG_CONNECTOR_VERSION : string := "1.11.0".
Definition DUCKDB_CONNECTOR_NAME : string := "DuckDB Iceberg extension stack".
Definition DUCKDB_CONNECTOR_VERSION : string := "1.5.3".
Definition SPARK_SUBMIT_LOCATION : string := "/opt/spark/bin/spark-submit".
Definition FLINK_PLAN_FORMAT : string := "catalog-bench/flink-engine-plan/v1".
Definition FLINK_CATALOG_NAME : string := "bench".
Definition FLINK_COMPONENT_NAME : string := "Apache Flink".
Definition FLINK_COMPONENT_VERSION : string := "2.1.3".
Definition FLINK_SCALA_VERSION : string := "2.12.20".
Definition FLINK_JAVA_VERSION : string := "17.0.20".
Definition FLINK_CLI_LOCATION : string := "/opt/flink/bin/flink".
Definition FLINK_RUNNER_LOCATION : string := "/opt/catalog-bench/catalog-bench-flink-runner.jar".
Definition TRINO_PLAN_FORMAT : string := "catalog-bench/trino-engine-plan/v1".
Definition TRINO_CATALOG_NAME : string := "bench".
Definition TRINO_COMPONENT_NAME : string := "Trino".
Definition TRINO_COMPONENT_VERSION : string := "483".
Definition TRINO_JAVA_VERSION : string := "25.0.3".
Definition TRINO_SERVER_LOCATION : string := "/usr/lib/trino/bin/run-trino".
Definition TRINO_LAUNCHER_LOCATION : string := "/usr/lib/trino/bin/launcher".
Definition TRINO_NATIVE_LAUNCHER_LOCATION : string := "/usr/lib/trino/bin/linux-arm64/launcher".
Definition TRINO_CLI_LOCATION : string := "/usr/bin/trino".
Definition DUCKDB_PLAN_FORMAT : string := "catalog-bench/duckdb-engine-plan/v1".
Definition DUCKDB_CATALOG_NAME : string := "bench".
Definition DUCKDB_COMPONENT_NAME : string := "DuckDB".
Definition DUCKDB_COMPONENT_VERSION : string := "1.5.3".
Definition DUCKDB_CLI_LOCATION : string := "/usr/local/bin/duckdb".
Definition S3_ACCESS_KEY_ENV : string := "CATALOG_BENCH_S3_ACCESS_KEY_ID".
Definition S3_SECRET_KEY_ENV : string := "CATALOG_BENCH_S3_SECRET_ACCESS_KEY".
Definition FIXTURE_TABLE_NAME : string := "events".

(** [values.iter().collect::<BTreeSet<_>>().len() == values.len()]. *)
Definition all_distinct {A} `{Countable A} (values : list A) : bool :=
  (size (list_to_set values : gset A) =? length values)%nat.

(** ** Scenario parameters *)

Inductive ForbiddenPolicy := Forbidden.
Inductive ConnectorPolicy := StockProfileComponent.
Inductive SyntaxRenderingPolicy := EngineSpecificButCatalogNeutral.
Inductive UnsupportedPolicy := ClassifyBeforeMutationWithoutASubstituteRequest.

Record EnginePolicy := {
  ep_catalog_specific_branches : ForbiddenPolicy;
  ep_catalog_specific_shims : ForbiddenPolicy;
  ep_connector : ConnectorPolicy;
  ep_syntax_rendering : SyntaxRenderingPolicy;
  ep_unsupported : UnsupportedPolicy;
}.

Inductive FileFormat := Parquet.
Inductive IcebergPrimitiveType := Long | IcebergString.
Inductive StructType := Struct.

#[export] Instance IcebergPrimitiveType_eq_dec : EqDecision IcebergPrimitiveType.
Proof. solve_decision. Defined.

Record IcebergField := {
  if_id : Z;
  if_name : string;
  if_required : bool;
  if_type : IcebergPrimitiveType;
}.

Record IcebergSchema := {
  is_schema_id : Z;
  is_schema_type : StructType;
  is_fields : list IcebergField;
}.

Record TablePolicy := {
  tp_file_format : FileFormat;
  tp_format_version : Z;
  tp_properties : gmap string string;
  tp_schema : IcebergSchema;
}.

Record EvolutionField := {
  ef_name : string;
  ef_required : bool;
  ef_type : IcebergPrimitiveType;
}.

Record SchemaEvolutionPolicy := {
  se_field : EvolutionField;
  se_preserve_existing_field_ids : bool;
}.

Inductive IntegerGenerator := Affine (multiplier offset : Z).
Inductive CategoryGenerator := ModuloLabel (modulus : Z) (prefix : string).
Inductive NoteGenerator := IdLabel (prefix : string).

Record RowGenerator := {
  rg_amount_cents : IntegerGenerator;
  rg_category : CategoryGenerator;
  rg_note : NoteGenerator;
}.

Record BatchPolicy := { bp_id_start : Z; bp_rows : Z }.
Record BatchPolicies := { bs_initial : BatchPolicy; bs_evolved : BatchPolicy }.

Inductive CanonicalEncoding := CompactRfc8259JsonArrayPerRowUtf8Lf.

Record CanonicalRead := {
  cread_bytes : Z;
  cread_columns : list string;
  cread_rows : Z;
  cread_sha256 : string;
}.

Record CanonicalReads := {
  creads_encoding : CanonicalEncoding;
  creads_initial : CanonicalRead;
  creads_order_by : list string;
  creads_after_evolution : CanonicalRead;
  creads_trailing_lf : bool;
}.

Inductive ObjectAuditScope := ReturnedTableRootInProfileSharedObjectStore.

Record ObjectAuditPolicy := {
  oa_minimum_metadata_objects : Z;
  oa_minimum_parquet_objects : Z;
  oa_scope : ObjectAuditScope;
}.

Record EngineScenarioParameters := {
  sp_catalog_protocol : CatalogProtocol;
  sp_engine_policy : EnginePolicy;
  sp_fixture_prefix : string;
  sp_table : TablePolicy;
  sp_schema_evolution : SchemaEvolutionPolicy;
  sp_row_generator : RowGenerator;
  sp_batches : BatchPolicies;
  sp_canonical_reads : CanonicalReads;
  sp_object_audit : ObjectAuditPolicy;
  sp_transcript_format : string;
}.

(** ** Execution plans *)

Record Fixture := {
  fixture_namespace : string;
  fixture_table : string;
  fixture_requested_location : option string;
}.

Inductive EngineCatalogAuthentication :=
| EngineAnonymous
| EngineOAuth2ClientCredentials (oauth2_server_uri scope : string).

Record RestCatalogPlan := {
  rcp_name : string;
  rcp_uri : string;
  rcp_warehouse : option string;
  rcp_prefix : option string;
  rcp_authentication : EngineCatalogAuthentication;
}.

Record S3FileIoPlan := {
  fio_implementation : string;
  fio_endpoint : string;
  fio_bucket : string;
  fio_region : string;
  fio_path_style_access : bool;
}.

Record SparkExecutionSettings := {
  ses_master : string;
  ses_shuffle_partitions : Z;
  ses_default_parallelism : Z;
}.

Record SparkExecutionPlan := {
  spark_format : string;
  spark_execution : SparkExecutionSettings;
  spark_catalog : RestCatalogPlan;
  spark_file_io : S3FileIoPlan;
  spark_fixture : Fixture;
  spark_scenario : EngineScenarioParameters;
}.

Record FlinkExecutionSettings := { fes_parallelism : Z }.

Record FlinkExecutionPlan := {
  flink_format : string;
  flink_execution : FlinkExecutionSettings;
  flink_catalog : RestCatalogPlan;
  flink_file_io : S3FileIoPlan;
  flink_fixture : Fixture;
  flink_scenario : EngineScenarioParameters;
}.

Record TrinoExecutionSettings := { tes_task_concurrency : Z }.

Record TrinoS3FileIoPlan := {
  tfio_enabled : bool;
  tfio_endpoint : string;
  tfio_bucket : string;
  tfio_region : string;
  tfio_path_style_access : bool;
}.

Record TrinoExecutionPlan := {
  trino_format : string;
  trino_execution : TrinoExecutionSettings;
  trino_catalog : RestCatalogPlan;
  trino_file_io : TrinoS3FileIoPlan;
  trino_fixture : Fixture;
  trino_scenario : EngineScenarioParameters;
}.

Record DuckDbExecutionPlan := {
  duckdb_format : string;
  duckdb_catalog : RestCatalogPlan;
  duckdb_file_io : S3FileIoPlan;
  duckdb_fixture : Fixture;
  duckdb_scenario : EngineScenarioParameters;
}.

Inductive EngineExecutionPlan :=
| Spark (plan : SparkExecutionPlan)
| Flink (plan : FlinkExecutionPlan)
| Trino (plan : TrinoExecutionPlan)
| DuckDb (plan : DuckDbExecutionPlan).

(** [EngineExecutionPlan::fixture]. *)
Definition execution_fixture (self : EngineExecutionPlan) : Fixture :=
  match self with
  | Spark plan => spark_fixture plan
  | Flink plan => flink_fixture plan
  | Trino plan => trino_fixture plan
  | DuckDb plan => duckdb_fixture plan
  end.

(** [EngineExecutionPlan::scenario]. *)
Definition execution_scenario (self : EngineExecutionPlan) : EngineScenarioParameters :=
  match self with
  | Spark plan => spark_scenario plan
  | Flink plan => flink_scenario plan
  | Trino plan => trino_scenario plan
  | DuckDb plan => duckdb_scenario plan
  end.

(** [EngineExecutionPlan::spark], [flink], [trino] and [duckdb]. *)
Definition as_spark (self : EngineExecutionPlan) : option SparkExecutionPlan :=
  match self with Spark plan => Some plan | Flink _ | Trino _ | DuckDb _ => None end.
Definition as_flink (self : EngineExecutionPlan) : option FlinkExecutionPlan :=
  match self with Flink plan => Some plan | Spark _ | Trino _ | DuckDb _ => None end.
Definition as_trino (self : EngineExecutionPlan) : option TrinoExecutionPlan :=
  match self with Trino plan => Some plan | Spark _ | Flink _ | DuckDb _ => None end.
Definition as_duckdb (self : EngineExecutionPlan) : option DuckDbExecutionPlan :=
  match self with DuckDb plan => Some plan | Spark _ | Flink _ | Trino _ => None end.

Record EngineRuntimeObservation := {
  ro_engine_version : string;
  ro_dependencies : gmap string string;
  ro_operating_system : string;
  ro_architecture : string;
}.

(** [observation.dependencies.get(name).is_some_and(|v| v == version)]. *)
Definition dependency_is (observation : EngineRuntimeObservation) (name version : string) : bool :=
  is_some_and (String.eqb version) (ro_dependencies observation !! name).

(** [EngineExecutionPlan::runtime_identity_matches]. *)
Definition runtime_identity_matches (self : EngineExecutionPlan) (observation : EngineRuntimeObservation) : bool :=
  let dependencies := size (ro_dependencies observation) in
  match self with
  | Spark _ =>
      (ro_engine_version observation =? SPARK_COMPONENT_VERSION) && (dependencies =? 2)%nat
      && dependency_is observation "java" SPARK_JAVA_VERSION
      && dependency_is observation "scala" SPARK_SCALA_VERSION
  | Flink _ =>
      (ro_engine_version observation =? FLINK_COMPONENT_VERSION) && (dependencies =? 2)%nat
      && dependency_is observation "java" FLINK_JAVA_VERSION
      && dependency_is observation "scala" FLINK_SCALA_VERSION
  | Trino _ =>
      (ro_engine_version observation =? TRINO_COMPONENT_VERSION) && (dependencies =? 1)%nat
      && dependency_is observation "java" TRINO_JAVA_VERSION
  | DuckDb _ =>
      (ro_engine_version observation =? DUCKDB_COMPONENT_VERSION) && (dependencies =? 3)%nat
      && forallb (fun name => dependency_is observation name "1.5.3") ["avro"; "httpfs"; "iceberg"]
  end.

(** ** The plan *)

Record ComponentIdentity := {
  ci_id : ComponentId;
  ci_name : string;
  ci_version : string;
  ci_source_revision : option string;
}.

#[export] Instance ComponentIdentity_eq_dec : EqDecision ComponentIdentity.
Proof. solve_decision. Defined.

(** [From<&Component> for ComponentIdentity]. *)
Definition component_identity (component : Component) : ComponentIdentity := {|
  ci_id := comp_id component; ci_name := comp_name component; ci_version := comp_version component;
  ci_source_revision := source_revision <$> comp_source component |}.

Record RuntimeArtifactExpectation := {
  ra_location : string;
  ra_media_type : string;
  ra_sha256 : string;
  ra_bytes : Z;
  ra_components : list ComponentId;
}.

Record RuntimePlatformExpectation := { rp_operating_system : string; rp_architecture : string }.

Inductive CatalogCredentialSource :=
| AnonymousCredentials
| OAuth2Credentials (client_id_env client_secret_env : string).

Record ObjectStorePlan := {
  osp_component : ComponentId;
  osp_endpoint : string;
  osp_bucket : string;
  osp_region : string;
  osp_allow_http : bool;
  osp_path_style_access : bool;
  osp_access_key_env : string;
  osp_secret_key_env : string;
}.

Record InteroperabilityPlan := {
  plan_runner : option ComponentIdentity;
  plan_catalog : ComponentIdentity;
  plan_engine : ComponentIdentity;
  plan_connector : ComponentIdentity;
  plan_credential_source : CatalogCredentialSource;
  plan_object_store : ObjectStorePlan;
  plan_runtime_platform : RuntimePlatformExpectation;
  plan_runtime_artifacts : list RuntimeArtifactExpectation;
  plan_execution : EngineExecutionPlan;
}.

(** [InteroperabilityPlan::fixture] and [scenario]. *)
Definition plan_fixture (self : InteroperabilityPlan) : Fixture := execution_fixture (plan_execution self).
Definition plan_scenario (self : InteroperabilityPlan) : EngineScenarioParameters :=
  execution_scenario (plan_execution self).
