(* ===== verification/EnginePlan.v ===== *)
(** * Engine policy (crates/engine/src/policy.rs)

    [plan_from_contracts] binds a profile, the canonical scenario, a catalog and a fixture
    identifier into an [InteroperabilityPlan]. Decoding the scenario parameters is derived
    code ([EngineParametersDecoder]) and the scenario compiled into the binary is
    [CanonicalEngineScenario]. *)

From S2P Require Import Prelude Order RustStr Json ContractValue ContractScenario ContractAdapter ContractProfile.
From S2P Require Import ContractDocument Policy Transport EngineParameters.
From Stdlib Require Import Ascii.
Open Scope string_scope.

Class EngineParametersDecoder :=
  from_value_engine_parameters : gmap string Value -> result EngineScenarioParameters string.
Class CanonicalEngineScenario := CANONICAL_ENGINE_SCENARIO : string.

Definition i32_max : Z := 2147483647.

(** ** Paths *)

Inductive PathComponent := ParentDir | Normal (name : string).

(** The pieces of a string between the separator byte. *)
Fixpoint split_byte (separator : Z) (s : string) : list string :=
  match s with
  | EmptyString => [""]
  | String c s =>
      if is_byte separator c then "" :: split_byte separator s
      else match split_byte separator s with
           | piece :: pieces => String c piece :: pieces
           | [] => [String c ""]
           end
  end.

(** [Path::components] of an absolute Unix path, after its root: repeated
    separators and [.] are dropped. *)
Definition path_components (path : string) : list PathComponent :=
  (fun piece => if piece =? ".." then ParentDir else Normal piece)
    <$> List.filter (fun piece => negb (is_empty piece || (piece =? "."))) (split_byte 47 path).

Definition is_normal (component : PathComponent) : bool :=
  match component with Normal _ => true | ParentDir => false end.

(** ** Validation *)

Definition lowercase_hex (byte : ascii) : bool := is_ascii_digit byte || between 97 102 byte.

Definition valid_sha256 (value : string) : bool :=
  (str_len value =? 64)%Z && all_bytes lowercase_hex value.

Definition valid_git_revision (value : string) : bool :=
  (str_len value =? 40)%Z && all_bytes lowercase_hex value.

Section Contracts.
Context `{UrlParser, ContractDecoders, EngineParametersDecoder, CanonicalEngineScenario}.

Definition engine_validate_canonical_scenario (scenario : Scenario) : result unit PolicyError :=
  guard negb (scen_id scenario =? ENGINE_SCENARIO_ID)
    or "engine runner requires scenario `" +:+ ENGINE_SCENARIO_ID +:+ "`, found `"
       +:+ scen_id scenario +:+ "`" in
  guard negb (scen_version scenario =? ENGINE_SCENARIO_VERSION)%Z
    or "engine runner supports scenario version " +:+ display ENGINE_SCENARIO_VERSION
       +:+ ", found " +:+ display (scen_version scenario) in
  guard negb (bool_decide (scen_family scenario = ClientInteroperability))
    or "engine scenario must use the client-interoperability family" in
  let? document := map_err (fun error => "canonical engine scenario is invalid: " +:+ display_parse_error error)
                     (parse_contract CANONICAL_ENGINE_SCENARIO) in
  match document with
  | ScenarioDocument canonical =>
      guard negb (scenario_eqb scenario canonical)
        or "engine scenario differs from the canonical checked-in contract" in
      Ok tt
  | _ => Err "canonical engine scenario did not decode as a scenario"
  end.

Definition engine_decode_parameters (scenario : Scenario) : result EngineScenarioParameters PolicyError :=
  map_err (fun error => "invalid engine scenario parameters: " +:+ error)
    (from_value_engine_parameters (scen_parameters scenario)).
End Contracts.

Definition engine_validate_parameters (parameters : EngineScenarioParameters) : result unit PolicyError :=
  guard negb (sp_transcript_format parameters =? ENGINE_TRANSCRIPT_FORMAT)
    or "unexpected engine transcript format" in
  guard is_empty (sp_fixture_prefix parameters) || negb (all_bytes snake_byte (sp_fixture_prefix parameters))
    or "fixture prefix must contain lowercase ASCII letters, digits, or underscores" in
  let table := sp_table parameters in
  let fields := is_fields (tp_schema table) in
  guard negb (tp_format_version table =? 2)%Z || negb (is_schema_id (tp_schema table) =? 0)%Z
        || match fields with [] => true | _ => false end
    or "engine table policy must define a nonempty format-v2 schema zero" in
  guard negb (all_distinct (if_id <$> fields)) || negb (all_distinct (if_name <$> fields))
        || existsb (fun field => (if_id field <=? 0)%Z) fields
    or "engine table fields require unique positive IDs and unique names" in
  let batches := sp_batches parameters in
  guard (bp_rows (bs_initial batches) =? 0)%Z || (bp_rows (bs_evolved batches) =? 0)%Z
        || negb (bool_decide (checked_add u64_max (bp_id_start (bs_initial batches)) (bp_rows (bs_initial batches))
                              = Some (bp_id_start (bs_evolved batches))))
    or "engine row batches must be positive, contiguous, and non-overlapping" in
  let reads := sp_canonical_reads parameters in
  guard negb (creads_trailing_lf reads) || negb (bool_decide (creads_order_by reads = ["id"]))
        || negb (valid_sha256 (cread_sha256 (creads_initial reads)))
        || negb (valid_sha256 (cread_sha256 (creads_after_evolution reads)))
    or "canonical reads require ID ordering, a final LF, and SHA-256 identities" in
  let audit := sp_object_audit parameters in
  guard (oa_minimum_metadata_objects audit =? 0)%Z || (oa_minimum_parquet_objects audit =? 0)%Z
    or "object-audit minimums must both be positive" in
  Ok tt.

Definition validate_profile_platform (profile : Profile) : result unit PolicyError :=
  guard match prof_readiness profile with Runnable => false | Draft _ _ => true end
    or "engine profile must be runnable" in
  let platform := prof_platform profile in
  let architecture := to_ascii_lowercase (plat_architecture platform) in
  guard negb (bool_decide (plat_mode platform = DockerCompose))
        || negb (to_ascii_lowercase (plat_operating_system platform) =? "linux")
        || negb ((architecture =? "aarch64") || (architecture =? "arm64"))
    or "engine profile must execute Linux ARM64 through Docker Compose" in
  Ok tt.

(** ** Components and services *)

Definition adapter (profile : Profile) (catalog : ComponentId) : result CatalogAdapter PolicyError :=
  ok_or (find (fun adapter => ad_catalog adapter =? catalog) (prof_catalog_adapters profile))
    ("profile has no adapter for `" +:+ catalog +:+ "`").

(** Derived [Debug]. *)
Definition component_kind_debug (kind : ComponentKind) : string :=
  match kind with
  | Catalog => "Catalog" | Client => "Client" | Connector => "Connector" | Engine => "Engine"
  | ObjectStore => "ObjectStore" | StateStore => "StateStore" | BenchmarkHarness => "BenchmarkHarness"
  | ContainerRuntime => "ContainerRuntime" | Validator => "Validator" | Converter => "Converter"
  | Other => "Other"
  end.

Definition component (profile : Profile) (id : ComponentId) (kind : ComponentKind)
  : result Component PolicyError :=
  let? component := ok_or (find (fun component => comp_id component =? id) (prof_components profile))
    ("profile has no component `" +:+ id +:+ "`") in
  guard negb (bool_decide (comp_kind component = kind))
    or "profile component `" +:+ id +:+ "` has kind " +:+ component_kind_debug (comp_kind component)
       +:+ ", expected " +:+ component_kind_debug kind in
  Ok component.

Definition role_services (profile : Profile) (role : string) : list ServiceBinding :=
  List.filter (fun service => svc_role service =? role) (prof_services profile).

Definition role_component (profile : Profile) (role : string) (kind : ComponentKind)
  : result Component PolicyError :=
  match role_services profile role with
  | [service] => component profile (svc_component service) kind
  | _ => Err ("profile must contain exactly one `" +:+ role +:+ "` service")
  end.

Definition selected_role_component (profile : Profile) (role : string) (selected : ComponentId)
    (kind : ComponentKind) : result Component PolicyError :=
  match List.filter (fun service => (svc_role service =? role) && (svc_component service =? selected))
          (prof_services profile) with
  | [service] => component profile (svc_component service) kind
  | _ => Err ("profile must select `" +:+ selected +:+ "` through exactly one `" +:+ role +:+ "` service")
  end.

Definition optional_engine_runner (profile : Profile) : result (option Component) PolicyError :=
  match role_services profile ENGINE_RUNNER_ROLE with
  | [] => Ok None
  | [service] =>
      guard negb (svc_component service =? ENGINE_RUNNER_COMPONENT_ID)
        or "`" +:+ ENGINE_RUNNER_ROLE +:+ "` must select `" +:+ ENGINE_RUNNER_COMPONENT_ID +:+ "`" in
      let? runner := component profile (svc_component service) BenchmarkHarness in
      let? revision := ok_or (source_revision <$> comp_source runner)
        "engine runner must declare its source revision" in
      guard negb (comp_version runner =? revision) || negb (valid_git_revision revision)
        or "engine runner version and source must be one lowercase 40-character Git revision" in
      Ok (Some runner)
  | _ => Err ("profile must contain at most one `" +:+ ENGINE_RUNNER_ROLE +:+ "` service")
  end.

Definition validate_supported_connector (engine connector : Component) : result unit PolicyError :=
  let '(expected_name, expected_version) :=
    if (comp_name engine =? DUCKDB_COMPONENT_NAME) && (comp_version engine =? DUCKDB_COMPONENT_VERSION)
    then (DUCKDB_CONNECTOR_NAME, DUCKDB_CONNECTOR_VERSION)
    else (ICEBERG_CONNECTOR_NAME, ICEBERG_CONNECTOR_VERSION) in
  guard negb (comp_name connector =? expected_name) || negb (comp_version connector =? expected_version)
    or "stock renderer requires " +:+ expected_name +:+ " " +:+ expected_version +:+ ", found "
       +:+ comp_name connector +:+ " " +:+ comp_version connector in
  Ok tt.

(** ** The shared object store *)

Definition setting_text (service : ServiceBinding) (key : string) : result string PolicyError :=
  match svc_settings service !! key ≫= as_str with
  | Some value =>
      guard is_empty value or "service setting `" +:+ key +:+ "` must be a nonempty string" in Ok value
  | None => Err ("service setting `" +:+ key +:+ "` must be a nonempty string")
  end.

Definition setting_bool (service : ServiceBinding) (key : string) : result bool PolicyError :=
  ok_or (svc_settings service !! key ≫= as_bool) ("service setting `" +:+ key +:+ "` must be a boolean").

(** A credential-free HTTP(S) URL. *)
Definition plain_http_url (url : Url) : bool :=
  ((url_scheme url =? "http") || (url_scheme url =? "https"))
  && negb (is_none (url_host_str url)) && is_empty (url_username url) && is_none (url_password url)
  && is_none (url_query url) && is_none (url_fragment url).

Section Plan.
Context `{UrlParser, UrlOps}.

Definition object_store_plan (profile : Profile) : result ObjectStorePlan PolicyError :=
  let platform := prof_platform profile in
  let? component := component profile (plat_shared_object_store platform) ObjectStore in
  let services := List.filter (fun service => (svc_component service =? comp_id component)
                                              && (svc_role service =? "shared-object-store"))
                    (prof_services profile) in
  match services with
  | [service] =>
      let? endpoint := ok_or (svc_endpoint service) "shared object store has no endpoint" in
      let? parsed := map_err (fun error => "invalid object-store endpoint: " +:+ error) (url_parse endpoint) in
      guard negb (plain_http_url parsed)
        or "object-store endpoint must be a credential-free HTTP(S) URL" in
      let? bucket := setting_text service "bucket" in
      let? region := setting_text service "region" in
      let? path_style_access := setting_bool service "path_style_access" in
      let? warehouse := map_err (fun error => "invalid warehouse URI: " +:+ error)
                          (url_parse (plat_warehouse_uri platform)) in
      guard negb (url_scheme warehouse =? "s3") || negb (bool_decide (url_host_str warehouse = Some bucket))
        or "profile warehouse URI must use the shared object-store bucket" in
      Ok {| osp_component := comp_id component; osp_endpoint := endpoint; osp_bucket := bucket;
            osp_region := region; osp_allow_http := url_scheme parsed =? "http";
            osp_path_style_access := path_style_access;
            osp_access_key_env := S3_ACCESS_KEY_ENV; osp_secret_key_env := S3_SECRET_KEY_ENV |}
  | _ => Err "profile must contain exactly one shared-object-store service for its platform component"
  end.

(** ** The fixture *)

Definition engine_validate_fixture_id (fixture_id : string) : result unit PolicyError :=
  guard is_empty fixture_id || (24 <? str_len fixture_id)%Z
    or "fixture ID must contain 1 to 24 characters" in
  guard negb (all_bytes snake_byte fixture_id)
    or "fixture ID must contain lowercase ASCII letters, digits, or underscores" in
  Ok tt.

Definition slug_byte (byte : ascii) : option ascii :=
  if is_ascii_lowercase byte || is_ascii_digit byte then Some byte
  else if is_byte 45 byte then Some "_"%char
  else None.

(** [bytes().map(..).collect::<Result<String, _>>()]. *)
Fixpoint catalog_slug (catalog : string) : option string :=
  match catalog with
  | EmptyString => Some ""
  | String byte rest =>
      match slug_byte byte, catalog_slug rest with
      | Some byte, Some rest => Some (String byte rest)
      | _, _ => None
      end
  end.

Definition child_table_location (root namespace table : string) (object_store : ObjectStorePlan)
  : result string PolicyError :=
  let? location := map_err (fun error => "invalid create-table location: " +:+ error) (url_parse root) in
  guard negb (url_scheme location =? "s3")
        || negb (bool_decide (url_host_str location = Some (osp_bucket object_store)))
    or "create-table location must use the shared object-store bucket" in
  let? location := ok_or (url_pop_if_empty location) "create-table location cannot contain child path segments" in
  let? location := ok_or (url_push_segments location [namespace; table])
    "create-table location cannot contain child path segments" in
  Ok (url_to_string location).

(** [fixture]; [transpose] of an absent location is an absent location. *)
Definition engine_fixture (prefix : string) (catalog : ComponentId) (fixture_id : string)
    (adapter : CatalogAdapter) (object_store : ObjectStorePlan) : result Fixture PolicyError :=
  check? engine_validate_fixture_id fixture_id in
  let? catalog_slug := ok_or (catalog_slug catalog)
    "catalog identifiers used in fixtures require lowercase ASCII letters, digits, or hyphens" in
  let namespace := prefix +:+ "_" +:+ catalog_slug +:+ "_" +:+ fixture_id in
  let? requested_location :=
    match ep_create_table_location (ad_endpoint adapter) with
    | Some root => result_map Some (child_table_location root namespace FIXTURE_TABLE_NAME object_store)
    | None => Ok None
    end in
  Ok {| fixture_namespace := namespace; fixture_table := FIXTURE_TABLE_NAME;
        fixture_requested_location := requested_location |}.

(** ** The catalog binding *)

Definition engine_endpoint_url (base_url path : string) : result string PolicyError :=
  let value := trim_end_matches 47 base_url +:+ path in
  let? url := map_err (fun error => "invalid catalog endpoint: " +:+ error) (url_parse value) in
  guard negb (plain_http_url url) or "catalog endpoint must be a credential-free HTTP(S) URL" in
  Ok (url_to_string url).

(** [authentication]. *)
Definition engine_authentication (adapter : CatalogAdapter)
  : result (EngineCatalogAuthentication * CatalogCredentialSource) PolicyError :=
  match ad_authentication adapter with
  | Anonymous => Ok (EngineAnonymous, AnonymousCredentials)
  | OAuth2ClientCredentials token_path scope client_id_env client_secret_env =>
      let? token_url := engine_endpoint_url (ep_base_url (ad_endpoint adapter)) token_path in
      Ok (EngineOAuth2ClientCredentials token_url scope,
          OAuth2Credentials client_id_env client_secret_env)
  end.

Definition config_warehouse (adapter : CatalogAdapter) : result (option string) PolicyError :=
  let query := cfg_query (ep_config (ad_endpoint adapter)) in
  guard existsb (fun entry : string * string => negb (entry.1 =? "warehouse")) (map_to_list query)
    or "engine REST binding supports only the standard `warehouse` config query" in
  Ok (query !! "warehouse").

Definition configured_prefix (adapter : CatalogAdapter) : option string :=
  match ep_route_prefix (ad_endpoint adapter) with
  | Static value => Some value
  | Unprefixed | Negotiated _ => None
  end.

(** The [file_io] closure of [execution_plan]. *)
Definition s3_file_io (object_store : ObjectStorePlan) : S3FileIoPlan := {|
  fio_implementation := "org.apache.iceberg.aws.s3.S3FileIO";
  fio_endpoint := osp_endpoint object_store; fio_bucket := osp_bucket object_store;
  fio_region := osp_region object_store; fio_path_style_access := osp_path_style_access object_store |}.

(** The [catalog] closure of [execution_plan]. *)
Definition rest_catalog_plan (adapter : CatalogAdapter) (authentication : EngineCatalogAuthentication)
    (name : string) : result RestCatalogPlan PolicyError :=
  let? warehouse := config_warehouse adapter in
  Ok {| rcp_name := name; rcp_uri := ep_base_url (ad_endpoint adapter); rcp_warehouse := warehouse;
        rcp_prefix := configured_prefix adapter; rcp_authentication := authentication |}.

Definition execution_plan (engine : Component) (adapter : CatalogAdapter)
    (authentication : EngineCatalogAuthentication) (object_store : ObjectStorePlan) (fixture : Fixture)
    (scenario : EngineScenarioParameters) : result EngineExecutionPlan PolicyError :=
  let named (name version : string) := (comp_name engine =? name) && (comp_version engine =? version) in
  let catalog := rest_catalog_plan adapter authentication in
  if named SPARK_COMPONENT_NAME SPARK_COMPONENT_VERSION then
    let? catalog := catalog SPARK_CATALOG_NAME in
    Ok (Spark {| spark_format := SPARK_PLAN_FORMAT;
                 spark_execution := {| ses_master := "local[2]"; ses_shuffle_partitions := 1;
                                       ses_default_parallelism := 1 |};
                 spark_catalog := catalog; spark_file_io := s3_file_io object_store;
                 spark_fixture := fixture; spark_scenario := scenario |})
  else if named FLINK_COMPONENT_NAME FLINK_COMPONENT_VERSION then
    let? catalog := catalog FLINK_CATALOG_NAME in
    Ok (Flink {| flink_format := FLINK_PLAN_FORMAT; flink_execution := {| fes_parallelism := 1 |};
                 flink_catalog := catalog; flink_file_io := s3_file_io object_store;
                 flink_fixture := fixture; flink_scenario := scenario |})
  else if named TRINO_COMPONENT_NAME TRINO_COMPONENT_VERSION then
    let? catalog := catalog TRINO_CATALOG_NAME in
    Ok (Trino {| trino_format := TRINO_PLAN_FORMAT; trino_execution := {| tes_task_concurrency := 1 |};
                 trino_catalog := catalog;
                 trino_file_io := {| tfio_enabled := true; tfio_endpoint := osp_endpoint object_store;
                                     tfio_bucket := osp_bucket object_store;
                                     tfio_region := osp_region object_store;
                                     tfio_path_style_access := osp_path_style_access object_store |};
                 trino_fixture := fixture; trino_scenario := scenario |})
  else if named DUCKDB_COMPONENT_NAME DUCKDB_COMPONENT_VERSION then
    let? catalog := catalog DUCKDB_CATALOG_NAME in
    Ok (DuckDb {| duckdb_format := DUCKDB_PLAN_FORMAT; duckdb_catalog := catalog;
                  duckdb_file_io := s3_file_io object_store; duckdb_fixture := fixture;
                  duckdb_scenario := scenario |})
  else Err ("no stock renderer supports " +:+ comp_name engine +:+ " " +:+ comp_version engine).
End Plan.

(** ** Runtime artifacts *)

Definition embedded_artifacts (component : Component) : result (list ArtifactReference) PolicyError :=
  match comp_artifact component with
  | ContainerImage _ _ _ _ embedded_artifacts => Ok embedded_artifacts
  | SourceBuild _ | Package _ _ _ _ => Err ("component `" +:+ comp_id component +:+ "` must use a container image")
  end.

Definition strip_prefix (prefix s : string) : option string :=
  if String.prefix prefix s then Some (String.substring (String.length prefix) (String.length s - String.length prefix) s)
  else None.

Definition expectation (artifact : ArtifactReference) (components : list ComponentId)
  : result RuntimeArtifactExpectation PolicyError :=
  let? location := ok_or (strip_prefix "image:" (artifact_location artifact))
    ("runtime artifact `" +:+ artifact_location artifact +:+ "` must use an image path") in
  guard negb (starts_with "/" location) or "runtime artifact image path must be absolute" in
  guard negb (forallb is_normal (path_components location))
    or "runtime artifact image path must be absolute and traversal-free" in
  guard negb (valid_sha256 (digest_value (artifact_digest artifact)))
    or "runtime artifacts require lowercase SHA-256 identities" in
  let? bytes := ok_or (artifact_bytes artifact) "runtime artifact byte count is required" in
  Ok {| ra_location := location; ra_media_type := artifact_media_type artifact;
        ra_sha256 := digest_value (artifact_digest artifact); ra_bytes := bytes;
        ra_components := components |}.

Definition same_artifact (left right : RuntimeArtifactExpectation) : bool :=
  (ra_media_type left =? ra_media_type right) && (ra_sha256 left =? ra_sha256 right)
  && (ra_bytes left =? ra_bytes right)%Z.

(** The indices at which a predicate holds. *)
Definition matching_indices {A} (p : A -> bool) (l : list A) : list nat :=
  List.filter (fun i => match l !! i with Some x => p x | None => false end) (seq 0 (length l)).

(** [matched.components.push(id); sort(); dedup()] at one index. *)
Definition add_owner (id : ComponentId) (expectation : RuntimeArtifactExpectation) : RuntimeArtifactExpectation := {|
  ra_location := ra_location expectation; ra_media_type := ra_media_type expectation;
  ra_sha256 := ra_sha256 expectation; ra_bytes := ra_bytes expectation;
  ra_components := sort_dedup (ra_components expectation ++ [id])%list |}.

(** One turn of the loop over the connector's artifacts. *)
Definition match_connector_artifact (connector : Component)
    (state : list RuntimeArtifactExpectation * list nat) (artifact : ArtifactReference)
  : result (list RuntimeArtifactExpectation * list nat) PolicyError :=
  let '(expectations, matched) := state in
  let? connector_expectation := expectation artifact [comp_id connector] in
  match matching_indices (fun e => same_artifact e connector_expectation) expectations with
  | [index] =>
      guard bool_decide (index ∈ matched)
        or "connector artifact `" +:+ artifact_location artifact
           +:+ "` duplicates another connector artifact identity" in
      Ok (alter (add_owner (comp_id connector)) index expectations, index :: matched)
  | _ => Err ("connector artifact `" +:+ artifact_location artifact
              +:+ "` must have exactly one byte-identical copy in the engine image")
  end.

(** One turn of the loop over the runner's artifacts. *)
Definition match_runner_artifact (runner : Component) (expectations : list RuntimeArtifactExpectation)
    (artifact : ArtifactReference) : result (list RuntimeArtifactExpectation) PolicyError :=
  let? runner_expectation := expectation artifact [comp_id runner] in
  match matching_indices (fun e => (ra_location e =? ra_location runner_expectation)
                                   && same_artifact e runner_expectation) expectations with
  | [index] => Ok (alter (add_owner (comp_id runner)) index expectations)
  | _ => Err "each engine runner artifact must have exactly one byte-identical copy at the same path in the engine image"
  end.

Definition runtime_artifacts (runner : option Component) (engine connector : Component)
  : result (list RuntimeArtifactExpectation) PolicyError :=
  let? engine_artifacts := embedded_artifacts engine in
  let? connector_artifacts := embedded_artifacts connector in
  guard match engine_artifacts, connector_artifacts with [], _ | _, [] => true | _, _ => false end
    or "engine and connector images must declare embedded runtime artifacts" in
  let? expectations := collect_results (fun artifact => expectation artifact [comp_id engine]) engine_artifacts in
  let? matched := try_fold (match_connector_artifact connector) (expectations, []) connector_artifacts in
  let? expectations :=
    match runner with
    | None => Ok matched.1
    | Some runner =>
        let? runner_artifacts := embedded_artifacts runner in
        guard match runner_artifacts with [] => true | _ => false end
          or "engine runner image must declare at least one embedded artifact" in
        try_fold (match_runner_artifact runner) matched.1 runner_artifacts
    end in
  Ok (sort_by (cmp_on ra_location String.compare) expectations).

(** The artifacts at a location; the checks below need exactly one. *)
Definition artifacts_at (artifacts : list RuntimeArtifactExpectation) (location : string)
  : list RuntimeArtifactExpectation :=
  List.filter (fun artifact => ra_location artifact =? location) artifacts.

(** A nonempty artifact of the media type, owned by exactly these components. *)
Definition owned_artifact (artifact : RuntimeArtifactExpectation) (media_type : string)
    (components : list ComponentId) : bool :=
  (ra_media_type artifact =? media_type) && negb (ra_bytes artifact =? 0)%Z
  && bool_decide (ra_components artifact = components).

Definition require_owned (artifacts : list RuntimeArtifactExpectation) (location media_type : string)
    (components : list ComponentId) (missing mismatch : string) : result unit PolicyError :=
  match artifacts_at artifacts location with
  | [artifact] => guard negb (owned_artifact artifact media_type components) or mismatch in Ok tt
  | _ => Err missing
  end.

Definition validate_runner_artifact (artifacts : list RuntimeArtifactExpectation) (runner engine : ComponentId)
  : result unit PolicyError :=
  require_owned artifacts ENGINE_RUNNER_LOCATION "application/vnd.elf"
    (sort_by String.compare [runner; engine])
    ("engine runtime must contain exactly one `" +:+ ENGINE_RUNNER_LOCATION +:+ "` artifact")
    "engine runner artifact must be one nonempty runner-and-engine-owned ELF".

Definition validate_execution_artifact (artifacts : list RuntimeArtifactExpectation) (runner : option Component)
    (engine : ComponentId) (execution : EngineExecutionPlan) : result unit PolicyError :=
  let '(location, label) :=
    match execution with
    | Spark _ => (SPARK_SUBMIT_LOCATION, "Spark submission")
    | Flink _ => (FLINK_CLI_LOCATION, "Flink CLI")
    | Trino _ => (TRINO_SERVER_LOCATION, "Trino server launcher")
    | DuckDb _ => (DUCKDB_CLI_LOCATION, "DuckDB CLI")
    end in
  let '(media_type, artifact_label) :=
    match execution with
    | DuckDb _ => ("application/vnd.elf", "executable")
    | _ => ("application/x-shellscript", "shell script")
    end in
  check? require_owned artifacts location media_type [engine]
    ("engine runtime must contain exactly one `" +:+ location +:+ "` artifact")
    (label +:+ " artifact must be a nonempty engine-owned " +:+ artifact_label) in
  match execution with
  | Flink _ =>
      let? runner := ok_or runner "Flink execution requires a source-bound engine runner component" in
      require_owned artifacts FLINK_RUNNER_LOCATION "application/java-archive"
        (sort_by String.compare [comp_id runner; engine])
        ("Flink runtime must contain exactly one `" +:+ FLINK_RUNNER_LOCATION +:+ "` artifact")
        "Flink runner must be one nonempty source-bound runner-and-engine-owned JAR"
  | Trino _ =>
      let trino location :=
        "Trino runtime must contain exactly one `" +:+ location +:+ "` artifact" in
      check? require_owned artifacts TRINO_LAUNCHER_LOCATION "application/x-shellscript" [engine]
        (trino TRINO_LAUNCHER_LOCATION) "Trino launcher must be a nonempty engine-owned shell script" in
      check? require_owned artifacts TRINO_NATIVE_LAUNCHER_LOCATION "application/vnd.elf" [engine]
        (trino TRINO_NATIVE_LAUNCHER_LOCATION) "Trino native launcher must be one nonempty engine-owned ELF" in
      require_owned artifacts TRINO_CLI_LOCATION "application/java-archive" [engine]
        (trino TRINO_CLI_LOCATION) "Trino CLI must be a nonempty engine-owned Java archive"
  | Spark _ | DuckDb _ => Ok tt
  end.

(** ** The plan *)

Section FromContracts.
Context `{UrlParser, UrlOps, ContractDecoders, EngineParametersDecoder, CanonicalEngineScenario}.

Definition from_contracts_for_engine (profile : Profile) (scenario : Scenario) (catalog engine : ComponentId)
    (fixture_id : string) : result InteroperabilityPlan PolicyError :=
  check? engine_validate_canonical_scenario scenario in
  let? parameters := engine_decode_parameters scenario in
  check? engine_validate_parameters parameters in
  check? validate_profile_platform profile in
  let? adapter := adapter profile catalog in
  guard negb (protocol_native (ad_request_handling adapter))
    or "catalog `" +:+ catalog +:+ "` uses a behavior-changing shim" in
  guard match ad_protocol adapter, sp_catalog_protocol parameters with IcebergRestV1, IcebergRestV1 => false end
    or "catalog `" +:+ catalog +:+ "` protocol does not match the scenario" in
  let? catalog_component := component profile catalog Catalog in
  let? runner_component := optional_engine_runner profile in
  let? engine_component := selected_role_component profile "stock-engine" engine Engine in
  let? connector_component := role_component profile "engine-connector" Connector in
  check? validate_supported_connector engine_component connector_component in
  let? object_store := object_store_plan profile in
  let? fixture := engine_fixture (sp_fixture_prefix parameters) catalog fixture_id adapter object_store in
  let? authentication := engine_authentication adapter in
  let '(authentication, credential_source) := authentication in
  let? execution := execution_plan engine_component adapter authentication object_store fixture parameters in
  let? runtime_artifacts := runtime_artifacts runner_component engine_component connector_component in
  check? validate_execution_artifact runtime_artifacts runner_component (comp_id engine_component) execution in
  check? match runner_component with
         | Some runner => validate_runner_artifact runtime_artifacts (comp_id runner) (comp_id engine_component)
         | None => Ok tt
         end in
  Ok {| plan_runner := component_identity <$> runner_component;
        plan_catalog := component_identity catalog_component;
        plan_engine := component_identity engine_component;
        plan_connector := component_identity connector_component;
        plan_credential_source := credential_source;
        plan_object_store := object_store;
        plan_runtime_platform := {| rp_operating_system := plat_operating_system (prof_platform profile);
                                    rp_architecture := plat_architecture (prof_platform profile) |};
        plan_runtime_artifacts := runtime_artifacts;
        plan_execution := execution |}.

Definition plan_from_contracts (profile : Profile) (scenario : Scenario) (catalog : ComponentId)
    (fixture_id : string) : result InteroperabilityPlan PolicyError :=
  let? engine := role_component profile "stock-engine" Engine in
  from_contracts_for_engine profile scenario catalog (comp_id engine) fixture_id.
End FromContracts.
