(* ===== verification/EnginePlanProofs.v ===== *)
(** * Properties of the engine policy

    What an admitted plan guarantees: its fixture is isolated, its runtime
    artifacts are pinned and shared byte for byte between the images of the
    engine, the connector and the runner. *)

From S2P Require Import Prelude Order RustStr Json ContractValue ContractScenario ContractAdapter ContractProfile.
From S2P Require Import ContractDocument Policy Transport EngineParameters EnginePlan.
From Stdlib Require Import Ascii Sorted Permutation.
Open Scope string_scope.

(** ** Fixtures *)

Lemma slug_byte_snake a b : slug_byte a = Some b -> snake_byte b = true.
Proof.
  unfold slug_byte. destruct (is_ascii_lowercase a || is_ascii_digit a) eqn:Ha.
  - intros [= <-]. unfold snake_byte. by rewrite Ha.
  - destruct (is_byte 45 a); [by intros [= <-]|done].
Qed.

Lemma slug_byte_inj a a' b : slug_byte a = Some b -> slug_byte a' = Some b -> a = a'.
Proof.
  assert (H_ : (is_ascii_lowercase "_"%char || is_ascii_digit "_"%char) = false) by done.
  assert (Hdash : forall c, is_byte 45 c = true -> c = "-"%char).
  { intros c Hc. unfold is_byte, code in Hc. apply Z.eqb_eq in Hc.
    rewrite <-(ascii_N_embedding c). replace (N_of_ascii c) with 45%N by lia. done. }
  unfold slug_byte. intros Ha Ha'.
  destruct (is_ascii_lowercase a || is_ascii_digit a) eqn:Hl;
    destruct (is_ascii_lowercase a' || is_ascii_digit a') eqn:Hl'; repeat case_match; simplify_eq; try done.
  rewrite (Hdash a), (Hdash a') by done. done.
Qed.

Lemma catalog_slug_inj c c' s : catalog_slug c = Some s -> catalog_slug c' = Some s -> c = c'.
Proof.
  revert c' s. induction c as [|a c IH]; intros [|a' c'] s Hc Hc'; simpl in *; repeat case_match; simplify_eq; try done.
  f_equal; [by eapply slug_byte_inj | by eapply IH].
Qed.

Lemma catalog_slug_snake c s : catalog_slug c = Some s -> all_bytes snake_byte s = true.
Proof.
  revert s. induction c as [|a c IH]; intros s Hc; simpl in *; repeat case_match; simplify_eq; try done.
  cbn. erewrite slug_byte_snake by done. by apply IH.
Qed.

Lemma engine_fixture_Ok `{UrlParser, UrlOps} prefix catalog id adapter store fx :
  engine_fixture prefix catalog id adapter store = Ok fx ->
  exists slug, catalog_slug catalog = Some slug /\ fixture_namespace fx = prefix +:+ "_" +:+ slug +:+ "_" +:+ id /\
    fixture_table fx = FIXTURE_TABLE_NAME /\ all_bytes snake_byte id = true /\ (1 <= str_len id <= 24)%Z.
Proof.
  unfold engine_fixture, engine_validate_fixture_id. intros Hfx.
  destruct (is_empty id) eqn:He; [done|]. destruct (24 <? str_len id)%Z eqn:Hlen; [done|]. simpl in Hfx.
  destruct (all_bytes snake_byte id) eqn:Hs; [|done]. simpl in Hfx.
  destruct (catalog_slug catalog) as [slug|] eqn:Hslug; [|done]. simpl in Hfx.
  inv_ok Hfx; simplify_eq; exists slug;
  (assert (1 <= str_len id)%Z by (destruct id; [discriminate He | unfold str_len; simpl; lia]));
  split_and!; try done; lia.
Qed.

(** ** Lists of expectations up to their owners *)

Definition identity_of (e : RuntimeArtifactExpectation) : string * string * string * Z :=
  (ra_location e, ra_media_type e, ra_sha256 e, ra_bytes e).

Definition same_identity (p : RuntimeArtifactExpectation -> bool) : Prop :=
  forall e e', identity_of e = identity_of e' -> p e = p e'.

(** The second list has the same artifacts with more owners. *)
Definition extends : list RuntimeArtifactExpectation -> list RuntimeArtifactExpectation -> Prop :=
  Forall2 (fun e e' => identity_of e = identity_of e' /\ ra_components e ⊆ ra_components e').

Lemma extends_refl l : extends l l.
Proof. unfold extends. induction l; constructor; done. Qed.

Lemma extends_trans l k m : extends l k -> extends k m -> extends l m.
Proof.
  unfold extends. intros Hlk. revert m.
  induction Hlk as [|x y l k [Hi Ho] _ IH]; intros m Hkm; inversion Hkm as [|? z ? ? [Hi' Ho']]; subst; constructor.
  - split; [congruence|set_solver].
  - by apply IH.
Qed.

Lemma add_owner_identity id e : identity_of (add_owner id e) = identity_of e.
Proof. done. Qed.

Lemma add_owner_components id e : id ∈ ra_components (add_owner id e) /\ ra_components e ⊆ ra_components (add_owner id e).
Proof. simpl. split; [|intros x Hx]; apply elem_of_sort_dedup; set_solver. Qed.

Lemma extends_alter id i l : extends l (alter (add_owner id) i l).
Proof.
  revert i. induction l as [|e l IH]; intros [|i]; simpl; try apply extends_refl.
  - constructor; [|apply extends_refl]. split; [done|]. apply add_owner_components.
  - constructor; [done|apply IH].
Qed.

Lemma matching_indices_cons {A} (p : A -> bool) x l :
  matching_indices p (x :: l) = ((if p x then [0%nat] else []) ++ (S <$> matching_indices p l))%list.
Proof.
  unfold matching_indices. simpl. rewrite <-seq_shift.
  assert (H : List.filter (fun i => match (x :: l) !! i with Some y => p y | None => false end) (map S (seq 0 (length l)))
          = S <$> List.filter (fun i => match l !! i with Some y => p y | None => false end) (seq 0 (length l))).
  { induction (seq 0 (length l)) as [|i k IH]; [done|]. simpl in *. destruct (l !! i); simpl; [|done].
    destruct (p a); simpl; by rewrite IH. }
  rewrite H. by destruct (p x).
Qed.

(** A single matching index is the index of the only matching element. *)
Lemma matching_indices_single {A} (p : A -> bool) l i :
  matching_indices p l = [i] -> exists x, l !! i = Some x /\ List.filter p l = [x].
Proof.
  assert (Hnil : forall l, matching_indices p l = [] -> List.filter p l = []).
  { intros l0; induction l0 as [|x l0 IH]; [done|]. rewrite matching_indices_cons. simpl.
    destruct (p x); simpl; [done|]. intros H. by apply fmap_nil_inv, IH in H. }
  revert i. induction l as [|x l IH]; intros i; [done|]. rewrite matching_indices_cons. simpl.
  destruct (p x) eqn:Hp; simpl.
  - intros [= <- H]. exists x. split; [done|]. apply fmap_nil_inv, Hnil in H. by rewrite H.
  - destruct (matching_indices p l) as [|j [|? ?]] eqn:Hm; try done. intros [= <-].
    destruct (IH j eq_refl) as (y & Hy & Hf). by exists y.
Qed.

(** Exactly one artifact satisfies [p], and it is owned by [id]. *)
Definition bound_once (id : ComponentId) (p : RuntimeArtifactExpectation -> bool)
    (l : list RuntimeArtifactExpectation) : Prop :=
  exists a, List.filter p l = [a] /\ id ∈ ra_components a.

Lemma bound_once_extends id p l k : same_identity p -> extends l k -> bound_once id p l -> bound_once id p k.
Proof.
  intros Hp Hlk (a & Hf & Ho).
  assert (H : extends (List.filter p l) (List.filter p k)).
  { clear a Hf Ho. induction Hlk as [|x y l k [Hi Ho] _ IH]; simpl; [constructor|].
    rewrite (Hp x y) by done. destruct (p y); [constructor|]; done. }
  rewrite Hf in H. inversion H as [|? b ? ? [_ Hsub] Hnil Heq]; subst. inversion Hnil; subst.
  exists b. split; [done|]. by apply Hsub.
Qed.

Lemma bound_once_alter id p l i x :
  same_identity p -> l !! i = Some x -> List.filter p l = [x] -> p x = true ->
  bound_once id p (alter (add_owner id) i l).
Proof.
  intros Hp. revert i. induction l as [|y l IH]; intros [|i] Hi Hf Hx; simpl in *; simplify_eq.
  - rewrite Hx in Hf. injection Hf as Hf. exists (add_owner id x).
    split; [|exact (proj1 (add_owner_components id x))]. cbn.
    replace (p (add_owner id x)) with true by (rewrite <-Hx; by apply Hp). by rewrite Hf.
  - destruct (p y) eqn:Hy.
    + injection Hf as -> Hf. exfalso. assert (Hin : In x (List.filter p l)).
      { apply filter_In. split; [|done]. apply list_elem_of_In. by eapply list_elem_of_lookup_2. }
      by rewrite Hf in Hin.
    + destruct (IH i Hi Hf Hx) as (a & Ha & Ho). exists a. split; [|done]. cbn. by rewrite Hy.
Qed.

Lemma same_artifact_identity e : same_identity (fun x => same_artifact x e).
Proof. intros x y [= Hl Hm Hs Hb]. unfold same_artifact. by rewrite Hm, Hs, Hb. Qed.

Lemma located_artifact_identity e :
  same_identity (fun x => (ra_location x =? ra_location e) && same_artifact x e).
Proof. intros x y [= Hl Hm Hs Hb]. unfold same_artifact. by rewrite Hl, Hm, Hs, Hb. Qed.

Lemma filter_single_true {A} (p : A -> bool) l x : List.filter p l = [x] -> p x = true.
Proof. intros H. assert (Hin : In x (List.filter p l)) by (rewrite H; by left). by destruct (proj1 (filter_In p x l) Hin). Qed.

Lemma connector_artifacts_bound connector refs es m es' m' :
  try_fold (match_connector_artifact connector) (es, m) refs = Ok (es', m') ->
  extends es es' /\
  forall r, r ∈ refs -> exists e, expectation r [comp_id connector] = Ok e /\
    bound_once (comp_id connector) (fun x => same_artifact x e) es'.
Proof.
  revert es m. induction refs as [|r refs IH]; intros es m Hfold; cbn [try_fold] in Hfold.
  { simplify_eq. split; [apply extends_refl | intros r Hr; by apply elem_of_nil in Hr]. }
  destruct (match_connector_artifact connector (es, m) r) as [[es1 m1]|] eqn:Hstep; [|done].
  destruct (IH _ _ Hfold) as [Hext Hall]. unfold match_connector_artifact in Hstep.
  destruct (expectation r _) as [e|] eqn:He; [|done].
  destruct (matching_indices _ es) as [|i [|? ?]] eqn:Hm; try done. case_bool_decide; [done|]. simplify_eq.
  destruct (matching_indices_single _ _ _ Hm) as (x & Hx & Hf).
  split; [eapply extends_trans; [apply extends_alter|done]|].
  intros r' [->|Hr]%elem_of_cons; [|by apply Hall]. exists e. split; [done|].
  eapply bound_once_extends; [apply same_artifact_identity | done |].
  eapply bound_once_alter; [apply same_artifact_identity|done..|].
  by apply (filter_single_true (fun x => same_artifact x e) es).
Qed.

Lemma runner_artifacts_bound runner refs es es' :
  try_fold (match_runner_artifact runner) es refs = Ok es' ->
  extends es es' /\
  forall r, r ∈ refs -> exists e, expectation r [comp_id runner] = Ok e /\
    bound_once (comp_id runner) (fun x => (ra_location x =? ra_location e) && same_artifact x e) es'.
Proof.
  revert es. induction refs as [|r refs IH]; intros es Hfold; cbn [try_fold] in Hfold.
  { simplify_eq. split; [apply extends_refl | intros r Hr; by apply elem_of_nil in Hr]. }
  destruct (match_runner_artifact runner es r) as [es1|] eqn:Hstep; [|done].
  destruct (IH _ Hfold) as [Hext Hall]. unfold match_runner_artifact in Hstep.
  destruct (expectation r _) as [e|] eqn:He; [|done].
  destruct (matching_indices _ es) as [|i [|? ?]] eqn:Hm; try done. simplify_eq.
  destruct (matching_indices_single _ _ _ Hm) as (x & Hx & Hf).
  split; [eapply extends_trans; [apply extends_alter|done]|].
  intros r' [->|Hr]%elem_of_cons; [|by apply Hall]. exists e. split; [done|].
  eapply bound_once_extends; [apply located_artifact_identity | done |].
  eapply bound_once_alter; [apply located_artifact_identity|done..|].
  by apply (filter_single_true (fun x => (ra_location x =? ra_location e) && same_artifact x e) es).
Qed.

(** ** Pinned artifacts *)

(** An absolute traversal-free path with a lowercase SHA-256. *)
Definition pinned (e : RuntimeArtifactExpectation) : Prop :=
  starts_with "/" (ra_location e) = true /\ forallb is_normal (path_components (ra_location e)) = true /\
  valid_sha256 (ra_sha256 e) = true.

Lemma expectation_pinned r owners e :
  expectation r owners = Ok e -> pinned e /\ ra_components e = owners.
Proof.
  unfold expectation, pinned. intros He. inv_ok He. simplify_eq. simpl.
  repeat match goal with H : negb _ = false |- _ => apply negb_false_iff in H end. done.
Qed.

Lemma pinned_identity e e' : identity_of e = identity_of e' -> pinned e -> pinned e'.
Proof. unfold identity_of, pinned. intros [= -> _ -> _]. done. Qed.

Lemma elem_of_extends l k x :
  extends l k -> x ∈ k -> exists y, y ∈ l /\ identity_of y = identity_of x /\ ra_components y ⊆ ra_components x.
Proof.
  intros Hlk Hx. apply list_elem_of_lookup in Hx as [i Hi].
  destruct (Forall2_lookup_r _ _ _ _ _ Hlk Hi) as (y & Hy & Hxy).
  exists y. split; [by eapply list_elem_of_lookup_2 | done].
Qed.

Lemma list_filter_perm {A} (p : A -> bool) l k : l ≡ₚ k -> List.filter p l ≡ₚ List.filter p k.
Proof.
  induction 1 as [|x l k _ IH|x y l|l k m _ IH1 _ IH2]; simpl; [done| | |by transitivity (List.filter p k)].
  - destruct (p x); [by constructor | done].
  - destruct (p x), (p y); try done. by constructor.
Qed.

Lemma bound_once_sorted id p l :
  bound_once id p l -> bound_once id p (sort_by (cmp_on ra_location String.compare) l).
Proof.
  intros (a & Hf & Ho). exists a. split; [|done].
  assert (Hp : List.filter p (sort_by (cmp_on ra_location String.compare) l) ≡ₚ [a]).
  { rewrite <-Hf. apply list_filter_perm, sort_by_perm. }
  by apply Permutation_singleton_r in Hp.
Qed.

(** The runner only adds owners. *)
Lemma runner_extends (runner : option Component) es (m : list nat) final :
  match runner with
  | None => final = (es, m).1
  | Some runner => exists runner_refs, embedded_artifacts runner = Ok runner_refs /\
      try_fold (match_runner_artifact runner) (es, m).1 runner_refs = Ok final
  end -> extends es final.
Proof.
  destruct runner; [intros (refs & _ & Hr); by apply runner_artifacts_bound in Hr as [? _]|].
  intros ->. apply extends_refl.
Qed.

(** The artifacts of the plan, before they are sorted by location. *)
Lemma runtime_artifacts_Ok runner engine connector artifacts :
  runtime_artifacts runner engine connector = Ok artifacts ->
  exists engine_refs connector_refs owned matched final,
    embedded_artifacts engine = Ok engine_refs /\ embedded_artifacts connector = Ok connector_refs /\
    collect_results (fun r => expectation r [comp_id engine]) engine_refs = Ok owned /\
    try_fold (match_connector_artifact connector) (owned, []) connector_refs = Ok matched /\
    match runner with
    | None => final = matched.1
    | Some runner => exists runner_refs, embedded_artifacts runner = Ok runner_refs /\
        try_fold (match_runner_artifact runner) matched.1 runner_refs = Ok final
    end /\
    artifacts = sort_by (cmp_on ra_location String.compare) final.
Proof.
  unfold runtime_artifacts. intros Hok.
  destruct (embedded_artifacts engine) as [engine_refs|] eqn:He; [|done].
  destruct (embedded_artifacts connector) as [connector_refs|] eqn:Hc; [|done].
  destruct (match engine_refs with [] => true | _ => match connector_refs with [] => true | _ => false end end);
    [destruct engine_refs, connector_refs; done|].
  assert (Hok' : (let? expectations := collect_results (fun r => expectation r [comp_id engine]) engine_refs in
     let? matched := try_fold (match_connector_artifact connector) (expectations, []) connector_refs in
     let? expectations := match runner with None => Ok matched.1 | Some runner =>
        let? runner_artifacts := embedded_artifacts runner in
        guard match runner_artifacts with [] => true | _ => false end
          or "engine runner image must declare at least one embedded artifact" in
        try_fold (match_runner_artifact runner) matched.1 runner_artifacts end in
     Ok (sort_by (cmp_on ra_location String.compare) expectations)) = Ok artifacts)
    by (destruct engine_refs, connector_refs; done).
  clear Hok. destruct (collect_results _ engine_refs) as [owned|] eqn:Ho; [|done].
  destruct (try_fold _ _ connector_refs) as [matched|] eqn:Hm; [|done].
  exists engine_refs, connector_refs, owned, matched.
  destruct runner as [runner|]; [|simplify_eq; by eexists].
  destruct (embedded_artifacts runner) as [runner_refs|] eqn:Hr; [|done].
  destruct runner_refs as [|r runner_refs]; [done|].
  destruct (try_fold _ matched.1 _) as [final|] eqn:Hf; [|done]. simplify_eq.
  exists final. split_and!; try done. by exists (r :: runner_refs).
Qed.

(** Every artifact of a plan is pinned and owned by the engine. *)
Lemma runtime_artifacts_are_bound_facts runner engine connector artifacts :
  runtime_artifacts runner engine connector = Ok artifacts ->
  forall a, a ∈ artifacts -> pinned a /\ comp_id engine ∈ ra_components a.
Proof.
  intros Hok a. destruct (runtime_artifacts_Ok _ _ _ _ Hok) as
    (engine_refs & connector_refs & owned & [es m] & final & He & Hc & Ho & Hm & Hr & ->).
  intros Ha%elem_of_sort_by. apply collect_results_Ok in Ho.
  destruct (connector_artifacts_bound _ _ _ _ _ _ Hm) as [Hext _].
  destruct (elem_of_extends _ _ _ (extends_trans _ _ _ Hext (runner_extends _ _ _ _ Hr)) Ha) as (y & Hy & Hi & Hsub).
  apply list_elem_of_lookup in Hy as [i Hy]. destruct (Forall2_lookup_r _ _ _ _ _ Ho Hy) as (r & _ & Hexp).
  destruct (expectation_pinned _ _ _ Hexp) as [Hp Hown]. split; [by eapply pinned_identity|].
  apply Hsub. rewrite Hown. set_solver.
Qed.

(** The runtime artifacts of a plan bind the images to one
    another: they are the engine image's artifacts, sorted by path, each pinned by
    an absolute traversal-free path and a lowercase SHA-256 and owned by the engine;
    every artifact of the connector image is byte-identical to exactly one of them,
    which the connector then owns too; and every artifact of the runner image to
    exactly one at the same path, owned by the runner. *)
Theorem runtime_artifacts_are_bound runner engine connector artifacts :
  runtime_artifacts runner engine connector = Ok artifacts ->
  exists engine_refs connector_refs owned,
    embedded_artifacts engine = Ok engine_refs /\ embedded_artifacts connector = Ok connector_refs /\
    Forall2 (fun r e => expectation r [comp_id engine] = Ok e) engine_refs owned /\
    (identity_of <$> artifacts) ≡ₚ (identity_of <$> owned) /\
    StronglySorted (cmp_le (cmp_on ra_location String.compare)) artifacts /\
    (forall a, a ∈ artifacts -> pinned a /\ comp_id engine ∈ ra_components a) /\
    (forall r, r ∈ connector_refs -> exists e, expectation r [comp_id connector] = Ok e /\
       bound_once (comp_id connector) (fun x => same_artifact x e) artifacts) /\
    match runner with
    | None => True
    | Some runner => exists runner_refs, embedded_artifacts runner = Ok runner_refs /\
        forall r, r ∈ runner_refs -> exists e, expectation r [comp_id runner] = Ok e /\
          bound_once (comp_id runner) (fun x => (ra_location x =? ra_location e) && same_artifact x e) artifacts
    end.
Proof.
  intros Hok. destruct (runtime_artifacts_Ok _ _ _ _ Hok) as
    (engine_refs & connector_refs & owned & [es m] & final & He & Hc & Ho & Hm & Hr & ->).
  apply collect_results_Ok in Ho. destruct (connector_artifacts_bound _ _ _ _ _ _ Hm) as [Hext Hbound].
  pose proof (runner_extends _ _ _ _ Hr) as Hfinal.
  exists engine_refs, connector_refs, owned. split_and!; try done.
  - rewrite sort_by_perm. replace (identity_of <$> final) with (identity_of <$> owned); [done|].
    pose proof (extends_trans _ _ _ Hext Hfinal) as Hall. clear -Hall.
    induction Hall as [|x y l k [Hi _] _ IH]; [done|]. rewrite !fmap_cons. congruence.
  - apply sort_by_sorted, cmp_on_total, strict_total.
  - exact (runtime_artifacts_are_bound_facts _ _ _ _ Hok).
  - intros r Hin. destruct (Hbound r Hin) as (e & Hexp & Hb). exists e. split; [done|].
    apply bound_once_sorted. eapply bound_once_extends; [apply same_artifact_identity|done..].
  - destruct runner as [runner|]; [|done]. destruct Hr as (refs & Hrefs & Hr). exists refs. split; [done|].
    intros r Hin. destruct (proj2 (runner_artifacts_bound _ _ _ _ Hr) r Hin) as (e & Hexp & Hb).
    exists e. split; [done|]. by apply bound_once_sorted.
Qed.

(** ** Admitted plans *)

Section Plans.
Context `{UrlParser, UrlOps, ContractDecoders, EngineParametersDecoder, CanonicalEngineScenario}.

(** The choices [from_contracts_for_engine] made on the way to a plan. *)
Lemma engine_from_contracts_Ok profile scenario catalog engine fixture_id plan :
  from_contracts_for_engine profile scenario catalog engine fixture_id = Ok plan ->
  exists parameters ad catalog_component runner engine_component connector store fixture auth,
    engine_validate_canonical_scenario scenario = Ok tt /\ engine_decode_parameters scenario = Ok parameters /\
    engine_validate_parameters parameters = Ok tt /\ validate_profile_platform profile = Ok tt /\
    adapter profile catalog = Ok ad /\ protocol_native (ad_request_handling ad) = true /\
    component profile catalog Catalog = Ok catalog_component /\ optional_engine_runner profile = Ok runner /\
    selected_role_component profile "stock-engine" engine Engine = Ok engine_component /\
    role_component profile "engine-connector" Connector = Ok connector /\
    validate_supported_connector engine_component connector = Ok tt /\ object_store_plan profile = Ok store /\
    engine_fixture (sp_fixture_prefix parameters) catalog fixture_id ad store = Ok fixture /\
    engine_authentication ad = Ok auth /\
    execution_plan engine_component ad auth.1 store fixture parameters = Ok (plan_execution plan) /\
    runtime_artifacts runner engine_component connector = Ok (plan_runtime_artifacts plan) /\
    validate_execution_artifact (plan_runtime_artifacts plan) runner (comp_id engine_component) (plan_execution plan)
      = Ok tt /\
    (forall r, runner = Some r ->
       validate_runner_artifact (plan_runtime_artifacts plan) (comp_id r) (comp_id engine_component) = Ok tt) /\
    plan_runner plan = component_identity <$> runner /\ plan_catalog plan = component_identity catalog_component /\
    plan_engine plan = component_identity engine_component /\ plan_connector plan = component_identity connector /\
    plan_credential_source plan = auth.2 /\ plan_object_store plan = store.
Proof.
  unfold from_contracts_for_engine. intros Hok.
  repeat match type of Hok with
  | (match ?x with Ok _ => _ | Err _ => _ end) = _ => let E := fresh "E" in destruct x as [?|] eqn:E in Hok; [|done]
  | (if ?x then _ else _) = _ => let E := fresh "E" in destruct x eqn:E in Hok; [done|]
  | (let (_, _) := ?x in _) = _ => destruct x as [authentication credentials]
  end.
  repeat match goal with u : unit |- _ => destruct u end.
  simplify_eq. simpl. do 9 eexists. split_and!; try eassumption; try reflexivity.
  - by apply negb_false_iff.
  - intros r ->. done.
Qed.

Lemma execution_plan_Ok engine ad auth store fixture parameters execution :
  execution_plan engine ad auth store fixture parameters = Ok execution ->
  execution_fixture execution = fixture /\ execution_scenario execution = parameters.
Proof. unfold execution_plan. intros He. inv_ok He; by simplify_eq. Qed.

Lemma component_Ok profile id kind c : component profile id kind = Ok c -> comp_id c = id /\ comp_kind c = kind.
Proof.
  unfold component. intros Hc. destruct (find _ _) as [c'|] eqn:Hf; [|done]. simpl in Hc.
  apply find_some in Hf as [_ Hid%String.eqb_eq].
  case_bool_decide; cbn [negb] in Hc; [|done]. by simplify_eq.
Qed.

Lemma selected_role_component_Ok profile role selected kind c :
  selected_role_component profile role selected kind = Ok c -> comp_id c = selected /\ comp_kind c = kind.
Proof.
  unfold selected_role_component. destruct (List.filter _ _) as [|s [|? ?]] eqn:Hf; try done.
  apply filter_single_true, andb_true_iff in Hf as [_ Hs%String.eqb_eq].
  intros [Hid Hk]%component_Ok. by subst.
Qed.

Lemma optional_engine_runner_Ok profile r :
  optional_engine_runner profile = Ok (Some r) ->
  comp_id r = ENGINE_RUNNER_COMPONENT_ID /\ valid_git_revision (comp_version r) = true /\
  source_revision <$> comp_source r = Some (comp_version r).
Proof.
  unfold optional_engine_runner. destruct (role_services _ _) as [|s [|? ?]]; try done.
  destruct (negb (svc_component s =? _)) eqn:Hs; [done|]. apply negb_false_iff, String.eqb_eq in Hs.
  destruct (component _ _ _) as [c|] eqn:Hc; [|done]. destruct (source_revision <$> comp_source c) as [rev|] eqn:Hr; [|done].
  simpl. destruct (negb (comp_version c =? rev)) eqn:Hv; [done|]. apply negb_false_iff, String.eqb_eq in Hv.
  destruct (valid_git_revision rev) eqn:Hg; [|done]. intros [= <-]. apply component_Ok in Hc as [Hid _].
  rewrite Hr, Hv. split_and!; congruence.
Qed.

Lemma require_owned_Ok artifacts location media_type owners e1 e2 :
  require_owned artifacts location media_type owners e1 e2 = Ok tt ->
  exists a, artifacts_at artifacts location = [a] /\ owned_artifact a media_type owners = true.
Proof.
  unfold require_owned. destruct (artifacts_at _ _) as [|a [|? ?]]; try done.
  destruct (owned_artifact a _ _) eqn:Ho; [|done]. by exists a.
Qed.

(** The program the harness starts for a plan. *)
Definition launcher (execution : EngineExecutionPlan) : string * string :=
  match execution with
  | Spark _ => (SPARK_SUBMIT_LOCATION, "application/x-shellscript")
  | Flink _ => (FLINK_CLI_LOCATION, "application/x-shellscript")
  | Trino _ => (TRINO_SERVER_LOCATION, "application/x-shellscript")
  | DuckDb _ => (DUCKDB_CLI_LOCATION, "application/vnd.elf")
  end.

Lemma launcher_owned artifacts runner engine execution :
  validate_execution_artifact artifacts runner engine execution = Ok tt ->
  exists a, artifacts_at artifacts (launcher execution).1 = [a] /\
    owned_artifact a (launcher execution).2 [engine] = true.
Proof.
  unfold validate_execution_artifact, launcher. intros Hok.
  destruct execution; simpl in *;
    (destruct (require_owned artifacts _ _ [engine] _ _) as [[]|] eqn:Ho in Hok; [|done];
     by apply require_owned_Ok in Ho).
Qed.

(** C22: a plan is built only from the canonical scenario and binds what
    will run: the catalog is the requested one and is spoken to natively; the
    engine is the selected one; every runtime artifact is pinned and belongs to the
    engine, among them exactly one nonempty launcher of the expected type; a runner
    is the harness at one Git revision and exactly one nonempty ELF owned by both;
    and the fixture is a snake-case namespace of the catalog and the fixture
    identifier. *)
Theorem admitted_plan_is_bound profile scenario catalog engine fixture_id plan :
  from_contracts_for_engine profile scenario catalog engine fixture_id = Ok plan ->
  engine_validate_canonical_scenario scenario = Ok tt /\
  engine_validate_parameters (plan_scenario plan) = Ok tt /\
  ci_id (plan_catalog plan) = catalog /\ ci_id (plan_engine plan) = engine /\
  (exists ad, adapter profile catalog = Ok ad /\ ad_request_handling ad = ProtocolNative) /\
  (forall a, a ∈ plan_runtime_artifacts plan -> pinned a /\ engine ∈ ra_components a) /\
  (exists a, artifacts_at (plan_runtime_artifacts plan) (launcher (plan_execution plan)).1 = [a] /\
     owned_artifact a (launcher (plan_execution plan)).2 [engine] = true) /\
  (forall r, plan_runner plan = Some r ->
     ci_id r = ENGINE_RUNNER_COMPONENT_ID /\ valid_git_revision (ci_version r) = true /\
     ci_source_revision r = Some (ci_version r) /\
     exists a, artifacts_at (plan_runtime_artifacts plan) ENGINE_RUNNER_LOCATION = [a] /\
       owned_artifact a "application/vnd.elf" (sort_by String.compare [ENGINE_RUNNER_COMPONENT_ID; engine]) = true) /\
  exists slug, catalog_slug catalog = Some slug /\
    fixture_namespace (plan_fixture plan) = sp_fixture_prefix (plan_scenario plan) +:+ "_" +:+ slug +:+ "_" +:+ fixture_id /\
    all_bytes snake_byte (fixture_namespace (plan_fixture plan)) = true.
Proof.
  intros Hok. destruct (engine_from_contracts_Ok _ _ _ _ _ _ Hok) as (parameters & ad & cc & runner & ec & conn & store & fx &
    auth & Hcanon & _ & Hparams & _ & Had & Hnative & Hcc & Hrunner & Hengine & _ & _ & _ & Hfx & _ & Hex & Hart &
    Hlaunch & Hvr & -> & -> & -> & _).
  destruct (execution_plan_Ok _ _ _ _ _ _ _ Hex) as [Hfixture Hscenario].
  apply component_Ok in Hcc as [Hcid _]. apply selected_role_component_Ok in Hengine as [Heid _].
  destruct (engine_fixture_Ok _ _ _ _ _ _ Hfx) as (slug & Hslug & Hns & _ & Hid & _).
  unfold plan_scenario, plan_fixture. rewrite Hscenario, Hfixture. simpl. rewrite Heid in *. split_and!; try done.
  - exists ad. split; [done|]. by destruct (ad_request_handling ad).
  - pose proof (runtime_artifacts_are_bound_facts _ _ _ _ Hart) as Hfacts. by rewrite Heid in Hfacts.
  - by eapply launcher_owned.
  - intros r Hr. destruct runner as [rc|]; simplify_eq/=.
    destruct (optional_engine_runner_Ok _ _ Hrunner) as (Hrid & Hrev & Hsrc).
    specialize (Hvr rc eq_refl). rewrite Hrid in Hvr |- *. split_and!; try done. by eapply require_owned_Ok.
  - exists slug. split_and!; [done..|]. rewrite Hns, !all_bytes_app, Hid, (catalog_slug_snake _ _ Hslug).
    assert (Hprefix : all_bytes snake_byte (sp_fixture_prefix parameters) = true).
    { unfold engine_validate_parameters in Hparams. destruct (negb (sp_transcript_format _ =? _)); [done|].
      destruct (all_bytes snake_byte (sp_fixture_prefix parameters)); [done|]. by rewrite orb_true_r in Hparams. }
    by rewrite Hprefix.
Qed.

(** The fixtures of one run never collide: plans made with the same
    scenario and fixture identifier for different catalogs have different
    namespaces, whatever the engines. *)
Theorem engine_fixtures_isolated profile scenario fixture_id catalog catalog' engine engine' plan plan' :
  from_contracts_for_engine profile scenario catalog engine fixture_id = Ok plan ->
  from_contracts_for_engine profile scenario catalog' engine' fixture_id = Ok plan' ->
  fixture_namespace (plan_fixture plan) = fixture_namespace (plan_fixture plan') -> catalog = catalog'.
Proof.
  assert (Hns : forall c e p, from_contracts_for_engine profile scenario c e fixture_id = Ok p ->
    exists parameters slug, engine_decode_parameters scenario = Ok parameters /\ catalog_slug c = Some slug /\
      fixture_namespace (plan_fixture p) = sp_fixture_prefix parameters +:+ "_" +:+ slug +:+ "_" +:+ fixture_id).
  { intros c e p Hok. destruct (engine_from_contracts_Ok _ _ _ _ _ _ Hok) as (parameters & ad & cc & runner & ec & conn & store &
      fx & auth & _ & Hdec & _ & _ & _ & _ & _ & _ & _ & _ & _ & _ & Hfx & _ & Hex & _).
    destruct (execution_plan_Ok _ _ _ _ _ _ _ Hex) as [Hfixture _].
    destruct (engine_fixture_Ok _ _ _ _ _ _ Hfx) as (slug & Hslug & Hn & _).
    exists parameters, slug. unfold plan_fixture. by rewrite Hfixture. }
  intros (p1 & s1 & Hp1 & Hs1 & Hn1)%Hns (p2 & s2 & Hp2 & Hs2 & Hn2)%Hns Heq. rewrite Hp1 in Hp2; injection Hp2 as <-.
  rewrite Hn1, Hn2 in Heq. apply append_cancel_l, append_cancel_l, append_cancel_r in Heq. subst.
  by eapply catalog_slug_inj.
Qed.
End Plans.
