(* ===== verification/EngineSql.v ===== *)
(** * SQL of the engine programs (crates/engine/src/sql.rs)

    The deterministic rows of a scenario and the statements the Trino, Flink and
    DuckDB renderers share. A render error is its message. The checks on URLs
    that the three renderers repeat are stated once here. *)

From S2P Require Import Prelude Order RustStr ContractValue ContractAdapter Transport EngineParameters EnginePlan.
From Stdlib Require Import Ascii.
Open Scope string_scope.

Definition SqlGenerationError : Type := string.

(** [value.replace(quote, two quotes)] between quotes. *)
Definition literal (value : string) : string := "'" +:+ replace "'" "''" value +:+ "'".

Definition valid_identifier (value : string) : bool :=
  negb (is_empty value)
  && all_bytes (fun byte => is_ascii_lowercase byte || is_ascii_digit byte || is_byte 95 byte) value.

Definition join : string -> list string -> string := String.concat.

(** [u64::checked_mul]. *)
Definition checked_mul (max a b : Z) : option Z := if (a * b <=? max)%Z then Some (a * b)%Z else None.

(** One turn of the loop of [render_rows]. *)
Definition render_row (generator : RowGenerator) (evolved : bool) (id : Z) : result string SqlGenerationError :=
  let '(Affine multiplier offset) := rg_amount_cents generator in
  let? amount := ok_or (value ← checked_mul u64_max multiplier id; checked_add u64_max value offset)
    "generated amount exceeds unsigned 64-bit range" in
  let '(ModuloLabel modulus prefix) := rg_category generator in
  guard (modulus =? 0)%Z or "category modulus must be positive" in
  let values := [display id; literal (prefix +:+ display (id mod modulus)); display amount] in
  let '(IdLabel note) := rg_note generator in
  let values := if evolved then (values ++ [literal (note +:+ display id)])%list else values in
  Ok ("(" +:+ join ", " values +:+ ")").

Definition render_rows (scenario : EngineScenarioParameters) (evolved : bool)
  : result (list string) SqlGenerationError :=
  let batch := if evolved then bs_evolved (sp_batches scenario) else bs_initial (sp_batches scenario) in
  let? end_ := ok_or (checked_add u64_max (bp_id_start batch) (bp_rows batch))
    "generated row range exceeds unsigned 64-bit range" in
  collect_results (render_row (sp_row_generator scenario) evolved)
    (seqZ (bp_id_start batch) (end_ - bp_id_start batch)).

Definition render_insert (table : string) (columns values : list string) : string :=
  "INSERT INTO " +:+ table +:+ " (" +:+ join ", " columns +:+ ") VALUES " +:+ join ", " values.

Definition render_read (table : string) (columns order_by : list string)
    (identifier : string -> result string SqlGenerationError) : result string SqlGenerationError :=
  let? columns := collect_results identifier columns in
  let? order_by := collect_results identifier order_by in
  Ok ("SELECT " +:+ join ", " columns +:+ " FROM " +:+ table +:+ " ORDER BY " +:+ join ", " order_by).

(** ** Plan checks the renderers share *)

Section Plans.
Context `{UrlParser}.

Definition credential_free_http_url (value : string) : bool :=
  match url_parse value with Ok url => plain_http_url url | Err _ => false end.

(** The check of a requested table location. *)
Definition table_location_supported (location bucket : string) : bool :=
  match url_parse location with
  | Ok url =>
      (url_scheme url =? "s3") && bool_decide (url_host_str url = Some bucket) && is_empty (url_username url)
      && is_none (url_password url) && is_none (url_query url) && is_none (url_fragment url)
  | Err _ => false
  end.

(** The engine policy, the transcript format and the fixture prefix. *)
Definition policy_authorizes_renderer (scenario : EngineScenarioParameters) (fixture : Fixture) : bool :=
  let policy := sp_engine_policy scenario in
  match ep_catalog_specific_branches policy, ep_catalog_specific_shims policy, ep_connector policy,
        ep_syntax_rendering policy, ep_unsupported policy with
  | Forbidden, Forbidden, StockProfileComponent, EngineSpecificButCatalogNeutral,
    ClassifyBeforeMutationWithoutASubstituteRequest => true
  end
  && (sp_transcript_format scenario =? ENGINE_TRANSCRIPT_FORMAT)
  && starts_with (sp_fixture_prefix scenario +:+ "_") (fixture_namespace fixture).
End Plans.

(** The observation half of a rendered program. *)
Record FixtureTarget := {
  ft_namespace : string;
  ft_table : string;
  ft_requested_location : option string;
  ft_bucket : string;
}.

Record ObservationPolicy := {
  op_format_version : Z;
  op_initial_schema : list IcebergField;
  op_evolved_field : EvolutionField;
  op_properties : gmap string string;
}.

Definition fixture_target (fixture : Fixture) (bucket : string) : FixtureTarget := {|
  ft_namespace := fixture_namespace fixture; ft_table := fixture_table fixture;
  ft_requested_location := fixture_requested_location fixture; ft_bucket := bucket |}.

Definition observation_policy (scenario : EngineScenarioParameters) : ObservationPolicy := {|
  op_format_version := tp_format_version (sp_table scenario);
  op_initial_schema := is_fields (tp_schema (sp_table scenario));
  op_evolved_field := se_field (sp_schema_evolution scenario);
  op_properties := tp_properties (sp_table scenario) |}.

(** The purposes of a program's operations, in the order every engine runs them. *)
Inductive OperationPurpose :=
| PurposeCreateNamespace | PurposeCreateTable | PurposeInitialAppend | PurposeInitialRead | PurposeAddColumn
| PurposeEvolvedAppend | PurposeEvolvedRead | PurposeSnapshotRead.

#[export] Instance OperationPurpose_eq_dec : EqDecision OperationPurpose.
Proof. solve_decision. Defined.

(** The operations of a Trino or Flink program, with the read oracle of a read. *)
Module Operation.
Inductive t :=
| CreateNamespace (sql : string)
| CreateTable (sql : string)
| InitialAppend (sql : string)
| InitialRead (sql : string) (expected : CanonicalRead)
| AddColumn (sql : string)
| EvolvedAppend (sql : string)
| EvolvedRead (sql : string) (expected : CanonicalRead)
| SnapshotRead (sql : string).

Definition purpose (self : t) : OperationPurpose :=
  match self with
  | CreateNamespace _ => PurposeCreateNamespace
  | CreateTable _ => PurposeCreateTable
  | InitialAppend _ => PurposeInitialAppend
  | InitialRead _ _ => PurposeInitialRead
  | AddColumn _ => PurposeAddColumn
  | EvolvedAppend _ => PurposeEvolvedAppend
  | EvolvedRead _ _ => PurposeEvolvedRead
  | SnapshotRead _ => PurposeSnapshotRead
  end.

Definition sql (self : t) : string :=
  match self with
  | CreateNamespace sql | CreateTable sql | InitialAppend sql | InitialRead sql _ | AddColumn sql
  | EvolvedAppend sql | EvolvedRead sql _ | SnapshotRead sql => sql
  end.
End Operation.

Record CatalogSetup := {
  setup_name : string;
  setup_properties : gmap string string;
  setup_authentication : EngineCatalogAuthentication;
}.

#[export] Instance EngineCatalogAuthentication_eq_dec : EqDecision EngineCatalogAuthentication.
Proof. solve_decision. Defined.
#[export] Instance CatalogSetup_eq_dec : EqDecision CatalogSetup.
Proof. solve_decision. Defined.

(** ** The Flink engine (crates/engine/src/flink.rs)

    Rendering a plan into the program the Flink runner executes. *)

Module Flink.

Definition FlinkRenderError : Type := string.

Record FlinkRenderedProgram := {
  parallelism : Z;
  catalog : CatalogSetup;
  fixture : FixtureTarget;
  observation : ObservationPolicy;
  operations : list Operation.t;
}.

Definition render_type (field_type : IcebergPrimitiveType) : string :=
  match field_type with Long => "BIGINT" | IcebergString => "STRING" end.

Definition identifier (value : string) : result string FlinkRenderError :=
  guard negb (valid_identifier value) or "Flink identifier is outside the closed vocabulary" in
  Ok ("`" +:+ value +:+ "`").

Definition not_null (required : bool) : string := if required then " NOT NULL" else "".

Definition render_field (field : IcebergField) : result string FlinkRenderError :=
  let? name := identifier (if_name field) in
  Ok (name +:+ " " +:+ render_type (if_type field) +:+ not_null (if_required field)).

Definition render_properties (properties : gmap string string) : string :=
  join ", " ((fun property => literal property.1 +:+ "=" +:+ literal property.2)
             <$> btree_entries String.compare properties).

Definition catalog_properties (plan : FlinkExecutionPlan) : gmap string string :=
  let file_io := flink_file_io plan in
  let properties : gmap string string := list_to_map
    [("type", "iceberg"); ("catalog-type", "rest"); ("uri", rcp_uri (flink_catalog plan));
     ("io-impl", fio_implementation file_io); ("s3.endpoint", fio_endpoint file_io);
     ("s3.region", fio_region file_io);
     ("s3.path-style-access", if fio_path_style_access file_io then "true" else "false")] in
  let properties := match rcp_warehouse (flink_catalog plan) with
                    | Some warehouse => <["warehouse" := warehouse]> properties
                    | None => properties
                    end in
  match rcp_prefix (flink_catalog plan) with
  | Some prefix => <["prefix" := prefix]> properties
  | None => properties
  end.

(** The properties of the created table. *)
Definition table_properties (plan : FlinkExecutionPlan) : gmap string string :=
  let table := sp_table (flink_scenario plan) in
  let properties := <["write.format.default" := match tp_file_format table with Parquet => "parquet" end]>
    (<["format-version" := display (tp_format_version table)]> (tp_properties table)) in
  match fixture_requested_location (flink_fixture plan) with
  | Some location => <["location" := location]> properties
  | None => properties
  end.

Section Render.
Context `{UrlParser}.

Definition validate_plan (plan : FlinkExecutionPlan) : result unit FlinkRenderError :=
  guard negb (flink_format plan =? FLINK_PLAN_FORMAT) or "unsupported Flink plan format" in
  guard negb (fes_parallelism (flink_execution plan) =? 1)%Z or "unsupported Flink execution settings" in
  let file_io := flink_file_io plan in
  guard negb (rcp_name (flink_catalog plan) =? FLINK_CATALOG_NAME)
        || negb (credential_free_http_url (rcp_uri (flink_catalog plan)))
        || negb (fio_implementation file_io =? "org.apache.iceberg.aws.s3.S3FileIO")
        || negb (credential_free_http_url (fio_endpoint file_io)) || is_empty (fio_bucket file_io)
        || is_empty (fio_region file_io) || negb (fio_path_style_access file_io)
    or "unsupported Flink catalog or file IO policy" in
  guard is_some_and (fun location => negb (table_location_supported location (fio_bucket file_io)))
          (fixture_requested_location (flink_fixture plan))
    or "invalid Flink table location" in
  guard negb (policy_authorizes_renderer (flink_scenario plan) (flink_fixture plan))
    or "scenario policy does not authorize the Flink renderer" in
  Ok tt.

(** [FlinkRenderedProgram::render]. *)
Definition render (plan : FlinkExecutionPlan) : result FlinkRenderedProgram FlinkRenderError :=
  check? validate_plan plan in
  let? namespace := identifier (fixture_namespace (flink_fixture plan)) in
  let? table := identifier (fixture_table (flink_fixture plan)) in
  let qualified_table := namespace +:+ "." +:+ table in
  let scenario := flink_scenario plan in
  let fields := is_fields (tp_schema (sp_table scenario)) in
  let? schema := collect_results render_field fields in
  let create_table := "CREATE TABLE " +:+ qualified_table +:+ " (" +:+ join ", " schema +:+ ") WITH ("
                      +:+ render_properties (table_properties plan) +:+ ")" in
  let? initial_columns := collect_results (fun field => identifier (if_name field)) fields in
  let evolution := se_field (sp_schema_evolution scenario) in
  let? evolved_column := identifier (ef_name evolution) in
  let evolved_columns := (initial_columns ++ [evolved_column])%list in
  let? initial_values := render_rows scenario false in
  let? evolved_values := render_rows scenario true in
  let reads := sp_canonical_reads scenario in
  let? initial_read := render_read qualified_table (cread_columns (creads_initial reads)) (creads_order_by reads)
                         identifier in
  let? evolved_read := render_read qualified_table (cread_columns (creads_after_evolution reads))
                         (creads_order_by reads) identifier in
  let add_column := "ALTER TABLE " +:+ qualified_table +:+ " ADD " +:+ evolved_column +:+ " "
                    +:+ render_type (ef_type evolution) +:+ not_null (ef_required evolution) in
  Ok {| parallelism := fes_parallelism (flink_execution plan);
        catalog := {| setup_name := rcp_name (flink_catalog plan); setup_properties := catalog_properties plan;
                      setup_authentication := rcp_authentication (flink_catalog plan) |};
        fixture := fixture_target (flink_fixture plan) (fio_bucket (flink_file_io plan));
        observation := observation_policy scenario;
        operations :=
          [Operation.CreateNamespace ("CREATE DATABASE IF NOT EXISTS " +:+ namespace);
           Operation.CreateTable create_table;
           Operation.InitialAppend (render_insert qualified_table initial_columns initial_values);
           Operation.InitialRead initial_read (creads_initial reads);
           Operation.AddColumn add_column;
           Operation.EvolvedAppend (render_insert qualified_table evolved_columns evolved_values);
           Operation.EvolvedRead evolved_read (creads_after_evolution reads);
           Operation.SnapshotRead ("SELECT * FROM " +:+ namespace +:+ ".`" +:+ fixture_table (flink_fixture plan)
             +:+ "$snapshots`")] |}.
End Render.
End Flink.
