(* ===== verification/EngineRuntime.v ===== *)
(** * Runtime verification (crates/engine/src/runtime.rs)

    Before an engine starts, the files of its image are hashed and compared with
    the plan. The file system is the class [FileSystem]: the metadata of a path
    and, for a file that opens, the sequence of results of reading it. *)

From S2P Require Import Prelude RustStr ContractValue Ledger EngineParameters.
From Stdlib Require Import Ascii.
Open Scope string_scope.

Record RuntimePlatformObservation := {
  po_expected_operating_system : string;
  po_observed_operating_system : string;
  po_operating_system_matches : bool;
  po_expected_architecture : string;
  po_observed_architecture : string;
  po_architecture_matches : bool;
}.

Inductive RuntimeArtifactUnavailableKind := Missing | NotAFile | OpenFailed | ReadFailed.

Inductive RuntimeArtifactOutcome :=
| Match (observed_bytes : Z) (observed_sha256 : string)
| Mismatch (observed_bytes : Z) (observed_sha256 : string) (bytes_match sha256_matches : bool)
| Unavailable (kind : RuntimeArtifactUnavailableKind).

Record RuntimeArtifactObservation := {
  rao_location : string;
  rao_media_type : string;
  rao_components : list ComponentId;
  rao_expected_bytes : Z;
  rao_expected_sha256 : string;
  rao_outcome : RuntimeArtifactOutcome;
}.

Record RuntimeVerification := {
  rv_platform : RuntimePlatformObservation;
  rv_artifacts : list RuntimeArtifactObservation;
}.

(** The [passed] methods. *)
Definition platform_passed (self : RuntimePlatformObservation) : bool :=
  po_operating_system_matches self && po_architecture_matches self.
Definition outcome_matches (self : RuntimeArtifactOutcome) : bool :=
  match self with Match _ _ => true | Mismatch _ _ _ _ | Unavailable _ => false end.
Definition verification_passed (self : RuntimeVerification) : bool :=
  platform_passed (rv_platform self) && forallb (fun artifact => outcome_matches (rao_outcome artifact)) (rv_artifacts self).

(** ** Platform names *)

Definition normalize_operating_system (value : string) : string :=
  let other := to_ascii_lowercase (trim value) in
  if (other =? "macos") || (other =? "darwin") then "macos" else other.

Definition operating_system_matches (expected observed : string) : bool :=
  normalize_operating_system expected =? normalize_operating_system observed.

Definition normalize_architecture (value : string) : string :=
  let other := to_ascii_lowercase (trim value) in
  if (other =? "aarch64") || (other =? "arm64") then "arm64"
  else if (other =? "x86_64") || (other =? "amd64") then "amd64" else other.

Definition architecture_matches (expected observed : string) : bool :=
  normalize_architecture expected =? normalize_architecture observed.

(** ** Files *)

(** What [Path::metadata] reports: an error (and whether it is [NotFound]) or
    whether the path is a file. [open_file] gives the results of the successive
    reads: the bytes of each, or an error; after them a read returns no byte. *)
Class FileSystem := {
  file_metadata : string -> result bool bool;
  open_file : string -> option (list (option (list ascii)));
}.

Record RuntimeVerifier := {
  verifier_root : string;
  verifier_operating_system : string;
  verifier_architecture : string;
}.

(** [PathBuf::join] of a relative path. *)
Definition path_join (root relative : string) : string :=
  if is_empty root || ends_with "/" root then root +:+ relative else root +:+ "/" +:+ relative.

Definition artifact_path (self : RuntimeVerifier) (location : string) : string :=
  path_join (verifier_root self) (trim_start_matches 47 location).

(** The loop of [digest_reader]: the byte count and the bytes hashed so far. A
    read of no byte ends it, as does the end of the reads. *)
Fixpoint read_all (reads : list (option (list ascii))) (bytes : Z) (content : list ascii)
  : option (Z * list ascii) :=
  match reads with
  | [] => Some (bytes, content)
  | None :: _ => None
  | Some [] :: _ => Some (bytes, content)
  | Some chunk :: reads =>
      total ← checked_add u64_max bytes (len chunk);
      read_all reads total (content ++ chunk)%list
  end.

Section Verify.
Context `{FileSystem, Sha256}.

Definition hex (bytes : list ascii) : string := String.string_of_list_ascii (flat_map hex_byte bytes).

Definition digest_reader (reads : list (option (list ascii))) : option (Z * string) :=
  '(bytes, content) ← read_all reads 0 [];
  Some (bytes, hex (sha256 content)).

Definition observe_file (path : string) (expectation : RuntimeArtifactExpectation) : RuntimeArtifactOutcome :=
  match file_metadata path with
  | Err not_found => Unavailable (if not_found then Missing else OpenFailed)
  | Ok is_file =>
      if negb is_file then Unavailable NotAFile
      else match open_file path with
      | None => Unavailable OpenFailed
      | Some reads =>
          match digest_reader reads with
          | None => Unavailable ReadFailed
          | Some (observed_bytes, observed_sha256) =>
              let bytes_match := (observed_bytes =? ra_bytes expectation)%Z in
              let sha256_matches := observed_sha256 =? ra_sha256 expectation in
              if bytes_match && sha256_matches then Match observed_bytes observed_sha256
              else Mismatch observed_bytes observed_sha256 bytes_match sha256_matches
          end
      end
  end.

Definition verify_artifact (self : RuntimeVerifier) (expectation : RuntimeArtifactExpectation)
  : RuntimeArtifactObservation := {|
  rao_location := ra_location expectation; rao_media_type := ra_media_type expectation;
  rao_components := ra_components expectation; rao_expected_bytes := ra_bytes expectation;
  rao_expected_sha256 := ra_sha256 expectation;
  rao_outcome := observe_file (artifact_path self (ra_location expectation)) expectation |}.

Definition verify_expectations (self : RuntimeVerifier) (expected : RuntimePlatformExpectation)
    (expectations : list RuntimeArtifactExpectation) : RuntimeVerification := {|
  rv_platform := {|
    po_expected_operating_system := rp_operating_system expected;
    po_observed_operating_system := verifier_operating_system self;
    po_operating_system_matches := operating_system_matches (rp_operating_system expected) (verifier_operating_system self);
    po_expected_architecture := rp_architecture expected;
    po_observed_architecture := verifier_architecture self;
    po_architecture_matches := architecture_matches (rp_architecture expected) (verifier_architecture self) |};
  rv_artifacts := verify_artifact self <$> expectations |}.

(** [RuntimeVerifier::verify]. *)
Definition verify (self : RuntimeVerifier) (plan : InteroperabilityPlan) : RuntimeVerification :=
  verify_expectations self (plan_runtime_platform plan) (plan_runtime_artifacts plan).

(** ** Properties *)

(** What reading a file to its end saw: every read succeeded until one
    returned no byte. *)
Definition content_of (reads : list (option (list ascii))) (content : list ascii) : Prop :=
  exists chunks rest, reads = (map Some chunks ++ rest)%list /\ Forall (fun c => c <> []) chunks /\
    (rest = [] \/ exists rest', rest = Some [] :: rest') /\ content = concat chunks.

Lemma read_all_Some reads bytes content total result :
  read_all reads bytes content = Some (total, result) ->
  exists more, content_of reads more /\ result = (content ++ more)%list /\ total = (bytes + len more)%Z.
Proof.
  revert bytes content. induction reads as [|[chunk|] reads IH]; intros bytes content Hread; simpl in Hread.
  - simplify_eq. exists []. rewrite app_nil_r, len_nil. split_and!; [|done|lia].
    exists [], []. split_and!; try done. by left.
  - destruct chunk as [|c chunk].
    + simplify_eq. exists []. rewrite app_nil_r, len_nil. split_and!; [|done|lia].
      exists [], (Some [] :: reads). split_and!; try done. right. by exists reads.
    + destruct (checked_add _ _ _) as [sum|] eqn:Hsum; [|done]. simpl in Hread.
      apply checked_add_Some in Hsum as [-> _].
      destruct (IH _ _ Hread) as (more & (chunks & rest & -> & Hne & Hrest & ->) & -> & ->).
      exists ((c :: chunk) ++ concat chunks)%list. split_and!.
      * exists ((c :: chunk) :: chunks), rest. split_and!; try done. by constructor.
      * by rewrite <-app_assoc.
      * rewrite len_app. lia.
  - done.
Qed.

(** A runtime verification that passes has seen every artifact of
    the plan: the platform names agree up to their aliases, and the file at the
    artifact's path under the root was read to its end, has the expected length and
    hashes to the expected SHA-256. *)
Theorem verified_runtime_is_the_pinned_one self plan :
  verification_passed (verify self plan) = true ->
  operating_system_matches (rp_operating_system (plan_runtime_platform plan)) (verifier_operating_system self) = true /\
  architecture_matches (rp_architecture (plan_runtime_platform plan)) (verifier_architecture self) = true /\
  forall a, a ∈ plan_runtime_artifacts plan ->
    exists reads content, open_file (artifact_path self (ra_location a)) = Some reads /\
      file_metadata (artifact_path self (ra_location a)) = Ok true /\ content_of reads content /\
      len content = ra_bytes a /\ hex (sha256 content) = ra_sha256 a.
Proof.
  unfold verification_passed, platform_passed. simpl.
  intros [[Hos Harch]%andb_true_iff Hall]%andb_true_iff. split_and!; try done.
  intros a Ha. rewrite forallb_forall in Hall.
  specialize (Hall (verify_artifact self a)). simpl in Hall.
  assert (Hin : In (verify_artifact self a) (verify_artifact self <$> plan_runtime_artifacts plan))
    by (apply list_elem_of_In; by apply list_elem_of_fmap_2).
  specialize (Hall Hin). unfold observe_file in Hall.
  destruct (file_metadata _) as [[]|] eqn:Hmeta; try done. simpl in Hall.
  destruct (open_file _) as [reads|] eqn:Hopen; [|done].
  unfold digest_reader in Hall. destruct (read_all reads 0 []) as [[total content]|] eqn:Hread; [|done]. simpl in Hall.
  destruct ((total =? ra_bytes a)%Z) eqn:Hb; [|by rewrite andb_false_l in Hall].
  destruct (hex (sha256 content) =? ra_sha256 a) eqn:Hs; [|done].
  destruct (read_all_Some _ _ _ _ _ Hread) as (more & Hcontent & -> & ->). simpl in *.
  exists reads, more. split_and!; try done; [lia|]. by apply String.eqb_eq.
Qed.
End Verify.
