(* ===== verification/EngineEvents.v ===== *)
(** * The engine event protocol (crates/engine/src/protocol.rs, execution.rs)

    An engine adapter prints one event per line; [EngineEventDecoder] reads them
    from arbitrary chunks of standard output and accepts only the closed stage
    order. Decoding the JSON of one event is derived code ([EventParser]). *)

From S2P Require Import Prelude RustStr EngineParameters EngineRuntime.
From Stdlib Require Import Ascii.
Open Scope string_scope.

(** ** Data *)

Definition ENGINE_EVENT_PREFIX : list ascii := bytes "CATALOG_BENCH_EVENT ".
Definition MAXIMUM_ENGINE_EVENT_BYTES : Z := 16 * 1024.
Definition MAXIMUM_ENGINE_EVENTS : Z := 32.
Definition MAXIMUM_ENGINE_STDOUT_BYTES : Z := 1024 * 1024.

Inductive EngineStage :=
| VerifyRuntime | InitializeCatalog | PreflightFixture | CreateNamespace | CreateTable | AppendInitial
| ReadInitial | EvolveSchema | AppendEvolved | ReadEvolved | ObserveFinalTable.

#[export] Instance EngineStage_eq_dec : EqDecision EngineStage.
Proof. solve_decision. Defined.

Definition ORDER : list EngineStage :=
  [VerifyRuntime; InitializeCatalog; PreflightFixture; CreateNamespace; CreateTable; AppendInitial;
   ReadInitial; EvolveSchema; AppendEvolved; ReadEvolved; ObserveFinalTable].

Module EngineFailureCategory.
Inductive t := Runtime | Connector | Catalog | Data.
End EngineFailureCategory.

Record EngineFieldObservation := {
  fo_id : Z;
  fo_name : string;
  fo_required : bool;
  fo_field_type : IcebergPrimitiveType;
}.

Module EnginePropertyObservation.
Inductive t := Match | Mismatch.
#[global] Instance eq_dec : EqDecision t.
Proof. solve_decision. Defined.
End EnginePropertyObservation.

Record EngineTableObservation := {
  to_table_uuid : string;
  to_metadata_location : string;
  to_location : string;
  to_format_version : Z;
  to_last_column_id : Z;
  to_schema : list EngineFieldObservation;
  to_snapshots : Z;
  to_properties : gmap string EnginePropertyObservation.t;
}.

#[export] Instance EngineFieldObservation_eq_dec : EqDecision EngineFieldObservation.
Proof. solve_decision. Defined.
#[export] Instance EngineTableObservation_eq_dec : EqDecision EngineTableObservation.
Proof. solve_decision. Defined.

Record RowReadObservation := { rr_rows : Z; rr_bytes : Z; rr_sha256 : string }.

#[export] Instance RowReadObservation_eq_dec : EqDecision RowReadObservation.
Proof. solve_decision. Defined.

Inductive EngineEvent :=
| RuntimeReady (runtime : EngineRuntimeObservation)
| CatalogReady
| FixturePreflight (absent : bool)
| NamespaceReady (listed_exactly : bool)
| TableReady (table : EngineTableObservation)
| InitialAppended (snapshots : Z)
| InitialRead (read : RowReadObservation)
| SchemaEvolved (table : EngineTableObservation)
| EvolvedAppended (snapshots : Z)
| EvolvedRead (read : RowReadObservation)
| FinalTable (table : EngineTableObservation)
| Completed
| Failed (stage : EngineStage) (category : EngineFailureCategory.t).

Definition successful_stage (self : EngineEvent) : option EngineStage :=
  match self with
  | RuntimeReady _ => Some VerifyRuntime
  | CatalogReady => Some InitializeCatalog
  | FixturePreflight _ => Some PreflightFixture
  | NamespaceReady _ => Some CreateNamespace
  | TableReady _ => Some CreateTable
  | InitialAppended _ => Some AppendInitial
  | InitialRead _ => Some ReadInitial
  | SchemaEvolved _ => Some EvolveSchema
  | EvolvedAppended _ => Some AppendEvolved
  | EvolvedRead _ => Some ReadEvolved
  | FinalTable _ => Some ObserveFinalTable
  | Completed | Failed _ _ => None
  end.

Module EngineProtocolFailureKind.
Inductive t :=
| StdoutTooLarge | EventLineTooLarge | MalformedEvent | TooManyEvents | OutOfOrder | PostTerminal | MissingTerminal.
End EngineProtocolFailureKind.

Record EngineEventCapture := {
  cap_events : list EngineEvent;
  cap_protocol_failure : option EngineProtocolFailureKind.t;
  cap_stdout_bytes_observed : Z;
}.

(** [serde_json::from_slice::<EngineEvent>]. *)
Class EventParser := parse_event : list ascii -> option EngineEvent.

(** ** Captures *)

(** [EngineEventCapture::cleanup_authorized]. *)
Definition capture_cleanup_authorized (self : EngineEventCapture) : bool :=
  existsb (fun event => match event with FixturePreflight true => true | _ => false end) (cap_events self).

(** [EngineEventCapture::fixture_collision]. *)
Definition capture_fixture_collision (self : EngineEventCapture) : bool :=
  match cap_protocol_failure self, last (cap_events self) with
  | None, Some (FixturePreflight false) => true
  | _, _ => false
  end.

(** [EngineEventCapture::completed]. *)
Definition capture_completed (self : EngineEventCapture) : bool :=
  match cap_protocol_failure self, last (cap_events self) with None, Some Completed => true | _, _ => false end.

Definition engine_failure (self : EngineEventCapture) : option (EngineStage * EngineFailureCategory.t) :=
  match last (cap_events self), cap_protocol_failure self with
  | Some (Failed stage category), None => Some (stage, category)
  | _, _ => None
  end.

(** ** The decoder *)

Record EngineEventDecoder := {
  dec_line : list ascii;
  dec_events : list EngineEvent;
  dec_failure : option EngineProtocolFailureKind.t;
  dec_stdout_bytes_observed : Z;
  dec_next_stage : nat;
  dec_terminal : bool;
}.

Definition new_decoder : EngineEventDecoder := {|
  dec_line := []; dec_events := []; dec_failure := None; dec_stdout_bytes_observed := 0;
  dec_next_stage := 0; dec_terminal := false |}.

Definition with_line (line : list ascii) (d : EngineEventDecoder) : EngineEventDecoder := {|
  dec_line := line; dec_events := dec_events d; dec_failure := dec_failure d;
  dec_stdout_bytes_observed := dec_stdout_bytes_observed d; dec_next_stage := dec_next_stage d;
  dec_terminal := dec_terminal d |}.

(** [EngineEventDecoder::fail]: the first failure is kept. *)
Definition fail (d : EngineEventDecoder) (kind : EngineProtocolFailureKind.t) : EngineEventDecoder :=
  match dec_failure d with
  | None => {| dec_line := dec_line d; dec_events := dec_events d; dec_failure := Some kind;
               dec_stdout_bytes_observed := dec_stdout_bytes_observed d; dec_next_stage := dec_next_stage d;
               dec_terminal := dec_terminal d |}
  | Some _ => d
  end.

Definition push_event (d : EngineEventDecoder) (next_stage : nat) (terminal : bool) (event : EngineEvent)
  : EngineEventDecoder := {|
  dec_line := dec_line d; dec_events := dec_events d ++ [event]; dec_failure := dec_failure d;
  dec_stdout_bytes_observed := dec_stdout_bytes_observed d; dec_next_stage := next_stage;
  dec_terminal := terminal |}.

Definition accept (d : EngineEventDecoder) (event : EngineEvent) : EngineEventDecoder :=
  let next := dec_next_stage d in
  if dec_terminal d then fail d EngineProtocolFailureKind.PostTerminal
  else if (MAXIMUM_ENGINE_EVENTS <=? len (dec_events d))%Z then fail d EngineProtocolFailureKind.TooManyEvents
  else
    match event with
    | Failed stage _ =>
        if negb (bool_decide (ORDER !! next = Some stage)) then fail d EngineProtocolFailureKind.OutOfOrder
        else push_event d next true event
    | Completed =>
        if negb (next =? length ORDER)%nat then fail d EngineProtocolFailureKind.OutOfOrder
        else push_event d next true event
    | FixturePreflight false =>
        if negb (bool_decide (ORDER !! next = Some PreflightFixture)) then fail d EngineProtocolFailureKind.OutOfOrder
        else push_event d (S next) true event
    | _ =>
        if negb (bool_decide (successful_stage event = ORDER !! next)) then fail d EngineProtocolFailureKind.OutOfOrder
        else push_event d (S next) false event
    end.

(** [line.starts_with(ENGINE_EVENT_PREFIX)], with the payload after it. *)
Fixpoint strip_bytes (prefix line : list ascii) : option (list ascii) :=
  match prefix, line with
  | [], _ => Some line
  | a :: prefix, b :: line => if (a =? b)%char then strip_bytes prefix line else None
  | _ :: _, [] => None
  end.

Arguments strip_bytes : simpl never.

Section Decoder.
Context `{EventParser}.

Definition finish_line (d : EngineEventDecoder) : EngineEventDecoder :=
  match dec_failure d, strip_bytes ENGINE_EVENT_PREFIX (dec_line d) with
  | Some _, _ | _, None => d
  | None, Some payload =>
      match parse_event payload with
      | None => fail d EngineProtocolFailureKind.MalformedEvent
      | Some event => accept d event
      end
  end.

(** The loop of [push] over the bytes of a chunk. *)
Fixpoint push_bytes (d : EngineEventDecoder) (bytes : list ascii) : EngineEventDecoder :=
  match bytes with
  | [] => d
  | byte :: bytes =>
      if is_byte 10 byte then push_bytes (with_line [] (finish_line d)) bytes
      else if (len (dec_line d) <? MAXIMUM_ENGINE_EVENT_BYTES)%Z
      then push_bytes (with_line (dec_line d ++ [byte]) d) bytes
      else fail d EngineProtocolFailureKind.EventLineTooLarge
  end.

Definition push (d : EngineEventDecoder) (bytes : list ascii) : EngineEventDecoder :=
  let observed := Z.min u64_max (dec_stdout_bytes_observed d + len bytes) in
  let d := {| dec_line := dec_line d; dec_events := dec_events d; dec_failure := dec_failure d;
              dec_stdout_bytes_observed := observed; dec_next_stage := dec_next_stage d;
              dec_terminal := dec_terminal d |} in
  if (MAXIMUM_ENGINE_STDOUT_BYTES <? observed)%Z then fail d EngineProtocolFailureKind.StdoutTooLarge
  else match dec_failure d with Some _ => d | None => push_bytes d bytes end.

Definition finish_decoder (d : EngineEventDecoder) : EngineEventCapture :=
  let d := match dec_failure d, dec_line d with None, _ :: _ => finish_line d | _, _ => d end in
  let d := match dec_failure d with
           | None => if dec_terminal d then d else fail d EngineProtocolFailureKind.MissingTerminal
           | Some _ => d
           end in
  {| cap_events := dec_events d; cap_protocol_failure := dec_failure d;
     cap_stdout_bytes_observed := dec_stdout_bytes_observed d |}.

(** The capture of a process that wrote these chunks. *)
Definition capture_of (chunks : list (list ascii)) : EngineEventCapture :=
  finish_decoder (foldl push new_decoder chunks).
End Decoder.

(** ** Process outcomes (execution.rs) *)

Definition SUCCESS_EXIT : Z := 0.
Definition FAILURE_EXIT : Z := 2.
Definition FIXTURE_COLLISION_EXIT : Z := 3.

Inductive EngineCredentialKind := ObjectStoreAccessKey | ObjectStoreSecretKey | CatalogClientId | CatalogClientSecret.

Module EngineCredentialFailureKind.
Inductive t := Missing | Empty | Unreadable.
End EngineCredentialFailureKind.

Record EngineCredentialFailure := {
  ecf_credential : EngineCredentialKind;
  ecf_kind : EngineCredentialFailureKind.t;
}.

Inductive EnginePreparationFailureKind :=
| ExecutionPlanMismatch | RenderPlan | TemporaryDirectory | EncodePlan | WritePlan | WriteRenderer
| CreateLocalDirectory.

Module EngineProcessOutcome.
Inductive t :=
| RuntimeRejected
| CredentialRejected (failure : EngineCredentialFailure)
| PreparationFailed (kind : EnginePreparationFailureKind)
| SpawnFailed
| TimedOut
| StdoutFailed
| WaitFailed
| ProtocolRejected (kind : EngineProtocolFailureKind.t)
| ExitProtocolMismatch
| Completed
| FixtureCollision
| EngineFailed (stage : EngineStage) (category : EngineFailureCategory.t).

Definition from_terminal (exit_code : option Z) (capture : EngineEventCapture) : t :=
  match exit_code with
  | Some code =>
      if (code =? SUCCESS_EXIT)%Z && capture_completed capture then Completed
      else if (code =? FIXTURE_COLLISION_EXIT)%Z && capture_fixture_collision capture then FixtureCollision
      else if (code =? FAILURE_EXIT)%Z then
        match engine_failure capture with
        | Some (stage, category) => EngineFailed stage category
        | None => ExitProtocolMismatch
        end
      else ExitProtocolMismatch
  | None => ExitProtocolMismatch
  end.
End EngineProcessOutcome.

Record EngineProcessExecution := {
  pe_runtime : RuntimeVerification;
  pe_outcome : EngineProcessOutcome.t;
  pe_capture : option EngineEventCapture;
  pe_exit_code : option Z;
  pe_process_elapsed_micros : option Z;
}.

Definition before_process (runtime : RuntimeVerification) (outcome : EngineProcessOutcome.t)
  : EngineProcessExecution := {|
  pe_runtime := runtime; pe_outcome := outcome; pe_capture := None; pe_exit_code := None;
  pe_process_elapsed_micros := None |}.

Definition from_in_process_events (runtime : RuntimeVerification) (exit_code : Z) (events : list EngineEvent)
    (process_elapsed_micros : Z) : EngineProcessExecution :=
  let capture := {| cap_events := events; cap_protocol_failure := None; cap_stdout_bytes_observed := 0 |} in
  {| pe_runtime := runtime; pe_outcome := EngineProcessOutcome.from_terminal (Some exit_code) capture;
     pe_capture := Some capture; pe_exit_code := Some exit_code;
     pe_process_elapsed_micros := Some process_elapsed_micros |}.

(** ** In-process runs

    Trino and DuckDB run inside the harness: a run is its exit code and the
    events it reports ([TrinoChildRun], the pair of [run_duckdb_program]). *)

Definition InProcessRun : Type := Z * list EngineEvent.

(** [failed] of trino_child.rs, [duckdb_failed] of adapters.rs. *)
Definition failed_run (events : list EngineEvent) (stage : EngineStage) (category : EngineFailureCategory.t)
  : InProcessRun := (FAILURE_EXIT, (events ++ [Failed stage category])%list).

(** [match effect { Ok(value) => .., Err(_) => return failed(events, stage, category) }].
    [None] is a panic. *)
Definition attempt {W A} (effect : W -> option A * W) (events : list EngineEvent) (stage : EngineStage)
    (category : EngineFailureCategory.t) (next : A -> W -> option (InProcessRun * W)) (w : W)
  : option (InProcessRun * W) :=
  match effect w with
  | (Some value, w) => next value w
  | (None, w) => Some (failed_run events stage category, w)
  end.

(** [EngineProcessExecution::passed]. *)
Definition process_passed (self : EngineProcessExecution) : bool :=
  match pe_outcome self with EngineProcessOutcome.Completed => true | _ => false end
  && bool_decide (pe_exit_code self = Some SUCCESS_EXIT)
  && is_some_and capture_completed (pe_capture self).

(** [EngineProcessExecution::cleanup_authorized]. *)
Definition process_cleanup_authorized (self : EngineProcessExecution) : bool :=
  match pe_outcome self with EngineProcessOutcome.FixtureCollision => false | _ => true end
  && is_some_and capture_cleanup_authorized (pe_capture self).

(** [EngineProcessExecution::fixture_collision]. *)
Definition process_fixture_collision (self : EngineProcessExecution) : bool :=
  match pe_outcome self with EngineProcessOutcome.FixtureCollision => true | _ => false end
  && bool_decide (pe_exit_code self = Some FIXTURE_COLLISION_EXIT)
  && is_some_and capture_fixture_collision (pe_capture self).

(** ** Properties of the event protocol

    Decoding does not depend on how standard output is cut into chunks, accepts
    exactly the closed stage order, and recovers what an adapter printed. *)

(** ** The protocol

    The legal event sequences, the number of stages they passed, and whether they
    are finished. *)
Inductive protocol : list EngineEvent -> nat -> bool -> Prop :=
| protocol_start : protocol [] 0 false
| protocol_stage events n stage event :
    protocol events n false -> ORDER !! n = Some stage -> successful_stage event = Some stage ->
    event <> FixturePreflight false -> protocol (events ++ [event]) (S n) false
| protocol_failed events n stage category :
    protocol events n false -> ORDER !! n = Some stage -> protocol (events ++ [Failed stage category]) n true
| protocol_completed events :
    protocol events (length ORDER) false -> protocol (events ++ [Completed]) (length ORDER) true
| protocol_collision events n :
    protocol events n false -> ORDER !! n = Some PreflightFixture ->
    protocol (events ++ [FixturePreflight false]) (S n) true.

Lemma protocol_length events n t :
  protocol events n t -> (length events <= 12)%nat /\ (t = false -> length events = n /\ (n <= 11)%nat).
Proof.
  induction 1 as [|events n stage event _ [_ IH] Hn|events n stage category _ [_ IH] Hn
                  |events _ [_ IH]|events n _ [_ IH] Hn]; rewrite ?length_app; simpl; [lia|..];
    destruct (IH eq_refl) as [<- Hle]; try (apply lookup_lt_Some in Hn; simpl in Hn); split; try done; lia.
Qed.

(** ** The decoder follows the protocol *)

Definition on_protocol (d : EngineEventDecoder) : Prop :=
  protocol (dec_events d) (dec_next_stage d) (dec_terminal d) /\
  dec_failure d <> Some EngineProtocolFailureKind.TooManyEvents.

Lemma fail_on_protocol d kind :
  kind <> EngineProtocolFailureKind.TooManyEvents -> on_protocol d -> on_protocol (fail d kind).
Proof. unfold on_protocol, fail. intros Hk [Hp Hf]. destruct (dec_failure d) eqn:E; simpl; split; congruence. Qed.

Lemma accept_on_protocol d event : on_protocol d -> on_protocol (accept d event).
Proof.
  intros Hd. pose proof Hd as [Hp Hf]. unfold accept.
  destruct (dec_terminal d) eqn:Ht; [by apply fail_on_protocol|].
  destruct (protocol_length _ _ _ Hp) as [Hlen Hn]. destruct (Hn eq_refl) as [Hnext Hle].
  destruct (Z.leb_spec MAXIMUM_ENGINE_EVENTS (len (dec_events d))) as [Hmax|_];
    [unfold MAXIMUM_ENGINE_EVENTS, len in Hmax; lia|].
  assert (Hstage : forall stage, successful_stage event = Some stage -> event <> FixturePreflight false ->
    on_protocol (if negb (bool_decide (successful_stage event = ORDER !! dec_next_stage d))
                 then fail d EngineProtocolFailureKind.OutOfOrder
                 else push_event d (S (dec_next_stage d)) false event)).
  { intros stage Hs Hne. case_bool_decide as Ho; simpl; [|by apply fail_on_protocol].
    split; [|done]. simpl. eapply protocol_stage; try done. congruence. }
  destruct event as [| |[]| | | | | | | | | |]; try (by eapply Hstage); clear Hstage.
  - case_bool_decide as Ho; simpl; [|by apply fail_on_protocol]. split; [|done]. by apply protocol_collision.
  - destruct (Nat.eqb_spec (dec_next_stage d) (length ORDER)) as [Ho|_]; simpl; [|by apply fail_on_protocol].
    split; [|done]. simpl. rewrite Ho in *. by apply protocol_completed.
  - case_bool_decide as Ho; simpl; [|by apply fail_on_protocol]. split; [|done]. by apply protocol_failed.
Qed.

Section Decoder.
Context `{EventParser}.

Lemma finish_line_on_protocol d : on_protocol d -> on_protocol (finish_line d).
Proof.
  intros Hd. unfold finish_line. destruct (dec_failure d); [done|].
  destruct (strip_bytes _ _) as [payload|]; [|done].
  destruct (parse_event payload); [by apply accept_on_protocol | by apply fail_on_protocol].
Qed.

Lemma push_bytes_on_protocol d bytes : on_protocol d -> on_protocol (push_bytes d bytes).
Proof.
  revert d. induction bytes as [|b bytes IH]; intros d Hd; [done|]. simpl.
  destruct (is_byte 10 b); [by apply IH, finish_line_on_protocol|].
  destruct (_ <? _)%Z; [by apply IH | by apply fail_on_protocol].
Qed.

Lemma push_on_protocol d bytes : on_protocol d -> on_protocol (push d bytes).
Proof.
  intros Hd. unfold push. destruct (_ <? _)%Z; [by apply fail_on_protocol|].
  simpl. destruct (dec_failure d) eqn:E; [unfold on_protocol in *; simpl; by rewrite E in *|].
  apply push_bytes_on_protocol. unfold on_protocol in *. simpl. by rewrite E in *.
Qed.

Lemma pushes_on_protocol d chunks : on_protocol d -> on_protocol (foldl push d chunks).
Proof. revert d. induction chunks as [|c chunks IH]; intros d Hd; [done|]. simpl. by apply IH, push_on_protocol. Qed.

Lemma new_on_protocol : on_protocol new_decoder.
Proof. split; [constructor | done]. Qed.

Lemma finish_on_protocol d :
  on_protocol d ->
  cap_protocol_failure (finish_decoder d) <> Some EngineProtocolFailureKind.TooManyEvents /\
  exists n terminal, protocol (cap_events (finish_decoder d)) n terminal /\
    (cap_protocol_failure (finish_decoder d) = None -> terminal = true).
Proof.
  intros Hd. unfold finish_decoder. simpl.
  assert (Hd' : on_protocol (match dec_failure d, dec_line d with None, _ :: _ => finish_line d | _, _ => d end)).
  { destruct (dec_failure d), (dec_line d); try done. by apply finish_line_on_protocol. }
  generalize dependent (match dec_failure d, dec_line d with None, _ :: _ => finish_line d | _, _ => d end).
  clear d Hd. intros d Hd. pose proof Hd as [Hp Hk]. destruct (dec_failure d) eqn:Hf.
  - simpl; rewrite Hf; split; [congruence|]. exists (dec_next_stage d), (dec_terminal d). split; [done|congruence].
  - destruct (dec_terminal d) eqn:Ht; simpl.
    + split; [congruence|]. by exists (dec_next_stage d), true.
    + unfold fail. rewrite Hf. simpl. split; [done|]. by exists (dec_next_stage d), false.
Qed.

(** C23: whatever an engine writes, what is captured follows the event
    protocol: the events passed the stages in their closed order, at most one
    terminal event ends them, and a capture without a failure is finished: all
    eleven stages and [Completed], a [Failed] at the stage that was due, or a
    preflight that found the fixture present. The event limit is never the reason
    of a failure. *)
Theorem captured_events_follow_the_protocol (chunks : list (list ascii)) :
  let capture := capture_of chunks in
  cap_protocol_failure capture <> Some EngineProtocolFailureKind.TooManyEvents /\
  exists n terminal, protocol (cap_events capture) n terminal /\
    (cap_protocol_failure capture = None -> terminal = true).
Proof. apply finish_on_protocol, pushes_on_protocol, new_on_protocol. Qed.

(** ** Chunks *)

Definition observe (n : Z) (d : EngineEventDecoder) : EngineEventDecoder := {|
  dec_line := dec_line d; dec_events := dec_events d; dec_failure := dec_failure d;
  dec_stdout_bytes_observed := n; dec_next_stage := dec_next_stage d; dec_terminal := dec_terminal d |}.

(** Two decoders that report the same: the current line only matters while no
    failure has been recorded. *)
Definition same_report (d d' : EngineEventDecoder) : Prop :=
  dec_failure d <> None /\ with_line [] d = with_line [] d'.

Lemma fail_observe n d k : fail (observe n d) k = observe n (fail d k).
Proof. unfold fail. simpl. by destruct (dec_failure d). Qed.

Lemma accept_observe n d event : accept (observe n d) event = observe n (accept d event).
Proof.
  unfold accept. cbn [dec_terminal dec_events dec_next_stage observe].
  destruct (dec_terminal d); [apply fail_observe|]. destruct (_ <=? _)%Z; [apply fail_observe|].
  destruct event as [| |[]| | | | | | | | | |]; destruct (negb _); (apply fail_observe || reflexivity).
Qed.

Lemma push_bytes_observe n d bytes : push_bytes (observe n d) bytes = observe n (push_bytes d bytes).
Proof.
  revert d. induction bytes as [|b bytes IH]; intros d; [done|]. simpl.
  assert (Hline : finish_line (observe n d) = observe n (finish_line d)).
  { unfold finish_line. cbn [dec_failure dec_line observe]. destruct (dec_failure d); [done|].
    destruct (strip_bytes _ _) as [payload|]; [|done].
    destruct (parse_event payload); [apply accept_observe | apply fail_observe]. }
  rewrite Hline, fail_observe. destruct (is_byte 10 b); [apply (IH (with_line [] (finish_line d)))|].
  destruct (_ <? _)%Z; [apply (IH (with_line (dec_line d ++ [b]) d))|done].
Qed.

(** After a failure only the line changes. *)
Lemma push_bytes_failed d bytes : dec_failure d <> None -> with_line [] (push_bytes d bytes) = with_line [] d.
Proof.
  revert d. induction bytes as [|b bytes IH]; intros d Hf; [done|]. simpl.
  assert (Hline : finish_line d = d) by (unfold finish_line; by destruct (dec_failure d)).
  rewrite Hline. destruct (is_byte 10 b); [rewrite IH; done|].
  destruct (_ <? _)%Z; [rewrite IH; done|]. unfold fail. by destruct (dec_failure d).
Qed.

Lemma push_bytes_app d a b :
  match dec_failure (push_bytes d a) with
  | None => push_bytes d (a ++ b) = push_bytes (push_bytes d a) b
  | Some _ => with_line [] (push_bytes d (a ++ b)) = with_line [] (push_bytes d a)
  end.
Proof.
  revert d. induction a as [|c a IH]; intros d; simpl.
  - destruct (dec_failure d) eqn:Hf; [|done]. apply push_bytes_failed. congruence.
  - destruct (is_byte 10 c); [apply IH|]. destruct (_ <? _)%Z; [apply IH|].
    unfold fail. destruct (dec_failure d) eqn:Hf; simpl; by rewrite ?Hf.
Qed.

Lemma push_chunks chunks :
  (len (concat chunks) <= MAXIMUM_ENGINE_STDOUT_BYTES)%Z ->
  let all := observe (len (concat chunks)) (push_bytes new_decoder (concat chunks)) in
  foldl push new_decoder chunks = all \/ same_report (foldl push new_decoder chunks) all.
Proof.
  induction chunks as [|c chunks IH] using rev_ind; intros Hlen; [by left|].
  rewrite concat_app in *. cbn [concat] in *. rewrite app_nil_r, len_app in *. rewrite foldl_app. cbn [foldl].
  pose proof (len_nonneg c). pose proof (len_nonneg (concat chunks)).
  pose proof (push_bytes_app new_decoder (concat chunks) c) as Happ.
  assert (Hpush : forall d, dec_stdout_bytes_observed d = len (concat chunks) ->
    push d c = let d := observe (len (concat chunks) + len c) d in
               match dec_failure d with Some _ => d | None => push_bytes d c end).
  { intros d Hd. unfold push, observe. rewrite Hd. unfold MAXIMUM_ENGINE_STDOUT_BYTES, u64_max in *.
    rewrite Z.min_r by lia. destruct (Z.ltb_spec (1024 * 1024) (len (concat chunks) + len c)); [lia|done]. }
  destruct (IH ltac:(lia)) as [Heq|[Hf Heq]].
  - rewrite Heq, Hpush by done. simpl.
    destruct (dec_failure (push_bytes new_decoder (concat chunks))) as [k|] eqn:Hfail.
    + right. split; [simpl; congruence|]. unfold observe, with_line in *. simpl in *. congruence.
    + left. rewrite Happ, <-(push_bytes_observe _ (push_bytes new_decoder (concat chunks))). done.
  - assert (Hobs : dec_stdout_bytes_observed (foldl push new_decoder chunks) = len (concat chunks))
      by (by apply (f_equal dec_stdout_bytes_observed) in Heq).
    rewrite Hpush by done. simpl.
    assert (Hfail : dec_failure (foldl push new_decoder chunks) = dec_failure (push_bytes new_decoder (concat chunks)))
      by (by apply (f_equal dec_failure) in Heq).
    destruct (dec_failure (foldl push new_decoder chunks)) as [k|] eqn:Hk; [|done].
    rewrite <-Hfail in Happ. right. split; [simpl; congruence|].
    unfold observe, with_line in *. simpl in *. congruence.
Qed.

Lemma finish_same_report d d' : same_report d d' -> finish_decoder d = finish_decoder d'.
Proof.
  intros [Hf Heq]. unfold with_line in Heq. injection Heq as He Hfail Ho Hn Ht.
  destruct d as [l e f o n t], d' as [l' e' f' o' n' t']; simpl in *; subst.
  destruct f' as [k|]; [reflexivity | done].
Qed.

(** What is captured does not depend on how the output arrived: as
    long as it stays within the limit of standard output, reading it in any chunks
    gives the capture of reading it at once. *)
Theorem capture_ignores_chunks (chunks : list (list ascii)) :
  (len (concat chunks) <= MAXIMUM_ENGINE_STDOUT_BYTES)%Z -> capture_of chunks = capture_of [concat chunks].
Proof.
  intros Hlen.
  assert (Hone : forall cs, concat cs = concat chunks ->
    capture_of cs = finish_decoder (observe (len (concat chunks)) (push_bytes new_decoder (concat chunks)))).
  { intros cs Hcs. unfold capture_of. pose proof (push_chunks cs) as Hp. rewrite Hcs in Hp.
    destruct (Hp Hlen) as [->|Hs]; [done | by apply finish_same_report]. }
  rewrite (Hone chunks), (Hone [concat chunks]); [done | simpl; by rewrite app_nil_r | done].
Qed.
End Decoder.

(** ** Printed events *)

(** An adapter's encoder: one line per event, which the parser reads back. *)
Class EventPrinter `{EventParser} := {
  print_event : EngineEvent -> list ascii;
  print_parses : forall event, parse_event (print_event event) = Some event;
  print_one_line : forall event, existsb (is_byte 10) (print_event event) = false;
}.

(** A line of standard output: something else an engine logs, or an event. *)
Inductive output_line := Noise (text : list ascii) | Event (event : EngineEvent).

Open Scope list_scope.

Section Printer.
Context `{EventPrinter}.

Definition line_text (line : output_line) : list ascii :=
  match line with Noise text => text | Event event => ENGINE_EVENT_PREFIX ++ print_event event end.

(** A complete line within the limit; other lines do not start like an event. *)
Definition fits (line : output_line) : Prop :=
  (len (line_text line) <= MAXIMUM_ENGINE_EVENT_BYTES)%Z /\ existsb (is_byte 10) (line_text line) = false /\
  match line with Noise text => strip_bytes ENGINE_EVENT_PREFIX text = None | Event _ => True end.

Definition stream (lines : list output_line) : list ascii :=
  concat ((fun line => line_text line ++ [ascii_of_N 10]) <$> lines).

Definition events_of (lines : list output_line) : list EngineEvent :=
  omap (fun line => match line with Event event => Some event | Noise _ => None end) lines.

Definition read_line (d : EngineEventDecoder) (line : output_line) : EngineEventDecoder :=
  with_line [] (finish_line (with_line (line_text line) d)).

Lemma strip_bytes_app p s : strip_bytes p (p ++ s) = Some s.
Proof. unfold strip_bytes. induction p as [|a p IH]; [by destruct s|]. simpl. by rewrite Ascii.eqb_refl. Qed.

Lemma push_text d text rest :
  existsb (is_byte 10) text = false -> (len (dec_line d ++ text) <= MAXIMUM_ENGINE_EVENT_BYTES)%Z ->
  push_bytes d (text ++ rest) = push_bytes (with_line (dec_line d ++ text) d) rest.
Proof.
  revert d. induction text as [|a text IH]; intros d Hnl Hlen.
  - rewrite app_nil_r. by destruct d.
  - simpl in Hnl. apply orb_false_iff in Hnl as [Ha Hnl]. cbn [app push_bytes]. rewrite Ha.
    rewrite len_app, len_cons in Hlen. pose proof (len_nonneg text).
    destruct (Z.ltb_spec (len (dec_line d)) MAXIMUM_ENGINE_EVENT_BYTES); [|lia].
    rewrite IH; [|done|simpl; rewrite !len_app, len_cons, len_nil; lia].
    cbn [with_line dec_line]. by rewrite <-app_assoc.
Qed.

Lemma push_stream d lines :
  dec_line d = [] -> Forall fits lines -> push_bytes d (stream lines) = foldl read_line d lines.
Proof.
  intros Hd Hfits. revert d Hd. induction Hfits as [|line lines (Hlen & Hnl & _) _ IH]; intros d Hd; [done|].
  unfold stream. rewrite fmap_cons. cbn [concat]. rewrite <-app_assoc.
  rewrite push_text by (rewrite ?Hd; done). rewrite Hd. cbn [app foldl]. by apply IH.
Qed.

(** Reading the lines of a legal sequence accepts every event. *)
Lemma read_lines_accept lines n t :
  Forall fits lines -> protocol (events_of lines) n t ->
  foldl read_line new_decoder lines = {|
    dec_line := []; dec_events := events_of lines; dec_failure := None; dec_stdout_bytes_observed := 0;
    dec_next_stage := n; dec_terminal := t |}.
Proof.
  revert n t. induction lines as [|line lines IH] using rev_ind; intros n t Hfits Hp.
  { simpl in Hp. inversion Hp; try (by destruct events). done. }
  apply Forall_app in Hfits as [Hfits [(_ & _ & Hline) _]%Forall_cons].
  rewrite foldl_app. cbn [foldl]. unfold events_of in *. rewrite omap_app in *. destruct line as [text|event]; simpl in *.
  { rewrite app_nil_r in *. erewrite IH by done. unfold read_line, finish_line. cbn [with_line dec_failure dec_line line_text].
    by rewrite Hline. }
  assert (Haccept : forall es n', protocol es n' false -> es = omap (fun line => match line with Event event => Some event
      | Noise _ => None end) lines -> read_line (foldl read_line new_decoder lines) (Event event)
    = with_line [] (accept {| dec_line := line_text (Event event); dec_events := es; dec_failure := None;
        dec_stdout_bytes_observed := 0; dec_next_stage := n'; dec_terminal := false |} event)).
  { intros es n' Hes ->. rewrite (IH n' false) by done. unfold read_line, finish_line.
    cbn [with_line dec_failure dec_line line_text]. by rewrite strip_bytes_app, print_parses. }
  inversion Hp as [Hnil|es n' stage e Hes Hn Hs Hne Heq|es n' stage c Hes Hn Heq|es Hes Heq|es n' Hes Hn Heq]; subst;
    try (by destruct (omap _ lines)); apply app_inj_tail in Heq as [-> <-]; rewrite (Haccept _ _ Hes eq_refl);
    destruct (protocol_length _ _ _ Hes) as [Hmax _]; unfold accept; cbn [dec_terminal dec_events dec_next_stage];
    (destruct (Z.leb_spec MAXIMUM_ENGINE_EVENTS (len (omap (fun line => match line with Event event => Some event
      | Noise _ => None end) lines))) as [Hbad|_]; [unfold MAXIMUM_ENGINE_EVENTS, len in Hbad; lia|]).
  - destruct e as [| |[]| | | | | | | | | |]; try done; rewrite bool_decide_eq_true_2 by congruence; done.
  - rewrite bool_decide_eq_true_2 by done. done.
  - done.
  - rewrite bool_decide_eq_true_2 by done. done.
Qed.

(** C24: what an adapter prints is what is captured: the events of a
    finished legal run, each on its own line among any other output, are read back
    without a failure, however the output is cut into chunks, as long as every line
    and the whole stay within their limits. *)
Theorem printed_events_are_captured (lines : list output_line) (chunks : list (list ascii)) n :
  concat chunks = stream lines -> Forall fits lines -> protocol (events_of lines) n true ->
  (len (stream lines) <= MAXIMUM_ENGINE_STDOUT_BYTES)%Z ->
  capture_of chunks = {| cap_events := events_of lines; cap_protocol_failure := None;
                         cap_stdout_bytes_observed := len (stream lines) |}.
Proof.
  intros Hchunks Hfits Hp Hlen. unfold capture_of. pose proof (push_chunks chunks) as Hpush.
  rewrite Hchunks, push_stream, (read_lines_accept _ _ _ Hfits Hp) in Hpush by done.
  destruct (Hpush Hlen) as [->|[Hf Heq]]; [done|].
  apply (f_equal dec_failure) in Heq. simpl in Heq. done.
Qed.
End Printer.
