(* ===== verification/EngineCatalog.v ===== *)
(** * The catalog side of an engine run (crates/engine/src/{catalog,negotiation}.rs)

    After an engine process ended, the harness itself loads the fixture's table
    and cleans the fixture up through the public REST interface. The trait
    [EngineCatalog] is a class, the REST implementation an instance. Decoding a
    load-table response is derived code; the uuid crate is the class
    [UuidParser]. *)

From S2P Require Import Prelude Order RustStr Json ContractValue ContractAdapter ContractResult Transport Capture.
From S2P Require Import Routing Connection Store EngineParameters EngineRuntime EngineEvents.
From Stdlib Require Import Ascii.
Open Scope string_scope.

(** ** Negotiation evidence (negotiation.rs) *)

Module EngineAuthenticationMode.
Inductive t := Anonymous | OAuth2ClientCredentials.
End EngineAuthenticationMode.

Record EngineAuthenticationEvidence := {
  ea_mode : EngineAuthenticationMode.t;
  ea_outcome : AuthenticationOutcome.t;
  ea_http_status : option Z;
}.

Module EngineRoutingResolution.
Inductive t := Unprefixed | Static | Negotiated | Default | Configured | Failed | NotEvaluated.
End EngineRoutingResolution.

Record EngineCatalogConfigEvidence := {
  ec_http_status : option Z;
  ec_response_bytes : option Z;
  ec_prefix : EngineRoutingResolution.t;
  ec_namespace_separator : EngineRoutingResolution.t;
  ec_failure_stage : option ProbeFailureStage.t;
}.

Record EngineCatalogNegotiationEvidence := {
  en_adapter : TranscriptAdapter;
  en_authentication : EngineAuthenticationEvidence;
  en_config : EngineCatalogConfigEvidence;
  en_redactions_observed : Z;
}.

Inductive EngineNegotiationProjectionFailure := ProjectionFailure.

Definition prefix_resolution (resolution : PrefixResolution.t) : EngineRoutingResolution.t :=
  match resolution with
  | PrefixResolution.Unprefixed => EngineRoutingResolution.Unprefixed
  | PrefixResolution.Static _ => EngineRoutingResolution.Static
  | PrefixResolution.Negotiated _ _ => EngineRoutingResolution.Negotiated
  | PrefixResolution.Failed _ => EngineRoutingResolution.Failed
  | PrefixResolution.NotEvaluated _ => EngineRoutingResolution.NotEvaluated
  end.

Definition namespace_separator_resolution (resolution : NamespaceSeparatorResolution.t) : EngineRoutingResolution.t :=
  match resolution with
  | NamespaceSeparatorResolution.Default _ => EngineRoutingResolution.Default
  | NamespaceSeparatorResolution.Configured _ _ => EngineRoutingResolution.Configured
  | NamespaceSeparatorResolution.Failed _ => EngineRoutingResolution.Failed
  | NamespaceSeparatorResolution.NotEvaluated _ => EngineRoutingResolution.NotEvaluated
  end.

(** [TryFrom<CatalogNegotiationEvidence>]. *)
Definition project_negotiation (evidence : CatalogNegotiationEvidence)
  : result EngineCatalogNegotiationEvidence EngineNegotiationProjectionFailure :=
  let authentication := ne_authentication evidence in
  let? mode :=
    if au_mode authentication =? "anonymous" then Ok EngineAuthenticationMode.Anonymous
    else if au_mode authentication =? "oauth2-client-credentials"
    then Ok EngineAuthenticationMode.OAuth2ClientCredentials
    else Err ProjectionFailure in
  let? redactions_observed := ok_or (try_from u64_max (len (ne_redactions evidence))) ProjectionFailure in
  let config := ne_config evidence in
  Ok {| en_adapter := ne_adapter evidence;
        en_authentication := {| ea_mode := mode; ea_outcome := au_outcome authentication;
                                ea_http_status := au_http_status authentication |};
        en_config := {|
          ec_http_status := rs_status <$> rct_response config;
          ec_response_bytes := rs_body_bytes_observed <$> rct_response config;
          ec_prefix := prefix_resolution (rct_prefix config);
          ec_namespace_separator := namespace_separator_resolution (rct_namespace_separator config);
          ec_failure_stage := pf_stage <$> rct_failure config |};
        en_redactions_observed := redactions_observed |}.

(** ** Failures and observations *)

Module EngineCatalogFailureKind.
Inductive t :=
| Route | Timeout | Transport | ResponseRead | ResponseTooLarge | UnexpectedHttp | MalformedResponse | Harness.
End EngineCatalogFailureKind.

Record EngineCatalogFailure := {
  ecat_kind : EngineCatalogFailureKind.t;
  ecat_http_status : option Z;
}.

(** [EngineCatalogFailure::route], [unexpected_http] and [malformed]. *)
Definition route_failure : EngineCatalogFailure := {|
  ecat_kind := EngineCatalogFailureKind.Route; ecat_http_status := None |}.
Definition engine_unexpected_http (http_status : Z) : EngineCatalogFailure := {|
  ecat_kind := EngineCatalogFailureKind.UnexpectedHttp; ecat_http_status := Some http_status |}.
Definition malformed (http_status : Z) : EngineCatalogFailure := {|
  ecat_kind := EngineCatalogFailureKind.MalformedResponse; ecat_http_status := Some http_status |}.

(** [From<CatalogRequestFailure>]. *)
Definition engine_request_failure (failure : CatalogRequestFailure) : EngineCatalogFailure := {|
  ecat_kind := match rf_kind failure with
    | CatalogRequestFailureKind.Timeout => EngineCatalogFailureKind.Timeout
    | CatalogRequestFailureKind.Transport => EngineCatalogFailureKind.Transport
    | CatalogRequestFailureKind.ResponseRead => EngineCatalogFailureKind.ResponseRead
    | CatalogRequestFailureKind.ResponseTooLarge => EngineCatalogFailureKind.ResponseTooLarge
    | CatalogRequestFailureKind.BodyNotRetained => EngineCatalogFailureKind.Harness
    | CatalogRequestFailureKind.MalformedJson => EngineCatalogFailureKind.MalformedResponse
    end;
  ecat_http_status := rf_http_status failure |}.

Record EngineCatalogTable := { ect_current_schema_id : Z; ect_table : EngineTableObservation }.

Module EngineTableLoad.
Inductive t :=
| Present (http_status response_bytes : Z) (state : EngineCatalogTable)
| Absent (http_status response_bytes : Z).
End EngineTableLoad.

Record EngineCleanupReceipt := {
  cleanup_http_status : Z;
  cleanup_response_bytes : Z;
  cleanup_already_absent : bool;
}.

Module EngineResourcePresence.
Inductive t := Present (http_status response_bytes : Z) | Absent (http_status response_bytes : Z).
Definition is_absent (self : t) : bool := match self with Absent _ _ => true | Present _ _ => false end.
End EngineResourcePresence.

(** [EngineCatalog]. *)
Class EngineCatalog (C W : Type) := {
  engine_load_table : C -> W -> result EngineTableLoad.t EngineCatalogFailure * W;
  engine_drop_table_without_purge : C -> W -> result EngineCleanupReceipt EngineCatalogFailure * W;
  engine_drop_namespace : C -> W -> result EngineCleanupReceipt EngineCatalogFailure * W;
  engine_table_presence : C -> W -> result EngineResourcePresence.t EngineCatalogFailure * W;
  engine_namespace_presence : C -> W -> result EngineResourcePresence.t EngineCatalogFailure * W;
}.

(** ** Responses *)

Record RestField := { rf_id : Z; rf_name : string; rf_required : bool; rf_field_type : Value }.
Record RestSchema := { rs_schema_id : Z; rs_schema_type : string; rs_fields : list RestField }.
Record RestSnapshot := { rs_snapshot_id : Z }.
Record RestTableMetadata := {
  rtm_format_version : Z;
  rtm_table_uuid : string;
  rtm_location : string;
  rtm_last_column_id : Z;
  rtm_schemas : list RestSchema;
  rtm_current_schema_id : Z;
  rtm_snapshots : list RestSnapshot;
  rtm_properties : gmap string string;
}.
Record LoadTableResponse := {
  ltresp_metadata_location : option string;
  ltresp_metadata : RestTableMetadata;
}.

(** Derived decoding of a load-table response. *)
Class LoadTableResponseDecoder := decode_load_table_response : list ascii -> result LoadTableResponse string.

(** [Uuid]: [parse_str] to its 128-bit value, and the hyphenated [Display]. *)
Class UuidParser := { uuid_parse : string -> option Z; uuid_display : Z -> string }.

(** ** The projection of a table *)

Record TableProjection := {
  tproj_bucket : string;
  tproj_allowed_fields : gset string;
  tproj_expected_properties : gmap string string;
}.

(** [TableProjection::from_plan]. *)
Definition projection_from_plan (plan : InteroperabilityPlan) : TableProjection :=
  let scenario := plan_scenario plan in
  {| tproj_bucket := osp_bucket (plan_object_store plan);
     tproj_allowed_fields := {[ ef_name (se_field (sp_schema_evolution scenario)) ]}
       ∪ list_to_set (if_name <$> is_fields (tp_schema (sp_table scenario)));
     tproj_expected_properties := tp_properties (sp_table scenario) |}.

(** [iter().max()]. *)
Definition maximum (values : list Z) : option Z :=
  match values with [] => None | v :: values => Some (foldl Z.max v values) end.

Definition catalog_valid_identifier (value : string) : bool :=
  negb (is_empty value) && all_bytes (fun byte => is_ascii_alphanumeric byte || is_byte 95 byte) value.

Definition primitive_type (field_type : Value) : option IcebergPrimitiveType :=
  match field_type with
  | Str text => if text =? "long" then Some Long else if text =? "string" then Some IcebergString else None
  | _ => None
  end.

(** One turn of the loop over the fields of the current schema. *)
Definition project_field (allowed : gset string) (http_status : Z)
    (state : gset Z * gset string * list EngineFieldObservation) (field : RestField)
  : result (gset Z * gset string * list EngineFieldObservation) EngineCatalogFailure :=
  let '(ids, names, fields) := state in
  guard (rf_id field <=? 0)%Z || negb (catalog_valid_identifier (rf_name field))
        || negb (bool_decide (rf_name field ∈ allowed)) || bool_decide (rf_id field ∈ ids)
        || bool_decide (rf_name field ∈ names)
    or malformed http_status in
  let? field_type := ok_or (primitive_type (rf_field_type field)) (malformed http_status) in
  Ok ({[ rf_id field ]} ∪ ids, {[ rf_name field ]} ∪ names,
      (fields ++ [{| fo_id := rf_id field; fo_name := rf_name field; fo_required := rf_required field;
                     fo_field_type := field_type |}])%list).

(** [Match] or [Mismatch] for every expected property the table has. *)
Definition project_properties (expected observed : gmap string string) : gmap string EnginePropertyObservation.t :=
  map_imap (fun key expected => (fun observed : string =>
    if observed =? expected then EnginePropertyObservation.Match else EnginePropertyObservation.Mismatch)
    <$> (observed !! key)) expected.

Section Projection.
Context `{UrlParser, ObjectPaths, UuidParser}.

(** [TableProjection::project]. *)
Definition project (self : TableProjection) (response : LoadTableResponse) (http_status : Z)
  : result EngineCatalogTable EngineCatalogFailure :=
  let? metadata_location := ok_or (match ltresp_metadata_location response with
                                   | Some location => if is_empty location then None else Some location
                                   | None => None
                                   end) (malformed http_status) in
  let metadata := ltresp_metadata response in
  let? table_uuid := ok_or (uuid_parse (rtm_table_uuid metadata)) (malformed http_status) in
  guard (table_uuid =? 0)%Z || negb (rtm_format_version metadata =? 2)%Z
        || (rtm_last_column_id metadata <=? 0)%Z || (rtm_current_schema_id metadata <? 0)%Z
    or malformed http_status in
  check? map_err (fun _ => malformed http_status)
    (TableRoot_new (rtm_location metadata) metadata_location (tproj_bucket self)) in
  let schema_ids := rs_schema_id <$> rtm_schemas metadata in
  guard negb (all_distinct schema_ids) || existsb (fun schema_id => schema_id <? 0)%Z schema_ids
        || negb (bool_decide (maximum (rf_id <$> (rtm_schemas metadata ≫= rs_fields)) = Some (rtm_last_column_id metadata)))
    or malformed http_status in
  let? current :=
    match List.filter (fun schema => rs_schema_id schema =? rtm_current_schema_id metadata)%Z (rtm_schemas metadata) with
    | [current] => Ok current
    | _ => Err (malformed http_status)
    end in
  guard negb (rs_schema_type current =? "struct") || match rs_fields current with [] => true | _ => false end
    or malformed http_status in
  let? projected := try_fold (project_field (tproj_allowed_fields self) http_status) (∅, ∅, []) (rs_fields current) in
  guard negb (all_distinct (rs_snapshot_id <$> rtm_snapshots metadata)) or malformed http_status in
  let? snapshots := ok_or (try_from u64_max (len (rtm_snapshots metadata))) (malformed http_status) in
  Ok {| ect_current_schema_id := rtm_current_schema_id metadata;
        ect_table := {|
          to_table_uuid := uuid_display table_uuid; to_metadata_location := metadata_location;
          to_location := rtm_location metadata; to_format_version := rtm_format_version metadata;
          to_last_column_id := rtm_last_column_id metadata; to_schema := projected.2; to_snapshots := snapshots;
          to_properties := project_properties (tproj_expected_properties self) (rtm_properties metadata) |} |}.
End Projection.

(** ** The REST catalog *)

Record RestEngineCatalog := {
  rec_session : CatalogSession;
  rec_namespace : string;
  rec_table : string;
  rec_table_url : Url;
  rec_drop_table_url : Url;
  rec_namespace_url : Url;
  rec_projection : TableProjection;
}.

Section Rest.
Context `{UrlParser, UrlOps, ObjectPaths, UuidParser, LoadTableResponseDecoder} {W : Type} `{HttpClient W}.

(** [RestEngineCatalog::from_plan]; [query_pairs_mut().append_pair] is [url_append_pair]. *)
Definition engine_catalog_from_plan (session : CatalogSession) (plan : InteroperabilityPlan)
  : result RestEngineCatalog EngineCatalogFailure :=
  let fixture := plan_fixture plan in
  let routes := session_routes session in
  let? namespace := map_err (fun _ => route_failure) (namespace_single (fixture_namespace fixture)) in
  let? table_url := map_err (fun _ => route_failure) (table_route routes namespace (fixture_table fixture)) in
  let drop_table_url := url_append_pair table_url "purgeRequested" "false" in
  let? namespace_url := map_err (fun _ => route_failure) (namespace_route routes namespace) in
  Ok {| rec_session := session; rec_namespace := fixture_namespace fixture; rec_table := fixture_table fixture;
        rec_table_url := table_url; rec_drop_table_url := drop_table_url; rec_namespace_url := namespace_url;
        rec_projection := projection_from_plan plan |}.

Definition cleanup (self : RestEngineCatalog) (url : Url) (w : W) : result EngineCleanupReceipt EngineCatalogFailure * W :=
  let '(response, w) := request_json (rec_session self) DELETE url None Discard w in
  (let? response := map_err engine_request_failure response in
   guard negb (existsb (Z.eqb (cr_status response)) [204; 404]%Z) or engine_unexpected_http (cr_status response) in
   Ok {| cleanup_http_status := cr_status response; cleanup_response_bytes := cr_body_bytes response;
         cleanup_already_absent := (cr_status response =? 404)%Z |}, w).

Definition presence (self : RestEngineCatalog) (url : Url) (w : W)
  : result EngineResourcePresence.t EngineCatalogFailure * W :=
  let '(response, w) := request_json (rec_session self) GET url None Discard w in
  (let? response := map_err engine_request_failure response in
   if (cr_status response =? 200)%Z then
     Ok (EngineResourcePresence.Present (cr_status response) (cr_body_bytes response))
   else if (cr_status response =? 404)%Z then
     Ok (EngineResourcePresence.Absent (cr_status response) (cr_body_bytes response))
   else Err (engine_unexpected_http (cr_status response)), w).

Definition load_table (self : RestEngineCatalog) (w : W) : result EngineTableLoad.t EngineCatalogFailure * W :=
  let '(response, w) := request_json (rec_session self) GET (rec_table_url self) None CaptureJson w in
  (let? response := map_err engine_request_failure response in
   if (cr_status response =? 404)%Z then
     Ok (EngineTableLoad.Absent (cr_status response) (cr_body_bytes response))
   else if (cr_status response =? 200)%Z then
     let? decoded := map_err engine_request_failure (response_json decode_load_table_response response) in
     let? state := project (rec_projection self) decoded (cr_status response) in
     Ok (EngineTableLoad.Present (cr_status response) (cr_body_bytes response) state)
   else Err (engine_unexpected_http (cr_status response)), w).

#[export] Instance RestEngineCatalog_engine : EngineCatalog RestEngineCatalog W := {
  engine_load_table := load_table;
  engine_drop_table_without_purge self := cleanup self (rec_drop_table_url self);
  engine_drop_namespace self := cleanup self (rec_namespace_url self);
  engine_table_presence self := presence self (rec_table_url self);
  engine_namespace_presence self := presence self (rec_namespace_url self);
}.
End Rest.
