(* ===== verification/EngineWorkflow.v ===== *)
(** * The engine workflow (crates/engine/src/{workflow,reconcile}.rs)

    [run_engine_workflow] runs a stock engine, then loads the table it left,
    audits its objects, cleans the fixture up and judges everything it observed
    against the plan. The engine runner, the catalog connector and the object
    store are the traits of the source, as classes. *)

From S2P Require Import Prelude Order RustStr Json ContractValue ContractAdapter ContractResult Transport Capture.
From S2P Require Import ProbeTrace Store EngineParameters EngineRuntime EngineEvents EngineCatalog.
Open Scope string_scope.

(** ** Evidence *)

Inductive EngineSkipReason := ProcessDidNotOwnFixture | FixtureCollision | CatalogUnavailable | TableUnavailable.

Inductive EngineOperationFailure :=
| CatalogOperation (failure : EngineCatalogFailure)
| ObjectStoreOperation (kind : ObjectStoreFailureKind).

Inductive EngineOperationEvidence (T : Type) :=
| Succeeded (output : T)
| OperationFailed (failure : EngineOperationFailure)
| Skipped (reason : EngineSkipReason).
Arguments Succeeded {T} output.
Arguments OperationFailed {T} failure.
Arguments Skipped {T} reason.

Definition object_store_failure {T} (failure : ObjectStoreFailure) : EngineOperationEvidence T :=
  OperationFailed (ObjectStoreOperation (of_kind failure)).

(** [EngineOperationEvidence::output] and [passed]. *)
Definition evidence_output {T} (self : EngineOperationEvidence T) : option T :=
  match self with Succeeded output => Some output | OperationFailed _ | Skipped _ => None end.
Definition evidence_passed {T} (self : EngineOperationEvidence T) : bool :=
  match self with Succeeded _ => true | OperationFailed _ | Skipped _ => false end.

Module EngineCatalogConnectionFailureKind.
Inductive t := Setup | Authentication | Config | Routing | FixtureRoute.
End EngineCatalogConnectionFailureKind.

Record EngineCatalogConnectionFailure := { ecc_kind : EngineCatalogConnectionFailureKind.t }.

Inductive EngineCatalogConnection (C : Type) :=
| ConnectionReady (negotiation : EngineCatalogNegotiationEvidence) (catalog : C)
| ConnectionRefused (negotiation : option EngineCatalogNegotiationEvidence)
    (failure : EngineCatalogConnectionFailure).
Arguments ConnectionReady {C} negotiation catalog.
Arguments ConnectionRefused {C} negotiation failure.

(** [EngineRunner], [EngineCatalogConnector], [EngineObjectStoreConnector], [TableObjectStore]. *)
Class EngineRunner (R W : Type) := execute : R -> InteroperabilityPlan -> W -> EngineProcessExecution * W.
Class EngineCatalogConnector (N C W : Type) :=
  connect : N -> InteroperabilityPlan -> W -> EngineCatalogConnection C * W.
Class EngineObjectStoreConnector (O S W : Type) :=
  connect_object_store : O -> InteroperabilityPlan -> W -> result S ObjectStoreFailure * W.
Class TableObjectStore (S W : Type) :=
  store_audit_table : S -> TableRoot -> string -> W -> result TableObjectAuditSnapshot ObjectStoreFailure * W.

Module EngineCatalogConnectionEvidence.
Inductive t :=
| NotAttempted (reason : EngineSkipReason)
| Ready (negotiation : EngineCatalogNegotiationEvidence)
| Failed (negotiation : option EngineCatalogNegotiationEvidence) (failure : EngineCatalogConnectionFailure).
End EngineCatalogConnectionEvidence.

Record EngineCleanupEvidence := {
  cl_drop_table_without_purge : EngineOperationEvidence EngineCleanupReceipt;
  cl_verify_table_absent : EngineOperationEvidence EngineResourcePresence.t;
  cl_drop_namespace : EngineOperationEvidence EngineCleanupReceipt;
  cl_verify_namespace_absent : EngineOperationEvidence EngineResourcePresence.t;
}.

Definition cleanup_skipped (reason : EngineSkipReason) : EngineCleanupEvidence := {|
  cl_drop_table_without_purge := Skipped reason; cl_verify_table_absent := Skipped reason;
  cl_drop_namespace := Skipped reason; cl_verify_namespace_absent := Skipped reason |}.

(** [EngineCleanupEvidence::passed]. *)
Definition cleanup_passed (self : EngineCleanupEvidence) : bool :=
  evidence_passed (cl_drop_table_without_purge self)
  && is_some_and EngineResourcePresence.is_absent (evidence_output (cl_verify_table_absent self))
  && evidence_passed (cl_drop_namespace self)
  && is_some_and EngineResourcePresence.is_absent (evidence_output (cl_verify_namespace_absent self)).

Module EngineBehaviorClassification.
Inductive t := Pass | Fail | FixtureCollision.
#[global] Instance eq_dec : EqDecision t.
Proof. solve_decision. Defined.
End EngineBehaviorClassification.

Record EngineBehaviorChecks := {
  ck_engine_runtime_pinned : bool;
  ck_stock_rest_catalog_ready : bool;
  ck_fixture_isolated : bool;
  ck_namespace_round_trip : bool;
  ck_table_round_trip : bool;
  ck_initial_append_committed : bool;
  ck_initial_read_exact : bool;
  ck_schema_evolved : bool;
  ck_evolved_append_committed : bool;
  ck_evolved_read_exact : bool;
  ck_catalog_state_correlated : bool;
  ck_shared_object_evidence_complete : bool;
  ck_fixture_clean : bool;
}.

#[export] Instance EngineBehaviorChecks_eq_dec : EqDecision EngineBehaviorChecks.
Proof. solve_decision. Defined.

(** [Default]. *)
Definition no_checks : EngineBehaviorChecks := {|
  ck_engine_runtime_pinned := false; ck_stock_rest_catalog_ready := false; ck_fixture_isolated := false;
  ck_namespace_round_trip := false; ck_table_round_trip := false; ck_initial_append_committed := false;
  ck_initial_read_exact := false; ck_schema_evolved := false; ck_evolved_append_committed := false;
  ck_evolved_read_exact := false; ck_catalog_state_correlated := false;
  ck_shared_object_evidence_complete := false; ck_fixture_clean := false |}.

(** [EngineBehaviorChecks::all_passed]. *)
Definition checks_all_passed (self : EngineBehaviorChecks) : bool :=
  ck_engine_runtime_pinned self && ck_stock_rest_catalog_ready self && ck_fixture_isolated self
  && ck_namespace_round_trip self && ck_table_round_trip self && ck_initial_append_committed self
  && ck_initial_read_exact self && ck_schema_evolved self && ck_evolved_append_committed self
  && ck_evolved_read_exact self && ck_catalog_state_correlated self
  && ck_shared_object_evidence_complete self && ck_fixture_clean self.

Record EngineExecution := {
  ex_process : EngineProcessExecution;
  ex_catalog_connection : EngineCatalogConnectionEvidence.t;
  ex_catalog_state : EngineOperationEvidence EngineTableLoad.t;
  ex_object_state : EngineOperationEvidence TableObjectAuditSnapshot;
  ex_cleanup : EngineCleanupEvidence;
  ex_checks : EngineBehaviorChecks;
  ex_classification : EngineBehaviorClassification.t;
}.

(** ** Reconciliation (reconcile.rs) *)

Record EventObservations := {
  eo_runtime : option EngineRuntimeObservation;
  eo_catalog_ready : bool;
  eo_fixture_absent : bool;
  eo_namespace_listed_exactly : bool;
  eo_table_ready : option EngineTableObservation;
  eo_initial_snapshots : option Z;
  eo_initial_read : option RowReadObservation;
  eo_schema_evolved : option EngineTableObservation;
  eo_evolved_snapshots : option Z;
  eo_evolved_read : option RowReadObservation;
  eo_final_table : option EngineTableObservation;
}.

Definition no_observations : EventObservations := {|
  eo_runtime := None; eo_catalog_ready := false; eo_fixture_absent := false;
  eo_namespace_listed_exactly := false; eo_table_ready := None; eo_initial_snapshots := None;
  eo_initial_read := None; eo_schema_evolved := None; eo_evolved_snapshots := None;
  eo_evolved_read := None; eo_final_table := None |}.

(** One turn of the loop of [from_execution]: a later event of a kind replaces
    an earlier one. *)
Definition observe_event (o : EventObservations) (event : EngineEvent) : EventObservations :=
  let set runtime ready absent listed table initial iread evolved esnap eread final := {|
    eo_runtime := runtime; eo_catalog_ready := ready; eo_fixture_absent := absent;
    eo_namespace_listed_exactly := listed; eo_table_ready := table; eo_initial_snapshots := initial;
    eo_initial_read := iread; eo_schema_evolved := evolved; eo_evolved_snapshots := esnap;
    eo_evolved_read := eread; eo_final_table := final |} in
  let '(Build_EventObservations runtime ready absent listed table initial iread evolved esnap eread final) := o in
  match event with
  | RuntimeReady r => set (Some r) ready absent listed table initial iread evolved esnap eread final
  | CatalogReady => set runtime true absent listed table initial iread evolved esnap eread final
  | FixturePreflight a => set runtime ready a listed table initial iread evolved esnap eread final
  | NamespaceReady l => set runtime ready absent l table initial iread evolved esnap eread final
  | TableReady t => set runtime ready absent listed (Some t) initial iread evolved esnap eread final
  | InitialAppended s => set runtime ready absent listed table (Some s) iread evolved esnap eread final
  | InitialRead r => set runtime ready absent listed table initial (Some r) evolved esnap eread final
  | SchemaEvolved t => set runtime ready absent listed table initial iread (Some t) esnap eread final
  | EvolvedAppended s => set runtime ready absent listed table initial iread evolved (Some s) eread final
  | EvolvedRead r => set runtime ready absent listed table initial iread evolved esnap (Some r) final
  | FinalTable t => set runtime ready absent listed table initial iread evolved esnap eread (Some t)
  | Completed | Failed _ _ => o
  end.

(** [EventObservations::from_execution]. *)
Definition observations (execution : EngineProcessExecution) : EventObservations :=
  match pe_capture execution with
  | None => no_observations
  | Some capture => foldl observe_event no_observations (cap_events capture)
  end.

Definition engine_field (field : IcebergField) : EngineFieldObservation := {|
  fo_id := if_id field; fo_name := if_name field; fo_required := if_required field; fo_field_type := if_type field |}.

Definition expected_initial_fields (plan : InteroperabilityPlan) : list EngineFieldObservation :=
  engine_field <$> is_fields (tp_schema (sp_table (plan_scenario plan))).

Definition i32_maximum : Z := 2147483647.

Definition expected_evolved_fields (plan : InteroperabilityPlan) : option (list EngineFieldObservation) :=
  let fields := expected_initial_fields plan in
  last ← maximum (fo_id <$> fields);
  id ← checked_add i32_maximum last 1;
  let evolved := se_field (sp_schema_evolution (plan_scenario plan)) in
  Some (fields ++ [{| fo_id := id; fo_name := ef_name evolved; fo_required := ef_required evolved;
                      fo_field_type := ef_type evolved |}])%list.

Definition table_identity_preserved (previous current : EngineTableObservation) : bool :=
  (to_table_uuid previous =? to_table_uuid current) && (to_location previous =? to_location current)
  && negb (to_metadata_location previous =? to_metadata_location current).

Definition read_matches (read : RowReadObservation) (expected : CanonicalRead) : bool :=
  (rr_rows read =? cread_rows expected)%Z && (rr_bytes read =? cread_bytes expected)%Z
  && (rr_sha256 read =? cread_sha256 expected).

Definition catalog_connection_matches (plan : InteroperabilityPlan) (execution : EngineExecution) : bool :=
  match ex_catalog_connection execution with
  | EngineCatalogConnectionEvidence.Ready negotiation =>
      (ta_catalog (en_adapter negotiation) =? ci_id (plan_catalog plan))
      && (ta_name (en_adapter negotiation) =? ci_name (plan_catalog plan))
      && (ta_version (en_adapter negotiation) =? ci_version (plan_catalog plan))
      && match ta_protocol (en_adapter negotiation), sp_catalog_protocol (plan_scenario plan) with
         | IcebergRestV1, IcebergRestV1 => true
         end
      && match ta_request_handling (en_adapter negotiation) with ProtocolNative => true | _ => false end
      && match ea_outcome (en_authentication negotiation) with AuthenticationOutcome.Ready => true | _ => false end
      && match ec_failure_stage (en_config negotiation) with None => true | Some _ => false end
  | EngineCatalogConnectionEvidence.NotAttempted _ | EngineCatalogConnectionEvidence.Failed _ _ => false
  end.

Definition runtime_matches (plan : InteroperabilityPlan) (runtime : EngineRuntimeObservation) : bool :=
  runtime_identity_matches (plan_execution plan) runtime
  && operating_system_matches (rp_operating_system (plan_runtime_platform plan)) (ro_operating_system runtime)
  && architecture_matches (rp_architecture (plan_runtime_platform plan)) (ro_architecture runtime).

(** One artifact of the verification against the plan's. *)
Definition artifact_matches (observed : RuntimeArtifactObservation) (expected : RuntimeArtifactExpectation) : bool :=
  (rao_location observed =? ra_location expected) && (rao_media_type observed =? ra_media_type expected)
  && bool_decide (rao_components observed = ra_components expected)
  && (rao_expected_bytes observed =? ra_bytes expected)%Z && (rao_expected_sha256 observed =? ra_sha256 expected)
  && match rao_outcome observed with
     | Match observed_bytes observed_sha256 =>
         (observed_bytes =? ra_bytes expected)%Z && (observed_sha256 =? ra_sha256 expected)
     | Mismatch _ _ _ _ | Unavailable _ => false
     end.

Definition runtime_verification_matches (plan : InteroperabilityPlan) (verification : RuntimeVerification) : bool :=
  let platform := rv_platform verification in
  let expected := plan_runtime_platform plan in
  (po_expected_operating_system platform =? rp_operating_system expected)
  && (po_expected_architecture platform =? rp_architecture expected)
  && po_operating_system_matches platform && po_architecture_matches platform
  && (length (rv_artifacts verification) =? length (plan_runtime_artifacts plan))%nat
  && forallb (fun pair => artifact_matches pair.1 pair.2) (zip (rv_artifacts verification) (plan_runtime_artifacts plan)).

Section Reconcile.
Context `{UrlParser, ObjectPaths, UuidParser}.

Definition table_matches_shape (plan : InteroperabilityPlan) (table : EngineTableObservation)
    (fields : list EngineFieldObservation) (last_column_id snapshots : Z) : bool :=
  (to_format_version table =? 2)%Z && (to_last_column_id table =? last_column_id)%Z
  && bool_decide (to_schema table = fields) && (to_snapshots table =? snapshots)%Z
  && bool_decide (to_properties table
       = (fun _ => EnginePropertyObservation.Match) <$> tp_properties (sp_table (plan_scenario plan)))
  && is_some_and (fun uuid => negb (uuid =? 0)%Z) (uuid_parse (to_table_uuid table))
  && is_ok (TableRoot_new (to_location table) (to_metadata_location table) (osp_bucket (plan_object_store plan)))
  && match fixture_requested_location (plan_fixture plan) with
     | Some location => location =? to_location table
     | None => true
     end.

Definition object_evidence_complete (plan : InteroperabilityPlan) (catalog_state : option EngineTableLoad.t)
    (evidence : EngineOperationEvidence TableObjectAuditSnapshot) : bool :=
  match catalog_state, evidence_output evidence with
  | Some (EngineTableLoad.Present _ _ state), Some audit =>
      let policy := sp_object_audit (plan_scenario plan) in
      (ta_table_root audit =? to_location (ect_table state))
      && (ta_referenced_metadata_location audit =? to_metadata_location (ect_table state))
      && ta_referenced_metadata_exists audit
      && (oa_minimum_metadata_objects policy <=? ta_metadata_objects audit)%Z
      && (0 <? ta_metadata_bytes audit)%Z
      && (oa_minimum_parquet_objects policy <=? ta_parquet_objects audit)%Z
      && (0 <? ta_parquet_bytes audit)%Z
  | _, _ => false
  end.

Definition evaluate_checks (plan : InteroperabilityPlan) (execution : EngineExecution) : EngineBehaviorChecks :=
  let events := observations (ex_process execution) in
  let initial_fields := expected_initial_fields plan in
  let evolved_fields := expected_evolved_fields plan in
  let initial_last_id := maximum (fo_id <$> initial_fields) in
  let evolved_last_id := fields ← evolved_fields; maximum (fo_id <$> fields) in
  let snapshot_sequence :=
    table ← eo_table_ready events;
    initial ← checked_add u64_max (to_snapshots table) 1;
    evolved ← checked_add u64_max initial 1;
    Some (to_snapshots table, initial, evolved) in
  let table_round_trip := is_some_and (fun table =>
    is_some_and (fun last_id => table_matches_shape plan table initial_fields last_id (to_snapshots table))
      initial_last_id) (eo_table_ready events) in
  let schema_evolved := is_some_and (fun table => is_some_and (fun fields => is_some_and (fun last_id =>
      is_some_and (fun sequence => table_matches_shape plan table fields last_id sequence.1.2) snapshot_sequence
      && is_some_and (fun initial => table_identity_preserved initial table) (eo_table_ready events))
    evolved_last_id) evolved_fields) (eo_schema_evolved events) in
  let final_table_matches := is_some_and (fun table => is_some_and (fun fields => is_some_and (fun last_id =>
      is_some_and (fun sequence => table_matches_shape plan table fields last_id sequence.2) snapshot_sequence
      && is_some_and (fun evolved => table_identity_preserved evolved table
           && negb (to_metadata_location evolved =? to_metadata_location table)) (eo_schema_evolved events))
    evolved_last_id) evolved_fields) (eo_final_table events) in
  let catalog_state_correlated := final_table_matches
    && match eo_final_table events, evidence_output (ex_catalog_state execution) with
       | Some final_table, Some (EngineTableLoad.Present _ _ state) =>
           (ect_current_schema_id state =? 1)%Z && bool_decide (ect_table state = final_table)
       | _, _ => false
       end in
  {| ck_engine_runtime_pinned := runtime_verification_matches plan (pe_runtime (ex_process execution))
       && is_some_and (runtime_matches plan) (eo_runtime events);
     ck_stock_rest_catalog_ready := eo_catalog_ready events && catalog_connection_matches plan execution;
     ck_fixture_isolated := eo_fixture_absent events;
     ck_namespace_round_trip := eo_namespace_listed_exactly events;
     ck_table_round_trip := table_round_trip;
     ck_initial_append_committed := is_some_and (fun sequence =>
       bool_decide (eo_initial_snapshots events = Some sequence.1.2)) snapshot_sequence;
     ck_initial_read_exact := is_some_and (fun read =>
       read_matches read (creads_initial (sp_canonical_reads (plan_scenario plan)))) (eo_initial_read events);
     ck_schema_evolved := schema_evolved;
     ck_evolved_append_committed := is_some_and (fun sequence =>
       bool_decide (eo_evolved_snapshots events = Some sequence.2)) snapshot_sequence;
     ck_evolved_read_exact := is_some_and (fun read =>
       read_matches read (creads_after_evolution (sp_canonical_reads (plan_scenario plan)))) (eo_evolved_read events);
     ck_catalog_state_correlated := catalog_state_correlated;
     ck_shared_object_evidence_complete := catalog_state_correlated
       && object_evidence_complete plan (evidence_output (ex_catalog_state execution)) (ex_object_state execution);
     ck_fixture_clean := cleanup_passed (ex_cleanup execution) |}.

(** ** Executions *)

(** [EngineExecution::pending]. *)
Definition pending (process : EngineProcessExecution) : EngineExecution :=
  let reason := if process_fixture_collision process then FixtureCollision else ProcessDidNotOwnFixture in
  {| ex_process := process; ex_catalog_connection := EngineCatalogConnectionEvidence.NotAttempted reason;
     ex_catalog_state := Skipped reason; ex_object_state := Skipped reason;
     ex_cleanup := cleanup_skipped reason; ex_checks := no_checks;
     ex_classification := EngineBehaviorClassification.Fail |}.

(** [EngineExecution::finalize]. *)
Definition finalize (plan : InteroperabilityPlan) (self : EngineExecution) : EngineExecution :=
  let checks := evaluate_checks plan self in
  {| ex_process := ex_process self; ex_catalog_connection := ex_catalog_connection self;
     ex_catalog_state := ex_catalog_state self; ex_object_state := ex_object_state self;
     ex_cleanup := ex_cleanup self; ex_checks := checks;
     ex_classification :=
       if process_fixture_collision (ex_process self) then EngineBehaviorClassification.FixtureCollision
       else if process_passed (ex_process self) && checks_all_passed checks then EngineBehaviorClassification.Pass
       else EngineBehaviorClassification.Fail |}.

(** [EngineExecution::passed]. *)
Definition execution_passed (self : EngineExecution) : bool :=
  bool_decide (ex_classification self = EngineBehaviorClassification.Pass)
  && process_passed (ex_process self) && checks_all_passed (ex_checks self).
End Reconcile.

(** ** The workflow *)

Section Workflow.
Context `{UrlParser, ObjectPaths, UuidParser} {R N C O S W : Type}.
Context `{EngineRunner R W, EngineCatalogConnector N C W, EngineCatalog C W, EngineObjectStoreConnector O S W,
          TableObjectStore S W}.

Definition audit_object_state (plan : InteroperabilityPlan) (catalog_state : option EngineTableLoad.t)
    (connector : O) (w : W) : EngineOperationEvidence TableObjectAuditSnapshot * W :=
  match catalog_state with
  | Some (EngineTableLoad.Present _ _ state) =>
      let table := ect_table state in
      match TableRoot_new (to_location table) (to_metadata_location table) (osp_bucket (plan_object_store plan)) with
      | Err failure => (object_store_failure failure, w)
      | Ok root =>
          match connect_object_store connector plan w with
          | (Err failure, w) => (object_store_failure failure, w)
          | (Ok store, w) =>
              match store_audit_table store root (to_metadata_location table) w with
              | (Ok audit, w) => (Succeeded audit, w)
              | (Err failure, w) => (object_store_failure failure, w)
              end
          end
      end
  | Some (EngineTableLoad.Absent _ _) | None => (Skipped TableUnavailable, w)
  end.

(** [Ok(output) => succeeded(output), Err(failure) => catalog_failure(failure)]. *)
Definition catalog_evidence {T} (outcome : result T EngineCatalogFailure) : EngineOperationEvidence T :=
  match outcome with
  | Ok output => Succeeded output
  | Err failure => OperationFailed (CatalogOperation failure)
  end.

Definition cleanup_fixture (catalog : C) (w : W) : EngineCleanupEvidence * W :=
  let '(drop_table_without_purge, w) := engine_drop_table_without_purge catalog w in
  let '(verify_table_absent, w) := engine_table_presence catalog w in
  let '(drop_namespace, w) := engine_drop_namespace catalog w in
  let '(verify_namespace_absent, w) := engine_namespace_presence catalog w in
  ({| cl_drop_table_without_purge := catalog_evidence drop_table_without_purge;
      cl_verify_table_absent := catalog_evidence verify_table_absent;
      cl_drop_namespace := catalog_evidence drop_namespace;
      cl_verify_namespace_absent := catalog_evidence verify_namespace_absent |}, w).

Definition run_engine_workflow (plan : InteroperabilityPlan) (runner : R) (catalog_connector : N)
    (object_store_connector : O) (w : W) : EngineExecution * W :=
  let '(process, w) := execute runner plan w in
  let execution := pending process in
  if negb (process_cleanup_authorized process) then (finalize plan execution, w)
  else
    match connect catalog_connector plan w with
    | (ConnectionRefused negotiation failure, w) =>
        (finalize plan {|
           ex_process := process;
           ex_catalog_connection := EngineCatalogConnectionEvidence.Failed negotiation failure;
           ex_catalog_state := Skipped CatalogUnavailable; ex_object_state := Skipped CatalogUnavailable;
           ex_cleanup := cleanup_skipped CatalogUnavailable;
           ex_checks := ex_checks execution; ex_classification := ex_classification execution |}, w)
    | (ConnectionReady negotiation catalog, w) =>
        let '(loaded, w) := engine_load_table catalog w in
        let catalog_state := catalog_evidence loaded in
        let '(object_state, w) := audit_object_state plan (evidence_output catalog_state) object_store_connector w in
        let '(cleanup, w) := cleanup_fixture catalog w in
        (finalize plan {|
           ex_process := process;
           ex_catalog_connection := EngineCatalogConnectionEvidence.Ready negotiation;
           ex_catalog_state := catalog_state; ex_object_state := object_state; ex_cleanup := cleanup;
           ex_checks := ex_checks execution; ex_classification := ex_classification execution |}, w)
    end.
End Workflow.

(** ** Properties of the engine workflow

    The workflow leaves a fixture alone that the engine did not create, always
    cleans one up that it did, and a passing run has witnessed the whole write,
    evolve and read sequence. *)

(** ** Completed runs *)

Lemma protocol_stages events n :
  protocol events n false ->
  (successful_stage <$> events) = (Some <$> take n ORDER) /\ Forall (fun e => e <> FixturePreflight false) events.
Proof.
  intros Hp. remember false as t eqn:Ht. revert Ht.
  induction Hp as [|events n stage event _ IH Hn Hs Hne| | |]; intros Ht; try done.
  destruct (IH Ht) as [Hstages Hall].
  rewrite fmap_app, (take_S_r _ _ _ Hn), fmap_app, Hstages. simpl. rewrite Hs. split; [done|].
  apply Forall_app. split; [done|]. by repeat constructor.
Qed.

(** The events of a completed run. *)
Lemma completed_events events n t :
  protocol events n t -> last events = Some Completed ->
  exists runtime listed t0 s1 r1 t1 s2 r2 t2,
    events = [RuntimeReady runtime; CatalogReady; FixturePreflight true; NamespaceReady listed; TableReady t0;
              InitialAppended s1; InitialRead r1; SchemaEvolved t1; EvolvedAppended s2; EvolvedRead r2;
              FinalTable t2; Completed].
Proof.
  intros Hp Hlast. destruct Hp as [|es n stage event _ _ Hs|es n stage category|es Hes|es n]; try done;
    rewrite last_snoc in Hlast; simplify_eq; try done.
  destruct (protocol_stages _ _ Hes) as [Hstages Hne].
  do 11 (destruct es as [|? es]; [discriminate Hstages|]). destruct es; [|discriminate Hstages].
  repeat match goal with
  | e : EngineEvent |- _ =>
      destruct e; simpl in Hstages; try discriminate Hstages; []
  end.
  apply Forall_cons in Hne as [_ Hne]. apply Forall_cons in Hne as [_ Hne]. apply Forall_cons in Hne as [Hpre _].
  destruct absent; [|done]. by repeat eexists.
Qed.

(** What the workflow relies on of an engine runner: the events it reports follow
    the protocol. *)
Class LawfulEngineRunner (R W : Type) `{EngineRunner R W} : Prop :=
  execute_on_protocol : forall (runner : R) plan (w : W) capture,
    pe_capture (execute runner plan w).1 = Some capture -> exists n t, protocol (cap_events capture) n t.

Section Workflow.
Context `{UrlParser, ObjectPaths, UuidParser} {R N C O S W : Type}.
Context `{EngineRunner R W, EngineCatalogConnector N C W, EngineCatalog C W, EngineObjectStoreConnector O S W,
          TableObjectStore S W}.

(** C20: the workflow touches only a fixture the engine created: when
    the process did not report that it found the fixture absent, or reported a
    collision, nothing happens after the process: no connection, no request, no
    audit; every operation is skipped and the run does not pass. *)
Theorem unowned_fixture_is_untouched plan (runner : R) (connector : N) (store : O) (w : W) :
  let '(process, w1) := execute runner plan w in
  let '(execution, w') := run_engine_workflow plan runner connector store w in
  process_cleanup_authorized process = false ->
  w' = w1 /\ ex_process execution = process /\
  (exists reason, ex_catalog_connection execution = EngineCatalogConnectionEvidence.NotAttempted reason /\
     ex_catalog_state execution = Skipped reason /\ ex_object_state execution = Skipped reason /\
     ex_cleanup execution = cleanup_skipped reason) /\
  execution_passed execution = false.
Proof.
  unfold run_engine_workflow. destruct (execute runner plan w) as [process w1].
  destruct (process_cleanup_authorized process) eqn:Ha; simpl.
  { destruct (connect connector plan w1) as [[negotiation catalog|negotiation failure] w2]; [|done].
    destruct (engine_load_table catalog w2) as [loaded w3]. destruct (audit_object_state _ _ _ _) as [audit w4].
    by destruct (cleanup_fixture catalog w4). }
  intros _. split_and!; try done; [by eexists|].
  apply not_true_iff_false. intros [_ Hchecks]%andb_true_iff.
  apply andb_true_iff in Hchecks as [_ Hclean]. done.
Qed.

(** C21: an owned fixture is always cleaned up: once the engine reported
    the fixture absent and the catalog was reached, the run ends with the four
    cleanup steps, whatever the load and the audit gave: it drops the table without
    purge, looks it up, drops the namespace and looks it up, and its cleanup
    evidence is the answers. *)
Theorem owned_fixture_is_cleaned_up plan (runner : R) (connector : N) (store : O) (w w1 w2 : W)
    process negotiation catalog :
  execute runner plan w = (process, w1) -> process_cleanup_authorized process = true ->
  connect connector plan w1 = (ConnectionReady negotiation catalog, w2) ->
  exists before d wd t wt n wn p,
    engine_drop_table_without_purge (C := C) catalog before = (d, wd) /\ engine_table_presence catalog wd = (t, wt) /\
    engine_drop_namespace catalog wt = (n, wn) /\
    engine_namespace_presence catalog wn = (p, (run_engine_workflow plan runner connector store w).2) /\
    ex_cleanup (run_engine_workflow plan runner connector store w).1 =
      {| cl_drop_table_without_purge := catalog_evidence d; cl_verify_table_absent := catalog_evidence t;
         cl_drop_namespace := catalog_evidence n; cl_verify_namespace_absent := catalog_evidence p |}.
Proof.
  intros Hexec Ha Hconn. unfold run_engine_workflow. rewrite Hexec. cbn [negb]. rewrite Ha, Hconn. cbn [negb].
  destruct (engine_load_table catalog w2) as [loaded w3].
  destruct (audit_object_state _ _ _ _) as [audit w4]. unfold cleanup_fixture.
  destruct (engine_drop_table_without_purge catalog w4) as [d wd] eqn:Hd.
  destruct (engine_table_presence catalog wd) as [t wt] eqn:Ht.
  destruct (engine_drop_namespace catalog wt) as [n wn] eqn:Hn.
  destruct (engine_namespace_presence catalog wn) as [p wp] eqn:Hp.
  by exists w4, d, wd, t, wt, n, wn, p.
Qed.

(** ** Passing runs *)

(** A table as the plan wants it after [snapshots] snapshots. *)
Record planned_table (plan : InteroperabilityPlan) (fields : list EngineFieldObservation) (snapshots : Z)
    (table : EngineTableObservation) : Prop := {
  pt_version : to_format_version table = 2%Z;
  pt_schema : to_schema table = fields;
  pt_last_column : maximum (fo_id <$> fields) = Some (to_last_column_id table);
  pt_snapshots : to_snapshots table = snapshots;
  pt_properties : to_properties table
    = (fun _ => EnginePropertyObservation.Match) <$> tp_properties (sp_table (plan_scenario plan));
  pt_uuid : exists uuid, uuid_parse (to_table_uuid table) = Some uuid /\ uuid <> 0%Z;
  pt_location : is_ok (TableRoot_new (to_location table) (to_metadata_location table)
                         (osp_bucket (plan_object_store plan))) = true;
  pt_requested : forall location, fixture_requested_location (plan_fixture plan) = Some location ->
    to_location table = location;
}.

(** The same table with new metadata. *)
Definition succeeds (previous current : EngineTableObservation) : Prop :=
  to_table_uuid previous = to_table_uuid current /\ to_location previous = to_location current /\
  to_metadata_location previous <> to_metadata_location current.

(** The expected contents of a read. *)
Definition exact_read (read : RowReadObservation) (expected : CanonicalRead) : Prop :=
  rr_rows read = cread_rows expected /\ rr_bytes read = cread_bytes expected /\ rr_sha256 read = cread_sha256 expected.

(** What a passing run saw: the events of the engine in their order with the
    planned contents, and the harness's own view of the same table. *)
Definition engine_run_witnessed (plan : InteroperabilityPlan) (execution : EngineExecution) : Prop :=
  exists runtime t0 r1 t1 r2 t2 evolved capture http_status bytes audit,
    pe_capture (ex_process execution) = Some capture /\
    cap_events capture = [RuntimeReady runtime; CatalogReady; FixturePreflight true; NamespaceReady true; TableReady t0;
      InitialAppended (to_snapshots t0 + 1); InitialRead r1; SchemaEvolved t1;
      EvolvedAppended (to_snapshots t0 + 2); EvolvedRead r2; FinalTable t2; Completed] /\
    runtime_verification_matches plan (pe_runtime (ex_process execution)) = true /\
    runtime_matches plan runtime = true /\ catalog_connection_matches plan execution = true /\
    expected_evolved_fields plan = Some evolved /\
    planned_table plan (expected_initial_fields plan) (to_snapshots t0) t0 /\
    planned_table plan evolved (to_snapshots t0 + 1) t1 /\ planned_table plan evolved (to_snapshots t0 + 2) t2 /\
    succeeds t0 t1 /\ succeeds t1 t2 /\
    exact_read r1 (creads_initial (sp_canonical_reads (plan_scenario plan))) /\
    exact_read r2 (creads_after_evolution (sp_canonical_reads (plan_scenario plan))) /\
    ex_catalog_state execution = Succeeded (EngineTableLoad.Present http_status bytes
      {| ect_current_schema_id := 1; ect_table := t2 |}) /\
    ex_object_state execution = Succeeded audit /\
    object_evidence_complete plan (evidence_output (ex_catalog_state execution)) (ex_object_state execution) = true /\
    cleanup_passed (ex_cleanup execution) = true.

Lemma table_matches_shape_planned plan table fields last snapshots :
  maximum (fo_id <$> fields) = Some last -> table_matches_shape plan table fields last snapshots = true ->
  planned_table plan fields snapshots table.
Proof.
  unfold table_matches_shape. intros Hmax
    [[[[[[[Hv Hl]%andb_true_iff Hs]%andb_true_iff Hn]%andb_true_iff Hp]%andb_true_iff Hu]%andb_true_iff Hr]%andb_true_iff
     Hloc]%andb_true_iff.
  apply Z.eqb_eq in Hv, Hl, Hn. apply bool_decide_eq_true in Hs, Hp.
  apply is_some_and_true in Hu as (uuid & Hu & Hnil). apply negb_true_iff, Z.eqb_neq in Hnil.
  constructor; try done; [congruence | by exists uuid|].
  intros location Hreq. rewrite Hreq in Hloc. apply String.eqb_eq in Hloc. done.
Qed.

Lemma table_identity_succeeds previous current : table_identity_preserved previous current = true -> succeeds previous current.
Proof.
  unfold table_identity_preserved, succeeds.
  intros [[Hu%String.eqb_eq Hl%String.eqb_eq]%andb_true_iff Hm%negb_true_iff%String.eqb_neq]%andb_true_iff. done.
Qed.

Lemma read_matches_exact read expected : read_matches read expected = true -> exact_read read expected.
Proof.
  unfold read_matches, exact_read.
  intros [[Hr%Z.eqb_eq Hb%Z.eqb_eq]%andb_true_iff Hs%String.eqb_eq]%andb_true_iff. done.
Qed.
(** What [evaluate_checks] found when every check passed, given the events. *)
Lemma passing_checks plan execution capture runtime listed t0 s1 r1 t1 s2 r2 t2 :
  pe_capture (ex_process execution) = Some capture ->
  cap_events capture = [RuntimeReady runtime; CatalogReady; FixturePreflight true; NamespaceReady listed; TableReady t0;
    InitialAppended s1; InitialRead r1; SchemaEvolved t1; EvolvedAppended s2; EvolvedRead r2; FinalTable t2; Completed] ->
  checks_all_passed (evaluate_checks plan execution) = true -> engine_run_witnessed plan execution.
Proof.
  intros Hcapture Hevents Hall.
  assert (Hobs : observations (ex_process execution) = {| eo_runtime := Some runtime; eo_catalog_ready := true;
    eo_fixture_absent := true; eo_namespace_listed_exactly := listed; eo_table_ready := Some t0;
    eo_initial_snapshots := Some s1; eo_initial_read := Some r1; eo_schema_evolved := Some t1;
    eo_evolved_snapshots := Some s2; eo_evolved_read := Some r2; eo_final_table := Some t2 |}).
  { unfold observations. rewrite Hcapture, Hevents. done. }
  unfold checks_all_passed, evaluate_checks in Hall. rewrite Hobs in Hall. clear Hobs.
  cbn [eo_runtime eo_catalog_ready eo_fixture_absent eo_namespace_listed_exactly eo_table_ready eo_initial_snapshots
    eo_initial_read eo_schema_evolved eo_evolved_snapshots eo_evolved_read eo_final_table is_some_and
    ck_engine_runtime_pinned ck_stock_rest_catalog_ready ck_fixture_isolated ck_namespace_round_trip
    ck_table_round_trip ck_initial_append_committed ck_initial_read_exact ck_schema_evolved
    ck_evolved_append_committed ck_evolved_read_exact ck_catalog_state_correlated
    ck_shared_object_evidence_complete ck_fixture_clean] in Hall.
  apply andb_true_iff in Hall as [Hall Hclean]. apply andb_true_iff in Hall as [Hall Hobjects].
  apply andb_true_iff in Hobjects as [_ Hobjects]. apply andb_true_iff in Hall as [Hall Hstate].
  apply andb_true_iff in Hstate as [Hfinal Hstate]. apply andb_true_iff in Hall as [Hall Hr2].
  apply andb_true_iff in Hall as [Hall Hs2]. apply andb_true_iff in Hall as [Hall Hevolved].
  apply andb_true_iff in Hall as [Hall Hr1]. apply andb_true_iff in Hall as [Hall Hs1].
  apply andb_true_iff in Hall as [Hall Ht0]. apply andb_true_iff in Hall as [Hall Hlisted].
  apply andb_true_iff in Hall as [Hall _]. apply andb_true_iff in Hall as [Hruntime Hconnection].
  apply andb_true_iff in Hruntime as [Hverified Hruntime].
  apply is_some_and_true in Ht0 as (last0 & Hlast0 & Ht0).
  simpl in Hs1, Hs2, Hevolved, Hfinal.
  destruct (expected_evolved_fields plan) as [evolved|] eqn:Hfields in Hevolved, Hfinal |- *; [|done]. simpl in Hevolved, Hfinal.
  destruct (maximum (fo_id <$> evolved)) as [last1|] eqn:Hlast1 in Hevolved, Hfinal |- *; [|done]. simpl in Hevolved, Hfinal.
  destruct (checked_add u64_max (to_snapshots t0) 1) as [n1|] eqn:Hn1 in Hs1, Hs2, Hevolved, Hfinal |- *; [|done]. simpl in Hs1, Hs2, Hevolved, Hfinal.
  destruct (checked_add u64_max n1 1) as [n2|] eqn:Hn2 in Hs1, Hs2, Hevolved, Hfinal |- *; [|done]. simpl in Hs1, Hs2, Hevolved, Hfinal.
  apply checked_add_Some in Hn1 as [-> _]. apply checked_add_Some in Hn2 as [-> _].
  apply bool_decide_eq_true in Hs1, Hs2. simplify_eq.
  apply andb_true_iff in Hevolved as [Hshape1 Hid1%table_identity_succeeds].
  apply andb_true_iff in Hfinal as [Hshape2 [Hid2%table_identity_succeeds _]%andb_true_iff].
  destruct (ex_catalog_state execution) as [[status response_bytes state|]| |] eqn:Hloaded; try done.
  cbn in Hstate. apply andb_true_iff in Hstate as [Hschema%Z.eqb_eq Htable%bool_decide_eq_true].
  destruct (ex_object_state execution) as [audit| |] eqn:Haudit; try done.
  destruct state as [current table]. cbn in Hschema, Htable. subst current table.
  replace (to_snapshots t0 + 1 + 1)%Z with (to_snapshots t0 + 2)%Z in * by lia.
  exists runtime, t0, r1, t1, r2, t2, evolved, capture, status, response_bytes, audit.
  rewrite Hloaded, Haudit. split_and!; try done; try (by eapply table_matches_shape_planned);
    by apply read_matches_exact.
Qed.

(** A passing run of a lawful engine has witnessed the whole scenario. *)
Lemma passing_run_witnessed `{!LawfulEngineRunner R W} plan (runner : R) (connector : N) (store : O) (w w' : W) execution :
  run_engine_workflow plan runner connector store w = (execution, w') ->
  execution_passed execution = true -> engine_run_witnessed plan execution.
Proof.
  intros Hrun Hpassed.
  assert (Hchecks : exists before, execution = finalize plan before /\
    ex_process before = (execute runner plan w).1).
  { unfold run_engine_workflow in Hrun. destruct (execute runner plan w) as [process w1].
    destruct (negb _); [simplify_eq; eexists; by split|].
    destruct (connect connector plan w1) as [[negotiation catalog|negotiation failure] w2]; [|simplify_eq; eexists; by split].
    destruct (engine_load_table catalog w2) as [loaded w3]. destruct (audit_object_state _ _ _ _) as [audit w4].
    destruct (cleanup_fixture catalog w4) as [cleanup w5]. simplify_eq. eexists. by split. }
  destruct Hchecks as (before & -> & Hexecuted). unfold execution_passed in Hpassed.
  apply andb_true_iff in Hpassed as [[_ Hprocess]%andb_true_iff Hall].
  unfold process_passed in Hprocess. apply andb_true_iff in Hprocess as [_ Hcompleted].
  apply is_some_and_true in Hcompleted as (capture & Hcapture & Hcompleted).
  pose proof Hcapture as Hreported. cbn [finalize ex_process] in Hreported. rewrite Hexecuted in Hreported.
  destruct (execute_on_protocol _ _ _ _ Hreported) as (n & t & Hp).
  assert (Hlast : last (cap_events capture) = Some Completed).
  { unfold capture_completed in Hcompleted. destruct (cap_protocol_failure capture); [done|].
    by destruct (last (cap_events capture)) as [[]|]. }
  destruct (completed_events _ _ _ Hp Hlast) as (runtime & listed & t0 & s1 & r1 & t1 & s2 & r2 & t2 & Hevents).
  by eapply (passing_checks plan (finalize plan before)).
Qed.
End Workflow.
