(* ===== verification/EngineProcess.v ===== *)
(** * Engine child processes (crates/engine/src/process.rs)

    The Spark and Flink executors: runtime verification, staging of the plan,
    credentials, the closed environment of the child, and the classification of
    what it did. The operating system is a set of classes: the process
    environment ([ProcessEnv]), the temporary directory ([Staging]) and running a
    command ([Commands]), whose result lists the reads of the child's standard
    output and which of the racing events ended the wait. Secrets are read
    through [ObservedSecretSource] of transcript/sanitize.rs, which remembers
    every value. *)

From S2P Require Import Prelude Order RustStr Json ContractValue ContractAdapter Ledger EngineParameters EngineSql.
From S2P Require Import EngineRuntime EngineEvents.
From Stdlib Require Import Ascii.
Open Scope string_scope.

Definition ENGINE_OAUTH_CLIENT_ID_ENV : string := "CATALOG_BENCH_ENGINE_CLIENT_ID".
Definition ENGINE_OAUTH_CLIENT_SECRET_ENV : string := "CATALOG_BENCH_ENGINE_CLIENT_SECRET".
Definition FLINK_RUNNER_MAIN_CLASS : string := "org.querygraph.catalogbench.flink.Runner".
Definition FALLBACK_PATH : string :=
  "/opt/spark/bin:/opt/spark/sbin:/usr/local/sbin:/usr/local/bin:/usr/sbin:/usr/bin:/sbin:/bin".
Definition PUBLIC_ENVIRONMENT_ALLOWLIST : list string :=
  ["JAVA_HOME"; "LANG"; "LC_ALL"; "PATH"; "PYSPARK_DRIVER_PYTHON"; "PYSPARK_PYTHON"; "SPARK_HOME"; "TZ"].

(** ** Secrets *)

Module SecretRead.
Inductive t := Missing | Unreadable | Value (value : string).
End SecretRead.

(** [SecretSource::read_secret] of the source behind the observer. *)
Class SecretSource := read_secret : string -> SecretRead.t.

(** The values an [ObservedSecretSource] handed out, in order. *)
Definition ObservedSecrets : Type := list string.

(** [ObservedSecretSource::read_secret]. *)
Definition read_observed `{SecretSource} (name : string) (seen : ObservedSecrets) : SecretRead.t * ObservedSecrets :=
  match read_secret name with
  | SecretRead.Value value =>
      (SecretRead.Value value, if is_empty value then seen else (seen ++ [value])%list)
  | secret => (secret, seen)
  end.

(** [ObservedSecretSource::sensitive_values]. *)
Definition observed_sensitive_values (seen : ObservedSecrets) : list string := sort_dedup seen.

Section Secrets.
Context `{SecretSource}.

(** [read_required] of process.rs, [required_runner_secret] of adapters.rs. *)
Definition read_required (name : string) (credential : EngineCredentialKind) (seen : ObservedSecrets)
  : result string EngineCredentialFailure * ObservedSecrets :=
  let '(secret, seen) := read_observed name seen in
  (match secret with
   | SecretRead.Missing => Err {| ecf_credential := credential; ecf_kind := EngineCredentialFailureKind.Missing |}
   | SecretRead.Unreadable => Err {| ecf_credential := credential; ecf_kind := EngineCredentialFailureKind.Unreadable |}
   | SecretRead.Value value =>
       if is_empty value then Err {| ecf_credential := credential; ecf_kind := EngineCredentialFailureKind.Empty |}
       else Ok value
   end, seen).

Record EngineSecrets := {
  sec_object_store_access_key : string;
  sec_object_store_secret_key : string;
  sec_catalog_oauth : option (string * string);
}.

(** [EngineSecrets::load]. *)
Definition load_secrets (plan : InteroperabilityPlan) (seen : ObservedSecrets)
  : result EngineSecrets EngineCredentialFailure * ObservedSecrets :=
  match read_required (osp_access_key_env (plan_object_store plan)) ObjectStoreAccessKey seen with
  | (Err failure, seen) => (Err failure, seen)
  | (Ok access_key, seen) =>
  match read_required (osp_secret_key_env (plan_object_store plan)) ObjectStoreSecretKey seen with
  | (Err failure, seen) => (Err failure, seen)
  | (Ok secret_key, seen) =>
      let secrets oauth := {| sec_object_store_access_key := access_key;
                              sec_object_store_secret_key := secret_key; sec_catalog_oauth := oauth |} in
      match plan_credential_source plan with
      | AnonymousCredentials => (Ok (secrets None), seen)
      | OAuth2Credentials client_id_env client_secret_env =>
          match read_required client_id_env CatalogClientId seen with
          | (Err failure, seen) => (Err failure, seen)
          | (Ok client_id, seen) =>
          match read_required client_secret_env CatalogClientSecret seen with
          | (Err failure, seen) => (Err failure, seen)
          | (Ok client_secret, seen) => (Ok (secrets (Some (client_id, client_secret))), seen)
          end
          end
      end
  end
  end.
End Secrets.

(** ** Commands *)

Record Command := {
  cmd_program : string;
  cmd_args : list string;
  cmd_env : gmap string string;
  cmd_current_dir : string;
}.

Class ProcessEnv := var_os : string -> option string.

(** [configure_sanitized_process]: the environment is cleared, then only the
    allow list and the private directories are set. *)
Definition sanitized_environment `{ProcessEnv} (root : string) : gmap string string :=
  let allowed := foldl (fun env name => match var_os name with Some value => <[name := value]> env | None => env end)
                   ∅ PUBLIC_ENVIRONMENT_ALLOWLIST in
  let allowed := match var_os "PATH" with None => <["PATH" := FALLBACK_PATH]> allowed | Some _ => allowed end in
  <["TMPDIR" := root]> (<["HOME" := root]> allowed).

(** [configure_child]. *)
Definition child_environment `{ProcessEnv} (plan : InteroperabilityPlan) (root : string) (secrets : EngineSecrets)
  : gmap string string :=
  let region := osp_region (plan_object_store plan) in
  let env := <["AWS_EC2_METADATA_DISABLED" := "true"]> (<["AWS_DEFAULT_REGION" := region]>
    (<["AWS_REGION" := region]> (<["AWS_SECRET_ACCESS_KEY" := sec_object_store_secret_key secrets]>
    (<["AWS_ACCESS_KEY_ID" := sec_object_store_access_key secrets]> (sanitized_environment root))))) in
  match sec_catalog_oauth secrets with
  | Some (client_id, client_secret) =>
      <[ENGINE_OAUTH_CLIENT_SECRET_ENV := client_secret]> (<[ENGINE_OAUTH_CLIENT_ID_ENV := client_id]> env)
  | None => env
  end.

Record StagedSparkInput := {
  ssi_directory : string;
  ssi_renderer : string;
  ssi_plan : string;
  ssi_local : string;
}.

Record StagedFlinkInput := { sfi_directory : string; sfi_program : string }.

(** [configure_command]. *)
Definition spark_command `{ProcessEnv} (program : string) (plan : InteroperabilityPlan) (staged : StagedSparkInput)
    (secrets : EngineSecrets) : Command :=
  let env := child_environment plan (ssi_directory staged) secrets in
  let env := match var_os "SPARK_HOME" with None => <["SPARK_HOME" := "/opt/spark"]> env | Some _ => env end in
  {| cmd_program := program; cmd_args := [ssi_renderer staged; "--plan"; ssi_plan staged];
     cmd_env := <["PYTHONDONTWRITEBYTECODE" := "1"]> (<["SPARK_LOCAL_DIRS" := ssi_local staged]> env);
     cmd_current_dir := ssi_directory staged |}.

(** [configure_flink_command]. *)
Definition flink_command `{ProcessEnv} (program : string) (plan : InteroperabilityPlan) (staged : StagedFlinkInput)
    (secrets : EngineSecrets) (runner : string) : Command :=
  let env := child_environment plan (sfi_directory staged) secrets in
  {| cmd_program := program;
     cmd_args := ["run"; "--target"; "local"; "--class"; FLINK_RUNNER_MAIN_CLASS; runner; "--program"; sfi_program staged];
     cmd_env := match var_os "FLINK_HOME" with None => <["FLINK_HOME" := "/opt/flink"]> env | Some _ => env end;
     cmd_current_dir := sfi_directory staged |}.

(** ** Staging *)

(** A fresh temporary directory with the prefix, and writes into it. *)
Class Staging (W : Type) := {
  make_tempdir : string -> W -> option string * W;
  write_file : string -> list ascii -> W -> bool * W;
  create_dir : string -> W -> bool * W;
}.

(** [serde_json::to_vec] of a document, and the renderer compiled into the binary. *)
Class ToVec (T : Type) := to_vec : T -> option (list ascii).
Class SparkRenderer := SPARK_RENDERER : list ascii.

Section Stage.
Context `{ToVec SparkExecutionPlan, ToVec Flink.FlinkRenderedProgram, SparkRenderer, UrlParser}.
Context {W : Type} `{Staging W}.

(** [StagedSparkInput::create]. *)
Definition stage_spark (plan : InteroperabilityPlan) (w : W)
  : result StagedSparkInput EnginePreparationFailureKind * W :=
  match make_tempdir "catalog-bench-spark-" w with
  | (None, w) => (Err TemporaryDirectory, w)
  | (Some directory, w) =>
      let staged := {| ssi_directory := directory; ssi_renderer := path_join directory "runner.py";
                       ssi_plan := path_join directory "plan.json"; ssi_local := path_join directory "local" |} in
      match as_spark (plan_execution plan) with
      | None => (Err ExecutionPlanMismatch, w)
      | Some spark =>
          match to_vec spark with
          | None => (Err EncodePlan, w)
          | Some encoded =>
              let '(written, w) := write_file (ssi_plan staged) encoded w in
              if negb written then (Err WritePlan, w)
              else
                let '(written, w) := write_file (ssi_renderer staged) SPARK_RENDERER w in
                if negb written then (Err WriteRenderer, w)
                else
                  let '(created, w) := create_dir (ssi_local staged) w in
                  if negb created then (Err CreateLocalDirectory, w) else (Ok staged, w)
          end
      end
  end.

(** [StagedFlinkInput::create]. *)
Definition stage_flink (plan : InteroperabilityPlan) (w : W) : result StagedFlinkInput EnginePreparationFailureKind * W :=
  match make_tempdir "catalog-bench-flink-" w with
  | (None, w) => (Err TemporaryDirectory, w)
  | (Some directory, w) =>
      match as_flink (plan_execution plan) with
      | None => (Err ExecutionPlanMismatch, w)
      | Some flink =>
          match Flink.render flink with
          | Err _ => (Err RenderPlan, w)
          | Ok rendered =>
              match to_vec rendered with
              | None => (Err EncodePlan, w)
              | Some encoded =>
                  let program := path_join directory "program.json" in
                  let '(written, w) := write_file program encoded w in
                  if negb written then (Err WritePlan, w)
                  else (Ok {| sfi_directory := directory; sfi_program := program |}, w)
              end
          end
      end
  end.
End Stage.

(** ** Children *)

Inductive ReaderIssue := ProtocolIssue | StdoutIssue.

(** What ended the wait for a child unless its reader stopped first. *)
Inductive ChildWait := ChildExited (code : option Z) | ChildWaitFailed | ChildTimedOut.

(** How the task reading standard output ended. *)
Inductive ReaderEnd := ReaderFinished | ReaderPanicked | ReaderAborted.

(** A child that was spawned: whether its standard output could be taken, the
    results of the reads until the reader ended, whether the reader's signal won
    the race against the other events, which of them would end the wait, how the
    reader ended and the elapsed time. *)
Record ChildRun := {
  child_stdout : bool;
  child_reads : list (option (list ascii));
  child_reader_first : bool;
  child_wait : ChildWait;
  child_reader_end : ReaderEnd;
  child_elapsed_micros : Z;
}.

(** [Command::spawn] and everything the child does; [None] when spawning fails. *)
Class Commands (W : Type) := run_command : Command -> W -> option ChildRun * W.

Inductive WaitObservation :=
| Exited (code : option Z)
| WaitTimedOut
| WaitFailed
| ReaderStopped (issue : ReaderIssue).

Section Child.
Context `{EventParser}.

(** [drain_stdout]: the decoder, the issue it reported, and whether it failed. *)
Fixpoint drain_stdout (reads : list (option (list ascii))) (decoder : EngineEventDecoder)
  : EngineEventDecoder * option ReaderIssue * bool :=
  match reads with
  | [] | Some [] :: _ => (decoder, None, false)
  | None :: _ => (decoder, Some StdoutIssue, true)
  | Some bytes :: reads =>
      let decoder := push decoder bytes in
      match dec_failure decoder with
      | Some _ => (decoder, Some ProtocolIssue, false)
      | None => drain_stdout reads decoder
      end
  end.

Definition classify_process (wait : WaitObservation) (stdout_failed : bool) (capture : EngineEventCapture)
  : EngineProcessOutcome.t :=
  let rejected (otherwise : EngineProcessOutcome.t) :=
    match cap_protocol_failure capture with
    | Some kind => EngineProcessOutcome.ProtocolRejected kind
    | None => otherwise
    end in
  match wait with
  | WaitTimedOut => EngineProcessOutcome.TimedOut
  | WaitFailed => EngineProcessOutcome.WaitFailed
  | ReaderStopped StdoutIssue => EngineProcessOutcome.StdoutFailed
  | ReaderStopped ProtocolIssue => rejected EngineProcessOutcome.StdoutFailed
  | Exited code =>
      if stdout_failed then EngineProcessOutcome.StdoutFailed
      else rejected (EngineProcessOutcome.from_terminal code capture)
  end.

(** [collect_child]. *)
Definition collect_child (runtime : RuntimeVerification) (spawned : option ChildRun) : EngineProcessExecution :=
  match spawned with
  | None => before_process runtime EngineProcessOutcome.SpawnFailed
  | Some child =>
      if negb (child_stdout child) then
        {| pe_runtime := runtime; pe_outcome := EngineProcessOutcome.StdoutFailed; pe_capture := None;
           pe_exit_code := None; pe_process_elapsed_micros := Some (child_elapsed_micros child) |}
      else
        let '(decoder, issue, failed) := drain_stdout (child_reads child) new_decoder in
        let wait :=
          match child_reader_first child, issue with
          | true, Some issue => ReaderStopped issue
          | _, _ =>
              match child_wait child with
              | ChildExited code => Exited code
              | ChildWaitFailed => WaitFailed
              | ChildTimedOut => WaitTimedOut
              end
          end in
        let stdout_failed := match child_reader_end child with
                             | ReaderFinished => failed
                             | ReaderPanicked | ReaderAborted => true
                             end in
        let capture := finish_decoder decoder in
        {| pe_runtime := runtime; pe_outcome := classify_process wait stdout_failed capture;
           pe_capture := Some capture;
           pe_exit_code := match wait with Exited code => code | _ => None end;
           pe_process_elapsed_micros := Some (child_elapsed_micros child) |}
  end.
End Child.

(** ** Executors *)

Section Execute.
Context `{EventParser, FileSystem, Sha256, SecretSource, ProcessEnv, UrlParser}.
Context `{ToVec SparkExecutionPlan, ToVec Flink.FlinkRenderedProgram, SparkRenderer}.
Context {W : Type} `{Staging W, Commands W}.

(** The common part of the executors' [execute_with_source]. *)
Definition execute_staged {Staged : Type} (verifier : RuntimeVerifier) (plan : InteroperabilityPlan)
    (stage : InteroperabilityPlan -> W -> result Staged EnginePreparationFailureKind * W)
    (command : Staged -> EngineSecrets -> Command) (state : ObservedSecrets * W)
  : EngineProcessExecution * (ObservedSecrets * W) :=
  let '(seen, w) := state in
  let runtime := verify verifier plan in
  if negb (verification_passed runtime) then
    (before_process runtime EngineProcessOutcome.RuntimeRejected, (seen, w))
  else
    match stage plan w with
    | (Err kind, w) => (before_process runtime (EngineProcessOutcome.PreparationFailed kind), (seen, w))
    | (Ok staged, w) =>
        match load_secrets plan seen with
        | (Err failure, seen) => (before_process runtime (EngineProcessOutcome.CredentialRejected failure), (seen, w))
        | (Ok secrets, seen) =>
            let '(spawned, w) := run_command (command staged secrets) w in
            (collect_child runtime spawned, (seen, w))
        end
    end.

(** [SparkProcessExecutor::execute_with_source]. *)
Definition execute_spark (verifier : RuntimeVerifier) (plan : InteroperabilityPlan)
  : ObservedSecrets * W -> EngineProcessExecution * (ObservedSecrets * W) :=
  execute_staged verifier plan stage_spark
    (spark_command (artifact_path verifier SPARK_SUBMIT_LOCATION) plan).

(** [FlinkProcessExecutor::execute_with_source]. *)
Definition execute_flink (verifier : RuntimeVerifier) (plan : InteroperabilityPlan)
  : ObservedSecrets * W -> EngineProcessExecution * (ObservedSecrets * W) :=
  execute_staged verifier plan stage_flink (fun staged secrets =>
    flink_command (artifact_path verifier FLINK_CLI_LOCATION) plan staged secrets
      (artifact_path verifier FLINK_RUNNER_LOCATION)).
End Execute.

(** ** Properties of engine child processes

    What a completed child process shows, the environment it runs in and the
    secrets the harness remembers. *)

(** ** Captures *)

Section Capture.
Context `{EventParser}.

(** Reads that end without an issue gave their chunks to the decoder until the
    end of the output. *)
Lemma drain_stdout_complete reads decoder decoder' failed :
  drain_stdout reads decoder = (decoder', None, failed) ->
  failed = false /\ exists chunks rest, reads = ((Some <$> chunks) ++ rest)%list /\
    (rest = [] \/ exists later, rest = Some [] :: later) /\ decoder' = foldl push decoder chunks.
Proof.
  revert decoder. induction reads as [|[bytes|] reads IH]; intros decoder; simpl; [|destruct bytes as [|b bytes]|done].
  - intros [= <- <-]. split; [done|]. exists [], []. split_and!; [done|by left|done].
  - intros [= <- <-]. split; [done|]. exists [], (Some [] :: reads). split_and!; [done|right; by eexists|done].
  - destruct (dec_failure (push decoder (b :: bytes))); [done|].
    intros (-> & chunks & rest & -> & Hrest & ->)%IH. split; [done|].
    by exists ((b :: bytes) :: chunks), rest.
Qed.

Lemma drain_stdout_foldl reads decoder decoder' issue failed :
  drain_stdout reads decoder = (decoder', issue, failed) -> exists chunks, decoder' = foldl push decoder chunks.
Proof.
  revert decoder. induction reads as [|[[|b bytes]|] reads IH]; intros decoder; simpl.
  1,2,4: intros [= <- _ _]; by exists [].
  destruct (dec_failure (push decoder (b :: bytes))).
  - intros [= <- _ _]. by exists [b :: bytes].
  - intros [chunks ->]%IH. by exists ((b :: bytes) :: chunks).
Qed.

(** Whatever a child did, its capture is the capture of some of its output. *)
Lemma collect_child_capture runtime spawned capture :
  pe_capture (collect_child runtime spawned) = Some capture -> exists chunks, capture = capture_of chunks.
Proof.
  unfold collect_child. destruct spawned as [child|]; [|done]. destruct (child_stdout child); [|done]. cbn [negb].
  destruct (drain_stdout _ _) as [[decoder issue] failed] eqn:Hd. intros [= <-].
  apply drain_stdout_foldl in Hd as [chunks ->]. by exists chunks.
Qed.

Lemma collect_child_runtime runtime spawned : pe_runtime (collect_child runtime spawned) = runtime.
Proof.
  unfold collect_child. destruct spawned as [child|]; [|done]. destruct (child_stdout child); [|done].
  by destruct (drain_stdout _ _) as [[] ?].
Qed.

Lemma drain_stdout_issue reads decoder decoder' issue failed :
  drain_stdout reads decoder = (decoder', Some issue, failed) -> dec_failure decoder' <> None \/ failed = true.
Proof.
  revert decoder. induction reads as [|[[|b bytes]|] reads IH]; intros decoder; simpl; try done; [|intros [= _ _ <-]; by right].
  destruct (dec_failure (push decoder (b :: bytes))) eqn:Hf; [intros [= <- _ _]; left; congruence | apply IH].
Qed.

Lemma finish_failed decoder : dec_failure decoder <> None -> cap_protocol_failure (finish_decoder decoder) <> None.
Proof.
  unfold finish_decoder. intros Hf. destruct (dec_failure decoder) eqn:E; [|done].
  simpl. rewrite ?E. simpl. congruence.
Qed.

(** What a child did whose execution counts as completed. *)
Lemma collected_child_completed runtime child :
  process_passed (collect_child runtime (Some child)) = true ->
  exists chunks rest n, child_wait child = ChildExited (Some 0%Z) /\ child_reader_end child = ReaderFinished /\
    child_reads child = ((Some <$> chunks) ++ rest)%list /\ (rest = [] \/ exists later, rest = Some [] :: later) /\
    pe_capture (collect_child runtime (Some child)) = Some (capture_of chunks) /\
    cap_protocol_failure (capture_of chunks) = None /\
    protocol (cap_events (capture_of chunks)) n true /\ last (cap_events (capture_of chunks)) = Some Completed.
Proof.
  unfold collect_child, process_passed. destruct (child_stdout child); [|done]. cbn [negb].
  destruct (drain_stdout _ _) as [[decoder issue] failed] eqn:Hd. cbn [pe_outcome pe_exit_code pe_capture is_some_and].
  set (capture := finish_decoder decoder) in *.
  intros [[Hout Hcode%bool_decide_eq_true]%andb_true_iff Hcompleted]%andb_true_iff.
  unfold capture_completed in Hcompleted. destruct (cap_protocol_failure capture) eqn:Hok; [done|].
  destruct issue as [issue|].
  { destruct (drain_stdout_issue _ _ _ _ _ Hd) as [Hfailed| ->].
    - exfalso. by apply (finish_failed decoder).
    - by destruct (child_reader_first child), issue, (child_wait child), (child_reader_end child). }
  replace (if child_reader_first child then _ else _) with
    (match child_wait child with ChildExited code => Exited code | ChildWaitFailed => WaitFailed
     | ChildTimedOut => WaitTimedOut end) in Hout, Hcode by (by destruct (child_reader_first child)).
  destruct (child_wait child) as [code| |] eqn:Hwait; try done. subst code.
  apply drain_stdout_complete in Hd as (-> & chunks & rest & Hreads & Hrest & ->).
  destruct (finish_on_protocol _ (pushes_on_protocol _ chunks new_on_protocol)) as (_ & n & t & Hp & Ht).
  exists chunks, rest, n. rewrite (Ht Hok) in Hp.
  split_and!; try done; [by destruct (child_reader_end child)|].
  change (capture_of chunks) with capture. by destruct (last (cap_events capture)) as [[]|].
Qed.

Lemma capture_of_protocol chunks : exists n t, protocol (cap_events (capture_of chunks)) n t.
Proof.
  destruct (finish_on_protocol (foldl push new_decoder chunks)) as (_ & n & t & Hp & _); [|by exists n, t].
  apply pushes_on_protocol, new_on_protocol.
Qed.
End Capture.

(** ** Environments *)

(** A variable the child inherits from the harness. *)
Definition inherited `{ProcessEnv} (name value : string) : Prop :=
  name ∈ PUBLIC_ENVIRONMENT_ALLOWLIST /\ var_os name = Some value.

(** The variables the harness sets itself. *)
Definition child_settings (plan : InteroperabilityPlan) (root : string) (secrets : EngineSecrets)
  : list (string * string) :=
  [("PATH", FALLBACK_PATH); ("HOME", root); ("TMPDIR", root);
   ("AWS_ACCESS_KEY_ID", sec_object_store_access_key secrets);
   ("AWS_SECRET_ACCESS_KEY", sec_object_store_secret_key secrets);
   ("AWS_REGION", osp_region (plan_object_store plan));
   ("AWS_DEFAULT_REGION", osp_region (plan_object_store plan)); ("AWS_EC2_METADATA_DISABLED", "true")]
  ++ match sec_catalog_oauth secrets with
     | Some (id, secret) => [(ENGINE_OAUTH_CLIENT_ID_ENV, id); (ENGINE_OAUTH_CLIENT_SECRET_ENV, secret)]
     | None => []
     end.

Section Environment.
Context `{ProcessEnv}.

(** Peels the settings off a lookup in an environment. *)
Ltac setting H :=
  rewrite lookup_insert_Some in H; destruct H as [[<- <-]|[_ H]]; [right; set_solver|].

Lemma allowed_lookup names (env : gmap string string) :
  (forall n v, env !! n = Some v -> inherited n v) -> incl names PUBLIC_ENVIRONMENT_ALLOWLIST -> forall n v,
  foldl (fun env name => match var_os name with Some value => <[name := value]> env | None => env end) env names
    !! n = Some v -> inherited n v.
Proof.
  revert env. induction names as [|x names IH]; intros env Henv Hincl; [done|]. simpl. apply IH.
  - destruct (var_os x) as [v|] eqn:Hx; [|done]. intros n v' [[<- <-]|[_ Hn]]%lookup_insert_Some; [|by apply Henv].
    split; [|done]. apply list_elem_of_In, Hincl. by left.
  - intros n Hn. apply Hincl. by right.
Qed.

Lemma sanitized_environment_lookup root name value :
  sanitized_environment root !! name = Some value ->
  inherited name value \/ (name, value) ∈ [("PATH", FALLBACK_PATH); ("HOME", root); ("TMPDIR", root)].
Proof.
  unfold sanitized_environment. cbv zeta. intros Hl. do 2 setting Hl.
  destruct (var_os "PATH"); [|setting Hl]; left; (eapply allowed_lookup; [|apply incl_refl|exact Hl]; done).
Qed.

Lemma child_environment_lookup plan root secrets name value :
  child_environment plan root secrets !! name = Some value ->
  inherited name value \/ (name, value) ∈ child_settings plan root secrets.
Proof.
  unfold child_environment, child_settings. cbv zeta. intros Hl.
  destruct (sec_catalog_oauth secrets) as [[id secret]|]; repeat setting Hl;
    apply sanitized_environment_lookup in Hl as [|Hin]; [by left|right; set_solver|by left|right; set_solver].
Qed.

(** An engine child runs in a closed environment: every
    variable it sees is inherited through the public allow list or set by the
    harness from the plan and the credentials of this run, the object-store keys
    are those credentials. A Flink
    child never inherits the harness's Flink home: it sees the default when the
    harness has none and no variable at all when it has one. *)
Theorem child_environments_are_closed program plan secrets :
  (forall staged name value, cmd_env (spark_command program plan staged secrets) !! name = Some value ->
     inherited name value \/ (name, value) ∈ child_settings plan (ssi_directory staged) secrets \/
     (name, value) ∈ [("SPARK_HOME", "/opt/spark"); ("SPARK_LOCAL_DIRS", ssi_local staged);
                      ("PYTHONDONTWRITEBYTECODE", "1")]) /\
  (forall staged runner name value,
     cmd_env (flink_command program plan staged secrets runner) !! name = Some value ->
     inherited name value \/ (name, value) ∈ child_settings plan (sfi_directory staged) secrets \/
     (name, value) = ("FLINK_HOME", "/opt/flink")) /\
  (forall staged runner, cmd_env (flink_command program plan staged secrets runner) !! "FLINK_HOME"
     = match var_os "FLINK_HOME" with Some _ => None | None => Some "/opt/flink" end) /\
  (forall staged, cmd_env (spark_command program plan staged secrets) !! "AWS_SECRET_ACCESS_KEY"
     = Some (sec_object_store_secret_key secrets)).
Proof.
  split_and!.
  - intros staged name value. cbn [cmd_env spark_command]. intros Hl. do 2 (setting Hl).
    destruct (var_os "SPARK_HOME"); [|setting Hl]; apply child_environment_lookup in Hl as [|]; auto.
  - intros staged runner name value. cbn [cmd_env flink_command]. intros Hl.
    destruct (var_os "FLINK_HOME"); [|rewrite lookup_insert_Some in Hl; destruct Hl as [[<- <-]|[_ Hl]]; [auto|]];
      apply child_environment_lookup in Hl as [|]; auto.
  - intros staged runner. cbn [cmd_env flink_command].
    destruct (var_os "FLINK_HOME") as [home|] eqn:Hhome; [|by rewrite lookup_insert_eq].
    destruct (child_environment _ _ _ !! "FLINK_HOME") as [value|] eqn:Hl; [exfalso|done].
    apply child_environment_lookup in Hl as [[Hin _]|Hin].
    + apply list_elem_of_In in Hin. simpl in Hin. naive_solver.
    + unfold child_settings in Hin. destruct (sec_catalog_oauth secrets) as [[]|]; apply list_elem_of_In in Hin;
        simpl in Hin; naive_solver.
  - intros staged. cbn [cmd_env spark_command]. unfold child_environment. cbv zeta.
    rewrite !lookup_insert_ne by done.
    destruct (var_os "SPARK_HOME"), (sec_catalog_oauth secrets) as [[]|];
      by rewrite ?lookup_insert_ne, lookup_insert_eq by done.
Qed.
End Environment.

(** ** Secrets *)

(** The values a child is given. *)
Definition secret_values (secrets : EngineSecrets) : list string :=
  [sec_object_store_access_key secrets; sec_object_store_secret_key secrets]
  ++ match sec_catalog_oauth secrets with Some (id, secret) => [id; secret] | None => [] end.

Lemma observed_values seen value : value ∈ observed_sensitive_values seen <-> value ∈ seen.
Proof. unfold observed_sensitive_values. apply elem_of_sort_dedup. Qed.

Section Secrets.
Context `{SecretSource}.

Lemma read_required_keeps name credential seen outcome seen' :
  read_required name credential seen = (outcome, seen') -> incl seen seen'.
Proof.
  unfold read_required, read_observed. destruct (read_secret name) as [| |value]; intros [= _ <-]; try apply incl_refl.
  destruct (is_empty value); [apply incl_refl | by apply incl_appl, incl_refl].
Qed.

Lemma read_required_value name credential seen value seen' :
  read_required name credential seen = (Ok value, seen') ->
  value <> "" /\ read_secret name = SecretRead.Value value /\ value ∈ seen' /\ incl seen seen'.
Proof.
  intros Hread. pose proof (read_required_keeps _ _ _ _ _ Hread) as Hkeep. revert Hread.
  unfold read_required, read_observed. destruct (read_secret name) as [| |v]; [done..|].
  destruct (is_empty v) eqn:He; [done|]. intros [= <- <-]. split_and!; [by intros ->|done|set_solver|done].
Qed.

(** The secrets handed out are remembered. *)
Lemma load_secrets_observed plan seen secrets seen' :
  load_secrets plan seen = (Ok secrets, seen') ->
  Forall (fun value => value <> "" /\ value ∈ observed_sensitive_values seen') (secret_values secrets).
Proof.
  unfold load_secrets. intros Hload.
  repeat match type of Hload with
  | context [read_required ?n ?c ?s] =>
      let Hr := fresh "Hr" in
      destruct (read_required n c s) as [[?|?] ?] eqn:Hr; [apply read_required_value in Hr as (? & _ & ? & ?)|done]
  | context [match plan_credential_source plan with _ => _ end] => destruct (plan_credential_source plan)
  end.
  all: injection Hload as <- <-; repeat constructor; try done; apply observed_values;
    rewrite list_elem_of_In in *; eauto.
Qed.
End Secrets.

(** ** Executions *)

Section Execute.
Context `{EventParser, FileSystem, Sha256, SecretSource}.
Context {W Staged : Type} `{Commands W}.

(** A completed child process is what it claims: the runtime files
    were verified first, the command ran with staged input and with nonempty
    credentials that the harness remembers, the process exited with code zero after
    its whole output was read, and that output is a finished, accepted event
    sequence that ends in [Completed]. *)
Theorem completed_child_is_verified (verifier : RuntimeVerifier) plan
    (stage : InteroperabilityPlan -> W -> result Staged EnginePreparationFailureKind * W)
    (command : Staged -> EngineSecrets -> Command) seen w execution seen' w' :
  execute_staged verifier plan stage command (seen, w) = (execution, (seen', w')) ->
  process_passed execution = true ->
  pe_runtime execution = verify verifier plan /\ verification_passed (verify verifier plan) = true /\
  exists staged w1 secrets child chunks rest n,
    stage plan w = (Ok staged, w1) /\ load_secrets plan seen = (Ok secrets, seen') /\
    Forall (fun value => value <> "" /\ value ∈ observed_sensitive_values seen') (secret_values secrets) /\
    run_command (command staged secrets) w1 = (Some child, w') /\
    child_wait child = ChildExited (Some 0%Z) /\ child_reader_end child = ReaderFinished /\
    child_reads child = ((Some <$> chunks) ++ rest)%list /\ (rest = [] \/ exists later, rest = Some [] :: later) /\
    pe_capture execution = Some (capture_of chunks) /\ cap_protocol_failure (capture_of chunks) = None /\
    protocol (cap_events (capture_of chunks)) n true /\ last (cap_events (capture_of chunks)) = Some Completed.
Proof.
  unfold execute_staged. destruct (verification_passed _) eqn:Hv; cbn [negb]; [|by intros [= <- _ _]].
  destruct (stage plan w) as [[staged|kind] w1] eqn:Hs; [|by intros [= <- _ _]].
  destruct (load_secrets plan seen) as [[secrets|failure] seen1] eqn:Hl; [|by intros [= <- _ _]].
  destruct (run_command _ w1) as [[child|] w2] eqn:Hrun; [|by intros [= <- _ _]].
  intros Heq. assert (Hexec : execution = collect_child (verify verifier plan) (Some child)) by congruence.
  assert (seen1 = seen') as -> by congruence. assert (w2 = w') as -> by congruence. rewrite Hexec.
  intros (chunks & rest & n & Hwait & Hend & Hreads & Hrest & Hcapture & Hok & Hp & Hlast)%collected_child_completed.
  split; [apply collect_child_runtime|].
  split; [done|]. exists staged, w1, secrets, child, chunks, rest, n. split_and!; try done.
  by eapply load_secrets_observed.
Qed.
End Execute.
