(* ===== verification/EngineTrino.v ===== *)
(** * The Trino engine (crates/engine/src/{trino,trino_child}.rs)

    Rendering a plan into SQL and server configuration, and the deterministic
    program a Trino child runs over the effects of [TrinoEffects]. *)

From S2P Require Import Prelude Order RustStr ContractValue ContractAdapter Transport EngineParameters EnginePlan.
From S2P Require Import EngineSql EngineEvents.
From Stdlib Require Import Ascii.
Open Scope string_scope.

Module Trino.

Definition TrinoRenderError : Type := string.

Record TrinoRenderedProgram := {
  task_concurrency : Z;
  catalog : CatalogSetup;
  fixture : FixtureTarget;
  observation : ObservationPolicy;
  operations : list Operation.t;
}.

Definition render_type (field_type : IcebergPrimitiveType) : string :=
  match field_type with Long => "BIGINT" | IcebergString => "VARCHAR" end.

Definition identifier (value : string) : result string TrinoRenderError :=
  guard negb (valid_identifier value) or "Trino identifier is outside the closed vocabulary" in
  Ok (quote +:+ value +:+ quote).

Definition not_null (required : bool) : string := if required then " NOT NULL" else "".

Definition render_field (field : IcebergField) : result string TrinoRenderError :=
  let? name := identifier (if_name field) in
  Ok (name +:+ " " +:+ render_type (if_type field) +:+ not_null (if_required field)).

(** [bool::to_string]. *)
Definition bool_text (b : bool) : string := if b then "true" else "false".

Definition catalog_properties (plan : TrinoExecutionPlan) : gmap string string :=
  let properties : gmap string string := list_to_map
    [("connector.name", "iceberg"); ("iceberg.catalog.type", "rest");
     ("iceberg.rest-catalog.uri", rcp_uri (trino_catalog plan));
     ("fs.s3.enabled", bool_text (tfio_enabled (trino_file_io plan)));
     ("s3.endpoint", tfio_endpoint (trino_file_io plan)); ("s3.region", tfio_region (trino_file_io plan));
     ("s3.path-style-access", bool_text (tfio_path_style_access (trino_file_io plan)));
     ("iceberg.allowed-extra-properties",
      join "," (btree_entries String.compare (tp_properties (sp_table (trino_scenario plan)))).*1)] in
  let properties := match rcp_warehouse (trino_catalog plan) with
                    | Some warehouse => <["iceberg.rest-catalog.warehouse" := warehouse]> properties
                    | None => properties
                    end in
  let properties := match rcp_prefix (trino_catalog plan) with
                    | Some prefix => <["iceberg.rest-catalog.prefix" := prefix]> properties
                    | None => properties
                    end in
  match rcp_authentication (trino_catalog plan) with
  | EngineAnonymous => <["iceberg.rest-catalog.security" := "NONE"]> properties
  | EngineOAuth2ClientCredentials oauth2_server_uri scope =>
      <["iceberg.rest-catalog.oauth2.scope" := scope]>
        (<["iceberg.rest-catalog.oauth2.server-uri" := oauth2_server_uri]>
          (<["iceberg.rest-catalog.security" := "OAUTH2"]> properties))
  end.

(** The entries between the parentheses of [WITH (..)]. *)
Definition table_properties (plan : TrinoExecutionPlan) : list string :=
  let scenario := trino_scenario plan in
  let entries := btree_entries String.compare (tp_properties (sp_table scenario)) in
  (["format = 'PARQUET'"; "format_version = " +:+ display (tp_format_version (sp_table scenario))]
   ++ match fixture_requested_location (trino_fixture plan) with
      | Some location => ["location = " +:+ literal location]
      | None => []
      end
   ++ match entries with
      | [] => []
      | _ => ["extra_properties = MAP(ARRAY[" +:+ join ", " (literal <$> entries.*1)
              +:+ "], ARRAY[" +:+ join ", " (literal <$> entries.*2) +:+ "])"]
      end)%list.

Section Render.
Context `{UrlParser}.

Definition validate_plan (plan : TrinoExecutionPlan) : result unit TrinoRenderError :=
  guard negb (trino_format plan =? TRINO_PLAN_FORMAT) or "unsupported Trino plan format" in
  guard negb (tes_task_concurrency (trino_execution plan) =? 1)%Z or "unsupported Trino execution settings" in
  let file_io := trino_file_io plan in
  guard negb (rcp_name (trino_catalog plan) =? TRINO_CATALOG_NAME)
        || negb (credential_free_http_url (rcp_uri (trino_catalog plan))) || negb (tfio_enabled file_io)
        || negb (credential_free_http_url (tfio_endpoint file_io)) || is_empty (tfio_bucket file_io)
        || is_empty (tfio_region file_io) || negb (tfio_path_style_access file_io)
    or "unsupported Trino catalog or file IO policy" in
  guard is_some_and (fun location => negb (table_location_supported location (tfio_bucket file_io)))
          (fixture_requested_location (trino_fixture plan))
    or "invalid Trino table location" in
  guard negb (policy_authorizes_renderer (trino_scenario plan) (trino_fixture plan))
    or "scenario policy does not authorize the Trino renderer" in
  Ok tt.

(** [TrinoRenderedProgram::render]. *)
Definition render (plan : TrinoExecutionPlan) : result TrinoRenderedProgram TrinoRenderError :=
  check? validate_plan plan in
  let? namespace := identifier (fixture_namespace (trino_fixture plan)) in
  let? table := identifier (fixture_table (trino_fixture plan)) in
  let? catalog_name := identifier (rcp_name (trino_catalog plan)) in
  let qualified_namespace := catalog_name +:+ "." +:+ namespace in
  let qualified_table := qualified_namespace +:+ "." +:+ table in
  let scenario := trino_scenario plan in
  let fields := is_fields (tp_schema (sp_table scenario)) in
  let? schema := collect_results render_field fields in
  let create_table := "CREATE TABLE " +:+ qualified_table +:+ " (" +:+ join ", " schema +:+ ") WITH ("
                      +:+ join ", " (table_properties plan) +:+ ")" in
  let? initial_columns := collect_results (fun field => identifier (if_name field)) fields in
  let evolution := se_field (sp_schema_evolution scenario) in
  let? evolved_column := identifier (ef_name evolution) in
  let evolved_columns := (initial_columns ++ [evolved_column])%list in
  let? initial_values := render_rows scenario false in
  let? evolved_values := render_rows scenario true in
  let reads := sp_canonical_reads scenario in
  let? initial_read := render_read qualified_table (cread_columns (creads_initial reads)) (creads_order_by reads)
                         identifier in
  let? evolved_read := render_read qualified_table (cread_columns (creads_after_evolution reads))
                         (creads_order_by reads) identifier in
  let add_column := "ALTER TABLE " +:+ qualified_table +:+ " ADD COLUMN " +:+ evolved_column +:+ " "
                    +:+ render_type (ef_type evolution) +:+ not_null (ef_required evolution) in
  Ok {| task_concurrency := tes_task_concurrency (trino_execution plan);
        catalog := {| setup_name := rcp_name (trino_catalog plan); setup_properties := catalog_properties plan;
                      setup_authentication := rcp_authentication (trino_catalog plan) |};
        fixture := fixture_target (trino_fixture plan) (tfio_bucket (trino_file_io plan));
        observation := observation_policy scenario;
        operations :=
          [Operation.CreateNamespace ("CREATE SCHEMA IF NOT EXISTS " +:+ qualified_namespace);
           Operation.CreateTable create_table;
           Operation.InitialAppend (render_insert qualified_table initial_columns initial_values);
           Operation.InitialRead initial_read (creads_initial reads);
           Operation.AddColumn add_column;
           Operation.EvolvedAppend (render_insert qualified_table evolved_columns evolved_values);
           Operation.EvolvedRead evolved_read (creads_after_evolution reads);
           Operation.SnapshotRead ("SELECT * FROM " +:+ qualified_namespace +:+ "." +:+ quote
             +:+ fixture_table (trino_fixture plan) +:+ "$snapshots" +:+ quote)] |}.
End Render.

(** ** Server configuration *)

Definition TRINO_JVM_CONFIG : list string :=
  ["-server"; "-agentpath:/usr/lib/trino/bin/libjvmkill.so"; "-XX:InitialRAMPercentage=80";
   "-XX:MaxRAMPercentage=80"; "-XX:G1HeapRegionSize=32M"; "-XX:+ExplicitGCInvokesConcurrent";
   "-XX:+HeapDumpOnOutOfMemoryError"; "-XX:+ExitOnOutOfMemoryError"; "-XX:-OmitStackTraceInFastThrow";
   "-XX:ReservedCodeCacheSize=256M"; "-XX:PerMethodRecompilationCutoff=10000";
   "-XX:PerBytecodeRecompilationCutoff=10000"; "-Djdk.attach.allowAttachSelf=true";
   "-Djdk.nio.maxCachedBufferSize=2000000"].

(** A line feed. *)
Definition line_feed : string := String (ascii_of_N 10) "".

Record TrinoConfigurationFile := { relative_path : string; contents : string }.

#[global] Instance TrinoConfigurationFile_eq_dec : EqDecision TrinoConfigurationFile.
Proof. solve_decision. Defined.

(** [TrinoServerConfiguration]: its files. *)
Definition TrinoServerConfiguration : Type := list TrinoConfigurationFile.

Definition environment_reference (name : string) : string := "${ENV:" +:+ name +:+ "}".

(** [u8::is_ascii_graphic]. *)
Definition is_ascii_graphic : ascii -> bool := between 33 126.

Definition valid_property_key (value : string) : bool :=
  negb (is_empty value) && (str_len value <=? 256)%Z
  && all_bytes (fun byte => is_ascii_alphanumeric byte || is_byte 46 byte || is_byte 45 byte || is_byte 95 byte) value.

Definition valid_property_value (value : string) : bool :=
  negb (is_empty value) && (str_len value <=? 4096)%Z
  && all_bytes (fun byte => is_ascii_graphic byte || is_byte 32 byte) value.

(** One turn of the loop of [render_property_file]. *)
Definition render_property (rendered : string) (property : string * string) : result string TrinoRenderError :=
  guard negb (valid_property_key property.1) || negb (valid_property_value property.2)
    or "Trino configuration contains an unsafe property" in
  Ok (rendered +:+ property.1 +:+ "=" +:+ property.2 +:+ line_feed).

Definition render_property_file (properties : gmap string string) : result string TrinoRenderError :=
  try_fold render_property "" (btree_entries String.compare properties).

(** [TrinoServerConfiguration::render]. *)
Definition render_configuration (program : TrinoRenderedProgram) : result TrinoServerConfiguration TrinoRenderError :=
  guard negb (task_concurrency program =? 1)%Z || negb (setup_name (catalog program) =? TRINO_CATALOG_NAME)
    or "unsupported Trino server configuration input" in
  let properties := <["s3.aws-secret-key" := environment_reference S3_SECRET_KEY_ENV]>
    (<["s3.aws-access-key" := environment_reference S3_ACCESS_KEY_ENV]> (setup_properties (catalog program))) in
  let properties := match setup_authentication (catalog program) with
    | EngineOAuth2ClientCredentials _ _ =>
        <["iceberg.rest-catalog.oauth2.credential" := environment_reference "CATALOG_BENCH_ENGINE_OAUTH_CREDENTIAL"]>
          properties
    | EngineAnonymous => properties
    end in
  let? catalog := render_property_file properties in
  let? config := render_property_file (list_to_map
    [("coordinator", "true"); ("node-scheduler.include-coordinator", "true");
     ("discovery.uri", "http://127.0.0.1:8080"); ("catalog.management", "static");
     ("task.concurrency", display (task_concurrency program))]) in
  let? node := render_property_file (list_to_map
    [("node.environment", "catalog_bench"); ("node.id", environment_reference "CATALOG_BENCH_TRINO_NODE_ID");
     ("node.data-dir", environment_reference "CATALOG_BENCH_TRINO_DATA_DIR")]) in
  Ok [{| relative_path := "catalog/bench.properties"; contents := catalog |};
      {| relative_path := "config.properties"; contents := config |};
      {| relative_path := "jvm.config"; contents := String.concat "" ((fun line => line +:+ line_feed) <$> TRINO_JVM_CONFIG) |};
      {| relative_path := "log.properties"; contents := "io.trino=INFO" +:+ line_feed |};
      {| relative_path := "node.properties"; contents := node |}].

(** ** The child program (trino_child.rs) *)

(** [TrinoEffects]: a failed effect is [None]. *)
Class TrinoEffects (W : Type) := {
  runtime_observation : W -> option EngineRuntimeObservation * W;
  initialize_catalog : CatalogSetup -> TrinoServerConfiguration -> W -> option unit * W;
  fixture_absent : FixtureTarget -> W -> option bool * W;
  execute : Operation.t -> W -> option unit * W;
  namespace_listed_exactly : FixtureTarget -> W -> option bool * W;
  observe_table : FixtureTarget -> ObservationPolicy -> W -> option EngineTableObservation * W;
  read : Operation.t -> W -> option RowReadObservation * W;
  snapshot_count : Operation.t -> W -> option Z * W;
}.

Definition valid_operation_order (operations : list Operation.t) : bool :=
  bool_decide (Operation.purpose <$> operations =
    [PurposeCreateNamespace; PurposeCreateTable; PurposeInitialAppend; PurposeInitialRead; PurposeAddColumn;
     PurposeEvolvedAppend; PurposeEvolvedRead; PurposeSnapshotRead]).

(** [expected_read]; [None] is the panic of [unreachable!]. *)
Definition expected_read (operation : Operation.t) : option RowReadObservation :=
  match operation with
  | Operation.InitialRead _ expected | Operation.EvolvedRead _ expected =>
      Some {| rr_rows := cread_rows expected; rr_bytes := cread_bytes expected; rr_sha256 := cread_sha256 expected |}
  | _ => None
  end.

Section Child.
Context {W : Type} `{TrinoEffects W}.

(** [execute(operation).is_err() || !matches!(namespace_listed_exactly(fixture), Ok(true))]. *)
Definition create_listed_namespace (operation : Operation.t) (fixture : FixtureTarget) (w : W) : option unit * W :=
  match execute operation w with
  | (None, w) => (None, w)
  | (Some _, w) =>
      match namespace_listed_exactly fixture w with
      | (Some true, w) => (Some tt, w)
      | (_, w) => (None, w)
      end
  end.

(** [matches!(read(operation), Ok(ref read) if read == &expected)]. *)
Definition read_exactly (operation : Operation.t) (expected : RowReadObservation) (w : W) : option unit * W :=
  match read operation w with
  | (Some observed, w) => (if bool_decide (observed = expected) then Some tt else None, w)
  | (None, w) => (None, w)
  end.

(** [expected_read], the read, and the comparison with it. *)
Definition read_step (operation : Operation.t) (events : list EngineEvent) (stage : EngineStage)
    (next : RowReadObservation -> W -> option (InProcessRun * W)) (w : W) : option (InProcessRun * W) :=
  match expected_read operation with
  | Some expected =>
      attempt (read_exactly operation expected) events stage EngineFailureCategory.Data (fun _ => next expected) w
  | None => None
  end.

(** The part of [run_trino_child] after the fixture was found absent. *)
Definition run_operations (program : TrinoRenderedProgram) (events : list EngineEvent) (w : W)
  : option (InProcessRun * W) :=
  match operations program with
  | [create_namespace; create_table; initial_append; initial_read; add_column; evolved_append; evolved_read; snapshots] =>
      let observe := observe_table (fixture program) (observation program) in
      attempt (create_listed_namespace create_namespace (fixture program)) events CreateNamespace
        EngineFailureCategory.Catalog (fun _ =>
      let events := (events ++ [NamespaceReady true])%list in
      attempt (execute create_table) events CreateTable EngineFailureCategory.Connector (fun _ =>
      attempt observe events CreateTable EngineFailureCategory.Connector (fun table =>
      let events := (events ++ [TableReady table])%list in
      attempt (execute initial_append) events AppendInitial EngineFailureCategory.Data (fun _ =>
      attempt (snapshot_count snapshots) events AppendInitial EngineFailureCategory.Data (fun count =>
      let events := (events ++ [InitialAppended count])%list in
      read_step initial_read events ReadInitial (fun expected =>
      let events := (events ++ [InitialRead expected])%list in
      attempt (execute add_column) events EvolveSchema EngineFailureCategory.Connector (fun _ =>
      attempt observe events EvolveSchema EngineFailureCategory.Connector (fun table =>
      let events := (events ++ [SchemaEvolved table])%list in
      attempt (execute evolved_append) events AppendEvolved EngineFailureCategory.Data (fun _ =>
      attempt (snapshot_count snapshots) events AppendEvolved EngineFailureCategory.Data (fun count =>
      let events := (events ++ [EvolvedAppended count])%list in
      read_step evolved_read events ReadEvolved (fun expected =>
      let events := (events ++ [EvolvedRead expected])%list in
      attempt observe events ObserveFinalTable EngineFailureCategory.Connector (fun table w =>
      Some ((SUCCESS_EXIT, (events ++ [FinalTable table; Completed])%list), w))
      ))))))))))) w
  | _ => None
  end.

(** [run_trino_child]; [None] is a panic of an index or of [unreachable!]. *)
Definition run_trino_child (program : TrinoRenderedProgram) : W -> option (InProcessRun * W) :=
  attempt runtime_observation [] VerifyRuntime EngineFailureCategory.Runtime (fun runtime w =>
  let events := [RuntimeReady runtime] in
  let rejected := Some (failed_run events InitializeCatalog EngineFailureCategory.Connector, w) in
  if negb (valid_operation_order (operations program)) then rejected
  else
    match render_configuration program with
    | Err _ => rejected
    | Ok configuration =>
        attempt (initialize_catalog (catalog program) configuration) events InitializeCatalog
          EngineFailureCategory.Connector (fun _ =>
        let events := (events ++ [CatalogReady])%list in
        attempt (fixture_absent (fixture program)) events PreflightFixture EngineFailureCategory.Catalog (fun absent w =>
        let events := (events ++ [FixturePreflight absent])%list in
        if negb absent
        then Some ((FIXTURE_COLLISION_EXIT, events), w)
        else run_operations program events w)) w
    end).
End Child.
End Trino.
