(* ===== verification/EngineDecode.v ===== *)
(** * Decoding what engines leave behind
      (crates/engine/src/{strict_json,iceberg_metadata,trino_cli}.rs)

    JSON that rejects duplicate object keys, the bounded projection of a table
    metadata object into an observation, and the strict decoding of the Trino
    command line's rows. Reading JSON text is the serde_json crate's work and
    inflating gzip the flate2 crate's. *)

From S2P Require Import Prelude Order RustStr Json ContractValue ContractAdapter Ledger Transport Capture.
From S2P Require Import EngineParameters EnginePlan EngineSql EngineEvents EngineCatalog.
From Stdlib Require Import Ascii.
Open Scope string_scope.

(** ** Strict JSON (strict_json.rs) *)

(** What the deserializer hands to a visitor, in text order: every entry of an
    object, also of a repeated key, and a [Broken] part where it reports an
    error. *)
#[warning="-register-all"]
Inductive RawJson :=
| RawNull
| RawBool (b : bool)
| RawNum (n : Number)
| RawStr (s : string)
| RawArray (values : list RawJson)
| RawObject (entries : list (string * RawJson))
| Broken.

(** [serde_json::from_slice] up to the visitor: the value and whether the text
    ends after it. *)
Class RawJsonReader := read_raw : list ascii -> RawJson * bool.

Inductive StrictJsonError := DuplicateKey | Malformed.

(** [Map::insert(..).is_some()]. *)
Definition has_key (key : string) (entries : list (string * Value)) : bool :=
  existsb (fun entry => entry.1 =? key) entries.

(** [StrictJsonVisitor]. *)
Fixpoint visit (raw : RawJson) : result Value StrictJsonError :=
  match raw with
  | RawNull => Ok Null
  | RawBool b => Ok (Bool b)
  | RawNum n => Ok (Num n)
  | RawStr s => Ok (Str s)
  | RawArray values =>
      result_map Array ((fix go (l : list RawJson) : result (list Value) StrictJsonError :=
        match l with
        | [] => Ok []
        | v :: l => let? v := visit v in let? vs := go l in Ok (v :: vs)
        end) values)
  | RawObject entries =>
      result_map Object ((fix go (l : list (string * RawJson)) (values : list (string * Value))
          : result (list (string * Value)) StrictJsonError :=
        match l with
        | [] => Ok values
        | (key, v) :: l =>
            let? v := visit v in
            guard has_key key values or DuplicateKey in
            go l (object_insert key v values)
        end) entries [])
  | Broken => Err Malformed
  end.

Definition decode_strict_json `{RawJsonReader} (bytes : list ascii) : result Value StrictJsonError :=
  let '(raw, complete) := read_raw bytes in
  let? value := visit raw in
  guard negb complete or Malformed in
  Ok value.

(** [Map::get]. *)
Definition object_get (key : string) (entries : list (string * Value)) : option Value :=
  snd <$> find (fun entry => entry.1 =? key) entries.

Definition as_u64 (v : Value) : option Z :=
  match v with Num (PosInt n) => Some n | _ => None end.
Definition as_object (v : Value) : option (list (string * Value)) :=
  match v with Object entries => Some entries | _ => None end.
Definition as_array (v : Value) : option (list Value) :=
  match v with Array values => Some values | _ => None end.

(** ** Table metadata (iceberg_metadata.rs) *)

Definition MAXIMUM_ICEBERG_METADATA_BYTES : Z := 4 * 1024 * 1024.
Definition MAXIMUM_METADATA_TEXT_BYTES : Z := 4096.

Module IcebergMetadataError.
Inductive t :=
| TooLarge | Malformed | UnsupportedVersion | InvalidIdentity | InvalidLocation | InvalidSchema
| InvalidSnapshots | InvalidProperties.
End IcebergMetadataError.

Definition required_text (object : list (string * Value)) (key : string) : result string IcebergMetadataError.t :=
  ok_or (match object_get key object ≫= as_str with
         | Some value => if (str_len value <=? MAXIMUM_METADATA_TEXT_BYTES)%Z then Some value else None
         | None => None
         end) IcebergMetadataError.Malformed.

Definition required_u64 (object : list (string * Value)) (key : string) : result Z IcebergMetadataError.t :=
  ok_or (object_get key object ≫= as_u64) IcebergMetadataError.Malformed.

(** [GzDecoder]: the bytes it yields before it ends or fails, and whether it fails. *)
Class GzipReader := gunzip : list ascii -> list ascii * bool.

Definition decode_metadata_bytes `{GzipReader} (bytes : list ascii) (metadata_location : string)
  : result (list ascii) IcebergMetadataError.t :=
  if negb (ends_with ".gz.metadata.json" metadata_location) then Ok bytes
  else
    let '(decoded, failed) := gunzip bytes in
    guard (MAXIMUM_ICEBERG_METADATA_BYTES <? len decoded)%Z or IcebergMetadataError.TooLarge in
    guard failed or IcebergMetadataError.Malformed in
    Ok decoded.

Definition decode_field (value : Value) : result EngineFieldObservation IcebergMetadataError.t :=
  let? field := ok_or (as_object value) IcebergMetadataError.InvalidSchema in
  let? id := required_u64 field "id" in
  let? id := ok_or (try_from i32_max id) IcebergMetadataError.InvalidSchema in
  guard (id <=? 0)%Z or IcebergMetadataError.InvalidSchema in
  let? name := required_text field "name" in
  guard is_empty name || (256 <? str_len name)%Z or IcebergMetadataError.InvalidSchema in
  let? required := ok_or (object_get "required" field ≫= as_bool) IcebergMetadataError.InvalidSchema in
  let? text := required_text field "type" in
  let? field_type :=
    if text =? "long" then Ok Long
    else if text =? "string" then Ok IcebergString
    else Err IcebergMetadataError.InvalidSchema in
  Ok {| fo_id := id; fo_name := name; fo_required := required; fo_field_type := field_type |}.

Definition observation_from_field (field : IcebergField) : EngineFieldObservation := {|
  fo_id := if_id field; fo_name := if_name field; fo_required := if_required field; fo_field_type := if_type field |}.

Definition validate_scenario_schema (observed : list EngineFieldObservation) (last_column_id : Z)
    (policy : ObservationPolicy) : result unit IcebergMetadataError.t :=
  let initial := observation_from_field <$> op_initial_schema policy in
  let initial_last := default 0%Z (maximum (fo_id <$> initial)) in
  if bool_decide (observed = initial) && (last_column_id =? initial_last)%Z then Ok tt
  else
    let? evolved_id := ok_or (checked_add i32_max initial_last 1) IcebergMetadataError.InvalidSchema in
    let field := op_evolved_field policy in
    let evolved := (initial ++ [{| fo_id := evolved_id; fo_name := ef_name field; fo_required := ef_required field;
                                   fo_field_type := ef_type field |}])%list in
    guard negb (bool_decide (observed = evolved) && (last_column_id =? evolved_id)%Z)
      or IcebergMetadataError.InvalidSchema in
    Ok tt.

Section Metadata.
Context `{UrlParser, UuidParser, RawJsonReader, GzipReader}.

Definition validate_s3_location (value bucket : string) (require_metadata_json : bool)
  : result unit IcebergMetadataError.t :=
  let? url := map_err (fun _ => IcebergMetadataError.InvalidLocation) (url_parse value) in
  guard negb (url_scheme url =? "s3") || negb (bool_decide (url_host_str url = Some bucket))
        || negb (is_empty (url_username url)) || negb (is_none (url_password url)) || negb (is_none (url_query url))
        || negb (is_none (url_fragment url))
        || require_metadata_json && (negb (contains "/metadata/" (url_path url)) || negb (ends_with ".json" (url_path url)))
    or IcebergMetadataError.InvalidLocation in
  Ok tt.

(** The current schema and its fields. *)
Definition current_fields (object : list (string * Value)) : result (list EngineFieldObservation) IcebergMetadataError.t :=
  let? current_schema_id := required_u64 object "current-schema-id" in
  let? schemas := ok_or (object_get "schemas" object ≫= as_array) IcebergMetadataError.InvalidSchema in
  let? current := ok_or (find (fun schema => match required_u64 schema "schema-id" with
                                             | Ok id => (id =? current_schema_id)%Z
                                             | Err _ => false
                                             end) (omap as_object schemas)) IcebergMetadataError.InvalidSchema in
  guard negb (bool_decide (object_get "type" current ≫= as_str = Some "struct")) or IcebergMetadataError.InvalidSchema in
  let? fields := ok_or (object_get "fields" current ≫= as_array) IcebergMetadataError.InvalidSchema in
  collect_results decode_field fields.

Definition snapshot_total (object : list (string * Value)) : result Z IcebergMetadataError.t :=
  match object_get "snapshots" object with
  | None | Some Null => Ok 0%Z
  | Some (Array snapshots) => ok_or (try_from u64_max (len snapshots)) IcebergMetadataError.InvalidSnapshots
  | Some _ => Err IcebergMetadataError.InvalidSnapshots
  end.

(** The properties of the policy, compared with the table's. *)
Definition observed_properties (object : list (string * Value)) (policy : ObservationPolicy)
  : result (gmap string EnginePropertyObservation.t) IcebergMetadataError.t :=
  let? properties := ok_or (object_get "properties" object ≫= as_object) IcebergMetadataError.InvalidProperties in
  guard existsb (fun entry => match as_str entry.2 with
                              | Some text => (MAXIMUM_METADATA_TEXT_BYTES <? str_len text)%Z
                              | None => true
                              end) properties
    or IcebergMetadataError.InvalidProperties in
  Ok (map_imap (fun key expected =>
        Some (if bool_decide (object_get key properties ≫= as_str = Some expected)
              then EnginePropertyObservation.Match else EnginePropertyObservation.Mismatch)) (op_properties policy)).

Definition decode_iceberg_table_metadata (bytes : list ascii) (metadata_location : string) (fixture : FixtureTarget)
    (policy : ObservationPolicy) : result EngineTableObservation IcebergMetadataError.t :=
  guard (MAXIMUM_ICEBERG_METADATA_BYTES <? len bytes)%Z or IcebergMetadataError.TooLarge in
  let? decoded := decode_metadata_bytes bytes metadata_location in
  let? document := map_err (fun _ => IcebergMetadataError.Malformed) (decode_strict_json decoded) in
  let? object := ok_or (as_object document) IcebergMetadataError.Malformed in
  let? format_version := required_u64 object "format-version" in
  guard negb (format_version =? op_format_version policy)%Z || negb (format_version =? 2)%Z
    or IcebergMetadataError.UnsupportedVersion in
  let? table_uuid := required_text object "table-uuid" in
  let? parsed_uuid := ok_or (uuid_parse table_uuid) IcebergMetadataError.InvalidIdentity in
  guard negb (uuid_display parsed_uuid =? table_uuid) or IcebergMetadataError.InvalidIdentity in
  let? location := required_text object "location" in
  check? validate_s3_location location (ft_bucket fixture) false in
  check? validate_s3_location metadata_location (ft_bucket fixture) true in
  guard negb (starts_with (trim_end_matches 47 location +:+ "/metadata/") metadata_location)
    or IcebergMetadataError.InvalidLocation in
  guard is_some_and (fun expected => negb (trim_end_matches 47 location =? trim_end_matches 47 expected))
          (ft_requested_location fixture)
    or IcebergMetadataError.InvalidLocation in
  let? last_column_id := required_u64 object "last-column-id" in
  let? last_column_id := ok_or (try_from i32_max last_column_id) IcebergMetadataError.InvalidSchema in
  let? schema := current_fields object in
  check? validate_scenario_schema schema last_column_id policy in
  let? snapshots := snapshot_total object in
  let? properties := observed_properties object policy in
  Ok {| to_table_uuid := table_uuid; to_metadata_location := metadata_location; to_location := location;
        to_format_version := 2; to_last_column_id := last_column_id; to_schema := schema; to_snapshots := snapshots;
        to_properties := properties |}.
End Metadata.

(** ** The Trino command line (trino_cli.rs) *)

Definition MAXIMUM_TRINO_CLI_BYTES : Z := 16 * 1024 * 1024.
Definition MAXIMUM_TRINO_SCALAR_BYTES : Z := 64 * 1024.
Definition MAXIMUM_TRINO_SCALAR_TEXT_BYTES : Z := 4096.

Module TrinoCliDecodeError.
Inductive t :=
| OutputTooLarge | MissingTrailingLf | MalformedRow | DuplicateColumn | UnexpectedColumns | UnsupportedValue
| TooManyRows | CanonicalOutputTooLarge.
End TrinoCliDecodeError.

Module TrinoCliScalarError.
Inductive t := OutputTooLarge | InvalidShape | DuplicateColumn | InvalidValue.
End TrinoCliScalarError.

(** [strip_suffix] of a final line feed. *)
Definition strip_final_lf (output : list ascii) : option (list ascii) :=
  match last output with
  | Some byte => if is_byte 10 byte then Some (removelast output) else None
  | None => None
  end.

(** [split(|byte| *byte == b'\n')]. *)
Fixpoint split_lines (bytes : list ascii) : list (list ascii) :=
  match bytes with
  | [] => [[]]
  | byte :: bytes =>
      if is_byte 10 byte then [] :: split_lines bytes
      else match split_lines bytes with
           | line :: lines => (byte :: line) :: lines
           | [] => [[byte]]
           end
  end.

(** [chars().any(char::is_control)]: the C0 controls, DEL, and the C1 controls,
    which UTF-8 writes as [0xC2] and a byte below [0xA0]. *)
Fixpoint has_control (s : string) : bool :=
  match s with
  | EmptyString => false
  | String byte rest =>
      (code byte <? 32)%Z || is_byte 127 byte
      || is_byte 194 byte && match rest with String next _ => between 128 159 next | EmptyString => false end
      || has_control rest
  end.

(** [serde_json::to_writer] of an array of values. *)
Class ValuesWriter := write_values : list Value -> option (list ascii).

Section TrinoCli.
Context `{RawJsonReader}.

Definition single_value (output : list ascii) (column : string) : result Value TrinoCliScalarError.t :=
  guard (MAXIMUM_TRINO_SCALAR_BYTES <? len output)%Z or TrinoCliScalarError.OutputTooLarge in
  guard negb (valid_identifier column) or TrinoCliScalarError.InvalidShape in
  let? line := ok_or (strip_final_lf output) TrinoCliScalarError.InvalidShape in
  guard match line with [] => true | _ => false end || existsb (is_byte 10) line
    or TrinoCliScalarError.InvalidShape in
  let? value := map_err (fun error => match error with
                                      | DuplicateKey => TrinoCliScalarError.DuplicateColumn
                                      | Malformed => TrinoCliScalarError.InvalidShape
                                      end) (decode_strict_json line) in
  match value with
  | Object [(key, value)] =>
      guard negb (key =? column) or TrinoCliScalarError.InvalidShape in Ok value
  | _ => Err TrinoCliScalarError.InvalidShape
  end.

Definition decode_trino_single_u64 (output : list ascii) (column : string) : result Z TrinoCliScalarError.t :=
  let? value := single_value output column in
  ok_or (as_u64 value) TrinoCliScalarError.InvalidValue.

Definition decode_trino_single_text (output : list ascii) (column : string) : result string TrinoCliScalarError.t :=
  let? value := single_value output column in
  ok_or (match as_str value with
         | Some text => if negb (is_empty text) && (str_len text <=? MAXIMUM_TRINO_SCALAR_TEXT_BYTES)%Z
                           && negb (has_control text)
                        then Some text else None
         | None => None
         end) TrinoCliScalarError.InvalidValue.

Context `{ValuesWriter, Sha256}.

(** One turn of the loop over the lines: the rows and the canonical text so far. *)
Definition canonical_row (expected : CanonicalRead) (state : Z * list ascii) (line : list ascii)
  : result (Z * list ascii) TrinoCliDecodeError.t :=
  let '(rows, canonical) := state in
  guard match line with [] => true | _ => false end or TrinoCliDecodeError.MalformedRow in
  guard (cread_rows expected <=? rows)%Z or TrinoCliDecodeError.TooManyRows in
  let? row := map_err (fun error => match error with
                                    | DuplicateKey => TrinoCliDecodeError.DuplicateColumn
                                    | Malformed => TrinoCliDecodeError.MalformedRow
                                    end) (decode_strict_json line) in
  let? row := ok_or (as_object row) TrinoCliDecodeError.MalformedRow in
  guard existsb (fun entry => match entry.2 with Array _ | Object _ => true | _ => false end) row
    or TrinoCliDecodeError.UnsupportedValue in
  guard negb (bool_decide ((list_to_set row.*1 : gset string) = list_to_set (cread_columns expected)))
    or TrinoCliDecodeError.UnexpectedColumns in
  let? text := ok_or (write_values (omap (fun column => object_get column row) (cread_columns expected)))
                 TrinoCliDecodeError.MalformedRow in
  let canonical := (canonical ++ text ++ [ascii_of_N 10])%list in
  guard (MAXIMUM_TRINO_CLI_BYTES <? len canonical)%Z or TrinoCliDecodeError.CanonicalOutputTooLarge in
  Ok (rows + 1, canonical)%Z.

Definition decode_trino_canonical_read (output : list ascii) (expected : CanonicalRead)
  : result RowReadObservation TrinoCliDecodeError.t :=
  guard (MAXIMUM_TRINO_CLI_BYTES <? len output)%Z or TrinoCliDecodeError.OutputTooLarge in
  guard match output with [] => false | _ => is_none (strip_final_lf output) end
    or TrinoCliDecodeError.MissingTrailingLf in
  guard negb (all_distinct (cread_columns expected)) or TrinoCliDecodeError.UnexpectedColumns in
  let lines := match output with [] => [] | _ => split_lines (default output (strip_final_lf output)) end in
  let? read := try_fold (canonical_row expected) (0%Z, []) lines in
  Ok {| rr_rows := read.1; rr_bytes := Z.min u64_max (len read.2); rr_sha256 := sha256_hex read.2 |}.
End TrinoCli.

(** ** What decoding guarantees (crates/engine/src/{strict_json,iceberg_metadata,trino_cli}.rs)

    Strict JSON accepts exactly the documents whose objects repeat no key, and a
    decoded table observation is well formed and of the planned schema. *)

(** ** Strict JSON *)

(** What a document read as written denotes: every member, and no key of an object
    twice. *)
Inductive denotes : RawJson -> Value -> Prop :=
| denotes_null : denotes RawNull Null
| denotes_bool b : denotes (RawBool b) (Bool b)
| denotes_num n : denotes (RawNum n) (Num n)
| denotes_str s : denotes (RawStr s) (Str s)
| denotes_array raws values : Forall2 denotes raws values -> denotes (RawArray raws) (Array values)
| denotes_object entries members :
    NoDup entries.*1 -> entries.*1 = members.*1 -> Forall2 denotes entries.*2 members.*2 ->
    denotes (RawObject entries) (json_object members).

(** Induction over nested documents. *)
Section RawJsonInd.
Context (P : RawJson -> Prop)
  (HNull : P RawNull) (HBool : forall b, P (RawBool b)) (HNum : forall n, P (RawNum n))
  (HStr : forall s, P (RawStr s)) (HBroken : P Broken)
  (HArray : forall l, Forall P l -> P (RawArray l))
  (HObject : forall l, Forall P (l.*2) -> P (RawObject l)).

Fixpoint RawJson_nested_ind (raw : RawJson) : P raw :=
  match raw with
  | RawNull => HNull
  | RawBool b => HBool b
  | RawNum n => HNum n
  | RawStr s => HStr s
  | Broken => HBroken
  | RawArray l => HArray l ((fix go l : Forall P l :=
      match l with
      | [] => Forall_nil_2 P
      | raw :: l => Forall_cons_2 P _ _ (RawJson_nested_ind raw) (go l)
      end) l)
  | RawObject l => HObject l ((fix go (l : list (string * RawJson)) : Forall P (l.*2) :=
      match l with
      | [] => Forall_nil_2 P
      | (_, raw) :: l => Forall_cons_2 P _ _ (RawJson_nested_ind raw) (go l)
      end) l)
  end.
End RawJsonInd.

(** The loops of [visit], by name. *)
Definition visit_members (entries : list (string * RawJson)) (values : list (string * Value))
  : result (list (string * Value)) StrictJsonError :=
  try_fold (fun values entry => let? v := visit entry.2 in
    guard has_key entry.1 values or DuplicateKey in Ok (object_insert entry.1 v values)) values entries.

Lemma visit_array raws : visit (RawArray raws) = result_map Array (collect_results visit raws).
Proof.
  cbn [visit]. f_equal. induction raws as [|raw raws IH]; [done|]. cbn [collect_results].
  destruct (visit raw); [|done]. by rewrite <-IH.
Qed.

Lemma visit_object entries : visit (RawObject entries) = result_map Object (visit_members entries []).
Proof.
  cbn [visit]. f_equal. generalize (@nil (string * Value)) as values. unfold visit_members.
  induction entries as [|[key raw] entries IH]; intros values; [done|]. cbn [try_fold fst snd].
  destruct (visit raw) as [v|]; [|done]. destruct (has_key key values); [done|]. apply IH.
Qed.

Lemma has_key_spec key values : has_key key values = true <-> key ∈ values.*1.
Proof.
  unfold has_key. rewrite existsb_exists, list_elem_of_In, in_map_iff. split.
  - intros ([k v] & Hin & Hk%String.eqb_eq). by exists (k, v).
  - intros ([k v] & Hk & Hin). exists (k, v). split; [done|]. by apply String.eqb_eq.
Qed.

Lemma keys_object_insert key v values k : k ∈ (object_insert key v values).*1 <-> k = key \/ k ∈ values.*1.
Proof.
  induction values as [|[k0 v0] values IH]; cbn [object_insert]; [set_solver|].
  destruct (String.compare key k0) eqn:Hc; cbn [fmap list_fmap fst].
  - apply String.compare_eq_iff in Hc as ->. set_solver.
  - set_solver.
  - rewrite !elem_of_cons, IH. set_solver.
Qed.

(** The loop over the members succeeds exactly on new and distinct keys. *)
Lemma visit_members_Ok entries values object :
  visit_members entries values = Ok object <->
  exists members, entries.*1 = members.*1 /\ Forall2 (fun raw v => visit raw = Ok v) entries.*2 members.*2 /\
    NoDup entries.*1 /\ (forall key, key ∈ entries.*1 -> key ∉ values.*1) /\
    object = foldl (fun o kv => object_insert kv.1 kv.2 o) values members.
Proof.
  unfold visit_members. revert values. induction entries as [|[key raw] entries IH]; intros values; cbn [try_fold].
  { split.
    - intros [= <-]. exists []. split_and!; [done|constructor|constructor| |done]. set_solver.
    - intros ([|] & Hkeys & _ & _ & _ & ->); [done|discriminate]. }
  cbn [fst snd]. destruct (visit raw) as [v|] eqn:Hv.
  2:{ split; [done|]. intros ([|[k m] members] & _ & Hall & _); inversion Hall; congruence. }
  destruct (has_key key values) eqn:Hk.
  { split; [done|]. intros (members & _ & _ & _ & Hnew & _). apply has_key_spec in Hk.
    exfalso. apply (Hnew key); [|done]. left. }
  rewrite IH. assert (Hfree : key ∉ values.*1) by (rewrite <-has_key_spec; by rewrite Hk). split.
  - intros (members & Hkeys & Hall & Hnd & Hnew & ->). exists ((key, v) :: members).
    cbn [fmap list_fmap fst snd] in *. split_and!; [by f_equal|by constructor| | |done].
    + constructor; [|done]. intros Hin. apply (Hnew key Hin), keys_object_insert. by left.
    + intros k [->|Hin]%elem_of_cons; [done|]. intros Hv'. apply (Hnew k Hin), keys_object_insert. by right.
  - intros ([|[k m] members] & Hkeys & Hall & Hnd & Hnew & ->); [discriminate|].
    cbn [fmap list_fmap fst snd] in *. injection Hkeys as <- Hkeys. inversion Hall; subst.
    apply NoDup_cons in Hnd as [Hnotin Hnd]. exists members. split_and!; try done; [|cbn [foldl fst snd]; congruence].
    intros k Hin [->|Hold]%keys_object_insert; [done|]. apply (Hnew k); [by right|done].
Qed.

Lemma visit_denotes raw value : visit raw = Ok value <-> denotes raw value.
Proof.
  revert value. induction raw as [|b|n|s| |raws IH|entries IH] using RawJson_nested_ind; intros value.
  1-4: by split; [intros [= <-]; constructor | inversion 1].
  - by split; [|inversion 1].
  - rewrite visit_array. transitivity (exists values, Forall2 denotes raws values /\ value = Array values).
    + destruct (collect_results visit raws) as [values|] eqn:Hvisit; cbn [result_map].
      * apply collect_results_Ok in Hvisit. split.
        -- intros [= <-]. exists values. split; [|done].
           induction Hvisit; [constructor|]. apply Forall_cons in IH as [Hhead IH]. constructor; [by apply Hhead|auto].
        -- intros (values' & Hall & ->). do 2 f_equal. revert values' Hall.
           induction Hvisit as [|raw v raws values Hv _ IHv]; intros values' Hall; inversion Hall; subst; [done|].
           apply Forall_cons in IH as [Hhead IH]. f_equal; [|auto].
           assert (visit raw = Ok y) by (by apply Hhead). congruence.
      * split; [done|]. intros (values & Hall & ->). exfalso.
        assert (Forall2 (fun raw v => visit raw = Ok v) raws values) as Hok%collect_results_Ok; [|congruence].
        clear Hvisit. induction Hall; [constructor|]. apply Forall_cons in IH as [Hhead IH]. constructor; [by apply Hhead|auto].
    + split; [intros (values & Hall & ->); by constructor|]. inversion 1; subst. eauto.
  - rewrite visit_object. transitivity (exists object, visit_members entries [] = Ok object /\ value = Object object).
    { destruct (visit_members entries []) as [object|]; cbn [result_map]; [|naive_solver].
      split; [intros [= <-]; by exists object | by intros (? & [= <-] & ->)]. }
    assert (Hall : forall values, Forall2 (fun raw v => visit raw = Ok v) entries.*2 values
      <-> Forall2 denotes entries.*2 values).
    { clear value. induction IH as [|raw raws Hhead _ IHl]; intros [|v values]; (split; [|]); inversion 1; subst;
        constructor; try (by apply Hhead); by apply IHl. }
    split.
    + intros (object & (members & Hkeys & Hm & Hnd & _ & ->)%visit_members_Ok & ->).
      apply (denotes_object entries members); try done. by apply Hall.
    + inversion 1 as [| | | | |entries' members Hnd Hkeys Hm]; subst. eexists. split; [|reflexivity].
      apply visit_members_Ok. exists members. split_and!; try done; [by apply Hall | set_solver].
Qed.

Section Strict.
Context `{RawJsonReader}.

(** Strict JSON accepts a text exactly when it was read to its end
    and denotes a document in which no object repeats a key, and its value is that
    document: unlike the lenient reader it never lets a later duplicate replace an
    earlier member. *)
Theorem strict_json_denotes bytes value :
  decode_strict_json bytes = Ok value <-> exists raw, read_raw bytes = (raw, true) /\ denotes raw value.
Proof.
  unfold decode_strict_json. destruct (read_raw bytes) as [raw complete]. split.
  - destruct (visit raw) as [v|] eqn:Hv; [|done]. destruct complete; [|done]. intros [= <-].
    exists raw. split; [done | by apply visit_denotes].
  - intros (raw' & [= -> ->] & Hd%visit_denotes). by rewrite Hd.
Qed.
End Strict.

(** ** Table metadata *)

(** The planned schema: the scenario's fields, or those with the evolved field
    under the next id. *)
Definition planned_schema (policy : ObservationPolicy) (schema : list EngineFieldObservation) (last_id : Z) : Prop :=
  let initial := observation_from_field <$> op_initial_schema policy in
  let initial_last := default 0%Z (maximum (fo_id <$> initial)) in
  schema = initial /\ last_id = initial_last \/
  last_id = (initial_last + 1)%Z /\
  schema = (initial ++ [{| fo_id := last_id; fo_name := ef_name (op_evolved_field policy);
                           fo_required := ef_required (op_evolved_field policy);
                           fo_field_type := ef_type (op_evolved_field policy) |}])%list.

(** A credential-free URI of the bucket. *)
Definition bucket_uri `{UrlParser} (bucket location : string) (P : Url -> Prop) : Prop :=
  exists url, url_parse location = Ok url /\ url_scheme url = "s3" /\ url_host_str url = Some bucket /\
    url_username url = "" /\ url_password url = None /\ P url.

(** A field an observation may hold. *)
Definition plain_field (field : EngineFieldObservation) : Prop :=
  (0 < fo_id field <= i32_max)%Z /\ fo_name field <> "" /\ (str_len (fo_name field) <= 256)%Z.

Section Metadata.
Context `{UrlParser, UuidParser, RawJsonReader, GzipReader}.

Lemma validate_s3_location_Ok value bucket require :
  validate_s3_location value bucket require = Ok tt ->
  bucket_uri bucket value (fun url => require = true ->
    contains "/metadata/" (url_path url) = true /\ ends_with ".json" (url_path url) = true).
Proof.
  unfold validate_s3_location, bucket_uri. destruct (url_parse value) as [url|]; cbn [map_err]; [|done].
  destruct (_ || _) eqn:Hguard; [done|]. intros _. exists url.
  repeat apply orb_false_iff in Hguard as [Hguard ?].
  repeat match goal with Hb : negb _ = false |- _ => apply negb_false_iff in Hb end.
  split_and!; [done|by apply String.eqb_eq|by eapply bool_decide_eq_true|by apply is_empty_spec| |].
  - by destruct (url_password url).
  - intros ->. match goal with Hb : true && _ = false |- _ => cbn [andb] in Hb; apply orb_false_iff in Hb as [Hm Hj] end.
    by split; apply negb_false_iff.
Qed.

Lemma decode_field_Ok value field : decode_field value = Ok field -> plain_field field.
Proof.
  unfold decode_field. intros Hd. inspect_success Hd. injection Hd as <-. unfold plain_field. cbn [fo_id fo_name].
  repeat match goal with Hb : _ || _ = false |- _ => apply orb_false_iff in Hb as [? ?] end.
  repeat match goal with Hb : ok_or _ _ = Ok _ |- _ => apply ok_or_Ok in Hb end. unfold try_from in *.
  repeat match goal with Hb : (if ?b then Some _ else None) = Some _ |- _ => destruct b eqn:?; simplify_eq end.
  split_and!; try lia. by intros ->.
Qed.

Lemma validate_scenario_schema_Ok observed last_id policy :
  validate_scenario_schema observed last_id policy = Ok tt -> planned_schema policy observed last_id.
Proof.
  unfold validate_scenario_schema, planned_schema. destruct (_ && _) eqn:Hinitial.
  { apply andb_true_iff in Hinitial as [Hschema%bool_decide_eq_true Hlast%Z.eqb_eq]. by left. }
  intros Hv. inspect_success Hv. right. 
  match goal with Hb : ok_or _ _ = Ok _ |- _ => apply ok_or_Ok, checked_add_Some in Hb as [-> _] end.
  match goal with Hb : negb _ = false |- _ => apply negb_false_iff, andb_true_iff in Hb as [Hs%bool_decide_eq_true Hl%Z.eqb_eq] end.
  subst. by split.
Qed.

Lemma current_fields_plain object fields : current_fields object = Ok fields -> Forall plain_field fields.
Proof.
  unfold current_fields. intros Hc. inspect_success Hc. apply collect_results_Ok in Hc.
  eapply Forall2_Forall_r; [exact Hc | apply Forall_true; intros; by eapply decode_field_Ok].
Qed.

Lemma snapshot_total_bounded object snapshots : snapshot_total object = Ok snapshots -> (snapshots <= u64_max)%Z.
Proof.
  unfold snapshot_total. destruct (object_get _ object) as [[| | | |values|]|]; try done;
    intros Ht; try (injection Ht as <-; unfold u64_max; lia).
  apply ok_or_Ok in Ht. unfold try_from in Ht. destruct (len values <=? u64_max)%Z eqn:?; [|done]. injection Ht as <-. lia.
Qed.

Lemma observed_properties_dom object policy properties :
  observed_properties object policy = Ok properties -> dom properties = dom (op_properties policy).
Proof.
  unfold observed_properties. intros Ho. inspect_success Ho. injection Ho as <-.
  apply set_eq. intros key. rewrite !elem_of_dom, map_lookup_imap.
  destruct (op_properties policy !! key) as [expected|]; cbn; [|done]. split; intros _; by eexists.
Qed.

(** C26: a table observation decoded from a metadata object is well
    formed and of the plan, whatever the bytes are: format version 2, a UUID in
    canonical form, a location and the observed metadata object in the bucket of
    the fixture with the object below the table's metadata folder, the requested
    location when one was requested, exactly the planned schema before or after the
    evolution with its last column id, plain fields, and a verdict on exactly the
    planned properties. *)
Theorem decoded_metadata_is_planned bytes metadata_location fixture policy table :
  decode_iceberg_table_metadata bytes metadata_location fixture policy = Ok table ->
  to_metadata_location table = metadata_location /\ to_format_version table = 2%Z /\ op_format_version policy = 2%Z /\
  (exists uuid, uuid_parse (to_table_uuid table) = Some uuid /\ uuid_display uuid = to_table_uuid table) /\
  bucket_uri (ft_bucket fixture) (to_location table) (fun _ => True) /\
  bucket_uri (ft_bucket fixture) metadata_location (fun url => ends_with ".json" (url_path url) = true) /\
  (exists name, metadata_location = trim_end_matches 47 (to_location table) +:+ "/metadata/" +:+ name) /\
  (forall requested, ft_requested_location fixture = Some requested ->
     trim_end_matches 47 (to_location table) = trim_end_matches 47 requested) /\
  planned_schema policy (to_schema table) (to_last_column_id table) /\ Forall plain_field (to_schema table) /\
  (to_snapshots table <= u64_max)%Z /\ dom (to_properties table) = dom (op_properties policy).
Proof.
  unfold decode_iceberg_table_metadata. intros Hd. inspect_success Hd. injection Hd as <-.
  repeat match goal with
  | Hb : ok_or _ _ = Ok _ |- _ => apply ok_or_Ok in Hb
  | Hb : _ || _ = false |- _ => apply orb_false_iff in Hb as [? ?]
  | Hb : negb _ = false |- _ => apply negb_false_iff in Hb
  | Hb : (_ =? _)%Z = true |- _ => apply Z.eqb_eq in Hb
  | Hb : (_ =? _)%string = true |- _ => apply String.eqb_eq in Hb
  | u : unit |- _ => destruct u
  | Hb : validate_s3_location _ _ _ = Ok tt |- _ => apply validate_s3_location_Ok in Hb
  | Hb : validate_scenario_schema _ _ _ = Ok tt |- _ => apply validate_scenario_schema_Ok in Hb
  end.
  cbn [to_metadata_location to_format_version to_table_uuid to_location to_schema to_last_column_id to_snapshots
    to_properties].
  split_and!; try done; try congruence.
  - by eexists.
  - match goal with Hb : bucket_uri _ _ (fun _ => false = true -> _) |- _ => destruct Hb as (url & ? & ? & ? & ? & ? & _) end.
    by exists url.
  - match goal with Hb : bucket_uri _ metadata_location _ |- _ => destruct Hb as (url & ? & ? & ? & ? & ? & Hj) end.
    exists url. split_and!; try done. by apply Hj.
  - match goal with Hb : starts_with _ _ = true |- _ => apply prefix_spec in Hb as [name ->] end.
    exists name. by rewrite string_app_assoc.
  - intros requested Hrequested. match goal with Hb : is_some_and _ _ = false |- _ => rewrite Hrequested in Hb; cbn in Hb end.
    by apply String.eqb_eq, negb_false_iff.
  - by eapply current_fields_plain.
  - by eapply snapshot_total_bounded.
  - by eapply observed_properties_dom.
Qed.
End Metadata.
