(* ===== verification/EngineDuckDb.v ===== *)
(** * The DuckDB engine (crates/engine/src/duckdb.rs, adapters.rs)

    Rendering a plan into SQL, and the program the harness drives through one
    DuckDB command line per statement ([DuckDbCli]). *)

From S2P Require Import Prelude Order RustStr Json ContractValue ContractAdapter Ledger Transport Capture Store.
From S2P Require Import EngineParameters EnginePlan EngineSql EngineRuntime EngineEvents EngineCatalog EngineDecode.
From Stdlib Require Import Ascii.
Open Scope string_scope.

(** [std::env::consts]. *)
Class HostPlatform := { host_operating_system : string; host_architecture : string }.

(** ** Operations *)

Module DuckDbOperation.
Inductive t :=
| CreateNamespace (sql : string)
| CreateTable (sql : string)
| InitialAppend (sql : string)
| InitialRead (sql : string) (expected : CanonicalRead)
| AddColumn (sql : string)
| EvolvedAppend (sql : string)
| EvolvedRead (sql : string) (expected : CanonicalRead)
| SnapshotRead.

Definition purpose (self : t) : OperationPurpose :=
  match self with
  | CreateNamespace _ => PurposeCreateNamespace
  | CreateTable _ => PurposeCreateTable
  | InitialAppend _ => PurposeInitialAppend
  | InitialRead _ _ => PurposeInitialRead
  | AddColumn _ => PurposeAddColumn
  | EvolvedAppend _ => PurposeEvolvedAppend
  | EvolvedRead _ _ => PurposeEvolvedRead
  | SnapshotRead => PurposeSnapshotRead
  end.

Definition sql (self : t) : option string :=
  match self with
  | CreateNamespace sql | CreateTable sql | InitialAppend sql | InitialRead sql _ | AddColumn sql
  | EvolvedAppend sql | EvolvedRead sql _ => Some sql
  | SnapshotRead => None
  end.
End DuckDbOperation.

Module DuckDb.

Definition DuckDbRenderError : Type := string.

Record DuckDbRenderedProgram := {
  catalog_name : string;
  catalog_uri : string;
  warehouse : option string;
  prefix : option string;
  authentication : EngineCatalogAuthentication;
  file_io : S3FileIoPlan;
  fixture : FixtureTarget;
  observation : ObservationPolicy;
  operations : list DuckDbOperation.t;
}.

Definition render_type (value : IcebergPrimitiveType) : string :=
  match value with Long => "BIGINT" | IcebergString => "VARCHAR" end.

Definition identifier (value : string) : result string SqlGenerationError :=
  if valid_identifier value then Ok (quote +:+ value +:+ quote) else Err "invalid DuckDB identifier".

Definition not_null (required : bool) : string := if required then " NOT NULL" else "".

Definition render_field (field : IcebergField) : result string SqlGenerationError :=
  let? name := identifier (if_name field) in
  Ok (name +:+ " " +:+ render_type (if_type field) +:+ not_null (if_required field)).

(** The entries between the parentheses of [WITH (..)]. *)
Definition table_properties (plan : DuckDbExecutionPlan) : list string :=
  let table := sp_table (duckdb_scenario plan) in
  (["'format-version' = " +:+ display (tp_format_version table)]
   ++ ((fun property => literal property.1 +:+ " = " +:+ literal property.2)
       <$> btree_entries String.compare (tp_properties table))
   ++ match fixture_requested_location (duckdb_fixture plan) with
      | Some location => ["location = " +:+ literal location]
      | None => []
      end)%list.

Section Render.
Context `{UrlParser}.

Definition validate_plan (plan : DuckDbExecutionPlan) : result unit DuckDbRenderError :=
  let file_io := duckdb_file_io plan in
  guard negb (duckdb_format plan =? DUCKDB_PLAN_FORMAT) || negb (rcp_name (duckdb_catalog plan) =? DUCKDB_CATALOG_NAME)
        || negb (credential_free_http_url (rcp_uri (duckdb_catalog plan)))
        || negb (credential_free_http_url (fio_endpoint file_io)) || is_empty (fio_bucket file_io)
        || is_empty (fio_region file_io) || negb (fio_path_style_access file_io)
        || negb (policy_authorizes_renderer (duckdb_scenario plan) (duckdb_fixture plan))
    or "unsupported DuckDB plan policy" in
  guard is_some_and (fun location => negb (table_location_supported location (fio_bucket file_io)))
          (fixture_requested_location (duckdb_fixture plan))
    or "invalid DuckDB table location" in
  Ok tt.

(** [DuckDbRenderedProgram::render]. *)
Definition render (plan : DuckDbExecutionPlan) : result DuckDbRenderedProgram DuckDbRenderError :=
  check? validate_plan plan in
  let? namespace := identifier (fixture_namespace (duckdb_fixture plan)) in
  let? table := identifier (fixture_table (duckdb_fixture plan)) in
  let? catalog := identifier (rcp_name (duckdb_catalog plan)) in
  let qualified_namespace := catalog +:+ "." +:+ namespace in
  let qualified_table := qualified_namespace +:+ "." +:+ table in
  let scenario := duckdb_scenario plan in
  let fields := is_fields (tp_schema (sp_table scenario)) in
  let? schema := collect_results render_field fields in
  let? initial_columns := collect_results (fun field => identifier (if_name field)) fields in
  let evolution := se_field (sp_schema_evolution scenario) in
  let? evolved_column := identifier (ef_name evolution) in
  let evolved_columns := (initial_columns ++ [evolved_column])%list in
  let? initial_values := render_rows scenario false in
  let? evolved_values := render_rows scenario true in
  let reads := sp_canonical_reads scenario in
  let? initial_read := render_read qualified_table (cread_columns (creads_initial reads)) (creads_order_by reads)
                         identifier in
  let? evolved_read := render_read qualified_table (cread_columns (creads_after_evolution reads))
                         (creads_order_by reads) identifier in
  Ok {| catalog_name := rcp_name (duckdb_catalog plan); catalog_uri := rcp_uri (duckdb_catalog plan);
        warehouse := rcp_warehouse (duckdb_catalog plan); prefix := rcp_prefix (duckdb_catalog plan);
        authentication := rcp_authentication (duckdb_catalog plan); file_io := duckdb_file_io plan;
        fixture := fixture_target (duckdb_fixture plan) (fio_bucket (duckdb_file_io plan));
        observation := observation_policy scenario;
        operations :=
          [DuckDbOperation.CreateNamespace ("CREATE SCHEMA IF NOT EXISTS " +:+ qualified_namespace);
           DuckDbOperation.CreateTable ("CREATE TABLE " +:+ qualified_table +:+ " (" +:+ join ", " schema
             +:+ ") WITH (" +:+ join ", " (table_properties plan) +:+ ")");
           DuckDbOperation.InitialAppend (render_insert qualified_table initial_columns initial_values);
           DuckDbOperation.InitialRead initial_read (creads_initial reads);
           DuckDbOperation.AddColumn ("ALTER TABLE " +:+ qualified_table +:+ " ADD COLUMN " +:+ evolved_column
             +:+ " " +:+ render_type (ef_type evolution) +:+ not_null (ef_required evolution));
           DuckDbOperation.EvolvedAppend (render_insert qualified_table evolved_columns evolved_values);
           DuckDbOperation.EvolvedRead evolved_read (creads_after_evolution reads);
           DuckDbOperation.SnapshotRead] |}.
End Render.

(** ** Effects *)

Record DuckDbProductionEffects := {
  eff_program : DuckDbRenderedProgram;
  eff_access_key : string;
  eff_secret_key : string;
  eff_oauth : option (string * string);
  eff_catalog : RestEngineCatalog;
  eff_store : ObjectStoreAuditor;
}.

(** One run of the command line on an input: [None] when it cannot be spawned,
    fed or awaited in time, and else whether it succeeded and its output. *)
Class DuckDbCli (W : Type) := duckdb_cli : string -> W -> option (bool * list ascii) * W.

(** [Deserializer::from_slice(..).into_iter::<Vec<Value>>()]: the arrays of a
    stream, [None] where decoding fails. *)
Class ArrayStream := read_arrays : list ascii -> list (option (list Value)).

(** [Url::port]. *)
Class UrlPort := url_port : Url -> option Z.

(** [Value::get]. *)
Definition value_get (key : string) (value : Value) : option Value := as_object value ≫= object_get key.

Definition duckdb_u64 (rows : list Value) (field : string) : option Z :=
  row ← head rows; value ← value_get field row; as_u64 value.

Section Effects.
Context `{UrlParser, UrlOps, UrlPort, ObjectPaths, UuidParser, LoadTableResponseDecoder, RawJsonReader, GzipReader}.
Context `{ArrayStream, ValuesWriter, Sha256, HostPlatform} {W : Type} `{HttpClient W, ObjectStoreClient W, DuckDbCli W}.

Definition endpoint_is_https (value : string) : bool :=
  match url_parse value with Ok url => url_scheme url =? "https" | Err _ => false end.

Definition setup_sql (self : DuckDbProductionEffects) : option string :=
  let program := eff_program self in
  endpoint ← match url_parse (fio_endpoint (file_io program)) with Ok url => Some url | Err _ => None end;
  host ← url_host_str endpoint;
  let endpoint := match url_port endpoint with Some port => host +:+ ":" +:+ display port | None => host end in
  authorization ←
    match authentication program, eff_oauth self with
    | EngineAnonymous, None => Some ", AUTHORIZATION_TYPE 'none'"
    | EngineOAuth2ClientCredentials oauth2_server_uri _, Some (id, secret) =>
        Some (", AUTHORIZATION_TYPE 'oauth2', CLIENT_ID " +:+ literal id +:+ ", CLIENT_SECRET " +:+ literal secret
              +:+ ", OAUTH2_SERVER_URI " +:+ literal oauth2_server_uri)
    | _, _ => None
    end;
  let attach := "ATTACH " +:+ literal (default "" (warehouse program)) +:+ " AS " +:+ quote +:+ catalog_name program
                +:+ quote +:+ " (TYPE iceberg, ENDPOINT " +:+ literal (catalog_uri program)
                +:+ ", ACCESS_DELEGATION_MODE 'none'" +:+ authorization +:+ ");" in
  Some ("LOAD httpfs; LOAD iceberg; CREATE SECRET catalog_bench_s3 (TYPE s3, PROVIDER config, KEY_ID "
        +:+ literal (eff_access_key self) +:+ ", SECRET " +:+ literal (eff_secret_key self) +:+ ", REGION "
        +:+ literal (fio_region (file_io program)) +:+ ", ENDPOINT " +:+ literal endpoint
        +:+ ", URL_STYLE 'path', USE_SSL "
        +:+ (if endpoint_is_https (fio_endpoint (file_io program)) then "true" else "false") +:+ "); " +:+ attach).

(** [DuckDbProductionEffects::query]. *)
Definition query (self : DuckDbProductionEffects) (sql : string) (w : W) : option (list Value) * W :=
  match setup_sql self with
  | None => (None, w)
  | Some setup =>
      match duckdb_cli (setup +:+ " " +:+ sql +:+ ";") w with
      | (None, w) | (Some (false, _), w) => (None, w)
      | (Some (true, stdout), w) =>
          (if (16 * 1024 * 1024 <? len stdout)%Z then None
           else match stdout with
                | [] => Some []
                | _ => last (read_arrays stdout) ≫= id
                end, w)
      end
  end.

Definition TRINO_METADATA_LIMIT : Z := 4 * 1024 * 1024.

(** [DuckDbProductionEffects::table_observation]. *)
Definition table_observation (self : DuckDbProductionEffects) (w : W) : option EngineTableObservation * W :=
  match load_table (eff_catalog self) w with
  | (Ok (EngineTableLoad.Present _ _ state), w) =>
      let program := eff_program self in
      let table := ect_table state in
      match TableRoot_new (to_location table) (to_metadata_location table) (ft_bucket (fixture program)) with
      | Err _ => (None, w)
      | Ok root =>
          match read_metadata (eff_store self) root (to_metadata_location table) TRINO_METADATA_LIMIT w with
          | (Err _, w) => (None, w)
          | (Ok bytes, w) =>
              (match decode_iceberg_table_metadata bytes (to_metadata_location table) (fixture program)
                       (observation program) with
               | Ok table => Some table
               | Err _ => None
               end, w)
          end
      end
  | (Ok (EngineTableLoad.Absent _ _), w) | (Err _, w) => (None, w)
  end.

Definition duckdb_execute (self : DuckDbProductionEffects) (operation : DuckDbOperation.t) (w : W) : option unit * W :=
  match DuckDbOperation.sql operation with
  | None => (None, w)
  | Some sql => let '(rows, w) := query self sql w in ((fun _ => tt) <$> rows, w)
  end.

(** One turn of the loop of [duckdb_read] over the rows. *)
Definition canonical_values (columns : list string) (canonical : list ascii) (row : Value) : result (list ascii) unit :=
  let? object := ok_or (as_object row) tt in
  let? values := collect_results (fun column => ok_or (object_get column object) tt) columns in
  let? text := ok_or (write_values values) tt in
  Ok (canonical ++ text ++ [ascii_of_N 10])%list.

Definition duckdb_read (self : DuckDbProductionEffects) (operation : DuckDbOperation.t) (w : W)
  : option RowReadObservation * W :=
  match operation with
  | DuckDbOperation.InitialRead sql expected | DuckDbOperation.EvolvedRead sql expected =>
      match query self sql w with
      | (None, w) => (None, w)
      | (Some rows, w) =>
          (if negb (bool_decide (try_from u64_max (len rows) = Some (cread_rows expected))) then None
           else match try_fold (canonical_values (cread_columns expected)) [] rows with
                | Err _ => None
                | Ok canonical =>
                    let read := {| rr_rows := cread_rows expected; rr_bytes := Z.min u64_max (len canonical);
                                   rr_sha256 := sha256_hex canonical |} in
                    let expected := {| rr_rows := cread_rows expected; rr_bytes := cread_bytes expected;
                                       rr_sha256 := cread_sha256 expected |} in
                    if bool_decide (read = expected) then Some read else None
                end, w)
      end
  | _ => (None, w)
  end.

Definition duckdb_snapshot_count (self : DuckDbProductionEffects) (w : W) : option Z * W :=
  match load_table (eff_catalog self) w with
  | (Ok (EngineTableLoad.Present _ _ state), w) =>
      let '(rows, w) := query self ("SELECT count(*) AS snapshots FROM iceberg_snapshots("
                          +:+ literal (to_metadata_location (ect_table state)) +:+ ")") w in
      (rows ≫= (fun rows => duckdb_u64 rows "snapshots"), w)
  | (Ok (EngineTableLoad.Absent _ _), w) | (Err _, w) => (None, w)
  end.

(** ** The program *)

(** The version query of the preamble and its check. *)
Definition duckdb_version (self : DuckDbProductionEffects) (w : W) : option unit * W :=
  match query self "SELECT version() AS version" w with
  | (None, w) => (None, w)
  | (Some rows, w) =>
      (if bool_decide ((head rows ≫= value_get "version") ≫= as_str = Some "v1.5.3") then Some tt else None, w)
  end.

Definition absent_sql (program : DuckDbRenderedProgram) : string :=
  "SELECT count(*) AS matches FROM information_schema.tables WHERE table_catalog = " +:+ literal (catalog_name program)
  +:+ " AND table_schema = " +:+ literal (ft_namespace (fixture program)) +:+ " AND table_name = "
  +:+ literal (ft_table (fixture program)).

Definition namespace_sql (program : DuckDbRenderedProgram) : string :=
  "SELECT count(*) AS matches FROM information_schema.schemata WHERE catalog_name = " +:+ literal (catalog_name program)
  +:+ " AND schema_name = " +:+ literal (ft_namespace (fixture program)).

(** [query(sql).await.ok().and_then(|rows| duckdb_u64(&rows, "matches"))]. *)
Definition count_matches (self : DuckDbProductionEffects) (sql : string) (w : W) : option Z * W :=
  let '(rows, w) := query self sql w in (rows ≫= (fun rows => duckdb_u64 rows "matches"), w).

Definition duckdb_runtime : EngineRuntimeObservation := {|
  ro_engine_version := "1.5.3";
  ro_dependencies := list_to_map [("avro", "1.5.3"); ("httpfs", "1.5.3"); ("iceberg", "1.5.3")];
  ro_operating_system := host_operating_system; ro_architecture := host_architecture |}.

(** The creation of the namespace and the check that it is listed once. *)
Definition create_listed_namespace (self : DuckDbProductionEffects) (operation : DuckDbOperation.t) (w : W)
  : option unit * W :=
  match duckdb_execute self operation w with
  | (None, w) => (None, w)
  | (Some _, w) =>
      let '(count, w) := count_matches self (namespace_sql (eff_program self)) w in
      (if bool_decide (count = Some 1%Z) then Some tt else None, w)
  end.

(** The part of [run_duckdb_program] after the fixture was found absent. *)
Definition run_operations (self : DuckDbProductionEffects) (events : list EngineEvent) (w : W)
  : option (InProcessRun * W) :=
  match operations (eff_program self) with
  | create_namespace :: create_table :: initial_append :: initial_read :: add_column :: evolved_append
    :: evolved_read :: _ =>
      attempt (create_listed_namespace self create_namespace) events CreateNamespace EngineFailureCategory.Catalog (fun _ =>
      let events := (events ++ [NamespaceReady true])%list in
      attempt (duckdb_execute self create_table) events CreateTable EngineFailureCategory.Connector (fun _ =>
      attempt (table_observation self) events CreateTable EngineFailureCategory.Connector (fun table =>
      let events := (events ++ [TableReady table])%list in
      attempt (duckdb_execute self initial_append) events AppendInitial EngineFailureCategory.Data (fun _ =>
      attempt (duckdb_snapshot_count self) events AppendInitial EngineFailureCategory.Data (fun snapshots =>
      let events := (events ++ [InitialAppended snapshots])%list in
      attempt (duckdb_read self initial_read) events ReadInitial EngineFailureCategory.Data (fun read =>
      let events := (events ++ [InitialRead read])%list in
      attempt (duckdb_execute self add_column) events EvolveSchema EngineFailureCategory.Connector (fun _ =>
      attempt (table_observation self) events EvolveSchema EngineFailureCategory.Connector (fun table =>
      let events := (events ++ [SchemaEvolved table])%list in
      attempt (duckdb_execute self evolved_append) events AppendEvolved EngineFailureCategory.Data (fun _ =>
      attempt (duckdb_snapshot_count self) events AppendEvolved EngineFailureCategory.Data (fun snapshots =>
      let events := (events ++ [EvolvedAppended snapshots])%list in
      attempt (duckdb_read self evolved_read) events ReadEvolved EngineFailureCategory.Data (fun read =>
      let events := (events ++ [EvolvedRead read])%list in
      attempt (table_observation self) events ObserveFinalTable EngineFailureCategory.Connector (fun table w =>
      Some ((SUCCESS_EXIT, (events ++ [FinalTable table; Completed])%list), w))
      ))))))))))) w
  | _ => None
  end.

(** [run_duckdb_program]; [None] is the panic of an index. A preflight query
    that fails counts as a fixture that is not absent. *)
Definition run_duckdb_program (self : DuckDbProductionEffects) : W -> option (InProcessRun * W) :=
  attempt (duckdb_version self) [] VerifyRuntime EngineFailureCategory.Runtime (fun _ w =>
  let events := [RuntimeReady duckdb_runtime; CatalogReady] in
  let '(count, w) := count_matches self (absent_sql (eff_program self)) w in
  let absent := is_some_and (fun count => count =? 0)%Z count in
  let events := (events ++ [FixturePreflight absent])%list in
  if negb absent then Some ((FIXTURE_COLLISION_EXIT, events), w) else run_operations self events w).
End Effects.
End DuckDb.
