(* ===== verification/EngineChildProofs.v ===== *)
(** * Properties of the in-process engines

    Trino and DuckDB report their runs without the event decoder. Their runs
    follow the same protocol, end in the exit code of their last event, and
    execute nothing before the fixture was found absent. *)

From S2P Require Import Prelude RustStr Json ContractAdapter Ledger Transport Store EngineParameters EnginePlan.
From S2P Require Import EngineSql EngineRuntime EngineEvents EngineCatalog EngineTrino EngineDecode EngineDuckDb.
From Stdlib Require Import Relations.
Open Scope string_scope.

(** ** Lawful runs *)

(** The exit code that goes with a last event. *)
Definition exit_matches (code : Z) (event : EngineEvent) : Prop :=
  match event with
  | Completed => code = SUCCESS_EXIT
  | Failed _ _ => code = FAILURE_EXIT
  | FixturePreflight false => code = FIXTURE_COLLISION_EXIT
  | _ => False
  end.

(** A finished event sequence with the exit code of its last event. *)
Definition lawful_run (run : InProcessRun) : Prop :=
  exists n event, protocol run.2 n true /\ last run.2 = Some event /\ exit_matches run.1 event.

Section Lawful.
Context {W : Type}.

(** The program returns, without a panic, a lawful run that begins with [start]. *)
Definition returns_lawful (start : list EngineEvent) (outcome : option (InProcessRun * W)) : Prop :=
  exists run w, outcome = Some (run, w) /\ lawful_run run /\ start `prefix_of` run.2.

Lemma failed_run_lawful events n stage category :
  protocol events n false -> ORDER !! n = Some stage -> lawful_run (failed_run events stage category).
Proof.
  intros Hp Hn. exists n, (Failed stage category). simpl. split; [by constructor|].
  by rewrite last_snoc.
Qed.

Lemma completed_lawful events :
  protocol events 10 false -> forall table, lawful_run (SUCCESS_EXIT, (events ++ [FinalTable table; Completed])%list).
Proof.
  intros Hp table. exists 11%nat, Completed. cbn [fst snd].
  change [FinalTable table; Completed] with ([FinalTable table] ++ [Completed])%list. rewrite (assoc (++)%list).
  rewrite last_snoc. split; [|done]. apply protocol_completed. by eapply protocol_stage.
Qed.

Lemma collision_lawful events :
  protocol events 2 false -> lawful_run (FIXTURE_COLLISION_EXIT, (events ++ [FixturePreflight false])%list).
Proof.
  intros Hp. exists 3%nat, (FixturePreflight false). cbn [fst snd]. rewrite last_snoc. split; [|done].
  by apply protocol_collision.
Qed.

Lemma attempt_lawful {A} start (effect : W -> option A * W) events n stage category next w :
  start `prefix_of` events -> protocol events n false -> ORDER !! n = Some stage ->
  (forall a w, returns_lawful start (next a w)) ->
  returns_lawful start (attempt effect events stage category next w).
Proof.
  intros Hstart Hp Hn Hnext. unfold attempt. destruct (effect w) as [[a|] w']; [apply Hnext|].
  eexists _, _. split; [done|]. split; [by eapply failed_run_lawful|]. by apply prefix_app_r.
Qed.

Lemma completed_returns start events table (w : W) :
  start `prefix_of` events -> protocol events 10 false ->
  returns_lawful start (Some ((SUCCESS_EXIT, (events ++ [FinalTable table; Completed])%list), w)).
Proof.
  intros Hstart Hp. eexists _, _. split; [done|]. split; [by apply completed_lawful | by apply prefix_app_r].
Qed.
End Lawful.

(** Shows that a sequence built by appending the event of each stage is legal. *)
Ltac on_protocol :=
  lazymatch goal with
  | |- protocol (_ ++ [_]) _ false => eapply protocol_stage; [on_protocol|reflexivity|reflexivity|discriminate]
  | |- protocol [?e] _ false => change [e] with ([] ++ [e])%list; on_protocol
  | |- protocol [] _ false => apply protocol_start
  | |- _ => eassumption
  end.

(** The next effect of a program: its stage is due. *)
Ltac extends := repeat apply prefix_app_r; reflexivity.
Ltac next_effect := eapply attempt_lawful; [extends|on_protocol|reflexivity|intros ? ?; cbv zeta].

(** ** Trino *)

Section TrinoRuns.
Context {W : Type} `{Trino.TrinoEffects W}.

Lemma read_step_lawful start operation events n stage next (w : W) :
  (exists expected, Trino.expected_read operation = Some expected) -> start `prefix_of` events ->
  protocol events n false -> ORDER !! n = Some stage -> (forall expected w, returns_lawful start (next expected w)) ->
  returns_lawful start (Trino.read_step operation events stage next w).
Proof.
  intros [expected He] Hstart Hp Hn Hnext. unfold Trino.read_step. rewrite He. eapply attempt_lawful; eauto.
Qed.

(** A program in the valid order has its eight operations, and its reads have oracles. *)
Lemma valid_order_operations operations :
  Trino.valid_operation_order operations = true ->
  exists a b c d e f g h, operations = [a; b; c; d; e; f; g; h] /\
    (exists expected, Trino.expected_read d = Some expected) /\ (exists expected, Trino.expected_read g = Some expected).
Proof.
  unfold Trino.valid_operation_order. intros Ho%bool_decide_eq_true.
  do 8 (destruct operations as [|? operations]; [discriminate Ho|]). destruct operations; [|discriminate Ho].
  do 8 eexists. split; [reflexivity|]. injection Ho as _ _ _ Hd _ _ Hg _.
  split; [destruct t2 | destruct t5]; try discriminate; by eexists.
Qed.

Lemma trino_operations_lawful program events w :
  Trino.valid_operation_order (Trino.operations program) = true -> protocol events 3 false ->
  returns_lawful events (Trino.run_operations program events w).
Proof.
  intros (a & b & c & d & e & f & g & h & Hops & Hd & Hg)%valid_order_operations Hp.
  unfold Trino.run_operations. rewrite Hops. cbv zeta.
  do 5 next_effect. eapply read_step_lawful; [done|extends|on_protocol|reflexivity|intros ? ?; cbv zeta].
  do 4 next_effect. eapply read_step_lawful; [done|extends|on_protocol|reflexivity|intros ? ?; cbv zeta].
  next_effect. apply completed_returns; [extends | on_protocol].
Qed.

(** What an observation before the fixture is created does to the world. *)
Inductive trino_observes : relation W :=
| observes_runtime w : trino_observes w (Trino.runtime_observation w).2
| observes_catalog catalog configuration w : trino_observes w (Trino.initialize_catalog catalog configuration w).2
| observes_fixture fixture w : trino_observes w (Trino.fixture_absent fixture w).2.

Abbreviation only_looked := (clos_refl_trans W trino_observes).

Lemma looked_at w w1 w2 : only_looked w w1 -> trino_observes w1 w2 -> only_looked w w2.
Proof. intros H1 H2. eapply rt_trans; [exact H1 | by apply rt_step]. Qed.

Lemma trino_child_runs (program : Trino.TrinoRenderedProgram) (w : W) :
  exists run w', Trino.run_trino_child program w = Some (run, w') /\ lawful_run run /\
    (capture_cleanup_authorized {| cap_events := run.2; cap_protocol_failure := None;
                                   cap_stdout_bytes_observed := 0 |} = false ->
     only_looked w w').
Proof.
  unfold Trino.run_trino_child, attempt at 1.
  pose proof (looked_at w w _ (rt_refl _ _ _) (observes_runtime w)) as H1.
  destruct (Trino.runtime_observation w) as [[runtime|] w1]; cbn [snd] in H1; cbv zeta.
  2: { eexists _, _. split; [done|]. split; [by eapply (failed_run_lawful [] 0); [on_protocol|]|done]. }
  assert (Hrejected : lawful_run (failed_run [RuntimeReady runtime] InitializeCatalog EngineFailureCategory.Connector)).
  { by eapply failed_run_lawful; [on_protocol|]. }
  destruct (Trino.valid_operation_order _) eqn:Ho; cbn [negb]; [|by eexists _, _].
  destruct (Trino.render_configuration program) as [configuration|]; [|by eexists _, _].
  unfold attempt at 1. pose proof (looked_at _ _ _ H1 (observes_catalog (Trino.catalog program) configuration w1)) as H2.
  destruct (Trino.initialize_catalog _ _ w1) as [[[]|] w2]; cbn [snd] in H2; [|by eexists _, _].
  unfold attempt at 1. pose proof (looked_at _ _ _ H2 (observes_fixture (Trino.fixture program) w2)) as H3.
  destruct (Trino.fixture_absent _ w2) as [[absent|] w3]; cbn [snd] in H3.
  2: { eexists _, _. split; [done|]. split; [by eapply failed_run_lawful; [on_protocol|]|done]. }
  destruct absent; cbn [negb].
  - destruct (trino_operations_lawful program (([RuntimeReady runtime] ++ [CatalogReady]) ++ [FixturePreflight true])%list
      w3 Ho ltac:(on_protocol)) as (run & w' & Hrun & Hlawful & rest & Hstart). exists run, w'. do 2 (split; [done|]). by rewrite Hstart.
  - eexists _, _. split; [done|]. split; [|done]. by eapply collision_lawful; on_protocol.
Qed.

(** C25: a Trino run always ends, in a finished event sequence of the
    protocol whose exit code is that of its last event, whatever the effects
    answer and whatever the program's operations are; and until it has reported
    the fixture absent it only looked: it executed no operation. *)
Theorem trino_runs_are_lawful (program : Trino.TrinoRenderedProgram) (w : W) :
  exists run w', Trino.run_trino_child program w = Some (run, w') /\ lawful_run run /\
    (capture_cleanup_authorized {| cap_events := run.2; cap_protocol_failure := None;
                                   cap_stdout_bytes_observed := 0 |} = false ->
     only_looked w w').
Proof. apply trino_child_runs. Qed.
End TrinoRuns.

(** ** Rendered programs *)

(** The purposes of the operations every engine runs, in their order. *)
Definition program_order : list OperationPurpose :=
  [PurposeCreateNamespace; PurposeCreateTable; PurposeInitialAppend; PurposeInitialRead; PurposeAddColumn;
   PurposeEvolvedAppend; PurposeEvolvedRead; PurposeSnapshotRead].

(** Steps through the [?] of a computation that succeeded. *)
Ltac succeeds H :=
  repeat match type of H with
  | (match ?x with Ok _ => _ | Err _ => _ end) = Ok _ => destruct x as [?|?]; [|discriminate H]
  | (if ?x then _ else _) = Ok _ => destruct x; [discriminate H|]
  end.

Section Rendered.
Context `{UrlParser}.

Lemma trino_rendered plan program :
  Trino.render plan = Ok program ->
  Operation.purpose <$> Trino.operations program = program_order /\
  Trino.fixture program = fixture_target (trino_fixture plan) (tfio_bucket (trino_file_io plan)) /\
  Trino.observation program = observation_policy (trino_scenario plan).
Proof. unfold Trino.render. intros Hr. cbv zeta in Hr. succeeds Hr. by injection Hr as <-. Qed.

Lemma flink_rendered plan program :
  Flink.render plan = Ok program ->
  Operation.purpose <$> Flink.operations program = program_order /\
  Flink.fixture program = fixture_target (flink_fixture plan) (fio_bucket (flink_file_io plan)) /\
  Flink.observation program = observation_policy (flink_scenario plan).
Proof. unfold Flink.render. intros Hr. cbv zeta in Hr. succeeds Hr. by injection Hr as <-. Qed.

Lemma duckdb_rendered plan program :
  DuckDb.render plan = Ok program ->
  DuckDbOperation.purpose <$> DuckDb.operations program = program_order /\
  DuckDb.fixture program = fixture_target (duckdb_fixture plan) (fio_bucket (duckdb_file_io plan)) /\
  DuckDb.observation program = observation_policy (duckdb_scenario plan).
Proof. unfold DuckDb.render. intros Hr. cbv zeta in Hr. succeeds Hr. by injection Hr as <-. Qed.
End Rendered.

(** The three renderers produce the same program shape: the eight
    operations in the one order every engine runs them, the fixture of the plan
    and the observation policy of the scenario. *)
Theorem rendered_programs_share_their_order `{UrlParser} :
  (forall plan program, Trino.render plan = Ok program ->
     Operation.purpose <$> Trino.operations program = program_order /\
     Trino.fixture program = fixture_target (trino_fixture plan) (tfio_bucket (trino_file_io plan)) /\
     Trino.observation program = observation_policy (trino_scenario plan)) /\
  (forall plan program, Flink.render plan = Ok program ->
     Operation.purpose <$> Flink.operations program = program_order /\
     Flink.fixture program = fixture_target (flink_fixture plan) (fio_bucket (flink_file_io plan)) /\
     Flink.observation program = observation_policy (flink_scenario plan)) /\
  (forall plan program, DuckDb.render plan = Ok program ->
     DuckDbOperation.purpose <$> DuckDb.operations program = program_order /\
     DuckDb.fixture program = fixture_target (duckdb_fixture plan) (fio_bucket (duckdb_file_io plan)) /\
     DuckDb.observation program = observation_policy (duckdb_scenario plan)).
Proof. split_and!; [apply trino_rendered | apply flink_rendered | apply duckdb_rendered]. Qed.

(** ** DuckDB *)

Section DuckDbRuns.
Context `{UrlParser, UrlOps, DuckDb.UrlPort, ObjectPaths, UuidParser, LoadTableResponseDecoder, RawJsonReader, GzipReader}.
Context `{DuckDb.ArrayStream, ValuesWriter, Sha256, HostPlatform}.
Context {W : Type} `{HttpClient W, ObjectStoreClient W, DuckDb.DuckDbCli W}.

Lemma duckdb_operations_lawful self events w :
  (7 <= length (DuckDb.operations (DuckDb.eff_program self)))%nat -> protocol events 3 false ->
  returns_lawful events (DuckDb.run_operations self events w).
Proof.
  intros Hlen Hp. unfold DuckDb.run_operations.
  destruct (DuckDb.operations (DuckDb.eff_program self)) as [|a [|b [|c [|d [|e [|f [|g rest]]]]]]]; try (simpl in Hlen; lia).
  cbv zeta. do 12 next_effect. apply completed_returns; [extends | on_protocol].
Qed.

(** A query before the fixture is created: the version, or the tables of its name. *)
Inductive duckdb_observes (self : DuckDb.DuckDbProductionEffects) : relation W :=
| observes_version w : duckdb_observes self w (DuckDb.query self "SELECT version() AS version" w).2
| observes_tables w : duckdb_observes self w (DuckDb.query self (DuckDb.absent_sql (DuckDb.eff_program self)) w).2.

Lemma duckdb_version_world self w : (DuckDb.duckdb_version self w).2 = (DuckDb.query self "SELECT version() AS version" w).2.
Proof. unfold DuckDb.duckdb_version. by destruct (DuckDb.query _ _ w) as [[rows|] ?]. Qed.

Lemma count_matches_world self sql w : (DuckDb.count_matches self sql w).2 = (DuckDb.query self sql w).2.
Proof. unfold DuckDb.count_matches. by destruct (DuckDb.query _ _ w). Qed.

Lemma duckdb_program_runs plan (self : DuckDb.DuckDbProductionEffects) (w : W) :
  DuckDb.render plan = Ok (DuckDb.eff_program self) ->
  exists run w', DuckDb.run_duckdb_program self w = Some (run, w') /\ lawful_run run /\
    (capture_cleanup_authorized {| cap_events := run.2; cap_protocol_failure := None;
                                   cap_stdout_bytes_observed := 0 |} = false ->
     clos_refl_trans W (duckdb_observes self) w w').
Proof.
  intros (Hops & _ & _)%duckdb_rendered.
  assert (Hlen : (7 <= length (DuckDb.operations (DuckDb.eff_program self)))%nat).
  { apply (f_equal length) in Hops. rewrite length_fmap in Hops. rewrite Hops. simpl. lia. }
  unfold DuckDb.run_duckdb_program, attempt at 1.
  pose proof (rt_step _ _ _ _ (observes_version self w)) as Hw1. rewrite <-duckdb_version_world in Hw1.
  destruct (DuckDb.duckdb_version self w) as [[[]|] w1]; cbn [snd] in Hw1; cbv zeta.
  2: { eexists _, _. split; [done|]. split; [by eapply (failed_run_lawful [] 0); [on_protocol|]|done]. }
  pose proof (rt_trans _ _ _ _ _ Hw1 (rt_step _ _ _ _ (observes_tables self w1))) as Hw2.
  rewrite <-count_matches_world in Hw2.
  destruct (DuckDb.count_matches _ _ w1) as [count w2]; cbn [snd] in Hw2.
  assert (Hready : protocol [RuntimeReady DuckDb.duckdb_runtime; CatalogReady] 2 false).
  { change [RuntimeReady DuckDb.duckdb_runtime; CatalogReady]
      with ([RuntimeReady DuckDb.duckdb_runtime] ++ [CatalogReady])%list. on_protocol. }
  destruct (is_some_and _ count); cbn [negb].
  - destruct (duckdb_operations_lawful self
      ([RuntimeReady DuckDb.duckdb_runtime; CatalogReady] ++ [FixturePreflight true])%list w2 Hlen ltac:(on_protocol))
      as (run & w' & Hrun & Hlawful & rest & Hstart). exists run, w'. do 2 (split; [done|]). by rewrite Hstart.
  - eexists _, _. split; [done|]. split; [|done]. by apply collision_lawful.
Qed.

(** A DuckDB run of a rendered program always ends, in a finished
    event sequence of the protocol whose exit code is that of its last event; until
    it has reported the fixture absent it sent only the version and the table
    query. *)
Theorem duckdb_runs_are_lawful plan (self : DuckDb.DuckDbProductionEffects) (w : W) :
  DuckDb.render plan = Ok (DuckDb.eff_program self) ->
  exists run w', DuckDb.run_duckdb_program self w = Some (run, w') /\ lawful_run run /\
    (capture_cleanup_authorized {| cap_events := run.2; cap_protocol_failure := None;
                                   cap_stdout_bytes_observed := 0 |} = false ->
     clos_refl_trans W (duckdb_observes self) w w').
Proof. apply duckdb_program_runs. Qed.

(** The two in-process engines disagree about a preflight they
    could not carry out. Trino reports a failure of the preflight stage; DuckDB
    reports the fixture as present, and the process counts as a fixture collision
    although nothing is known about the fixture. *)
Theorem failed_preflight_is_a_duckdb_collision `{Trino.TrinoEffects W} :
  (forall program runtime configuration (w w1 w2 w3 : W),
     Trino.valid_operation_order (Trino.operations program) = true ->
     Trino.render_configuration program = Ok configuration ->
     Trino.runtime_observation w = (Some runtime, w1) ->
     Trino.initialize_catalog (Trino.catalog program) configuration w1 = (Some tt, w2) ->
     Trino.fixture_absent (Trino.fixture program) w2 = (None, w3) ->
     Trino.run_trino_child program w =
       Some (failed_run [RuntimeReady runtime; CatalogReady] PreflightFixture EngineFailureCategory.Catalog, w3)) /\
  (forall self verification elapsed (w w1 w2 : W),
     DuckDb.duckdb_version self w = (Some tt, w1) ->
     DuckDb.query self (DuckDb.absent_sql (DuckDb.eff_program self)) w1 = (None, w2) ->
     exists events, DuckDb.run_duckdb_program self w = Some ((FIXTURE_COLLISION_EXIT, events), w2) /\
       process_fixture_collision (from_in_process_events verification FIXTURE_COLLISION_EXIT events elapsed) = true).
Proof.
  split.
  - intros program runtime configuration w w1 w2 w3 Ho Hc Hr Hi Ha. unfold Trino.run_trino_child, attempt.
    by rewrite Hr, Ho, Hc, Hi, Ha.
  - intros self verification elapsed w w1 w2 Hv Hq. unfold DuckDb.run_duckdb_program, attempt, DuckDb.count_matches.
    rewrite Hv, Hq. eexists. split; [reflexivity|]. reflexivity.
Qed.
End DuckDbRuns.
