(* ===== verification/EngineTrinoProcess.v ===== *)
(** * Trino's server and command line (crates/engine/src/trino_process.rs)

    The private directory of a server, the closed command lines of launcher and
    client, the environment of the server, the start of a server and one run of
    the client. The operating system is behind the classes: [Staging] and
    [PrivateFiles] for files, [CliRuns] for the client, [ServerProcess] for the
    server and [Clock] for time in milliseconds. *)

From S2P Require Import Prelude RustStr ContractValue EngineParameters EnginePlan EngineSql EngineRuntime.
From S2P Require Import EngineEvents EngineProcess EngineTrino EngineDecode.
From Stdlib Require Import Ascii.
Open Scope string_scope.

Definition TRINO_SERVER_URI : string := "http://127.0.0.1:8080".
Definition TRINO_USER : string := "catalog_bench".
Definition MAXIMUM_TRINO_SQL_BYTES : Z := 1024 * 1024.
Definition MAXIMUM_TRINO_CAPTURE_BYTES : Z := 16 * 1024 * 1024.
Definition TRINO_NODE_ID_ENV : string := "CATALOG_BENCH_TRINO_NODE_ID".
Definition TRINO_DATA_DIR_ENV : string := "CATALOG_BENCH_TRINO_DATA_DIR".
Definition TRINO_OAUTH_CREDENTIAL_ENV : string := "CATALOG_BENCH_ENGINE_OAUTH_CREDENTIAL".

Inductive TrinoInvocationError := InvalidInvocation.

Inductive TrinoStageFailure := CreateRoot | CreateDirectory | InvalidPath | CreateFile | WriteFile.

(** ** Staging *)

Record StagedTrinoServer := {
  sts_root : string;
  sts_configuration : string;
  sts_data : string;
}.

(** Permissions [0o700] for a directory; a new file [0o600], and its contents
    written and synchronised. *)
Class PrivateFiles (W : Type) := {
  set_private : string -> W -> bool * W;
  create_new_file : string -> W -> bool * W;
  write_and_sync : string -> string -> W -> bool * W;
}.

(** A relative path of normal components only. *)
Definition normal_relative_path (path : string) : bool :=
  negb (starts_with "/" path) && negb ((path =? ".") || starts_with "./" path)
  && forallb is_normal (path_components path).

Section Stage.
Context {W : Type} `{Staging W, PrivateFiles W}.

Definition restrict_directory (path : string) (w : W) : result unit TrinoStageFailure * W :=
  let '(restricted, w) := set_private path w in
  (if restricted then Ok tt else Err CreateDirectory, w).

(** The loop over the directories. *)
Fixpoint create_directories (paths : list string) (w : W) : result unit TrinoStageFailure * W :=
  match paths with
  | [] => (Ok tt, w)
  | path :: paths =>
      let '(created, w) := create_dir path w in
      if negb created then (Err CreateDirectory, w)
      else
        match restrict_directory path w with
        | (Err failure, w) => (Err failure, w)
        | (Ok _, w) => create_directories paths w
        end
  end.

(** The loop over the files. *)
Fixpoint write_files (root : string) (files : list Trino.TrinoConfigurationFile) (w : W)
  : result unit TrinoStageFailure * W :=
  match files with
  | [] => (Ok tt, w)
  | file :: files =>
      if negb (normal_relative_path (Trino.relative_path file)) then (Err InvalidPath, w)
      else
        let path := path_join root (Trino.relative_path file) in
        let '(opened, w) := create_new_file path w in
        if negb opened then (Err CreateFile, w)
        else
          let '(written, w) := write_and_sync path (Trino.contents file) w in
          if negb written then (Err WriteFile, w) else write_files root files w
  end.

(** [StagedTrinoServer::create]. *)
Definition stage_trino (configuration : Trino.TrinoServerConfiguration) (w : W)
  : result StagedTrinoServer TrinoStageFailure * W :=
  match make_tempdir "catalog-bench-trino-" w with
  | (None, w) => (Err CreateRoot, w)
  | (Some root, w) =>
      match restrict_directory root w with
      | (Err failure, w) => (Err failure, w)
      | (Ok _, w) =>
          let configuration_root := path_join root "etc" in
          let data := path_join root "data" in
          match create_directories [configuration_root; path_join configuration_root "catalog"; data] w with
          | (Err failure, w) => (Err failure, w)
          | (Ok _, w) =>
              let '(written, w) := write_files configuration_root configuration w in
              (result_map (fun _ => {| sts_root := root; sts_configuration := configuration_root; sts_data := data |})
                 written, w)
          end
      end
  end.
End Stage.

(** ** Command lines *)

Definition path_argument (path : string) : result string TrinoInvocationError :=
  guard is_empty path || has_control path or InvalidInvocation in Ok path.

(** [Path::is_absolute]. *)
Definition is_absolute (path : string) : bool := starts_with "/" path.

(** [Path::parent] of an absolute path without [.] components. *)
Definition path_parent (path : string) : option string :=
  match rev (List.filter (fun piece => negb (is_empty piece)) (split_byte 47 path)) with
  | [] => None
  | _ :: pieces => Some ("/" +:+ String.concat "/" (rev pieces))
  end.

Record Invocation := { inv_executable : string; inv_arguments : list string }.

(** [TrinoLauncherInvocation::new]. *)
Definition launcher_invocation (executable configuration : string) : result Invocation TrinoInvocationError :=
  guard negb (is_absolute executable) || negb (is_absolute configuration) or InvalidInvocation in
  check? path_argument executable in
  let? etc := path_argument configuration in
  let? parent := ok_or (path_parent configuration) InvalidInvocation in
  let? data := path_argument (path_join parent "data") in
  Ok {| inv_executable := executable; inv_arguments := ["--etc-dir"; etc; "--data-dir"; data; "run"] |}.

Inductive TrinoCliOutput := CliJson | CliDiscard.

Definition valid_sql (sql : string) : bool :=
  negb (is_empty sql) && (str_len sql <=? MAXIMUM_TRINO_SQL_BYTES)%Z && negb (has_control sql).

(** [TrinoCliInvocation::new]. *)
Definition cli_invocation (executable sql : string) (output : TrinoCliOutput) : result Invocation TrinoInvocationError :=
  guard negb (is_absolute executable) || negb (valid_sql sql) or InvalidInvocation in
  check? path_argument executable in
  Ok {| inv_executable := executable;
        inv_arguments := ["--server"; TRINO_SERVER_URI; "--user"; TRINO_USER; "--catalog"; TRINO_CATALOG_NAME;
                          "--source"; "catalog-bench"; "--no-progress"; "--output-format";
                          match output with CliJson => "JSON" | CliDiscard => "NULL" end; "--execute"; sql] |}.

(** ** The server's environment *)

Record TrinoServerEnvironment := {
  env_node_id : string;
  env_data_directory : string;
  env_access_key : string;
  env_secret_key : string;
  env_oauth_credential : option string;
}.

Definition valid_environment_value (value : string) : bool := negb (is_empty value) && negb (contains_byte 0 value).

(** [TrinoServerEnvironment::new]. *)
Definition server_environment (node_id data_directory access_key secret_key : string) (oauth : option string)
  : result TrinoServerEnvironment TrinoInvocationError :=
  guard negb (valid_environment_value node_id) || negb (is_absolute data_directory)
        || negb (is_ok (path_argument data_directory)) || negb (valid_environment_value access_key)
        || negb (valid_environment_value secret_key)
        || is_some_and (fun value => negb (valid_environment_value value)) oauth
    or InvalidInvocation in
  Ok {| env_node_id := node_id; env_data_directory := data_directory; env_access_key := access_key;
        env_secret_key := secret_key; env_oauth_credential := oauth |}.

(** [TrinoServerEnvironment::apply]. *)
Definition apply_environment (self : TrinoServerEnvironment) (env : gmap string string) : gmap string string :=
  let env := <[S3_SECRET_KEY_ENV := env_secret_key self]> (<[S3_ACCESS_KEY_ENV := env_access_key self]>
    (<[TRINO_DATA_DIR_ENV := env_data_directory self]> (<[TRINO_NODE_ID_ENV := env_node_id self]> env))) in
  match env_oauth_credential self with
  | Some credential => <[TRINO_OAUTH_CREDENTIAL_ENV := credential]> env
  | None => env
  end.

(** ** One run of the client *)

Inductive TrinoCommandFailure :=
| InvalidTimeout | InvalidLimit | Spawn | MissingStdout | Read | OutputTooLarge | Timeout | Exit.

(** How waiting for the process ended: its success, an error, or no time left. *)
Inductive CliWait := WaitStatus (success : bool) | WaitError | WaitElapsed.

(** The first of the three racing events, with what followed it. The process:
    its status and then the output, [None] when it failed or came too late. The
    output: [None] when reading failed, and then the status. *)
Inductive CliFirst :=
| ProcessFirst (status : option bool) (output : option (list ascii))
| OutputFirst (output : option (list ascii)) (status : CliWait)
| TimeoutFirst.

Record CliRun := { cli_stdout : bool; cli_first : CliFirst }.

(** Running a client command; [None] when it cannot be spawned. *)
Class CliRuns (W : Type) := run_cli : Command -> W -> option CliRun * W.

(** [TrinoCommandExecutor::execute_cli] after its race: the reader keeps at most
    one byte more than the limit. *)
Definition conclude_cli (maximum_stdout_bytes : Z) (run : CliRun) : result (list ascii) TrinoCommandFailure :=
  let bounded (output : list ascii) := take (Z.to_nat (maximum_stdout_bytes + 1)) output in
  let finish (success : bool) (output : list ascii) :=
    guard (maximum_stdout_bytes <? len output)%Z or OutputTooLarge in
    guard negb success or Exit in
    Ok output in
  guard negb (cli_stdout run) or MissingStdout in
  match cli_first run with
  | ProcessFirst None _ => Err Exit
  | ProcessFirst (Some _) None => Err Read
  | ProcessFirst (Some success) (Some output) => finish success (bounded output)
  | OutputFirst None _ => Err Read
  | OutputFirst (Some output) status =>
      guard (maximum_stdout_bytes <? len (bounded output))%Z or OutputTooLarge in
      match status with
      | WaitStatus success => finish success (bounded output)
      | WaitError => Err Exit
      | WaitElapsed => Err Timeout
      end
  | TimeoutFirst => Err Timeout
  end.

Section Cli.
Context `{ProcessEnv} {W : Type} `{CliRuns W}.

(** [TrinoCommandExecutor::execute_cli]. *)
Definition execute_cli (invocation : Invocation) (root : string) (maximum_stdout_bytes : Z) (w : W)
  : result (list ascii) TrinoCommandFailure * W :=
  if (maximum_stdout_bytes =? 0)%Z || (MAXIMUM_TRINO_CAPTURE_BYTES <? maximum_stdout_bytes)%Z
  then (Err InvalidLimit, w)
  else
    let command := {| cmd_program := inv_executable invocation; cmd_args := inv_arguments invocation;
                      cmd_env := sanitized_environment root; cmd_current_dir := root |} in
    match run_cli command w with
    | (None, w) => (Err Spawn, w)
    | (Some run, w) => (conclude_cli maximum_stdout_bytes run, w)
    end.
End Cli.

(** ** Starting a server *)

Inductive TrinoServerFailure := ServerInvalidTimeout | ServerSpawn | ServerExited | ServerProbe | ServerTimeout.

(** Spawning the server, whether it still runs, and killing it with its group. *)
Class ServerProcess (W : Type) := {
  spawn_server : Command -> W -> bool * W;
  server_running : W -> bool * W;
  terminate_server : W -> W;
}.

Class Clock (W : Type) := { now : W -> Z; sleep : Z -> W -> W }.

Section Start.
Context `{ProcessEnv} {W : Type} `{CliRuns W, ServerProcess W, Clock W}.

(** The loop of [RunningTrinoServer::start]; [None] when the fuel is spent. *)
Fixpoint await_server (fuel : nat) (probe : Invocation) (root : string) (startup_timeout probe_interval started : Z)
    (w : W) : option (result unit TrinoServerFailure * W) :=
  match fuel with
  | O => None
  | S fuel =>
      let '(running, w) := server_running w in
      if negb running then Some (Err ServerExited, w)
      else
        match execute_cli probe root 1024 w with
        | (Ok _, w) => Some (Ok tt, w)
        | (Err _, w) =>
            let elapsed := (now w - started)%Z in
            if (startup_timeout <=? elapsed)%Z then Some (Err ServerTimeout, terminate_server w)
            else await_server fuel probe root startup_timeout probe_interval started
                   (sleep (Z.min probe_interval (saturating_sub startup_timeout (now w - started))) w)
        end
  end.

(** One turn per probe interval, and the last two. *)
Definition start_fuel (startup_timeout probe_interval : Z) : nat := Z.to_nat (startup_timeout / probe_interval + 2).

(** [RunningTrinoServer::start]. A probe that cannot be built kills the server as
    its handle is dropped. *)
Definition start_server (launcher : Invocation) (cli_executable root : string) (environment : TrinoServerEnvironment)
    (startup_timeout probe_interval : Z) (w : W) : option (result unit TrinoServerFailure * W) :=
  if (startup_timeout =? 0)%Z || (probe_interval =? 0)%Z then Some (Err ServerInvalidTimeout, w)
  else
    let command := {| cmd_program := inv_executable launcher; cmd_args := inv_arguments launcher;
                      cmd_env := apply_environment environment (sanitized_environment root);
                      cmd_current_dir := root |} in
    let '(spawned, w) := spawn_server command w in
    if negb spawned then Some (Err ServerSpawn, w)
    else
      match cli_invocation cli_executable "SELECT 1 AS ready" CliDiscard with
      | Err _ => Some (Err ServerProbe, terminate_server w)
      | Ok probe =>
          let started := now w in
          await_server (start_fuel startup_timeout probe_interval) probe root startup_timeout probe_interval started
            (sleep (Z.min probe_interval startup_timeout) w)
      end.
End Start.

(** ** Properties *)

(** What is documented of the clock: sleeping takes at least as long as asked
    for, and time does not run backwards while a command runs. *)
Class ClockLaws (W : Type) `{CliRuns W, ServerProcess W, Clock W} : Prop := {
  sleep_advances : forall d w, (0 <= d)%Z -> (now w + d <= now (sleep d w))%Z;
  running_keeps_time : forall w, (now w <= now (server_running w).2)%Z;
  run_keeps_time : forall command w, (now w <= now (run_cli command w).2)%Z;
  spawn_keeps_time : forall command w, (now w <= now (spawn_server command w).2)%Z;
}.

Section Properties.
Context `{ProcessEnv} {W : Type} `{CliRuns W, ServerProcess W, !Clock W, !ClockLaws W}.

Lemma execute_cli_keeps_time invocation root limit w : (now w <= now (execute_cli invocation root limit w).2)%Z.
Proof.
  unfold execute_cli. destruct (_ || _); [simpl; lia|].
  set (command := {| cmd_program := _ |}). pose proof (run_keeps_time command w) as Hrun.
  destruct (run_cli command w) as [[run|] w']; exact Hrun.
Qed.

Lemma await_server_returns fuel probe root startup interval started w :
  (0 < startup)%Z -> (0 < interval)%Z -> (startup - (now w - started) <= (Z.of_nat fuel - 1) * interval)%Z ->
  (1 <= fuel)%nat -> await_server fuel probe root startup interval started w <> None.
Proof.
  intros Hs Hi. revert w. induction fuel as [|fuel IH]; intros w Hleft Hfuel; [lia|]. cbn [await_server].
  pose proof (running_keeps_time w) as H1'. destruct (server_running w) as [running w1]; cbn [snd] in H1'.
  destruct running; [|done]. cbn [negb].
  pose proof (execute_cli_keeps_time probe root 1024 w1) as H2'.
  destruct (execute_cli probe root 1024 w1) as [[output|failure] w2]; [done|]; cbn [snd] in H2'. cbv zeta.
  destruct (Z.leb_spec startup (now w2 - started)); [done|]. unfold saturating_sub.
  pose proof (sleep_advances (Z.min interval (Z.max 0 (startup - (now w2 - started)))) w2) as H3'.
  assert (Hturns : (1 <= fuel)%nat) by (destruct fuel; [exfalso; nia | lia]).
  assert (Hrest : (0 <= (Z.of_nat fuel - 1) * interval)%Z) by nia.
  rewrite (Z.max_r 0) in * by lia. apply IH; [|done].
  replace ((Z.of_nat (S fuel) - 1) * interval)%Z with ((Z.of_nat fuel - 1) * interval + interval)%Z in Hleft by lia.
  lia.
Qed.

(** Starting a Trino server always returns: the loop that probes it
    ends within one turn per probe interval of the startup timeout, and two more,
    with a ready server, a server that exited, or the timeout. *)
Theorem server_start_returns launcher cli root environment startup interval (w : W) :
  (0 < startup)%Z -> (0 < interval)%Z ->
  start_server launcher cli root environment startup interval w <> None.
Proof.
  intros Hs Hi. unfold start_server. destruct (_ || _); [done|]. cbv zeta.
  set (command := {| cmd_program := _ |}). destruct (spawn_server command w) as [spawned w1].
  destruct spawned; [|done]. cbn [negb]. destruct (cli_invocation _ _ _) as [probe|]; [|done].
  pose proof (sleep_advances (Z.min interval startup) w1) as H1'.
  pose proof (Z.div_mod startup interval ltac:(lia)) as Hdiv.
  pose proof (Z.mod_pos_bound startup interval Hi) as Hmod.
  pose proof (Z.div_pos startup interval ltac:(lia) Hi) as Hquot.
  apply await_server_returns; unfold start_fuel; nia.
Qed.

(** An accepted output of the Trino command line is the whole output
    of a client that succeeded, and within the limit: truncation by the bounded
    reader is always reported as [OutputTooLarge]. *)
Theorem accepted_cli_output_is_whole invocation root limit (w w' : W) output :
  execute_cli invocation root limit w = (Ok output, w') ->
  exists run command, run_cli command w = (Some run, w') /\ (len output <= limit)%Z /\
    (cli_first run = ProcessFirst (Some true) (Some output) \/ cli_first run = OutputFirst (Some output) (WaitStatus true)).
Proof.
  unfold execute_cli. destruct (_ || _) eqn:Hlimit; [done|].
  apply orb_false_iff in Hlimit as [Hzero _]. apply Z.eqb_neq in Hzero.
  set (command := {| cmd_program := _ |}). destruct (run_cli command w) as [[run|] w1] eqn:Hrun; [|done].
  intros [= Hout <-]. exists run, command.
  assert (Hwhole : forall bytes : list ascii, (len (take (Z.to_nat (limit + 1)) bytes) <= limit)%Z ->
    take (Z.to_nat (limit + 1)) bytes = bytes).
  { intros bytes Hlen. apply take_ge. unfold len in Hlen. rewrite length_take in Hlen. lia. }
  unfold conclude_cli in Hout. destruct (cli_stdout run); [|done]. cbn [negb] in Hout.
  destruct (cli_first run) as [[status|] [bytes|]|[bytes|] [status| |]|]; try done;
    repeat (destruct (limit <? _)%Z eqn:Hle in Hout; [done|]; apply Z.ltb_ge in Hle); try done;
    destruct status; try done; injection Hout as <-; rewrite (Hwhole bytes) by done;
    (split; [done|]; split; [by rewrite <-(Hwhole bytes)|auto]).
Qed.
End Properties.
