(* ===== verification/EngineAdapters.v ===== *)
(** * The stock engines and the harness's connectors (crates/engine/src/adapters.rs)

    The four [EngineRunner]s, the REST catalog connector and the shared object
    store connector, over a world that pairs the secrets read so far with the
    world [W] of processes, files, HTTP and object store. *)

From S2P Require Import Prelude Order RustStr Json ContractValue ContractAdapter ContractProfile ContractResult.
From S2P Require Import Ledger Transport Sanitize Capture Routing Connection Store EngineParameters EnginePlan.
From S2P Require Import EngineSql EngineRuntime EngineEvents EngineCatalog EngineWorkflow EngineProcess EngineTrino.
From S2P Require Import EngineDecode EngineDuckDb EngineChildProofs EngineTrinoProcess.
From Stdlib Require Import Ascii.
Open Scope string_scope.

Definition CATALOG_REQUEST_TIMEOUT_MS : Z := 30000.
Definition TRINO_STARTUP_TIMEOUT : Z := 120000.
Definition TRINO_PROBE_INTERVAL : Z := 250.

(** ** Secrets *)

Section Secrets.
Context `{SecretSource}.

Definition optional_secret (name : string) : option string :=
  match read_secret name with
  | SecretRead.Value value => Some value
  | SecretRead.Missing | SecretRead.Unreadable => None
  end.

(** The observer's memory after these variables were read. *)
Definition observe_reads (names : list string) (seen : ObservedSecrets) : ObservedSecrets :=
  foldl (fun seen name => (read_observed name seen).2) seen names.

(** The variables [ObjectStoreAuditor::from_connection] reads. *)
Definition store_reads (plan : ObjectStorePlan) : list string :=
  osp_access_key_env plan ::
  match nonempty_env optional_secret (osp_access_key_env plan) with
  | Some _ => [osp_secret_key_env plan]
  | None => []
  end.
End Secrets.

(** ** Connectors *)

(** [AmazonS3Builder::build] for an engine plan. *)
Class StoreBuilder := build_store : ObjectStorePlan -> string -> string -> result unit string.

#[export] Instance ObjectStorePlan_connection : ObjectStoreConnectionPolicy ObjectStorePlan := {
  connection_endpoint := osp_endpoint; connection_bucket := osp_bucket; connection_region := osp_region;
  connection_allow_http := osp_allow_http; connection_path_style_access := osp_path_style_access;
  connection_access_key_env := osp_access_key_env; connection_secret_key_env := osp_secret_key_env;
}.

Definition failed_connection {C} (negotiation : option EngineCatalogNegotiationEvidence)
    (kind : EngineCatalogConnectionFailureKind.t) : EngineCatalogConnection C :=
  ConnectionRefused negotiation {| ecc_kind := kind |}.

Record RestEngineCatalogConnector := { rcc_profile : Profile }.
Inductive SharedObjectStoreConnector := SharedStore.

(** An effect of the world beside the observed secrets. *)
Definition beside {S W A} (effect : W -> A * W) (state : S * W) : A * (S * W) :=
  let '(seen, w) := state in let '(a, w) := effect w in (a, (seen, w)).

Section Connect.
Context `{SecretSource, UrlParser, UrlOps, UrlEdit, FormCodec, JsonParser, Sha256, ClientBuilder}.
Context `{ObjectPaths, UuidParser, LoadTableResponseDecoder, StoreBuilder}.
Context {W : Type} `{HttpClient W, ObjectStoreClient W}.

(** The variables [connect_catalog_adapter] reads. *)
Definition connection_reads (profile : Profile) (catalog : ComponentId) : list string :=
  match resolve_adapter profile catalog, http_client CATALOG_REQUEST_TIMEOUT_MS with
  | Ok target, Ok _ =>
      let adapter := target_adapter target in
      match ad_authentication adapter with
      | Anonymous => []
      | OAuth2ClientCredentials token_path _ client_id_env client_secret_env =>
          match endpoint_url (ep_base_url (ad_endpoint adapter)) token_path ∅ with
          | Err _ => []
          | Ok _ =>
              client_id_env ::
              match nonempty_env optional_secret client_id_env with
              | Some _ => [client_secret_env]
              | None => []
              end
          end
      end
  | _, _ => []
  end.

Definition connect_observed (profile : Profile) (plan : InteroperabilityPlan) (state : ObservedSecrets * W)
  : result CatalogConnectionAttempt string * (ObservedSecrets * W) :=
  let '(seen, w) := state in
  let '(attempt, w) := Runtime.connect_catalog_adapter profile (ci_id (plan_catalog plan)) CATALOG_REQUEST_TIMEOUT_MS
                         CATALOG_RESPONSE_LIMIT_BYTES optional_secret w in
  (attempt, (observe_reads (connection_reads profile (ci_id (plan_catalog plan))) seen, w)).

(** [RestEngineCatalogConnector::connect] after [connect_catalog_adapter]. *)
Definition conclude_connection (plan : InteroperabilityPlan) (attempt : result CatalogConnectionAttempt string)
  : EngineCatalogConnection RestEngineCatalog :=
  match attempt with
  | Err _ => failed_connection None EngineCatalogConnectionFailureKind.Setup
  | Ok attempt =>
      match project_negotiation (ca_evidence attempt) with
      | Err _ => failed_connection None EngineCatalogConnectionFailureKind.Setup
      | Ok negotiation =>
          match ca_outcome attempt with
          | Connected session =>
              match engine_catalog_from_plan session plan with
              | Ok catalog => ConnectionReady negotiation catalog
              | Err _ => failed_connection (Some negotiation) EngineCatalogConnectionFailureKind.FixtureRoute
              end
          | ConnectionFailed failure =>
              failed_connection (Some negotiation)
                match nf_stage failure with
                | Connection.Authentication => EngineCatalogConnectionFailureKind.Authentication
                | Connection.Config => EngineCatalogConnectionFailureKind.Config
                | Connection.Routing => EngineCatalogConnectionFailureKind.Routing
                end
          end
      end
  end.

#[export] Instance RestEngineCatalogConnector_connect
  : EngineCatalogConnector RestEngineCatalogConnector RestEngineCatalog (ObservedSecrets * W) :=
  fun self plan state =>
    let '(attempt, state) := connect_observed (rcc_profile self) plan state in
    (conclude_connection plan attempt, state).

(** [ObjectStoreAuditor::from_connection] over the observed secrets. *)
Definition connect_store_observed (plan : InteroperabilityPlan) (state : ObservedSecrets * W)
  : result ObjectStoreAuditor ObjectStoreFailure * (ObservedSecrets * W) :=
  let '(seen, w) := state in
  (from_connection build_store (plan_object_store plan) optional_secret,
   (observe_reads (store_reads (plan_object_store plan)) seen, w)).

#[export] Instance SharedObjectStoreConnector_connect
  : EngineObjectStoreConnector SharedObjectStoreConnector ObjectStoreAuditor (ObservedSecrets * W) :=
  fun _ => connect_store_observed.

#[export] Instance ObjectStoreAuditor_audit : TableObjectStore ObjectStoreAuditor (ObservedSecrets * W) :=
  fun self root metadata_location => beside (audit_table self root metadata_location).

#[export] Instance RestEngineCatalog_observed : EngineCatalog RestEngineCatalog (ObservedSecrets * W) := {
  engine_load_table self := beside (load_table self);
  engine_drop_table_without_purge self := beside (cleanup self (rec_drop_table_url self));
  engine_drop_namespace self := beside (cleanup self (rec_namespace_url self));
  engine_table_presence self := beside (presence self (rec_table_url self));
  engine_namespace_presence self := beside (presence self (rec_namespace_url self));
}.

Definition connect_observation_catalog (profile : Profile) (plan : InteroperabilityPlan) (state : ObservedSecrets * W)
  : option RestEngineCatalog * (ObservedSecrets * W) :=
  let '(attempt, state) := connect_observed profile plan state in
  (match attempt with
   | Ok attempt =>
       match ca_outcome attempt with
       | Connected session =>
           match engine_catalog_from_plan session plan with Ok catalog => Some catalog | Err _ => None end
       | ConnectionFailed _ => None
       end
   | Err _ => None
   end, state).
End Connect.

(** ** Spark and Flink *)

Section Production.
Context `{HostPlatform}.

(** [RuntimeVerifier::host]. *)
Definition host_verifier : RuntimeVerifier := {|
  verifier_root := "/"; verifier_operating_system := host_operating_system;
  verifier_architecture := host_architecture |}.
End Production.

Record StockSparkRunner := { ssr_verifier : RuntimeVerifier }.
Record StockFlinkRunner := { sfr_verifier : RuntimeVerifier }.
Record StockTrinoRunner := { str_profile : Profile; str_verifier : RuntimeVerifier }.
Record StockDuckDbRunner := { sdr_profile : Profile; sdr_verifier : RuntimeVerifier }.

(** [StockSparkRunner::production] and its siblings. *)
Definition spark_production `{HostPlatform} : StockSparkRunner := {| ssr_verifier := host_verifier |}.
Definition flink_production `{HostPlatform} : StockFlinkRunner := {| sfr_verifier := host_verifier |}.
Definition trino_production `{HostPlatform} (profile : Profile) : StockTrinoRunner := {|
  str_profile := profile; str_verifier := host_verifier |}.
Definition duckdb_production `{HostPlatform} (profile : Profile) : StockDuckDbRunner := {|
  sdr_profile := profile; sdr_verifier := host_verifier |}.

Section ChildRunners.
Context `{EventParser, FileSystem, Sha256, SecretSource, ProcessEnv, UrlParser}.
Context `{ToVec SparkExecutionPlan, ToVec Flink.FlinkRenderedProgram, SparkRenderer}.
Context {W : Type} `{Staging W, Commands W}.

#[export] Instance StockSparkRunner_execute : EngineRunner StockSparkRunner (ObservedSecrets * W) :=
  fun self => execute_spark (ssr_verifier self).
#[export] Instance StockFlinkRunner_execute : EngineRunner StockFlinkRunner (ObservedSecrets * W) :=
  fun self => execute_flink (sfr_verifier self).
End ChildRunners.

Definition credential_rejected (runtime : RuntimeVerification) (failure : EngineCredentialFailure)
  : EngineProcessExecution := before_process runtime (EngineProcessOutcome.CredentialRejected failure).

Definition preparation_failed (runtime : RuntimeVerification) : EngineProcessExecution :=
  before_process runtime (EngineProcessOutcome.PreparationFailed RenderPlan).

(** Microseconds of [Instant]. *)
Class Stopwatch (W : Type) := micros : W -> Z.

Definition elapsed_micros {W} `{Stopwatch W} (started : Z) (w : W) : Z := Z.min u64_max (micros w - started).

(** ** Trino *)

Record ProductionTrinoEffects := {
  pte_root : string;
  pte_program : Trino.TrinoRenderedProgram;
  pte_catalog : RestEngineCatalog;
  pte_store : ObjectStoreAuditor;
}.

Section TrinoRunner.
Context `{SecretSource, ProcessEnv, FileSystem, HostPlatform}.
Context `{UrlParser, UrlOps, UrlEdit, FormCodec, JsonParser, Sha256, ClientBuilder}.
Context `{ObjectPaths, UuidParser, LoadTableResponseDecoder, StoreBuilder, RawJsonReader, GzipReader, ValuesWriter}.
Context {W : Type} `{HttpClient W, ObjectStoreClient W, Staging W, PrivateFiles W, CliRuns W, ServerProcess W, Clock W,
  Stopwatch W}.

(** [ProductionTrinoEffects::query]. *)
Definition trino_query (self : ProductionTrinoEffects) (sql : string) (output : TrinoCliOutput) (limit : Z) (w : W)
  : option (list ascii) * W :=
  match cli_invocation TRINO_CLI_LOCATION sql output with
  | Err _ => (None, w)
  | Ok invocation =>
      match execute_cli invocation (pte_root self) limit w with
      | (Ok output, w) => (Some output, w)
      | (Err _, w) => (None, w)
      end
  end.

Definition result_ok {A E} (r : result A E) : option A := match r with Ok a => Some a | Err _ => None end.

(** A query whose output holds one number. *)
Definition trino_count (self : ProductionTrinoEffects) (sql column : string) (w : W) : option Z * W :=
  let '(output, w) := trino_query self sql CliJson (64 * 1024) w in
  (output ≫= (fun output => result_ok (decode_trino_single_u64 output column)), w).

Definition trino_observe_table (self : ProductionTrinoEffects) (fixture : FixtureTarget) (policy : ObservationPolicy)
    (w : W) : option EngineTableObservation * W :=
  match load_table (pte_catalog self) w with
  | (Ok (EngineTableLoad.Present _ _ state), w) =>
      let table := ect_table state in
      match TableRoot_new (to_location table) (to_metadata_location table) (ft_bucket fixture) with
      | Err _ => (None, w)
      | Ok root =>
          match read_metadata (pte_store self) root (to_metadata_location table) DuckDb.TRINO_METADATA_LIMIT w with
          | (Err _, w) => (None, w)
          | (Ok bytes, w) =>
              (result_ok (decode_iceberg_table_metadata bytes (to_metadata_location table) fixture policy), w)
          end
      end
  | (Ok (EngineTableLoad.Absent _ _), w) | (Err _, w) => (None, w)
  end.

(** [impl TrinoEffects for ProductionTrinoEffects], while its server runs. *)
Definition production_effects (self : ProductionTrinoEffects) : Trino.TrinoEffects W := {|
  Trino.runtime_observation w :=
    let '(output, w) := trino_query self "SELECT version() AS version" CliJson (64 * 1024) w in
    (output ≫= (fun output => version ← result_ok (decode_trino_single_text output "version");
       Some {| ro_engine_version := version; ro_dependencies := {[ "java" := TRINO_JAVA_VERSION ]};
               ro_operating_system := host_operating_system; ro_architecture := host_architecture |}), w);
  Trino.initialize_catalog catalog configuration w :=
    (rendered ← result_ok (Trino.render_configuration (pte_program self));
     if bool_decide (catalog = Trino.catalog (pte_program self)) && bool_decide (configuration = rendered)
     then Some tt else None, w);
  Trino.fixture_absent fixture w :=
    let '(count, w) := trino_count self
      ("SELECT count(*) AS matches FROM information_schema.tables WHERE table_schema = "
       +:+ literal (ft_namespace fixture) +:+ " AND table_name = " +:+ literal (ft_table fixture)) "matches" w in
    ((fun count => count =? 0)%Z <$> count, w);
  Trino.execute operation w :=
    let '(output, w) := trino_query self (Operation.sql operation) CliDiscard 1024 w in ((fun _ => tt) <$> output, w);
  Trino.namespace_listed_exactly fixture w :=
    let '(count, w) := trino_count self
      ("SELECT count(*) AS matches FROM information_schema.schemata WHERE schema_name = "
       +:+ literal (ft_namespace fixture)) "matches" w in
    ((fun count => count =? 1)%Z <$> count, w);
  Trino.observe_table := trino_observe_table self;
  Trino.read operation w :=
    match operation with
    | Operation.InitialRead sql expected | Operation.EvolvedRead sql expected =>
        let '(output, w) := trino_query self sql CliJson (16 * 1024 * 1024) w in
        (output ≫= (fun output => result_ok (decode_trino_canonical_read output expected)), w)
    | _ => (None, w)
    end;
  Trino.snapshot_count operation w :=
    trino_count self ("SELECT count(*) AS snapshots FROM (" +:+ Operation.sql operation +:+ ")") "snapshots" w;
|}.

(** What [StockTrinoRunner::execute] prepares before it starts the server: the
    program, the staged directory, the environment and the launcher. *)
Record PreparedTrino := {
  pt_program : Trino.TrinoRenderedProgram;
  pt_staged : StagedTrinoServer;
  pt_environment : TrinoServerEnvironment;
  pt_launcher : Invocation;
}.

Definition trino_node_id (plan : InteroperabilityPlan) : string :=
  "catalog-bench-" +:+ fixture_namespace (plan_fixture plan).

(** The preparation after the credentials were read. *)
Definition prepare_trino (plan : InteroperabilityPlan) (program : Trino.TrinoRenderedProgram) (secrets : EngineSecrets)
    (w : W) : option PreparedTrino * W :=
  match Trino.render_configuration program with
  | Err _ => (None, w)
  | Ok configuration =>
      match stage_trino configuration w with
      | (Err _, w) => (None, w)
      | (Ok staged, w) =>
          let credential := (fun pair : string * string => pair.1 +:+ ":" +:+ pair.2) <$> sec_catalog_oauth secrets in
          (environment ← result_ok (server_environment (trino_node_id plan) (sts_data staged)
             (sec_object_store_access_key secrets) (sec_object_store_secret_key secrets) credential);
           launcher ← result_ok (launcher_invocation TRINO_LAUNCHER_LOCATION (sts_configuration staged));
           Some {| pt_program := program; pt_staged := staged; pt_environment := environment; pt_launcher := launcher |}, w)
      end
  end.

(** The run against the started server. *)
Definition run_started_trino (self : StockTrinoRunner) (plan : InteroperabilityPlan) (runtime : RuntimeVerification)
    (prepared : PreparedTrino) (state : ObservedSecrets * W) : EngineProcessExecution * (ObservedSecrets * W) :=
  match connect_observation_catalog (str_profile self) plan state with
  | (None, (seen, w)) => (preparation_failed runtime, (seen, terminate_server w))
  | (Some catalog, state) =>
      match connect_store_observed plan state with
      | (Err _, (seen, w)) => (preparation_failed runtime, (seen, terminate_server w))
      | (Ok store, (seen, w)) =>
          let started := micros w in
          let effects := {| pte_root := sts_root (pt_staged prepared); pte_program := pt_program prepared;
                            pte_catalog := catalog; pte_store := store |} in
          match @Trino.run_trino_child W (production_effects effects) (pt_program prepared) w with
          | None => (before_process runtime EngineProcessOutcome.WaitFailed, (seen, terminate_server w))
          | Some ((exit_code, events), w) =>
              let w := terminate_server w in
              (from_in_process_events runtime exit_code events (elapsed_micros started w), (seen, w))
          end
      end
  end.

(** [StockTrinoRunner::execute]. Its reads of the credentials are those of
    [EngineSecrets::load]. The start never runs out of fuel
    ([server_start_returns]); that case is answered like a failed start. *)
Definition execute_trino (self : StockTrinoRunner) (plan : InteroperabilityPlan) (state : ObservedSecrets * W)
  : EngineProcessExecution * (ObservedSecrets * W) :=
  let '(seen, w) := state in
  let runtime := verify (str_verifier self) plan in
  if negb (verification_passed runtime) then (before_process runtime EngineProcessOutcome.RuntimeRejected, state)
  else
    match as_trino (plan_execution plan) with
    | None => (before_process runtime (EngineProcessOutcome.PreparationFailed ExecutionPlanMismatch), state)
    | Some trino =>
        match Trino.render trino with
        | Err _ => (preparation_failed runtime, state)
        | Ok program =>
            match load_secrets plan seen with
            | (Err failure, seen) => (credential_rejected runtime failure, (seen, w))
            | (Ok secrets, seen) =>
                match prepare_trino plan program secrets w with
                | (None, w) => (preparation_failed runtime, (seen, w))
                | (Some prepared, w) =>
                    match start_server (pt_launcher prepared) TRINO_CLI_LOCATION (sts_root (pt_staged prepared))
                            (pt_environment prepared) TRINO_STARTUP_TIMEOUT TRINO_PROBE_INTERVAL w with
                    | Some (Ok _, w) => run_started_trino self plan runtime prepared (seen, w)
                    | Some (Err _, w) => (before_process runtime EngineProcessOutcome.SpawnFailed, (seen, w))
                    | None => (before_process runtime EngineProcessOutcome.SpawnFailed, (seen, w))
                    end
                end
            end
        end
    end.

#[export] Instance StockTrinoRunner_execute : EngineRunner StockTrinoRunner (ObservedSecrets * W) := execute_trino.
End TrinoRunner.

(** ** DuckDB *)

Section DuckDbRunner.
Context `{SecretSource, FileSystem, HostPlatform}.
Context `{UrlParser, UrlOps, UrlEdit, FormCodec, JsonParser, Sha256, ClientBuilder, DuckDb.UrlPort}.
Context `{ObjectPaths, UuidParser, LoadTableResponseDecoder, StoreBuilder, RawJsonReader, GzipReader, ValuesWriter}.
Context `{DuckDb.ArrayStream} {W : Type} `{HttpClient W, ObjectStoreClient W, DuckDb.DuckDbCli W, Stopwatch W}.

(** The run after the credentials were read. A panic would end the harness; it
    never happens ([duckdb_runs_are_lawful]) and is answered like a failed wait. *)
Definition run_prepared_duckdb (self : StockDuckDbRunner) (plan : InteroperabilityPlan) (runtime : RuntimeVerification)
    (program : DuckDb.DuckDbRenderedProgram) (secrets : EngineSecrets) (state : ObservedSecrets * W)
  : EngineProcessExecution * (ObservedSecrets * W) :=
  match connect_observation_catalog (sdr_profile self) plan state with
  | (None, state) => (preparation_failed runtime, state)
  | (Some catalog, state) =>
      match connect_store_observed plan state with
      | (Err _, state) => (preparation_failed runtime, state)
      | (Ok store, (seen, w)) =>
          let started := micros w in
          let effects := {| DuckDb.eff_program := program;
                            DuckDb.eff_access_key := sec_object_store_access_key secrets;
                            DuckDb.eff_secret_key := sec_object_store_secret_key secrets;
                            DuckDb.eff_oauth := sec_catalog_oauth secrets;
                            DuckDb.eff_catalog := catalog; DuckDb.eff_store := store |} in
          match DuckDb.run_duckdb_program effects w with
          | None => (before_process runtime EngineProcessOutcome.WaitFailed, (seen, w))
          | Some ((exit_code, events), w) =>
              (from_in_process_events runtime exit_code events (elapsed_micros started w), (seen, w))
          end
      end
  end.

(** [StockDuckDbRunner::execute]. Its reads of the credentials are those of
    [EngineSecrets::load]. *)
Definition execute_duckdb (self : StockDuckDbRunner) (plan : InteroperabilityPlan) (state : ObservedSecrets * W)
  : EngineProcessExecution * (ObservedSecrets * W) :=
  let '(seen, w) := state in
  let runtime := verify (sdr_verifier self) plan in
  if negb (verification_passed runtime) then (before_process runtime EngineProcessOutcome.RuntimeRejected, state)
  else
    match as_duckdb (plan_execution plan) with
    | None => (before_process runtime (EngineProcessOutcome.PreparationFailed ExecutionPlanMismatch), state)
    | Some duckdb =>
        match DuckDb.render duckdb with
        | Err _ => (preparation_failed runtime, state)
        | Ok program =>
            match load_secrets plan seen with
            | (Err failure, seen) => (credential_rejected runtime failure, (seen, w))
            | (Ok secrets, seen) => run_prepared_duckdb self plan runtime program secrets (seen, w)
            end
        end
    end.

#[export] Instance StockDuckDbRunner_execute : EngineRunner StockDuckDbRunner (ObservedSecrets * W) := execute_duckdb.
End DuckDbRunner.

(** ** Properties of the stock engines and connectors

    All four stock engines report events that follow the protocol, so that the
    verdict of the workflow holds for each of them. *)

Lemma lawful_capture run verification code elapsed capture :
  lawful_run run -> pe_capture (from_in_process_events verification code run.2 elapsed) = Some capture ->
  exists n t, protocol (cap_events capture) n t.
Proof. intros (n & event & Hp & _) [= <-]. by exists n, true. Qed.

(** ** Spark and Flink *)

Section ChildRunners.
Context `{EventParser, FileSystem, Sha256, SecretSource, ProcessEnv, UrlParser}.
Context `{ToVec SparkExecutionPlan, ToVec Flink.FlinkRenderedProgram, SparkRenderer}.
Context {W : Type} `{Staging W, Commands W}.

Lemma execute_staged_on_protocol {Staged} verifier plan
    (stage : InteroperabilityPlan -> W -> result Staged EnginePreparationFailureKind * W) command state capture :
  pe_capture (execute_staged verifier plan stage command state).1 = Some capture ->
  exists n t, protocol (cap_events capture) n t.
Proof.
  unfold execute_staged. destruct state as [seen w]. destruct (negb _); [done|].
  destruct (stage plan w) as [[staged|kind] w1]; [|done].
  destruct (load_secrets plan seen) as [[secrets|failure] seen1]; [|done].
  destruct (run_command _ w1) as [spawned w2]. intros (chunks & ->)%collect_child_capture. apply capture_of_protocol.
Qed.

#[export] Instance StockSparkRunner_lawful : LawfulEngineRunner StockSparkRunner (ObservedSecrets * W).
Proof. intros runner plan state capture. apply execute_staged_on_protocol. Qed.

#[export] Instance StockFlinkRunner_lawful : LawfulEngineRunner StockFlinkRunner (ObservedSecrets * W).
Proof. intros runner plan state capture. apply execute_staged_on_protocol. Qed.
End ChildRunners.

(** ** Trino *)

Section TrinoRunner.
Context `{SecretSource, ProcessEnv, FileSystem, HostPlatform}.
Context `{UrlParser, UrlOps, UrlEdit, FormCodec, JsonParser, Sha256, ClientBuilder}.
Context `{ObjectPaths, UuidParser, LoadTableResponseDecoder, StoreBuilder, RawJsonReader, GzipReader, ValuesWriter}.
Context {W : Type} `{HttpClient W, ObjectStoreClient W, Staging W, PrivateFiles W, CliRuns W, ServerProcess W, Clock W,
  Stopwatch W}.

#[export] Instance StockTrinoRunner_lawful : LawfulEngineRunner StockTrinoRunner (ObservedSecrets * W).
Proof.
  intros runner plan [seen w] capture. unfold execute, StockTrinoRunner_execute, execute_trino.
  destruct (negb _); [done|]. destruct (as_trino _) as [trino|]; [|done].
  destruct (Trino.render trino) as [program|]; [|done]. destruct (load_secrets plan seen) as [[secrets|] seen1]; [|done].
  destruct (prepare_trino _ _ _ w) as [[prepared|] w1]; [|done].
  destruct (start_server _ _ _ _ _ _ w1) as [[[[]|] w2]|]; [|done..]. unfold run_started_trino.
  destruct (connect_observation_catalog _ _ _) as [[catalog|] [seen2 w3]]; [|done].
  destruct (connect_store_observed _ _) as [[store|] [seen3 w4]]; [|done]. cbv zeta.
  destruct (@trino_child_runs W (production_effects
    {| pte_root := sts_root (pt_staged prepared); pte_program := pt_program prepared; pte_catalog := catalog;
       pte_store := store |}) (pt_program prepared) w4) as (run & w5 & Hrun & Hlawful & _).
  rewrite Hrun. destruct run as [code events]. by eapply (lawful_capture (code, events)).
Qed.
End TrinoRunner.

(** ** DuckDB *)

Section DuckDbRunner.
Context `{SecretSource, FileSystem, HostPlatform}.
Context `{UrlParser, UrlOps, UrlEdit, FormCodec, JsonParser, Sha256, ClientBuilder, DuckDb.UrlPort}.
Context `{ObjectPaths, UuidParser, LoadTableResponseDecoder, StoreBuilder, RawJsonReader, GzipReader, ValuesWriter}.
Context `{DuckDb.ArrayStream} {W : Type} `{HttpClient W, ObjectStoreClient W, DuckDb.DuckDbCli W, Stopwatch W}.

#[export] Instance StockDuckDbRunner_lawful : LawfulEngineRunner StockDuckDbRunner (ObservedSecrets * W).
Proof.
  intros runner plan [seen w] capture. unfold execute, StockDuckDbRunner_execute, execute_duckdb.
  destruct (negb _); [done|]. destruct (as_duckdb _) as [duckdb|]; [|done].
  destruct (DuckDb.render duckdb) as [program|] eqn:Hr; [|done].
  destruct (load_secrets plan seen) as [[secrets|] seen1]; [|done]. unfold run_prepared_duckdb.
  destruct (connect_observation_catalog _ _ _) as [[catalog|] state]; [|done].
  destruct (connect_store_observed _ _) as [[store|] [seen2 w1]]; [|done]. cbv zeta.
  set (effects := {| DuckDb.eff_program := program |}).
  destruct (duckdb_program_runs duckdb effects w1 Hr) as (run & w2 & Hrun & Hlawful & _).
  rewrite Hrun. destruct run as [code events]. by eapply (lawful_capture (code, events)).
Qed.
End DuckDbRunner.
