(* ===== verification/EngineTranscript.v ===== *)
(** * Engine transcripts (crates/engine/src/{transcript.rs,transcript/})

    The contracts of a run, the transcript built from an execution, its
    validation against re-derived values, the audit of its serialized strings,
    and the entry points that run a stock engine. *)

From S2P Require Import Prelude Order RustStr Json ContractValue ContractScenario ContractAdapter ContractProfile.
From S2P Require Import ContractResult ContractDocument Sanitization Ledger Policy Transport Sanitize Capture Routing.
From S2P Require Import Connection Store EngineParameters EnginePlan EngineSql EngineRuntime EngineEvents.
From S2P Require Import EngineCatalog EngineWorkflow EngineProcess EngineTrino EngineDecode EngineDuckDb.
From S2P Require Import EngineTrinoProcess EngineAdapters.
From Stdlib Require Import Ascii.
Open Scope string_scope.

Definition SANITIZATION_POLICY : string := "catalog-bench/value-safe-engine-v1".

(** ** Errors *)

Inductive EngineSanitizationViolation :=
| AuditSerialization | SensitiveRuntimeValue | RawCredentialForm | RawEngineRow | ContractBinding.

Module EngineTranscriptValidationFailureKind.
Inductive t :=
| Format | Scenario | ContractDigests | Profile | Policy | Components | Fixture | Execution | Sanitization.
End EngineTranscriptValidationFailureKind.

(** The error's kind with its source. *)
Inductive EngineEvidenceError :=
| ProfileContract | ScenarioContract | ProfileDocumentKind | ScenarioDocumentKind
| EvidencePolicy (error : PolicyError)
| ProfileComponent
| EvidenceSanitization (violation : EngineSanitizationViolation)
| EvidenceValidation (kind : EngineTranscriptValidationFailureKind.t).

(** ** Contracts *)

Record EngineContracts := {
  ecs_profile : Profile;
  ecs_scenario : Scenario;
  ecs_digests : ContractDigests;
}.

#[export] Instance ContractDigests_eq_dec : EqDecision ContractDigests.
Proof. solve_decision. Defined.

Section Contracts.
Context `{UrlParser, UrlOps, ContractDecoders, EngineParametersDecoder, CanonicalEngineScenario, Sha256}.

(** [EngineContracts::parse]. *)
Definition parse_contracts (profile_bytes scenario_bytes : string) : result EngineContracts EngineEvidenceError :=
  let? profile := map_err (fun _ => ProfileContract) (parse_contract profile_bytes) in
  let? profile := match profile with ProfileDocument profile => Ok profile | _ => Err ProfileDocumentKind end in
  let? scenario := map_err (fun _ => ScenarioContract) (parse_contract scenario_bytes) in
  let? scenario := match scenario with ScenarioDocument scenario => Ok scenario | _ => Err ScenarioDocumentKind end in
  Ok {| ecs_profile := profile; ecs_scenario := scenario;
        ecs_digests := {| profile_sha256 := sha256_hex (RustStr.bytes profile_bytes);
                          scenario_sha256 := sha256_hex (RustStr.bytes scenario_bytes) |} |}.

(** [EngineContracts::plan]. *)
Definition contracts_plan (self : EngineContracts) (catalog : ComponentId) (fixture_id : string)
  : result InteroperabilityPlan EngineEvidenceError :=
  map_err EvidencePolicy (plan_from_contracts (ecs_profile self) (ecs_scenario self) catalog fixture_id).
End Contracts.

(** ** Transcripts *)

Record EngineTranscriptProfile := { etp_id : ProfileId; etp_resolved_at : string }.

Record EngineTranscriptComponent := {
  etc_id : ComponentId;
  etc_name : string;
  etc_version : string;
  etc_source_revision : option string;
}.

Record EngineTranscriptComponents := {
  ets_runner : EngineTranscriptComponent;
  ets_catalog : EngineTranscriptComponent;
  ets_engine : EngineTranscriptComponent;
  ets_connector : EngineTranscriptComponent;
  ets_object_store : EngineTranscriptComponent;
}.

Record EngineTranscriptFixture := {
  etf_id : string;
  etf_namespace : string;
  etf_table : string;
  etf_requested_location : option string;
}.

Record EngineTranscriptSanitization := {
  esa_policy : string;
  esa_negotiation_redactions_observed : Z;
  esa_raw_secrets_persisted : bool;
  esa_raw_engine_rows_persisted : bool;
  esa_raw_response_body_persisted : bool;
  esa_raw_backend_failure_detail_persisted : bool;
  esa_transcript_sanitized : bool;
}.

Record EngineTranscript := {
  et_format : string;
  et_scenario : TranscriptScenario;
  et_contract_digests : ContractDigests;
  et_profile : EngineTranscriptProfile;
  et_components : EngineTranscriptComponents;
  et_fixture : EngineTranscriptFixture;
  et_execution : EngineExecution;
  et_sanitization : EngineTranscriptSanitization;
}.

#[export] Instance EngineTranscriptComponent_eq_dec : EqDecision EngineTranscriptComponent.
Proof. solve_decision. Defined.
#[export] Instance EngineTranscriptComponents_eq_dec : EqDecision EngineTranscriptComponents.
Proof. solve_decision. Defined.
#[export] Instance EngineTranscriptFixture_eq_dec : EqDecision EngineTranscriptFixture.
Proof. solve_decision. Defined.

Definition from_identity (identity : ComponentIdentity) : EngineTranscriptComponent := {|
  etc_id := ci_id identity; etc_name := ci_name identity; etc_version := ci_version identity;
  etc_source_revision := ci_source_revision identity |}.

Definition from_component (component : Component) : EngineTranscriptComponent := {|
  etc_id := comp_id component; etc_name := comp_name component; etc_version := comp_version component;
  etc_source_revision := source_revision <$> comp_source component |}.

(** [EngineTranscriptSanitization::passed]. *)
Definition sanitization_passed (self : EngineTranscriptSanitization) : bool :=
  (esa_policy self =? SANITIZATION_POLICY) && negb (esa_raw_secrets_persisted self)
  && negb (esa_raw_engine_rows_persisted self) && negb (esa_raw_response_body_persisted self)
  && negb (esa_raw_backend_failure_detail_persisted self) && esa_transcript_sanitized self.

Definition expected_components (profile : Profile) (plan : InteroperabilityPlan) : option EngineTranscriptComponents :=
  runner ←
    match plan_runner plan with
    | Some runner => Some (from_identity runner)
    | None =>
        runner_id ← plat_container_runtime (prof_platform profile);
        from_component <$> find (fun component => comp_id component =? runner_id) (prof_components profile)
    end;
  object_store ← find (fun component => comp_id component =? osp_component (plan_object_store plan))
                   (prof_components profile);
  Some {| ets_runner := runner; ets_catalog := from_identity (plan_catalog plan);
          ets_engine := from_identity (plan_engine plan); ets_connector := from_identity (plan_connector plan);
          ets_object_store := from_component object_store |}.

Definition negotiation_redactions (execution : EngineExecution) : Z :=
  match ex_catalog_connection execution with
  | EngineCatalogConnectionEvidence.Ready negotiation
  | EngineCatalogConnectionEvidence.Failed (Some negotiation) _ => en_redactions_observed negotiation
  | EngineCatalogConnectionEvidence.NotAttempted _ | EngineCatalogConnectionEvidence.Failed None _ => 0%Z
  end.

(** The [EngineTranscriptFixture] of a plan. *)
Definition transcript_fixture (plan : InteroperabilityPlan) (fixture_id : string) : EngineTranscriptFixture := {|
  etf_id := fixture_id; etf_namespace := fixture_namespace (plan_fixture plan);
  etf_table := fixture_table (plan_fixture plan);
  etf_requested_location := fixture_requested_location (plan_fixture plan) |}.

(** ** The audit of a transcript (transcript/sanitize.rs) *)

Definition RAW_BEARER_PREFIX : string := "Bearer ".

Definition sanitization_violation (forbidden : EngineSanitizationViolation) (failure : SerializedValueAuditFailure)
  : EngineSanitizationViolation :=
  match failure with
  | Serialization => AuditSerialization
  | SensitiveValue => SensitiveRuntimeValue
  | ForbiddenValue => forbidden
  end.

Definition batch_ids (batch : BatchPolicy) : option (list Z) :=
  _ ← checked_add u64_max (bp_id_start batch) (bp_rows batch);
  Some (seqZ (bp_id_start batch) (bp_rows batch)).

Section Rows.
Context `{ValuesWriter}.

(** [serde_json::to_string] of a tuple: the array of its members. *)
Definition row_text (values : list Value) : option string :=
  String.string_of_list_ascii <$> write_values values.

(** The closure [row_values]. *)
Definition row_values (generator : RowGenerator) (id : Z) : option (string * Z) :=
  let '(Affine multiplier offset) := rg_amount_cents generator in
  let '(ModuloLabel modulus prefix) := rg_category generator in
  product ← checked_mul u64_max id multiplier;
  amount ← checked_add u64_max product offset;
  Some (prefix +:+ display (id mod modulus)%Z, amount).

(** The two forms of an initial row: before and after the schema evolved. *)
Definition initial_row_texts (generator : RowGenerator) (id : Z) : option (list string) :=
  values ← row_values generator id;
  let '(category, amount) := values in
  before ← row_text [Num (PosInt id); Str category; Num (PosInt amount)];
  after ← row_text [Num (PosInt id); Str category; Num (PosInt amount); Null];
  Some [before; after].

Definition evolved_row_text (generator : RowGenerator) (id : Z) : option string :=
  let '(IdLabel note_prefix) := rg_note generator in
  values ← row_values generator id;
  let '(category, amount) := values in
  row_text [Num (PosInt id); Str category; Num (PosInt amount); Str (note_prefix +:+ display id)].

Definition canonical_row_values (plan : InteroperabilityPlan) : option (list string) :=
  let scenario := plan_scenario plan in
  let generator := sp_row_generator scenario in
  let '(ModuloLabel modulus _) := rg_category generator in
  if (modulus =? 0)%Z then None
  else
    initial_ids ← batch_ids (bs_initial (sp_batches scenario));
    initial ← mapM (initial_row_texts generator) initial_ids;
    evolved_ids ← batch_ids (bs_evolved (sp_batches scenario));
    evolved ← mapM (evolved_row_text generator) evolved_ids;
    Some (sort_dedup (List.concat initial ++ evolved)%list).
End Rows.

Section Audit.
Context `{ValuesWriter, !Serialize EngineTranscript}.

Definition audit_base_values (transcript : EngineTranscript) (sensitive_values : list string)
  : result unit EngineSanitizationViolation :=
  check? map_err (sanitization_violation RawCredentialForm) (audit_serialized_values transcript sensitive_values []) in
  map_err (sanitization_violation RawCredentialForm) (audit_serialized_values transcript [] [RAW_BEARER_PREFIX]).

Definition audit_with_plan (transcript : EngineTranscript) (plan : InteroperabilityPlan)
    (sensitive_values : list string) : result unit EngineSanitizationViolation :=
  check? audit_base_values transcript sensitive_values in
  let? rows := ok_or (canonical_row_values plan) ContractBinding in
  map_err (sanitization_violation RawEngineRow) (audit_serialized_values transcript [] rows).

(** [EngineTranscript::passed]. *)
Definition engine_transcript_passed (self : EngineTranscript) : bool :=
  (et_format self =? ENGINE_TRANSCRIPT_FORMAT) && (ts_id (et_scenario self) =? ENGINE_SCENARIO_ID)
  && (ts_version (et_scenario self) =? ENGINE_SCENARIO_VERSION)%Z && execution_passed (et_execution self)
  && sanitization_passed (et_sanitization self)
  && (esa_negotiation_redactions_observed (et_sanitization self) =? negotiation_redactions (et_execution self))%Z
  && is_ok (audit_base_values self []).
End Audit.

(** ** Building and validating a transcript *)

(** [transcript.sanitization.transcript_sanitized = flag]. *)
Definition set_sanitized (flag : bool) (self : EngineTranscript) : EngineTranscript :=
  let s := et_sanitization self in {|
  et_format := et_format self; et_scenario := et_scenario self; et_contract_digests := et_contract_digests self;
  et_profile := et_profile self; et_components := et_components self; et_fixture := et_fixture self;
  et_execution := et_execution self;
  et_sanitization := {|
    esa_policy := esa_policy s; esa_negotiation_redactions_observed := esa_negotiation_redactions_observed s;
    esa_raw_secrets_persisted := esa_raw_secrets_persisted s;
    esa_raw_engine_rows_persisted := esa_raw_engine_rows_persisted s;
    esa_raw_response_body_persisted := esa_raw_response_body_persisted s;
    esa_raw_backend_failure_detail_persisted := esa_raw_backend_failure_detail_persisted s;
    esa_transcript_sanitized := flag |} |}.

Section Transcripts.
Context `{UrlParser, UrlOps, ContractDecoders, EngineParametersDecoder, CanonicalEngineScenario, ObjectPaths, UuidParser}.
Context `{ValuesWriter, !Serialize EngineTranscript}.

(** [EngineTranscript::validate]. *)
Definition validate_transcript (self : EngineTranscript) (contracts : EngineContracts)
  : result unit EngineTranscriptValidationFailureKind.t :=
  guard negb (et_format self =? ENGINE_TRANSCRIPT_FORMAT) or EngineTranscriptValidationFailureKind.Format in
  guard negb (ts_id (et_scenario self) =? scen_id (ecs_scenario contracts))
        || negb (ts_version (et_scenario self) =? scen_version (ecs_scenario contracts))%Z
    or EngineTranscriptValidationFailureKind.Scenario in
  guard negb (bool_decide (et_contract_digests self = ecs_digests contracts))
    or EngineTranscriptValidationFailureKind.ContractDigests in
  guard negb (etp_id (et_profile self) =? prof_id (ecs_profile contracts))
        || negb (etp_resolved_at (et_profile self) =? prof_resolved_at (ecs_profile contracts))
    or EngineTranscriptValidationFailureKind.Profile in
  let? plan := map_err (fun _ => EngineTranscriptValidationFailureKind.Policy)
                 (contracts_plan contracts (etc_id (ets_catalog (et_components self))) (etf_id (et_fixture self))) in
  guard negb (bool_decide (expected_components (ecs_profile contracts) plan = Some (et_components self)))
    or EngineTranscriptValidationFailureKind.Components in
  guard negb (bool_decide (et_fixture self = transcript_fixture plan (etf_id (et_fixture self))))
    or EngineTranscriptValidationFailureKind.Fixture in
  let expected_execution := finalize plan (et_execution self) in
  guard negb (bool_decide (ex_checks (et_execution self) = ex_checks expected_execution))
        || negb (bool_decide (ex_classification (et_execution self) = ex_classification expected_execution))
    or EngineTranscriptValidationFailureKind.Execution in
  guard negb (sanitization_passed (et_sanitization self))
        || negb (esa_negotiation_redactions_observed (et_sanitization self)
                 =? negotiation_redactions (et_execution self))%Z
        || negb (is_ok (audit_with_plan self plan []))
    or EngineTranscriptValidationFailureKind.Sanitization in
  Ok tt.

(** The transcript [from_execution] starts from. *)
Definition unsanitized_transcript (contracts : EngineContracts) (plan : InteroperabilityPlan) (fixture_id : string)
    (components : EngineTranscriptComponents) (execution : EngineExecution) : EngineTranscript := {|
  et_format := ENGINE_TRANSCRIPT_FORMAT;
  et_scenario := {| ts_id := scen_id (ecs_scenario contracts); ts_version := scen_version (ecs_scenario contracts) |};
  et_contract_digests := ecs_digests contracts;
  et_profile := {| etp_id := prof_id (ecs_profile contracts);
                   etp_resolved_at := prof_resolved_at (ecs_profile contracts) |};
  et_components := components; et_fixture := transcript_fixture plan fixture_id; et_execution := execution;
  et_sanitization := {|
    esa_policy := SANITIZATION_POLICY; esa_negotiation_redactions_observed := negotiation_redactions execution;
    esa_raw_secrets_persisted := false; esa_raw_engine_rows_persisted := false;
    esa_raw_response_body_persisted := false; esa_raw_backend_failure_detail_persisted := false;
    esa_transcript_sanitized := false |} |}.

(** [EngineTranscript::from_execution]. *)
Definition from_execution (contracts : EngineContracts) (plan : InteroperabilityPlan) (fixture_id : string)
    (execution : EngineExecution) (sensitive_values : list string) : result EngineTranscript EngineEvidenceError :=
  let? components := ok_or (expected_components (ecs_profile contracts) plan) ProfileComponent in
  let transcript := unsanitized_transcript contracts plan fixture_id components execution in
  check? map_err EvidenceSanitization (audit_with_plan transcript plan sensitive_values) in
  let transcript := set_sanitized true transcript in
  check? map_err EvidenceValidation (validate_transcript transcript contracts) in
  Ok transcript.

(** [EngineTranscript::audit_serialized_values]. *)
Definition engine_audit_serialized_values (self : EngineTranscript) (contracts : EngineContracts)
    (sensitive_values : list string) : result unit EngineSanitizationViolation :=
  let? plan := map_err (fun _ => ContractBinding)
                 (contracts_plan contracts (etc_id (ets_catalog (et_components self))) (etf_id (et_fixture self))) in
  audit_with_plan self plan sensitive_values.
End Transcripts.

(** ** Running a stock engine *)

Section Runs.
Context `{SecretSource, ProcessEnv, FileSystem, HostPlatform, EventParser}.
Context `{UrlParser, UrlOps, UrlEdit, FormCodec, JsonParser, Sha256, ClientBuilder, DuckDb.UrlPort}.
Context `{ContractDecoders, EngineParametersDecoder, CanonicalEngineScenario}.
Context `{ObjectPaths, UuidParser, LoadTableResponseDecoder, StoreBuilder, RawJsonReader, GzipReader, ValuesWriter}.
Context `{ToVec SparkExecutionPlan, ToVec Flink.FlinkRenderedProgram, SparkRenderer, DuckDb.ArrayStream}.
Context `{!Serialize EngineTranscript}.
Context {W : Type} `{HttpClient W, ObjectStoreClient W, Staging W, Commands W, PrivateFiles W, CliRuns W,
  ServerProcess W, Clock W, DuckDb.DuckDbCli W, Stopwatch W}.

(** What the four entry points share: the plan, an observer of the secrets that
    has seen none yet, the workflow with the production connectors, and the
    transcript. *)
Definition run_stock {R} `{EngineRunner R (ObservedSecrets * W)} (runner : R) (contracts : EngineContracts)
    (catalog : ComponentId) (fixture_id : string) (w : W) : result EngineTranscript EngineEvidenceError * W :=
  match contracts_plan contracts catalog fixture_id with
  | Err e => (Err e, w)
  | Ok plan =>
      let '(execution, (seen, w)) :=
        run_engine_workflow plan runner {| rcc_profile := ecs_profile contracts |} SharedStore ([] : ObservedSecrets, w) in
      (from_execution contracts plan fixture_id execution (observed_sensitive_values seen), w)
  end.

Definition run_stock_spark_interoperability (contracts : EngineContracts) (catalog : ComponentId)
    (fixture_id : string) (w : W) : result EngineTranscript EngineEvidenceError * W :=
  run_stock spark_production contracts catalog fixture_id w.

Definition run_stock_flink_interoperability (contracts : EngineContracts) (catalog : ComponentId)
    (fixture_id : string) (w : W) : result EngineTranscript EngineEvidenceError * W :=
  run_stock flink_production contracts catalog fixture_id w.

Definition run_stock_trino_interoperability (contracts : EngineContracts) (catalog : ComponentId)
    (fixture_id : string) (w : W) : result EngineTranscript EngineEvidenceError * W :=
  run_stock (trino_production (ecs_profile contracts)) contracts catalog fixture_id w.

Definition run_stock_duckdb_interoperability (contracts : EngineContracts) (catalog : ComponentId)
    (fixture_id : string) (w : W) : result EngineTranscript EngineEvidenceError * W :=
  run_stock (duckdb_production (ecs_profile contracts)) contracts catalog fixture_id w.

Definition run_stock_engine_interoperability (contracts : EngineContracts) (catalog : ComponentId)
    (fixture_id : string) (w : W) : result EngineTranscript EngineEvidenceError * W :=
  match contracts_plan contracts catalog fixture_id with
  | Err e => (Err e, w)
  | Ok plan =>
      match plan_execution plan with
      | DuckDb _ => run_stock_duckdb_interoperability contracts catalog fixture_id w
      | Trino _ => run_stock_trino_interoperability contracts catalog fixture_id w
      | Flink _ => run_stock_flink_interoperability contracts catalog fixture_id w
      | Spark _ => run_stock_spark_interoperability contracts catalog fixture_id w
      end
  end.
End Runs.
