(* ===== verification/EngineTranscriptProofs.v ===== *)
(** * Properties of engine transcripts

    The strings of a published transcript, its validation, and what a passing
    transcript of each stock engine means. *)

From S2P Require Import Prelude Order RustStr Json ContractValue ContractScenario ContractAdapter ContractProfile.
From S2P Require Import ContractResult ContractDocument Sanitization Ledger Policy Transport Sanitize Capture Routing.
From S2P Require Import Connection Store EngineParameters EnginePlan EnginePlanProofs EngineSql EngineRuntime.
From S2P Require Import EngineEvents EngineCatalog EngineWorkflow EngineProcess EngineTrino EngineDecode EngineDuckDb.
From S2P Require Import EngineChildProofs EngineTrinoProcess EngineAdapters EngineTranscript.
From Stdlib Require Import Ascii.
Open Scope string_scope.

(** ** The audit *)

(** What is relied on of [derive(Serialize)]: the flag [transcript_sanitized] is
    serialized as a boolean, so it changes no string of the document. *)
Class FlagIsNoString `{Serialize EngineTranscript} : Prop :=
  flag_keeps_strings : forall transcript flag,
    string_leaves <$> to_value (set_sanitized flag transcript) = string_leaves <$> to_value transcript.

(** No string of the serialized transcript contains a nonempty needle. *)
Definition free_of `{Serialize EngineTranscript} (transcript : EngineTranscript) (needles : list string) : Prop :=
  exists leaves, string_leaves <$> to_value transcript = Some leaves /\
    forall leaf needle, leaf ∈ leaves -> needle ∈ needles -> needle <> "" ->
      ~ exists pre post, leaf = pre +:+ needle +:+ post.

Section Audit.
Context `{ValuesWriter, !Serialize EngineTranscript}.

Lemma audit_free_of transcript sensitive forbidden :
  audit_serialized_values transcript sensitive forbidden = Ok tt <-> free_of transcript (sensitive ++ forbidden)%list.
Proof.
  unfold audit_serialized_values, free_of. destruct (to_value transcript) as [v|]; cbn [ok_or].
  - rewrite inspect_value_clean. split.
    + intros Hclean. exists (string_leaves v). split; [done|]. intros leaf needle. apply Hclean.
    + intros (leaves & [= <-] & Hclean). exact Hclean.
  - split; [done|]. by intros (leaves & ? & _).
Qed.

Lemma audit_base_values_Ok transcript sensitive :
  audit_base_values transcript sensitive = Ok tt <-> free_of transcript sensitive /\ free_of transcript [RAW_BEARER_PREFIX].
Proof.
  unfold audit_base_values. destruct (audit_serialized_values transcript sensitive []) as [[]|f] eqn:Hs; cbn [map_err].
  - rewrite map_err_Ok_iff, audit_free_of. apply audit_free_of in Hs. rewrite app_nil_r in Hs. cbn [app]. tauto.
  - split; [done|]. intros [Hfree _]. rewrite <-(app_nil_r sensitive) in Hfree. apply audit_free_of in Hfree. congruence.
Qed.

Lemma audit_with_plan_Ok transcript plan sensitive :
  audit_with_plan transcript plan sensitive = Ok tt <->
  exists rows, canonical_row_values plan = Some rows /\ free_of transcript sensitive /\
    free_of transcript [RAW_BEARER_PREFIX] /\ free_of transcript rows.
Proof.
  unfold audit_with_plan. destruct (audit_base_values transcript sensitive) as [[]|f] eqn:Hb.
  - apply audit_base_values_Ok in Hb as [Hs Hbearer]. destruct (canonical_row_values plan) as [rows|]; cbn [ok_or].
    + rewrite map_err_Ok_iff, audit_free_of. cbn [app]. naive_solver.
    + split; [done|]. by intros (rows & ? & _).
  - split; [done|]. intros (rows & _ & Hs & Hbearer & _).
    assert (audit_base_values transcript sensitive = Ok tt) by (by apply audit_base_values_Ok). congruence.
Qed.

Lemma free_of_flag `{!FlagIsNoString} transcript flag needles :
  free_of (set_sanitized flag transcript) needles <-> free_of transcript needles.
Proof. unfold free_of. by rewrite flag_keeps_strings. Qed.

Lemma free_of_sub transcript needles fewer :
  (forall needle, needle ∈ fewer -> needle ∈ needles) -> free_of transcript needles -> free_of transcript fewer.
Proof. intros Hsub (leaves & Hl & Hfree). exists leaves. split; [done|]. eauto. Qed.
End Audit.

(** ** Validation *)

(** The evidence a transcript holds: what cannot be derived from the contracts. *)
Definition evidence (execution : EngineExecution) :=
  (ex_process execution, ex_catalog_connection execution, ex_catalog_state execution, ex_object_state execution,
   ex_cleanup execution).

Section Validation.
Context `{UrlParser, UrlOps, ContractDecoders, EngineParametersDecoder, CanonicalEngineScenario, ObjectPaths, UuidParser}.
Context `{ValuesWriter, !Serialize EngineTranscript}.

(** The verdict is a function of the evidence. *)
Lemma finalize_evidence plan execution execution' :
  evidence execution = evidence execution' -> finalize plan execution = finalize plan execution'.
Proof. destruct execution, execution'. unfold evidence. cbn. intros [= -> -> -> -> ->]. done. Qed.

Lemma finalize_idempotent plan execution : finalize plan (finalize plan execution) = finalize plan execution.
Proof. by apply finalize_evidence. Qed.

(** The transcript that follows from contracts, plan and evidence. *)
Definition derived_transcript (contracts : EngineContracts) (plan : InteroperabilityPlan) (fixture_id : string)
    (components : EngineTranscriptComponents) (execution : EngineExecution) : EngineTranscript :=
  set_sanitized true (unsanitized_transcript contracts plan fixture_id components (finalize plan execution)).

Lemma bool_decide_guard (P : Prop) `{Decision P} : negb (bool_decide P) = false <-> P.
Proof. rewrite negb_false_iff. apply bool_decide_eq_true. Qed.

Lemma expected_catalog profile plan components :
  expected_components profile plan = Some components -> ets_catalog components = from_identity (plan_catalog plan).
Proof.
  unfold expected_components. intros (runner & _ & Hc)%bind_Some. apply bind_Some in Hc as (store & _ & Hc).
  by injection Hc as <-.
Qed.

Lemma valid_derived contracts transcript :
  (exists plan components rows,
    contracts_plan contracts (etc_id (ets_catalog (et_components transcript))) (etf_id (et_fixture transcript)) = Ok plan /\
    expected_components (ecs_profile contracts) plan = Some components /\
    transcript = derived_transcript contracts plan (etf_id (et_fixture transcript)) components (et_execution transcript) /\
    canonical_row_values plan = Some rows /\ free_of transcript [RAW_BEARER_PREFIX] /\ free_of transcript rows) ->
  validate_transcript transcript contracts = Ok tt.
Proof.
  intros (plan & components & rows & Hplan & Hcomponents & Heq & Hrows & Hbearer & Hfree).
  assert (Hids : etc_id (ets_catalog (et_components transcript)) = etc_id (ets_catalog components) /\
    etf_id (et_fixture transcript) = etf_id (et_fixture transcript)) by (rewrite Heq at 1; done).
  unfold validate_transcript. rewrite Hplan. cbn [map_err].
  assert (Haudit : audit_with_plan transcript plan [] = Ok tt).
  { apply audit_with_plan_Ok. exists rows. split_and!; try done. destruct Hfree as (leaves & Hl & _).
    exists leaves. split; [done|]. intros leaf needle _ Hin. set_solver. }
  rewrite Haudit. revert Hcomponents. rewrite Heq. cbn. rewrite !String.eqb_refl, !Z.eqb_refl. cbn.
  intros Hcomponents. rewrite !bool_decide_true by done. done.
Qed.

Lemma derived_valid (contracts : EngineContracts) (transcript : EngineTranscript) :
  validate_transcript transcript contracts = Ok tt ->
  exists plan components rows,
    contracts_plan contracts (etc_id (ets_catalog (et_components transcript))) (etf_id (et_fixture transcript)) = Ok plan /\
    expected_components (ecs_profile contracts) plan = Some components /\
    transcript = derived_transcript contracts plan (etf_id (et_fixture transcript)) components (et_execution transcript) /\
    canonical_row_values plan = Some rows /\ free_of transcript [RAW_BEARER_PREFIX] /\ free_of transcript rows.
Proof.
  unfold validate_transcript. intros Hv.
  destruct (negb (et_format transcript =? _)) eqn:Hformat; [done|]. cbn [negb] in Hv.
  destruct (negb (ts_id _ =? _) || _) eqn:Hscenario; [done|]. destruct (negb (bool_decide (et_contract_digests _ = _))) eqn:Hdigests; [done|].
  destruct (negb (etp_id _ =? _) || _) eqn:Hprofile; [done|].
  destruct (contracts_plan _ _ _) as [plan|] eqn:Hplan; [|done]. cbn [map_err] in Hv.
  destruct (negb (bool_decide (expected_components _ _ = _))) eqn:Hcomponents; [done|].
  destruct (negb (bool_decide (et_fixture _ = _))) eqn:Hfixture; [done|].
  destruct (negb (bool_decide (ex_checks _ = _)) || _) eqn:Hexecution; [done|].
  destruct (negb (sanitization_passed _) || _ || _) eqn:Hsanitization; [done|]. clear Hv.
  apply orb_false_iff in Hscenario as [Hid Hversion]. apply orb_false_iff in Hprofile as [Hpid Hresolved].
  apply orb_false_iff in Hexecution as [Hchecks Hclass].
  apply orb_false_iff in Hsanitization as [[Hpassed Hredactions]%orb_false_iff Haudit].
  rewrite bool_decide_guard in Hdigests, Hcomponents, Hfixture, Hchecks, Hclass.
  apply negb_false_iff in Hformat, Hid, Hversion, Hpid, Hresolved, Hpassed, Hredactions, Haudit.
  apply String.eqb_eq in Hformat, Hid, Hpid, Hresolved. apply Z.eqb_eq in Hversion, Hredactions.
  destruct (audit_with_plan transcript plan []) as [[]|] eqn:Ha; [|done].
  apply audit_with_plan_Ok in Ha as (rows & Hrows & _ & Hbearer & Hfree).
  exists plan, (et_components transcript), rows. split_and!; try done. clear Haudit Hbearer Hfree Hplan Hcomponents.
  destruct transcript as [format [id version] digests [pid resolved] components fixture execution
                          [policy redactions s1 s2 s3 s4 s5]]. cbn in *.
  unfold sanitization_passed in Hpassed. cbn in Hpassed.
  repeat match goal with Hp : _ && _ = true |- _ => apply andb_true_iff in Hp as [? ?] end.
  repeat match goal with Hp : negb _ = true |- _ => apply negb_true_iff in Hp end.
  match goal with Hp : (policy =? _) = true |- _ => apply String.eqb_eq in Hp end.
  unfold derived_transcript, unsanitized_transcript, set_sanitized. cbn.
  assert (Hfinal : execution = finalize plan execution) by (destruct execution; cbn in *; unfold finalize; cbn; congruence).
  rewrite <-Hfinal. congruence.
Qed.

(** C18: validation accepts exactly the transcripts that follow from
    their evidence: everything but the process, the connection, the loaded state,
    the audit and the cleanup is re-derived from the contracts, and the strings of
    the document hold neither a bearer credential nor a row of the fixture. *)
Theorem valid_transcripts_are_derived (contracts : EngineContracts) (transcript : EngineTranscript) :
  validate_transcript transcript contracts = Ok tt <->
  exists plan components rows,
    contracts_plan contracts (etc_id (ets_catalog (et_components transcript))) (etf_id (et_fixture transcript)) = Ok plan /\
    expected_components (ecs_profile contracts) plan = Some components /\
    transcript = derived_transcript contracts plan (etf_id (et_fixture transcript)) components (et_execution transcript) /\
    canonical_row_values plan = Some rows /\ free_of transcript [RAW_BEARER_PREFIX] /\ free_of transcript rows.
Proof. split; [apply derived_valid | apply valid_derived]. Qed.
End Validation.

(** ** Runs *)

Section Workflow.
Context `{UrlParser, ObjectPaths, UuidParser} {R N C O S W : Type}.
Context `{EngineRunner R W, EngineCatalogConnector N C W, EngineCatalog C W, EngineObjectStoreConnector O S W,
          TableObjectStore S W}.

(** Every execution the workflow returns has its verdict. *)
Lemma workflow_finalized plan (runner : R) (connector : N) (store : O) (w : W) :
  let execution := (run_engine_workflow plan runner connector store w).1 in
  finalize plan execution = execution /\ ex_process execution = (execute runner plan w).1.
Proof.
  unfold run_engine_workflow. destruct (execute runner plan w) as [process w1].
  destruct (negb _); [by split|].
  destruct (connect connector plan w1) as [[negotiation catalog|negotiation failure] w2]; [|by split].
  destruct (engine_load_table catalog w2) as [loaded w3]. destruct (audit_object_state _ _ _ _) as [audit w4].
  by destruct (cleanup_fixture catalog w4) as [cleanup w5].
Qed.
End Workflow.

(** An effect that only adds to the secrets seen. *)
Definition grows {W A} (effect : ObservedSecrets * W -> A * (ObservedSecrets * W)) : Prop :=
  forall state : ObservedSecrets * W, incl state.1 (effect state).2.1.

Lemma beside_grows {W A} (effect : W -> A * W) : grows (beside effect).
Proof. intros [seen w]. unfold beside. destruct (effect w). apply incl_refl. Qed.

Lemma cleanup_grows {C W} `{EngineCatalog C (ObservedSecrets * W)} (catalog : C) :
  grows (engine_drop_table_without_purge catalog) -> grows (engine_table_presence catalog) ->
  grows (engine_drop_namespace catalog) -> grows (engine_namespace_presence catalog) -> grows (cleanup_fixture catalog).
Proof.
  intros Hdrop Htable Hnamespace Habsent state. unfold cleanup_fixture. specialize (Hdrop state).
  destruct (engine_drop_table_without_purge catalog state) as [dropped state1]. specialize (Htable state1).
  destruct (engine_table_presence catalog state1) as [table state2]. specialize (Hnamespace state2).
  destruct (engine_drop_namespace catalog state2) as [namespace state3]. specialize (Habsent state3).
  destruct (engine_namespace_presence catalog state3) as [absent state4].
  intros secret Hin. by apply Habsent, Hnamespace, Htable, Hdrop.
Qed.

Lemma observe_reads_incl `{SecretSource} names seen : incl seen (observe_reads names seen).
Proof.
  unfold observe_reads. revert seen. induction names as [|name names IH]; intros seen; [apply incl_refl|].
  simpl. eapply incl_tran; [|apply IH]. unfold read_observed. destruct (read_secret name) as [| |value]; try apply incl_refl.
  cbn [snd]. destruct (is_empty value); [apply incl_refl | by apply incl_appl, incl_refl].
Qed.

(** The variables that hold the credentials of a plan. *)
Definition credential_variables (plan : InteroperabilityPlan) : list string :=
  [osp_access_key_env (plan_object_store plan); osp_secret_key_env (plan_object_store plan)]
  ++ match plan_credential_source plan with
     | AnonymousCredentials => []
     | OAuth2Credentials client_id_env client_secret_env => [client_id_env; client_secret_env]
     end.

Lemma load_secrets_reads `{SecretSource} plan seen secrets seen' name value :
  load_secrets plan seen = (Ok secrets, seen') -> name ∈ credential_variables plan ->
  read_secret name = SecretRead.Value value -> value ∈ seen'.
Proof.
  unfold load_secrets, credential_variables. intros Hload Hin Hread.
  repeat match type of Hload with
  | context [read_required ?n ?c ?s] =>
      let Hr := fresh "Hr" in
      destruct (read_required n c s) as [[?|?] ?] eqn:Hr; [apply read_required_value in Hr as (_ & ? & ? & ?)|done]
  | context [match plan_credential_source plan with _ => _ end] => destruct (plan_credential_source plan)
  end.
  all: injection Hload as <- <-; rewrite list_elem_of_In in Hin; simpl in Hin; rewrite !list_elem_of_In in *;
    repeat match goal with Hor : _ \/ _ |- _ => destruct Hor as [<-|Hor] end; try contradiction;
    match goal with Ha : read_secret ?n = _, Hb : read_secret ?n = _ |- _ => rewrite Ha in Hb; injection Hb as -> end;
    eauto.
Qed.

(** What a transcript relies on of a stock engine: when it reports output of the
    engine, the observer has seen every credential of the plan. *)
Class ObservedEngineRunner (R W : Type) `{SecretSource, EngineRunner R (ObservedSecrets * W)} : Prop :=
  execute_observes : forall (runner : R) plan state name value,
    is_Some (pe_capture (execute runner plan state).1) -> name ∈ credential_variables plan ->
    read_secret name = SecretRead.Value value -> value ∈ (execute runner plan state).2.1.

(** ** The stock engines observe the credentials *)

Section ChildRunners.
Context `{EventParser, FileSystem, Sha256, SecretSource, ProcessEnv, UrlParser}.
Context `{ToVec SparkExecutionPlan, ToVec Flink.FlinkRenderedProgram, SparkRenderer}.
Context {W : Type} `{Staging W, Commands W}.

Lemma execute_staged_observes {Staged} verifier plan
    (stage : InteroperabilityPlan -> W -> result Staged EnginePreparationFailureKind * W) command state name value :
  is_Some (pe_capture (execute_staged verifier plan stage command state).1) -> name ∈ credential_variables plan ->
  read_secret name = SecretRead.Value value -> value ∈ (execute_staged verifier plan stage command state).2.1.
Proof.
  unfold execute_staged. destruct state as [seen w]. destruct (negb _); [by intros [? ?]|].
  destruct (stage plan w) as [[staged|kind] w1]; [|by intros [? ?]].
  destruct (load_secrets plan seen) as [[secrets|failure] seen1] eqn:Hload; [|by intros [? ?]].
  destruct (run_command _ w1) as [spawned w2]. intros _. by eapply load_secrets_reads.
Qed.

#[export] Instance StockSparkRunner_observed : ObservedEngineRunner StockSparkRunner W.
Proof. intros runner plan state name value. apply execute_staged_observes. Qed.
#[export] Instance StockFlinkRunner_observed : ObservedEngineRunner StockFlinkRunner W.
Proof. intros runner plan state name value. apply execute_staged_observes. Qed.
End ChildRunners.

Section Connectors.
Context `{SecretSource, UrlParser, UrlOps, UrlEdit, FormCodec, JsonParser, Sha256, ClientBuilder}.
Context `{ObjectPaths, UuidParser, LoadTableResponseDecoder, StoreBuilder}.
Context {W : Type} `{HttpClient W, ObjectStoreClient W}.

Lemma connect_observed_grows profile plan : grows (connect_observed (W := W) profile plan).
Proof.
  intros [seen w]. unfold connect_observed. destruct (Runtime.connect_catalog_adapter _ _ _ _ _ w).
  apply observe_reads_incl.
Qed.

Lemma connect_store_observed_grows plan : grows (connect_store_observed (W := W) plan).
Proof. intros [seen w]. apply observe_reads_incl. Qed.

Lemma connect_observation_catalog_grows profile plan : grows (connect_observation_catalog (W := W) profile plan).
Proof.
  intros state. unfold connect_observation_catalog. pose proof (connect_observed_grows profile plan state) as Hgrows.
  by destruct (connect_observed profile plan state).
Qed.

Lemma connector_grows (connector : RestEngineCatalogConnector) plan : grows (W := W) (connect connector plan).
Proof.
  intros state. unfold connect, RestEngineCatalogConnector_connect.
  pose proof (connect_observed_grows (rcc_profile connector) plan state) as Hgrows.
  by destruct (connect_observed _ plan state).
Qed.

Lemma audit_object_state_grows plan loaded : grows (W := W) (audit_object_state plan loaded SharedStore).
Proof.
  intros state. unfold audit_object_state. destruct loaded as [[status bytes table|]|]; [|apply incl_refl..].
  destruct (TableRoot_new _ _ _) as [root|failure]; [|apply incl_refl].
  pose proof (connect_store_observed_grows plan state) as Hgrows. cbn [connect_object_store SharedObjectStoreConnector_connect].
  unfold connect_object_store, SharedObjectStoreConnector_connect.
  destruct (connect_store_observed plan state) as [[store|failure] state1]; [|done].
  pose proof (beside_grows (audit_table store root (to_metadata_location (ect_table table))) state1) as Haudit.
  unfold store_audit_table, ObjectStoreAuditor_audit. destruct (beside _ state1) as [[audit|failure] state2];
    by eapply incl_tran.
Qed.

Lemma cleanup_fixture_grows (catalog : RestEngineCatalog) : grows (W := W) (cleanup_fixture catalog).
Proof.
  apply cleanup_grows; intros state; apply beside_grows.
Qed.

(** After the engine ran, the workflow only adds to the secrets seen. *)
Lemma workflow_grows {R} `{EngineRunner R (ObservedSecrets * W)} plan (runner : R) connector (state : ObservedSecrets * W) :
  incl (execute runner plan state).2.1 (run_engine_workflow plan runner connector SharedStore state).2.1.
Proof.
  unfold run_engine_workflow. destruct (execute runner plan state) as [process state1].
  destruct (negb _); [apply incl_refl|]. pose proof (connector_grows connector plan state1) as Hconnect.
  destruct (connect connector plan state1) as [[negotiation catalog|negotiation failure] state2]; [|done].
  assert (Hload : incl state2.1 (engine_load_table catalog state2).2.1) by apply beside_grows.
  destruct (engine_load_table catalog state2) as [loaded state3].
  pose proof (audit_object_state_grows plan (evidence_output (EngineWorkflow.catalog_evidence loaded)) state3) as Haudit.
  destruct (audit_object_state _ _ _ state3) as [audit state4].
  pose proof (cleanup_fixture_grows catalog state4) as Hcleanup.
  destruct (cleanup_fixture catalog state4) as [cleanup state5].
  intros secret Hin. by apply Hcleanup, Haudit, Hload, Hconnect.
Qed.
End Connectors.

Section TrinoRunner.
Context `{SecretSource, ProcessEnv, FileSystem, HostPlatform}.
Context `{UrlParser, UrlOps, UrlEdit, FormCodec, JsonParser, Sha256, ClientBuilder}.
Context `{ObjectPaths, UuidParser, LoadTableResponseDecoder, StoreBuilder, RawJsonReader, GzipReader, ValuesWriter}.
Context {W : Type} `{HttpClient W, ObjectStoreClient W, Staging W, PrivateFiles W, CliRuns W, ServerProcess W, Clock W,
  Stopwatch W}.

#[export] Instance StockTrinoRunner_observed : ObservedEngineRunner StockTrinoRunner W.
Proof.
  intros runner plan [seen w] name value. unfold execute, StockTrinoRunner_execute, execute_trino.
  destruct (negb _); [by intros [? ?]|]. destruct (as_trino _) as [trino|]; [|by intros [? ?]].
  destruct (Trino.render trino) as [program|]; [|by intros [? ?]].
  destruct (load_secrets plan seen) as [[secrets|] seen1] eqn:Hload; [|by intros [? ?]].
  destruct (prepare_trino _ _ _ w) as [[prepared|] w1]; [|by intros [? ?]].
  destruct (start_server _ _ _ _ _ _ w1) as [[[[]|] w2]|]; [|by intros [? ?]..]. unfold run_started_trino.
  pose proof (connect_observation_catalog_grows (str_profile runner) plan (seen1, w2)) as Hcatalog.
  destruct (connect_observation_catalog _ _ _) as [[catalog|] [seen2 w3]]; [|by intros [? ?]].
  pose proof (connect_store_observed_grows plan (seen2, w3)) as Hstore.
  destruct (connect_store_observed _ _) as [[store|] [seen3 w4]]; [|by intros [? ?]]. cbv zeta.
  destruct (Trino.run_trino_child _ _) as [[[code events] w5]|]; [|by intros [? ?]].
  intros _ Hin Hread. cbn [snd fst] in *. rewrite list_elem_of_In. apply Hstore, Hcatalog. rewrite <-list_elem_of_In.
  by eapply load_secrets_reads.
Qed.
End TrinoRunner.

Section DuckDbRunner.
Context `{SecretSource, FileSystem, HostPlatform}.
Context `{UrlParser, UrlOps, UrlEdit, FormCodec, JsonParser, Sha256, ClientBuilder, DuckDb.UrlPort}.
Context `{ObjectPaths, UuidParser, LoadTableResponseDecoder, StoreBuilder, RawJsonReader, GzipReader, ValuesWriter}.
Context `{DuckDb.ArrayStream} {W : Type} `{HttpClient W, ObjectStoreClient W, DuckDb.DuckDbCli W, Stopwatch W}.

#[export] Instance StockDuckDbRunner_observed : ObservedEngineRunner StockDuckDbRunner W.
Proof.
  intros runner plan [seen w] name value. unfold execute, StockDuckDbRunner_execute, execute_duckdb.
  destruct (negb _); [by intros [? ?]|]. destruct (as_duckdb _) as [duckdb|]; [|by intros [? ?]].
  destruct (DuckDb.render duckdb) as [program|]; [|by intros [? ?]].
  destruct (load_secrets plan seen) as [[secrets|] seen1] eqn:Hload; [|by intros [? ?]]. unfold run_prepared_duckdb.
  pose proof (connect_observation_catalog_grows (sdr_profile runner) plan (seen1, w)) as Hcatalog.
  destruct (connect_observation_catalog _ _ _) as [[catalog|] [seen2 w2]]; [|by intros [? ?]].
  pose proof (connect_store_observed_grows plan (seen2, w2)) as Hstore.
  destruct (connect_store_observed _ _) as [[store|] [seen3 w3]]; [|by intros [? ?]]. cbv zeta.
  destruct (DuckDb.run_duckdb_program _ _) as [[[code events] w4]|]; [|by intros [? ?]].
  intros _ Hin Hread. cbn [snd fst] in *. rewrite list_elem_of_In. apply Hstore, Hcatalog. rewrite <-list_elem_of_In.
  by eapply load_secrets_reads.
Qed.
End DuckDbRunner.

(** ** Published transcripts *)

Section Published.
Context `{SecretSource, ProcessEnv, FileSystem, HostPlatform, EventParser}.
Context `{UrlParser, UrlOps, UrlEdit, FormCodec, JsonParser, Sha256, ClientBuilder, DuckDb.UrlPort}.
Context `{ContractDecoders, EngineParametersDecoder, CanonicalEngineScenario}.
Context `{ObjectPaths, UuidParser, LoadTableResponseDecoder, StoreBuilder, RawJsonReader, GzipReader, ValuesWriter}.
Context `{ToVec SparkExecutionPlan, ToVec Flink.FlinkRenderedProgram, SparkRenderer, DuckDb.ArrayStream}.
Context `{!Serialize EngineTranscript, !FlagIsNoString}.
Context {W : Type} `{HttpClient W, ObjectStoreClient W, Staging W, Commands W, PrivateFiles W, CliRuns W,
  ServerProcess W, Clock W, DuckDb.DuckDbCli W, Stopwatch W}.

(** What every stock run is: the transcript of an execution with its verdict, whose
    observer saw the credentials of a reporting engine, and which a passing verdict
    backs. *)
Definition stock_execution (plan : InteroperabilityPlan) (execution : EngineExecution) (seen : ObservedSecrets) : Prop :=
  finalize plan execution = execution /\
  (forall name value, is_Some (pe_capture (ex_process execution)) -> name ∈ credential_variables plan ->
     read_secret name = SecretRead.Value value -> value ∈ seen) /\
  (execution_passed execution = true -> engine_run_witnessed plan execution).

Lemma run_stock_is {R} `{EngineRunner R (ObservedSecrets * W), !LawfulEngineRunner R (ObservedSecrets * W),
    !ObservedEngineRunner R W} (runner : R) contracts catalog fixture_id (w : W) plan :
  contracts_plan contracts catalog fixture_id = Ok plan ->
  exists execution seen, stock_execution plan execution seen /\
    (run_stock runner contracts catalog fixture_id w).1
      = from_execution contracts plan fixture_id execution (observed_sensitive_values seen).
Proof.
  intros Hplan. unfold run_stock. rewrite Hplan.
  set (connector := {| rcc_profile := ecs_profile contracts |}).
  pose proof (workflow_finalized plan runner connector SharedStore (([] : ObservedSecrets), w)) as [Hfinal Hprocess].
  pose proof (workflow_grows plan runner connector (([] : ObservedSecrets), w)) as Hgrows.
  destruct (run_engine_workflow plan runner connector SharedStore (([] : ObservedSecrets), w)) as [execution [seen w1]] eqn:Hrun.
  cbn [fst snd] in *. exists execution, seen. split; [|done]. split_and!; [done| |].
  - intros name value Hcapture Hin Hread. rewrite list_elem_of_In. apply Hgrows. rewrite <-list_elem_of_In.
    rewrite Hprocess in Hcapture. by eapply execute_observes.
  - by eapply passing_run_witnessed.
Qed.

Lemma stock_engine_run contracts catalog fixture_id (w : W) plan :
  contracts_plan contracts catalog fixture_id = Ok plan ->
  exists execution seen, stock_execution plan execution seen /\
    (run_stock_engine_interoperability contracts catalog fixture_id w).1
      = from_execution contracts plan fixture_id execution (observed_sensitive_values seen).
Proof.
  intros Hplan. unfold run_stock_engine_interoperability. rewrite Hplan.
  destruct (plan_execution plan); by apply run_stock_is.
Qed.

Lemma from_execution_Ok contracts plan fixture_id execution sensitive transcript :
  from_execution contracts plan fixture_id execution sensitive = Ok transcript ->
  et_execution transcript = execution /\ audit_with_plan transcript plan sensitive = Ok tt /\
  validate_transcript transcript contracts = Ok tt.
Proof.
  unfold from_execution. destruct (expected_components _ plan) as [components|]; cbn [ok_or]; [|done].
  destruct (audit_with_plan _ plan sensitive) as [[]|] eqn:Ha; cbn [map_err]; [|done]. cbv zeta.
  destruct (validate_transcript _ contracts) as [[]|] eqn:Hv; cbn [map_err]; [|done].
  intros [= <-]. split_and!; [done| |done].
  apply audit_with_plan_Ok in Ha as (rows & Hrows & Hs & Hb & Hr). apply audit_with_plan_Ok. exists rows.
  split_and!; by try apply free_of_flag.
Qed.

(** C17: no string anywhere in the serialized form of a published
    engine transcript holds a bearer credential or a row of the fixture, and once
    the engine reported anything none holds a credential of the plan that the
    environment provides. *)
Theorem published_engine_transcript_is_sanitized contracts catalog fixture_id (w : W) transcript plan :
  (run_stock_engine_interoperability contracts catalog fixture_id w).1 = Ok transcript ->
  contracts_plan contracts catalog fixture_id = Ok plan ->
  free_of transcript [RAW_BEARER_PREFIX] /\
  (exists rows, canonical_row_values plan = Some rows /\ free_of transcript rows) /\
  (forall name value, is_Some (pe_capture (ex_process (et_execution transcript))) ->
     name ∈ credential_variables plan -> read_secret name = SecretRead.Value value -> free_of transcript [value]).
Proof.
  intros Hrun Hplan. destruct (stock_engine_run contracts catalog fixture_id w plan Hplan) as (execution & seen & Hstock & Heq).
  destruct Hstock as (_ & Hseen & _). rewrite Heq in Hrun.
  apply from_execution_Ok in Hrun as (<- & (rows & Hrows & Hs & Hb & Hr)%audit_with_plan_Ok & _).
  split_and!; [done|by exists rows|]. intros name value Hcapture Hin Hread.
  eapply free_of_sub; [|exact Hs]. intros needle ->%list_elem_of_singleton. apply observed_values. by eapply Hseen.
Qed.

(** C16: a published transcript that passed has witnessed the whole
    interoperability scenario, whichever stock engine the contracts select: the
    pinned engine ran with the pinned artifacts, found the fixture absent, created
    namespace and table with the planned schema, appended exactly one snapshot,
    read the exact rows, evolved the schema of the same table under new metadata,
    appended exactly one more and read the exact rows again; the harness's own load
    of the catalog shows the table the engine last saw, under schema one; its
    objects are in the shared store; and the cleanup found table and namespace
    gone. *)
Theorem passing_engine_transcript_is_witnessed contracts catalog fixture_id (w : W) transcript plan :
  (run_stock_engine_interoperability contracts catalog fixture_id w).1 = Ok transcript ->
  contracts_plan contracts catalog fixture_id = Ok plan ->
  engine_transcript_passed transcript = true -> engine_run_witnessed plan (et_execution transcript).
Proof.
  intros Hrun Hplan Hpassed.
  destruct (stock_engine_run contracts catalog fixture_id w plan Hplan) as (execution & seen & Hstock & Heq).
  rewrite Heq in Hrun. apply from_execution_Ok in Hrun as (<- & _ & _). apply Hstock.
  unfold engine_transcript_passed in Hpassed. by repeat apply andb_true_iff in Hpassed as [Hpassed ?].
Qed.

(** The catalog component of a plan is the one asked for. *)
Lemma plan_catalog_selected contracts catalog fixture_id plan :
  contracts_plan contracts catalog fixture_id = Ok plan -> ci_id (plan_catalog plan) = catalog.
Proof.
  unfold contracts_plan, plan_from_contracts. rewrite map_err_Ok_iff.
  destruct (role_component _ _ _) as [engine|]; [|done].
  intros (parameters & ad & component & runner & ec & conn & store & fixture & auth & _ & _ & _ & _ & _ & _ & Hc &
    Hrest)%engine_from_contracts_Ok.
  apply component_Ok in Hc as [<- _].
  destruct Hrest as (_ & _ & _ & _ & _ & _ & _ & _ & _ & _ & _ & _ & Hcatalog & _). by rewrite Hcatalog.
Qed.

(** C19: the harness never publishes less than it measured because of
    its own bookkeeping: a run whose contracts bind fails only when a component of
    the profile is missing or a string of the transcript must not be published;
    its validation never rejects the transcript it built. *)
Theorem engine_run_never_fails_validation contracts catalog fixture_id (w : W) error plan :
  (run_stock_engine_interoperability contracts catalog fixture_id w).1 = Err error ->
  contracts_plan contracts catalog fixture_id = Ok plan ->
  error = ProfileComponent /\ expected_components (ecs_profile contracts) plan = None \/
  exists violation, error = EvidenceSanitization violation.
Proof.
  intros Hrun Hplan. destruct (stock_engine_run contracts catalog fixture_id w plan Hplan) as (execution & seen & Hstock & Heq).
  destruct Hstock as (Hfinal & _ & _). rewrite Heq in Hrun. clear Heq. unfold from_execution in Hrun.
  destruct (expected_components _ plan) as [components|] eqn:Hcomponents; cbn [ok_or] in Hrun; [|left; by simplify_eq].
  right. destruct (audit_with_plan _ plan _) as [[]|violation] eqn:Ha; cbn [map_err] in Hrun; [|by simplify_eq; eexists].
  exfalso. cbv zeta in Hrun. set (built := set_sanitized true _) in Hrun.
  enough (Hvalid : validate_transcript built contracts = Ok tt) by (by rewrite Hvalid in Hrun).
  apply audit_with_plan_Ok in Ha as (rows & Hrows & _ & Hb & Hr).
  apply valid_derived. exists plan, components, rows. split_and!; try done; try (by apply free_of_flag).
  - assert (Hcatalog : etc_id (ets_catalog components) = catalog).
    { rewrite (expected_catalog _ _ _ Hcomponents). by apply plan_catalog_selected in Hplan. }
    cbn [built et_components et_fixture set_sanitized unsanitized_transcript transcript_fixture etf_id].
    by rewrite Hcatalog.
  - unfold built, derived_transcript. cbn [et_execution set_sanitized unsanitized_transcript]. by rewrite Hfinal.
Qed.
End Published.
