(* ===== verification/ToolFiles.v ===== *)
(** * UTF-8 decoding: [str::from_utf8] and [String::from_utf8_lossy]

    The decoder of the Rust Standard Library as a state machine over bytes: the
    bytes of the character being read and the ranges its next bytes must lie in.
    A maximal ill-formed prefix becomes one replacement character. *)

From S2P Require Import Prelude Order RustStr EnginePlan EngineTranscript.
From Stdlib Require Import Ascii.
Open Scope string_scope.

(** U+FFFD. *)
Definition replacement_character : string :=
  String (ascii_of_N 239) (String (ascii_of_N 191) (String (ascii_of_N 189) "")).

Definition continuation : Z * Z := (128, 191)%Z.

(** What must follow a lead byte; [None] for a byte that cannot start a character. *)
Definition follows (lead : ascii) : option (list (Z * Z)) :=
  if (code lead <? 128)%Z then Some []
  else if between 194 223 lead then Some [continuation]
  else if is_byte 224 lead then Some [(160, 191)%Z; continuation]
  else if between 225 236 lead || between 238 239 lead then Some [continuation; continuation]
  else if is_byte 237 lead then Some [(128, 159)%Z; continuation]
  else if is_byte 240 lead then Some [(144, 191)%Z; continuation; continuation]
  else if between 241 243 lead then Some [continuation; continuation; continuation]
  else if is_byte 244 lead then Some [(128, 143)%Z; continuation; continuation]
  else None.

(** A byte where a character may start: the text it completes, what is pending
    then, and whether the text was ill-formed. *)
Definition start_byte (c : ascii) : string * (string * list (Z * Z)) :=
  match follows c with
  | Some [] => (String c "", ("", []))
  | Some ranges => ("", (String c "", ranges))
  | None => (replacement_character, ("", []))
  end.

Fixpoint lossy_from (pending : string) (ranges : list (Z * Z)) (s : string) : string :=
  match s with
  | EmptyString => match ranges with [] => "" | _ => replacement_character end
  | String c s =>
      match ranges with
      | (lo, hi) :: rest =>
          if between lo hi c then
            match rest with
            | [] => pending +:+ String c (lossy_from "" [] s)
            | _ => lossy_from (pending +:+ String c "") rest s
            end
          else
            let '(out, (pending, ranges)) := start_byte c in
            replacement_character +:+ out +:+ lossy_from pending ranges s
      | [] =>
          let '(out, (pending, ranges)) := start_byte c in
          out +:+ lossy_from pending ranges s
      end
  end.

(** [String::from_utf8_lossy]. *)
Definition from_utf8_lossy : string -> string := lossy_from "" [].

Fixpoint well_formed_from (ranges : list (Z * Z)) (s : string) : bool :=
  match s with
  | EmptyString => match ranges with [] => true | _ => false end
  | String c s =>
      match ranges with
      | (lo, hi) :: rest => between lo hi c && well_formed_from rest s
      | [] => match follows c with Some ranges => well_formed_from ranges s | None => false end
      end
  end.

(** [str::from_utf8(..).is_ok()]. *)
Definition valid_utf8 : string -> bool := well_formed_from [].

Example lossy_kept : from_utf8_lossy "é — 漢" = "é — 漢".
Proof. reflexivity. Qed.
Example lossy_replaced :
  from_utf8_lossy ("a" +:+ String (ascii_of_N 226) (String (ascii_of_N 130) "b")) = "a" +:+ replacement_character +:+ "b".
Proof. reflexivity. Qed.

(** Text that is well formed is not changed. *)
Lemma lossy_well_formed ranges s : forall pending, well_formed_from ranges s = true ->
  match ranges with [] => lossy_from "" [] s = s | _ => lossy_from pending ranges s = pending +:+ s end.
Proof.
  revert ranges. induction s as [|c s IH]; intros ranges pending Hs; cbn [well_formed_from lossy_from] in *;
    [by destruct ranges|].
  destruct ranges as [|[lo hi] rest].
  - unfold start_byte. destruct (follows c) as [[|range ranges]|]; [|..|done].
    + cbn. f_equal. by apply (IH [] "").
    + by apply (IH (range :: ranges) (String c "")).
  - apply andb_true_iff in Hs as [-> Hs]. destruct rest as [|range rest].
    + do 2 f_equal. by apply (IH [] "").
    + rewrite (IH (range :: rest) (pending +:+ String c "") Hs). by rewrite string_app_assoc.
Qed.

Lemma from_utf8_lossy_valid s : valid_utf8 s = true -> from_utf8_lossy s = s.
Proof. by apply (lossy_well_formed [] s ""). Qed.

(** ** Files, paths and error chains of the contract tool

    What crates/contract-tool uses of [std::fs], [std::path] and the anyhow
    crate. A file tree is a world [W]; an error is its chain of contexts, from
    the outermost down to the display of the error it began with and of its sources. *)

(** ** Error chains *)

Definition Chain : Type := list string.

(** [Context::context] on an error of another crate and on a chain. *)
Definition context {A} (message : string) (r : result A string) : result A Chain :=
  map_err (fun e => [message; e]) r.
Definition with_context {A} (message : string) (r : result A Chain) : result A Chain :=
  map_err (cons message) r.

(** ** Files *)

(** [Regular] and [Directory] are not followed through symbolic links. *)
Inductive FileType := Regular | Directory | OtherFile.

(** A directory entry: the bytes of its name and its type. *)
Record DirEntry := { entry_name : string; entry_type : result FileType string }.

(** [std::fs]: contents are byte strings, errors their display. *)
Class FileTree (W : Type) := {
  fs_read : string -> W -> result string string;
  fs_len : string -> W -> result Z string;
  fs_symlink_type : string -> W -> result FileType string;
  fs_is_file : string -> W -> bool;
  fs_read_dir : string -> W -> result (list (result DirEntry string)) string;
  fs_write : string -> string -> W -> result unit string * W;
  fs_create_dir_all : string -> W -> result unit string * W;
  fs_canonicalize : string -> W -> result string string;
}.

(** What the writers of immutable bundles use besides: directories and files that
    must be new, and [symlink_metadata] with whether its error is [NotFound]. *)
Class FileCreation (W : Type) := {
  fs_create_dir : string -> W -> result unit string * W;
  fs_open_new : string -> W -> result unit string * W;
  fs_write_all : string -> string -> W -> result unit string * W;
  fs_sync_all : string -> W -> result unit string * W;
  fs_probe : string -> W -> result FileType (bool * string);
  fs_exists : string -> W -> bool;
}.

(** [step? x with w := c in k] is [let x = c?; k] for a [c] that changes the world. *)
Notation "'step?' x 'with' w ':=' c 'in' k" :=
  (match c with (Ok x, w) => k | (Err e, w) => (Err e, w) end)
  (at level 10, x pattern, w name, c at level 100, k at level 200) : rust_scope.

(** The outcome of a change of the world with a context. *)
Definition noted {A W} (message : string) (outcome : result A string * W) : result A Chain * W :=
  (context message outcome.1, outcome.2).

(** Every step of a list, in order, until one fails. *)
Fixpoint run_each {A W} (step : A -> W -> result unit Chain * W) (l : list A) (w : W) : result unit Chain * W :=
  match l with
  | [] => (Ok tt, w)
  | a :: l => step? _ with w := step a w in run_each step l w
  end.

(** ** Paths *)

(** [Path::join]. *)
Definition join_path (base path : string) : string :=
  if starts_with "/" path then path
  else if is_empty base || ends_with "/" base then base +:+ path
  else base +:+ "/" +:+ path.

(** Trailing separators and [.] components name nothing. *)
Fixpoint drop_trivial (reversed : list string) : list string :=
  match reversed with
  | piece :: rest => if is_empty piece || (piece =? ".") then drop_trivial rest else reversed
  | [] => []
  end.

(** The pieces of a path after its first, from the last to the second. *)
Definition rear_pieces (pieces : list string) : list string := drop_trivial (rev (tail pieces)).

(** [Path::parent]. *)
Definition parent_path (path : string) : option string :=
  let pieces := split_byte 47 path in
  let first := default "" (head pieces) in
  match rear_pieces pieces with
  | [] => if is_empty first then None else Some ""
  | _ :: rest =>
      match drop_trivial rest with
      | [] => if is_empty first then Some "/" else Some first
      | rest => Some (String.concat "/" (first :: rev rest))
      end
  end.

(** [Path::file_name]. *)
Definition file_name (path : string) : option string :=
  let pieces := split_byte 47 path in
  let name :=
    match rear_pieces pieces with
    | name :: _ => name
    | [] => match head pieces with Some "." | None => "" | Some first => first end
    end in
  if is_empty name || (name =? "..") then None else Some name.

(** [Path::with_file_name]. *)
Definition with_file_name (path name : string) : string :=
  match file_name path with
  | Some _ => join_path (default "" (parent_path path)) name
  | None => join_path path name
  end.

(** [Path::components]: the root, a leading [.], and the pieces between
    separators. *)
Inductive PathPart := RootPart | DotPart | ParentPart | NamePart (name : string).

#[export] Instance PathPart_eq_dec : EqDecision PathPart.
Proof. solve_decision. Defined.

Definition path_part (piece : string) : PathPart := if piece =? ".." then ParentPart else NamePart piece.

Definition path_parts (path : string) : list PathPart :=
  let pieces := split_byte 47 path in
  let lead := if starts_with "/" path then [RootPart]
              else match head pieces with Some "." => [DotPart] | _ => [] end in
  (lead ++ (path_part <$> List.filter (fun piece => negb (is_empty piece || (piece =? "."))) pieces))%list.

(** [Path::cmp]: part by part, roots and dots before names. *)
Definition part_rank (part : PathPart) : Z :=
  match part with RootPart => 0 | DotPart => 1 | ParentPart => 2 | NamePart _ => 3 end%Z.
Definition part_name (part : PathPart) : string := match part with NamePart name => name | _ => "" end.
Definition part_cmp : PathPart -> PathPart -> comparison :=
  cmp_lex (cmp_on part_rank Z.compare) (cmp_on part_name String.compare).
Fixpoint parts_cmp (l k : list PathPart) : comparison :=
  match l, k with
  | [], [] => Eq
  | [], _ :: _ => Lt
  | _ :: _, [] => Gt
  | p :: l, q :: k => then_with (part_cmp p q) (parts_cmp l k)
  end.
Definition path_cmp : string -> string -> comparison := cmp_on path_parts parts_cmp.

(** The paths of a [BTreeSet<PathBuf>] filled in this order: of equal paths the
    first stays. *)
Definition insert_path (paths : list string) (path : string) : list string :=
  if existsb (fun other => bool_decide (path_parts other = path_parts path)) paths then paths else (paths ++ [path])%list.
Definition path_set (paths : list string) : list string := sort_by path_cmp (foldl insert_path [] paths).

(** [Path::strip_prefix] as the components that are left. *)
Fixpoint strip_parts (prefix parts : list PathPart) : option (list PathPart) :=
  match prefix, parts with
  | [], parts => Some parts
  | p :: prefix, q :: parts => if bool_decide (p = q) then strip_parts prefix parts else None
  | _ :: _, [] => None
  end.

(** [Path::strip_prefix] with its error. *)
Definition strip_prefix_parts (base path : string) : result (list PathPart) string :=
  ok_or (strip_parts (path_parts base) (path_parts path)) "prefix not found".

(** A path of these components. *)
Definition part_text (part : PathPart) : string :=
  match part with RootPart => "/" | DotPart => "." | ParentPart => ".." | NamePart name => name end.
Definition parts_path (parts : list PathPart) : string :=
  foldl (fun path part => join_path path (part_text part)) "" parts.

(** [BTreeMap<PathBuf, V>]: the entries in the order of their paths. *)
Definition PathMap (V : Type) : Type := list (string * V).

Fixpoint path_insert {V} (path : string) (v : V) (m : PathMap V) : PathMap V :=
  match m with
  | [] => [(path, v)]
  | (p, u) :: rest =>
      match path_cmp path p with
      | Lt => (path, v) :: m
      | Eq => (p, v) :: rest
      | Gt => (p, u) :: path_insert path v rest
      end
  end.

Definition path_lookup {V} (path : string) (m : PathMap V) : option V :=
  snd <$> find (fun entry : string * V => bool_decide (path_parts entry.1 = path_parts path)) m.

Definition path_map {V} (entries : list (string * V)) : PathMap V := foldl (fun m e => path_insert e.1 e.2 m) [] entries.

Example parent_paths :
  parent_path <$> ["a/b/c"; "a/b/"; "a"; "/a"; "/"; ""; "a//b"; "./a"; "a/."]
  = [Some "a/b"; Some "a"; Some ""; Some "/"; None; None; Some "a"; Some "."; Some ""].
Proof. reflexivity. Qed.

Example file_names :
  file_name <$> ["a/b.json"; "a/b/"; ".."; "a/.."; "/"; "."; "b"]
  = [Some "b.json"; Some "b"; None; None; None; None; Some "b"].
Proof. reflexivity. Qed.

Example joined_paths :
  (fun p => join_path p.1 p.2) <$> [("", "a"); ("a", "b"); ("a/", "b"); ("a", "/b"); ("a", "")]
  = ["a"; "a/b"; "a/b"; "/b"; "a/"].
Proof. reflexivity. Qed.

(** ** Displays of the engine's evidence errors
      (crates/engine/src/transcript/error.rs, transcript/sanitize.rs)

    What an anyhow chain shows of an error of the engine crate: its display and
    the displays of its sources. *)

Definition violation_text (violation : EngineSanitizationViolation) : string :=
  match violation with
  | AuditSerialization => "engine transcript could not be serialized"
  | SensitiveRuntimeValue => "engine transcript contains a sensitive runtime value"
  | RawCredentialForm => "engine transcript contains an unredacted credential form"
  | RawEngineRow => "engine transcript contains a raw row"
  | ContractBinding => "engine transcript cannot bind its sanitization policy"
  end.

(** The derived [Debug] of the kinds. *)
Definition failure_kind_debug (kind : EngineTranscriptValidationFailureKind.t) : string :=
  match kind with
  | EngineTranscriptValidationFailureKind.Format => "Format"
  | EngineTranscriptValidationFailureKind.Scenario => "Scenario"
  | EngineTranscriptValidationFailureKind.ContractDigests => "ContractDigests"
  | EngineTranscriptValidationFailureKind.Profile => "Profile"
  | EngineTranscriptValidationFailureKind.Policy => "Policy"
  | EngineTranscriptValidationFailureKind.Components => "Components"
  | EngineTranscriptValidationFailureKind.Fixture => "Fixture"
  | EngineTranscriptValidationFailureKind.Execution => "Execution"
  | EngineTranscriptValidationFailureKind.Sanitization => "Sanitization"
  end.

Definition validation_failure_text (kind : EngineTranscriptValidationFailureKind.t) : string :=
  "engine transcript validation failed: " +:+ failure_kind_debug kind.

(** An error with a source displays as the source. *)
Definition evidence_error_chain (error : EngineEvidenceError) : Chain :=
  match error with
  | ProfileContract => ["engine evidence failed: ProfileContract"]
  | ScenarioContract => ["engine evidence failed: ScenarioContract"]
  | ProfileDocumentKind => ["engine evidence failed: ProfileDocumentKind"]
  | ScenarioDocumentKind => ["engine evidence failed: ScenarioDocumentKind"]
  | ProfileComponent => ["engine evidence failed: ProfileComponent"]
  | EvidencePolicy error => [error; error]
  | EvidenceSanitization violation => [violation_text violation; violation_text violation]
  | EvidenceValidation kind => [validation_failure_text kind; validation_failure_text kind]
  end.
