(* ===== verification/Publication.v ===== *)
(** * Shared publication helpers (crates/contract-tool/src/publication.rs)

    Typed parsing of contract bytes, hashed reads, artifact references, and the
    canonical UTC timestamps by which reviewed evidence is ordered. *)

From S2P Require Import Prelude Order RustStr Json ContractValue ContractScenario ContractAdapter ContractProfile.
From S2P Require Import ContractResult ContractDocument Ledger Capture EngineRuntime ToolFiles.
From Stdlib Require Import Ascii.
Open Scope string_scope.

(** ** Documents and artifacts *)

Record ReviewBundle := { rb_id : string; rb_title : string; rb_output_directory : string; rb_created_at : string }.
Record ReviewSource := { rsrc_location : string; rsrc_sha256 : string; rsrc_bytes : Z }.

(** What a chain shows of a parse error: its display and its source's. *)
Definition parse_error_chain (error : ParseContractError) : Chain :=
  display_parse_error error
  :: match error with
     | JsonError message => [message]
     | Semantic errors => [display_issues errors]
     | MissingKind | UnknownKind _ => []
     end.

Section Documents.
Context `{UrlParser, ContractDecoders, Sha256}.

(** [sha256_hex] of the crate's lib.rs. *)
Definition hash_text (bytes : string) : string := sha256_hex (RustStr.bytes bytes).

Definition parse_profile (bytes : string) : result Profile Chain :=
  let? document := map_err parse_error_chain (parse_contract bytes) in
  match document with
  | ProfileDocument profile => Ok profile
  | document => Err ["expected profile, found " +:+ document_kind_name (document_kind document)]
  end.

Definition parse_scenario (bytes : string) : result Scenario Chain :=
  let? document := map_err parse_error_chain (parse_contract bytes) in
  match document with
  | ScenarioDocument scenario => Ok scenario
  | document => Err ["expected scenario, found " +:+ document_kind_name (document_kind document)]
  end.

Definition read_hashed {W} `{FileTree W} (path expected_sha256 : string) (w : W) : result string Chain :=
  let? bytes := context ("failed to read " +:+ path) (fs_read path w) in
  let actual := hash_text bytes in
  guard negb (actual =? expected_sha256)
    or [path +:+ " hash mismatch: expected " +:+ expected_sha256 +:+ ", got " +:+ actual] in
  Ok bytes.

Definition artifact (location media_type bytes description : string) : ArtifactReference := {|
  artifact_location := location; artifact_media_type := media_type;
  artifact_digest := {| digest_algorithm := ContractValue.Sha256; digest_value := hash_text bytes |};
  artifact_bytes := Some (str_len bytes); artifact_description := Some description; artifact_extensions := ∅ |}.
End Documents.

Definition pretty_json {T} `{ToVecPretty T} (value : T) : result string Chain :=
  let? bytes := map_err (fun e => [e]) (to_vec_pretty value) in
  Ok (bytes +:+ String (ascii_of_N 10) "").

Definition require_text (value name : string) : result unit Chain :=
  guard blank value or [name +:+ " must not be empty"] in Ok tt.

(** ** Timestamps *)

Record UtcTimestamp := {
  utc_year : Z; utc_month : Z; utc_day : Z; utc_hour : Z; utc_minute : Z; utc_second : Z; utc_nanosecond : Z;
}.

(** The derived [Ord]: field by field. *)
Definition timestamp_cmp : UtcTimestamp -> UtcTimestamp -> comparison :=
  cmp_lex (cmp_on utc_year Z.compare) (cmp_lex (cmp_on utc_month Z.compare) (cmp_lex (cmp_on utc_day Z.compare)
    (cmp_lex (cmp_on utc_hour Z.compare) (cmp_lex (cmp_on utc_minute Z.compare)
    (cmp_lex (cmp_on utc_second Z.compare) (cmp_on utc_nanosecond Z.compare)))))).

(** [slice.iter().fold(0, |value, digit| value * 10 + (digit - b'0'))]. *)
Definition digits_fold (digits : list ascii) : Z := foldl (fun value digit => value * 10 + (code digit - 48))%Z 0%Z digits.

(** [&bytes[start..end]], within bounds. *)
Definition slice {A} (start stop : nat) (l : list A) : list A := take (stop - start) (drop start l).

Definition not_canonical (name : string) : string := name +:+ " must be a canonical UTC RFC 3339 timestamp".

Definition decimal (bytes : list ascii) (start stop : nat) (name : string) : result Z Chain :=
  let digits := slice start stop bytes in
  guard negb (forallb is_ascii_digit digits) or [not_canonical name] in
  Ok (digits_fold digits).

(** [is_multiple_of]. *)
Definition multiple_of (n k : Z) : bool := (n mod k =? 0)%Z.
Definition leap_year (year : Z) : bool := multiple_of year 400 || multiple_of year 4 && negb (multiple_of year 100).

Definition days_in_month (year month : Z) : Z :=
  if existsb (Z.eqb month) [1; 3; 5; 7; 8; 10; 12]%Z then 31%Z
  else if existsb (Z.eqb month) [4; 6; 9; 11]%Z then 30%Z
  else if (month =? 2)%Z then if leap_year year then 29%Z else 28%Z
  else 0%Z.

Definition has_byte (bytes : list ascii) (i : nat) (c : Z) : bool := is_some_and (is_byte c) (bytes !! i).

(** The fraction: [digits.len()..9] multiplies by ten. *)
Definition fraction_nanos (digits : list ascii) : Z := (digits_fold digits * 10 ^ (9 - len digits))%Z.

Definition nanosecond_part (bytes : list ascii) (name : string) : result Z Chain :=
  if (length bytes =? 20)%nat then Ok 0%Z
  else if (22 <=? length bytes)%nat && (length bytes <=? 30)%nat && has_byte bytes 19 46 then
    let digits := slice 20 (length bytes - 1) bytes in
    guard negb (forallb is_ascii_digit digits) or [not_canonical name] in
    Ok (fraction_nanos digits)
  else Err [not_canonical name].

(** The calendar check. *)
Definition valid_calendar (t : UtcTimestamp) : bool :=
  negb ((utc_year t =? 0)%Z || negb ((1 <=? utc_month t)%Z && (utc_month t <=? 12)%Z) || (utc_day t =? 0)%Z
        || (days_in_month (utc_year t) (utc_month t) <? utc_day t)%Z || (23 <? utc_hour t)%Z || (59 <? utc_minute t)%Z
        || (59 <? utc_second t)%Z).

Definition parse_utc_timestamp (value name : string) : result UtcTimestamp Chain :=
  let bytes := RustStr.bytes value in
  let fixed_shape := (20 <=? length bytes)%nat && has_byte bytes 4 45 && has_byte bytes 7 45 && has_byte bytes 10 84
                     && has_byte bytes 13 58 && has_byte bytes 16 58 && is_some_and (is_byte 90) (last bytes) in
  guard negb fixed_shape or [not_canonical name] in
  let? year := decimal bytes 0 4 name in
  let? month := decimal bytes 5 7 name in
  let? day := decimal bytes 8 10 name in
  let? hour := decimal bytes 11 13 name in
  let? minute := decimal bytes 14 16 name in
  let? second := decimal bytes 17 19 name in
  let? nanosecond := nanosecond_part bytes name in
  let t := {| utc_year := year; utc_month := month; utc_day := day; utc_hour := hour; utc_minute := minute;
              utc_second := second; utc_nanosecond := nanosecond |} in
  guard negb (valid_calendar t) or [name +:+ " contains an invalid UTC calendar value"] in
  Ok t.

Example leap_day : is_ok (parse_utc_timestamp "2024-02-29T23:59:59.5Z" "t") = true.
Proof. reflexivity. Qed.
Example no_leap_day : parse_utc_timestamp "2023-02-29T00:00:00Z" "t" = Err ["t contains an invalid UTC calendar value"].
Proof. reflexivity. Qed.
Example offset_rejected : is_ok (parse_utc_timestamp "2024-02-29T23:59:59+00:00" "t") = false.
Proof. reflexivity. Qed.

(** [at_least a b]: [a >= b]. *)
Definition at_least (a b : UtcTimestamp) : bool := match timestamp_cmp a b with Lt => false | _ => true end.

(** ** Timestamps are instants (crates/contract-tool/src/publication.rs)

    The parser accepts exactly the canonical UTC texts of valid calendar values,
    and the order of parsed timestamps is the order of the instants. *)

(** Linear arithmetic with division and remainder by constants. *)
Ltac div_lia := Z.to_euclidean_division_equations; lia.

(** ** Decimal digits *)

(** The last [width] decimal digits of a number. *)
Fixpoint digits (width : nat) (n : Z) : list ascii :=
  match width with
  | O => []
  | S width => (digits width (n / 10) ++ [ascii_of_N (Z.to_N (48 + n mod 10))])%list
  end.

Lemma code_digit n : (0 <= n < 10)%Z -> code (ascii_of_N (Z.to_N (48 + n))) = (48 + n)%Z.
Proof. intros Hn. unfold code. rewrite N_ascii_embedding; lia. Qed.

Lemma code_inj a b : code a = code b -> a = b.
Proof. unfold code. intros Hc. rewrite <-(ascii_N_embedding a), <-(ascii_N_embedding b). f_equal. lia. Qed.

Lemma is_byte_is n a : is_byte n a = true -> code a = n.
Proof. unfold is_byte. lia. Qed.

Lemma is_ascii_digit_code a : is_ascii_digit a = true <-> (48 <= code a <= 57)%Z.
Proof. unfold is_ascii_digit, between. lia. Qed.

Lemma length_digits width n : length (digits width n) = width.
Proof. revert n. induction width as [|width IH]; intros n; [done|]. cbn [digits]. rewrite length_app, IH. simpl. lia. Qed.

Lemma digits_fold_app l a : digits_fold (l ++ [a]) = (digits_fold l * 10 + (code a - 48))%Z.
Proof. unfold digits_fold. by rewrite foldl_app. Qed.

Lemma digits_fold_digits width n : (0 <= n < 10 ^ Z.of_nat width)%Z -> digits_fold (digits width n) = n.
Proof.
  revert n. induction width as [|width IH]; intros n Hn; [unfold digits_fold; simpl in *; lia|]. cbn [digits].
  rewrite Nat2Z.inj_succ, Z.pow_succ_r in Hn by lia.
  assert (Hq : (0 <= n / 10 < 10 ^ Z.of_nat width)%Z)
    by (split; [apply Z.div_pos; lia | apply Z.div_lt_upper_bound; lia]).
  pose proof (Z.mod_pos_bound n 10 ltac:(lia)). rewrite digits_fold_app, code_digit, IH by done. clear Hn Hq. div_lia.
Qed.

Lemma forallb_digits width n : forallb is_ascii_digit (digits width n) = true.
Proof.
  revert n. induction width as [|width IH]; intros n; [done|]. cbn [digits]. rewrite forallb_app, IH.
  pose proof (Z.mod_pos_bound n 10 ltac:(lia)). apply andb_true_iff. split; [done|]. cbn [forallb].
  rewrite andb_true_r. apply is_ascii_digit_code. rewrite code_digit; lia.
Qed.

Lemma digits_fold_bounds l : forallb is_ascii_digit l = true -> (0 <= digits_fold l < 10 ^ len l)%Z.
Proof.
  induction l as [|a l IH] using rev_ind; intros Hl; [by cbn|]. rewrite forallb_app in Hl.
  apply andb_true_iff in Hl as [Hl Ha]. cbn [forallb] in Ha. rewrite andb_true_r in Ha. apply is_ascii_digit_code in Ha.
  rewrite digits_fold_app, len_app, Z.pow_add_r by (unfold len; lia). specialize (IH Hl).
  change (10 ^ len [a])%Z with 10%Z. lia.
Qed.

Lemma digits_of_fold l : forallb is_ascii_digit l = true -> digits (length l) (digits_fold l) = l.
Proof.
  induction l as [|a l IH] using rev_ind; intros Hl; [done|]. rewrite forallb_app in Hl.
  apply andb_true_iff in Hl as [Hl Ha]. cbn [forallb] in Ha. rewrite andb_true_r in Ha. apply is_ascii_digit_code in Ha.
  rewrite length_app, Nat.add_comm. cbn [length Nat.add digits]. rewrite digits_fold_app.
  replace ((digits_fold l * 10 + (code a - 48)) / 10)%Z with (digits_fold l) by div_lia.
  replace ((digits_fold l * 10 + (code a - 48)) mod 10)%Z with (code a - 48)%Z by div_lia.
  rewrite IH by done. do 2 f_equal. apply code_inj. rewrite code_digit; lia.
Qed.

(** ** The order of instants *)

(** A timestamp the calendar has. *)
Definition valid_timestamp (t : UtcTimestamp) : Prop :=
  (1 <= utc_year t <= 9999)%Z /\ (1 <= utc_month t <= 12)%Z /\
  (1 <= utc_day t <= days_in_month (utc_year t) (utc_month t))%Z /\ (0 <= utc_hour t <= 23)%Z /\
  (0 <= utc_minute t <= 59)%Z /\ (0 <= utc_second t <= 59)%Z /\ (0 <= utc_nanosecond t < 10 ^ 9)%Z.

(** The days of the proleptic Gregorian calendar before a year and a month. *)
Definition days_before_year (year : Z) : Z :=
  let past := (year - 1)%Z in (365 * past + past / 4 - past / 100 + past / 400)%Z.
Fixpoint days_before_month (year : Z) (month : nat) : Z :=
  match month with O => 0%Z | S month => (days_before_month year month + days_in_month year (Z.of_nat month))%Z end.

(** Nanoseconds since the beginning of the calendar. *)
Definition instant (t : UtcTimestamp) : Z :=
  let days := (days_before_year (utc_year t) + days_before_month (utc_year t) (Z.to_nat (utc_month t)) + utc_day t)%Z in
  ((((days * 24 + utc_hour t) * 60 + utc_minute t) * 60 + utc_second t) * 10 ^ 9 + utc_nanosecond t)%Z.

Lemma days_in_month_nonneg year month : (0 <= days_in_month year month)%Z.
Proof. unfold days_in_month. repeat case_match; lia. Qed.

Lemma days_before_month_mono year m m' :
  (m < m')%nat -> (days_before_month year m + days_in_month year (Z.of_nat m) <= days_before_month year m')%Z.
Proof.
  induction 1 as [|m' _ IH]; cbn [days_before_month]; [lia|]. pose proof (days_in_month_nonneg year (Z.of_nat m')). lia.
Qed.

Lemma days_before_year_succ year :
  days_before_year (year + 1) = (days_before_year year + days_before_month year 13)%Z.
Proof.
  assert (Hyear : days_before_month year 13 = (365 + if leap_year year then 1 else 0)%Z).
  { cbn [days_before_month]. unfold days_in_month. destruct (leap_year year); reflexivity. }
  rewrite Hyear. unfold days_before_year, leap_year, multiple_of.
  destruct (Z.eqb_spec (year mod 400) 0), (Z.eqb_spec (year mod 4) 0), (Z.eqb_spec (year mod 100) 0); cbn [orb andb negb];
    div_lia.
Qed.

Lemma days_before_year_mono year year' :
  (year < year')%Z -> (days_before_year year + days_before_month year 13 <= days_before_year year')%Z.
Proof.
  intros Hlt. rewrite <-days_before_year_succ. assert (Hle : (year + 1 <= year')%Z) by lia. clear Hlt.
  revert Hle. generalize (year + 1)%Z as y. intros y Hle. unfold days_before_year. cbv zeta. div_lia.
Qed.

(** Lexicographic order of a number with a bounded remainder. *)
Lemma compare_digit a a' b b' k :
  (0 <= b < k)%Z -> (0 <= b' < k)%Z -> then_with (a ?= a')%Z (b ?= b')%Z = (a * k + b ?= a' * k + b')%Z.
Proof.
  intros Hb Hb'. destruct (Z.compare_spec a a') as [->|Hlt|Hlt]; cbn [then_with].
  - destruct (Z.compare_spec b b'); symmetry; [apply Z.compare_eq_iff|apply Z.compare_lt_iff|apply Z.compare_gt_iff]; lia.
  - symmetry. apply Z.compare_lt_iff. nia.
  - symmetry. apply Z.compare_gt_iff. nia.
Qed.

Lemma then_with_assoc a b c : then_with a (then_with b c) = then_with (then_with a b) c.
Proof. by destruct a. Qed.

Lemma compare_dates y y' m m' d d' :
  (1 <= m <= 12)%Z -> (1 <= m' <= 12)%Z -> (1 <= d <= days_in_month y m)%Z -> (1 <= d' <= days_in_month y' m')%Z ->
  then_with (y ?= y')%Z (then_with (m ?= m')%Z (d ?= d')%Z)
  = (days_before_year y + days_before_month y (Z.to_nat m) + d
     ?= days_before_year y' + days_before_month y' (Z.to_nat m') + d')%Z.
Proof.
  intros Hm Hm' Hd Hd'.
  assert (Hyear : forall y m d, (1 <= m <= 12)%Z -> (1 <= d <= days_in_month y m)%Z ->
    (0 < days_before_month y (Z.to_nat m) + d <= days_before_month y 13)%Z).
  { clear. intros y m d Hm Hd. pose proof (days_before_month_mono y (Z.to_nat m) 13 ltac:(lia)) as Hmono.
    rewrite Z2Nat.id in Hmono by lia.
    assert (Hpos : forall n, (0 <= days_before_month y n)%Z).
    { induction n as [|n IH]; cbn [days_before_month]; [lia|]. pose proof (days_in_month_nonneg y (Z.of_nat n)). lia. }
    specialize (Hpos (Z.to_nat m)). lia. }
  assert (Hmonth : forall y m m' d d', (1 <= m)%Z -> (m < m')%Z -> (1 <= d <= days_in_month y m)%Z -> (1 <= d')%Z ->
    (days_before_month y (Z.to_nat m) + d < days_before_month y (Z.to_nat m') + d')%Z).
  { clear. intros y m m' d d' Hm Hlt Hd Hd'. pose proof (days_before_month_mono y (Z.to_nat m) (Z.to_nat m') ltac:(lia)) as Hmono.
    rewrite Z2Nat.id in Hmono by lia. lia. }
  destruct (Z.compare_spec y y') as [->|Hlt|Hlt]; cbn [then_with]; symmetry.
  - destruct (Z.compare_spec m m') as [->|Hlt|Hlt]; cbn [then_with].
    + destruct (Z.compare_spec d d'); [apply Z.compare_eq_iff|apply Z.compare_lt_iff|apply Z.compare_gt_iff]; lia.
    + apply Z.compare_lt_iff. pose proof (Hmonth y' m m' d d'). lia.
    + apply Z.compare_gt_iff. pose proof (Hmonth y' m' m d' d). lia.
  - apply Z.compare_lt_iff. pose proof (days_before_year_mono y y' Hlt).
    pose proof (Hyear y m d Hm Hd). pose proof (Hyear y' m' d' Hm' Hd'). lia.
  - apply Z.compare_gt_iff. pose proof (days_before_year_mono y' y Hlt).
    pose proof (Hyear y m d Hm Hd). pose proof (Hyear y' m' d' Hm' Hd'). lia.
Qed.

Lemma timestamps_are_ordered t u :
  valid_timestamp t -> valid_timestamp u -> timestamp_cmp t u = (instant t ?= instant u)%Z.
Proof.
  intros (_ & Hm & Hd & Hh & Hmin & Hs & Hn) (_ & Hm' & Hd' & Hh' & Hmin' & Hs' & Hn').
  unfold timestamp_cmp, cmp_lex, cmp_on, instant. cbv zeta.
  rewrite (then_with_assoc (utc_month t ?= utc_month u)%Z), (then_with_assoc (utc_year t ?= utc_year u)%Z).
  rewrite compare_dates by done. rewrite !then_with_assoc.
  rewrite (compare_digit _ _ (utc_hour t) (utc_hour u) 24), (compare_digit _ _ (utc_minute t) (utc_minute u) 60),
    (compare_digit _ _ (utc_second t) (utc_second u) 60),
    (compare_digit _ _ (utc_nanosecond t) (utc_nanosecond u) (10 ^ 9)) by lia.
  done.
Qed.

(** ** The accepted texts *)

Definition ch (n : N) : ascii := ascii_of_N n.

(** A fraction is absent or a point and its digits. *)
Definition fraction_text (fraction : list ascii) : list ascii :=
  match fraction with [] => [] | _ => ch 46 :: fraction end.

Definition date_time_text (t : UtcTimestamp) : list ascii :=
  (digits 4 (utc_year t) ++ [ch 45] ++ digits 2 (utc_month t) ++ [ch 45] ++ digits 2 (utc_day t) ++ [ch 84]
   ++ digits 2 (utc_hour t) ++ [ch 58] ++ digits 2 (utc_minute t) ++ [ch 58] ++ digits 2 (utc_second t))%list.

(** The canonical text of a timestamp with these digits of its fraction. *)
Definition timestamp_text (t : UtcTimestamp) (fraction : list ascii) : list ascii :=
  (date_time_text t ++ fraction_text fraction ++ [ch 90])%list.

(** Digits that denote the nanoseconds: at most nine. *)
Definition denotes_nanos (fraction : list ascii) (n : Z) : Prop :=
  forallb is_ascii_digit fraction = true /\ (length fraction <= 9)%nat /\ n = fraction_nanos fraction.

Lemma fraction_nanos_bounds fraction n : denotes_nanos fraction n -> (0 <= n < 10 ^ 9)%Z.
Proof.
  intros (Hd & Hlen & ->). pose proof (digits_fold_bounds _ Hd) as Hb. unfold fraction_nanos.
  assert (Hpow : (10 ^ len fraction * 10 ^ (9 - len fraction) = 10 ^ 9)%Z)
    by (rewrite <-Z.pow_add_r by (unfold len; lia); f_equal; lia).
  assert (0 < 10 ^ (9 - len fraction))%Z by (apply Z.pow_pos_nonneg; unfold len; lia).
  rewrite <-Hpow. nia.
Qed.

Lemma is_byte_ch n c : (n < 256)%N -> is_byte (Z.of_N n) c = true <-> c = ch n.
Proof.
  intros Hn. unfold is_byte, ch. split.
  - intros Hc%Z.eqb_eq. apply code_inj. unfold code at 2. by rewrite N_ascii_embedding.
  - intros ->. unfold code. rewrite N_ascii_embedding by done. apply Z.eqb_refl.
Qed.

Lemma nanosecond_part_Ok pre f z name n :
  length pre = 19%nat ->
  nanosecond_part (pre ++ f ++ [z])%list name = Ok n
  <-> exists fraction, f = fraction_text fraction /\ denotes_nanos fraction n.
Proof.
  intros Hpre. unfold nanosecond_part, denotes_nanos. rewrite !length_app, Hpre. cbn [length].
  replace (19 + (length f + 1))%nat with (20 + length f)%nat by lia. destruct f as [|dot f].
  { cbn. split; [intros [= <-]; exists []; split_and!; try done; cbn; lia | intros ([|] & Hf & _ & _ & ->); [done|discriminate]]. }
  rewrite (proj2 (Nat.eqb_neq _ _)) by (simpl; lia). unfold has_byte.
  rewrite lookup_app_r by lia. rewrite Hpre. cbn [Nat.sub app lookup list_lookup is_some_and length].
  assert (Hslice : slice 20 (20 + S (length f) - 1) (pre ++ dot :: f ++ [z])%list = f).
  { unfold slice. rewrite drop_app_ge by lia. rewrite Hpre. cbn [Nat.sub app drop].
    replace (20 + S (length f) - 1 - 20)%nat with (length f) by lia. apply take_app_length. }
  rewrite Hslice. destruct (is_byte 46 dot) eqn:Hdot.
  2:{ rewrite andb_false_r. split; [done|]. intros ([|a fraction] & [= -> _] & _). discriminate Hdot. }
  apply (is_byte_ch 46) in Hdot as ->; [|done]. rewrite andb_true_r.
  destruct f as [|a f]; [cbn; split; [done|]; intros ([|] & [=] & _)|].
  destruct (_ && _) eqn:Hlen.
  - apply andb_true_iff in Hlen as [_ Hlen%Nat.leb_le]. destruct (forallb is_ascii_digit (a :: f)) eqn:Hd; cbn [negb].
    + split.
      * intros [= <-]. exists (a :: f). split_and!; try done. cbn [length] in *. lia.
      * intros (fraction & Hf & _ & _ & ->). destruct fraction as [|b fraction]; [done|]. injection Hf as <- <-. done.
    + split; [done|]. intros (fraction & Hf & Hd' & _). destruct fraction; [done|]. injection Hf as <- <-. congruence.
  - split; [done|]. intros (fraction & Hf & _ & Hn & _). destruct fraction; [done|]. injection Hf as <- <-.
    apply andb_false_iff in Hlen as [Hlen%Nat.leb_gt|Hlen%Nat.leb_gt]; cbn [length] in *; lia.
Qed.

Lemma valid_calendar_spec t :
  (0 <= utc_year t <= 9999)%Z -> (0 <= utc_month t)%Z -> (0 <= utc_day t)%Z -> (0 <= utc_hour t)%Z ->
  (0 <= utc_minute t)%Z -> (0 <= utc_second t)%Z -> (0 <= utc_nanosecond t < 10 ^ 9)%Z ->
  valid_calendar t = true <-> valid_timestamp t.
Proof.
  intros Hy Hm Hd Hh Hmin Hs Hn. unfold valid_calendar, valid_timestamp.
  generalize (days_in_month (utc_year t) (utc_month t)). intros dim. lia.
Qed.

(** The digits of a two- or four-digit field are its digits. *)
Lemma decimal_Ok l start stop name n :
  decimal l start stop name = Ok n <-> forallb is_ascii_digit (slice start stop l) = true /\ n = digits_fold (slice start stop l).
Proof. unfold decimal. destruct (forallb _ _); cbn [negb]; naive_solver. Qed.

(** The shape of a canonical text, by its parts. *)
Definition shaped (y m d h n s f : list ascii) : list ascii :=
  (y ++ [ch 45] ++ m ++ [ch 45] ++ d ++ [ch 84] ++ h ++ [ch 58] ++ n ++ [ch 58] ++ s ++ f ++ [ch 90])%list.

Definition fixed_shape (bytes : list ascii) : bool :=
  (20 <=? length bytes)%nat && has_byte bytes 4 45 && has_byte bytes 7 45 && has_byte bytes 10 84
  && has_byte bytes 13 58 && has_byte bytes 16 58 && is_some_and (is_byte 90) (last bytes).

(** The lengths of the parts. *)
Definition parts (y m d h n s : list ascii) : Prop :=
  length y = 4%nat /\ length m = 2%nat /\ length d = 2%nat /\ length h = 2%nat /\ length n = 2%nat /\ length s = 2%nat.

Ltac split_parts :=
  repeat match goal with
  | Hl : length ?l = S _ |- _ => is_var l; destruct l; [discriminate Hl|]; cbn [length] in Hl; injection Hl as Hl
  | Hl : length ?l = O |- _ => is_var l; destruct l; [clear Hl|discriminate Hl]
  end.

Lemma fixed_shape_spec bytes :
  fixed_shape bytes = true <-> exists y m d h n s f, parts y m d h n s /\ bytes = shaped y m d h n s f.
Proof.
  split.
  - destruct bytes as [|y1 [|y2 [|y3 [|y4 [|p1 [|m1 [|m2 [|p2 [|d1 [|d2 [|p3 [|h1 [|h2 [|p4 [|n1 [|n2 [|p5 [|s1 [|s2 rest]]]]]]]]]]]]]]]]]]];
      try discriminate. unfold fixed_shape, has_byte. rewrite !andb_true_iff. intros ((((((Hlen & H1) & H2) & H3) & H4) & H5) & H6).
    cbn [lookup list_lookup is_some_and] in H1, H2, H3, H4, H5.
    destruct rest as [|z rest _] using rev_ind; [discriminate Hlen|].
    change (y1 :: y2 :: y3 :: y4 :: p1 :: m1 :: m2 :: p2 :: d1 :: d2 :: p3 :: h1 :: h2 :: p4 :: n1 :: n2 :: p5 :: s1 :: s2
      :: (rest ++ [z]))%list with (([y1; y2; y3; y4; p1; m1; m2; p2; d1; d2; p3; h1; h2; p4; n1; n2; p5; s1; s2] ++ rest
      ++ [z])%list) in H6 |- *. rewrite assoc, last_snoc in H6 by apply _. cbn [is_some_and] in H6.
    apply (is_byte_ch 45) in H1 as ->; [|done]. apply (is_byte_ch 45) in H2 as ->; [|done].
    apply (is_byte_ch 84) in H3 as ->; [|done]. apply (is_byte_ch 58) in H4 as ->; [|done].
    apply (is_byte_ch 58) in H5 as ->; [|done]. apply (is_byte_ch 90) in H6 as ->; [|done].
    exists [y1; y2; y3; y4], [m1; m2], [d1; d2], [h1; h2], [n1; n2], [s1; s2], rest. split; [by split_and!|reflexivity].
  - intros (y & m & d & h & n & s & f & (Hy & Hm & Hd & Hh & Hn & Hs) & ->). split_parts. unfold fixed_shape, shaped, has_byte.
    rewrite !andb_true_iff. split_and!; try reflexivity.
    + apply Nat.leb_le. rewrite !length_app. cbn. lia.
    + by rewrite !(assoc (++)%list), last_snoc.
Qed.

Lemma shaped_slices y m d h n s f :
  parts y m d h n s ->
  slice 0 4 (shaped y m d h n s f) = y /\ slice 5 7 (shaped y m d h n s f) = m /\ slice 8 10 (shaped y m d h n s f) = d /\
  slice 11 13 (shaped y m d h n s f) = h /\ slice 14 16 (shaped y m d h n s f) = n /\
  slice 17 19 (shaped y m d h n s f) = s /\
  forall name v, nanosecond_part (shaped y m d h n s f) name = Ok v
    <-> exists fraction, f = fraction_text fraction /\ denotes_nanos fraction v.
Proof.
  intros (Hy & Hm & Hd & Hh & Hn & Hs). split_parts. split_and!; try reflexivity. intros name v.
  unfold shaped. rewrite !(assoc (++)%list), <-(assoc (++)%list _ f). by apply nanosecond_part_Ok.
Qed.

(** What the digits of a field denote. *)
Lemma field_digits width l : length l = width -> forallb is_ascii_digit l = true ->
  l = digits width (digits_fold l) /\ (0 <= digits_fold l < 10 ^ Z.of_nat width)%Z.
Proof. intros <- Hl. split; [by rewrite digits_of_fold | by apply digits_fold_bounds]. Qed.

(** An accepted text is a canonical one. *)
Lemma parsed_timestamp value name t :
  parse_utc_timestamp value name = Ok t ->
  valid_timestamp t /\ exists fraction, denotes_nanos fraction (utc_nanosecond t) /\
    RustStr.bytes value = timestamp_text t fraction.
Proof.
  unfold parse_utc_timestamp. fold (fixed_shape (RustStr.bytes value)). cbv zeta.
  generalize (RustStr.bytes value). intros bytes.
  destruct (fixed_shape bytes) eqn:Hshape; cbn [negb]; [|done].
  apply fixed_shape_spec in Hshape as (y & m & d & h & n & s & f & Hparts & ->).
  intros Hp. inspect_success Hp. injection Hp as <-.
  destruct (shaped_slices _ _ _ _ _ _ f Hparts) as (Sy & Sm & Sd & Sh & Sn & Ss & Sf).
  repeat match goal with Hb : decimal _ _ _ _ = Ok _ |- _ => apply decimal_Ok in Hb as [Hb ->] end.
  rewrite Sy, Sm, Sd, Sh, Sn, Ss in *.
  match goal with Hb : nanosecond_part _ _ = Ok _ |- _ => apply Sf in Hb as (fraction & -> & Hfraction) end.
  match goal with Hb : negb _ = false |- _ => apply negb_false_iff in Hb as Hcalendar end.
  destruct Hparts as (Ly & Lm & Ld & Lh & Ln & Ls).
  edestruct (field_digits 4 y) as [Ey By], (field_digits 2 m) as [Em Bm], (field_digits 2 d) as [Ed Bd],
    (field_digits 2 h) as [Eh Bh], (field_digits 2 n) as [En Bn], (field_digits 2 s) as [Es Bs]; try done.
  pose proof (fraction_nanos_bounds _ _ Hfraction). split.
  - apply valid_calendar_spec; simpl in *; try lia; done.
  - exists fraction. split; [done|]. unfold timestamp_text, date_time_text, shaped. cbn [utc_year utc_month utc_day
      utc_hour utc_minute utc_second]. rewrite <-Ey, <-Em, <-Ed, <-Eh, <-En, <-Es. by rewrite <-!(assoc (++)%list).
Qed.

(** A canonical text is accepted. *)
Lemma timestamp_parses value name t fraction :
  valid_timestamp t -> denotes_nanos fraction (utc_nanosecond t) -> RustStr.bytes value = timestamp_text t fraction ->
  parse_utc_timestamp value name = Ok t.
Proof.
  unfold parse_utc_timestamp. fold (fixed_shape (RustStr.bytes value)). cbv zeta.
  generalize (RustStr.bytes value). intros bytes.
  intros Hvalid Hfraction Htext.
  assert (Hshaped : bytes = shaped (digits 4 (utc_year t)) (digits 2 (utc_month t)) (digits 2 (utc_day t))
    (digits 2 (utc_hour t)) (digits 2 (utc_minute t)) (digits 2 (utc_second t)) (fraction_text fraction)).
  { rewrite Htext. unfold timestamp_text, date_time_text, shaped. by rewrite <-!(assoc (++)%list). }
  assert (Hparts : parts (digits 4 (utc_year t)) (digits 2 (utc_month t)) (digits 2 (utc_day t))
    (digits 2 (utc_hour t)) (digits 2 (utc_minute t)) (digits 2 (utc_second t)))
    by (unfold parts; rewrite !length_digits; by split_and!).
  destruct (shaped_slices _ _ _ _ _ _ (fraction_text fraction) Hparts) as (Sy & Sm & Sd & Sh & Sn & Ss & Sf).
  rewrite (proj2 (fixed_shape_spec bytes)) by eauto 10. cbn [negb]. unfold decimal. rewrite Hshaped, Sy, Sm, Sd, Sh, Sn, Ss.
  rewrite !forallb_digits. cbn [negb]. rewrite (proj2 (Sf name (utc_nanosecond t))) by eauto.
  pose proof Hvalid as (By & Bm & Bd & Bh & Bn & Bs & Bf).
  assert (utc_day t <= 31)%Z by (unfold days_in_month in Bd; repeat case_match; lia).
  rewrite !digits_fold_digits by (simpl; lia).
  assert (Ht : {| utc_year := utc_year t; utc_month := utc_month t; utc_day := utc_day t; utc_hour := utc_hour t;
    utc_minute := utc_minute t; utc_second := utc_second t; utc_nanosecond := utc_nanosecond t |} = t) by by destruct t.
  rewrite Ht. rewrite (proj2 (valid_calendar_spec t ltac:(lia) ltac:(lia) ltac:(lia) ltac:(lia) ltac:(lia) ltac:(lia) Bf))
    by done.
  done.
Qed.

(** *** The Gregorian calendar, by its rules *)

(** Every fourth year, but of the centuries every fourth one. *)
Definition gregorian_leap (year : Z) : Prop := (4 | year)%Z /\ ((100 | year)%Z -> (400 | year)%Z).

(** Every month has 28 days, February a 29th in leap years, the others 30 and seven
    of them a 31st. *)
Definition gregorian_date (year month day : Z) : Prop :=
  (1 <= month <= 12)%Z /\ (1 <= day)%Z /\
  ((day <= 28)%Z \/ (day = 29 /\ month = 2 /\ gregorian_leap year)%Z \/ ((day <= 30)%Z /\ month <> 2%Z) \/
   (day = 31%Z /\ month ∈ [1; 3; 5; 7; 8; 10; 12]%Z)).

(** A timestamp of the calendar: the years of four digits, no leap second. *)
Definition gregorian_timestamp (t : UtcTimestamp) : Prop :=
  (1 <= utc_year t <= 9999)%Z /\ gregorian_date (utc_year t) (utc_month t) (utc_day t) /\ (0 <= utc_hour t <= 23)%Z /\
  (0 <= utc_minute t <= 59)%Z /\ (0 <= utc_second t <= 59)%Z /\ (0 <= utc_nanosecond t < 10 ^ 9)%Z.

Lemma leap_year_gregorian year : leap_year year = true <-> gregorian_leap year.
Proof.
  unfold leap_year, multiple_of, gregorian_leap. rewrite orb_true_iff, andb_true_iff, negb_true_iff, Z.eqb_neq, !Z.eqb_eq.
  rewrite !Z.mod_divide by lia. split.
  - intros [H400|[H4 H100]]; [|by split].
    split; [|done]. by apply (Z.divide_trans 4 400 year); [exists 100%Z|].
  - intros [H4 Hcentury]. destruct (Znumtheory.Zdivide_dec 100 year) as [H100|H100]; [by left; apply Hcentury|by right].
Qed.

Lemma days_in_month_gregorian year month day :
  (1 <= month <= 12)%Z -> (1 <= day <= days_in_month year month)%Z <-> gregorian_date year month day.
Proof.
  intros Hmonth. unfold gregorian_date, days_in_month. rewrite <-leap_year_gregorian.
  assert (month = 1 \/ month = 2 \/ month = 3 \/ month = 4 \/ month = 5 \/ month = 6 \/ month = 7 \/ month = 8 \/
          month = 9 \/ month = 10 \/ month = 11 \/ month = 12)%Z as Hcases by lia.
  rewrite !elem_of_cons, elem_of_nil.
  destruct (leap_year year); repeat (destruct Hcases as [->|Hcases]; [cbn; lia|]); subst month; cbn; lia.
Qed.

Lemma valid_timestamp_gregorian t : valid_timestamp t <-> gregorian_timestamp t.
Proof.
  unfold valid_timestamp, gregorian_timestamp. split.
  - intros (? & ? & ?%days_in_month_gregorian & ?); tauto.
  - intros (? & Hdate & ?). pose proof (proj1 Hdate) as Hmonth. apply days_in_month_gregorian in Hdate; tauto.
Qed.

(** C40: a timestamp text is accepted exactly when it is the canonical
    UTC text of a timestamp the Gregorian calendar has, with at most nine digits of
    a fraction, and the parsed value is that timestamp: printing and parsing are
    inverse, and no offset, no leap second and no impossible day is accepted. *)
Theorem canonical_timestamps_are_parsed value name t :
  parse_utc_timestamp value name = Ok t <->
  gregorian_timestamp t /\ exists fraction, denotes_nanos fraction (utc_nanosecond t) /\
    RustStr.bytes value = timestamp_text t fraction.
Proof.
  rewrite <-valid_timestamp_gregorian. split; [apply parsed_timestamp|].
  intros (Hvalid & fraction & Hfraction & Htext). by eapply timestamp_parses.
Qed.
