(* ===== verification/Bundle.v ===== *)
(** * Loading a result bundle (crates/contract-tool/src/bundle.rs)

    [load_bundle] reads a manifest and everything it names, checks the bytes
    against their digests and every cross-document reference. *)

From S2P Require Import Prelude Order RustStr Json ContractValue ContractScenario ContractAdapter ContractProfile.
From S2P Require Import ContractResult ContractDocument Ledger Capture EnginePlan ToolFiles Publication.
From Stdlib Require Import Ascii.
Open Scope string_scope.

(** ** Validated documents *)

Record ValidatedScenario := { vs_artifact : ArtifactReference; vs_path : string; vs_scenario : Scenario }.
Record ValidatedResult := { vr_artifact : ArtifactReference; vr_path : string; vr_result : ResultRecord }.
Record ValidatedBundle := {
  vb_manifest_path : string;
  vb_manifest : ResultBundleManifest;
  vb_profile_path : string;
  vb_profile : Profile;
  vb_scenarios : list ValidatedScenario;
  vb_results : list ValidatedResult;
}.

#[export] Instance DigestAlgorithm_eq_dec : EqDecision DigestAlgorithm.
Proof. solve_decision. Defined.
#[export] Instance Digest_eq_dec : EqDecision Digest.
Proof. solve_decision. Defined.

(** ** Links between documents *)

(** [iter.map(|a| (key(a), a)).collect::<BTreeMap<_, _>>()]: the last entry of a
    key stays. *)
Definition index_by {A} (key : A -> string) (l : list A) : gmap string A := foldl (fun m a => <[key a := a]> m) ∅ l.

Definition validate_component_identity (executed : ExecutedComponent) (component : Component) : result unit Chain :=
  guard negb (exec_name executed =? comp_name component) || negb (exec_version executed =? comp_version component)
    or ["component `" +:+ exec_profile_component executed +:+ "` identity differs from profile: result has "
        +:+ exec_name executed +:+ " " +:+ exec_version executed +:+ ", profile has " +:+ comp_name component +:+ " "
        +:+ comp_version component] in
  Ok tt.

(** [BundleExecutedComponent]: bundle.rs has its own function of the name
    [validate_executed_component]. *)
Definition bundle_executed_component (executed : ExecutedComponent) (expected_kind : ComponentKind)
    (components : gmap string Component) : result unit Chain :=
  let? component := ok_or (components !! exec_profile_component executed)
    ["unknown component `" +:+ exec_profile_component executed +:+ "`"] in
  guard negb (bool_decide (comp_kind component = expected_kind))
    or ["component `" +:+ exec_profile_component executed +:+ "` has kind " +:+ component_kind_debug (comp_kind component)
        +:+ ", expected " +:+ component_kind_debug expected_kind] in
  validate_component_identity executed component.

(** The check of a client. *)
Definition bundle_client (client : ExecutedComponent) (components : gmap string Component) : result unit Chain :=
  let? component := ok_or (components !! exec_profile_component client)
    ["unknown client component `" +:+ exec_profile_component client +:+ "`"] in
  guard negb (match comp_kind component with Client | Engine => true | _ => false end)
    or ["client component `" +:+ exec_profile_component client +:+ "` has incompatible kind "
        +:+ component_kind_debug (comp_kind component)] in
  validate_component_identity client component.

Definition require_complete_assertions (result : ResultRecord) (assertions : gmap string AssertionSpec)
  : Prelude.result unit Chain :=
  let evaluated : gset string := list_to_set (eval_assertion <$> rec_assertions result) in
  let missing := List.filter (fun assertion => negb (bool_decide (assertion ∈ evaluated)))
                   (btree_entries String.compare assertions).*1 in
  guard negb (match missing with [] => true | _ => false end)
    or ["attempted result omits assertions: " +:+ String.concat ", " missing] in
  Ok tt.

(** The loop over the evaluations. *)
Definition check_evaluation (assertions : gmap string AssertionSpec) (evaluation : AssertionEvaluation)
  : result unit Chain :=
  let? assertion := ok_or (assertions !! eval_assertion evaluation)
    ["unknown scenario assertion `" +:+ eval_assertion evaluation +:+ "`"] in
  guard negb (Bool.eqb (eval_required evaluation) (spec_required assertion))
    or ["assertion `" +:+ eval_assertion evaluation +:+ "` copied required="
        +:+ (if eval_required evaluation then "true" else "false") +:+ " but scenario says "
        +:+ (if spec_required assertion then "true" else "false")] in
  Ok tt.

(** Every check of a list, in order. *)
Definition check_all {A} (check : A -> result unit Chain) (l : list A) : result unit Chain :=
  result_map (fun _ => tt) (collect_results check l).

(** [Pass] or [Fail]. *)
Definition attempted (outcome : ResultOutcome) : bool :=
  match outcome with ResultPass _ | ResultFail _ => true | Unsupported _ | NotTested _ => false end.

Definition validate_result_links (result : ResultRecord) (profile_digest : Digest) (profile : Profile)
    (components : gmap string Component) (scenarios : list ValidatedScenario) : Prelude.result unit Chain :=
  guard negb (pref_id (rec_profile result) =? prof_id profile)
        || negb (bool_decide (pref_digest (rec_profile result) = profile_digest))
    or ["profile reference does not match the manifest profile"] in
  check? bundle_executed_component (rec_catalog result) Catalog components in
  check? match rec_client result with Some client => bundle_client client components | None => Ok tt end in
  check? check_all (fun adapter =>
    guard negb (bool_decide (is_Some (components !! adapter))) or ["unknown adapter component `" +:+ adapter +:+ "`"] in
    Ok tt) (rec_adapters result) in
  let? scenario := ok_or (find (fun candidate => scen_id (vs_scenario candidate) =? sref_id (rec_scenario result)) scenarios)
    ["unknown scenario `" +:+ sref_id (rec_scenario result) +:+ "`"] in
  guard negb (sref_version (rec_scenario result) =? scen_version (vs_scenario scenario))%Z
        || negb (bool_decide (sref_digest (rec_scenario result) = artifact_digest (vs_artifact scenario)))
    or ["scenario version or digest does not match the manifest artifact"] in
  let assertions := index_by spec_id (scen_assertions (vs_scenario scenario)) in
  check? check_all (check_evaluation assertions) (rec_assertions result) in
  if attempted (rec_outcome result) then require_complete_assertions result assertions else Ok tt.

(** ** Reading *)

Section Loading.
Context `{UrlParser, ContractDecoders, Sha256} {W : Type} `{FileTree W}.

Definition verify_digest (bytes : string) (expected : Digest) : result unit Chain :=
  let actual := match digest_algorithm expected with ContractValue.Sha256 => hash_text bytes end in
  guard negb (actual =? digest_value expected) or ["expected " +:+ digest_value expected +:+ ", got " +:+ actual] in
  Ok tt.

Definition read_verified_artifact (base : string) (artifact : ArtifactReference) (w : W) : result (string * string) Chain :=
  guard contains "://" (artifact_location artifact) || starts_with "image:" (artifact_location artifact)
    or ["bundle artifact `" +:+ artifact_location artifact +:+ "` is not a local file"] in
  let path := join_path base (artifact_location artifact) in
  let? bytes := context ("failed to read " +:+ path) (fs_read path w) in
  guard match artifact_bytes artifact with Some expected => negb (str_len bytes =? expected)%Z | None => false end
    or [path +:+ " has " +:+ display (str_len bytes) +:+ " bytes, expected "
        +:+ display (default 0%Z (artifact_bytes artifact))] in
  check? with_context ("digest mismatch for " +:+ path) (verify_digest bytes (artifact_digest artifact)) in
  Ok (path, bytes).

(** [parse_contract(..).with_context(|| format!("invalid {what} {path}"))]. *)
Definition parse_named (what path bytes : string) : result ContractDocument Chain :=
  map_err (fun e => ("invalid " +:+ what +:+ " " +:+ path) :: parse_error_chain e) (parse_contract bytes).

Definition wrong_kind {A} (what path : string) (document : ContractDocument) : result A Chain :=
  Err [path +:+ " is " +:+ document_kind_name (document_kind document) +:+ ", not a " +:+ what].

(** One turn of the loop over the scenarios. *)
Definition load_scenario (base : string) (w : W) (state : gset string * list ValidatedScenario)
    (artifact : ArtifactReference) : result (gset string * list ValidatedScenario) Chain :=
  let '(scenario_ids, scenarios) := state in
  let? (path, bytes) := read_verified_artifact base artifact w in
  let? document := parse_named "scenario" path bytes in
  let? scenario := match document with
                   | ScenarioDocument scenario => Ok scenario
                   | document => wrong_kind "scenario" path document
                   end in
  guard bool_decide (scen_id scenario ∈ scenario_ids)
    or ["manifest contains duplicate scenario `" +:+ scen_id scenario +:+ "`"] in
  Ok ({[ scen_id scenario ]} ∪ scenario_ids,
      (scenarios ++ [{| vs_artifact := artifact; vs_path := path; vs_scenario := scenario |}])%list).

Definition verify_artifacts (base : string) (w : W) (wrap : result (string * string) Chain -> result (string * string) Chain)
    (artifacts : list ArtifactReference) : result unit Chain :=
  check_all (fun artifact => result_map (fun _ => tt) (wrap (read_verified_artifact base artifact w))) artifacts.

(** One turn of the loop over the results. *)
Definition load_result (base : string) (manifest : ResultBundleManifest) (profile : Profile)
    (components : gmap string Component) (scenarios : list ValidatedScenario) (w : W)
    (state : gset string * list ValidatedResult) (artifact : ArtifactReference)
  : result (gset string * list ValidatedResult) Chain :=
  let '(result_ids, results) := state in
  let? (path, bytes) := read_verified_artifact base artifact w in
  let? document := parse_named "result" path bytes in
  let? result := match document with
                 | ResultDocument result => Ok result
                 | document => wrong_kind "result" path document
                 end in
  guard bool_decide (rec_id result ∈ result_ids)
    or ["manifest contains duplicate result `" +:+ rec_id result +:+ "`"] in
  check? with_context ("invalid links in " +:+ path)
    (validate_result_links result (artifact_digest (man_profile manifest)) profile components scenarios) in
  check? check_all (fun evidence => result_map (fun _ => tt)
      (with_context ("invalid evidence `" +:+ ev_id evidence +:+ "` in " +:+ path)
        (read_verified_artifact base (ev_artifact evidence) w))) (rec_evidence result) in
  check? verify_artifacts base w (with_context ("invalid result artifact in " +:+ path)) (rec_artifacts result) in
  Ok ({[ rec_id result ]} ∪ result_ids,
      (results ++ [{| vr_artifact := artifact; vr_path := path; vr_result := result |}])%list).

Definition load_bundle (manifest_path : string) (w : W) : result ValidatedBundle Chain :=
  let? manifest_bytes := context ("failed to read " +:+ manifest_path) (fs_read manifest_path w) in
  let? document := parse_named "manifest" manifest_path manifest_bytes in
  let? manifest := match document with
                   | ManifestDocument manifest => Ok manifest
                   | document => wrong_kind "manifest" manifest_path document
                   end in
  let? base := ok_or (parent_path manifest_path) ["manifest path has no parent directory"] in
  let? (profile_path, profile_bytes) := read_verified_artifact base (man_profile manifest) w in
  let? document := parse_named "profile" profile_path profile_bytes in
  let? profile := match document with
                  | ProfileDocument profile => Ok profile
                  | document => wrong_kind "profile" profile_path document
                  end in
  guard negb (match prof_readiness profile with Runnable => true | _ => false end)
    or ["bundle profile " +:+ prof_id profile +:+ " is draft; results require a runnable profile"] in
  let? (_, scenarios) := try_fold (load_scenario base w) (∅, []) (man_scenarios manifest) in
  check? verify_artifacts base w id (man_source_evidence manifest) in
  let components := index_by comp_id (prof_components profile) in
  let? (_, results) := try_fold (load_result base manifest profile components scenarios w) (∅, []) (man_results manifest) in
  Ok {| vb_manifest_path := manifest_path; vb_manifest := manifest; vb_profile_path := profile_path;
        vb_profile := profile; vb_scenarios := scenarios; vb_results := results |}.
End Loading.

(** ** What a loaded bundle guarantees (crates/contract-tool/src/bundle.rs) *)

(** ** Indexes and checks *)

Lemma index_by_Some {A} (key : A -> string) l k a : index_by key l !! k = Some a -> a ∈ l /\ key a = k.
Proof.
  unfold index_by. intros Hk. assert (Hgen : forall m : gmap string A, foldl (fun m a => <[key a := a]> m) m l !! k = Some a ->
    m !! k = Some a \/ a ∈ l /\ key a = k).
  { clear Hk. induction l as [|b l IH]; intros m Hm; cbn [foldl] in Hm; [by left|].
    apply IH in Hm as [Hm|[Hin Hkey]]; [|right; split; [by right|done]].
    apply lookup_insert_Some in Hm as [[<- ->]|[_ Hm]]; [right; split; [by left|done] | by left]. }
  by destruct (Hgen ∅ Hk) as [Hm|Hm]; [rewrite lookup_empty in Hm|].
Qed.

Lemma index_by_is_Some {A} (key : A -> string) l a : a ∈ l -> is_Some (index_by key l !! key a).
Proof.
  intros Hin. unfold index_by. generalize (∅ : gmap string A) as m.
  assert (Hkeep : forall l (m : gmap string A) k, is_Some (m !! k) -> is_Some (foldl (fun m a => <[key a := a]> m) m l !! k)).
  { clear. induction l as [|b l IH]; intros m k Hm; [done|]. cbn [foldl]. apply IH. apply lookup_insert_is_Some'. by right. }
  induction l as [|b l IH]; [by apply elem_of_nil in Hin|]. intros m. cbn [foldl].
  apply elem_of_cons in Hin as [<-|Hin]; [|by apply IH]. apply Hkeep. by rewrite lookup_insert_eq.
Qed.

Lemma check_all_Ok {A} (check : A -> result unit Chain) l : check_all check l = Ok tt <-> Forall (fun a => check a = Ok tt) l.
Proof.
  unfold check_all. split.
  - destruct (collect_results check l) as [units|] eqn:Hc; [|done]. intros _. apply collect_results_Ok in Hc.
    eapply Forall2_Forall_l; [exact Hc|]. apply Forall_true. by intros [].
  - intros Hall. induction Hall as [|a l Ha _ IH]; [done|]. cbn [collect_results]. rewrite Ha.
    by destruct (collect_results check l).
Qed.

Lemma guard_Ok {A E} (b : bool) (e : E) (r : result A E) a : (if b then Err e else r) = Ok a <-> b = false /\ r = Ok a.
Proof. destruct b; naive_solver. Qed.

Lemma check_Ok {A E} (r : result unit E) (k : result A E) a :
  (match r with Ok _ => k | Err e => Err e end) = Ok a <-> r = Ok tt /\ k = Ok a.
Proof. destruct r as [[]|]; naive_solver. Qed.

Lemma bind_Ok {A B E} (r : result A E) (k : A -> result B E) b :
  (match r with Ok a => k a | Err e => Err e end) = Ok b <-> exists a, r = Ok a /\ k a = Ok b.
Proof. destruct r; naive_solver. Qed.

Lemma read_hashed_Ok `{Ledger.Sha256} {W} `{FileTree W} path sha (w : W) bytes :
  read_hashed path sha w = Ok bytes <-> fs_read path w = Ok bytes /\ hash_text bytes = sha.
Proof.
  unfold read_hashed, context. split.
  - intros (b & Hb%map_err_Ok_iff & Hg)%bind_Ok. by apply guard_Ok in Hg as [Hh%negb_false_iff%String.eqb_eq [= ->]].
  - intros [-> <-]. cbn [map_err]. by rewrite String.eqb_refl.
Qed.

(** ** Links *)

(** The component of the profile that a result claims to have executed. *)
Definition executed_as (executed : ExecutedComponent) (components : gmap string Component) (kinds : ComponentKind -> Prop)
  : Prop :=
  exists component, components !! exec_profile_component executed = Some component /\ kinds (comp_kind component) /\
    exec_name executed = comp_name component /\ exec_version executed = comp_version component.

(** What the scenario of a result says of its evaluations. *)
Definition evaluates (result : ResultRecord) (scenario : Scenario) : Prop :=
  let assertions := index_by spec_id (scen_assertions scenario) in
  (forall evaluation, evaluation ∈ rec_assertions result -> exists spec,
     assertions !! eval_assertion evaluation = Some spec /\ eval_required evaluation = spec_required spec) /\
  (attempted (rec_outcome result) = true -> forall id, is_Some (assertions !! id) ->
     id ∈ eval_assertion <$> rec_assertions result).

Definition linked (result : ResultRecord) (profile_digest : Digest) (profile : Profile)
    (components : gmap string Component) (scenarios : list ValidatedScenario) : Prop :=
  pref_id (rec_profile result) = prof_id profile /\ pref_digest (rec_profile result) = profile_digest /\
  executed_as (rec_catalog result) components (eq Catalog) /\
  (forall client, rec_client result = Some client -> executed_as client components (fun kind => kind = Client \/ kind = Engine)) /\
  (forall adapter, adapter ∈ rec_adapters result -> is_Some (components !! adapter)) /\
  exists scenario,
    find (fun candidate => scen_id (vs_scenario candidate) =? sref_id (rec_scenario result)) scenarios = Some scenario /\
    sref_version (rec_scenario result) = scen_version (vs_scenario scenario) /\
    sref_digest (rec_scenario result) = artifact_digest (vs_artifact scenario) /\ evaluates result (vs_scenario scenario).

Lemma identity_Ok executed component :
  validate_component_identity executed component = Ok tt
  <-> exec_name executed = comp_name component /\ exec_version executed = comp_version component.
Proof.
  unfold validate_component_identity. rewrite guard_Ok, orb_false_iff, !negb_false_iff, !String.eqb_eq. tauto.
Qed.

Lemma executed_component_Ok executed kind components :
  bundle_executed_component executed kind components = Ok tt <-> executed_as executed components (eq kind).
Proof.
  unfold bundle_executed_component, executed_as. rewrite bind_Ok. setoid_rewrite ok_or_Ok.
  setoid_rewrite guard_Ok. setoid_rewrite identity_Ok. setoid_rewrite negb_false_iff. setoid_rewrite bool_decide_eq_true.
  naive_solver.
Qed.

Lemma client_Ok client components :
  bundle_client client components = Ok tt
  <-> executed_as client components (fun kind => kind = Client \/ kind = Engine).
Proof.
  unfold bundle_client, executed_as. rewrite bind_Ok. setoid_rewrite ok_or_Ok. setoid_rewrite guard_Ok.
  setoid_rewrite identity_Ok. split.
  - intros (c & Hc & Hk & Hi). exists c. split_and!; try tauto. destruct (comp_kind c); naive_solver.
  - intros (c & Hc & Hk & Hn & Hv). exists c. split_and!; try tauto. by destruct Hk as [->| ->].
Qed.

Lemma complete_assertions_Ok result assertions :
  require_complete_assertions result assertions = Ok tt
  <-> forall id, is_Some (assertions !! id) -> id ∈ eval_assertion <$> rec_assertions result.
Proof.
  unfold require_complete_assertions. cbv zeta. rewrite guard_Ok, negb_false_iff.
  set (missing := List.filter _ _).
  assert (Hin : forall id, In id missing <-> is_Some (assertions !! id) /\ id ∉ eval_assertion <$> rec_assertions result).
  { intros id. unfold missing. rewrite filter_In, negb_true_iff, bool_decide_eq_false, elem_of_list_to_set, <-list_elem_of_In.
    rewrite list_elem_of_fmap. apply and_iff_compat_r. split.
    - intros ([k v] & -> & Hkv%elem_of_btree_entries). by exists v.
    - intros [v Hv]. exists (id, v). split; [done|]. by apply elem_of_btree_entries. }
  split.
  - intros [Hnil _] id Hid. destruct (decide (id ∈ eval_assertion <$> rec_assertions result)) as [|Hout]; [done|].
    assert (In id missing) as Hmissing by by apply Hin. by destruct missing.
  - intros Hall. split; [|done]. destruct missing as [|id rest]; [done|]. exfalso.
    destruct (proj1 (Hin id)) as [Hid Hout]; [by left|]. by apply Hout, Hall.
Qed.

Lemma evaluation_Ok assertions evaluation :
  check_evaluation assertions evaluation = Ok tt <-> exists spec,
    assertions !! eval_assertion evaluation = Some spec /\ eval_required evaluation = spec_required spec.
Proof.
  unfold check_evaluation. rewrite bind_Ok. setoid_rewrite ok_or_Ok. setoid_rewrite guard_Ok.
  setoid_rewrite negb_false_iff. setoid_rewrite Bool.eqb_true_iff. naive_solver.
Qed.

(** The check of the links accepts exactly the linked results. *)
Lemma result_links_Ok result profile_digest profile components scenarios :
  validate_result_links result profile_digest profile components scenarios = Ok tt
  <-> linked result profile_digest profile components scenarios.
Proof.
  unfold validate_result_links, linked. cbv zeta.
  rewrite guard_Ok, orb_false_iff, !negb_false_iff, String.eqb_eq, bool_decide_eq_true, !check_Ok, executed_component_Ok,
    check_all_Ok, bind_Ok. setoid_rewrite ok_or_Ok. setoid_rewrite guard_Ok. setoid_rewrite orb_false_iff.
  setoid_rewrite negb_false_iff. setoid_rewrite Z.eqb_eq. setoid_rewrite bool_decide_eq_true. setoid_rewrite check_Ok.
  setoid_rewrite check_all_Ok. setoid_rewrite Forall_forall. setoid_rewrite evaluation_Ok.
  assert (Hclient : match rec_client result with Some client => bundle_client client components | None => Ok tt end = Ok tt
    <-> forall client, rec_client result = Some client ->
        executed_as client components (fun kind => kind = Client \/ kind = Engine)).
  { destruct (rec_client result) as [client|]; [rewrite client_Ok|]; naive_solver. }
  rewrite Hclient. unfold evaluates.
  assert (Hcomplete : forall scenario, (if attempted (rec_outcome result)
      then require_complete_assertions result (index_by spec_id (scen_assertions (vs_scenario scenario))) else Ok tt) = Ok tt
    <-> (attempted (rec_outcome result) = true -> forall id,
      is_Some (index_by spec_id (scen_assertions (vs_scenario scenario)) !! id) -> id ∈ eval_assertion <$> rec_assertions result)).
  { intros scenario. destruct (attempted (rec_outcome result)); [rewrite complete_assertions_Ok|]; naive_solver. }
  setoid_rewrite Hcomplete. naive_solver.
Qed.

(** ** Loaded documents *)

Section Loaded.
Context `{UrlParser, ContractDecoders, Sha256} {W : Type} `{FileTree W}.

(** The local file of an artifact, with the bytes the artifact describes. *)
Definition held (base : string) (w : W) (artifact : ArtifactReference) (path bytes : string) : Prop :=
  contains "://" (artifact_location artifact) = false /\ starts_with "image:" (artifact_location artifact) = false /\
  path = join_path base (artifact_location artifact) /\ fs_read path w = Ok bytes /\
  hash_text bytes = digest_value (artifact_digest artifact) /\
  (forall expected, artifact_bytes artifact = Some expected -> str_len bytes = expected).

Lemma with_context_Ok {A} message (r : result A Chain) a : with_context message r = Ok a <-> r = Ok a.
Proof. apply map_err_Ok_iff. Qed.

Lemma read_verified_Ok base artifact w path bytes :
  read_verified_artifact base artifact w = Ok (path, bytes) <-> held base w artifact path bytes.
Proof.
  unfold read_verified_artifact, held, context. cbv zeta. rewrite guard_Ok, orb_false_iff, bind_Ok.
  setoid_rewrite map_err_Ok_iff. setoid_rewrite guard_Ok. setoid_rewrite check_Ok. setoid_rewrite with_context_Ok.
  unfold verify_digest. destruct (digest_algorithm _). setoid_rewrite guard_Ok. setoid_rewrite negb_false_iff.
  setoid_rewrite String.eqb_eq. split.
  - intros ([Hs Hi] & content & Hread & Hlen & [Hhash _] & [= <- <-]). split_and!; try done.
    intros expected Hb. rewrite Hb in Hlen. apply negb_false_iff in Hlen. lia.
  - intros (Hs & Hi & -> & Hread & Hhash & Hlen). split; [done|]. exists bytes. split_and!; try done.
    destruct (artifact_bytes artifact) as [expected|]; [|done]. apply negb_false_iff, Z.eqb_eq. by apply Hlen.
Qed.

Definition held_somewhere (base : string) (w : W) (artifact : ArtifactReference) : Prop :=
  exists path bytes, held base w artifact path bytes.

Lemma verified_Ok {A} base w (artifact : A -> ArtifactReference)
    (wrap : A -> result (string * string) Chain -> result (string * string) Chain) l :
  (forall a r p, wrap a r = Ok p <-> r = Ok p) ->
  check_all (fun a => result_map (fun _ => tt) (wrap a (read_verified_artifact base (artifact a) w))) l = Ok tt
  <-> Forall (fun a => held_somewhere base w (artifact a)) l.
Proof.
  intros Hwrap. rewrite check_all_Ok. apply Forall_iff. intros a. unfold held_somewhere. split.
  - destruct (wrap a _) as [[path bytes]|] eqn:Hw; [|done]. intros _. apply Hwrap, read_verified_Ok in Hw. eauto.
  - intros (path & bytes & Hh%read_verified_Ok%(Hwrap a)). by rewrite Hh.
Qed.

Lemma parse_named_Ok what path bytes document :
  parse_named what path bytes = Ok document <-> parse_contract bytes = Ok document.
Proof. apply map_err_Ok_iff. Qed.

(** A document of the bundle is the parsed content of its artifact. *)
Definition scenario_of (base : string) (w : W) (artifact : ArtifactReference) (s : ValidatedScenario) : Prop :=
  vs_artifact s = artifact /\ exists bytes, held base w artifact (vs_path s) bytes /\
    parse_contract bytes = Ok (ScenarioDocument (vs_scenario s)).

Definition result_of (base : string) (w : W) (manifest : ResultBundleManifest) (profile : Profile)
    (scenarios : list ValidatedScenario) (artifact : ArtifactReference) (r : ValidatedResult) : Prop :=
  vr_artifact r = artifact /\ (exists bytes, held base w artifact (vr_path r) bytes /\
    parse_contract bytes = Ok (ResultDocument (vr_result r))) /\
  linked (vr_result r) (artifact_digest (man_profile manifest)) profile (index_by comp_id (prof_components profile)) scenarios /\
  Forall (fun evidence => held_somewhere base w (ev_artifact evidence)) (rec_evidence (vr_result r)) /\
  Forall (held_somewhere base w) (rec_artifacts (vr_result r)).

Lemma load_scenario_Ok base w ids acc artifact state :
  load_scenario base w (ids, acc) artifact = Ok state -> exists s,
    scenario_of base w artifact s /\ scen_id (vs_scenario s) ∉ ids /\
    state = ({[ scen_id (vs_scenario s) ]} ∪ ids, (acc ++ [s])%list).
Proof.
  unfold load_scenario. intros ([path bytes] & Hread%read_verified_Ok & Hl)%bind_Ok.
  apply bind_Ok in Hl as (document & Hparse%parse_named_Ok & Hl). apply bind_Ok in Hl as (scenario & Hkind & Hl).
  apply guard_Ok in Hl as [Hnew%bool_decide_eq_false [= <-]]. destruct document; try done. injection Hkind as ->.
  exists {| vs_artifact := artifact; vs_path := path; vs_scenario := scenario |}.
  split; [split; [done | by exists bytes] | by split].
Qed.

Lemma load_result_Ok base manifest profile scenarios w ids acc artifact state :
  load_result base manifest profile (index_by comp_id (prof_components profile)) scenarios w (ids, acc) artifact = Ok state ->
  exists r, result_of base w manifest profile scenarios artifact r /\ rec_id (vr_result r) ∉ ids /\
    state = ({[ rec_id (vr_result r) ]} ∪ ids, (acc ++ [r])%list).
Proof.
  unfold load_result. intros ([path bytes] & Hread%read_verified_Ok & Hl)%bind_Ok.
  apply bind_Ok in Hl as (document & Hparse%parse_named_Ok & Hl). apply bind_Ok in Hl as (record & Hkind & Hl).
  apply guard_Ok in Hl as [Hnew%bool_decide_eq_false Hl]. destruct document; try done. injection Hkind as ->.
  apply check_Ok in Hl as [Hlinks%with_context_Ok%result_links_Ok Hl].
  apply check_Ok in Hl as [Hevidence Hl]. apply check_Ok in Hl as [Hartifacts [= <-]].
  apply (verified_Ok _ _ ev_artifact (fun evidence =>
    with_context ("invalid evidence `" +:+ ev_id evidence +:+ "` in " +:+ path))) in Hevidence;
    [|intros; apply with_context_Ok].
  apply (verified_Ok _ _ id (fun _ => with_context ("invalid result artifact in " +:+ path))) in Hartifacts;
    [|intros; apply with_context_Ok].
  exists {| vr_artifact := artifact; vr_path := path; vr_result := record |}.
  split; [unfold result_of; split_and!; try done; by exists bytes | by split].
Qed.

(** A loop that loads one document per artifact, under new identifiers. *)
Lemma load_all_Ok {T} (step : gset string * list T -> ArtifactReference -> result (gset string * list T) Chain)
    (loaded : ArtifactReference -> T -> Prop) (key : T -> string) :
  (forall ids acc artifact state, step (ids, acc) artifact = Ok state ->
     exists t, loaded artifact t /\ key t ∉ ids /\ state = ({[ key t ]} ∪ ids, (acc ++ [t])%list)) ->
  forall artifacts ids all, try_fold step (∅, []) artifacts = Ok (ids, all) ->
  Forall2 loaded artifacts all /\ NoDup (key <$> all).
Proof.
  intros Hstep artifacts ids all Hfold.
  assert (Hgen : forall ids0 acc, try_fold step (ids0, acc) artifacts = Ok (ids, all) -> exists new,
    all = (acc ++ new)%list /\ Forall2 loaded artifacts new /\ NoDup (key <$> new) /\
    forall k, k ∈ key <$> new -> k ∉ ids0).
  { clear Hfold. induction artifacts as [|artifact artifacts IH]; intros ids0 acc Hfold; cbn [try_fold] in Hfold.
    - injection Hfold as <- <-. exists []. rewrite app_nil_r. split_and!; try done; [constructor|set_solver].
    - apply bind_Ok in Hfold as (state & (t & Ht & Hnew & ->)%Hstep & Hfold).
      apply IH in Hfold as (new & -> & Hall & Hnd & Hfresh). exists (t :: new). rewrite <-(assoc (++)%list).
      split_and!; [done|by constructor| |].
      + rewrite fmap_cons. constructor; [|done]. intros Hin%Hfresh. set_solver.
      + rewrite fmap_cons. intros k [->|Hin]%elem_of_cons; [done|]. apply Hfresh in Hin. set_solver. }
  destruct (Hgen ∅ [] Hfold) as (new & -> & Hall & Hnd & _). by split.
Qed.

(** C27: a bundle that loads is closed and linked: the manifest, the
    runnable profile, every scenario and every result is the parsed content of a
    local file whose bytes have the digest and the length the manifest states; no
    scenario and no result occurs twice; every result refers to this profile and to
    one of these scenarios by version and digest, executed components the profile
    has under the same name and version, evaluates only assertions of its scenario
    with their own requirement, and all of them when it claims to pass or fail; and
    all its evidence, its artifacts and the source evidence are local files with the
    stated bytes. *)
Theorem loaded_bundle_is_closed manifest_path (w : W) bundle :
  load_bundle manifest_path w = Ok bundle ->
  let manifest := vb_manifest bundle in
  vb_manifest_path bundle = manifest_path /\ prof_readiness (vb_profile bundle) = Runnable /\
  exists base manifest_bytes profile_bytes,
    parent_path manifest_path = Some base /\ fs_read manifest_path w = Ok manifest_bytes /\
    parse_contract manifest_bytes = Ok (ManifestDocument manifest) /\
    held base w (man_profile manifest) (vb_profile_path bundle) profile_bytes /\
    parse_contract profile_bytes = Ok (ProfileDocument (vb_profile bundle)) /\
    Forall2 (scenario_of base w) (man_scenarios manifest) (vb_scenarios bundle) /\
    NoDup ((scen_id ∘ vs_scenario) <$> vb_scenarios bundle) /\
    Forall (held_somewhere base w) (man_source_evidence manifest) /\
    Forall2 (result_of base w manifest (vb_profile bundle) (vb_scenarios bundle)) (man_results manifest) (vb_results bundle) /\
    NoDup ((rec_id ∘ vr_result) <$> vb_results bundle).
Proof.
  unfold load_bundle, context. intros (manifest_bytes & Hbytes%map_err_Ok_iff & Hl)%bind_Ok.
  apply bind_Ok in Hl as (document & Hmanifest%parse_named_Ok & Hl). apply bind_Ok in Hl as (manifest & Hkind & Hl).
  destruct document; try done. injection Hkind as ->.
  apply bind_Ok in Hl as (base & Hbase%ok_or_Ok & Hl). apply bind_Ok in Hl as ([ppath pbytes] & Hp%read_verified_Ok & Hl).
  apply bind_Ok in Hl as (document & Hprofile%parse_named_Ok & Hl). apply bind_Ok in Hl as (profile & Hkind & Hl).
  destruct document; try done. injection Hkind as ->. apply guard_Ok in Hl as [Hready%negb_false_iff Hl].
  apply bind_Ok in Hl as ([sids scenarios] & Hscenarios & Hl). apply check_Ok in Hl as [Hsource Hl]. cbv zeta in Hl.
  apply bind_Ok in Hl as ([rids results] & Hresults & [= <-]). cbn.
  apply (verified_Ok _ _ id (fun _ => id)) in Hsource; [|done].
  eapply (load_all_Ok _ (scenario_of base w) (scen_id ∘ vs_scenario)) in Hscenarios as [Hs Hsn];
    [|intros; by eapply load_scenario_Ok].
  eapply (load_all_Ok _ (result_of base w manifest profile scenarios) (rec_id ∘ vr_result)) in Hresults as [Hr Hrn];
    [|intros; by eapply load_result_Ok].
  split_and!; [done|by destruct (prof_readiness profile)|]. by exists base, manifest_bytes, pbytes.
Qed.
End Loaded.
