(* ===== verification/EngineReview.v ===== *)
(** * Admission of a complete transcript set (crates/contract-tool/src/engine_evidence.rs)

    One transcript file per catalog of the profile, no other file, each in its
    canonical encoding and valid against the contracts. *)

From S2P Require Import Prelude Order RustStr Json ContractValue ContractScenario ContractAdapter ContractProfile.
From S2P Require Import ContractResult ContractDocument Sanitization Ledger Policy Transport Capture Routing Store.
From S2P Require Import EngineParameters EnginePlan EngineRuntime EngineCatalog EngineWorkflow EngineDecode.
From S2P Require Import EngineTranscript ToolFiles Publication Bundle.
From Stdlib Require Import Ascii.
Open Scope string_scope.

Definition MAX_TRANSCRIPT_BYTES : Z := 4 * 1024 * 1024.

Record EngineEvidenceSummary := { sum_total : Z; sum_pass : Z; sum_fail : Z; sum_fixture_collision : Z }.

Record ValidatedEngineTranscript := { vt_path : string; vt_bytes : string; vt_transcript : EngineTranscript }.

Record ValidatedEngineEvidenceSet := {
  ve_contracts : EngineContracts;
  ve_profile_bytes : string;
  ve_scenario_bytes : string;
  ve_fixture_id : string;
  ve_transcripts : list ValidatedEngineTranscript;
}.

Definition count_transcript (summary : EngineEvidenceSummary) (evidence : ValidatedEngineTranscript)
  : EngineEvidenceSummary :=
  match ex_classification (et_execution (vt_transcript evidence)) with
  | EngineBehaviorClassification.Pass => {| sum_total := sum_total summary; sum_pass := sum_pass summary + 1; sum_fail := sum_fail summary;
                     sum_fixture_collision := sum_fixture_collision summary |}
  | EngineBehaviorClassification.Fail => {| sum_total := sum_total summary; sum_pass := sum_pass summary; sum_fail := sum_fail summary + 1;
                     sum_fixture_collision := sum_fixture_collision summary |}
  | EngineBehaviorClassification.FixtureCollision => {| sum_total := sum_total summary; sum_pass := sum_pass summary; sum_fail := sum_fail summary;
                          sum_fixture_collision := sum_fixture_collision summary + 1 |}
  end%Z.

Definition summary (self : ValidatedEngineEvidenceSet) : EngineEvidenceSummary :=
  foldl count_transcript {| sum_total := len (ve_transcripts self); sum_pass := 0; sum_fail := 0; sum_fixture_collision := 0 |}
    (ve_transcripts self).

(** [serde_json::from_slice] of a transcript: derived code. *)
Class TranscriptDecoder := decode_transcript : string -> result EngineTranscript string.

(** ** The expected and the actual files *)

(** One turn of the loop over the adapters. *)
Definition expect_adapter (expected : gmap string ComponentId) (adapter : CatalogAdapter)
  : result (gmap string ComponentId) Chain :=
  let name := ad_catalog adapter +:+ ".json" in
  guard bool_decide (is_Some (expected !! name))
    or ["profile contains duplicate catalog adapter `" +:+ ad_catalog adapter +:+ "`"] in
  Ok (<[name := ad_catalog adapter]> expected).

Definition expected_transcript_files (contracts : EngineContracts) : result (gmap string ComponentId) Chain :=
  let? expected := try_fold expect_adapter ∅ (prof_catalog_adapters (ecs_profile contracts)) in
  guard bool_decide (expected = ∅) or ["profile selects no catalog adapters"] in
  Ok expected.

Definition require_exact_file_set (expected : gmap string ComponentId) (actual : gmap string string) (directory : string)
  : result unit Chain :=
  let missing := List.filter (fun name => negb (bool_decide (is_Some (actual !! name)))) (btree_entries String.compare expected).*1 in
  let unexpected := List.filter (fun name => negb (bool_decide (is_Some (expected !! name)))) (btree_entries String.compare actual).*1 in
  guard negb (match missing with [] => true | _ => false end) || negb (match unexpected with [] => true | _ => false end)
    or ["engine evidence set " +:+ directory +:+ " differs from profile: missing [" +:+ String.concat ", " missing
        +:+ "], unexpected [" +:+ String.concat ", " unexpected +:+ "]"] in
  Ok tt.

Section Admission.
Context {W : Type} `{FileTree W}.

Definition read_contract (path kind : string) (w : W) : result string Chain :=
  context ("failed to read engine " +:+ kind +:+ " " +:+ path) (fs_read path w).

(** One turn of the loop over the directory's entries. *)
Definition collect_entry (directory : string) (files : gmap string string) (entry : result DirEntry string)
  : result (gmap string string) Chain :=
  let? entry := context ("failed to read entry in " +:+ directory) entry in
  let path := join_path directory (entry_name entry) in
  let? file_type := context ("failed to inspect " +:+ path) (entry_type entry) in
  guard negb (match file_type with Regular => true | _ => false end)
    or ["engine evidence entry is not a regular file: " +:+ path] in
  guard negb (valid_utf8 (entry_name entry)) or ["engine evidence file name is not UTF-8"] in
  guard bool_decide (is_Some (files !! entry_name entry))
    or ["duplicate engine evidence file name `" +:+ entry_name entry +:+ "`"] in
  Ok (<[entry_name entry := path]> files).

Definition transcript_files (directory : string) (w : W) : result (gmap string string) Chain :=
  let? file_type := context ("failed to inspect evidence directory " +:+ directory) (fs_symlink_type directory w) in
  guard negb (match file_type with Directory => true | _ => false end)
    or ["engine evidence path is not a directory: " +:+ directory] in
  let? entries := context ("failed to list evidence directory " +:+ directory) (fs_read_dir directory w) in
  try_fold (collect_entry directory) ∅ entries.

Definition read_bounded_transcript (path : string) (w : W) : result string Chain :=
  let? metadata_len := context ("failed to inspect engine transcript " +:+ path) (fs_len path w) in
  guard ((metadata_len =? 0) || (MAX_TRANSCRIPT_BYTES <? metadata_len))%Z
    or ["engine transcript " +:+ path +:+ " has " +:+ display metadata_len +:+ " bytes; expected 1 to "
        +:+ display MAX_TRANSCRIPT_BYTES] in
  let? bytes := context ("failed to read engine transcript " +:+ path) (fs_read path w) in
  guard negb (str_len bytes =? metadata_len)%Z or ["engine transcript changed while reading: " +:+ path] in
  Ok bytes.

(** ** The set *)

Context `{UrlParser, UrlOps, ContractDecoders, EngineParametersDecoder, CanonicalEngineScenario, Ledger.Sha256}.
Context `{ObjectPaths, UuidParser, ValuesWriter, !Serialize EngineTranscript, !ToVecPretty EngineTranscript}.
Context `{TranscriptDecoder}.

(** One turn of the loop over the expected files. *)
Definition admit_transcript (contracts : EngineContracts) (actual : gmap string string) (fixture_id : string) (w : W)
    (expected : string * ComponentId) : result ValidatedEngineTranscript Chain :=
  let '(file_name, catalog) := expected in
  let? path := ok_or (actual !! file_name) ["exact transcript set changed during admission"] in
  let? bytes := read_bounded_transcript path w in
  let? transcript := context ("invalid engine transcript JSON in " +:+ path) (decode_transcript bytes) in
  guard negb (etc_id (ets_catalog (et_components transcript)) =? catalog)
    or [path +:+ " contains catalog `" +:+ etc_id (ets_catalog (et_components transcript)) +:+ "`, expected `" +:+ catalog
        +:+ "`"] in
  guard negb (etf_id (et_fixture transcript) =? fixture_id)
    or [path +:+ " contains fixture `" +:+ etf_id (et_fixture transcript) +:+ "`, expected `" +:+ fixture_id +:+ "`"] in
  let? canonical := context ("failed to re-encode engine transcript " +:+ path) (encode_evidence transcript) in
  guard negb (bytes =? canonical)
    or ["engine transcript is not in canonical newline-terminated encoding: " +:+ path] in
  check? map_err (fun kind => ["invalid engine transcript " +:+ path; validation_failure_text kind])
           (validate_transcript transcript contracts) in
  Ok {| vt_path := path; vt_bytes := bytes; vt_transcript := transcript |}.

Definition validate_engine_evidence_set (profile_path scenario_path evidence_directory fixture_id : string) (w : W)
  : result ValidatedEngineEvidenceSet Chain :=
  let? profile_bytes := read_contract profile_path "profile" w in
  let? scenario_bytes := read_contract scenario_path "scenario" w in
  let? contracts := map_err (fun e => "invalid engine interoperability contracts" :: evidence_error_chain e)
                      (parse_contracts profile_bytes scenario_bytes) in
  let? expected := expected_transcript_files contracts in
  let? actual := transcript_files evidence_directory w in
  check? require_exact_file_set expected actual evidence_directory in
  let? transcripts := collect_results (admit_transcript contracts actual fixture_id w) (btree_entries String.compare expected) in
  Ok {| ve_contracts := contracts; ve_profile_bytes := profile_bytes; ve_scenario_bytes := scenario_bytes;
        ve_fixture_id := fixture_id; ve_transcripts := transcripts |}.
End Admission.

(** ** Reviewed live-run metadata (crates/contract-tool/src/engine_review.rs)

    A review names the exact sources of an admitted evidence set; it is valid
    when its own shape is, and when every source has the bytes it states. *)

Definition REVIEW_FORMAT : string := "catalog-bench/engine-result-review/v1".
Definition MAX_REVIEW_BYTES : Z := 1024 * 1024.

Record EngineRunReview := {
  err_fixture_id : string;
  err_sanitized_invocation : string;
  err_started_at : string;
  err_started_at_basis : string;
  err_completed_at : string;
  err_completed_at_basis : string;
}.

Record ReviewedTranscript := { rvt_catalog : ComponentId; rvt_source : ReviewSource }.

Record EngineResultReview := {
  er_format : string;
  er_bundle : ReviewBundle;
  er_run : EngineRunReview;
  er_profile : ReviewSource;
  er_scenario : ReviewSource;
  er_transcripts : list ReviewedTranscript;
  er_environment : EnvironmentManifest;
  er_redaction : RedactionStatement;
}.

Record ValidatedEngineResultReview := {
  vrev_path : string;
  vrev_bytes : string;
  vrev_review : EngineResultReview;
  vrev_evidence : ValidatedEngineEvidenceSet;
}.

(** [serde_json::from_slice] of a review: derived code. *)
Class ReviewDecoder := decode_review : string -> result EngineResultReview string.

(** ** Sources *)

Definition is_ascii_control (c : ascii) : bool := (code c <? 32)%Z || (code c =? 127)%Z.

Definition relative_path (location name : string) : result string Chain :=
  check? require_text location name in
  guard contains_byte 92 location || contains_byte 58 location || existsb is_ascii_control (bytes location)
    or [name +:+ " must be a portable repository-relative path"] in
  guard existsb (fun component => is_empty component || (component =? ".") || (component =? "..")) (split_byte 47 location)
    or [name +:+ " must be a normalized repository-relative path"] in
  Ok location.

(** [matches!]: a digit or [a] to [f]. *)
Definition is_lowercase_hex (c : ascii) : bool := is_ascii_digit c || ((97 <=? code c) && (code c <=? 102))%Z.

Definition validate_source (source : ReviewSource) (name : string) : result unit Chain :=
  let? _ := relative_path (rsrc_location source) name in
  guard (rsrc_bytes source =? 0)%Z or [name +:+ " byte count must be greater than zero"] in
  guard negb (str_len (rsrc_sha256 source) =? 64)%Z || negb (all_bytes is_lowercase_hex (rsrc_sha256 source))
    or [name +:+ " SHA-256 must contain 64 lowercase hexadecimal characters"] in
  Ok tt.

(** One turn of the loop over the transcripts, after the catalog before it. *)
Definition review_transcript (previous : option ComponentId) (transcript : ReviewedTranscript)
  : result (option ComponentId) Chain :=
  guard is_some_and (fun catalog => match String.compare catalog (rvt_catalog transcript) with Lt => false | _ => true end) previous
    or ["reviewed transcript catalogs must be unique and strictly sorted"] in
  check? validate_source (rvt_source transcript) ("transcript source for " +:+ rvt_catalog transcript) in
  let expected_name := rvt_catalog transcript +:+ ".json" in
  guard negb (bool_decide (file_name (rsrc_location (rvt_source transcript)) = Some expected_name))
    or ["reviewed transcript for `" +:+ rvt_catalog transcript +:+ "` must be named `" +:+ expected_name +:+ "`"] in
  Ok (Some (rvt_catalog transcript)).

Definition validate_transcript_review_order (transcripts : list ReviewedTranscript) : result unit Chain :=
  guard match transcripts with [] => true | _ => false end or ["engine result review contains no transcripts"] in
  result_map (fun _ => tt) (try_fold review_transcript None transcripts).

Definition validate_result_output_directory (location : string) : result unit Chain :=
  let? _ := relative_path location "bundle output directory" in
  guard negb (match split_byte 47 location with "results" :: "v1" :: _ :: _ => true | _ => false end)
    or ["bundle output directory must be below results/v1"] in
  Ok tt.

(** ** The shape of a review *)

(** One turn of the loop over the removed fields. *)
Definition review_removed_field (seen : gset string) (field : string) : result (gset string) Chain :=
  check? require_text field "removed field category" in
  guard bool_decide (field ∈ seen) or ["redaction review contains a duplicate removed field category"] in
  Ok ({[ field ]} ∪ seen).

Definition validate_review_shape (review : EngineResultReview) : result unit Chain :=
  guard negb (er_format review =? REVIEW_FORMAT) or ["engine result review has an unsupported format"] in
  check? require_text (rb_id (er_bundle review)) "bundle id" in
  check? require_text (rb_title (er_bundle review)) "bundle title" in
  check? validate_result_output_directory (rb_output_directory (er_bundle review)) in
  check? require_text (err_fixture_id (er_run review)) "run fixture id" in
  check? require_text (err_started_at_basis (er_run review)) "run started_at basis" in
  check? require_text (err_completed_at_basis (er_run review)) "run completed_at basis" in
  let? created_at := parse_utc_timestamp (rb_created_at (er_bundle review)) "bundle created_at" in
  let? started_at := parse_utc_timestamp (err_started_at (er_run review)) "run started_at" in
  let? completed_at := parse_utc_timestamp (err_completed_at (er_run review)) "run completed_at" in
  guard at_least started_at completed_at || at_least completed_at created_at
    or ["reviewed run and bundle timestamps are not strictly ordered"] in
  check? validate_source (er_profile review) "profile source" in
  check? validate_source (er_scenario review) "scenario source" in
  check? validate_transcript_review_order (er_transcripts review) in
  check? map_err (fun errors => ["invalid reviewed engine environment"; display_issues errors])
           (validate (er_environment review)) in
  guard negb (red_reviewed (er_redaction review)) or ["engine result review has not completed redaction review"] in
  check? require_text (red_policy (er_redaction review)) "redaction policy" in
  guard match red_removed_fields (er_redaction review) with [] => true | _ => false end
    or ["redaction review must name at least one removed field category"] in
  let? _ := try_fold review_removed_field ∅ (red_removed_fields (er_redaction review)) in
  Ok tt.

(** ** Against the evidence *)

Definition canonical_interoperability_launcher (engine_name : string) : result string Chain :=
  if engine_name =? "Apache Spark" then Ok "docker/run-spark-interoperability.sh"
  else if engine_name =? "Apache Flink" then Ok "docker/run-flink-interoperability.sh"
  else if engine_name =? "Trino" then Ok "docker/run-trino-interoperability.sh"
  else if engine_name =? "DuckDB" then Ok "docker/run-duckdb-interoperability.sh"
  else Err ["reviewed engine has no canonical interoperability launcher"].

(** A double quote. *)
Definition quote : string := String (ascii_of_N 34) "".

(** The code indexes the first transcript, which an admitted set has. *)
Definition validate_reviewed_invocation (review : EngineResultReview) (evidence : ValidatedEngineEvidenceSet)
  : option (result unit Chain) :=
  first ← head (ve_transcripts evidence);
  Some (
    let? launcher := canonical_interoperability_launcher (etc_name (ets_engine (et_components (vt_transcript first)))) in
    let expected := launcher +:+ " " +:+ quote +:+ err_fixture_id (er_run review) +:+ quote in
    guard negb (err_sanitized_invocation (er_run review) =? expected)
      or ["reviewed invocation does not match the canonical engine launcher"] in
    Ok tt).

Definition resolve_source (repository_root : string) (source : ReviewSource) (name : string) : result string Chain :=
  let? relative := relative_path (rsrc_location source) name in
  Ok (join_path repository_root relative).

Definition reviewed_transcript_directory (repository_root : string) (transcripts : list ReviewedTranscript)
  : result string Chain :=
  let? first := ok_or (head transcripts) ["engine result review contains no transcripts"] in
  let? parent := ok_or (parent_path (rsrc_location (rvt_source first))) ["reviewed transcript has no parent directory"] in
  guard existsb (fun transcript =>
      negb (bool_decide (path_parts <$> parent_path (rsrc_location (rvt_source transcript)) = Some (path_parts parent))))
      (tail transcripts)
    or ["all reviewed engine transcripts must share one evidence directory"] in
  Ok (join_path repository_root parent).

Definition verify_environment (environment : EnvironmentManifest) (evidence : ValidatedEngineEvidenceSet)
  : result unit Chain :=
  let platform := prof_platform (ecs_profile (ve_contracts evidence)) in
  guard negb (env_operating_system environment =? plat_operating_system platform)
        || negb (env_architecture environment =? plat_architecture platform)
        || negb (env_network environment =? plat_network platform)
    or ["reviewed environment differs from the runnable profile platform"] in
  guard negb (match env_container_runtime environment with Exact _ => true | _ => false end)
    or ["live engine review requires an exact container runtime capture"] in
  Ok tt.

Section Review.
Context {W : Type} `{FileTree W}.
Context `{UrlParser, UrlOps, ContractDecoders, EngineParametersDecoder, CanonicalEngineScenario, Ledger.Sha256}.
Context `{ObjectPaths, UuidParser, ValuesWriter, !Serialize EngineTranscript, !ToVecPretty EngineTranscript}.
Context `{TranscriptDecoder, ReviewDecoder}.

Definition require_within_repository (canonical_root path name : string) (w : W) : result unit Chain :=
  let? canonical := context ("failed to resolve " +:+ name +:+ " " +:+ path) (fs_canonicalize path w) in
  guard negb (bool_decide (is_Some (strip_parts (path_parts canonical_root) (path_parts canonical))))
    or [name +:+ " resolves outside the repository root: " +:+ path] in
  Ok tt.

Definition read_bounded_review (path : string) (w : W) : result string Chain :=
  let? file_type := context ("failed to inspect engine result review " +:+ path) (fs_symlink_type path w) in
  guard negb (match file_type with Regular => true | _ => false end)
    or ["engine result review is not a regular file: " +:+ path] in
  let? metadata_len := context ("failed to inspect engine result review " +:+ path) (fs_len path w) in
  guard ((metadata_len =? 0) || (MAX_REVIEW_BYTES <? metadata_len))%Z
    or ["engine result review " +:+ path +:+ " has " +:+ display metadata_len +:+ " bytes; expected 1 to "
        +:+ display MAX_REVIEW_BYTES] in
  let? bytes := context ("failed to read engine result review " +:+ path) (fs_read path w) in
  guard negb (str_len bytes =? metadata_len)%Z or ["engine result review changed while reading: " +:+ path] in
  Ok bytes.

Definition verify_source_bytes (source : ReviewSource) (bytes name : string) : result unit Chain :=
  let actual_sha256 := hash_text bytes in
  guard negb (rsrc_bytes source =? str_len bytes)%Z || negb (rsrc_sha256 source =? actual_sha256)
    or ["reviewed " +:+ name +:+ " identity differs from admitted bytes: expected " +:+ rsrc_sha256 source +:+ "/"
        +:+ display (rsrc_bytes source) +:+ ", got " +:+ actual_sha256 +:+ "/" +:+ display (str_len bytes)] in
  Ok tt.

(** One turn of the loop over the admitted transcripts. *)
Definition verify_transcript_source (repository_root : string) (reviewed : gmap string ReviewedTranscript)
    (transcript : ValidatedEngineTranscript) : result unit Chain :=
  let catalog := etc_id (ets_catalog (et_components (vt_transcript transcript))) in
  let? source := ok_or (reviewed !! catalog) ["review omits admitted transcript for `" +:+ catalog +:+ "`"] in
  let? expected_path := resolve_source repository_root (rvt_source source) "transcript source" in
  guard negb (bool_decide (path_parts (vt_path transcript) = path_parts expected_path))
    or ["reviewed transcript path differs from admitted path for `" +:+ catalog +:+ "`"] in
  verify_source_bytes (rvt_source source) (vt_bytes transcript) ("transcript for `" +:+ catalog +:+ "`").

Definition verify_transcript_sources (repository_root : string) (reviewed : list ReviewedTranscript)
    (evidence : ValidatedEngineEvidenceSet) : result unit Chain :=
  let reviewed := index_by rvt_catalog reviewed in
  guard negb (Z.of_nat (size reviewed) =? len (ve_transcripts evidence))%Z
    or ["reviewed transcripts do not cover the admitted catalog set"] in
  check_all (verify_transcript_source repository_root reviewed) (ve_transcripts evidence).

(** The checks against the evidence; [None] is the panic of an empty set. *)
Definition verify_evidence (repository_root : string) (review : EngineResultReview) (evidence : ValidatedEngineEvidenceSet)
  : option (result unit Chain) :=
  invocation ← validate_reviewed_invocation review evidence;
  Some (
    check? invocation in
    check? verify_source_bytes (er_profile review) (ve_profile_bytes evidence) "profile" in
    check? verify_source_bytes (er_scenario review) (ve_scenario_bytes evidence) "scenario" in
    check? verify_transcript_sources repository_root (er_transcripts review) evidence in
    verify_environment (er_environment review) evidence).

(** [None] is a panic. *)
Definition validate_engine_result_review (repository_root review_path : string) (w : W)
  : option (result ValidatedEngineResultReview Chain) :=
  let review_path := if starts_with "/" review_path then review_path else join_path repository_root review_path in
  let admitted :=
    let? review_bytes := read_bounded_review review_path w in
    let? review := context ("invalid engine result review JSON in " +:+ review_path) (decode_review review_bytes) in
    guard negb (is_some_and (is_byte 10) (last (bytes review_bytes)))
      or ["engine result review is not newline-terminated: " +:+ review_path] in
    check? validate_review_shape review in
    let? canonical_root := context ("failed to resolve repository root " +:+ repository_root) (fs_canonicalize repository_root w) in
    let? profile_path := resolve_source repository_root (er_profile review) "profile" in
    let? scenario_path := resolve_source repository_root (er_scenario review) "scenario" in
    let? evidence_directory := reviewed_transcript_directory repository_root (er_transcripts review) in
    check? require_within_repository canonical_root profile_path "profile source" w in
    check? require_within_repository canonical_root scenario_path "scenario source" w in
    check? require_within_repository canonical_root evidence_directory "transcript source directory" w in
    let? evidence := validate_engine_evidence_set profile_path scenario_path evidence_directory
                       (err_fixture_id (er_run review)) w in
    Ok (review_bytes, review, evidence) in
  match admitted with
  | Err e => Some (Err e)
  | Ok (review_bytes, review, evidence) =>
      verified ← verify_evidence repository_root review evidence;
      Some (check? verified in
            Ok {| vrev_path := review_path; vrev_bytes := review_bytes; vrev_review := review; vrev_evidence := evidence |})
  end.
End Review.
