(* ===== verification/EngineReviewProofs.v ===== *)
(** * What an admitted transcript set and a valid review guarantee
      (crates/contract-tool/src/engine_evidence.rs, engine_review.rs) *)

From S2P Require Import Prelude Order RustStr Json ContractValue ContractScenario ContractAdapter ContractProfile.
From S2P Require Import ContractResult ContractDocument Sanitization Ledger Policy Transport Capture Routing Store.
From S2P Require Import EngineParameters EnginePlan EngineRuntime EngineCatalog EngineWorkflow EngineDecode.
From S2P Require Import EngineTranscript ToolFiles Publication Bundle EngineReview.
From Stdlib Require Import Ascii.
Open Scope string_scope.

(** ** Tables filled by a loop that refuses duplicates *)

Lemma try_fold_table {A V} (step : gmap string V -> A -> result (gmap string V) Chain) (entry : A -> string * V -> Prop) :
  (forall m a m', step m a = Ok m' -> exists k v, entry a (k, v) /\ m !! k = None /\ m' = <[k := v]> m) ->
  forall l m', try_fold step ∅ l = Ok m' -> exists entries, Forall2 entry l entries /\ map_to_list m' ≡ₚ entries.
Proof.
  intros Hstep l m' Hfold.
  assert (Hgen : forall m, try_fold step m l = Ok m' -> exists entries,
    Forall2 entry l entries /\ map_to_list m' ≡ₚ (entries ++ map_to_list m)%list).
  { clear Hfold. induction l as [|a l IH]; intros m Hfold; cbn [try_fold] in Hfold.
    - injection Hfold as <-. by exists [].
    - apply bind_Ok in Hfold as (m1 & (k & v & Hentry & Hnone & ->)%Hstep & Hfold).
      apply IH in Hfold as (entries & Hall & Hperm). exists ((k, v) :: entries). split; [by constructor|].
      rewrite Hperm, map_to_list_insert by done. by rewrite <-Permutation_middle. }
  destruct (Hgen ∅ Hfold) as (entries & Hall & Hperm). exists entries. split; [done|].
  by rewrite Hperm, map_to_list_empty, app_nil_r.
Qed.

(** The file of a catalog's transcript. *)
Definition transcript_file (catalog : ComponentId) : string := catalog +:+ ".json".

Lemma expected_files_Ok contracts expected :
  expected_transcript_files contracts = Ok expected ->
  let catalogs := ad_catalog <$> prof_catalog_adapters (ecs_profile contracts) in
  map_to_list expected ≡ₚ (fun catalog => (transcript_file catalog, catalog)) <$> catalogs /\ catalogs <> [].
Proof.
  unfold expected_transcript_files. intros (built & Hbuilt & [Hne%bool_decide_eq_false [= <-]]%guard_Ok)%bind_Ok.
  apply (try_fold_table _ (fun adapter e => e = (transcript_file (ad_catalog adapter), ad_catalog adapter)))
    in Hbuilt as (entries & Hall & Hperm).
  - cbv zeta. assert (entries = (fun catalog => (transcript_file catalog, catalog))
      <$> (ad_catalog <$> prof_catalog_adapters (ecs_profile contracts))) as ->.
    { clear Hperm. induction Hall as [|adapter e l entries -> _ IH]; [done|]. by rewrite !fmap_cons, <-IH. }
    split; [done|]. intros Hnil. rewrite Hnil in Hperm. cbn in Hperm. apply Permutation_nil_r in Hperm.
    by apply map_to_list_empty_iff in Hperm.
  - intros m adapter m' Hstep. unfold expect_adapter in Hstep. cbv zeta in Hstep.
    apply guard_Ok in Hstep as [Hnew%bool_decide_eq_false [= <-]]. apply eq_None_not_Some in Hnew.
    by eexists _, _.
Qed.

Section Evidence.
Context {W : Type} `{FileTree W}.

(** The entries of a directory of regular files, with names in UTF-8. *)
Definition regular_entries (directory : string) (w : W) (names : list string) : Prop :=
  fs_symlink_type directory w = Ok Directory /\ exists entries, fs_read_dir directory w = Ok entries /\
  Forall2 (fun entry name => exists e, entry = Ok e /\ entry_name e = name /\ entry_type e = Ok Regular /\
    valid_utf8 name = true) entries names.

Lemma transcript_files_Ok directory w actual :
  transcript_files directory w = Ok actual -> exists names,
    regular_entries directory w names /\ map_to_list actual ≡ₚ (fun name => (name, join_path directory name)) <$> names.
Proof.
  unfold transcript_files, context.
  intros (kind & Hkind%map_err_Ok_iff & Hf)%bind_Ok. apply guard_Ok in Hf as [Hdir%negb_false_iff Hf].
  apply bind_Ok in Hf as (entries & Hentries%map_err_Ok_iff & Hf). destruct kind; try done.
  apply (try_fold_table _ (fun entry nv => exists e, entry = Ok e /\ nv = (entry_name e, join_path directory (entry_name e))
    /\ entry_type e = Ok Regular /\ valid_utf8 (entry_name e) = true)) in Hf as (pairs & Hall & Hperm).
  - exists pairs.*1. split.
    + split; [done|]. exists entries. split; [done|]. apply Forall2_fmap_r. eapply Forall2_impl; [exact Hall|].
      intros entry [k v] (e & -> & [= -> ->] & ? & ?). by exists e.
    + rewrite Hperm. apply reflexive_eq. clear Hperm Hentries.
      induction Hall as [|entry pair l pairs (e & _ & -> & _) _ IH]; [done|]. rewrite !fmap_cons. cbn [fst]. by f_equal.
  - intros m entry m' Hstep. unfold collect_entry, context in Hstep. cbv zeta in Hstep.
    apply bind_Ok in Hstep as (e & He%map_err_Ok_iff & Hstep). apply bind_Ok in Hstep as (t & Ht%map_err_Ok_iff & Hstep).
    apply guard_Ok in Hstep as [Hregular%negb_false_iff Hstep]. apply guard_Ok in Hstep as [Hutf%negb_false_iff Hstep].
    apply guard_Ok in Hstep as [Hnew%bool_decide_eq_false%eq_None_not_Some [= <-]]. destruct t; try done.
    eexists _, _. split; [by exists e|]. split; [exact Hnew|reflexivity].
Qed.
End Evidence.

Lemma keys_missing_nil {V V'} (m : gmap string V) (m' : gmap string V') :
  List.filter (fun name => negb (bool_decide (is_Some (m' !! name)))) (btree_entries String.compare m).*1 = [] <->
  dom m ⊆ dom m'.
Proof.
  split.
  - intros Hnil name Hin. apply elem_of_dom in Hin as [v Hv]. apply elem_of_dom.
    destruct (decide (is_Some (m' !! name))) as [|Hno]; [done|]. exfalso.
    assert (Hin : In name (List.filter (fun name => negb (bool_decide (is_Some (m' !! name)))) (btree_entries String.compare m).*1)).
    { apply filter_In. split; [|by rewrite bool_decide_eq_false_2]. apply list_elem_of_In, list_elem_of_fmap.
      exists (name, v). split; [done|]. by apply elem_of_btree_entries. }
    by rewrite Hnil in Hin.
  - intros Hsub. destruct (List.filter _ _) as [|name rest] eqn:Hf; [done|]. exfalso.
    assert (Hin : In name (name :: rest)) by by left. rewrite <-Hf in Hin. apply filter_In in Hin as [Hin Hno].
    apply list_elem_of_In, list_elem_of_fmap in Hin as ([k v] & -> & Hkv%elem_of_btree_entries).
    apply negb_true_iff, bool_decide_eq_false in Hno. apply Hno, elem_of_dom, Hsub, elem_of_dom. by exists v.
Qed.

Lemma exact_file_set_Ok expected actual directory :
  require_exact_file_set expected actual directory = Ok tt <-> dom expected = dom actual.
Proof.
  unfold require_exact_file_set. cbv zeta. rewrite guard_Ok, orb_false_iff, !negb_false_iff, set_eq_subseteq, <-!keys_missing_nil.
  destruct (List.filter _ (btree_entries String.compare expected).*1), (List.filter _ (btree_entries String.compare actual).*1);
    naive_solver.
Qed.

(** ** The admitted set *)

Section Evidence.
Context {W : Type} `{FileTree W}.
Context `{UrlParser, UrlOps, ContractDecoders, EngineParametersDecoder, CanonicalEngineScenario, Ledger.Sha256}.
Context `{ObjectPaths, UuidParser, ValuesWriter, !Serialize EngineTranscript, !ToVecPretty EngineTranscript}.
Context `{TranscriptDecoder, ReviewDecoder}.

Definition transcript_catalog (evidence : ValidatedEngineTranscript) : ComponentId :=
  etc_id (ets_catalog (et_components (vt_transcript evidence))).

(** A transcript read from its file: bounded, canonically encoded, for this fixture
    and valid against the contracts. *)
Definition admitted (contracts : EngineContracts) (directory fixture_id : string) (w : W)
    (evidence : ValidatedEngineTranscript) : Prop :=
  vt_path evidence = join_path directory (transcript_file (transcript_catalog evidence)) /\
  fs_read (vt_path evidence) w = Ok (vt_bytes evidence) /\
  (1 <= str_len (vt_bytes evidence) <= MAX_TRANSCRIPT_BYTES)%Z /\
  decode_transcript (vt_bytes evidence) = Ok (vt_transcript evidence) /\
  encode_evidence (vt_transcript evidence) = Ok (vt_bytes evidence) /\
  etf_id (et_fixture (vt_transcript evidence)) = fixture_id /\
  validate_transcript (vt_transcript evidence) contracts = Ok tt.

Lemma bounded_transcript_Ok path w content :
  read_bounded_transcript path w = Ok content ->
  fs_read path w = Ok content /\ (1 <= str_len content <= MAX_TRANSCRIPT_BYTES)%Z.
Proof.
  unfold read_bounded_transcript, context. intros (size & _ & Hr)%bind_Ok. apply guard_Ok in Hr as [Hbound Hr].
  apply bind_Ok in Hr as (found & Hread%map_err_Ok_iff & [Hlen%negb_false_iff [= <-]]%guard_Ok).
  apply orb_false_iff in Hbound as [Hzero Hmax]. split; [done|]. unfold str_len in *. lia.
Qed.

Lemma admit_transcript_Ok contracts actual directory fixture_id w file_name catalog evidence :
  (forall name path, actual !! name = Some path -> path = join_path directory name) ->
  file_name = transcript_file catalog ->
  admit_transcript contracts actual fixture_id w (file_name, catalog) = Ok evidence ->
  transcript_catalog evidence = catalog /\ admitted contracts directory fixture_id w evidence.
Proof.
  intros Hpaths -> Ha. unfold admit_transcript, context in Ha.
  apply bind_Ok in Ha as (path & Hpath%ok_or_Ok%Hpaths & Ha).
  apply bind_Ok in Ha as (content & [Hread Hbound]%bounded_transcript_Ok & Ha).
  apply bind_Ok in Ha as (transcript & Hdecode%map_err_Ok_iff & Ha).
  apply guard_Ok in Ha as [Hcatalog%negb_false_iff%String.eqb_eq Ha].
  apply guard_Ok in Ha as [Hfixture%negb_false_iff%String.eqb_eq Ha].
  apply bind_Ok in Ha as (canonical & Hencode%map_err_Ok_iff & Ha).
  apply guard_Ok in Ha as [->%negb_false_iff%String.eqb_eq Ha].
  apply check_Ok in Ha as [Hvalid%map_err_Ok_iff [= <-]].
  unfold admitted, transcript_catalog. cbn. rewrite Hcatalog. by subst path.
Qed.

(** What an admitted set consists of. *)
Definition complete_evidence (profile_path scenario_path directory fixture_id : string) (w : W)
    (evidence : ValidatedEngineEvidenceSet) : Prop :=
  fs_read profile_path w = Ok (ve_profile_bytes evidence) /\ fs_read scenario_path w = Ok (ve_scenario_bytes evidence) /\
  parse_contracts (ve_profile_bytes evidence) (ve_scenario_bytes evidence) = Ok (ve_contracts evidence) /\
  ve_transcripts evidence <> [] /\ NoDup (transcript_catalog <$> ve_transcripts evidence) /\
  transcript_catalog <$> ve_transcripts evidence ≡ₚ ad_catalog <$> prof_catalog_adapters (ecs_profile (ve_contracts evidence)) /\
  Forall (admitted (ve_contracts evidence) directory fixture_id w) (ve_transcripts evidence) /\
  exists names, regular_entries directory w names /\
    names ≡ₚ (transcript_file ∘ transcript_catalog) <$> ve_transcripts evidence.

Lemma keys_perm {V} (m : gmap string V) (l : list (string * V)) name : map_to_list m ≡ₚ l -> name ∈ l.*1 <-> name ∈ dom m.
Proof.
  intros Hperm. rewrite elem_of_dom. split.
  - intros ([k v] & -> & Hin)%list_elem_of_fmap. exists v. apply elem_of_map_to_list. by rewrite Hperm.
  - intros [v Hv]. apply list_elem_of_fmap. exists (name, v). split; [done|]. rewrite <-Hperm. by apply elem_of_map_to_list.
Qed.

Lemma NoDup_keys_perm {V} (m : gmap string V) (l : list (string * V)) : map_to_list m ≡ₚ l -> NoDup l.*1.
Proof. intros <-. apply NoDup_fst_map_to_list. Qed.

Lemma evidence_set_Ok profile_path scenario_path directory fixture_id w evidence :
  validate_engine_evidence_set profile_path scenario_path directory fixture_id w = Ok evidence ->
  complete_evidence profile_path scenario_path directory fixture_id w evidence.
Proof.
  unfold validate_engine_evidence_set, read_contract, context.
  intros (profile & Hprofile%map_err_Ok_iff & He)%bind_Ok. apply bind_Ok in He as (scenario & Hscenario%map_err_Ok_iff & He).
  apply bind_Ok in He as (contracts & Hcontracts%map_err_Ok_iff & He).
  apply bind_Ok in He as (expected & [Hexpected Hsome]%expected_files_Ok & He).
  apply bind_Ok in He as (actual & (names & Hregular & Hactual)%transcript_files_Ok & He).
  apply check_Ok in He as [Hset%exact_file_set_Ok He]. apply bind_Ok in He as (transcripts & Hadmit%collect_results_Ok & [= <-]).
  set (catalogs := ad_catalog <$> _) in Hexpected, Hsome.
  assert (Hpaths : forall name path, actual !! name = Some path -> path = join_path directory name).
  { intros name path Hname%elem_of_map_to_list. rewrite Hactual in Hname. by apply list_elem_of_fmap in Hname as (n & [= -> ->] & _). }
  assert (Hall : Forall2 (fun entry v => transcript_catalog v = entry.2 /\ admitted contracts directory fixture_id w v)
    (btree_entries String.compare expected) transcripts).
  { apply Forall2_same_length_lookup. split; [by eapply Forall2_length|]. intros i [name catalog] v Hi Hv.
    pose proof (Forall2_lookup_lr _ _ _ _ _ _ Hadmit Hi Hv) as Ha. eapply admit_transcript_Ok; [exact Hpaths| |exact Ha].
    apply list_elem_of_lookup_2, elem_of_btree_entries, elem_of_map_to_list in Hi. rewrite Hexpected in Hi.
    by apply list_elem_of_fmap in Hi as (c & [= -> ->] & _). }
  assert (Hcat : transcript_catalog <$> transcripts = (btree_entries String.compare expected).*2).
  { clear Hadmit. induction Hall as [|entry v l k [Hc _] _ IH]; [done|]. rewrite !fmap_cons. by f_equal. }
  assert (Hentries : btree_entries String.compare expected ≡ₚ (fun catalog => (transcript_file catalog, catalog)) <$> catalogs).
  { by rewrite btree_entries_perm. }
  assert (Hperm : transcript_catalog <$> transcripts ≡ₚ catalogs).
  { rewrite Hcat, Hentries, <-list_fmap_compose. apply reflexive_eq, list_fmap_id. }
  pose proof (NoDup_keys_perm _ _ Hexpected) as Hnames. rewrite <-list_fmap_compose in Hnames.
  unfold complete_evidence. cbn. split_and!; try done.
  - intros ->. rewrite fmap_nil in Hperm. by apply Permutation_nil_l in Hperm as <-.
  - rewrite Hperm. eapply NoDup_fmap_1. exact Hnames.
  - eapply Forall2_Forall_r; [exact Hall|]. by apply Forall_true; intros entry v [_ ?].
  - exists names. split; [done|]. rewrite (list_fmap_compose transcript_catalog transcript_file), Hperm. apply NoDup_Permutation.
    + pose proof (NoDup_keys_perm _ _ Hactual) as Hn. rewrite <-list_fmap_compose in Hn. by rewrite list_fmap_id in Hn.
    + exact Hnames.
    + intros name. pose proof (keys_perm _ _ name Hactual) as Ha. pose proof (keys_perm _ _ name Hexpected) as Hb.
      rewrite <-list_fmap_compose in Ha, Hb. rewrite list_fmap_id in Ha. rewrite Ha, <-Hset, <-Hb. done.
Qed.
End Evidence.

(** ** The review *)

Lemma review_order_Ok transcripts :
  validate_transcript_review_order transcripts = Ok tt ->
  transcripts <> [] /\ NoDup (rvt_catalog <$> transcripts) /\
  Forall (fun t => file_name (rsrc_location (rvt_source t)) = Some (transcript_file (rvt_catalog t))) transcripts.
Proof.
  unfold validate_transcript_review_order. intros [Hne Hfold]%guard_Ok. split; [by intros ->|].
  apply result_map_Ok in Hfold as (final & Hfold & _). clear Hne. generalize (@None ComponentId) Hfold. clear Hfold.
  assert (Hgen : forall previous, try_fold review_transcript previous transcripts = Ok final ->
    Forall (fun t => forall catalog, previous = Some catalog -> String.compare catalog (rvt_catalog t) = Lt) transcripts /\
    NoDup (rvt_catalog <$> transcripts) /\
    Forall (fun t => file_name (rsrc_location (rvt_source t)) = Some (transcript_file (rvt_catalog t))) transcripts).
  { induction transcripts as [|t l IH]; intros previous Hfold; [split_and!; constructor|]. cbn [try_fold] in Hfold.
    apply bind_Ok in Hfold as (next & Hstep & Hfold). unfold review_transcript in Hstep.
    apply guard_Ok in Hstep as [Horder Hstep]. apply check_Ok in Hstep as [_ Hstep]. cbv zeta in Hstep.
    apply guard_Ok in Hstep as [Hname%negb_false_iff%bool_decide_eq_true [= <-]].
    apply IH in Hfold as (Hlt & Hnd & Hnames). split_and!.
    - assert (Hhead : forall catalog, previous = Some catalog -> String.compare catalog (rvt_catalog t) = Lt).
      { intros catalog ->. cbn [is_some_and] in Horder. by destruct (String.compare catalog (rvt_catalog t)). }
      constructor; [done|]. eapply Forall_impl; [exact Hlt|]. cbn. intros u Hu catalog Hcatalog.
      apply (cmp_lt_trans String.compare _ (rvt_catalog t)); [by apply Hhead|]. by rewrite (Hu _ eq_refl).
    - rewrite fmap_cons. constructor; [|done]. intros (u & Heq & Hu)%list_elem_of_fmap.
      rewrite Forall_forall in Hlt. specialize (Hlt u Hu _ eq_refl). by rewrite Heq, cmp_refl in Hlt by apply _.
    - by constructor. }
  intros previous Hfold. by destruct (Hgen previous Hfold) as (_ & Hnd & Hnames).
Qed.

Section Reviewed.
Context {W : Type} `{FileTree W}.
Context `{UrlParser, UrlOps, ContractDecoders, EngineParametersDecoder, CanonicalEngineScenario, Ledger.Sha256}.
Context `{ObjectPaths, UuidParser, ValuesWriter, !Serialize EngineTranscript, !ToVecPretty EngineTranscript}.
Context `{TranscriptDecoder, ReviewDecoder}.

(** The identity a source states is that of these bytes. *)
Definition identifies (source : ReviewSource) (content : string) : Prop :=
  rsrc_bytes source = str_len content /\ rsrc_sha256 source = hash_text content.

Lemma source_bytes_Ok source content name : verify_source_bytes source content name = Ok tt <-> identifies source content.
Proof.
  unfold verify_source_bytes, identifies. cbv zeta.
  rewrite guard_Ok, orb_false_iff, !negb_false_iff, Z.eqb_eq, String.eqb_eq. tauto.
Qed.

(** A path that resolves below the repository root. *)
Definition within (root path : string) (w : W) : Prop :=
  exists canonical_root canonical, fs_canonicalize root w = Ok canonical_root /\ fs_canonicalize path w = Ok canonical /\
    is_Some (strip_parts (path_parts canonical_root) (path_parts canonical)).

Lemma within_Ok root canonical_root path name w :
  fs_canonicalize root w = Ok canonical_root -> require_within_repository canonical_root path name w = Ok tt -> within root path w.
Proof.
  unfold require_within_repository, context.
  intros Hroot (canonical & Hpath%map_err_Ok_iff & [Hin%negb_false_iff%bool_decide_eq_true _]%guard_Ok)%bind_Ok.
  by exists canonical_root, canonical.
Qed.

(** A run whose start, end and publication are in this order. *)
Definition strictly_ordered (review : EngineResultReview) : Prop :=
  exists started completed created,
    parse_utc_timestamp (err_started_at (er_run review)) "run started_at" = Ok started /\
    parse_utc_timestamp (err_completed_at (er_run review)) "run completed_at" = Ok completed /\
    parse_utc_timestamp (rb_created_at (er_bundle review)) "bundle created_at" = Ok created /\
    (instant started < instant completed < instant created)%Z.

Lemma at_least_instant value value' name name' t u :
  parse_utc_timestamp value name = Ok t -> parse_utc_timestamp value' name' = Ok u ->
  at_least t u = false -> (instant t < instant u)%Z.
Proof.
  intros [Ht _]%parsed_timestamp [Hu _]%parsed_timestamp. unfold at_least. rewrite timestamps_are_ordered by done.
  by destruct (Z.compare_spec (instant t) (instant u)).
Qed.

Lemma review_shape_Ok review :
  validate_review_shape review = Ok tt ->
  strictly_ordered review /\ validate_transcript_review_order (er_transcripts review) = Ok tt /\
  validate (er_environment review) = Ok tt /\ red_reviewed (er_redaction review) = true /\
  red_removed_fields (er_redaction review) <> [].
Proof.
  unfold validate_review_shape. intros [_ Hs]%guard_Ok.
  apply check_Ok in Hs as [_ Hs]. apply check_Ok in Hs as [_ Hs]. apply check_Ok in Hs as [_ Hs].
  apply check_Ok in Hs as [_ Hs]. apply check_Ok in Hs as [_ Hs]. apply check_Ok in Hs as [_ Hs].
  apply bind_Ok in Hs as (created & Hcreated & Hs). apply bind_Ok in Hs as (started & Hstarted & Hs).
  apply bind_Ok in Hs as (completed & Hcompleted & Hs). apply guard_Ok in Hs as [[Hsc Hcc]%orb_false_iff Hs].
  apply check_Ok in Hs as [_ Hs]. apply check_Ok in Hs as [_ Hs]. apply check_Ok in Hs as [Horder Hs].
  apply check_Ok in Hs as [Henv%map_err_Ok_iff Hs]. apply guard_Ok in Hs as [Hreviewed%negb_false_iff Hs].
  apply check_Ok in Hs as [_ Hs]. apply guard_Ok in Hs as [Hfields _]. split_and!; try done.
  - exists started, completed, created. split_and!; try done; by eapply at_least_instant.
  - by intros Hnil; rewrite Hnil in Hfields.
Qed.

(** The source of a reviewed transcript is the admitted file. *)
Definition reviewed_as (root : string) (reviewed : ReviewedTranscript) (evidence : ValidatedEngineTranscript) : Prop :=
  rvt_catalog reviewed = transcript_catalog evidence /\ identifies (rvt_source reviewed) (vt_bytes evidence) /\
  path_parts (vt_path evidence) = path_parts (join_path root (rsrc_location (rvt_source reviewed))).

Lemma resolve_source_Ok root source name path :
  resolve_source root source name = Ok path -> path = join_path root (rsrc_location source).
Proof.
  unfold resolve_source, relative_path. intros (relative & Hr & [= <-])%bind_Ok.
  apply check_Ok in Hr as [_ Hr]. apply guard_Ok in Hr as [_ Hr]. by apply guard_Ok in Hr as [_ [= <-]].
Qed.

Lemma transcript_source_Ok root table evidence :
  verify_transcript_source root (index_by rvt_catalog table) evidence = Ok tt ->
  exists reviewed, reviewed ∈ table /\ reviewed_as root reviewed evidence.
Proof.
  unfold verify_transcript_source. cbv zeta.
  intros (reviewed & [Hin Hcatalog]%ok_or_Ok%index_by_Some & Hv)%bind_Ok.
  apply bind_Ok in Hv as (path & ->%resolve_source_Ok & Hv).
  apply guard_Ok in Hv as [Hpath%negb_false_iff%bool_decide_eq_true Hsource%source_bytes_Ok].
  by exists reviewed.
Qed.

(** Two lists without duplicates, one inside the other and not shorter, are
    permutations. *)
Lemma covering_perm {A} (l k : list A) : NoDup l -> NoDup k -> (forall a, a ∈ l -> a ∈ k) -> (length k <= length l)%nat -> l ≡ₚ k.
Proof. intros Hl Hk Hin Hlen. apply submseteq_length_Permutation; [|done]. by apply NoDup_submseteq. Qed.

Lemma size_index_by {A} (key : A -> string) (l : list A) : NoDup (key <$> l) -> size (index_by key l) = length l.
Proof.
  intros Hnd. unfold index_by. rewrite <-(Nat.add_0_r (length l)), <-(map_size_empty (M := gmap string) (A := A)).
  assert (Hfresh : forall a, a ∈ l -> (∅ : gmap string A) !! key a = None) by by intros.
  revert Hfresh. generalize (∅ : gmap string A) as m. induction l as [|a l IH]; intros m Hfresh; [done|].
  rewrite fmap_cons in Hnd. apply NoDup_cons in Hnd as [Hnew Hnd]. cbn [foldl length]. rewrite IH; [|done|].
  - rewrite map_size_insert_None by (apply Hfresh; by left). lia.
  - intros b Hb. rewrite lookup_insert_ne; [apply Hfresh; by right|]. intros Heq. apply Hnew.
    apply list_elem_of_fmap. by exists b.
Qed.

Lemma transcript_sources_Ok root table evidence :
  NoDup (rvt_catalog <$> table) -> NoDup (transcript_catalog <$> ve_transcripts evidence) ->
  verify_transcript_sources root table evidence = Ok tt ->
  rvt_catalog <$> table ≡ₚ transcript_catalog <$> ve_transcripts evidence /\
  Forall (fun v => exists reviewed, reviewed ∈ table /\ reviewed_as root reviewed v) (ve_transcripts evidence).
Proof.
  intros Htable Hev. unfold verify_transcript_sources. cbv zeta.
  intros [Hsize%negb_false_iff Hall%check_all_Ok]%guard_Ok. rewrite size_index_by in Hsize by done.
  assert (Hsources : Forall (fun v => exists reviewed, reviewed ∈ table /\ reviewed_as root reviewed v) (ve_transcripts evidence)).
  { eapply Forall_impl; [exact Hall|]. intros v. apply transcript_source_Ok. }
  split; [|done]. symmetry. apply covering_perm; [done|done| |].
  - intros catalog (v & -> & Hv)%list_elem_of_fmap. rewrite Forall_forall in Hsources.
    destruct (Hsources v Hv) as (reviewed & Hin & <- & _). apply list_elem_of_fmap. by exists reviewed.
  - rewrite !length_fmap. unfold len in Hsize. lia.
Qed.

(** The invocation of the engine's own launcher with the fixture, in quotes. *)
Definition launched_as (review : EngineResultReview) (evidence : ValidatedEngineTranscript) : Prop :=
  exists launcher, canonical_interoperability_launcher (etc_name (ets_engine (et_components (vt_transcript evidence)))) = Ok launcher /\
    err_sanitized_invocation (er_run review) = launcher +:+ " " +:+ quote +:+ err_fixture_id (er_run review) +:+ quote.

Lemma verify_evidence_Ok root review evidence :
  verify_evidence root review evidence = Some (Ok tt) ->
  (exists first, head (ve_transcripts evidence) = Some first /\ launched_as review first) /\
  identifies (er_profile review) (ve_profile_bytes evidence) /\ identifies (er_scenario review) (ve_scenario_bytes evidence) /\
  verify_transcript_sources root (er_transcripts review) evidence = Ok tt.
Proof.
  unfold verify_evidence, validate_reviewed_invocation.
  destruct (head (ve_transcripts evidence)) as [first|]; [|done]. cbn [mbind option_bind]. intros [= Hv].
  apply check_Ok in Hv as [Hlaunch Hv]. apply check_Ok in Hv as [Hprofile%source_bytes_Ok Hv].
  apply check_Ok in Hv as [Hscenario%source_bytes_Ok Hv]. apply check_Ok in Hv as [Htranscripts _]. split_and!; try done.
  exists first. split; [done|]. apply bind_Ok in Hlaunch as (launcher & Hlauncher & Hl). cbv zeta in Hl.
  apply guard_Ok in Hl as [Hsame%negb_false_iff%String.eqb_eq _]. by exists launcher.
Qed.

(** What a valid review has been checked against. *)
Lemma review_Ok root path w v :
  validate_engine_result_review root path w = Some (Ok v) ->
  let review := vrev_review v in
  let evidence := vrev_evidence v in
  strictly_ordered review /\ validate (er_environment review) = Ok tt /\ red_reviewed (er_redaction review) = true /\
  (exists directory,
    let profile_path := join_path root (rsrc_location (er_profile review)) in
    let scenario_path := join_path root (rsrc_location (er_scenario review)) in
    within root profile_path w /\ within root scenario_path w /\ within root directory w /\
    complete_evidence profile_path scenario_path directory (err_fixture_id (er_run review)) w evidence) /\
  identifies (er_profile review) (ve_profile_bytes evidence) /\ identifies (er_scenario review) (ve_scenario_bytes evidence) /\
  rvt_catalog <$> er_transcripts review ≡ₚ transcript_catalog <$> ve_transcripts evidence /\
  Forall (fun t => exists reviewed, reviewed ∈ er_transcripts review /\ reviewed_as root reviewed t) (ve_transcripts evidence) /\
  exists first, head (ve_transcripts evidence) = Some first /\ launched_as review first.
Proof.
  unfold validate_engine_result_review, context. cbv zeta. set (review_path := if starts_with "/" path then _ else _).
  match goal with |- match ?r with Ok _ => _ | Err _ => _ end = _ -> _ => destruct r as [[[content review] evidence]|] eqn:Hr end;
    [|done].
  apply bind_Ok in Hr as (found & _ & Hr). apply bind_Ok in Hr as (decoded & _ & Hr). apply guard_Ok in Hr as [_ Hr].
  apply check_Ok in Hr as [(Hordered & Horder & Henv & Hreviewed & _)%review_shape_Ok Hr].
  apply bind_Ok in Hr as (canonical_root & Hroot%map_err_Ok_iff & Hr).
  apply bind_Ok in Hr as (profile_path & ->%resolve_source_Ok & Hr).
  apply bind_Ok in Hr as (scenario_path & ->%resolve_source_Ok & Hr). apply bind_Ok in Hr as (directory & _ & Hr).
  apply check_Ok in Hr as [Hp%(within_Ok _ _ _ _ _ Hroot) Hr]. apply check_Ok in Hr as [Hs%(within_Ok _ _ _ _ _ Hroot) Hr].
  apply check_Ok in Hr as [Hd%(within_Ok _ _ _ _ _ Hroot) Hr].
  apply bind_Ok in Hr as (set & Hset%evidence_set_Ok & [= <- <- <-]).
  destruct (verify_evidence root decoded set) as [[[]|]|] eqn:Hverify; [|done..]. intros [= <-]. cbn.
  apply verify_evidence_Ok in Hverify as (Hlaunch & Hprofile & Hscenario & Htranscripts).
  pose proof Hset as (_ & _ & _ & _ & Hnd & _). apply review_order_Ok in Horder as (_ & Hunique & _).
  apply transcript_sources_Ok in Htranscripts as [Hperm Hsources]; [|done|done].
  split_and!; try done. by exists directory.
Qed.

(** C37: a valid review is bound to everything it reviewed: the run started,
    ended and was published in this order of instants; profile, scenario and evidence
    directory resolve inside the repository; the evidence is complete (exactly one
    regular file per catalog of the profile, each bounded, canonically encoded, for the
    reviewed fixture and valid against the parsed contracts); the bytes of the profile,
    of the scenario and of every transcript have the length and the digest the review
    states; it lists exactly the admitted catalogs; and the recorded invocation is the
    launcher of the engine that ran, with the fixture. *)
Theorem valid_review_is_bound root path w v :
  validate_engine_result_review root path w = Some (Ok v) ->
  let review := vrev_review v in
  let evidence := vrev_evidence v in
  strictly_ordered review /\ validate (er_environment review) = Ok tt /\ red_reviewed (er_redaction review) = true /\
  (exists directory,
    let profile_path := join_path root (rsrc_location (er_profile review)) in
    let scenario_path := join_path root (rsrc_location (er_scenario review)) in
    within root profile_path w /\ within root scenario_path w /\ within root directory w /\
    complete_evidence profile_path scenario_path directory (err_fixture_id (er_run review)) w evidence) /\
  identifies (er_profile review) (ve_profile_bytes evidence) /\ identifies (er_scenario review) (ve_scenario_bytes evidence) /\
  rvt_catalog <$> er_transcripts review ≡ₚ transcript_catalog <$> ve_transcripts evidence /\
  Forall (fun t => exists reviewed, reviewed ∈ er_transcripts review /\ reviewed_as root reviewed t) (ve_transcripts evidence) /\
  exists first, head (ve_transcripts evidence) = Some first /\ launched_as review first.
Proof. apply review_Ok. Qed.

Lemma review_total root path w : exists outcome, validate_engine_result_review root path w = Some outcome.
Proof.
  unfold validate_engine_result_review, context. cbv zeta. set (review_path := if starts_with "/" path then _ else _).
  match goal with |- exists _, match ?r with Ok _ => _ | Err _ => _ end = _ => destruct r as [[[content review] evidence]|] eqn:Hr end;
    [|by eexists].
  apply bind_Ok in Hr as (found & _ & Hr). apply bind_Ok in Hr as (decoded & _ & Hr). apply guard_Ok in Hr as [_ Hr].
  apply check_Ok in Hr as [_ Hr]. apply bind_Ok in Hr as (canonical_root & _ & Hr).
  apply bind_Ok in Hr as (profile_path & _ & Hr). apply bind_Ok in Hr as (scenario_path & _ & Hr).
  apply bind_Ok in Hr as (directory & _ & Hr). apply check_Ok in Hr as [_ Hr]. apply check_Ok in Hr as [_ Hr].
  apply check_Ok in Hr as [_ Hr]. apply bind_Ok in Hr as (set & Hset%evidence_set_Ok & [= <- <- <-]).
  destruct Hset as (_ & _ & _ & Hsome & _). unfold verify_evidence, validate_reviewed_invocation.
  destruct (ve_transcripts set); [done|]. cbn. by eexists.
Qed.

(** Checking a review never panics: the one index the code takes,
    of the first admitted transcript, is in range, because an admitted set has one
    transcript per adapter of the profile and the profile has an adapter. *)
Theorem review_never_panics root path w : exists outcome, validate_engine_result_review root path w = Some outcome.
Proof. apply review_total. Qed.
End Reviewed.
