(* ===== verification/ProfileMaterialization.v ===== *)
(** * Materialized scenario profiles (crates/contract-tool/src/profile_materialization.rs)

    A broad draft profile is narrowed to the components a policy selects, and
    the artifacts of its images are replaced by audited observations. *)

From S2P Require Import Prelude Order RustStr Json ContractValue ContractScenario ContractAdapter ContractProfile.
From S2P Require Import ContractResult ContractDocument Ledger Policy Capture EnginePlan ToolFiles Publication Bundle.
From Stdlib Require Import Ascii.
Open Scope string_scope.

(** ** Policies *)

Record ArtifactPolicy := { ap_location : string; ap_media_type : string }.

Record ArtifactCopyPolicy := {
  acp_source_component : string;
  acp_source_location : string;
  acp_destination_component : string;
  acp_destination_location : string;
}.

Record BuildExtensionLabelPolicy := { blp_label : string; blp_extension : string; blp_field : string }.
Record RequiredLabelPolicy := { rlp_label : string; rlp_value : string }.

Record ImagePolicy := {
  ip_component : string;
  ip_compose_service : string;
  ip_required_artifacts : list ArtifactPolicy;
  ip_required_labels : list RequiredLabelPolicy;
  ip_build_extension_label : option BuildExtensionLabelPolicy;
}.

Record ScenarioProfilePolicy := {
  spp_name : string;
  spp_materialization_format : string;
  spp_scope : string;
  spp_purpose : ProfilePurpose;
  spp_selected_components : list string;
  spp_images : list ImagePolicy;
  spp_artifact_copies : list ArtifactCopyPolicy;
}.

#[export] Instance ArtifactCopyPolicy_eq_dec : EqDecision ArtifactCopyPolicy.
Proof. solve_decision. Defined.

(** ** Observations *)

Record SourceProfileObservation := { spo_id : ProfileId; spo_digest : Digest }.
Record OutputProfile := { op_id : ProfileId; op_title : string; op_description : string; op_resolved_at : string }.

Record ImageObservation := {
  io_component : ComponentId;
  io_reference : string;
  io_image_id : Digest;
  io_operating_system : string;
  io_architecture : string;
  io_labels : gmap string string;
  io_embedded_artifacts : list ArtifactReference;
}.

Record ScenarioProfileMaterialization := {
  spm_format : string;
  spm_source_profile : SourceProfileObservation;
  spm_output_profile : OutputProfile;
  spm_images : list ImageObservation;
}.

(** [serde_json::from_slice] of a materialization: derived code. *)
Class MaterializationDecoder := decode_materialization : string -> result ScenarioProfileMaterialization string.

(** ** Checking a policy *)

(** [ValidatedPolicy]: the selected components and those with images. *)
Record ValidatedPolicy := { vpol_selected_components : gset string; vpol_image_components : gset string }.

(** [for (field, value) in ..]: the first blank value's error. *)
Definition require_fields (message : string -> string) (fields : list (string * string)) : result unit Chain :=
  check_all (fun field => guard blank field.2 or [message field.1] in Ok tt) fields.

(** A collected set that is smaller than its list. *)
Definition has_duplicates (l : list string) : bool :=
  negb (size (list_to_set l : gset string) =? length l)%nat.

Definition validate_image_policy (policy : ScenarioProfilePolicy) (selected : gset string) (image : ImagePolicy)
  : result unit Chain :=
  guard blank (ip_component image) or [spp_name policy +:+ " policy contains an empty image component"] in
  guard blank (ip_compose_service image) or [ip_component image +:+ " image policy has an empty Compose service"] in
  guard negb (bool_decide (ip_component image ∈ selected))
    or [spp_name policy +:+ " image policy targets unselected component `" +:+ ip_component image +:+ "`"] in
  guard has_duplicates (ap_location <$> ip_required_artifacts image)
    or [ip_component image +:+ " image policy contains duplicate required artifact locations"] in
  check? check_all (fun artifact =>
    guard blank (ap_location artifact) || blank (ap_media_type artifact)
      or [ip_component image +:+ " image policy artifact location and media type must not be empty"] in
    Ok tt) (ip_required_artifacts image) in
  guard has_duplicates (rlp_label <$> ip_required_labels image)
    or [ip_component image +:+ " image policy contains duplicate required labels"] in
  check? check_all (fun label =>
    guard blank (rlp_label label) || blank (rlp_value label)
      or [ip_component image +:+ " required image-label name and value must not be empty"] in
    Ok tt) (ip_required_labels image) in
  guard is_some_and (fun label => existsb blank [blp_label label; blp_extension label; blp_field label])
          (ip_build_extension_label image)
    or [ip_component image +:+ " build-extension label policy fields must not be empty"] in
  Ok tt.

(** The image of a component and its required artifact, on one side of a copy. *)
Definition validate_copy_side (policy : ScenarioProfilePolicy) (direction component location : string) : result unit Chain :=
  let? image := ok_or (find (fun image => ip_component image =? component) (spp_images policy))
    [spp_name policy +:+ " artifact-copy " +:+ direction +:+ " component `" +:+ component +:+ "` is not a materialized image"] in
  guard negb (existsb (fun artifact => ap_location artifact =? location) (ip_required_artifacts image))
    or [spp_name policy +:+ " artifact-copy " +:+ direction +:+ " `" +:+ component +:+ "` location `" +:+ location
        +:+ "` is not a required artifact"] in
  Ok tt.

Definition validate_copy_policy (policy : ScenarioProfilePolicy) (copy : ArtifactCopyPolicy) : result unit Chain :=
  check? require_fields (fun field => spp_name policy +:+ " artifact-copy " +:+ field +:+ " must not be empty")
    [("source component", acp_source_component copy); ("source location", acp_source_location copy);
     ("destination component", acp_destination_component copy); ("destination location", acp_destination_location copy)] in
  check? validate_copy_side policy "source" (acp_source_component copy) (acp_source_location copy) in
  validate_copy_side policy "destination" (acp_destination_component copy) (acp_destination_location copy).

Definition validate_policy (policy : ScenarioProfilePolicy) : result ValidatedPolicy Chain :=
  check? require_fields (fun field => "scenario profile policy " +:+ field +:+ " must not be empty")
    [("name", spp_name policy); ("materialization format", spp_materialization_format policy); ("scope", spp_scope policy)] in
  guard match spp_selected_components policy with [] => true | _ => false end
    or [spp_name policy +:+ " policy must select at least one component"] in
  guard match spp_images policy with [] => true | _ => false end
    or [spp_name policy +:+ " policy must materialize at least one image"] in
  guard has_duplicates (spp_selected_components policy)
    or [spp_name policy +:+ " policy contains duplicate selected components"] in
  guard has_duplicates (ip_component <$> spp_images policy)
    or [spp_name policy +:+ " policy contains duplicate image components"] in
  let selected : gset string := list_to_set (spp_selected_components policy) in
  check? check_all (validate_image_policy policy selected) (spp_images policy) in
  guard negb (length (remove_dups (spp_artifact_copies policy)) =? length (spp_artifact_copies policy))%nat
    or [spp_name policy +:+ " policy contains duplicate artifact copies"] in
  check? check_all (validate_copy_policy policy) (spp_artifact_copies policy) in
  Ok {| vpol_selected_components := selected; vpol_image_components := list_to_set (ip_component <$> spp_images policy) |}.

(** ** Checking observations *)

Definition require_sha256 (digest : Digest) (field : string) : result unit Chain :=
  guard negb (str_len (digest_value digest) =? 64)%Z || negb (all_bytes is_ascii_hexdigit (digest_value digest))
    or [field +:+ " must be a 64-character SHA-256 digest"] in
  Ok tt.

Definition docker_architecture (profile_architecture : string) : result string Chain :=
  if profile_architecture =? "aarch64" then Ok "arm64"
  else if profile_architecture =? "x86_64" then Ok "amd64"
  else if existsb (String.eqb profile_architecture) ["armv7"; "armv7l"] then Ok "arm"
  else if existsb (String.eqb profile_architecture) ["amd64"; "arm64"; "arm"; "ppc64le"; "s390x"; "riscv64"]
  then Ok profile_architecture
  else Err ["unsupported Docker architecture mapping for `" +:+ profile_architecture +:+ "`"].

Definition image_label (image : ImageObservation) (name : string) : result string Chain :=
  ok_or (io_labels image !! name) ["image `" +:+ io_component image +:+ "` omits label `" +:+ name +:+ "`"].

Definition require_label (image : ImageObservation) (name expected : string) : result unit Chain :=
  let? actual := image_label image name in
  guard negb (actual =? expected)
    or ["image `" +:+ io_component image +:+ "` label `" +:+ name +:+ "` is `" +:+ actual +:+ "`, expected `" +:+ expected
        +:+ "`"] in
  Ok tt.

Definition require_non_empty_label (image : ImageObservation) (name : string) : result string Chain :=
  let? value := image_label image name in
  guard blank value or ["image `" +:+ io_component image +:+ "` label `" +:+ name +:+ "` must not be empty"] in
  Ok value.

(** The string field of a build extension. *)
Definition build_extension_field (component : Component) (policy : BuildExtensionLabelPolicy) : option string :=
  build ← comp_build component; extension ← build_extensions build !! blp_extension policy;
  field ← get_key (blp_field policy) extension; as_str field.

Definition validate_required_artifact (component : Component) (artifacts : gmap string ArtifactReference)
    (policy : ArtifactPolicy) : result unit Chain :=
  let? artifact := ok_or (artifacts !! ap_location policy)
    ["image `" +:+ comp_id component +:+ "` omits required artifact `" +:+ ap_location policy +:+ "`"] in
  check? require_sha256 (artifact_digest artifact) "embedded artifact digest" in
  guard negb (artifact_media_type artifact =? ap_media_type policy)
    or ["embedded artifact `" +:+ ap_location policy +:+ "` must use media type `" +:+ ap_media_type policy +:+ "`"] in
  guard match artifact_bytes artifact with Some n => (n =? 0)%Z | None => true end
    or ["embedded artifact `" +:+ ap_location policy +:+ "` must record a positive byte size"] in
  Ok tt.

Definition validate_image (profile : Profile) (component : Component) (image : ImageObservation) (policy : ImagePolicy)
  : result unit Chain :=
  guard blank (io_reference image) or ["image reference for `" +:+ comp_id component +:+ "` must not be empty"] in
  check? require_sha256 (io_image_id image) "local image ID" in
  let platform := prof_platform profile in
  let mismatch := ["image `" +:+ comp_id component +:+ "` runtime " +:+ io_operating_system image +:+ "/"
    +:+ io_architecture image +:+ " does not match profile " +:+ plat_operating_system platform +:+ "/"
    +:+ plat_architecture platform] in
  guard negb (io_operating_system image =? to_ascii_lowercase (plat_operating_system platform)) or mismatch in
  let? architecture := docker_architecture (plat_architecture platform) in
  guard negb (io_architecture image =? architecture) or mismatch in
  check? require_label image "com.docker.compose.project" "catalog-bench" in
  check? require_label image "com.docker.compose.service" (ip_compose_service policy) in
  let? _ := require_non_empty_label image "com.docker.compose.version" in
  let? source := ok_or (comp_source component) ["component `" +:+ comp_id component +:+ "` has no source revision"] in
  check? require_label image "org.opencontainers.image.revision" (source_revision source) in
  check? check_all (fun label => require_label image (rlp_label label) (rlp_value label)) (ip_required_labels policy) in
  check? match ip_build_extension_label policy with
         | None => Ok tt
         | Some label_policy =>
             let? helper_revision := ok_or (build_extension_field component label_policy)
               ["component `" +:+ comp_id component +:+ "` build extension `" +:+ blp_extension label_policy
                +:+ "` omits string field `" +:+ blp_field label_policy +:+ "`"] in
             require_label image (blp_label label_policy) helper_revision
         end in
  let artifacts := index_by artifact_location (io_embedded_artifacts image) in
  guard negb (size artifacts =? length (io_embedded_artifacts image))%nat
    or ["image `" +:+ comp_id component +:+ "` contains duplicate artifact locations"] in
  check_all (validate_required_artifact component artifacts) (ip_required_artifacts policy).

Definition observed_artifact (observations : gmap string ImageObservation) (component location : string)
  : result ArtifactReference Chain :=
  let? image := ok_or (observations !! component) ["materialization omits `" +:+ component +:+ "`"] in
  ok_or (find (fun artifact => artifact_location artifact =? location) (io_embedded_artifacts image))
    ["image `" +:+ component +:+ "` omits required artifact `" +:+ location +:+ "`"].

(** The loop of [validate_artifact_copies]. *)
Definition validate_artifact_copy (observations : gmap string ImageObservation) (copy : ArtifactCopyPolicy)
  : result unit Chain :=
  let? source := observed_artifact observations (acp_source_component copy) (acp_source_location copy) in
  let? destination := observed_artifact observations (acp_destination_component copy) (acp_destination_location copy) in
  guard negb (bool_decide (artifact_digest source = artifact_digest destination))
        || negb (bool_decide (artifact_bytes source = artifact_bytes destination))
        || negb (artifact_media_type source =? artifact_media_type destination)
    or ["artifact copied from `" +:+ acp_source_component copy +:+ "` `" +:+ acp_source_location copy +:+ "` to `"
        +:+ acp_destination_component copy +:+ "` `" +:+ acp_destination_location copy +:+ "` must be byte-identical"] in
  Ok tt.

Definition validate_artifact_copies (observations : gmap string ImageObservation) (policy : ScenarioProfilePolicy)
  : result unit Chain :=
  check_all (validate_artifact_copy observations) (spp_artifact_copies policy).

Definition require_consistent_compose_version (images : list ImageObservation) (profile_name : string) : result unit Chain :=
  match images with
  | [] => Err [profile_name +:+ " materialization contains no image observations"]
  | first :: rest =>
      let? expected := require_non_empty_label first "com.docker.compose.version" in
      check_all (fun image =>
        let? version := require_non_empty_label image "com.docker.compose.version" in
        guard negb (version =? expected)
          or ["all materialized images must use one Docker Compose version; found `" +:+ expected +:+ "` and `" +:+ version
              +:+ "`"] in
        Ok tt) rest
  end.

(** One turn of the loop that collects the observations. *)
Definition observe_image (observed : gmap string ImageObservation) (image : ImageObservation)
  : result (gmap string ImageObservation) Chain :=
  guard bool_decide (is_Some (observed !! io_component image))
    or ["duplicate image observation for `" +:+ io_component image +:+ "`"] in
  Ok (<[io_component image := image]> observed).

(** ** Rendering *)

Section Materialization.
Context `{UrlParser, ContractDecoders, Ledger.Sha256, MaterializationDecoder, !ToVecPretty Profile}.

Definition decode_profile (bytes : string) : result Profile Chain :=
  let? document := map_err (fun e => "invalid source profile" :: parse_error_chain e) (parse_contract bytes) in
  match document with
  | ProfileDocument profile => Ok profile
  | document => Err ["source document is " +:+ document_kind_name (document_kind document) +:+ ", not a profile"]
  end.

(** Every policy image against its component and its observation. *)
Definition validate_policy_image (profile : Profile) (components : gmap string Component)
    (observed : gmap string ImageObservation) (image_policy : ImagePolicy) : result unit Chain :=
  let component_id := ip_component image_policy in
  let? component := ok_or (components !! component_id) ["source profile omits `" +:+ component_id +:+ "`"] in
  let? image := ok_or (observed !! component_id) ["materialization omits `" +:+ component_id +:+ "`"] in
  validate_image profile component image image_policy.

Definition validate_materialization (profile : Profile) (source_profile_bytes : string)
    (materialization : ScenarioProfileMaterialization) (policy : ScenarioProfilePolicy) (validated : ValidatedPolicy)
  : result unit Chain :=
  guard negb (spm_format materialization =? spp_materialization_format policy)
    or ["unsupported materialization format `" +:+ spm_format materialization +:+ "`"] in
  guard negb (spo_id (spm_source_profile materialization) =? prof_id profile)
    or ["materialization source profile ID does not match the input profile"] in
  guard op_id (spm_output_profile materialization) =? prof_id profile
    or ["materialized profile ID must differ from the source profile ID"] in
  check? require_sha256 (spo_digest (spm_source_profile materialization)) "source profile digest" in
  let source_digest := hash_text source_profile_bytes in
  guard negb (digest_value (spo_digest (spm_source_profile materialization)) =? source_digest)
    or ["source profile digest mismatch: expected " +:+ digest_value (spo_digest (spm_source_profile materialization))
        +:+ ", got " +:+ source_digest] in
  check? require_fields (fun field => field +:+ " must not be empty")
    [("output profile title", op_title (spm_output_profile materialization));
     ("output profile description", op_description (spm_output_profile materialization));
     ("output profile resolved_at", op_resolved_at (spm_output_profile materialization))] in
  let components := index_by comp_id (prof_components profile) in
  check? check_all (fun id =>
    guard negb (bool_decide (is_Some (components !! id)))
      or ["source profile omits required " +:+ spp_name policy +:+ " component `" +:+ id +:+ "`"] in
    Ok tt) (btree_elements String.compare (vpol_selected_components validated)) in
  let? observed := try_fold observe_image ∅ (spm_images materialization) in
  guard negb (bool_decide (dom observed = vpol_image_components validated))
    or ["image observations must be exactly: "
        +:+ String.concat ", " (btree_elements String.compare (vpol_image_components validated))] in
  check? check_all (validate_policy_image profile components observed) (spp_images policy) in
  check? validate_artifact_copies observed policy in
  require_consistent_compose_version (spm_images materialization) (spp_name policy).

(** [serde_json::to_value] of a digest and of labels. *)
Definition digest_json (digest : Digest) : Value :=
  json_object [("algorithm", Str (match digest_algorithm digest with ContractValue.Sha256 => "sha256" end));
               ("value", Str (digest_value digest))].
Definition labels_json (labels : gmap string string) : Value :=
  Object ((fun label : string * string => (label.1, Str label.2)) <$> btree_entries String.compare labels).

(** The component with its observed artifact, when its image was observed. *)
Definition materialize_component (observations : gmap string ImageObservation) (component : Component) : Component :=
  match observations !! comp_id component with
  | None => component
  | Some observation => {|
      comp_id := comp_id component; comp_kind := comp_kind component; comp_name := comp_name component;
      comp_version := comp_version component; comp_source := comp_source component; comp_build := comp_build component;
      comp_artifact := ContainerImage (io_reference observation) LocalImage (io_image_id observation) None
                         (io_embedded_artifacts observation);
      comp_extensions := <["querygraph/materialized-image-observation" :=
        json_object [("operating_system", Str (io_operating_system observation));
                     ("architecture", Str (io_architecture observation)); ("labels", labels_json (io_labels observation))]]>
        (comp_extensions component) |}
  end.

(** [retain]: the elements whose component is selected. *)
Definition retain {A} (selected : gset string) (key : A -> string) (l : list A) : list A :=
  List.filter (fun a => bool_decide (key a ∈ selected)) l.

(** The derived profile. *)
Definition materialized_profile (profile : Profile) (materialization_bytes : string)
    (materialization : ScenarioProfileMaterialization) (policy : ScenarioProfilePolicy) (validated : ValidatedPolicy)
  : Profile :=
  let selected := vpol_selected_components validated in
  let observations := index_by io_component (spm_images materialization) in
  let output := spm_output_profile materialization in
  let source := spm_source_profile materialization in {|
    prof_contract_version := prof_contract_version profile; prof_kind := prof_kind profile;
    prof_id := op_id output; prof_title := op_title output; prof_description := op_description output;
    prof_resolved_at := op_resolved_at output; prof_purpose := spp_purpose policy; prof_readiness := Runnable;
    prof_platform := prof_platform profile;
    prof_components := materialize_component observations <$> retain selected comp_id (prof_components profile);
    prof_services := retain selected svc_component (prof_services profile);
    prof_catalog_capabilities := prof_catalog_capabilities profile;
    prof_catalog_adapters := retain selected ad_catalog (prof_catalog_adapters profile);
    prof_extensions :=
      <["querygraph/materialization" :=
          json_object [("format", Str (spp_materialization_format policy)); ("scope", Str (spp_scope policy));
            ("source_profile", json_object [("id", Str (spo_id source)); ("digest", digest_json (spo_digest source))]);
            ("observation_sha256", Str (hash_text materialization_bytes))]]>
      (<["querygraph/profile-state" :=
          Str "Runnable scenario-scoped profile; every selected runtime artifact has an immutable identity."]>
        (prof_extensions profile)) |}.

Definition render_scenario_profile (source_profile_bytes materialization_bytes : string) (policy : ScenarioProfilePolicy)
  : result string Chain :=
  let? validated := validate_policy policy in
  let? profile := decode_profile source_profile_bytes in
  let? materialization := context ("invalid " +:+ spp_name policy +:+ " profile materialization")
                            (decode_materialization materialization_bytes) in
  check? validate_materialization profile source_profile_bytes materialization policy validated in
  let profile := materialized_profile profile materialization_bytes materialization policy validated in
  check? map_err (fun errors => ["materialized " +:+ spp_name policy +:+ " profile is invalid"; display_issues errors])
           (validate profile) in
  pretty_json profile.

(** ** Files *)

Context {W : Type} `{FileTree W}.

Definition render_from_paths (source_profile materialization : string) (policy : ScenarioProfilePolicy) (w : W)
  : result string Chain :=
  let? source_profile_bytes := context ("failed to read " +:+ source_profile) (fs_read source_profile w) in
  let? materialization_bytes := context ("failed to read " +:+ materialization) (fs_read materialization w) in
  render_scenario_profile source_profile_bytes materialization_bytes policy.

(** The directory of the output is created when it is named. *)
Definition create_parent (output : string) (w : W) : result unit Chain * W :=
  match parent_path output with
  | Some parent =>
      if is_empty parent then (Ok tt, w)
      else let '(created, w) := fs_create_dir_all parent w in (context ("failed to create " +:+ parent) created, w)
  | None => (Ok tt, w)
  end.

Definition write_scenario_profile (source_profile materialization output : string) (policy : ScenarioProfilePolicy) (w : W)
  : result unit Chain * W :=
  match render_from_paths source_profile materialization policy w with
  | Err e => (Err e, w)
  | Ok rendered =>
      match create_parent output w with
      | (Err e, w) => (Err e, w)
      | (Ok _, w) => let '(written, w) := fs_write output rendered w in (context ("failed to write " +:+ output) written, w)
      end
  end.

Definition check_scenario_profile (source_profile materialization output : string) (policy : ScenarioProfilePolicy)
    (write_command : string) (w : W) : result unit Chain :=
  let? expected := render_from_paths source_profile materialization policy w in
  let? actual := context ("failed to read " +:+ output) (fs_read output w) in
  guard negb (actual =? expected) or [output +:+ " is stale; rerun `" +:+ write_command +:+ "`"] in
  Ok tt.
End Materialization.
