(* ===== verification/ProfileMaterializationProofs.v ===== *)
(** * The shipped profile policies
      (crates/contract-tool/src/profile_runtime_policy.rs, contention_profile.rs,
      phase1_profile.rs, spark_profile.rs, flink_profile.rs, trino_profile.rs)

    The code-owned constants of every scenario profile, and its entry points. *)

From S2P Require Import Prelude Order RustStr Json ContractValue ContractScenario ContractAdapter ContractProfile.
From S2P Require Import ContractResult ContractDocument Ledger Policy Capture EnginePlan ToolFiles Publication Bundle.
From S2P Require Import ProfileMaterialization.
From Stdlib Require Import Ascii.
Open Scope string_scope.

(** ** Images shared by the profiles *)

Definition MINIO_ARTIFACTS : list ArtifactPolicy := [
    {| ap_location := "image:/usr/local/bin/minio"; ap_media_type := "application/vnd.elf" |};
    {| ap_location := "image:/usr/local/bin/ensure-bucket"; ap_media_type := "application/vnd.elf" |};
    {| ap_location := "image:/usr/local/bin/healthcheck"; ap_media_type := "application/vnd.elf" |};
    {| ap_location := "image:/usr/local/bin/lakekeeper-setup"; ap_media_type := "application/vnd.elf" |};
    {| ap_location := "image:/usr/local/bin/polaris-setup"; ap_media_type := "application/vnd.elf" |};
    {| ap_location := "image:/usr/local/bin/wait-http"; ap_media_type := "application/vnd.elf" |}].

Definition LAKECAT_ARTIFACTS : list ArtifactPolicy := [
    {| ap_location := "image:/usr/local/bin/lakecat-service"; ap_media_type := "application/vnd.elf" |}].

Definition MINIO_IMAGE : ImagePolicy := {| ip_component := "minio"; ip_compose_service := "minio";
   ip_required_artifacts := MINIO_ARTIFACTS; ip_required_labels := [];
   ip_build_extension_label := Some {| blp_label := "io.querygraph.catalog-bench.helper-source-revision";
   blp_extension := "querygraph/helper-source"; blp_field := "revision" |} |}.

Definition LAKECAT_IMAGE : ImagePolicy := {| ip_component := "lakecat"; ip_compose_service := "lakecat";
   ip_required_artifacts := LAKECAT_ARTIFACTS; ip_required_labels := []; ip_build_extension_label := None |}.

Definition TRINO_LAKECAT_IMAGE : ImagePolicy := {| ip_component := "lakecat";
   ip_compose_service := "trino-lakecat"; ip_required_artifacts := LAKECAT_ARTIFACTS; ip_required_labels := [];
   ip_build_extension_label := None |}.

(** ** Contention *)

Module ContentionProfile.
Definition MATERIALIZED_COMPONENTS : list string := ["rust-runner"; "catalog-bench-commit"; "minio"; "lakecat";
   "lakecat-turso"; "polaris"; "gravitino"; "lakekeeper"; "nessie"; "postgresql"].

Definition BENCH_ARTIFACTS : list ArtifactPolicy := [
    {| ap_location := "image:/usr/local/bin/catalog-bench-commit"; ap_media_type := "application/vnd.elf" |}].

Definition MATERIALIZED_IMAGES : list ImagePolicy := [
    {| ip_component := "catalog-bench-commit"; ip_compose_service := "bench";
       ip_required_artifacts := BENCH_ARTIFACTS; ip_required_labels := []; ip_build_extension_label := None |};
    MINIO_IMAGE;
    LAKECAT_IMAGE].

Definition POLICY : ScenarioProfilePolicy := {|
  spp_name := "contention";
  spp_materialization_format := "catalog-bench/contention-profile-materialization/v1";
  spp_scope := "iceberg-rest.commit.same-table-contention/v2";
  spp_purpose := Performance;
  spp_selected_components := MATERIALIZED_COMPONENTS;
  spp_images := MATERIALIZED_IMAGES;
  spp_artifact_copies := [] |}.

Section Entry.
Context `{UrlParser, ContractDecoders, Ledger.Sha256, MaterializationDecoder, !ToVecPretty Profile}.
Context {W : Type} `{FileTree W}.

Definition render_contention_profile (source_profile_bytes materialization_bytes : string) : result string Chain :=
  render_scenario_profile source_profile_bytes materialization_bytes POLICY.

Definition write_contention_profile (source_profile materialization output : string) (w : W) : result unit Chain * W :=
  write_scenario_profile source_profile materialization output POLICY w.

Definition check_contention_profile (source_profile materialization output : string) (w : W) : result unit Chain :=
  check_scenario_profile source_profile materialization output POLICY "catalog-bench-contract profile materialize-contention" w.
End Entry.
End ContentionProfile.

(** ** Phase1 *)

Module Phase1Profile.
Definition COMPONENTS : list string := ["rust-runner"; "catalog-bench-conformance"; "minio"; "lakecat";
   "lakecat-turso"; "polaris"; "gravitino"; "lakekeeper"; "nessie"; "postgresql"; "cpython"; "pyiceberg";
   "pyarrow"; "s3fs"].

Definition CONFORMANCE_ARTIFACTS : list ArtifactPolicy := [
    {| ap_location := "image:/usr/local/bin/catalog-bench-conformance"; ap_media_type := "application/vnd.elf" |}].

Definition IMAGES : list ImagePolicy := [
    {| ip_component := "catalog-bench-conformance"; ip_compose_service := "bench";
       ip_required_artifacts := CONFORMANCE_ARTIFACTS; ip_required_labels := [];
       ip_build_extension_label := None |};
    MINIO_IMAGE;
    LAKECAT_IMAGE].

Definition POLICY : ScenarioProfilePolicy := {|
  spp_name := "phase1";
  spp_materialization_format := "catalog-bench/phase1-profile-materialization/v1";
  spp_scope := "phase1-behavioral-publication/v1";
  spp_purpose := Conformance;
  spp_selected_components := COMPONENTS;
  spp_images := IMAGES;
  spp_artifact_copies := [] |}.

Section Entry.
Context `{UrlParser, ContractDecoders, Ledger.Sha256, MaterializationDecoder, !ToVecPretty Profile}.
Context {W : Type} `{FileTree W}.

Definition render_phase1_profile (source_profile_bytes materialization_bytes : string) : result string Chain :=
  render_scenario_profile source_profile_bytes materialization_bytes POLICY.

Definition write_phase1_profile (source_profile materialization output : string) (w : W) : result unit Chain * W :=
  write_scenario_profile source_profile materialization output POLICY w.

Definition check_phase1_profile (source_profile materialization output : string) (w : W) : result unit Chain :=
  check_scenario_profile source_profile materialization output POLICY "catalog-bench-contract profile materialize-phase1" w.
End Entry.
End Phase1Profile.

(** ** Spark *)

Module SparkProfile.
Definition SPARK_BASE_PLATFORM_DIGEST : string := "sha256:f6831c619d0f6f07fe41912a5be499f6a7c0c1e9f18322d0c703ff21d2f30cd1".

Definition ICEBERG_SOURCE_REVISION : string := "6976e020b894f6a6777704df2b8c4458cb291ae9".

Definition ENGINE_RUNNER_SOURCE_REVISION_V1 : string := "5e10f36e7e99815df273c7b567e466749f04d4be".

Definition ENGINE_RUNNER_SOURCE_REVISION_V2 : string := "59840b95c33e753919f5c984d10d6df45c834243".

Definition ENGINE_V2_SOURCE_PROFILE_ID : string := "catalog-community-engine-v2-source-2026-08-28-linux-arm64".

Definition ENGINE_V2_LAKECAT_SOURCE_PROFILE_ID : string := "catalog-community-engine-v2-lakecat-5d62f1c4-source-2026-08-28-linux-arm64".

Definition ENGINE_V2_MULTIPART_SOURCE_PROFILE_ID : string := "catalog-community-engine-v2-lakecat-65f0a4c3-source-2026-08-28-linux-arm64".

Definition MATERIALIZED_COMPONENTS : list string := ["rust-runner"; "catalog-bench-engine"; "minio"; "lakecat";
   "lakecat-turso"; "polaris"; "gravitino"; "lakekeeper"; "postgresql"; "iceberg-java"; "spark-4.1"].

Definition ENGINE_RUNNER_ARTIFACTS : list ArtifactPolicy := [
    {| ap_location := "image:/usr/local/bin/catalog-bench-engine"; ap_media_type := "application/vnd.elf" |}].

Definition ICEBERG_ARTIFACTS : list ArtifactPolicy := [
    {| ap_location := "image:/opt/iceberg/iceberg-spark-runtime-4.1_2.13-1.11.0.jar";
       ap_media_type := "application/java-archive" |};
    {| ap_location := "image:/opt/iceberg/iceberg-aws-bundle-1.11.0.jar";
       ap_media_type := "application/java-archive" |}].

Definition SPARK_ARTIFACTS : list ArtifactPolicy := [
    {| ap_location := "image:/opt/spark/bin/spark-submit"; ap_media_type := "application/x-shellscript" |};
    {| ap_location := "image:/opt/spark/jars/spark-sql_2.13-4.1.3.jar";
       ap_media_type := "application/java-archive" |};
    {| ap_location := "image:/opt/spark/jars/iceberg-spark-runtime-4.1_2.13-1.11.0.jar";
       ap_media_type := "application/java-archive" |};
    {| ap_location := "image:/opt/spark/jars/iceberg-aws-bundle-1.11.0.jar";
       ap_media_type := "application/java-archive" |};
    {| ap_location := "image:/usr/local/bin/catalog-bench-engine"; ap_media_type := "application/vnd.elf" |}].

Definition ARTIFACT_COPIES : list ArtifactCopyPolicy := [
    {| acp_source_component := "iceberg-java";
       acp_source_location := "image:/opt/iceberg/iceberg-spark-runtime-4.1_2.13-1.11.0.jar";
       acp_destination_component := "spark-4.1";
       acp_destination_location := "image:/opt/spark/jars/iceberg-spark-runtime-4.1_2.13-1.11.0.jar" |};
    {| acp_source_component := "iceberg-java";
       acp_source_location := "image:/opt/iceberg/iceberg-aws-bundle-1.11.0.jar";
       acp_destination_component := "spark-4.1";
       acp_destination_location := "image:/opt/spark/jars/iceberg-aws-bundle-1.11.0.jar" |};
    {| acp_source_component := "catalog-bench-engine";
       acp_source_location := "image:/usr/local/bin/catalog-bench-engine";
       acp_destination_component := "spark-4.1";
       acp_destination_location := "image:/usr/local/bin/catalog-bench-engine" |}].

Definition ICEBERG_LABELS : list RequiredLabelPolicy := [
    {| rlp_label := "org.opencontainers.image.version"; rlp_value := "1.11.0" |};
    {| rlp_label := "io.querygraph.catalog-bench.iceberg-spark-runtime-coordinate";
       rlp_value := "org.apache.iceberg:iceberg-spark-runtime-4.1_2.13:1.11.0" |};
    {| rlp_label := "io.querygraph.catalog-bench.iceberg-aws-bundle-coordinate";
       rlp_value := "org.apache.iceberg:iceberg-aws-bundle:1.11.0" |}].

Definition SPARK_LABELS_V1 : list RequiredLabelPolicy := [
    {| rlp_label := "org.opencontainers.image.version"; rlp_value := "4.1.3" |};
    {| rlp_label := "org.opencontainers.image.base.digest"; rlp_value := SPARK_BASE_PLATFORM_DIGEST |};
    {| rlp_label := "io.querygraph.catalog-bench.iceberg-source-revision"; rlp_value := ICEBERG_SOURCE_REVISION |};
    {| rlp_label := "io.querygraph.catalog-bench.runner-source-revision";
       rlp_value := ENGINE_RUNNER_SOURCE_REVISION_V1 |}].

Definition SPARK_LABELS_V2 : list RequiredLabelPolicy := [
    {| rlp_label := "org.opencontainers.image.version"; rlp_value := "4.1.3" |};
    {| rlp_label := "org.opencontainers.image.base.digest"; rlp_value := SPARK_BASE_PLATFORM_DIGEST |};
    {| rlp_label := "io.querygraph.catalog-bench.iceberg-source-revision"; rlp_value := ICEBERG_SOURCE_REVISION |};
    {| rlp_label := "io.querygraph.catalog-bench.runner-source-revision";
       rlp_value := ENGINE_RUNNER_SOURCE_REVISION_V2 |}].

Definition MATERIALIZED_IMAGES_V1 : list ImagePolicy := [
    MINIO_IMAGE;
    LAKECAT_IMAGE;
    {| ip_component := "catalog-bench-engine"; ip_compose_service := "engine-runner-image";
       ip_required_artifacts := ENGINE_RUNNER_ARTIFACTS; ip_required_labels := [];
       ip_build_extension_label := None |};
    {| ip_component := "iceberg-java"; ip_compose_service := "iceberg-spark-runtime";
       ip_required_artifacts := ICEBERG_ARTIFACTS; ip_required_labels := ICEBERG_LABELS;
       ip_build_extension_label := None |};
    {| ip_component := "spark-4.1"; ip_compose_service := "spark"; ip_required_artifacts := SPARK_ARTIFACTS;
       ip_required_labels := SPARK_LABELS_V1; ip_build_extension_label := None |}].

Definition MATERIALIZED_IMAGES_V2 : list ImagePolicy := [
    MINIO_IMAGE;
    LAKECAT_IMAGE;
    {| ip_component := "catalog-bench-engine"; ip_compose_service := "engine-runner-image";
       ip_required_artifacts := ENGINE_RUNNER_ARTIFACTS; ip_required_labels := [];
       ip_build_extension_label := None |};
    {| ip_component := "iceberg-java"; ip_compose_service := "iceberg-spark-runtime";
       ip_required_artifacts := ICEBERG_ARTIFACTS; ip_required_labels := ICEBERG_LABELS;
       ip_build_extension_label := None |};
    {| ip_component := "spark-4.1"; ip_compose_service := "spark"; ip_required_artifacts := SPARK_ARTIFACTS;
       ip_required_labels := SPARK_LABELS_V2; ip_build_extension_label := None |}].

Definition POLICY_V1 : ScenarioProfilePolicy := {|
  spp_name := "Spark interoperability";
  spp_materialization_format := "catalog-bench/spark-profile-materialization/v1";
  spp_scope := "engine.iceberg.write-read-evolution/v1";
  spp_purpose := Conformance;
  spp_selected_components := MATERIALIZED_COMPONENTS;
  spp_images := MATERIALIZED_IMAGES_V1;
  spp_artifact_copies := ARTIFACT_COPIES |}.

Definition POLICY_V2 : ScenarioProfilePolicy := {|
  spp_name := "Spark interoperability v2";
  spp_materialization_format := "catalog-bench/spark-profile-materialization/v1";
  spp_scope := "engine.iceberg.write-read-evolution/v2";
  spp_purpose := Conformance;
  spp_selected_components := MATERIALIZED_COMPONENTS;
  spp_images := MATERIALIZED_IMAGES_V2;
  spp_artifact_copies := ARTIFACT_COPIES |}.

(** The policy of a source profile's identity. *)
Definition policy_for_source `{ContractDecoders} (source : string) : result ScenarioProfilePolicy Chain :=
  let? document := map_err (fun e => [e]) (from_slice source) in
  match get_key "id" document ≫= as_str with
  | Some id =>
      if existsb (String.eqb id)
           [ENGINE_V2_SOURCE_PROFILE_ID; ENGINE_V2_LAKECAT_SOURCE_PROFILE_ID; ENGINE_V2_MULTIPART_SOURCE_PROFILE_ID]
      then Ok POLICY_V2
      else if id =? "catalog-community-current-2026-08-27-linux-arm64" then Ok POLICY_V1
      else Err ["unsupported Spark source profile identity"]
  | None => Err ["unsupported Spark source profile identity"]
  end.

Section Entry.
Context `{UrlParser, ContractDecoders, Ledger.Sha256, MaterializationDecoder, !ToVecPretty Profile}.
Context {W : Type} `{FileTree W}.

Definition render_spark_profile (source_profile_bytes materialization_bytes : string) : result string Chain :=
  let? policy := policy_for_source source_profile_bytes in
  render_scenario_profile source_profile_bytes materialization_bytes policy.

(** The policy of a source file. *)
Definition policy_for_path (source_profile : string) (w : W) : result ScenarioProfilePolicy Chain :=
  let? source := map_err (fun e => [e]) (fs_read source_profile w) in
  policy_for_source source.

Definition write_spark_profile (source_profile materialization output : string) (w : W) : result unit Chain * W :=
  match policy_for_path source_profile w with
  | Ok policy => write_scenario_profile source_profile materialization output policy w
  | Err e => (Err e, w)
  end.

Definition check_spark_profile (source_profile materialization output : string) (w : W) : result unit Chain :=
  let? policy := policy_for_path source_profile w in
  check_scenario_profile source_profile materialization output policy "catalog-bench-contract profile materialize-spark" w.
End Entry.
End SparkProfile.

(** ** Flink *)

Module FlinkProfile.
Definition FLINK_BASE_PLATFORM_DIGEST : string := "sha256:99a499ed147b28d358486066ab8308e351b232b2ac81aff69157fdb349c84e18".

Definition ICEBERG_SOURCE_REVISION : string := "6976e020b894f6a6777704df2b8c4458cb291ae9".

Definition ENGINE_RUNNER_SOURCE_REVISION : string := "ce0c11f25f792f533de733f40ea10bc171d1866b".

Definition MATERIALIZED_COMPONENTS : list string := ["rust-runner"; "catalog-bench-engine"; "minio"; "lakecat";
   "lakecat-turso"; "polaris"; "gravitino"; "lakekeeper"; "postgresql"; "iceberg-java"; "flink"].

Definition ENGINE_RUNNER_ARTIFACTS : list ArtifactPolicy := [
    {| ap_location := "image:/usr/local/bin/catalog-bench-engine"; ap_media_type := "application/vnd.elf" |};
    {| ap_location := "image:/opt/catalog-bench/catalog-bench-flink-runner.jar";
       ap_media_type := "application/java-archive" |}].

Definition ICEBERG_ARTIFACTS : list ArtifactPolicy := [
    {| ap_location := "image:/opt/iceberg/iceberg-flink-runtime-2.1-1.11.0.jar";
       ap_media_type := "application/java-archive" |};
    {| ap_location := "image:/opt/iceberg/iceberg-aws-bundle-1.11.0.jar";
       ap_media_type := "application/java-archive" |};
    {| ap_location := "image:/opt/iceberg/hadoop-client-api-3.4.3.jar";
       ap_media_type := "application/java-archive" |};
    {| ap_location := "image:/opt/iceberg/hadoop-client-runtime-3.4.3.jar";
       ap_media_type := "application/java-archive" |}].

Definition FLINK_ARTIFACTS : list ArtifactPolicy := [
    {| ap_location := "image:/opt/flink/bin/flink"; ap_media_type := "application/x-shellscript" |};
    {| ap_location := "image:/opt/flink/lib/flink-dist-2.1.3.jar"; ap_media_type := "application/java-archive" |};
    {| ap_location := "image:/opt/flink/lib/iceberg-flink-runtime-2.1-1.11.0.jar";
       ap_media_type := "application/java-archive" |};
    {| ap_location := "image:/opt/flink/lib/iceberg-aws-bundle-1.11.0.jar";
       ap_media_type := "application/java-archive" |};
    {| ap_location := "image:/opt/flink/lib/hadoop-client-api-3.4.3.jar";
       ap_media_type := "application/java-archive" |};
    {| ap_location := "image:/opt/flink/lib/hadoop-client-runtime-3.4.3.jar";
       ap_media_type := "application/java-archive" |};
    {| ap_location := "image:/usr/local/bin/catalog-bench-engine"; ap_media_type := "application/vnd.elf" |};
    {| ap_location := "image:/opt/catalog-bench/catalog-bench-flink-runner.jar";
       ap_media_type := "application/java-archive" |}].

Definition ARTIFACT_COPIES : list ArtifactCopyPolicy := [
    {| acp_source_component := "iceberg-java";
       acp_source_location := "image:/opt/iceberg/iceberg-flink-runtime-2.1-1.11.0.jar";
       acp_destination_component := "flink";
       acp_destination_location := "image:/opt/flink/lib/iceberg-flink-runtime-2.1-1.11.0.jar" |};
    {| acp_source_component := "iceberg-java";
       acp_source_location := "image:/opt/iceberg/iceberg-aws-bundle-1.11.0.jar";
       acp_destination_component := "flink";
       acp_destination_location := "image:/opt/flink/lib/iceberg-aws-bundle-1.11.0.jar" |};
    {| acp_source_component := "iceberg-java";
       acp_source_location := "image:/opt/iceberg/hadoop-client-api-3.4.3.jar";
       acp_destination_component := "flink";
       acp_destination_location := "image:/opt/flink/lib/hadoop-client-api-3.4.3.jar" |};
    {| acp_source_component := "iceberg-java";
       acp_source_location := "image:/opt/iceberg/hadoop-client-runtime-3.4.3.jar";
       acp_destination_component := "flink";
       acp_destination_location := "image:/opt/flink/lib/hadoop-client-runtime-3.4.3.jar" |};
    {| acp_source_component := "catalog-bench-engine";
       acp_source_location := "image:/usr/local/bin/catalog-bench-engine"; acp_destination_component := "flink";
       acp_destination_location := "image:/usr/local/bin/catalog-bench-engine" |};
    {| acp_source_component := "catalog-bench-engine";
       acp_source_location := "image:/opt/catalog-bench/catalog-bench-flink-runner.jar";
       acp_destination_component := "flink";
       acp_destination_location := "image:/opt/catalog-bench/catalog-bench-flink-runner.jar" |}].

Definition RUNNER_LABELS : list RequiredLabelPolicy := [
    {| rlp_label := "io.querygraph.catalog-bench.runner-source-revision";
       rlp_value := ENGINE_RUNNER_SOURCE_REVISION |}].

Definition ICEBERG_LABELS : list RequiredLabelPolicy := [
    {| rlp_label := "org.opencontainers.image.version"; rlp_value := "1.11.0" |};
    {| rlp_label := "io.querygraph.catalog-bench.iceberg-flink-runtime-coordinate";
       rlp_value := "org.apache.iceberg:iceberg-flink-runtime-2.1:1.11.0" |};
    {| rlp_label := "io.querygraph.catalog-bench.iceberg-aws-bundle-coordinate";
       rlp_value := "org.apache.iceberg:iceberg-aws-bundle:1.11.0" |};
    {| rlp_label := "io.querygraph.catalog-bench.hadoop-client-version"; rlp_value := "3.4.3" |}].

Definition FLINK_LABELS : list RequiredLabelPolicy := [
    {| rlp_label := "org.opencontainers.image.version"; rlp_value := "2.1.3" |};
    {| rlp_label := "org.opencontainers.image.base.digest"; rlp_value := FLINK_BASE_PLATFORM_DIGEST |};
    {| rlp_label := "io.querygraph.catalog-bench.iceberg-source-revision"; rlp_value := ICEBERG_SOURCE_REVISION |};
    {| rlp_label := "io.querygraph.catalog-bench.runner-source-revision";
       rlp_value := ENGINE_RUNNER_SOURCE_REVISION |}].

Definition MATERIALIZED_IMAGES : list ImagePolicy := [
    MINIO_IMAGE;
    LAKECAT_IMAGE;
    {| ip_component := "catalog-bench-engine"; ip_compose_service := "flink-runner-image";
       ip_required_artifacts := ENGINE_RUNNER_ARTIFACTS; ip_required_labels := RUNNER_LABELS;
       ip_build_extension_label := None |};
    {| ip_component := "iceberg-java"; ip_compose_service := "iceberg-flink-runtime";
       ip_required_artifacts := ICEBERG_ARTIFACTS; ip_required_labels := ICEBERG_LABELS;
       ip_build_extension_label := None |};
    {| ip_component := "flink"; ip_compose_service := "flink"; ip_required_artifacts := FLINK_ARTIFACTS;
       ip_required_labels := FLINK_LABELS; ip_build_extension_label := None |}].

Definition POLICY : ScenarioProfilePolicy := {|
  spp_name := "Flink interoperability";
  spp_materialization_format := "catalog-bench/flink-profile-materialization/v1";
  spp_scope := "engine.iceberg.write-read-evolution/v2";
  spp_purpose := Conformance;
  spp_selected_components := MATERIALIZED_COMPONENTS;
  spp_images := MATERIALIZED_IMAGES;
  spp_artifact_copies := ARTIFACT_COPIES |}.

Section Entry.
Context `{UrlParser, ContractDecoders, Ledger.Sha256, MaterializationDecoder, !ToVecPretty Profile}.
Context {W : Type} `{FileTree W}.

Definition render_flink_profile (source_profile_bytes materialization_bytes : string) : result string Chain :=
  render_scenario_profile source_profile_bytes materialization_bytes POLICY.

Definition write_flink_profile (source_profile materialization output : string) (w : W) : result unit Chain * W :=
  write_scenario_profile source_profile materialization output POLICY w.

Definition check_flink_profile (source_profile materialization output : string) (w : W) : result unit Chain :=
  check_scenario_profile source_profile materialization output POLICY "catalog-bench-contract profile materialize-flink" w.
End Entry.
End FlinkProfile.

(** ** Trino *)

Module TrinoProfile.
Definition TRINO_BASE_DIGEST : string := "sha256:db58cc93e593a2706553745f276bb119c9810e69918be56ecde088ba7ccb0534".

Definition ENGINE_RUNNER_SOURCE_REVISION : string := "f26c25a75be7112782ffc29638ada44afcaa1c0b".

Definition MATERIALIZED_COMPONENTS : list string := ["rust-runner"; "catalog-bench-engine"; "minio"; "lakecat";
   "lakecat-turso"; "polaris"; "gravitino"; "lakekeeper"; "postgresql"; "iceberg-java"; "trino"].

Definition RUNNER_ARTIFACTS : list ArtifactPolicy := [
    {| ap_location := "image:/usr/local/bin/catalog-bench-engine"; ap_media_type := "application/vnd.elf" |}].

Definition ICEBERG_ARTIFACTS : list ArtifactPolicy := [
    {| ap_location := "image:/usr/lib/trino/plugin/iceberg/org.apache.iceberg_iceberg-core-1.11.0.jar";
       ap_media_type := "application/java-archive" |};
    {| ap_location := "image:/usr/lib/trino/plugin/iceberg/org.apache.iceberg_iceberg-aws-1.11.0.jar";
       ap_media_type := "application/java-archive" |}].

Definition TRINO_ARTIFACTS : list ArtifactPolicy := [
    {| ap_location := "image:/usr/lib/trino/bin/run-trino"; ap_media_type := "application/x-shellscript" |};
    {| ap_location := "image:/usr/lib/trino/bin/launcher"; ap_media_type := "application/x-shellscript" |};
    {| ap_location := "image:/usr/lib/trino/bin/linux-arm64/launcher"; ap_media_type := "application/vnd.elf" |};
    {| ap_location := "image:/usr/bin/trino"; ap_media_type := "application/java-archive" |};
    {| ap_location := "image:/usr/lib/trino/plugin/iceberg/org.apache.iceberg_iceberg-core-1.11.0.jar";
       ap_media_type := "application/java-archive" |};
    {| ap_location := "image:/usr/lib/trino/plugin/iceberg/org.apache.iceberg_iceberg-aws-1.11.0.jar";
       ap_media_type := "application/java-archive" |};
    {| ap_location := "image:/usr/local/bin/catalog-bench-engine"; ap_media_type := "application/vnd.elf" |}].

Definition ARTIFACT_COPIES : list ArtifactCopyPolicy := [
    {| acp_source_component := "catalog-bench-engine";
       acp_source_location := "image:/usr/local/bin/catalog-bench-engine"; acp_destination_component := "trino";
       acp_destination_location := "image:/usr/local/bin/catalog-bench-engine" |};
    {| acp_source_component := "iceberg-java";
       acp_source_location := "image:/usr/lib/trino/plugin/iceberg/org.apache.iceberg_iceberg-core-1.11.0.jar";
       acp_destination_component := "trino";
       acp_destination_location := "image:/usr/lib/trino/plugin/iceberg/org.apache.iceberg_iceberg-core-1.11.0.jar" |};
    {| acp_source_component := "iceberg-java";
       acp_source_location := "image:/usr/lib/trino/plugin/iceberg/org.apache.iceberg_iceberg-aws-1.11.0.jar";
       acp_destination_component := "trino";
       acp_destination_location := "image:/usr/lib/trino/plugin/iceberg/org.apache.iceberg_iceberg-aws-1.11.0.jar" |}].

Definition RUNNER_LABELS : list RequiredLabelPolicy := [
    {| rlp_label := "org.opencontainers.image.revision"; rlp_value := ENGINE_RUNNER_SOURCE_REVISION |}].

Definition ICEBERG_LABELS : list RequiredLabelPolicy := [
    {| rlp_label := "org.opencontainers.image.version"; rlp_value := "1.11.0" |}].

Definition TRINO_LABELS : list RequiredLabelPolicy := [
    {| rlp_label := "org.opencontainers.image.version"; rlp_value := "483" |};
    {| rlp_label := "org.opencontainers.image.base.digest"; rlp_value := TRINO_BASE_DIGEST |};
    {| rlp_label := "io.querygraph.catalog-bench.runner-source-revision";
       rlp_value := ENGINE_RUNNER_SOURCE_REVISION |}].

Definition MATERIALIZED_IMAGES : list ImagePolicy := [
    MINIO_IMAGE;
    TRINO_LAKECAT_IMAGE;
    {| ip_component := "catalog-bench-engine"; ip_compose_service := "trino-engine-runner-base";
       ip_required_artifacts := RUNNER_ARTIFACTS; ip_required_labels := RUNNER_LABELS;
       ip_build_extension_label := None |};
    {| ip_component := "iceberg-java"; ip_compose_service := "trino-iceberg-runtime";
       ip_required_artifacts := ICEBERG_ARTIFACTS; ip_required_labels := ICEBERG_LABELS;
       ip_build_extension_label := None |};
    {| ip_component := "trino"; ip_compose_service := "trino"; ip_required_artifacts := TRINO_ARTIFACTS;
       ip_required_labels := TRINO_LABELS; ip_build_extension_label := None |}].

Definition POLICY : ScenarioProfilePolicy := {|
  spp_name := "Trino interoperability";
  spp_materialization_format := "catalog-bench/trino-profile-materialization/v1";
  spp_scope := "engine.iceberg.write-read-evolution/v2";
  spp_purpose := Conformance;
  spp_selected_components := MATERIALIZED_COMPONENTS;
  spp_images := MATERIALIZED_IMAGES;
  spp_artifact_copies := ARTIFACT_COPIES |}.

Section Entry.
Context `{UrlParser, ContractDecoders, Ledger.Sha256, MaterializationDecoder, !ToVecPretty Profile}.
Context {W : Type} `{FileTree W}.

Definition render_trino_profile (source_profile_bytes materialization_bytes : string) : result string Chain :=
  render_scenario_profile source_profile_bytes materialization_bytes POLICY.

Definition write_trino_profile (source_profile materialization output : string) (w : W) : result unit Chain * W :=
  write_scenario_profile source_profile materialization output POLICY w.

Definition check_trino_profile (source_profile materialization output : string) (w : W) : result unit Chain :=
  check_scenario_profile source_profile materialization output POLICY "catalog-bench-contract profile materialize-trino" w.
End Entry.
End TrinoProfile.

(** ** What a materialized profile guarantees
      (crates/contract-tool/src/profile_materialization.rs) *)

(** ** Observations *)

Lemma observations_Ok images observed :
  try_fold observe_image ∅ images = Ok observed ->
  observed = index_by io_component images /\ NoDup (io_component <$> images).
Proof.
  unfold index_by. intros Hfold.
  assert (Hgen : forall m, try_fold observe_image m images = Ok observed ->
    observed = foldl (fun m image => <[io_component image := image]> m) m images /\ NoDup (io_component <$> images) /\
    forall image, image ∈ images -> m !! io_component image = None).
  { clear Hfold. induction images as [|image images IH]; intros m Hfold; cbn [try_fold] in Hfold.
    - injection Hfold as <-. split_and!; [done|constructor|]. by intros image ?%elem_of_nil.
    - apply bind_Ok in Hfold as (m' & Hstep & Hfold). unfold observe_image in Hstep.
      apply guard_Ok in Hstep as [Hnew%bool_decide_eq_false%eq_None_not_Some [= <-]].
      apply IH in Hfold as (-> & Hnd & Hfresh). split_and!; [done| |].
      + rewrite fmap_cons. constructor; [|done]. intros (other & Heq & Hin)%list_elem_of_fmap.
        apply Hfresh in Hin. by rewrite <-Heq, lookup_insert_eq in Hin.
      + intros other [->|Hin]%elem_of_cons; [done|]. apply Hfresh, lookup_insert_None in Hin as [Hin _]. done. }
  by destruct (Hgen ∅ Hfold) as (-> & Hnd & _).
Qed.

(** ** Images *)

(** The revision, the service and the platform an image is labelled with. *)
Definition labelled (profile : Profile) (component : Component) (image : ImageObservation) (policy : ImagePolicy) : Prop :=
  io_labels image !! "com.docker.compose.service" = Some (ip_compose_service policy) /\
  (exists source, comp_source component = Some source /\
     io_labels image !! "org.opencontainers.image.revision" = Some (source_revision source)) /\
  (forall label, label ∈ ip_required_labels policy -> io_labels image !! rlp_label label = Some (rlp_value label)) /\
  io_operating_system image = to_ascii_lowercase (plat_operating_system (prof_platform profile)) /\
  docker_architecture (plat_architecture (prof_platform profile)) = Ok (io_architecture image).

(** An artifact the policy requires is recorded with its digest, its type and its
    size. *)
Definition recorded (image : ImageObservation) (policy : ArtifactPolicy) : Prop :=
  exists artifact size, artifact ∈ io_embedded_artifacts image /\ artifact_location artifact = ap_location policy /\
    str_len (digest_value (artifact_digest artifact)) = 64%Z /\ artifact_media_type artifact = ap_media_type policy /\
    artifact_bytes artifact = Some size /\ size <> 0%Z.

Lemma require_label_Ok image name expected :
  require_label image name expected = Ok tt <-> io_labels image !! name = Some expected.
Proof.
  unfold require_label, image_label. rewrite bind_Ok. setoid_rewrite ok_or_Ok. setoid_rewrite guard_Ok.
  setoid_rewrite negb_false_iff. setoid_rewrite String.eqb_eq. naive_solver.
Qed.

Lemma require_sha256_length digest field : require_sha256 digest field = Ok tt -> str_len (digest_value digest) = 64%Z.
Proof. unfold require_sha256. intros [Hbad _]%guard_Ok. apply orb_false_iff in Hbad as [Hlen%negb_false_iff _]. lia. Qed.

Lemma required_artifact_Ok component image policy :
  validate_required_artifact component (index_by artifact_location (io_embedded_artifacts image)) policy = Ok tt ->
  recorded image policy.
Proof.
  unfold validate_required_artifact. intros (artifact & [Hin Hlocation]%ok_or_Ok%index_by_Some & Hv)%bind_Ok.
  apply check_Ok in Hv as [Hsha%require_sha256_length Hv].
  apply guard_Ok in Hv as [Htype%negb_false_iff%String.eqb_eq [Hsize _]%guard_Ok].
  destruct (artifact_bytes artifact) as [size|] eqn:Hbytes; [|done]. apply Z.eqb_neq in Hsize.
  exists artifact, size. by split_and!.
Qed.

Lemma image_Ok profile component image policy :
  validate_image profile component image policy = Ok tt ->
  labelled profile component image policy /\ Forall (recorded image) (ip_required_artifacts policy) /\
  str_len (digest_value (io_image_id image)) = 64%Z.
Proof.
  unfold validate_image. intros [_ Hv]%guard_Ok. apply check_Ok in Hv as [Hid%require_sha256_length Hv]. cbv zeta in Hv.
  apply guard_Ok in Hv as [Hos%negb_false_iff%String.eqb_eq Hv]. apply bind_Ok in Hv as (architecture & Harch & Hv).
  apply guard_Ok in Hv as [<-%negb_false_iff%String.eqb_eq Hv]. apply check_Ok in Hv as [_ Hv].
  apply check_Ok in Hv as [Hservice%require_label_Ok Hv]. apply bind_Ok in Hv as (version & _ & Hv).
  apply bind_Ok in Hv as (source & Hsource%ok_or_Ok & Hv). apply check_Ok in Hv as [Hrevision%require_label_Ok Hv].
  apply check_Ok in Hv as [Hlabels%check_all_Ok Hv]. apply check_Ok in Hv as [_ Hv].
  apply guard_Ok in Hv as [_ Hartifacts%check_all_Ok]. rewrite Forall_forall in Hlabels. split_and!; try done.
  - unfold labelled. split_and!; try done; [by exists source|]. intros label Hin. by apply require_label_Ok, Hlabels.
  - eapply Forall_impl; [exact Hartifacts|]. intros required. apply required_artifact_Ok.
Qed.

(** ** The checks of a materialization *)

Section Materialized.
Context `{UrlParser, ContractDecoders, Ledger.Sha256, MaterializationDecoder, !ToVecPretty Profile}.

(** The observation of a policy's image, checked against its component. *)
Definition observed_image (profile : Profile) (images : list ImageObservation) (policy : ImagePolicy) : Prop :=
  exists component image, component ∈ prof_components profile /\ comp_id component = ip_component policy /\
    image ∈ images /\ io_component image = ip_component policy /\
    labelled profile component image policy /\ Forall (recorded image) (ip_required_artifacts policy) /\
    str_len (digest_value (io_image_id image)) = 64%Z.

(** The artifact at a location of an observed image. *)
Definition artifact_at (images : list ImageObservation) (component location : string) (artifact : ArtifactReference) : Prop :=
  exists image, image ∈ images /\ io_component image = component /\ artifact ∈ io_embedded_artifacts image /\
    artifact_location artifact = location.

Definition copied (images : list ImageObservation) (copy : ArtifactCopyPolicy) : Prop :=
  exists source destination,
    artifact_at images (acp_source_component copy) (acp_source_location copy) source /\
    artifact_at images (acp_destination_component copy) (acp_destination_location copy) destination /\
    artifact_digest source = artifact_digest destination /\ artifact_bytes source = artifact_bytes destination /\
    artifact_media_type source = artifact_media_type destination.

Lemma observed_artifact_Ok images component location artifact :
  observed_artifact (index_by io_component images) component location = Ok artifact ->
  artifact_at images component location artifact.
Proof.
  unfold observed_artifact. intros (image & [Hin Hc]%ok_or_Ok%index_by_Some & Hf%ok_or_Ok)%bind_Ok.
  apply find_some in Hf as [Ha Hl%String.eqb_eq]. exists image. split_and!; try done. by apply list_elem_of_In.
Qed.

Lemma artifact_copy_Ok images copy : validate_artifact_copy (index_by io_component images) copy = Ok tt -> copied images copy.
Proof.
  unfold validate_artifact_copy. intros (source & Hs%observed_artifact_Ok & Hv)%bind_Ok.
  apply bind_Ok in Hv as (destination & Hd%observed_artifact_Ok & [Hsame _]%guard_Ok).
  apply orb_false_iff in Hsame as [[Hdigest Hbytes]%orb_false_iff Htype].
  apply negb_false_iff, bool_decide_eq_true in Hdigest, Hbytes. apply negb_false_iff, String.eqb_eq in Htype.
  by exists source, destination.
Qed.

Lemma policy_Ok policy validated :
  validate_policy policy = Ok validated ->
  vpol_selected_components validated = list_to_set (spp_selected_components policy) /\
  vpol_image_components validated = list_to_set (ip_component <$> spp_images policy).
Proof.
  unfold validate_policy. cbv zeta. intros [_ Hv]%check_Ok. do 4 apply guard_Ok in Hv as [_ Hv].
  apply check_Ok in Hv as [_ Hv]. apply guard_Ok in Hv as [_ Hv]. apply check_Ok in Hv as [_ [= <-]]. done.
Qed.

Lemma materialization_Ok profile source m policy validated :
  validate_policy policy = Ok validated ->
  validate_materialization profile source m policy validated = Ok tt ->
  spo_id (spm_source_profile m) = prof_id profile /\ op_id (spm_output_profile m) <> prof_id profile /\
  digest_value (spo_digest (spm_source_profile m)) = hash_text source /\
  (forall id, id ∈ spp_selected_components policy -> id ∈ comp_id <$> prof_components profile) /\
  list_to_set (io_component <$> spm_images m) =@{gset string} list_to_set (ip_component <$> spp_images policy) /\
  NoDup (io_component <$> spm_images m) /\
  Forall (observed_image profile (spm_images m)) (spp_images policy) /\
  Forall (copied (spm_images m)) (spp_artifact_copies policy).
Proof.
  intros [Hselected Himages]%policy_Ok. unfold validate_materialization. cbv zeta. intros [_ Hv]%guard_Ok.
  apply guard_Ok in Hv as [Hid%negb_false_iff%String.eqb_eq Hv]. apply guard_Ok in Hv as [Hout%String.eqb_neq Hv].
  apply check_Ok in Hv as [_ Hv]. apply guard_Ok in Hv as [Hdigest%negb_false_iff%String.eqb_eq Hv].
  apply check_Ok in Hv as [_ Hv]. apply check_Ok in Hv as [Hpresent%check_all_Ok Hv].
  apply bind_Ok in Hv as (observed & [-> Hnd]%observations_Ok & Hv).
  apply guard_Ok in Hv as [Hdom%negb_false_iff%bool_decide_eq_true Hv]. apply check_Ok in Hv as [Hchecked%check_all_Ok Hv].
  apply check_Ok in Hv as [Hcopies%check_all_Ok _]. rewrite Hselected in Hpresent. rewrite Himages in Hdom.
  split_and!; try done.
  - intros id Hin. rewrite Forall_forall in Hpresent.
    specialize (Hpresent id). rewrite elem_of_btree_elements, elem_of_list_to_set in Hpresent.
    apply Hpresent, guard_Ok in Hin as [Hsome%negb_false_iff%bool_decide_eq_true _].
    destruct Hsome as [component [Hc <-]%index_by_Some]. apply list_elem_of_fmap. by exists component.
  - rewrite <-Hdom. apply leibniz_equiv, set_equiv. intros id. rewrite elem_of_list_to_set, elem_of_dom, list_elem_of_fmap. split.
    + intros (image & -> & Hin). by apply index_by_is_Some.
    + intros [image [Hin <-]%index_by_Some]. by exists image.
  - eapply Forall_impl; [exact Hchecked|]. intros image_policy. unfold validate_policy_image. cbv zeta.
    intros (component & [Hc Hcid]%ok_or_Ok%index_by_Some & Hi)%bind_Ok.
    apply bind_Ok in Hi as (image & [Hin Hiid]%ok_or_Ok%index_by_Some & (Hl & Ha & Hd)%image_Ok).
    exists component, image. by split_and!.
  - eapply Forall_impl; [exact Hcopies|]. apply artifact_copy_Ok.
Qed.

(** ** The derived profile *)

(** A component of the derived profile: selected, of the same identity, source and
    build, with the observed image as its artifact, or unchanged when the policy has
    no image for it. *)
Definition derived_from (profile : Profile) (images : list ImageObservation) (policy : ScenarioProfilePolicy)
    (derived : Component) : Prop :=
  exists component, component ∈ prof_components profile /\ comp_id component ∈ spp_selected_components policy /\
    comp_id derived = comp_id component /\ comp_kind derived = comp_kind component /\
    comp_name derived = comp_name component /\ comp_version derived = comp_version component /\
    comp_source derived = comp_source component /\ comp_build derived = comp_build component /\
    ((comp_id component ∉ ip_component <$> spp_images policy /\ derived = component) \/
     (comp_id component ∈ ip_component <$> spp_images policy /\ exists image, image ∈ images /\
        io_component image = comp_id component /\
        comp_artifact derived = ContainerImage (io_reference image) LocalImage (io_image_id image) None
                                  (io_embedded_artifacts image))).

Lemma elem_of_retain {A} (selected : list string) (key : A -> string) l a :
  a ∈ retain (list_to_set selected) key l <-> a ∈ l /\ key a ∈ selected.
Proof.
  unfold retain. rewrite list_elem_of_In, filter_In, bool_decide_eq_true, elem_of_list_to_set, <-list_elem_of_In. tauto.
Qed.

Lemma derived_component images policy profile component :
  list_to_set (io_component <$> images) =@{gset string} list_to_set (ip_component <$> spp_images policy) ->
  component ∈ prof_components profile -> comp_id component ∈ spp_selected_components policy ->
  derived_from profile images policy (materialize_component (index_by io_component images) component).
Proof.
  intros Hsame Hin Hselected. exists component. unfold materialize_component.
  assert (Himages : comp_id component ∈ ip_component <$> spp_images policy <-> is_Some (index_by io_component images !! comp_id component)).
  { transitivity (comp_id component ∈ (list_to_set (ip_component <$> spp_images policy) : gset string));
      [by rewrite elem_of_list_to_set|]. rewrite <-Hsame, elem_of_list_to_set, list_elem_of_fmap. split.
    - intros (image & -> & Hi). by apply index_by_is_Some.
    - intros [image [Hi <-]%index_by_Some]. by exists image. }
  destruct (index_by io_component images !! comp_id component) as [image|] eqn:Hobserved; cbn; split_and!; try done.
  - right. split; [by apply Himages|]. apply index_by_Some in Hobserved as [Hi Hid]. by exists image.
  - left. split; [|done]. intros Hi%Himages. by destruct Hi.
Qed.

Lemma comp_id_materialize observations component : comp_id (materialize_component observations component) = comp_id component.
Proof. unfold materialize_component. by destruct (observations !! comp_id component). Qed.

(** C38: a rendered scenario profile is the encoding of a valid, runnable
    profile that narrows its source and invents nothing: the source bytes parse and
    have the digest the observation file states; the derived profile has a new
    identifier and exactly the selected components, each with the identity, source
    and build it had, and either unchanged or, exactly when the policy has an image
    for it, with the observed local image; services and adapters are those of
    selected components; every policy image was observed once, for the profile's
    platform, with the component's source revision, the required labels and the
    required artifacts, sized and typed; and every artifact copied between two
    images is the same bytes in both. *)
Theorem rendered_profile_is_materialized source observation policy rendered :
  render_scenario_profile source observation policy = Ok rendered ->
  exists profile m derived,
    parse_contract source = Ok (ProfileDocument profile) /\ decode_materialization observation = Ok m /\
    digest_value (spo_digest (spm_source_profile m)) = hash_text source /\
    pretty_json derived = Ok rendered /\ validate derived = Ok tt /\ prof_readiness derived = Runnable /\
    prof_id derived <> prof_id profile /\
    (forall id, id ∈ comp_id <$> prof_components derived <-> id ∈ spp_selected_components policy) /\
    Forall (derived_from profile (spm_images m) policy) (prof_components derived) /\
    (forall s, s ∈ prof_services derived <-> s ∈ prof_services profile /\ svc_component s ∈ spp_selected_components policy) /\
    (forall a, a ∈ prof_catalog_adapters derived <->
       a ∈ prof_catalog_adapters profile /\ ad_catalog a ∈ spp_selected_components policy) /\
    NoDup (io_component <$> spm_images m) /\ Forall (observed_image profile (spm_images m)) (spp_images policy) /\
    Forall (copied (spm_images m)) (spp_artifact_copies policy).
Proof.
  unfold render_scenario_profile, context. intros (validated & Hpolicy & Hr)%bind_Ok.
  apply bind_Ok in Hr as (profile & Hprofile & Hr). apply bind_Ok in Hr as (m & Hm%map_err_Ok_iff & Hr).
  apply check_Ok in Hr as [Hchecks Hr]. cbv zeta in Hr. apply check_Ok in Hr as [Hvalid%map_err_Ok_iff Hr].
  pose proof (policy_Ok _ _ Hpolicy) as [Hselected _].
  apply (materialization_Ok _ _ _ _ _ Hpolicy) in Hchecks as (_ & Hid & Hdigest & Hpresent & Hsame & Hnd & Hobserved & Hcopied).
  unfold decode_profile in Hprofile. apply bind_Ok in Hprofile as (document & Hparse%map_err_Ok_iff & Hkind).
  destruct document; try done. injection Hkind as ->.
  exists profile, m, (materialized_profile profile observation m policy validated).
  split_and!; try done; cbn [materialized_profile prof_components prof_services prof_catalog_adapters]; rewrite ?Hselected.
  - intros id. rewrite <-list_fmap_compose. split.
    + intros (component & -> & [_ Hin]%elem_of_retain)%list_elem_of_fmap. cbn. by rewrite comp_id_materialize.
    + intros Hin. pose proof (Hpresent id Hin) as (component & -> & Hc)%list_elem_of_fmap. apply list_elem_of_fmap.
      exists component. split; [cbn; by rewrite comp_id_materialize|]. by apply elem_of_retain.
  - apply Forall_forall. intros derived (component & -> & [Hin Hs]%elem_of_retain)%list_elem_of_fmap.
    by apply derived_component.
  - intros s. apply elem_of_retain.
  - intros a. apply elem_of_retain.
Qed.

(** ** Files *)

Context {W : Type} `{FileTree W}.

(** What is written checks: when a profile was written, the file
    reads back what was written, and the two inputs still read as before, then checking
    the same paths under the same policy succeeds; rendering is a function of the
    bytes of the inputs. *)
Theorem written_profile_checks source observation output policy command w w' :
  write_scenario_profile source observation output policy w = (Ok tt, w') ->
  (forall content before after, fs_write output content before = (Ok tt, after) -> fs_read output after = Ok content) ->
  fs_read source w' = fs_read source w -> fs_read observation w' = fs_read observation w ->
  check_scenario_profile source observation output policy command w' = Ok tt.
Proof.
  intros Hwrite Hlaw Hsource Hobservation. unfold write_scenario_profile, check_scenario_profile in *.
  assert (Hrender : render_from_paths source observation policy w' = render_from_paths source observation policy w)
    by (unfold render_from_paths; by rewrite Hsource, Hobservation).
  rewrite Hrender. destruct (render_from_paths source observation policy w) as [rendered|]; [|done].
  destruct (create_parent output w) as [[[]|] w1]; [|done].
  destruct (fs_write output rendered w1) as [[[]|] w2] eqn:Hw; [|done]. injection Hwrite as <-.
  rewrite (Hlaw _ _ _ Hw). cbn. by rewrite String.eqb_refl.
Qed.
End Materialized.

(** ** The shipped policies *)

(** The policies of the five profiles. *)
Definition shipped_policies : list ScenarioProfilePolicy :=
  [ContentionProfile.POLICY; Phase1Profile.POLICY; SparkProfile.POLICY_V1; SparkProfile.POLICY_V2; FlinkProfile.POLICY;
   TrinoProfile.POLICY].

(** The media type a policy requires at a location of a component's image. *)
Definition required_type (policy : ScenarioProfilePolicy) (component location : string) : option string :=
  image ← find (fun image => ip_component image =? component) (spp_images policy);
  artifact ← find (fun artifact => ap_location artifact =? location) (ip_required_artifacts image);
  Some (ap_media_type artifact).

(** Every shipped policy is well formed (it passes its own check)
    and can be met: the two sides of every artifact copy are required with one media
    type, so no policy asks for images that no observation can describe. *)
Theorem shipped_policies_can_be_met policy :
  policy ∈ shipped_policies ->
  is_ok (validate_policy policy) = true /\
  forall copy, copy ∈ spp_artifact_copies policy -> exists media_type,
    required_type policy (acp_source_component copy) (acp_source_location copy) = Some media_type /\
    required_type policy (acp_destination_component copy) (acp_destination_location copy) = Some media_type.
Proof.
  intros Hin. split.
  - revert policy Hin. apply Forall_forall. repeat constructor; vm_compute; reflexivity.
  - intros copy Hcopy.
    assert (Hall : Forall (fun policy => forallb (fun copy =>
        match required_type policy (acp_source_component copy) (acp_source_location copy),
              required_type policy (acp_destination_component copy) (acp_destination_location copy) with
        | Some t, Some u => t =? u
        | _, _ => false
        end) (spp_artifact_copies policy) = true) shipped_policies)
      by (repeat constructor; vm_compute; reflexivity).
    rewrite Forall_forall in Hall. specialize (Hall _ Hin). rewrite forallb_forall in Hall.
    apply list_elem_of_In, Hall in Hcopy.
    destruct (required_type policy (acp_source_component copy) _) as [t|]; [|done].
    destruct (required_type policy (acp_destination_component copy) _) as [u|]; [|done].
    apply String.eqb_eq in Hcopy as ->. by exists u.
Qed.
