(* ===== verification/CommunityPublication.v ===== *)
(** * The publication index and the secret review
      (crates/contract-tool/src/community_publication.rs)

    Every published bundle is loaded, its files are scanned for secrets, and the
    index and the known-gaps report are rendered from the loaded bundles. *)

From S2P Require Import Prelude Order RustStr Json ContractValue ContractScenario ContractAdapter ContractProfile.
From S2P Require Import ContractResult ContractDocument Ledger EnginePlan ToolFiles Publication Bundle.
From Stdlib Require Import Ascii.
Open Scope string_scope.

Definition INDEX : string := "results/v1/INDEX.md".
Definition KNOWN_GAPS : string := "results/v1/KNOWN-GAPS.md".

Inductive PublicationProfile := Smoke | Full.

(** A line feed. *)
Definition lf : string := String (ascii_of_N 10) "".

(** ** The secret scan *)

Definition SECRET_TEXTS : list string :=
  ["authorization: bearer "; "-----begin private key-----"; "-----begin rsa private key-----"; "minioadmin"].

Definition SECRET_KEYS : list string :=
  ["password"; "secret"; "secret_key"; "access_key"; "authorization"; "bearer_token"; "client_secret"].

Definition normalized_key (key : string) : string := replace_byte 45 (ascii_of_N 95) (to_ascii_lowercase key).

(** [matches!(value.as_str(), Some("<redacted>" | "[REDACTED]"))]. *)
Definition redacted_value (value : Value) : bool :=
  match value with Str text => (text =? "<redacted>") || (text =? "[REDACTED]") | _ => false end.

Definition secret_key (key : string) : bool := existsb (String.eqb (normalized_key key)) SECRET_KEYS.

Fixpoint scan_json (path : string) (value : Value) : result unit Chain :=
  match value with
  | Object entries =>
      (fix members (entries : list (string * Value)) : result unit Chain :=
        match entries with
        | [] => Ok tt
        | (key, value) :: entries =>
            guard secret_key key && negb (redacted_value value)
              or ["bundle secret scan rejected " +:+ path +:+ ": non-redacted `" +:+ key +:+ "` field"] in
            check? scan_json path value in
            members entries
        end) entries
  | Array values =>
      (fix elements (values : list Value) : result unit Chain :=
        match values with
        | [] => Ok tt
        | value :: values => check? scan_json path value in elements values
        end) values
  | _ => Ok tt
  end.

(** A window of twenty bytes that looks like an access key. *)
Definition aws_window (window : list ascii) : bool :=
  bool_decide (take 4 window = RustStr.bytes "AKIA")
  && forallb (fun byte => is_ascii_uppercase byte || is_ascii_digit byte) (drop 4 window).

(** [windows(20).any(..)]. *)
Fixpoint contains_aws_access_key (bytes : list ascii) : bool :=
  match bytes with
  | [] => false
  | _ :: rest => (20 <=? length bytes)%nat && aws_window (take 20 bytes) || contains_aws_access_key rest
  end.

Section Publication.
Context `{UrlParser, ContractDecoders, Sha256} {W : Type} `{FileTree W}.

Definition scan_file (w : W) (path : string) : result unit Chain :=
  let? bytes := context ("failed to secret-scan " +:+ path) (fs_read path w) in
  let text := from_utf8_lossy bytes in
  let lower := to_ascii_lowercase text in
  check? check_all (fun forbidden =>
    guard contains forbidden lower
      or ["bundle secret scan rejected " +:+ path +:+ ": matched `" +:+ forbidden +:+ "`"] in Ok tt) SECRET_TEXTS in
  guard contains_aws_access_key (RustStr.bytes text)
    or ["bundle secret scan rejected " +:+ path +:+ ": AWS access-key shape"] in
  match from_slice bytes with
  | Ok value => scan_json path value
  | Err _ => Ok tt
  end.

Definition resolve_artifact (manifest location : string) : result string Chain :=
  guard contains "://" location || starts_with "/" location
    or ["secret scan refuses non-local artifact `" +:+ location +:+ "`"] in
  let? parent := ok_or (parent_path manifest) ["manifest has no parent"] in
  Ok (join_path parent location).

(** The paths of a bundle, in the order they are inserted. *)
Definition bundle_paths (bundle : ValidatedBundle) : result (list string) Chain :=
  let resolve (artifact : ArtifactReference) := resolve_artifact (vb_manifest_path bundle) (artifact_location artifact) in
  let? results := collect_results (fun r =>
    let? evidence := collect_results (fun evidence => resolve (ev_artifact evidence)) (rec_evidence (vr_result r)) in
    let? artifacts := collect_results resolve (rec_artifacts (vr_result r)) in
    Ok (vr_path r :: evidence ++ artifacts)%list) (vb_results bundle) in
  let? source := collect_results resolve (man_source_evidence (vb_manifest bundle)) in
  Ok ([vb_manifest_path bundle; vb_profile_path bundle] ++ (vs_path <$> vb_scenarios bundle) ++ List.concat results
      ++ source)%list.

Definition scan_bundle (bundle : ValidatedBundle) (w : W) : result unit Chain :=
  let? paths := bundle_paths bundle in
  check_all (scan_file w) (path_set paths).

(** ** The index *)

Definition outcome_name (outcome : ResultOutcome) : string :=
  match outcome with
  | ResultPass _ => "pass" | ResultFail _ => "fail" | Unsupported _ => "unsupported" | NotTested _ => "not-tested"
  end.

Definition provenance_name (provenance : Provenance) : string :=
  match provenance with
  | LiveRun _ _ _ _ => "live-run" | HistoricalImport _ _ _ => "historical-import" | Fixture _ => "fixture"
  end.

(** [value.replace('|', "\\|").replace(['\r', '\n'], " ")]. *)
Definition markdown (value : string) : string :=
  map_bytes (fun c => if is_byte 13 c || is_byte 10 c then ascii_of_N 32 else c) (replace "|" "\|" value).

Definition is_pass (outcome : ResultOutcome) : bool := match outcome with ResultPass _ => true | _ => false end.
Definition assertion_pass (outcome : AssertionOutcome) : bool :=
  match outcome with AssertionPass => true | _ => false end.

Definition count_if {A} (p : A -> bool) (l : list A) : Z := len (List.filter p l).

Definition index_row (root : string) (bundle : ValidatedBundle) : result string Chain :=
  let pass := count_if (fun r => is_pass (rec_outcome (vr_result r))) (vb_results bundle) in
  let? relative := context "bundle manifest escaped result publication root"
    (strip_prefix_parts (join_path root "results/v1") (vb_manifest_path bundle)) in
  Ok ("| [" +:+ markdown (man_title (vb_manifest bundle)) +:+ "](" +:+ parts_path relative +:+ ") | "
      +:+ man_created_at (vb_manifest bundle) +:+ " | " +:+ provenance_name (man_provenance (vb_manifest bundle)) +:+ " | "
      +:+ display (len (vb_scenarios bundle)) +:+ " | " +:+ display (len (vb_results bundle)) +:+ " | " +:+ display pass
      +:+ " | " +:+ display (len (vb_results bundle) - pass) +:+ " |" +:+ lf).

(** The line of an assertion that did not pass. *)
Definition gap_line (assertion : AssertionEvaluation) : string :=
  let detail := match eval_outcome assertion with
                | AssertionPass => "" | AssertionFail explanation => explanation | NotEvaluated reason => reason
                end in
  "  - `" +:+ eval_assertion assertion +:+ "` (" +:+ (if eval_required assertion then "required" else "optional")
  +:+ "): " +:+ markdown detail +:+ lf.

(** The assertions of a result that did not pass, and whether it has a gap. *)
Definition assertion_gaps (record : ResultRecord) : list AssertionEvaluation :=
  List.filter (fun assertion => negb (assertion_pass (eval_outcome assertion))) (rec_assertions record).
Definition has_gap (record : ResultRecord) : bool :=
  negb (is_pass (rec_outcome record)) || negb (match assertion_gaps record with [] => true | _ => false end).

Definition gap_entry (bundle : ValidatedBundle) (record : ResultRecord) : string :=
  "## " +:+ markdown (exec_name (rec_catalog record)) +:+ " — " +:+ markdown (exec_version (rec_catalog record)) +:+ lf +:+ lf
  +:+ "- Bundle: `" +:+ man_id (vb_manifest bundle) +:+ "`" +:+ lf +:+ "- Scenario: `" +:+ sref_id (rec_scenario record)
  +:+ "` v" +:+ display (sref_version (rec_scenario record)) +:+ lf +:+ "- Outcome: `" +:+ outcome_name (rec_outcome record)
  +:+ "`" +:+ lf
  +:+ match assertion_gaps record with
      | [] => "- Assertion gaps: none (the result-level outcome is non-pass)." +:+ lf +:+ lf
      | gaps => "- Assertion gaps:" +:+ lf +:+ String.concat "" (gap_line <$> gaps) +:+ lf
      end.

Record Publication := { pub_index : string; pub_known_gaps : string }.

Definition INDEX_HEADER : string :=
  "# Catalog Bench Published Bundles" +:+ lf +:+ lf
  +:+ "This page is generated from validated immutable manifests. Smoke evidence under `target/` is not included." +:+ lf +:+ lf
  +:+ "| Bundle | Created | Provenance | Scenarios | Results | Pass | Non-pass |" +:+ lf
  +:+ "| --- | --- | --- | ---: | ---: | ---: | ---: |" +:+ lf.
Definition INDEX_FOOTER : string :=
  lf +:+ "Regenerate and verify with `./publish-results.sh smoke`; use `./publish-results.sh full` to recompute every source-backed checked-in bundle first." +:+ lf.
Definition GAPS_HEADER : string :=
  "# Catalog Bench Known Gaps" +:+ lf +:+ lf
  +:+ "This page is generated from validated non-pass results and assertion outcomes. Absence from this page is not a claim of untested support." +:+ lf +:+ lf.
Definition NO_GAPS : string := "No checked-in result currently has a non-pass outcome or assertion." +:+ lf.

(** [discover_manifests]. *)
Definition discover_manifests (directory : string) (w : W) : result (list string) Chain :=
  let? entries := context ("failed to read " +:+ directory) (fs_read_dir directory w) in
  let? manifests := collect_results (fun entry : result DirEntry string =>
    let? entry := map_err (fun e => [e]) entry in
    let path := join_path directory (entry_name entry) in
    let? file_type := map_err (fun e => [e]) (entry_type entry) in
    let manifest := join_path path "manifest.json" in
    Ok (match file_type with
        | Directory => if fs_is_file manifest w then [manifest] else []
        | Regular | OtherFile => []
        end)) entries in
  Ok (sort_by path_cmp (List.concat manifests)).

Definition render_publication (root : string) (w : W) : result Publication Chain :=
  let? manifests := discover_manifests (join_path root "results/v1") w in
  guard match manifests with [] => true | _ => false end or ["publication contains no result bundle manifests"] in
  let? bundles := collect_results (fun manifest =>
    let? bundle := load_bundle manifest w in
    check? scan_bundle bundle w in
    Ok bundle) manifests in
  let? rows := collect_results (index_row root) bundles in
  let gaps := bundles ≫= (fun bundle => gap_entry bundle <$> List.filter has_gap (vr_result <$> vb_results bundle)) in
  Ok {| pub_index := INDEX_HEADER +:+ String.concat "" rows +:+ INDEX_FOOTER;
        pub_known_gaps := GAPS_HEADER +:+ String.concat "" gaps +:+ match gaps with [] => NO_GAPS | _ => "" end |}.

Definition check_bytes (root relative expected : string) (w : W) : result unit Chain :=
  let path := join_path root relative in
  let? actual := context ("failed to read " +:+ path) (fs_read path w) in
  guard negb (actual =? expected) or [path +:+ " differs from generated publication output"] in
  Ok tt.

(** The bundles that are recomputed from their sources: [check_historical_commit_bundle],
    [check_contention_result_bundle] and [check_phase1_result_bundle]. *)
Class SourceBackedBundles := {
  check_historical_commit_bundle : string -> W -> result unit Chain;
  check_contention_result_bundle : string -> W -> result unit Chain;
  check_phase1_result_bundle : string -> W -> result unit Chain;
}.
Context `{SourceBackedBundles}.

Definition check_publication (root : string) (profile : PublicationProfile) (w : W) : result unit Chain :=
  check? match profile with
         | Full =>
             check? check_historical_commit_bundle root w in
             check? check_contention_result_bundle root w in
             check_phase1_result_bundle root w
         | Smoke => Ok tt
         end in
  let? publication := render_publication root w in
  check? check_bytes root INDEX (pub_index publication) w in
  check_bytes root KNOWN_GAPS (pub_known_gaps publication) w.

Definition write_publication (root : string) (profile : PublicationProfile) (w : W) : result unit Chain * W :=
  match render_publication root w with
  | Err e => (Err e, w)
  | Ok publication =>
      match fs_write (join_path root INDEX) (pub_index publication) w with
      | (Err e, w) => (Err ["failed to write publication index"; e], w)
      | (Ok _, w) =>
          match fs_write (join_path root KNOWN_GAPS) (pub_known_gaps publication) w with
          | (Err e, w) => (Err ["failed to write known-gaps report"; e], w)
          | (Ok _, w) => (check_publication root profile w, w)
          end
      end
  end.
End Publication.
Arguments SourceBackedBundles W : clear implicits.

(** ** A checked publication holds no secret
      (crates/contract-tool/src/community_publication.rs) *)

(** ** Members at any depth *)

Inductive member : Value -> string -> Value -> Prop :=
| member_here entries key value : (key, value) ∈ entries -> member (Object entries) key value
| member_object entries k inner key value :
    (k, inner) ∈ entries -> member inner key value -> member (Object entries) key value
| member_array values inner key value :
    inner ∈ values -> member inner key value -> member (Array values) key value.

(** No member with a secret name has a value that is not redacted. *)
Definition members_redacted (value : Value) : Prop :=
  forall key inner, member value key inner -> secret_key key = true -> redacted_value inner = true.

Lemma scan_array_Ok path values :
  scan_json path (Array values) = Ok tt <-> Forall (fun v => scan_json path v = Ok tt) values.
Proof.
  cbn [scan_json]. induction values as [|v values IH]; [by split|]. rewrite check_Ok, IH, Forall_cons. done.
Qed.

Lemma scan_object_Ok path entries :
  scan_json path (Object entries) = Ok tt <->
  Forall (fun entry => (secret_key entry.1 = true -> redacted_value entry.2 = true) /\ scan_json path entry.2 = Ok tt) entries.
Proof.
  cbn [scan_json]. induction entries as [|[key v] entries IH]; [by split|].
  rewrite guard_Ok, check_Ok, IH, Forall_cons. cbn [fst snd]. destruct (secret_key key), (redacted_value v); naive_solver.
Qed.

Lemma scan_json_Ok path value : scan_json path value = Ok tt <-> members_redacted value.
Proof.
  induction value as [|b|n|s|values IH|entries IH] using Value_nested_ind;
    try (by split; [intros _ key inner Hm; inversion Hm | done]).
  - rewrite scan_array_Ok. split.
    + intros Hall key inner Hm. inversion Hm as [| |values' v key' inner' Hin Hv]; subst.
      rewrite Forall_forall in Hall, IH. by apply (IH v Hin) in Hv; [|apply Hall].
    + intros Hred. apply Forall_forall. intros v Hin. rewrite Forall_forall in IH. apply IH; [done|].
      intros key inner Hm. apply Hred. by eapply member_array.
  - rewrite scan_object_Ok. split.
    + intros Hall key inner Hm. rewrite Forall_forall in Hall. pose proof (proj1 (Forall_forall _ _) IH) as IH'.
      inversion Hm as [entries' key' v Hin|entries' k v key' inner' Hin Hv|]; subst.
      * by apply (Hall _ Hin).
      * apply (IH' v); [by apply list_elem_of_fmap; exists (k, v)|by apply (Hall _ Hin)|done].
    + intros Hred. apply Forall_forall. intros [key v] Hin. pose proof (proj1 (Forall_forall _ _) IH) as IH'. split.
      * apply Hred. by apply member_here.
      * apply IH'; [by apply list_elem_of_fmap; exists (key, v)|].
        intros key' inner Hm. apply Hred. by eapply member_object.
Qed.

(** ** Access keys *)

Lemma contains_aws_spec bytes :
  contains_aws_access_key bytes = true <-> exists before window after,
    bytes = (before ++ window ++ after)%list /\ length window = 20%nat /\ aws_window window = true.
Proof.
  induction bytes as [|byte bytes IH]; cbn [contains_aws_access_key].
  - split; [done|]. intros ([|] & [|] & ? & ? & ? & ?); done.
  - rewrite orb_true_iff, andb_true_iff, IH, Nat.leb_le. split.
    + intros [[Hlen Hw]|(before & window & after & -> & Hlen & Hw)].
      * exists [], (take 20 (byte :: bytes)), (drop 20 (byte :: bytes)). rewrite app_nil_l, take_drop. split_and!; try done.
        rewrite length_take. lia.
      * by exists (byte :: before), window, after.
    + intros ([|b before] & window & after & Heq & Hlen & Hw).
      * left. rewrite app_nil_l in Heq. rewrite Heq, length_app, <-Hlen, take_app_length. split; [lia|done].
      * right. injection Heq as -> ->. by exists before, window, after.
Qed.

(** ** Files *)

(** The texts the review rejects do not occur in a file, in any case, no access key
    does, and no JSON member holds a secret. *)
Definition clean_file `{ContractDecoders} (bytes : string) : Prop :=
  (forall forbidden, forbidden ∈ SECRET_TEXTS -> contains forbidden (to_ascii_lowercase (from_utf8_lossy bytes)) = false) /\
  (forall before window after, RustStr.bytes (from_utf8_lossy bytes) = (before ++ window ++ after)%list ->
     length window = 20%nat -> aws_window window = false) /\
  (forall value, from_slice bytes = Ok value -> members_redacted value).

Section Review.
Context `{UrlParser, ContractDecoders, Sha256} {W : Type} `{FileTree W}.

Lemma scan_file_Ok w path : scan_file w path = Ok tt <-> exists bytes, fs_read path w = Ok bytes /\ clean_file bytes.
Proof.
  unfold scan_file, clean_file, context. rewrite bind_Ok. setoid_rewrite map_err_Ok_iff. cbv zeta.
  setoid_rewrite check_Ok. setoid_rewrite check_all_Ok. setoid_rewrite guard_Ok. setoid_rewrite Forall_forall.
  apply exist_proper. intros bytes. apply and_iff_compat_l.
  assert (Haws : contains_aws_access_key (RustStr.bytes (from_utf8_lossy bytes)) = false
    <-> forall before window after, RustStr.bytes (from_utf8_lossy bytes) = (before ++ window ++ after)%list ->
      length window = 20%nat -> aws_window window = false).
  { rewrite <-not_true_iff_false, contains_aws_spec. split.
    - intros Hno before window after Heq Hlen. apply not_true_iff_false. intros Hw. apply Hno; by exists before, window, after.
    - intros Hall (before & window & after & Heq & Hlen & Hw). by rewrite (Hall _ _ _ Heq Hlen) in Hw. }
  rewrite Haws.
  assert (Hjson : match from_slice bytes with Ok value => scan_json path value | Err _ => Ok tt end = Ok tt
    <-> forall value, from_slice bytes = Ok value -> members_redacted value).
  { destruct (from_slice bytes) as [value|]; [rewrite scan_json_Ok|]; naive_solver. }
  rewrite Hjson. naive_solver.
Qed.

Lemma path_set_covers paths path :
  path ∈ paths -> exists same, same ∈ path_set paths /\ path_parts same = path_parts path.
Proof.
  intros Hin. unfold path_set. setoid_rewrite elem_of_sort_by.
  assert (Hkeep : forall paths acc q, q ∈ acc -> q ∈ foldl insert_path acc paths).
  { clear. induction paths as [|p paths IH]; intros acc q Hq; [done|]. cbn [foldl]. apply IH. unfold insert_path.
    destruct (existsb _ acc); [done|]. apply elem_of_app. by left. }
  generalize (@nil string) as acc. induction paths as [|p paths IH]; [by apply elem_of_nil in Hin|]. intros acc. cbn [foldl].
  apply elem_of_cons in Hin as [<-|Hin]; [|by apply IH].
  unfold insert_path at 2. destruct (existsb _ acc) eqn:He.
  - apply existsb_exists in He as (q & Hq & Hparts%bool_decide_eq_true). exists q. split; [|done].
    apply Hkeep. by apply list_elem_of_In.
  - exists path. split; [|done]. apply Hkeep, elem_of_app. right. by left.
Qed.

(** Every file the bundle consists of was read and is clean. *)
Definition clean_bundle (w : W) (bundle : ValidatedBundle) : Prop :=
  exists paths, bundle_paths bundle = Ok paths /\ forall path, path ∈ paths ->
    exists same bytes, path_parts same = path_parts path /\ fs_read same w = Ok bytes /\ clean_file bytes.

Lemma scan_bundle_clean bundle w : scan_bundle bundle w = Ok tt -> clean_bundle w bundle.
Proof.
  unfold scan_bundle. intros (paths & Hpaths & Hscan)%bind_Ok. exists paths. split; [done|]. intros path Hin.
  apply check_all_Ok in Hscan. rewrite Forall_forall in Hscan. destruct (path_set_covers _ _ Hin) as (same & Hsame & Hparts).
  apply Hscan, scan_file_Ok in Hsame as (bytes & Hread & Hclean). eauto.
Qed.

Context `{SourceBackedBundles W}.

(** C28: a publication that checks is what its bundles say and holds
    no secret: the index and the known-gaps report on disk are the rendered ones,
    every discovered manifest loads as a bundle, and each file of each bundle (the
    manifest, the profile, the scenarios, the results, their evidence and artifacts
    and the source evidence) was read and is clean: no bearer header, private key
    or default credential in any letter case, no access key, and in JSON no member
    with a secret name, at any depth, whose value is not redacted. *)
Theorem checked_publication_is_clean root profile w :
  check_publication root profile w = Ok tt ->
  exists publication manifests bundles,
    render_publication root w = Ok publication /\
    fs_read (join_path root INDEX) w = Ok (pub_index publication) /\
    fs_read (join_path root KNOWN_GAPS) w = Ok (pub_known_gaps publication) /\
    discover_manifests (join_path root "results/v1") w = Ok manifests /\ manifests <> [] /\
    Forall2 (fun manifest bundle => load_bundle manifest w = Ok bundle /\ clean_bundle w bundle) manifests bundles.
Proof.
  unfold check_publication. intros (_ & (publication & Hrender & Hcheck)%bind_Ok)%check_Ok.
  apply check_Ok in Hcheck as [Hindex Hgaps].
  assert (Hbytes : forall relative expected, check_bytes root relative expected w = Ok tt ->
    fs_read (join_path root relative) w = Ok expected).
  { intros relative expected. unfold check_bytes, context. cbv zeta.
    intros (actual & Hread%map_err_Ok_iff & [He%negb_false_iff _]%guard_Ok)%bind_Ok. apply String.eqb_eq in He as ->. done. }
  pose proof Hrender as Hr. unfold render_publication in Hr.
  apply bind_Ok in Hr as (manifests & Hmanifests & Hr). apply guard_Ok in Hr as [Hsome Hr].
  apply bind_Ok in Hr as (bundles & Hbundles & _). apply collect_results_Ok in Hbundles.
  exists publication, manifests, bundles. split_and!; try done; [by apply Hbytes.. | by intros -> |].
  eapply Forall2_impl; [exact Hbundles|]. cbn.
  intros manifest bundle (loaded & Hload & (Hscan & [= <-])%check_Ok)%bind_Ok. split; [done|]. by apply scan_bundle_clean.
Qed.
End Review.
