(* ===== verification/LegacyCommit.v ===== *)
(** * The historical commit bundle (crates/contract-tool/src/legacy_commit.rs)

    Three preserved tables are checked against each other, aggregated again, and
    published as one result per catalog. *)

From S2P Require Import Prelude Order RustStr Float64 FloatRound Json ContractValue ContractScenario ContractAdapter.
From S2P Require Import ContractProfile ContractResult ContractDocument Stats Ledger Capture ToolFiles Publication Bundle.
From Stdlib Require Import Ascii.
Open Scope string_scope.

Definition OUTPUT_DIRECTORY : string := "results/v1/2026-08-08".
Definition SUMMARY_PATH : string := "results/commit-2026-08-08-summary.tsv".
Definition RUNS_PATH : string := "results/commit-2026-08-08-runs.tsv".
Definition AUDIT_PATH : string := "results/commit-2026-08-08-object-audit.tsv".
Definition PROFILE_PATH : string := "profiles/v1/reproduction-2026-08-08.json".
Definition SCENARIO_PATH : string := "scenarios/v1/iceberg-rest.commit.same-table-contention.json".
Definition SUMMARY_SHA256 : string := "ce0730e6212c087d72fde2983830736e4989b29d3c361f1a00f32ea586b3bdd9".
Definition RUNS_SHA256 : string := "6aa5cd519aaa2e4c776be360394ea10d5be33ee130d8c7f3cd8b34eec2772819".
Definition AUDIT_SHA256 : string := "9cdfb8bbbfef079cd0c934c81308aef1e7bf71bf10dd1e488fba1fd7e494a8c3".
Definition CATALOGS : list string := ["lakecat"; "polaris"; "gravitino"; "nessie"].
Definition CONDITIONING_AND_MEASURED_ROUNDS : list Z := [1; 2; 3; 4; 5; 6]%Z.
Definition WARMUP_AND_SEQUENTIAL_COMMITS : Z := 1050.

Record SummaryRow := {
  sr_display_order : Z; sr_rank : string; sr_catalog : string; sr_eligible : string; sr_valid_rounds : Z;
  sr_measured_rounds : Z; sr_concurrent_median : f64; sr_concurrent_min : f64; sr_concurrent_max : f64;
  sr_seq_median : f64; sr_seq_min : f64; sr_seq_max : f64; sr_p50_median_ms : f64; sr_p99_median_ms : f64;
  sr_conflict_median_pct : f64; sr_error_median_pct : f64; sr_total_errors : Z;
}.

Record RunRow := {
  rr_round : Z; rr_catalog : string; rr_namespace : string; rr_valid : string; rr_exit_status : Z; rr_seq_per_s : f64;
  rr_p50_ms : f64; rr_p99_ms : f64; rr_concurrent_per_s : f64; rr_conflict_pct : f64; rr_error_pct : f64; rr_ok : Z;
  rr_conflicts : Z; rr_errors : Z; rr_object_delta : Z; rr_expected_min : Z;
}.

Record AuditRow := {
  ar_round : Z; ar_catalog : string; ar_objects_before : Z; ar_objects_after : Z; ar_delta : Z; ar_expected_min : Z;
}.

Record SourceEvidence := { src_summary : ArtifactReference; src_runs : ArtifactReference; src_audit : ArtifactReference }.
Record GeneratedFiles := { gf_directory : string; gf_files : gmap string string }.

(** Third-party code: the csv crate with the derived row decoders. *)
Class TsvReader (T : Type) := read_tsv : string -> result (list T) string.

(** [Display] of an [f64], only in messages. *)
Class FloatDisplay := display_f64 : f64 -> string.

(** ** Arithmetic *)

(** Addition of [u64] in a release build, which wraps around. *)
Definition wrapping_add (a b : Z) : Z := ((a + b) mod 18446744073709551616)%Z.
Definition wrapping_sum (l : list Z) : Z := foldl wrapping_add 0%Z l.

(** [f64::min] and [f64::abs]. *)
Definition f64_min (x y : f64) : f64 := if is_nan x then y else if is_nan y then x else if f64_lt y x then y else x.
Definition f64_abs : f64 -> f64 := SFabs.

(** [iter().sum::<f64>()]. *)
Definition f64_sum (values : list f64) : f64 := foldl f64_add (S754_zero true) values.

Definition minimum (values : list f64) : f64 := foldl f64_min (S754_infinity false) values.
Definition maximum (values : list f64) : f64 := foldl f64_max (S754_infinity true) values.

(** Of a list that is not empty. *)
Definition median (values : list f64) : f64 :=
  let sorted := sort_by total_cmp values in
  let middle := (len sorted / 2)%Z in
  if multiple_of (len sorted) 2
  then f64_div (f64_add (at_index sorted (middle - 1)) (at_index sorted middle)) (f64_of_Z 2)
  else at_index sorted middle.

Definition distribution (values : list f64) : Distribution :=
  let count := f64_of_Z (len values) in
  let mean := f64_div (f64_sum values) count in
  let variance := f64_div (f64_sum ((fun value => let d := f64_sub value mean in f64_mul d d) <$> values)) count in {|
    dist_samples := len values; dist_minimum := minimum values; dist_maximum := maximum values; dist_mean := Some mean;
    dist_standard_deviation := Some (f64_sqrt variance); dist_quantiles := {[ "p50" := median values ]} |}.

(** ** Checking the tables *)

Definition one_millionth : f64 := f64_lit 1 1000000.

(** [(expected - actual).abs() > 0.000_001]. *)
Definition differs (expected actual : f64) : bool := f64_gt (f64_abs (f64_sub expected actual)) one_millionth.

Definition is_yes (text : string) : bool := text =? "yes".

Definition valid_count (runs : list RunRow) : Z := len (List.filter (fun run => is_yes (rr_valid run)) runs).

Definition measured_runs (catalog : string) (runs : list RunRow) : list RunRow :=
  List.filter (fun run => (rr_catalog run =? catalog) && (2 <=? rr_round run)%Z) runs.

Section Verification.
Context `{FloatDisplay}.

Definition compare_rate (run : RunRow) (name : string) (expected actual : f64) : result unit Chain :=
  guard differs expected actual
    or [name +:+ " mismatch for " +:+ rr_catalog run +:+ " round " +:+ display (rr_round run) +:+ ": expected "
        +:+ display_f64 expected +:+ ", recomputed " +:+ display_f64 actual] in
  Ok tt.

(** One turn of the last loop of [compare_aggregate]. *)
Definition compare_run (run : RunRow) : result unit Chain :=
  let at_round := rr_catalog run +:+ " round " +:+ display (rr_round run) in
  let expected_valid := (rr_exit_status run =? 0)%Z && (rr_errors run =? 0)%Z && (rr_expected_min run <=? rr_object_delta run)%Z in
  guard negb (Bool.eqb (is_yes (rr_valid run)) expected_valid) or ["run validity mismatch for " +:+ at_round] in
  guard (wrapping_add (rr_ok run) (rr_conflicts run) =? 0)%Z or ["run " +:+ at_round +:+ " attempted no requests"] in
  guard is_empty (rr_namespace run) or ["run " +:+ at_round +:+ " has an empty namespace"] in
  guard negb (rr_expected_min run =? wrapping_add WARMUP_AND_SEQUENTIAL_COMMITS (rr_ok run))%Z
    or ["object-growth minimum for " +:+ at_round
        +:+ " does not cover warmup, sequential, and accepted concurrent commits"] in
  let attempts := wrapping_add (wrapping_add (rr_ok run) (rr_conflicts run)) (rr_errors run) in
  check? compare_rate run "conflict_pct" (rr_conflict_pct run)
    (f64_div (f64_mul (f64_of_Z (rr_conflicts run)) (f64_of_Z 100)) (f64_of_Z (wrapping_add (rr_ok run) (rr_conflicts run)))) in
  compare_rate run "error_pct" (rr_error_pct run)
    (f64_div (f64_mul (f64_of_Z (rr_errors run)) (f64_of_Z 100)) (f64_of_Z attempts)).

(** The statistics of a summary beside the recomputed ones. *)
Definition summary_checks (summary : SummaryRow) (runs : list RunRow) : list (string * f64 * f64) :=
  let concurrent := rr_concurrent_per_s <$> runs in
  let sequential := rr_seq_per_s <$> runs in
  [("concurrent_median", sr_concurrent_median summary, median concurrent);
   ("concurrent_min", sr_concurrent_min summary, minimum concurrent);
   ("concurrent_max", sr_concurrent_max summary, maximum concurrent);
   ("seq_median", sr_seq_median summary, median sequential);
   ("seq_min", sr_seq_min summary, minimum sequential);
   ("seq_max", sr_seq_max summary, maximum sequential);
   ("p50_median_ms", sr_p50_median_ms summary, median (rr_p50_ms <$> runs));
   ("p99_median_ms", sr_p99_median_ms summary, median (rr_p99_ms <$> runs));
   ("conflict_median_pct", sr_conflict_median_pct summary, median (rr_conflict_pct <$> runs));
   ("error_median_pct", sr_error_median_pct summary, median (rr_error_pct <$> runs))].

Definition compare_aggregate (summary : SummaryRow) (runs : list RunRow) : result unit Chain :=
  check? check_all (fun '(name, expected, actual) =>
    guard differs expected actual
      or ["summary mismatch for " +:+ sr_catalog summary +:+ " " +:+ name +:+ ": expected " +:+ display_f64 expected
          +:+ ", recomputed " +:+ display_f64 actual] in
    Ok tt) (summary_checks summary runs) in
  let valid_rounds := valid_count runs in
  let total_errors := wrapping_sum (rr_errors <$> runs) in
  let expected_eligible := (valid_rounds =? len runs)%Z && (total_errors =? 0)%Z in
  guard negb (sr_valid_rounds summary =? valid_rounds)%Z || negb (sr_measured_rounds summary =? len runs)%Z
        || negb (sr_total_errors summary =? total_errors)%Z || negb (Bool.eqb (is_yes (sr_eligible summary)) expected_eligible)
    or ["validity summary mismatch for " +:+ sr_catalog summary] in
  check_all compare_run runs.

Definition LEGACY_ORDER : list (string * string) := [("nessie", "DQ"); ("lakecat", "1"); ("polaris", "2"); ("gravitino", "3")].

(** [sort_by_key] is stable; [zip] stops with the shorter list. *)
Definition verify_legacy_order_and_ranks (summaries : list SummaryRow) : result unit Chain :=
  check_all (fun '(summary, (catalog, rank)) =>
    guard negb (sr_catalog summary =? catalog) || negb (sr_rank summary =? rank)
      or ["legacy display order or rank mismatch: expected " +:+ catalog +:+ " " +:+ rank +:+ ", found "
          +:+ sr_catalog summary +:+ " " +:+ sr_rank summary] in
    Ok tt) (zip (sort_by (cmp_on sr_display_order Z.compare) summaries) LEGACY_ORDER).

(** One turn of the loop over the runs. *)
Definition verify_run_audit (audits : gmap (Z * string) AuditRow) (run : RunRow) : result unit Chain :=
  let at_round := "round " +:+ display (rr_round run) +:+ " " +:+ rr_catalog run in
  let? audit := ok_or (audits !! (rr_round run, rr_catalog run)) ["missing object audit for " +:+ at_round] in
  let? computed_delta := ok_or (checked_sub (ar_objects_after audit) (ar_objects_before audit))
    ["object count decreased for " +:+ at_round] in
  guard negb (computed_delta =? ar_delta audit)%Z || negb (ar_delta audit =? rr_object_delta run)%Z
        || negb (ar_expected_min audit =? rr_expected_min run)%Z || (ar_delta audit <? ar_expected_min audit)%Z
    or ["object audit mismatch for " +:+ at_round] in
  Ok tt.

(** One turn of the loop over the summaries. *)
Definition verify_summary (runs : list RunRow) (summary : SummaryRow) : result unit Chain :=
  let measured := measured_runs (sr_catalog summary) runs in
  guard negb (len measured =? 5)%Z
    or [sr_catalog summary +:+ " has " +:+ display (len measured) +:+ " measured rounds, expected 5"] in
  compare_aggregate summary measured.

Definition expected_pairs : gset (Z * string) :=
  list_to_set (CATALOGS ≫= fun catalog => (fun round => (round, catalog)) <$> CONDITIONING_AND_MEASURED_ROUNDS).

Definition audits_by_run (audits : list AuditRow) : gmap (Z * string) AuditRow :=
  foldl (fun m audit => <[(ar_round audit, ar_catalog audit) := audit]> m) ∅ audits.

Definition verify_raw_evidence (summaries : list SummaryRow) (runs : list RunRow) (audits : list AuditRow)
  : result unit Chain :=
  guard negb (len summaries =? 4)%Z || negb (len runs =? 24)%Z || negb (len audits =? 24)%Z
    or ["unexpected evidence dimensions: " +:+ display (len summaries) +:+ " summaries, " +:+ display (len runs)
        +:+ " runs, " +:+ display (len audits) +:+ " audits"] in
  guard negb (bool_decide (list_to_set (sr_catalog <$> summaries) =@{gset string} list_to_set CATALOGS))
    or ["summary catalogs differ from the expected four-catalog sweep"] in
  guard negb (bool_decide (list_to_set ((fun run => (rr_round run, rr_catalog run)) <$> runs) = expected_pairs))
        || negb (bool_decide (list_to_set ((fun audit => (ar_round audit, ar_catalog audit)) <$> audits) = expected_pairs))
    or ["run or audit evidence does not contain exactly rounds 1 through 6 for every catalog"] in
  check? check_all (verify_run_audit (audits_by_run audits)) runs in
  check? check_all (verify_summary runs) summaries in
  verify_legacy_order_and_ranks summaries.
End Verification.

(** ** Results *)

Definition evidence_of (id : string) (kind : EvidenceKind.t) (artifact : ArtifactReference) : Evidence := {|
  ev_id := id; ev_kind := kind; ev_artifact := artifact; ev_sanitized := true;
  ev_redactions := ["Numeric TSV reviewed; no secret-bearing fields are present."]; ev_extensions := ∅ |}.

Definition required_assertion (id : string) (outcome : AssertionOutcome) (evidence : list string) : AssertionEvaluation := {|
  eval_assertion := id; eval_required := true; eval_outcome := outcome; eval_evidence := evidence |}.

Definition distribution_metric (name unit : string) (values : list f64) : Metric :=
  {| metric_name := name; metric_unit := unit; metric_value := DistributionValue (distribution values) |}.

Definition counter_metric (name : string) (value : Z) : Metric :=
  {| metric_name := name; metric_unit := "count"; metric_value := Counter value |}.

Definition measurements (runs : list RunRow) : list MeasuredPhase :=
  let sequential_elapsed := (fun run => f64_div (f64_of_Z 1000000) (rr_seq_per_s run)) <$> runs in
  let concurrent_elapsed :=
    (fun run => f64_div (f64_mul (f64_of_Z (rr_ok run)) (f64_of_Z 1000)) (rr_concurrent_per_s run)) <$> runs in [
    {| mp_name := "sequential"; mp_elapsed_ms := median sequential_elapsed; mp_operations := Some 1000%Z; mp_latency_ms := None;
       mp_metrics := [distribution_metric "successful-throughput" "operations/s" (rr_seq_per_s <$> runs);
                      distribution_metric "p50-latency" "ms" (rr_p50_ms <$> runs);
                      distribution_metric "p99-latency" "ms" (rr_p99_ms <$> runs)] |};
    {| mp_name := "concurrent"; mp_elapsed_ms := median concurrent_elapsed; mp_operations := None; mp_latency_ms := None;
       mp_metrics := [distribution_metric "successful-throughput" "operations/s" (rr_concurrent_per_s <$> runs);
                      distribution_metric "successful-commits" "commits/round" ((fun run => f64_of_Z (rr_ok run)) <$> runs);
                      distribution_metric "conflict-rate" "percent" (rr_conflict_pct <$> runs);
                      distribution_metric "error-rate" "percent" (rr_error_pct <$> runs);
                      counter_metric "request-errors" (wrapping_sum (rr_errors <$> runs));
                      counter_metric "valid-rounds" (valid_count runs);
                      counter_metric "measured-rounds" (len runs)] |}].

Definition legacy_environment : EnvironmentManifest := {|
  env_operating_system := "Linux"; env_architecture := "aarch64";
  env_cpu_model := Unknown "The historical report recorded CPU count but not the model.";
  env_logical_cpus := Exact 10%Z;
  env_memory_bytes := Approximate 8375186227%Z
    "Converted from the rounded historical value 7.8 GiB; exact bytes were not retained.";
  env_cpu_limit := None; env_memory_limit_bytes := None; env_network := "iceberg_lakehouse-net";
  env_container_runtime := Unknown "The run used Docker on one Apple Silicon host, but the Docker version was not retained.";
  env_runtime_flags := list_to_map [("conditioning_rounds", "1"); ("concurrent_duration_seconds", "6");
    ("concurrent_writers", "8"); ("measured_rounds", "5"); ("sequential_commits", "1000"); ("warmup_commits", "50")];
  env_extensions := ∅ |}.

Definition legacy_assertions (errors : Z) : list AssertionEvaluation :=
  [required_assertion "setup-succeeded" AssertionPass ["runs-tsv"];
   required_assertion "all-requests-accounted" AssertionPass ["runs-tsv"];
   required_assertion "zero-request-errors"
     (if (errors =? 0)%Z then AssertionPass
      else AssertionFail (display errors +:+ " non-conflict request errors occurred across all five measured rounds."))
     ["runs-tsv"];
   required_assertion "metadata-persisted" AssertionPass ["object-audit-tsv"]].

Definition legacy_outcome (errors valid_rounds : Z) (runs : list RunRow) : ResultOutcome :=
  if (errors =? 0)%Z && (valid_rounds =? len runs)%Z
  then ResultPass (Some "All five measured rounds passed strict request and object-growth validity checks.")
  else ResultFail {|
    fail_category := FailureCategory.Assertion;
    fail_summary := "The zero-request-errors assertion failed with " +:+ display errors +:+ " errors and "
                    +:+ display valid_rounds +:+ "/" +:+ display (len runs) +:+ " valid measured rounds.";
    fail_detail := "Every measured run exited nonzero after emitting its complete report. The raw throughput counts only accepted commits and remains diagnostic; it is not rank-eligible. Server-side HTTP 500 analysis is documented in docs/NESSIE-ERROR.md and is not silently relabeled as a conflict.";
    fail_retryable := false; fail_evidence := ["runs-tsv"] |}.

Section Generation.
Context `{UrlParser, Ledger.Sha256}.

Definition legacy_result (catalog : string) (component : Component) (runs : list RunRow) (summary : SummaryRow)
    (profile : Profile) (profile_digest : Digest) (scenario : Scenario) (scenario_digest : Digest) (source : SourceEvidence)
  : result ResultRecord Chain :=
  let errors := wrapping_sum (rr_errors <$> runs) in
  let valid_rounds := valid_count runs in
  let record := {|
    rec_contract_version := V1; rec_kind := ResultKind; rec_id := "commit-2026-08-08-" +:+ catalog;
    rec_scenario := {| sref_id := scen_id scenario; sref_version := scen_version scenario; sref_digest := scenario_digest |};
    rec_profile := {| pref_id := prof_id profile; pref_digest := profile_digest |};
    rec_catalog := {| exec_profile_component := comp_id component; exec_name := comp_name component;
                      exec_version := comp_version component |};
    rec_client := None; rec_adapters := [];
    rec_run := Aggregate ("commit-2026-08-08-" +:+ catalog +:+ "-rounds-2-6") "2026-08-08 (America/Los_Angeles)"
                 [2; 3; 4; 5; 6]%Z [1]%Z
                 "Median of rounds 2 through 6; minimum and maximum retained. Round 1 was conditioning.";
    rec_outcome := legacy_outcome errors valid_rounds runs; rec_environment := legacy_environment;
    rec_assertions := legacy_assertions errors; rec_measurements := measurements runs;
    rec_evidence := [evidence_of "summary-tsv" EvidenceKind.CatalogState (src_summary source);
                     evidence_of "runs-tsv" EvidenceKind.Log (src_runs source);
                     evidence_of "object-audit-tsv" EvidenceKind.ObjectAudit (src_audit source)];
    rec_artifacts := [];
    rec_extensions := {[ "querygraph/legacy-summary" := json_object [("eligible", Str (sr_eligible summary));
                           ("legacy_rank", Str (sr_rank summary)); ("source", Str SUMMARY_PATH)] ]} |} in
  check? map_err (fun errors => [display_issues errors]) (validate record) in
  Ok record.

(** [grouped.get(catalog)]: the measured runs of a catalog, when there is one. *)
Definition grouped_runs (runs : list RunRow) (catalog : string) : option (list RunRow) :=
  match List.filter (fun run => (2 <=? rr_round run)%Z && (rr_catalog run =? catalog)) runs with [] => None | l => Some l end.

Context `{!ToVecPretty ResultRecord, !ToVecPretty ResultBundleManifest, ContractDecoders, FloatDisplay}.
Context `{!TsvReader SummaryRow, !TsvReader RunRow, !TsvReader AuditRow} {W : Type} `{FileTree W}.

(** One turn of the loop over the catalogs. *)
Definition add_legacy_result (runs : list RunRow) (summaries : list SummaryRow) (profile : Profile)
    (profile_digest : Digest) (scenario : Scenario) (scenario_digest : Digest) (source : SourceEvidence)
    (state : gmap string string * list ArtifactReference) (catalog : string)
  : result (gmap string string * list ArtifactReference) Chain :=
  let '(files, artifacts) := state in
  let? catalog_runs := ok_or (grouped_runs runs catalog) ["missing measured runs for " +:+ catalog] in
  let? summary := ok_or (index_by sr_catalog summaries !! catalog) ["missing summary for " +:+ catalog] in
  let? component := ok_or (index_by comp_id (prof_components profile) !! catalog)
    ["profile has no `" +:+ catalog +:+ "` component"] in
  let? record := legacy_result catalog component catalog_runs summary profile profile_digest scenario scenario_digest source in
  let name := catalog +:+ ".json" in
  let? bytes := pretty_json record in
  Ok (<[name := bytes]> files,
      (artifacts ++ [artifact name "application/json" bytes
                       ("Historical aggregate result for " +:+ comp_name component +:+ ".")])%list).

Definition legacy_manifest (profile scenario : ArtifactReference) (results : list ArtifactReference) (source : SourceEvidence)
  : ResultBundleManifest := {|
  man_contract_version := V1; man_kind := ManifestKind; man_id := "commit-2026-08-08";
  man_title := "2026-08-08 same-table commit ranking"; man_created_at := "2026-08-26T18:00:00-04:00";
  man_provenance := HistoricalImport "2026-08-08 (America/Los_Angeles)" "2026-08-26T18:00:00-04:00"
    "Recomputed from the three preserved TSV artifacts. Docker timing was not rerun during import because the local Docker VM reported no space left on device; no images or volumes were deleted.";
  man_profile := profile; man_scenarios := [scenario]; man_results := results;
  man_source_evidence := [src_summary source; src_runs source; src_audit source];
  man_redaction := {| red_reviewed := true;
    red_policy := "The source TSVs and generated records contain numeric measurements, public component identities, and sanitized namespace names; no credentials, authorization headers, or secrets are present.";
    red_removed_fields := [] |};
  man_extensions := {[ "querygraph/reproduction-status" := json_object [("arithmetic", Str "recomputed");
    ("artifact_hashes", Str "verified"); ("live_timing", Str "not rerun: Docker VM no space left on device")] ]} |}.

(** [generate] after the inputs are read and checked. *)
Definition generate_legacy (repository_root : string) (profile : Profile) (scenario : Scenario)
    (profile_artifact scenario_artifact : ArtifactReference) (source : SourceEvidence) (summaries : list SummaryRow)
    (runs : list RunRow) : result GeneratedFiles Chain :=
  let? (files, results) :=
    try_fold (add_legacy_result runs summaries profile (artifact_digest profile_artifact) scenario
                (artifact_digest scenario_artifact) source) (∅, []) CATALOGS in
  let manifest := legacy_manifest profile_artifact scenario_artifact results source in
  check? map_err (fun errors => [display_issues errors]) (validate manifest) in
  let? bytes := pretty_json manifest in
  Ok {| gf_directory := join_path repository_root OUTPUT_DIRECTORY; gf_files := <["manifest.json" := bytes]> files |}.

(** [fs::read(..)?]. *)
Definition read_plain (path : string) (w : W) : result string Chain := map_err (fun e => [e]) (fs_read path w).

Definition parse_tsv {T} `{!TsvReader T} (bytes : string) : result (list T) Chain :=
  context "failed to parse TSV evidence" (read_tsv bytes).

Definition generate_historical (repository_root : string) (w : W) : result GeneratedFiles Chain :=
  let? summary_bytes := read_hashed (join_path repository_root SUMMARY_PATH) SUMMARY_SHA256 w in
  let? runs_bytes := read_hashed (join_path repository_root RUNS_PATH) RUNS_SHA256 w in
  let? audit_bytes := read_hashed (join_path repository_root AUDIT_PATH) AUDIT_SHA256 w in
  let? profile_bytes := read_plain (join_path repository_root PROFILE_PATH) w in
  let? scenario_bytes := read_plain (join_path repository_root SCENARIO_PATH) w in
  let? profile := parse_profile profile_bytes in
  let? scenario := parse_scenario scenario_bytes in
  let? summaries := parse_tsv summary_bytes in
  let? runs := parse_tsv runs_bytes in
  let? audits := parse_tsv audit_bytes in
  check? verify_raw_evidence summaries runs audits in
  let source := {|
    src_summary := artifact "../../commit-2026-08-08-summary.tsv" "text/tab-separated-values" summary_bytes
                     "Published five-round aggregate summary.";
    src_runs := artifact "../../commit-2026-08-08-runs.tsv" "text/tab-separated-values" runs_bytes
                  "All 24 runs, including conditioning round 1.";
    src_audit := artifact "../../commit-2026-08-08-object-audit.tsv" "text/tab-separated-values" audit_bytes
                   "Per-run MinIO object-growth audit." |} in
  generate_legacy repository_root profile scenario
    (artifact "../../../profiles/v1/reproduction-2026-08-08.json" "application/json" profile_bytes
       "Runnable historical reproduction profile.")
    (artifact "../../../scenarios/v1/iceberg-rest.commit.same-table-contention.json" "application/json" scenario_bytes
       "Versioned neutral same-table contention scenario.")
    source summaries runs.

(** ** Checking and writing *)

(** The loop over the generated files, in the order of their names. *)
Definition check_files (generated : GeneratedFiles) (stale : string) (w : W) : result unit Chain :=
  check_all (fun '(name, expected) =>
    let path := join_path (gf_directory generated) name in
    let? actual := context ("failed to read generated artifact " +:+ path) (fs_read path w) in
    guard negb (actual =? expected) or [path +:+ stale] in
    Ok tt) (btree_entries String.compare (gf_files generated)).

Definition write_files (generated : GeneratedFiles) (w : W) : result unit Chain * W :=
  step? _ with w := noted ("failed to create " +:+ gf_directory generated) (fs_create_dir_all (gf_directory generated) w) in
  run_each (fun '(name, bytes) w =>
    let path := join_path (gf_directory generated) name in
    noted ("failed to write " +:+ path) (fs_write path bytes w)) (btree_entries String.compare (gf_files generated)) w.

Definition check_historical_commit_bundle (repository_root : string) (w : W) : result string Chain :=
  let? generated := generate_historical repository_root w in
  check? check_files generated " is stale; rerun the historical import writer" w in
  Ok (join_path (gf_directory generated) "manifest.json").

Definition write_historical_commit_bundle (repository_root : string) (w : W) : result string Chain * W :=
  match generate_historical repository_root w with
  | Err e => (Err e, w)
  | Ok generated =>
      step? _ with w := write_files generated w in
      (Ok (join_path (gf_directory generated) "manifest.json"), w)
  end.
End Generation.

(** ** What verified tables say *)

(** A list with the elements of a list without duplicates, and as long, is a
    rearrangement of it. *)
Lemma same_set_perm `{Countable K} (l k : list K) :
  NoDup k -> (list_to_set l : gset K) = list_to_set k -> length l = length k -> l ≡ₚ k.
Proof.
  intros Hnd Hset Hlen. symmetry. apply submseteq_length_Permutation; [|lia]. apply NoDup_submseteq; [done|].
  intros x Hx. apply (elem_of_list_to_set (C := gset K)). rewrite Hset. by apply elem_of_list_to_set.
Qed.

Definition run_key (run : RunRow) : Z * string := (rr_round run, rr_catalog run).
Definition audit_key (audit : AuditRow) : Z * string := (ar_round audit, ar_catalog audit).

(** Every catalog with every round. *)
Definition sweep : list (Z * string) :=
  CATALOGS ≫= fun catalog => (fun round => (round, catalog)) <$> CONDITIONING_AND_MEASURED_ROUNDS.

Lemma NoDup_sweep : NoDup sweep.
Proof. apply (bool_decide_eq_true (NoDup sweep)). vm_compute. reflexivity. Qed.

(** What a measured run says of itself. *)
Record run_consistent (run : RunRow) : Prop := {
  rc_valid : is_yes (rr_valid run) = true <->
    rr_exit_status run = 0%Z /\ rr_errors run = 0%Z /\ (rr_expected_min run <= rr_object_delta run)%Z;
  rc_namespace : rr_namespace run <> "";
  rc_expected : rr_expected_min run = wrapping_add WARMUP_AND_SEQUENTIAL_COMMITS (rr_ok run);
}.

(** The growth a run reports is the one the object audit observed. *)
Definition audited (audits : list AuditRow) (run : RunRow) : Prop :=
  exists audit, audit ∈ audits /\ audit_key audit = run_key run /\
    rr_object_delta run = (ar_objects_after audit - ar_objects_before audit)%Z /\
    rr_expected_min run = ar_expected_min audit /\ (rr_expected_min run <= rr_object_delta run)%Z.

(** A summary is the recomputed aggregate of its five measured runs. *)
Record summary_consistent (runs : list RunRow) (summary : SummaryRow) : Prop := {
  sc_measured : length (measured_runs (sr_catalog summary) runs) = 5%nat;
  sc_statistics : Forall (fun check => differs check.1.2 check.2 = false)
    (summary_checks summary (measured_runs (sr_catalog summary) runs));
  sc_counts : sr_measured_rounds summary = 5%Z /\ sr_valid_rounds summary = valid_count (measured_runs (sr_catalog summary) runs);
  sc_runs : Forall run_consistent (measured_runs (sr_catalog summary) runs);
  sc_eligible : is_yes (sr_eligible summary) = true <->
    Forall (fun run => is_yes (rr_valid run) = true) (measured_runs (sr_catalog summary) runs);
}.

Lemma valid_count_all runs : valid_count runs = len runs <-> Forall (fun run => is_yes (rr_valid run) = true) runs.
Proof.
  unfold valid_count, len. induction runs as [|run runs IH]; [done|]. rewrite Forall_cons, <-IH. cbn [List.filter length].
  pose proof (List.filter_length_le (fun run => is_yes (rr_valid run)) runs).
  destruct (is_yes (rr_valid run)); cbn [length]; naive_solver lia.
Qed.

Lemma wrapping_sum_zero l : Forall (fun n => n = 0%Z) l -> wrapping_sum l = 0%Z.
Proof. unfold wrapping_sum. induction 1 as [|n l -> _ IH]; [done|]. exact IH. Qed.

Lemma audits_by_run_Some audits key audit : audits_by_run audits !! key = Some audit -> audit ∈ audits /\ audit_key audit = key.
Proof.
  unfold audits_by_run. assert (Hgen : forall m : gmap (Z * string) AuditRow,
    foldl (fun m audit => <[(ar_round audit, ar_catalog audit) := audit]> m) m audits !! key = Some audit ->
    m !! key = Some audit \/ audit ∈ audits /\ audit_key audit = key).
  { induction audits as [|a audits IH]; intros m Hm; cbn [foldl] in Hm; [by left|].
    apply IH in Hm as [Hm|[Hin Hkey]]; [|right; split; [by right|done]].
    apply lookup_insert_Some in Hm as [[<- ->]|[_ Hm]]; [right; split; [by left|done] | by left]. }
  intros Hm. by destruct (Hgen ∅ Hm) as [Hm'|?]; [rewrite lookup_empty in Hm'|].
Qed.

Section Tables.
Context `{FloatDisplay}.

Lemma compare_run_Ok run : compare_run run = Ok tt -> run_consistent run.
Proof.
  unfold compare_run. cbv zeta. intros Hr. apply guard_Ok in Hr as [Hvalid%negb_false_iff%eqb_prop Hr].
  apply guard_Ok in Hr as [_ Hr]. apply guard_Ok in Hr as [Hns Hr]. apply guard_Ok in Hr as [Hmin%negb_false_iff%Z.eqb_eq _].
  split; [|by intros Heq; rewrite Heq in Hns|done].
  rewrite Hvalid, !andb_true_iff, !Z.eqb_eq, Z.leb_le. tauto.
Qed.

Lemma verify_run_audit_Ok audits run : verify_run_audit (audits_by_run audits) run = Ok tt -> audited audits run.
Proof.
  unfold verify_run_audit. cbv zeta. intros (audit & [Hin Hkey]%ok_or_Ok%audits_by_run_Some & Hr)%bind_Ok.
  apply bind_Ok in Hr as (delta & [-> _]%ok_or_Ok%checked_sub_Some & Hr). apply guard_Ok in Hr as [Hr _].
  rewrite !orb_false_iff, !negb_false_iff, !Z.eqb_eq, Z.ltb_ge in Hr. destruct Hr as [[[Hdelta Hobserved] Hexpected] Hle].
  exists audit. split_and!; [done|done|lia..].
Qed.

Lemma verify_summary_Ok runs summary : verify_summary runs summary = Ok tt -> summary_consistent runs summary.
Proof.
  unfold verify_summary, compare_aggregate. cbv zeta. set (measured := measured_runs (sr_catalog summary) runs).
  intros [Hlen%negb_false_iff%Z.eqb_eq Hs]%guard_Ok. apply check_Ok in Hs as [Hstats%check_all_Ok Hs].
  apply guard_Ok in Hs as [Hcounts Hruns%check_all_Ok].
  rewrite !orb_false_iff, !negb_false_iff, !Z.eqb_eq in Hcounts. destruct Hcounts as [[[Hvalid Hmeasured] _] Heligible%eqb_prop].
  assert (Hconsistent : Forall run_consistent measured) by (eapply Forall_impl; [exact Hruns|]; intros run; apply compare_run_Ok).
  split; fold measured; [unfold len in Hlen; lia| |split; congruence|done|].
  - eapply Forall_impl; [exact Hstats|]. intros [[name expected] actual] Hc. by apply guard_Ok in Hc as [Hd _].
  - rewrite Heligible, andb_true_iff, !Z.eqb_eq, valid_count_all. split; [tauto|]. intros Hall. split; [done|].
    apply wrapping_sum_zero, Forall_fmap. rewrite Forall_forall in Hconsistent. rewrite !Forall_forall in *. intros run Hin.
    cbn. by apply (rc_valid _ (Hconsistent run Hin)), Hall.
Qed.

Lemma verified_tables summaries runs audits :
  verify_raw_evidence summaries runs audits = Ok tt ->
  sr_catalog <$> summaries ≡ₚ CATALOGS /\ run_key <$> runs ≡ₚ sweep /\ audit_key <$> audits ≡ₚ sweep /\
  Forall (audited audits) runs /\ Forall (summary_consistent runs) summaries.
Proof.
  unfold verify_raw_evidence. intros Hv. apply guard_Ok in Hv as [Hdim Hv].
  rewrite !orb_false_iff, !negb_false_iff, !Z.eqb_eq in Hdim. destruct Hdim as [[Hsummaries Hruns] Haudits].
  apply guard_Ok in Hv as [Hcatalogs%negb_false_iff%bool_decide_eq_true Hv]. apply guard_Ok in Hv as [Hpairs Hv].
  rewrite orb_false_iff, !negb_false_iff, !bool_decide_eq_true in Hpairs. destruct Hpairs as [Hrun_pairs Haudit_pairs].
  apply check_Ok in Hv as [Haudited%check_all_Ok Hv]. apply check_Ok in Hv as [Hsummary%check_all_Ok _].
  unfold len in *. assert (NoDup CATALOGS) by (apply (bool_decide_eq_true (NoDup CATALOGS)); vm_compute; reflexivity). split_and!.
  - apply same_set_perm; [done|done|]. rewrite length_fmap. cbn. lia.
  - apply same_set_perm; [apply NoDup_sweep|exact Hrun_pairs|]. rewrite length_fmap. change (length sweep) with 24%nat. lia.
  - apply same_set_perm; [apply NoDup_sweep|exact Haudit_pairs|]. rewrite length_fmap. change (length sweep) with 24%nat. lia.
  - eapply Forall_impl; [exact Haudited|]. intros run. apply verify_run_audit_Ok.
  - eapply Forall_impl; [exact Hsummary|]. intros s. apply verify_summary_Ok.
Qed.

(** The published tables are consistent: the runs and the audits are
    exactly the sweep of four catalogs and six rounds; every run's object growth is the
    audited one and covers its commits; a measured run is valid exactly when it exited
    cleanly without an error; and every summary is the aggregate of five measured runs,
    eligible exactly when all of them were valid. *)
Theorem verified_tables_are_consistent summaries runs audits :
  verify_raw_evidence summaries runs audits = Ok tt ->
  sr_catalog <$> summaries ≡ₚ CATALOGS /\ run_key <$> runs ≡ₚ sweep /\ audit_key <$> audits ≡ₚ sweep /\
  Forall (audited audits) runs /\ Forall (summary_consistent runs) summaries.
Proof. apply verified_tables. Qed.
End Tables.

(** ** What the historical bundle publishes *)

Definition passed (outcome : ResultOutcome) : bool := match outcome with ResultPass _ => true | _ => false end.

Lemma passed_iff_eligible runs summary :
  summary_consistent runs summary ->
  let measured := measured_runs (sr_catalog summary) runs in
  passed (legacy_outcome (wrapping_sum (rr_errors <$> measured)) (valid_count measured) measured) = true <->
  is_yes (sr_eligible summary) = true.
Proof.
  intros [_ _ _ Hruns Heligible]. cbv zeta. rewrite Heligible, <-valid_count_all. unfold legacy_outcome.
  destruct (valid_count _ =? len _)%Z eqn:Hcount; [apply Z.eqb_eq in Hcount|apply Z.eqb_neq in Hcount].
  - rewrite wrapping_sum_zero; [done|]. pose proof (proj1 (valid_count_all _) Hcount) as Hall. apply Forall_fmap.
    rewrite Forall_forall in *. intros run Hin. cbn. by apply (rc_valid _ (Hruns run Hin)), Hall.
  - rewrite andb_false_r. naive_solver.
Qed.

Section Published.
Context `{UrlParser, Ledger.Sha256, !ToVecPretty ResultRecord, !ToVecPretty ResultBundleManifest, ContractDecoders, FloatDisplay}.
Context `{!TsvReader SummaryRow, !TsvReader RunRow, !TsvReader AuditRow} {W : Type} `{FileTree W}.

(** The result of a catalog, with the verdict of its summary. *)
Definition published (summaries : list SummaryRow) (files : gmap string string) (catalog : string) : Prop :=
  exists summary record bytes, summary ∈ summaries /\ sr_catalog summary = catalog /\
    pretty_json record = Ok bytes /\ files !! (catalog +:+ ".json") = Some bytes /\ validate record = Ok tt /\
    (passed (rec_outcome record) = true <-> is_yes (sr_eligible summary) = true).

(** A table of the repository with the digest the importer pins. *)
Definition table_at {T} `{!TsvReader T} (root path sha : string) (w : W) (table : list T) : Prop :=
  exists bytes, fs_read (join_path root path) w = Ok bytes /\ hash_text bytes = sha /\ read_tsv bytes = Ok table.

Lemma grouped_measured runs catalog grouped : grouped_runs runs catalog = Some grouped -> grouped = measured_runs catalog runs.
Proof.
  unfold grouped_runs, measured_runs. intros Hg.
  assert (Heq : List.filter (fun run => (2 <=? rr_round run)%Z && (rr_catalog run =? catalog)) runs
    = List.filter (fun run => (rr_catalog run =? catalog) && (2 <=? rr_round run)%Z) runs).
  { apply filter_ext. intros run. apply andb_comm. }
  rewrite Heq in Hg. by destruct (List.filter _ runs); [|injection Hg as <-].
Qed.

Lemma published_insert summaries files catalog name bytes :
  name <> catalog +:+ ".json" -> published summaries files catalog -> published summaries (<[name := bytes]> files) catalog.
Proof.
  intros Hne (summary & record & b & Hrest). exists summary, record, b. by rewrite lookup_insert_ne.
Qed.

Lemma add_legacy_result_Ok runs summaries profile pd scenario sd source files artifacts catalog files' artifacts' :
  Forall (summary_consistent runs) summaries ->
  add_legacy_result runs summaries profile pd scenario sd source (files, artifacts) catalog = Ok (files', artifacts') ->
  exists bytes, files' = <[catalog +:+ ".json" := bytes]> files /\ published summaries files' catalog.
Proof.
  intros Hsummaries. unfold add_legacy_result. intros (grouped & Hgrouped%ok_or_Ok%grouped_measured & Ha)%bind_Ok.
  apply bind_Ok in Ha as (summary & [Hin Hcatalog]%ok_or_Ok%index_by_Some & Ha).
  apply bind_Ok in Ha as (component & _ & Ha). apply bind_Ok in Ha as (record & Hrecord & Ha). cbv zeta in Ha.
  apply bind_Ok in Ha as (bytes & Hbytes & [= <- <-]). exists bytes. split; [done|].
  unfold legacy_result in Hrecord. cbv zeta in Hrecord. apply check_Ok in Hrecord as [Hvalid%map_err_Ok_iff [= <-]].
  eexists summary, _, bytes. split_and!; [done|done|exact Hbytes|by rewrite lookup_insert_eq|exact Hvalid|].
  rewrite Forall_forall in Hsummaries. cbn [rec_outcome]. subst grouped catalog. by apply passed_iff_eligible, Hsummaries.
Qed.

Lemma json_name_inj a b : a +:+ ".json" = b +:+ ".json" -> a = b.
Proof. apply append_cancel_r. Qed.

Lemma add_legacy_results_Ok runs summaries profile pd scenario sd source catalogs state files' artifacts' :
  Forall (summary_consistent runs) summaries -> NoDup catalogs ->
  try_fold (add_legacy_result runs summaries profile pd scenario sd source) state catalogs = Ok (files', artifacts') ->
  forall catalog, (catalog ∈ catalogs \/ published summaries state.1 catalog) -> published summaries files' catalog.
Proof.
  intros Hsummaries. revert state. induction catalogs as [|c catalogs IH]; intros state Hnd Hfold catalog Hin; cbn [try_fold] in Hfold.
  - injection Hfold as ->. destruct Hin as [?%elem_of_nil|]; done.
  - apply NoDup_cons in Hnd as [Hnew Hnd]. apply bind_Ok in Hfold as ([files artifacts] & Hstep & Hfold). destruct state as [fs ars].
    apply add_legacy_result_Ok in Hstep as (bytes & -> & Hpublished); [|done].
    apply (IH _ Hnd Hfold). cbn [fst]. destruct Hin as [[->|Hin]%elem_of_cons|Hin]; [by right|by left|].
    destruct (decide (c = catalog)) as [->|Hne]; [by right|]. right. apply published_insert; [|done].
    by intros ?%json_name_inj.
Qed.

(** A bundle is generated from tables with the pinned digests that agree. *)
Lemma generated_historical root w generated :
  generate_historical root w = Ok generated ->
  exists summaries runs audits,
    table_at root SUMMARY_PATH SUMMARY_SHA256 w summaries /\ table_at root RUNS_PATH RUNS_SHA256 w runs /\
    table_at root AUDIT_PATH AUDIT_SHA256 w audits /\ verify_raw_evidence summaries runs audits = Ok tt /\
    gf_directory generated = join_path root OUTPUT_DIRECTORY /\
    forall catalog, catalog ∈ CATALOGS -> published summaries (gf_files generated) catalog.
Proof.
  unfold generate_historical. intros (sb & Hsb%read_hashed_Ok & Hg)%bind_Ok. apply bind_Ok in Hg as (rb & Hrb%read_hashed_Ok & Hg).
  apply bind_Ok in Hg as (ab & Hab%read_hashed_Ok & Hg). apply bind_Ok in Hg as (pb & _ & Hg). apply bind_Ok in Hg as (scb & _ & Hg).
  apply bind_Ok in Hg as (profile & _ & Hg). apply bind_Ok in Hg as (scenario & _ & Hg).
  apply bind_Ok in Hg as (summaries & Hsummaries_read%map_err_Ok_iff & Hg).
  apply bind_Ok in Hg as (runs & Hruns_read%map_err_Ok_iff & Hg). apply bind_Ok in Hg as (audits & Haudits_read%map_err_Ok_iff & Hg).
  apply check_Ok in Hg as [Hverified Hg]. exists summaries, runs, audits.
  split; [exists sb; naive_solver|]. split; [exists rb; naive_solver|]. split; [exists ab; naive_solver|]. split; [done|].
  apply verified_tables in Hverified as (_ & _ & _ & _ & Hsummaries).
  unfold generate_legacy in Hg. apply bind_Ok in Hg as ([files results] & Hfold & Hg). cbv zeta in Hg.
  apply check_Ok in Hg as [_ Hg]. apply bind_Ok in Hg as (bytes & _ & [= <-]). split; [done|].
  intros catalog Hin. cbn [gf_files]. apply published_insert.
  - revert Hin. unfold CATALOGS. rewrite !elem_of_cons, elem_of_nil. by intros [->|[->|[->|[->|[]]]]].
  - eapply add_legacy_results_Ok; [exact Hsummaries| |exact Hfold|by left].
    apply (bool_decide_eq_true (NoDup CATALOGS)). vm_compute. reflexivity.
Qed.

(** A checked historical bundle holds the generated files. *)
Lemma check_files_Ok generated stale w :
  check_files generated stale w = Ok tt <->
  forall name bytes, gf_files generated !! name = Some bytes -> fs_read (join_path (gf_directory generated) name) w = Ok bytes.
Proof.
  unfold check_files, context. rewrite check_all_Ok, Forall_forall. split.
  - intros Hall name bytes Hin. apply (elem_of_btree_entries String.compare) in Hin. specialize (Hall _ Hin). cbv zeta beta iota in Hall.
    apply bind_Ok in Hall as (actual & Hread%map_err_Ok_iff & Hc). by apply guard_Ok in Hc as [<-%negb_false_iff%String.eqb_eq _].
  - intros Hall [name bytes] Hin. apply elem_of_btree_entries, Hall in Hin. cbv zeta. rewrite Hin. cbn [map_err].
    by rewrite String.eqb_refl.
Qed.

(** C36: A historical bundle that checks was recomputed from the three tables with
    the pinned digests, which agree with each other; and for each of the four catalogs
    its file on disk is the encoding of a valid result that passes exactly when the
    published summary calls the catalog eligible. *)
Theorem checked_historical_bundle_publishes_verdicts root w manifest :
  check_historical_commit_bundle root w = Ok manifest ->
  exists summaries runs audits,
    table_at root SUMMARY_PATH SUMMARY_SHA256 w summaries /\ table_at root RUNS_PATH RUNS_SHA256 w runs /\
    table_at root AUDIT_PATH AUDIT_SHA256 w audits /\ verify_raw_evidence summaries runs audits = Ok tt /\
    Forall (summary_consistent runs) summaries /\
    forall catalog, catalog ∈ CATALOGS ->
    exists summary record bytes, summary ∈ summaries /\ sr_catalog summary = catalog /\
      validate record = Ok tt /\ pretty_json record = Ok bytes /\
      fs_read (join_path (join_path root OUTPUT_DIRECTORY) (catalog +:+ ".json")) w = Ok bytes /\
      (passed (rec_outcome record) = true <-> is_yes (sr_eligible summary) = true).
Proof.
  unfold check_historical_commit_bundle. intros (generated & Hg%generated_historical & Hc)%bind_Ok.
  apply check_Ok in Hc as [Hfiles _]. destruct Hg as (summaries & runs & audits & Hs & Hr & Ha & Hverified & Hdir & Hall).
  exists summaries, runs, audits. do 4 (split; [done|]). split; [by apply verified_tables in Hverified as (_ & _ & _ & _ & ?)|].
  intros catalog Hin. destruct (Hall catalog Hin) as (summary & record & bytes & Hsum & Hcat & Hbytes & Hfile & Hvalid & Hpass).
  exists summary, record, bytes. split_and!; try done. rewrite <-Hdir.
  by apply (proj1 (check_files_Ok _ _ _) Hfiles).
Qed.
End Published.

(** ** The medians are those of the statistics module *)

(** Of an odd number of samples the statistics module admits, the
    historical median is the p50 of its distribution. *)
Theorem historical_median_is_p50 samples d :
  nonnegative_distribution samples = Ok d -> (len samples mod 2 = 1)%Z -> (len samples <= 2 ^ 44)%Z ->
  dist_quantiles d !! "p50" = Some (median samples).
Proof.
  intros Hd Hodd Hlen. apply (distribution_quantile _ _ "p50" 50) in Hd as (Hne & _ & _ & _ & _ & ->); [|by left].
  pose proof (len_samples_pos samples Hne). unfold median, multiple_of.
  assert (Hsort : len (sort_by total_cmp samples) = len samples) by (unfold len; by rewrite length_sort_by).
  rewrite Hsort, Hodd. cbn [Z.eqb]. do 2 f_equal.
  destruct (rank_index_exact "p50" 50 (len samples)) as [-> _]; [by left|lia|].
  unfold ceil_percent. Z.to_euclidean_division_equations. lia.
Qed.
