(* ===== verification/Matrix.v ===== *)
(** * Rendered commit matrices (crates/contract-tool/src/matrix.rs)

    The Markdown matrix of a validated bundle: passing results are ranked by
    median throughput, all others are listed without a rank. *)

From S2P Require Import Prelude Order RustStr Float64 FloatText Json ContractValue ContractScenario ContractAdapter.
From S2P Require Import ContractProfile ContractResult ContractDocument Stats Policy EngineParameters EnginePlan.
From S2P Require Import ToolFiles Publication Bundle CommunityPublication.
From Stdlib Require Import Ascii.
Open Scope string_scope.

(** [writeln!]: the text and a line feed. *)
Definition line (text : string) : string := text +:+ lf.

(** The derived [Debug] of a metric value, quoted by errors. *)
Class DebugMetric := debug_metric : MetricValue -> string.

(** ** Labels *)

Definition outcome_label (outcome : ResultOutcome) : string :=
  match outcome with
  | ResultPass _ => "pass" | ResultFail _ => "fail" | Unsupported _ => "unsupported" | NotTested _ => "not-tested"
  end.

Definition markdown_text (value : string) : string := replace_byte 10 (ascii_of_N 32) (replace "|" "\|" value).

Definition display_version (version : string) : string :=
  if (String.length version =? 40)%nat && all_bytes is_ascii_hexdigit version then String.substring 0 8 version else version.

(** [components.iter().rposition(..)]: the components from the last [results] on. *)
Fixpoint from_last_results (parts : list PathPart) : option (list PathPart) :=
  match parts with
  | [] => None
  | part :: rest =>
      match from_last_results rest with
      | Some found => Some found
      | None => if bool_decide (part = NamePart "results") then Some parts else None
      end
  end.

Definition published_path (path : string) : string :=
  match from_last_results (path_parts path) with Some parts => parts_path parts | None => path end.

Example published_paths :
  published_path <$> ["/w/results/old/results/v1/run/manifest.json"; "./a//b"; "results"]
  = ["results/v1/run/manifest.json"; "./a//b"; "results"].
Proof. vm_compute. reflexivity. Qed.

(** ** Metrics *)

(** [Metric]: the first measurement of the phase, and its first metric of the name. *)
Definition metric (result : ResultRecord) (phase name : string) : option Metric :=
  find (fun measurement => mp_name measurement =? phase) (rec_measurements result)
  ≫= fun measurement => find (fun metric => metric_name metric =? name) (mp_metrics measurement).

Definition distribution_median (distribution : Distribution) : result f64 Chain :=
  ok_or (dist_quantiles distribution !! "p50") ["distribution has no p50"].

Definition missing_metric (result : ResultRecord) (phase name : string) (required : bool) : Prelude.result string Chain :=
  guard required or ["ranked result `" +:+ rec_id result +:+ "` has no `" +:+ phase +:+ "." +:+ name +:+ "` metric"] in
  Ok "—".

Section Matrix.
Context `{DebugMetric}.

Definition optional_distribution_metric (result : ResultRecord) (phase name : string)
  : Prelude.result (option Distribution) Chain :=
  match metric result phase name with
  | None => Ok None
  | Some metric =>
      match metric_value metric with
      | DistributionValue distribution => Ok (Some distribution)
      | value => Err ["metric `" +:+ phase +:+ "." +:+ name +:+ "` is not a distribution: " +:+ debug_metric value]
      end
  end.

Definition optional_counter_metric (result : ResultRecord) (phase name : string) : Prelude.result (option Z) Chain :=
  match metric result phase name with
  | None => Ok None
  | Some metric =>
      match metric_value metric with
      | Counter value => Ok (Some value)
      | value => Err ["metric `" +:+ phase +:+ "." +:+ name +:+ "` is not a counter: " +:+ debug_metric value]
      end
  end.

Definition distribution_metric (result : ResultRecord) (phase name : string) : Prelude.result Distribution Chain :=
  let? distribution := optional_distribution_metric result phase name in
  ok_or distribution ["result `" +:+ rec_id result +:+ "` has no `" +:+ phase +:+ "." +:+ name +:+ "` metric"].

Definition throughput (result : ResultRecord) : Prelude.result f64 Chain :=
  let? distribution := distribution_metric result "concurrent" "successful-throughput" in
  distribution_median distribution.

Definition sequential_p50 (result : ResultRecord) : Prelude.result f64 Chain :=
  let? distribution := distribution_metric result "sequential" "p50-latency" in
  distribution_median distribution.

Definition format_distribution_metric (result : ResultRecord) (phase name suffix : string) (precision : nat) (required : bool)
  : Prelude.result string Chain :=
  let? distribution := optional_distribution_metric result phase name in
  match distribution with
  | None => missing_metric result phase name required
  | Some distribution =>
      let? median := distribution_median distribution in
      Ok (format_fixed precision median +:+ suffix +:+ " (" +:+ format_fixed precision (dist_minimum distribution) +:+ "–"
          +:+ format_fixed precision (dist_maximum distribution) +:+ ")")
  end.

Definition format_valid_rounds (result : ResultRecord) (required : bool) : Prelude.result string Chain :=
  let? valid := optional_counter_metric result "concurrent" "valid-rounds" in
  let? measured := optional_counter_metric result "concurrent" "measured-rounds" in
  match valid, measured with
  | Some valid, Some measured => Ok (display valid +:+ " / " +:+ display measured)
  | None, None => missing_metric result "concurrent" "valid/measured-rounds" required
  | _, _ => Err ["result `" +:+ rec_id result +:+ "` must provide both valid-rounds and measured-rounds"]
  end.

Definition format_counter_metric (result : ResultRecord) (phase name : string) (required : bool)
  : Prelude.result string Chain :=
  let? value := optional_counter_metric result phase name in
  match value with Some value => Ok (display value) | None => missing_metric result phase name required end.

(** [write_row]: the line it appends. *)
Definition write_row (rank : string) (result : ResultRecord) (require_measurements : bool) : Prelude.result string Chain :=
  let? concurrent := format_distribution_metric result "concurrent" "successful-throughput" "/s" 1 require_measurements in
  let? sequential := format_distribution_metric result "sequential" "successful-throughput" "/s" 1 require_measurements in
  let? p50 := format_distribution_metric result "sequential" "p50-latency" " ms" 3 require_measurements in
  let? p99 := format_distribution_metric result "sequential" "p99-latency" " ms" 3 require_measurements in
  let? conflict := format_distribution_metric result "concurrent" "conflict-rate" "%" 3 require_measurements in
  let? error_rate := format_distribution_metric result "concurrent" "error-rate" "%" 3 require_measurements in
  let? valid_rounds := format_valid_rounds result require_measurements in
  let? errors := format_counter_metric result "concurrent" "request-errors" require_measurements in
  Ok (line ("| " +:+ rank +:+ " | " +:+ markdown_text (exec_name (rec_catalog result)) +:+ " "
    +:+ markdown_text (display_version (exec_version (rec_catalog result))) +:+ " | `" +:+ outcome_label (rec_outcome result)
    +:+ "` | " +:+ valid_rounds +:+ " | " +:+ concurrent +:+ " | " +:+ sequential +:+ " | " +:+ p50 +:+ " | " +:+ p99 +:+ " | "
    +:+ conflict +:+ " | " +:+ error_rate +:+ " | " +:+ errors +:+ " |")).

(** ** The matrix *)

Record PassRow := { pass_record : ResultRecord; pass_throughput : f64; pass_latency : f64 }.

(** Throughput from high to low, then latency from low to high, then the catalog. *)
Definition pass_row_cmp : PassRow -> PassRow -> comparison :=
  cmp_lex (fun left right => total_cmp (pass_throughput right) (pass_throughput left))
    (cmp_lex (cmp_on pass_latency total_cmp)
      (cmp_on (fun row => exec_profile_component (rec_catalog (pass_record row))) String.compare)).

Definition records (bundle : ValidatedBundle) : list ResultRecord := vr_result <$> vb_results bundle.

Definition pass_rows (bundle : ValidatedBundle) : Prelude.result (list PassRow) Chain :=
  let? rows := collect_results (fun record =>
    let? throughput := throughput record in
    let? latency := sequential_p50 record in
    Ok {| pass_record := record; pass_throughput := throughput; pass_latency := latency |})
    (List.filter (fun record => is_pass (rec_outcome record)) (records bundle)) in
  Ok (sort_by pass_row_cmp rows).

Definition non_pass_rows (bundle : ValidatedBundle) : list ResultRecord :=
  sort_by (cmp_on (fun record => exec_name (rec_catalog record)) String.compare)
    (List.filter (fun record => negb (is_pass (rec_outcome record))) (records bundle)).

Definition provenance_line (provenance : Provenance) : string :=
  match provenance with
  | HistoricalImport source_date _ explanation =>
      line ("This is a **historical import** of the " +:+ source_date +:+ " evidence, not a new live run. "
            +:+ markdown_text explanation +:+ lf)
  | LiveRun _ _ started_at completed_at =>
      line ("Live run from `" +:+ started_at +:+ "` through `" +:+ completed_at +:+ "`." +:+ lf)
  | ContractDocument.Fixture explanation => line ("Fixture bundle: " +:+ markdown_text explanation +:+ lf)
  end.

Definition scenario_line (bundle : ValidatedBundle) (scenario : ValidatedScenario) : string :=
  line ("Scenario: `" +:+ scen_id (vs_scenario scenario) +:+ "` v" +:+ display (scen_version (vs_scenario scenario))
        +:+ " · profile: `" +:+ prof_id (vb_profile bundle) +:+ "` · [manifest](manifest.json)." +:+ lf).

(** The section of a result that did not pass. *)
Definition non_pass_section (record : ResultRecord) : string :=
  line ("### " +:+ markdown_text (exec_name (rec_catalog record)) +:+ " "
        +:+ markdown_text (display_version (exec_version (rec_catalog record))) +:+ " — `" +:+ outcome_label (rec_outcome record)
        +:+ "`" +:+ lf)
  +:+ match rec_outcome record with
      | ResultFail failure => line (fail_summary failure +:+ lf +:+ lf +:+ fail_detail failure +:+ lf)
      | Unsupported limitation =>
          line ("Unsupported capability `" +:+ unsup_capability limitation +:+ "`: " +:+ unsup_explanation limitation +:+ lf)
      | NotTested reason => line ("Not tested: " +:+ nt_explanation reason +:+ lf)
      | ResultPass _ => ""
      end.

(** The command that reproduces the matrix. *)
Definition reproduction (bundle : ValidatedBundle) : string :=
  let manifest_path := published_path (vb_manifest_path bundle) in
  let matrix_path := with_file_name manifest_path "MATRIX.md" in
  line "```sh" +:+ line "cargo run -p catalog-bench-contract --locked -- matrix check \"
  +:+ line ("  --manifest " +:+ manifest_path +:+ " \") +:+ line ("  --output " +:+ matrix_path) +:+ line "```".

Definition ranked_lines (rows : list PassRow) : Prelude.result (list string) Chain :=
  collect_results (fun entry : nat * PassRow => write_row (display (Z.of_nat entry.1 + 1)) (pass_record entry.2) true)
    (imap pair rows).

(** What comes before the rows, and after them. *)
Definition matrix_head (bundle : ValidatedBundle) (scenario : ValidatedScenario) : string :=
  line ("<!-- Generated by catalog-bench-contract; edit result records, not this file. -->" +:+ lf)
  +:+ line ("# " +:+ man_title (vb_manifest bundle) +:+ lf)
  +:+ provenance_line (man_provenance (vb_manifest bundle)) +:+ scenario_line bundle scenario
  +:+ line ("Numeric ranks include only `pass` outcomes and sort by median accepted concurrent throughput. Failed, unsupported, and not-tested rows retain any available diagnostic measurements but are never ranked." +:+ lf)
  +:+ line "| Rank | Catalog | Outcome | Valid rounds | Concurrent accepted | Sequential accepted | Sequential p50 | Sequential p99 | Conflict rate | Error rate | Errors |"
  +:+ line "|:---:|---|:---:|:---:|---:|---:|---:|---:|---:|---:|---:|".

Definition matrix_tail (bundle : ValidatedBundle) (failing : list ResultRecord) : string :=
  match failing with
  | [] => ""
  | _ => line (lf +:+ "## Non-pass outcomes" +:+ lf) +:+ String.concat "" (non_pass_section <$> failing)
  end
  +:+ line ("## Evidence" +:+ lf)
  +:+ line ("All artifact sizes, SHA-256 hashes, exact source/image identities, environment-capture gaps, assertion outcomes, and round-selection rules are in [the manifest](manifest.json) and its referenced records. The matrix is reproducible with:" +:+ lf)
  +:+ reproduction bundle.

Definition render_commit_matrix (bundle : ValidatedBundle) : Prelude.result string Chain :=
  match vb_scenarios bundle with
  | [scenario] =>
      let? passing := pass_rows bundle in
      let failing := non_pass_rows bundle in
      let? ranked := ranked_lines passing in
      let? unranked := collect_results (fun record => write_row "—" record false) failing in
      Ok (matrix_head bundle scenario +:+ String.concat "" ranked +:+ String.concat "" unranked
          +:+ matrix_tail bundle failing)
  | scenarios => Err ["commit matrix requires exactly one scenario, found " +:+ display (len scenarios)]
  end.
End Matrix.

(** ** Rendered engine matrices (crates/contract-tool/src/engine_matrix.rs)

    The correctness matrix of stock engines, and the choice of a renderer
    ([render_matrix] of matrix.rs). *)

Definition TRANSCRIPT_EVIDENCE_ID : string := "engine-transcript".

Definition assertion_symbol (outcome : AssertionOutcome) : string :=
  match outcome with AssertionPass => "pass" | AssertionFail _ => "**fail**" | NotEvaluated _ => "not evaluated" end.

(** Passed, failed and not evaluated required assertions. *)
Definition count_assertion (counts : Z * Z * Z) (evaluation : AssertionEvaluation) : Z * Z * Z :=
  let '(passed, failed, skipped) := counts in
  match eval_outcome evaluation with
  | AssertionPass => (passed + 1, failed, skipped)
  | AssertionFail _ => (passed, failed + 1, skipped)
  | NotEvaluated _ => (passed, failed, skipped + 1)
  end%Z.

Definition assertion_counts (result : ValidatedResult) : Z * Z * Z :=
  foldl count_assertion (0, 0, 0)%Z (List.filter eval_required (rec_assertions (vr_result result))).

Definition evidence_location (result : ValidatedResult) (id : string) : Prelude.result string Chain :=
  ok_or (artifact_location ∘ ev_artifact <$> find (fun evidence => ev_id evidence =? id) (rec_evidence (vr_result result)))
    ["result `" +:+ rec_id (vr_result result) +:+ "` omits evidence `" +:+ id +:+ "`"].

Definition assertion_summary (counts : Z * Z * Z) : string :=
  let '(passed, failed, not_evaluated) := counts in
  let required := (passed + failed + not_evaluated)%Z in
  if ((failed =? 0) && (not_evaluated =? 0))%Z then display passed +:+ " / " +:+ display required +:+ " passed"
  else if (not_evaluated =? required)%Z then "not evaluated"
  else display passed +:+ " passed, " +:+ display failed +:+ " failed, " +:+ display not_evaluated +:+ " not evaluated".

Definition write_summary_row (result : ValidatedResult) : Prelude.result string Chain :=
  let record := vr_result result in
  let? engine := ok_or (rec_client record) ["engine interoperability result omits its stock engine"] in
  let? transcript := evidence_location result TRANSCRIPT_EVIDENCE_ID in
  Ok (line ("| " +:+ markdown_text (exec_name (rec_catalog record)) +:+ " "
    +:+ markdown_text (display_version (exec_version (rec_catalog record))) +:+ " | " +:+ markdown_text (exec_name engine) +:+ " "
    +:+ markdown_text (display_version (exec_version engine)) +:+ " | `" +:+ outcome_label (rec_outcome record) +:+ "` | "
    +:+ assertion_summary (assertion_counts result) +:+ " | [record](" +:+ artifact_location (vr_artifact result)
    +:+ ") | [evidence](" +:+ transcript +:+ ") |")).

Definition write_provenance (provenance : Provenance) : string :=
  match provenance with
  | LiveRun _ _ started_at completed_at =>
      line ("Live four-catalog run from `" +:+ started_at +:+ "` through `" +:+ completed_at +:+ "`." +:+ lf)
  | HistoricalImport source_date _ explanation =>
      line ("Historical import of " +:+ source_date +:+ ": " +:+ markdown_text explanation +:+ lf)
  | ContractDocument.Fixture explanation => line ("Fixture bundle: " +:+ markdown_text explanation +:+ lf)
  end.

(** The cell of an assertion in the column of a result. *)
Definition assertion_cell (assertion : AssertionId) (result : ValidatedResult) : string :=
  match find (fun evaluation => eval_assertion evaluation =? assertion) (rec_assertions (vr_result result)) with
  | Some evaluation => assertion_symbol (eval_outcome evaluation)
  | None => "—"
  end.

Definition assertion_row (results : list ValidatedResult) (assertion : AssertionSpec) : string :=
  "| `" +:+ spec_id assertion +:+ "` |"
  +:+ String.concat "" ((fun result => " " +:+ assertion_cell (spec_id assertion) result +:+ " |") <$> results) +:+ lf.

Definition write_non_pass (result : ValidatedResult) : string :=
  let record := vr_result result in
  line ("### " +:+ markdown_text (exec_name (rec_catalog record)) +:+ " "
        +:+ markdown_text (display_version (exec_version (rec_catalog record))) +:+ " — `" +:+ outcome_label (rec_outcome record)
        +:+ "`" +:+ lf)
  +:+ match rec_outcome record with
      | ResultFail failure => line (markdown_text (fail_summary failure) +:+ lf +:+ lf +:+ markdown_text (fail_detail failure) +:+ lf)
      | Unsupported limitation =>
          line ("Unsupported capability `" +:+ unsup_capability limitation +:+ "`: "
                +:+ markdown_text (unsup_explanation limitation) +:+ lf)
      | NotTested reason => line ("Not tested: " +:+ markdown_text (nt_explanation reason) +:+ lf)
      | ResultPass _ => ""
      end.

Definition by_catalog : ValidatedResult -> ValidatedResult -> comparison :=
  cmp_on (fun result => exec_profile_component (rec_catalog (vr_result result))) String.compare.

Definition render_engine_matrix (bundle : ValidatedBundle) : Prelude.result string Chain :=
  let? scenario := ok_or (head (vb_scenarios bundle)) ["engine matrix requires one scenario"] in
  guard negb (len (vb_scenarios bundle) =? 1)%Z || negb (scen_id (vs_scenario scenario) =? ENGINE_SCENARIO_ID)
        || negb (scen_version (vs_scenario scenario) =? ENGINE_SCENARIO_VERSION)%Z
    or ["engine matrix requires the stock-engine interoperability v" +:+ display ENGINE_SCENARIO_VERSION +:+ " scenario"] in
  let results := sort_by by_catalog (vb_results bundle) in
  guard match results with [] => true | _ => false end or ["engine matrix requires at least one result"] in
  let? rows := collect_results write_summary_row results in
  let non_pass := List.filter (fun result => negb (is_pass (rec_outcome (vr_result result)))) results in
  Ok (line ("<!-- Generated by catalog-bench-contract; edit reviewed evidence, not this file. -->" +:+ lf)
    +:+ line ("# " +:+ markdown_text (man_title (vb_manifest bundle)) +:+ lf)
    +:+ write_provenance (man_provenance (vb_manifest bundle)) +:+ scenario_line bundle scenario
    +:+ line ("This is an interoperability correctness matrix, not a latency or throughput ranking. Catalogs are listed by stable profile ID; `pass`, `fail`, `unsupported`, and `not-tested` remain distinct." +:+ lf)
    +:+ line "| Catalog | Stock engine | Outcome | Required assertions | Result | Transcript |"
    +:+ line "|---|---|:---:|:---:|:---:|:---:|" +:+ String.concat "" rows
    +:+ line (lf +:+ "## Assertion matrix" +:+ lf)
    +:+ "| Required assertion |"
    +:+ String.concat "" ((fun result => " " +:+ markdown_text (exec_name (rec_catalog (vr_result result))) +:+ " |") <$> results) +:+ lf
    +:+ "|---|" +:+ String.concat "" ((fun _ => ":---:|") <$> results) +:+ lf
    +:+ String.concat "" (assertion_row results <$> List.filter spec_required (scen_assertions (vs_scenario scenario)))
    +:+ match non_pass with
        | [] => ""
        | _ => line (lf +:+ "## Non-pass outcomes" +:+ lf) +:+ String.concat "" (write_non_pass <$> non_pass)
        end
    +:+ line ("## Evidence" +:+ lf)
    +:+ line ("The manifest and referenced records bind exact profile, scenario, review, and sanitized transcript bytes; pinned source/image identities; execution environment; every assertion outcome; and redaction review. Regenerate this matrix only from the validated bundle:" +:+ lf)
    +:+ reproduction bundle).

(** ** The renderer of a scenario *)

Section Render.
Context `{DebugMetric}.

Definition render_matrix (bundle : ValidatedBundle) : Prelude.result string Chain :=
  let? scenario := ok_or (head (vb_scenarios bundle)) ["matrix requires one scenario"] in
  guard negb (len (vb_scenarios bundle) =? 1)%Z or ["matrix requires exactly one scenario"] in
  let id := scen_id (vs_scenario scenario) in
  if id =? "iceberg-rest.commit.same-table-contention" then render_commit_matrix bundle
  else if id =? "engine.iceberg.write-read-evolution" then render_engine_matrix bundle
  else Err ["no matrix renderer is registered for scenario `" +:+ id +:+ "`"].
End Render.

(** ** What a rendered matrix says (crates/contract-tool/src/matrix.rs, engine_matrix.rs) *)

#[export] Instance pass_row_total : TotalCmp pass_row_cmp.
Proof.
  apply (cmp_lex_total (cmp_flip (cmp_on pass_throughput total_cmp))); [apply cmp_flip_total, _|apply _].
Qed.

Lemma filter_partition {A} (p : A -> bool) l :
  (List.filter p l ++ List.filter (fun a => negb (p a)) l)%list ≡ₚ l.
Proof.
  induction l as [|a l IH]; [done|]. cbn [List.filter]. destruct (p a); cbn [negb app]; [by rewrite IH|].
  by rewrite <-Permutation_middle, IH.
Qed.

Section Ranking.
Context `{DebugMetric}.

Lemma sorted_impl {A} (R S : A -> A -> Prop) l : (forall a b, R a b -> S a b) -> StronglySorted R l -> StronglySorted S l.
Proof. intros Himpl. induction 1 as [|a l _ IH Hle]; constructor; [done|]. eapply Forall_impl; [exact Hle|]. apply Himpl. Qed.

(** Ranked before: a throughput at least as high, then a latency at least as low,
    then a catalog that is not later. *)
Definition ranked_before (row row' : PassRow) : Prop :=
  match total_cmp (pass_throughput row) (pass_throughput row') with
  | Gt => True
  | Lt => False
  | Eq =>
      match total_cmp (pass_latency row) (pass_latency row') with
      | Lt => True
      | Gt => False
      | Eq => String.compare (exec_profile_component (rec_catalog (pass_record row)))
                (exec_profile_component (rec_catalog (pass_record row'))) <> Gt
      end
  end.

Lemma pass_row_le row row' : cmp_le pass_row_cmp row row' -> ranked_before row row'.
Proof.
  unfold cmp_le, pass_row_cmp, ranked_before, cmp_lex, cmp_on.
  rewrite (cmp_opp total_cmp (pass_throughput row) (pass_throughput row')).
  destruct (total_cmp (pass_throughput row) (pass_throughput row')); cbn; [|done..].
  by destruct (total_cmp (pass_latency row) (pass_latency row')).
Qed.

(** A row carries the medians of its record. *)
Definition row_of (row : PassRow) : Prop :=
  throughput (pass_record row) = Ok (pass_throughput row) /\ sequential_p50 (pass_record row) = Ok (pass_latency row).

Lemma pass_rows_Ok bundle rows :
  pass_rows bundle = Ok rows ->
  pass_record <$> rows ≡ₚ List.filter (fun record => is_pass (rec_outcome record)) (records bundle) /\
  Forall row_of rows /\ StronglySorted (cmp_le pass_row_cmp) rows.
Proof.
  unfold pass_rows. intros (unsorted & Hrows%collect_results_Ok & [= <-])%bind_Ok. split_and!.
  - rewrite (sort_by_perm pass_row_cmp unsorted). apply reflexive_eq. symmetry.
    induction Hrows as [|record row records rows Hrow _ IH]; [done|]. rewrite fmap_cons, <-IH. f_equal.
    apply bind_Ok in Hrow as (t & _ & Hrow). by apply bind_Ok in Hrow as (l & _ & [= <-]).
  - rewrite (sort_by_perm pass_row_cmp unsorted). eapply Forall2_Forall_r; [exact Hrows|]. apply Forall_true.
    intros record row Hrow. apply bind_Ok in Hrow as (t & Ht & Hrow). by apply bind_Ok in Hrow as (l & Hl & [= <-]).
  - apply sort_by_sorted, _.
Qed.

Lemma ranked_lines_Ok rows texts i row :
  ranked_lines rows = Ok texts -> rows !! i = Some row -> exists text,
    texts !! i = Some text /\ write_row (display (Z.of_nat i + 1)) (pass_record row) true = Ok text.
Proof.
  unfold ranked_lines. intros Htexts%collect_results_Ok Hrow.
  destruct (Forall2_lookup_l _ _ _ i (i, row) Htexts) as (text & Htext & Hwrite); [by rewrite list_lookup_imap, Hrow|].
  eauto.
Qed.

(** C39: a rendered commit matrix ranks exactly the passing results: its
    ranked lines are the rows of those results, the [i]-th carrying rank [i + 1] and
    complete measurements, ordered by median concurrent throughput from high to low,
    then by median sequential latency, then by catalog; every other result has a line
    of its own, after them and without a rank, and both lists hold every result of the
    bundle exactly once. *)
Theorem commit_matrix_ranks_passing bundle output :
  render_commit_matrix bundle = Ok output ->
  exists rows unranked ranked_texts unranked_texts before after,
    output = before +:+ String.concat "" ranked_texts +:+ String.concat "" unranked_texts +:+ after /\
    ((pass_record <$> rows) ++ unranked)%list ≡ₚ records bundle /\
    Forall (fun row => row_of row /\ is_pass (rec_outcome (pass_record row)) = true) rows /\
    Forall (fun record => is_pass (rec_outcome record) = false) unranked /\
    StronglySorted ranked_before rows /\
    length ranked_texts = length rows /\
    (forall i row, rows !! i = Some row -> exists text,
       ranked_texts !! i = Some text /\ write_row (display (Z.of_nat i + 1)) (pass_record row) true = Ok text) /\
    Forall2 (fun record text => write_row "—" record false = Ok text) unranked unranked_texts.
Proof.
  unfold render_commit_matrix. destruct (vb_scenarios bundle) as [|scenario [|]]; [done| |done].
  intros (rows & Hrows & Hr)%bind_Ok. cbv zeta in Hr. apply bind_Ok in Hr as (ranked & Hranked & Hr).
  apply bind_Ok in Hr as (unranked & Hunranked%collect_results_Ok & Hr). injection Hr as <-.
  destruct (pass_rows_Ok _ _ Hrows) as (Hperm & Hof & Hsorted).
  assert (Hpass : Forall (fun record => is_pass (rec_outcome record) = true) (pass_record <$> rows)).
  { rewrite Hperm. apply Forall_forall. intros record Hin. apply list_elem_of_In, filter_In in Hin as [_ Hp]. done. }
  exists rows, (non_pass_rows bundle), ranked, unranked, (matrix_head bundle scenario), (matrix_tail bundle (non_pass_rows bundle)).
  split_and!; [reflexivity|..].
  - rewrite Hperm. unfold non_pass_rows. rewrite (sort_by_perm (cmp_on _ _)). apply filter_partition.
  - apply Forall_fmap in Hpass. rewrite Forall_forall in Hof, Hpass |- *. naive_solver.
  - unfold non_pass_rows. rewrite (sort_by_perm (cmp_on _ _)). apply Forall_forall. intros record Hin.
    apply list_elem_of_In, filter_In in Hin as [_ Hp]. by apply negb_true_iff.
  - by eapply sorted_impl, Hsorted; apply pass_row_le.
  - unfold ranked_lines in Hranked. apply collect_results_Ok, Forall2_length in Hranked. by rewrite length_imap in Hranked.
  - intros i row. by apply ranked_lines_Ok.
  - done.
Qed.
End Ranking.

(** ** The engine matrix *)

Lemma summary_row_Ok result :
  is_ok (write_summary_row result) = true <-> is_Some (rec_client (vr_result result)) /\
    exists evidence, evidence ∈ rec_evidence (vr_result result) /\ ev_id evidence = TRANSCRIPT_EVIDENCE_ID.
Proof.
  unfold write_summary_row, evidence_location. cbv zeta.
  destruct (rec_client (vr_result result)) as [engine|]; cbn [ok_or]; [|by split; [|intros [[] _]]].
  destruct (find _ (rec_evidence (vr_result result))) as [evidence|] eqn:Hfind; cbn.
  - apply find_some in Hfind as [Hin Heq%String.eqb_eq]. split; [|done]. intros _. split; [by eexists|].
    exists evidence. split; [by apply list_elem_of_In|done].
  - split; [done|]. intros [_ (evidence & Hin%list_elem_of_In & Heq)]. exfalso.
    apply (find_none _ _ Hfind) in Hin. by rewrite Heq in Hin.
Qed.

Lemma collect_is_ok {A B E} (f : A -> result B E) l :
  is_ok (collect_results f l) = true <-> Forall (fun a => is_ok (f a) = true) l.
Proof.
  induction l as [|a l IH]; [by split|]. rewrite Forall_cons, <-IH. cbn [collect_results].
  destruct (f a); [destruct (collect_results f l)|]; cbn; naive_solver.
Qed.

(** An engine matrix is rendered exactly for the bundles it can
    report on: one scenario, the interoperability scenario at its version, at least one
    result, and for every result a stock engine and a transcript among its evidence;
    everything else is an error, never a matrix with a hole. *)
Theorem engine_matrix_rendered_iff bundle :
  is_ok (render_engine_matrix bundle) = true <->
  (exists scenario, vb_scenarios bundle = [scenario] /\ scen_id (vs_scenario scenario) = ENGINE_SCENARIO_ID /\
     scen_version (vs_scenario scenario) = ENGINE_SCENARIO_VERSION) /\
  vb_results bundle <> [] /\
  forall result, result ∈ vb_results bundle -> is_Some (rec_client (vr_result result)) /\
    exists evidence, evidence ∈ rec_evidence (vr_result result) /\ ev_id evidence = TRANSCRIPT_EVIDENCE_ID.
Proof.
  unfold render_engine_matrix.
  assert (Hrows : (match sort_by by_catalog (vb_results bundle) with [] => true | _ => false end = false
      /\ is_ok (collect_results write_summary_row (sort_by by_catalog (vb_results bundle))) = true)
    <-> vb_results bundle <> [] /\ forall result, result ∈ vb_results bundle -> is_Some (rec_client (vr_result result)) /\
      exists evidence, evidence ∈ rec_evidence (vr_result result) /\ ev_id evidence = TRANSCRIPT_EVIDENCE_ID).
  { rewrite collect_is_ok, Forall_forall. setoid_rewrite elem_of_sort_by. setoid_rewrite summary_row_Ok.
    apply and_iff_compat_r. pose proof (length_sort_by by_catalog (vb_results bundle)) as Hlen.
    destruct (sort_by by_catalog (vb_results bundle)), (vb_results bundle); naive_solver. }
  rewrite <-Hrows. clear Hrows.
  destruct (vb_scenarios bundle) as [|scenario [|second rest]] eqn:Hscenarios; cbn [head ok_or].
  - cbn. split; [done|]. intros [(s & Hs & _) _]. done.
  - change (len [scenario] =? 1)%Z with true. cbn [negb orb].
    destruct (String.eqb_spec (scen_id (vs_scenario scenario)) ENGINE_SCENARIO_ID) as [Hid|Hid]; cbn [negb orb];
      [|split; [done|by intros [(s & [= <-] & ? & _) _]]].
    destruct (Z.eqb_spec (scen_version (vs_scenario scenario)) ENGINE_SCENARIO_VERSION) as [Hv|Hv]; cbn [negb];
      [|split; [done|by intros [(s & [= <-] & _ & ?) _]]].
    cbv zeta. destruct (sort_by by_catalog (vb_results bundle)) as [|r results]; [naive_solver|].
    destruct (collect_results write_summary_row (r :: results)); cbn [is_ok]; naive_solver.
  - assert ((len (scenario :: second :: rest) =? 1)%Z = false) as -> by (apply Z.eqb_neq; unfold len; cbn [length]; lia). cbn.
    split; [done|]. by intros [(s & [=] & _) _].
Qed.
