(* ===== verification/ContentionBundle.v ===== *)
(** * The contention result bundle (crates/contract-tool/src/contention_bundle.rs)

    A pinned transcript of the contention sweep is scheduled and aggregated again,
    bound to a review of its failures, and published as one result per catalog. *)

From S2P Require Import Prelude Order RustStr Float64 FloatRound FloatText Json ContractValue ContractScenario.
From S2P Require Import ContractAdapter ContractProfile ContractResult ContractDocument Sanitization Stats Ledger Policy.
From S2P Require Import Capture Routing Connection Workflow Aggregate AggregateProofs Sweep ToolFiles Publication Bundle.
From S2P Require Import LegacyCommit Matrix.
From Stdlib Require Import Ascii.
Open Scope string_scope.

(** The constants that the other importers name too are in a module. *)
Module Contention.
Definition OUTPUT_DIRECTORY : string := "results/v1/2026-08-27".
Definition TRANSCRIPT_PATH : string := "results/contention-2026-08-27-transcript.json".
Definition REVIEW_PATH : string := "results/contention-2026-08-27-review.json".
Definition PROFILE_PATH : string := "profiles/v1/contention-2026-08-27.json".
Definition SCENARIO_PATH : string := "scenarios/v1/iceberg-rest.commit.same-table-contention.v2.json".
Definition TRANSCRIPT_SHA256 : string := "af8057846da68036723ce96de09965e3fc18381b949f4c34e078749c26cae71e".
Definition REVIEW_SHA256 : string := "9f225fd562b114ac41655de43649a074a3a4d5ea8b348489a9a632d7c1d4fe95".
Definition REVIEW_FORMAT : string := "catalog-bench/contention-result-review/v1".
Definition BUNDLE_ID : string := "contention-2026-08-27-c110".
Definition TRANSCRIPT_EVIDENCE_ID : string := "contention-transcript".
Definition REVIEW_EVIDENCE_ID : string := "materialization-review".
End Contention.

Record RunReview := {
  run_fixture_id : string; run_transcript : ReviewSource; run_sanitized_invocation : string; run_started_at : string;
  run_started_at_basis : string; run_completed_at : string; run_completed_at_basis : string;
}.

Record LogObservation := {
  lo_component : ComponentId; lo_observed_at : string; lo_signature : string; lo_context : list string;
}.

Record FailureReview := {
  fr_catalog : ComponentId; fr_category : FailureCategory.t; fr_summary : string; fr_detail : string; fr_retryable : bool;
  fr_conditioning_errors : Z; fr_measured_errors : Z; fr_http_status_counts : gmap Z Z; fr_log_observations : list LogObservation;
}.

Record ResultReview := {
  rv_format : string; rv_bundle : ReviewBundle; rv_run : RunReview; rv_environment : EnvironmentManifest;
  rv_failures : list FailureReview; rv_redaction : RedactionStatement;
}.

Notation Transcript := (ContentionTranscript CatalogNegotiationEvidence).
Notation Round := (CatalogRoundTranscript CatalogNegotiationEvidence).

Record ContractInputs := {
  ci_profile : Profile; ci_profile_bytes : string; ci_scenario : Scenario; ci_scenario_bytes : string; ci_plan : ContentionPlan;
}.

Record ResultBuildContext := {
  rc_transcript : Transcript; rc_review : ResultReview; rc_profile : Profile; rc_profile_artifact : ArtifactReference;
  rc_scenario : Scenario; rc_scenario_artifact : ArtifactReference; rc_transcript_artifact : ArtifactReference;
  rc_review_artifact : ArtifactReference;
}.

Inductive AssertionObservation := ObservedPass | ObservedFail (explanation : string).

(** Derived decoders. *)
Class ContentionTranscriptDecoder := decode_contention_transcript : string -> result Transcript string.
Class ContentionReviewDecoder := decode_contention_review : string -> result ResultReview string.

(** ** Derived equality, in which floats are compared as floats *)

#[export] Instance AuthenticationOutcome_eq_dec : EqDecision AuthenticationOutcome.t.
Proof. solve_decision. Defined.
#[export] Instance RoundTally_eq_dec : EqDecision RoundTally.
Proof. solve_decision. Defined.
#[export] Instance AggregateClassification_eq_dec : EqDecision CatalogAggregateClassification.t.
Proof. solve_decision. Defined.
#[export] Instance SweepClassification_eq_dec : EqDecision SweepClassification.t.
Proof. solve_decision. Defined.
#[export] Instance RankingBasis_eq_dec : EqDecision RankingBasis.
Proof. solve_decision. Defined.
#[export] Instance RankingTieBreaker_eq_dec : EqDecision RankingTieBreaker.
Proof. solve_decision. Defined.
#[export] Instance CatalogOrder_eq_dec : EqDecision CatalogOrder.
Proof. solve_decision. Defined.
#[export] Instance AggregatePolicy_eq_dec : EqDecision AggregatePolicy.
Proof. solve_decision. Defined.
#[export] Instance CommitRequirement_eq_dec : EqDecision CommitRequirement.
Proof. solve_decision. Defined.
#[export] Instance IdempotencyPolicy_eq_dec : EqDecision IdempotencyPolicy.
Proof. solve_decision. Defined.
#[export] Instance RoundPolicy_eq_dec : EqDecision RoundPolicy.
Proof. solve_decision. Defined.
#[export] Instance WorkloadPolicy_eq_dec : EqDecision WorkloadPolicy.
Proof. solve_decision. Defined.
#[export] Instance MetadataRetentionPolicy_eq_dec : EqDecision MetadataRetentionPolicy.
Proof. solve_decision. Defined.
#[export] Instance ObjectStorePolicy_eq_dec : EqDecision ObjectStorePolicy.
Proof. solve_decision. Defined.
#[export] Instance LimitPolicy_eq_dec : EqDecision LimitPolicy.
Proof. solve_decision. Defined.
#[export] Instance ContentionParameters_eq_dec : EqDecision ContentionParameters.
Proof. solve_decision. Defined.

Fixpoint list_eqb {A} (eqb : A -> A -> bool) (l k : list A) : bool :=
  match l, k with
  | [], [] => true
  | a :: l, b :: k => eqb a b && list_eqb eqb l k
  | _, _ => false
  end.

Definition option_eqb {A} (eqb : A -> A -> bool) (a b : option A) : bool :=
  match a, b with Some a, Some b => eqb a b | None, None => true | _, _ => false end.

Definition range_eqb (a b : MedianRange) : bool :=
  (mr_samples a =? mr_samples b)%Z && f64_eq (mr_minimum a) (mr_minimum b) && f64_eq (mr_median a) (mr_median b)
  && f64_eq (mr_maximum a) (mr_maximum b).

Definition measurement_ranges (m : ContentionMeasurements) : list MedianRange :=
  [m_sequential_latency_p50_ms m; m_sequential_latency_p95_ms m; m_sequential_latency_p99_ms m;
   m_sequential_accepted_throughput_per_second m; m_concurrent_latency_p50_ms m; m_concurrent_latency_p95_ms m;
   m_concurrent_latency_p99_ms m; m_concurrent_attempted_throughput_per_second m;
   m_concurrent_accepted_throughput_per_second m; m_concurrent_conflict_rate m; m_concurrent_error_rate m;
   m_concurrent_attempts m; m_concurrent_accepted m; m_concurrent_conflicts m; m_metadata_object_growth m].

Definition measurements_eqb (a b : ContentionMeasurements) : bool :=
  list_eqb range_eqb (measurement_ranges a) (measurement_ranges b).

Definition aggregate_eqb (a b : CatalogAggregate) : bool :=
  bool_decide (agg_catalog a = agg_catalog b) && bool_decide (agg_conditioning a = agg_conditioning b)
  && bool_decide (agg_measured a = agg_measured b) && bool_decide (agg_classification a = agg_classification b)
  && option_eqb measurements_eqb (agg_measurements a) (agg_measurements b).

Definition disposition_eqb (a b : RankingDisposition) : bool :=
  match a, b with
  | Ranked rank score, Ranked rank' score' => (rank =? rank')%Z && range_eqb score score'
  | NotRanked reasons, NotRanked reasons' => bool_decide (reasons = reasons')
  | _, _ => false
  end.

Definition entry_eqb (a b : RankingEntry) : bool :=
  bool_decide (re_catalog a = re_catalog b) && disposition_eqb (re_disposition a) (re_disposition b).

Definition ranking_eqb (a b : ContentionRanking) : bool :=
  bool_decide (ranking_basis a = ranking_basis b) && bool_decide (tie_breakers a = tie_breakers b)
  && list_eqb entry_eqb (ranking_entries a) (ranking_entries b).

(** ** Derived serialization *)

Definition uint_json (n : Z) : Value := Num (PosInt n).

(** A float without a JSON form becomes null. *)
Definition float_json (x : f64) : Value := if is_finite x then Num (Float x) else Null.

Definition strings_json (values : list string) : Value := Array (Str <$> values).

Definition tally_json (t : RoundTally) : Value :=
  json_object [("scheduled", uint_json (scheduled_rounds t)); ("executed", uint_json (executed_rounds t));
               ("passed", uint_json (passed_rounds t))].

Definition range_json (r : MedianRange) : Value :=
  json_object [("samples", uint_json (mr_samples r)); ("minimum", float_json (mr_minimum r));
               ("median", float_json (mr_median r)); ("maximum", float_json (mr_maximum r))].

Definition disposition_json (disposition : RankingDisposition) : Value :=
  match disposition with
  | Ranked rank score => json_object [("status", Str "ranked"); ("rank", uint_json rank); ("score", range_json score)]
  | NotRanked reasons => json_object [("status", Str "not-ranked"); ("reasons", strings_json reasons)]
  end.

Definition basis_json (basis : RankingBasis) : Value :=
  match basis with ConcurrentAcceptedThroughputPerSecond => Str "concurrent-accepted-throughput-per-second" end.

Definition tie_breaker_json (tie_breaker : RankingTieBreaker) : Value :=
  match tie_breaker with
  | SequentialLatencyP50Ascending => Str "sequential-latency-p50-ascending"
  | CatalogIdAscending => Str "catalog-id-ascending"
  end.

(** ** Rounds and their phases *)

Definition round_label (round : Round) : string :=
  let kind := match rt_kind round with Conditioning => "conditioning" | Measured => "measured" end in
  kind +:+ " repetition " +:+ display (rt_repetition round).

Definition operation_output {T} (operation : OperationEvidence T) (name : string) : result T Chain :=
  match operation with
  | Succeeded output => Ok output
  | Failed _ => Err [name +:+ " operation failed"]
  | NotAttempted _ => Err [name +:+ " operation was not attempted"]
  end.

Definition round_phase (round : Round) (select : RoundExecution -> OperationEvidence PhaseEvidence) (name : string)
  : result PhaseEvidence Chain :=
  let? execution := ok_or (rt_execution round) [round_label round +:+ " has no execution"] in
  operation_output (select execution) name.

Definition concurrent_phase (round : Round) : result PhaseEvidence Chain := round_phase round re_concurrent "concurrent".
Definition sequential_phase (round : Round) : result PhaseEvidence Chain := round_phase round re_sequential "sequential".

(** [u64::checked_add]. *)
Definition add_count (total n : Z) (overflow : string) : result Z Chain := ok_or (checked_add u64_max total n) [overflow].

Definition sum_phase_count (rounds : list Round) (select : PhaseEvidence -> Z) : result Z Chain :=
  try_fold (fun total round =>
    let? phase := concurrent_phase round in
    add_count total (select phase) "request count overflowed") 0%Z rounds.

(** One error of a phase. *)
Definition count_status (counts : gmap Z Z) (error_count : ErrorCount) : result (gmap Z Z) Chain :=
  guard negb (bool_decide (error_kind (ec_error error_count) = UnexpectedHttp))
    or ["reviewed failure contains a non-HTTP request error"] in
  let? status := ok_or (error_http_status (ec_error error_count)) ["unexpected HTTP error omits status"] in
  let? count := add_count (default 0%Z (counts !! status)) (ec_count error_count) "HTTP error count overflowed" in
  Ok (<[status := count]> counts).

Definition http_status_counts (rounds : list Round) : result (gmap Z Z) Chain :=
  try_fold (fun counts round =>
    let? phase := concurrent_phase round in
    try_fold count_status counts (error_counts phase)) ∅ rounds.

(** ** Assertions *)

Definition observe_global (passed : bool) (explanation : string) : AssertionObservation :=
  if passed then ObservedPass else ObservedFail explanation.

Definition observe_rounds (rounds : list Round) (passed : Round -> bool) (explanation : list string -> string)
  : AssertionObservation :=
  match round_label <$> List.filter (fun round => negb (passed round)) rounds with
  | [] => ObservedPass
  | failed => ObservedFail (explanation failed)
  end.

Definition check_passed (check : RoundChecks -> bool) (round : Round) : bool :=
  is_some_and (fun execution => check (re_checks execution)) (rt_execution round).

Definition observe_check (rounds : list Round) (check : RoundChecks -> bool) : AssertionObservation :=
  observe_rounds rounds (check_passed check) (fun failed => "The check failed in " +:+ String.concat ", " failed +:+ ".").

Definition negotiation_ready (round : Round) : bool :=
  let negotiation := rt_negotiation round in
  let adapter := ne_adapter negotiation in
  match rt_outcome round with Executed _ => true | NegotiationFailed _ => false end
  && (ta_catalog adapter =? run_catalog (rt_catalog round)) && (ta_name adapter =? run_name (rt_catalog round))
  && (ta_version adapter =? run_version (rt_catalog round))
  && bool_decide (au_outcome (ne_authentication negotiation) = AuthenticationOutcome.Ready)
  && is_some_and (fun response => (200 <=? rs_status response)%Z && (rs_status response <? 300)%Z)
       (rct_response (ne_config negotiation)).

Definition publishable (sanitization : ContentionSanitization) : bool :=
  (cs_policy sanitization =? "catalog-bench/value-safe-contention-v1") && negb (cs_raw_secrets_persisted sanitization)
  && negb (cs_raw_response_body_persisted sanitization) && negb (cs_raw_request_identities_persisted sanitization)
  && (cs_write_mode sanitization =? "create-new").

(** The checks of a round that a scenario assertion reads. *)
Definition round_check (id : string) : option (RoundChecks -> bool) :=
  if id =? "fixture-isolated" then Some fixture_isolated
  else if id =? "setup-succeeded" then Some setup_succeeded
  else if id =? "warmup-accounted" then Some warmup_accounted
  else if id =? "sequential-accounted" then Some sequential_accounted
  else if id =? "sequential-latency-complete" then Some sequential_latency_complete
  else if id =? "all-requests-accounted" then Some all_requests_accounted
  else if id =? "concurrent-progress" then Some concurrent_progress
  else if id =? "final-state-accounted" then Some final_state_accounted
  else if id =? "metadata-persisted" then Some metadata_persisted
  else if id =? "fixture-clean" then Some fixture_clean
  else None.

(** The [match] of [evaluate_assertion]. *)
Definition observe_assertion (id : string) (transcript : Transcript) (rounds : list Round)
  : result AssertionObservation Chain :=
  if id =? "runner-runtime-pinned" then
    Ok (observe_global (runner_passed (ct_runner transcript) && (rn_component (ct_runner transcript) =? RUNNER_COMPONENT_ID))
          "The runner runtime or source identity did not match the selected profile.")
  else if id =? "catalog-auth-config-ready" then
    Ok (observe_rounds rounds negotiation_ready (fun failed =>
          "Authentication, config, or profile-native routing was not ready in " +:+ String.concat ", " failed +:+ "."))
  else if id =? "zero-request-errors" then
    match observe_check rounds zero_request_errors with
    | ObservedPass => Ok ObservedPass
    | ObservedFail _ =>
        let? errors := sum_phase_count rounds (fun phase => errors (counts phase)) in
        Ok (ObservedFail (display errors
              +:+ " non-conflict request errors occurred across conditioning and measured repetitions."))
    end
  else if id =? "transcript-sanitized" then
    Ok (observe_global (publishable (ct_sanitization transcript))
          "The transcript sanitization or create-new policy was not satisfied.")
  else match round_check id with
       | Some check => Ok (observe_check rounds check)
       | None => Err ["contention result materializer does not implement assertion `" +:+ id +:+ "`"]
       end.

Definition evaluate_contention_assertion (transcript : Transcript) (rounds : list Round) (assertion : AssertionSpec)
  : result AssertionEvaluation Chain :=
  let? observation := observe_assertion (spec_id assertion) transcript rounds in
  Ok {| eval_assertion := spec_id assertion; eval_required := spec_required assertion;
        eval_outcome := match observation with
                        | ObservedPass => AssertionPass
                        | ObservedFail explanation => AssertionFail explanation
                        end;
        eval_evidence := [Contention.TRANSCRIPT_EVIDENCE_ID] |}.

(** ** Measurements *)

(** [f64::trunc] and [f64::fract]. *)
Definition f64_trunc (x : f64) : f64 :=
  match x with
  | S754_finite s m e =>
      if (0 <=? e)%Z then x else
      let q := (Zpos m / 2 ^ (- e))%Z in
      if (q =? 0)%Z then S754_zero s else f64_of_Z (if s then - q else q)%Z
  | _ => x
  end.
Definition f64_fract (x : f64) : f64 := f64_sub x (f64_trunc x).

Definition statistics {A} (r : result A StatisticsError) : result A Chain := map_err (fun e => [display_statistics_error e]) r.

Definition contention_distribution_metric (name unit : string) (values : list f64) : result Metric Chain :=
  let? distribution := statistics (nonnegative_distribution values) in
  Ok {| metric_name := name; metric_unit := unit; metric_value := DistributionValue distribution |}.

Definition contention_distribution_median (distribution : Distribution) : result f64 Chain :=
  ok_or (dist_quantiles distribution !! "p50") ["distribution has no p50"].

Definition contention_median (values : list f64) : result f64 Chain :=
  let? distribution := statistics (nonnegative_distribution values) in contention_distribution_median distribution.

Definition phase_quantile (quantile : string) (phase : PhaseEvidence) : result f64 Chain :=
  let? distribution := ok_or (lat_all (latency_ms phase)) ["phase has no complete latency distribution"] in
  ok_or (dist_quantiles distribution !! quantile) ["phase latency has no `" +:+ quantile +:+ "` quantile"].

Definition quantile_metric (name : string) (phases : list PhaseEvidence) (quantile : string) : result Metric Chain :=
  let? values := collect_results (phase_quantile quantile) phases in
  contention_distribution_metric name "ms" values.

Definition observed_object_growth (round : Round) : result f64 Chain :=
  let? execution := ok_or (rt_execution round) ["measured round has no execution"] in
  let? growth := operation_output (re_metadata_growth execution) "metadata growth" in
  let? value := ok_or (observed_growth growth) ["metadata object count decreased"] in
  Ok (f64_of_Z value).

Section Measurements.
Context `{FloatDisplay}.

(** [*value as u64] is [f64_to_usize]: truncating and saturating at 64 bits. *)
Definition sum_counts (values : list f64) : result Z Chain :=
  try_fold (fun total value =>
    guard negb (f64_eq (f64_fract value) f64_zero) || f64_lt value f64_zero || f64_gt value (f64_of_Z u64_max)
      or ["count distribution contains non-integral value " +:+ display_f64 value] in
    add_count total (f64_to_usize value) "count total overflowed") 0%Z values.

Definition sequential_metrics (sequential : list PhaseEvidence) : result (list Metric) Chain :=
  let? throughput := contention_distribution_metric "successful-throughput" "operations/s"
    (accepted_throughput_per_second <$> sequential) in
  let? p50 := quantile_metric "p50-latency" sequential "p50" in
  let? p95 := quantile_metric "p95-latency" sequential "p95" in
  let? p99 := quantile_metric "p99-latency" sequential "p99" in
  Ok [throughput; p50; p95; p99].

(** The counts of a phase, as floats. *)
Definition count_values (concurrent : list PhaseEvidence) (select : RequestCounts -> Z) : list f64 :=
  (fun phase => f64_of_Z (select (counts phase))) <$> concurrent.

Definition count_metric (name : string) (values : list f64) : result Metric Chain :=
  let? total := sum_counts values in Ok (counter_metric name total).

Definition concurrent_metrics (concurrent : list PhaseEvidence) (growth : list f64) (valid_rounds measured_rounds : Z)
  : result (list Metric) Chain :=
  let? accepted_throughput := contention_distribution_metric "successful-throughput" "operations/s"
    (accepted_throughput_per_second <$> concurrent) in
  let? attempted_throughput := contention_distribution_metric "attempted-throughput" "operations/s"
    (attempted_throughput_per_second <$> concurrent) in
  let? p50 := quantile_metric "p50-latency" concurrent "p50" in
  let? p95 := quantile_metric "p95-latency" concurrent "p95" in
  let? p99 := quantile_metric "p99-latency" concurrent "p99" in
  let? attempts_per_round := contention_distribution_metric "request-attempts-per-round" "requests/round"
    (count_values concurrent attempts) in
  let? accepted_per_round := contention_distribution_metric "successful-commits" "commits/round"
    (count_values concurrent accepted) in
  let? conflicts_per_round := contention_distribution_metric "conflicts-per-round" "conflicts/round"
    (count_values concurrent conflicts) in
  let? errors_per_round := contention_distribution_metric "errors-per-round" "errors/round"
    (count_values concurrent errors) in
  let? conflict_percent := contention_distribution_metric "conflict-rate" "percent"
    ((fun phase => f64_mul (conflict_rate phase) (f64_of_Z 100)) <$> concurrent) in
  let? error_percent := contention_distribution_metric "error-rate" "percent"
    ((fun phase => f64_mul (error_rate phase) (f64_of_Z 100)) <$> concurrent) in
  let? growth := contention_distribution_metric "metadata-object-growth" "objects/round" growth in
  let? total_attempts := count_metric "request-attempts" (count_values concurrent attempts) in
  let? total_accepted := count_metric "accepted-commits" (count_values concurrent accepted) in
  let? total_conflicts := count_metric "conflicts" (count_values concurrent conflicts) in
  let? total_errors := count_metric "request-errors" (count_values concurrent errors) in
  Ok [accepted_throughput; attempted_throughput; p50; p95; p99; attempts_per_round; accepted_per_round; conflicts_per_round;
      errors_per_round; conflict_percent; error_percent; growth; total_attempts; total_accepted; total_conflicts; total_errors;
      counter_metric "valid-rounds" valid_rounds; counter_metric "measured-rounds" measured_rounds].

Definition contention_measurements (rounds : list Round) (valid_rounds : Z) : result (list MeasuredPhase) Chain :=
  guard is_nil rounds or ["contention result requires measured rounds"] in
  let? sequential := collect_results sequential_phase rounds in
  let? concurrent := collect_results concurrent_phase rounds in
  let? growth := collect_results observed_object_growth rounds in
  let? sequential_elapsed := contention_median (elapsed_ms <$> sequential) in
  let? sequential_metrics := sequential_metrics sequential in
  let? concurrent_elapsed := contention_median (elapsed_ms <$> concurrent) in
  let? concurrent_metrics := concurrent_metrics concurrent growth valid_rounds (len rounds) in
  Ok [{| mp_name := "sequential"; mp_elapsed_ms := sequential_elapsed;
         mp_operations := (fun phase => attempts (counts phase)) <$> head sequential; mp_latency_ms := None;
         mp_metrics := sequential_metrics |};
      {| mp_name := "concurrent"; mp_elapsed_ms := concurrent_elapsed; mp_operations := None; mp_latency_ms := None;
         mp_metrics := concurrent_metrics |}].
End Measurements.

(** ** Results *)

Definition contention_evidence (transcript : Transcript) (redaction : RedactionStatement)
    (transcript_artifact review_artifact : ArtifactReference) : list Evidence := [
  {| ev_id := Contention.TRANSCRIPT_EVIDENCE_ID; ev_kind := EvidenceKind.HttpTranscript; ev_artifact := transcript_artifact;
     ev_sanitized := true; ev_redactions := cs_redactions (ct_sanitization transcript);
     ev_extensions := {[ "querygraph/transcript-format" := Str (ct_format transcript) ]} |};
  {| ev_id := Contention.REVIEW_EVIDENCE_ID; ev_kind := EvidenceKind.Log; ev_artifact := review_artifact;
     ev_sanitized := true; ev_redactions := red_removed_fields redaction;
     ev_extensions := {[ "querygraph/reviewed" := Bool (red_reviewed redaction) ]} |}].

Definition required_failure (evaluation : AssertionEvaluation) : bool :=
  eval_required evaluation && match eval_outcome evaluation with AssertionFail _ => true | _ => false end.

Definition failed_assertions (assertions : list AssertionEvaluation) : list string :=
  eval_assertion <$> List.filter required_failure assertions.

Definition contention_outcome (catalog_id : string) (failed_required : list string) (failure_review : option FailureReview)
    (disposition : RankingDisposition) : result ResultOutcome Chain :=
  if is_nil failed_required then
    guard match failure_review with Some _ => true | None => false end
      or ["passing catalog `" +:+ catalog_id +:+ "` unexpectedly has a failure review"] in
    match disposition with
    | Ranked _ score =>
        Ok (ResultPass (Some ("Conditioning repetition 1 and all five measured repetitions passed every required assertion; median concurrent accepted throughput was "
          +:+ format_fixed 6 (mr_median score) +:+ " operations/s.")))
    | NotRanked _ => Err ["passing catalog `" +:+ catalog_id +:+ "` is not ranked"]
    end
  else
    let? review := ok_or failure_review ["failed catalog `" +:+ catalog_id +:+ "` has no reviewed failure attribution"] in
    match disposition with
    | NotRanked _ =>
        Ok (ResultFail {|
          fail_category := fr_category review; fail_summary := fr_summary review; fail_detail := fr_detail review;
          fail_retryable := fr_retryable review;
          fail_evidence := [Contention.TRANSCRIPT_EVIDENCE_ID; Contention.REVIEW_EVIDENCE_ID] |})
    | Ranked _ _ => Err ["failed catalog `" +:+ catalog_id +:+ "` is unexpectedly ranked"]
    end.

Definition contention_extensions (aggregate : CatalogAggregate) (failed_required : list string)
    (disposition : RankingDisposition) (total_errors : Z) : gmap string Value := list_to_map [
  ("querygraph/rounds", json_object [("conditioning", tally_json (agg_conditioning aggregate));
     ("measured", tally_json (agg_measured aggregate)); ("failed_required_assertions", strings_json failed_required)]);
  ("querygraph/ranking-disposition", disposition_json disposition);
  ("querygraph/request-handling", json_object [("protocol", Str "iceberg-rest-v1"); ("behavior_changing_shim", Bool false)]);
  ("querygraph/measured-request-errors", uint_json total_errors)].

Section Results.
Context `{UrlParser, FloatDisplay}.

Definition contention_result (component : Component) (aggregate : CatalogAggregate) (failure_review : option FailureReview)
    (context : ResultBuildContext) : result ResultRecord Chain :=
  let transcript := rc_transcript context in
  let review := rc_review context in
  let profile := rc_profile context in
  let scenario := rc_scenario context in
  let catalog_id := comp_id component in
  let rounds := of_catalog catalog_id (ct_rounds transcript) in
  let measured_rounds := of_kind Measured rounds in
  let? assertions := collect_results (evaluate_contention_assertion transcript rounds) (scen_assertions scenario) in
  let failed_required := failed_assertions assertions in
  let? measurements := contention_measurements measured_rounds (passed_rounds (agg_measured aggregate)) in
  let? ranking_entry := ok_or (find (fun entry => run_catalog (re_catalog entry) =? catalog_id)
      (ranking_entries (ct_ranking transcript))) ["ranking has no `" +:+ catalog_id +:+ "` entry"] in
  let? outcome := contention_outcome catalog_id failed_required failure_review (re_disposition ranking_entry) in
  let? total_errors := sum_phase_count measured_rounds (fun phase => errors (counts phase)) in
  let record := {|
    rec_contract_version := V1; rec_kind := ResultKind; rec_id := Contention.BUNDLE_ID +:+ "-" +:+ catalog_id;
    rec_scenario := {| sref_id := scen_id scenario; sref_version := scen_version scenario;
                       sref_digest := artifact_digest (rc_scenario_artifact context) |};
    rec_profile := {| pref_id := prof_id profile; pref_digest := artifact_digest (rc_profile_artifact context) |};
    rec_catalog := {| exec_profile_component := comp_id component; exec_name := comp_name component;
                      exec_version := comp_version component |};
    rec_client := None; rec_adapters := [];
    rec_run := Aggregate (ct_fixture_id transcript +:+ "-" +:+ catalog_id +:+ "-measured")
      (run_started_at (rv_run review) +:+ "/" +:+ run_completed_at (rv_run review)) [2; 3; 4; 5; 6]%Z [1]%Z
      "Performance distributions use measured repetitions 2 through 6 with full range, population moments, and deterministic quantiles. Strict classification additionally requires conditioning repetition 1 and every measured repetition to pass.";
    rec_outcome := outcome; rec_environment := rv_environment review; rec_assertions := assertions;
    rec_measurements := measurements;
    rec_evidence := contention_evidence transcript (rv_redaction review) (rc_transcript_artifact context)
                      (rc_review_artifact context);
    rec_artifacts := [];
    rec_extensions := contention_extensions aggregate failed_required (re_disposition ranking_entry) total_errors |} in
  check? map_err (fun errors => [display_issues errors]) (validate record) in
  Ok record.
End Results.

(** ** Checking the transcript and the review *)

Section Verification.
Context `{Ledger.Sha256, !Serialize Transcript}.

Definition TRANSCRIPT_LENGTH : Z := 434978.

Definition verify_transcript (transcript : Transcript) (transcript_bytes : string) (contracts : ContractInputs)
  : result unit Chain :=
  let profile := ci_profile contracts in
  let scenario := ci_scenario contracts in
  let observed := ct_runner transcript in
  guard negb (ct_format transcript =? CONTENTION_TRANSCRIPT_FORMAT)
    or ["unexpected contention transcript format `" +:+ ct_format transcript +:+ "`"] in
  guard negb (profile_sha256 (ct_contract_digests transcript) =? hash_text (ci_profile_bytes contracts))
        || negb (scenario_sha256 (ct_contract_digests transcript) =? hash_text (ci_scenario_bytes contracts))
    or ["transcript contract digests do not match the exact profile and scenario bytes"] in
  guard negb (tp_id (ct_profile transcript) =? prof_id profile)
        || negb (tp_resolved_at (ct_profile transcript) =? prof_resolved_at profile)
    or ["transcript profile identity does not match the runnable profile"] in
  guard negb (ts_id (ct_scenario transcript) =? scen_id scenario)
        || negb (ts_version (ct_scenario transcript) =? scen_version scenario)%Z
    or ["transcript scenario identity does not match the v2 scenario"] in
  guard negb (bool_decide (ct_parameters transcript = parameters (ci_plan contracts)))
    or ["transcript parameters differ from the scenario-derived contention plan"] in
  let? runner := ok_or (find (fun component => comp_id component =? RUNNER_COMPONENT_ID) (prof_components profile))
    ["profile omits the contention runner component"] in
  let? runner_revision := ok_or (source_revision <$> comp_source runner) ["runner component has no source revision"] in
  guard negb (rn_component observed =? comp_id runner) || negb (rn_name observed =? comp_name runner)
        || negb (rn_version observed =? comp_version runner) || negb (rn_source_revision observed =? runner_revision)
        || negb (rn_operating_system observed =? plat_operating_system (prof_platform profile))
        || negb (rn_architecture observed =? plat_architecture (prof_platform profile)) || negb (runner_passed observed)
    or ["transcript runner identity or runtime does not match the selected profile"] in
  guard negb (publishable (ct_sanitization transcript))
    or ["transcript does not satisfy the publishable sanitization contract"] in
  check? context "transcript contains an unsanitized request identity"
    (map_err display_violation (audit_transcript transcript [])) in
  guard negb (str_len transcript_bytes =? TRANSCRIPT_LENGTH)%Z
        || negb (hash_text transcript_bytes =? Contention.TRANSCRIPT_SHA256)
    or ["transcript bytes differ from the reviewed C110 source evidence"] in
  Ok tt.

(** One log observation of a failure review. *)
Definition verify_log_observation (review : FailureReview) (profile_components : gset ComponentId)
    (observation : LogObservation) : result unit Chain :=
  guard negb (bool_decide (lo_component observation ∈ profile_components))
    or ["failure review for `" +:+ fr_catalog review +:+ "` references unknown component `"
        +:+ lo_component observation +:+ "`"] in
  let? _ := parse_utc_timestamp (lo_observed_at observation) "log observation timestamp" in
  check? require_text (lo_signature observation) "log observation signature" in
  guard is_nil (lo_context observation) || existsb is_empty (lo_context observation)
    or ["failure log observation has empty context"] in
  Ok tt.

Definition verify_failure_review (transcript : Transcript) (profile_components : gset ComponentId) (review : FailureReview)
  : result unit Chain :=
  check? require_text (fr_summary review) "failure summary" in
  check? require_text (fr_detail review) "failure detail" in
  guard is_nil (fr_log_observations review)
    or ["failure review for `" +:+ fr_catalog review +:+ "` has no log observation"] in
  check? check_all (verify_log_observation review profile_components) (fr_log_observations review) in
  let rounds := of_catalog (fr_catalog review) (ct_rounds transcript) in
  let? conditioning_errors := sum_phase_count (of_kind Conditioning rounds) (fun phase => errors (counts phase)) in
  let? measured_errors := sum_phase_count (of_kind Measured rounds) (fun phase => errors (counts phase)) in
  guard negb (fr_conditioning_errors review =? conditioning_errors)%Z || negb (fr_measured_errors review =? measured_errors)%Z
    or ["reviewed error totals for `" +:+ fr_catalog review +:+ "` do not match the transcript"] in
  let? status_counts := http_status_counts rounds in
  guard negb (bool_decide (fr_http_status_counts review = status_counts))
    or ["reviewed HTTP status counts for `" +:+ fr_catalog review +:+ "` do not match the transcript"] in
  Ok tt.

Definition failed_catalogs (aggregates : list CatalogAggregate) : list ComponentId :=
  (fun aggregate => run_catalog (agg_catalog aggregate)) <$> List.filter (fun aggregate => negb (agg_passed aggregate)) aggregates.

Definition verify_review (review : ResultReview) (transcript : Transcript) (transcript_bytes : string) (profile : Profile)
    (aggregates : list CatalogAggregate) : result unit Chain :=
  let bundle := rv_bundle review in
  let run := rv_run review in
  let environment := rv_environment review in
  guard negb (rv_format review =? Contention.REVIEW_FORMAT) || negb (rb_id bundle =? Contention.BUNDLE_ID)
        || negb (rb_output_directory bundle =? Contention.OUTPUT_DIRECTORY)
    or ["result review identifies an unexpected format, bundle, or output directory"] in
  check? require_text (rb_title bundle) "bundle title" in
  let? created_at := parse_utc_timestamp (rb_created_at bundle) "bundle created_at" in
  let? started_at := parse_utc_timestamp (run_started_at run) "run started_at" in
  let? completed_at := parse_utc_timestamp (run_completed_at run) "run completed_at" in
  guard at_least started_at completed_at || at_least completed_at created_at
    or ["reviewed run and bundle timestamps are not strictly ordered"] in
  check? require_text (run_started_at_basis run) "started_at basis" in
  check? require_text (run_completed_at_basis run) "completed_at basis" in
  check? require_text (run_sanitized_invocation run) "sanitized invocation" in
  guard negb (run_fixture_id run =? ct_fixture_id transcript)
        || negb (rsrc_location (run_transcript run) =? Contention.TRANSCRIPT_PATH)
        || negb (rsrc_sha256 (run_transcript run) =? Contention.TRANSCRIPT_SHA256)
        || negb (rsrc_bytes (run_transcript run) =? str_len transcript_bytes)%Z
    or ["result review does not bind the exact C110 transcript"] in
  guard negb (env_operating_system environment =? plat_operating_system (prof_platform profile))
        || negb (env_architecture environment =? plat_architecture (prof_platform profile))
        || bool_decide (is_Some (env_cpu_limit environment)) || bool_decide (is_Some (env_memory_limit_bytes environment))
    or ["reviewed environment differs from the profile platform or observed no-limit setup"] in
  guard negb (red_reviewed (rv_redaction review)) or ["result review has not completed redaction review"] in
  check? require_text (red_policy (rv_redaction review)) "redaction policy" in
  let reviewed_catalogs := list_to_set (fr_catalog <$> rv_failures review) : gset ComponentId in
  guard negb (len (rv_failures review) =? Z.of_nat (size reviewed_catalogs))%Z
        || negb (bool_decide (reviewed_catalogs = list_to_set (failed_catalogs aggregates)))
    or ["failure reviews do not cover exactly the failed catalogs"] in
  let profile_components := list_to_set (comp_id <$> prof_components profile) : gset ComponentId in
  check_all (verify_failure_review transcript profile_components) (rv_failures review).
End Verification.

(** ** Generating, checking and writing the bundle *)

Definition aggregation_chain (error : AggregationError) : Chain :=
  display_aggregation_error error
  :: match error with AggregateStatistics error => [display_statistics_error error] | _ => [] end.

Definition contention_manifest (review : ResultReview) (transcript : Transcript)
    (profile scenario transcript_artifact review_artifact : ArtifactReference) (results : list ArtifactReference)
  : ResultBundleManifest := {|
  man_contract_version := V1; man_kind := ManifestKind; man_id := rb_id (rv_bundle review);
  man_title := rb_title (rv_bundle review); man_created_at := rb_created_at (rv_bundle review);
  man_provenance := LiveRun RUNNER_COMPONENT_ID (run_sanitized_invocation (rv_run review)) (run_started_at (rv_run review))
                      (run_completed_at (rv_run review));
  man_profile := profile; man_scenarios := [scenario]; man_results := results;
  man_source_evidence := [transcript_artifact; review_artifact]; man_redaction := rv_redaction review;
  man_extensions := list_to_map [
    ("querygraph/fixture-id", Str (ct_fixture_id transcript));
    ("querygraph/ranking", json_object [("basis", basis_json (ranking_basis (ct_ranking transcript)));
       ("tie_breakers", Array (tie_breaker_json <$> tie_breakers (ct_ranking transcript))); ("strict_pass_only", Bool true)]);
    ("querygraph/transcript", json_object [("format", Str (ct_format transcript));
       ("sha256", Str Contention.TRANSCRIPT_SHA256); ("rounds", uint_json (len (ct_rounds transcript)))])] |}.

Section Generation.
Context `{UrlParser, Ledger.Sha256, !Serialize Transcript, ContractDecoders, ParametersDecoder, CanonicalScenario, FloatDisplay}.
Context `{!ContentionTranscriptDecoder, !ContentionReviewDecoder, !ToVecPretty ResultRecord, !ToVecPretty ResultBundleManifest}.
Context `{DebugMetric} {W : Type} `{FileTree W}.

(** One turn of the loop over the aggregates. *)
Definition add_contention_result (components : gmap string Component) (failure_reviews : gmap string FailureReview)
    (result_context : ResultBuildContext) (state : gmap string string * list ArtifactReference)
    (aggregate : CatalogAggregate) : result (gmap string string * list ArtifactReference) Chain :=
  let '(files, artifacts) := state in
  let catalog_id := run_catalog (agg_catalog aggregate) in
  let? component := ok_or (components !! catalog_id) ["profile has no `" +:+ catalog_id +:+ "` component"] in
  let? record := contention_result component aggregate (failure_reviews !! catalog_id) result_context in
  let name := catalog_id +:+ ".json" in
  let? bytes := pretty_json record in
  Ok (<[name := bytes]> files,
      (artifacts ++ [artifact name "application/json" bytes
                       ("Production contention aggregate for " +:+ comp_name component +:+ ".")])%list).

(** [generate] after the inputs are read. *)
Definition generate_from (repository_root transcript_bytes review_bytes profile_bytes scenario_bytes : string)
    (transcript : Transcript) (review : ResultReview) (profile : Profile) (scenario : Scenario) (plan : ContentionPlan)
  : result GeneratedFiles Chain :=
  check? verify_transcript transcript transcript_bytes {|
    ci_profile := profile; ci_profile_bytes := profile_bytes; ci_scenario := scenario; ci_scenario_bytes := scenario_bytes;
    ci_plan := plan |} in
  let? (aggregates, ranking, classification) :=
    map_err (fun e => "failed to independently aggregate transcript rounds" :: aggregation_chain e)
      (aggregate_contention plan (ct_rounds transcript)) in
  guard negb (list_eqb aggregate_eqb (ct_aggregates transcript) aggregates)
        || negb (ranking_eqb (ct_ranking transcript) ranking)
        || negb (bool_decide (ct_classification transcript = classification))
    or ["transcript aggregates, ranking, or sweep classification do not recompute exactly"] in
  check? verify_review review transcript transcript_bytes profile aggregates in
  let profile_artifact := artifact "../../../profiles/v1/contention-2026-08-27.json" "application/json" profile_bytes
    "Runnable production contention profile with exact source, image, and executable identities." in
  let scenario_artifact := artifact "../../../scenarios/v1/iceberg-rest.commit.same-table-contention.v2.json"
    "application/json" scenario_bytes "Canonical same-table contention v2 scenario." in
  let transcript_artifact := artifact "../../contention-2026-08-27-transcript.json" "application/json" transcript_bytes
    "Complete sanitized 30-round production contention transcript." in
  let review_artifact := artifact "../../contention-2026-08-27-review.json" "application/json" review_bytes
    "Reviewed runtime capture and sanitized server-side failure attribution." in
  let result_context := {|
    rc_transcript := transcript; rc_review := review; rc_profile := profile; rc_profile_artifact := profile_artifact;
    rc_scenario := scenario; rc_scenario_artifact := scenario_artifact; rc_transcript_artifact := transcript_artifact;
    rc_review_artifact := review_artifact |} in
  let? (files, results) := try_fold (add_contention_result (index_by comp_id (prof_components profile))
    (index_by fr_catalog (rv_failures review)) result_context) (∅, []) aggregates in
  let manifest := contention_manifest review transcript profile_artifact scenario_artifact transcript_artifact
    review_artifact results in
  check? map_err (fun errors => [display_issues errors]) (validate manifest) in
  let? bytes := pretty_json manifest in
  Ok {| gf_directory := join_path repository_root Contention.OUTPUT_DIRECTORY; gf_files := <["manifest.json" := bytes]> files |}.

Definition generate_contention (repository_root : string) (w : W) : result GeneratedFiles Chain :=
  let? transcript_bytes := read_hashed (join_path repository_root Contention.TRANSCRIPT_PATH) Contention.TRANSCRIPT_SHA256 w in
  let? review_bytes := read_hashed (join_path repository_root Contention.REVIEW_PATH) Contention.REVIEW_SHA256 w in
  let? profile_bytes := read_plain (join_path repository_root Contention.PROFILE_PATH) w in
  let? scenario_bytes := read_plain (join_path repository_root Contention.SCENARIO_PATH) w in
  let? transcript := context "invalid production contention transcript" (decode_contention_transcript transcript_bytes) in
  let? review := context "invalid contention result review" (decode_contention_review review_bytes) in
  let? profile := parse_profile profile_bytes in
  let? scenario := parse_scenario scenario_bytes in
  let? plan := context "profile and scenario do not form a valid contention plan" (from_contracts profile scenario) in
  generate_from repository_root transcript_bytes review_bytes profile_bytes scenario_bytes transcript review profile scenario plan.

Definition CONTENTION_STALE : string := " is stale; rerun `catalog-bench-contract contention-import write`".

(** A matrix file that is not UTF-8 text differs from the matrix as well. *)
Definition check_contention_matrix (directory : string) (w : W) : result unit Chain :=
  let? bundle := load_bundle (join_path directory "manifest.json") w in
  let? expected_matrix := render_commit_matrix bundle in
  let matrix_path := join_path directory "MATRIX.md" in
  let? actual_matrix := context ("failed to read " +:+ matrix_path) (fs_read matrix_path w) in
  guard negb (actual_matrix =? expected_matrix) or [matrix_path +:+ CONTENTION_STALE] in
  Ok tt.

Definition check_contention_bundle (repository_root : string) (w : W) : result string Chain :=
  let? generated := generate_contention repository_root w in
  check? check_files generated CONTENTION_STALE w in
  check? check_contention_matrix (gf_directory generated) w in
  Ok (join_path (gf_directory generated) "manifest.json").

Definition write_contention_matrix (directory : string) (w : W) : result unit Chain * W :=
  match (let? bundle := load_bundle (join_path directory "manifest.json") w in render_commit_matrix bundle) with
  | Err e => (Err e, w)
  | Ok matrix => noted "failed to write generated contention matrix" (fs_write (join_path directory "MATRIX.md") matrix w)
  end.

Definition write_contention_result_bundle (repository_root : string) (w : W) : result string Chain * W :=
  match generate_contention repository_root w with
  | Err e => (Err e, w)
  | Ok generated =>
      step? _ with w := write_files generated w in
      step? _ with w := write_contention_matrix (gf_directory generated) w in
      (Ok (join_path (gf_directory generated) "manifest.json"), w)
  end.
End Generation.

(** ** What a result says *)

Definition is_ranked (disposition : RankingDisposition) : bool := match disposition with Ranked _ _ => true | NotRanked _ => false end.

Lemma list_eqb_Forall2 {A} (eqb : A -> A -> bool) l k : list_eqb eqb l k = true <-> Forall2 (fun a b => eqb a b = true) l k.
Proof.
  revert k. induction l as [|a l IH]; intros [|b k]; cbn [list_eqb]; [done| |by split; [|inversion 1]|].
  - split; [done|inversion 1].
  - rewrite andb_true_iff, IH, Forall2_cons. done.
Qed.

Lemma entry_eqb_ranked a b :
  entry_eqb a b = true -> re_catalog a = re_catalog b /\ is_ranked (re_disposition a) = is_ranked (re_disposition b).
Proof.
  unfold entry_eqb, disposition_eqb. intros [Hc%bool_decide_eq_true Hd]%andb_true_iff. split; [done|].
  by destruct (re_disposition a), (re_disposition b).
Qed.

(** An outcome is a pass exactly when no required assertion failed; the ranking then
    ranks the catalog, and a review of its failure is used exactly otherwise. *)
Lemma contention_outcome_Ok id failed review disposition outcome :
  contention_outcome id failed review disposition = Ok outcome ->
  (passed outcome = true <-> failed = []) /\ passed outcome = is_ranked disposition /\
  (passed outcome = true <-> review = None).
Proof.
  unfold contention_outcome. destruct failed as [|f failed], review as [r|], disposition as [rank score|reasons]; cbn; intros Ho;
    simplify_eq; naive_solver.
Qed.

(** The first entry of a catalog in a recomputed ranking. *)
Lemma ranked_iff_complete {N} plan (ts : list (CatalogRoundTranscript N)) aggregates ranking verdict entry :
  aggregate_contention plan ts = Ok (aggregates, ranking, verdict) -> entry ∈ ranking_entries ranking ->
  is_ranked (re_disposition entry) = true <->
  rounds_complete (round_policy (parameters plan)) (of_catalog (run_catalog (re_catalog entry)) ts).
Proof.
  intros (_ & (first & _ & Haggs) & Hr & _)%aggregate_contention_Ok.
  assert (Hcomplete : forall a, a ∈ aggregates -> agg_passed a = true <->
    rounds_complete (round_policy (parameters plan)) (of_catalog (run_catalog (agg_catalog a)) ts)).
  { intros a [i Ha]%list_elem_of_lookup. destruct (Forall2_lookup_r _ _ _ _ _ Haggs Ha) as (c & _ & Hagg).
    apply aggregate_catalog_Ok in Hagg as (-> & Hpass & _). exact Hpass. }
  destruct (ranking_shape aggregates ranking Hr) as (order & Hperm & _ & _ & ->); [by eapply aggregates_consistent|].
  rewrite elem_of_app, elem_of_lookup_imap, list_elem_of_fmap. intros [(i & c & -> & Hc)|(a & -> & Ha)]; cbn [re_catalog re_disposition is_ranked entry_of_rank unranked].
  - assert (Hin : c.1.1 ∈ List.filter agg_passed aggregates).
    { rewrite <-Hperm. apply list_elem_of_fmap. exists c.1. split; [done|]. apply list_elem_of_fmap. exists c. split; [done|]. by eapply list_elem_of_lookup_2. }
    apply bfilter_In in Hin as [Hin Hp]. by rewrite <-Hcomplete.
  - apply bfilter_In in Ha as [Hin Hp%negb_true_iff]. rewrite <-Hcomplete by done. by rewrite Hp.
Qed.

Lemma find_eqb_ranked id (l k : list RankingEntry) entry :
  list_eqb entry_eqb l k = true -> find (fun e => run_catalog (re_catalog e) =? id) l = Some entry ->
  exists entry', entry' ∈ k /\ run_catalog (re_catalog entry') = id /\ is_ranked (re_disposition entry') = is_ranked (re_disposition entry).
Proof.
  intros Hl%list_eqb_Forall2 [Hin Hid]%find_some. apply list_elem_of_In, list_elem_of_lookup in Hin as [i Hi].
  destruct (Forall2_lookup_l _ _ _ _ _ Hl Hi) as (entry' & Hk & [Hc Hd]%entry_eqb_ranked). exists entry'.
  rewrite <-Hc, <-Hd. split_and!; [by eapply list_elem_of_lookup_2|by apply String.eqb_eq in Hid|done].
Qed.

Section ResultFacts.
Context `{UrlParser, FloatDisplay}.

(** A published result: valid, failed exactly when a required assertion failed, and
    passed exactly when the catalog is ranked. *)
Lemma contention_result_Ok component aggregate review context record :
  contention_result component aggregate review context = Ok record ->
  validate record = Ok tt /\
  (passed (rec_outcome record) = true <-> Forall (fun e => required_failure e = false) (rec_assertions record)) /\
  (passed (rec_outcome record) = true <-> review = None) /\
  exists entry, find (fun e => run_catalog (re_catalog e) =? comp_id component) (ranking_entries (ct_ranking (rc_transcript context)))
      = Some entry /\ passed (rec_outcome record) = is_ranked (re_disposition entry).
Proof.
  unfold contention_result. cbv zeta. intros (assertions & _ & Hr)%bind_Ok.
  apply bind_Ok in Hr as (measurements & _ & Hr). apply bind_Ok in Hr as (entry & Hentry%ok_or_Ok & Hr).
  apply bind_Ok in Hr as (outcome & (Hfailed & Hranked & Hreview)%contention_outcome_Ok & Hr).
  apply bind_Ok in Hr as (total & _ & Hr). apply check_Ok in Hr as [Hvalid%map_err_Ok_iff [= <-]].
  split; [exact Hvalid|]. cbn [rec_outcome rec_assertions]. split_and!; [|exact Hreview|by exists entry].
  rewrite Hfailed. unfold failed_assertions. split.
  - intros Hnil%fmap_nil_inv. apply Forall_forall. intros e He. destruct (required_failure e) eqn:Hf; [|done].
    assert (Hin : e ∈ List.filter required_failure assertions) by by apply bfilter_In. rewrite Hnil in Hin. by apply not_elem_of_nil in Hin.
  - intros Hall. rewrite bfilter_none; [done|]. by apply Forall_forall.
Qed.
End ResultFacts.

(** ** What a checked bundle publishes *)

Section Published.
Context `{UrlParser, Ledger.Sha256, !Serialize Transcript, ContractDecoders, ParametersDecoder, CanonicalScenario, FloatDisplay}.
Context `{!ContentionTranscriptDecoder, !ContentionReviewDecoder, !ToVecPretty ResultRecord, !ToVecPretty ResultBundleManifest}.
Context `{DebugMetric} {W : Type} `{FileTree W}.

(** A result that passes exactly when the catalog completed its schedule. *)
Definition states_rounds (plan : ContentionPlan) (transcript : Transcript) (catalog : ComponentId) (record : ResultRecord) : Prop :=
  validate record = Ok tt /\
  (passed (rec_outcome record) = true <->
     rounds_complete (round_policy (parameters plan)) (of_catalog catalog (ct_rounds transcript))) /\
  (passed (rec_outcome record) = true <-> Forall (fun e => required_failure e = false) (rec_assertions record)).

(** The encoding of such a result in a set of files. *)
Definition file_states_rounds (plan : ContentionPlan) (transcript : Transcript) (files : gmap string string)
    (catalog : ComponentId) : Prop :=
  exists record bytes, states_rounds plan transcript catalog record /\ pretty_json record = Ok bytes /\
    files !! (catalog +:+ ".json") = Some bytes.

Lemma file_states_insert plan transcript files catalog name bytes :
  name <> catalog +:+ ".json" -> file_states_rounds plan transcript files catalog ->
  file_states_rounds plan transcript (<[name := bytes]> files) catalog.
Proof. intros Hne (record & b & Hrest). exists record, b. by rewrite lookup_insert_ne. Qed.

Section Recomputed.
Context (plan : ContentionPlan) (transcript : Transcript) (aggregates : list CatalogAggregate) (ranking : ContentionRanking)
  (verdict : SweepClassification.t).
Hypothesis Haggregated : aggregate_contention plan (ct_rounds transcript) = Ok (aggregates, ranking, verdict).
Hypothesis Hranking : ranking_eqb (ct_ranking transcript) ranking = true.

Lemma result_states_rounds component aggregate review context record :
  rc_transcript context = transcript -> contention_result component aggregate review context = Ok record ->
  states_rounds plan transcript (comp_id component) record.
Proof.
  intros Hc (Hvalid & Hassertions & _ & entry & Hentry & Hpassed)%contention_result_Ok. rewrite Hc in Hentry.
  split; [exact Hvalid|]. split; [|exact Hassertions]. unfold ranking_eqb in Hranking. apply andb_true_iff in Hranking as [_ Hentries].
  destruct (find_eqb_ranked _ _ _ _ Hentries Hentry) as (entry' & Hin & <- & Hr).
  rewrite Hpassed, <-Hr. by eapply ranked_iff_complete.
Qed.

Lemma add_contention_result_Ok components reviews context files artifacts aggregate files' artifacts' :
  rc_transcript context = transcript -> (forall id c, components !! id = Some c -> comp_id c = id) ->
  add_contention_result components reviews context (files, artifacts) aggregate = Ok (files', artifacts') ->
  exists bytes, files' = <[run_catalog (agg_catalog aggregate) +:+ ".json" := bytes]> files /\
    file_states_rounds plan transcript files' (run_catalog (agg_catalog aggregate)).
Proof.
  intros Hc Hids. unfold add_contention_result. cbv zeta. intros (component & Hcomp%ok_or_Ok%Hids & Ha)%bind_Ok.
  apply bind_Ok in Ha as (record & Hrecord & Ha). apply bind_Ok in Ha as (bytes & Hbytes & [= <- <-]).
  exists bytes. split; [done|]. exists record, bytes. split_and!; [|done|by rewrite lookup_insert_eq].
  rewrite <-Hcomp. by eapply result_states_rounds.
Qed.

Lemma add_contention_results_Ok components reviews context l state files' artifacts' :
  rc_transcript context = transcript -> (forall id c, components !! id = Some c -> comp_id c = id) ->
  try_fold (add_contention_result components reviews context) state l = Ok (files', artifacts') ->
  forall id, (id ∈ (fun a => run_catalog (agg_catalog a)) <$> l \/ file_states_rounds plan transcript state.1 id) ->
  file_states_rounds plan transcript files' id.
Proof.
  intros Hc Hids. revert state. induction l as [|a l IH]; intros [files artifacts] Hfold id Hin; cbn [try_fold] in Hfold.
  - injection Hfold as <- <-. destruct Hin as [?%elem_of_nil|]; done.
  - apply bind_Ok in Hfold as ([fs ars] & Hstep & Hfold). apply add_contention_result_Ok in Hstep as (bytes & -> & Hstated); [|done..].
    apply (IH _ Hfold). rewrite fmap_cons, elem_of_cons in Hin. cbn [fst] in Hin |- *.
    destruct (decide (run_catalog (agg_catalog a) = id)) as [<-|Hne]; [by right|]. destruct Hin as [[->|Hin]|Hin]; [done|by left|].
    right. apply file_states_insert; [|done]. by intros ?%json_name_inj.
Qed.
End Recomputed.

Lemma generated_contention root w generated :
  generate_contention root w = Ok generated ->
  exists transcript profile scenario plan aggregates ranking,
    (exists bytes, fs_read (join_path root Contention.TRANSCRIPT_PATH) w = Ok bytes /\
       hash_text bytes = Contention.TRANSCRIPT_SHA256 /\ decode_contention_transcript bytes = Ok transcript) /\
    from_contracts profile scenario = Ok plan /\
    aggregate_contention plan (ct_rounds transcript) = Ok (aggregates, ranking, ct_classification transcript) /\
    gf_directory generated = join_path root Contention.OUTPUT_DIRECTORY /\
    forall aggregate, aggregate ∈ aggregates -> run_catalog (agg_catalog aggregate) <> "manifest" ->
      file_states_rounds plan transcript (gf_files generated) (run_catalog (agg_catalog aggregate)).
Proof.
  unfold generate_contention. intros (tb & Htb%read_hashed_Ok & Hg)%bind_Ok. apply bind_Ok in Hg as (rb & _ & Hg).
  apply bind_Ok in Hg as (pb & _ & Hg). apply bind_Ok in Hg as (sb & _ & Hg).
  apply bind_Ok in Hg as (transcript & Hdecode%map_err_Ok_iff & Hg). apply bind_Ok in Hg as (review & _ & Hg).
  apply bind_Ok in Hg as (profile & _ & Hg). apply bind_Ok in Hg as (scenario & _ & Hg).
  apply bind_Ok in Hg as (plan & Hplan%map_err_Ok_iff & Hg). exists transcript, profile, scenario, plan.
  unfold generate_from in Hg. cbv zeta in Hg. apply check_Ok in Hg as [_ Hg].
  apply bind_Ok in Hg as ([[aggregates ranking] verdict] & Haggregated%map_err_Ok_iff & Hg).
  apply guard_Ok in Hg as [Hequal Hg]. rewrite !orb_false_iff, !negb_false_iff in Hequal. destruct Hequal as [[_ Hranking] Hverdict].
  apply bool_decide_eq_true in Hverdict. apply check_Ok in Hg as [_ Hg].
  apply bind_Ok in Hg as ([files results] & Hfold & Hg). apply check_Ok in Hg as [_ Hg].
  apply bind_Ok in Hg as (bytes & _ & [= <-]). exists aggregates, ranking. rewrite Hverdict.
  split; [exists tb; naive_solver|]. split_and!; [done|done|done|]. intros aggregate Hin Hne. cbn [gf_files].
  apply file_states_insert; [by intros ?%(append_cancel_r "manifest" _ ".json")|].
  eapply add_contention_results_Ok; [exact Haggregated|exact Hranking| | |exact Hfold|].
  - done.
  - by intros id c [_ Hid]%index_by_Some.
  - left. by apply (list_elem_of_fmap_2 (fun a => run_catalog (agg_catalog a))).
Qed.

(** C29: A contention bundle that checks was recomputed from the pinned transcript:
    the plan comes from the profile and the scenario, the sweep's verdict is the
    recomputed one, and for each catalog the file on disk is the encoding of a valid
    result that passes exactly when the catalog ran every conditioning and measured
    round of the policy and all of them passed, which is when none of its required
    assertions failed. *)
Theorem checked_contention_bundle_states_rounds root w manifest :
  check_contention_bundle root w = Ok manifest ->
  exists transcript profile scenario plan aggregates ranking,
    (exists bytes, fs_read (join_path root Contention.TRANSCRIPT_PATH) w = Ok bytes /\
       hash_text bytes = Contention.TRANSCRIPT_SHA256 /\ decode_contention_transcript bytes = Ok transcript) /\
    from_contracts profile scenario = Ok plan /\
    aggregate_contention plan (ct_rounds transcript) = Ok (aggregates, ranking, ct_classification transcript) /\
    forall aggregate, aggregate ∈ aggregates -> run_catalog (agg_catalog aggregate) <> "manifest" ->
    exists record bytes, states_rounds plan transcript (run_catalog (agg_catalog aggregate)) record /\
      pretty_json record = Ok bytes /\
      fs_read (join_path (join_path root Contention.OUTPUT_DIRECTORY) (run_catalog (agg_catalog aggregate) +:+ ".json")) w = Ok bytes.
Proof.
  unfold check_contention_bundle. intros (generated & Hg%generated_contention & Hc)%bind_Ok. apply check_Ok in Hc as [Hfiles _].
  destruct Hg as (transcript & profile & scenario & plan & aggregates & ranking & Htranscript & Hplan & Haggregated & Hdir & Hall).
  exists transcript, profile, scenario, plan, aggregates, ranking. do 3 (split; [done|]). intros aggregate Hin Hne.
  destruct (Hall aggregate Hin Hne) as (record & bytes & Hstates & Hbytes & Hfile). exists record, bytes. split_and!; [done|done|].
  rewrite <-Hdir. by apply (proj1 (check_files_Ok _ _ _) Hfiles).
Qed.
End Published.

(** ** What a review attributes *)

Definition total (l : list Z) : Z := foldr Z.add 0%Z l.

Lemma add_count_Ok a b overflow c : add_count a b overflow = Ok c <-> c = (a + b)%Z /\ (a + b <= u64_max)%Z.
Proof. unfold add_count. rewrite ok_or_Ok. apply checked_add_Some. Qed.

(** The concurrent phases of rounds. *)
Definition phases_of (rounds : list Round) (phases : list PhaseEvidence) : Prop :=
  Forall2 (fun round phase => concurrent_phase round = Ok phase) rounds phases.

Lemma sum_phase_count_from rounds select n total_count :
  try_fold (fun total round =>
    let? phase := concurrent_phase round in
    add_count total (select phase) "request count overflowed") n rounds = Ok total_count ->
  exists phases, phases_of rounds phases /\ total_count = (n + total (select <$> phases))%Z.
Proof.
  revert n. induction rounds as [|r rounds IH]; intros n; cbn [try_fold].
  - intros [= <-]. exists []. split; [constructor|]. cbn. lia.
  - intros (n' & Hstep & (phases & Hphases & ->)%IH)%bind_Ok. apply bind_Ok in Hstep as (phase & Hphase & [-> _]%add_count_Ok).
    exists (phase :: phases). split; [by constructor|]. rewrite fmap_cons. cbn [total foldr]. unfold total. lia.
Qed.

(** The errors of phases with a status. *)
Definition status_errors (status : Z) (errors : list ErrorCount) : list ErrorCount :=
  List.filter (fun e => bool_decide (error_http_status (ec_error e) = Some status)) errors.

Definition is_http_error (e : ErrorCount) : Prop := error_kind (ec_error e) = UnexpectedHttp /\ is_Some (error_http_status (ec_error e)).

Lemma count_statuses counts0 errors counts' :
  try_fold count_status counts0 errors = Ok counts' ->
  Forall is_http_error errors /\
  forall status, default 0%Z (counts' !! status) = (default 0 (counts0 !! status) + total (ec_count <$> status_errors status errors))%Z.
Proof.
  revert counts0. induction errors as [|e errors IH]; intros counts0; cbn [try_fold].
  - intros [= <-]. split; [constructor|]. intros status. cbn. lia.
  - intros (counts1 & Hstep & Hrest)%bind_Ok. apply IH in Hrest as [Hall Hrest]. unfold count_status in Hstep.
    apply guard_Ok in Hstep as [Hkind%negb_false_iff%bool_decide_eq_true Hstep].
    apply bind_Ok in Hstep as (status & Hstatus%ok_or_Ok & Hstep). apply bind_Ok in Hstep as (count & [-> _]%add_count_Ok & [= <-]).
    split; [constructor; [by split; [|exists status]|done]|]. intros status'. rewrite Hrest. unfold status_errors. cbn [List.filter].
    rewrite Hstatus. destruct (decide (status = status')) as [<-|Hne].
    + rewrite lookup_insert_eq, bool_decide_eq_true_2 by done. rewrite fmap_cons. cbn [default total foldr]. unfold total, id. lia.
    + by rewrite lookup_insert_ne, bool_decide_eq_false_2 by congruence.
Qed.

Lemma total_from l n : foldr Z.add n l = (total l + n)%Z.
Proof. unfold total. induction l as [|a l IH]; cbn; lia. Qed.

Lemma http_statuses rounds counts' :
  http_status_counts rounds = Ok counts' ->
  exists phases, phases_of rounds phases /\ Forall is_http_error (phases ≫= error_counts) /\
    forall status, default 0%Z (counts' !! status) = total (ec_count <$> status_errors status (phases ≫= error_counts)).
Proof.
  unfold http_status_counts. intros Hfold.
  assert (Hgen : forall counts0, try_fold (fun counts round =>
      let? phase := concurrent_phase round in try_fold count_status counts (error_counts phase)) counts0 rounds = Ok counts' ->
    exists phases, phases_of rounds phases /\ Forall is_http_error (phases ≫= error_counts) /\
      forall status, default 0%Z (counts' !! status)
        = (default 0 (counts0 !! status) + total (ec_count <$> status_errors status (phases ≫= error_counts)))%Z).
  { clear Hfold. induction rounds as [|r rounds IH]; intros counts0; cbn [try_fold].
    - intros [= <-]. exists []. split; [constructor|]. split; [constructor|]. intros status. cbn. lia.
    - intros (counts1 & Hstep & (phases & Hphases & Hhttp & Hcounts)%IH)%bind_Ok.
      apply bind_Ok in Hstep as (phase & Hphase & [Hhead Hstep]%count_statuses). exists (phase :: phases).
      split; [by constructor|]. rewrite bind_cons. split; [by apply Forall_app|]. intros status. rewrite Hcounts, Hstep.
      unfold status_errors. rewrite List.filter_app, fmap_app. unfold total. rewrite foldr_app.
      rewrite (total_from (ec_count <$> _) (foldr _ _ _)). unfold total. lia. }
  destruct (Hgen ∅ Hfold) as (phases & Hphases & Hhttp & Hcounts). exists phases. split_and!; [done|done|].
  intros status. by rewrite Hcounts, lookup_empty.
Qed.

Lemma NoDup_by_size `{Countable K} (l : list K) : length l = size (list_to_set l : gset K) -> NoDup l.
Proof.
  assert (Hle : forall k : list K, (size (list_to_set k : gset K) <= length k)%nat).
  { induction k as [|a k IH]; cbn [list_to_set length]; [by rewrite size_empty|]. rewrite size_union_alt, size_singleton.
    pose proof (subseteq_size (list_to_set k ∖ {[a]} : gset K) (list_to_set k) ltac:(set_solver)). lia. }
  induction l as [|a l IH]; [constructor|]. cbn [list_to_set length]. intros Hsize. pose proof (Hle l). apply NoDup_cons.
  destruct (decide (a ∈ l)) as [Hin|Hin].
  - rewrite (subseteq_union_1_L {[a]}) in Hsize by set_solver. lia.
  - split; [done|]. apply IH. rewrite size_union, size_singleton in Hsize by set_solver. lia.
Qed.

(** A review that attributes the failure of a catalog to what its rounds recorded. *)
Definition attributed (profile : Profile) (transcript : Transcript) (review : FailureReview) : Prop :=
  let rounds := of_catalog (fr_catalog review) (ct_rounds transcript) in
  (exists phases, phases_of (of_kind Conditioning rounds) phases /\
     fr_conditioning_errors review = total ((fun phase => errors (counts phase)) <$> phases)) /\
  (exists phases, phases_of (of_kind Measured rounds) phases /\
     fr_measured_errors review = total ((fun phase => errors (counts phase)) <$> phases)) /\
  (exists phases, phases_of rounds phases /\ Forall is_http_error (phases ≫= error_counts) /\
     forall status, default 0%Z (fr_http_status_counts review !! status)
       = total (ec_count <$> status_errors status (phases ≫= error_counts))) /\
  fr_log_observations review <> [] /\
  Forall (fun observation => lo_component observation ∈ comp_id <$> prof_components profile /\ lo_context observation <> [])
    (fr_log_observations review).

Section Review.
Context `{Ledger.Sha256, !Serialize Transcript}.

Lemma verify_failure_review_Ok profile transcript review :
  verify_failure_review transcript (list_to_set (comp_id <$> prof_components profile)) review = Ok tt ->
  attributed profile transcript review.
Proof.
  unfold verify_failure_review, attributed. cbv zeta. intros (_ & Hv)%check_Ok. apply check_Ok in Hv as [_ Hv].
  apply guard_Ok in Hv as [Hsome Hv]. apply check_Ok in Hv as [Hlogs%check_all_Ok Hv].
  apply bind_Ok in Hv as (ce & (cp & Hcp & Hce)%sum_phase_count_from & Hv).
  apply bind_Ok in Hv as (me & (mp & Hmp & Hme)%sum_phase_count_from & Hv).
  apply guard_Ok in Hv as [Htotals Hv]. rewrite orb_false_iff, !negb_false_iff, !Z.eqb_eq in Htotals. destruct Htotals as [-> ->].
  apply bind_Ok in Hv as (status_counts & (ap & Hap & Hhttp & Hcounts)%http_statuses & Hv).
  apply guard_Ok in Hv as [->%negb_false_iff%bool_decide_eq_true _].
  split_and!; [by exists cp|by exists mp|by exists ap| |].
  - intros Hnil. by rewrite Hnil in Hsome.
  - eapply Forall_impl; [exact Hlogs|]. intros o Ho. unfold verify_log_observation in Ho.
    apply guard_Ok in Ho as [Hin%negb_false_iff%bool_decide_eq_true Ho]. apply bind_Ok in Ho as (_ & _ & Ho).
    apply check_Ok in Ho as [_ Ho]. apply guard_Ok in Ho as [[Hnil _]%orb_false_iff _]. split; [by apply elem_of_list_to_set in Hin|].
    intros Hc. by rewrite Hc in Hnil.
Qed.

(** A verified review names every failed catalog exactly once and no other,
    and attributes each failure to the transcript: its error totals are those of the
    recorded concurrent phases, every recorded error is an HTTP error with a status, the
    counts per status are exact, and it cites log lines of components of the profile.
    The run ended after it started and before the bundle was created. *)
Theorem reviewed_failures_are_attributed review transcript bytes profile aggregates :
  verify_review review transcript bytes profile aggregates = Ok tt ->
  NoDup (fr_catalog <$> rv_failures review) /\
  (forall catalog, catalog ∈ fr_catalog <$> rv_failures review <-> catalog ∈ failed_catalogs aggregates) /\
  Forall (attributed profile transcript) (rv_failures review) /\
  exists started completed created, parse_utc_timestamp (run_started_at (rv_run review)) "run started_at" = Ok started /\
    parse_utc_timestamp (run_completed_at (rv_run review)) "run completed_at" = Ok completed /\
    parse_utc_timestamp (rb_created_at (rv_bundle review)) "bundle created_at" = Ok created /\
    timestamp_cmp started completed = Lt /\ timestamp_cmp completed created = Lt.
Proof.
  unfold verify_review. cbv zeta. intros [_ Hv]%guard_Ok. apply check_Ok in Hv as [_ Hv].
  apply bind_Ok in Hv as (created & Hcreated & Hv). apply bind_Ok in Hv as (started & Hstarted & Hv).
  apply bind_Ok in Hv as (completed & Hcompleted & Hv). apply guard_Ok in Hv as [[Hsc Hcc]%orb_false_iff Hv].
  do 3 (apply check_Ok in Hv as [_ Hv]). do 3 (apply guard_Ok in Hv as [_ Hv]). apply check_Ok in Hv as [_ Hv].
  apply guard_Ok in Hv as [[Hsize Hcover]%orb_false_iff Hv]. apply negb_false_iff, Z.eqb_eq in Hsize.
  apply negb_false_iff, bool_decide_eq_true in Hcover. apply check_all_Ok in Hv. split_and!.
  - apply NoDup_by_size. rewrite length_fmap. unfold len in Hsize. lia.
  - intros catalog. rewrite <-!(elem_of_list_to_set (C := gset ComponentId)). by rewrite Hcover.
  - eapply Forall_impl; [exact Hv|]. intros r. apply verify_failure_review_Ok.
  - exists started, completed, created. unfold at_least in *. split_and!; [done|done|done| |].
    + by destruct (timestamp_cmp started completed).
    + by destruct (timestamp_cmp completed created).
Qed.
End Review.

(** ** The published counters are exact *)

Lemma f64_sub_self s m e : f64_eq (f64_sub (S754_finite s m e) (S754_finite s m e)) f64_zero = true.
Proof.
  unfold f64_sub, SFsub. rewrite Z.min_id, Z.sub_diag. by destruct s.
Qed.

Lemma trunc_of_Z n : (0 <= n < 2 ^ 53)%Z -> f64_trunc (f64_of_Z n) = f64_of_Z n.
Proof.
  intros Hn. destruct (decide (n = 0%Z)) as [->|Hne]; [done|].
  destruct (f64_of_Z_exact n) as (N & j & Hf & HN & _ & Hj); [lia|]. rewrite Hf at 1. unfold f64_trunc.
  destruct (0 <=? - j)%Z eqn:Hj0; [by rewrite Hf|]. rewrite Z.opp_involutive, HN, Z.div_mul by lia.
  destruct (n =? 0)%Z eqn:H0; [apply Z.eqb_eq in H0; lia|done].
Qed.

(** A count below 2^53 survives its passage through a float. *)
Lemma count_is_integral n :
  (0 <= n < 2 ^ 53)%Z ->
  f64_eq (f64_fract (f64_of_Z n)) f64_zero = true /\ f64_lt (f64_of_Z n) f64_zero = false /\
  f64_gt (f64_of_Z n) (f64_of_Z u64_max) = false /\ f64_to_usize (f64_of_Z n) = n.
Proof.
  intros Hn. unfold f64_fract. rewrite trunc_of_Z by done. destruct (decide (n = 0%Z)) as [->|Hne]; [done|].
  destruct (f64_of_Z_exact n) as (N & j & -> & HN & HN53 & Hj); [lia|].
  split; [apply f64_sub_self|]. split; [done|].
  assert (Hmax : f64_of_Z u64_max = S754_finite false 4503599627370496 12) by (vm_compute; reflexivity). split.
  - rewrite Hmax. unfold f64_gt, SFltb. cbn [SFcompare]. by rewrite (proj2 (Z.compare_gt_iff 12 (- j)) ltac:(lia)).
  - cbn [f64_to_usize]. change usize_max with 18446744073709551615%Z. destruct (- j >=? 0)%Z eqn:Hj0; rewrite ?Z.geb_leb in Hj0.
    + apply Z.leb_le in Hj0. assert (j = 0%Z) as -> by lia. cbn in HN |- *. lia.
    + rewrite Z.opp_involutive, HN, Z.div_mul by lia. lia.
Qed.

(** C30: Summing counts below 2^53 through their floats gives their exact sum, or
    the overflow error when it does not fit 64 bits. *)
Theorem published_counters_are_exact `{FloatDisplay} (counts : list Z) :
  Forall (fun n => (0 <= n < 2 ^ 53)%Z) counts ->
  sum_counts (f64_of_Z <$> counts)
  = if (total counts <=? u64_max)%Z then Ok (total counts) else Err ["count total overflowed"].
Proof.
  intros Hall. unfold sum_counts.
  match goal with |- try_fold ?step 0%Z _ = _ => assert (Hgen : forall n, (0 <= n <= u64_max)%Z ->
    try_fold step n (f64_of_Z <$> counts)
    = if (n + total counts <=? u64_max)%Z then Ok (n + total counts)%Z else Err ["count total overflowed"]) end.
  { induction Hall as [|k counts Hk Hall IH]; intros n Hn; cbn [fmap list_fmap try_fold].
    - unfold total. cbn [foldr]. rewrite Z.add_0_r. by rewrite (proj2 (Z.leb_le n u64_max)) by lia.
    - destruct (count_is_integral k Hk) as (-> & -> & -> & ->). cbn [negb orb]. unfold add_count, checked_add, total. cbn [foldr].
      assert (Hnonneg : (0 <= total counts)%Z).
      { clear -Hall. unfold total. induction Hall; cbn; lia. }
      fold (total counts). destruct (n + k <=? u64_max)%Z eqn:Hfit; cbn [ok_or].
      + rewrite IH by lia. by rewrite Z.add_assoc.
      + apply Z.leb_gt in Hfit. by rewrite (proj2 (Z.leb_gt _ _)) by lia. }
  rewrite Hgen by (unfold u64_max; lia). by rewrite Z.add_0_l.
Qed.
