(* ===== verification/EngineBundle.v ===== *)
(** * Publishing stock-engine results (crates/contract-tool/src/engine_bundle.rs)

    An admitted and reviewed evidence set becomes one immutable bundle: a result
    per transcript, a manifest, a matrix, and nothing else in the directory. *)

From S2P Require Import Prelude Order RustStr Json ContractValue ContractScenario ContractAdapter ContractProfile.
From S2P Require Import ContractResult ContractDocument Sanitization Ledger Policy Transport Capture Routing Store.
From S2P Require Import EngineParameters EnginePlan EngineEvents EngineRuntime EngineCatalog EngineWorkflow EngineProcess.
From S2P Require Import EngineDecode EngineTranscript EngineTranscriptProofs ToolFiles Publication Bundle EngineReview.
From S2P Require Import EngineReviewProofs CommunityPublication Matrix.
From Stdlib Require Import Ascii.
Open Scope string_scope.

Definition REVIEW_EVIDENCE_ID : string := "materialization-review".
Definition PROFILE_COPY : string := "source/profile.json".
Definition SCENARIO_COPY : string := "source/scenario.json".
Definition REVIEW_COPY : string := "source/review.json".
Definition TRANSCRIPT_DIRECTORY : string := "source/transcripts".
Definition MANIFEST_FILE : string := "manifest.json".
Definition MATRIX_FILE : string := "MATRIX.md".

Record GeneratedEngineBundle := { gen_directory : string; gen_files : PathMap string }.

(** ** Results *)

Definition classification_label (classification : EngineBehaviorClassification.t) : string :=
  match classification with
  | EngineBehaviorClassification.Pass => "pass"
  | EngineBehaviorClassification.Fail => "fail"
  | EngineBehaviorClassification.FixtureCollision => "fixture-collision"
  end.

Definition process_outcome_label (outcome : EngineProcessOutcome.t) : string :=
  match outcome with
  | EngineProcessOutcome.RuntimeRejected => "runtime-rejected"
  | EngineProcessOutcome.CredentialRejected _ => "credential-rejected"
  | EngineProcessOutcome.PreparationFailed _ => "preparation-failed"
  | EngineProcessOutcome.SpawnFailed => "spawn-failed"
  | EngineProcessOutcome.TimedOut => "timed-out"
  | EngineProcessOutcome.StdoutFailed => "stdout-failed"
  | EngineProcessOutcome.WaitFailed => "wait-failed"
  | EngineProcessOutcome.ProtocolRejected _ => "protocol-rejected"
  | EngineProcessOutcome.ExitProtocolMismatch => "exit-protocol-mismatch"
  | EngineProcessOutcome.Completed => "completed"
  | EngineProcessOutcome.FixtureCollision => "fixture-collision"
  | EngineProcessOutcome.EngineFailed _ _ => "engine-failed"
  end.

Definition executed_component (component : EngineTranscriptComponent) : ExecutedComponent := {|
  exec_profile_component := etc_id component; exec_name := etc_name component; exec_version := etc_version component |}.

(** The check of a scenario assertion. *)
Definition transcript_check (id : string) (transcript : EngineTranscript) : option bool :=
  let checks := ex_checks (et_execution transcript) in
  if id =? "engine-runtime-pinned" then Some (ck_engine_runtime_pinned checks)
  else if id =? "stock-rest-catalog-ready" then Some (ck_stock_rest_catalog_ready checks)
  else if id =? "fixture-isolated" then Some (ck_fixture_isolated checks)
  else if id =? "namespace-round-trip" then Some (ck_namespace_round_trip checks)
  else if id =? "table-round-trip" then Some (ck_table_round_trip checks)
  else if id =? "initial-append-committed" then Some (ck_initial_append_committed checks)
  else if id =? "initial-read-exact" then Some (ck_initial_read_exact checks)
  else if id =? "schema-evolved" then Some (ck_schema_evolved checks)
  else if id =? "evolved-append-committed" then Some (ck_evolved_append_committed checks)
  else if id =? "evolved-read-exact" then Some (ck_evolved_read_exact checks)
  else if id =? "catalog-state-correlated" then Some (ck_catalog_state_correlated checks)
  else if id =? "shared-object-evidence-complete" then Some (ck_shared_object_evidence_complete checks)
  else if id =? "fixture-clean" then Some (ck_fixture_clean checks)
  else if id =? "transcript-sanitized" then Some (sanitization_passed (et_sanitization transcript))
  else None.

(** [assertion_passed]. *)
Definition engine_assertion_passed (id : string) (transcript : EngineTranscript) : result bool Chain :=
  ok_or (transcript_check id transcript) ["engine result materializer does not implement assertion `" +:+ id +:+ "`"].

(** [evaluate_assertion]. *)
Definition evaluate_engine_assertion (assertion : AssertionSpec) (transcript : EngineTranscript) (collision : bool)
  : result AssertionEvaluation Chain :=
  let? outcome :=
    if collision then Ok (NotEvaluated "A pre-existing fixture collision prevented a safe scenario attempt.")
    else
      let? passed := engine_assertion_passed (spec_id assertion) transcript in
      Ok (if passed : bool then AssertionPass
          else AssertionFail ("The independently recomputed `" +:+ spec_id assertion +:+ "` transcript check did not pass.")) in
  Ok {| eval_assertion := spec_id assertion; eval_required := spec_required assertion; eval_outcome := outcome;
        eval_evidence := [TRANSCRIPT_EVIDENCE_ID] |}.

Definition failed_assertion (outcome : AssertionOutcome) : bool := match outcome with AssertionFail _ => true | _ => false end.

(** The required assertions that failed. *)
Definition failed_required_assertions (assertions : list AssertionEvaluation) : list AssertionId :=
  eval_assertion <$> List.filter (fun evaluation => eval_required evaluation && failed_assertion (eval_outcome evaluation)) assertions.

Definition result_outcome (transcript : EngineTranscript) (assertions : list AssertionEvaluation)
    (failed_required : list string) : result ResultOutcome Chain :=
  let required := count_if eval_required assertions in
  match ex_classification (et_execution transcript) with
  | EngineBehaviorClassification.Pass =>
      guard negb (match failed_required with [] => true | _ => false end)
            || existsb (fun evaluation => eval_required evaluation && negb (assertion_pass (eval_outcome evaluation))) assertions
        or ["passing engine transcript does not project to all passing assertions"] in
      Ok (ResultPass (Some ("All " +:+ display required +:+ " required stock-engine interoperability assertions passed.")))
  | EngineBehaviorClassification.Fail =>
      let '(category, detail) :=
        match failed_required with
        | [] =>
            (FailureCategory.Harness,
             "All scenario checks were observed, but the closed process outcome `"
             +:+ process_outcome_label (pe_outcome (ex_process (et_execution transcript)))
             +:+ "` did not establish a trusted successful terminal. No retryability claim is inferred.")
        | _ =>
            (FailureCategory.Assertion,
             "Required assertions failed: " +:+ String.concat ", " ((fun id => "`" +:+ id +:+ "`") <$> failed_required)
             +:+ ". The transcript retains only bounded failure categories; no deeper cause or retryability claim is inferred.")
        end in
      Ok (ResultFail {| fail_category := category;
        fail_summary := "The stock-engine workflow did not satisfy its publication contract."; fail_detail := detail;
        fail_retryable := false; fail_evidence := [TRANSCRIPT_EVIDENCE_ID; REVIEW_EVIDENCE_ID] |})
  | EngineBehaviorClassification.FixtureCollision =>
      Ok (NotTested {|
        nt_explanation := "A pre-existing run-owned fixture was observed before mutation, so the runner refused to execute or clean it up.";
        nt_blocking_dependency := Some "fresh collision-free fixture state" |})
  end.

(** [json!] of an [Option<i32>]. *)
Definition exit_code_json (exit_code : option Z) : Value :=
  match exit_code with
  | Some code => Num (if (code <? 0)%Z then NegInt code else PosInt code)
  | None => Null
  end.

Definition result_evidence (review : ValidatedEngineResultReview) (transcript : EngineTranscript)
    (transcript_artifact review_artifact : ArtifactReference) : list Evidence :=
  let redaction := er_redaction (vrev_review review) in [
    {| ev_id := TRANSCRIPT_EVIDENCE_ID; ev_kind := EvidenceKind.QueryOutput; ev_artifact := transcript_artifact;
       ev_sanitized := true; ev_redactions := red_removed_fields redaction;
       ev_extensions := list_to_map [("querygraph/transcript-format", Str (et_format transcript));
         ("querygraph/classification", Str (classification_label (ex_classification (et_execution transcript))))] |};
    {| ev_id := REVIEW_EVIDENCE_ID; ev_kind := EvidenceKind.Other; ev_artifact := review_artifact; ev_sanitized := true;
       ev_redactions := red_removed_fields redaction;
       ev_extensions := list_to_map [("querygraph/reviewed", Bool (red_reviewed redaction))] |}].

Definition result_extensions (transcript : EngineTranscript) (failed_required : list string) : Extensions := list_to_map [
  ("querygraph/execution", json_object [
     ("classification", Str (classification_label (ex_classification (et_execution transcript))));
     ("process_outcome", Str (process_outcome_label (pe_outcome (ex_process (et_execution transcript)))));
     ("exit_code", exit_code_json (pe_exit_code (ex_process (et_execution transcript))));
     ("failed_required_assertions", Array (Str <$> failed_required))]);
  ("querygraph/run-interval", json_object [("scope", Str "complete-four-catalog-launcher");
     ("catalogs_executed_sequentially", Bool true)]);
  ("querygraph/request-handling", json_object [("protocol", Str "iceberg-rest-v1"); ("behavior_changing_shim", Bool false);
     ("connector", Str (etc_id (ets_connector (et_components transcript))))])].

Section Bundles.
Context `{UrlParser, Ledger.Sha256}.

Definition build_result (reviewed : ValidatedEngineResultReview) (transcript : EngineTranscript)
    (profile_artifact scenario_artifact transcript_artifact review_artifact : ArtifactReference) : result ResultRecord Chain :=
  let contracts := ve_contracts (vrev_evidence reviewed) in
  let review := vrev_review reviewed in
  let scenario := ecs_scenario contracts in
  let collision := match ex_classification (et_execution transcript) with
                   | EngineBehaviorClassification.FixtureCollision => true | _ => false
                   end in
  let? assertions := collect_results (fun assertion => evaluate_engine_assertion assertion transcript collision)
                       (scen_assertions scenario) in
  let failed_required := failed_required_assertions assertions in
  let? outcome := result_outcome transcript assertions failed_required in
  let catalog := ets_catalog (et_components transcript) in
  let result := {|
    rec_contract_version := V1; rec_kind := ResultKind; rec_id := rb_id (er_bundle review) +:+ "-" +:+ etc_id catalog;
    rec_scenario := {| sref_id := scen_id scenario; sref_version := scen_version scenario;
                       sref_digest := artifact_digest scenario_artifact |};
    rec_profile := {| pref_id := prof_id (ecs_profile contracts); pref_digest := artifact_digest profile_artifact |};
    rec_catalog := executed_component catalog;
    rec_client := Some (executed_component (ets_engine (et_components transcript)));
    rec_adapters := [etc_id (ets_connector (et_components transcript))];
    rec_run := Single (etf_id (et_fixture transcript) +:+ "-" +:+ etc_id catalog) (err_started_at (er_run review))
                 (err_completed_at (er_run review)) 1 None;
    rec_outcome := outcome; rec_environment := er_environment review; rec_assertions := assertions;
    rec_measurements := []; rec_evidence := result_evidence reviewed transcript transcript_artifact review_artifact;
    rec_artifacts := []; rec_extensions := result_extensions transcript failed_required |} in
  check? map_err (fun errors => [display_issues errors]) (validate result) in
  Ok result.

(** ** Generation *)

Definition require_location_prefix (location prefix name : string) : result unit Chain :=
  guard negb (starts_with prefix location)
    or [name +:+ " `" +:+ location +:+ "` is not in the public `" +:+ prefix +:+ "` evidence boundary"] in
  Ok tt.

(** [transcript_source_location]. *)
Definition transcript_source_location (reviewed : ValidatedEngineResultReview) (catalog : ComponentId) : option string :=
  (fun transcript => rsrc_location (rvt_source transcript))
    <$> find (fun transcript => rvt_catalog transcript =? catalog) (er_transcripts (vrev_review reviewed)).

Definition transcript_location (transcript : ValidatedEngineTranscript) : string :=
  TRANSCRIPT_DIRECTORY +:+ "/" +:+ transcript_catalog transcript +:+ ".json".
Definition result_location (transcript : ValidatedEngineTranscript) : string := transcript_catalog transcript +:+ ".json".

Definition transcript_artifact (admitted : ValidatedEngineTranscript) : ArtifactReference :=
  artifact (transcript_location admitted) "application/json" (vt_bytes admitted)
    ("Canonical sanitized stock-engine transcript for " +:+ etc_name (ets_catalog (et_components (vt_transcript admitted)))
     +:+ ".").

(** One turn of the loop that copies the transcripts. *)
Definition copy_transcript (state : PathMap string * gmap string ArtifactReference) (admitted : ValidatedEngineTranscript)
  : result (PathMap string * gmap string ArtifactReference) Chain :=
  let '(files, artifacts) := state in
  let catalog := transcript_catalog admitted in
  guard bool_decide (is_Some (artifacts !! catalog)) or ["duplicate admitted transcript for `" +:+ catalog +:+ "`"] in
  Ok (path_insert (transcript_location admitted) (vt_bytes admitted) files,
      <[catalog := transcript_artifact admitted]> artifacts).

Context `{!ToVecPretty ResultRecord, !ToVecPretty ResultBundleManifest}.

(** One turn of the loop that builds the results. *)
Definition add_result (reviewed : ValidatedEngineResultReview) (profile_artifact scenario_artifact review_artifact : ArtifactReference)
    (transcripts : gmap string ArtifactReference) (state : PathMap string * list ArtifactReference)
    (admitted : ValidatedEngineTranscript) : result (PathMap string * list ArtifactReference) Chain :=
  let '(files, artifacts) := state in
  let? transcript_artifact := ok_or (transcripts !! transcript_catalog admitted)
    ["admitted transcript artifact map changed during generation"] in
  let? record := build_result reviewed (vt_transcript admitted) profile_artifact scenario_artifact transcript_artifact
                   review_artifact in
  let name := result_location admitted in
  let? bytes := pretty_json record in
  Ok (path_insert name bytes files,
      (artifacts ++ [artifact name "application/json" bytes
        ("Stock-engine interoperability result for " +:+ etc_name (ets_catalog (et_components (vt_transcript admitted)))
         +:+ ".")])%list).

Definition bundle_extensions (evidence : ValidatedEngineEvidenceSet) : Extensions :=
  let contracts := ve_contracts evidence in
  let counts := summary evidence in
  list_to_map [
    ("querygraph/fixture-id", Str (ve_fixture_id evidence));
    ("querygraph/interoperability", json_object [("ranking", Bool false); ("workflow", Str (scen_id (ecs_scenario contracts)));
       ("execution_order", Str "sequential"); ("shared_docker_network", Str (plat_network (prof_platform (ecs_profile contracts))))]);
    ("querygraph/classifications", json_object [("total", Num (PosInt (sum_total counts))); ("pass", Num (PosInt (sum_pass counts)));
       ("fail", Num (PosInt (sum_fail counts))); ("fixture_collision", Num (PosInt (sum_fixture_collision counts)))])].

Definition profile_copy (evidence : ValidatedEngineEvidenceSet) : ArtifactReference :=
  artifact PROFILE_COPY "application/json" (ve_profile_bytes evidence)
    "Exact runnable stock-engine profile admitted by the review.".
Definition scenario_copy (evidence : ValidatedEngineEvidenceSet) : ArtifactReference :=
  artifact SCENARIO_COPY "application/json" (ve_scenario_bytes evidence)
    "Exact common stock-engine interoperability scenario admitted by the review.".
Definition review_copy (reviewed : ValidatedEngineResultReview) : ArtifactReference :=
  artifact REVIEW_COPY "application/json" (vrev_bytes reviewed)
    "Reviewed live-run, environment, source-identity, and redaction metadata.".

Definition bundle_manifest (reviewed : ValidatedEngineResultReview) (first : ValidatedEngineTranscript)
    (transcripts : gmap string ArtifactReference) (results : list ArtifactReference) : ResultBundleManifest :=
  let evidence := vrev_evidence reviewed in
  let review := vrev_review reviewed in {|
    man_contract_version := V1; man_kind := ManifestKind; man_id := rb_id (er_bundle review);
    man_title := rb_title (er_bundle review); man_created_at := rb_created_at (er_bundle review);
    man_provenance := LiveRun (etc_id (ets_runner (et_components (vt_transcript first))))
      (err_sanitized_invocation (er_run review)) (err_started_at (er_run review)) (err_completed_at (er_run review));
    man_profile := profile_copy evidence; man_scenarios := [scenario_copy evidence]; man_results := results;
    man_source_evidence := review_copy reviewed :: (btree_entries String.compare transcripts).*2;
    man_redaction := er_redaction review; man_extensions := bundle_extensions evidence |}.

(** [generate] after the sources are admitted. *)
Definition generate_files (repository_root : string) (reviewed : ValidatedEngineResultReview)
  : result GeneratedEngineBundle Chain :=
  let evidence := vrev_evidence reviewed in
  let files := path_map [(PROFILE_COPY, ve_profile_bytes evidence); (SCENARIO_COPY, ve_scenario_bytes evidence);
                         (REVIEW_COPY, vrev_bytes reviewed)] in
  let? (files, transcripts) := try_fold copy_transcript (files, ∅) (ve_transcripts evidence) in
  let? (files, results) :=
    try_fold (add_result reviewed (profile_copy evidence) (scenario_copy evidence) (review_copy reviewed) transcripts)
      (files, []) (ve_transcripts evidence) in
  let? first := ok_or (head (ve_transcripts evidence)) ["reviewed engine evidence contains no transcripts"] in
  let manifest := bundle_manifest reviewed first transcripts results in
  check? map_err (fun errors => [display_issues errors]) (validate manifest) in
  let? bytes := pretty_json manifest in
  Ok {| gen_directory := join_path repository_root (rb_output_directory (er_bundle (vrev_review reviewed)));
        gen_files := path_insert MANIFEST_FILE bytes files |}.
(** ** The public sources *)

Context `{UrlOps, ContractDecoders, EngineParametersDecoder, CanonicalEngineScenario}.
Context `{ObjectPaths, UuidParser, ValuesWriter, !Serialize EngineTranscript, !ToVecPretty EngineTranscript}.
Context `{TranscriptDecoder, ReviewDecoder} {W : Type} `{FileTree W, FileCreation W}.

Definition require_repository_subtree (repository_root source subtree name : string) (w : W) : result unit Chain :=
  let? canonical_root := context ("failed to resolve repository root " +:+ repository_root) (fs_canonicalize repository_root w) in
  let? canonical_source := context ("failed to resolve " +:+ name +:+ " " +:+ source) (fs_canonicalize source w) in
  let? relative := context (name +:+ " resolves outside the repository root")
    (strip_prefix_parts canonical_root canonical_source) in
  guard negb (bool_decide (is_Some (strip_parts (path_parts subtree) relative)))
    or [name +:+ " " +:+ source +:+ " is not in the public `" +:+ subtree +:+ "/` evidence boundary"] in
  Ok tt.

Definition require_publication_sources (repository_root : string) (reviewed : ValidatedEngineResultReview) (w : W)
  : result unit Chain :=
  let review := vrev_review reviewed in
  check? require_repository_subtree repository_root (vrev_path reviewed) "results/source" "review sidecar" w in
  check? require_location_prefix (rsrc_location (er_profile review)) "profiles/v1/" "reviewed profile" in
  check? require_location_prefix (rsrc_location (er_scenario review)) "scenarios/v1/" "reviewed scenario" in
  check_all (fun admitted =>
    let? location := ok_or (transcript_source_location reviewed (transcript_catalog admitted))
      ["review omits an admitted transcript source"] in
    require_location_prefix location "results/source/" "reviewed transcript") (ve_transcripts (vrev_evidence reviewed)).

(** [None] is a panic of the review. *)
Definition generate (repository_root review_path : string) (w : W) : option (result GeneratedEngineBundle Chain) :=
  reviewed ← validate_engine_result_review repository_root review_path w;
  Some (let? reviewed := reviewed in
        check? require_publication_sources repository_root reviewed w in
        generate_files repository_root reviewed).

(** ** The entries of a directory *)

Inductive OutputEntryKind := DirectoryEntry | FileEntry.

#[export] Instance OutputEntryKind_eq_dec : EqDecision OutputEntryKind.
Proof. solve_decision. Defined.

(** The parents of a relative path that are not empty, from the nearest. *)
Definition parents (path : string) : list string :=
  let parts := path_parts path in
  (fun n => parts_path (take n parts)) <$> rev (seq 1 (length parts - 1)).

(** One turn of the loop over the files. *)
Definition expect_file (entries : PathMap OutputEntryKind) (file : string) : PathMap OutputEntryKind :=
  foldl (fun entries directory => path_insert directory DirectoryEntry entries) (path_insert file FileEntry entries)
    (parents file).

Definition expected_output_entries (files : list string) : PathMap OutputEntryKind := foldl expect_file [] files.

(** One turn of the loop over the entries of a directory; [recurse] lists a
    directory below. *)
Definition visit_output_entry (recurse : string -> PathMap OutputEntryKind -> option (result (PathMap OutputEntryKind) Chain))
    (root directory : string) (entries : PathMap OutputEntryKind) (entry : result DirEntry string)
  : option (result (PathMap OutputEntryKind) Chain) :=
  let visited :=
    let? entry := map_err (fun e => [e]) entry in
    let path := join_path directory (entry_name entry) in
    let? relative := context "generated output escaped its root" (strip_prefix_parts root path) in
    let? file_type := context ("failed to inspect " +:+ path) (entry_type entry) in
    let? kind := match file_type with
                 | Regular => Ok FileEntry
                 | Directory => Ok DirectoryEntry
                 | OtherFile => Err ["engine bundle entry is not a regular file or directory: " +:+ path]
                 end in
    guard bool_decide (is_Some (path_lookup (parts_path relative) entries))
      or ["engine bundle contains a duplicate output entry"] in
    Ok (path, kind, path_insert (parts_path relative) kind entries) in
  match visited with
  | Err e => Some (Err e)
  | Ok (path, DirectoryEntry, entries) => recurse path entries
  | Ok (_, FileEntry, entries) => Some (Ok entries)
  end.

Fixpoint visit_output_entries (visit : PathMap OutputEntryKind -> result DirEntry string -> option (result (PathMap OutputEntryKind) Chain))
    (entries : PathMap OutputEntryKind) (listed : list (result DirEntry string)) : option (result (PathMap OutputEntryKind) Chain) :=
  match listed with
  | [] => Some (Ok entries)
  | entry :: listed =>
      match visit entries entry with
      | Some (Ok entries) => visit_output_entries visit entries listed
      | outcome => outcome
      end
  end.

(** [None] when directories are nested deeper than the fuel. *)
Fixpoint collect_output_entries (fuel : nat) (root : string) (w : W) (directory : string) (entries : PathMap OutputEntryKind)
  : option (result (PathMap OutputEntryKind) Chain) :=
  match fuel with
  | O => None
  | S fuel =>
      match context ("failed to list " +:+ directory) (fs_read_dir directory w) with
      | Err e => Some (Err e)
      | Ok listed => visit_output_entries (visit_output_entry (collect_output_entries fuel root w) root directory) entries listed
      end
  end.

Definition output_entries (depth : nat) (root : string) (w : W) : option (result (PathMap OutputEntryKind) Chain) :=
  match context ("failed to inspect " +:+ root) (fs_symlink_type root w) with
  | Err e => Some (Err e)
  | Ok Directory => collect_output_entries (S depth) root w root []
  | Ok _ => Some (Err ["engine bundle output is not a real directory: " +:+ root])
  end.

(** ** Checking a bundle *)

Definition stale (path : string) : string :=
  path +:+ " is stale; rerun `catalog-bench-contract engine-import write` with a new output directory".

(** [BTreeMap::eq], whose keys are compared as paths. *)
Definition same_entries (actual expected : PathMap OutputEntryKind) : bool :=
  bool_decide ((fun entry => (path_parts entry.1, entry.2)) <$> actual = (fun entry => (path_parts entry.1, entry.2)) <$> expected).

Definition check_generated_file (directory : string) (w : W) (file : string * string) : result unit Chain :=
  let path := join_path directory file.1 in
  let? actual := context ("failed to read generated artifact " +:+ path) (fs_read path w) in
  guard negb (actual =? file.2) or [stale path] in
  Ok tt.

Definition check_matrix_file (directory : string) (w : W) : result unit Chain :=
  let? bundle := load_bundle (join_path directory MANIFEST_FILE) w in
  let? expected_matrix := render_engine_matrix bundle in
  let matrix_path := join_path directory MATRIX_FILE in
  let? actual_matrix := context ("failed to read " +:+ matrix_path) (fs_read matrix_path w) in
  guard negb (actual_matrix =? expected_matrix) or [stale matrix_path] in
  Ok tt.

(** The entries of a generated bundle with its matrix. *)
Definition expected_entries (generated : GeneratedEngineBundle) : PathMap OutputEntryKind :=
  path_insert MATRIX_FILE FileEntry (expected_output_entries (gen_files generated).*1).

(** [check_engine_result_bundle] after the bundle is generated. *)
Definition check_generated (depth : nat) (generated : GeneratedEngineBundle) (w : W) : option (result string Chain) :=
  let directory := gen_directory generated in
  match (check? check_all (check_generated_file directory w) (gen_files generated) in check_matrix_file directory w) with
  | Err e => Some (Err e)
  | Ok _ =>
      actual ← output_entries depth directory w;
      Some (let? actual := actual in
            guard negb (same_entries actual (expected_entries generated))
              or ["engine bundle " +:+ directory +:+ " contains a missing, unexpected, or nonregular entry"] in
            Ok (join_path directory MANIFEST_FILE))
  end.

Definition check_engine_result_bundle (depth : nat) (repository_root review_path : string) (w : W)
  : option (result string Chain) :=
  generated ← generate repository_root review_path w;
  match generated with
  | Err e => Some (Err e)
  | Ok generated => check_generated depth generated w
  end.

(** ** Writing a bundle *)

Definition write_new_file (root : string) (file : string * string) (w : W) : result unit Chain * W :=
  let path := join_path root file.1 in
  match parent_path path with
  | None => (Err ["generated file has no parent"], w)
  | Some parent =>
      step? _ with w := noted ("failed to create " +:+ parent) (fs_create_dir_all parent w) in
      step? _ with w := noted ("refusing to replace " +:+ path) (fs_open_new path w) in
      step? _ with w := noted ("failed to write " +:+ path) (fs_write_all path file.2 w) in
      step? _ with w := noted ("failed to synchronize " +:+ path) (fs_sync_all path w) in
      (Ok tt, w)
  end.

(** One turn of the loop over the components of the parent: the directory so far
    must be real, or is created. *)
Definition create_component (current : string) (w : W) : result unit Chain * W :=
  match fs_probe current w with
  | Ok Directory => (Ok tt, w)
  | Ok _ => (Err ["engine bundle parent is not a real directory: " +:+ current], w)
  | Err (true, _) => noted ("failed to create " +:+ current) (fs_create_dir current w)
  | Err (false, e) => (Err ["failed to inspect " +:+ current; e], w)
  end.

Definition create_output_parent (repository_root parent : string) (w : W) : result unit Chain * W :=
  match context ("engine bundle parent " +:+ parent +:+ " escaped repository root " +:+ repository_root)
          (strip_prefix_parts repository_root parent) with
  | Err e => (Err e, w)
  | Ok relative =>
      run_each (fun n => create_component (foldl (fun path part => join_path path (part_text part)) repository_root
                                             (take n relative))) (seq 1 (length relative)) w
  end.

(** [write_engine_result_bundle] after the bundle is generated, up to the check. *)
Definition write_generated (repository_root : string) (generated : GeneratedEngineBundle) (w : W) : result unit Chain * W :=
  let directory := gen_directory generated in
  match parent_path directory with
  | None => (Err ["engine bundle output has no parent"], w)
  | Some parent =>
      step? _ with w := create_output_parent repository_root parent w in
      step? _ with w := noted ("refusing to replace existing engine bundle output " +:+ directory) (fs_create_dir directory w) in
      step? _ with w := run_each (write_new_file directory) (gen_files generated) w in
      match (let? bundle := load_bundle (join_path directory MANIFEST_FILE) w in render_engine_matrix bundle) with
      | Err e => (Err e, w)
      | Ok matrix => write_new_file directory (MATRIX_FILE, matrix) w
      end
  end.

Definition write_engine_result_bundle (depth : nat) (repository_root review_path : string) (w : W)
  : option (result string Chain * W) :=
  generated ← generate repository_root review_path w;
  match generated with
  | Err e => Some (Err e, w)
  | Ok generated =>
      match write_generated repository_root generated w with
      | (Err e, w) => Some (Err e, w)
      | (Ok _, w) =>
          checked ← check_engine_result_bundle depth repository_root review_path w;
          Some (checked, w)
      end
  end.
End Bundles.

(** ** What a materialized result says *)

(** The evaluation of an assertion is the transcript's check of that name; after a
    fixture collision nothing is evaluated. *)
Definition evaluated_as (transcript : EngineTranscript) (spec : AssertionSpec) (evaluation : AssertionEvaluation) : Prop :=
  eval_assertion evaluation = spec_id spec /\ eval_required evaluation = spec_required spec /\
  eval_evidence evaluation = [TRANSCRIPT_EVIDENCE_ID] /\
  match ex_classification (et_execution transcript) with
  | EngineBehaviorClassification.FixtureCollision => exists reason, eval_outcome evaluation = NotEvaluated reason
  | _ => exists passed, transcript_check (spec_id spec) transcript = Some passed /\
           match eval_outcome evaluation with
           | AssertionPass => passed = true | AssertionFail _ => passed = false | NotEvaluated _ => False
           end
  end.

(** The outcome of a result, against the classification of its transcript. *)
Definition states_verdict (transcript : EngineTranscript) (record : ResultRecord) : Prop :=
  match ex_classification (et_execution transcript) with
  | EngineBehaviorClassification.Pass =>
      (exists summary, rec_outcome record = ResultPass summary) /\
      Forall (fun e => eval_required e = true -> eval_outcome e = AssertionPass) (rec_assertions record)
  | EngineBehaviorClassification.Fail =>
      exists failure, rec_outcome record = ResultFail failure /\ fail_retryable failure = false /\
        (fail_category failure = FailureCategory.Assertion <->
         Exists (fun e => eval_required e = true /\ failed_assertion (eval_outcome e) = true) (rec_assertions record))
  | EngineBehaviorClassification.FixtureCollision => exists reason, rec_outcome record = NotTested reason
  end.

Lemma evaluate_assertion_Ok spec transcript evaluation :
  evaluate_engine_assertion spec transcript
    (match ex_classification (et_execution transcript) with EngineBehaviorClassification.FixtureCollision => true | _ => false end)
    = Ok evaluation -> evaluated_as transcript spec evaluation.
Proof.
  unfold evaluate_engine_assertion, evaluated_as, engine_assertion_passed.
  destruct (ex_classification (et_execution transcript)); cbn [map_err].
  3: intros [= <-]; cbn; split_and!; try done; by eexists.
  all: destruct (transcript_check (spec_id spec) transcript) as [passed|]; [|done]; cbn;
    intros [= <-]; cbn; split_and!; try done; exists passed; split; [done|]; by destruct passed.
Qed.

Lemma failed_required_nil assertions :
  failed_required_assertions assertions = [] <->
  ~ Exists (fun e => eval_required e = true /\ failed_assertion (eval_outcome e) = true) assertions.
Proof.
  unfold failed_required_assertions. induction assertions as [|e l IH]; cbn [List.filter].
  { rewrite Exists_nil. naive_solver. }
  rewrite Exists_cons. destruct (eval_required e), (failed_assertion (eval_outcome e)); cbn [andb]; try naive_solver.
Qed.

Lemma not_all_pass assertions :
  existsb (fun e => eval_required e && negb (assertion_pass (eval_outcome e))) assertions = false <->
  Forall (fun e => eval_required e = true -> eval_outcome e = AssertionPass) assertions.
Proof.
  induction assertions as [|e l IH]; [done|]. cbn [existsb]. rewrite orb_false_iff, IH, Forall_cons.
  destruct (eval_required e), (eval_outcome e); cbn; naive_solver.
Qed.

Lemma outcome_states transcript assertions outcome record :
  result_outcome transcript assertions (failed_required_assertions assertions) = Ok outcome ->
  rec_outcome record = outcome -> rec_assertions record = assertions -> states_verdict transcript record.
Proof.
  unfold result_outcome, states_verdict. intros Hout -> ->.
  destruct (ex_classification (et_execution transcript)); cbv zeta in Hout.
  - apply guard_Ok in Hout as [[_ Hall%not_all_pass]%orb_false_iff [= <-]]. split; [by eexists|done].
  - destruct (failed_required_assertions assertions) as [|id ids] eqn:Hfailed; injection Hout as <-.
    + eexists. split_and!; [done|done|]. cbn. apply failed_required_nil in Hfailed. split; [done|]. by intros ?%Hfailed.
    + eexists. split_and!; [done|done|]. cbn. split; [intros _|done].
      destruct (decide (Exists (fun e => eval_required e = true /\ failed_assertion (eval_outcome e) = true) assertions))
        as [|Hno%failed_required_nil]; [done|]. by rewrite Hno in Hfailed.
  - injection Hout as <-. by eexists.
Qed.

Section Results.
Context `{UrlParser, Ledger.Sha256}.

(** A result is a valid contract document that evaluates every assertion of the
    scenario as the transcript's own check, with the verdict of the transcript. *)
Theorem engine_result_states_its_transcript reviewed transcript profile scenario source review record :
  build_result reviewed transcript profile scenario source review = Ok record ->
  validate record = Ok tt /\
  rec_catalog record = executed_component (ets_catalog (et_components transcript)) /\
  rec_environment record = er_environment (vrev_review reviewed) /\
  Forall2 (evaluated_as transcript) (scen_assertions (ecs_scenario (ve_contracts (vrev_evidence reviewed)))) (rec_assertions record) /\
  states_verdict transcript record.
Proof.
  unfold build_result. intros (assertions & Hassertions%collect_results_Ok & Hr)%bind_Ok.
  apply bind_Ok in Hr as (outcome & Hout & Hr). cbv zeta in Hr. apply check_Ok in Hr as [Hvalid%map_err_Ok_iff [= <-]].
  split_and!; try done.
  - eapply Forall2_impl; [exact Hassertions|]. intros spec e. apply evaluate_assertion_Ok.
  - by eapply outcome_states.
Qed.
End Results.

Section Materialized.
Context `{UrlParser, UrlOps, ContractDecoders, EngineParametersDecoder, CanonicalEngineScenario, ObjectPaths, UuidParser}.
Context `{ValuesWriter, !Serialize EngineTranscript, Ledger.Sha256}.

(** In a valid transcript that passed, every check holds. *)
Lemma recorded_checks_pass contracts transcript id passed :
  validate_transcript transcript contracts = Ok tt ->
  ex_classification (et_execution transcript) = EngineBehaviorClassification.Pass ->
  transcript_check id transcript = Some passed -> passed = true.
Proof.
  intros (plan & components & rows & _ & _ & Heq & _)%derived_valid Hclass.
  assert (Hsanitized : sanitization_passed (et_sanitization transcript) = true) by (rewrite Heq; reflexivity).
  assert (Hchecks : checks_all_passed (ex_checks (et_execution transcript)) = true).
  { rewrite Heq in Hclass |- *. cbn in Hclass |- *.
    destruct (process_fixture_collision _); [done|]. destruct (process_passed _); [|done]. cbn [andb] in Hclass.
    by destruct (checks_all_passed _). }
  clear Heq Hclass. unfold checks_all_passed in Hchecks.
  repeat match goal with Hp : _ && _ = true |- _ => apply andb_true_iff in Hp as [Hp ?] end.
  unfold transcript_check. cbv zeta.
  repeat match goal with |- context [if ?b then Some ?check else _] => destruct b; [by intros [= <-]|] end. done.
Qed.

(** C35: The consistency check of the materializer never fires on an admitted
    transcript: when every assertion of the scenario is implemented, a result is
    built, up to its validation as a contract document. *)
Theorem admitted_transcripts_materialize reviewed transcript profile scenario source review :
  let contracts := ve_contracts (vrev_evidence reviewed) in
  validate_transcript transcript contracts = Ok tt ->
  (forall spec, spec ∈ scen_assertions (ecs_scenario contracts) -> is_Some (transcript_check (spec_id spec) transcript)) ->
  exists record, build_result reviewed transcript profile scenario source review
    = match validate record with Ok _ => Ok record | Err errors => Err [display_issues errors] end.
Proof.
  intros contracts Hvalid Himplemented. unfold build_result. fold contracts. cbv zeta.
  match goal with |- context [collect_results ?f ?l] => assert (Hc : is_ok (collect_results f l) = true) end.
  { apply collect_is_ok, Forall_forall. intros spec Hspec. unfold evaluate_engine_assertion, engine_assertion_passed.
    destruct (Himplemented spec Hspec) as [passed ->]. by destruct (ex_classification (et_execution transcript)). }
  destruct (collect_results _ _) as [assertions|] eqn:Hassertions; [|done]. clear Hc. rename Hassertions into Hc.
  apply collect_results_Ok in Hc.
  assert (Hout : exists outcome, result_outcome transcript assertions (failed_required_assertions assertions) = Ok outcome).
  { unfold result_outcome. destruct (ex_classification (et_execution transcript)) eqn:Hclass; cbv zeta;
      [|destruct (failed_required_assertions assertions); by eexists|by eexists].
    assert (Hall : Forall (fun e => eval_outcome e = AssertionPass) assertions).
    { eapply Forall2_Forall_r; [exact Hc|]. apply Forall_forall. intros spec Hspec e He.
      unfold evaluate_engine_assertion, engine_assertion_passed in He.
      destruct (Himplemented spec Hspec) as [passed Hpassed]. rewrite Hpassed in He. cbn in He.
      rewrite (recorded_checks_pass _ _ _ _ Hvalid Hclass Hpassed) in He. by injection He as <-. }
    assert (Hnone : failed_required_assertions assertions = []).
    { apply failed_required_nil. intros (e & He & _ & Hf)%Exists_exists. rewrite Forall_forall in Hall.
      by rewrite (Hall e He) in Hf. }
    rewrite Hnone. cbn [negb orb].
    assert (Hpass : existsb (fun e => eval_required e && negb (assertion_pass (eval_outcome e))) assertions = false).
    { apply not_all_pass. eapply Forall_impl; [exact Hall|]. done. }
    rewrite Hpass. by eexists. }
  destruct Hout as [outcome ->].
  match goal with |- context [map_err _ (validate ?record)] => exists record; by destruct (validate record) end.
Qed.
End Materialized.

(** ** What a checked bundle consists of *)

(** The map has this entry at a path of these parts. *)
Definition recorded (entries : PathMap OutputEntryKind) (parts : list PathPart) (kind : OutputEntryKind) : Prop :=
  (parts, kind) ∈ (fun entry => (path_parts entry.1, entry.2)) <$> entries.

#[export] Instance recorded_dec entries parts kind : Decision (recorded entries parts kind).
Proof. unfold recorded. apply _. Defined.

Lemma part_cmp_eq p q : part_cmp p q = Eq -> p = q.
Proof.
  unfold part_cmp, cmp_lex, cmp_on, then_with. destruct p, q; cbn; try done. intros Heq.
  by apply String.compare_eq_iff in Heq as ->.
Qed.

Lemma parts_cmp_eq l k : parts_cmp l k = Eq -> l = k.
Proof.
  revert k. induction l as [|p l IH]; intros [|q k]; cbn [parts_cmp]; try done. unfold then_with.
  destruct (part_cmp p q) eqn:Hp; try done. intros Hl. by rewrite (part_cmp_eq _ _ Hp), (IH _ Hl).
Qed.

Lemma path_insert_fresh {V} path (v : V) m entry :
  path_lookup path m = None -> entry ∈ path_insert path v m <-> entry = (path, v) \/ entry ∈ m.
Proof.
  unfold path_lookup. induction m as [|[p u] m IH]; cbn [path_insert find]; [set_solver|]. cbn [fst].
  destruct (bool_decide (path_parts p = path_parts path)) eqn:Hp; [done|]. apply bool_decide_eq_false in Hp.
  intros Hnone. specialize (IH Hnone). destruct (path_cmp path p) eqn:Hcmp.
  - apply parts_cmp_eq in Hcmp. by rewrite Hcmp in Hp.
  - set_solver.
  - set_solver.
Qed.

Lemma recorded_insert entries path kind parts kind' :
  path_lookup path entries = None ->
  recorded (path_insert path kind entries) parts kind' <-> (parts = path_parts path /\ kind' = kind) \/ recorded entries parts kind'.
Proof.
  intros Hnone. unfold recorded. rewrite !list_elem_of_fmap. setoid_rewrite (path_insert_fresh _ _ _ _ Hnone). split.
  - intros (e & Heq & [->|Hin]); [left; by injection Heq as -> ->|right; by exists e].
  - intros [[-> ->]|(e & Heq & Hin)]; [exists (path, kind); by auto|exists e; by auto].
Qed.

Section Entries.
Context {W : Type} `{FileTree W}.

(** What lies below a directory, at any depth. *)
Inductive below (w : W) (directory : string) : string -> OutputEntryKind -> Prop :=
| below_file listed entry :
    fs_read_dir directory w = Ok listed -> Ok entry ∈ listed -> entry_type entry = Ok Regular ->
    below w directory (join_path directory (entry_name entry)) FileEntry
| below_directory listed entry :
    fs_read_dir directory w = Ok listed -> Ok entry ∈ listed -> entry_type entry = Ok Directory ->
    below w directory (join_path directory (entry_name entry)) DirectoryEntry
| below_deeper listed entry path kind :
    fs_read_dir directory w = Ok listed -> Ok entry ∈ listed -> entry_type entry = Ok Directory ->
    below w (join_path directory (entry_name entry)) path kind -> below w directory path kind.

(** The same, for one entry of the directory. *)
Definition entry_below (w : W) (directory : string) (entry : DirEntry) (path : string) (kind : OutputEntryKind) : Prop :=
  let here := join_path directory (entry_name entry) in
  (entry_type entry = Ok Regular /\ path = here /\ kind = FileEntry) \/
  (entry_type entry = Ok Directory /\ (path = here /\ kind = DirectoryEntry \/ below w here path kind)).

Lemma below_entries w directory listed path kind :
  fs_read_dir directory w = Ok listed ->
  below w directory path kind <-> exists entry, Ok entry ∈ listed /\ entry_below w directory entry path kind.
Proof.
  intros Hread. split.
  - intros Hb. destruct Hb as [l entry Hl Hin Ht|l entry Hl Hin Ht|l entry path kind Hl Hin Ht Hb];
      rewrite Hread in Hl; injection Hl as <-; exists entry; (split; [done|]); unfold entry_below; naive_solver.
  - intros (entry & Hin & [(Ht & -> & ->)|(Ht & [[-> ->]|Hb])]); [by eapply below_file|by eapply below_directory|].
    by eapply below_deeper.
Qed.

(** Recorded under its path relative to the root. *)
Definition relative_to (root path : string) (parts : list PathPart) : Prop :=
  exists relative, strip_prefix_parts root path = Ok relative /\ path_parts (parts_path relative) = parts.

(** [entries'] has, besides [entries], what [found] says. *)
Definition extended (root : string) (entries entries' : PathMap OutputEntryKind) (found : string -> OutputEntryKind -> Prop) : Prop :=
  forall parts kind, recorded entries' parts kind <->
    recorded entries parts kind \/ exists path, found path kind /\ relative_to root path parts.

Lemma visit_entry_extends recurse root w directory entries entry entries' :
  (forall d m m', recurse d m = Some (Ok m') -> extended root m m' (below w d)) ->
  visit_output_entry recurse root directory entries entry = Some (Ok entries') ->
  exists e, entry = Ok e /\ extended root entries entries' (entry_below w directory e).
Proof.
  intros Hrecurse. unfold visit_output_entry, context.
  match goal with |- match ?v with _ => _ end = _ -> _ => destruct v as [[[path kind] inserted]|] eqn:Hv end; [|done].
  apply bind_Ok in Hv as (e & He%map_err_Ok_iff & Hv). cbv zeta in Hv.
  apply bind_Ok in Hv as (relative & Hrel%map_err_Ok_iff & Hv). apply bind_Ok in Hv as (t & Ht%map_err_Ok_iff & Hv).
  apply bind_Ok in Hv as (kind' & Hkind & Hv). apply guard_Ok in Hv as [Hnew%bool_decide_eq_false%eq_None_not_Some [= <- -> <-]].
  intros Hafter. exists e. split; [done|]. intros parts kind'.
  pose proof (fun ps k => recorded_insert entries (parts_path relative) kind ps k Hnew) as Hins.
  assert (Hone : relative_to root (join_path directory (entry_name e)) parts <-> parts = path_parts (parts_path relative)).
  { unfold relative_to. rewrite Hrel. naive_solver. }
  destruct t; try done; injection Hkind as <-; unfold entry_below; cbv zeta; rewrite Ht.
  - injection Hafter as <-. rewrite Hins. naive_solver.
  - apply Hrecurse in Hafter. rewrite (Hafter parts kind'), Hins. naive_solver.
Qed.

Lemma collect_extends fuel root w directory entries entries' :
  collect_output_entries fuel root w directory entries = Some (Ok entries') -> extended root entries entries' (below w directory).
Proof.
  revert directory entries entries'. induction fuel as [|fuel IH]; intros directory entries entries'; cbn [collect_output_entries]; [done|].
  unfold context. destruct (fs_read_dir directory w) as [listed|e] eqn:Hread; [|done]. cbn [map_err]. intros Hvisit.
  assert (Hgen : extended root entries entries' (fun path kind => exists e, Ok e ∈ listed /\ entry_below w directory e path kind)).
  { clear Hread. revert entries Hvisit. induction listed as [|entry listed IHl]; intros entries Hvisit; cbn [visit_output_entries] in Hvisit.
    - injection Hvisit as <-. intros parts kind. set_solver.
    - destruct (visit_output_entry _ root directory entries entry) as [[m|e]|] eqn:Hm; [|done..].
      apply (visit_entry_extends _ _ w) in Hm as (e & -> & Hm); [|exact IH]. intros parts kind.
      rewrite (IHl m Hvisit parts kind), (Hm parts kind). setoid_rewrite elem_of_cons. naive_solver. }
  intros parts kind. rewrite (Hgen parts kind). by setoid_rewrite (below_entries w directory listed _ _ Hread).
Qed.
End Entries.

Section Checked.
Context `{UrlParser, UrlOps, ContractDecoders, EngineParametersDecoder, CanonicalEngineScenario, Ledger.Sha256}.
Context `{ObjectPaths, UuidParser, ValuesWriter, !Serialize EngineTranscript, !ToVecPretty EngineTranscript}.
Context `{!ToVecPretty ResultRecord, !ToVecPretty ResultBundleManifest, TranscriptDecoder, ReviewDecoder}.
Context {W : Type} `{FileTree W}.

Lemma generate_Ok root review_path w generated :
  generate root review_path w = Some (Ok generated) ->
  exists reviewed, validate_engine_result_review root review_path w = Some (Ok reviewed) /\
    require_publication_sources root reviewed w = Ok tt /\ generate_files root reviewed = Ok generated.
Proof.
  unfold generate. intros ([reviewed|] & Hreviewed & Hg)%bind_Some; [|done]. injection Hg as [Hsources Hg]%check_Ok.
  by exists reviewed.
Qed.

Lemma check_generated_Ok depth generated w manifest :
  check_generated depth generated w = Some (Ok manifest) ->
  let directory := gen_directory generated in
  manifest = join_path directory MANIFEST_FILE /\
  (forall file, file ∈ gen_files generated -> fs_read (join_path directory file.1) w = Ok file.2) /\
  (exists bundle matrix, load_bundle manifest w = Ok bundle /\ render_engine_matrix bundle = Ok matrix /\
    fs_read (join_path directory MATRIX_FILE) w = Ok matrix) /\
  fs_symlink_type directory w = Ok Directory /\
  forall parts kind, recorded (expected_entries generated) parts kind <->
    exists path, below w directory path kind /\ relative_to directory path parts.
Proof.
  unfold check_generated, output_entries, context. cbv zeta.
  destruct (check? check_all (check_generated_file (gen_directory generated) w) (gen_files generated) in
            check_matrix_file (gen_directory generated) w) as [[]|] eqn:Hfiles; [|done].
  intros ([actual|] & Hactual & Hs)%bind_Some; [|done]. injection Hs as [Hsame%negb_false_iff%bool_decide_eq_true [= <-]]%guard_Ok.
  apply check_Ok in Hfiles as [Hfiles%check_all_Ok Hmatrix]. split_and!; [done| | | |].
  - rewrite Forall_forall in Hfiles. intros file Hin. specialize (Hfiles file Hin). unfold check_generated_file, context in Hfiles.
    apply bind_Ok in Hfiles as (content & Hread%map_err_Ok_iff & Hf). apply guard_Ok in Hf as [<-%negb_false_iff%String.eqb_eq _].
    done.
  - unfold check_matrix_file, context in Hmatrix. apply bind_Ok in Hmatrix as (bundle & Hload & Hm).
    apply bind_Ok in Hm as (matrix & Hrender & Hm). cbv zeta in Hm. apply bind_Ok in Hm as (content & Hread%map_err_Ok_iff & Hm).
    apply guard_Ok in Hm as [->%negb_false_iff%String.eqb_eq _]. by exists bundle, matrix.
  - by destruct (fs_symlink_type (gen_directory generated) w) as [[]|].
  - destruct (fs_symlink_type (gen_directory generated) w) as [[]|]; try done. cbn [map_err] in Hactual.
    apply collect_extends in Hactual. intros parts kind. unfold recorded at 1. rewrite <-Hsame. fold (recorded actual parts kind).
    rewrite (Hactual parts kind). unfold recorded at 1. set_solver.
Qed.

(** C34: A bundle that checks is the generated one and nothing else: its
    review is valid and its sources are public, every generated file is there with the
    generated bytes, its manifest loads and its matrix is the rendered one, and what lies
    below its directory, at any depth, is exactly the generated files, their
    directories and the matrix. *)
Theorem checked_engine_bundle_is_exact depth root review_path w manifest :
  check_engine_result_bundle depth root review_path w = Some (Ok manifest) ->
  exists reviewed generated,
    validate_engine_result_review root review_path w = Some (Ok reviewed) /\
    require_publication_sources root reviewed w = Ok tt /\ generate_files root reviewed = Ok generated /\
    let directory := gen_directory generated in
    manifest = join_path directory MANIFEST_FILE /\
    (forall file, file ∈ gen_files generated -> fs_read (join_path directory file.1) w = Ok file.2) /\
    (exists bundle matrix, load_bundle manifest w = Ok bundle /\ render_engine_matrix bundle = Ok matrix /\
      fs_read (join_path directory MATRIX_FILE) w = Ok matrix) /\
    forall parts kind, recorded (expected_entries generated) parts kind <->
      exists path, below w directory path kind /\ relative_to directory path parts.
Proof.
  unfold check_engine_result_bundle. intros ([generated|] & Hg & Hc)%bind_Some; [|done].
  apply generate_Ok in Hg as (reviewed & Hreviewed & Hsources & Hgenerated). apply check_generated_Ok in Hc as (-> & Hfiles & Hmatrix & _ & Hexact).
  by exists reviewed, generated.
Qed.

(** ** Termination *)

(** A bound of how deep directories are nested. *)
Definition nested (w : W) (height : string -> nat) : Prop :=
  forall directory listed entry, fs_read_dir directory w = Ok listed -> Ok entry ∈ listed -> entry_type entry = Ok Directory ->
    (height (join_path directory (entry_name entry)) < height directory)%nat.

Lemma collect_returns w height root fuel directory entries :
  nested w height -> (height directory < fuel)%nat -> is_Some (collect_output_entries fuel root w directory entries).
Proof.
  intros Hnested. revert directory entries. induction fuel as [|fuel IH]; intros directory entries Hfuel; [lia|].
  cbn [collect_output_entries]. unfold context. destruct (fs_read_dir directory w) as [listed|] eqn:Hread; [|by eexists].
  cbn [map_err]. assert (Hall : forall entry, entry ∈ listed -> forall m,
    is_Some (visit_output_entry (collect_output_entries fuel root w) root directory m entry)).
  { intros entry Hin m. unfold visit_output_entry, context.
    match goal with |- is_Some (match ?v with _ => _ end) => destruct v as [[[path kind] inserted]|] eqn:Hv end; [|by eexists].
    apply bind_Ok in Hv as (e & ->%map_err_Ok_iff & Hv). cbv zeta in Hv. apply bind_Ok in Hv as (relative & _ & Hv).
    apply bind_Ok in Hv as (t & Ht%map_err_Ok_iff & Hv). apply bind_Ok in Hv as (kind' & Hkind & Hv).
    apply guard_Ok in Hv as [_ [= <- -> _]]. destruct t; try done; injection Hkind as <-; [by eexists|].
    apply IH. pose proof (Hnested _ _ _ Hread Hin Ht). lia. }
  clear Hread. revert entries. induction listed as [|entry listed IHl]; intros entries; cbn [visit_output_entries]; [by eexists|].
  destruct (Hall entry ltac:(by left) entries) as [[m|e] ->]; [|by eexists]. apply IHl. intros e Hin. apply Hall. by right.
Qed.

(** Checking a bundle returns: when directories are nested no deeper than the
    fuel, the listing ends, and the review does not panic. *)
Theorem engine_bundle_check_returns height depth root review_path w :
  nested w height -> (forall directory, (height directory <= depth)%nat) ->
  exists outcome, check_engine_result_bundle depth root review_path w = Some outcome.
Proof.
  intros Hnested Hdepth. unfold check_engine_result_bundle, generate.
  destruct (review_total root review_path w) as [[reviewed|e] ->]; cbn [mbind option_bind]; [|by eexists].
  destruct (check? _ in generate_files root reviewed) as [generated|e]; [|by eexists].
  unfold check_generated, output_entries. cbv zeta. destruct (check? _ in check_matrix_file _ w); [|by eexists].
  destruct (context _ _) as [[]|]; cbn [mbind option_bind]; try by eexists.
  destruct (collect_returns w height (gen_directory generated) (S depth) (gen_directory generated) [] Hnested) as [outcome ->];
    [specialize (Hdepth (gen_directory generated)); lia|]. by eexists.
Qed.

(** ** Writing keeps what is there *)

(** What could be read before reads the same. *)
Definition keeps (w w' : W) : Prop := forall path content, fs_read path w = Ok content -> fs_read path w' = Ok content.

Context `{FileCreation W}.

(** Directories are created beside what exists, and a file opened as new is none
    that could be read. *)
Class FileCreationLaws := {
  create_dir_keeps path w : keeps w (fs_create_dir path w).2;
  create_dir_all_keeps path w : keeps w (fs_create_dir_all path w).2;
  open_new_keeps path w : keeps w (fs_open_new path w).2;
  new_file_keeps path content w w' : fs_open_new path w = (Ok tt, w') -> keeps w (fs_write_all path content w').2;
  sync_keeps path w : keeps w (fs_sync_all path w).2;
}.
Context `{FileCreationLaws}.

#[local] Instance keeps_preorder : PreOrder keeps.
Proof. split; [by intros w path content|]. intros w1 w2 w3 Hfirst Hsecond path content Hread. by apply Hsecond, Hfirst. Qed.

Lemma run_each_keeps {A} (step : A -> W -> result unit Chain * W) l w :
  (forall a w, keeps w (step a w).2) -> keeps w (run_each step l w).2.
Proof.
  intros Hstep. revert w. induction l as [|a l IH]; intros w; cbn [run_each]; [done|].
  pose proof (Hstep a w) as Ha. destruct (step a w) as [[u|e] w']; cbn in *; [|done]. by etransitivity; [|apply IH].
Qed.

Lemma new_file_written root file w : keeps w (write_new_file root file w).2.
Proof.
  unfold write_new_file, noted. cbv zeta. destruct (parent_path _) as [parent|]; [|done].
  pose proof (create_dir_all_keeps parent w) as Hd. destruct (fs_create_dir_all parent w) as [[u|e] w1]; cbn in *; [|done].
  pose proof (open_new_keeps (join_path root file.1) w1) as Ho.
  destruct (fs_open_new (join_path root file.1) w1) as [[[]|e] w2] eqn:Hopen; cbn in *; [|by etransitivity].
  pose proof (new_file_keeps _ file.2 _ _ Hopen) as Hw. destruct (fs_write_all _ file.2 w2) as [[v|e] w3]; cbn in *; [|by etransitivity].
  pose proof (sync_keeps (join_path root file.1) w3) as Hs. destruct (fs_sync_all _ w3) as [[v'|e] w4]; cbn in *;
    (etransitivity; [exact Hd|]); by etransitivity.
Qed.

Lemma parent_created root parent w : keeps w (create_output_parent root parent w).2.
Proof.
  unfold create_output_parent. destruct (context _ _) as [relative|]; [|done]. apply run_each_keeps. intros n w'.
  unfold create_component, noted. destruct (fs_probe _ w') as [[]|[[] e]]; cbn; try done. apply create_dir_keeps.
Qed.

(** Writing a bundle never changes a file that exists, whether it succeeds or
    fails at any point. *)
Theorem engine_bundle_write_keeps_files depth root review_path w outcome w' :
  write_engine_result_bundle depth root review_path w = Some (outcome, w') -> keeps w w'.
Proof.
  unfold write_engine_result_bundle. intros ([generated|e] & _ & Hwrite)%bind_Some; [|by injection Hwrite as <- <-].
  assert (Hkeeps : keeps w (write_generated root generated w).2).
  { unfold write_generated, noted. cbv zeta. destruct (parent_path _) as [parent|]; [|done].
    pose proof (parent_created root parent w) as Hp. destruct (create_output_parent root parent w) as [[u|e] w1]; cbn in *; [|done].
    pose proof (create_dir_keeps (gen_directory generated) w1) as Hd.
    destruct (fs_create_dir _ w1) as [[u'|e] w2]; cbn in *; [|by etransitivity].
    pose proof (run_each_keeps _ (gen_files generated) w2 (new_file_written (gen_directory generated))) as Hf.
    destruct (run_each _ (gen_files generated) w2) as [[v|e] w3]; cbn in *; [|etransitivity; [exact Hp|]; by etransitivity].
    (etransitivity; [exact Hp|]). (etransitivity; [exact Hd|]). (etransitivity; [exact Hf|]).
    destruct (let? bundle := _ in render_engine_matrix bundle); [apply new_file_written|done]. }
  destruct (write_generated root generated w) as [[u|e] w1]; cbn in Hkeeps; [|by injection Hwrite as <- <-].
  apply bind_Some in Hwrite as (checked & _ & Hwrite). by injection Hwrite as <- <-.
Qed.
End Checked.
Arguments FileCreationLaws W {_ _}.
