(* ===== verification/Phase1Bundle.v ===== *)
(** * The behavioral result bundle (crates/contract-tool/src/phase1_bundle.rs)

    The transcripts of the conformance probes and of one client, reviewed by a
    person, become one result per scenario and catalog. Documents are JSON values
    here, checked by parsing what was rendered. *)

From S2P Require Import Prelude Order RustStr Json ContractValue ContractScenario ContractAdapter ContractProfile.
From S2P Require Import ContractResult ContractDocument Ledger Capture Operation ToolFiles Publication Bundle CommunityPublication.
From S2P Require Import Sanitization Policy Matrix LegacyCommit ContentionBundle EngineBundle.
From Stdlib Require Import Ascii.
Open Scope string_scope.

Definition PHASE1_REVIEW : string := "results/source/phase1-2026-08-28/review.json".

Record Phase1Run := { p1_run_id : string; p1_started_at : string; p1_completed_at : string; p1_sanitized_invocation : string }.

Record Phase1Environment := {
  p1_operating_system : string; p1_architecture : string; p1_logical_cpus : Z; p1_memory_bytes : Z;
  p1_container_runtime : string; p1_network : string;
}.

Record Phase1Redaction := { p1_reviewed : bool; p1_policy : string; p1_removed_fields : list string }.

Record Phase1Review := {
  p1_format : string; p1_bundle : ReviewBundle; p1_run : Phase1Run; p1_source_profile : string;
  p1_publication_profile : string; p1_evidence_directory : string; p1_environment : Phase1Environment;
  p1_redaction : Phase1Redaction;
}.

Record RenderedBundle := { rendered_output : string; rendered_files : PathMap string }.

(** Derived decoders. *)
Class Phase1ReviewDecoder := decode_phase1_review : string -> result Phase1Review string.

(** ** JSON *)

(** [Value::as_u64]. *)
Definition value_u64 (v : Value) : option Z := match v with Num (PosInt n) => Some n | _ => None end.

Definition text (value : Value) (pointer : string) : result string Chain :=
  ok_or (json_pointer pointer value ≫= as_str) ["missing text at `" +:+ pointer +:+ "`"].

Definition integer (value : Value) (pointer : string) : result Z Chain :=
  ok_or (json_pointer pointer value ≫= value_u64) ["missing integer at `" +:+ pointer +:+ "`"].

(** [as u32]. *)
Definition as_u32 (n : Z) : Z := (n mod 4294967296)%Z.

Definition artifact_digest_json (digest : Digest) : Value :=
  json_object [("algorithm", Str (match digest_algorithm digest with ContractValue.Sha256 => "sha256" end));
               ("value", Str (digest_value digest))].

(** Absent members are not written. *)
Definition artifact_json (artifact : ArtifactReference) : Value :=
  json_object ([("location", Str (artifact_location artifact)); ("media_type", Str (artifact_media_type artifact));
                ("digest", artifact_digest_json (artifact_digest artifact))]
    ++ match artifact_bytes artifact with Some n => [("bytes", uint_json n)] | None => [] end
    ++ match artifact_description artifact with Some s => [("description", Str s)] | None => [] end
    ++ if bool_decide (artifact_extensions artifact = ∅) then []
       else [("extensions", Object (btree_entries String.compare (artifact_extensions artifact)))])%list.

Definition scenario_slug (id : string) : string := replace_byte 46 "-"%char id.

(** ** Checks of a transcript *)

Definition validate_sanitization (transcript : Value) : result unit Chain :=
  let? sanitization := ok_or (value_get "sanitization" transcript ≫= as_object) ["missing sanitization"] in
  guard existsb (fun '(key, value) => starts_with "raw_" key && negb (bool_decide (as_bool value = Some false))) sanitization
    or ["transcript persists raw secret, row, exception, or response material"] in
  Ok tt.

Section Transcripts.
Context `{!FromValue AssertionOutcome}.

(** One turn of the loop over the assertions of the scenario. *)
Definition validate_phase1_assertion (observed : list Value) (expected : AssertionSpec) : result unit Chain :=
  let? assertion := ok_or (find (fun value => bool_decide (value_get "assertion" value ≫= as_str = Some (spec_id expected))) observed)
    ["missing assertion `" +:+ spec_id expected +:+ "`"] in
  guard negb (bool_decide (value_get "required" assertion ≫= as_bool = Some (spec_required expected)))
    or ["assertion requirement drift for `" +:+ spec_id expected +:+ "`"] in
  let? _ := map_err (fun e => [e]) (from_value (T := AssertionOutcome) (default Null (value_get "outcome" assertion))) in
  Ok tt.

Definition validate_phase1_assertions (transcript : Value) (scenario : Scenario) : result unit Chain :=
  let? observed := ok_or (value_get "assertions" transcript ≫= as_array) ["transcript assertions missing"] in
  guard negb (len observed =? len (scen_assertions scenario))%Z or ["transcript assertion count drift"] in
  check_all (validate_phase1_assertion observed) (scen_assertions scenario).
End Transcripts.

(** ** Results *)

Definition PHASE1_EVIDENCE_ID : string := "source-transcript".

(** [assertion.as_object_mut().expect(..).insert(..)]: [None] is its panic. *)
Definition with_evidence (assertion : Value) : option Value :=
  match assertion with
  | Object entries => Some (Object (object_insert "evidence" (strings_json [PHASE1_EVIDENCE_ID]) entries))
  | _ => None
  end.

Definition phase1_outcome (classification : Value) : result Value Chain :=
  let? status := text classification "/status" in
  if status =? "pass" then
    Ok (json_object [("status", Str "pass");
                     ("summary", Str "Every required assertion passed in the reviewed value-safe transcript.")])
  else if status =? "fail" then
    let? summary := text classification "/summary" in
    Ok (json_object [("status", Str "fail");
      ("failure", json_object [("category", Str "assertion"); ("summary", Str summary); ("detail", Str summary);
         ("retryable", Bool false); ("evidence", strings_json [PHASE1_EVIDENCE_ID])])])
  else Err ["unsupported Phase 1 classification `" +:+ status +:+ "`"].

Definition component_json (component : Component) : Value :=
  json_object [("profile_component", Str (comp_id component)); ("name", Str (comp_name component));
               ("version", Str (comp_version component))].

Definition find_component (id message : string) (profile : Profile) : result Component Chain :=
  ok_or (find (fun component => comp_id component =? id) (prof_components profile)) [message].

Definition exact_json (value : Value) : Value := json_object [("precision", Str "exact"); ("value", value)].

Definition phase1_environment_json (environment : Phase1Environment) : Value :=
  json_object [("operating_system", Str (p1_operating_system environment)); ("architecture", Str (p1_architecture environment));
    ("cpu_model", json_object [("precision", Str "unknown");
       ("explanation", Str "The LinuxKit container boundary did not expose a CPU model; no host model is substituted.")]);
    ("logical_cpus", exact_json (uint_json (p1_logical_cpus environment)));
    ("memory_bytes", exact_json (uint_json (p1_memory_bytes environment))); ("network", Str (p1_network environment));
    ("container_runtime", exact_json (Str (p1_container_runtime environment)));
    ("runtime_flags", json_object [
       ("claim_scope", Str "correctness only; elapsed time and resource utilization are not measured");
       ("runner_build", Str "Rust 1.97.1; release; opt-level=3; fat LTO; codegen-units=1; target-cpu=native; panic=abort; stripped")])].

Section Results.
Context `{Ledger.Sha256}.

Definition phase1_digest_json (bytes : string) : Value :=
  json_object [("algorithm", Str "sha256"); ("value", Str (hash_text bytes))].

(** The members of a result, with the client last. *)
Definition phase1_record (review : Phase1Review) (profile : Profile) (profile_bytes : string) (scenario : Scenario)
    (scenario_bytes : string) (transcript : Value) (transcript_artifact : ArtifactReference) (catalog : string)
    (outcome : Value) (assertions : list Value) : result Value Chain :=
  let run := p1_run review in
  let subject := scenario_slug (scen_id scenario) +:+ "-" +:+ catalog in
  let? component := find_component catalog "catalog component absent" profile in
  let? format := text transcript "/format" in
  let members := [
    ("contract_version", Str "catalog-bench/v1"); ("kind", Str "result");
    ("id", Str (rb_id (p1_bundle review) +:+ "-" +:+ subject));
    ("scenario", json_object [("id", Str (scen_id scenario)); ("version", uint_json (scen_version scenario));
       ("digest", phase1_digest_json scenario_bytes)]);
    ("profile", json_object [("id", Str (prof_id profile)); ("digest", phase1_digest_json profile_bytes)]);
    ("catalog", component_json component);
    ("run", json_object [("kind", Str "single"); ("id", Str (p1_run_id run +:+ "-" +:+ subject));
       ("started_at", Str (p1_started_at run)); ("finished_at", Str (p1_completed_at run)); ("repetition", uint_json 1)]);
    ("outcome", outcome); ("environment", phase1_environment_json (p1_environment review)); ("assertions", Array assertions);
    ("evidence", Array [json_object [("id", Str PHASE1_EVIDENCE_ID); ("kind", Str "http-transcript");
       ("artifact", artifact_json transcript_artifact); ("sanitized", Bool true);
       ("redactions", strings_json (p1_removed_fields (p1_redaction review)))]]);
    ("extensions", json_object [("querygraph/source-transcript-format", Str format)])] in
  if scen_id scenario =? "client.pyiceberg.interoperability" then
    let? client := find_component "pyiceberg" "PyIceberg component absent" profile in
    Ok (json_object (members ++ [("client", component_json client)]))%list
  else Ok (json_object members).

Definition result_value (review : Phase1Review) (profile : Profile) (profile_bytes : string) (scenario : Scenario)
    (scenario_bytes : string) (transcript : Value) (transcript_artifact : ArtifactReference) (catalog : string)
  : option (result Value Chain) :=
  let judged :=
    let? classification := ok_or (json_pointer "/classification" transcript) ["missing classification"] in
    let? outcome := phase1_outcome classification in
    let? assertions := ok_or (value_get "assertions" transcript ≫= as_array) ["missing assertions"] in
    Ok (outcome, assertions) in
  match judged with
  | Err e => Some (Err e)
  | Ok (outcome, assertions) =>
      assertions ← mapM with_evidence assertions;
      Some (phase1_record review profile profile_bytes scenario scenario_bytes transcript transcript_artifact catalog
              outcome assertions)
  end.
End Results.

(** ** Rendering *)

(** [Path::extension]. *)
Definition path_extension (path : string) : option string :=
  name ← file_name path;
  match rev (split_byte 46 name) with
  | extension :: ((before :: rest) as front) => if is_nil rest && is_empty before then None else Some extension
  | _ => None
  end.

Definition SCENARIO_FILES : list (string * string) :=
  [("client.pyiceberg.interoperability", "client.pyiceberg.interoperability.json");
   ("iceberg-rest.commit.correctness", "iceberg-rest.commit.correctness.json");
   ("iceberg-rest.config.negotiation", "iceberg-rest.config.negotiation.json");
   ("iceberg-rest.namespace.behavior", "iceberg-rest.namespace.behavior.json");
   ("iceberg-rest.table.behavior", "iceberg-rest.table.behavior.json")].

(** A scenario with its bytes and its location. *)
Record Phase1Scenario := { ps_id : string; ps_scenario : Scenario; ps_bytes : string; ps_location : string }.

(** What the loop over the transcripts reads. *)
Record Phase1Context := {
  pc_review : Phase1Review; pc_source_profile : Profile; pc_source_sha : string; pc_profile : Profile; pc_profile_bytes : string;
  pc_scenarios : list Phase1Scenario;
}.

(** A rendered result: its file, its bytes and its value. *)
Record Phase1Result := { pr_file : string; pr_bytes : string; pr_value : Value }.

Record Phase1State := {
  st_seen : list (string * string); st_sources : list ArtifactReference; st_results : list Phase1Result;
}.

Section Rendering.
Context `{UrlParser, Ledger.Sha256, ContractDecoders, !FromValue AssertionOutcome, !Phase1ReviewDecoder, !ToVecPretty Value}.
Context {W : Type} `{FileTree W}.

Definition phase1_parse (bytes : string) : result ContractDocument Chain := map_err parse_error_chain (parse_contract bytes).

Definition parse_phase1_profile (bytes : string) : result Profile Chain :=
  let? document := phase1_parse bytes in
  match document with ProfileDocument value => Ok value | _ => Err ["expected profile"] end.

Definition parse_phase1_scenario (bytes : string) : result Scenario Chain :=
  let? document := phase1_parse bytes in
  match document with ScenarioDocument value => Ok value | _ => Err ["expected scenario"] end.

(** The loop over the entries of a directory; [recurse] searches a directory below. *)
Fixpoint visit_json (recurse : string -> option (result (list string) Chain)) (directory : string) (paths : list string)
    (listed : list (result DirEntry string)) : option (result (list string) Chain) :=
  match listed with
  | [] => Some (Ok paths)
  | Err e :: _ => Some (Err [e])
  | Ok entry :: listed =>
      let path := join_path directory (entry_name entry) in
      match entry_type entry with
      | Err e => Some (Err [e])
      | Ok Directory =>
          found ← recurse path;
          match found with
          | Ok found => visit_json recurse directory (paths ++ found)%list listed
          | Err e => Some (Err e)
          end
      | Ok _ =>
          visit_json recurse directory
            (if bool_decide (path_extension path = Some "json") then (paths ++ [path])%list else paths) listed
      end
  end.

(** [None] when directories are nested deeper than the fuel. *)
Fixpoint discover_json (fuel : nat) (w : W) (directory : string) : option (result (list string) Chain) :=
  match fuel with
  | O => None
  | S fuel =>
      match map_err (fun e => [e]) (fs_read_dir directory w) with
      | Err e => Some (Err e)
      | Ok listed => visit_json (discover_json fuel w) directory [] listed
      end
  end.

Definition load_phase1_scenario (root : string) (w : W) (file : string * string) : result Phase1Scenario Chain :=
  let location := "scenarios/v1/" +:+ file.2 in
  let? bytes := read_plain (join_path root location) w in
  let? scenario := parse_phase1_scenario bytes in
  guard negb (scen_id scenario =? file.1) or ["Phase 1 scenario identity drift for " +:+ file.2] in
  Ok {| ps_id := file.1; ps_scenario := scenario; ps_bytes := bytes; ps_location := location |}.

(** The identity of the profile in a transcript: a text or a member [id]. *)
Definition profile_identity (transcript_profile : Value) : option string :=
  match as_str transcript_profile with Some id => Some id | None => value_get "id" transcript_profile ≫= as_str end.

(** A transcript admitted for a scenario and a catalog. *)
Record AdmittedTranscript := { at_value : Value; at_bytes : string; at_scenario : Phase1Scenario; at_catalog : string }.

(** The checks of one turn of the loop over the transcripts. *)
Definition admit_phase1_transcript (context : Phase1Context) (seen : list (string * string)) (path : string) (w : W)
  : result AdmittedTranscript Chain :=
  let? bytes := read_plain path w in
  let? transcript := map_err (fun e => [e]) (from_slice bytes) in
  check? validate_sanitization transcript in
  let? scenario_id := text transcript "/scenario/id" in
  let? scenario_version := integer transcript "/scenario/version" in
  let? found := ok_or (find (fun s => ps_id s =? scenario_id) (pc_scenarios context))
    ["unexpected Phase 1 scenario `" +:+ scenario_id +:+ "`"] in
  let drift := ["transcript contract digest drift in " +:+ path] in
  guard negb (scen_version (ps_scenario found) =? as_u32 scenario_version)%Z or drift in
  let? scenario_sha := text transcript "/contract_digests/scenario_sha256" in
  guard negb (scenario_sha =? hash_text (ps_bytes found)) or drift in
  let? profile_sha := text transcript "/contract_digests/profile_sha256" in
  guard negb (profile_sha =? pc_source_sha context) or drift in
  let? transcript_profile := ok_or (json_pointer "/profile" transcript) ["missing profile"] in
  let? transcript_profile_id := ok_or (profile_identity transcript_profile) ["invalid transcript profile identity"] in
  guard negb (transcript_profile_id =? prof_id (pc_source_profile context)) or ["transcript source profile identity drift"] in
  let? catalog := text transcript "/adapter/catalog" in
  guard bool_decide ((scenario_id, catalog) ∈ seen) or ["duplicate Phase 1 scenario/catalog transcript"] in
  let? component := ok_or (index_by comp_id (prof_components (pc_profile context)) !! catalog) ["catalog missing from profile"] in
  let? name := text transcript "/adapter/name" in
  guard negb (name =? comp_name component) or ["transcript catalog identity drift for " +:+ catalog] in
  let? version := text transcript "/adapter/version" in
  guard negb (version =? comp_version component) or ["transcript catalog identity drift for " +:+ catalog] in
  check? validate_phase1_assertions transcript (ps_scenario found) in
  Ok {| at_value := transcript; at_bytes := bytes; at_scenario := found; at_catalog := catalog |}.

(** [Result::unwrap_or]. *)
Definition unwrap_or {A E} (r : result A E) (default : A) : A := match r with Ok a => a | Err _ => default end.

(** The file of a result. *)
Definition result_file (scenario_id catalog : string) : string := scenario_slug scenario_id +:+ "--" +:+ catalog +:+ ".json".

(** One turn of the loop over the transcripts; [None] is a panic. *)
Definition add_phase1_result (root : string) (context : Phase1Context) (w : W) (state : Phase1State) (path : string)
  : option (result Phase1State Chain) :=
  let admitted :=
    let? admitted := admit_phase1_transcript context (st_seen state) path w in
    let? relative := map_err (fun e => [e]) (strip_prefix_parts (join_path root "results") path) in
    Ok (admitted, artifact ("../../" +:+ parts_path relative) "application/json" (at_bytes admitted)
                    "Sanitized value-safe Phase 1 stock-client transcript.") in
  match admitted with
  | Err e => Some (Err e)
  | Ok (admitted, transcript_artifact) =>
      let scenario := at_scenario admitted in
      record ← result_value (pc_review context) (pc_profile context) (pc_profile_bytes context) (ps_scenario scenario)
                 (ps_bytes scenario) (at_value admitted) transcript_artifact (at_catalog admitted);
      Some (let? value := record in
            let? bytes := pretty_json value in
            let? document := phase1_parse bytes in
            guard match document with ResultDocument _ => false | _ => true end or ["generated Phase 1 record is not a result"] in
            Ok {| st_seen := (ps_id scenario, at_catalog admitted) :: st_seen state;
                  st_sources := (st_sources state ++ [transcript_artifact])%list;
                  st_results := (st_results state ++ [{| pr_file := result_file (ps_id scenario) (at_catalog admitted);
                                                          pr_bytes := bytes; pr_value := value |}])%list |})
  end.

Fixpoint add_phase1_results (root : string) (context : Phase1Context) (w : W) (state : Phase1State) (paths : list string)
  : option (result Phase1State Chain) :=
  match paths with
  | [] => Some (Ok state)
  | path :: paths =>
      step ← add_phase1_result root context w state path;
      match step with Ok state => add_phase1_results root context w state paths | Err e => Some (Err e) end
  end.

Definition result_artifact (rendered : Phase1Result) : ArtifactReference :=
  artifact (pr_file rendered) "application/json" (pr_bytes rendered)
    (unwrap_or (text (pr_value rendered) "/scenario/id") "Phase 1" +:+ " result for "
     +:+ unwrap_or (text (pr_value rendered) "/catalog/name") "catalog" +:+ ".").

Definition phase1_manifest (context : Phase1Context) (profile : ArtifactReference)
    (scenarios results sources : list ArtifactReference) : Value :=
  let review := pc_review context in
  let redaction := p1_redaction review in
  json_object [
    ("contract_version", Str "catalog-bench/v1"); ("kind", Str "manifest"); ("id", Str (rb_id (p1_bundle review)));
    ("title", Str (rb_title (p1_bundle review))); ("created_at", Str (rb_created_at (p1_bundle review)));
    ("provenance", json_object [("kind", Str "live-run"); ("runner", Str "catalog-bench-conformance");
       ("sanitized_invocation", Str (p1_sanitized_invocation (p1_run review)));
       ("started_at", Str (p1_started_at (p1_run review))); ("completed_at", Str (p1_completed_at (p1_run review)))]);
    ("profile", artifact_json profile); ("scenarios", Array (artifact_json <$> scenarios));
    ("results", Array (artifact_json <$> results)); ("source_evidence", Array (artifact_json <$> sources));
    ("redaction", json_object [("reviewed", Bool (p1_reviewed redaction)); ("policy", Str (p1_policy redaction));
       ("removed_fields", strings_json (p1_removed_fields redaction))]);
    ("extensions", json_object [
       ("querygraph/source-profile", json_object [("id", Str (prof_id (pc_source_profile context))); ("sha256", Str (pc_source_sha context))]);
       ("querygraph/evidence-matrix", Str "5 scenarios x 5 catalogs; correctness only; no timing claim")])].

(** [render] after the loop. *)
Definition conclude_phase1 (root : string) (context : Phase1Context) (review_bytes : string)
    (profile : ArtifactReference) (state : Phase1State) : result RenderedBundle Chain :=
  guard negb (len (st_seen state) =? 25)%Z or ["Phase 1 scenario/catalog matrix is incomplete"] in
  let results := sort_by (cmp_on pr_file String.compare) (st_results state) in
  let sources := (sort_by (cmp_on artifact_location String.compare) (st_sources state) ++
    [artifact "../../source/phase1-2026-08-28/review.json" "application/json" review_bytes
       "Human-reviewed execution environment, time boundary, and redaction admission."])%list in
  let scenarios := (fun s => artifact ("../../../" +:+ ps_location s) "application/json" (ps_bytes s)
    "Canonical Phase 1 correctness scenario.") <$> pc_scenarios context in
  let? manifest_bytes := pretty_json (phase1_manifest context profile scenarios (result_artifact <$> results) sources) in
  let? document := phase1_parse manifest_bytes in
  guard match document with ManifestDocument _ => false | _ => true end
    or ["generated Phase 1 bundle index is not a manifest"] in
  Ok {| rendered_output := join_path root (rb_output_directory (p1_bundle (pc_review context)));
        rendered_files := path_insert "manifest.json" manifest_bytes
          (path_map ((fun r => (pr_file r, pr_bytes r)) <$> results)) |}.

(** The inputs of [render] before the evidence is listed. *)
Definition read_phase1_inputs (root : string) (w : W) : result (string * Phase1Context * ArtifactReference) Chain :=
  let? review_bytes := read_plain (join_path root PHASE1_REVIEW) w in
  let? review := map_err (fun e => [e]) (decode_phase1_review review_bytes) in
  guard negb (p1_format review =? "catalog-bench/phase1-result-review/v1") || negb (p1_reviewed (p1_redaction review))
    or ["Phase 1 review is not admitted for publication"] in
  let? source_profile_bytes := read_plain (join_path root (p1_source_profile review)) w in
  let? source_profile := parse_phase1_profile source_profile_bytes in
  let? profile_bytes := read_plain (join_path root (p1_publication_profile review)) w in
  let? profile := parse_phase1_profile profile_bytes in
  Ok (review_bytes,
      {| pc_review := review; pc_source_profile := source_profile; pc_source_sha := hash_text source_profile_bytes;
         pc_profile := profile; pc_profile_bytes := profile_bytes; pc_scenarios := [] |},
      artifact ("../../../" +:+ p1_publication_profile review) "application/json" profile_bytes
        "Runnable artifact-resolved Phase 1 correctness profile.").

Definition with_scenarios (context : Phase1Context) (scenarios : list Phase1Scenario) : Phase1Context := {|
  pc_review := pc_review context; pc_source_profile := pc_source_profile context; pc_source_sha := pc_source_sha context;
  pc_profile := pc_profile context; pc_profile_bytes := pc_profile_bytes context; pc_scenarios := scenarios |}.

Definition render_phase1 (depth : nat) (root : string) (w : W) : option (result RenderedBundle Chain) :=
  match read_phase1_inputs root w with
  | Err e => Some (Err e)
  | Ok (review_bytes, context, profile_artifact) =>
      discovered ← discover_json depth w (join_path root (p1_evidence_directory (pc_review context)));
      let prepared :=
        let? discovered := discovered in
        let evidence_paths := sort_by path_cmp discovered in
        guard negb (len evidence_paths =? 25)%Z or ["Phase 1 evidence must contain exactly 25 transcripts"] in
        let? scenarios := collect_results (load_phase1_scenario root w) SCENARIO_FILES in
        Ok (evidence_paths, with_scenarios context scenarios) in
      match prepared with
      | Err e => Some (Err e)
      | Ok (evidence_paths, context) =>
          state ← add_phase1_results root context w {| st_seen := []; st_sources := []; st_results := [] |} evidence_paths;
          Some (let? state := state in conclude_phase1 root context review_bytes profile_artifact state)
      end
  end.

(** ** Checking and writing *)

(** [PathBuf]s of the entries of a directory that holds nothing but files. *)
Definition plain_entries (listed : list (result DirEntry string)) : result (list string) Chain :=
  collect_results (fun entry =>
    let? entry := map_err (fun e => [e]) entry in
    let? file_type := map_err (fun e => [e]) (entry_type entry) in
    guard match file_type with Regular => false | _ => true end or ["Phase 1 bundle contains a non-file entry"] in
    Ok (entry_name entry)) listed.

Definition same_paths (actual expected : list string) : bool :=
  bool_decide (path_parts <$> path_set actual = path_parts <$> path_set expected).

Definition check_rendered (rendered : RenderedBundle) (w : W) : result string Chain :=
  let output := rendered_output rendered in
  let? listed := map_err (fun e => [e]) (fs_read_dir output w) in
  let? actual := plain_entries listed in
  guard negb (same_paths actual (rendered_files rendered).*1) or ["Phase 1 bundle contains a missing or unexpected entry"] in
  check? check_all (fun '(relative, expected) =>
    let path := join_path output relative in
    let? bytes := read_plain path w in
    guard negb (bytes =? expected) or [path +:+ " differs from reviewed Phase 1 evidence"] in
    Ok tt) (rendered_files rendered) in
  let manifest := join_path output "manifest.json" in
  let? _ := load_bundle manifest w in
  Ok manifest.

Definition check_phase1_bundle (depth : nat) (root : string) (w : W) : option (result string Chain) :=
  rendered ← render_phase1 depth root w;
  Some (let? rendered := rendered in check_rendered rendered w).

Context `{FileCreation W}.

(** An outcome of [std::fs] through the question mark. *)
Definition plainly {A} (outcome : result A string * W) : result A Chain * W := (map_err (fun e => [e]) outcome.1, outcome.2).

Definition write_rendered (rendered : RenderedBundle) (w : W) : result unit Chain * W :=
  if fs_exists (rendered_output rendered) w
  then (Err ["refusing to replace existing Phase 1 bundle " +:+ rendered_output rendered], w)
  else
    step? _ with w := plainly (fs_create_dir (rendered_output rendered) w) in
    run_each (fun '(relative, bytes) w => plainly (fs_write (join_path (rendered_output rendered) relative) bytes w))
      (rendered_files rendered) w.

Definition write_phase1_bundle (depth : nat) (root : string) (w : W) : option (result string Chain * W) :=
  rendered ← render_phase1 depth root w;
  match rendered with
  | Err e => Some (Err e, w)
  | Ok rendered =>
      match write_rendered rendered w with
      | (Err e, w) => Some (Err e, w)
      | (Ok _, w) => checked ← check_phase1_bundle depth root w; Some (checked, w)
      end
  end.
End Rendering.

(** ** Checking a bundle never panics *)

Lemma length_len {A B} (l : list A) (k : list B) : len l = len k -> length l = length k.
Proof. unfold len. lia. Qed.

(** Distinct names found among as many values leave no value without a name. *)
Lemma all_named {A B} (key : A -> option B) `{EqDecision B} (names : list B) (values : list A) :
  NoDup names -> length values = length names -> (forall name, name ∈ names -> exists v, v ∈ values /\ key v = Some name) ->
  forall v, v ∈ values -> is_Some (key v).
Proof.
  intros Hnd Hlen Hfound v Hin.
  assert (Hperm : Some <$> names ≡ₚ key <$> values).
  { apply submseteq_length_Permutation; [|rewrite !length_fmap; lia]. apply NoDup_submseteq.
    - by apply NoDup_fmap_2; [apply _|].
    - intros o (name & -> & Hname)%list_elem_of_fmap. destruct (Hfound name Hname) as (v' & Hv' & <-). by apply list_elem_of_fmap_2. }
  assert (Hkey : key v ∈ Some <$> names) by (rewrite Hperm; by apply list_elem_of_fmap_2).
  apply list_elem_of_fmap in Hkey as (name & -> & _). by eexists.
Qed.

Section Assertions.
Context `{!FromValue AssertionOutcome}.

(** The assertions of a validated transcript are objects. *)
Lemma validated_objects transcript scenario observed :
  NoDup (spec_id <$> scen_assertions scenario) -> value_get "assertions" transcript ≫= as_array = Some observed ->
  validate_phase1_assertions transcript scenario = Ok tt -> is_Some (mapM with_evidence observed).
Proof.
  intros Hnd Hobserved. unfold validate_phase1_assertions. rewrite Hobserved. cbn [ok_or].
  intros [Hlen%negb_false_iff%Z.eqb_eq%length_len Hall%check_all_Ok]%guard_Ok. apply mapM_is_Some, Forall_forall. intros v Hv.
  destruct (all_named (fun v => value_get "assertion" v ≫= as_str) (spec_id <$> scen_assertions scenario) observed Hnd) with v as [name Hname].
  - by rewrite length_fmap.
  - intros id (spec & -> & Hspec)%list_elem_of_fmap. rewrite Forall_forall in Hall. specialize (Hall spec Hspec).
    unfold validate_phase1_assertion in Hall. apply bind_Ok in Hall as (v' & [Hv' Hid%bool_decide_eq_true]%ok_or_Ok%find_some & _).
    exists v'. split; [by apply list_elem_of_In|done].
  - done.
  - destruct v; try done. by eexists.
Qed.
End Assertions.

Section Facts.
Context `{UrlParser, Ledger.Sha256, ContractDecoders, !FromValue AssertionOutcome, !Phase1ReviewDecoder, !ToVecPretty Value}.
Context {W : Type} `{FileTree W}.

Lemma parsed_phase1_scenario bytes scenario : parse_phase1_scenario bytes = Ok scenario -> NoDup (spec_id <$> scen_assertions scenario).
Proof.
  unfold parse_phase1_scenario, phase1_parse. intros (document & [Hvalid _]%map_err_Ok_iff%parsed_contract_is_valid & Hs)%bind_Ok.
  destruct document as [s| | |]; try done. injection Hs as <-. by apply validate_scenario_wf, wf_assertion_ids in Hvalid.
Qed.

(** The scenarios are those of the files, with distinct assertions. *)
Definition scenarios_loaded (scenarios : list Phase1Scenario) : Prop :=
  ps_id <$> scenarios = SCENARIO_FILES.*1 /\
  Forall (fun s => scen_id (ps_scenario s) = ps_id s /\ NoDup (spec_id <$> scen_assertions (ps_scenario s))) scenarios.

(** A scenario is what its file under the root holds. *)
Record scenario_read (root : string) (w : W) (file : string * string) (s : Phase1Scenario) : Prop := {
  sr_id : ps_id s = file.1;
  sr_location : ps_location s = "scenarios/v1/" +:+ file.2;
  sr_bytes : fs_read (join_path root (ps_location s)) w = Ok (ps_bytes s);
  sr_parsed : parse_contract (ps_bytes s) = Ok (ScenarioDocument (ps_scenario s));
  sr_identity : scen_id (ps_scenario s) = file.1;
}.

Lemma load_phase1_scenario_Ok root w file s : load_phase1_scenario root w file = Ok s -> scenario_read root w file s.
Proof.
  unfold load_phase1_scenario. cbv zeta. intros (bytes & Hbytes%map_err_Ok_iff & Hs)%bind_Ok.
  apply bind_Ok in Hs as (scenario & Hscenario & Hs). apply guard_Ok in Hs as [Hid%negb_false_iff%String.eqb_eq [= <-]].
  unfold parse_phase1_scenario, phase1_parse in Hscenario. apply bind_Ok in Hscenario as (document & Hparse%map_err_Ok_iff & Hd).
  destruct document; try done. injection Hd as ->. by split.
Qed.

Lemma load_phase1_scenarios root w scenarios :
  collect_results (load_phase1_scenario root w) SCENARIO_FILES = Ok scenarios ->
  Forall2 (scenario_read root w) SCENARIO_FILES scenarios.
Proof. intros Hall%collect_results_Ok. eapply Forall2_impl; [exact Hall|]. apply load_phase1_scenario_Ok. Qed.

Lemma scenarios_read_loaded root w scenarios :
  Forall2 (scenario_read root w) SCENARIO_FILES scenarios -> scenarios_loaded scenarios.
Proof.
  unfold scenarios_loaded. intros Hall. induction Hall as [|file s files scenarios [Hid _ _ Hparse Hname] _ [IHids IHall]]; [done|].
  rewrite !fmap_cons, IHids, Hid. split; [done|]. constructor; [|done]. split; [congruence|].
  apply (parsed_phase1_scenario (ps_bytes s)). unfold parse_phase1_scenario, phase1_parse. by rewrite Hparse.
Qed.

(** A transcript names the version of the scenario, the source profile, and a
    component of the published profile with its name and version. *)
Definition transcript_identity (context : Phase1Context) (transcript : Value) (scenario : Scenario) (catalog : string) : Prop :=
  (exists version, integer transcript "/scenario/version" = Ok version /\ as_u32 version = scen_version scenario) /\
  (exists profile, json_pointer "/profile" transcript = Some profile /\
     profile_identity profile = Some (prof_id (pc_source_profile context))) /\
  exists component, component ∈ prof_components (pc_profile context) /\ comp_id component = catalog /\
    text transcript "/adapter/name" = Ok (comp_name component) /\
    text transcript "/adapter/version" = Ok (comp_version component).

Lemma admit_phase1_Ok context seen path w admitted :
  admit_phase1_transcript context seen path w = Ok admitted ->
  exists sanitized, validate_sanitization (at_value admitted) = Ok sanitized /\
    fs_read path w = Ok (at_bytes admitted) /\ from_slice (at_bytes admitted) = Ok (at_value admitted) /\
    text (at_value admitted) "/scenario/id" = Ok (ps_id (at_scenario admitted)) /\ at_scenario admitted ∈ pc_scenarios context /\
    text (at_value admitted) "/contract_digests/scenario_sha256" = Ok (hash_text (ps_bytes (at_scenario admitted))) /\
    text (at_value admitted) "/contract_digests/profile_sha256" = Ok (pc_source_sha context) /\
    text (at_value admitted) "/adapter/catalog" = Ok (at_catalog admitted) /\
    (ps_id (at_scenario admitted), at_catalog admitted) ∉ seen /\
    validate_phase1_assertions (at_value admitted) (ps_scenario (at_scenario admitted)) = Ok tt /\
    transcript_identity context (at_value admitted) (ps_scenario (at_scenario admitted)) (at_catalog admitted).
Proof.
  unfold admit_phase1_transcript. intros (bytes & Hbytes%map_err_Ok_iff & Ha)%bind_Ok.
  apply bind_Ok in Ha as (t & Ht%map_err_Ok_iff & Ha). apply check_Ok in Ha as [Hsan Ha].
  apply bind_Ok in Ha as (id & Hid & Ha). apply bind_Ok in Ha as (version & Hversion & Ha).
  apply bind_Ok in Ha as (found & [Hfound Heq%String.eqb_eq]%ok_or_Ok%find_some & Ha). cbv zeta in Ha.
  apply guard_Ok in Ha as [Hscenario%negb_false_iff%Z.eqb_eq Ha].
  apply bind_Ok in Ha as (sha & Hsha & Ha). apply guard_Ok in Ha as [->%negb_false_iff%String.eqb_eq Ha].
  apply bind_Ok in Ha as (psha & Hpsha & Ha). apply guard_Ok in Ha as [->%negb_false_iff%String.eqb_eq Ha].
  apply bind_Ok in Ha as (tp & Htp%ok_or_Ok & Ha). apply bind_Ok in Ha as (tpid & Htpid%ok_or_Ok & Ha).
  apply guard_Ok in Ha as [->%negb_false_iff%String.eqb_eq Ha].
  apply bind_Ok in Ha as (catalog & Hcatalog & Ha). apply guard_Ok in Ha as [Hnew%bool_decide_eq_false Ha].
  apply bind_Ok in Ha as (component & [Hcomponent Hkey]%ok_or_Ok%index_by_Some & Ha).
  apply bind_Ok in Ha as (name & Hname & Ha). apply guard_Ok in Ha as [->%negb_false_iff%String.eqb_eq Ha].
  apply bind_Ok in Ha as (v & Hv & Ha). apply guard_Ok in Ha as [->%negb_false_iff%String.eqb_eq Ha].
  apply check_Ok in Ha as [Hassertions [= <-]].
  subst id. exists tt. cbn. split_and!; try done; [by apply list_elem_of_In|].
  split; [by exists version|]. split; [by exists tp|]. by exists component.
Qed.

Lemma add_phase1_returns root context w state path :
  scenarios_loaded (pc_scenarios context) -> is_Some (add_phase1_result root context w state path).
Proof.
  intros [_ Hall]. unfold add_phase1_result. cbv zeta.
  match goal with |- is_Some (match ?a with _ => _ end) => destruct a as [[admitted source]|] eqn:Ha; [|by eexists] end.
  apply bind_Ok in Ha as (admitted' & Hadmitted & Ha). apply bind_Ok in Ha as (relative & _ & [= -> <-]).
  apply admit_phase1_Ok in Hadmitted as (_ & _ & _ & _ & _ & Hin & _ & _ & _ & _ & Hassertions & _).
  rewrite Forall_forall in Hall. apply Hall in Hin as [_ Hnd]. unfold result_value. cbv zeta.
  match goal with |- is_Some (mbind _ (match ?j with _ => _ end)) => destruct j as [[outcome assertions]|] eqn:Hj; [|by eexists] end.
  apply bind_Ok in Hj as (classification & _ & Hj). apply bind_Ok in Hj as (o & _ & Hj).
  apply bind_Ok in Hj as (observed & Hobserved%ok_or_Ok & [= -> ->]).
  destruct (validated_objects _ _ _ Hnd Hobserved Hassertions) as [judged ->]. by eexists.
Qed.

Lemma add_phase1_results_return root context w state paths :
  scenarios_loaded (pc_scenarios context) -> is_Some (add_phase1_results root context w state paths).
Proof.
  intros Hloaded. revert state. induction paths as [|path paths IH]; intros state; cbn [add_phase1_results]; [by eexists|].
  destruct (add_phase1_returns root context w state path Hloaded) as [[state'|e] ->]; cbn [mbind option_bind]; [apply IH|by eexists].
Qed.

Lemma discover_returns w height fuel directory :
  nested w height -> (height directory < fuel)%nat -> is_Some (discover_json fuel w directory).
Proof.
  intros Hnested. revert directory. induction fuel as [|fuel IH]; intros directory Hfuel; [lia|]. cbn [discover_json].
  destruct (fs_read_dir directory w) as [listed|] eqn:Hread; cbn [map_err]; [|by eexists].
  assert (Hall : forall entry, Ok entry ∈ listed -> entry_type entry = Ok Directory ->
    is_Some (discover_json fuel w (join_path directory (entry_name entry)))).
  { intros entry Hin Ht. apply IH. pose proof (Hnested _ _ _ Hread Hin Ht). lia. }
  clear Hread IH. generalize (@nil string) as paths.
  induction listed as [|[entry|e] listed IHl]; intros paths; cbn [visit_json]; [by eexists| |by eexists].
  assert (Hrest : forall paths, is_Some (visit_json (discover_json fuel w) directory paths listed))
    by (apply IHl; intros e Hin; apply Hall; by right).
  destruct (entry_type entry) as [[]|] eqn:Ht; [apply Hrest| |apply Hrest|by eexists].
  destruct (Hall entry ltac:(by left) Ht) as [[found|e] ->]; cbn [mbind option_bind]; [apply Hrest|by eexists].
Qed.

(** Checking the behavioral bundle returns: when directories are nested no
    deeper than the fuel the search for transcripts ends, and the assertions of an
    admitted transcript are always objects, so marking them with their evidence does
    not panic. *)
Theorem phase1_check_returns height depth root w :
  nested w height -> (forall directory, (height directory < depth)%nat) ->
  exists outcome, check_phase1_bundle depth root w = Some outcome.
Proof.
  intros Hnested Hdepth. unfold check_phase1_bundle, render_phase1.
  destruct (read_phase1_inputs root w) as [[[review_bytes context] profile_artifact]|e]; cbn [mbind option_bind]; [|by eexists].
  destruct (discover_returns w height depth (join_path root (p1_evidence_directory (pc_review context))) Hnested (Hdepth _)) as [found ->].
  cbn [mbind option_bind]. cbv zeta.
  match goal with |- context [match ?p with Ok _ => _ | Err _ => _ end] => destruct p as [[paths context']|] eqn:Hp; [|by eexists] end.
  apply bind_Ok in Hp as (discovered & _ & Hp). apply guard_Ok in Hp as [_ Hp].
  apply bind_Ok in Hp as (scenarios & Hloaded%load_phase1_scenarios%scenarios_read_loaded & [= <- <-]).
  destruct (add_phase1_results_return root (with_scenarios context scenarios) w
    {| st_seen := []; st_sources := []; st_results := [] |} (sort_by path_cmp discovered) Hloaded) as [state ->]. by eexists.
Qed.

(** ** What a checked bundle holds *)

Lemma member_insert_ne (key k : string) v entries : key <> k -> Json.member key (object_insert k v entries) = Json.member key entries.
Proof.
  intros Hne. induction entries as [|[k' v'] entries IH]; cbn [object_insert Json.member].
  - by destruct (String.eqb_spec key k).
  - destruct (String.compare k k') eqn:Hc; cbn [Json.member].
    + apply String.compare_eq_iff in Hc as <-. by destruct (String.eqb_spec key k).
    + by destruct (String.eqb_spec key k).
    + by rewrite IH.
Qed.

(** A transcript without raw material. *)
Definition no_raw_material (transcript : Value) : Prop :=
  exists entries, value_get "sanitization" transcript = Some (Object entries) /\
    forall key value, (key, value) ∈ entries -> starts_with "raw_" key = true -> as_bool value = Some false.

Lemma validate_sanitization_Ok transcript : validate_sanitization transcript = Ok tt -> no_raw_material transcript.
Proof.
  unfold validate_sanitization. intros (entries & Hentries%ok_or_Ok & [Hraw _]%guard_Ok)%bind_Ok. exists entries. split.
  - destruct (value_get "sanitization" transcript) as [[]|]; try done. by injection Hentries as ->.
  - intros key value Hin Hkey. destruct (decide (as_bool value = Some false)) as [|Hne]; [done|]. exfalso.
    apply not_true_iff_false in Hraw. apply Hraw, existsb_exists. exists (key, value).
    split; [by apply list_elem_of_In|]. by rewrite Hkey, bool_decide_eq_false_2.
Qed.

(** A result states the verdict and the assertions of its transcript, marked with
    their evidence. *)
Definition states_transcript (transcript value : Value) : Prop :=
  (exists classification status, json_pointer "/classification" transcript = Some classification /\
     text classification "/status" = Ok status /\ (status = "pass" \/ status = "fail") /\ text value "/outcome/status" = Ok status) /\
  exists observed judged, value_get "assertions" transcript = Some (Array observed) /\
    value_get "assertions" value = Some (Array judged) /\
    Forall2 (fun assertion marked => value_get "evidence" marked = Some (strings_json [PHASE1_EVIDENCE_ID]) /\
      forall key, key <> "evidence" -> value_get key marked = value_get key assertion) observed judged.

Lemma member_insert_eq (key : string) v entries : Json.member key (object_insert key v entries) = Some v.
Proof.
  induction entries as [|[k' v'] entries IH]; cbn [object_insert]; [cbn; by rewrite String.eqb_refl|].
  destruct (String.compare key k') eqn:Hc; cbn [Json.member]; [by rewrite String.eqb_refl..|].
  destruct (String.eqb_spec key k') as [->|]; [|done]. by rewrite cmp_refl in Hc by apply _.
Qed.

Lemma with_evidence_marks assertion marked :
  with_evidence assertion = Some marked ->
  value_get "evidence" marked = Some (strings_json [PHASE1_EVIDENCE_ID]) /\
  forall key, key <> "evidence" -> value_get key marked = value_get key assertion.
Proof.
  destruct assertion as [| | | | |entries]; try done. intros [= <-]. cbn [value_get]. split; [apply member_insert_eq|].
  intros key Hne. by apply member_insert_ne.
Qed.

Lemma phase1_outcome_Ok classification outcome :
  phase1_outcome classification = Ok outcome ->
  exists status, text classification "/status" = Ok status /\ (status = "pass" \/ status = "fail") /\
    value_get "status" outcome = Some (Str status).
Proof.
  unfold phase1_outcome. intros (status & Hstatus & Ho)%bind_Ok. exists status. split; [done|].
  destruct (String.eqb_spec status "pass") as [->|]; [injection Ho as <-; split; [by left|done]|].
  destruct (String.eqb_spec status "fail") as [->|]; [|done]. apply bind_Ok in Ho as (summary & _ & [= <-]). split; [by right|done].
Qed.

Lemma phase1_record_states review profile profile_bytes scenario scenario_bytes transcript source catalog outcome assertions value :
  phase1_record review profile profile_bytes scenario scenario_bytes transcript source catalog outcome assertions = Ok value ->
  value_get "outcome" value = Some outcome /\ value_get "assertions" value = Some (Array assertions).
Proof.
  unfold phase1_record. cbv zeta. intros (component & _ & Hr)%bind_Ok. apply bind_Ok in Hr as (format & _ & Hr).
  destruct (scen_id scenario =? _); [apply bind_Ok in Hr as (client & _ & Hr)|]; injection Hr as <-; split; reflexivity.
Qed.

Lemma result_value_states review profile profile_bytes scenario scenario_bytes transcript source catalog value :
  result_value review profile profile_bytes scenario scenario_bytes transcript source catalog = Some (Ok value) ->
  states_transcript transcript value.
Proof.
  unfold result_value. cbv zeta.
  match goal with |- match ?j with _ => _ end = _ -> _ => destruct j as [[outcome observed]|] eqn:Hj; [|done] end.
  intros (judged & Hjudged & [= Hvalue])%bind_Some. apply phase1_record_states in Hvalue as [Houtcome Hassertions].
  apply bind_Ok in Hj as (classification & Hclassification%ok_or_Ok & Hj).
  apply bind_Ok in Hj as (o & (status & Hstatus & Hcases & Ho)%phase1_outcome_Ok & Hj).
  apply bind_Ok in Hj as (l & Hl%ok_or_Ok & [= -> ->]). split.
  - exists classification, status. split_and!; [done|done|done|]. unfold text.
    change (json_pointer "/outcome/status" value) with (descend value "outcome" ≫= (fun v => descend v "status" ≫= Some)).
    destruct value as [| | | | |entries]; try done. cbn [value_get descend] in *. rewrite Houtcome. cbn [mbind option_bind].
    destruct outcome as [| | | | |members]; try done. cbn [value_get descend] in *. by rewrite Ho.
  - exists observed, judged. split_and!; [|done|].
    + destruct (value_get "assertions" transcript) as [[]|]; try done. by injection Hl as ->.
    + apply mapM_Some in Hjudged. eapply Forall2_impl; [exact Hjudged|]. intros a m. apply with_evidence_marks.
Qed.

(** A result names the scenario, the profile and the transcript by their digests. *)
Definition names_inputs (scenario : Scenario) (scenario_bytes : string) (profile : Profile) (profile_bytes catalog digest : string)
    (value : Value) : Prop :=
  text value "/scenario/id" = Ok (scen_id scenario) /\ text value "/scenario/digest/value" = Ok (hash_text scenario_bytes) /\
  text value "/profile/id" = Ok (prof_id profile) /\ text value "/profile/digest/value" = Ok (hash_text profile_bytes) /\
  text value "/catalog/profile_component" = Ok catalog /\ text value "/evidence/0/artifact/digest/value" = Ok digest.

Lemma result_value_names review profile profile_bytes scenario scenario_bytes transcript source catalog value :
  result_value review profile profile_bytes scenario scenario_bytes transcript source catalog = Some (Ok value) ->
  names_inputs scenario scenario_bytes profile profile_bytes catalog (digest_value (artifact_digest source)) value.
Proof.
  unfold result_value. cbv zeta.
  match goal with |- match ?j with _ => _ end = _ -> _ => destruct j as [[outcome observed]|]; [|done] end.
  intros (judged & _ & [= Hvalue])%bind_Some. unfold phase1_record in Hvalue. cbv zeta in Hvalue.
  apply bind_Ok in Hvalue as (component & Hcomponent & Hr). apply bind_Ok in Hr as (format & _ & Hr).
  unfold find_component in Hcomponent. apply ok_or_Ok, find_some in Hcomponent as [_ <-%String.eqb_eq].
  unfold names_inputs. destruct source as [location media_type digest bytes description extensions].
  destruct (scen_id scenario =? _); [apply bind_Ok in Hr as (client & _ & Hr)|]; injection Hr as <-;
    (split_and!; [reflexivity..|]); unfold artifact_json; destruct bytes, description, (bool_decide _); reflexivity.
Qed.

(** The transcript judges every assertion of the scenario, once, as required as it is. *)
Definition assertions_covered (transcript : Value) (scenario : Scenario) : Prop :=
  exists observed, value_get "assertions" transcript = Some (Array observed) /\
    length observed = length (scen_assertions scenario) /\
    forall spec, spec ∈ scen_assertions scenario ->
      exists assertion, assertion ∈ observed /\ value_get "assertion" assertion = Some (Str (spec_id spec)) /\
        value_get "required" assertion = Some (Bool (spec_required spec)).

Lemma validate_assertions_covered transcript scenario :
  validate_phase1_assertions transcript scenario = Ok tt -> assertions_covered transcript scenario.
Proof.
  unfold validate_phase1_assertions. intros (observed & Hobserved%ok_or_Ok & Hall)%bind_Ok.
  apply guard_Ok in Hall as [Hlen%negb_false_iff%Z.eqb_eq%length_len Hall%check_all_Ok]. exists observed.
  split; [destruct (value_get "assertions" transcript) as [[]|]; try done; by injection Hobserved as ->|].
  split; [done|]. intros spec Hspec. rewrite Forall_forall in Hall. specialize (Hall spec Hspec).
  unfold validate_phase1_assertion in Hall.
  apply bind_Ok in Hall as (assertion & [Hin Hid%bool_decide_eq_true]%ok_or_Ok%find_some & Hall).
  apply guard_Ok in Hall as [Hrequired%negb_false_iff%bool_decide_eq_true _].
  exists assertion. split; [by apply list_elem_of_In|]. split.
  - destruct (value_get "assertion" assertion) as [[]|]; try done. by injection Hid as ->.
  - destruct (value_get "required" assertion) as [[]|]; try done. by injection Hrequired as ->.
Qed.

(** A result rendered from the transcript in a file, for a scenario and a catalog. *)
Definition rendered_from (context : Phase1Context) (w : W) (path : string) (rendered : (string * string) * Phase1Result) : Prop :=
  let '(scenario_id, catalog, r) := rendered in
  exists bytes transcript scenario record,
    fs_read path w = Ok bytes /\ from_slice bytes = Ok transcript /\ no_raw_material transcript /\
    scenario ∈ pc_scenarios context /\ ps_id scenario = scenario_id /\
    text transcript "/scenario/id" = Ok scenario_id /\ text transcript "/adapter/catalog" = Ok catalog /\
    text transcript "/contract_digests/scenario_sha256" = Ok (hash_text (ps_bytes scenario)) /\
    text transcript "/contract_digests/profile_sha256" = Ok (pc_source_sha context) /\
    transcript_identity context transcript (ps_scenario scenario) catalog /\
    assertions_covered transcript (ps_scenario scenario) /\
    names_inputs (ps_scenario scenario) (ps_bytes scenario) (pc_profile context) (pc_profile_bytes context) catalog
      (hash_text bytes) (pr_value r) /\
    pr_file r = result_file scenario_id catalog /\ pretty_json (pr_value r) = Ok (pr_bytes r) /\
    parse_contract (pr_bytes r) = Ok (ResultDocument record) /\ validate record = Ok tt /\
    states_transcript transcript (pr_value r).

Lemma add_phase1_Ok root context w state path state' :
  add_phase1_result root context w state path = Some (Ok state') ->
  exists rendered, rendered_from context w path rendered /\ rendered.1 ∉ st_seen state /\
    st_seen state' = rendered.1 :: st_seen state /\ st_results state' = (st_results state ++ [rendered.2])%list.
Proof.
  unfold add_phase1_result. cbv zeta.
  match goal with |- match ?a with _ => _ end = _ -> _ => destruct a as [[admitted source]|] eqn:Ha; [|done] end.
  apply bind_Ok in Ha as (admitted' & Hadmitted & Ha). apply bind_Ok in Ha as (relative & _ & [= -> <-]).
  apply admit_phase1_Ok in Hadmitted as ([] & Hsan & Hread & Hparse & Hid & Hin & Hssha & Hpsha & Hcatalog & Hnew & Hassertions & Hidentity).
  intros (record & Hrecord & [= Hr])%bind_Some. apply bind_Ok in Hr as (value & -> & Hr). apply bind_Ok in Hr as (bytes & Hbytes & Hr).
  apply bind_Ok in Hr as (document & Hdocument%map_err_Ok_iff & Hr). apply guard_Ok in Hr as [Hkind [= <-]].
  destruct document as [|r| |]; try done. pose proof (parsed_contract_is_valid _ _ Hdocument) as [Hvalid _].
  exists ((ps_id (at_scenario admitted), at_catalog admitted),
          {| pr_file := result_file (ps_id (at_scenario admitted)) (at_catalog admitted); pr_bytes := bytes; pr_value := value |}).
  split; [|by split]. exists (at_bytes admitted), (at_value admitted), (at_scenario admitted), r.
  split_and!; try done;
    [by apply validate_sanitization_Ok|by apply validate_assertions_covered|by apply result_value_names in Hrecord
    |by eapply result_value_states].
Qed.

Lemma add_phase1_results_Ok root context w paths state state' :
  NoDup (st_seen state) -> add_phase1_results root context w state paths = Some (Ok state') ->
  exists rendered, Forall2 (rendered_from context w) paths rendered /\ NoDup (st_seen state') /\
    st_seen state' = (rev rendered.*1 ++ st_seen state)%list /\ st_results state' = (st_results state ++ rendered.*2)%list.
Proof.
  revert state. induction paths as [|path paths IH]; intros state Hnd; cbn [add_phase1_results].
  - intros [= <-]. exists []. split_and!; [constructor|done|done|]. by rewrite app_nil_r.
  - intros ([step|e] & Hstep & Hrest)%bind_Some; [|done]. apply add_phase1_Ok in Hstep as (r & Hr & Hnew & Hseen & Hresults).
    apply IH in Hrest as (rendered & Hall & Hnd' & Hseen' & Hresults'); [|rewrite Hseen; by constructor].
    exists (r :: rendered). split_and!; [by constructor|done| |].
    + rewrite Hseen', Hseen. cbn. by rewrite <-app_assoc.
    + rewrite Hresults', Hresults. cbn. by rewrite <-app_assoc.
Qed.

(** ** Files *)

Lemma result_file_inj i j c d :
  i ∈ SCENARIO_FILES.*1 -> j ∈ SCENARIO_FILES.*1 -> result_file i c = result_file j d -> i = j /\ c = d.
Proof.
  unfold result_file. cbn [fmap list_fmap SCENARIO_FILES fst]. rewrite !elem_of_cons, !elem_of_nil.
  intros Hi Hj Heq. assert (Hsame : i = j).
  { destruct Hi as [->|[->|[->|[->|[->|[]]]]]], Hj as [->|[->|[->|[->|[->|[]]]]]]; first [reflexivity|cbv in Heq; discriminate Heq]. }
  split; [exact Hsame|]. subst j. do 2 apply append_cancel_l in Heq. by apply json_name_inj in Heq.
Qed.

Lemma path_set_member paths path : path ∈ path_set paths -> path ∈ paths.
Proof.
  unfold path_set. rewrite elem_of_sort_by. assert (Hgen : forall acc, path ∈ foldl insert_path acc paths -> path ∈ acc \/ path ∈ paths).
  { induction paths as [|p paths IH]; intros acc; cbn [foldl]; [by left|]. intros [Hacc|Hin]%IH; [|by right; right].
    unfold insert_path in Hacc. destruct (existsb _ acc); [by left|]. apply elem_of_app in Hacc as [|Hp]; [by left|].
    apply list_elem_of_singleton in Hp as ->. right. by left. }
  intros [Hnil|Hin]%Hgen; [by apply elem_of_nil in Hnil|done].
Qed.

(** The paths of a list, as components. *)
Lemma path_set_parts paths parts : parts ∈ path_parts <$> path_set paths <-> parts ∈ path_parts <$> paths.
Proof.
  rewrite !list_elem_of_fmap. split.
  - intros (path & -> & Hin%path_set_member). by exists path.
  - intros (path & -> & (same & Hsame & Hparts)%path_set_covers). exists same. by rewrite Hparts.
Qed.

Lemma path_map_entries {V} (l : list (string * V)) :
  NoDup (path_parts <$> l.*1) -> forall entry, entry ∈ path_map l <-> entry ∈ l.
Proof.
  induction l as [|[path v] l IH] using rev_ind; intros Hnd entry; [done|].
  rewrite !fmap_app in Hnd. apply NoDup_app in Hnd as (Hnd & Hfresh & _). specialize (IH Hnd).
  unfold path_map. rewrite foldl_app. cbn [foldl fst snd]. fold (path_map l). rewrite path_insert_fresh.
  - rewrite IH, elem_of_app, list_elem_of_singleton. tauto.
  - unfold path_lookup. destruct (find _ (path_map l)) as [[p u]|] eqn:Hf; [|done]. exfalso.
    apply find_some in Hf as [Hin Hparts%bool_decide_eq_true]. cbn [fst] in Hparts. apply list_elem_of_In, IH in Hin.
    apply (Hfresh (path_parts p)); [|by rewrite Hparts; left].
    apply list_elem_of_fmap_2, (list_elem_of_fmap_2 fst _ (p, u)). exact Hin.
Qed.

(** The bundle that was generated: the results by their file names and the manifest. *)
Definition phase1_files (results : list Phase1Result) (manifest_bytes : string) : PathMap string :=
  path_insert "manifest.json" manifest_bytes
    (path_map ((fun r => (pr_file r, pr_bytes r)) <$> sort_by (cmp_on pr_file String.compare) results)).

(** The inputs of the rendering are what the files under the root hold: the admitted
    review, the source profile with the digest of its bytes, the published profile
    with its bytes, and the five canonical scenarios with theirs. *)
Record context_read (root : string) (w : W) (context : Phase1Context) : Prop := {
  cr_review : exists bytes, fs_read (join_path root PHASE1_REVIEW) w = Ok bytes /\
    decode_phase1_review bytes = Ok (pc_review context);
  cr_admitted : p1_format (pc_review context) = "catalog-bench/phase1-result-review/v1" /\
    p1_reviewed (p1_redaction (pc_review context)) = true;
  cr_source : exists bytes, fs_read (join_path root (p1_source_profile (pc_review context))) w = Ok bytes /\
    parse_contract bytes = Ok (ProfileDocument (pc_source_profile context)) /\ pc_source_sha context = hash_text bytes;
  cr_profile : fs_read (join_path root (p1_publication_profile (pc_review context))) w = Ok (pc_profile_bytes context) /\
    parse_contract (pc_profile_bytes context) = Ok (ProfileDocument (pc_profile context));
  cr_scenarios : Forall2 (scenario_read root w) SCENARIO_FILES (pc_scenarios context);
}.

Lemma parse_phase1_profile_Ok bytes profile :
  parse_phase1_profile bytes = Ok profile -> parse_contract bytes = Ok (ProfileDocument profile).
Proof.
  unfold parse_phase1_profile, phase1_parse. intros (document & Hparse%map_err_Ok_iff & Hd)%bind_Ok.
  destruct document; try done. by injection Hd as ->.
Qed.

Lemma read_phase1_context root w review_bytes context profile_artifact scenarios :
  read_phase1_inputs root w = Ok (review_bytes, context, profile_artifact) ->
  Forall2 (scenario_read root w) SCENARIO_FILES scenarios ->
  context_read root w (with_scenarios context scenarios) /\
  digest_value (artifact_digest profile_artifact) = hash_text (pc_profile_bytes context).
Proof.
  unfold read_phase1_inputs. intros (bytes & Hbytes%map_err_Ok_iff & Hr)%bind_Ok Hscenarios.
  apply bind_Ok in Hr as (review & Hreview%map_err_Ok_iff & Hr).
  apply guard_Ok in Hr as [[Hformat%negb_false_iff%String.eqb_eq Hreviewed%negb_false_iff]%orb_false_iff Hr].
  apply bind_Ok in Hr as (source_bytes & Hsource%map_err_Ok_iff & Hr).
  apply bind_Ok in Hr as (source & Hsource_profile%parse_phase1_profile_Ok & Hr).
  apply bind_Ok in Hr as (profile_bytes & Hprofile%map_err_Ok_iff & Hr).
  apply bind_Ok in Hr as (profile & Hprofile_parsed%parse_phase1_profile_Ok & [= <- <- <-]).
  split; [|done]. split; cbn; [by exists bytes|done|by exists source_bytes|done|done].
Qed.

(** The JSON files below a directory, at any depth. *)
Inductive json_below (w : W) (directory : string) : string -> Prop :=
| json_here listed entry kind :
    fs_read_dir directory w = Ok listed -> Ok entry ∈ listed -> entry_type entry = Ok kind -> kind <> Directory ->
    path_extension (join_path directory (entry_name entry)) = Some "json" ->
    json_below w directory (join_path directory (entry_name entry))
| json_deeper listed entry path :
    fs_read_dir directory w = Ok listed -> Ok entry ∈ listed -> entry_type entry = Ok Directory ->
    json_below w (join_path directory (entry_name entry)) path -> json_below w directory path.

(** The same, for one entry of the directory. *)
Definition json_of_entry (w : W) (directory : string) (entry : DirEntry) (path : string) : Prop :=
  let child := join_path directory (entry_name entry) in
  (exists kind, entry_type entry = Ok kind /\ kind <> Directory /\ path_extension child = Some "json" /\ path = child)
  \/ (entry_type entry = Ok Directory /\ json_below w child path).

Lemma json_below_entries w directory listed path :
  fs_read_dir directory w = Ok listed ->
  json_below w directory path <-> exists entry, Ok entry ∈ listed /\ json_of_entry w directory entry path.
Proof.
  intros Hlisted. split.
  - intros [listed' entry kind Hl Hin Ht Hk He|listed' entry path' Hl Hin Ht Hb];
      (rewrite Hlisted in Hl; injection Hl as <-); exists entry; split; try done; [left|right]; [by exists kind|done].
  - intros (entry & Hin & [(kind & Ht & Hk & He & ->)|[Ht Hb]]); [by eapply json_here|by eapply json_deeper].
Qed.

Lemma visit_json_found w (recurse : string -> option (result (list string) Chain)) directory listed paths found :
  (forall child inner, recurse child = Some (Ok inner) -> forall path, path ∈ inner <-> json_below w child path) ->
  visit_json recurse directory paths listed = Some (Ok found) ->
  forall path, path ∈ found <->
    path ∈ paths \/ exists entry, Ok entry ∈ listed /\ json_of_entry w directory entry path.
Proof.
  intros Hrecurse. assert (Hnext : forall entry rest path (P : Prop),
    (exists other, Ok other ∈ (Ok entry :: rest : list (result DirEntry string)) /\ json_of_entry w directory other path)
    <-> json_of_entry w directory entry path \/ exists other, Ok other ∈ rest /\ json_of_entry w directory other path).
  { intros entry rest path _. setoid_rewrite elem_of_cons. split.
    - intros (other & [[= ->]|Hin] & Ho); [by left|right; by exists other].
    - intros [Ho|(other & Hin & Ho)]; [exists entry; auto|exists other; auto]. }
  revert paths. induction listed as [|[entry|e] listed IH]; intros paths; cbn [visit_json]; [|cbv zeta|done].
  { intros [= <-] path. split; [by left|]. intros [|(entry & Hin & _)]; [done|by apply elem_of_nil in Hin]. }
  assert (Hfile : forall kind, entry_type entry = Ok kind -> kind <> Directory -> forall path,
    json_of_entry w directory entry path <-> path_extension (join_path directory (entry_name entry)) = Some "json" /\
      path = join_path directory (entry_name entry)).
  { intros kind Ht Hk path. unfold json_of_entry. rewrite Ht. split.
    - intros [(k & _ & _ & ? & ?)|[[= ?] _]]; [done|congruence].
    - intros [? ->]. left. by exists kind. }
  assert (Hplain : forall kind, entry_type entry = Ok kind -> kind <> Directory ->
    visit_json recurse directory (if bool_decide (path_extension (join_path directory (entry_name entry)) = Some "json")
      then (paths ++ [join_path directory (entry_name entry)])%list else paths) listed = Some (Ok found) ->
    forall path, path ∈ found <->
      path ∈ paths \/ exists other, Ok other ∈ Ok entry :: listed /\ json_of_entry w directory other path).
  { intros kind Ht Hk Hvisit path. rewrite (IH _ Hvisit), Hnext, (Hfile _ Ht Hk) by exact True.
    case_bool_decide; rewrite ?elem_of_app, ?list_elem_of_singleton; tauto. }
  destruct (entry_type entry) as [kind|] eqn:Ht; [|done].
  destruct kind; try (eapply Hplain; [reflexivity|done]).
  intros ([inner|e] & Hinner & Hvisit)%bind_Some; [|done]. intros path.
  rewrite (IH _ Hvisit), Hnext by exact True. rewrite elem_of_app, (Hrecurse _ _ Hinner).
  unfold json_of_entry at 2. rewrite Ht. split; [tauto|].
  intros [?|[[(k & [= <-] & ? & _)|[_ ?]]|?]]; [tauto|done|tauto|tauto].
Qed.

Lemma discover_json_found fuel w directory found :
  discover_json fuel w directory = Some (Ok found) -> forall path, path ∈ found <-> json_below w directory path.
Proof.
  revert directory found. induction fuel as [|fuel IH]; intros directory found; cbn [discover_json]; [done|].
  destruct (fs_read_dir directory w) as [listed|] eqn:Hlisted; cbn [map_err]; [|done].
  intros Hvisit path. rewrite (visit_json_found w _ _ _ _ _ IH Hvisit), (json_below_entries _ _ _ _ Hlisted).
  split; [intros [Hnil|]; [by apply elem_of_nil in Hnil|done]|by right].
Qed.

(** Twenty-five results, for distinct pairs of a scenario and a catalog, each rendered
    from one of the JSON files below the evidence directory of the review, which are
    as many; the inputs are those of the files. *)
Record complete_matrix (root : string) (context : Phase1Context) (w : W) (paths : list string)
    (rendered : list ((string * string) * Phase1Result)) : Prop := {
  cm_inputs : context_read root w context;
  cm_count : length rendered = 25%nat;
  cm_pairs : NoDup rendered.*1;
  cm_names : NoDup (pr_file <$> rendered.*2);
  cm_transcripts : forall path, path ∈ paths <->
    json_below w (join_path root (p1_evidence_directory (pc_review context))) path;
  cm_rendered : Forall2 (rendered_from context w) paths rendered;
}.

(** The manifest names the profiles by their digests. *)
Definition manifest_names (context : Phase1Context) (manifest_bytes : string) : Prop :=
  exists value manifest, pretty_json value = Ok manifest_bytes /\ parse_contract manifest_bytes = Ok (ManifestDocument manifest) /\
    text value "/profile/digest/value" = Ok (hash_text (pc_profile_bytes context)) /\
    text value "/extensions/querygraph~1source-profile/id" = Ok (prof_id (pc_source_profile context)) /\
    text value "/extensions/querygraph~1source-profile/sha256" = Ok (pc_source_sha context).

Lemma phase1_manifest_names context profile scenarios results sources :
  let value := phase1_manifest context profile scenarios results sources in
  text value "/profile/digest/value" = Ok (digest_value (artifact_digest profile)) /\
  text value "/extensions/querygraph~1source-profile/id" = Ok (prof_id (pc_source_profile context)) /\
  text value "/extensions/querygraph~1source-profile/sha256" = Ok (pc_source_sha context).
Proof.
  destruct profile as [location media_type digest bytes description extensions]. cbv zeta.
  split_and!; [|reflexivity..]. unfold phase1_manifest, artifact_json at 1.
  destruct bytes, description, (bool_decide _); reflexivity.
Qed.

Lemma render_phase1_Ok depth root w bundle :
  render_phase1 depth root w = Some (Ok bundle) ->
  exists context paths rendered manifest_bytes, complete_matrix root context w paths rendered /\
    manifest_names context manifest_bytes /\
    rendered_output bundle = join_path root (rb_output_directory (p1_bundle (pc_review context))) /\
    rendered_files bundle = phase1_files rendered.*2 manifest_bytes.
Proof.
  unfold render_phase1. destruct (read_phase1_inputs root w) as [[[review_bytes context] profile_artifact]|e] eqn:Hinputs; [|done].
  intros (discovered & Hdiscovered & Hr)%bind_Some. cbv zeta in Hr.
  match type of Hr with match ?p with _ => _ end = _ => destruct p as [[paths context']|] eqn:Hp; [|done] end.
  apply bind_Ok in Hp as (found & -> & Hp). apply guard_Ok in Hp as [_ Hp].
  apply bind_Ok in Hp as (scenarios & Hscenarios%load_phase1_scenarios & [= <- <-]).
  pose proof (scenarios_read_loaded _ _ _ Hscenarios) as Hloaded.
  destruct (read_phase1_context _ _ _ _ _ _ Hinputs Hscenarios) as [Hcontext Hdigest].
  apply bind_Some in Hr as (outcome & Hresults & [= Hr]). apply bind_Ok in Hr as (state & -> & Hr).
  apply add_phase1_results_Ok in Hresults as (rendered & Hall & Hnd & Hseen & Hstate); [|constructor].
  cbn [st_seen st_results] in *. rewrite app_nil_r in Hseen. rewrite Hseen in Hnd. cbn in Hstate.
  unfold conclude_phase1 in Hr. cbv zeta in Hr. apply guard_Ok in Hr as [Hcount%negb_false_iff%Z.eqb_eq Hr].
  apply bind_Ok in Hr as (manifest_bytes & Hmanifest & Hr). apply bind_Ok in Hr as (document & Hdocument%map_err_Ok_iff & Hr).
  apply guard_Ok in Hr as [Hkind [= <-]].
  exists (with_scenarios context scenarios), (sort_by path_cmp found), rendered, manifest_bytes.
  split; [|split; [|split; [done|cbn; by rewrite Hstate]]].
  2: { destruct document as [| | |manifest]; try done. eexists _, manifest. split; [exact Hmanifest|]. split; [done|].
       change (pc_profile_bytes (with_scenarios context scenarios)) with (pc_profile_bytes context).
       rewrite <-Hdigest. apply phase1_manifest_names. }
  rewrite <-Permutation_rev in Hnd. rewrite Hseen in Hcount. unfold len in Hcount. rewrite length_rev, length_fmap in Hcount.
  split; [done|lia|done| | |exact Hall].
  2: { intros path. rewrite elem_of_sort_by. by eapply discover_json_found. }
  apply NoDup_alt. intros a b file Ha Hb. rewrite !list_lookup_fmap in Ha, Hb.
  destruct (rendered !! a) as [[[i c] r]|] eqn:Hra; [|done]. destruct (rendered !! b) as [[[j d] s]|] eqn:Hrb; [|done].
  cbn in Ha, Hb. injection Ha as <-. injection Hb as Hfile.
  destruct (Forall2_lookup_r _ _ _ _ _ Hall Hra) as (pa & _ & _ & _ & sa & _ & _ & _ & _ & Hina & <- & _ & _ & _ & _ & _ & _ & _ & Hfa & _).
  destruct (Forall2_lookup_r _ _ _ _ _ Hall Hrb) as (pb & _ & _ & _ & sb & _ & _ & _ & _ & Hinb & <- & _ & _ & _ & _ & _ & _ & _ & Hfb & _).
  rewrite Hfa, Hfb in Hfile. destruct Hloaded as [Hids _].
  apply result_file_inj in Hfile as [Hid ->]; [|rewrite <-Hids; by apply list_elem_of_fmap_2..].
  apply (NoDup_lookup rendered.*1 a b (ps_id sa, c)); [done|..]; rewrite list_lookup_fmap; [by rewrite Hra|rewrite Hrb; cbn; by rewrite Hid].
Qed.

(** The results of a matrix whose file names are distinct as paths are all among its files. *)
Lemma matrix_files results manifest_bytes r :
  NoDup (path_parts <$> ("manifest.json" :: (pr_file <$> results))) -> r ∈ results ->
  (pr_file r, pr_bytes r) ∈ phase1_files results manifest_bytes.
Proof.
  rewrite fmap_cons, NoDup_cons. intros [Hmanifest Hnd] Hin. unfold phase1_files.
  set (sorted := sort_by (cmp_on pr_file String.compare) results).
  assert (Hnames : ((fun r => (pr_file r, pr_bytes r)) <$> sorted).*1 = pr_file <$> sorted) by (by rewrite <-list_fmap_compose).
  assert (Hentries : forall entry, entry ∈ path_map ((fun r => (pr_file r, pr_bytes r)) <$> sorted)
    <-> entry ∈ (fun r => (pr_file r, pr_bytes r)) <$> sorted).
  { apply path_map_entries. rewrite Hnames. unfold sorted. by rewrite sort_by_perm. }
  rewrite path_insert_fresh.
  - right. apply Hentries. apply (list_elem_of_fmap_2 (fun r => (pr_file r, pr_bytes r))). unfold sorted. by apply elem_of_sort_by.
  - unfold path_lookup. destruct (find _ (path_map _)) as [[p u]|] eqn:Hf; [|done]. exfalso.
    apply find_some in Hf as [Hp Hparts%bool_decide_eq_true]. apply list_elem_of_In, Hentries, list_elem_of_fmap in Hp as (s & [= -> _] & Hs).
    apply Hmanifest. cbn [fst] in Hparts. rewrite <-Hparts. apply list_elem_of_fmap_2, list_elem_of_fmap_2. unfold sorted in Hs. by apply elem_of_sort_by in Hs.
Qed.
Lemma plain_entries_Ok listed names :
  plain_entries listed = Ok names ->
  Forall2 (fun entry name => exists e, entry = Ok e /\ entry_type e = Ok Regular /\ name = entry_name e) listed names.
Proof.
  intros Hall%collect_results_Ok. eapply Forall2_impl; [exact Hall|]. intros entry name (e & ->%map_err_Ok_iff & He)%bind_Ok.
  apply bind_Ok in He as (t & Ht%map_err_Ok_iff & He). apply guard_Ok in He as [Hkind [= <-]]. exists e. by destruct t.
Qed.

(** C31: A behavioral bundle that checks holds exactly the files of a complete
    matrix, recomputed from the files under the root: the admitted review, the source
    profile, the published profile and the five canonical scenarios. Its transcripts
    are the JSON files below the review's evidence directory; there are twenty-five
    results, for distinct pairs of a scenario and a catalog and under distinct file
    names, each rendered from one transcript that persists no raw material, that
    carries the digests of the scenario's file and of the source profile's file, and
    that judges every assertion of that scenario; the result states the transcript's
    verdict and assertions and the digests of the scenario, of the published profile
    and of the transcript. The entries of the review's output directory are regular
    files with the paths of the generated ones, and every generated file reads back,
    so every result does whose file name is also a path of its own. *)
Theorem checked_phase1_bundle_is_the_matrix depth root w manifest :
  check_phase1_bundle depth root w = Some (Ok manifest) ->
  exists context paths rendered manifest_bytes listed,
    let output := join_path root (rb_output_directory (p1_bundle (pc_review context))) in
    let files := phase1_files rendered.*2 manifest_bytes in
    complete_matrix root context w paths rendered /\ manifest_names context manifest_bytes /\
    fs_read_dir output w = Ok listed /\
    (forall entry, entry ∈ listed -> exists e, entry = Ok e /\ entry_type e = Ok Regular) /\
    (forall parts, (exists e, Ok e ∈ listed /\ parts = path_parts (entry_name e)) <-> parts ∈ path_parts <$> files.*1) /\
    (forall file bytes, (file, bytes) ∈ files -> fs_read (join_path output file) w = Ok bytes) /\
    (NoDup (path_parts <$> ("manifest.json" :: (pr_file <$> rendered.*2))) ->
     forall r, r ∈ rendered.*2 -> fs_read (join_path output (pr_file r)) w = Ok (pr_bytes r)) /\
    manifest = join_path output "manifest.json" /\ is_ok (load_bundle manifest w) = true.
Proof.
  unfold check_phase1_bundle. intros (outcome & Hrendered & [= Hc])%bind_Some. apply bind_Ok in Hc as (bundle & -> & Hc).
  apply render_phase1_Ok in Hrendered as (context & paths & rendered & manifest_bytes & Hmatrix & Hnames_profiles & Houtput & Hfiles).
  unfold check_rendered in Hc. cbv zeta in Hc. rewrite Hfiles in Hc. apply bind_Ok in Hc as (listed & Hlisted%map_err_Ok_iff & Hc).
  apply bind_Ok in Hc as (names & Hnames%plain_entries_Ok & Hc).
  apply guard_Ok in Hc as [Hsame%negb_false_iff%bool_decide_eq_true Hc]. apply check_Ok in Hc as [Hread%check_all_Ok Hc].
  apply bind_Ok in Hc as (loaded & Hloaded & [= <-]).
  exists context, paths, rendered, manifest_bytes, listed. cbv zeta. rewrite <-Houtput.
  assert (Hback : forall file bytes, (file, bytes) ∈ phase1_files rendered.*2 manifest_bytes ->
    fs_read (join_path (rendered_output bundle) file) w = Ok bytes).
  { intros file bytes Hin. rewrite Forall_forall in Hread. specialize (Hread _ Hin). cbv zeta beta iota in Hread.
    apply bind_Ok in Hread as (actual & Hread%map_err_Ok_iff & Hg). by apply guard_Ok in Hg as [->%negb_false_iff%String.eqb_eq _]. }
  split_and!; [done|done|done|..|exact Hback|intros Hnd r Hin; by apply Hback, matrix_files|done|by rewrite Hloaded].
  - intros entry [i Hi]%list_elem_of_lookup. destruct (Forall2_lookup_l _ _ _ _ _ Hnames Hi) as (name & _ & e & -> & He & _). by exists e.
  - intros parts. rewrite <-(path_set_parts (phase1_files rendered.*2 manifest_bytes).*1), <-Hsame, path_set_parts, list_elem_of_fmap. split.
    + intros (e & [i Hi]%list_elem_of_lookup & ->). destruct (Forall2_lookup_l _ _ _ _ _ Hnames Hi) as (name & Hname & e' & [= <-] & _ & ->).
      eexists. split; [done|]. by eapply list_elem_of_lookup_2.
    + intros (name & -> & [i Hi]%list_elem_of_lookup). destruct (Forall2_lookup_r _ _ _ _ _ Hnames Hi) as (entry & Hentry & e & -> & _ & ->).
      exists e. split; [by eapply list_elem_of_lookup_2|done].
Qed.

End Facts.

(** ** The recomputed bundles of a full publication *)

Section Publication.
Context `{UrlParser, Ledger.Sha256, ContractDecoders, FloatDisplay, DebugMetric} {W : Type} `{FileTree W}.
Context `{!TsvReader SummaryRow, !TsvReader RunRow, !TsvReader AuditRow, !ToVecPretty ResultRecord, !ToVecPretty ResultBundleManifest}.
Context `{!Serialize Transcript, ParametersDecoder, CanonicalScenario, !ContentionTranscriptDecoder, !ContentionReviewDecoder}.
Context `{!FromValue AssertionOutcome, !Phase1ReviewDecoder, !ToVecPretty Value} (depth : nat).

(** What the publication calls; the search for transcripts has [depth] as fuel, and
    with enough of it the last case does not occur ([phase1_check_returns]). *)
#[export] Instance recomputed_bundles : SourceBackedBundles W := {
  CommunityPublication.check_historical_commit_bundle root w := result_map (fun _ => tt) (LegacyCommit.check_historical_commit_bundle root w);
  check_contention_result_bundle root w := result_map (fun _ => tt) (check_contention_bundle root w);
  check_phase1_result_bundle root w :=
    match check_phase1_bundle depth root w with
    | Some outcome => result_map (fun _ => tt) outcome
    | None => Err ["no result"]
    end;
}.

(** A full publication checks exactly when its three recomputed bundles do and
    everything else of it does. *)
Theorem full_publication_is_recomputed root w :
  check_publication root Full w = Ok tt <->
  is_ok (LegacyCommit.check_historical_commit_bundle root w) = true /\ is_ok (check_contention_bundle root w) = true /\
  (exists manifest, check_phase1_bundle depth root w = Some (Ok manifest)) /\ check_publication root Smoke w = Ok tt.
Proof.
  unfold check_publication. cbn [CommunityPublication.check_historical_commit_bundle check_contention_result_bundle check_phase1_result_bundle recomputed_bundles].
  destruct (LegacyCommit.check_historical_commit_bundle root w), (check_contention_bundle root w),
    (check_phase1_bundle depth root w) as [[manifest|]|]; cbn [result_map is_ok];
    (split; [intros Hok|intros (Hhistorical & Hcontention & (path & Hpath) & Hrest)]); try done.
  split_and!; [done|done|by eexists|exact Hok].
Qed.
End Publication.
