(* ===== verification/EngineSamples.v ===== *)
(** * A laboratory for the stock engines (test instances, no source)

    The canonical interoperability scenario, a profile with one stock engine, and
    concrete instances of the interfaces the engine crate calls: a file system
    whose files hold their own path, a catalog and a child process that play back
    scripts, and JSON texts that name the document they stand for. *)

From S2P Require Import Prelude Order RustStr Json ContractValue ContractScenario ContractAdapter ContractProfile.
From S2P Require Import ContractResult ContractDocument Sanitization Ledger Policy Transport Sanitize Capture Routing.
From S2P Require Import Connection Store SampleWorld Samples EngineParameters EnginePlan EnginePlanProofs EngineSql.
From S2P Require Import EngineRuntime EngineEvents EngineCatalog EngineWorkflow EngineProcess EngineTrino.
From S2P Require Import EngineDecode EngineDuckDb EngineTrinoProcess EngineAdapters EngineTranscript.
From S2P Require Import EngineTranscriptProofs.
From Stdlib Require Import Ascii.
Open Scope string_scope.

(** ** The canonical scenario
       (scenarios/v1/engine.iceberg.write-read-evolution.v2.json) *)

Definition canonical_parameters : EngineScenarioParameters := {|
  sp_catalog_protocol := IcebergRestV1;
  sp_engine_policy := {|
    ep_catalog_specific_branches := Forbidden; ep_catalog_specific_shims := Forbidden;
    ep_connector := StockProfileComponent; ep_syntax_rendering := EngineSpecificButCatalogNeutral;
    ep_unsupported := ClassifyBeforeMutationWithoutASubstituteRequest |};
  sp_fixture_prefix := "cb_c201";
  sp_table := {|
    tp_file_format := Parquet; tp_format_version := 2;
    tp_properties := list_to_map [("catalog-bench.owner", "catalog-bench");
      ("write.metadata.delete-after-commit.enabled", "false"); ("write.metadata.previous-versions-max", "100000")];
    tp_schema := {| is_schema_id := 0; is_schema_type := Struct; is_fields := [
      {| if_id := 1; if_name := "id"; if_required := true; if_type := Long |};
      {| if_id := 2; if_name := "category"; if_required := false; if_type := IcebergString |};
      {| if_id := 3; if_name := "amount_cents"; if_required := true; if_type := Long |}] |} |};
  sp_schema_evolution := {|
    se_field := {| ef_name := "note"; ef_required := false; ef_type := IcebergString |};
    se_preserve_existing_field_ids := true |};
  sp_row_generator := {| rg_amount_cents := Affine 100 7; rg_category := ModuloLabel 4 "category-";
                         rg_note := IdLabel "evolved-" |};
  sp_batches := {| bs_initial := {| bp_id_start := 0; bp_rows := 16 |};
                   bs_evolved := {| bp_id_start := 16; bp_rows := 4 |} |};
  sp_canonical_reads := {|
    creads_encoding := CompactRfc8259JsonArrayPerRowUtf8Lf;
    creads_initial := {| cread_bytes := 346; cread_columns := ["id"; "category"; "amount_cents"]; cread_rows := 16;
      cread_sha256 := "e78b526d7e757090a9a90c80802c2a543cbf8166cfac6d6ed48c618926e85a15" |};
    creads_order_by := ["id"];
    creads_after_evolution := {| cread_bytes := 570; cread_columns := ["id"; "category"; "amount_cents"; "note"];
      cread_rows := 20; cread_sha256 := "b2af6f475851e07d1ace3706d8867530c13dd5938bee90cfcc62d3939e01bea2" |};
    creads_trailing_lf := true |};
  sp_object_audit := {| oa_minimum_metadata_objects := 4; oa_minimum_parquet_objects := 2;
                        oa_scope := ReturnedTableRootInProfileSharedObjectStore |};
  sp_transcript_format := ENGINE_TRANSCRIPT_FORMAT;
|}.

Definition lab_scenario : Scenario := {|
  scen_contract_version := scen_contract_version sample_scenario; scen_kind := scen_kind sample_scenario;
  scen_id := ENGINE_SCENARIO_ID; scen_version := ENGINE_SCENARIO_VERSION; scen_title := "Engines";
  scen_description := "Round trip"; scen_family := ClientInteroperability; scen_classification := StrictV1;
  scen_tags := []; scen_capabilities := scen_capabilities sample_scenario; scen_parameters := ∅;
  scen_steps := scen_steps sample_scenario;
  scen_assertions := (fun id => {| spec_id := id; spec_step := "commit"; spec_required := true; spec_description := id;
                                   spec_check := NoRequestErrors |})
    <$> ["engine-runtime-pinned"; "catalog-state-correlated"; "fixture-clean"; "transcript-sanitized"];
  scen_extensions := ∅ |}.

#[export] Instance lab_parameters : EngineParametersDecoder := fun _ => Ok canonical_parameters.
#[export] Instance lab_canonical : CanonicalEngineScenario := "scenario".
#[export] Instance lab_decoders : ContractDecoders := {
  from_slice text := Ok (json_object [("kind", Str text)]);
  from_value_scenario _ := Ok lab_scenario;
  from_value_result _ := Err "no result";
  from_value_profile _ := Err "no profile";
  from_value_manifest _ := Err "no manifest";
}.

(** ** Files and images *)

(** Every file holds its own path. *)
#[export] Instance lab_files : FileSystem := {
  file_metadata path := Ok true;
  open_file path := Some [Some (RustStr.bytes path); Some []];
}.

Definition image_file (location media_type : string) : ArtifactReference := {|
  artifact_location := "image:" +:+ location; artifact_media_type := media_type;
  artifact_digest := {| digest_algorithm := ContractValue.Sha256; digest_value := sha256_hex (RustStr.bytes location) |};
  artifact_bytes := Some (str_len location); artifact_description := None; artifact_extensions := ∅ |}.

Definition script : string := "application/x-shellscript".
Definition elf : string := "application/vnd.elf".
Definition jar : string := "application/java-archive".
Definition iceberg_jar : ArtifactReference := image_file "/opt/iceberg-runtime.jar" jar.
Definition runner_elf : ArtifactReference := image_file ENGINE_RUNNER_LOCATION elf.

Definition lab_component (id : string) (kind : ComponentKind) (name version : string) (source : option SourceRevision)
    (files : list ArtifactReference) : Component := {|
  comp_id := id; comp_kind := kind; comp_name := name; comp_version := version; comp_source := source;
  comp_build := None; comp_artifact := ContainerImage "image" PlatformManifest sample_digest None files;
  comp_extensions := ∅ |}.

(** An engine: its name and version, its connector, and the files of its image. *)
Record LabEngine := {
  le_name : string; le_version : string;
  le_connector : string; le_connector_version : string;
  le_files : list ArtifactReference;
  le_runner_files : list ArtifactReference;
}.

Definition spark_engine : LabEngine := {|
  le_name := SPARK_COMPONENT_NAME; le_version := SPARK_COMPONENT_VERSION;
  le_connector := ICEBERG_CONNECTOR_NAME; le_connector_version := ICEBERG_CONNECTOR_VERSION;
  le_files := [image_file SPARK_SUBMIT_LOCATION script]; le_runner_files := [runner_elf] |}.
Definition flink_engine : LabEngine := {|
  le_name := FLINK_COMPONENT_NAME; le_version := FLINK_COMPONENT_VERSION;
  le_connector := ICEBERG_CONNECTOR_NAME; le_connector_version := ICEBERG_CONNECTOR_VERSION;
  le_files := [image_file FLINK_CLI_LOCATION script];
  le_runner_files := [runner_elf; image_file FLINK_RUNNER_LOCATION jar] |}.
Definition trino_engine : LabEngine := {|
  le_name := TRINO_COMPONENT_NAME; le_version := TRINO_COMPONENT_VERSION;
  le_connector := ICEBERG_CONNECTOR_NAME; le_connector_version := ICEBERG_CONNECTOR_VERSION;
  le_files := [image_file TRINO_SERVER_LOCATION script; image_file TRINO_LAUNCHER_LOCATION script;
               image_file TRINO_NATIVE_LAUNCHER_LOCATION elf; image_file TRINO_CLI_LOCATION jar];
  le_runner_files := [runner_elf] |}.
Definition duckdb_engine : LabEngine := {|
  le_name := DUCKDB_COMPONENT_NAME; le_version := DUCKDB_COMPONENT_VERSION;
  le_connector := DUCKDB_CONNECTOR_NAME; le_connector_version := DUCKDB_CONNECTOR_VERSION;
  le_files := [image_file DUCKDB_CLI_LOCATION elf]; le_runner_files := [runner_elf] |}.

Definition engine_image (engine : LabEngine) : Component :=
  lab_component "engine" Engine (le_name engine) (le_version engine) None
    (le_files engine ++ [iceberg_jar] ++ le_runner_files engine)%list.
Definition connector_image (engine : LabEngine) : Component :=
  lab_component "connector" Connector (le_connector engine) (le_connector_version engine) None [iceberg_jar].
Definition runner_image (engine : LabEngine) : Component :=
  lab_component ENGINE_RUNNER_COMPONENT_ID BenchmarkHarness "runner" sample_revision
    (Some {| source_repository := "repo"; source_revision := sample_revision; source_tag := None;
             source_extensions := ∅ |}) (le_runner_files engine).

Definition lab_profile (engine : LabEngine) : Profile := {|
  prof_contract_version := V1; prof_kind := ProfileKind; prof_id := "engines"; prof_title := "Engines";
  prof_description := "One engine"; prof_resolved_at := "2025-01-01"; prof_purpose := Conformance;
  prof_readiness := Runnable;
  prof_platform := {|
    plat_operating_system := "Linux"; plat_architecture := "aarch64"; plat_mode := DockerCompose;
    plat_container_runtime := None; plat_network := "bridge"; plat_shared_object_store := "minio";
    plat_warehouse_uri := "s3://b"; plat_extensions := ∅ |};
  prof_components := [
    sample_component "alpha" Catalog None "1"; sample_component "minio" ObjectStore None "3";
    engine_image engine; connector_image engine; runner_image engine];
  prof_services := [
    sample_service "alpha" "iceberg-rest-catalog" "http://alpha" ∅;
    sample_service "engine" "stock-engine" "http://engine" ∅;
    sample_service "connector" "engine-connector" "http://connector" ∅;
    sample_service ENGINE_RUNNER_COMPONENT_ID ENGINE_RUNNER_ROLE "http://runner" ∅;
    sample_service "minio" "shared-object-store" "http://minio"
      (<["bucket" := Str "b"]> (<["region" := Str "r"]> {["path_style_access" := Bool true]}))];
  prof_catalog_capabilities := [{| cap_id := "commit"; cap_description := "commits"; cap_specification := None |}];
  prof_catalog_adapters := [sample_adapter "alpha" "http://alpha" Anonymous ExerciseAll];
  prof_extensions := ∅ |}.

Definition lab_contracts (engine : LabEngine) : EngineContracts := {|
  ecs_profile := lab_profile engine; ecs_scenario := lab_scenario;
  ecs_digests := {| profile_sha256 := "p"; scenario_sha256 := "s" |} |}.

(** The plan of an engine, or an arbitrary one when there is none. *)
Definition lab_plan_of (engine : LabEngine) : option InteroperabilityPlan :=
  match contracts_plan (lab_contracts engine) "alpha" "run1" with Ok plan => Some plan | Err _ => None end.

Example lab_plans_made :
  (fun engine => EnginePlanProofs.launcher <$> (plan_execution <$> lab_plan_of engine))
    <$> [spark_engine; flink_engine; trino_engine; duckdb_engine]
  = [Some (SPARK_SUBMIT_LOCATION, script); Some (FLINK_CLI_LOCATION, script); Some (TRINO_SERVER_LOCATION, script);
     Some (DUCKDB_CLI_LOCATION, elf)].
Proof. vm_compute. reflexivity. Qed.

(** ** The canonical reads *)

(** Compact JSON of the values a row holds. *)
Definition lab_value (value : Value) : string :=
  match value with
  | Null => "null"
  | Num (PosInt n) => display n
  | Str s => String "034" (s +:+ String "034" "")
  | _ => "?"
  end.

#[export] Instance lab_writer : ValuesWriter := fun values =>
  Some (RustStr.bytes ("[" +:+ String.concat "," (lab_value <$> values) +:+ "]")).

(** The rows a read returns, in the order of their ids. *)
Definition canonical_texts (parameters : EngineScenarioParameters) (evolved : bool) : list string :=
  let generator := sp_row_generator parameters in
  let batches := sp_batches parameters in
  let initial := default [] ∘ initial_row_texts generator <$> seqZ (bp_id_start (bs_initial batches)) (bp_rows (bs_initial batches)) in
  if evolved
  then (omap (fun texts => texts !! 1%nat) initial
        ++ omap (evolved_row_text generator) (seqZ (bp_id_start (bs_evolved batches)) (bp_rows (bs_evolved batches))))%list
  else omap (fun texts => texts !! 0%nat) initial.

Definition text_bytes (texts : list string) : Z := foldr (fun text total => str_len text + 1 + total)%Z 0%Z texts.

(** The canonical scenario promises as many bytes and rows as its generator gives. *)
Example canonical_reads_match_the_generator :
  let reads := sp_canonical_reads canonical_parameters in
  (len (canonical_texts canonical_parameters false), text_bytes (canonical_texts canonical_parameters false))
    = (cread_rows (creads_initial reads), cread_bytes (creads_initial reads)) /\
  (len (canonical_texts canonical_parameters true), text_bytes (canonical_texts canonical_parameters true))
    = (cread_rows (creads_after_evolution reads), cread_bytes (creads_after_evolution reads)).
Proof. vm_compute. split; reflexivity. Qed.

(** ** The world *)

(** The catalog's answers, the children's outputs and the answers of the DuckDB
    command line still to come, and the time. *)
Record Lab := {
  lab_answers : list HttpResponse;
  lab_children : list ChildRun;
  lab_queries : list (option (bool * list ascii));
  lab_time : Z;
}.

#[export] Instance lab_catalog : HttpClient Lab := fun _ lab =>
  match lab_answers lab with
  | [] => (Err {| send_is_timeout := false; send_text := "connection refused" |}, lab)
  | response :: answers => (Ok response, {| lab_answers := answers; lab_children := lab_children lab;
                                            lab_queries := lab_queries lab; lab_time := lab_time lab |})
  end.

#[export] Instance lab_commands : Commands Lab := fun _ lab =>
  match lab_children lab with
  | [] => (None, lab)
  | child :: children => (Some child, {| lab_answers := lab_answers lab; lab_children := children;
                                         lab_queries := lab_queries lab; lab_time := lab_time lab |})
  end.

#[export] Instance lab_duckdb : DuckDb.DuckDbCli Lab := fun _ lab =>
  match lab_queries lab with
  | [] => (None, lab)
  | answer :: queries => (answer, {| lab_answers := lab_answers lab; lab_children := lab_children lab;
                                     lab_queries := queries; lab_time := lab_time lab |})
  end.

#[export] Instance lab_staging : Staging Lab := {
  make_tempdir prefix lab := (Some ("/tmp/" +:+ prefix +:+ "1"), lab);
  write_file _ _ lab := (true, lab);
  create_dir _ lab := (true, lab);
}.
#[export] Instance lab_private : PrivateFiles Lab := {
  set_private _ lab := (true, lab); create_new_file _ lab := (true, lab); write_and_sync _ _ lab := (true, lab);
}.

(** Four metadata and two data objects below every root; a read gives a text that
    names the object. *)
#[export] Instance lab_objects : ObjectStoreClient Lab := {
  store_list root lab :=
    ((((fun i : Z => Ok {| om_location := root +:+ "/metadata/" +:+ display i +:+ ".metadata.json"; om_size := 100 |})
        <$> seqZ 0 5)
      ++ ((fun i : Z => Ok {| om_location := root +:+ "/data/" +:+ display i +:+ ".parquet"; om_size := 10 |})
        <$> seqZ 0 2))%list, lab);
  store_head path lab := (Ok {| om_location := path; om_size := 10 |}, lab);
  store_get path lab := (Ok (Ok (RustStr.bytes path)), lab);
}.

(** Sleeping and running advance the time. *)
Definition after (d : Z) (lab : Lab) : Lab := {|
  lab_answers := lab_answers lab; lab_children := lab_children lab; lab_queries := lab_queries lab;
  lab_time := (lab_time lab + Z.max 0 d)%Z |}.
#[export] Instance lab_clock : EngineTrinoProcess.Clock Lab := { now := lab_time; sleep := after }.
#[export] Instance lab_stopwatch : Stopwatch Lab := lab_time.

(** A Trino server whose client connects from the third time unit on. *)
#[export] Instance lab_server : ServerProcess Lab := {
  spawn_server _ lab := (true, lab); server_running lab := (true, lab); terminate_server lab := lab;
}.
#[export] Instance lab_cli : CliRuns Lab := fun _ lab =>
  (Some {| cli_stdout := true; cli_first := ProcessFirst (Some (3 <=? lab_time lab)%Z) (Some []) |}, after 1 lab).

#[export] Instance lab_clock_laws : EngineTrinoProcess.ClockLaws Lab.
Proof. split; intros; simpl; lia. Qed.

#[export] Instance lab_secrets : SecretSource := fun name =>
  if name =? S3_ACCESS_KEY_ENV then SecretRead.Value "access-1"
  else if name =? S3_SECRET_KEY_ENV then SecretRead.Value "secret-1" else SecretRead.Missing.
#[export] Instance lab_environment : ProcessEnv := fun name =>
  if name =? "PATH" then Some "/bin" else if name =? "FLINK_HOME" then Some "/home/flink" else None.
#[export] Instance lab_host : HostPlatform := { host_operating_system := "linux"; host_architecture := "aarch64" }.

(** ** Documents *)

Definition lab_uuid : string := "00000000-0000-0000-0000-000000000001".

#[export] Instance lab_uuids : UuidParser := {
  uuid_parse text := if text =? lab_uuid then Some 1%Z else None; uuid_display _ := lab_uuid }.

#[export] Instance lab_url_edit : UrlEdit := {
  url_set_username u _ := u; url_set_password u _ := u; url_set_fragment u _ := u;
  url_query_pairs _ := []; url_replace_pairs u _ := u;
}.
#[export] Instance lab_forms : FormCodec := {
  form_serialize _ := ""; form_parse _ := [("separator", String "031" "")];
}.
#[export] Instance lab_client : ClientBuilder := fun _ => true.
#[export] Instance lab_store_builder : StoreBuilder := fun _ _ _ => Ok tt.
#[export] Instance lab_port : DuckDb.UrlPort := fun _ => None.
#[export] Instance lab_gzip : GzipReader := fun bytes => (bytes, false).
#[export] Instance lab_spark_json : ToVec SparkExecutionPlan := fun _ => Some (RustStr.bytes "plan").
#[export] Instance lab_flink_json : ToVec Flink.FlinkRenderedProgram := fun _ => Some (RustStr.bytes "program").
#[export] Instance lab_renderer : SparkRenderer := RustStr.bytes "renderer".

#[export] Instance lab_json : JsonParser := fun text =>
  let tag := String.string_of_list_ascii text in
  if tag =? "" then None
  else if tag =? "config" then Some (json_object [("defaults", json_object []); ("overrides", json_object [])])
  else Some (Str tag).

Definition lab_answer (status : Z) (body : string) : HttpResponse := {|
  resp_status := status; resp_headers := [("content-type", Some "application/json")];
  resp_content_length := None; resp_chunks := [Ok (RustStr.bytes body)] |}.

(** ** The table the engine writes *)

Definition lab_fields : list EngineFieldObservation :=
  engine_field <$> is_fields (tp_schema (sp_table canonical_parameters)).
Definition lab_evolved : list EngineFieldObservation :=
  (lab_fields ++ [{| fo_id := 4; fo_name := "note"; fo_required := false; fo_field_type := IcebergString |}])%list.

Definition lab_metadata (version : Z) : string := "s3://b/n/t/metadata/" +:+ display version +:+ ".metadata.json".

Definition lab_table (version : Z) (fields : list EngineFieldObservation) (last snapshots : Z) : EngineTableObservation := {|
  to_table_uuid := lab_uuid; to_metadata_location := lab_metadata version; to_location := "s3://b/n/t";
  to_format_version := 2; to_last_column_id := last; to_schema := fields; to_snapshots := snapshots;
  to_properties := (fun _ => EnginePropertyObservation.Match) <$> tp_properties (sp_table canonical_parameters) |}.

Definition lab_read (expected : CanonicalRead) : RowReadObservation := {|
  rr_rows := cread_rows expected; rr_bytes := cread_bytes expected; rr_sha256 := cread_sha256 expected |}.

Definition lab_runtime : EngineRuntimeObservation := {|
  ro_engine_version := SPARK_COMPONENT_VERSION;
  ro_dependencies := list_to_map [("java", SPARK_JAVA_VERSION); ("scala", SPARK_SCALA_VERSION)];
  ro_operating_system := "linux"; ro_architecture := "aarch64" |}.

(** The events of a run that does everything. *)
Definition lab_events : list EngineEvent :=
  let reads := sp_canonical_reads canonical_parameters in [
  RuntimeReady lab_runtime; CatalogReady; FixturePreflight true; NamespaceReady true; TableReady (lab_table 0 lab_fields 3 0);
  InitialAppended 1; InitialRead (lab_read (creads_initial reads)); SchemaEvolved (lab_table 2 lab_evolved 4 1);
  EvolvedAppended 2; EvolvedRead (lab_read (creads_after_evolution reads)); FinalTable (lab_table 3 lab_evolved 4 2);
  Completed].

(** An event is written as its index. *)
#[export] Instance lab_event_parser : EventParser := fun payload =>
  match payload with [c] => lab_events !! Z.to_nat (code c - 97) | _ => None end.

Definition lab_line (i : nat) : list ascii :=
  (ENGINE_EVENT_PREFIX ++ [ascii_of_N (97 + N.of_nat i); ascii_of_N 10])%list.

(** A child that prints its events in two chunks, in the middle of a line. *)
Definition lab_output : list (list ascii) :=
  let output := List.concat (lab_line <$> seq 0 12) in [take 30 output; drop 30 output].

Definition lab_child (chunks : list (list ascii)) (code : Z) : ChildRun := {|
  child_stdout := true; child_reads := ((Some <$> chunks) ++ [Some []])%list; child_reader_first := false;
  child_wait := ChildExited (Some code); child_reader_end := ReaderFinished; child_elapsed_micros := 5 |}.

(** ** What the catalog answers *)

Definition lab_rest_field (field : EngineFieldObservation) : RestField := {|
  rf_id := fo_id field; rf_name := fo_name field; rf_required := fo_required field;
  rf_field_type := Str (match fo_field_type field with Long => "long" | IcebergString => "string" end) |}.

Definition lab_rest_schema (id : Z) (fields : list EngineFieldObservation) : RestSchema := {|
  rs_schema_id := id; rs_schema_type := "struct"; rs_fields := lab_rest_field <$> fields |}.

(** The body "table" describes the table after the run; no other body does. *)
#[export] Instance lab_table_decoder : LoadTableResponseDecoder := fun body =>
  if String.string_of_list_ascii body =? "table" then Ok {|
    ltresp_metadata_location := Some (lab_metadata 3);
    ltresp_metadata := {|
      rtm_format_version := 2; rtm_table_uuid := lab_uuid; rtm_location := "s3://b/n/t"; rtm_last_column_id := 4;
      rtm_schemas := [lab_rest_schema 0 lab_fields; lab_rest_schema 1 lab_evolved]; rtm_current_schema_id := 1;
      rtm_snapshots := [{| rs_snapshot_id := 1 |}; {| rs_snapshot_id := 2 |}];
      rtm_properties := tp_properties (sp_table canonical_parameters) |} |}
  else Err "no table".

(** ** What the engines answer *)

(** A text is an object that holds zero under it. *)
#[export] Instance lab_raw_reader : RawJsonReader := fun bytes =>
  (RawObject [(String.string_of_list_ascii bytes, RawNum (PosInt 0))], true).
(** The DuckDB command line gives the version, or a row with one match. *)
#[export] Instance lab_arrays : DuckDb.ArrayStream := fun bytes =>
  let text := String.string_of_list_ascii bytes in
  if text =? "version" then [Some [json_object [("version", Str "v1.5.3")]]]
  else if text =? "present" then [Some [json_object [("matches", Num (PosInt 1))]]]
  else [None].

(** A transcript is serialized with its identities and its flag. *)
#[export] Instance lab_serializer : Serialize EngineTranscript := fun transcript =>
  Some (json_object [
    ("format", Str (et_format transcript)); ("catalog", Str (etc_name (ets_catalog (et_components transcript))));
    ("namespace", Str (etf_namespace (et_fixture transcript)));
    ("sanitized", Bool (esa_transcript_sanitized (et_sanitization transcript)))]).
#[export] Instance lab_flag : FlagIsNoString.
Proof. intros transcript flag. reflexivity. Qed.

(** ** Runs *)

(** The catalog's answers to the harness after the engine ended. *)
Definition lab_script : list HttpResponse := [
  lab_answer 200 "config"; lab_answer 200 "table"; lab_answer 204 ""; lab_answer 404 ""; lab_answer 204 "";
  lab_answer 404 ""].

Definition lab_world (answers : list HttpResponse) (children : list ChildRun) : Lab := {|
  lab_answers := answers; lab_children := children; lab_queries := []; lab_time := 0 |}.

Definition spark_world : Lab := lab_world lab_script [lab_child lab_output 0].

(** The plans of the engines, in normal form. *)
Definition spark_plan : InteroperabilityPlan.
Proof. let r := eval vm_compute in (lab_plan_of spark_engine) in match r with Some ?p => exact p end. Defined.
Definition flink_plan : InteroperabilityPlan.
Proof. let r := eval vm_compute in (lab_plan_of flink_engine) in match r with Some ?p => exact p end. Defined.
Definition trino_plan : InteroperabilityPlan.
Proof. let r := eval vm_compute in (lab_plan_of trino_engine) in match r with Some ?p => exact p end. Defined.
Definition duckdb_plan : InteroperabilityPlan.
Proof. let r := eval vm_compute in (lab_plan_of duckdb_engine) in match r with Some ?p => exact p end. Defined.

Lemma spark_planned : contracts_plan (lab_contracts spark_engine) "alpha" "run1" = Ok spark_plan.
Proof. vm_compute. reflexivity. Qed.

(** The run of an engine over a world. *)
Definition lab_run (engine : LabEngine) (world : Lab) : result EngineTranscript EngineEvidenceError * Lab :=
  run_stock_engine_interoperability (lab_contracts engine) "alpha" "run1" world.

(** A Spark run publishes a transcript that passed. *)
Definition spark_transcript : EngineTranscript.
Proof. let r := eval vm_compute in (lab_run spark_engine spark_world).1 in match r with Ok ?t => exact t end. Defined.

Example spark_run_passes :
  (lab_run spark_engine spark_world).1 = Ok spark_transcript /\ engine_transcript_passed spark_transcript = true /\
  lab_answers (lab_run spark_engine spark_world).2 = [].
Proof. vm_compute. repeat split. Qed.
