(* ===== verification/ToolSamples.v ===== *)
(** * Sample publications for the contract tool (test data, no source)

    A file tree with one result bundle, and the witnesses of the contract tool's
    theorems at it. *)

From S2P Require Import Prelude Order RustStr Float64 FloatText Json ContractValue ContractScenario ContractAdapter.
From S2P Require Import ContractProfile ContractResult ContractDocument Sanitization Ledger Policy Transport Capture.
From S2P Require Import Routing Store SampleWorld Samples EngineParameters EnginePlan EngineRuntime EngineCatalog.
From S2P Require Import EngineWorkflow EngineDecode EngineTranscript ToolFiles Publication Bundle EngineReview.
From S2P Require Import EngineReviewProofs ProfileMaterialization ProfileMaterializationProofs CommunityPublication.
From S2P Require Import Matrix EngineBundle EngineSamples.
From Stdlib Require Import Ascii.
Open Scope string_scope.

(** ** A file tree: the bytes of every file under its path *)

Definition Tree : Type := list (string * string).

Definition tree_file (path : string) (tree : Tree) : option string :=
  snd <$> find (fun file : string * string => file.1 =? path) tree.

(** The names directly below a directory, the parent not among them. *)
Definition tree_names (directory : string) (tree : Tree) : list string :=
  List.filter (fun name => negb (is_empty name || starts_with "/" name || (name =? ".."))) (remove_dups (omap (fun file : string * string =>
    option_map (fun rest => hd "" (split_byte 47 rest)) (strip_prefix (directory +:+ "/") file.1)) tree)).

Definition tree_type (path : string) (tree : Tree) : result FileType string :=
  match tree_file path tree with
  | Some _ => Ok Regular
  | None => match tree_names path tree with [] => Err "not found" | _ => Ok Directory end
  end.

#[export] Instance tree_files : FileTree Tree := {
  fs_read path tree := ok_or (tree_file path tree) "not found";
  fs_len path tree := result_map str_len (ok_or (tree_file path tree) "not found");
  fs_symlink_type := tree_type;
  fs_is_file path tree := match tree_file path tree with Some _ => true | None => false end;
  fs_read_dir path tree := Ok ((fun name => Ok {| entry_name := name; entry_type := tree_type (join_path path name) tree |})
    <$> tree_names path tree);
  fs_write path bytes tree := (Ok tt, (path, bytes) :: tree);
  fs_create_dir_all _ tree := (Ok tt, tree);
  fs_canonicalize path _ := Ok path;
}.

(** A directory exists when a file lies below it. *)
#[export] Instance tree_creation : FileCreation Tree := {
  fs_create_dir path tree := match tree_type path tree with Ok _ => (Err "exists", tree) | Err _ => (Ok tt, tree) end;
  fs_open_new path tree := match tree_file path tree with Some _ => (Err "exists", tree) | None => (Ok tt, (path, "") :: tree) end;
  fs_write_all path bytes tree := (Ok tt, (path, bytes) :: tree);
  fs_sync_all _ tree := (Ok tt, tree);
  fs_probe path tree := map_err (fun e => (true, e)) (tree_type path tree);
  fs_exists path tree := is_ok (tree_type path tree);
}.

(** ** The bundle *)

Definition plain_artifact (location bytes : string) : ArtifactReference :=
  artifact location "application/json" bytes "sample".

Definition bundled_record : ResultRecord := {|
  rec_contract_version := V1; rec_kind := ResultKind; rec_id := "alpha-result";
  rec_scenario := {| sref_id := CONTENTION_SCENARIO_ID; sref_version := CONTENTION_SCENARIO_VERSION;
                     sref_digest := artifact_digest (plain_artifact "scenario.json" "scenario") |};
  rec_profile := {| pref_id := "profile"; pref_digest := artifact_digest (plain_artifact "profile.json" "profile") |};
  rec_catalog := {| exec_profile_component := "alpha"; exec_name := "alpha"; exec_version := "1" |};
  rec_client := None; rec_adapters := ["minio"]; rec_run := rec_run sample_record;
  rec_outcome := rec_outcome sample_record; rec_environment := rec_environment sample_record;
  rec_assertions := rec_assertions sample_record; rec_measurements := [];
  rec_evidence := [{| ev_id := "log"; ev_kind := EvidenceKind.Log; ev_artifact := plain_artifact "log.json" "log";
                      ev_sanitized := true; ev_redactions := []; ev_extensions := ∅ |}];
  rec_artifacts := []; rec_extensions := ∅;
|}.

Definition bundled_manifest : ResultBundleManifest := {|
  man_contract_version := V1; man_kind := ManifestKind; man_id := "bundle"; man_title := "A|B";
  man_created_at := "2025-01-01"; man_provenance := ContractDocument.Fixture "test data";
  man_profile := plain_artifact "profile.json" "profile";
  man_scenarios := [plain_artifact "scenario.json" "scenario"];
  man_results := [plain_artifact "result.json" "result"];
  man_source_evidence := [plain_artifact "../source.json" "source"];
  man_redaction := man_redaction sample_manifest; man_extensions := ∅;
|}.

(** A document is the name of its kind; [source] is JSON too, [log] is not. *)
#[export] Instance bundle_decoders : ContractDecoders := {
  from_slice text :=
    if text =? "log" then Err "expected value"
    else if text =? "source" then Ok (Object [("rows", Array [Object [("Secret-Key", Str "[REDACTED]")]])])
    else Ok (json_object [("kind", Str text)]);
  from_value_scenario _ := Ok sample_scenario;
  from_value_result _ := Ok bundled_record;
  from_value_profile _ := Ok sample_profile;
  from_value_manifest _ := Ok bundled_manifest;
}.

Definition bundle_tree : Tree :=
  [("./results/v1/run/manifest.json", "manifest"); ("./results/v1/run/profile.json", "profile");
   ("./results/v1/run/scenario.json", "scenario"); ("./results/v1/run/result.json", "result");
   ("./results/v1/run/log.json", "log"); ("./results/v1/run/../source.json", "source")].

Definition published : Publication := Eval vm_compute in
  match render_publication "." bundle_tree with Ok publication => publication | Err _ => {| pub_index := ""; pub_known_gaps := "" |} end.

Definition published_tree : Tree :=
  ((join_path "." INDEX, pub_index published) :: (join_path "." KNOWN_GAPS, pub_known_gaps published) :: bundle_tree)%list.

(** No bundle of this tree is recomputed from sources. *)
#[export] Instance no_sources : SourceBackedBundles Tree := {
  check_historical_commit_bundle _ _ := Err ["no source"];
  check_contention_result_bundle _ _ := Err ["no source"];
  check_phase1_result_bundle _ _ := Err ["no source"];
}.

Example bundle_loads : is_ok (load_bundle "./results/v1/run/manifest.json" bundle_tree) = true.
Proof. vm_compute. reflexivity. Qed.

Example full_publication_needs_sources : check_publication "." Full published_tree = Err ["no source"].
Proof. vm_compute. reflexivity. Qed.

Example stale_index_rejected :
  check_publication "." Smoke ((join_path "." INDEX, "old") :: published_tree)
  = Err ["./results/v1/INDEX.md differs from generated publication output"].
Proof. vm_compute. reflexivity. Qed.

Example key_in_a_log_rejected :
  is_ok (scan_file [("log", "see AKIA0123456789ABCDEF.")] "log") = false.
Proof. vm_compute. reflexivity. Qed.

Example written_publication_checks : (write_publication "." Smoke bundle_tree).1 = Ok tt.
Proof. vm_compute. reflexivity. Qed.

(** ** A bundle to rank *)

Definition spread (median : f64) : MetricValue := DistributionValue {|
  dist_samples := 3; dist_minimum := median; dist_maximum := median; dist_mean := None; dist_standard_deviation := None;
  dist_quantiles := {["p50" := median]} |}.

Definition measured_phase (name : string) (metrics : list (string * MetricValue)) : MeasuredPhase := {|
  mp_name := name; mp_elapsed_ms := f64_of_Z 1; mp_operations := None; mp_latency_ms := None;
  mp_metrics := (fun m => {| metric_name := m.1; metric_unit := "unit"; metric_value := m.2 |}) <$> metrics;
|}.

Definition ranked_record (catalog : string) (outcome : ResultOutcome) (throughput : Z) : ResultRecord := {|
  rec_contract_version := V1; rec_kind := ResultKind; rec_id := catalog; rec_scenario := rec_scenario bundled_record;
  rec_profile := rec_profile bundled_record;
  rec_catalog := {| exec_profile_component := catalog; exec_name := catalog; exec_version := sample_revision |};
  rec_client := None; rec_adapters := []; rec_run := rec_run sample_record; rec_outcome := outcome;
  rec_environment := rec_environment sample_record; rec_assertions := [];
  rec_measurements := [
    measured_phase "concurrent" [("successful-throughput", spread (f64_of_Z throughput));
      ("conflict-rate", spread (f64_of_Z 0)); ("error-rate", spread (f64_of_Z 0)); ("request-errors", Counter 0);
      ("valid-rounds", Counter 3); ("measured-rounds", Counter 3)];
    measured_phase "sequential" [("successful-throughput", spread (f64_of_Z 7)); ("p50-latency", spread (f64_of_Z 2));
      ("p99-latency", spread (f64_of_Z 5))]];
  rec_evidence := []; rec_artifacts := []; rec_extensions := ∅;
|}.

Definition ranked_bundle : ValidatedBundle := {|
  vb_manifest_path := "./results/v1/run/manifest.json"; vb_manifest := bundled_manifest;
  vb_profile_path := "./results/v1/run/profile.json"; vb_profile := sample_profile;
  vb_scenarios := [{| vs_artifact := plain_artifact "scenario.json" "scenario"; vs_path := "scenario.json";
                      vs_scenario := sample_scenario |}];
  vb_results := (fun r => {| vr_artifact := sample_artifact; vr_path := "result.json"; vr_result := r |}) <$>
    [ranked_record "slow" (ResultPass None) 10; ranked_record "idle" (NotTested {| nt_explanation := "no host";
       nt_blocking_dependency := None |}) 99; ranked_record "fast" (ResultPass None) 20];
|}.

#[export] Instance silent_debug : DebugMetric := fun _ => "_".

Example fast_before_slow :
  result_map (map (exec_name ∘ rec_catalog ∘ pass_record)) (pass_rows ranked_bundle) = Ok ["fast"; "slow"].
Proof. vm_compute. reflexivity. Qed.

Example matrix_row :
  write_row "1" (ranked_record "fast" (ResultPass None) 20) true
  = Ok (line "| 1 | fast 01234567 | `pass` | 3 / 3 | 20.0/s (20.0–20.0) | 7.0/s (7.0–7.0) | 2.000 ms (2.000–2.000) | 5.000 ms (5.000–5.000) | 0.000% (0.000–0.000) | 0.000% (0.000–0.000) | 0 |").
Proof. vm_compute. reflexivity. Qed.

(** ** A profile to materialize *)

Definition small_policy : ScenarioProfilePolicy := {|
  spp_name := "small"; spp_materialization_format := "small/v1"; spp_scope := "commit"; spp_purpose := Performance;
  spp_selected_components := ["alpha"; "minio"; RUNNER_COMPONENT_ID];
  spp_images := [{| ip_component := RUNNER_COMPONENT_ID; ip_compose_service := "bench";
    ip_required_artifacts := [{| ap_location := "image:/bin/runner"; ap_media_type := "application/vnd.elf" |};
                              {| ap_location := "image:/opt/runner"; ap_media_type := "application/vnd.elf" |}];
    ip_required_labels := []; ip_build_extension_label := None |}];
  spp_artifact_copies := [{| acp_source_component := RUNNER_COMPONENT_ID; acp_source_location := "image:/bin/runner";
    acp_destination_component := RUNNER_COMPONENT_ID; acp_destination_location := "image:/opt/runner" |}];
|}.

Definition runner_observation : ImageObservation := {|
  io_component := RUNNER_COMPONENT_ID; io_reference := "bench:local"; io_image_id := sample_digest;
  io_operating_system := "linux"; io_architecture := "amd64";
  io_labels := list_to_map [("com.docker.compose.project", "catalog-bench"); ("com.docker.compose.service", "bench");
    ("com.docker.compose.version", "2"); ("org.opencontainers.image.revision", sample_revision)];
  io_embedded_artifacts := [artifact "image:/bin/runner" "application/vnd.elf" "elf" "runner";
                            artifact "image:/opt/runner" "application/vnd.elf" "elf" "copy"];
|}.

#[export] Instance observation_decoder : MaterializationDecoder := fun _ => Ok {|
  spm_format := "small/v1";
  spm_source_profile := {| spo_id := "profile"; spo_digest := artifact_digest (plain_artifact "profile.json" "profile") |};
  spm_output_profile := {| op_id := "materialized"; op_title := "Small"; op_description := "One catalog";
                           op_resolved_at := "2025-01-02" |};
  spm_images := [runner_observation];
|}.

(** A profile is encoded as its identifier and its components. *)
#[export] Instance profile_text : ToVecPretty Profile := fun profile =>
  Ok (prof_id profile +:+ ": " +:+ String.concat ", " (comp_id <$> prof_components profile)).

Example small_profile_rendered :
  render_scenario_profile "profile" "observation" small_policy
  = Ok ("materialized: alpha, minio, " +:+ RUNNER_COMPONENT_ID +:+ lf).
Proof. vm_compute. reflexivity. Qed.

Example drifted_source_rejected : is_ok (render_scenario_profile "manifest" "observation" small_policy) = false.
Proof. vm_compute. reflexivity. Qed.

Definition profile_inputs : Tree := [("in/profile.json", "profile"); ("in/observation.json", "observation")].

(** ** Witnesses *)

Lemma loaded_bundle_is_closed_witness :
  exists bundle, load_bundle "./results/v1/run/manifest.json" bundle_tree = Ok bundle /\
    vr_result <$> vb_results bundle = [bundled_record] /\
    NoDup ((rec_id ∘ vr_result) <$> vb_results bundle) /\
    Forall (held_somewhere "./results/v1/run" bundle_tree) (man_source_evidence (vb_manifest bundle)).
Proof.
  destruct (load_bundle "./results/v1/run/manifest.json" bundle_tree) as [bundle|] eqn:Hload;
    [|exfalso; vm_compute in Hload; discriminate Hload].
  exists bundle. pose proof (loaded_bundle_is_closed _ _ _ Hload) as Hclosed. cbv zeta in Hclosed.
  destruct Hclosed as (_ & _ & base & _ & _ & Hbase & _ & _ & _ & _ & _ & _ & Hsource & _ & Hunique).
  vm_compute in Hbase. injection Hbase as <-. split_and!; [reflexivity| |exact Hunique|exact Hsource].
  clear Hsource Hunique. vm_compute in Hload. injection Hload as <-. vm_compute. reflexivity.
Defined.

Lemma checked_publication_is_clean_witness :
  check_publication "." Smoke published_tree = Ok tt /\
  exists manifests bundles, manifests <> [] /\
    Forall2 (fun manifest bundle => load_bundle manifest published_tree = Ok bundle /\ clean_bundle published_tree bundle)
      manifests bundles.
Proof.
  assert (Hcheck : check_publication "." Smoke published_tree = Ok tt) by (vm_compute; reflexivity).
  split; [exact Hcheck|].
  destruct (checked_publication_is_clean _ _ _ Hcheck) as (_ & manifests & bundles & _ & _ & _ & _ & Hsome & Hall).
  exists manifests, bundles. split; [exact Hsome | exact Hall].
Defined.

Lemma commit_matrix_ranks_passing_witness :
  exists output, render_commit_matrix ranked_bundle = Ok output /\
    exists rows unranked, ((pass_record <$> rows) ++ unranked)%list ≡ₚ records ranked_bundle /\
      Forall (fun record => is_pass (rec_outcome record) = false) unranked /\ StronglySorted ranked_before rows.
Proof.
  destruct (render_commit_matrix ranked_bundle) as [output|] eqn:Hrender; [|exfalso; vm_compute in Hrender; discriminate Hrender].
  exists output. split; [reflexivity|].
  destruct (commit_matrix_ranks_passing _ _ Hrender) as (rows & unranked & _ & _ & _ & _ & _ & Hall & _ & Hnone & Hsorted & _).
  exists rows, unranked. split_and!; [exact Hall|exact Hnone|exact Hsorted].
Defined.

Lemma rendered_profile_is_materialized_witness :
  exists rendered m derived, render_scenario_profile "profile" "observation" small_policy = Ok rendered /\
    decode_materialization "observation" = Ok m /\
    Forall (derived_from sample_profile (spm_images m) small_policy) (prof_components derived) /\
    Forall (copied (spm_images m)) (spp_artifact_copies small_policy).
Proof.
  pose proof (rendered_profile_is_materialized "profile" "observation" small_policy _ small_profile_rendered)
    as (profile & m & derived & Hprofile & Hm & _ & _ & _ & _ & _ & _ & Hderived & _ & _ & _ & _ & Hcopied).
  vm_compute in Hprofile. injection Hprofile as <-.
  exists ("materialized: alpha, minio, " +:+ RUNNER_COMPONENT_ID +:+ lf), m, derived.
  split_and!; [exact small_profile_rendered|exact Hm|exact Hderived|exact Hcopied].
Defined.

Lemma written_profile_checks_witness :
  check_scenario_profile "in/profile.json" "in/observation.json" "out/profile.json" small_policy "rerun"
    (write_scenario_profile "in/profile.json" "in/observation.json" "out/profile.json" small_policy profile_inputs).2 = Ok tt.
Proof.
  apply (written_profile_checks _ _ _ _ _ profile_inputs).
  - vm_compute. reflexivity.
  - intros content before after Hwrite. cbn in Hwrite. injection Hwrite as <-. cbn. reflexivity.
  - vm_compute. reflexivity.
  - vm_compute. reflexivity.
Defined.

Lemma shipped_policies_can_be_met_witness : is_ok (validate_policy SparkProfile.POLICY_V2) = true.
Proof.
  destruct (shipped_policies_can_be_met SparkProfile.POLICY_V2) as [Hok _]; [|exact Hok].
  do 3 right. left.
Defined.

(** ** A sample review of a stock-engine run (test data, no source)

    The Spark run of EngineSamples.v published as an evidence directory with its
    review, and the witnesses of the review's theorems at it. *)

(** ** The evidence *)

#[export] Instance review_decoders : ContractDecoders := {
  from_slice text := Ok (json_object [("kind", Str text)]);
  from_value_scenario _ := Ok lab_scenario;
  from_value_result _ := Err "no result";
  from_value_profile _ := Ok (lab_profile spark_engine);
  from_value_manifest _ := Err "no manifest";
}.

Definition reviewed_transcript : EngineTranscript := {|
  et_format := et_format spark_transcript; et_scenario := et_scenario spark_transcript;
  et_contract_digests := {| profile_sha256 := hash_text "profile"; scenario_sha256 := hash_text "scenario" |};
  et_profile := et_profile spark_transcript; et_components := et_components spark_transcript;
  et_fixture := et_fixture spark_transcript; et_execution := et_execution spark_transcript;
  et_sanitization := et_sanitization spark_transcript |}.

Definition transcript_text : string := "transcript" +:+ String "010" "".

#[export] Instance text_decoder : TranscriptDecoder := fun text =>
  if text =? transcript_text then Ok reviewed_transcript else Err "expected a transcript".
#[export] Instance text_encoder : ToVecPretty EngineTranscript := fun _ => Ok "transcript".

Definition source_of (location text : string) : ReviewSource :=
  {| rsrc_location := location; rsrc_sha256 := hash_text text; rsrc_bytes := str_len text |}.

Definition sample_review : EngineResultReview := {|
  er_format := REVIEW_FORMAT;
  er_bundle := {| rb_id := "spark"; rb_title := "Spark"; rb_output_directory := "results/v1/spark";
                  rb_created_at := "2025-03-01T00:00:00Z" |};
  er_run := {| err_fixture_id := "run1";
               err_sanitized_invocation := "docker/run-spark-interoperability.sh " +:+ quote +:+ "run1" +:+ quote;
               err_started_at := "2025-02-28T23:59:59.5Z"; err_started_at_basis := "log";
               err_completed_at := "2025-02-28T23:59:59.75Z"; err_completed_at_basis := "log" |};
  er_profile := source_of "profiles/v1/profile.json" "profile";
  er_scenario := source_of "scenarios/v1/scenario.json" "scenario";
  er_transcripts := [{| rvt_catalog := "alpha"; rvt_source := source_of "results/source/evidence/alpha.json" transcript_text |}];
  er_environment := {|
    env_operating_system := "Linux"; env_architecture := "aarch64"; env_cpu_model := Exact "cpu";
    env_logical_cpus := Exact 8%Z; env_memory_bytes := Unknown "not recorded"; env_cpu_limit := None;
    env_memory_limit_bytes := None; env_network := "bridge"; env_container_runtime := Exact "docker";
    env_runtime_flags := ∅; env_extensions := ∅ |};
  er_redaction := {| red_reviewed := true; red_policy := "v1"; red_removed_fields := ["tokens"] |};
|}.

#[export] Instance review_decoder : ReviewDecoder := fun _ => Ok sample_review.

Definition review_tree : Tree :=
  [("./results/source/review.json", "review" +:+ String "010" ""); ("./profiles/v1/profile.json", "profile");
   ("./scenarios/v1/scenario.json", "scenario"); ("./results/source/evidence/alpha.json", transcript_text)].

Definition REVIEW : string := "results/source/review.json".

Example extra_evidence_rejected :
  validate_engine_evidence_set "./profiles/v1/profile.json" "./scenarios/v1/scenario.json" "./results/source/evidence" "run1"
    (("./results/source/evidence/beta.json", "b") :: review_tree)
  = Err ["engine evidence set ./results/source/evidence differs from profile: missing [], unexpected [beta.json]"].
Proof. vm_compute. reflexivity. Qed.

Example escaping_source_rejected : is_ok (relative_path "../profile.json" "profile source") = false.
Proof. reflexivity. Qed.

Lemma valid_review_is_bound_witness :
  exists v, validate_engine_result_review "." REVIEW review_tree = Some (Ok v) /\
    strictly_ordered (vrev_review v) /\ rvt_catalog <$> er_transcripts (vrev_review v) ≡ₚ transcript_catalog <$> ve_transcripts (vrev_evidence v) /\
    Forall (fun t => exists reviewed, reviewed ∈ er_transcripts (vrev_review v) /\ reviewed_as "." reviewed t)
      (ve_transcripts (vrev_evidence v)).
Proof.
  assert (Hok : match validate_engine_result_review "." REVIEW review_tree with Some (Ok _) => true | _ => false end = true)
    by (vm_compute; reflexivity).
  destruct (validate_engine_result_review "." REVIEW review_tree) as [[v|]|] eqn:Hreview; [|discriminate Hok..].
  exists v. split; [reflexivity|]. pose proof (valid_review_is_bound _ _ _ _ Hreview) as Hbound. cbv zeta in Hbound.
  destruct Hbound as (Hordered & _ & _ & _ & _ & _ & Hcatalogs & Hsources & _).
  split_and!; [exact Hordered|exact Hcatalogs|exact Hsources].
Defined.

(** ** A sample engine bundle (test data, no source)

    The reviewed Spark run as a written bundle. A document is encoded as the word
    for its kind; the decoder yields what the bundle generated. *)

Definition engine_reviewed : option ValidatedEngineResultReview :=
  match validate_engine_result_review "." REVIEW review_tree with Some (Ok reviewed) => Some reviewed | _ => None end.

#[export] Instance record_text : ToVecPretty ResultRecord := fun _ => Ok "result".
#[export] Instance manifest_text : ToVecPretty ResultBundleManifest := fun _ => Ok "manifest".

Definition engine_record : option ResultRecord :=
  reviewed ← engine_reviewed;
  transcript ← head (ve_transcripts (vrev_evidence reviewed));
  match build_result reviewed (vt_transcript transcript) (profile_copy (vrev_evidence reviewed))
          (scenario_copy (vrev_evidence reviewed)) (transcript_artifact transcript) (review_copy reviewed) with
  | Ok record => Some record
  | Err _ => None
  end.

Definition engine_manifest : option ResultBundleManifest :=
  reviewed ← engine_reviewed;
  first ← head (ve_transcripts (vrev_evidence reviewed));
  Some (bundle_manifest reviewed first {[ transcript_catalog first := transcript_artifact first ]}
          [artifact (result_location first) "application/json" ("result" +:+ lf)
             ("Stock-engine interoperability result for "
              +:+ etc_name (ets_catalog (et_components (vt_transcript first))) +:+ ".")]).

#[export] Instance engine_decoders : ContractDecoders := {
  from_slice text := Ok (json_object [("kind", Str (hd "" (split_byte 10 text)))]);
  from_value_scenario _ := Ok lab_scenario;
  from_value_result _ := ok_or engine_record "no result";
  from_value_profile _ := Ok (lab_profile spark_engine);
  from_value_manifest _ := ok_or engine_manifest "no manifest";
}.

Definition written : result string Chain * Tree :=
  default (Err ["panic"], []) (write_engine_result_bundle 3 "." REVIEW review_tree).

Example engine_bundle_written :
  written.1 = Ok "./results/v1/spark/manifest.json" /\
  sort_by String.compare (remove_dups written.2.*1)
  = ["./profiles/v1/profile.json"; "./results/source/evidence/alpha.json"; "./results/source/review.json";
     "./results/v1/spark/MATRIX.md"; "./results/v1/spark/alpha.json"; "./results/v1/spark/manifest.json";
     "./results/v1/spark/source/profile.json"; "./results/v1/spark/source/review.json";
     "./results/v1/spark/source/scenario.json"; "./results/v1/spark/source/transcripts/alpha.json";
     "./scenarios/v1/scenario.json"].
Proof. split; vm_compute; reflexivity. Qed.

Example engine_bundle_not_replaced :
  fst <$> write_engine_result_bundle 3 "." REVIEW written.2
  = Some (Err ["refusing to replace existing engine bundle output ./results/v1/spark"; "exists"]).
Proof. vm_compute. reflexivity. Qed.

Example extra_bundle_entry_rejected :
  check_engine_result_bundle 3 "." REVIEW (("./results/v1/spark/source/notes/extra.txt", "x") :: written.2)
  = Some (Err ["engine bundle ./results/v1/spark contains a missing, unexpected, or nonregular entry"]).
Proof. vm_compute. reflexivity. Qed.

(** The laws of the tree. *)
Lemma tree_keeps_new path content (tree : Tree) : tree_file path tree = None -> keeps tree ((path, content) :: tree).
Proof.
  intros Hnone p c. unfold fs_read; cbn. unfold tree_file in *. cbn [find fst].
  destruct (path =? p) eqn:Hp; [|done]. apply String.eqb_eq in Hp as ->. by rewrite Hnone.
Qed.

#[export] Instance tree_creation_laws : FileCreationLaws Tree.
Proof.
  split.
  - intros path tree p c. cbn [fs_create_dir tree_creation]. by destruct (tree_type path tree).
  - by intros path tree p c.
  - intros path tree. cbn [fs_open_new tree_creation].
    destruct (tree_file path tree) eqn:Hf; [by intros p c|by apply tree_keeps_new].
  - intros path content tree tree'. cbn [fs_open_new fs_write_all tree_creation]. destruct (tree_file path tree) eqn:Hf; [done|]. intros [= <-].
    intros p c. unfold fs_read; cbn. unfold tree_file in *. cbn [find fst].
    destruct (path =? p) eqn:Hp; [|done]. apply String.eqb_eq in Hp as ->. by rewrite Hf.
  - by intros path tree p c.
Qed.

(** How much longer than a directory the paths of the tree are. *)
Definition longest (tree : Tree) : nat := foldr (fun file n => String.length file.1 `max` n)%nat 0%nat tree.
Definition tree_height (tree : Tree) (directory : string) : nat := (S (longest tree) - String.length directory)%nat.

Lemma longest_name path (tree : Tree) : tree_names path tree <> [] -> (String.length path < longest tree)%nat.
Proof.
  intros Hne. assert (Hin : exists name, name ∈ tree_names path tree).
  { destruct (tree_names path tree) as [|name l]; [done|]. exists name. by left. }
  destruct Hin as [name Hin]. unfold tree_names in Hin. apply list_elem_of_In, filter_In in Hin as [Hin _].
  apply list_elem_of_In, elem_of_remove_dups, list_elem_of_omap in Hin as ([p c] & Hin & Hp). cbn in Hp.
  destruct (strip_prefix (path +:+ "/") p) as [rest|] eqn:Hs; [|done]. clear Hp.
  assert (Hlen : (String.length path < String.length p)%nat).
  { unfold strip_prefix in Hs. destruct (String.prefix (path +:+ "/") p) eqn:Hpre; [|done].
    apply prefix_spec in Hpre as [rest' ->]. rewrite !length_append. cbn. lia. }
  clear -Hin Hlen. induction tree as [|file tree IH]; [by apply elem_of_nil in Hin|].
  change (longest (file :: tree)) with (String.length file.1 `max` longest tree)%nat.
  apply elem_of_cons in Hin as [<-|Hin]; cbn [fst]; [lia|]. specialize (IH Hin). lia.
Qed.

Lemma tree_nested (tree : Tree) : nested tree (tree_height tree).
Proof.
  intros directory listed entry Hread Hin Htype. cbn in Hread. injection Hread as <-.
  apply list_elem_of_fmap in Hin as (name & [= ->] & Hname). cbn in *.
  unfold tree_names in Hname. apply list_elem_of_In, filter_In in Hname as [_ [[Hne Hslash]%orb_false_iff _]%negb_true_iff%orb_false_iff].
  assert (Hbelow : (String.length (join_path directory name) < longest tree)%nat).
  { apply longest_name. unfold tree_type in Htype. destruct (tree_file _ tree); [done|].
    by destruct (tree_names (join_path directory name) tree). }
  assert (Hlonger : (String.length directory < String.length (join_path directory name))%nat).
  { unfold join_path. rewrite Hslash. destruct name; [done|].
    destruct (is_empty directory || _); rewrite ?length_append; cbn; lia. }
  unfold tree_height. lia.
Qed.

(** ** Witnesses of the bundle's theorems *)

Lemma engine_result_states_its_transcript_witness :
  exists reviewed profile scenario source review record,
    build_result reviewed reviewed_transcript profile scenario source review = Ok record /\
    validate record = Ok tt /\ states_verdict reviewed_transcript record.
Proof.
  assert (Hok : match engine_reviewed with
    | Some r => is_ok (build_result r reviewed_transcript (profile_copy (vrev_evidence r)) (scenario_copy (vrev_evidence r))
                         (review_copy r) (review_copy r))
    | None => false end = true) by (vm_compute; reflexivity).
  destruct engine_reviewed as [r|]; [|discriminate Hok]. do 5 eexists.
  destruct (build_result r _ _ _ _ _) as [record|] eqn:Hbuild; [|discriminate Hok]. exists record. split; [exact Hbuild|].
  destruct (engine_result_states_its_transcript _ _ _ _ _ _ _ Hbuild) as (Hvalid & _ & _ & _ & Hverdict).
  split; [exact Hvalid|exact Hverdict].
Defined.

Lemma admitted_transcripts_materialize_witness :
  exists reviewed, engine_reviewed = Some reviewed /\
  exists record, build_result reviewed reviewed_transcript (profile_copy (vrev_evidence reviewed))
      (scenario_copy (vrev_evidence reviewed)) (review_copy reviewed) (review_copy reviewed)
    = match validate record with Ok _ => Ok record | Err errors => Err [display_issues errors] end.
Proof.
  assert (Hok : match engine_reviewed with
    | Some r => is_ok (validate_transcript reviewed_transcript (ve_contracts (vrev_evidence r))) &&
        forallb (fun spec => is_some (transcript_check (spec_id spec) reviewed_transcript))
          (scen_assertions (ecs_scenario (ve_contracts (vrev_evidence r))))
    | None => false end = true) by (vm_compute; reflexivity).
  destruct engine_reviewed as [r|]; [|discriminate Hok]. exists r. split; [reflexivity|].
  apply andb_true_iff in Hok as [Hvalid Himplemented].
  apply admitted_transcripts_materialize.
  - destruct (validate_transcript _ _) as [[]|]; [reflexivity|discriminate Hvalid].
  - intros spec Hin. rewrite forallb_forall in Himplemented. apply list_elem_of_In, Himplemented in Hin.
    destruct (transcript_check _ _) as [passed|]; [exists passed; reflexivity|discriminate Hin].
Defined.

Lemma checked_engine_bundle_is_exact_witness :
  check_engine_result_bundle 3 "." REVIEW written.2 = Some (Ok "./results/v1/spark/manifest.json") /\
  exists generated, recorded (expected_entries generated) [NamePart "source"; NamePart "transcripts"] DirectoryEntry /\
    exists path, below written.2 (gen_directory generated) path DirectoryEntry /\
      relative_to (gen_directory generated) path [NamePart "source"; NamePart "transcripts"].
Proof.
  assert (Hcheck : check_engine_result_bundle 3 "." REVIEW written.2 = Some (Ok "./results/v1/spark/manifest.json"))
    by (vm_compute; reflexivity).
  split; [exact Hcheck|].
  destruct (checked_engine_bundle_is_exact _ _ _ _ _ Hcheck) as (reviewed & generated & Hreview & Hsources & Hgen & _ & _ & _ & Hexact).
  exists generated. cut (recorded (expected_entries generated) [NamePart "source"; NamePart "transcripts"] DirectoryEntry).
  { intros Hrecorded. split; [exact Hrecorded|]. exact (proj1 (Hexact _ _) Hrecorded). }
  assert (Hok : match generate "." REVIEW written.2 with
    | Some (Ok g) => bool_decide (recorded (expected_entries g) [NamePart "source"; NamePart "transcripts"] DirectoryEntry)
    | _ => false end = true) by (vm_compute; reflexivity).
  unfold generate in Hok. rewrite Hreview in Hok. cbn [mbind option_bind] in Hok. rewrite Hsources in Hok. cbv iota beta in Hok.
  rewrite Hgen in Hok. exact (proj1 (bool_decide_eq_true _) Hok).
Defined.

Lemma engine_bundle_check_returns_witness :
  nested review_tree (tree_height review_tree) /\
  exists outcome, check_engine_result_bundle (S (longest review_tree)) "." REVIEW review_tree = Some outcome.
Proof.
  split; [apply tree_nested|]. apply (engine_bundle_check_returns (tree_height review_tree)); [apply tree_nested|].
  intros directory. unfold tree_height. apply Nat.le_sub_l.
Defined.

Lemma engine_bundle_write_keeps_files_witness :
  write_engine_result_bundle 3 "." REVIEW review_tree = Some written /\ keeps review_tree written.2.
Proof.
  assert (Hok : match write_engine_result_bundle 3 "." REVIEW review_tree with Some _ => true | None => false end = true)
    by (vm_compute; reflexivity).
  unfold written. destruct (write_engine_result_bundle 3 "." REVIEW review_tree) as [[outcome tree]|] eqn:Hwrite;
    [|discriminate Hok].
  split; [reflexivity|]. exact (engine_bundle_write_keeps_files _ _ _ _ _ _ Hwrite).
Defined.
