(* ===== verification/EngineWitnesses.v ===== *)
(** * Witnesses of the engine theorems (no source)

    Each lemma applies a theorem of the engine crate's model at the laboratory of
    EngineSamples.v, where its hypotheses hold. *)

From S2P Require Import Prelude Order RustStr Json ContractValue ContractAdapter ContractProfile ContractResult.
From S2P Require Import Transport Capture Routing Connection Store SampleWorld Samples EngineParameters EnginePlan.
From S2P Require Import EnginePlanProofs EngineSql EngineRuntime EngineEvents EngineCatalog EngineWorkflow.
From S2P Require Import EngineProcess EngineTrino EngineDecode EngineDuckDb EngineChildProofs EngineTrinoProcess.
From S2P Require Import EngineAdapters EngineTranscript EngineTranscriptProofs EngineSamples.
From Stdlib Require Import Ascii Relations.Relation_Operators.
From Stdlib Require Import Ascii.
Open Scope string_scope.

(** Names the [Ok] value of a computation that succeeds. *)
Tactic Notation "computed" constr(outcome) "as" ident(value) ident(E) :=
  destruct outcome as [value|?] eqn:E; [|exfalso; vm_compute in E; discriminate E].

(** ** Plans *)

Lemma runtime_artifacts_are_bound_witness :
  exists artifacts, runtime_artifacts (Some (runner_image spark_engine)) (engine_image spark_engine)
      (connector_image spark_engine) = Ok artifacts /\
    forall a, a ∈ artifacts -> pinned a /\ "engine" ∈ ra_components a.
Proof.
  computed (runtime_artifacts (Some (runner_image spark_engine)) (engine_image spark_engine)
    (connector_image spark_engine)) as artifacts Hartifacts.
  exists artifacts. split; [reflexivity|].
  destruct (runtime_artifacts_are_bound _ _ _ _ Hartifacts) as (_ & _ & _ & _ & _ & _ & _ & _ & Hpinned & _).
  exact Hpinned.
Defined.

Lemma admitted_plan_is_bound_witness :
  exists plan, from_contracts_for_engine (lab_profile trino_engine) lab_scenario "alpha" "engine" "run1" = Ok plan /\
    ci_id (plan_catalog plan) = "alpha" /\
    exists a, artifacts_at (plan_runtime_artifacts plan) (launcher (plan_execution plan)).1 = [a].
Proof.
  computed (from_contracts_for_engine (lab_profile trino_engine) lab_scenario "alpha" "engine" "run1") as plan Hplan.
  exists plan. split; [reflexivity|].
  destruct (admitted_plan_is_bound _ _ _ _ _ _ Hplan) as (_ & _ & Hcatalog & _ & _ & _ & (a & Ha & _) & _).
  split; [exact Hcatalog|]. exists a. exact Ha.
Defined.

Lemma engine_fixtures_isolated_witness :
  exists plan, from_contracts_for_engine (lab_profile flink_engine) lab_scenario "alpha" "engine" "run1" = Ok plan /\
    fixture_namespace (plan_fixture plan) = "cb_c201_alpha_run1" /\ "alpha" = "alpha" :> ComponentId.
Proof.
  computed (from_contracts_for_engine (lab_profile flink_engine) lab_scenario "alpha" "engine" "run1") as plan Hplan.
  exists plan. split; [reflexivity|]. split.
  - vm_compute in Hplan. injection Hplan as <-. reflexivity.
  - exact (engine_fixtures_isolated _ _ _ _ _ _ _ _ _ Hplan Hplan eq_refl).
Defined.

(** ** The runtime *)

Lemma verified_runtime_is_the_pinned_one_witness :
  verification_passed (verify host_verifier duckdb_plan) = true /\
  forall a, a ∈ plan_runtime_artifacts duckdb_plan ->
    exists reads content, open_file (artifact_path host_verifier (ra_location a)) = Some reads /\
      content_of reads content /\ len content = ra_bytes a.
Proof.
  assert (Hpassed : verification_passed (verify host_verifier duckdb_plan) = true) by (vm_compute; reflexivity).
  split; [exact Hpassed|]. intros a Ha.
  destruct (verified_runtime_is_the_pinned_one _ _ Hpassed) as (_ & _ & Hall).
  destruct (Hall a Ha) as (reads & content & Hopen & _ & Hcontent & Hlen & _).
  exists reads, content. split; [exact Hopen|]. split; [exact Hcontent | exact Hlen].
Defined.

(** ** Events *)

Lemma capture_ignores_chunks_witness :
  (len (concat lab_output) <= MAXIMUM_ENGINE_STDOUT_BYTES)%Z /\
  capture_of lab_output = capture_of [concat lab_output].
Proof.
  assert (Hlen : (len (concat lab_output) <= MAXIMUM_ENGINE_STDOUT_BYTES)%Z)
    by (apply Z.leb_le; vm_compute; reflexivity).
  split; [exact Hlen|]. exact (capture_ignores_chunks lab_output Hlen).
Defined.

(** ** The workflow *)

(** A world where no child can be spawned, and the state the workflow starts in. *)
Definition childless : ObservedSecrets * Lab := ([], lab_world lab_script []).
Definition spark_start : ObservedSecrets * Lab := ([], spark_world).
Definition spark_connector : RestEngineCatalogConnector := {| rcc_profile := lab_profile spark_engine |}.

Lemma unowned_fixture_is_untouched_witness :
  lab_answers (run_engine_workflow spark_plan spark_production spark_connector SharedStore childless).2.2 = lab_script /\
  execution_passed (run_engine_workflow spark_plan spark_production spark_connector SharedStore childless).1 = false.
Proof.
  pose proof (unowned_fixture_is_untouched spark_plan spark_production spark_connector SharedStore childless) as Huntouched.
  destruct (execute spark_production spark_plan childless) as [process w1] eqn:Hprocess.
  destruct (run_engine_workflow _ _ _ _ _) as [execution w'].
  assert (Hunowned : process_cleanup_authorized process = false /\ lab_answers w1.2 = lab_script)
    by (vm_compute in Hprocess; injection Hprocess as <- <-; vm_compute; split; reflexivity).
  destruct (Huntouched (proj1 Hunowned)) as (-> & _ & _ & Hfailed).
  split; [exact (proj2 Hunowned) | exact Hfailed].
Defined.

Lemma owned_fixture_is_cleaned_up_witness :
  cleanup_passed (ex_cleanup (run_engine_workflow spark_plan spark_production spark_connector SharedStore spark_start).1)
    = true /\
  exists catalog wn p, engine_namespace_presence (C := RestEngineCatalog) catalog wn
    = (p, (run_engine_workflow spark_plan spark_production spark_connector SharedStore spark_start).2).
Proof.
  split; [vm_compute; reflexivity|].
  destruct (execute spark_production spark_plan spark_start) as [process w1] eqn:Hprocess.
  assert (Hauthorized : process_cleanup_authorized process = true)
    by (transitivity (process_cleanup_authorized (execute spark_production spark_plan spark_start).1);
        [rewrite Hprocess; reflexivity | vm_compute; reflexivity]).
  destruct (connect spark_connector spark_plan w1) as [[negotiation catalog|negotiation failure] w2] eqn:Hconnect.
  2:{ exfalso. vm_compute in Hprocess. injection Hprocess as <- <-. vm_compute in Hconnect. discriminate Hconnect. }
  destruct (owned_fixture_is_cleaned_up spark_plan spark_production spark_connector SharedStore _ _ _ _ _ _
    Hprocess Hauthorized Hconnect) as (_ & _ & _ & _ & _ & _ & wn & p & _ & _ & _ & Hlast & _).
  exists catalog, wn, p. exact Hlast.
Defined.

(** ** Child processes *)

Definition lab_credentials : EngineSecrets := {|
  sec_object_store_access_key := "access-1"; sec_object_store_secret_key := "secret-1"; sec_catalog_oauth := None |}.

Lemma child_environments_are_closed_witness :
  cmd_env (flink_command "/opt/flink/bin/flink" flink_plan
    {| sfi_directory := "/tmp/f"; sfi_program := "/tmp/f/p" |} lab_credentials "/opt/runner.jar")
    !! "FLINK_HOME" = None.
Proof.
  exact (proj1 (proj2 (proj2 (child_environments_are_closed "/opt/flink/bin/flink" flink_plan lab_credentials)))
    {| sfi_directory := "/tmp/f"; sfi_program := "/tmp/f/p" |} "/opt/runner.jar").
Defined.

(** The Spark child of the lab: its staged input and its command. *)
Definition spark_child : ObservedSecrets * Lab -> EngineProcessExecution * (ObservedSecrets * Lab) :=
  execute_spark host_verifier spark_plan.

Lemma completed_child_is_verified_witness :
  process_passed (spark_child spark_start).1 = true /\
  exists child chunks, child_wait child = ChildExited (Some 0%Z) /\
    pe_capture (spark_child spark_start).1 = Some (capture_of chunks) /\
    last (cap_events (capture_of chunks)) = Some Completed.
Proof.
  assert (Hpassed : process_passed (spark_child spark_start).1 = true) by (vm_compute; reflexivity).
  split; [exact Hpassed|].
  destruct (spark_child spark_start) as [execution [seen w]] eqn:Hrun.
  destruct (completed_child_is_verified host_verifier spark_plan _ _ _ _ _ _ _ Hrun Hpassed)
    as (_ & _ & _ & _ & _ & child & chunks & _ & _ & _ & _ & _ & _ & Hwait & _ & _ & _ & Hcapture & _ & _ & Hlast).
  exists child, chunks. split; [exact Hwait|]. split; [exact Hcapture | exact Hlast].
Defined.

(** ** In-process engines *)

Definition trino_execution_plan : TrinoExecutionPlan.
Proof. let r := eval vm_compute in (as_trino (plan_execution trino_plan)) in match r with Some ?p => exact p end. Defined.
Definition trino_program : Trino.TrinoRenderedProgram.
Proof. let r := eval vm_compute in (Trino.render trino_execution_plan) in match r with Ok ?p => exact p end. Defined.
Definition flink_execution_plan : FlinkExecutionPlan.
Proof. let r := eval vm_compute in (as_flink (plan_execution flink_plan)) in match r with Some ?p => exact p end. Defined.
Definition flink_program : Flink.FlinkRenderedProgram.
Proof. let r := eval vm_compute in (Flink.render flink_execution_plan) in match r with Ok ?p => exact p end. Defined.
Definition duckdb_execution_plan : DuckDbExecutionPlan.
Proof. let r := eval vm_compute in (as_duckdb (plan_execution duckdb_plan)) in match r with Some ?p => exact p end. Defined.
Definition duckdb_program : DuckDb.DuckDbRenderedProgram.
Proof. let r := eval vm_compute in (DuckDb.render duckdb_execution_plan) in match r with Ok ?p => exact p end. Defined.

Lemma rendered_programs_share_their_order_witness :
  (Operation.purpose <$> Trino.operations trino_program) = program_order /\
  (Operation.purpose <$> Flink.operations flink_program) = program_order /\
  (DuckDbOperation.purpose <$> DuckDb.operations duckdb_program) = program_order.
Proof.
  destruct rendered_programs_share_their_order as (Htrino & Hflink & Hduckdb). split; [|split].
  - apply (Htrino trino_execution_plan trino_program). vm_compute. reflexivity.
  - apply (Hflink flink_execution_plan flink_program). vm_compute. reflexivity.
  - apply (Hduckdb duckdb_execution_plan duckdb_program). vm_compute. reflexivity.
Defined.

(** A Trino server that starts and then cannot answer. *)
#[export] Instance mute_trino : Trino.TrinoEffects Lab := {|
  Trino.runtime_observation w := (Some lab_runtime, after 1 w);
  Trino.initialize_catalog _ _ w := (Some tt, after 1 w);
  Trino.fixture_absent _ w := (None, after 1 w);
  Trino.execute _ w := (None, after 100 w);
  Trino.namespace_listed_exactly _ w := (None, after 1 w);
  Trino.observe_table _ _ w := (None, after 1 w);
  Trino.read _ w := (None, after 1 w);
  Trino.snapshot_count _ w := (None, after 1 w);
|}.

Lemma trino_runs_are_lawful_witness :
  exists run w, Trino.run_trino_child trino_program spark_world = Some (run, w) /\ lawful_run run /\
    clos_refl_trans Lab trino_observes spark_world w.
Proof.
  destruct (trino_runs_are_lawful trino_program spark_world) as (run & w & Hrun & Hlawful & Hlooked).
  exists run, w. split; [exact Hrun|]. split; [exact Hlawful|]. apply Hlooked.
  vm_compute in Hrun. injection Hrun as <- _. vm_compute. reflexivity.
Defined.

(** The harness's own catalog session and store of a DuckDB run. *)
Definition duckdb_catalog : RestEngineCatalog.
Proof.
  let r := eval vm_compute in (connect_observation_catalog (lab_profile duckdb_engine) duckdb_plan spark_start).1 in
  match r with Some ?p => exact p end.
Defined.

Definition duckdb_effects : DuckDb.DuckDbProductionEffects := {|
  DuckDb.eff_program := duckdb_program; DuckDb.eff_access_key := "access-1"; DuckDb.eff_secret_key := "secret-1";
  DuckDb.eff_oauth := None; DuckDb.eff_catalog := duckdb_catalog;
  DuckDb.eff_store := {| auditor_bucket := "b"; auditor_sensitive_values := [] |} |}.

Definition duckdb_world (queries : list (option (bool * list ascii))) : Lab := {|
  lab_answers := []; lab_children := []; lab_queries := queries; lab_time := 0 |}.

(** The version is answered, the preflight query is not. *)
Definition duckdb_mute : Lab := duckdb_world [Some (true, RustStr.bytes "version"); None].

Lemma duckdb_runs_are_lawful_witness :
  DuckDb.render duckdb_execution_plan = Ok duckdb_program /\
  exists run w, DuckDb.run_duckdb_program duckdb_effects duckdb_mute = Some (run, w) /\ lawful_run run.
Proof.
  assert (Hrender : DuckDb.render duckdb_execution_plan = Ok duckdb_program) by (vm_compute; reflexivity).
  split; [exact Hrender|].
  destruct (duckdb_runs_are_lawful duckdb_execution_plan duckdb_effects duckdb_mute Hrender)
    as (run & w & Hrun & Hlawful & _).
  exists run, w. split; [exact Hrun | exact Hlawful].
Defined.

Lemma failed_preflight_is_a_duckdb_collision_witness :
  Trino.run_trino_child trino_program spark_world
    = Some (failed_run [RuntimeReady lab_runtime; CatalogReady] PreflightFixture EngineFailureCategory.Catalog,
            after 1 (after 1 (after 1 spark_world))) /\
  exists events, DuckDb.run_duckdb_program duckdb_effects duckdb_mute
    = Some ((FIXTURE_COLLISION_EXIT, events), duckdb_world []).
Proof.
  destruct (failed_preflight_is_a_duckdb_collision (W := Lab)) as [Htrino Hduckdb]. split.
  - destruct (Trino.render_configuration trino_program) as [configuration|] eqn:Hc; [|vm_compute in Hc; discriminate Hc].
    refine (Htrino trino_program lab_runtime configuration _ _ _ _ _ Hc eq_refl eq_refl eq_refl). vm_compute. reflexivity.
  - destruct (Hduckdb duckdb_effects (verify host_verifier duckdb_plan) 1%Z duckdb_mute (duckdb_world [None])
      (duckdb_world [])) as (events & Hrun & _).
    + vm_compute. reflexivity.
    + vm_compute. reflexivity.
    + exists events. exact Hrun.
Defined.

(** ** The Trino server *)

Definition trino_launcher : Invocation := {| inv_executable := TRINO_LAUNCHER_LOCATION; inv_arguments := ["run"] |}.
Definition trino_environment : TrinoServerEnvironment := {|
  env_node_id := "n"; env_data_directory := "/d"; env_access_key := "access-1"; env_secret_key := "secret-1";
  env_oauth_credential := None |}.

(** The client connects at the third time unit. *)
Lemma server_start_returns_witness :
  start_server trino_launcher TRINO_CLI_LOCATION "/tmp/t" trino_environment 3 1 spark_world <> None.
Proof. apply (server_start_returns trino_launcher TRINO_CLI_LOCATION "/tmp/t" trino_environment 3 1); reflexivity. Defined.

Lemma accepted_cli_output_is_whole_witness :
  execute_cli trino_launcher "/tmp/t" 1024 (after 3 spark_world) = (Ok [], after 4 spark_world) /\
  exists run, cli_first run = ProcessFirst (Some true) (Some []) \/ cli_first run = OutputFirst (Some []) (WaitStatus true).
Proof.
  assert (Hrun : execute_cli trino_launcher "/tmp/t" 1024 (after 3 spark_world) = (Ok [], after 4 spark_world))
    by (vm_compute; reflexivity).
  split; [exact Hrun|].
  destruct (accepted_cli_output_is_whole _ _ _ _ _ _ Hrun) as (run & _ & _ & _ & Hfirst).
  exists run. exact Hfirst.
Defined.

(** ** Transcripts *)

Lemma published_engine_transcript_is_sanitized_witness :
  (lab_run spark_engine spark_world).1 = Ok spark_transcript /\
  free_of spark_transcript [RAW_BEARER_PREFIX] /\ free_of spark_transcript ["access-1"].
Proof.
  split; [exact (proj1 spark_run_passes)|].
  destruct (published_engine_transcript_is_sanitized _ _ _ _ _ _ (proj1 spark_run_passes) spark_planned)
    as (Hbearer & _ & Hcredentials).
  split; [exact Hbearer|]. apply (Hcredentials S3_ACCESS_KEY_ENV "access-1").
  - vm_compute. eexists. reflexivity.
  - left.
  - reflexivity.
Defined.

Lemma passing_engine_transcript_is_witnessed_witness :
  engine_transcript_passed spark_transcript = true /\ engine_run_witnessed spark_plan (et_execution spark_transcript).
Proof.
  split; [exact (proj1 (proj2 spark_run_passes))|].
  exact (passing_engine_transcript_is_witnessed _ _ _ _ _ _ (proj1 spark_run_passes) spark_planned
    (proj1 (proj2 spark_run_passes))).
Defined.

(** An access key that is also the name of the catalog: no transcript is published. *)
Definition alpha_secrets : SecretSource := fun name =>
  if name =? S3_ACCESS_KEY_ENV then SecretRead.Value "alpha"
  else if name =? S3_SECRET_KEY_ENV then SecretRead.Value "secret-1" else SecretRead.Missing.

Lemma engine_run_never_fails_validation_witness :
  exists error, (run_stock_engine_interoperability (H := alpha_secrets) (lab_contracts spark_engine) "alpha" "run1"
      spark_world).1 = Err error /\ exists violation, error = EvidenceSanitization violation.
Proof.
  destruct (run_stock_engine_interoperability (H := alpha_secrets) (lab_contracts spark_engine) "alpha" "run1"
    spark_world).1 as [transcript|error] eqn:Hrun; [vm_compute in Hrun; discriminate Hrun|].
  exists error. split; [reflexivity|].
  destruct (engine_run_never_fails_validation (H := alpha_secrets) _ _ _ _ _ _ Hrun spark_planned)
    as [[_ Hmissing]|Hviolation]; [vm_compute in Hmissing; discriminate Hmissing | exact Hviolation].
Defined.

(** ** Table metadata *)

Definition raw_field (field : EngineFieldObservation) : RawJson := RawObject [
  ("id", RawNum (PosInt (fo_id field))); ("name", RawStr (fo_name field)); ("required", RawBool (fo_required field));
  ("type", RawStr (match fo_field_type field with Long => "long" | IcebergString => "string" end))].

(** A metadata object of the evolved table. *)
Definition metadata_reader : RawJsonReader := fun _ => (RawObject [
  ("format-version", RawNum (PosInt 2)); ("table-uuid", RawStr lab_uuid); ("location", RawStr "s3://b/n/t");
  ("last-column-id", RawNum (PosInt 4)); ("current-schema-id", RawNum (PosInt 1));
  ("schemas", RawArray [RawObject [("schema-id", RawNum (PosInt 1)); ("type", RawStr "struct");
                                   ("fields", RawArray (raw_field <$> lab_evolved))]]);
  ("snapshots", RawArray [RawObject []; RawObject []]);
  ("properties", RawObject [("write.metadata.delete-after-commit.enabled", RawStr "false")])], true).

Definition lab_target : FixtureTarget := {|
  ft_namespace := "n"; ft_table := "t"; ft_requested_location := Some "s3://b/n/t/"; ft_bucket := "b" |}.

Lemma decoded_metadata_is_planned_witness :
  exists table, decode_iceberg_table_metadata (H1 := metadata_reader) [] (lab_metadata 3) lab_target
      (observation_policy canonical_parameters) = Ok table /\
    to_last_column_id table = 4%Z /\ Forall plain_field (to_schema table).
Proof.
  computed (decode_iceberg_table_metadata (H1 := metadata_reader) [] (lab_metadata 3) lab_target
    (observation_policy canonical_parameters)) as table Htable.
  exists table. split; [reflexivity|].
  destruct (decoded_metadata_is_planned (H1 := metadata_reader) _ _ _ _ _ Htable)
    as (_ & _ & _ & _ & _ & _ & _ & _ & _ & Hplain & _ & _).
  split; [|exact Hplain]. vm_compute in Htable. injection Htable as <-. reflexivity.
Defined.

(** ** A printer of engine events (test instance, no source)

    Every event as a line of binary digits: an [EventPrinter], which shows that the
    laws the round trip of the event protocol asks for can hold. *)

(** ** Events as numbers *)

#[export] Instance EngineStage_countable : Countable EngineStage.
Proof.
  refine (inj_countable (fun stage => default 0%nat (list_find (stage =.) ORDER ≫= Some ∘ fst)) (fun n => ORDER !! n) _).
  by intros [].
Defined.
#[export] Instance EngineFailureCategory_eq_dec : EqDecision EngineFailureCategory.t.
Proof. solve_decision. Defined.
#[export] Instance EngineFailureCategory_countable : Countable EngineFailureCategory.t.
Proof.
  refine (inj_countable' (fun category => match category with
    | EngineFailureCategory.Runtime => (true, true) | EngineFailureCategory.Connector => (true, false)
    | EngineFailureCategory.Catalog => (false, true) | EngineFailureCategory.Data => (false, false) end)
    (fun code => match code with
    | (true, true) => EngineFailureCategory.Runtime | (true, false) => EngineFailureCategory.Connector
    | (false, true) => EngineFailureCategory.Catalog | (false, false) => EngineFailureCategory.Data end) _).
  by intros [].
Defined.
#[export] Instance EnginePropertyObservation_countable : Countable EnginePropertyObservation.t.
Proof.
  refine (inj_countable' (fun o => match o with EnginePropertyObservation.Match => true | _ => false end)
    (fun b : bool => if b then EnginePropertyObservation.Match else EnginePropertyObservation.Mismatch) _).
  by intros [].
Defined.
#[export] Instance IcebergPrimitiveType_countable : Countable IcebergPrimitiveType.
Proof.
  refine (inj_countable' (fun o => match o with Long => true | IcebergString => false end)
    (fun b : bool => if b then Long else IcebergString) _).
  by intros [].
Defined.
#[export] Instance EngineFieldObservation_countable : Countable EngineFieldObservation.
Proof.
  refine (inj_countable' (fun o => (fo_id o, fo_name o, fo_required o, fo_field_type o))
    (fun '(id, name, required, field_type) => Build_EngineFieldObservation id name required field_type) _).
  by intros [].
Defined.
#[export] Instance EngineTableObservation_countable : Countable EngineTableObservation.
Proof.
  refine (inj_countable' (fun o => (to_table_uuid o, to_metadata_location o, to_location o, to_format_version o,
      to_last_column_id o, to_schema o, to_snapshots o, to_properties o))
    (fun '(uuid, metadata, location, version, last, schema, snapshots, properties) =>
      Build_EngineTableObservation uuid metadata location version last schema snapshots properties) _).
  by intros [].
Defined.
#[export] Instance RowReadObservation_countable : Countable RowReadObservation.
Proof.
  refine (inj_countable' (fun o => (rr_rows o, rr_bytes o, rr_sha256 o))
    (fun '(rows, bytes, sha256) => Build_RowReadObservation rows bytes sha256) _).
  by intros [].
Defined.
#[export] Instance EngineRuntimeObservation_eq_dec' : EqDecision EngineRuntimeObservation.
Proof. solve_decision. Defined.
#[export] Instance EngineRuntimeObservation_countable : Countable EngineRuntimeObservation.
Proof.
  refine (inj_countable' (fun o => (ro_engine_version o, ro_dependencies o, ro_operating_system o, ro_architecture o))
    (fun '(version, dependencies, os, architecture) =>
      Build_EngineRuntimeObservation version dependencies os architecture) _).
  by intros [].
Defined.

#[export] Instance EngineEvent_eq_dec : EqDecision EngineEvent.
Proof. solve_decision. Defined.

(** The payloads of the events: of the same type under a flag or number. *)
Definition event_code : Type :=
  EngineRuntimeObservation + bool * bool + nat * EngineTableObservation + bool * Z + bool * RowReadObservation + bool
  + EngineStage * EngineFailureCategory.t.

Definition encode_event (event : EngineEvent) : event_code :=
  match event with
  | RuntimeReady runtime => inl (inl (inl (inl (inl (inl runtime)))))
  | FixturePreflight absent => inl (inl (inl (inl (inl (inr (true, absent))))))
  | NamespaceReady listed => inl (inl (inl (inl (inl (inr (false, listed))))))
  | TableReady table => inl (inl (inl (inl (inr (0%nat, table)))))
  | SchemaEvolved table => inl (inl (inl (inl (inr (1%nat, table)))))
  | FinalTable table => inl (inl (inl (inl (inr (2%nat, table)))))
  | InitialAppended snapshots => inl (inl (inl (inr (true, snapshots))))
  | EvolvedAppended snapshots => inl (inl (inl (inr (false, snapshots))))
  | InitialRead read => inl (inl (inr (true, read)))
  | EvolvedRead read => inl (inl (inr (false, read)))
  | CatalogReady => inl (inr true)
  | Completed => inl (inr false)
  | Failed stage category => inr (stage, category)
  end.

Definition decode_event (code : event_code) : EngineEvent :=
  match code with
  | inl (inl (inl (inl (inl (inl runtime))))) => RuntimeReady runtime
  | inl (inl (inl (inl (inl (inr (true, absent)))))) => FixturePreflight absent
  | inl (inl (inl (inl (inl (inr (false, listed)))))) => NamespaceReady listed
  | inl (inl (inl (inl (inr (0%nat, table))))) => TableReady table
  | inl (inl (inl (inl (inr (1%nat, table))))) => SchemaEvolved table
  | inl (inl (inl (inl (inr (_, table))))) => FinalTable table
  | inl (inl (inl (inr (true, snapshots)))) => InitialAppended snapshots
  | inl (inl (inl (inr (false, snapshots)))) => EvolvedAppended snapshots
  | inl (inl (inr (true, read))) => InitialRead read
  | inl (inl (inr (false, read))) => EvolvedRead read
  | inl (inr true) => CatalogReady
  | inl (inr false) => Completed
  | inr (stage, category) => Failed stage category
  end.

#[export] Instance EngineEvent_countable : Countable EngineEvent.
Proof. refine (inj_countable' encode_event decode_event _). by intros []. Defined.

(** ** Numbers as text *)

Fixpoint print_positive (p : positive) : list ascii :=
  match p with xH => [] | xO p => ascii_of_N 48 :: print_positive p | xI p => ascii_of_N 49 :: print_positive p end.

Fixpoint parse_positive (text : list ascii) : positive :=
  match text with
  | [] => xH
  | c :: text => if is_byte 48 c then xO (parse_positive text) else xI (parse_positive text)
  end.

Lemma parse_print_positive p : parse_positive (print_positive p) = p.
Proof. induction p as [p IH|p IH|]; cbn [print_positive parse_positive]; [|..|done]; by rewrite IH. Qed.

Lemma print_positive_digits p : existsb (is_byte 10) (print_positive p) = false.
Proof. by induction p. Qed.

#[export] Instance binary_parser : EventParser := fun payload => decode (parse_positive payload).

#[export] Instance binary_printer : EventPrinter.
Proof.
  refine {| print_event event := print_positive (encode event) |}.
  - intros event. unfold parse_event, binary_parser. by rewrite parse_print_positive, decode_encode.
  - intros event. apply print_positive_digits.
Defined.

(** ** The witness *)

Definition printed_runtime : EngineRuntimeObservation := {|
  ro_engine_version := "4"; ro_dependencies := ∅; ro_operating_system := "linux"; ro_architecture := "a" |}.

(** A log line, the events of a run that found the fixture present, and a log line. *)
Definition collision_lines : list output_line :=
  [Noise (RustStr.bytes "INFO starting"); Event (RuntimeReady printed_runtime); Event CatalogReady;
   Noise (RustStr.bytes "INFO looking"); Event (FixturePreflight false); Noise (RustStr.bytes "INFO done")].

Lemma printed_events_are_captured_witness :
  cap_events (capture_of [stream collision_lines]) = [RuntimeReady printed_runtime; CatalogReady; FixturePreflight false] /\
  cap_protocol_failure (capture_of [stream collision_lines]) = None.
Proof.
  rewrite (printed_events_are_captured collision_lines [stream collision_lines] 3).
  - split; reflexivity.
  - apply app_nil_r.
  - repeat (apply Forall_cons; split; [split; [apply Z.leb_le; vm_compute; reflexivity|]; split; [vm_compute; reflexivity|];
      first [exact I | vm_compute; reflexivity]|]). apply Forall_nil. exact I.
  - apply (protocol_collision [RuntimeReady printed_runtime; CatalogReady] 2); [|reflexivity].
    apply (protocol_stage [RuntimeReady printed_runtime] 1 InitializeCatalog CatalogReady); try reflexivity; try discriminate.
    apply (protocol_stage [] 0 VerifyRuntime (RuntimeReady printed_runtime)); try reflexivity; try discriminate.
    apply protocol_start.
  - apply Z.leb_le. vm_compute. reflexivity.
Defined.
