(* ===== verification/BundleSamples.v ===== *)
(** * Samples of the recomputed bundles (test data, no source)

    The three tables of the repository's historical commit benchmark, as they are
    published under results/, and the witnesses of the bundles' theorems. *)

From S2P Require Import Prelude Order RustStr Float64 FloatText Json ContractValue ContractScenario ContractAdapter.
From S2P Require Import ContractProfile ContractResult ContractDocument Stats Ledger Capture ToolFiles Publication Bundle.
From S2P Require Import Sanitization Policy Capture Routing Connection Workflow SampleWorld Aggregate AggregateProofs Sweep.
From S2P Require Import Samples CommunityPublication LegacyCommit Matrix ContentionBundle Operation EngineBundle Phase1Bundle ToolSamples.
From Stdlib Require Import Ascii.
Open Scope string_scope.

(** ** The historical tables *)

(** Millionths, the precision of the summaries. *)
Definition summary_row (order : Z) (rank catalog eligible : string) (valid measured : Z) (values : list Z) (errors : Z)
  : SummaryRow :=
  let value n := f64_lit (nth n values 0%Z) 1000000 in {|
  sr_display_order := order; sr_rank := rank; sr_catalog := catalog; sr_eligible := eligible; sr_valid_rounds := valid;
  sr_measured_rounds := measured; sr_concurrent_median := value 0%nat; sr_concurrent_min := value 1%nat;
  sr_concurrent_max := value 2%nat; sr_seq_median := value 3%nat; sr_seq_min := value 4%nat; sr_seq_max := value 5%nat;
  sr_p50_median_ms := value 6%nat; sr_p99_median_ms := value 7%nat; sr_conflict_median_pct := value 8%nat;
  sr_error_median_pct := value 9%nat; sr_total_errors := errors |}.

(** Billionths, the precision of the runs. *)
Definition run_row (round : Z) (catalog namespace valid : string) (exit : Z) (values : list Z)
    (ok conflicts errors delta expected : Z) : RunRow :=
  let value n := f64_lit (nth n values 0%Z) 1000000000 in {|
  rr_round := round; rr_catalog := catalog; rr_namespace := namespace; rr_valid := valid; rr_exit_status := exit;
  rr_seq_per_s := value 0%nat; rr_p50_ms := value 1%nat; rr_p99_ms := value 2%nat; rr_concurrent_per_s := value 3%nat;
  rr_conflict_pct := value 4%nat; rr_error_pct := value 5%nat; rr_ok := ok; rr_conflicts := conflicts;
  rr_errors := errors; rr_object_delta := delta; rr_expected_min := expected |}.

Definition published_summaries : list SummaryRow := [
  summary_row 1 "DQ" "nessie" "no" 0 5 [190005562; 173347005; 223838662; 312276608; 215942930; 328865823; 2985708; 5602000; 80996390; 366125] 97;
  summary_row 2 "1" "lakecat" "yes" 5 5 [153023513; 130008922; 166535872; 335469500; 285222450; 342629113; 2696625; 5640875; 85421954; 0] 0;
  summary_row 3 "2" "polaris" "yes" 5 5 [129142092; 102960958; 135626889; 135026885; 103749721; 153354759; 7115041; 11532667; 4043716; 0] 0;
  summary_row 4 "3" "gravitino" "yes" 5 5 [116884276; 105433989; 126211712; 74246227; 63869554; 77954517; 12837791; 19225375; 1095890; 0] 0]%Z.

Definition published_runs : list RunRow := [
  run_row 1 "lakecat" "final3cca8d1cv3r1lakecat" "yes" 0 [287522662788; 3129291000; 6003541000; 130519812800; 85190782017; 0]
    784 4510 0 1834 1834;
  run_row 1 "nessie" "final3cca8d1cv3r1nessie" "no" 1 [125409522774; 7343333000; 13717041000; 108564665136; 80277861673; 868263473]
    653 2658 29 1707 1703;
  run_row 1 "gravitino" "final3cca8d1cv3r1gravitino" "yes" 0 [54374317290; 17889458000; 28179542000; 92733741047; 636942675; 0]
    624 4 0 1812 1674;
  run_row 1 "polaris" "final3cca8d1cv3r1polaris" "yes" 0 [79295021232; 12111875000; 18386500000; 87212638410; 6085526316; 0]
    571 37 0 1771 1621;
  run_row 2 "nessie" "final3cca8d1cv3r2nessie" "no" 1 [215942929677; 4346250000; 8851000000; 173347005082; 80298733220; 376718779]
    1042 4247 20 2097 2092;
  run_row 2 "gravitino" "final3cca8d1cv3r2gravitino" "yes" 0 [63869554326; 15282250000; 24452917000; 110124513594; 1404494382; 0]
    702 10 0 1890 1752;
  run_row 2 "polaris" "final3cca8d1cv3r2polaris" "yes" 0 [103749720629; 8954500000; 21968833000; 102960958439; 6456043956; 0]
    681 47 0 1891 1731;
  run_row 2 "lakecat" "final3cca8d1cv3r2lakecat" "yes" 0 [285222449996; 3156167000; 6062583000; 130008921555; 85352588147; 0]
    781 4551 0 1831 1831;
  run_row 3 "gravitino" "final3cca8d1cv3r3gravitino" "yes" 0 [69107205256; 14048916000; 19225375000; 105433988502; 1095890411; 0]
    722 8 0 1924 1772;
  run_row 3 "polaris" "final3cca8d1cv3r3polaris" "yes" 0 [121981129002; 7834292000; 12094542000; 112522535193; 5987261146; 0]
    738 47 0 1948 1788;
  run_row 3 "lakecat" "final3cca8d1cv3r3lakecat" "yes" 0 [287603287939; 3121416000; 5640875000; 130886649369; 85346756152; 0]
    786 4578 0 1836 1836;
  run_row 3 "nessie" "final3cca8d1cv3r3nessie" "no" 1 [274696160479; 3464334000; 5869042000; 190005562132; 81706342866; 366125438]
    1145 5114 23 2202 2195;
  run_row 4 "polaris" "final3cca8d1cv3r4polaris" "yes" 0 [135026884720; 7115041000; 11532667000; 129142092442; 3559127440; 0]
    840 31 0 2034 1890;
  run_row 4 "lakecat" "final3cca8d1cv3r4lakecat" "yes" 0 [341648186390; 2696625000; 5257291000; 153023513094; 85421954315; 0]
    919 5385 0 1969 1969;
  run_row 4 "nessie" "final3cca8d1cv3r4nessie" "no" 1 [321282370566; 2972875000; 5158375000; 218964124748; 80996389892; 402703869]
    1316 5609 28 2374 2366;
  run_row 4 "gravitino" "final3cca8d1cv3r4gravitino" "yes" 0 [74246226749; 12800917000; 23289625000; 116884276119; 641025641; 0]
    775 5 0 1976 1825;
  run_row 5 "lakecat" "final3cca8d1cv3r5lakecat" "yes" 0 [335469500459; 2670666000; 5463209000; 165677528501; 85472331727; 0]
    995 5854 0 2045 2045;
  run_row 5 "nessie" "final3cca8d1cv3r5nessie" "no" 1 [312276608244; 2985708000; 5602000000; 223838661980; 80159433127; 250331321]
    1344 5430 17 2399 2394;
  run_row 5 "gravitino" "final3cca8d1cv3r5gravitino" "yes" 0 [77954517344; 12474334000; 17734333000; 119817367826; 1097560976; 0]
    811 9 0 2016 1861;
  run_row 5 "polaris" "final3cca8d1cv3r5polaris" "yes" 0 [150300682061; 6287250000; 9555792000; 135173848737; 4043715847; 0]
    878 37 0 2078 1928;
  run_row 6 "nessie" "final3cca8d1cv3r6nessie" "no" 1 [328865823436; 2847375000; 5550083000; 183521274415; 82066720911; 146246344]
    1102 5043 9 2156 2152;
  run_row 6 "gravitino" "final3cca8d1cv3r6gravitino" "yes" 0 [75710381479; 12837791000; 19003000000; 126211711540; 658616905; 0]
    905 6 0 2109 1955;
  run_row 6 "polaris" "final3cca8d1cv3r6polaris" "yes" 0 [153354758909; 5958334000; 10245291000; 135626889461; 3846153846; 0]
    900 36 0 2099 1950;
  run_row 6 "lakecat" "final3cca8d1cv3r6lakecat" "yes" 0 [342629113236; 2627750000; 5686000000; 166535872335; 85513544836; 0]
    1000 5903 0 2050 2050]%Z.

Definition published_audits : list AuditRow := [
  {| ar_round := 1; ar_catalog := "lakecat"; ar_objects_before := 71806; ar_objects_after := 73640; ar_delta := 1834; ar_expected_min := 1834 |};
  {| ar_round := 1; ar_catalog := "nessie"; ar_objects_before := 73640; ar_objects_after := 75347; ar_delta := 1707; ar_expected_min := 1703 |};
  {| ar_round := 1; ar_catalog := "gravitino"; ar_objects_before := 75347; ar_objects_after := 77159; ar_delta := 1812; ar_expected_min := 1674 |};
  {| ar_round := 1; ar_catalog := "polaris"; ar_objects_before := 77159; ar_objects_after := 78930; ar_delta := 1771; ar_expected_min := 1621 |};
  {| ar_round := 2; ar_catalog := "nessie"; ar_objects_before := 78930; ar_objects_after := 81027; ar_delta := 2097; ar_expected_min := 2092 |};
  {| ar_round := 2; ar_catalog := "gravitino"; ar_objects_before := 81027; ar_objects_after := 82917; ar_delta := 1890; ar_expected_min := 1752 |};
  {| ar_round := 2; ar_catalog := "polaris"; ar_objects_before := 82917; ar_objects_after := 84808; ar_delta := 1891; ar_expected_min := 1731 |};
  {| ar_round := 2; ar_catalog := "lakecat"; ar_objects_before := 84808; ar_objects_after := 86639; ar_delta := 1831; ar_expected_min := 1831 |};
  {| ar_round := 3; ar_catalog := "gravitino"; ar_objects_before := 86639; ar_objects_after := 88563; ar_delta := 1924; ar_expected_min := 1772 |};
  {| ar_round := 3; ar_catalog := "polaris"; ar_objects_before := 88563; ar_objects_after := 90511; ar_delta := 1948; ar_expected_min := 1788 |};
  {| ar_round := 3; ar_catalog := "lakecat"; ar_objects_before := 90511; ar_objects_after := 92347; ar_delta := 1836; ar_expected_min := 1836 |};
  {| ar_round := 3; ar_catalog := "nessie"; ar_objects_before := 92347; ar_objects_after := 94549; ar_delta := 2202; ar_expected_min := 2195 |};
  {| ar_round := 4; ar_catalog := "polaris"; ar_objects_before := 94549; ar_objects_after := 96583; ar_delta := 2034; ar_expected_min := 1890 |};
  {| ar_round := 4; ar_catalog := "lakecat"; ar_objects_before := 96583; ar_objects_after := 98552; ar_delta := 1969; ar_expected_min := 1969 |};
  {| ar_round := 4; ar_catalog := "nessie"; ar_objects_before := 98552; ar_objects_after := 100926; ar_delta := 2374; ar_expected_min := 2366 |};
  {| ar_round := 4; ar_catalog := "gravitino"; ar_objects_before := 100926; ar_objects_after := 102902; ar_delta := 1976; ar_expected_min := 1825 |};
  {| ar_round := 5; ar_catalog := "lakecat"; ar_objects_before := 102902; ar_objects_after := 104947; ar_delta := 2045; ar_expected_min := 2045 |};
  {| ar_round := 5; ar_catalog := "nessie"; ar_objects_before := 104947; ar_objects_after := 107346; ar_delta := 2399; ar_expected_min := 2394 |};
  {| ar_round := 5; ar_catalog := "gravitino"; ar_objects_before := 107346; ar_objects_after := 109362; ar_delta := 2016; ar_expected_min := 1861 |};
  {| ar_round := 5; ar_catalog := "polaris"; ar_objects_before := 109362; ar_objects_after := 111440; ar_delta := 2078; ar_expected_min := 1928 |};
  {| ar_round := 6; ar_catalog := "nessie"; ar_objects_before := 111440; ar_objects_after := 113596; ar_delta := 2156; ar_expected_min := 2152 |};
  {| ar_round := 6; ar_catalog := "gravitino"; ar_objects_before := 113596; ar_objects_after := 115705; ar_delta := 2109; ar_expected_min := 1955 |};
  {| ar_round := 6; ar_catalog := "polaris"; ar_objects_before := 115705; ar_objects_after := 117804; ar_delta := 2099; ar_expected_min := 1950 |};
  {| ar_round := 6; ar_catalog := "lakecat"; ar_objects_before := 117804; ar_objects_after := 119854; ar_delta := 2050; ar_expected_min := 2050 |}]%Z.

#[export] Instance plain_floats : FloatDisplay := format_fixed 6.

(** The published tables pass the check, and a run that lost an object does not. *)
Example published_tables_verified : verify_raw_evidence published_summaries published_runs published_audits = Ok tt.
Proof. vm_compute. reflexivity. Qed.

Example lost_object_rejected :
  verify_raw_evidence published_summaries published_runs
    (<[7%nat := {| ar_round := 2; ar_catalog := "lakecat"; ar_objects_before := 84808; ar_objects_after := 86638; ar_delta := 1830;
                   ar_expected_min := 1831 |}]> published_audits)
  = Err ["object audit mismatch for round 2 lakecat"].
Proof. vm_compute. reflexivity. Qed.

Lemma verified_tables_are_consistent_witness :
  audit_key <$> published_audits ≡ₚ sweep /\ Forall (summary_consistent published_runs) published_summaries.
Proof.
  destruct (verified_tables_are_consistent _ _ _ published_tables_verified) as (_ & _ & Haudits & _ & Hsummaries).
  split; [exact Haudits|exact Hsummaries].
Defined.

Lemma historical_median_is_p50_witness :
  exists d, nonnegative_distribution (rr_seq_per_s <$> take 5 published_runs) = Ok d /\
    dist_quantiles d !! "p50" = Some (median (rr_seq_per_s <$> take 5 published_runs)).
Proof.
  destruct (nonnegative_distribution (rr_seq_per_s <$> take 5 published_runs)) as [d|] eqn:Hd;
    [|exfalso; vm_compute in Hd; discriminate Hd].
  exists d. split; [reflexivity|]. apply historical_median_is_p50; [exact Hd|reflexivity|discriminate].
Defined.

(** ** The historical bundle *)

Section Historical.

Fixpoint unhex_bytes (text : string) : list ascii :=
  match text with
  | String a (String b rest) => match Ledger.unhex a b with Some c => c :: unhex_bytes rest | None => [] end
  | _ => []
  end.

(** A hash that gives the words of a table the digest pinned for it. *)
Definition hash_with (pinned : list (string * string)) : Ledger.Sha256 := fun value =>
  match find (fun pin => pin.1 =? String.string_of_list_ascii value) pinned with
  | Some pin => unhex_bytes pin.2
  | None => SampleWorld.tail_hash value
  end.

Definition historical_pins : list (string * string) :=
  [("summary", SUMMARY_SHA256); ("runs", RUNS_SHA256); ("audit", AUDIT_SHA256)].

#[local] Instance historical_hash : Ledger.Sha256 := hash_with historical_pins.

#[local] Instance summary_tsv : TsvReader SummaryRow := fun text =>
  if text =? "summary" then Ok published_summaries else Err "expected the summary".
#[local] Instance runs_tsv : TsvReader RunRow := fun text =>
  if text =? "runs" then Ok published_runs else Err "expected the runs".
#[local] Instance audit_tsv : TsvReader AuditRow := fun text =>
  if text =? "audit" then Ok published_audits else Err "expected the audit".

Definition historical_profile : Profile := {|
  prof_contract_version := V1; prof_kind := ProfileKind; prof_id := "reproduction-2026-08-08"; prof_title := "Reproduction";
  prof_description := "Four catalogs"; prof_resolved_at := "2026-08-08"; prof_purpose := Performance; prof_readiness := Runnable;
  prof_platform := prof_platform sample_profile;
  prof_components := (sample_component "minio" ObjectStore None "3"
    :: ((fun catalog => sample_component catalog Catalog None "1") <$> CATALOGS));
  prof_services := (sample_service "minio" "object-store" "http://minio" ∅
    :: ((fun catalog => sample_service catalog "iceberg-rest-catalog" ("http://" +:+ catalog) ∅) <$> CATALOGS));
  prof_catalog_capabilities := prof_catalog_capabilities sample_profile;
  prof_catalog_adapters := (fun catalog => sample_adapter catalog ("http://" +:+ catalog) Anonymous ExerciseAll) <$> CATALOGS;
  prof_extensions := ∅ |}.

#[local] Instance historical_decoders : ContractDecoders := {
  from_slice text := Ok (json_object [("kind", Str text)]);
  from_value_scenario _ := Ok sample_scenario;
  from_value_result _ := Err "no result";
  from_value_profile _ := Ok historical_profile;
  from_value_manifest _ := Err "no manifest";
}.

(** A result is encoded as its identifier and whether it passed. *)
#[local] Instance verdict_text : ToVecPretty ResultRecord := fun record =>
  Ok (rec_id record +:+ (if passed (rec_outcome record) then ": pass" else ": fail")).

Definition historical_inputs : Tree :=
  [("./results/commit-2026-08-08-summary.tsv", "summary"); ("./results/commit-2026-08-08-runs.tsv", "runs");
   ("./results/commit-2026-08-08-object-audit.tsv", "audit"); ("./profiles/v1/reproduction-2026-08-08.json", "profile");
   ("./scenarios/v1/iceberg-rest.commit.same-table-contention.json", "scenario")].

Definition historical_tree : Tree := (write_historical_commit_bundle "." historical_inputs).2.

Example historical_verdicts :
  (fun catalog => tree_file ("./results/v1/2026-08-08/" +:+ catalog +:+ ".json") historical_tree) <$> CATALOGS
  = (fun text => Some (text +:+ lf)) <$>
    ["commit-2026-08-08-lakecat: pass"; "commit-2026-08-08-polaris: pass"; "commit-2026-08-08-gravitino: pass";
     "commit-2026-08-08-nessie: fail"].
Proof. vm_compute. reflexivity. Qed.

Lemma checked_historical_bundle_publishes_verdicts_witness :
  check_historical_commit_bundle "." historical_tree = Ok "./results/v1/2026-08-08/manifest.json" /\
  exists summaries runs audits, table_at "." SUMMARY_PATH SUMMARY_SHA256 historical_tree summaries /\
    verify_raw_evidence summaries runs audits = Ok tt /\
    exists summary record, sr_catalog summary = "nessie" /\ validate record = Ok tt /\
      (passed (rec_outcome record) = true <-> is_yes (sr_eligible summary) = true).
Proof.
  assert (Hcheck : check_historical_commit_bundle "." historical_tree = Ok "./results/v1/2026-08-08/manifest.json")
    by (vm_compute; reflexivity).
  split; [exact Hcheck|].
  destruct (checked_historical_bundle_publishes_verdicts _ _ _ Hcheck)
    as (summaries & runs & audits & Hsummary & _ & _ & Hverified & _ & Hall).
  exists summaries, runs, audits. split; [exact Hsummary|]. split; [exact Hverified|].
  destruct (Hall "nessie") as (summary & record & _ & _ & Hcatalog & Hvalid & _ & _ & Hpassed).
  - do 3 right. left.
  - exists summary, record. split_and!; [exact Hcatalog|exact Hvalid|exact Hpassed].
Defined.
End Historical.

(** ** The contention bundle

    The sample sweep of Samples.v, whose catalog [beta] is made to fail its second
    measured round with one HTTP 500, and the review of that failure. *)

Definition observed_assertion (id : string) : AssertionSpec :=
  {| spec_id := id; spec_step := "commit"; spec_required := true; spec_description := id; spec_check := NoRequestErrors |}.

Definition contention_scenario : Scenario := {|
  scen_contract_version := V1; scen_kind := ScenarioKind; scen_id := CONTENTION_SCENARIO_ID;
  scen_version := CONTENTION_SCENARIO_VERSION; scen_title := "Contention"; scen_description := "Commits";
  scen_family := Concurrency; scen_classification := StrictV1; scen_tags := [];
  scen_capabilities := scen_capabilities sample_scenario; scen_parameters := ∅; scen_steps := scen_steps sample_scenario;
  scen_assertions := observed_assertion <$> ["runner-runtime-pinned"; "catalog-auth-config-ready"; "zero-request-errors";
    "fixture-clean"; "transcript-sanitized"];
  scen_extensions := ∅;
|}.

Definition ready_negotiation (catalog : CatalogRun) : CatalogNegotiationEvidence := {|
  ne_adapter := {| ta_catalog := run_catalog catalog; ta_name := run_name catalog; ta_version := run_version catalog;
                   ta_protocol := IcebergRestV1; ta_request_handling := ProtocolNative |};
  ne_authentication := {| au_mode := "anonymous"; au_outcome := AuthenticationOutcome.Ready; au_token_url := None;
                          au_scope := None; au_http_status := None |};
  ne_config := {|
    rct_request := {| rq_method := "GET"; rq_url := "http://alpha/v1/config"; rq_headers := ∅ |};
    rct_response := Some {| rs_status := 200; rs_headers := ∅; rs_body_bytes_observed := 2; rs_raw_body_sha256 := None;
                            rs_body := SanitizedResponseBody.Json (Object []) |};
    rct_prefix := PrefixResolution.Unprefixed; rct_namespace_separator := NamespaceSeparatorResolution.Default "%1F";
    rct_failure := None |};
  ne_redactions := [];
|}.

(** A phase in which one more request failed. *)
Definition one_failure (phase : PhaseEvidence) : PhaseEvidence := {|
  elapsed_ms := elapsed_ms phase;
  counts := {| attempts := attempts (counts phase) + 1; accepted := accepted (counts phase);
               conflicts := conflicts (counts phase); errors := 1 |};
  latency_ms := latency_ms phase; attempted_throughput_per_second := attempted_throughput_per_second phase;
  accepted_throughput_per_second := accepted_throughput_per_second phase; conflict_rate := conflict_rate phase;
  error_rate := error_rate phase;
  error_counts := [{| ec_error := {| error_kind := UnexpectedHttp; error_http_status := Some 500%Z |}; ec_count := 1 |}];
|}.

Definition failed_execution (e : RoundExecution) : RoundExecution := {|
  re_descriptor := re_descriptor e; re_workload := re_workload e; re_classification := Workflow.Fail;
  re_preflight := re_preflight e; re_create_namespace := re_create_namespace e; re_create_table := re_create_table e;
  re_baseline_object_audit := re_baseline_object_audit e; re_warmup := re_warmup e; re_sequential := re_sequential e;
  re_concurrent := match re_concurrent e with Succeeded phase => Succeeded (one_failure phase) | other => other end;
  re_final_table := re_final_table e; re_final_object_audit := re_final_object_audit e;
  re_metadata_growth := re_metadata_growth e; re_cleanup := re_cleanup e;
  re_checks := {|
    fixture_isolated := true; setup_succeeded := true; warmup_accounted := true; sequential_accounted := true;
    sequential_latency_complete := true; all_requests_accounted := true; zero_request_errors := false;
    concurrent_progress := true; final_state_accounted := true; metadata_persisted := true; fixture_clean := true |};
|}.

Definition contention_round (round : CatalogRoundTranscript (list string)) : Round := {|
  rt_repetition := rt_repetition round; rt_kind := rt_kind round; rt_position := rt_position round;
  rt_catalog := rt_catalog round; rt_negotiation := ready_negotiation (rt_catalog round);
  rt_outcome := match rt_outcome round with
                | Executed e => Executed (if (run_catalog (rt_catalog round) =? "beta") && (rt_repetition round =? 3)%Z
                                          then failed_execution e else e)
                | failed => failed
                end;
|}.

Definition contention_rounds : list Round := Eval vm_compute in contention_round <$> sample_rounds.

Section ContentionBundle.

#[local] Instance contention_hash : Ledger.Sha256 := fun value =>
  if (len value =? TRANSCRIPT_LENGTH)%Z then unhex_bytes Contention.TRANSCRIPT_SHA256
  else hash_with [("review", Contention.REVIEW_SHA256)] value.

(** A text of the pinned length. *)
Definition transcript_file : string := String.string_of_list_ascii (replicate (Z.to_nat TRANSCRIPT_LENGTH) "t"%char).

Definition contention_runner : RunnerTranscript := {|
  rn_component := RUNNER_COMPONENT_ID; rn_name := RUNNER_COMPONENT_ID; rn_version := sample_revision;
  rn_source_revision := sample_revision; rn_operating_system := "Linux"; rn_architecture := "x86_64";
  rn_profile_runtime_matches := true; rn_profile_source_matches := true |}.

Definition contention_transcript : Transcript :=
  let '(aggregates, ranking, classification) := match aggregate_contention sample_plan contention_rounds with
    | Ok aggregated => aggregated
    | Err _ => ([], {| ranking_basis := ConcurrentAcceptedThroughputPerSecond; tie_breakers := []; ranking_entries := [] |},
                SweepClassification.Pass)
    end in {|
  ct_format := CONTENTION_TRANSCRIPT_FORMAT;
  ct_scenario := {| ts_id := CONTENTION_SCENARIO_ID; ts_version := CONTENTION_SCENARIO_VERSION |};
  ct_contract_digests := {| profile_sha256 := hash_text "profile"; scenario_sha256 := hash_text "scenario" |};
  ct_profile := {| tp_id := prof_id sample_profile; tp_resolved_at := prof_resolved_at sample_profile |};
  ct_runner := contention_runner; ct_fixture_id := "run1"; ct_parameters := sample_parameters; ct_rounds := contention_rounds;
  ct_aggregates := aggregates; ct_ranking := ranking; ct_classification := classification;
  ct_sanitization := {| cs_policy := "catalog-bench/value-safe-contention-v1"; cs_redactions := [];
    cs_raw_secrets_persisted := false; cs_raw_response_body_persisted := false;
    cs_raw_request_identities_persisted := false; cs_write_mode := "create-new" |} |}.

Example beta_failed :
  (fun a => (run_catalog (agg_catalog a), agg_passed a)) <$> ct_aggregates contention_transcript = [("alpha", true); ("beta", false)].
Proof. vm_compute. reflexivity. Qed.

Definition beta_failure : FailureReview := {|
  fr_catalog := "beta"; fr_category := FailureCategory.Assertion; fr_summary := "one error"; fr_detail := "one HTTP 500";
  fr_retryable := false; fr_conditioning_errors := 0; fr_measured_errors := 1; fr_http_status_counts := {[ 500%Z := 1%Z ]};
  fr_log_observations := [{| lo_component := "beta"; lo_observed_at := "2025-02-28T23:59:59.5Z"; lo_signature := "HTTP 500";
                             lo_context := ["a line"] |}] |}.

Definition contention_review : ResultReview := {|
  rv_format := Contention.REVIEW_FORMAT;
  rv_bundle := {| rb_id := Contention.BUNDLE_ID; rb_title := "Contention"; rb_output_directory := Contention.OUTPUT_DIRECTORY;
                  rb_created_at := "2025-03-01T00:00:00Z" |};
  rv_run := {|
    run_fixture_id := "run1";
    run_transcript := {| rsrc_location := Contention.TRANSCRIPT_PATH; rsrc_sha256 := Contention.TRANSCRIPT_SHA256;
                         rsrc_bytes := TRANSCRIPT_LENGTH |};
    run_sanitized_invocation := "run"; run_started_at := "2025-02-28T23:59:59.5Z"; run_started_at_basis := "log";
    run_completed_at := "2025-02-28T23:59:59.75Z"; run_completed_at_basis := "log" |};
  rv_environment := rec_environment sample_record; rv_failures := [beta_failure];
  rv_redaction := {| red_reviewed := true; red_policy := "v1"; red_removed_fields := ["tokens"] |};
|}.

#[local] Instance contention_serializer : Serialize Transcript := fun t =>
  Some (json_object [("format", Str (ct_format t)); ("fixture_id", Str (ct_fixture_id t))]).
#[local] Instance contention_transcript_decoder : ContentionTranscriptDecoder := fun text =>
  if (str_len text =? TRANSCRIPT_LENGTH)%Z then Ok contention_transcript else Err "expected a transcript".
#[local] Instance contention_review_decoder : ContentionReviewDecoder := fun _ => Ok contention_review.

Example contention_review_verified :
  verify_review contention_review contention_transcript transcript_file sample_profile (ct_aggregates contention_transcript) = Ok tt.
Proof. vm_compute. reflexivity. Qed.

Lemma reviewed_failures_are_attributed_witness :
  Forall (attributed sample_profile contention_transcript) (rv_failures contention_review) /\
  ("beta" ∈ fr_catalog <$> rv_failures contention_review <-> "beta" ∈ failed_catalogs (ct_aggregates contention_transcript)).
Proof.
  destruct (reviewed_failures_are_attributed _ _ _ _ _ contention_review_verified) as (_ & Hcover & Hattributed & _).
  split; [exact Hattributed|exact (Hcover "beta")].
Defined.

Definition contention_artifact (name bytes : string) : ArtifactReference := artifact name "application/json" bytes "sample".

Definition contention_context : ResultBuildContext := {|
  rc_transcript := contention_transcript; rc_review := contention_review; rc_profile := sample_profile;
  rc_profile_artifact := contention_artifact "../../../profiles/v1/contention-2026-08-27.json" "profile";
  rc_scenario := contention_scenario;
  rc_scenario_artifact := contention_artifact "../../../scenarios/v1/iceberg-rest.commit.same-table-contention.v2.json" "scenario";
  rc_transcript_artifact := contention_artifact "../../contention-2026-08-27-transcript.json" transcript_file;
  rc_review_artifact := contention_artifact "../../contention-2026-08-27-review.json" "review" |}.

(** The results of the two catalogs. *)
Definition contention_records : list ResultRecord :=
  omap (fun aggregate =>
    component ← find (fun c => comp_id c =? run_catalog (agg_catalog aggregate)) (prof_components sample_profile);
    match contention_result component aggregate
            (find (fun f => fr_catalog f =? run_catalog (agg_catalog aggregate)) (rv_failures contention_review)) contention_context with
    | Ok record => Some record
    | Err _ => None
    end) (ct_aggregates contention_transcript).

Example contention_verdicts : passed ∘ rec_outcome <$> contention_records = [true; false].
Proof. vm_compute. reflexivity. Qed.
(** A document is encoded as its kind and its identifier. *)
#[local] Instance contention_record_text : ToVecPretty ResultRecord := fun record => Ok ("result " +:+ rec_id record).

Definition contention_manifest_record : ResultBundleManifest :=
  contention_manifest contention_review contention_transcript (rc_profile_artifact contention_context)
    (rc_scenario_artifact contention_context) (rc_transcript_artifact contention_context)
    (rc_review_artifact contention_context)
    ((fun record => artifact (exec_profile_component (rec_catalog record) +:+ ".json") "application/json"
                      ("result " +:+ rec_id record +:+ lf) "result") <$> contention_records).

#[local] Instance contention_decoders : ContractDecoders := {
  from_slice text :=
    let words := split_byte 32 (hd "" (split_byte 10 text)) in
    Ok (json_object [("kind", Str (hd "" words)); ("id", Str (default "" (words !! 1%nat)))]);
  from_value_scenario _ := Ok contention_scenario;
  from_value_result value := match value with
    | Object entries => ok_or (find (fun record => existsb (fun entry : string * Value => match entry.2 with
        | Str text => text =? rec_id record | _ => false end) entries) contention_records) "no result"
    | _ => Err "no result"
    end;
  from_value_profile _ := Ok sample_profile;
  from_value_manifest _ := Ok contention_manifest_record;
}.

Definition contention_inputs : Tree := [
  ("./results/contention-2026-08-27-transcript.json", transcript_file);
  ("./results/contention-2026-08-27-review.json", "review"); ("./profiles/v1/contention-2026-08-27.json", "profile");
  ("./scenarios/v1/iceberg-rest.commit.same-table-contention.v2.json", "scenario");
  ("./results/v1/2026-08-27/../../contention-2026-08-27-transcript.json", transcript_file);
  ("./results/v1/2026-08-27/../../contention-2026-08-27-review.json", "review");
  ("./results/v1/2026-08-27/../../../profiles/v1/contention-2026-08-27.json", "profile");
  ("./results/v1/2026-08-27/../../../scenarios/v1/iceberg-rest.commit.same-table-contention.v2.json", "scenario")].

Definition contention_tree : Tree := (write_contention_result_bundle "." contention_inputs).2.

Lemma checked_contention_bundle_states_rounds_witness :
  check_contention_bundle "." contention_tree = Ok "./results/v1/2026-08-27/manifest.json" /\
  exists transcript plan aggregates ranking,
    aggregate_contention plan (ct_rounds transcript) = Ok (aggregates, ranking, ct_classification transcript) /\
    forall aggregate, aggregate ∈ aggregates -> run_catalog (agg_catalog aggregate) <> "manifest" ->
      exists record, states_rounds plan transcript (run_catalog (agg_catalog aggregate)) record.
Proof.
  assert (Hcheck : check_contention_bundle "." contention_tree = Ok "./results/v1/2026-08-27/manifest.json")
    by (vm_compute; reflexivity).
  split; [exact Hcheck|].
  destruct (checked_contention_bundle_states_rounds _ _ _ Hcheck)
    as (transcript & _ & _ & plan & aggregates & ranking & _ & _ & Haggregated & Hall).
  exists transcript, plan, aggregates, ranking. split; [exact Haggregated|]. intros aggregate Hin Hne.
  destruct (Hall aggregate Hin Hne) as (record & _ & Hstates & _). exists record. exact Hstates.
Defined.
End ContentionBundle.

Lemma published_counters_are_exact_witness :
  sum_counts (f64_of_Z <$> [5; 9007199254740991; 0]%Z) = Ok 9007199254740996%Z.
Proof.
  rewrite published_counters_are_exact; [vm_compute; reflexivity|].
  repeat constructor; vm_compute; congruence.
Defined.

(** A count of 2^53 + 1 is rounded. *)
Example large_counters_are_rounded : sum_counts [f64_of_Z 9007199254740993] = Ok 9007199254740992%Z.
Proof. vm_compute. reflexivity. Qed.

(** ** The behavioral bundle

    Five scenarios and five catalogs. A document is encoded as its kind and the
    identifiers it is about. *)

Section Phase1.

Definition phase1_catalogs : list string := ["c1"; "c2"; "c3"; "c4"; "c5"].
Definition phase1_pairs : list (string * string) := SCENARIO_FILES.*1 ≫= fun id => pair id <$> phase1_catalogs.

Definition phase1_scenario (id : string) : Scenario := {|
  scen_contract_version := V1; scen_kind := ScenarioKind; scen_id := id; scen_version := 1; scen_title := "Behavior";
  scen_description := "Behavior"; scen_family := Concurrency; scen_classification := StrictV1; scen_tags := [];
  scen_capabilities := scen_capabilities sample_scenario; scen_parameters := ∅; scen_steps := scen_steps sample_scenario;
  scen_assertions := [observed_assertion "clean"]; scen_extensions := ∅ |}.

Definition phase1_profile : Profile := {|
  prof_contract_version := V1; prof_kind := ProfileKind; prof_id := "profile"; prof_title := "Profile";
  prof_description := "Five catalogs"; prof_resolved_at := "2025-01-01"; prof_purpose := Performance; prof_readiness := Runnable;
  prof_platform := prof_platform sample_profile;
  prof_components := ([sample_component "minio" ObjectStore None "3"; sample_component "pyiceberg" Client None "1"]
    ++ ((fun catalog => sample_component catalog Catalog None "1") <$> phase1_catalogs))%list;
  prof_services := (sample_service "minio" "object-store" "http://minio" ∅
    :: ((fun catalog => sample_service catalog "iceberg-rest-catalog" ("http://" +:+ catalog) ∅) <$> phase1_catalogs));
  prof_catalog_capabilities := prof_catalog_capabilities sample_profile;
  prof_catalog_adapters := (fun catalog => sample_adapter catalog ("http://" +:+ catalog) Anonymous ExerciseAll) <$> phase1_catalogs;
  prof_extensions := ∅ |}.

Definition phase1_transcript (id catalog : string) : Value := json_object [
  ("format", Str "behavior/v1"); ("sanitization", json_object [("raw_rows_persisted", Bool false)]);
  ("scenario", json_object [("id", Str id); ("version", uint_json 1)]);
  ("contract_digests", json_object [("scenario_sha256", Str (hash_text ("scenario " +:+ id)));
                                    ("profile_sha256", Str (hash_text "profile"))]);
  ("profile", Str "profile");
  ("adapter", json_object [("catalog", Str catalog); ("name", Str catalog); ("version", Str "1")]);
  ("classification", json_object [("status", Str "pass")]);
  ("assertions", Array [json_object [("assertion", Str "clean"); ("required", Bool true);
                                     ("outcome", json_object [("status", Str "pass")])]])].

Definition word (n : nat) (text : string) : string := default "" (split_byte 32 (hd "" (split_byte 10 text)) !! n).

Definition evidence_path (id catalog : string) : string := "source/ev/" +:+ id +:+ "/" +:+ catalog +:+ ".json".
Definition evidence_text (id catalog : string) : string := "transcript " +:+ id +:+ " " +:+ catalog.

Definition behavioral_record (id catalog : string) : ResultRecord := {|
  rec_contract_version := V1; rec_kind := ResultKind; rec_id := id +:+ "-" +:+ catalog;
  rec_scenario := {| sref_id := id; sref_version := 1; sref_digest := artifact_digest (plain_artifact "s" ("scenario " +:+ id)) |};
  rec_profile := {| pref_id := "profile"; pref_digest := artifact_digest (plain_artifact "p" "profile") |};
  rec_catalog := {| exec_profile_component := catalog; exec_name := catalog; exec_version := "1" |};
  rec_client := None; rec_adapters := []; rec_run := rec_run sample_record; rec_outcome := rec_outcome sample_record;
  rec_environment := rec_environment sample_record;
  rec_assertions := [{| eval_assertion := "clean"; eval_required := true; eval_outcome := AssertionPass;
                        eval_evidence := [PHASE1_EVIDENCE_ID] |}];
  rec_measurements := [];
  rec_evidence := [{| ev_id := PHASE1_EVIDENCE_ID; ev_kind := EvidenceKind.HttpTranscript;
    ev_artifact := plain_artifact ("../../" +:+ evidence_path id catalog) (evidence_text id catalog);
    ev_sanitized := true; ev_redactions := []; ev_extensions := ∅ |}];
  rec_artifacts := []; rec_extensions := ∅ |}.

Definition phase1_manifest_record : ResultBundleManifest := {|
  man_contract_version := V1; man_kind := ManifestKind; man_id := "phase1"; man_title := "Behavior"; man_created_at := "2025-01-01";
  man_provenance := ContractDocument.Fixture "test data"; man_profile := plain_artifact "../../../profiles/v1/p.json" "profile";
  man_scenarios := (fun id => plain_artifact ("../../../scenarios/v1/" +:+ id +:+ ".json") ("scenario " +:+ id)) <$> SCENARIO_FILES.*1;
  man_results := (fun p : string * string =>
    plain_artifact (result_file p.1 p.2) ("result " +:+ p.1 +:+ " " +:+ p.2 +:+ lf)) <$> phase1_pairs;
  man_source_evidence := []; man_redaction := man_redaction sample_manifest; man_extensions := ∅ |}.

#[local] Instance phase1_value_text : ToVecPretty Value := fun value =>
  match value_get "kind" value ≫= as_str with
  | Some "result" => Ok ("result " +:+ unwrap_or (text value "/scenario/id") "" +:+ " "
                           +:+ unwrap_or (text value "/catalog/profile_component") "")
  | _ => Ok "manifest"
  end.

#[local] Instance phase1_decoders : ContractDecoders := {
  from_slice bytes :=
    if word 0 bytes =? "transcript" then Ok (phase1_transcript (word 1 bytes) (word 2 bytes))
    else Ok (json_object [("kind", Str (word 0 bytes)); ("first", Str (word 1 bytes)); ("second", Str (word 2 bytes))]);
  from_value_scenario value := Ok (phase1_scenario (unwrap_or (text value "/first") ""));
  from_value_result value := Ok (behavioral_record (unwrap_or (text value "/first") "") (unwrap_or (text value "/second") ""));
  from_value_profile _ := Ok phase1_profile;
  from_value_manifest _ := Ok phase1_manifest_record;
}.

#[local] Instance phase1_outcomes : FromValue AssertionOutcome := fun _ => Ok AssertionPass.

#[local] Instance phase1_review : Phase1ReviewDecoder := fun _ => Ok {|
  p1_format := "catalog-bench/phase1-result-review/v1";
  p1_bundle := {| rb_id := "phase1"; rb_title := "Behavior"; rb_output_directory := "results/v1/phase1";
                  rb_created_at := "2025-03-01T00:00:00Z" |};
  p1_run := {| p1_run_id := "run"; p1_started_at := "2025-02-28T00:00:00Z"; p1_completed_at := "2025-02-28T01:00:00Z";
               p1_sanitized_invocation := "run" |};
  p1_source_profile := "profiles/v1/p.json"; p1_publication_profile := "profiles/v1/p.json";
  p1_evidence_directory := "results/source/ev";
  p1_environment := {| p1_operating_system := "Linux"; p1_architecture := "aarch64"; p1_logical_cpus := 8; p1_memory_bytes := 1;
                       p1_container_runtime := "docker"; p1_network := "bridge" |};
  p1_redaction := {| p1_reviewed := true; p1_policy := "v1"; p1_removed_fields := ["tokens"] |} |}.

(** The inputs, also under the paths that a bundle names them by. *)
Definition phase1_inputs : Tree :=
  ([("./" +:+ PHASE1_REVIEW, "review"); ("./profiles/v1/p.json", "profile");
    ("./results/v1/phase1/../../../profiles/v1/p.json", "profile")]
   ++ (SCENARIO_FILES.*1 ≫= fun id => [("./scenarios/v1/" +:+ id +:+ ".json", "scenario " +:+ id);
        ("./results/v1/phase1/../../../scenarios/v1/" +:+ id +:+ ".json", "scenario " +:+ id)])
   ++ (phase1_pairs ≫= fun p => [("./results/" +:+ evidence_path p.1 p.2, evidence_text p.1 p.2);
        ("./results/v1/phase1/../../" +:+ evidence_path p.1 p.2, evidence_text p.1 p.2)]))%list.

Definition phase1_written : option (result string Chain * Tree) := write_phase1_bundle 5 "." phase1_inputs.

Definition phase1_tree : Tree := default [] (snd <$> phase1_written).

Lemma checked_phase1_bundle_is_the_matrix_witness :
  check_phase1_bundle 5 "." phase1_tree = Some (Ok "./results/v1/phase1/manifest.json") /\
  exists context paths rendered, complete_matrix "." context phase1_tree paths rendered.
Proof.
  assert (Hcheck : check_phase1_bundle 5 "." phase1_tree = Some (Ok "./results/v1/phase1/manifest.json"))
    by (vm_compute; reflexivity).
  split; [exact Hcheck|].
  destruct (checked_phase1_bundle_is_the_matrix _ _ _ _ Hcheck) as (context & paths & rendered & _ & _ & Hmatrix & _).
  exists context, paths, rendered. exact Hmatrix.
Defined.

Example missing_transcript_rejected :
  check_phase1_bundle 5 "." (List.filter (fun file => negb (file.1 =? "./results/source/ev/iceberg-rest.table.behavior/c5.json"))
    phase1_inputs) = Some (Err ["Phase 1 evidence must contain exactly 25 transcripts"]).
Proof. vm_compute. reflexivity. Qed.

Lemma phase1_check_returns_witness :
  nested phase1_inputs (tree_height phase1_inputs) /\
  exists outcome, check_phase1_bundle (S (S (longest phase1_inputs))) "." phase1_inputs = Some outcome.
Proof.
  split; [apply tree_nested|]. apply (phase1_check_returns (tree_height phase1_inputs)); [apply tree_nested|].
  intros directory. unfold tree_height. apply Nat.lt_succ_r, Nat.le_sub_l.
Defined.
End Phase1.
