(* ===== verification/CommandLines.v ===== *)
(** * Evidence files and command lines
      (crates/conformance/src/evidence_file.rs, the [main.rs] of crates/conformance,
      crates/commit, crates/engine and crates/contract-tool)

    Durable publication of evidence over a file system with hard links, and the
    programs around the probes, the sweep, the engine run and the checks. *)

From S2P Require Import Prelude Order RustStr Float64 FloatText Json ContractValue ContractScenario ContractAdapter ContractProfile.
From S2P Require Import ContractResult ContractDocument Sanitization Ledger Policy Transport Sanitize Capture ProbePolicy Routing Operation.
From S2P Require Import Stats ConfigProbe NamespaceProbe TableProbe CommitProbe Protocol Store Workflow Aggregate Sweep.
From S2P Require Import Connection EngineParameters EnginePlan EngineSql EngineRuntime EngineEvents EngineCatalog EngineWorkflow.
From S2P Require Import EngineProcess EngineTrino EngineDecode EngineDuckDb EngineTrinoProcess EngineAdapters EngineTranscript.
From S2P Require Import ToolFiles Publication Bundle EngineReview ProfileMaterialization ProfileMaterializationProofs.
From S2P Require Import CommunityPublication LegacyCommit Matrix ContentionBundle EngineBundle Phase1Bundle.
From Stdlib Require Import Ascii.
Open Scope string_scope.

(** ** A file system with hard links (what evidence_file.rs uses of [std::fs])

    A name refers to an inode; a file that is open is written through its inode,
    so every name of it shows the write. [fd_synced] are the inodes whose bytes have
    reached the device, [fd_synced_names] the names that have, each when the
    directory that holds it was last synchronised. *)

Record Disk := {
  fd_names : gmap string N;
  fd_inodes : gmap N string;
  fd_directories : gset string;
  fd_synced : gset N;
  fd_synced_names : gmap string N;
}.

(** The bytes a name leads to. *)
Definition read_name (name : string) (d : Disk) : option string := fd_names d !! name ≫= (fun inode => fd_inodes d !! inode).

(** Every name leads to bytes. *)
Definition disk_sound (d : Disk) : Prop := forall name inode, fd_names d !! name = Some inode -> is_Some (fd_inodes d !! inode).

Definition set_names (names : gmap string N) (d : Disk) : Disk := {|
  fd_names := names; fd_inodes := fd_inodes d; fd_directories := fd_directories d; fd_synced := fd_synced d;
  fd_synced_names := fd_synced_names d |}.

(** What a process sees of its run: the disk, and the disks it went through before,
    the latest first. *)
Record Run := { run_disk : Disk; run_past : list Disk }.
Definition begin (d : Disk) : Run := {| run_disk := d; run_past := [] |}.
Definition advance (d : Disk) (r : Run) : Run := {| run_disk := d; run_past := run_disk r :: run_past r |}.
(** Every moment of a run. *)
Definition moments (r : Run) : list Disk := run_disk r :: run_past r.

(** ** Publication *)

Module EvidenceWriteFailureKind.
Inductive t := CreateParent | CreateTemporaryFile | Write | SyncFile | Publish | RemoveTemporaryFile | SyncParent.
End EvidenceWriteFailureKind.

Record EvidenceWriteFailure := { ewf_kind : EvidenceWriteFailureKind.t; ewf_source : string }.

(** [Display] and the source. *)
Definition failure_kind_name (kind : EvidenceWriteFailureKind.t) : string :=
  match kind with
  | EvidenceWriteFailureKind.CreateParent => "CreateParent"
  | EvidenceWriteFailureKind.CreateTemporaryFile => "CreateTemporaryFile"
  | EvidenceWriteFailureKind.Write => "Write"
  | EvidenceWriteFailureKind.SyncFile => "SyncFile"
  | EvidenceWriteFailureKind.Publish => "Publish"
  | EvidenceWriteFailureKind.RemoveTemporaryFile => "RemoveTemporaryFile"
  | EvidenceWriteFailureKind.SyncParent => "SyncParent"
  end.
Definition write_failure_chain (failure : EvidenceWriteFailure) : Chain :=
  ["evidence publication failed at stage " +:+ failure_kind_name (ewf_kind failure); ewf_source failure].

(** The system calls of a run can fail at any time and write fewer bytes than they
    are given. *)
Inductive SystemCall := Mkdir | OpenNew | Fsync | Link | Unlink | FsyncDirectory.
Class SystemFaults := {
  call_fault : SystemCall -> string -> Disk -> option string;
  write_some : string -> Disk -> result nat string;
}.

(** [resolve] is the file a path means, whatever links and [..] it goes through;
    [temporary_path] the name the tempfile crate tries in a directory. *)
Class PathMeaning := resolve : string -> string.
Class TemporaryNames := temporary_path : string -> string -> Disk -> string.

Definition OUTPUT_PREFIX : string := ".catalog-bench-evidence-".

(** The open temporary file: its path and its inode. *)
Record Temporary := { tmp_path : string; tmp_inode : N }.

Definition output_parent (path : string) : string :=
  match parent_path path with
  | Some parent => if is_empty parent then "." else parent
  | None => "."
  end.

Section Publication.
Context `{SystemFaults, PathMeaning, TemporaryNames}.

(** A call that fails leaves the disk as it is. *)
Definition call {A} (which : SystemCall) (path : string) (effect : Disk -> result (A * Disk) string) (r : Run)
  : result A string * Run :=
  match call_fault which path (run_disk r) with
  | Some e => (Err e, r)
  | None =>
      match effect (run_disk r) with
      | Ok (a, d) => (Ok a, advance d r)
      | Err e => (Err e, r)
      end
  end.

(** The directory and its ancestors, the outermost first; [fuel] exceeds the
    number of components. *)
Fixpoint ancestors (fuel : nat) (path : string) : list string :=
  match fuel with
  | O => [path]
  | S fuel => match parent_path path with
              | Some parent => if is_empty parent then [path] else (ancestors fuel parent ++ [path])%list
              | None => [path]
              end
  end.

(** [fs::create_dir_all]. *)
Definition create_directory (path : string) : Run -> result unit string * Run :=
  call Mkdir path (fun d =>
    if bool_decide (is_Some (fd_names d !! resolve path)) then Err "Not a directory"
    else Ok (tt, {| fd_names := fd_names d; fd_inodes := fd_inodes d;
                    fd_directories := {[resolve path]} ∪ fd_directories d; fd_synced := fd_synced d;
                    fd_synced_names := fd_synced_names d |})).
Fixpoint create_each_directory (paths : list string) (r : Run) : result unit string * Run :=
  match paths with
  | [] => (Ok tt, r)
  | path :: paths => step? _ with r := create_directory path r in create_each_directory paths r
  end.
Definition create_dir_all (path : string) : Run -> result unit string * Run :=
  create_each_directory (ancestors (String.length path) path).

(** [Builder::tempfile_in]: the file is opened with [O_CREAT | O_EXCL]. *)
Definition tempfile_in (directory prefix : string) : Run -> result Temporary string * Run :=
  call OpenNew directory (fun d =>
    let path := temporary_path directory prefix d in
    let inode := fresh (dom (fd_inodes d)) in
    if bool_decide (is_Some (fd_names d !! resolve path)) then Err "File exists"
    else if negb (bool_decide (resolve directory ∈ fd_directories d)) then Err "No such file or directory"
    else Ok ({| tmp_path := path; tmp_inode := inode |},
             {| fd_names := <[resolve path := inode]> (fd_names d); fd_inodes := <[inode := ""]> (fd_inodes d);
                fd_directories := fd_directories d; fd_synced := fd_synced d ∖ {[inode]};
                fd_synced_names := fd_synced_names d |})).

(** One [write] at the end of the open file. *)
Definition append_bytes (inode : N) (bytes : string) (d : Disk) : Disk := {|
  fd_names := fd_names d; fd_inodes := <[inode := default "" (fd_inodes d !! inode) +:+ bytes]> (fd_inodes d);
  fd_directories := fd_directories d; fd_synced := fd_synced d ∖ {[inode]}; fd_synced_names := fd_synced_names d |}.

(** [Write::write_all]: each call writes some prefix of what is left; none written
    is an error. As each writes at least one byte the length is enough fuel. *)
Fixpoint write_all (fuel : nat) (file : Temporary) (rest : string) (r : Run) : result unit string * Run :=
  if is_empty rest then (Ok tt, r)
  else match fuel with
       | O => (Err "failed to write whole buffer", r)
       | S fuel =>
           match write_some rest (run_disk r) with
           | Err e => (Err e, r)
           | Ok O => (Err "failed to write whole buffer", r)
           | Ok n =>
               let n := Nat.min n (String.length rest) in
               write_all fuel file (String.substring n (String.length rest - n) rest)
                 (advance (append_bytes (tmp_inode file) (String.substring 0 n rest) (run_disk r)) r)
           end
       end.

(** [File::sync_all]. *)
Definition sync_file (file : Temporary) : Run -> result unit string * Run :=
  call Fsync (tmp_path file) (fun d =>
    Ok (tt, {| fd_names := fd_names d; fd_inodes := fd_inodes d; fd_directories := fd_directories d;
               fd_synced := {[tmp_inode file]} ∪ fd_synced d; fd_synced_names := fd_synced_names d |})).

(** [fs::hard_link]: the new name must not exist. *)
Definition hard_link (original link : string) : Run -> result unit string * Run :=
  call Link link (fun d =>
    match fd_names d !! resolve original, fd_names d !! resolve link with
    | None, _ => Err "No such file or directory"
    | _, Some _ => Err "File exists"
    | Some inode, None =>
        if bool_decide (resolve link ∈ fd_directories d) then Err "File exists"
        else Ok (tt, set_names (<[resolve link := inode]> (fd_names d)) d)
    end).

(** [fs::remove_file]. *)
Definition remove_file (path : string) : Run -> result unit string * Run :=
  call Unlink path (fun d =>
    match fd_names d !! resolve path with
    | None => Err "No such file or directory"
    | Some _ => Ok (tt, set_names (delete (resolve path) (fd_names d)) d)
    end).

(** The names a directory holds; the directory of the file a path means is the
    parent of that file. *)
Definition held_in (directory : string) (names : gmap string N) : gmap string N :=
  filter (fun entry => output_parent entry.1 = directory) names.
Definition held_elsewhere (directory : string) (names : gmap string N) : gmap string N :=
  filter (fun entry => output_parent entry.1 <> directory) names.

(** [File::open(parent).and_then(|directory| directory.sync_all())]: the names of this
    directory reach the device, those of others stay as they are there. *)
Definition sync_directory (path : string) : Run -> result unit string * Run :=
  call FsyncDirectory path (fun d =>
    if bool_decide (is_Some (fd_names d !! resolve path)) || bool_decide (resolve path ∈ fd_directories d)
    then Ok (tt, {| fd_names := fd_names d; fd_inodes := fd_inodes d; fd_directories := fd_directories d;
                    fd_synced := fd_synced d;
                    fd_synced_names := held_in (resolve path) (fd_names d)
                      ∪ held_elsewhere (resolve path) (fd_synced_names d) |})
    else Err "No such file or directory").

Definition at_stage {A} (kind : EvidenceWriteFailureKind.t) (outcome : result A string * Run)
  : result A EvidenceWriteFailure * Run :=
  (map_err (fun e => {| ewf_kind := kind; ewf_source := e |}) outcome.1, outcome.2).

(** [NamedTempFile] removes its file when it is dropped and ignores errors. *)
Definition drop_temporary (file : Temporary) (r : Run) : Run := (remove_file (tmp_path file) r).2.

Definition sync_parent (parent : string) (r : Run) : result unit EvidenceWriteFailure * Run :=
  at_stage EvidenceWriteFailureKind.SyncParent (sync_directory parent r).

Definition write_new_evidence (path bytes : string) (r : Run) : result unit EvidenceWriteFailure * Run :=
  let parent := output_parent path in
  step? _ with r := at_stage EvidenceWriteFailureKind.CreateParent (create_dir_all parent r) in
  step? temporary with r := at_stage EvidenceWriteFailureKind.CreateTemporaryFile (tempfile_in parent OUTPUT_PREFIX r) in
  let published :=
    step? _ with r := at_stage EvidenceWriteFailureKind.Write (write_all (String.length bytes) temporary bytes r) in
    step? _ with r := at_stage EvidenceWriteFailureKind.SyncFile (sync_file temporary r) in
    at_stage EvidenceWriteFailureKind.Publish (hard_link (tmp_path temporary) path r) in
  match published with
  | (Err e, r) => (Err e, drop_temporary temporary r)
  | (Ok _, r) =>
      step? _ with r := at_stage EvidenceWriteFailureKind.RemoveTemporaryFile (remove_file (tmp_path temporary) r) in
      sync_parent parent r
  end.
End Publication.

(** ** Publication is atomic (crates/conformance/src/evidence_file.rs) *)

(** A moment of a run that publishes [bytes] under [name]: no name or file there was
    has changed, and the name is as it was or leads to all of the bytes, synchronised. *)
Record undisturbed (d0 : Disk) (name bytes : string) (d : Disk) : Prop := {
  un_sound : disk_sound d;
  un_names : fd_names d0 ⊆ fd_names d;
  un_inodes : fd_inodes d0 ⊆ fd_inodes d;
  un_new : fd_names d !! name = fd_names d0 !! name \/
    (fd_names d0 !! name = None /\ exists inode, fd_names d !! name = Some inode /\ fd_inodes d !! inode = Some bytes /\
       inode ∈ fd_synced d);
}.

(** The kinds of failure after which the evidence has its name. *)
Definition published_at (kind : EvidenceWriteFailureKind.t) : bool :=
  match kind with EvidenceWriteFailureKind.RemoveTemporaryFile | EvidenceWriteFailureKind.SyncParent => true | _ => false end.

(** The directory holds the names it held when it was last synchronised. *)
Definition names_durable (directory : string) (d : Disk) : Prop :=
  forall name, output_parent name = directory -> fd_synced_names d !! name = fd_names d !! name.


Lemma synchronised_names directory names before name :
  output_parent name = directory ->
  (held_in directory names ∪ held_elsewhere directory before) !! name = names !! name.
Proof.
  intros Hheld. unfold held_in, held_elsewhere. rewrite lookup_union, !map_lookup_filter.
  destruct (names !! name); cbn; rewrite ?option_guard_True, ?option_guard_False by auto; cbn;
    destruct (before !! name); cbn; rewrite ?option_guard_False by auto; done.
Qed.

(** The name leads to all of the bytes, and was new. *)
Definition evidence_published (d0 : Disk) (name bytes : string) (d : Disk) : Prop :=
  fd_names d0 !! name = None /\ read_name name d = Some bytes.

Lemma substring_split n s : (n <= String.length s)%nat ->
  String.substring 0 n s +:+ String.substring n (String.length s - n) s = s.
Proof.
  assert (Hall : forall t, String.substring 0 (String.length t) t = t).
  { induction t as [|c t IH]; cbn; [done|by rewrite IH]. }
  revert n. induction s as [|c s IH]; intros [|n] Hn; cbn in *; [done|lia|by rewrite Hall|].
  change (String c (String.substring 0 n s +:+ String.substring n (String.length s - n) s) = String c s).
  f_equal. apply IH. lia.
Qed.

Section Atomicity.
Context `{SystemFaults, PathMeaning, TemporaryNames} (d0 : Disk) (path evidence : string).
Hypothesis sound : disk_sound d0.
Hypothesis names_apart : forall d, resolve (temporary_path (output_parent path) OUTPUT_PREFIX d) <> resolve path.

Definition quiet (r : Run) : Prop := Forall (undisturbed d0 (resolve path) evidence) (moments r).

(** The disk has these names and inodes. *)
Definition layout (names : gmap string N) (inodes : gmap N string) (d : Disk) : Prop :=
  fd_names d = names /\ fd_inodes d = inodes.

Lemma quiet_advance d r : quiet r -> undisturbed d0 (resolve path) evidence d -> quiet (advance d r).
Proof. intros. by constructor. Qed.

Lemma call_ends {A} which p (effect : Disk -> result (A * Disk) string) r outcome r' :
  call which p effect r = (outcome, r') ->
  match outcome with
  | Err _ => r' = r
  | Ok a => exists d, effect (run_disk r) = Ok (a, d) /\ r' = advance d r
  end.
Proof.
  unfold call. destruct (call_fault _ _ _); [by intros [= <- <-]|].
  destruct (effect (run_disk r)) as [[a d]|]; intros [= <- <-]; [by exists d|done].
Qed.

Lemma undisturbed_before d inodes : fd_names d = fd_names d0 -> fd_inodes d = inodes -> fd_inodes d0 ⊆ inodes ->
  undisturbed d0 (resolve path) evidence d.
Proof.
  intros Hn <- Hi. split; [|by rewrite Hn|done|left; by rewrite Hn].
  intros name inode. rewrite Hn. intros [text Htext]%sound. exists text. by eapply lookup_weaken.
Qed.

Lemma undisturbed_writing d name inode content :
  name <> resolve path -> fd_names d0 !! name = None -> fd_inodes d0 !! inode = None ->
  layout (<[name := inode]> (fd_names d0)) (<[inode := content]> (fd_inodes d0)) d ->
  undisturbed d0 (resolve path) evidence d.
Proof.
  intros Hne Hname Hinode [Hn Hi]. split; rewrite ?Hn, ?Hi.
  - intros other k. rewrite Hn, Hi. destruct (decide (other = name)) as [->|Ho].
    + rewrite lookup_insert_eq. intros [= <-]. rewrite lookup_insert_eq. by eexists.
    + rewrite lookup_insert_ne by done. intros [text Htext]%sound.
      rewrite lookup_insert_ne by (intros ->; congruence). by exists text.
  - by apply insert_subseteq.
  - by apply insert_subseteq.
  - left. by rewrite lookup_insert_ne.
Qed.

Lemma undisturbed_published d names inode :
  fd_names d0 !! resolve path = None -> fd_inodes d0 !! inode = None ->
  fd_names d0 ⊆ names -> (forall other k, names !! other = Some k -> k = inode \/ fd_names d0 !! other = Some k) ->
  layout (<[resolve path := inode]> names) (<[inode := evidence]> (fd_inodes d0)) d -> inode ∈ fd_synced d ->
  undisturbed d0 (resolve path) evidence d.
Proof.
  intros Hname Hinode Hsub Honly [Hn Hi] Hsynced. split; rewrite ?Hn, ?Hi.
  - intros other k. rewrite Hn, Hi. intros Hk. destruct (decide (k = inode)) as [->|Hne].
    { rewrite lookup_insert_eq. by eexists. }
    rewrite lookup_insert_ne by done. destruct (decide (other = resolve path)) as [->|Ho].
    + rewrite lookup_insert_eq in Hk. congruence.
    + rewrite lookup_insert_ne in Hk by done. apply Honly in Hk as [->|Hk]; [done|]. by apply sound in Hk.
  - apply map_subseteq_spec. intros other k Hother. rewrite lookup_insert_ne by congruence. by eapply lookup_weaken.
  - by apply insert_subseteq.
  - right. split; [done|]. exists inode. by rewrite !lookup_insert_eq.
Qed.

Lemma create_each_directory_quiet paths r outcome r' :
  quiet r -> layout (fd_names d0) (fd_inodes d0) (run_disk r) -> create_each_directory paths r = (outcome, r') ->
  quiet r' /\ layout (fd_names d0) (fd_inodes d0) (run_disk r').
Proof.
  revert r. induction paths as [|p paths IH]; intros r Hquiet Hlayout; cbn [create_each_directory].
  { by intros [= <- <-]. }
  destruct (create_directory p r) as [[[]|e] r1] eqn:Hcall; apply call_ends in Hcall.
  - destruct Hcall as (d & Heffect & ->). cbv beta in Heffect. destruct (bool_decide _); [done|].
    injection Heffect as <-. apply IH; [|done]. apply quiet_advance; [done|].
    destruct Hlayout as [Hn Hi]. eapply undisturbed_before; [done|reflexivity|]. cbn. by rewrite Hi.
  - subst r1. by intros [= <- <-].
Qed.

(** The temporary file has a name and an inode of its own. *)
Definition owned (file : Temporary) : Prop :=
  resolve (tmp_path file) <> resolve path /\ fd_names d0 !! resolve (tmp_path file) = None /\
  fd_inodes d0 !! tmp_inode file = None.
Definition writing (file : Temporary) (content : string) : Disk -> Prop :=
  layout (<[resolve (tmp_path file) := tmp_inode file]> (fd_names d0)) (<[tmp_inode file := content]> (fd_inodes d0)).

Lemma writing_quiet file content d r :
  owned file -> quiet r -> writing file content d -> quiet (advance d r).
Proof. intros (Hne & Hname & Hinode) Hquiet Hd. apply quiet_advance; [done|]. by eapply undisturbed_writing. Qed.

Lemma tempfile_quiet r outcome r' :
  quiet r -> layout (fd_names d0) (fd_inodes d0) (run_disk r) ->
  tempfile_in (output_parent path) OUTPUT_PREFIX r = (outcome, r') ->
  quiet r' /\ match outcome with
              | Ok file => owned file /\ writing file "" (run_disk r')
              | Err _ => layout (fd_names d0) (fd_inodes d0) (run_disk r')
              end.
Proof.
  intros Hquiet [Hn Hi] Hcall. unfold tempfile_in in Hcall. apply call_ends in Hcall.
  destruct outcome as [file|e]; [|by subst r']. destruct Hcall as (d & Heffect & ->). cbv beta zeta in Heffect.
  case_bool_decide as Hfree; [done|]. destruct (negb _); [done|]. injection Heffect as <- <-.
  rewrite <-eq_None_not_Some, Hn in Hfree. set (file := {| tmp_path := _; tmp_inode := _ |}).
  assert (Howned : owned file).
  { split; [apply names_apart|split; [done|]]. apply not_elem_of_dom. cbn. rewrite Hi. apply is_fresh. }
  assert (Hwriting : writing file "" (run_disk (advance
    {| fd_names := <[resolve (tmp_path file) := tmp_inode file]> (fd_names (run_disk r));
       fd_inodes := <[tmp_inode file := ""]> (fd_inodes (run_disk r));
       fd_directories := fd_directories (run_disk r); fd_synced := fd_synced (run_disk r) ∖ {[tmp_inode file]};
       fd_synced_names := fd_synced_names (run_disk r) |} r))).
  { split; cbn; by rewrite ?Hn, ?Hi. }
  split; [|done]. by eapply writing_quiet.
Qed.

Lemma write_all_quiet fuel file rest r content outcome r' :
  owned file -> quiet r -> writing file content (run_disk r) -> write_all fuel file rest r = (outcome, r') ->
  quiet r' /\ exists content', writing file content' (run_disk r') /\ (outcome = Ok tt -> content' = content +:+ rest).
Proof.
  intros Howned. revert rest r content. induction fuel as [|fuel IH]; intros rest r content Hquiet Hwriting;
    cbn [write_all]; destruct (is_empty rest) eqn:Hempty.
  1, 3: apply is_empty_spec in Hempty as ->; intros [= <- <-]; split; [done|]; exists content; split; [done|];
    intros _; by rewrite append_nil_r.
  { intros [= <- <-]. split; [done|]. by exists content. }
  destruct (write_some rest (run_disk r)) as [[|k]|e];
    [intros [= <- <-]; split; [done|]; by exists content| |intros [= <- <-]; split; [done|]; by exists content].
  cbv zeta. set (n := Nat.min (S k) (String.length rest)). intros Hrest. destruct Hwriting as [Hn Hi].
  assert (Hstep : writing file (content +:+ String.substring 0 n rest)
                    (append_bytes (tmp_inode file) (String.substring 0 n rest) (run_disk r))).
  { split; cbn; [done|]. rewrite Hi, lookup_insert_eq. apply insert_insert_eq. }
  eapply IH in Hrest as (Hquiet' & content' & Hwriting' & Hall); [|by eapply writing_quiet|exact Hstep].
  split; [done|]. exists content'. split; [done|]. intros Hok. rewrite (Hall Hok), string_app_assoc, substring_split; [done|].
  subst n. lia.
Qed.

(** The evidence under its name, with or without the temporary name. *)
Definition linked_as (file : Temporary) (d : Disk) : Prop :=
  fd_names d0 !! resolve path = None /\ tmp_inode file ∈ fd_synced d /\
  exists names, fd_names d0 ⊆ names /\ (forall other k, names !! other = Some k -> k = tmp_inode file \/ fd_names d0 !! other = Some k) /\
    layout (<[resolve path := tmp_inode file]> names) (<[tmp_inode file := evidence]> (fd_inodes d0)) d.

Lemma linked_undisturbed file d : owned file -> linked_as file d -> undisturbed d0 (resolve path) evidence d.
Proof.
  intros (_ & _ & Hinode) (Hnew & Hsynced & names & Hsub & Honly & Hlayout).
  by eapply undisturbed_published.
Qed.

Lemma linked_published file d : linked_as file d -> evidence_published d0 (resolve path) evidence d.
Proof.
  intros (Hnew & _ & names & _ & _ & [Hn Hi]). split; [done|]. unfold read_name.
  by rewrite Hn, Hi, lookup_insert_eq; cbn; rewrite lookup_insert_eq.
Qed.

(** Until the evidence has its name. *)
Lemma filling_quiet file r outcome r' :
  owned file -> quiet r -> writing file "" (run_disk r) ->
  (step? _ with r := at_stage EvidenceWriteFailureKind.Write (write_all (String.length evidence) file evidence r) in
   step? _ with r := at_stage EvidenceWriteFailureKind.SyncFile (sync_file file r) in
   at_stage EvidenceWriteFailureKind.Publish (hard_link (tmp_path file) path r)) = (outcome, r') ->
  quiet r' /\ match outcome with
              | Ok _ => linked_as file (run_disk r') /\
                  fd_names (run_disk r') = <[resolve path := tmp_inode file]> (<[resolve (tmp_path file) := tmp_inode file]> (fd_names d0))
              | Err failure => published_at (ewf_kind failure) = false /\ exists content, writing file content (run_disk r')
              end.
Proof.
  intros Howned Hquiet Hwriting. destruct (write_all _ file evidence r) as [written r1] eqn:Hwrite.
  eapply write_all_quiet in Hwrite as (Hquiet1 & content & Hwriting1 & Hall); [|done..].
  destruct written as [[]|e]; cbn [at_stage map_err fst snd]; [|intros [= <- <-]; split; [done|]; by eauto].
  rewrite (Hall eq_refl) in Hwriting1. clear Hall. cbn in Hwriting1.
  destruct (sync_file file r1) as [synced r2] eqn:Hsync. unfold sync_file in Hsync. apply call_ends in Hsync.
  destruct synced as [[]|e]; cbn [at_stage map_err fst snd]; [|subst r2; intros [= <- <-]; split; [done|]; by eauto].
  destruct Hsync as (d2 & [= <-] & ->).
  match goal with |- context [advance ?d r1] => set (d2 := d) end.
  assert (Hwriting2 : writing file evidence d2) by (destruct Hwriting1; split; done).
  assert (Hquiet2 : quiet (advance d2 r1)) by (by eapply writing_quiet).
  destruct (hard_link _ _ _) as [named r3] eqn:Hlink. unfold hard_link in Hlink. apply call_ends in Hlink.
  destruct named as [[]|e]; cbn [at_stage map_err fst snd]; [|subst r3; intros [= <- <-]; split; [done|]; by eauto].
  destruct Hlink as (d3 & Heffect & ->). cbv beta in Heffect. cbn [advance run_disk] in Heffect.
  destruct Howned as (Hne & Hname & Hinode). destruct Hwriting2 as [Hn Hi].
  rewrite Hn, lookup_insert_eq, lookup_insert_ne in Heffect by done.
  destruct (fd_names d0 !! resolve path) eqn:Hnew; [done|]. destruct (bool_decide _); [done|]. injection Heffect as <-.
  intros [= <- <-]. match goal with |- context [advance ?d (advance _ _)] => set (d3 := d) end.
  assert (Hlinked : linked_as file d3).
  { split; [done|]. split; [cbn; set_solver|]. eexists. split; [by apply insert_subseteq, Hname|]. split; [|split; [reflexivity|exact Hi]].
    intros other k. destruct (decide (other = resolve (tmp_path file))) as [->|Ho].
    - rewrite lookup_insert_eq. intros [= <-]. by left.
    - rewrite lookup_insert_ne by done. by right. }
  split; [|split; [done|reflexivity]]. apply quiet_advance; [done|]. by eapply linked_undisturbed.
Qed.

Lemma dropping_quiet file content r :
  owned file -> quiet r -> writing file content (run_disk r) ->
  quiet (drop_temporary file r) /\ fd_names (run_disk (drop_temporary file r)) !! resolve path = fd_names d0 !! resolve path.
Proof.
  intros Howned Hquiet [Hn Hi]. unfold drop_temporary, remove_file. destruct Howned as (Hne & Hname & Hinode).
  destruct (call _ _ _ r) as [[[]|e] r1] eqn:Hcall; apply call_ends in Hcall; cbn [snd].
  - destruct Hcall as (d & Heffect & ->). cbv beta in Heffect. rewrite Hn, lookup_insert_eq in Heffect. injection Heffect as <-.
    assert (Hnames : fd_names (set_names (delete (resolve (tmp_path file)) (<[resolve (tmp_path file) := tmp_inode file]> (fd_names d0)))
                                (run_disk r)) = fd_names d0) by (cbn; by apply delete_insert_id).
    split; [|cbn; cbn in Hnames; by rewrite Hnames].
    apply quiet_advance; [done|]. eapply undisturbed_before; [done|exact Hi|by apply insert_subseteq].
  - subst r1. split; [done|]. by rewrite Hn, lookup_insert_ne.
Qed.

(** The last two steps keep the evidence where it is. *)
Lemma finishing_quiet file r outcome r' :
  owned file -> quiet r -> linked_as file (run_disk r) ->
  fd_names (run_disk r) = <[resolve path := tmp_inode file]> (<[resolve (tmp_path file) := tmp_inode file]> (fd_names d0)) ->
  (step? _ with r := at_stage EvidenceWriteFailureKind.RemoveTemporaryFile (remove_file (tmp_path file) r) in
   sync_parent (output_parent path) r) = (outcome, r') ->
  quiet r' /\ linked_as file (run_disk r') /\
  match outcome with
  | Ok _ => fd_names (run_disk r') = <[resolve path := tmp_inode file]> (fd_names d0) /\
            names_durable (resolve (output_parent path)) (run_disk r')
  | Err failure => published_at (ewf_kind failure) = true
  end.
Proof.
  intros Howned Hquiet Hlinked Hnames. destruct (remove_file _ r) as [removed r1] eqn:Hremove.
  unfold remove_file in Hremove. apply call_ends in Hremove.
  destruct removed as [[]|e]; cbn [at_stage map_err fst snd]; [|subst r1; by intros [= <- <-]].
  destruct Hremove as (d1 & Heffect & ->). cbv beta in Heffect. pose proof Howned as (Hne & Hname & Hinode).
  rewrite Hnames, lookup_insert_ne, lookup_insert_eq in Heffect by done. injection Heffect as <-.
  rewrite delete_insert_ne, delete_insert_id by done. set (d1 := set_names _ _).
  destruct Hlinked as (Hnew & Hsynced & names & _ & _ & [_ Hi]).
  assert (Hlinked1 : linked_as file d1).
  { split; [done|]. split; [done|]. exists (fd_names d0). split; [done|]. split; [by right|]. by split. }
  unfold sync_parent. destruct (sync_directory _ _) as [synced r2] eqn:Hsync. unfold sync_directory in Hsync.
  apply call_ends in Hsync. destruct synced as [[]|e]; cbn [at_stage map_err fst snd]; intros [= <- <-].
  - destruct Hsync as (d2 & Heffect & ->). cbv beta in Heffect. destruct (_ || _); [|done]. injection Heffect as <-.
    match goal with |- context [advance ?d (advance _ _)] => set (d2 := d) end.
    assert (Hlinked2 : linked_as file d2) by exact Hlinked1.
    split; [|split; [done|split; [done|intros name Hheld; by apply synchronised_names]]]. do 2 (apply quiet_advance; [|by eapply linked_undisturbed]). done.
  - subst r2. split; [|by split]. apply quiet_advance; [done|]. by eapply linked_undisturbed.
Qed.

Lemma publication_steps outcome r' :
  write_new_evidence path evidence (begin d0) = (outcome, r') ->
  quiet r' /\
  match outcome with
  | Ok _ => exists file, owned file /\ linked_as file (run_disk r') /\
      fd_names (run_disk r') = <[resolve path := tmp_inode file]> (fd_names d0) /\
      names_durable (resolve (output_parent path)) (run_disk r')
  | Err failure =>
      if published_at (ewf_kind failure) then evidence_published d0 (resolve path) evidence (run_disk r')
      else fd_names (run_disk r') !! resolve path = fd_names d0 !! resolve path
  end.
Proof.
  assert (Hstart : quiet (begin d0)).
  { constructor; [|constructor]. by eapply undisturbed_before. }
  unfold write_new_evidence. cbv zeta. destruct (create_dir_all _ _) as [created r1] eqn:Hcreate.
  apply create_each_directory_quiet in Hcreate as [Hquiet1 Hlayout1]; [|done..].
  destruct created as [[]|e]; cbn [at_stage map_err fst snd]; [|intros [= <- <-]; split; [done|]; cbn; by destruct Hlayout1 as [-> _]].
  destruct (tempfile_in _ _ _) as [opened r2] eqn:Hopen. apply tempfile_quiet in Hopen as [Hquiet2 Hopened]; [|done..].
  destruct opened as [file|e]; cbn [at_stage map_err fst snd]; [|intros [= <- <-]; split; [done|]; cbn; by destruct Hopened as [-> _]].
  destruct Hopened as [Howned Hwriting].
  lazymatch goal with |- match ?steps with _ => _ end = _ -> _ => destruct steps as [linked r3] eqn:Hfill end.
  apply filling_quiet in Hfill as [Hquiet3 Hlinked]; [|done..].
  destruct linked as [[]|failure]; [destruct Hlinked as [Hlinked Hnames]|destruct Hlinked as (Hkind & content & Hfilled)].
  - intros Hfinish. eapply finishing_quiet in Hfinish as (Hquiet4 & Hlinked4 & Hends); [|done..].
    split; [done|]. destruct outcome as [[]|failure]; [by exists file|]. rewrite Hends. by eapply linked_published.
  - intros [= <- <-]. rewrite Hkind. by eapply dropping_quiet.
Qed.


End Atomicity.

(** *** A publication that meets no fault *)

Section Calm.
Context `{SystemFaults, PathMeaning, TemporaryNames} (d0 : Disk) (path evidence : string).
Hypothesis names_apart : forall d, resolve (temporary_path (output_parent path) OUTPUT_PREFIX d) <> resolve path.
Hypothesis calm : forall which p d, call_fault which p d = None.
Hypothesis progress : forall rest d, rest <> "" -> exists n, write_some rest d = Ok (S n).

Lemma calm_call {A} which p (effect : Disk -> result (A * Disk) string) r a d :
  effect (run_disk r) = Ok (a, d) -> call which p effect r = (Ok a, advance d r).
Proof. intros Heffect. unfold call. by rewrite calm, Heffect. Qed.

Lemma calm_directories paths r :
  (forall p, p ∈ paths -> fd_names (run_disk r) !! resolve p = None) ->
  exists r', create_each_directory paths r = (Ok tt, r') /\ fd_names (run_disk r') = fd_names (run_disk r) /\
    fd_directories (run_disk r') = list_to_set (resolve <$> paths) ∪ fd_directories (run_disk r).
Proof.
  revert r. induction paths as [|p paths IH]; intros r Hfree; cbn [create_each_directory].
  { exists r. split; [done|]. split; [done|]. cbn. set_solver. }
  unfold create_directory. erewrite calm_call; [|rewrite bool_decide_eq_false_2; [reflexivity|]].
  2: { rewrite (Hfree p); [apply is_Some_None|]. by left. }
  match goal with |- context [advance ?d r] => destruct (IH (advance d r)) as (r' & -> & Hn & Hd) end.
  { intros q Hq. apply Hfree. by right. }
  exists r'. split; [done|]. split; [done|]. rewrite Hd. cbn. set_solver.
Qed.

Lemma calm_write_all fuel file rest r : (String.length rest <= fuel)%nat ->
  exists r', write_all fuel file rest r = (Ok tt, r') /\ fd_names (run_disk r') = fd_names (run_disk r) /\
    fd_directories (run_disk r') = fd_directories (run_disk r).
Proof.
  revert rest r. induction fuel as [|fuel IH]; intros rest r Hfuel; cbn [write_all];
    destruct (is_empty rest) eqn:Hempty; [by exists r|destruct rest; [done|cbn in Hfuel; lia]|by exists r|].
  destruct (progress rest (run_disk r)) as [k ->]; [by intros ->|]. cbv zeta. set (n := Nat.min (S k) (String.length rest)).
  set (left := String.substring n (String.length rest - n) rest).
  assert (Hleft : (String.length left <= fuel)%nat).
  { pose proof (substring_split n rest ltac:(lia)) as Hsplit. apply (f_equal String.length) in Hsplit.
    rewrite length_append in Hsplit. destruct rest as [|c rest]; [done|]. subst n left. cbn in *. lia. }
  match goal with |- context [write_all _ _ _ ?r1] => destruct (IH left r1 Hleft) as (r' & -> & Hn & Hd) end. by exists r'.
Qed.

Lemma ancestors_self fuel p : p ∈ ancestors fuel p.
Proof.
  destruct fuel; cbn [ancestors]; [by left|]. destruct (parent_path p) as [q|]; [|by left].
  destruct (is_empty q); [by left|]. apply elem_of_app. right. by left.
Qed.

(** When no call fails, the directories of the output are not files, and the output's
    name is new, the evidence is published. *)
Theorem new_evidence_is_published :
  let directories := ancestors (String.length (output_parent path)) (output_parent path) in
  (forall p, p ∈ directories -> fd_names d0 !! resolve p = None /\ resolve p <> resolve path) ->
  fd_names d0 !! resolve path = None -> resolve path ∉ fd_directories d0 ->
  (forall d, fd_names d = fd_names d0 ->
     fd_names d !! resolve (temporary_path (output_parent path) OUTPUT_PREFIX d) = None) ->
  exists r', write_new_evidence path evidence (begin d0) = (Ok tt, r').
Proof.
  intros directories Hfree Hnew Hfile Htemporary. unfold write_new_evidence. cbv zeta.
  destruct (calm_directories directories (begin d0)) as (r1 & Hcreate & Hn1 & Hd1); [by intros p [? _]%Hfree|].
  unfold create_dir_all. fold directories. rewrite Hcreate. cbn [at_stage map_err fst snd]. cbn in Hn1, Hd1.
  unfold tempfile_in. erewrite calm_call; cbv beta zeta.
  2: { rewrite Htemporary, bool_decide_eq_false_2 by (done || apply is_Some_None). rewrite bool_decide_eq_true_2; [reflexivity|].
       rewrite Hd1. apply elem_of_union_l, elem_of_list_to_set, list_elem_of_fmap. eexists. split; [done|apply ancestors_self]. }
  cbn [at_stage map_err fst snd]. match goal with |- context [advance ?d r1] => set (d2 := d); set (r2 := advance d2 r1) end.
  match goal with |- context [write_all _ ?temporary _ _] => set (file := temporary) end.
  destruct (calm_write_all (String.length evidence) file evidence r2) as (r3 & Hwrite & Hn3 & Hd3); [done|].
  cbn in Hn3, Hd3. rewrite Hn1 in Hn3. rewrite Hd1 in Hd3.
  rewrite Hwrite. cbn [at_stage map_err fst snd]. unfold sync_file. erewrite calm_call; [|reflexivity].
  cbn [at_stage map_err fst snd]. unfold hard_link. erewrite calm_call; cbn [advance run_disk fd_names fd_directories].
  2: { rewrite Hn3, lookup_insert_eq, lookup_insert_ne, Hnew by apply names_apart.
       rewrite bool_decide_eq_false_2; [reflexivity|]. rewrite Hd3.
       intros [(p & Hp & Hin)%elem_of_list_to_set%list_elem_of_fmap|Hin]%elem_of_union; [|done].
       destruct (Hfree p Hin) as [_ Hne]. by rewrite Hp in Hne. }
  cbn [at_stage map_err fst snd]. unfold remove_file. erewrite calm_call.
  2: { cbn [advance run_disk set_names fd_names].
       rewrite lookup_insert_ne, lookup_insert_eq by (apply not_eq_sym, names_apart). reflexivity. }
  cbn [at_stage map_err fst snd]. unfold sync_parent, sync_directory.
  erewrite calm_call; [by eexists|]. cbn [advance run_disk set_names fd_names fd_directories].
  rewrite (bool_decide_eq_true_2 (resolve (output_parent path) ∈ _)), orb_true_r; [reflexivity|].
  rewrite Hd3. apply elem_of_union_l, elem_of_list_to_set, list_elem_of_fmap. eexists. split; [done|apply ancestors_self].
Qed.
End Calm.

(** ** What the commands rely on *)

(** The documents a command reads and the evidence it publishes. *)
Class EvidenceFiles (F : Type) := {
  ef_read : string -> F -> result string string;
  ef_write_new : string -> string -> F -> result unit Chain * F;
}.

(** Nothing that can be read changes; what is published was not there and is whole. *)
Class EvidenceFilesLaws (F : Type) `{EvidenceFiles F} := {
  ef_sound : F -> Prop;
  ef_output : string -> Prop;
  ef_kept path evidence f outcome f' : ef_sound f -> ef_output path ->
    ef_write_new path evidence f = (outcome, f') ->
    forall other text, ef_read other f = Ok text -> ef_read other f' = Ok text;
  ef_published path evidence f u f' : ef_sound f -> ef_output path ->
    ef_write_new path evidence f = (Ok u, f') ->
    ef_read path f' = Ok evidence /\ forall text, ef_read path f <> Ok text;
}.

(** The file system with hard links is such a thing. *)
Section Disks.
Context `{SystemFaults, PathMeaning, TemporaryNames}.

#[export] Instance disk_evidence : EvidenceFiles Disk := {
  ef_read path d := ok_or (read_name (resolve path) d) "No such file or directory";
  ef_write_new path evidence d :=
    let '(outcome, r) := write_new_evidence path evidence (begin d) in (map_err write_failure_chain outcome, run_disk r);
}.

#[export] Instance disk_evidence_laws : EvidenceFilesLaws Disk.
Proof.
  refine {| ef_sound := disk_sound;
            ef_output path := forall d, resolve (temporary_path (output_parent path) OUTPUT_PREFIX d) <> resolve path |}.
  - intros path evidence d outcome d' Hsound Hapart Hwrite other text. cbn [ef_read ef_write_new disk_evidence] in *.
    destruct (write_new_evidence _ _ _) as [written r] eqn:Hrun. injection Hwrite as _ <-.
    apply publication_steps in Hrun as [[Hmoment _]%Forall_cons _]; [|done..]. rewrite !ok_or_Ok. unfold read_name.
    rewrite !bind_Some. intros (inode & Hname & Hinode). exists inode. destruct Hmoment. split; by eapply lookup_weaken.
  - intros path evidence d [] d' Hsound Hapart Hwrite. cbn [ef_read ef_write_new disk_evidence] in *.
    destruct (write_new_evidence _ _ _) as [[[]|] r] eqn:Hrun; [|done]. injection Hwrite as <-.
    apply publication_steps in Hrun as [_ (file & _ & [Hnew Hread]%linked_published & _)]; [|done..].
    split; [by rewrite Hread|]. intros text. rewrite ok_or_Ok. unfold read_name. by rewrite Hnew.
Defined.
End Disks.

(** ** The contracts of a command
      ([load_contracts] of crates/conformance/src/main.rs and crates/commit/src/main.rs) *)

Record LoadedContracts := { lc_profile : Profile; lc_scenario : Scenario; lc_digests : ContractDigests }.

Section Loading.
Context {F : Type} `{EvidenceFiles F, UrlParser, ContractDecoders, Ledger.Sha256}.

Definition read_command_contract (path : string) (f : F) : result string Chain := context ("failed to read " +:+ path) (ef_read path f).

Definition not_a {A} (path expected : string) (document : ContractDocument) : result A Chain :=
  Err [path +:+ " is a " +:+ document_kind_name (document_kind document) +:+ ", not a " +:+ expected].

Definition load_contracts (profile_path scenario_path : string) (f : F) : result LoadedContracts Chain :=
  let? profile_bytes := read_command_contract profile_path f in
  let? scenario_bytes := read_command_contract scenario_path f in
  let? document := parse_named "profile" profile_path profile_bytes in
  let? profile := match document with
                  | ProfileDocument profile => Ok profile
                  | document => not_a profile_path "profile" document
                  end in
  let? document := parse_named "scenario" scenario_path scenario_bytes in
  let? scenario := match document with
                   | ScenarioDocument scenario => Ok scenario
                   | document => not_a scenario_path "scenario" document
                   end in
  Ok {| lc_profile := profile; lc_scenario := scenario;
        lc_digests := {| profile_sha256 := sha256_hex (bytes profile_bytes);
                         scenario_sha256 := sha256_hex (bytes scenario_bytes) |} |}.

(** [publish]. *)
Definition publish (path evidence : string) (f : F) : result unit Chain * F :=
  let '(outcome, f) := ef_write_new path evidence f in (with_context ("failed to publish " +:+ path) outcome, f).

(** The line a command ends with. *)
Definition wrote_line (path evidence classification : string) : string :=
  "wrote " +:+ path +:+ " (sha256=" +:+ sha256_hex (bytes evidence) +:+ ", classification=" +:+ classification +:+ ")".
End Loading.

(** ** The conformance program (crates/conformance/src/main.rs) *)

Record ConfigArgs := { cfg_profile : string; cfg_scenario : string; cfg_catalog : string; cfg_output : string }.
(** [NamespaceArgs], [TableArgs] and [CommitArgs] have the same fields. *)
Record FixtureArgs := {
  fxa_profile : string; fxa_scenario : string; fxa_catalog : string; fxa_fixture_id : string; fxa_output : string }.

Inductive ProbeCommand :=
| ConfigCommand (args : ConfigArgs)
| NamespaceCommand (args : FixtureArgs)
| TableCommand (args : FixtureArgs)
| CommitCommand (args : FixtureArgs).

Definition classification_name (classification : ProbeClassification.t) : string :=
  match classification with
  | ProbeClassification.Pass => "pass"
  | ProbeClassification.Fail _ => "fail"
  | ProbeClassification.Unsupported _ _ _ => "unsupported"
  end.

(** The exit code: the verdict, or 1 for an error. *)
Definition probe_exit_code {A} (outcome : result (bool * A) Chain) : Z :=
  match outcome with Ok (true, _) => 0 | Ok (false, _) => 2 | Err _ => 1 end%Z.

(** A command that fails before it publishes. *)
Ltac ends_in_error := intros [= <- <- _]; split; [by intros ?|by left || done].

Section Conformance.
Context `{UrlParser, UrlOps, UrlEdit, FormCodec, JsonParser, Ledger.Sha256, ClientBuilder} {W : Type}
  `{HttpClient W, FromValue NamespaceResponse, FromValue ListNamespacesResponse}.
Context `{FromValue UpdateNamespacePropertiesResponse, FromValue IcebergErrorResponse}.
Context `{FromValue TableProtocol.NamespaceResponse, FromValue TableProtocol.LoadTableResult, FromValue ListTablesResponse}.
Context `{UuidSource W}.
Context `{ToVecPretty ConfigEvidence, ToVecPretty NamespaceEvidence, ToVecPretty TableEvidence, ToVecPretty CommitEvidence}.
Context `{ToVecPretty ConfigTranscript, ToVecPretty NamespaceTranscript, ToVecPretty TableTranscript}.
Context `{ToVecPretty CommitTranscript, ContractDecoders} {F : Type} `{EvidenceFiles F}.

(** What the four commands share: load, run, encode, publish, report. *)
Definition run_probe {T} `{ToVecPretty T} (probe : LoadedContracts -> W -> result T string * W)
    (classification : T -> ProbeClassification.t) (profile scenario output : string) (f : F) (w : W)
  : result (bool * string) Chain * F * W :=
  match load_contracts profile scenario f with
  | Err e => (Err e, f, w)
  | Ok contracts =>
      match probe contracts w with
      | (Err e, w) => (Err [e], f, w)
      | (Ok transcript, w) =>
          match encode_evidence transcript with
          | Err e => (Err [e], f, w)
          | Ok evidence =>
              let '(outcome, f) := publish output evidence f in
              (result_map (fun _ => (classification_passed (classification transcript),
                                     wrote_line output evidence (classification_name (classification transcript)))) outcome,
               f, w)
          end
      end
  end.

Definition config_probe (args : ConfigArgs) (getenv : string -> option string) (contracts : LoadedContracts) (w : W)
  : result ConfigTranscript string * W :=
  run_config_probe (lc_profile contracts) (lc_scenario contracts) (cfg_catalog args) (lc_digests contracts) getenv w.
Definition run_config (args : ConfigArgs) (getenv : string -> option string) (f : F) (w : W)
  : result (bool * string) Chain * F * W :=
  run_probe (config_probe args getenv) cft_classification (cfg_profile args) (cfg_scenario args) (cfg_output args) f w.

Definition namespace_probe (args : FixtureArgs) (getenv : string -> option string) (contracts : LoadedContracts) (w : W)
  : result NamespaceTranscript string * W :=
  run_namespace_probe (lc_profile contracts) (lc_scenario contracts) (fxa_catalog args) (fxa_fixture_id args)
    (lc_digests contracts) getenv w.
Definition run_namespace (args : FixtureArgs) (getenv : string -> option string) (f : F) (w : W)
  : result (bool * string) Chain * F * W :=
  run_probe (namespace_probe args getenv) nt_classification (fxa_profile args) (fxa_scenario args) (fxa_output args) f w.

Definition table_probe (args : FixtureArgs) (getenv : string -> option string) (contracts : LoadedContracts) (w : W)
  : result TableTranscript string * W :=
  run_table_probe (lc_profile contracts) (lc_scenario contracts) (fxa_catalog args) (fxa_fixture_id args)
    (lc_digests contracts) getenv w.
Definition run_table (args : FixtureArgs) (getenv : string -> option string) (f : F) (w : W)
  : result (bool * string) Chain * F * W :=
  run_probe (table_probe args getenv) tt_classification (fxa_profile args) (fxa_scenario args) (fxa_output args) f w.

Definition commit_probe (args : FixtureArgs) (getenv : string -> option string) (contracts : LoadedContracts) (w : W)
  : result CommitTranscript string * W :=
  run_commit_probe (lc_profile contracts) (lc_scenario contracts) (fxa_catalog args) (fxa_fixture_id args)
    (lc_digests contracts) getenv w.
Definition run_commit (args : FixtureArgs) (getenv : string -> option string) (f : F) (w : W)
  : result (bool * string) Chain * F * W :=
  run_probe (commit_probe args getenv) cmt_classification (fxa_profile args) (fxa_scenario args) (fxa_output args) f w.

(** [run]. *)
Definition run_probe_command (command : ProbeCommand) (getenv : string -> option string) (f : F) (w : W)
  : result (bool * string) Chain * F * W :=
  match command with
  | ConfigCommand args => run_config args getenv f w
  | NamespaceCommand args => run_namespace args getenv f w
  | TableCommand args => run_table args getenv f w
  | CommitCommand args => run_commit args getenv f w
  end.

(** [main]: the exit code, and what it leaves. *)
Definition conformance_main (command : ProbeCommand) (getenv : string -> option string) (f : F) (w : W) : Z * F * W :=
  let '(outcome, f, w) := run_probe_command command getenv f w in (probe_exit_code outcome, f, w).

(** ** The exit status states the verdict *)

Definition command_output (command : ProbeCommand) : string :=
  match command with
  | ConfigCommand args => cfg_output args
  | NamespaceCommand args | TableCommand args | CommitCommand args => fxa_output args
  end.
Definition command_contracts (command : ProbeCommand) (f : F) : result LoadedContracts Chain :=
  match command with
  | ConfigCommand args => load_contracts (cfg_profile args) (cfg_scenario args) f
  | NamespaceCommand args | TableCommand args | CommitCommand args => load_contracts (fxa_profile args) (fxa_scenario args) f
  end.

(** The verdict and the evidence of a probe. *)
Definition probe_judged {T} `{ToVecPretty T} (classification : T -> ProbeClassification.t) (outcome : result T string * W)
  : result (bool * string) string :=
  let? transcript := outcome.1 in
  result_map (fun evidence => (classification_passed (classification transcript), evidence)) (encode_evidence transcript).

(** What the probe of a command finds on these contracts. *)
Definition probe_verdict (command : ProbeCommand) (getenv : string -> option string) (contracts : LoadedContracts) (w : W)
  : result (bool * string) string :=
  match command with
  | ConfigCommand args => probe_judged cft_classification (config_probe args getenv contracts w)
  | NamespaceCommand args => probe_judged nt_classification (namespace_probe args getenv contracts w)
  | TableCommand args => probe_judged tt_classification (table_probe args getenv contracts w)
  | CommitCommand args => probe_judged cmt_classification (commit_probe args getenv contracts w)
  end.

Context `{!EvidenceFilesLaws F}.

(** A program that ended on these files: nothing that could be read has changed, and
    success is the publication of this evidence at a new path. *)
Definition keeps_files (f f' : F) : Prop := forall path text, ef_read path f = Ok text -> ef_read path f' = Ok text.
Definition newly_published (path evidence : string) (f f' : F) : Prop :=
  ef_read path f' = Ok evidence /\ forall text, ef_read path f <> Ok text.

Lemma publish_ends path evidence f outcome f' :
  ef_sound f -> ef_output path -> publish path evidence f = (outcome, f') ->
  keeps_files f f' /\ (outcome = Ok tt -> newly_published path evidence f f').
Proof.
  unfold publish. intros Hsound Houtput. destruct (ef_write_new _ _ _) as [written f1] eqn:Hwrite. intros [= <- <-].
  split; [intros other text; by eapply ef_kept|]. destruct written as [[]|]; [|done]. intros _. by eapply ef_published.
Qed.

Lemma run_probe_ends {T} `{ToVecPretty T} probe (classification : T -> ProbeClassification.t) profile scenario output f w
    outcome f' w' :
  ef_sound f -> ef_output output -> run_probe probe classification profile scenario output f w = (outcome, f', w') ->
  keeps_files f f' /\
  forall passed line, outcome = Ok (passed, line) ->
    exists contracts evidence, load_contracts profile scenario f = Ok contracts /\
      probe_judged classification (probe contracts w) = Ok (passed, evidence) /\ newly_published output evidence f f'.
Proof.
  intros Hsound Houtput. unfold run_probe. destruct (load_contracts _ _ _) as [contracts|e]; [|ends_in_error].
  destruct (probe contracts w) as [[transcript|e] w1] eqn:Hprobe; [|ends_in_error].
  destruct (encode_evidence transcript) as [evidence|e] eqn:Hencode; [|ends_in_error].
  destruct (publish output evidence f) as [written f1] eqn:Hpublish. intros [= <- <- _].
  apply publish_ends in Hpublish as [Hkept Hnew]; [|done..]. split; [done|]. intros passed line Hline.
  exists contracts, evidence. split; [done|]. unfold probe_judged. rewrite Hprobe. cbn [fst]. rewrite Hencode.
  destruct written as [[]|]; [|done]. cbn in Hline |- *. injection Hline as <- _. split; [done|]. by apply Hnew.
Qed.

(** C33: The exit status of the conformance program: it is 0, 1 or 2; no file that could
    be read is changed; 0 and 2 mean that the evidence of the probe on the two
    contracts has been published whole at a path where nothing was, 0 exactly when the
    probe passed. *)
Theorem conformance_exit_states_the_verdict command getenv f w code f' w' :
  ef_sound f -> ef_output (command_output command) ->
  conformance_main command getenv f w = (code, f', w') ->
  keeps_files f f' /\
  (code = 1%Z \/
   exists contracts passed evidence, command_contracts command f = Ok contracts /\
     probe_verdict command getenv contracts w = Ok (passed, evidence) /\
     newly_published (command_output command) evidence f f' /\ code = (if passed : bool then 0 else 2)%Z).
Proof.
  intros Hsound Houtput. unfold conformance_main. destruct (run_probe_command _ _ _ _) as [[outcome f1] w1] eqn:Hrun.
  intros [= <- <- <-].
  assert (Hends : keeps_files f f1 /\ forall passed line, outcome = Ok (passed, line) ->
    exists contracts evidence, command_contracts command f = Ok contracts /\
      probe_verdict command getenv contracts w = Ok (passed, evidence) /\
      newly_published (command_output command) evidence f f1).
  { destruct command; by eapply run_probe_ends. }
  destruct Hends as [Hkept Hends]. split; [done|]. destruct outcome as [[passed line]|e]; [right|by left].
  destruct (Hends _ _ eq_refl) as (contracts & evidence & Hload & Hverdict & Hnew).
  exists contracts, passed, evidence. by destruct passed.
Qed.
End Conformance.

(** ** The contention program (crates/commit/src/main.rs) *)

Record SweepArgs := { swa_profile : string; swa_scenario : string; swa_fixture_id : string; swa_output : string }.

(** What the binary knows of itself: [option_env!] at compile time and [std::env::consts]. *)
Record BuildFacts := { bf_revision : option string; bf_os : string; bf_arch : string }.

Definition observed_operating_system (os : string) : string :=
  if os =? "linux" then "Linux" else if os =? "macos" then "macOS" else if os =? "windows" then "Windows" else os.

(** Errors of the program: a chain, or the sweep's own. *)
Inductive SweepCommandError := Explained (chain : Chain) | SweepFailed (error : SweepError).

Definition compiled_runner_observation (build : BuildFacts) : result RunnerObservation SweepCommandError :=
  let? revision := ok_or (bf_revision build)
    (Explained ["binary has no compile-time CATALOG_BENCH_SOURCE_REVISION; use the pinned production Docker build"]) in
  map_err SweepFailed (RunnerObservation_new (observed_operating_system (bf_os build)) (bf_arch build) revision).

Definition round_kind_debug (kind : RoundKind) : string :=
  match kind with Policy.Conditioning => "Conditioning" | Policy.Measured => "Measured" end.

(** [print_progress]: the line on the error stream. *)
Definition progress_line (progress : SweepProgress) : string :=
  match progress with
  | Sweep.Starting repetition kind position catalog =>
      "starting repetition " +:+ display02 repetition +:+ " " +:+ round_kind_debug kind +:+ " position " +:+ display position
      +:+ ": " +:+ catalog
  | Sweep.Completed repetition kind position catalog passed =>
      "completed repetition " +:+ display02 repetition +:+ " " +:+ round_kind_debug kind +:+ " position " +:+ display position
      +:+ ": " +:+ catalog +:+ " (" +:+ (if passed then "pass" else "fail") +:+ ")"
  end.

(** [print_ranking]. *)
Definition ranking_line (entry : RankingEntry) : string :=
  match re_disposition entry with
  | Ranked rank score =>
      "  " +:+ display rank +:+ ". " +:+ run_name (re_catalog entry) +:+ ": " +:+ format_fixed 3 (mr_median score) +:+ " ("
      +:+ format_fixed 3 (mr_minimum score) +:+ ".." +:+ format_fixed 3 (mr_maximum score) +:+ ")"
  | NotRanked reasons =>
      "  — " +:+ run_name (re_catalog entry) +:+ ": not ranked (" +:+ String.concat "; " reasons +:+ ")"
  end.
Definition ranking_lines (ranking : ContentionRanking) : list string :=
  "concurrent accepted-throughput ranking (median, min..max operations/s):" :: (ranking_line <$> ranking_entries ranking).

Definition sweep_classification_name (classification : SweepClassification.t) : string :=
  match classification with SweepClassification.Pass => "pass" | SweepClassification.Fail _ => "fail" end.

Definition sweep_exit_code {A} (outcome : result (bool * A) SweepCommandError) : Z :=
  match outcome with Ok (true, _) => 0 | Ok (false, _) => 2 | Err _ => 1 end%Z.

Section Contention.
Context {N W : Type} `{UrlParser, UrlOps, LoadTableDecoder, HttpClient W, ObjectPaths,
  ObjectStoreClient W, Workflow.Clock W, Ledger.Sha256}.
Context `{ContractDecoders, ParametersDecoder, CanonicalScenario, CatalogConnector N W,
  Serialize (ContentionTranscript N), ToVecPretty (ContentionTranscript N)}.
Context {F : Type} `{EvidenceFiles F}.
Context (client : ObjectStorePolicy -> string -> string -> result unit string) (build : BuildFacts).

(** After the sweep: encode, publish, and the lines on the output stream. *)
Definition publish_sweep (args : SweepArgs) (transcript : ContentionTranscript N) (f : F)
  : result (bool * list string) SweepCommandError * F :=
  match encode_evidence transcript with
  | Err e => (Err (Explained [e]), f)
  | Ok evidence =>
      let '(outcome, f) := publish (swa_output args) evidence f in
      (map_err Explained (result_map (fun _ =>
         (transcript_passed transcript,
          (ranking_lines (ct_ranking transcript)
           ++ [wrote_line (swa_output args) evidence (sweep_classification_name (ct_classification transcript))])%list)) outcome),
       f)
  end.

(** [run]: the outcome with the lines on both streams; [None] when a round does not
    end, as for [run_contention_sweep]. *)
Definition run_sweep (args : SweepArgs) (getenv : string -> option string) (choices : nat -> Interleaving) (f : F) (w : W)
  : option (result (bool * list string) SweepCommandError * list string * F * W) :=
  let prepared :=
    let? contracts := map_err Explained (load_contracts (swa_profile args) (swa_scenario args) f) in
    let? observation := compiled_runner_observation build in
    Ok (contracts, observation) in
  match prepared with
  | Err e => Some (Err e, [], f, w)
  | Ok (contracts, observation) =>
      match run_contention_sweep client (lc_profile contracts) (lc_scenario contracts) (lc_digests contracts)
              (swa_fixture_id args) observation getenv choices w with
      | None => None
      | Some (Err e, events, w) => Some (Err (SweepFailed e), progress_line <$> events, f, w)
      | Some (Ok transcript, events, w) =>
          let '(outcome, f) := publish_sweep args transcript f in Some (outcome, progress_line <$> events, f, w)
      end
  end.

Definition sweep_main (args : SweepArgs) (getenv : string -> option string) (choices : nat -> Interleaving) (f : F) (w : W)
  : option (Z * F * W) :=
  match run_sweep args getenv choices f w with
  | Some (outcome, _, f, w) => Some (sweep_exit_code outcome, f, w)
  | None => None
  end.

Context `{!EvidenceFilesLaws F}.

(** The exit status of the contention program, as for the conformance program. *)
Theorem sweep_exit_states_the_verdict args getenv choices f w code f' w' :
  ef_sound f -> ef_output (swa_output args) ->
  sweep_main args getenv choices f w = Some (code, f', w') ->
  keeps_files f f' /\
  (code = 1%Z \/
   exists contracts observation transcript events evidence,
     load_contracts (swa_profile args) (swa_scenario args) f = Ok contracts /\
     compiled_runner_observation build = Ok observation /\
     run_contention_sweep client (lc_profile contracts) (lc_scenario contracts) (lc_digests contracts)
       (swa_fixture_id args) observation getenv choices w = Some (Ok transcript, events, w') /\
     encode_evidence transcript = Ok evidence /\ newly_published (swa_output args) evidence f f' /\
     code = (if transcript_passed transcript then 0 else 2)%Z).
Proof.
  intros Hsound Houtput. unfold sweep_main, run_sweep. cbv zeta.
  destruct (load_contracts _ _ f) as [contracts|e] eqn:Hload; cbn [map_err];
    [|ends_in_error].
  destruct (compiled_runner_observation build) as [observation|e] eqn:Hrunner;
    [|ends_in_error].
  destruct (run_contention_sweep _ _ _ _ _ _ _ _ _) as [[[[transcript|e] events] w1]|] eqn:Hsweep; [| |done].
  2: ends_in_error.
  unfold publish_sweep. destruct (encode_evidence transcript) as [evidence|e] eqn:Hencode.
  2: ends_in_error.
  destruct (publish _ evidence f) as [written f1] eqn:Hpublish. apply publish_ends in Hpublish as [Hkept Hnew]; [|done..].
  destruct written as [[]|]; intros [= <- <- <-]; (split; [done|]); [right|by left].
  exists contracts, observation, transcript, events, evidence. split_and!; try done. by apply Hnew.
Qed.
End Contention.

(** ** The engine program (crates/engine/src/main.rs) *)

Module EngineMain.
Definition FAILURE_EXIT : Z := 2.
Definition FIXTURE_COLLISION_EXIT : Z := 3.
End EngineMain.

Record EngineArgs := {
  ega_profile : string; ega_scenario : string; ega_catalog : string; ega_fixture_id : string; ega_output : string }.

Definition engine_classification_name (classification : EngineBehaviorClassification.t) : string :=
  match classification with
  | EngineBehaviorClassification.Pass => "pass"
  | EngineBehaviorClassification.Fail => "fail"
  | EngineBehaviorClassification.FixtureCollision => "fixture-collision"
  end.

Definition classification_exit (classification : EngineBehaviorClassification.t) : Z :=
  match classification with
  | EngineBehaviorClassification.Pass => 0
  | EngineBehaviorClassification.Fail => EngineMain.FAILURE_EXIT
  | EngineBehaviorClassification.FixtureCollision => EngineMain.FIXTURE_COLLISION_EXIT
  end%Z.
Definition engine_exit_code {A} (outcome : result (EngineBehaviorClassification.t * A) Chain) : Z :=
  match outcome with Ok (classification, _) => classification_exit classification | Err _ => 1%Z end.

Section Engine.
Context `{SecretSource, ProcessEnv, FileSystem, HostPlatform, EventParser}.
Context `{UrlParser, UrlOps, UrlEdit, FormCodec, JsonParser, Ledger.Sha256, ClientBuilder, DuckDb.UrlPort}.
Context `{ContractDecoders, EngineParametersDecoder, CanonicalEngineScenario}.
Context `{ObjectPaths, UuidParser, LoadTableResponseDecoder, StoreBuilder, RawJsonReader, GzipReader, ValuesWriter}.
Context `{ToVec SparkExecutionPlan, ToVec Flink.FlinkRenderedProgram, SparkRenderer, DuckDb.ArrayStream}.
Context `{!Serialize EngineTranscript, !ToVecPretty EngineTranscript}.
Context {W : Type} `{HttpClient W, ObjectStoreClient W, Staging W, Commands W, PrivateFiles W, CliRuns W,
  ServerProcess W, EngineTrinoProcess.Clock W, DuckDb.DuckDbCli W, Stopwatch W}.
Context {F : Type} `{EvidenceFiles F}.

(** From the transcript to the evidence: validation, encoding, publication. *)
Definition publish_transcript (args : EngineArgs) (contracts : EngineContracts) (transcript : EngineTranscript) (f : F)
  : result (EngineBehaviorClassification.t * string) Chain * F :=
  let classification := ex_classification (et_execution transcript) in
  let encoded :=
    check? map_err (fun kind => ["engine transcript failed final validation"; validation_failure_text kind])
             (validate_transcript transcript contracts) in
    context "failed to encode engine transcript" (encode_evidence transcript) in
  match encoded with
  | Err e => (Err e, f)
  | Ok evidence =>
      let '(outcome, f) := publish (ega_output args) evidence f in
      (result_map (fun _ => (classification,
         wrote_line (ega_output args) evidence (engine_classification_name classification))) outcome, f)
  end.

(** [run]. *)
Definition run_engine (args : EngineArgs) (f : F) (w : W) : result (EngineBehaviorClassification.t * string) Chain * F * W :=
  let prepared :=
    let? profile_bytes := read_command_contract (ega_profile args) f in
    let? scenario_bytes := read_command_contract (ega_scenario args) f in
    map_err (fun e => "invalid engine interoperability contracts" :: evidence_error_chain e)
      (parse_contracts profile_bytes scenario_bytes) in
  match prepared with
  | Err e => (Err e, f, w)
  | Ok contracts =>
      match run_stock_engine_interoperability contracts (ega_catalog args) (ega_fixture_id args) w with
      | (Err e, w) => (Err ("engine interoperability execution failed" :: evidence_error_chain e), f, w)
      | (Ok transcript, w) => let '(outcome, f) := publish_transcript args contracts transcript f in (outcome, f, w)
      end
  end.

Definition engine_main (args : EngineArgs) (f : F) (w : W) : Z * F * W :=
  let '(outcome, f, w) := run_engine args f w in (engine_exit_code outcome, f, w).

Context `{!EvidenceFilesLaws F}.

(** The exit status of the engine program: it is 0, 1, 2 or 3; no file that could be
    read is changed; other than 1 it is the classification of a transcript that is
    valid for the two contracts and has been published whole at a path where nothing
    was. *)
Theorem engine_exit_states_the_classification args f w code f' w' :
  ef_sound f -> ef_output (ega_output args) ->
  engine_main args f w = (code, f', w') ->
  keeps_files f f' /\
  (code = 1%Z \/
   exists profile_bytes scenario_bytes contracts transcript evidence,
     ef_read (ega_profile args) f = Ok profile_bytes /\ ef_read (ega_scenario args) f = Ok scenario_bytes /\
     parse_contracts profile_bytes scenario_bytes = Ok contracts /\
     (run_stock_engine_interoperability contracts (ega_catalog args) (ega_fixture_id args) w).1 = Ok transcript /\
     validate_transcript transcript contracts = Ok tt /\ encode_evidence transcript = Ok evidence /\
     newly_published (ega_output args) evidence f f' /\
     code = classification_exit (ex_classification (et_execution transcript))).
Proof.
  intros Hsound Houtput. unfold engine_main, run_engine, read_command_contract, context. cbv zeta.
  destruct (ef_read (ega_profile args) f) as [profile_bytes|e]; cbn [map_err];
    [|ends_in_error].
  destruct (ef_read (ega_scenario args) f) as [scenario_bytes|e]; cbn [map_err];
    [|ends_in_error].
  destruct (parse_contracts _ _) as [contracts|e] eqn:Hparse; cbn [map_err];
    [|ends_in_error].
  destruct (run_stock_engine_interoperability _ _ _ _) as [[transcript|e] w1] eqn:Hrun;
    [|ends_in_error].
  unfold publish_transcript, context. cbv zeta. destruct (validate_transcript _ _) as [[]|] eqn:Hvalid; cbn [map_err];
    [|ends_in_error].
  destruct (encode_evidence transcript) as [evidence|e] eqn:Hencode; cbn [map_err];
    [|ends_in_error].
  destruct (publish _ evidence f) as [written f1] eqn:Hpublish. apply publish_ends in Hpublish as [Hkept Hnew]; [|done..].
  destruct written as [[]|]; intros [= <- <- <-]; (split; [done|]); [right|by left].
  exists profile_bytes, scenario_bytes, contracts, transcript, evidence. split_and!; try done; [by rewrite Hrun|by apply Hnew].
Qed.
End Engine.

(** ** The contract tool (crates/contract-tool/src/main.rs) *)

Inductive SchemaCommand := WriteSchemas (directory : string) | CheckSchemas (directory : string).
Inductive MatrixCommand := WriteMatrix (manifest output : string) | CheckMatrix (manifest output : string).
Record ProfileFiles := { pff_source_profile : string; pff_materialization : string; pff_output : string }.
Inductive ProfileCommand :=
| MaterializePhase1 (files : ProfileFiles) | CheckPhase1 (files : ProfileFiles)
| MaterializeContention (files : ProfileFiles) | CheckContention (files : ProfileFiles)
| MaterializeSpark (files : ProfileFiles) | CheckSpark (files : ProfileFiles)
| MaterializeFlink (files : ProfileFiles) | CheckFlink (files : ProfileFiles)
| MaterializeTrino (files : ProfileFiles) | CheckTrino (files : ProfileFiles).
(** [HistoricalImportCommand], [ContentionImportCommand] and [Phase1ImportCommand]. *)
Inductive ImportCommand := WriteImport (root : string) | CheckImport (root : string).
Record EngineEvidenceFiles := {
  eef_profile : string; eef_scenario : string; eef_evidence_directory : string; eef_fixture_id : string }.
Record EngineReviewFile := { erf_root : string; erf_review : string }.
Inductive EngineEvidenceCommand := ValidateEvidence (files : EngineEvidenceFiles) | ValidateReview (file : EngineReviewFile).
Inductive EngineImportCommand := WriteEngine (file : EngineReviewFile) | CheckEngine (file : EngineReviewFile).
Record PublicationFiles := { pbf_root : string; pbf_profile : string }.
Inductive PublicationCommand := WritePublication (files : PublicationFiles) | CheckPublication (files : PublicationFiles).

Inductive ContractCommand :=
| SchemasCommand (command : SchemaCommand)
| ValidateCommand (paths : list string)
| BundleCommand (manifest : string)
| MatricesCommand (command : MatrixCommand)
| ProfilesCommand (command : ProfileCommand)
| HistoricalImportCommand (command : ImportCommand)
| ContentionImportCommand (command : ImportCommand)
| EvidenceCommand (command : EngineEvidenceCommand)
| EngineImportsCommand (command : EngineImportCommand)
| PublicationsCommand (command : PublicationCommand)
| Phase1ImportCommand (command : ImportCommand).

Definition publication_profile (value : string) : result PublicationProfile Chain :=
  if value =? "smoke" then Ok Smoke
  else if value =? "full" then Ok Full
  else Err ["unsupported publication profile `" +:+ value +:+ "`"].

(** *** Generated schemas (crates/common/src/contract/schema.rs)

    The schema of a document type is what schemars derives: a parameter. *)

Class SchemaGenerator := root_schema : DocumentKind -> result Value string.

Record GeneratedSchema := { gs_kind : DocumentKind; gs_file_name : string; gs_document : Value }.

Definition SCENARIO_SCHEMA_FILE : string := "scenario.schema.json".
Definition RESULT_SCHEMA_FILE : string := "result.schema.json".
Definition PROFILE_SCHEMA_FILE : string := "profile.schema.json".
Definition MANIFEST_SCHEMA_FILE : string := "manifest.schema.json".
Definition SCHEMA_BASE_URI : string := "https://adversari.al/catalog-bench/schemas/v1".

(** [generate]: the schema under its public identifier. *)
Definition generate_schema `{SchemaGenerator} (kind : DocumentKind) (file_name : string) : result GeneratedSchema string :=
  let? document := root_schema kind in
  Ok {| gs_kind := kind; gs_file_name := file_name;
        gs_document := match document with
                       | Object entries => Object (object_insert "$id" (Str (SCHEMA_BASE_URI +:+ "/" +:+ file_name)) entries)
                       | document => document
                       end |}.

Definition SCHEMA_FILES : list (DocumentKind * string) :=
  [(ScenarioDoc, SCENARIO_SCHEMA_FILE); (ResultDoc, RESULT_SCHEMA_FILE); (ProfileDoc, PROFILE_SCHEMA_FILE);
   (ManifestDoc, MANIFEST_SCHEMA_FILE)].
Definition generated_schemas `{SchemaGenerator} : result (list GeneratedSchema) string :=
  collect_results (fun file => generate_schema file.1 file.2) SCHEMA_FILES.

(** [Path::is_dir]. *)
Class DirectoryTests (W : Type) := fs_is_dir : string -> W -> bool.

(** [Vec::dedup] on paths. *)
Fixpoint dedup_paths (paths : list string) : list string :=
  match paths with
  | p :: ((q :: _) as rest) =>
      if bool_decide (path_parts p = path_parts q) then
        match dedup_paths rest with [] => [p] | _ :: kept => p :: kept end
      else p :: dedup_paths rest
  | _ => paths
  end.

Section Validation.
Context `{UrlParser, ContractDecoders} {W : Type} `{FileTree W, DirectoryTests W}.

Fixpoint collect_entries (recurse : string -> list string -> option (result (list string) Chain)) (directory : string)
    (files : list string) (listed : list (result DirEntry string)) : option (result (list string) Chain) :=
  match listed with
  | [] => Some (Ok files)
  | Err e :: _ => Some (Err [e])
  | Ok entry :: listed =>
      found ← recurse (join_path directory (entry_name entry)) files;
      match found with
      | Ok files => collect_entries recurse directory files listed
      | Err e => Some (Err e)
      end
  end.

(** [None] when directories are nested deeper than the fuel. *)
Fixpoint collect_json_files (depth : nat) (w : W) (path : string) (files : list string)
  : option (result (list string) Chain) :=
  if fs_is_file path w then
    Some (Ok (if bool_decide (path_extension path = Some "json") then (files ++ [path])%list else files))
  else if negb (fs_is_dir path w) then Some (Err [path +:+ " is neither a file nor a directory"])
  else
    match depth with
    | O => None
    | S depth =>
        match context ("failed to read " +:+ path) (fs_read_dir path w) with
        | Err e => Some (Err e)
        | Ok listed => collect_entries (collect_json_files depth w) path files listed
        end
    end.

Fixpoint collect_paths (depth : nat) (w : W) (paths files : list string) : option (result (list string) Chain) :=
  match paths with
  | [] => Some (Ok files)
  | path :: paths =>
      found ← collect_json_files depth w path files;
      match found with
      | Ok files => collect_paths depth w paths files
      | Err e => Some (Err e)
      end
  end.

(** One file: the line it prints, or its failure. *)
Definition validate_file (w : W) (path : string) : result (string + string) Chain :=
  let? contents := context ("failed to read " +:+ path) (fs_read path w) in
  Ok match parse_contract contents with
     | Ok document => inl ("valid " +:+ path +:+ " (" +:+ document_kind_name (document_kind document) +:+ ")")
     | Err error => inr (path +:+ ": " +:+ display_parse_error error)
     end.
Definition lines_of (reports : list (string + string)) : list string :=
  omap (fun report => match report with inl line => Some line | inr _ => None end) reports.
Definition failures_of (reports : list (string + string)) : list string :=
  omap (fun report => match report with inl _ => None | inr failure => Some failure end) reports.

(** [validate_paths] with the lines it prints when every file is valid. *)
Definition validate_paths (depth : nat) (paths : list string) (w : W) : option (result (list string) Chain) :=
  collected ← collect_paths depth w paths [];
  Some (let? files := collected in
        let files := dedup_paths (sort_by path_cmp files) in
        guard match files with [] => true | _ => false end or ["no JSON files found"] in
        let? reports := collect_results (validate_file w) files in
        match failures_of reports with
        | [] => Ok (lines_of reports)
        | failures => Err [String.concat lf failures]
        end).

(** *** What validation accepts *)

Lemma dedup_paths_cons p q rest :
  dedup_paths (p :: q :: rest)
  = if bool_decide (path_parts p = path_parts q) then p :: tail (dedup_paths (q :: rest)) else p :: dedup_paths (q :: rest).
Proof. cbn [dedup_paths]. destruct (bool_decide _); [|done]. by destruct (match rest with [] => _ | _ => _ end). Qed.

Lemma dedup_paths_head a rest : exists b kept, dedup_paths (a :: rest) = b :: kept /\ path_parts b = path_parts a.
Proof.
  destruct rest as [|b rest]; [by exists a, []|]. rewrite dedup_paths_cons. by destruct (bool_decide _); eexists _, _.
Qed.

Lemma dedup_paths_sub paths p : p ∈ dedup_paths paths -> p ∈ paths.
Proof.
  induction paths as [|a [|b rest] IH]; [done|done|]. rewrite dedup_paths_cons.
  destruct (dedup_paths (b :: rest)) as [|c kept] eqn:Hd; [destruct (dedup_paths_head b rest) as (? & ? & He & _); congruence|].
  destruct (bool_decide _); cbn [tail]; rewrite elem_of_cons; (intros [->|Hin]; [by left|right]); apply IH; [by right|done].
Qed.

(** Every path keeps one that names the same components. *)
Lemma dedup_paths_covers paths p : p ∈ paths -> exists q, q ∈ dedup_paths paths /\ path_parts q = path_parts p.
Proof.
  revert p. induction paths as [|a [|b rest] IH]; intros p; [by intros ?%elem_of_nil|intros Hp; exists p; by split|].
  intros Hp. apply elem_of_cons in Hp as [->|Hp].
  - destruct (dedup_paths_head a (b :: rest)) as (q & kept & -> & Hq). exists q. split; [by left|done].
  - apply IH in Hp as (q & Hq & Hparts). rewrite dedup_paths_cons. case_bool_decide as Hab; [|exists q; split; [by right|done]].
    destruct (dedup_paths_head b rest) as (c & kept & Hd & Hc). rewrite Hd in Hq |- *.
    apply elem_of_cons in Hq as [->|Hq]; [|exists q; split; [by right|done]]. exists a. split; [by left|]. congruence.
Qed.

Definition holds_contract (w : W) (path : string) : Prop :=
  exists contents document, fs_read path w = Ok contents /\ parse_contract contents = Ok document.

Lemma validated_reports w files :
  (exists reports, collect_results (validate_file w) files = Ok reports /\ failures_of reports = []) <->
  Forall (holds_contract w) files.
Proof.
  induction files as [|path files IH]; cbn [collect_results].
  { split; [constructor|]. intros _. by exists []. }
  rewrite Forall_cons, <-IH. unfold validate_file at 1, holds_contract, context.
  destruct (fs_read path w) as [contents|e]; cbn [map_err]; [|naive_solver].
  destruct (parse_contract contents) as [document|e] eqn:Hparse.
  - destruct (collect_results _ _) as [reports|]; [|naive_solver]. split.
    + intros (reports' & [= <-] & Hnone). cbn in Hnone. split; [by eexists _, _|by eexists].
    + intros (_ & reports' & [= <-] & Hnone). by eexists.
  - split.
    + destruct (collect_results _ _) as [reports|]; by intros (reports' & [= <-] & Hnone).
    + intros [(read & document & [= <-] & Hdocument) _]. congruence.
Qed.

(** The validator accepts exactly the sets of files that are not empty and all hold
    contract documents. *)
Theorem validation_accepts_exactly_contracts depth paths files w :
  (forall p q, path_parts p = path_parts q -> fs_read p w = fs_read q w) ->
  collect_paths depth w paths [] = Some (Ok files) ->
  (exists lines, validate_paths depth paths w = Some (Ok lines)) <->
  files <> [] /\ forall path, path ∈ files -> holds_contract w path.
Proof.
  intros Hsame Hfiles. unfold validate_paths. rewrite Hfiles. cbn [mbind option_bind]. cbv zeta.
  set (kept := dedup_paths (sort_by path_cmp files)).
  assert (Hkept : (forall path, path ∈ files -> holds_contract w path) <-> Forall (holds_contract w) kept).
  { rewrite Forall_forall. split.
    - intros Hall p Hp. apply Hall. apply dedup_paths_sub in Hp. by rewrite <-sort_by_perm.
    - intros Hall p Hp. rewrite <-(sort_by_perm path_cmp) in Hp. apply dedup_paths_covers in Hp as (q & Hq & Hparts).
      apply Hall in Hq as (contents & document & Hread & Hparse). exists contents, document. split; [|done].
      by rewrite (Hsame p q). }
  assert (Hempty : kept = [] <-> files = []).
  { split.
    - intros He. destruct files as [|p files]; [done|]. destruct (dedup_paths_covers (sort_by path_cmp (p :: files)) p) as (q & Hq & _).
      { rewrite (sort_by_perm path_cmp). by left. }
      fold kept in Hq. rewrite He in Hq. by apply elem_of_nil in Hq.
    - intros ->. reflexivity. }
  rewrite Hkept, <-validated_reports, <-Hempty. clearbody kept. destruct kept as [|p kept].
  { split; [by intros (lines & [=])|by intros [? _]]. }
  destruct (collect_results _ _) as [reports|e]; [|naive_solver].
  clear. split.
  - intros (lines & Hlines). split; [done|]. exists reports. split; [done|]. by destruct (failures_of reports).
  - intros (_ & reports' & [= <-] & ->). by eexists.
Qed.

(** *** The search for files ends *)

Definition nested_paths (w : W) (height : string -> nat) : Prop :=
  forall directory listed entry, fs_is_dir directory w = true -> fs_read_dir directory w = Ok listed -> Ok entry ∈ listed ->
    (height (join_path directory (entry_name entry)) < height directory)%nat.

Lemma collect_json_files_returns w height depth path files :
  nested_paths w height -> (height path < depth)%nat -> is_Some (collect_json_files depth w path files).
Proof.
  intros Hnested. revert path files. induction depth as [|depth IH]; intros path files Hdepth; [lia|]. cbn [collect_json_files].
  destruct (fs_is_file path w); [by eexists|]. destruct (fs_is_dir path w) eqn:Hdir; cbn [negb]; [|by eexists].
  destruct (fs_read_dir path w) as [listed|] eqn:Hread; cbn [context map_err]; [|by eexists].
  assert (Hall : forall entry, Ok entry ∈ listed -> forall files, is_Some (collect_json_files depth w (join_path path (entry_name entry)) files)).
  { intros entry Hin files'. apply IH. pose proof (Hnested _ _ _ Hdir Hread Hin). lia. }
  clear Hread IH. revert files. induction listed as [|[entry|e] listed IHl]; intros files; cbn [collect_entries]; [by eexists| |by eexists].
  destruct (Hall entry ltac:(by left) files) as [[found|e] ->]; cbn [mbind option_bind]; [|by eexists].
  apply IHl. intros other Hin. apply Hall. by right.
Qed.

(** When the directories below the paths are nested less deep than the fuel, the
    validator returns. *)
Theorem validation_returns w height depth paths :
  nested_paths w height -> (forall path, path ∈ paths -> (height path < depth)%nat) ->
  is_Some (validate_paths depth paths w).
Proof.
  intros Hnested Hdepth. unfold validate_paths.
  assert (Hall : forall files, is_Some (collect_paths depth w paths files)).
  { induction paths as [|path paths IH]; intros files; cbn [collect_paths]; [by eexists|].
    destruct (collect_json_files_returns w height depth path files Hnested) as [[found|e] ->]; [apply Hdepth; by left| |by eexists].
    apply IH. intros other Hin. apply Hdepth. by right. }
  destruct (Hall []) as [collected ->]. by eexists.
Qed.
End Validation.

Section Schemas.
Context `{SchemaGenerator, ContractDecoders, !ToVecPretty Value} {W : Type} `{FileTree W}.

Definition schema_path (directory : string) (schema : GeneratedSchema) : string := join_path directory (gs_file_name schema).

(** The loop of [write_schemas]. *)
Definition write_schema (directory : string) (schema : GeneratedSchema) (w : W) : result unit Chain * W :=
  match to_vec_pretty (gs_document schema) with
  | Err e => (Err [e], w)
  | Ok text =>
      noted ("failed to write " +:+ schema_path directory schema) (fs_write (schema_path directory schema) (text +:+ lf) w)
  end.

Definition write_schemas (directory : string) (w : W) : result (list string) Chain * W :=
  step? _ with w := noted ("failed to create " +:+ directory) (fs_create_dir_all directory w) in
  match context "failed to generate schemas" generated_schemas with
  | Err e => (Err e, w)
  | Ok schemas =>
      step? _ with w := run_each (write_schema directory) schemas w in
      (Ok ((fun schema => "wrote " +:+ schema_path directory schema +:+ " (" +:+ document_kind_name (gs_kind schema) +:+ ")") <$> schemas), w)
  end.

(** The loop of [check_schemas]: the path of a schema that is stale. *)
Definition check_schema (directory : string) (w : W) (schema : GeneratedSchema) : result (list string) Chain :=
  let path := schema_path directory schema in
  let? contents := context ("failed to read " +:+ path) (fs_read path w) in
  let? checked_in := context (path +:+ " is not valid JSON") (from_slice contents) in
  Ok (if negb (value_eqb checked_in (gs_document schema)) then [path] else []).

Definition check_schemas (directory : string) (w : W) : result (list string) Chain :=
  let? schemas := context "failed to generate schemas" generated_schemas in
  let? stale := collect_results (check_schema directory w) schemas in
  match List.concat stale with
  | [] => Ok ["all checked-in schemas match the Rust contract types"]
  | stale => Err ["stale schemas: " +:+ String.concat ", " stale +:+ "; run `catalog-bench-contract schemas write`"]
  end.

(** *** Schemas lie at distinct paths *)

Lemma split_free t : contains_byte 47 t = false -> EnginePlan.split_byte 47 t = [t].
Proof.
  unfold contains_byte. induction t as [|c t IH]; [done|]. cbn. intros [Hc Ht]%orb_false_iff. by rewrite Hc, (IH Ht).
Qed.

Lemma split_some s : EnginePlan.split_byte 47 s <> [].
Proof. destruct s as [|c s]; cbn; [done|]. destruct (is_byte 47 c); [done|]. by destruct (EnginePlan.split_byte 47 s). Qed.

Lemma split_after_slash s t :
  contains_byte 47 t = false -> EnginePlan.split_byte 47 (s +:+ ("/" +:+ t)) = (EnginePlan.split_byte 47 s ++ [t])%list.
Proof.
  intros Ht. induction s as [|c s IH].
  - change ("" +:+ ("/" +:+ t)) with (String "/" t). cbn [EnginePlan.split_byte]. by rewrite (split_free _ Ht).
  - change (String c s +:+ ("/" +:+ t)) with (String c (s +:+ ("/" +:+ t))). cbn [EnginePlan.split_byte]. rewrite IH.
    pose proof (split_some s). destruct (is_byte 47 c); [done|]. by destruct (EnginePlan.split_byte 47 s).
Qed.

(** A name that is one ordinary component. *)
Definition plain_name (name : string) : bool :=
  negb (contains_byte 47 name) && negb (is_empty name) && negb (name =? ".") && negb (name =? "..").

Lemma joined_last_part directory name :
  plain_name name = true -> last (path_parts (join_path directory name)) = Some (NamePart name).
Proof.
  unfold plain_name. rewrite !andb_true_iff, !negb_true_iff. intros [[[Hslash Hempty] Hdot] Hdots].
  assert (Hpieces : exists front, EnginePlan.split_byte 47 (join_path directory name) = (front ++ [name])%list).
  { unfold join_path. destruct (starts_with "/" name) eqn:Hstart.
    - apply prefix_spec in Hstart as [rest ->]. done.
    - destruct (is_empty directory) eqn:Hdirectory; cbn [orb].
      + apply is_empty_spec in Hdirectory as ->. exists []. by apply split_free.
      + destruct (ends_with "/" directory) eqn:Hend.
        * apply ends_with_spec in Hend as [front ->]. rewrite string_app_assoc. eexists. by apply split_after_slash.
        * eexists. by apply split_after_slash. }
  destruct Hpieces as [front Hpieces]. unfold path_parts. rewrite Hpieces. cbv zeta.
  rewrite List.filter_app. cbn [List.filter]. rewrite Hempty, Hdot. cbn [orb negb].
  rewrite fmap_app, app_assoc. cbn. rewrite last_snoc. unfold path_part. by rewrite Hdots.
Qed.

Lemma generated_files schemas : generated_schemas = Ok schemas -> gs_file_name <$> schemas = SCHEMA_FILES.*2.
Proof.
  unfold generated_schemas. intros Hschemas%collect_results_Ok. induction Hschemas as [|file schema files schemas Hschema _ IH]; [done|].
  cbn. f_equal; [|exact IH]. unfold generate_schema in Hschema. by apply bind_Ok in Hschema as (document & _ & [= <-]).
Qed.

Lemma schema_paths_distinct directory schemas :
  generated_schemas = Ok schemas -> NoDup ((fun schema => path_parts (schema_path directory schema)) <$> schemas).
Proof.
  intros Hfiles%generated_files. apply (NoDup_fmap_1 last). rewrite <-list_fmap_compose.
  assert (Hlast : (fun schema => last (path_parts (schema_path directory schema))) <$> schemas
                  = (fun name => Some (NamePart name)) <$> (SCHEMA_FILES).*2).
  { rewrite <-Hfiles, <-list_fmap_compose. apply list_fmap_ext. intros i schema Hschema. cbn.
    apply joined_last_part. assert (Hin : gs_file_name schema ∈ SCHEMA_FILES.*2).
    { rewrite <-Hfiles. apply list_elem_of_fmap. exists schema. split; [done|]. by eapply list_elem_of_lookup_2. }
    revert Hin. generalize (gs_file_name schema). intros name Hin. apply list_elem_of_In in Hin. cbn in Hin.
    repeat destruct Hin as [<-|Hin]; try done. }
  unfold compose. rewrite Hlast. apply (bool_decide_unpack _). vm_compute. exact I.
Qed.

(** What is written is read; files elsewhere are as before. *)
Class FileWriteLaws := {
  write_reads path content u w w' : fs_write path content w = (Ok u, w') -> fs_read path w' = Ok content;
  write_frames path content other w : path_parts other <> path_parts path ->
    fs_read other (fs_write path content w).2 = fs_read other w;
}.
Context `{FileWriteLaws}.

(** The file of a schema holds its text. *)
Definition schema_written (directory : string) (w : W) (schema : GeneratedSchema) : Prop :=
  exists text, to_vec_pretty (gs_document schema) = Ok text /\ fs_read (schema_path directory schema) w = Ok (text +:+ lf).

Lemma write_each_schema directory schemas w w' :
  NoDup ((fun schema => path_parts (schema_path directory schema)) <$> schemas) ->
  run_each (write_schema directory) schemas w = (Ok tt, w') ->
  Forall (schema_written directory w') schemas /\
  forall other, path_parts other ∉ (fun schema => path_parts (schema_path directory schema)) <$> schemas ->
    fs_read other w' = fs_read other w.
Proof.
  revert w. induction schemas as [|schema schemas IH]; intros w; cbn [run_each]; [by intros _ [= ->]|].
  rewrite fmap_cons. intros [Hnew Hdistinct]%NoDup_cons. unfold write_schema at 1, noted.
  destruct (to_vec_pretty (gs_document schema)) as [text|e] eqn:Htext; [|done].
  destruct (fs_write _ _ w) as [[u|e] w1] eqn:Hwrite; cbn [context map_err fst snd]; [|done].
  intros Hrest. apply IH in Hrest as [Hall Hframe]; [|done]. split.
  - constructor; [|done]. exists text. split; [done|]. rewrite (Hframe _ Hnew). by eapply write_reads.
  - intros other Hother. rewrite elem_of_cons in Hother. rewrite Hframe by tauto.
    rewrite <-(write_frames (schema_path directory schema) (text +:+ lf) other w) by tauto. by rewrite Hwrite.
Qed.

(** Schemas that were written pass the check: with a printer of JSON whose texts
    are read back, the writer leaves a directory in which no schema is stale. *)
Theorem written_schemas_are_current directory schemas lines w w' :
  generated_schemas = Ok schemas ->
  (forall schema text, schema ∈ schemas -> to_vec_pretty (gs_document schema) = Ok text ->
     exists value, from_slice (text +:+ lf) = Ok value /\ value_eqb value (gs_document schema) = true) ->
  write_schemas directory w = (Ok lines, w') ->
  check_schemas directory w' = Ok ["all checked-in schemas match the Rust contract types"].
Proof.
  intros Hschemas Htexts. pose proof (schema_paths_distinct directory _ Hschemas) as Hdistinct.
  unfold write_schemas, check_schemas, noted. rewrite Hschemas.
  destruct (fs_create_dir_all _ w) as [[u|e] w1]; cbn [context map_err fst snd]; [|done].
  destruct (run_each _ _ w1) as [[[]|e] w2] eqn:Hrun; [|done]. intros [= _ <-].
  apply write_each_schema in Hrun as [Hall _]; [|done]. clear Hschemas Hdistinct.
  assert (Hnone : exists stale, collect_results (check_schema directory w2) schemas = Ok stale /\ List.concat stale = []).
  { induction Hall as [|schema schemas (text & Htext & Hread) _ IH]; cbn [collect_results]; [by exists []|].
    destruct IH as (stale & Hstale & Hnone); [intros other ? ?; apply Htexts; by right|].
    destruct (Htexts schema text ltac:(by left) Htext) as (value & Hvalue & Heqb).
    unfold check_schema at 1. rewrite Hread. cbn [context map_err]. rewrite Hvalue. cbn [context map_err]. rewrite Heqb. cbn [negb].
    rewrite Hstale. by eexists. }
  destruct Hnone as (stale & -> & ->). reflexivity.
Qed.
End Schemas.
Arguments FileWriteLaws W {_}.

Section ContractTool.
Context `{UrlParser, UrlOps, ContractDecoders, Ledger.Sha256, EngineParametersDecoder, CanonicalEngineScenario}.
Context `{ObjectPaths, UuidParser, ValuesWriter, !Serialize EngineTranscript, !ToVecPretty EngineTranscript}.
Context `{TranscriptDecoder, ReviewDecoder, MaterializationDecoder, !ToVecPretty Profile, FloatDisplay, DebugMetric}.
Context `{!TsvReader SummaryRow, !TsvReader RunRow, !TsvReader AuditRow, !ToVecPretty ResultRecord}.
Context `{!ToVecPretty ResultBundleManifest, !Serialize ContentionBundle.Transcript, ParametersDecoder, CanonicalScenario}.
Context `{!ContentionTranscriptDecoder, !ContentionReviewDecoder, !FromValue AssertionOutcome, !Phase1ReviewDecoder}.
Context `{!ToVecPretty Value, SchemaGenerator} {W : Type} `{FileTree W, FileCreation W, DirectoryTests W} (depth : nat).

#[local] Instance source_backed : SourceBackedBundles W := recomputed_bundles depth.

(** What a command ends with: its lines or its error, and the files; [None] when
    directories are nested deeper than [depth] or a review panics. *)
Definition Ending : Type := option (result (list string) Chain * W).

(** A command that only reads. *)
Definition read_only (w : W) (outcome : result (list string) Chain) : Ending := Some (outcome, w).

Definition validate_bundle (manifest : string) (w : W) : result (list string) Chain :=
  let? bundle := load_bundle manifest w in
  Ok ["valid bundle " +:+ manifest +:+ ": " +:+ display (len (vb_scenarios bundle)) +:+ " scenario(s), "
      +:+ display (len (vb_results bundle)) +:+ " result(s)"].

Definition write_matrix (manifest output : string) (w : W) : result (list string) Chain * W :=
  match (let? bundle := load_bundle manifest w in render_matrix bundle) with
  | Err e => (Err e, w)
  | Ok rendered =>
      step? _ with w := match parent_path output with
                        | Some parent => noted ("failed to create " +:+ parent) (fs_create_dir_all parent w)
                        | None => (Ok tt, w)
                        end in
      step? _ with w := noted ("failed to write " +:+ output) (fs_write output rendered w) in
      (Ok ["wrote " +:+ output], w)
  end.

(** [fs::read_to_string]. *)
Definition read_to_string (path : string) (w : W) : result string string :=
  let? bytes := fs_read path w in
  guard negb (valid_utf8 bytes) or "stream did not contain valid UTF-8" in
  Ok bytes.

Definition check_matrix (manifest output : string) (w : W) : result (list string) Chain :=
  let? bundle := load_bundle manifest w in
  let? expected := render_matrix bundle in
  let? actual := context ("failed to read " +:+ output) (read_to_string output w) in
  guard negb (actual =? expected) or [output +:+ " is stale; rerun `catalog-bench-contract matrix write`"] in
  Ok [output +:+ " matches its validated result bundle"].

(** The profile commands: a writer or a check of the output. *)
Definition wrote_profile (files : ProfileFiles) (outcome : result unit Chain * W) : Ending :=
  Some (result_map (fun _ => ["wrote " +:+ pff_output files]) outcome.1, outcome.2).
Definition checked_profile (files : ProfileFiles) (w : W) (outcome : result unit Chain) : Ending :=
  read_only w (result_map (fun _ => [pff_output files +:+ " matches its materialization inputs"]) outcome).
Definition on_files {A} (entry : string -> string -> string -> W -> A) (files : ProfileFiles) (w : W) : A :=
  entry (pff_source_profile files) (pff_materialization files) (pff_output files) w.

Definition run_profile (command : ProfileCommand) (w : W) : Ending :=
  match command with
  | MaterializePhase1 files => wrote_profile files (on_files Phase1Profile.write_phase1_profile files w)
  | CheckPhase1 files => checked_profile files w (on_files Phase1Profile.check_phase1_profile files w)
  | MaterializeContention files => wrote_profile files (on_files ContentionProfile.write_contention_profile files w)
  | CheckContention files => checked_profile files w (on_files ContentionProfile.check_contention_profile files w)
  | MaterializeSpark files => wrote_profile files (on_files SparkProfile.write_spark_profile files w)
  | CheckSpark files => checked_profile files w (on_files SparkProfile.check_spark_profile files w)
  | MaterializeFlink files => wrote_profile files (on_files FlinkProfile.write_flink_profile files w)
  | CheckFlink files => checked_profile files w (on_files FlinkProfile.check_flink_profile files w)
  | MaterializeTrino files => wrote_profile files (on_files TrinoProfile.write_trino_profile files w)
  | CheckTrino files => checked_profile files w (on_files TrinoProfile.check_trino_profile files w)
  end.

(** An import command: the bundle it wrote or checked, validated again. *)
Definition validate_imported (imported : option (result string Chain * W)) : Ending :=
  imported ≫= (fun '(outcome, w) => read_only w (let? manifest := outcome in validate_bundle manifest w)).
Definition unchanged {A} (w : W) (outcome : option A) : option (A * W) := (fun a => (a, w)) <$> outcome.

Definition run_historical (command : ImportCommand) (w : W) : Ending :=
  match command with
  | WriteImport root => validate_imported (Some (write_historical_commit_bundle root w))
  | CheckImport root => validate_imported (unchanged w (Some (LegacyCommit.check_historical_commit_bundle root w)))
  end.
Definition run_contention_import (command : ImportCommand) (w : W) : Ending :=
  match command with
  | WriteImport root => validate_imported (Some (write_contention_result_bundle root w))
  | CheckImport root => validate_imported (unchanged w (Some (check_contention_bundle root w)))
  end.
Definition run_phase1_import (command : ImportCommand) (w : W) : Ending :=
  match command with
  | WriteImport root => validate_imported (write_phase1_bundle depth root w)
  | CheckImport root => validate_imported (unchanged w (check_phase1_bundle depth root w))
  end.
Definition run_engine_import (command : EngineImportCommand) (w : W) : Ending :=
  match command with
  | WriteEngine file => validate_imported (write_engine_result_bundle depth (erf_root file) (erf_review file) w)
  | CheckEngine file => validate_imported (unchanged w (check_engine_result_bundle depth (erf_root file) (erf_review file) w))
  end.

Definition summary_text (counts : EngineEvidenceSummary) : string :=
  display (sum_total counts) +:+ " transcript(s), " +:+ display (sum_pass counts) +:+ " pass, " +:+ display (sum_fail counts)
  +:+ " fail, " +:+ display (sum_fixture_collision counts) +:+ " fixture collision".

Definition run_evidence (command : EngineEvidenceCommand) (w : W) : Ending :=
  match command with
  | ValidateEvidence files =>
      read_only w (let? evidence := validate_engine_evidence_set (eef_profile files) (eef_scenario files)
                                    (eef_evidence_directory files) (eef_fixture_id files) w in
                 Ok ["valid engine evidence " +:+ eef_evidence_directory files +:+ ": " +:+ summary_text (summary evidence)])
  | ValidateReview file =>
      validated ← validate_engine_result_review (erf_root file) (erf_review file) w;
      read_only w (let? validated := validated in
                 Ok ["valid reviewed engine evidence " +:+ erf_review file +:+ ": bundle "
                     +:+ rb_id (er_bundle (vrev_review validated)) +:+ ", " +:+ summary_text (summary (vrev_evidence validated))])
  end.

Definition run_publication (command : PublicationCommand) (w : W) : result (list string) Chain * W :=
  match command with
  | WritePublication files =>
      match publication_profile (pbf_profile files) with
      | Err e => (Err e, w)
      | Ok profile =>
          step? _ with w := write_publication (pbf_root files) profile w in
          (Ok ["wrote and verified cross-scenario publication"], w)
      end
  | CheckPublication files =>
      (let? profile := publication_profile (pbf_profile files) in
       check? check_publication (pbf_root files) profile w in
       Ok ["valid cross-scenario publication (" +:+ pbf_profile files +:+ ")"], w)
  end.

(** [run]. *)
Definition run_contract (command : ContractCommand) (w : W) : Ending :=
  match command with
  | SchemasCommand (WriteSchemas directory) => Some (write_schemas directory w)
  | SchemasCommand (CheckSchemas directory) => read_only w (check_schemas directory w)
  | ValidateCommand paths => outcome ← validate_paths depth paths w; read_only w outcome
  | BundleCommand manifest => read_only w (validate_bundle manifest w)
  | MatricesCommand (WriteMatrix manifest output) => Some (write_matrix manifest output w)
  | MatricesCommand (CheckMatrix manifest output) => read_only w (check_matrix manifest output w)
  | ProfilesCommand command => run_profile command w
  | HistoricalImportCommand command => run_historical command w
  | ContentionImportCommand command => run_contention_import command w
  | EvidenceCommand command => run_evidence command w
  | EngineImportsCommand command => run_engine_import command w
  | PublicationsCommand command => Some (run_publication command w)
  | Phase1ImportCommand command => run_phase1_import command w
  end.

Definition contract_main (command : ContractCommand) (w : W) : option (Z * W) :=
  '(outcome, w) ← run_contract command w;
  Some (if is_ok outcome then 0%Z else 1%Z, w).

(** *** What the exit status of the tool means *)

(** The commands that generate nothing. *)
Definition only_checks (command : ContractCommand) : bool :=
  match command with
  | SchemasCommand (CheckSchemas _) | ValidateCommand _ | BundleCommand _ | MatricesCommand (CheckMatrix _ _) => true
  | ProfilesCommand (CheckPhase1 _ | CheckContention _ | CheckSpark _ | CheckFlink _ | CheckTrino _) => true
  | HistoricalImportCommand (CheckImport _) | ContentionImportCommand (CheckImport _) | Phase1ImportCommand (CheckImport _) => true
  | EvidenceCommand _ | EngineImportsCommand (CheckEngine _) | PublicationsCommand (CheckPublication _) => true
  | _ => false
  end.
(** The commands that end by loading a bundle. *)
Definition imports_bundle (command : ContractCommand) : bool :=
  match command with
  | HistoricalImportCommand _ | ContentionImportCommand _ | Phase1ImportCommand _ | EngineImportsCommand _ => true
  | _ => false
  end.

Lemma imported_ends imported outcome w' :
  validate_imported imported = Some (outcome, w') ->
  exists named, imported = Some (named, w') /\
    forall lines, outcome = Ok lines -> exists manifest bundle, named = Ok manifest /\ load_bundle manifest w' = Ok bundle.
Proof.
  unfold validate_imported. destruct imported as [[named w]|]; [|done]. intros [= <- <-]. exists named. split; [done|].
  intros lines Hok. apply bind_Ok in Hok as (manifest & -> & Hok). apply bind_Ok in Hok as (bundle & Hbundle & _).
  by exists manifest, bundle.
Qed.

Lemma unchanged_ends {A} w (outcome : option A) a w' : unchanged w outcome = Some (a, w') -> w' = w.
Proof. unfold unchanged. destruct outcome; [by intros [= _ <-]|done]. Qed.

(** A checking command leaves the files as they are; an import that exits with 0 has
    left a bundle that loads: every artifact has its digest and every link resolves. *)
Theorem contract_exit_is_sound command w code w' :
  contract_main command w = Some (code, w') ->
  (only_checks command = true -> w' = w) /\
  (imports_bundle command = true -> code = 0%Z -> exists manifest bundle, load_bundle manifest w' = Ok bundle).
Proof.
  unfold contract_main. destruct (run_contract command w) as [[outcome w1]|] eqn:Hrun; [|done]. intros [= <- <-].
  destruct command as [[]|paths|manifest|[]|[]|[]|[]|[]|[]|[]|[]];
    cbn [run_contract run_historical run_contention_import run_phase1_import run_engine_import run_evidence run_profile] in Hrun;
    cbn [only_checks imports_bundle];
    try (apply imported_ends in Hrun as (named & Hnamed & Hends)); (split; [try done|try done]).
  all: try (intros _; destruct outcome as [lines|]; [|done]; intros _;
            destruct (Hends _ eq_refl) as (manifest & bundle & _ & Hbundle); by exists manifest, bundle).
  all: intros _; try (by eapply unchanged_ends); try (by injection Hrun as _ <-).
  - destruct (validate_paths _ _ _); cbn in Hrun; [by injection Hrun as _ <-|done].
  - destruct (validate_engine_result_review _ _ _); cbn in Hrun; [by injection Hrun as _ <-|done].
Qed.
End ContractTool.

(** ** The programs at concrete inputs

    A working directory with a profile and a scenario, and the scripted catalog of
    the other samples. *)

From S2P Require Import SampleWorld Samples Witnesses.

(** Calls never fail and writes take three bytes at a time. *)
#[export] Instance short_writes : SystemFaults := { call_fault _ _ _ := None; write_some _ _ := Ok 3%nat }.
#[export] Instance plain_meaning : PathMeaning := fun path => path.
#[export] Instance one_temporary : TemporaryNames := fun directory prefix _ => join_path directory (prefix +:+ "0001").

Definition working_directory : Disk := {|
  fd_names := {[ "profile.json" := 0%N; "scenario.json" := 1%N ]};
  fd_inodes := {[ 0%N := "profile"; 1%N := "scenario" ]};
  fd_directories := {[ "." ]};
  fd_synced := {[ 0%N; 1%N ]};
  fd_synced_names := {[ "profile.json" := 0%N; "scenario.json" := 1%N ]};
|}.

Lemma working_directory_sound : disk_sound working_directory.
Proof.
  intros name inode. unfold working_directory. cbn [fd_names fd_inodes].
  rewrite lookup_insert_Some, lookup_singleton_Some. intros [[_ <-]|[_ [_ <-]]]; [by eexists|].
  rewrite lookup_insert_ne by done. by eexists.
Qed.

Lemma evidence_apart d : resolve (temporary_path (output_parent "out/evidence.json") OUTPUT_PREFIX d) <> resolve "out/evidence.json".
Proof. discriminate. Qed.

Example evidence_run :
  let '(outcome, r) := write_new_evidence "out/evidence.json" "evidence" (begin working_directory) in
  (is_ok outcome, read_name "out/evidence.json" (run_disk r), size (fd_names (run_disk r)), length (moments r))
  = (true, Some "evidence", 3%nat, 10%nat).
Proof. vm_compute. reflexivity. Qed.


Lemma new_evidence_is_published_witness :
  exists r, write_new_evidence "out/evidence.json" "evidence" (begin working_directory) = (Ok tt, r).
Proof.
  apply (new_evidence_is_published working_directory "out/evidence.json" "evidence").
  - exact evidence_apart.
  - reflexivity.
  - intros rest d _. by exists 2%nat.
  - intros p Hp. vm_compute in Hp. apply list_elem_of_singleton in Hp as ->. split; [reflexivity|discriminate].
  - reflexivity.
  - vm_compute. discriminate.
  - intros d ->. reflexivity.
Defined.

(** The contracts of the config probe, for one catalog. *)
Definition alpha_profile : Profile := let p := profile_of config_policy in {|
  prof_contract_version := prof_contract_version p; prof_kind := prof_kind p; prof_id := prof_id p; prof_title := prof_title p;
  prof_description := prof_description p; prof_resolved_at := prof_resolved_at p; prof_purpose := prof_purpose p;
  prof_readiness := prof_readiness p; prof_platform := prof_platform p;
  prof_components := List.filter (fun c => negb (comp_id c =? "beta")) (prof_components p);
  prof_services := List.filter (fun s => negb (svc_component s =? "beta")) (prof_services p);
  prof_catalog_capabilities := prof_catalog_capabilities p; prof_catalog_adapters := take 1 (prof_catalog_adapters p);
  prof_extensions := ∅ |}.

#[local] Instance command_decoders : ContractDecoders := {
  from_slice text := Ok (json_object [("kind", Str text)]);
  from_value_scenario _ := Ok (scenario_of config_policy);
  from_value_result _ := Err "not a result";
  from_value_profile _ := Ok alpha_profile;
  from_value_manifest _ := Err "not a manifest";
}.
#[local] Instance no_namespace_answers : FromValue TableProtocol.NamespaceResponse := fun _ => Err "not a namespace".
#[local] Instance no_table_listings : FromValue ListTablesResponse := fun _ => Err "not a listing".
#[local] Instance no_errors : FromValue IcebergErrorResponse := fun _ => Err "not an error".

Definition config_command : ProbeCommand := ConfigCommand {|
  cfg_profile := "profile.json"; cfg_scenario := "scenario.json"; cfg_catalog := "alpha"; cfg_output := "out/evidence.json" |}.
Definition conformance_sample (answers : Script) (d : Disk) : Z * Disk * Script :=
  conformance_main config_command no_env d answers.

(** A pass, a failure, and a second run on the same output. *)
Example exit_codes :
  let '(passed, d, _) := conformance_sample [answer 200 "config"] working_directory in
  let '(failed, _, _) := conformance_sample [answer 500 "config"] working_directory in
  let '(refused, _, _) := conformance_sample [answer 200 "config"] d in
  (passed, failed, refused) = (0, 2, 1)%Z.
Proof. vm_compute. reflexivity. Qed.

Lemma conformance_exit_states_the_verdict_witness :
  exists d evidence, conformance_sample [answer 200 "config"] working_directory = (0%Z, d, []) /\
    newly_published "out/evidence.json" evidence working_directory d.
Proof.
  destruct (conformance_sample [answer 200 "config"] working_directory) as [[code d] script] eqn:Hrun.
  assert (Hcode : code = 0%Z /\ script = []) by (vm_compute in Hrun; by injection Hrun as <- _ <-).
  destruct Hcode as [-> ->].
  destruct (conformance_exit_states_the_verdict config_command no_env working_directory [answer 200 "config"] 0%Z d [])
    as [_ [Hone|(contracts & passed & evidence & _ & _ & Hnew & _)]].
  - exact working_directory_sound.
  - exact evidence_apart.
  - exact Hrun.
  - discriminate Hone.
  - exists d, evidence. split; [reflexivity|exact Hnew].
Defined.

(** A directory tree with two contract files and one text file. *)
Record Shelf := { shelf_files : list (string * string); shelf_directories : list (string * list string) }.
Definition shelf_lookup {A} (path : string) (l : list (string * A)) : option A :=
  snd <$> find (fun e : string * A => bool_decide (path_parts e.1 = path_parts path)) l.
#[local] Instance shelf_tree : FileTree Shelf := {
  fs_read path s := ok_or (shelf_lookup path (shelf_files s)) "not found";
  fs_len path s := result_map str_len (ok_or (shelf_lookup path (shelf_files s)) "not found");
  fs_symlink_type path s :=
    if is_some (shelf_lookup path (shelf_files s)) then Ok Regular
    else if is_some (shelf_lookup path (shelf_directories s)) then Ok Directory else Err "not found";
  fs_is_file path s := is_some (shelf_lookup path (shelf_files s));
  fs_read_dir path s :=
    result_map (fun names => (fun name => Ok {| entry_name := name; entry_type := Ok OtherFile |}) <$> names)
      (ok_or (shelf_lookup path (shelf_directories s)) "not found");
  fs_write path content s := (Ok tt, {| shelf_files := (path, content) :: shelf_files s; shelf_directories := shelf_directories s |});
  fs_create_dir_all path s := (Ok tt, {| shelf_files := shelf_files s; shelf_directories := (path, []) :: shelf_directories s |});
  fs_canonicalize path _ := Ok path;
}.
#[local] Instance shelf_directory_tests : DirectoryTests Shelf := fun path s => is_some (shelf_lookup path (shelf_directories s)).

Definition contract_shelf : Shelf := {|
  shelf_files := [("contracts/profile.json", "profile"); ("contracts/more/scenario.json", "scenario"); ("contracts/notes.txt", "notes")];
  shelf_directories := [("contracts", ["profile.json"; "more"; "notes.txt"]); ("contracts/more", ["scenario.json"])] |}.

Lemma shelf_reads_by_components (p q : string) (s : Shelf) : path_parts p = path_parts q -> fs_read p s = fs_read q s.
Proof. intros Hparts. cbn. unfold shelf_lookup. by rewrite Hparts. Qed.

Lemma validation_accepts_exactly_contracts_witness :
  exists lines, validate_paths 4 ["contracts"; "contracts//profile.json"] contract_shelf = Some (Ok lines).
Proof.
  apply (validation_accepts_exactly_contracts 4 ["contracts"; "contracts//profile.json"]
    ["contracts/profile.json"; "contracts/more/scenario.json"; "contracts//profile.json"] contract_shelf).
  - intros p q. apply shelf_reads_by_components.
  - vm_compute. reflexivity.
  - split; [discriminate|].
    assert (Hall : Forall (holds_contract contract_shelf)
      ["contracts/profile.json"; "contracts/more/scenario.json"; "contracts//profile.json"]).
    { repeat constructor; eexists _, _; split; vm_compute; reflexivity. }
    rewrite Forall_forall in Hall. exact Hall.
Defined.

(** Schemas that are only an identifier, printed as its text. *)
#[local] Instance bare_schemas : SchemaGenerator := fun _ => Ok (json_object []).
#[local] Instance identifier_text : ToVecPretty Value := fun value => ok_or (get_key "$id" value ≫= as_str) "no identifier".
#[local] Instance identifier_decoders : ContractDecoders := {
  from_slice text := Ok (json_object [("$id", Str (String.substring 0 (String.length text - 1) text))]);
  from_value_scenario _ := Err "not a scenario"; from_value_result _ := Err "not a result";
  from_value_profile _ := Err "not a profile"; from_value_manifest _ := Err "not a manifest";
}.
#[local] Instance shelf_write_laws : FileWriteLaws Shelf.
Proof.
  split.
  - intros path content u s s' [= _ <-]. cbn. unfold shelf_lookup. cbn [find fst]. by rewrite bool_decide_eq_true_2.
  - intros path content other s Hother. cbn. unfold shelf_lookup. cbn [find fst]. rewrite bool_decide_eq_false_2; [done|]. by intros Heq; apply Hother.
Qed.

Lemma written_schemas_are_current_witness :
  exists s, (write_schemas "schemas" contract_shelf).2 = s /\
    check_schemas "schemas" s = Ok ["all checked-in schemas match the Rust contract types"].
Proof.
  destruct (write_schemas "schemas" contract_shelf) as [[lines|e] s] eqn:Hwrite; [|by vm_compute in Hwrite].
  exists s. split; [reflexivity|].
  eapply (written_schemas_are_current "schemas"); [reflexivity| |exact Hwrite].
  intros schema text Hschema Htext. apply list_elem_of_In in Hschema.
  repeat (destruct Hschema as [<-|Hschema];
    [vm_compute in Htext; injection Htext as <-; eexists; split; vm_compute; reflexivity|]).
  destruct Hschema.
Defined.
